(* ===== verification/_CoqProject ===== *)
-Q . S2P
Prelude.v
Byteswap.v
Checksum.v
Toeplitz.v
DNodes.v
QueueSpec.v
LinkedList.v
Deque.v
Memory.v
Vector.v
RingBuffer.v
RingConcurrent.v
SlidingWindow.v
MessageQueue.v
Packet.v
PktMeta.v
Layer2.v
Layer3.v
Transport.v
Ospf.v
HashPacket.v
Strip.v
Linktypes.v
Combiners.v
CombinerSorted.v
Buckets.v
ObjectCache.v
Timestamps.v
Wireless.v
FormatHelper.v
PcapFile.v
Uri.v
Filter.v
Trace.v
ParConfig.v
Statistics.v
Erf.v
OldFormats.v
Events.v
Pcap.v
Odp.v
LinuxRing.v
LinuxNative.v
Rt.v
Parallel.v
FirstServed.v
ParThreads.v
ParStates.v
ParQuiesce.v
ParDelivery.v
ParPipeline.v
ParRouting.v
ParErrors.v
ParMessages.v
