(* ===== verification/Prelude.v ===== *)
(** * libtrace: a verification development

    libtrace reads packets from trace files and network interfaces and decodes
    them.  This library models the part of it that is computation rather than
    input and output, and proves what makes that part correct.

    ** The program

    A capture format (lib/format_*.c) turns bytes from a file or a device into
    packets and is known to the rest as a table of functions.  A packet
    ([libtrace_packet_t]) carries the bytes from the link layer on and a cache of
    what has been found out about them (lib/trace.c).  The decoders
    (lib/protocols_pktmeta.c, _l2.c, _l3.c, _transport.c, _application.c and
    _ospf.c) walk from header to header; each takes a pointer and the number of
    captured bytes that remain, and returns the next pointer and count.  The
    parallel API (lib/trace_parallel.c) gives packets to threads by a hash
    (lib/hash_toeplitz.c) and passes packets, results and messages through the
    containers of lib/data-struct.

    ** Conventions

    C code is a Rocq function.  Code that can fail returns an [outcome]: a value,
    or the [fault] the C program would run into (an access out of bounds, a null
    or dangling pointer, a failed assertion, a wait that only another thread can
    end, a division by zero, a variable that was never set, a floating-point number
    that an integer cannot hold).  Theorems that say a
    call "returns" therefore say that none of this happens.  Machine integers
    are [Z], with wrap-around written out ([u8] to [u64], [i32]); [size_t] is
    64 bits wide and the host is little endian.  Memory is a list of bytes and
    a pointer into it an offset.  In and out parameters are arguments and
    results; an [option] stands for a pointer that may be null.  Where a local
    variable of the source may be used before it is set, its value is an
    argument ([e0], [proto0]).  Loops that are not structural carry a counter,
    and running out of it is the fault [OutOfFuel]: the theorems show that the
    counters given suffice (the bytes of a packet for the decoders, since
    every round consumes at least one; three for the carries of a checksum and
    for meta-data headers), except where a loop of the program really does not
    end ([Ospf.ospf_lsa_walk], [Erf.fast_seek_diverges],
    [ParErrors.pause_after_end_never_returns]).

    ** The files

    - Prelude: outcomes, machine integers, arrays, tactics and hint databases.
    - Byteswap (lib/byteswap.c), Checksum (lib/checksum.c), Toeplitz
      (lib/hash_toeplitz.c): carries fold to the one's complement sum, a header
      with its checksum verifies, the checksum does not depend on the byte order
      of the host, a key of repeated sixteen-bit words makes the hash symmetric.
    - DNodes: a heap of doubly linked nodes and the predicate that it holds a
      sequence.  QueueSpec: the interface of a double-ended queue, as a class of
      operations and a class of laws, and what follows from the laws for runs of
      calls.  LinkedList (data-struct/linked_list.c) and Deque
      (data-struct/deque.c): refinement of the sequence; Deque is an instance of
      the interface.
    - Memory: malloc and realloc of byte blocks.  Vector (data-struct/vector.c):
      refinement of the sequence, append, callbacks, and what its sort does.
    - RingBuffer (data-struct/ring_buffer.c): refinement of a bounded FIFO,
      counting, locked versions.  RingConcurrent: one writer and one reader as
      threads that wait on condition variables; order and absence of deadlock
      for every interleaving.
    - SlidingWindow (data-struct/sliding_window.c): refinement of an abstract
      window and delivery in order.
    - MessageQueue (data-struct/message_queue.c): any number of threads over a
      pipe; order, the meaning of the counter, who holds the spin lock, and the states in
      which no thread can go on.
    - Packet (lib/trace.c): packets, formats, cached lengths; the predicate
      [good_advance] in which the decoders' accounting is stated.
    - PktMeta (lib/protocols_pktmeta.c), Layer2 (lib/protocols_l2.c), Layer3
      (lib/protocols_l3.c), Transport (lib/protocols_transport.c and
      lib/protocols_application.c): decoding never leaves the packet memory, ends,
      and accounts exactly for the bytes it skips, for every link type but
      802.11 and the OpenBSD loopback, whose deviations are proved; options,
      addresses, ports, fragment offsets, payload lengths and checksums; the
      caches answer as the search did, and where they do not.
    - Ospf (lib/protocols_ospf.c): the iterators over links and LSAs.
    - HashPacket: [toeplitz_hash_packet]; both directions of a connection get
      one hash, which is 0 for every packet if no option is set, as the program leaves
      it.  Strip: [trace_strip_packet]; the stripped packet, and its capture length
      for formats that can set it and that cannot.
    - Linktypes (lib/linktypes.c, [trace_get_server_port] of lib/trace.c):
      round trips of link types; the port chosen.
    - Combiners (lib/combiner_ordered.c, lib/combiner_unordered.c): over any
      implementation of the queue interface, the ordered combiner sends what the
      threads publish sorted by key, for every interleaving of publishing and
      reading, and the unordered one sends it queue by queue; how a tick is lost.
      A call is one step, so that a thread does not publish in the middle of a
      read; [total_size] bounds the rounds of the merge.  CombinerSorted
      (lib/combiner_sorted.c), over Vector: what the final read sends, and what
      becomes of it with fewer results than an element has bytes.
    - Buckets (data-struct/buckets.c), over LinkedList: for every sequence of
      calls that need not wait for an id, ids and buffers are given out and released
      correctly; what destroying the structure frees and leaks; how many slots and ids
      are in use.
    - ObjectCache (data-struct/object_cache.c), over RingBuffer: every object is
      in exactly one place, and calls return.
    - Timestamps (lib/trace.c): conversions between the four forms of time, also
      floating point, and seeking.
    - Wireless (lib/link_wireless.c): where Radiotap fields are looked for, and
      where the documented layout puts them.
    - FormatHelper (lib/format_helper.c): errors and files.  libwandio is not part
      of the repository: the class [Wandio] has its operations and the class
      [WandioFile] what is relied on; files in memory are an instance.
    - PcapFile (lib/format_pcapfile.c, [demote_packet] of lib/linktypes.c): packet
      objects with their buffers; writing a file and reading it gives the packets
      back, but for Radiotap and SLL; the outcomes of reading arbitrary bytes.
    - Uri (lib/trace.c): parsing of URIs and choice of the format.
    - Filter (lib/trace.c): copies of packets and filters; compiling and running
      BPF programs are parameters.
    - Trace (lib/trace.c, [trace_set_hasher] of lib/trace_parallel.c): traces,
      packets, filters and buckets as objects of a heap, a format as a record of
      functions, the mutex of a trace free, held or destroyed.  Calls of programs that
      keep two rules about sharing packets and the order of destruction fail only where
      the format or the filter does, and in destroying a trace that has a last packet,
      whose mutex is locked after it was destroyed; what happens to the other programs.
      The record [module_ok] is what a trace relies on of its format (reading makes
      progress and does not touch buckets; it may fail), and the pcap file module is
      shown to have it; [left], the number of packets that a format has to give, bounds
      the rounds of a read.
    - Statistics (lib/trace.c): counters of traces and their threads.
    - Erf (lib/format_erf.c): ERF records; the round trip through a file, reading
      arbitrary bytes, extension headers, and the search of an index, whose model
      runs out of any counter because the search does not end.
    - OldFormats (lib/format_tsh.c, lib/format_legacy.c, lib/format_atmhdr.c,
      lib/format_duck.c): formats with records of fixed size; files read to their end,
      DUCK files written and read, and the clock of NZIX traces.
    - Events ([trace_event] of lib/trace.c, lib/format_helper.c): playing a trace file
      back with the gaps between its packets, and polling a device.  Whatever the clock
      says, the packets are given out in order, each once.  The clock, the answers of
      [select] and the addresses of new packets are arguments.
    - Pcap (lib/format_pcap.c, [promote_packet] of lib/linktypes.c): files and interfaces
      through libpcap, which is not part of the repository: the class [Libpcap] has its
      calls, [LibpcapFile] what its manual says of files.  Writing and reading gives the
      packets back; a packet read stays in libpcap's memory, so that of several packets
      read in a row only the last can be used; what setting a direction does.
    - Odp (lib/format_odp.c): capturing with OpenDataPlane.  The class [Odp] is the
      interface that is called, [OdpPackets] what is relied on; the packets of the
      queue reach the user, and their buffers go back, except for invalid packets
      and the one that ends the trace.
    - LinuxRing (lib/format_linux_ring.c, lib/format_linux_common.h): the packet ring
      that the program shares with the kernel: its sizes, its frames, reading,
      releasing and sending, and a step relation in which the kernel fills frames
      at any time; packets arrive in order and a held one is not overwritten.
      Sockets, polling and mapping are parameters.
    - LinuxNative (lib/format_linux_int.c, lib/format_linux_common.c): packet sockets.  A
      socket is a queue; what arrives while the reader waits, and the answers of the
      kernel, are arguments.  Packets are read in order and cut at the snap length; a
      trace with a socket for each thread is opened as a whole or not at all; counters.
    - Rt (lib/format_rt.c, with the functions of other formats that prepare a packet):
      receiving messages over a connection into blocks that belong to buckets, and
      handing them to other formats.  The class [RtNet] is the network, [RtStream] what
      is relied on of a connection that does not break, in which [send] may take less
      than it is given.  Messages that the client converts become packets in
      order for every division of the stream into pieces; [rt_work], the bytes to come
      and the interruptions, bounds the rounds of a read.  A program that reads in the
      usual loop releases nothing and waits for ever in the end.
    - ParConfig (lib/trace_parallel.c): the settings of a parallel trace, by calls, by
      text, from the environment, and completed at the start.
    - Parallel (lib/trace_parallel.c): filtering a batch in place and the reader for
      parallel formats; [left] bounds the rounds.  FirstServed: threads that take turns
      to read, the first packets, and playing back in trace time.
    - ParThreads (lib/trace_parallel.c): messages, callbacks, the states of a trace and
      its threads, and the rounds of the loops of per-packet threads, hasher and
      reporter, over a pool of packets; ParStates: the calls of the main thread, cut
      where they wait, and the step relation of the whole system.  A round is one
      step, so that a thread is not interrupted within it.  ParQuiesce: the invariant
      of the system for every interleaving, the trace at rest when it is paused, and
      an executable scheduler whose runs are runs of the relation.  ParDelivery,
      ParPipeline, ParRouting: who owns the packets of the pool, what a round does
      with those of its thread, and the way of every packet from the trace to the user
      in every run of the system.  ParErrors: a pause out of place, a start
      that fails half way, a tick behind a packet, a pause after the end.  ParMessages:
      the users' message functions and the keepalive thread.

    The decoders read some fields before they check that they were captured; the
    accounting theorems ask for that many readable bytes behind the capture
    (four up to layer 3, ten for transport headers) and say so.

    ** Not modelled

    Printing and parsing of text (help, /proc/net/dev, packet dumps), capturing through
    BPF, DAG and DPDK, whose code is mostly calls of drivers that are not in the
    repository, generated and third-party code, and the programs in tools and examples;
    of the parallel framework the functions of formats that register threads and
    pausing from within a callback; the rest of seeking in ERF files, and what a
    combiner does when it is paused. *)

From Stdlib Require Export ZArith Lia ZifyNat.
From stdpp Require Export base option list sets gmap.

#[export] Set Default Proof Using "Type".
#[export] Set Default Goal Selector "!".

(** ** Outcomes of C code

    The modelled functions are C.  A call either returns a value or runs into
    one of the situations in which the C program does not return one:
    an access outside an object, the use of a null pointer, the use of a
    dangling pointer (also of a mutex that was destroyed), a failed [assert] (also the [ASSERT_RET] macro), a wait
    that nobody but another thread can end, the unlocking of a mutex that is not
    held, a division by zero, the use of a variable that was never set, the
    conversion of a floating-point number that the integer type cannot hold, or, for
    the loops whose model carries a counter, an exhausted counter. *)
Inductive fault : Type :=
| OutOfBounds
| NullDeref
| Dangling
| AssertFailed
| Blocked
| BadUnlock
| DivByZero
| Uninitialised
| BadConversion
| OutOfFuel.

Inductive outcome (A : Type) : Type :=
| Ok (a : A)
| Fault (f : fault).
Arguments Ok {A} _.
Arguments Fault {A} _.

Definition obind {A B} (c : outcome A) (k : A → outcome B) : outcome B :=
  match c with
  | Ok a => k a
  | Fault f => Fault f
  end.

Definition oassert (b : bool) : outcome unit :=
  if b then Ok tt else Fault AssertFailed.

Declare Scope outcome_scope.
Delimit Scope outcome_scope with outcome.
Notation "'let!' x ':=' c 'in' k" := (obind c (λ x, k))
  (at level 10, x binder, c at level 100, k at level 200,
   format "'[v' 'let!'  x  ':='  c  'in'  '/' k ']'") : outcome_scope.
Notation "'let!' ' p ':=' c 'in' k" := (obind c (λ x, match x with p => k end))
  (at level 10, p strict pattern, c at level 100, k at level 200) : outcome_scope.
#[export] Instance fault_eq_dec : EqDecision fault.
Proof. solve_decision. Defined.

#[export] Instance outcome_eq_dec {A} `{EqDecision A} : EqDecision (outcome A).
Proof. solve_decision. Defined.

Definition is_ok {A} (c : outcome A) : bool :=
  match c with Ok _ => true | Fault _ => false end.

Lemma obind_ok_inv {A B} (c : outcome A) (k : A → outcome B) (b : B) :
  obind c k = Ok b → ∃ a, c = Ok a ∧ k a = Ok b.
Proof. destruct c; simpl; [eauto | done]. Qed.

(** Decompose a hypothesis [obind c k = Ok b] into its steps. *)
Ltac obind_inv H :=
  lazymatch type of H with
  | obind _ _ = Ok _ =>
      let a := fresh "a" in let Ha := fresh "Hstep" in
      apply obind_ok_inv in H as (a & Ha & H)
  end.

Lemma obind_assoc {A B C} (c : outcome A) (k : A → outcome B) (k' : B → outcome C) :
  obind (obind c k) k' = obind c (λ a, obind (k a) k').
Proof. by destruct c. Qed.

(** A mutex is the boolean "held".  Locking a held mutex blocks; unlocking one
    that is not held is undefined. *)
Definition pthread_mutex_lock (held : bool) : outcome bool :=
  if held then Fault Blocked else Ok true.
Definition pthread_mutex_unlock (held : bool) : outcome bool :=
  if held then Ok false else Fault BadUnlock.

(** ** Machine integers

    A [w]-bit unsigned integer is a [Z]; the wrap-around of the C arithmetic is
    written out where the source computes.  [size_t] is 64 bits wide. *)
Local Open Scope Z_scope.

Definition u8 (z : Z) : Z := z `mod` 2 ^ 8.
Definition u16 (z : Z) : Z := z `mod` 2 ^ 16.
Definition u32 (z : Z) : Z := z `mod` 2 ^ 32.
Definition u64 (z : Z) : Z := z `mod` 2 ^ 64.
(** [int] and [int8_t]: the value in two's complement. *)
Definition i32 (z : Z) : Z := (z + 2 ^ 31) `mod` 2 ^ 32 - 2 ^ 31.
Definition i8 (z : Z) : Z := (z + 2 ^ 7) `mod` 2 ^ 8 - 2 ^ 7.

(** [a % b] on unsigned numbers. *)
Definition umod (a b : Z) : outcome Z := if b =? 0 then Fault DivByZero else Ok (a `mod` b).

Lemma umod_ok a b : b ≠ 0 → umod a b = Ok (a `mod` b).
Proof. intros. unfold umod. by destruct (Z.eqb_spec b 0). Qed.

(** Reducing a sum of two indices: at most one subtraction. *)
Lemma mod_wrap a n : 0 ≤ a < 2 * n → a `mod` n = if a <? n then a else a - n.
Proof.
  intros Ha. destruct (Z.ltb_spec a n); [apply Z.mod_small; lia|].
  symmetry. apply (Z.mod_unique_pos _ _ 1); lia.
Qed.

Abbreviation SIZE_MAX := (2 ^ 64 - 1).

Create HintDb wrap.
Create Rewrite HintDb wrap.
Create Rewrite HintDb zlen.

Lemma u8_small z : 0 ≤ z < 2 ^ 8 → u8 z = z.
Proof. intros. by apply Z.mod_small. Qed.
Lemma u16_small z : 0 ≤ z < 2 ^ 16 → u16 z = z.
Proof. intros. by apply Z.mod_small. Qed.
Lemma u32_small z : 0 ≤ z < 2 ^ 32 → u32 z = z.
Proof. intros. by apply Z.mod_small. Qed.
Lemma u64_small z : 0 ≤ z < 2 ^ 64 → u64 z = z.
Proof. intros. by apply Z.mod_small. Qed.
Lemma i32_small z : - 2 ^ 31 ≤ z < 2 ^ 31 → i32 z = z.
Proof. intros. unfold i32. rewrite Z.mod_small; lia. Qed.
Lemma u8_range z : 0 ≤ u8 z < 2 ^ 8.
Proof. apply Z.mod_pos_bound. lia. Qed.
Lemma u16_range z : 0 ≤ u16 z < 2 ^ 16.
Proof. apply Z.mod_pos_bound. lia. Qed.
Lemma u32_range z : 0 ≤ u32 z < 2 ^ 32.
Proof. apply Z.mod_pos_bound. lia. Qed.
Lemma u64_range z : 0 ≤ u64 z < 2 ^ 64.
Proof. apply Z.mod_pos_bound. lia. Qed.

Lemma u64_sub_l a b : u64 (u64 a - b) = u64 (a - b).
Proof. apply Zminus_mod_idemp_l. Qed.
Lemma u64_add_l a b : u64 (u64 a + b) = u64 (a + b).
Proof. apply Zplus_mod_idemp_l. Qed.

#[export] Hint Rewrite u8_small u16_small u32_small u64_small i32_small using lia : wrap.
#[export] Hint Resolve u8_range u16_range u32_range u64_range : wrap.

(** ** Arrays indexed by machine integers

    A C array of known extent is a list; an index outside of it is the fault
    [OutOfBounds], for reads and for writes. *)
Definition Zlen {A} (l : list A) : Z := Z.of_nat (length l).

Definition in_range {A} (l : list A) (i : Z) : bool := (0 <=? i) && (i <? Zlen l).

Definition aget {A} (l : list A) (i : Z) : outcome A :=
  if in_range l i
  then match l !! Z.to_nat i with Some a => Ok a | None => Fault OutOfBounds end
  else Fault OutOfBounds.

Definition aset {A} (l : list A) (i : Z) (a : A) : outcome (list A) :=
  if in_range l i then Ok (<[Z.to_nat i := a]> l) else Fault OutOfBounds.

Lemma Zlen_nonneg {A} (l : list A) : 0 ≤ Zlen l.
Proof. unfold Zlen. lia. Qed.
Lemma Zlen_nil {A} : Zlen (@nil A) = 0.
Proof. done. Qed.
Lemma Zlen_cons {A} (a : A) l : Zlen (a :: l) = 1 + Zlen l.
Proof. unfold Zlen. simpl. lia. Qed.
Lemma Zlen_app {A} (l k : list A) : Zlen (l ++ k) = Zlen l + Zlen k.
Proof. unfold Zlen. rewrite length_app. lia. Qed.
Lemma Zlen_insert {A} (l : list A) i a : Zlen (<[i := a]> l) = Zlen l.
Proof. unfold Zlen. by rewrite length_insert. Qed.
Lemma Zlen_replicate {A} n (a : A) : Zlen (replicate n a) = Z.of_nat n.
Proof. unfold Zlen. by rewrite length_replicate. Qed.
Lemma Zlen_map {A B} (f : A → B) l : Zlen (map f l) = Zlen l.
Proof. unfold Zlen. by rewrite length_map. Qed.
#[export] Instance Zlen_Permutation {A} : Proper ((≡ₚ) ==> (=)) (@Zlen A).
Proof. intros l k Hp. unfold Zlen. by rewrite Hp. Qed.
#[export] Hint Rewrite @Zlen_nil @Zlen_cons @Zlen_app @Zlen_insert @Zlen_replicate
  @Zlen_map : zlen.

Lemma in_range_true {A} (l : list A) i : in_range l i = true ↔ 0 ≤ i < Zlen l.
Proof. unfold in_range. rewrite andb_true_iff, Z.leb_le, Z.ltb_lt. lia. Qed.
Lemma in_range_false {A} (l : list A) i : in_range l i = false ↔ ¬ (0 ≤ i < Zlen l).
Proof. rewrite <- in_range_true. by destruct (in_range l i). Qed.

Lemma aget_ok {A} (l : list A) i a :
  0 ≤ i → l !! Z.to_nat i = Some a → aget l i = Ok a.
Proof.
  intros Hi Hl. unfold aget. rewrite (proj2 (in_range_true l i)), Hl; [done|].
  apply lookup_lt_Some in Hl. unfold Zlen. lia.
Qed.

Lemma aget_ok_inv {A} (l : list A) i a :
  aget l i = Ok a → 0 ≤ i < Zlen l ∧ l !! Z.to_nat i = Some a.
Proof.
  unfold aget. destruct (in_range l i) eqn:E; [|done].
  apply in_range_true in E. destruct (l !! Z.to_nat i); [|done]. by intros [= ->].
Qed.

Lemma aget_total {A} (l : list A) i :
  0 ≤ i < Zlen l → ∃ a, l !! Z.to_nat i = Some a ∧ aget l i = Ok a.
Proof.
  intros Hi. assert (is_Some (l !! Z.to_nat i)) as [a Ha].
  { apply lookup_lt_is_Some. unfold Zlen in Hi. lia. }
  exists a. split; [done|]. apply aget_ok; [lia|done].
Qed.

Lemma aget_oob {A} (l : list A) i : ¬ (0 ≤ i < Zlen l) → aget l i = Fault OutOfBounds.
Proof. intros H. unfold aget. by rewrite (proj2 (in_range_false l i)). Qed.

Lemma aset_ok {A} (l : list A) i a :
  0 ≤ i < Zlen l → aset l i a = Ok (<[Z.to_nat i := a]> l).
Proof. intros H. unfold aset. by rewrite (proj2 (in_range_true l i)). Qed.

(** ** Callbacks

    Calling [fn] on each element in turn, left to right. *)
Fixpoint apply_seq {A W} (fn : W → A → W * A) (w : W) (xs : list A) : W * list A :=
  match xs with
  | [] => (w, [])
  | x :: xs' =>
      let '(w1, x') := fn w x in
      let '(w2, ys) := apply_seq fn w1 xs' in
      (w2, x' :: ys)
  end.

(** Boolean comparisons of the source, as propositions. *)
Ltac bool_cases :=
  repeat match goal with
  | |- context [if (?a =? ?b)%Z then _ else _] => destruct (Z.eqb_spec a b)
  | |- context [if (?a <? ?b)%Z then _ else _] => destruct (Z.ltb_spec a b)
  | |- context [if (?a <=? ?b)%Z then _ else _] => destruct (Z.leb_spec a b)
  end.
