(* ===== verification/Byteswap.v ===== *)
(** * Byte order: lib/byteswap.c and the [ntohs]/[htons] of the decoders

    The three byte-swapping functions of [byteswap.c] with their shifts and
    masks, and the reading of multi-byte fields out of memory.  The model fixes
    a little-endian host, the one for which [lt_bswap.h] selects swapping in
    [ntohs] and no swapping in [bswap_le_to_host16]. *)

From S2P Require Import Prelude.
Local Open Scope Z_scope.

(** ** byteswap.c *)
Definition byteswap16 (num : Z) : Z :=
  u16 (Z.lor (Z.land (Z.shiftl num 8) 0xFF00) (Z.land (Z.shiftr num 8) 0x00FF)).

Definition byteswap32 (num : Z) : Z :=
  Z.lor (Z.lor (Z.lor
    (u32 (Z.shiftl (Z.land num 0x000000FF) 24))
    (u32 (Z.shiftl (Z.land num 0x0000FF00) 8)))
    (Z.shiftr (Z.land num 0x00FF0000) 8))
    (Z.shiftr (Z.land num 0xFF000000) 24).

Definition byteswap64 (num : Z) : Z :=
  Z.lor (byteswap32 (u32 (Z.shiftr (Z.land num 0xFFFFFFFF00000000) 32)))
        (u64 (Z.shiftl (byteswap32 (u32 (Z.land num 0x00000000FFFFFFFF))) 32)).

(** [ntohs] and [htons] on the little-endian host. *)
Definition ntohs (num : Z) : Z := byteswap16 num.
Definition htons (num : Z) : Z := byteswap16 num.

(** ** Fields in memory

    A pointer into a buffer is an offset; a field of [n] bytes is read byte by
    byte, in host (little-endian) order. *)
Local Open Scope outcome_scope.

Definition read8 (mem : list Z) (off : Z) : outcome Z := aget mem off.

Definition read16 (mem : list Z) (off : Z) : outcome Z :=
  let! b0 := aget mem off in
  let! b1 := aget mem (off + 1) in
  Ok (b0 + 256 * b1).

Definition read32 (mem : list Z) (off : Z) : outcome Z :=
  let! lo := read16 mem off in
  let! hi := read16 mem (off + 2) in
  Ok (lo + 2 ^ 16 * hi).

Definition read64 (mem : list Z) (off : Z) : outcome Z :=
  let! lo := read32 mem off in
  let! hi := read32 mem (off + 4) in
  Ok (lo + 2 ^ 32 * hi).

Fixpoint read_bytes (mem : list Z) (off : Z) (n : nat) : outcome (list Z) :=
  match n with
  | O => Ok []
  | S n' =>
      let! b := aget mem off in
      let! r := read_bytes mem (off + 1) n' in
      Ok (b :: r)
  end.

(** The bytes of a field of 16, 32 and 64 bits. *)
Definition bytes16 (v : Z) : list Z := [u8 v; u8 (v / 256)].
Definition bytes32 (v : Z) : list Z := bytes16 v ++ bytes16 (v / 2 ^ 16).
Definition bytes64 (v : Z) : list Z := bytes32 v ++ bytes32 (v / 2 ^ 32).

(** A buffer holds bytes. *)
Definition bytes_ok (mem : list Z) : Prop := Forall (λ b, 0 ≤ b < 256) mem.

#[export] Instance bytes_ok_dec mem : Decision (bytes_ok mem).
Proof. unfold bytes_ok. apply _. Defined.

(** ** Lemmas *)
Lemma bytes_ok_cons b l : bytes_ok (b :: l) ↔ 0 ≤ b < 256 ∧ bytes_ok l.
Proof. unfold bytes_ok. by rewrite Forall_cons. Qed.
Lemma bytes_ok_app k l : bytes_ok (k ++ l) ↔ bytes_ok k ∧ bytes_ok l.
Proof. unfold bytes_ok. by rewrite Forall_app. Qed.
Lemma bytes_ok_lookup mem i b : bytes_ok mem → mem !! i = Some b → 0 ≤ b < 256.
Proof. intros H. by apply Forall_lookup_1 with (1 := H). Qed.

(** A number below 2^32 as its four bytes: the shape every proof about the
    shifts and masks works with. *)
Lemma land_ones_mod a n : 0 ≤ n → Z.land a (2 ^ n - 1) = a `mod` 2 ^ n.
Proof. intros. rewrite <- Z.land_ones by done. f_equal. rewrite Z.ones_equiv. lia. Qed.

Lemma land_byte_field a k :
  0 ≤ k → Z.land a (Z.shiftl 0xFF k) = ((a `div` 2 ^ k) `mod` 256) * 2 ^ k.
Proof.
  intros Hk. rewrite <- (Z.shiftl_mul_pow2 _ k) by done.
  change 256 with (2 ^ 8). rewrite <- Z.land_ones, <- Z.shiftr_div_pow2 by lia.
  change (Z.ones 8) with 0xFF. rewrite Z.shiftl_land.
  apply Z.bits_inj'. intros n Hn. rewrite !Z.land_spec, !Z.shiftl_spec by done.
  destruct (Z.ltb_spec n k).
  - rewrite !(Z.testbit_neg_r _ (n - k)) by lia. by rewrite !andb_false_r.
  - rewrite Z.shiftr_spec by lia. by replace (n - k + k) with n by lia.
Qed.

Lemma land_disjoint a b k : 0 ≤ k → 0 ≤ a < 2 ^ k → Z.land a (b * 2 ^ k) = 0.
Proof.
  intros Hk Ha. apply Z.bits_inj'. intros n Hn.
  rewrite Z.land_spec, Z.bits_0, <- Z.shiftl_mul_pow2, Z.shiftl_spec by done.
  destruct (Z.ltb_spec n k).
  - rewrite (Z.testbit_neg_r b) by lia. apply andb_false_r.
  - rewrite <- (Z.mod_small a (2 ^ k)), Z.mod_pow2_bits_high by lia. done.
Qed.

Lemma lor_disjoint_add a b k :
  0 ≤ k → 0 ≤ a < 2 ^ k → Z.lor a (b * 2 ^ k) = a + b * 2 ^ k.
Proof.
  intros Hk Ha. pose proof (land_disjoint a b k Hk Ha) as Hd.
  rewrite <- Z.lxor_lor by done. symmetry. by apply Z.add_nocarry_lxor.
Qed.

Lemma lor_lt_pow2 a b n :
  0 ≤ n → 0 ≤ a < 2 ^ n → 0 ≤ b < 2 ^ n → 0 ≤ Z.lor a b < 2 ^ n.
Proof.
  intros Hn Ha Hb. rewrite <- (Z.mod_small a (2 ^ n)), <- (Z.mod_small b (2 ^ n)) by done.
  rewrite <- !Z.land_ones, <- Z.land_lor_distr_l, Z.land_ones by done.
  apply Z.mod_pos_bound. lia.
Qed.

Ltac Zify.zify_post_hook ::= Z.to_euclidean_division_equations.

(** Both halves of a sixteen-bit number change places. *)
Lemma byteswap16_spec n : 0 ≤ n < 2 ^ 16 → byteswap16 n = n `mod` 256 * 256 + n `div` 256.
Proof.
  intros Hn. unfold byteswap16.
  change 0xFF00 with (Z.shiftl 0xFF 8). rewrite land_byte_field by lia.
  change 0xFF with (2 ^ 8 - 1). rewrite land_ones_mod, Z.lor_comm by lia.
  rewrite lor_disjoint_add, Z.shiftl_mul_pow2, Z.shiftr_div_pow2 by lia.
  rewrite u16_small; lia.
Qed.

Lemma byteswap16_bytes b0 b1 :
  0 ≤ b0 < 256 → 0 ≤ b1 < 256 → byteswap16 (b0 + 256 * b1) = 256 * b0 + b1.
Proof. intros. rewrite byteswap16_spec; lia. Qed.

Lemma byteswap16_range n : 0 ≤ n < 2 ^ 16 → 0 ≤ byteswap16 n < 2 ^ 16.
Proof. intros. rewrite byteswap16_spec; lia. Qed.

Lemma byteswap32_bytes b0 b1 b2 b3 :
  0 ≤ b0 < 256 → 0 ≤ b1 < 256 → 0 ≤ b2 < 256 → 0 ≤ b3 < 256 →
  byteswap32 (b0 + 256 * b1 + 65536 * b2 + 16777216 * b3) =
  b3 + 256 * b2 + 65536 * b1 + 16777216 * b0.
Proof.
  intros. set (n := b0 + _ + _ + _). unfold byteswap32.
  change 0x000000FF with (Z.shiftl 0xFF 0). change 0x0000FF00 with (Z.shiftl 0xFF 8).
  change 0x00FF0000 with (Z.shiftl 0xFF 16). change 0xFF000000 with (Z.shiftl 0xFF 24).
  rewrite !land_byte_field by lia.
  replace ((n `div` 2 ^ 0) `mod` 256) with b0 by (subst n; lia).
  replace ((n `div` 2 ^ 8) `mod` 256) with b1 by (subst n; lia).
  replace ((n `div` 2 ^ 16) `mod` 256) with b2 by (subst n; lia).
  replace ((n `div` 2 ^ 24) `mod` 256) with b3 by (subst n; lia).
  rewrite !Z.shiftl_mul_pow2, !Z.shiftr_div_pow2 by lia.
  rewrite !u32_small by lia.
  replace ((b2 * 2 ^ 16) `div` 2 ^ 8) with (b2 * 2 ^ 8) by lia.
  replace ((b3 * 2 ^ 24) `div` 2 ^ 24) with b3 by lia.
  replace (b0 * 2 ^ 0 * 2 ^ 24) with (b0 * 2 ^ 24) by lia.
  replace (b1 * 2 ^ 8 * 2 ^ 8) with (b1 * 2 ^ 16) by lia.
  rewrite (Z.lor_comm _ b3), (Z.lor_comm _ (b2 * 2 ^ 8)), (Z.lor_comm (b0 * _)), !Z.lor_assoc.
  rewrite (lor_disjoint_add b3), (lor_disjoint_add (b3 + _)), (lor_disjoint_add (b3 + _ + _)) by lia.
  lia.
Qed.

Lemma bytes4_of n : 0 ≤ n < 2 ^ 32 → ∃ b0 b1 b2 b3,
  0 ≤ b0 < 256 ∧ 0 ≤ b1 < 256 ∧ 0 ≤ b2 < 256 ∧ 0 ≤ b3 < 256 ∧
  n = b0 + 256 * b1 + 65536 * b2 + 16777216 * b3.
Proof.
  intros. exists (n `mod` 256), ((n `div` 256) `mod` 256),
    ((n `div` 65536) `mod` 256), (n `div` 16777216). lia.
Qed.

Lemma byteswap32_range n : 0 ≤ n < 2 ^ 32 → 0 ≤ byteswap32 n < 2 ^ 32.
Proof.
  intros (b0 & b1 & b2 & b3 & ? & ? & ? & ? & ->)%bytes4_of.
  rewrite byteswap32_bytes by lia. lia.
Qed.

Lemma byteswap32_involutive n : 0 ≤ n < 2 ^ 32 → byteswap32 (byteswap32 n) = n.
Proof.
  intros (b0 & b1 & b2 & b3 & ? & ? & ? & ? & ->)%bytes4_of.
  rewrite byteswap32_bytes by lia. by rewrite byteswap32_bytes by lia.
Qed.

Lemma byteswap64_halves hi lo : 0 ≤ hi < 2 ^ 32 → 0 ≤ lo < 2 ^ 32 →
  byteswap64 (lo + hi * 2 ^ 32) = byteswap32 hi + byteswap32 lo * 2 ^ 32.
Proof.
  intros Hhi Hlo. unfold byteswap64.
  change 0xFFFFFFFF00000000 with (Z.shiftl (Z.ones 32) 32).
  change 0x00000000FFFFFFFF with (Z.ones 32).
  rewrite Z.land_ones, Z.shiftr_land, Z.shiftr_shiftl_l, Z.sub_diag, Z.shiftl_0_r by lia.
  rewrite Z.land_ones, Z.shiftr_div_pow2, Z.shiftl_mul_pow2 by lia.
  replace ((lo + hi * 2 ^ 32) `mod` 2 ^ 32) with lo by lia.
  replace (((lo + hi * 2 ^ 32) `div` 2 ^ 32) `mod` 2 ^ 32) with hi by lia.
  rewrite !u32_small by lia.
  pose proof (byteswap32_range hi Hhi). pose proof (byteswap32_range lo Hlo).
  rewrite u64_small, lor_disjoint_add by lia. done.
Qed.

Lemma byteswap64_involutive n : 0 ≤ n < 2 ^ 64 → byteswap64 (byteswap64 n) = n.
Proof.
  intros Hn. pose proof (byteswap32_range (n `div` 2 ^ 32)).
  pose proof (byteswap32_range (n `mod` 2 ^ 32)).
  replace n with (n `mod` 2 ^ 32 + (n `div` 2 ^ 32) * 2 ^ 32) at 1 by lia.
  rewrite !byteswap64_halves, !byteswap32_involutive by lia. lia.
Qed.

(** [ntohs (htons x) = x], and both stay in sixteen bits. *)
Lemma ntohs_htons n : 0 ≤ n < 2 ^ 16 → ntohs (htons n) = n.
Proof.
  intros. unfold ntohs, htons. pose proof (byteswap16_range n).
  rewrite (byteswap16_spec (byteswap16 n)), byteswap16_spec by lia. lia.
Qed.

(** The field at [off], read and put in host order, is the big-endian number
    on the wire. *)
Lemma ntohs_read16 mem off b0 b1 :
  bytes_ok mem → 0 ≤ off → mem !! Z.to_nat off = Some b0 →
  mem !! Z.to_nat (off + 1) = Some b1 →
  obind (read16 mem off) (λ v, Ok (ntohs v)) = Ok (256 * b0 + b1).
Proof.
  intros Hm Ho H0 H1. unfold read16. rewrite (aget_ok _ _ _ Ho H0). simpl.
  rewrite (aget_ok _ _ b1) by (done || lia). simpl. f_equal.
  apply byteswap16_bytes; [exact (bytes_ok_lookup _ _ _ Hm H0)|exact (bytes_ok_lookup _ _ _ Hm H1)].
Qed.

(** A run of bytes that lies in memory is read back. *)
Lemma read_bytes_app pre l post :
  read_bytes (pre ++ l ++ post) (Zlen pre) (length l) = Ok l.
Proof.
  revert pre. induction l as [|a l IH]; intros pre; [done|]. cbn [length read_bytes app].
  rewrite (aget_ok _ _ a); [|apply Zlen_nonneg|].
  2:{ unfold Zlen. rewrite Nat2Z.id. by apply list_lookup_middle. }
  cbn [obind]. specialize (IH (pre ++ [a])). rewrite Zlen_app, <- app_assoc in IH.
  change (Zlen [a]) with 1 in IH. cbn [app] in IH. by rewrite IH.
Qed.

(** ** Fields written and read back *)
Lemma aget_app_at {A} (pre : list A) x post : aget (pre ++ x :: post) (Zlen pre) = Ok x.
Proof. apply aget_ok; unfold Zlen; [lia|]. rewrite Nat2Z.id. by apply list_lookup_middle. Qed.

Lemma read16_bytes16 pre v post : 0 ≤ v < 2 ^ 16 → read16 (pre ++ bytes16 v ++ post) (Zlen pre) = Ok v.
Proof.
  intros Hv. unfold read16, bytes16. cbn [app]. rewrite aget_app_at. cbn [obind].
  replace (pre ++ u8 v :: u8 (v / 256) :: post) with ((pre ++ [u8 v]) ++ u8 (v / 256) :: post)
    by by rewrite <- app_assoc.
  replace (Zlen pre + 1) with (Zlen (pre ++ [u8 v])) by (unfold Zlen; rewrite length_app; simpl; lia).
  rewrite aget_app_at. cbn [obind]. f_equal. unfold u8.
  rewrite (Z.mod_small (v / 256)) by (split; [apply Z.div_pos; lia|apply Z.div_lt_upper_bound; lia]).
  pose proof (Z.div_mod v 256 ltac:(lia)). change (2 ^ 8) with 256. lia.
Qed.

Lemma Zlen_bytes16 v : Zlen (bytes16 v) = 2.
Proof. done. Qed.
Lemma Zlen_bytes32 v : Zlen (bytes32 v) = 4.
Proof. done. Qed.

Lemma bytes16_mod v : bytes16 (v `mod` 2 ^ 16) = bytes16 v.
Proof.
  unfold bytes16, u8. change (2 ^ 8) with 256. change (2 ^ 16) with 65536.
  f_equal; [|f_equal]; Z.to_euclidean_division_equations; lia.
Qed.

Lemma read32_bytes32 pre v post : 0 ≤ v < 2 ^ 32 → read32 (pre ++ bytes32 v ++ post) (Zlen pre) = Ok v.
Proof.
  intros Hv. unfold read32, bytes32. rewrite <- app_assoc, <- (bytes16_mod v).
  rewrite read16_bytes16 by (apply Z.mod_pos_bound; lia). cbn [obind].
  rewrite app_assoc. replace (Zlen pre + 2) with (Zlen (pre ++ bytes16 (v `mod` 2 ^ 16)))
    by (unfold Zlen; rewrite length_app; simpl; lia).
  rewrite read16_bytes16; [|split; [apply Z.div_pos; lia|apply Z.div_lt_upper_bound; lia]].
  cbn [obind]. f_equal. pose proof (Z.div_mod v (2 ^ 16) ltac:(lia)). lia.
Qed.

Lemma bytes32_mod v : bytes32 (v `mod` 2 ^ 32) = bytes32 v.
Proof.
  unfold bytes32. rewrite <- (bytes16_mod (v `mod` 2 ^ 32)), <- (bytes16_mod (v `mod` 2 ^ 32 / 2 ^ 16)).
  rewrite <- (bytes16_mod v), <- (bytes16_mod (v / 2 ^ 16)). f_equal; f_equal;
    change (2 ^ 16) with 65536; change (2 ^ 32) with 4294967296; Z.to_euclidean_division_equations; lia.
Qed.

Lemma read64_bytes64 pre v post : 0 ≤ v < 2 ^ 64 → read64 (pre ++ bytes64 v ++ post) (Zlen pre) = Ok v.
Proof.
  intros Hv. unfold read64, bytes64. rewrite <- app_assoc, <- (bytes32_mod v).
  rewrite read32_bytes32 by (apply Z.mod_pos_bound; lia). cbn [obind].
  rewrite app_assoc. replace (Zlen pre + 4) with (Zlen (pre ++ bytes32 (v `mod` 2 ^ 32)))
    by (rewrite Zlen_app; done).
  rewrite read32_bytes32; [|split; [apply Z.div_pos; lia|apply Z.div_lt_upper_bound; lia]].
  cbn [obind]. f_equal. pose proof (Z.div_mod v (2 ^ 32) ltac:(lia)). lia.
Qed.
