(* ===== verification/Checksum.v ===== *)
(** * The Internet checksum: lib/checksum.c

    [add_checksum] sums the sixteen-bit words of a buffer as the host reads
    them, [finish_checksum] folds the carries and complements, and the two
    pseudo-header functions sum the fields TCP and UDP cover besides their own
    header.  A buffer is a memory [mem] and an offset into it. *)

From S2P Require Import Prelude Byteswap.
Local Open Scope Z_scope.
Local Open Scope outcome_scope.

Ltac Zify.zify_post_hook ::= Z.to_euclidean_division_equations.

(** ** Definitions *)

(** The loop of [add_checksum]: two bytes per round while [count > 1], then the
    odd byte.  [count] is the [uint16_t] counter. *)
Fixpoint add_checksum_loop (mem : list Z) (buff : Z) (count : nat) (sum : Z) : outcome Z :=
  match count with
  | S (S count') =>
      let! val := read16 mem buff in
      add_checksum_loop mem (buff + 2) count' (u32 (sum + val))
  | S O =>
      let! val := read8 mem buff in
      Ok (u32 (sum + val))
  | O => Ok sum
  end.

Definition add_checksum (mem : list Z) (buffer length : Z) : outcome Z :=
  add_checksum_loop mem buffer (Z.to_nat (u16 length)) 0.

(** [while (sum>>16) sum = (sum & 0xffff) + (sum >> 16)]. *)
Fixpoint finish_checksum_loop (fuel : nat) (sum : Z) : outcome Z :=
  match fuel with
  | O => Fault OutOfFuel
  | S fuel' =>
      if negb (Z.shiftr sum 16 =? 0)
      then finish_checksum_loop fuel' (u32 (Z.land sum 0xffff + Z.shiftr sum 16))
      else Ok sum
  end.

(** Three tests of the loop condition are enough for a [uint32_t]: the first
    round leaves at most 0x1fffe, the second at most 0xffff. *)
Definition finish_checksum (sum : Z) : outcome Z :=
  let! s := finish_checksum_loop 3 sum in
  Ok (u16 (Z.lnot s)).

Definition checksum_buffer (mem : list Z) (buffer length : Z) : outcome Z :=
  let! sum := add_checksum mem buffer length in
  finish_checksum sum.

(** [add_checksum(&temp, sizeof(uint16_t))] on a local variable. *)
Definition add_checksum_temp (temp : Z) : outcome Z :=
  add_checksum [temp `mod` 256; temp `div` 256] 0 2.

(** [ip] is the offset of an IPv4 header: ip_len at 2, ip_p at 9, ip_src at 12,
    ip_dst at 16; ip_hl is the low half of byte 0. *)
Definition ipv4_pseudo_checksum (mem : list Z) (ip : Z) : outcome Z :=
  let! s1 := add_checksum mem (ip + 12) 4 in
  let! s2 := add_checksum mem (ip + 16) 4 in
  let! ip_p := read8 mem (ip + 9) in
  let! s3 := add_checksum_temp (htons ip_p) in
  let! ip_len := read16 mem (ip + 2) in
  let! vhl := read8 mem ip in
  let ip_hl := Z.land vhl 0x0F in
  let! s4 := add_checksum_temp (htons (u16 (ntohs ip_len - ip_hl * 4))) in
  Ok (u32 (s1 + s2 + s3 + s4)).

(** IPv6: plen at 4, nxt at 6, ip_src at 8, ip_dst at 24. *)
Definition ipv6_pseudo_checksum (mem : list Z) (ip : Z) : outcome Z :=
  let! s1 := add_checksum mem (ip + 8) 16 in
  let! s2 := add_checksum mem (ip + 24) 16 in
  let! plen := read16 mem (ip + 4) in
  let! s3 := add_checksum_temp plen in
  let! nxt := read8 mem (ip + 6) in
  let! s4 := add_checksum_temp (htons nxt) in
  Ok (u32 (s1 + s2 + s3 + s4)).

(** ** Reference definitions *)

(** The sum of the words of a byte sequence, without any width. *)
Fixpoint word_sum (l : list Z) : Z :=
  match l with
  | b0 :: b1 :: l' => b0 + 256 * b1 + word_sum l'
  | [b0] => b0
  | [] => 0
  end.

(** One's complement reduction of a sum to sixteen bits: zero only for zero,
    otherwise the representative of the residue modulo 2^16 - 1 in
    1 .. 2^16 - 1. *)
Definition fold16 (s : Z) : Z := if s =? 0 then 0 else (s - 1) `mod` 65535 + 1.

(** ** Lemmas *)
Lemma list_ind2 {A} (P : list A → Prop) :
  P [] → (∀ a, P [a]) → (∀ a b l, P l → P (a :: b :: l)) → ∀ l, P l.
Proof.
  intros H0 H1 H2. fix IH 1. intros [|a [|b l]]; [done|apply H1|apply H2, IH].
Qed.

Lemma word_sum_bound l : bytes_ok l → 0 ≤ word_sum l ∧ 2 * word_sum l ≤ 65535 * (Zlen l + 1).
Proof.
  induction l as [|a|a b l IH] using list_ind2; intros H; simpl.
  - autorewrite with zlen. lia.
  - apply bytes_ok_cons in H as [Ha _]. autorewrite with zlen. lia.
  - apply bytes_ok_cons in H as [Ha [Hb Hl]%bytes_ok_cons]. apply IH in Hl. autorewrite with zlen.
    lia.
Qed.

Lemma word_sum_app a b : Zeven (Zlen a) → word_sum (a ++ b) = word_sum a + word_sum b.
Proof.
  induction a as [|x|x y a IH] using list_ind2; intros Ev; simpl.
  - done.
  - apply Zeven_equiv in Ev as [k Hk]. rewrite Zlen_cons, Zlen_nil in Hk. lia.
  - rewrite IH; [lia|]. rewrite !Zlen_cons in Ev. apply Zeven_equiv in Ev as [k Hk].
    apply Zeven_equiv. exists (k - 1). lia.
Qed.

(** The loop computes [word_sum] of the bytes it is given. *)
Lemma add_checksum_loop_spec l : bytes_ok l → ∀ pre post sum,
  0 ≤ sum → sum + word_sum l < 2 ^ 32 →
  add_checksum_loop (pre ++ l ++ post) (Zlen pre) (length l) sum = Ok (sum + word_sum l).
Proof.
  induction l as [|a|a b l IH] using list_ind2; intros Hb pre post sum Hs Hlt; simpl in *.
  - f_equal. lia.
  - apply bytes_ok_cons in Hb as [Ha _]. unfold read8.
    rewrite (aget_ok _ _ a); [simpl; by rewrite u32_small by lia|apply Zlen_nonneg|].
    unfold Zlen. rewrite Nat2Z.id. by apply list_lookup_middle.
  - apply bytes_ok_cons in Hb as [Ha [Hb Hl]%bytes_ok_cons].
    pose proof (word_sum_bound l Hl) as [Hw _].
    unfold read16. rewrite (aget_ok _ _ a); [|apply Zlen_nonneg|].
    2:{ unfold Zlen. rewrite Nat2Z.id. by apply list_lookup_middle. }
    simpl. rewrite (aget_ok _ _ b); [|unfold Zlen; lia|].
    2:{ rewrite (cons_middle a), app_assoc. unfold Zlen.
        apply list_lookup_middle. rewrite length_app. simpl. lia. }
    simpl. rewrite u32_small by lia.
    specialize (IH Hl (pre ++ [a; b]) post (sum + (a + 256 * b))).
    rewrite Zlen_app, <- app_assoc in IH. simpl in IH.
    replace (Zlen pre + Zlen [a; b]) with (Zlen pre + 2) in IH by (unfold Zlen; simpl; lia).
    rewrite IH by lia. f_equal. lia.
Qed.

(** The sum of a buffer that lies in memory: no access outside of it, and no
    overflow of the [uint32_t] accumulator, whatever its length. *)
Lemma add_checksum_spec pre l post :
  bytes_ok l → Zlen l < 2 ^ 16 →
  add_checksum (pre ++ l ++ post) (Zlen pre) (Zlen l) = Ok (word_sum l).
Proof.
  intros Hb Hl. unfold add_checksum. rewrite u16_small by (pose proof (Zlen_nonneg l); lia).
  pose proof (word_sum_bound l Hb) as [? ?]. unfold Zlen at 2. rewrite Nat2Z.id.
  rewrite add_checksum_loop_spec by (done || lia). f_equal.
Qed.

Lemma shiftr16 s : Z.shiftr s 16 = s `div` 65536.
Proof. by rewrite Z.shiftr_div_pow2 by lia. Qed.
Lemma land_ffff s : Z.land s 0xffff = s `mod` 65536.
Proof. change 0xffff with (Z.ones 16). by rewrite Z.land_ones by lia. Qed.

Lemma finish_checksum_loop_spec s :
  0 ≤ s < 2 ^ 32 → finish_checksum_loop 3 s = Ok (fold16 s).
Proof.
  intros Hs. unfold fold16. cbn [finish_checksum_loop].
  rewrite !land_ffff, !shiftr16. rewrite !(u32_small (_ + _)) by lia.
  repeat match goal with |- context [negb (?a =? 0)] => destruct (Z.eqb_spec a 0); simpl end;
    destruct (Z.eqb_spec s 0); try (f_equal; lia); lia.
Qed.

Lemma fold16_range s : 0 ≤ s → 0 ≤ fold16 s ≤ 65535.
Proof. unfold fold16. bool_cases; lia. Qed.

Lemma u16_lnot s : 0 ≤ s ≤ 65535 → u16 (Z.lnot s) = 65535 - s.
Proof. unfold u16, Z.lnot. lia. Qed.

Lemma finish_checksum_spec s :
  0 ≤ s < 2 ^ 32 → finish_checksum s = Ok (65535 - fold16 s).
Proof.
  intros Hs. unfold finish_checksum. rewrite finish_checksum_loop_spec by done. simpl.
  by rewrite u16_lnot by (apply fold16_range; lia).
Qed.

Lemma checksum_buffer_spec pre l post :
  bytes_ok l → Zlen l < 2 ^ 16 →
  checksum_buffer (pre ++ l ++ post) (Zlen pre) (Zlen l) = Ok (65535 - fold16 (word_sum l)).
Proof.
  intros Hb Hl. unfold checksum_buffer. rewrite add_checksum_spec by done. simpl.
  pose proof (word_sum_bound l Hb) as [? ?]. apply finish_checksum_spec. lia.
Qed.

Lemma fold16_complement s : 0 ≤ s → fold16 (s + (65535 - fold16 s)) = 65535.
Proof. intros. unfold fold16. destruct (Z.eqb_spec s 0); bool_cases; lia. Qed.

(** The same bytes read by a host of the other byte order. *)
Fixpoint swap_pairs (l : list Z) : list Z :=
  match l with
  | a :: b :: l' => b :: a :: swap_pairs l'
  | _ => l
  end.

Lemma Zlen_swap_pairs l : Zlen (swap_pairs l) = Zlen l.
Proof. induction l using list_ind2; simpl; autorewrite with zlen; congruence. Qed.

Lemma swap_pairs_bytes_ok l : bytes_ok l → bytes_ok (swap_pairs l).
Proof.
  induction l as [|a|a b l IH] using list_ind2; simpl; [done..|].
  rewrite !bytes_ok_cons. naive_solver.
Qed.

(** Swapping every word multiplies the sum by 256 modulo 2^16 - 1, and a sum of
    bytes is zero only when all of them are. *)
Lemma word_sum_swap_pairs l : bytes_ok l → Zeven (Zlen l) →
  (∃ k, word_sum (swap_pairs l) = 256 * word_sum l - 65535 * k) ∧
  (word_sum (swap_pairs l) = 0 ↔ word_sum l = 0).
Proof.
  induction l as [|a|a b l IH] using list_ind2; intros Hb Ev; simpl.
  - split; [by exists 0|done].
  - apply Zeven_equiv in Ev as [k Hk]. rewrite Zlen_cons, Zlen_nil in Hk. lia.
  - apply bytes_ok_cons in Hb as [Ha [Hb Hl]%bytes_ok_cons].
    destruct IH as [[k Hk] Hz]; [done| |].
    { rewrite !Zlen_cons in Ev. apply Zeven_equiv in Ev as [j Hj].
      apply Zeven_equiv. exists (j - 1). lia. }
    pose proof (word_sum_bound l Hl) as [? _].
    pose proof (word_sum_bound _ (swap_pairs_bytes_ok l Hl)) as [? _].
    split; [exists (k + b); lia|lia].
Qed.

(** A sum of a few bytes stays far below 2^32. *)
Lemma add_checksum_loop_bound mem : bytes_ok mem → ∀ n b sum r,
  0 ≤ sum → add_checksum_loop mem b n sum = Ok r → 0 ≤ r ≤ sum + 65536 * Z.of_nat n.
Proof.
  intros Hb. fix IH 1. intros [|[|n]] b sum r Hs H; cbn [add_checksum_loop] in H.
  - injection H as <-. lia.
  - obind_inv H. injection H as <-. apply aget_ok_inv in Hstep as [_ Hl].
    pose proof (bytes_ok_lookup _ _ _ Hb Hl). unfold u32.
    pose proof (Z.mod_le (sum + a) (2 ^ 32)). pose proof (Z.mod_pos_bound (sum + a) (2 ^ 32)). lia.
  - obind_inv H. unfold read16 in Hstep. obind_inv Hstep. obind_inv Hstep. injection Hstep as <-.
    apply aget_ok_inv in Hstep0 as [_ H0]. apply aget_ok_inv in Hstep1 as [_ H1].
    pose proof (bytes_ok_lookup _ _ _ Hb H0). pose proof (bytes_ok_lookup _ _ _ Hb H1).
    set (v := a0 + 256 * a1) in *. pose proof (Z.mod_le (sum + v) (2 ^ 32)).
    pose proof (Z.mod_pos_bound (sum + v) (2 ^ 32)).
    apply IH in H; unfold u32 in *; lia.
Qed.

Lemma add_checksum_bound mem b n r :
  bytes_ok mem → 0 ≤ n < 2 ^ 16 → add_checksum mem b n = Ok r → 0 ≤ r ≤ 65536 * n.
Proof.
  intros Hb Hn H. unfold add_checksum in H. rewrite u16_small in H by lia.
  apply (add_checksum_loop_bound mem Hb) in H; lia.
Qed.

Lemma ipv4_pseudo_bound mem ip s :
  bytes_ok mem → ipv4_pseudo_checksum mem ip = Ok s → 0 ≤ s < 2 ^ 20.
Proof.
  intros Hb H. unfold ipv4_pseudo_checksum in H. repeat obind_inv H. injection H as <-.
  assert (∀ t r, add_checksum_temp (htons t) = Ok r → 0 ≤ r ≤ 65536 * 2) as Ht.
  { intros t r Hr. eapply add_checksum_bound; [|lia|exact Hr].
    pose proof (u16_range (Z.lor (Z.land (Z.shiftl t 8) 65280) (Z.land (Z.shiftr t 8) 255))).
    repeat constructor; unfold htons, byteswap16 in *; lia. }
  apply add_checksum_bound in Hstep, Hstep0; [|done|lia..|done|lia].
  apply Ht in Hstep2, Hstep5. rewrite u32_small; lia.
Qed.

(** The complemented sum, stored in a field that was zero, makes the whole sum
    to zero: the lemma behind the checksum theorems. *)
Lemma checksum_field_verifies (pre a b post : list Z) (c : Z) :
  bytes_ok a → bytes_ok b → Zeven (Zlen a) → Zlen a + 2 + Zlen b < 2 ^ 16 →
  checksum_buffer (pre ++ (a ++ [0; 0] ++ b) ++ post) (Zlen pre) (Zlen a + 2 + Zlen b) = Ok c →
  checksum_buffer (pre ++ (a ++ [c `mod` 256; c `div` 256] ++ b) ++ post)
    (Zlen pre) (Zlen a + 2 + Zlen b) = Ok 0.
Proof.
  intros Ha Hb Ev Hl Hc. set (n := Zlen a + 2 + Zlen b).
  assert (Hn : ∀ x y, Zlen (a ++ [x; y] ++ b) = n)
    by (intros; autorewrite with zlen; subst n; lia).
  pose proof (word_sum_bound a Ha) as [? ?]. pose proof (word_sum_bound b Hb) as [? ?].
  subst n. rewrite <- (Hn 0 0), checksum_buffer_spec in Hc;
    [|apply bytes_ok_app; split; [done|]; apply bytes_ok_app; split; [repeat constructor; lia|done]|rewrite Hn; lia].
  rewrite (word_sum_app a) in Hc by done. injection Hc as <-. simpl.
  set (s := word_sum a + word_sum b). replace (word_sum a + (0 + word_sum b)) with s by lia.
  pose proof (fold16_range s ltac:(lia)). set (c := 65535 - fold16 s).
  rewrite <- (Hn (c `mod` 256) (c `div` 256)), checksum_buffer_spec;
    [|apply bytes_ok_app; split; [done|]; apply bytes_ok_app; split; [repeat constructor; lia|done]|rewrite Hn; lia].
  rewrite (word_sum_app a) by done. simpl.
  replace (word_sum a + (c `mod` 256 + 256 * (c `div` 256) + word_sum b)) with (s + c) by lia.
  unfold c. rewrite fold16_complement by lia. done.
Qed.

(** ** Properties *)

(** The carry-folding loop of [finish_checksum] terminates on every [uint32_t]
    and computes the one's complement of the sum modulo 2^16 - 1. *)
Theorem finish_checksum_correct (sum : Z) :
  0 ≤ sum < 2 ^ 32 → finish_checksum sum = Ok (65535 - fold16 sum).
Proof. apply finish_checksum_spec. Qed.

Lemma finish_checksum_correct_witness :
  (0 ≤ 0xFFFF0001 < 2 ^ 32) ∧ finish_checksum 0xFFFF0001 = Ok 0xFFFE.
Proof.
  split; [lia|]. rewrite (finish_checksum_correct 0xFFFF0001 ltac:(lia)). vm_compute. reflexivity.
Defined.

(** C27: A header whose checksum field was zero while [checksum_buffer] ran, and then
    received the result, has checksum zero: what a receiver tests. [a] and [b]
    are the bytes around the field, which starts at an even offset. *)
Theorem checksum_verifies (pre a b post : list Z) (c : Z) :
  bytes_ok a → bytes_ok b → Zeven (Zlen a) → Zlen a + 2 + Zlen b < 2 ^ 16 →
  checksum_buffer (pre ++ (a ++ [0; 0] ++ b) ++ post) (Zlen pre) (Zlen a + 2 + Zlen b) = Ok c →
  checksum_buffer (pre ++ (a ++ [c `mod` 256; c `div` 256] ++ b) ++ post)
    (Zlen pre) (Zlen a + 2 + Zlen b) = Ok 0.
Proof. apply checksum_field_verifies. Qed.

(** The IPv4 header of RFC 1071's usual example. *)
Lemma checksum_verifies_witness :
  checksum_buffer ([7] ++ ([0x45; 0; 0; 0x73; 0; 0; 0x40; 0; 0x40; 0x11] ++ [0xB8; 0x61] ++
    [0xC0; 0xA8; 0; 1; 0xC0; 0xA8; 0; 0xC7]) ++ [9]) 1 20 = Ok 0.
Proof.
  apply (checksum_verifies [7] [0x45; 0; 0; 0x73; 0; 0; 0x40; 0; 0x40; 0x11]
    [0xC0; 0xA8; 0; 1; 0xC0; 0xA8; 0; 0xC7] [9] 0x61B8).
  - repeat constructor; lia.
  - repeat constructor; lia.
  - vm_compute. done.
  - vm_compute. done.
  - vm_compute. done.
Defined.

(** The result does not depend on the byte order of the host: summing the words
    of the swapped buffer gives the byte-swapped checksum, which is why the
    callers may apply [ntohs] to it. *)
Theorem checksum_byte_order (l : list Z) (c : Z) :
  bytes_ok l → Zeven (Zlen l) → Zlen l < 2 ^ 16 →
  checksum_buffer l 0 (Zlen l) = Ok c →
  checksum_buffer (swap_pairs l) 0 (Zlen l) = Ok (byteswap16 c).
Proof.
  intros Hb Ev Hl Hc.
  pose proof (checksum_buffer_spec [] l [] Hb Hl) as H1.
  pose proof (checksum_buffer_spec [] (swap_pairs l) [] (swap_pairs_bytes_ok l Hb)) as H2.
  rewrite Zlen_swap_pairs, app_nil_r in H2. rewrite app_nil_r in H1. simpl in *.
  rewrite Zlen_nil in H1, H2. rewrite H1 in Hc. injection Hc as <-. rewrite H2 by done.
  destruct (word_sum_swap_pairs l Hb Ev) as [[k Hk] Hz].
  pose proof (word_sum_bound l Hb) as [? _].
  pose proof (word_sum_bound _ (swap_pairs_bytes_ok l Hb)) as [? _].
  f_equal. rewrite byteswap16_spec by (pose proof (fold16_range (word_sum l)); lia).
  unfold fold16. bool_cases; lia.
Qed.

Lemma checksum_byte_order_witness :
  checksum_buffer [0x12; 0x34; 0xFF; 0xFF] 0 4 = Ok 0xCBED ∧
  checksum_buffer [0x34; 0x12; 0xFF; 0xFF] 0 4 = Ok (byteswap16 0xCBED).
Proof.
  split; [vm_compute; reflexivity|].
  apply (checksum_byte_order [0x12; 0x34; 0xFF; 0xFF] 0xCBED).
  - repeat constructor; lia.
  - vm_compute. done.
  - vm_compute. done.
  - vm_compute. done.
Defined.
