(* ===== verification/Toeplitz.v ===== *)
(** * The Toeplitz (RSS) hash: lib/hash_toeplitz.c

    The key expansion, the two key generators and the hash loop.  The hash
    steers packets to per-packet threads, and the library promises that with a
    bidirectional key both directions of a flow reach the same thread.

    The random numbers of [rand_r] are an argument: a function from the position
    in the sequence to the value drawn. *)

From S2P Require Import Prelude Byteswap.
Local Open Scope Z_scope.
Local Open Scope outcome_scope.

Ltac Zify.zify_post_hook ::= Z.to_euclidean_division_equations.

(** ** Definitions *)

(** [toeplitz_conf_t]: which header fields take part, the forty key bytes and
    the 320 expanded words. *)
Record toeplitz_conf := {
  hash_ipv4 : bool;
  hash_tcp_ipv4 : bool;
  hash_ipv6 : bool;
  hash_tcp_ipv6 : bool;
  hash_ipv6_ex : bool;
  hash_tcp_ipv6_ex : bool;
  x_hash_udp_ipv4 : bool;
  x_hash_udp_ipv6 : bool;
  x_hash_udp_ipv6_ex : bool;
  key : list Z;
  key_cache : list Z;
}.

Definition with_key (c : toeplitz_conf) (k cache : list Z) : toeplitz_conf :=
  {| hash_ipv4 := hash_ipv4 c; hash_tcp_ipv4 := hash_tcp_ipv4 c;
     hash_ipv6 := hash_ipv6 c; hash_tcp_ipv6 := hash_tcp_ipv6 c;
     hash_ipv6_ex := hash_ipv6_ex c; hash_tcp_ipv6_ex := hash_tcp_ipv6_ex c;
     x_hash_udp_ipv4 := x_hash_udp_ipv4 c; x_hash_udp_ipv6 := x_hash_udp_ipv6 c;
     x_hash_udp_ipv6_ex := x_hash_udp_ipv6_ex c; key := k; key_cache := cache |}.

Definition get_bit (byte num : Z) : Z := u8 (Z.land byte (Z.shiftr 0x80 num)).

(** One round of the inner loop of [toeplitz_hash_expand_key]: the key moves up
    by one bit, the last byte takes in a zero. *)
Fixpoint shift_key (key_cpy : list Z) : list Z :=
  match key_cpy with
  | [] => []
  | b :: rest =>
      match rest with
      | [] => [u8 (Z.shiftl b 1)]
      | c :: _ =>
          Z.lor (u8 (Z.shiftl b 1)) (Z.shiftr (Z.land 0x80 c) 7) :: shift_key rest
      end
  end.

(** [*((uint32_t * ) key_cpy)] on the little-endian host. *)
Definition le32 (k : list Z) : outcome Z :=
  let! b0 := aget k 0 in
  let! b1 := aget k 1 in
  let! b2 := aget k 2 in
  let! b3 := aget k 3 in
  Ok (b0 + 2 ^ 8 * b1 + 2 ^ 16 * b2 + 2 ^ 24 * b3).

Fixpoint expand_loop (i : nat) (key_cpy : list Z) : outcome (list Z) :=
  match i with
  | O => Ok []
  | S i' =>
      let! w := le32 key_cpy in
      let! ws := expand_loop i' (shift_key key_cpy) in
      Ok (w :: ws)
  end.

Definition toeplitz_hash_expand_key (conf : toeplitz_conf) : outcome toeplitz_conf :=
  let! ws := expand_loop 320 (take 40 (key conf)) in
  Ok (with_key conf (key conf) ws).

Definition toeplitz_create_unikey (rand_r : nat → Z) : list Z :=
  map (λ i, u8 (rand_r i)) (seq 0 40).

(** Twenty copies of one sixteen-bit word. *)
Definition toeplitz_create_bikey (rand_r : nat → Z) : list Z :=
  let bi_key := u16 (rand_r 0%nat) in
  concat (replicate 20 [bi_key `mod` 256; bi_key `div` 256]).

Definition toeplitz_init_config (rand_r : nat → Z) (conf : toeplitz_conf) (bidirectional : bool)
  : outcome toeplitz_conf :=
  let k := if bidirectional then toeplitz_create_bikey rand_r
           else toeplitz_create_unikey rand_r in
  toeplitz_hash_expand_key (with_key conf k (key_cache conf)).

(** The two loops of [toeplitz_hash]; [i] indexes [key_array], which starts
    [offset*8] words into the cache. *)
Fixpoint toeplitz_bits (cache : list Z) (data_byte : Z) (todo : nat) (bit i result : Z)
  : outcome Z :=
  match todo with
  | O => Ok result
  | S todo' =>
      if negb (get_bit data_byte bit =? 0)
      then let! k := aget cache i in
           toeplitz_bits cache data_byte todo' (bit + 1) (i + 1) (Z.lxor result k)
      else toeplitz_bits cache data_byte todo' (bit + 1) (i + 1) result
  end.

Fixpoint toeplitz_bytes (cache mem : list Z) (data : Z) (todo : nat) (i result : Z)
  : outcome Z :=
  match todo with
  | O => Ok result
  | S todo' =>
      let! b := aget mem data in
      let! r := toeplitz_bits cache b 8 0 i result in
      toeplitz_bytes cache mem (data + 1) todo' (i + 8) r
  end.

Definition toeplitz_hash (tc : toeplitz_conf) (mem : list Z) (data offset n result : Z)
  : outcome Z :=
  toeplitz_bytes (key_cache tc) mem data (Z.to_nat n) (offset * 8) result.

Definition toeplitz_first_hash (tc : toeplitz_conf) (mem : list Z) (data n : Z) : outcome Z :=
  toeplitz_hash tc mem data 0 n 0.

(** ** The key as a bit string *)

(** Bit [p] of a byte string, most significant bit of byte 0 first; zero beyond
    its end. *)
Definition key_bit (k : list Z) (p : nat) : bool :=
  match k !! (p / 8)%nat with
  | Some b => Z.testbit b (7 - Z.of_nat (p `mod` 8))
  | None => false
  end.

Lemma key_bit_cons b k p :
  key_bit (b :: k) p =
  if decide (p < 8)%nat then Z.testbit b (7 - Z.of_nat p) else key_bit k (p - 8).
Proof.
  unfold key_bit. case_decide as Hp.
  - by rewrite Nat.div_small, Nat.mod_small by lia.
  - replace (p / 8)%nat with (S ((p - 8) / 8)) by lia.
    by replace (p `mod` 8)%nat with ((p - 8) `mod` 8)%nat by lia.
Qed.

Lemma length_shift_key k : length (shift_key k) = length k.
Proof. induction k as [|b [|c k] IH]; simpl in *; [done..|]. by rewrite IH. Qed.

Lemma testbit_shl_byte b n :
  0 ≤ n → Z.testbit (u8 (Z.shiftl b 1)) n = (0 <? n) && (n <? 8) && Z.testbit b (n - 1).
Proof.
  intros Hn. unfold u8. destruct (Z.ltb_spec n 8).
  - rewrite Z.mod_pow2_bits_low, Z.shiftl_spec by lia.
    destruct (Z.ltb_spec 0 n); [done|]. by rewrite Z.testbit_neg_r by lia.
  - rewrite Z.mod_pow2_bits_high by lia. by rewrite andb_false_r.
Qed.

Lemma testbit_carry c n :
  0 ≤ n → Z.testbit (Z.shiftr (Z.land 0x80 c) 7) n = (n =? 0) && Z.testbit c 7.
Proof.
  intros Hn. rewrite Z.shiftr_spec, Z.land_spec by lia. change 0x80 with (2 ^ 7).
  rewrite Z.pow2_bits_eqb by lia.
  destruct (Z.eqb_spec 7 (n + 7)); destruct (Z.eqb_spec n 0); try lia; by subst.
Qed.

(** Shifting the key moves the bit string by one. *)
Lemma key_bit_shift k p : key_bit (shift_key k) p = key_bit k (S p).
Proof.
  revert p. induction k as [|b k IH]; intros p; [done|].
  assert (shift_key (b :: k) =
    Z.lor (u8 (Z.shiftl b 1)) (match k with [] => 0 | c :: _ => Z.shiftr (Z.land 0x80 c) 7 end)
    :: shift_key k) as ->.
  { destruct k; [by rewrite Z.lor_0_r|done]. }
  rewrite !key_bit_cons, IH.
  destruct (decide (p < 8)%nat); destruct (decide (S p < 8)%nat); try lia.
  - rewrite Z.lor_spec, testbit_shl_byte by lia.
    rewrite (proj2 (Z.ltb_lt _ _)), (proj2 (Z.ltb_lt _ 8)) by lia. simpl.
    replace (7 - Z.of_nat p - 1) with (7 - Z.of_nat (S p)) by lia.
    destruct k; [by rewrite Z.bits_0, orb_false_r|].
    rewrite testbit_carry, (proj2 (Z.eqb_neq _ _)) by lia. by rewrite orb_false_r.
  - assert (p = 7%nat) as -> by lia. change (7 - Z.of_nat 7) with 0.
    rewrite Z.lor_spec, testbit_shl_byte by lia. simpl (_ && _ && _). destruct k as [|c k]; [done|].
    rewrite testbit_carry by lia. simpl. by rewrite key_bit_cons.
  - f_equal. lia.
Qed.

Lemma key_bit_shift_iter i k p : key_bit (Nat.iter i shift_key k) p = key_bit k (i + p).
Proof.
  revert p. induction i as [|i IH]; intros p; [done|]. simpl.
  rewrite key_bit_shift, IH. f_equal. lia.
Qed.

Lemma length_shift_iter i k : length (Nat.iter i shift_key k) = length k.
Proof. induction i; simpl; [done|]. by rewrite length_shift_key. Qed.

(** The first thirty-two bits determine the word that is loaded. *)
Lemma byte_bits_inj a b :
  0 ≤ a < 256 → 0 ≤ b < 256 →
  (∀ p, (p < 8)%nat → Z.testbit a (7 - Z.of_nat p) = Z.testbit b (7 - Z.of_nat p)) → a = b.
Proof.
  intros Ha Hb H. apply Z.bits_inj'. intros n Hn. destruct (Z.ltb_spec n 8).
  - specialize (H (Z.to_nat (7 - n)) ltac:(lia)). by replace (7 - Z.of_nat _) with n in H by lia.
  - rewrite <- (Z.mod_small a (2 ^ 8)), <- (Z.mod_small b (2 ^ 8)) by lia.
    by rewrite !Z.mod_pow2_bits_high by lia.
Qed.

Lemma le32_ext k k' :
  bytes_ok k → bytes_ok k' → (4 ≤ length k)%nat → (4 ≤ length k')%nat →
  (∀ p, (p < 32)%nat → key_bit k p = key_bit k' p) → le32 k = le32 k'.
Proof.
  intros Hk Hk' Hl Hl' H.
  assert (∀ i, (i < 4)%nat → k !! i = k' !! i) as Hi.
  { intros i Hi. destruct (lookup_lt_is_Some_2 k i) as [a Ha]; [lia|].
    destruct (lookup_lt_is_Some_2 k' i) as [b Hb]; [lia|]. rewrite Ha, Hb. f_equal.
    apply byte_bits_inj; [exact (bytes_ok_lookup _ _ _ Hk Ha)|exact (bytes_ok_lookup _ _ _ Hk' Hb)|]. intros p Hp.
    specialize (H (8 * i + p)%nat ltac:(lia)). unfold key_bit in H.
    replace ((8 * i + p) / 8)%nat with i in H by lia.
    replace ((8 * i + p) `mod` 8)%nat with p in H by lia. by rewrite Ha, Hb in H. }
  unfold le32, aget, in_range.
  rewrite !(proj2 (Z.ltb_lt _ _)) by (unfold Zlen; lia). simpl.
  by rewrite !Hi by (change (Z.to_nat 1) with 1%nat; change (Z.to_nat 2) with 2%nat;
    change (Z.to_nat 3) with 3%nat; lia).
Qed.

Lemma shift_key_bytes_ok k : bytes_ok k → bytes_ok (shift_key k).
Proof.
  induction k as [|b [|c k] IH]; intros Hb; [done| |].
  - apply bytes_ok_cons. split; [apply u8_range|constructor].
  - apply bytes_ok_cons in Hb as [_ Hb].
    change (shift_key (b :: c :: k)) with
      (Z.lor (u8 (Z.shiftl b 1)) (Z.shiftr (Z.land 0x80 c) 7) :: shift_key (c :: k)).
    apply bytes_ok_cons. split; [|by apply IH].
    apply (lor_lt_pow2 _ _ 8); [lia|apply u8_range|].
    rewrite Z.shiftr_div_pow2, Z.land_comm by lia.
    assert (0 ≤ Z.land c 0x80) by (apply Z.land_nonneg; lia).
    assert (Z.land c 0x80 < 256); [|lia].
    rewrite <- (Z.mod_small 0x80 256), <- (Z.land_ones _ 8) by lia.
    rewrite Z.land_assoc, Z.land_ones by lia. apply Z.mod_pos_bound. lia.
Qed.

Lemma shift_iter_bytes_ok i k : bytes_ok k → bytes_ok (Nat.iter i shift_key k).
Proof. intros. induction i; simpl; [done|]. by apply shift_key_bytes_ok. Qed.

(** ** The expanded key *)
Lemma iter_swap_shift i k : Nat.iter i shift_key (shift_key k) = shift_key (Nat.iter i shift_key k).
Proof. induction i; simpl; [done|]. by rewrite IHi. Qed.

Lemma le32_total k : (4 ≤ length k)%nat → ∃ w, le32 k = Ok w.
Proof.
  intros Hl. unfold le32.
  destruct (aget_total k 0) as (? & _ & ->); [unfold Zlen; lia|].
  destruct (aget_total k 1) as (? & _ & ->); [unfold Zlen; lia|].
  destruct (aget_total k 2) as (? & _ & ->); [unfold Zlen; lia|].
  destruct (aget_total k 3) as (? & _ & ->); [unfold Zlen; lia|]. eauto.
Qed.

(** Word [i] of the cache is the load of the key shifted [i] times. *)
Lemma expand_loop_spec n k : (4 ≤ length k)%nat →
  ∃ ws, expand_loop n k = Ok ws ∧ length ws = n ∧
    ∀ i w, ws !! i = Some w → le32 (Nat.iter i shift_key k) = Ok w.
Proof.
  revert k. induction n as [|n IH]; intros k Hl; simpl; [by exists []|].
  destruct (le32_total k Hl) as [w Hw]. rewrite Hw. simpl.
  destruct (IH (shift_key k)) as (ws & -> & Hlen & Hws); [by rewrite length_shift_key|].
  exists (w :: ws). split; [done|]. split; [simpl; lia|].
  intros [|i] w' Hi; simpl in *; [by injection Hi as <-|].
  rewrite <- iter_swap_shift. by apply Hws.
Qed.

(** What the hash needs of the cache: words sixteen positions apart agree, up to
    the last window that lies inside the forty key bytes. *)
Definition cache_periodic (cache : list Z) : Prop :=
  length cache = 320%nat ∧
  ∀ i, (i + 16 ≤ 288)%nat → cache !! i = cache !! (i + 16)%nat.

Lemma length_bikey rnd : length (toeplitz_create_bikey rnd) = 40%nat.
Proof. unfold toeplitz_create_bikey. done. Qed.

Lemma bikey_bytes_ok rnd : bytes_ok (toeplitz_create_bikey rnd).
Proof.
  unfold toeplitz_create_bikey. set (w := u16 (rnd 0%nat)).
  assert (0 ≤ w < 2 ^ 16) by apply u16_range.
  apply Forall_concat, Forall_replicate. repeat constructor; lia.
Qed.

Lemma concat_replicate2_lookup {A} (a b : A) n i :
  (i < 2 * n)%nat → concat (replicate n [a; b]) !! i = Some (if Nat.even i then a else b).
Proof.
  revert i. induction n as [|n IH]; intros i Hi; [lia|]. simpl.
  destruct i as [|[|i]]; [done..|]. simpl. rewrite IH by lia. done.
Qed.

Lemma bikey_bit_period rnd p : (p + 16 < 320)%nat →
  key_bit (toeplitz_create_bikey rnd) p = key_bit (toeplitz_create_bikey rnd) (p + 16).
Proof.
  intros Hp. unfold key_bit, toeplitz_create_bikey.
  rewrite !concat_replicate2_lookup by lia.
  replace ((p + 16) / 8)%nat with (S (S (p / 8))) by lia.
  replace ((p + 16) `mod` 8)%nat with (p `mod` 8)%nat by lia. done.
Qed.

Lemma bikey_cache_periodic rnd conf conf' :
  toeplitz_init_config rnd conf true = Ok conf' → cache_periodic (key_cache conf').
Proof.
  unfold toeplitz_init_config, toeplitz_hash_expand_key. intros H.
  set (k := toeplitz_create_bikey rnd) in *.
  assert (take 40 (key (with_key conf k (key_cache conf))) = k) as Hk
    by (cbn [key with_key]; apply take_ge; unfold k; by rewrite length_bikey). rewrite Hk in H.
  pose proof (bikey_bytes_ok rnd) as Hok. pose proof (length_bikey rnd) as Hlk.
  fold k in Hok, Hlk.
  destruct (expand_loop_spec 320 k) as (ws & Hws & Hlen & Hi); [lia|].
  rewrite Hws in H. injection H as <-. simpl. split; [done|]. intros i Hle.
  destruct (lookup_lt_is_Some_2 ws i) as [w Hw]; [lia|].
  destruct (lookup_lt_is_Some_2 ws (i + 16)) as [w' Hw']; [lia|]. rewrite Hw, Hw'.
  apply Hi in Hw, Hw'. f_equal. enough (Ok w = Ok w') by congruence. rewrite <- Hw, <- Hw'.
  apply le32_ext; rewrite ?length_shift_iter; try (by apply shift_iter_bytes_ok); [lia..|].
  intros p Hp. rewrite !key_bit_shift_iter. unfold k. rewrite bikey_bit_period by lia.
  f_equal. lia.
Qed.

(** ** The hash as an exclusive or of cache words *)
Fixpoint xor_bits (cache : list Z) (b : Z) (todo : nat) (bit : Z) (i : nat) : Z :=
  match todo with
  | O => 0
  | S todo' =>
      Z.lxor (if negb (get_bit b bit =? 0) then default 0 (cache !! i) else 0)
             (xor_bits cache b todo' (bit + 1) (S i))
  end.

Fixpoint xor_bytes (cache : list Z) (l : list Z) (i : nat) : Z :=
  match l with
  | [] => 0
  | b :: l' => Z.lxor (xor_bits cache b 8 0 i) (xor_bytes cache l' (i + 8))
  end.

Lemma toeplitz_bits_spec cache b todo bit i r :
  (i + todo ≤ length cache)%nat →
  toeplitz_bits cache b todo bit (Z.of_nat i) r = Ok (Z.lxor r (xor_bits cache b todo bit i)).
Proof.
  revert bit i r. induction todo as [|todo IH]; intros bit i r Hle; simpl.
  { by rewrite Z.lxor_0_r. }
  replace (Z.of_nat i + 1) with (Z.of_nat (S i)) by lia.
  destruct (negb _); [|by rewrite IH, Z.lxor_0_l by lia].
  destruct (lookup_lt_is_Some_2 cache i) as [w Hw]; [lia|].
  rewrite (aget_ok _ _ w) by (rewrite ?Nat2Z.id; done || lia). simpl.
  by rewrite IH, Hw, Z.lxor_assoc by lia.
Qed.

Lemma toeplitz_bytes_spec cache pre l post i r :
  (i + 8 * length l ≤ length cache)%nat →
  toeplitz_bytes cache (pre ++ l ++ post) (Zlen pre) (length l) (Z.of_nat i) r =
  Ok (Z.lxor r (xor_bytes cache l i)).
Proof.
  revert pre i r. induction l as [|b l IH]; intros pre i r Hle; cbn [toeplitz_bytes length xor_bytes].
  { by rewrite Z.lxor_0_r. }
  cbn [length] in Hle. rewrite (aget_ok _ _ b); [|apply Zlen_nonneg|].
  2:{ unfold Zlen. rewrite Nat2Z.id. by apply list_lookup_middle. }
  cbn [obind]. rewrite toeplitz_bits_spec by lia. cbn [obind].
  specialize (IH (pre ++ [b]) (i + 8)%nat). rewrite Zlen_app, <- app_assoc in IH.
  replace (Zlen pre + Zlen [b]) with (Zlen pre + 1) in IH by (unfold Zlen; simpl; lia).
  replace (Z.of_nat i + 8) with (Z.of_nat (i + 8)) by lia. simpl in IH.
  by rewrite IH, Z.lxor_assoc by lia.
Qed.

Lemma toeplitz_hash_spec tc pre l post off r :
  ((off + length l) * 8 ≤ length (key_cache tc))%nat →
  toeplitz_hash tc (pre ++ l ++ post) (Zlen pre) (Z.of_nat off) (Zlen l) r =
  Ok (Z.lxor r (xor_bytes (key_cache tc) l (off * 8))).
Proof.
  intros H. unfold toeplitz_hash. unfold Zlen at 2. rewrite Nat2Z.id.
  replace (Z.of_nat off * 8) with (Z.of_nat (off * 8)) by lia.
  apply toeplitz_bytes_spec. lia.
Qed.

Lemma xor_bytes_app cache a b i :
  xor_bytes cache (a ++ b) i = Z.lxor (xor_bytes cache a i) (xor_bytes cache b (i + 8 * length a)).
Proof.
  revert i. induction a as [|x a IH]; intros i; cbn [app xor_bytes length].
  { rewrite Z.lxor_0_l. f_equal. lia. }
  rewrite IH, Z.lxor_assoc. do 3 f_equal. lia.
Qed.

Lemma xor_bits_period cache b todo bit i : cache_periodic cache →
  (i + todo + 15 ≤ 288)%nat →
  xor_bits cache b todo bit i = xor_bits cache b todo bit (i + 16).
Proof.
  intros [Hl Hp]. revert bit i. induction todo as [|todo IH]; intros bit i Hle; simpl; [done|].
  rewrite (Hp i) by lia. f_equal. rewrite IH by lia. done.
Qed.

Lemma xor_bytes_period cache l i : cache_periodic cache →
  (i + 8 * length l + 15 ≤ 288)%nat → xor_bytes cache l i = xor_bytes cache l (i + 16).
Proof.
  intros Hc. revert i. induction l as [|b l IH]; intros i Hle; cbn [xor_bytes length] in *; [done|].
  rewrite (xor_bits_period _ _ _ _ _ Hc) by lia. rewrite IH by lia. do 2 f_equal. lia.
Qed.

Lemma xor_bytes_period_mul cache l i m : cache_periodic cache →
  (i + 16 * m + 8 * length l ≤ 289)%nat → xor_bytes cache l i = xor_bytes cache l (i + 16 * m).
Proof.
  intros Hc. revert i. induction m as [|m IH]; intros i Hle; [f_equal; lia|].
  rewrite xor_bytes_period by (done || lia). rewrite IH by lia. f_equal. lia.
Qed.

(** Swapping two even sized fields does not change the hash under a periodic key. *)
Lemma bikey_hash_swap rnd conf conf' (src dst pre pre' post post' : list Z)
    (off : nat) (r : Z) :
  toeplitz_init_config rnd conf true = Ok conf' →
  length src = length dst → Nat.even (length src) = true →
  (off + 2 * length src ≤ 36)%nat →
  toeplitz_hash conf' (pre ++ (src ++ dst) ++ post) (Zlen pre) (Z.of_nat off)
    (Zlen (src ++ dst)) r =
  toeplitz_hash conf' (pre' ++ (dst ++ src) ++ post') (Zlen pre') (Z.of_nat off)
    (Zlen (dst ++ src)) r.
Proof.
  intros Hc Hl [m Hm]%Nat.even_spec Hoff.
  pose proof (bikey_cache_periodic _ _ _ Hc) as Hp.
  assert (length (key_cache conf') = 320%nat) by apply Hp.
  rewrite !toeplitz_hash_spec by (rewrite length_app; lia). do 2 f_equal.
  rewrite !xor_bytes_app, <- Hl.
  rewrite (xor_bytes_period_mul _ src (off * 8) m Hp) by lia.
  rewrite (xor_bytes_period_mul _ dst (off * 8) m Hp) by lia.
  replace (16 * m)%nat with (8 * length src)%nat by lia. apply Z.lxor_comm.
Qed.

(** ** Properties *)

(** With a key from [toeplitz_create_bikey] the hash of two equally long, even
    sized fields (addresses, ports) does not depend on their order: both
    directions of a flow get the same hash, for IPv4 and IPv6 addresses
    (offset 0) and for the ports after either (offsets 8 and 32). *)
Theorem bikey_hash_symmetric rnd conf conf' (src dst pre pre' post post' : list Z)
    (off : nat) (r : Z) :
  toeplitz_init_config rnd conf true = Ok conf' →
  length src = length dst → Nat.even (length src) = true →
  (off + 2 * length src ≤ 36)%nat →
  toeplitz_hash conf' (pre ++ (src ++ dst) ++ post) (Zlen pre) (Z.of_nat off)
    (Zlen (src ++ dst)) r =
  toeplitz_hash conf' (pre' ++ (dst ++ src) ++ post') (Zlen pre') (Z.of_nat off)
    (Zlen (dst ++ src)) r.
Proof. apply bikey_hash_swap. Qed.

Definition rss_conf : toeplitz_conf :=
  {| hash_ipv4 := true; hash_tcp_ipv4 := true; hash_ipv6 := true; hash_tcp_ipv6 := true;
     hash_ipv6_ex := false; hash_tcp_ipv6_ex := false; x_hash_udp_ipv4 := true;
     x_hash_udp_ipv6 := true; x_hash_udp_ipv6_ex := false; key := []; key_cache := [] |}.

(** IPv4 addresses 10.0.0.1 and 192.168.0.7, hashed in both orders. *)
Lemma bikey_hash_symmetric_witness :
  ∃ conf', toeplitz_init_config (λ _, 0x6D5A) rss_conf true = Ok conf' ∧
  toeplitz_hash conf' ([] ++ ([10; 0; 0; 1] ++ [192; 168; 0; 7]) ++ []) 0 0 8 0 =
  toeplitz_hash conf' ([] ++ ([192; 168; 0; 7] ++ [10; 0; 0; 1]) ++ []) 0 0 8 0.
Proof.
  destruct (toeplitz_init_config (λ _, 0x6D5A) rss_conf true) as [conf'|] eqn:E.
  - exists conf'. split; [reflexivity|].
    exact (bikey_hash_symmetric (λ _, 0x6D5A) rss_conf conf' [10; 0; 0; 1] [192; 168; 0; 7]
      [] [] [] [] 0 0 E eq_refl eq_refl ltac:(vm_compute; lia)).
  - exfalso. apply (f_equal is_ok) in E. vm_compute in E. discriminate E.
Defined.

(** Both key generators give a forty byte key, and the expansion of any such key
    succeeds: 320 words, each a [uint32_t]. *)
Theorem toeplitz_init_config_total rnd conf bidirectional :
  ∃ conf', toeplitz_init_config rnd conf bidirectional = Ok conf' ∧
    length (key conf') = 40%nat ∧ bytes_ok (key conf') ∧
    length (key_cache conf') = 320%nat ∧
    Forall (λ w, 0 ≤ w < 2 ^ 32) (key_cache conf').
Proof.
  unfold toeplitz_init_config, toeplitz_hash_expand_key.
  set (k := if bidirectional then _ else _).
  assert (length k = 40%nat) as Hl.
  { unfold k. destruct bidirectional; [apply length_bikey|].
    unfold toeplitz_create_unikey. by rewrite length_map, length_seq. }
  assert (bytes_ok k) as Hk.
  { unfold k. destruct bidirectional; [apply bikey_bytes_ok|].
    unfold toeplitz_create_unikey. apply Forall_fmap, Forall_true. intros. apply u8_range. }
  cbn [key with_key]. rewrite take_ge by lia.
  destruct (expand_loop_spec 320 k) as (ws & -> & Hlen & Hws); [lia|].
  eexists. split; [done|]. cbn. split_and!; try done.
  apply Forall_lookup. intros i w Hi%Hws.
  pose proof (shift_iter_bytes_ok i k Hk) as Hok. revert Hi. generalize (Nat.iter i shift_key k), Hok.
  clear. intros k Hk Hi. unfold le32 in Hi.
  do 4 obind_inv Hi.
  repeat match goal with H : aget _ _ = Ok _ |- _ =>
    apply aget_ok_inv in H as [_ H]; apply (bytes_ok_lookup _ _ _ Hk) in H end.
  injection Hi as <-. lia.
Qed.
