(* ===== verification/DNodes.v ===== *)
(** * Doubly linked nodes in memory

    The part [data-struct/linked_list.c] and [data-struct/deque.c] have in
    common: nodes with [next] and [prev] pointers, allocated one by one.  The
    memory of one list is a finite map from locations to nodes; a null pointer
    is [None].  An access through a null pointer or to a freed node is a fault,
    not a value.

    [dll_rep] says that such a memory, with the head and tail pointers and the
    size counter, holds a given sequence of nodes, and nothing else: it
    accounts for every allocated node, so an operation that preserves it leaks
    nothing.  The lemmas describe what linking and unlinking a node at either
    end does to it. *)

From S2P Require Import Prelude.
Local Open Scope Z_scope.
Local Open Scope outcome_scope.

Abbreviation loc := positive.

Record node (A : Type) := Node {
  nd_data : A;
  nd_next : option loc;
  nd_prev : option loc;
}.
Arguments Node {A} _ _ _.
Arguments nd_data {A} _.
Arguments nd_next {A} _.
Arguments nd_prev {A} _.

(** ** Memory accesses *)
Section accesses.
Context {A : Type}.
Implicit Types (h : gmap loc (node A)) (p : option loc).

(** [*p], for the fields of a node. *)
Definition load h p : outcome (node A) :=
  match p with
  | None => Fault NullDeref
  | Some q => match h !! q with Some n => Ok n | None => Fault Dangling end
  end.

(** [p->next = v] and [p->prev = v]. *)
Definition set_next h p (v : option loc) : outcome (gmap loc (node A)) :=
  let! n := load h p in
  match p with
  | Some q => Ok (<[q := Node (nd_data n) v (nd_prev n)]> h)
  | None => Fault NullDeref
  end.

Definition set_prev h p (v : option loc) : outcome (gmap loc (node A)) :=
  let! n := load h p in
  match p with
  | Some q => Ok (<[q := Node (nd_data n) (nd_next n) v]> h)
  | None => Fault NullDeref
  end.

(** [free(p)]: freeing [NULL] does nothing, freeing twice is a fault. *)
Definition free_node h p : outcome (gmap loc (node A)) :=
  match p with
  | None => Ok h
  | Some q => match h !! q with Some _ => Ok (delete q h) | None => Fault Dangling end
  end.

(** [malloc]: a location that is not in use.  Allocation does not fail. *)
Definition malloc_loc h : loc := fresh (dom h).

End accesses.

(** ** Representation *)
Section rep.
Context {A : Type}.
Implicit Types (h : gmap loc (node A)) (ns : list (loc * A)).

(** The location of the first node of [ns], or [nx] if there is none; of the
    last one, or [pv]. *)
Definition first_loc ns (nx : option loc) : option loc :=
  match ns with [] => nx | (p, _) :: _ => Some p end.

Definition last_loc ns (pv : option loc) : option loc :=
  match last ns with Some (p, _) => Some p | None => pv end.

Fixpoint dseg h (pv : option loc) ns (nx : option loc) : Prop :=
  match ns with
  | [] => True
  | (p, x) :: ns' =>
      h !! p = Some (Node x (first_loc ns' nx) pv) ∧ dseg h (Some p) ns' nx
  end.

Definition locs ns : list loc := map fst ns.

Record dll_rep h (hd tl : option loc) (sz : Z) ns : Prop := {
  rep_seg : dseg h None ns None;
  rep_nodup : NoDup (locs ns);
  rep_dom : dom h = list_to_set (locs ns);
  rep_head : hd = first_loc ns None;
  rep_tail : tl = last_loc ns None;
  rep_size : sz = Zlen ns;
}.

Lemma last_loc_snoc ns p x pv : last_loc (ns ++ [(p, x)]) pv = Some p.
Proof. unfold last_loc. by rewrite last_snoc. Qed.

Lemma last_loc_cons ns p x pv : last_loc ((p, x) :: ns) pv = last_loc ns (Some p).
Proof.
  unfold last_loc. destruct ns as [|[q y] ns]; [done|]. rewrite last_cons_cons.
  destruct (last ((q, y) :: ns)) eqn:E; [done|]. by apply last_None in E.
Qed.

Lemma first_loc_app ns ns' nx : first_loc (ns ++ ns') nx = first_loc ns (first_loc ns' nx).
Proof. by destruct ns as [|[p x] ns]. Qed.

Lemma locs_app ns ns' : locs (ns ++ ns') = locs ns ++ locs ns'.
Proof. apply map_app. Qed.

Lemma dseg_app h pv ns ns' nx :
  dseg h pv (ns ++ ns') nx ↔
  dseg h pv ns (first_loc ns' nx) ∧ dseg h (last_loc ns pv) ns' nx.
Proof.
  revert pv. induction ns as [|[p x] ns IH]; intros pv; simpl.
  - unfold last_loc. simpl. naive_solver.
  - rewrite IH, first_loc_app, last_loc_cons. naive_solver.
Qed.

(** Changing the memory elsewhere does not matter. *)
Lemma dseg_frame h h' pv ns nx :
  (∀ p, p ∈ locs ns → h !! p = h' !! p) → dseg h pv ns nx → dseg h' pv ns nx.
Proof.
  revert pv. induction ns as [|[p x] ns IH]; intros pv Heq; simpl; [done|].
  intros [Hp Hs]. split.
  - rewrite <- Heq; [done|]. simpl. left.
  - apply IH; [|done]. intros q Hq. apply Heq. simpl. by right.
Qed.

Lemma dseg_insert h pv ns nx p n :
  p ∉ locs ns → dseg h pv ns nx → dseg (<[p := n]> h) pv ns nx.
Proof.
  intros Hp. apply dseg_frame. intros q Hq. rewrite lookup_insert_ne; [done|set_solver].
Qed.

Lemma dseg_delete h pv ns nx p :
  p ∉ locs ns → dseg h pv ns nx → dseg (delete p h) pv ns nx.
Proof.
  intros Hp. apply dseg_frame. intros q Hq. rewrite lookup_delete_ne; [done|set_solver].
Qed.

Lemma malloc_loc_fresh h : h !! malloc_loc h = None.
Proof. apply not_elem_of_dom. unfold malloc_loc. apply is_fresh. Qed.

Lemma rep_fresh h hd tl sz ns : dll_rep h hd tl sz ns → malloc_loc h ∉ locs ns.
Proof.
  intros R. pose proof (malloc_loc_fresh h) as Hf. apply not_elem_of_dom in Hf.
  rewrite (rep_dom _ _ _ _ _ R) in Hf. set_solver.
Qed.

(** An empty list and the pointers to it. *)
Lemma rep_nil_head h hd tl sz ns : dll_rep h hd tl sz ns → hd = None ↔ ns = [].
Proof. intros R. rewrite (rep_head _ _ _ _ _ R). destruct ns as [|[]]; by split. Qed.

Lemma rep_nil_tail h hd tl sz ns : dll_rep h hd tl sz ns → tl = None ↔ ns = [].
Proof.
  intros R. rewrite (rep_tail _ _ _ _ _ R). destruct ns as [|[p x] ns _] using rev_ind; [by split|].
  rewrite last_loc_snoc. split; [done|]. by intros [_ [=]]%app_nil.
Qed.

(** Redirecting the outer pointer of the first or of the last node. *)
Lemma dseg_set_prev h pv pv' q y ns nx :
  NoDup (q :: locs ns) → dseg h pv ((q, y) :: ns) nx →
  dseg (<[q := Node y (first_loc ns nx) pv']> h) pv' ((q, y) :: ns) nx.
Proof.
  intros [Hq _]%NoDup_cons [_ Hs]. simpl. rewrite lookup_insert_eq. split; [done|].
  by apply dseg_insert.
Qed.

Lemma dseg_set_next h pv q y ns nx nx' :
  NoDup (locs ns ++ [q]) → dseg h pv (ns ++ [(q, y)]) nx →
  dseg (<[q := Node y nx' (last_loc ns pv)]> h) pv (ns ++ [(q, y)]) nx'.
Proof.
  intros (_ & Hq & _)%NoDup_app. rewrite !dseg_app. simpl. intros [Hs _].
  rewrite lookup_insert_eq. split; [|done]. apply dseg_insert; [set_solver|done].
Qed.

(** Linking the first node into an empty list. *)
Lemma rep_link_only h hd tl sz p x :
  dll_rep h hd tl sz [] →
  dll_rep (<[p := Node x None None]> h) (Some p) (Some p) 1 [(p, x)].
Proof.
  intros R. split; simpl; rewrite ?lookup_insert_eq; try done; [apply NoDup_singleton|].
  rewrite dom_insert_L, (rep_dom _ _ _ _ _ R). set_solver.
Qed.

Lemma rep_link_front h hd tl sz q y ns p x :
  dll_rep h hd tl sz ((q, y) :: ns) → p ∉ locs ((q, y) :: ns) →
  dll_rep (<[p := Node x (Some q) None]> (<[q := Node y (first_loc ns None) (Some p)]> h))
    (Some p) tl (sz + 1) ((p, x) :: (q, y) :: ns).
Proof.
  intros R Hp. pose proof (rep_nodup _ _ _ _ _ R) as Hnd. split.
  - simpl. rewrite lookup_insert_eq. split; [done|].
    apply (dseg_insert _ _ ((q, y) :: ns)); [done|].
    apply (dseg_set_prev _ None); [done|apply R].
  - by apply NoDup_cons.
  - rewrite !dom_insert_L, (rep_dom _ _ _ _ _ R). set_solver.
  - done.
  - rewrite last_loc_cons, (rep_tail _ _ _ _ _ R). by rewrite !last_loc_cons.
  - rewrite (rep_size _ _ _ _ _ R), !Zlen_cons. lia.
Qed.

Lemma rep_link_back h hd tl sz q y ns p x :
  dll_rep h hd tl sz (ns ++ [(q, y)]) → p ∉ locs (ns ++ [(q, y)]) →
  dll_rep (<[p := Node x None (Some q)]> (<[q := Node y (Some p) (last_loc ns None)]> h))
    hd (Some p) (sz + 1) ((ns ++ [(q, y)]) ++ [(p, x)]).
Proof.
  intros R Hp. pose proof (rep_nodup _ _ _ _ _ R) as Hnd. split.
  - rewrite dseg_app. simpl. rewrite lookup_insert_eq, last_loc_snoc.
    split; [|done]. apply dseg_insert; [done|].
    apply dseg_set_next with None; [by rewrite locs_app in Hnd|apply R].
  - rewrite locs_app. apply NoDup_app. split_and!; [done| |apply NoDup_singleton].
    by intros z Hz ->%list_elem_of_singleton.
  - rewrite !dom_insert_L, (rep_dom _ _ _ _ _ R), !locs_app. set_solver.
  - rewrite (rep_head _ _ _ _ _ R). by destruct ns as [|[]].
  - by rewrite last_loc_snoc.
  - rewrite (rep_size _ _ _ _ _ R), !Zlen_app, Zlen_cons, Zlen_nil. done.
Qed.

(** Unlinking the only node, the first of several, the last of several. *)
Lemma rep_unlink_only h hd tl sz p x :
  dll_rep h hd tl sz [(p, x)] → dll_rep (delete p h) None None 0 [].
Proof.
  intros R. split; simpl; try done; [constructor|].
  rewrite dom_delete_L, (rep_dom _ _ _ _ _ R). set_solver.
Qed.

Lemma rep_unlink_front h hd tl sz p x q y ns :
  dll_rep h hd tl sz ((p, x) :: (q, y) :: ns) →
  dll_rep (delete p (<[q := Node y (first_loc ns None) None]> h))
    (Some q) tl (sz - 1) ((q, y) :: ns).
Proof.
  intros R. pose proof (rep_nodup _ _ _ _ _ R) as [Hp Hnd]%NoDup_cons.
  pose proof (rep_seg _ _ _ _ _ R) as [_ Hs]. split.
  - apply dseg_delete; [done|]. by apply (dseg_set_prev _ (Some p)).
  - done.
  - rewrite dom_delete_L, dom_insert_L, (rep_dom _ _ _ _ _ R).
    change (p ∉ locs ((q, y) :: ns)) in Hp. revert Hp. simpl. set_solver.
  - done.
  - rewrite (rep_tail _ _ _ _ _ R). by rewrite !last_loc_cons.
  - rewrite (rep_size _ _ _ _ _ R), !Zlen_cons. lia.
Qed.

Lemma rep_unlink_back h hd tl sz p x q y ns :
  dll_rep h hd tl sz ((ns ++ [(q, y)]) ++ [(p, x)]) →
  dll_rep (delete p (<[q := Node y None (last_loc ns None)]> h))
    hd (Some q) (sz - 1) (ns ++ [(q, y)]).
Proof.
  intros R. pose proof (rep_nodup _ _ _ _ _ R) as Hnd. rewrite locs_app in Hnd.
  apply NoDup_app in Hnd as (Hnd & Hp & _).
  assert (p ∉ locs (ns ++ [(q, y)])) as Hnp by (intros Hin; apply (Hp p Hin); left).
  pose proof (rep_seg _ _ _ _ _ R) as Hs. apply dseg_app in Hs as [Hs _]. split.
  - apply dseg_delete; [done|].
    eapply dseg_set_next; [by rewrite locs_app in Hnd|exact Hs].
  - done.
  - rewrite dom_delete_L, dom_insert_L, (rep_dom _ _ _ _ _ R), (locs_app (ns ++ _)).
    clear Hp. rewrite locs_app in *. set_solver.
  - rewrite (rep_head _ _ _ _ _ R). by destruct ns as [|[]].
  - by rewrite last_loc_snoc.
  - rewrite (rep_size _ _ _ _ _ R), !Zlen_app, !Zlen_cons, Zlen_nil. lia.
Qed.

(** What the pointers of a represented list lead to. *)
Lemma rep_load_head h hd tl sz p x ns :
  dll_rep h hd tl sz ((p, x) :: ns) →
  hd = Some p ∧ load h hd = Ok (Node x (first_loc ns None) None).
Proof.
  intros R. rewrite (rep_head _ _ _ _ _ R). simpl. split; [done|].
  pose proof (rep_seg _ _ _ _ _ R) as [-> _]. done.
Qed.

Lemma rep_load_tail h hd tl sz p x ns :
  dll_rep h hd tl sz (ns ++ [(p, x)]) →
  tl = Some p ∧ load h tl = Ok (Node x None (last_loc ns None)).
Proof.
  intros R. rewrite (rep_tail _ _ _ _ _ R), last_loc_snoc. split; [done|].
  pose proof (rep_seg _ _ _ _ _ R) as Hs. apply dseg_app in Hs as [_ [Hp _]]. simpl.
  by rewrite Hp.
Qed.

(** A list with a last node has a first one, and the other way round. *)
Lemma rep_head_snoc h hd tl sz p x ns :
  dll_rep h hd tl sz (ns ++ [(p, x)]) → ∃ p', hd = Some p'.
Proof.
  intros R. rewrite (rep_head _ _ _ _ _ R). destruct ns as [|[q y] ns]; by eexists.
Qed.

(** ** The four end operations, as both implementations perform them

    Linking redirects the old end and allocates; unlinking redirects the new
    end (if there is one), decrements the size and, when at most one node is
    left, makes the other end pointer equal to this one. *)
Lemma rep_push_front h hd tl sz q y ns x :
  dll_rep h hd tl sz ((q, y) :: ns) →
  ∃ h1, set_prev h hd (Some (malloc_loc h)) = Ok h1 ∧
    dll_rep (<[malloc_loc h := Node x hd None]> h1) (Some (malloc_loc h)) tl (sz + 1)
      ((malloc_loc h, x) :: (q, y) :: ns).
Proof.
  intros R. destruct (rep_load_head _ _ _ _ _ _ _ R) as [-> Hld].
  unfold set_prev. rewrite Hld. simpl. eexists. split; [done|].
  eapply rep_link_front; [exact R|by eapply rep_fresh].
Qed.

Lemma rep_push_back h hd tl sz q y ns x :
  dll_rep h hd tl sz (ns ++ [(q, y)]) →
  ∃ h1, set_next h tl (Some (malloc_loc h)) = Ok h1 ∧
    dll_rep (<[malloc_loc h := Node x None tl]> h1) hd (Some (malloc_loc h)) (sz + 1)
      ((ns ++ [(q, y)]) ++ [(malloc_loc h, x)]).
Proof.
  intros R. destruct (rep_load_tail _ _ _ _ _ _ _ R) as [-> Hld].
  unfold set_next. rewrite Hld. simpl. eexists. split; [done|].
  eapply rep_link_back; [exact R|by eapply rep_fresh].
Qed.

Lemma rep_pop_front h hd tl sz p x ns :
  dll_rep h hd tl sz ((p, x) :: ns) →
  ∃ h1 h2, match first_loc ns None with
           | None => Ok h
           | Some _ => set_prev h (first_loc ns None) None
           end = Ok h1 ∧
    load h1 hd = Ok (Node x (first_loc ns None) None) ∧ free_node h1 hd = Ok h2 ∧
    dll_rep h2 (first_loc ns None) (if sz - 1 <=? 1 then first_loc ns None else tl) (sz - 1) ns.
Proof.
  intros R. destruct (rep_load_head _ _ _ _ _ _ _ R) as [Hp _].
  pose proof (rep_size _ _ _ _ _ R) as Hsz. rewrite Zlen_cons in Hsz.
  pose proof (rep_nodup _ _ _ _ _ R) as [Hnin _]%NoDup_cons.
  pose proof (rep_seg _ _ _ _ _ R) as [Hlp Hs]. subst hd. destruct ns as [|[q y] ns]; simpl in *.
  - exists h, (delete p h). unfold free_node. simpl. rewrite Hlp. subst sz. simpl. do 3 (split; [done|]).
    by eapply rep_unlink_only.
  - destruct Hs as [Hlq _]. unfold set_prev, free_node. simpl. rewrite Hlq. simpl. do 2 eexists. split; [done|].
    rewrite lookup_insert_ne, Hlp by set_solver. do 2 (split; [done|]).
    assert ((if sz - 1 <=? 1 then Some q else tl) = tl) as ->.
    { destruct (Z.leb_spec (sz - 1) 1); [|done].
      rewrite (rep_tail _ _ _ _ _ R), !last_loc_cons. destruct ns; [done|].
      rewrite !Zlen_cons in *. pose proof (Zlen_nonneg ns). lia. }
    by eapply rep_unlink_front.
Qed.

Lemma rep_pop_back h hd tl sz p x ns :
  dll_rep h hd tl sz (ns ++ [(p, x)]) →
  ∃ h1 h2, match last_loc ns None with
           | None => Ok h
           | Some _ => set_next h (last_loc ns None) None
           end = Ok h1 ∧
    load h1 tl = Ok (Node x None (last_loc ns None)) ∧ free_node h1 tl = Ok h2 ∧
    dll_rep h2 (if sz - 1 <=? 1 then last_loc ns None else hd) (last_loc ns None) (sz - 1) ns.
Proof.
  intros R. destruct (rep_load_tail _ _ _ _ _ _ _ R) as [Hp _].
  pose proof (rep_size _ _ _ _ _ R) as Hsz. rewrite Zlen_app, Zlen_cons, Zlen_nil in Hsz.
  pose proof (rep_nodup _ _ _ _ _ R) as Hnd.
  pose proof (rep_seg _ _ _ _ _ R) as Hs. apply dseg_app in Hs as [Hs [Hlp _]]. subst tl.
  destruct ns as [|[q y] ns _] using rev_ind; simpl in *.
  - exists h, (delete p h). unfold free_node. simpl. rewrite Hlp. subst sz. simpl. do 3 (split; [done|]).
    by eapply rep_unlink_only.
  - apply dseg_app in Hs as [_ [Hlq _]]. rewrite last_loc_snoc. simpl in *.
    unfold set_next, free_node. simpl. rewrite Hlq. simpl.
    do 2 eexists. split; [done|]. rewrite lookup_insert_ne, Hlp.
    2:{ intros ->. rewrite !locs_app in Hnd. apply NoDup_app in Hnd as (_ & Hd & _).
        apply (Hd p); [apply elem_of_app; right; left|left]. }
    rewrite last_loc_snoc. do 2 (split; [done|]).
    assert ((if sz - 1 <=? 1 then Some q else hd) = hd) as ->.
    { destruct (Z.leb_spec (sz - 1) 1); [|done].
      rewrite (rep_head _ _ _ _ _ R). destruct ns as [|[]]; [done|].
      rewrite !Zlen_app, !Zlen_cons, Zlen_nil in *. pose proof (Zlen_nonneg ns). lia. }
    by eapply rep_unlink_back.
Qed.

(** The nodes in order, from the head pointer on. *)
Lemma rep_lookup h hd tl sz ns i p x :
  dll_rep h hd tl sz ns → ns !! i = Some (p, x) →
  h !! p = Some (Node x (fst <$> ns !! S i) (match i with O => None | S j => fst <$> ns !! j end)).
Proof.
  intros R Hi. pose proof (rep_seg _ _ _ _ _ R) as Hs.
  rewrite <- (take_drop_middle ns i (p, x) Hi) in Hs. apply dseg_app in Hs as [_ [-> _]].
  do 2 f_equal.
  - replace (ns !! S i) with (drop (S i) ns !! 0%nat) by (rewrite lookup_drop; f_equal; lia).
    by destruct (drop (S i) ns) as [|[]].
  - unfold last_loc. destruct i as [|j]; [done|].
    rewrite last_lookup, length_take_le, Nat.pred_succ, lookup_take_lt;
      [|lia|apply lookup_lt_Some in Hi; lia].
    by destruct (ns !! j) as [[]|].
Qed.
End rep.
