(* ===== verification/QueueSpec.v ===== *)
(** * The interface of a double-ended queue

    What the result combiners rely on when they use [libtrace_queue_t]: an
    abstract sequence, and for each operation its effect on that sequence.  The
    operations are those of [data-struct/deque.h]; [Deque.v] provides the
    instance, the combiners are verified against the class. *)

From S2P Require Import Prelude.
Local Open Scope Z_scope.

(** The return values 1 and 0 of the popping and peeking functions, with the
    element they store through their pointer argument, are [Some x] and [None]. *)
Class QueueOps (A Q : Type) := {
  q_push_back : Q → A → outcome Q;
  q_push_front : Q → A → outcome Q;
  q_pop_front : Q → outcome (Q * option A);
  q_pop_tail : Q → outcome (Q * option A);
  q_peek_front : Q → outcome (option A);
  q_peek_tail : Q → outcome (option A);
  q_get_size : Q → outcome Z;
}.

Class QueueLaws (A Q : Type) `{QueueOps A Q} := {
  q_rep : Q → list A → Prop;
  q_push_back_spec q xs x : q_rep q xs → Zlen xs < SIZE_MAX →
    ∃ q', q_push_back q x = Ok q' ∧ q_rep q' (xs ++ [x]);
  q_push_front_spec q xs x : q_rep q xs → Zlen xs < SIZE_MAX →
    ∃ q', q_push_front q x = Ok q' ∧ q_rep q' (x :: xs);
  q_pop_front_nil q : q_rep q [] → q_pop_front q = Ok (q, None);
  q_pop_front_cons q x xs : q_rep q (x :: xs) →
    ∃ q', q_pop_front q = Ok (q', Some x) ∧ q_rep q' xs;
  q_pop_tail_nil q : q_rep q [] → q_pop_tail q = Ok (q, None);
  q_pop_tail_snoc q x xs : q_rep q (xs ++ [x]) →
    ∃ q', q_pop_tail q = Ok (q', Some x) ∧ q_rep q' xs;
  q_peek_front_spec q xs : q_rep q xs → q_peek_front q = Ok (head xs);
  q_peek_tail_spec q xs : q_rep q xs → q_peek_tail q = Ok (last xs);
  q_get_size_spec q xs : q_rep q xs → q_get_size q = Ok (Zlen xs);
}.

(** ** Runs of queue operations *)
Inductive q_op (A : Type) :=
| PushBack (x : A)
| PushFront (x : A)
| PopFront
| PopTail
| PeekFront
| PeekTail
| GetSize.
Arguments PushBack {A} _.
Arguments PushFront {A} _.
Arguments PopFront {A}.
Arguments PopTail {A}.
Arguments PeekFront {A}.
Arguments PeekTail {A}.
Arguments GetSize {A}.

(** What a call returns: nothing, an element or its absence, a number. *)
Inductive q_ret (A : Type) :=
| RUnit
| RElem (x : option A)
| RSize (n : Z).
Arguments RUnit {A}.
Arguments RElem {A} _.
Arguments RSize {A} _.

(** The specification: calls on a sequence. *)
Definition q_spec {A} (xs : list A) (op : q_op A) : list A * q_ret A :=
  match op with
  | PushBack x => (xs ++ [x], RUnit)
  | PushFront x => (x :: xs, RUnit)
  | PopFront => (tail xs, RElem (head xs))
  | PopTail => (take (pred (length xs)) xs, RElem (last xs))
  | PeekFront => (xs, RElem (head xs))
  | PeekTail => (xs, RElem (last xs))
  | GetSize => (xs, RSize (Zlen xs))
  end.

Fixpoint q_spec_run {A} (xs : list A) (ops : list (q_op A)) : list A * list (q_ret A) :=
  match ops with
  | [] => (xs, [])
  | op :: ops' =>
      let '(xs1, r) := q_spec xs op in
      let '(xs2, rs) := q_spec_run xs1 ops' in
      (xs2, r :: rs)
  end.

Section runs.
Context {A Q : Type} `{QueueLaws A Q}.
Local Open Scope outcome_scope.

Definition q_exec (q : Q) (op : q_op A) : outcome (Q * q_ret A) :=
  match op with
  | PushBack x => let! q' := q_push_back q x in Ok (q', RUnit)
  | PushFront x => let! q' := q_push_front q x in Ok (q', RUnit)
  | PopFront => let! ' (q', r) := q_pop_front q in Ok (q', RElem r)
  | PopTail => let! ' (q', r) := q_pop_tail q in Ok (q', RElem r)
  | PeekFront => let! r := q_peek_front q in Ok (q, RElem r)
  | PeekTail => let! r := q_peek_tail q in Ok (q, RElem r)
  | GetSize => let! n := q_get_size q in Ok (q, RSize n)
  end.

Fixpoint q_run (q : Q) (ops : list (q_op A)) : outcome (Q * list (q_ret A)) :=
  match ops with
  | [] => Ok (q, [])
  | op :: ops' =>
      let! ' (q1, r) := q_exec q op in
      let! ' (q2, rs) := q_run q1 ops' in
      Ok (q2, r :: rs)
  end.

Lemma q_exec_refines q xs op :
  q_rep q xs → Zlen xs < SIZE_MAX →
  ∃ q', q_exec q op = Ok (q', (q_spec xs op).2) ∧ q_rep q' (q_spec xs op).1 ∧
    Zlen (q_spec xs op).1 ≤ Zlen xs + 1.
Proof.
  intros R Hlt. destruct op as [x|x| | | | |]; cbn [q_exec q_spec fst snd].
  - destruct (q_push_back_spec q xs x R Hlt) as (q' & -> & R'). exists q'.
    autorewrite with zlen. split_and!; [done..|lia].
  - destruct (q_push_front_spec q xs x R Hlt) as (q' & -> & R'). exists q'.
    autorewrite with zlen. split_and!; [done..|lia].
  - destruct xs as [|x xs].
    + rewrite q_pop_front_nil by done. exists q. split_and!; [done..|simpl; lia].
    + destruct (q_pop_front_cons q x xs R) as (q' & -> & R'). exists q'.
      rewrite Zlen_cons. split_and!; [done..|simpl; lia].
  - destruct xs as [|x xs _] using rev_ind.
    + rewrite q_pop_tail_nil by done. exists q. split_and!; [done..|simpl; lia].
    + destruct (q_pop_tail_snoc q x xs R) as (q' & -> & R'). exists q'.
      rewrite last_snoc, length_app, Nat.add_1_r. simpl.
      rewrite take_app_length. autorewrite with zlen. split_and!; [done..|lia].
  - rewrite (q_peek_front_spec q xs R). exists q. split_and!; [done..|lia].
  - rewrite (q_peek_tail_spec q xs R). exists q. split_and!; [done..|lia].
  - rewrite (q_get_size_spec q xs R). exists q. split_and!; [done..|lia].
Qed.

Lemma q_run_refines ops : ∀ q xs,
  q_rep q xs → Zlen xs + Zlen ops ≤ SIZE_MAX →
  ∃ q', q_run q ops = Ok (q', (q_spec_run xs ops).2) ∧ q_rep q' (q_spec_run xs ops).1.
Proof.
  induction ops as [|op ops IH]; intros q xs R Hlt; [by exists q|].
  rewrite Zlen_cons in Hlt. pose proof (Zlen_nonneg ops). cbn [q_run q_spec_run].
  destruct (q_exec_refines q xs op R ltac:(lia)) as (q1 & -> & R1 & Hle).
  simpl. destruct (q_spec xs op) as [xs1 r1]. simpl in *.
  destruct (IH q1 xs1 R1 ltac:(lia)) as (q2 & -> & R2).
  exists q2. by destruct (q_spec_run xs1 ops) as [xs2 r2].
Qed.
End runs.
