(* ===== verification/LinkedList.v ===== *)
(** * The doubly linked list: lib/data-struct/linked_list.c

    A list is its control block ([libtrace_list_t]) and the memory that holds
    its nodes.  The payload of a node is the buffer of [element_size] bytes the
    code copies in and out; its contents play no role for the list, so they
    are a value of any type [A].  Null list and item pointers are [None]. *)

From S2P Require Import Prelude DNodes.
Local Open Scope Z_scope.
Local Open Scope outcome_scope.

Record libtrace_list_t := {
  l_head : option loc;
  l_tail : option loc;
  l_size : Z;
  l_element_size : Z;
}.

(** ** Operations *)
Section operations.
Context {A : Type}.
Implicit Types (h : gmap loc (node A)) (l : option libtrace_list_t) (item : option A).

Definition libtrace_list_init (element_size : Z) : gmap loc (node A) * option libtrace_list_t :=
  (∅, Some {| l_head := None; l_tail := None; l_size := 0; l_element_size := element_size |}).

(** The loop of [libtrace_list_deinit] frees the nodes from [tmp] on; one round
    per allocated node and the final test. *)
Fixpoint list_free_from (fuel : nat) h (tmp : option loc) : outcome (gmap loc (node A)) :=
  match fuel with
  | O => Fault OutOfFuel
  | S fuel' =>
      match tmp with
      | None => Ok h
      | Some _ =>
          let! n := load h tmp in
          let! h' := free_node h tmp in
          list_free_from fuel' h' (nd_next n)
      end
  end.

Definition libtrace_list_deinit h l : outcome (gmap loc (node A)) :=
  match l with
  | None => Ok h
  | Some l => list_free_from (S (size h)) h (l_head l)
  end.

Definition libtrace_list_push_front h l item
  : outcome (gmap loc (node A) * option libtrace_list_t) :=
  match l, item with
  | Some l, Some item =>
      let new := malloc_loc h in
      match l_head l with
      | None =>
          let! _ := oassert (bool_decide (l_tail l = None) && (l_size l =? 0)) in
          Ok (<[new := Node item None None]> h,
              Some {| l_head := Some new; l_tail := Some new;
                      l_size := u64 (l_size l + 1); l_element_size := l_element_size l |})
      | Some _ =>
          let! h1 := set_prev h (l_head l) (Some new) in
          Ok (<[new := Node item (l_head l) None]> h1,
              Some {| l_head := Some new; l_tail := l_tail l;
                      l_size := u64 (l_size l + 1); l_element_size := l_element_size l |})
      end
  | _, _ => Ok (h, l)
  end.

Definition libtrace_list_push_back h l item
  : outcome (gmap loc (node A) * option libtrace_list_t) :=
  match l, item with
  | Some l, Some item =>
      let new := malloc_loc h in
      match l_tail l with
      | None =>
          let! _ := oassert (bool_decide (l_head l = None) && (l_size l =? 0)) in
          Ok (<[new := Node item None None]> h,
              Some {| l_head := Some new; l_tail := Some new;
                      l_size := u64 (l_size l + 1); l_element_size := l_element_size l |})
      | Some _ =>
          let! h1 := set_next h (l_tail l) (Some new) in
          Ok (<[new := Node item None (l_tail l)]> h1,
              Some {| l_head := l_head l; l_tail := Some new;
                      l_size := u64 (l_size l + 1); l_element_size := l_element_size l |})
      end
  | _, _ => Ok (h, l)
  end.

(** [item_given]: the pointer the element is stored through is not null.  The
    result is the return value and the element stored, if any. *)
Definition libtrace_list_pop_front h l (item_given : bool)
  : outcome (gmap loc (node A) * option libtrace_list_t * (Z * option A)) :=
  match l, item_given with
  | Some l, true =>
      match l_head l with
      | None => Ok (h, Some l, (0, None))
      | Some _ =>
          let! n := load h (l_head l) in
          let head' := nd_next n in
          let! h1 := match head' with None => Ok h | Some _ => set_prev h head' None end in
          let size' := u64 (l_size l - 1) in
          let tail' := if size' <=? 1 then head' else l_tail l in
          let! h2 := free_node h1 (l_head l) in
          Ok (h2, Some {| l_head := head'; l_tail := tail'; l_size := size';
                          l_element_size := l_element_size l |}, (1, Some (nd_data n)))
      end
  | _, _ => Ok (h, l, (-1, None))
  end.

Definition libtrace_list_pop_back h l (item_given : bool)
  : outcome (gmap loc (node A) * option libtrace_list_t * (Z * option A)) :=
  match l, item_given with
  | Some l, true =>
      match l_tail l with
      | None => Ok (h, Some l, (0, None))
      | Some _ =>
          let! n := load h (l_tail l) in
          let tail' := nd_prev n in
          let! h1 := match tail' with None => Ok h | Some _ => set_next h tail' None end in
          let size' := u64 (l_size l - 1) in
          let head' := if size' <=? 1 then tail' else l_head l in
          let! h2 := free_node h1 (l_tail l) in
          Ok (h2, Some {| l_head := head'; l_tail := tail'; l_size := size';
                          l_element_size := l_element_size l |}, (1, Some (nd_data n)))
      end
  | _, _ => Ok (h, l, (-1, None))
  end.

(** [while (index--) { ret = ret->next; assert(ret != NULL); }] *)
Fixpoint list_walk h (index : nat) (ret : option loc) : outcome (option loc) :=
  match index with
  | O => Ok ret
  | S index' =>
      let! n := load h ret in
      let! _ := oassert (bool_decide (nd_next n ≠ None)) in
      list_walk h index' (nd_next n)
  end.

Definition libtrace_list_get_index h (list : option libtrace_list_t) (index : Z)
  : outcome (option loc) :=
  match list with
  | None => Fault NullDeref
  | Some list =>
      if l_size list <=? index then Ok None
      else list_walk h (Z.to_nat index) (l_head list)
  end.

Definition libtrace_list_get_size (l : option libtrace_list_t) : Z :=
  match l with
  | None => 0
  | Some l => l_size l
  end.
End operations.

(** ** Representation of a sequence *)
Section rep.
Context {A : Type}.
Implicit Types (h : gmap loc (node A)) (xs : list A).

Definition list_nodes h (l : libtrace_list_t) (ns : list (loc * A)) : Prop :=
  dll_rep h (l_head l) (l_tail l) (l_size l) ns.

Definition list_rep h (l : libtrace_list_t) xs : Prop :=
  ∃ ns, list_nodes h l ns ∧ map snd ns = xs.

Lemma list_rep_intro h l ns xs : list_nodes h l ns → map snd ns = xs → list_rep h l xs.
Proof. intros. by exists ns. Qed.

Lemma list_rep_size h l xs : list_rep h l xs → l_size l = Zlen xs.
Proof.
  intros (ns & R & <-). by rewrite (rep_size _ _ _ _ _ R), Zlen_map.
Qed.

Lemma list_init_rep es : ∃ l, @libtrace_list_init A es = (∅, Some l) ∧ list_rep ∅ l [].
Proof.
  eexists. split; [done|]. exists []. split; [|done].
  split; simpl; [done|constructor|by rewrite dom_empty_L|done..].
Qed.

(** Each operation takes the sequence one expects to the sequence one expects. *)
Lemma list_push_front_rep h l xs x :
  list_rep h l xs → Zlen xs < SIZE_MAX →
  ∃ h' l', libtrace_list_push_front h (Some l) (Some x) = Ok (h', Some l') ∧
    list_rep h' l' (x :: xs).
Proof.
  intros (ns & R & <-) Hlt. rewrite Zlen_map in Hlt. unfold libtrace_list_push_front.
  pose proof (rep_size _ _ _ _ _ R) as Hsz. pose proof (Zlen_nonneg ns).
  rewrite u64_small by lia. destruct ns as [|[q y] ns].
  - rewrite (proj2 (rep_nil_head _ _ _ _ _ R) eq_refl).
    rewrite (proj2 (rep_nil_tail _ _ _ _ _ R) eq_refl), Hsz. simpl.
    do 2 eexists. split; [done|]. eapply list_rep_intro; [by eapply rep_link_only|done].
  - destruct (rep_push_front _ _ _ _ _ _ _ x R) as (h1 & Hh1 & R').
    destruct (rep_load_head _ _ _ _ _ _ _ R) as [Hq _]. rewrite Hq in *. rewrite Hh1.
    do 2 eexists. split; [done|]. eapply list_rep_intro; [exact R'|done].
Qed.

Lemma list_push_back_rep h l xs x :
  list_rep h l xs → Zlen xs < SIZE_MAX →
  ∃ h' l', libtrace_list_push_back h (Some l) (Some x) = Ok (h', Some l') ∧
    list_rep h' l' (xs ++ [x]).
Proof.
  intros (ns & R & <-) Hlt. rewrite Zlen_map in Hlt. unfold libtrace_list_push_back.
  pose proof (rep_size _ _ _ _ _ R) as Hsz. pose proof (Zlen_nonneg ns).
  rewrite u64_small by lia. destruct ns as [|[q y] ns _] using rev_ind.
  - rewrite (proj2 (rep_nil_head _ _ _ _ _ R) eq_refl).
    rewrite (proj2 (rep_nil_tail _ _ _ _ _ R) eq_refl), Hsz. simpl.
    do 2 eexists. split; [done|]. eapply list_rep_intro; [by eapply rep_link_only|done].
  - destruct (rep_push_back _ _ _ _ _ _ _ x R) as (h1 & Hh1 & R').
    destruct (rep_load_tail _ _ _ _ _ _ _ R) as [Hq _]. rewrite Hq in *. rewrite Hh1.
    do 2 eexists. split; [done|]. eapply list_rep_intro; [exact R'|by rewrite map_app].
Qed.

Lemma list_pop_front_rep h l x xs :
  list_rep h l (x :: xs) → Zlen (x :: xs) ≤ SIZE_MAX →
  ∃ h' l', libtrace_list_pop_front h (Some l) true = Ok (h', Some l', (1, Some x)) ∧
    list_rep h' l' xs.
Proof.
  intros (ns & R & Hns) Hle. destruct ns as [|[p y] ns]; [done|]. simpl in Hns. simplify_eq.
  pose proof (rep_size _ _ _ _ _ R) as Hsz. autorewrite with zlen in *. pose proof (Zlen_nonneg ns). unfold libtrace_list_pop_front.
  destruct (rep_load_head _ _ _ _ _ _ _ R) as [Hp Hld]. rewrite Hp in Hld |- *. rewrite Hld.
  destruct (rep_pop_front _ _ _ _ _ _ _ R) as (h1 & h2 & Hh1 & _ & Hh2 & R').
  rewrite Hp in Hh2. simpl in *. rewrite Hh1. simpl. rewrite Hh2. simpl.
  rewrite u64_small by lia. do 2 eexists. split; [done|].
  by eapply list_rep_intro.
Qed.

Lemma list_pop_back_rep h l x xs :
  list_rep h l (xs ++ [x]) → Zlen (xs ++ [x]) ≤ SIZE_MAX →
  ∃ h' l', libtrace_list_pop_back h (Some l) true = Ok (h', Some l', (1, Some x)) ∧
    list_rep h' l' xs.
Proof.
  intros (ns & R & Hns) Hle. destruct ns as [|[p y] ns _] using rev_ind.
  { symmetry in Hns. by apply app_nil in Hns as []. }
  rewrite map_app in Hns. apply app_inj_tail in Hns as [<- Hy]. simpl in Hy. subst y.
  pose proof (rep_size _ _ _ _ _ R) as Hsz. autorewrite with zlen in *. pose proof (Zlen_nonneg ns). unfold libtrace_list_pop_back.
  destruct (rep_load_tail _ _ _ _ _ _ _ R) as [Hp Hld]. rewrite Hp in Hld |- *. rewrite Hld.
  destruct (rep_pop_back _ _ _ _ _ _ _ R) as (h1 & h2 & Hh1 & _ & Hh2 & R').
  rewrite Hp in Hh2. simpl in *. rewrite Hh1. simpl. rewrite Hh2. simpl.
  rewrite u64_small by lia. do 2 eexists. split; [done|].
  by eapply list_rep_intro.
Qed.

Lemma list_empty_ends h l : list_rep h l [] → l_head l = None ∧ l_tail l = None.
Proof.
  intros (ns & R & Hns). destruct ns; [|done].
  split; [by apply (rep_nil_head _ _ _ _ _ R)|by apply (rep_nil_tail _ _ _ _ _ R)].
Qed.
End rep.

(** ** Freeing and indexing *)
Section more.
Context {A : Type}.
Implicit Types (h : gmap loc (node A)) (xs : list A).

Lemma list_pop_nil h l :
  list_rep h l [] →
  libtrace_list_pop_front h (Some l) true = Ok (h, Some l, (0, None)) ∧
  libtrace_list_pop_back h (Some l) true = Ok (h, Some l, (0, None)).
Proof.
  intros [Hh Ht]%list_empty_ends.
  unfold libtrace_list_pop_front, libtrace_list_pop_back. by rewrite Hh, Ht.
Qed.

(** Freeing from the first of the nodes [ns] on removes exactly them. *)
Lemma list_free_from_ok (ns : list (loc * A)) : ∀ h pv fuel,
  dseg h pv ns None → NoDup (locs ns) → (length ns < fuel)%nat →
  ∃ h', list_free_from fuel h (first_loc ns None) = Ok h' ∧
    dom h' = dom h ∖ list_to_set (locs ns).
Proof.
  induction ns as [|[p x] ns IH]; intros h pv [|fuel] Hs Hnd Hf; simpl in *; try lia.
  { exists h. split; [done|]. set_solver. }
  destruct Hs as [Hp Hs]. apply NoDup_cons in Hnd as [Hnin Hnd]. unfold load, free_node.
  rewrite Hp. simpl.
  destruct (IH (delete p h) (Some p) fuel) as (h' & -> & Hd); [|done|lia|].
  { by apply dseg_delete. }
  exists h'. split; [done|]. rewrite Hd, dom_delete_L. set_solver.
Qed.

Lemma list_deinit_rep h l xs :
  list_rep h l xs → libtrace_list_deinit h (Some l) = Ok ∅.
Proof.
  intros (ns & R & _). unfold libtrace_list_deinit.
  pose proof (rep_seg _ _ _ _ _ R) as Hs. rewrite (rep_head _ _ _ _ _ R).
  destruct (list_free_from_ok ns h None (S (size h))) as (h' & -> & Hd);
    [done|apply R| |].
  - assert (size h = length ns) as ->; [|lia].
    rewrite <- size_dom, (rep_dom _ _ _ _ _ R), size_list_to_set by apply R.
    unfold locs. by rewrite length_map.
  - f_equal. apply dom_empty_inv_L. rewrite Hd, (rep_dom _ _ _ _ _ R). set_solver.
Qed.

Lemma list_walk_ok (ns : list (loc * A)) h hd tl sz : dll_rep h hd tl sz ns → ∀ n i,
  (i + n < length ns)%nat →
  list_walk h n (fst <$> ns !! i) = Ok (fst <$> ns !! (i + n)%nat).
Proof.
  intros R n. induction n as [|n IH]; intros i Hi; simpl; [by rewrite Nat.add_0_r|].
  destruct (lookup_lt_is_Some_2 ns i) as [[p x] Hp]; [lia|].
  destruct (lookup_lt_is_Some_2 ns (S i)) as [[q y] Hq]; [lia|].
  rewrite Hp. simpl. rewrite (rep_lookup _ _ _ _ _ _ _ _ R Hp). simpl. rewrite Hq. simpl.
  specialize (IH (S i)). rewrite Hq in IH. simpl in IH. rewrite IH by lia.
  do 2 f_equal. f_equal. lia.
Qed.
End more.

(** ** Correctness *)
Inductive list_op (A : Type) :=
| LPushFront (x : A)
| LPushBack (x : A)
| LPopFront
| LPopBack.
Arguments LPushFront {A} _.
Arguments LPushBack {A} _.
Arguments LPopFront {A}.
Arguments LPopBack {A}.

Section correctness.
Context {A : Type}.

(** A client's calls on one list, with the results the pops return. *)
Definition list_exec (s : gmap loc (node A) * option libtrace_list_t) (op : list_op A)
  : outcome (gmap loc (node A) * option libtrace_list_t * list (Z * option A)) :=
  let '(h, l) := s in
  match op with
  | LPushFront x => let! s' := libtrace_list_push_front h l (Some x) in Ok (s', [])
  | LPushBack x => let! s' := libtrace_list_push_back h l (Some x) in Ok (s', [])
  | LPopFront => let! ' (s', r) := libtrace_list_pop_front h l true in Ok (s', [r])
  | LPopBack => let! ' (s', r) := libtrace_list_pop_back h l true in Ok (s', [r])
  end.

Fixpoint list_run (s : gmap loc (node A) * option libtrace_list_t) (ops : list (list_op A))
  : outcome (gmap loc (node A) * option libtrace_list_t * list (Z * option A)) :=
  match ops with
  | [] => Ok (s, [])
  | op :: ops' =>
      let! ' (s1, r1) := list_exec s op in
      let! ' (s2, r2) := list_run s1 ops' in
      Ok (s2, r1 ++ r2)
  end.

(** The specification: the same calls on a sequence. *)
Definition seq_exec (xs : list A) (op : list_op A) : list A * list (Z * option A) :=
  match op with
  | LPushFront x => (x :: xs, [])
  | LPushBack x => (xs ++ [x], [])
  | LPopFront => match xs with [] => ([], [(0, None)]) | x :: xs' => (xs', [(1, Some x)]) end
  | LPopBack =>
      match last xs with
      | None => (xs, [(0, None)])
      | Some x => (take (pred (length xs)) xs, [(1, Some x)])
      end
  end.

Fixpoint seq_run (xs : list A) (ops : list (list_op A)) : list A * list (Z * option A) :=
  match ops with
  | [] => (xs, [])
  | op :: ops' =>
      let '(xs1, r1) := seq_exec xs op in
      let '(xs2, r2) := seq_run xs1 ops' in
      (xs2, r1 ++ r2)
  end.

Lemma list_exec_refines h l xs op :
  list_rep h l xs → Zlen xs < SIZE_MAX →
  ∃ h' l', list_exec (h, Some l) op = Ok (h', Some l', (seq_exec xs op).2) ∧
    list_rep h' l' (seq_exec xs op).1 ∧ Zlen (seq_exec xs op).1 ≤ Zlen xs + 1.
Proof.
  intros R Hlt. destruct op as [x|x| |]; cbn [list_exec seq_exec fst snd].
  - destruct (list_push_front_rep h l xs x R Hlt) as (h' & l' & -> & R'). exists h', l'.
    rewrite Zlen_cons. split_and!; [done..|lia].
  - destruct (list_push_back_rep h l xs x R Hlt) as (h' & l' & -> & R'). exists h', l'.
    autorewrite with zlen. split_and!; [done..|lia].
  - destruct xs as [|x xs].
    + destruct (list_pop_nil h l R) as [-> _]. exists h, l. split_and!; [done..|simpl; lia].
    + destruct (list_pop_front_rep h l x xs R ltac:(lia)) as (h' & l' & -> & R').
      exists h', l'. autorewrite with zlen. split_and!; [done..|simpl; lia].
  - destruct xs as [|x xs _] using rev_ind.
    + destruct (list_pop_nil h l R) as [_ ->]. exists h, l. split_and!; [done..|simpl; lia].
    + destruct (list_pop_back_rep h l x xs R ltac:(lia)) as (h' & l' & -> & R').
      exists h', l'. rewrite last_snoc, length_app, Nat.add_1_r. simpl.
      rewrite take_app_length. autorewrite with zlen. split_and!; [done..|lia].
Qed.

Lemma list_run_rep ops : ∀ h l xs,
  list_rep h l xs → Zlen xs + Zlen ops ≤ SIZE_MAX →
  ∃ h' l', list_run (h, Some l) ops = Ok (h', Some l', (seq_run xs ops).2) ∧
    list_rep h' l' (seq_run xs ops).1.
Proof.
  induction ops as [|op ops IH]; intros h l xs R Hlt; [by exists h, l|].
  rewrite Zlen_cons in Hlt. pose proof (Zlen_nonneg ops). cbn [list_run seq_run].
  destruct (list_exec_refines h l xs op R ltac:(lia)) as (h1 & l1 & -> & R1 & Hle).
  simpl. destruct (seq_exec xs op) as [xs1 r1]. simpl in *.
  destruct (IH h1 l1 xs1 R1 ltac:(lia)) as (h2 & l2 & -> & R2).
  exists h2, l2. by destruct (seq_run xs1 ops) as [xs2 r2].
Qed.

(** C20: Functional refinement: any sequence of pushes and pops at
    either end, run on a freshly initialised list, never faults (no assertion
    fails, no pointer is null or dangling), and the results of the pops, the
    final size and the contents are those of the same calls on a mathematical
    sequence; deinitialising the list then frees every node. *)
Theorem list_refines_sequence (es : Z) (ops : list (list_op A)) :
  Zlen ops ≤ SIZE_MAX →
  ∃ h l, list_run (libtrace_list_init es) ops = Ok (h, Some l, (seq_run [] ops).2) ∧
    list_rep h l (seq_run [] ops).1 ∧
    libtrace_list_get_size (Some l) = Zlen (seq_run [] ops).1 ∧
    libtrace_list_deinit h (Some l) = Ok ∅.
Proof.
  intros Hlt. destruct (list_init_rep (A:=A) es) as (l0 & -> & R0).
  destruct (list_run_rep ops ∅ l0 [] R0) as (h & l & -> & R); [done|].
  exists h, l. split_and!; [done..|by eapply list_rep_size|by eapply list_deinit_rep].
Qed.

(** [libtrace_list_get_index] returns the node whose position
    is [index] and whose data is the [index]-th element, and [NULL] exactly when
    the index is not below the size; its assertion never fails. *)
Theorem list_get_index_correct h (l : libtrace_list_t) (xs : list A) (index : Z) :
  list_rep h l xs → 0 ≤ index →
  match xs !! Z.to_nat index with
  | Some x => ∃ p n, libtrace_list_get_index h (Some l) index = Ok (Some p) ∧
                h !! p = Some n ∧ nd_data n = x
  | None => libtrace_list_get_index h (Some l) index = Ok None
  end.
Proof.
  intros (ns & R & <-) Hi. pose proof (rep_size _ _ _ _ _ R) as Hsz.
  unfold libtrace_list_get_index, Zlen in *. rewrite Hsz, list_lookup_fmap.
  destruct (Z.leb_spec (Z.of_nat (length ns)) index).
  { rewrite lookup_ge_None_2 by lia. done. }
  destruct (lookup_lt_is_Some_2 ns (Z.to_nat index)) as [[p x] Hp]; [lia|].
  rewrite Hp. simpl. exists p. eexists. split; [|split].
  - rewrite (rep_head _ _ _ _ _ R).
    replace (first_loc ns None) with (fst <$> ns !! 0%nat) by by destruct ns as [|[]].
    rewrite (list_walk_ok ns h _ _ _ R) by lia. by rewrite Nat.add_0_l, Hp.
  - by apply (rep_lookup _ _ _ _ _ _ _ _ R Hp).
  - done.
Qed.
End correctness.

Lemma list_refines_sequence_witness :
  ∃ h l, list_run (libtrace_list_init 8) [LPushBack 1; LPushFront 2; LPopBack; LPopFront; LPopFront]
    = Ok (h, Some l, [(1, Some 1); (1, Some 2); (0, None)]) ∧
    list_rep h l [] ∧ libtrace_list_get_size (Some l) = 0 ∧
    libtrace_list_deinit h (Some l) = Ok ∅.
Proof.
  apply (list_refines_sequence 8
    [LPushBack 1; LPushFront 2; LPopBack; LPopFront; LPopFront]); [vm_compute; discriminate].
Defined.

Lemma list_get_index_correct_witness :
  let h := <[1%positive := Node 7 None None]> ∅ in
  let l := {| l_head := Some 1%positive; l_tail := Some 1%positive;
              l_size := 1; l_element_size := 8 |} in
  ∃ p n, libtrace_list_get_index h (Some l) 0 = Ok (Some p) ∧ h !! p = Some n ∧ nd_data n = 7.
Proof.
  intros h l. refine (list_get_index_correct h l [7] 0 _ _); [|lia].
  exists [(1%positive, 7)]. split; [|done].
  split; simpl; [done|repeat constructor; set_solver|set_solver|done..].
Defined.
