(* ===== verification/Deque.v ===== *)
(** * The double-ended queue: lib/data-struct/deque.c

    The queues of the result combiners.  Same nodes as the linked list, plus a
    mutex: each operation locks it, works, and unlocks it, so a call is one step
    of the queue.  The work the functions do outside the lock (filling the new
    node, copying from and freeing the node that was unlinked) touches memory no
    other thread can reach.  The state is the memory that holds the nodes and
    the control block [libtrace_queue_t]. *)

From S2P Require Import Prelude DNodes QueueSpec.
Local Open Scope Z_scope.
Local Open Scope outcome_scope.

Record libtrace_queue_t := {
  q_head : option loc;
  q_tail : option loc;
  q_lock : bool;
  q_size : Z;
  q_element_size : Z;
}.

(** The state of one queue: its nodes and its control block. *)
Abbreviation deque A := (gmap loc (node A) * libtrace_queue_t)%type.

(** ** Operations *)
Section operations.
Context {A : Type}.
Implicit Types (h : gmap loc (node A)) (q : libtrace_queue_t).

Definition libtrace_deque_init (element_size : Z) : deque A :=
  (∅, {| q_head := None; q_tail := None; q_lock := false; q_size := 0;
         q_element_size := element_size |}).

Definition libtrace_deque_push_back (hq : deque A) (d : A) : outcome (deque A) :=
  let '(h, q) := hq in
  let new_node := malloc_loc h in
  let! held := pthread_mutex_lock (q_lock q) in
  let! ' (h', head', tail') :=
    match q_head q with
    | None =>
        let! _ := oassert (bool_decide (q_tail q = None) && (q_size q =? 0)) in
        Ok (<[new_node := Node d None None]> h, Some new_node, Some new_node)
    | Some _ =>
        let! _ := oassert (bool_decide (q_tail q ≠ None)) in
        let! h1 := set_next h (q_tail q) (Some new_node) in
        Ok (<[new_node := Node d None (q_tail q)]> h1, q_head q, Some new_node)
    end in
  let size' := u64 (q_size q + 1) in
  let! held := pthread_mutex_unlock held in
  Ok (h', {| q_head := head'; q_tail := tail'; q_lock := held; q_size := size';
             q_element_size := q_element_size q |}).

Definition libtrace_deque_push_front (hq : deque A) (d : A) : outcome (deque A) :=
  let '(h, q) := hq in
  let new_node := malloc_loc h in
  let! held := pthread_mutex_lock (q_lock q) in
  let! ' (h', head', tail') :=
    match q_head q with
    | None =>
        let! _ := oassert (bool_decide (q_tail q = None) && (q_size q =? 0)) in
        Ok (<[new_node := Node d None None]> h, Some new_node, Some new_node)
    | Some _ =>
        let! _ := oassert (bool_decide (q_head q ≠ None)) in
        let! h1 := set_prev h (q_head q) (Some new_node) in
        Ok (<[new_node := Node d (q_head q) None]> h1, Some new_node, q_tail q)
    end in
  let size' := u64 (q_size q + 1) in
  let! held := pthread_mutex_unlock held in
  Ok (h', {| q_head := head'; q_tail := tail'; q_lock := held; q_size := size';
             q_element_size := q_element_size q |}).

(** The results are the return value (1 or 0) with the element copied to [d]. *)
Definition libtrace_deque_peek_front (hq : deque A) : outcome (option A) :=
  let '(h, q) := hq in
  let! held := pthread_mutex_lock (q_lock q) in
  let! ret :=
    match q_head q with
    | None => Ok None
    | Some _ => let! n := load h (q_head q) in Ok (Some (nd_data n))
    end in
  let! _ := pthread_mutex_unlock held in
  Ok ret.

Definition libtrace_deque_peek_tail (hq : deque A) : outcome (option A) :=
  let '(h, q) := hq in
  let! held := pthread_mutex_lock (q_lock q) in
  let! ret :=
    match q_tail q with
    | None => Ok None
    | Some _ => let! n := load h (q_tail q) in Ok (Some (nd_data n))
    end in
  let! _ := pthread_mutex_unlock held in
  Ok ret.

Definition libtrace_deque_pop_front (hq : deque A) : outcome (deque A * option A) :=
  let '(h, q) := hq in
  let! held := pthread_mutex_lock (q_lock q) in
  match q_head q with
  | Some _ =>
      let n := q_head q in
      let! nd := load h n in
      let head' := nd_next nd in
      let! h1 := match head' with None => Ok h | Some _ => set_prev h head' None end in
      let size' := u64 (q_size q - 1) in
      let tail' := if size' <=? 1 then head' else q_tail q in
      let! held := pthread_mutex_unlock held in
      let! nd := load h1 n in
      let! h2 := free_node h1 n in
      Ok ((h2, {| q_head := head'; q_tail := tail'; q_lock := held; q_size := size';
                  q_element_size := q_element_size q |}), Some (nd_data nd))
  | None =>
      let! held := pthread_mutex_unlock held in
      Ok ((h, {| q_head := q_head q; q_tail := q_tail q; q_lock := held; q_size := q_size q;
                 q_element_size := q_element_size q |}), None)
  end.

Definition libtrace_deque_pop_tail (hq : deque A) : outcome (deque A * option A) :=
  let '(h, q) := hq in
  let! held := pthread_mutex_lock (q_lock q) in
  match q_tail q with
  | Some _ =>
      let n := q_tail q in
      let! nd := load h n in
      let tail' := nd_prev nd in
      let! h1 := match tail' with None => Ok h | Some _ => set_next h tail' None end in
      let size' := u64 (q_size q - 1) in
      let head' := if size' <=? 1 then tail' else q_head q in
      let! held := pthread_mutex_unlock held in
      let! nd := load h1 n in
      let! h2 := free_node h1 n in
      Ok ((h2, {| q_head := head'; q_tail := tail'; q_lock := held; q_size := size';
                  q_element_size := q_element_size q |}), Some (nd_data nd))
  | None =>
      let! held := pthread_mutex_unlock held in
      Ok ((h, {| q_head := q_head q; q_tail := q_tail q; q_lock := held; q_size := q_size q;
                 q_element_size := q_element_size q |}), None)
  end.

Definition libtrace_deque_get_size (hq : deque A) : outcome Z :=
  let '(h, q) := hq in
  let! held := pthread_mutex_lock (q_lock q) in
  let ret := q_size q in
  let! _ := pthread_mutex_unlock held in
  Ok ret.

(** The nodes are not freed: the contents were handed to somebody else. *)
Definition libtrace_zero_deque (hq : deque A) : deque A :=
  let '(h, q) := hq in
  (h, {| q_head := None; q_tail := None; q_lock := q_lock q; q_size := 0;
         q_element_size := 0 |}).

(** [fn] is called with a pointer to the data: it may change it, and it may
    change a state [W] of its own. *)
Fixpoint deque_apply_from {W} (fuel : nat) (fn : W → A → W * A) (w : W) h (n : option loc)
  : outcome (W * gmap loc (node A)) :=
  match fuel with
  | O => Fault OutOfFuel
  | S fuel' =>
      match n with
      | None => Ok (w, h)
      | Some p =>
          let! nd := load h n in
          let '(w', d') := fn w (nd_data nd) in
          let h' := <[p := Node d' (nd_next nd) (nd_prev nd)]> h in
          deque_apply_from fuel' fn w' h' (nd_next nd)
      end
  end.

Definition libtrace_deque_apply_function {W} (fn : W → A → W * A) (w : W) (hq : deque A)
  : outcome (W * deque A) :=
  let '(h, q) := hq in
  let! held := pthread_mutex_lock (q_lock q) in
  let! ' (w', h') := deque_apply_from (S (size h)) fn w h (q_head q) in
  let! held := pthread_mutex_unlock held in
  Ok (w', (h', {| q_head := q_head q; q_tail := q_tail q; q_lock := held; q_size := q_size q;
                  q_element_size := q_element_size q |})).
End operations.

(** ** Representation *)
Section rep.
Context {A : Type}.
Implicit Types (h : gmap loc (node A)) (xs : list A).

(** A queue at rest (mutex free) that holds the sequence [xs]. *)
Definition deque_rep (hq : deque A) xs : Prop :=
  ∃ ns, dll_rep hq.1 (q_head hq.2) (q_tail hq.2) (q_size hq.2) ns ∧
    map snd ns = xs ∧ q_lock hq.2 = false ∧ Zlen xs ≤ SIZE_MAX.

Lemma deque_rep_empty h q :
  deque_rep (h, q) [] → q_head q = None ∧ q_tail q = None ∧ q_lock q = false ∧ q_size q = 0.
Proof.
  intros (ns & R & Hns & Hl & _). destruct ns; [|done]. split_and!; [| |done|].
  - by apply (rep_nil_head _ _ _ _ _ R).
  - by apply (rep_nil_tail _ _ _ _ _ R).
  - apply (rep_size _ _ _ _ _ R).
Qed.

Lemma deque_init_rep es : deque_rep (@libtrace_deque_init A es) [].
Proof.
  exists []. split_and!; [|done..].
  split; simpl; [done|constructor|by rewrite dom_empty_L|done..].
Qed.

Lemma deque_push_back_spec hq xs x :
  deque_rep hq xs → Zlen xs < SIZE_MAX →
  ∃ hq', libtrace_deque_push_back hq x = Ok hq' ∧ deque_rep hq' (xs ++ [x]).
Proof.
  destruct hq as [h q]. intros (ns & R & <- & Hl & _) Hlt. rewrite Zlen_map in Hlt.
  unfold libtrace_deque_push_back. simpl in *. rewrite Hl.
  pose proof (rep_size _ _ _ _ _ R) as Hsz. pose proof (Zlen_nonneg ns).
  rewrite u64_small by lia. destruct ns as [|[p y] ns _] using rev_ind.
  - rewrite (proj2 (rep_nil_head _ _ _ _ _ R) eq_refl).
    rewrite (proj2 (rep_nil_tail _ _ _ _ _ R) eq_refl), Hsz. simpl.
    eexists. split; [done|]. eexists. split_and!; [by eapply rep_link_only|done..].
  - destruct (rep_push_back _ _ _ _ _ _ _ x R) as (h1 & Hh1 & R').
    destruct (rep_load_tail _ _ _ _ _ _ _ R) as [Hq _].
    destruct (rep_head_snoc _ _ _ _ _ _ _ R) as [p' Hp']. rewrite Hp', Hq in *. simpl.
    rewrite Hh1. eexists. split; [done|].
    eexists. split_and!; [exact R'|by rewrite map_app|done|].
    autorewrite with zlen in *. lia.
Qed.

Lemma deque_push_front_spec hq xs x :
  deque_rep hq xs → Zlen xs < SIZE_MAX →
  ∃ hq', libtrace_deque_push_front hq x = Ok hq' ∧ deque_rep hq' (x :: xs).
Proof.
  destruct hq as [h q]. intros (ns & R & <- & Hl & _) Hlt. rewrite Zlen_map in Hlt.
  unfold libtrace_deque_push_front. simpl in *. rewrite Hl.
  pose proof (rep_size _ _ _ _ _ R) as Hsz. pose proof (Zlen_nonneg ns).
  rewrite u64_small by lia. destruct ns as [|[p y] ns].
  - rewrite (proj2 (rep_nil_head _ _ _ _ _ R) eq_refl).
    rewrite (proj2 (rep_nil_tail _ _ _ _ _ R) eq_refl), Hsz. simpl.
    eexists. split; [done|]. eexists. split_and!; [by eapply rep_link_only|done..].
  - destruct (rep_push_front _ _ _ _ _ _ _ x R) as (h1 & Hh1 & R').
    destruct (rep_load_head _ _ _ _ _ _ _ R) as [Hq _]. rewrite Hq in *. simpl.
    rewrite Hh1. eexists. split; [done|].
    eexists. split_and!; [exact R'|done|done|]. autorewrite with zlen in *. lia.
Qed.

Lemma deque_pop_front_nil hq : deque_rep hq [] → libtrace_deque_pop_front hq = Ok (hq, None).
Proof.
  destruct hq as [h q]. intros (Hh & _ & Hl & _)%deque_rep_empty.
  unfold libtrace_deque_pop_front. rewrite Hl, Hh. simpl. destruct q; simpl in *. by subst.
Qed.

Lemma deque_pop_tail_nil hq : deque_rep hq [] → libtrace_deque_pop_tail hq = Ok (hq, None).
Proof.
  destruct hq as [h q]. intros (_ & Ht & Hl & _)%deque_rep_empty.
  unfold libtrace_deque_pop_tail. rewrite Hl, Ht. simpl. destruct q; simpl in *. by subst.
Qed.

Lemma deque_pop_front_cons hq x xs :
  deque_rep hq (x :: xs) →
  ∃ hq', libtrace_deque_pop_front hq = Ok (hq', Some x) ∧ deque_rep hq' xs.
Proof.
  destruct hq as [h q]. intros (ns & R & Hns & Hl & Hle).
  destruct ns as [|[p y] ns]; [done|]. simpl in Hns. simplify_eq. simpl in *.
  pose proof (rep_size _ _ _ _ _ R) as Hsz. autorewrite with zlen in *.
  pose proof (Zlen_nonneg ns). unfold libtrace_deque_pop_front. rewrite Hl.
  destruct (rep_load_head _ _ _ _ _ _ _ R) as [Hp Hld]. rewrite Hp in Hld |- *.
  destruct (rep_pop_front _ _ _ _ _ _ _ R) as (h1 & h2 & Hh1 & Hld1 & Hh2 & R').
  rewrite Hp in Hh2, Hld1. cbn [pthread_mutex_lock obind]. rewrite Hld. cbn [obind nd_next].
  rewrite Hh1. cbn [pthread_mutex_unlock obind]. rewrite Hld1. cbn [obind].
  rewrite Hh2. simpl. rewrite u64_small by lia. eexists. split; [done|].
  exists ns. split_and!; [done..|]. autorewrite with zlen. lia.
Qed.

Lemma deque_pop_tail_snoc hq x xs :
  deque_rep hq (xs ++ [x]) →
  ∃ hq', libtrace_deque_pop_tail hq = Ok (hq', Some x) ∧ deque_rep hq' xs.
Proof.
  destruct hq as [h q]. intros (ns & R & Hns & Hl & Hle).
  destruct ns as [|[p y] ns _] using rev_ind.
  { symmetry in Hns. by apply app_nil in Hns as []. }
  rewrite map_app in Hns. apply app_inj_tail in Hns as [<- Hy]. simpl in *. subst y.
  pose proof (rep_size _ _ _ _ _ R) as Hsz. autorewrite with zlen in *.
  pose proof (Zlen_nonneg ns). unfold libtrace_deque_pop_tail. rewrite Hl.
  destruct (rep_load_tail _ _ _ _ _ _ _ R) as [Hp Hld]. rewrite Hp in Hld |- *.
  destruct (rep_pop_back _ _ _ _ _ _ _ R) as (h1 & h2 & Hh1 & Hld1 & Hh2 & R').
  rewrite Hp in Hh2, Hld1. cbn [pthread_mutex_lock obind]. rewrite Hld. cbn [obind nd_prev].
  rewrite Hh1. cbn [pthread_mutex_unlock obind]. rewrite Hld1. cbn [obind].
  rewrite Hh2. simpl. rewrite u64_small by lia. eexists. split; [done|].
  exists ns. split_and!; [done..|]. autorewrite with zlen. lia.
Qed.

Lemma deque_peek_front_spec hq xs :
  deque_rep hq xs → libtrace_deque_peek_front hq = Ok (head xs).
Proof.
  destruct hq as [h q]. intros Hr. unfold libtrace_deque_peek_front.
  destruct xs as [|x xs].
  { apply deque_rep_empty in Hr as (-> & _ & -> & _). done. }
  destruct Hr as (ns & R & Hns & Hl & _). destruct ns as [|[p y] ns]; [done|].
  simpl in *. simplify_eq. destruct (rep_load_head _ _ _ _ _ _ _ R) as [Hp Hld].
  rewrite Hl, Hp in *. by rewrite Hld.
Qed.

Lemma deque_peek_tail_spec hq xs :
  deque_rep hq xs → libtrace_deque_peek_tail hq = Ok (last xs).
Proof.
  destruct hq as [h q]. intros Hr. unfold libtrace_deque_peek_tail.
  destruct xs as [|x xs _] using rev_ind.
  { apply deque_rep_empty in Hr as (_ & -> & -> & _). done. }
  destruct Hr as (ns & R & Hns & Hl & _). destruct ns as [|[p y] ns _] using rev_ind.
  { symmetry in Hns. by apply app_nil in Hns as []. }
  rewrite map_app in Hns. apply app_inj_tail in Hns as [_ Hy]. simpl in *. subst y.
  destruct (rep_load_tail _ _ _ _ _ _ _ R) as [Hp Hld].
  rewrite last_snoc, Hl, Hp in *. by rewrite Hld.
Qed.

Lemma deque_get_size_spec hq xs :
  deque_rep hq xs → libtrace_deque_get_size hq = Ok (Zlen xs).
Proof.
  destruct hq as [h q]. intros (ns & R & <- & Hl & _). simpl in *. rewrite Hl. simpl.
  by rewrite (rep_size _ _ _ _ _ R), Zlen_map.
Qed.
End rep.

(** ** The deque implements the queue interface *)
#[export] Instance deque_ops A : QueueOps A (deque A) := {
  q_push_back := libtrace_deque_push_back;
  q_push_front := libtrace_deque_push_front;
  q_pop_front := libtrace_deque_pop_front;
  q_pop_tail := libtrace_deque_pop_tail;
  q_peek_front := libtrace_deque_peek_front;
  q_peek_tail := libtrace_deque_peek_tail;
  q_get_size := libtrace_deque_get_size;
}.

#[export] Instance deque_laws A : QueueLaws A (deque A) := {
  q_rep := deque_rep;
  q_push_back_spec := deque_push_back_spec;
  q_push_front_spec := deque_push_front_spec;
  q_pop_front_nil := deque_pop_front_nil;
  q_pop_front_cons := deque_pop_front_cons;
  q_pop_tail_nil := deque_pop_tail_nil;
  q_pop_tail_snoc := deque_pop_tail_snoc;
  q_peek_front_spec := deque_peek_front_spec;
  q_peek_tail_spec := deque_peek_tail_spec;
  q_get_size_spec := deque_get_size_spec;
}.

(** ** Correctness *)
Section correctness.
Context {A W : Type}.

Definition apply_nodes (fn : W → A → W * A) (w : W) (ns : list (loc * A)) : list (loc * A) :=
  zip (locs ns) (apply_seq fn w (map snd ns)).2.

Lemma apply_nodes_locs fn ns : ∀ w, locs (apply_nodes fn w ns) = locs ns.
Proof.
  unfold apply_nodes. induction ns as [|[p x] ns IH]; intros w; simpl; [done|].
  destruct (fn w x) as [w1 x']. specialize (IH w1).
  destruct (apply_seq fn w1 (map snd ns)) as [w2 ys]. simpl in *. by rewrite IH.
Qed.

Lemma apply_nodes_data fn ns : ∀ w,
  map snd (apply_nodes fn w ns) = (apply_seq fn w (map snd ns)).2.
Proof.
  unfold apply_nodes. induction ns as [|[p x] ns IH]; intros w; simpl; [done|].
  destruct (fn w x) as [w1 x']. specialize (IH w1).
  destruct (apply_seq fn w1 (map snd ns)) as [w2 ys]. simpl in *. by rewrite IH.
Qed.

Lemma first_loc_locs (ns ns' : list (loc * A)) nx :
  locs ns = locs ns' → first_loc ns nx = first_loc ns' nx.
Proof. destruct ns as [|[]], ns' as [|[]]; simpl; congruence. Qed.

Lemma last_loc_locs (ns ns' : list (loc * A)) pv :
  locs ns = locs ns' → last_loc ns pv = last_loc ns' pv.
Proof.
  intros Heq. unfold last_loc.
  assert (fst <$> last ns = fst <$> last ns') as Hl.
  { rewrite <- !fmap_last. by f_equal. }
  destruct (last ns) as [[]|], (last ns') as [[]|]; simpl in *; congruence.
Qed.

Lemma deque_apply_from_ok fn ns : ∀ h pv w fuel,
  dseg h pv ns None → NoDup (locs ns) → (length ns < fuel)%nat →
  ∃ h', deque_apply_from fuel fn w h (first_loc ns None)
          = Ok ((apply_seq fn w (map snd ns)).1, h') ∧
    dseg h' pv (apply_nodes fn w ns) None ∧ dom h' = dom h ∧
    (∀ p, p ∉ locs ns → h' !! p = h !! p).
Proof.
  induction ns as [|[p x] ns IH]; intros h pv w [|fuel] Hs Hnd Hf; simpl in *; try lia.
  { by exists h. }
  destruct Hs as [Hp Hs]. apply NoDup_cons in Hnd as [Hnin Hnd]. rewrite Hp. simpl.
  unfold apply_nodes. simpl. destruct (fn w x) as [w1 x'] eqn:Hfn.
  set (h1 := <[p := Node x' (first_loc ns None) pv]> h).
  destruct (IH h1 (Some p) w1 fuel) as (h2 & -> & Hs2 & Hd2 & Hf2);
    [by apply dseg_insert|done|lia|].
  destruct (apply_seq fn w1 (map snd ns)) as [w2 ys] eqn:Hys. simpl. exists h2.
  assert (apply_nodes fn w1 ns = zip (locs ns) ys) as Hz by (unfold apply_nodes; by rewrite Hys).
  split; [done|]. split_and!.
  - rewrite Hf2 by done. unfold h1. rewrite lookup_insert_eq. do 2 f_equal.
    apply first_loc_locs. fold (locs ns). by rewrite <- Hz, apply_nodes_locs.
  - by rewrite <- Hz.
  - rewrite Hd2. unfold h1. rewrite dom_insert_L. apply elem_of_dom_2 in Hp. set_solver.
  - intros q Hq. rewrite Hf2 by set_solver. unfold h1. rewrite lookup_insert_ne; [done|set_solver].
Qed.

(** [libtrace_deque_apply_function] calls [fn] on the elements
    from the head to the tail, each exactly once, stores what it does to them,
    and leaves the order, the size, the links and the mutex as they were. *)
Theorem deque_apply_function_correct (fn : W → A → W * A) (w : W) (hq : deque A) (xs : list A) :
  deque_rep hq xs →
  ∃ hq', libtrace_deque_apply_function fn w hq = Ok ((apply_seq fn w xs).1, hq') ∧
    deque_rep hq' (apply_seq fn w xs).2.
Proof.
  destruct hq as [h q]. intros (ns & R & <- & Hl & Hle). simpl in *.
  pose proof (rep_nodup _ _ _ _ _ R) as Hnd.
  pose proof (apply_nodes_locs fn ns w) as Hlocs.
  assert (Zlen (apply_nodes fn w ns) = Zlen ns) as Hlen.
  { unfold Zlen. f_equal. rewrite <- (length_map fst (apply_nodes fn w ns)).
    change (length (locs (apply_nodes fn w ns)) = length ns). rewrite Hlocs. apply length_map. }
  destruct (deque_apply_from_ok fn ns h None w (S (size h))) as (h' & Hrun & Hs & Hd & _);
    [apply R|done| |].
  { rewrite <- size_dom, (rep_dom _ _ _ _ _ R), size_list_to_set by done.
    unfold locs. rewrite length_map. lia. }
  rewrite Hl, (rep_head _ _ _ _ _ R). simpl in *. rewrite Hrun. simpl.
  eexists. split; [done|]. exists (apply_nodes fn w ns). simpl.
  split_and!; [|apply apply_nodes_data|done|by rewrite <- apply_nodes_data, Zlen_map, Hlen, <- (Zlen_map snd)].
  split; [done|by rewrite Hlocs|by rewrite Hd, Hlocs, (rep_dom _ _ _ _ _ R)| | |].
  - by apply first_loc_locs.
  - rewrite (rep_tail _ _ _ _ _ R). by apply last_loc_locs.
  - by rewrite Hlen, (rep_size _ _ _ _ _ R).
Qed.
End correctness.

(** C21: Functional refinement: any sequence of pushes, pops, peeks
    and size queries on a freshly initialised queue runs without a fault (no
    failed assertion, no null or dangling pointer, no mutex left held) and
    returns what the same calls return on a mathematical sequence. *)
Theorem deque_refines_sequence {A} (es : Z) (ops : list (q_op A)) :
  Zlen ops ≤ SIZE_MAX →
  ∃ hq, q_run (libtrace_deque_init es) ops = Ok (hq, (q_spec_run [] ops).2) ∧
    deque_rep hq (q_spec_run [] ops).1.
Proof.
  intros Hlt. exact (q_run_refines (Q := deque A) ops _ [] (deque_init_rep es) Hlt).
Qed.

Lemma deque_refines_sequence_witness :
  ∃ hq, q_run (libtrace_deque_init 16)
          [PushBack 1; PushBack 2; PushFront 3; PeekTail; PopFront; PopTail; GetSize]
        = Ok (hq, [RUnit; RUnit; RUnit; RElem (Some 2); RElem (Some 3); RElem (Some 2); RSize 1]) ∧
    deque_rep hq [1].
Proof.
  apply (deque_refines_sequence 16
    [PushBack 1; PushBack 2; PushFront 3; PeekTail; PopFront; PopTail; GetSize]).
  vm_compute. discriminate.
Defined.

Lemma deque_apply_function_correct_witness :
  let h := <[1%positive := Node 7 None None]> ∅ in
  let q := {| q_head := Some 1%positive; q_tail := Some 1%positive; q_lock := false;
              q_size := 1; q_element_size := 8 |} in
  ∃ hq', libtrace_deque_apply_function (λ w x, (w + x, x + 1)) 10 (h, q) = Ok (17, hq') ∧
    deque_rep hq' [8].
Proof.
  intros h q. apply (deque_apply_function_correct (λ w x, (w + x, x + 1)) 10 (h, q) [7]).
  exists [(1%positive, 7)]. split_and!; [|done..].
  split; simpl; [done|repeat constructor; set_solver|set_solver|done..].
Defined.
