(* ===== verification/Memory.v ===== *)
(** * Blocks of bytes

    A block obtained from [malloc] is the list of its bytes; a byte nobody has
    written yet is [None].  Reads and writes beyond the end of the block are
    faults.  Used by the structures that store elements by value. *)

From S2P Require Import Prelude.
Local Open Scope Z_scope.
Local Open Scope outcome_scope.

Abbreviation mem := (list (option Z)).

(** [malloc(n)] and [realloc(p, n)]; allocation does not fail, except that
    shrinking a block to nothing frees it. *)
Definition mem_alloc (n : Z) : mem := replicate (Z.to_nat n) None.

Definition mem_realloc (p : option mem) (n : Z) : option mem :=
  match p with
  | None => Some (mem_alloc n)
  | Some m =>
      if n =? 0 then None
      else Some (take (Z.to_nat n) m ++ replicate (Z.to_nat n - length m) None)
  end.

(** [n] bytes from offset [off] on, and the same bytes overwritten by [bs]. *)
Definition mem_read (p : option mem) (off n : Z) : outcome mem :=
  match p with
  | None => if n =? 0 then Ok [] else Fault NullDeref
  | Some m =>
      if (0 <=? off) && (off + n <=? Zlen m)
      then Ok (take (Z.to_nat n) (drop (Z.to_nat off) m))
      else Fault OutOfBounds
  end.

Definition mem_write (p : option mem) (off : Z) (bs : mem) : outcome (option mem) :=
  match p with
  | None => if Zlen bs =? 0 then Ok None else Fault NullDeref
  | Some m =>
      if (0 <=? off) && (off + Zlen bs <=? Zlen m)
      then Ok (Some (take (Z.to_nat off) m ++ bs ++ drop (Z.to_nat (off + Zlen bs)) m))
      else Fault OutOfBounds
  end.

#[global] Arguments mem_alloc : simpl never.
#[global] Arguments mem_realloc : simpl never.
#[global] Arguments mem_read : simpl never.
#[global] Arguments mem_write : simpl never.

Lemma mem_alloc_len n : 0 ≤ n → Zlen (mem_alloc n) = n.
Proof. intros. unfold mem_alloc. rewrite Zlen_replicate. lia. Qed.

Lemma mem_read_ok m off n :
  0 ≤ off → off + n ≤ Zlen m →
  mem_read (Some m) off n = Ok (take (Z.to_nat n) (drop (Z.to_nat off) m)).
Proof.
  intros. unfold mem_read.
  by rewrite (proj2 (Z.leb_le 0 off)), (proj2 (Z.leb_le (off + n) _)).
Qed.

Lemma mem_read_oob m off n :
  Zlen m < off + n → mem_read (Some m) off n = Fault OutOfBounds.
Proof.
  intros. unfold mem_read. destruct (Z.leb_spec (off + n) (Zlen m)); [lia|].
  by rewrite andb_false_r.
Qed.

(** Growing a block and overwriting the bytes after a prefix [a] of it. *)
Lemma mem_realloc_prefix (a m : mem) n :
  Zlen m ≤ n → 0 < n → a `prefix_of` m →
  ∃ m', mem_realloc (Some m) n = Some m' ∧ Zlen m' = n ∧ a `prefix_of` m'.
Proof.
  intros Hle Hn [k ->]. unfold mem_realloc. destruct (Z.eqb_spec n 0); [lia|].
  eexists. split; [done|]. unfold Zlen in *. rewrite length_app in *.
  rewrite take_ge by (rewrite length_app; lia). split.
  - rewrite !length_app, length_replicate. lia.
  - rewrite <- (assoc_L app). by eexists.
Qed.

Lemma mem_write_after (a bs m : mem) :
  a `prefix_of` m → Zlen a + Zlen bs ≤ Zlen m →
  ∃ m', mem_write (Some m) (Zlen a) bs = Ok (Some m') ∧ Zlen m' = Zlen m ∧
    (a ++ bs) `prefix_of` m'.
Proof.
  intros [k ->] Hle. unfold mem_write. pose proof (Zlen_nonneg a).
  rewrite (proj2 (Z.leb_le 0 _)), (proj2 (Z.leb_le (_ + _) _)) by lia. simpl.
  eexists. split; [done|]. unfold Zlen in *. rewrite !length_app in *.
  rewrite Nat2Z.id, take_app_length. split.
  - rewrite ?length_app, length_drop, ?length_app. lia.
  - rewrite (assoc_L app). by eexists.
Qed.
