(* ===== verification/Vector.v ===== *)
(** * The growable array: lib/data-struct/vector.c

    Elements are [element_size] bytes each, stored one after the other in one
    block; the block starts with room for 128 elements and doubles.  The model
    keeps the block byte by byte, so an access outside of it is a fault.
    [qsort] is the C library's: any function that returns a sorted permutation
    of its argument. *)

From S2P Require Import Prelude Memory.
From Stdlib Require Import Sorted.
From stdpp Require Import sorting.
Local Open Scope Z_scope.
Local Open Scope outcome_scope.

Record libtrace_vector_t := {
  v_max_size : Z;
  v_size : Z;
  v_element_size : Z;
  v_elements : option mem;
  v_lock : bool;
}.

(** ** Operations *)
Definition libtrace_vector_init (element_size : Z) : libtrace_vector_t :=
  {| v_max_size := 128; v_size := 0; v_element_size := element_size;
     v_elements := Some (mem_alloc (u64 (128 * element_size))); v_lock := false |}.

Definition libtrace_vector_destroy (v : libtrace_vector_t) : libtrace_vector_t :=
  {| v_max_size := 0; v_size := 0; v_element_size := 0; v_elements := None;
     v_lock := v_lock v |}.

Definition libtrace_vector_push_back (v : libtrace_vector_t) (d : mem)
  : outcome libtrace_vector_t :=
  let! held := pthread_mutex_lock (v_lock v) in
  let es := v_element_size v in
  let! ' (max_size', elements') :=
    if v_max_size v <=? v_size v then
      let max_size' := u64 (v_max_size v * 2) in
      let elements' := mem_realloc (v_elements v) (u64 (max_size' * es)) in
      let! _ := oassert (bool_decide (elements' ≠ None)) in
      Ok (max_size', elements')
    else Ok (v_max_size v, v_elements v) in
  let! bytes := mem_read (Some d) 0 es in
  let! elements'' := mem_write elements' (u64 (v_size v * es)) bytes in
  let size' := u64 (v_size v + 1) in
  let! held := pthread_mutex_unlock held in
  Ok {| v_max_size := max_size'; v_size := size'; v_element_size := es;
        v_elements := elements''; v_lock := held |}.

Definition libtrace_vector_get_size (v : libtrace_vector_t) : Z := v_size v.

(** Returns 0 and nothing, or 1 and the bytes copied to [d]. *)
Definition libtrace_vector_get (v : libtrace_vector_t) (location : Z)
  : outcome (Z * option mem) :=
  let! held := pthread_mutex_lock (v_lock v) in
  if v_size v <=? location then
    let! _ := pthread_mutex_unlock held in Ok (0, None)
  else
    let! d := mem_read (v_elements v) (u64 (location * v_element_size v)) (v_element_size v) in
    let! _ := pthread_mutex_unlock held in
    Ok (1, Some d).

(** [for (i = 0; i < size * element_size; i++) elements[i] = elements[i+element_size]];
    [n] rounds are left. *)
Fixpoint vector_shift (n : nat) (i es : Z) (m : mem) : outcome mem :=
  match n with
  | O => Ok m
  | S n' =>
      let! b := aget m (u64 (i + es)) in
      let! m' := aset m i b in
      vector_shift n' (i + 1) es m'
  end.

Definition libtrace_vector_remove_front (v : libtrace_vector_t)
  : outcome (libtrace_vector_t * Z) :=
  let! held := pthread_mutex_lock (v_lock v) in
  if v_size v =? 0 then
    let! held := pthread_mutex_unlock held in Ok (v, 0)
  else
    let size' := v_size v - 1 in
    let es := v_element_size v in
    let n := Z.to_nat (u64 (size' * es)) in
    let! elements' :=
      match v_elements v with
      | None => if u64 (size' * es) =? 0 then Ok None else Fault NullDeref
      | Some m => let! m' := vector_shift n 0 es m in Ok (Some m')
      end in
    let! held := pthread_mutex_unlock held in
    Ok ({| v_max_size := v_max_size v; v_size := size'; v_element_size := es;
           v_elements := elements'; v_lock := held |}, 1).

(** [while (max_size - size < src_size) max_size *= 2].  A 64-bit number is 0
    after at most 64 doublings, and then the loop ends. *)
Fixpoint vector_grow (fuel : nat) (max_size size src_size : Z) : outcome Z :=
  match fuel with
  | O => Fault OutOfFuel
  | S fuel' =>
      if u64 (max_size - size) <? src_size
      then vector_grow fuel' (u64 (max_size * 2)) size src_size
      else Ok max_size
  end.

(** [dest] and [src] are different vectors.  The result is [(dest, src)]. *)
Definition libtrace_vector_append (dest src : libtrace_vector_t)
  : outcome (libtrace_vector_t * libtrace_vector_t) :=
  let! _ := oassert (v_element_size dest =? v_element_size src) in
  if v_size src =? 0 then Ok (dest, src)
  else
    let! dheld := pthread_mutex_lock (v_lock dest) in
    let! sheld := pthread_mutex_lock (v_lock src) in
    let! ' (dest', src') :=
      if v_size src =? 0 then Ok (dest, src)
      else if v_size dest =? 0 then
        Ok ({| v_max_size := v_max_size src; v_size := v_size src;
               v_element_size := v_element_size src; v_elements := v_elements src;
               v_lock := dheld |},
            {| v_max_size := v_max_size dest; v_size := v_size dest;
               v_element_size := v_element_size dest; v_elements := v_elements dest;
               v_lock := sheld |})
      else
        let oldmax := v_max_size dest in
        let! max' := vector_grow 66 oldmax (v_size dest) (v_size src) in
        let elements :=
          if oldmax =? max' then v_elements dest
          else mem_realloc (v_elements dest) (u64 (max' * v_element_size dest)) in
        let! bytes := mem_read (v_elements src) 0 (u64 (v_element_size src * v_size src)) in
        let! elements' := mem_write elements (u64 (v_element_size dest * v_size dest)) bytes in
        Ok ({| v_max_size := max'; v_size := u64 (v_size dest + v_size src);
               v_element_size := v_element_size dest; v_elements := elements';
               v_lock := dheld |},
            {| v_max_size := v_max_size src; v_size := 0;
               v_element_size := v_element_size src; v_elements := v_elements src;
               v_lock := sheld |}) in
    let! sheld := pthread_mutex_unlock sheld in
    let! dheld := pthread_mutex_unlock dheld in
    Ok ({| v_max_size := v_max_size dest'; v_size := v_size dest';
           v_element_size := v_element_size dest'; v_elements := v_elements dest';
           v_lock := dheld |},
        {| v_max_size := v_max_size src'; v_size := v_size src';
           v_element_size := v_element_size src'; v_elements := v_elements src';
           v_lock := sheld |}).

(** The block is not freed. *)
Definition libtrace_zero_vector (v : libtrace_vector_t) : libtrace_vector_t :=
  {| v_max_size := 0; v_size := 0; v_element_size := 0; v_elements := None;
     v_lock := v_lock v |}.

Definition libtrace_vector_empty (v : libtrace_vector_t) : outcome libtrace_vector_t :=
  let! held := pthread_mutex_lock (v_lock v) in
  let! held := pthread_mutex_unlock held in
  Ok {| v_max_size := v_max_size v; v_size := 0; v_element_size := v_element_size v;
        v_elements := v_elements v; v_lock := held |}.

(** [fn] gets a pointer to the element: it reads its bytes, may replace them
    by as many others, and may change a state [W] of its own. *)
Fixpoint vector_apply_from {W} (n : nat) (cur es : Z) (fn : W → mem → W * mem)
    (w : W) (p : option mem) : outcome (W * option mem) :=
  match n with
  | O => Ok (w, p)
  | S n' =>
      let! d := mem_read p (u64 (cur * es)) es in
      let '(w', d') := fn w d in
      let! p' := mem_write p (u64 (cur * es)) d' in
      vector_apply_from n' (cur + 1) es fn w' p'
  end.

Definition libtrace_vector_apply_function {W} (fn : W → mem → W * mem) (w : W)
    (v : libtrace_vector_t) : outcome (W * libtrace_vector_t) :=
  let! held := pthread_mutex_lock (v_lock v) in
  let! ' (w', elements') :=
    vector_apply_from (Z.to_nat (v_size v)) 0 (v_element_size v) fn w (v_elements v) in
  let! held := pthread_mutex_unlock held in
  Ok (w', {| v_max_size := v_max_size v; v_size := v_size v;
             v_element_size := v_element_size v; v_elements := elements'; v_lock := held |}).

(** The [n] elements of [es] bytes each that [m] starts with. *)
Fixpoint chunks (n : nat) (es : nat) (m : mem) : list mem :=
  match n with
  | O => []
  | S n' => take es m :: chunks n' es (drop es m)
  end.

Section qsort.
Variable qsort : (mem → mem → Z) → list mem → list mem.

(** [qsort(base, nmemb, size, compar)] on a block. *)
Definition mem_qsort (p : option mem) (nmemb size : Z) (compar : mem → mem → Z)
  : outcome (option mem) :=
  let! bytes := mem_read p 0 (nmemb * size) in
  mem_write p 0 (concat (qsort compar (chunks (Z.to_nat nmemb) (Z.to_nat size) bytes))).

(** The number of members the source passes is [element_size]. *)
Definition libtrace_vector_qsort (v : libtrace_vector_t) (compar : mem → mem → Z)
  : outcome libtrace_vector_t :=
  let! held := pthread_mutex_lock (v_lock v) in
  let! elements' := mem_qsort (v_elements v) (v_element_size v) (v_element_size v) compar in
  let! held := pthread_mutex_unlock held in
  Ok {| v_max_size := v_max_size v; v_size := v_size v; v_element_size := v_element_size v;
        v_elements := elements'; v_lock := held |}.
End qsort.

(** ** Representation of a sequence of elements *)
Record vec_rep (v : libtrace_vector_t) (xs : list mem) : Prop := {
  vr_block : ∃ m, v_elements v = Some m ∧ Zlen m = v_max_size v * v_element_size v ∧
               concat xs `prefix_of` m;
  vr_chunks : Forall (λ x, Zlen x = v_element_size v) xs;
  vr_size : v_size v = Zlen xs;
  vr_max : Zlen xs ≤ v_max_size v ∧ 0 < v_max_size v;
  vr_es : 0 < v_element_size v;
  vr_bound : v_max_size v * v_element_size v < 2 ^ 64;
  vr_lock : v_lock v = false;
}.

Lemma Zlen_concat (xs : list mem) es :
  Forall (λ x, Zlen x = es) xs → Zlen (concat xs) = Zlen xs * es.
Proof.
  induction 1 as [|x xs Hx _ IH]; [done|]. simpl. autorewrite with zlen. lia.
Qed.

Lemma mul_bound a b e : a ≤ b → 0 < e → b * e < 2 ^ 64 → a * e ≤ b * e ∧ a * e < 2 ^ 64.
Proof. nia. Qed.

(** The facts a proof about one vector starts from. *)
Ltac vec_facts R m Hm Hlen Hpre Hch Hsz Hl :=
  destruct (vr_block _ _ R) as (m & Hm & Hlen & Hpre);
  pose proof (vr_chunks _ _ R) as Hch; pose proof (vr_size _ _ R) as Hsz;
  pose proof (vr_max _ _ R); pose proof (vr_es _ _ R); pose proof (vr_bound _ _ R);
  pose proof (vr_lock _ _ R) as Hl.

Lemma vec_rep_init es :
  0 < es → 128 * es < 2 ^ 64 → vec_rep (libtrace_vector_init es) [].
Proof.
  intros. split; simpl; try done; try lia.
  eexists. split; [done|]. rewrite u64_small, mem_alloc_len by lia.
  split; [lia|apply prefix_nil].
Qed.

Lemma vec_push_back_rep v xs d :
  vec_rep v xs → Zlen d = v_element_size v →
  Zlen xs < v_max_size v ∨ v_max_size v * 2 * v_element_size v < 2 ^ 64 →
  ∃ v', libtrace_vector_push_back v d = Ok v' ∧ vec_rep v' (xs ++ [d]) ∧
    v_element_size v' = v_element_size v ∧
    v_max_size v' = (if v_max_size v <=? Zlen xs then v_max_size v * 2 else v_max_size v).
Proof.
  intros R Hd Hroom. vec_facts R m Hm Hlen Hpre Hch Hsz Hl. unfold libtrace_vector_push_back.
  set (es := v_element_size v) in *. rewrite Hl. simpl. rewrite Hsz.
  assert (∃ max' m', (if v_max_size v <=? Zlen xs then
      let! _ := oassert (bool_decide (mem_realloc (v_elements v)
                   (u64 (u64 (v_max_size v * 2) * es)) ≠ None)) in
      Ok (u64 (v_max_size v * 2), mem_realloc (v_elements v) (u64 (u64 (v_max_size v * 2) * es)))
    else Ok (v_max_size v, v_elements v)) = Ok (max', Some m') ∧
    max' = (if v_max_size v <=? Zlen xs then v_max_size v * 2 else v_max_size v) ∧
    Zlen m' = max' * es ∧ concat xs `prefix_of` m' ∧ Zlen xs + 1 ≤ max' ∧ max' * es < 2 ^ 64)
    as (max' & m' & -> & <- & Hlen' & Hpre' & Hmax' & Hb').
  { destruct (Z.leb_spec (v_max_size v) (Zlen xs)); [|by eexists _, m; split_and!; [by rewrite Hm|done..|lia|done]].
    assert (v_max_size v * 2 < 2 ^ 64) by nia.
    rewrite (u64_small (v_max_size v * 2)), (u64_small (_ * 2 * _)) by nia.
    destruct (mem_realloc_prefix (concat xs) m (v_max_size v * 2 * es)) as (m' & Hr & ? & ?);
      [nia|nia|done|].
    rewrite Hm, Hr. eexists _, m'. split_and!; [done..|lia|lia]. }
  assert (Zlen (concat xs) = Zlen xs * es) as Hcat by by apply Zlen_concat.
  pose proof (Zlen_nonneg xs). destruct (mul_bound (Zlen xs + 1) max' es); [lia..|].
  rewrite mem_read_ok by lia. simpl. rewrite drop_0, take_ge by (unfold Zlen in Hd; lia).
  rewrite (u64_small (_ * _)), <- Hcat by nia.
  destruct (mem_write_after (concat xs) d m') as (m'' & -> & ? & Hpre''); [done|lia|].
  simpl. rewrite u64_small by nia. eexists. split; [done|]. split; [|done].
  split; simpl; [|apply Forall_app; split; [done|by constructor]|by autorewrite with zlen|autorewrite with zlen; lia|done..].
  exists m''. split_and!; [done|congruence|].
  rewrite concat_app. simpl. by rewrite app_nil_r.
Qed.

(** The bytes of one element inside the block. *)
Lemma chunk_at (xs : list mem) m es (i : nat) x :
  Forall (λ x, Zlen x = es) xs → concat xs `prefix_of` m → xs !! i = Some x →
  take (Z.to_nat es) (drop (Z.to_nat (Z.of_nat i * es)) m) = x.
Proof.
  intros HF [k ->]. revert xs HF. induction i as [|i IH]; intros xs HF Hx;
    destruct HF as [|y xs Hy HF]; simplify_eq/=; unfold Zlen in *.
  - rewrite Nat2Z.id, drop_0. by rewrite <- (assoc_L app), take_app_length.
  - rewrite Nat2Z.inj_succ, Z.mul_succ_l, Z.add_comm, Z2Nat.inj_add, Nat2Z.id by lia.
    rewrite <- drop_drop, <- (assoc_L app), drop_app_length.
    rewrite Nat2Z.id in IH. by apply IH.
Qed.

Lemma vec_get_rep v xs location :
  vec_rep v xs → 0 ≤ location →
  libtrace_vector_get v location
  = Ok (match xs !! Z.to_nat location with Some x => (1, Some x) | None => (0, None) end).
Proof.
  intros R Hge0. vec_facts R m Hm Hlen Hpre Hch Hsz Hl. unfold libtrace_vector_get. rewrite Hl. simpl. rewrite Hsz.
  destruct (Z.leb_spec (Zlen xs) location) as [Hge|Hlt].
  { rewrite lookup_ge_None_2 by (unfold Zlen in *; lia). done. }
  destruct (aget_total xs location) as (x & Hx & _); [lia|]. rewrite Hx, Hm.
  destruct (mul_bound (location + 1) (v_max_size v) (v_element_size v)); [lia..|].
  rewrite u64_small, mem_read_ok by nia. simpl. do 3 f_equal.
  rewrite <- (Z2Nat.id location) at 1 by lia. by eapply chunk_at.
Qed.

(** After the shifting loop the bytes from [i] on are those [es] further on. *)
Lemma vector_shift_ok n : ∀ i es (m : mem),
  0 ≤ i → 0 < es → i + Z.of_nat n + es ≤ Zlen m → Zlen m ≤ 2 ^ 64 →
  ∃ m', vector_shift n i es m = Ok m' ∧ Zlen m' = Zlen m ∧
    ∀ j, m' !! j = if bool_decide (Z.to_nat i ≤ j < Z.to_nat i + n)%nat
                   then m !! (j + Z.to_nat es)%nat else m !! j.
Proof.
  induction n as [|n IH]; intros i es m Hi Hes Hle Hb; cbn [vector_shift].
  { exists m. split_and!; [done..|]. intros j. rewrite bool_decide_eq_false_2; [done|lia]. }
  rewrite u64_small by lia.
  destruct (aget_total m (i + es)) as (b & Hb1 & ->); [lia|]. cbn [obind].
  rewrite aset_ok by lia. cbn [obind].
  destruct (IH (i + 1) es (<[Z.to_nat i := b]> m)) as (m' & -> & Hlen & Hj);
    [lia|lia|rewrite Zlen_insert; lia..|].
  exists m'. rewrite Zlen_insert in Hlen. split_and!; [done..|]. intros j. rewrite Hj.
  repeat case_bool_decide; try lia.
  - rewrite list_lookup_insert_ne by lia. done.
  - assert (j = Z.to_nat i) as -> by lia. rewrite list_lookup_insert_eq.
    + rewrite <- Hb1. f_equal. lia.
    + unfold Zlen in *. lia.
  - rewrite list_lookup_insert_ne by lia. done.
Qed.

Lemma vec_remove_front_rep v x xs :
  vec_rep v (x :: xs) →
  ∃ v', libtrace_vector_remove_front v = Ok (v', 1) ∧ vec_rep v' xs ∧
    v_element_size v' = v_element_size v ∧ v_max_size v' = v_max_size v.
Proof.
  intros R. vec_facts R m Hm Hlen Hpre Hch Hsz Hl.
  set (es := v_element_size v) in *. unfold libtrace_vector_remove_front.
  rewrite Hl, Hsz, Hm, Zlen_cons in *. fold es. cbn [pthread_mutex_lock obind].
  pose proof (Zlen_nonneg xs). destruct (Z.eqb_spec (1 + Zlen xs) 0); [lia|].
  apply Forall_cons in Hch as [Hx Hch].
  assert (Zlen (concat xs) = Zlen xs * es) as Hcat by by apply Zlen_concat.
  destruct (mul_bound (Zlen xs + 1) (v_max_size v) es); [lia..|].
  replace (1 + Zlen xs - 1) with (Zlen xs) by lia. rewrite (u64_small (_ * _)) by nia.
  assert (Z.to_nat (Zlen xs * es) = length (concat xs)) as Hn
    by (rewrite <- Hcat; unfold Zlen; lia). rewrite Hn.
  destruct (vector_shift_ok (length (concat xs)) 0 es m) as (m' & -> & Hlen' & Hj);
    [lia|lia|unfold Zlen in Hcat; nia|nia|].
  cbn [obind pthread_mutex_unlock]. eexists. split; [done|]. split; [|done].
  split; simpl; [|done|done|lia|done..].
  exists m'. split_and!; [done|congruence|]. exists (drop (length (concat xs)) m').
  rewrite <- (take_drop (length (concat xs)) m') at 1. f_equal.
  destruct Hpre as [k ->]. simpl in *. apply list_eq. intros j.
  destruct (decide (j < length (concat xs))%nat).
  - rewrite lookup_take_lt, Hj by lia. rewrite bool_decide_eq_true_2 by lia.
    unfold Zlen in Hx. rewrite <- (assoc_L app), lookup_app_r by lia.
    replace (j + Z.to_nat es - length x)%nat with j by lia. by rewrite lookup_app_l by lia.
  - by rewrite lookup_take_ge, lookup_ge_None_2 by lia.
Qed.

(** ** Appending *)
Lemma vector_grow_ok f : ∀ max size src,
  0 < max → 0 ≤ size ≤ max → 0 ≤ src → size + src < 2 ^ 63 → max < 2 ^ 64 →
  size + src ≤ max * 2 ^ Z.of_nat f →
  ∃ max', vector_grow (S f) max size src = Ok max' ∧ size + src ≤ max' ∧ max ≤ max' ∧
    (max' = max ∨ max' < 2 * (size + src)).
Proof.
  induction f as [|f IH]; intros max size src Hm Hs Hsrc Hb Hmb Hf; cbn [vector_grow];
    rewrite (u64_small (max - size)) by lia; (destruct (Z.ltb_spec (max - size) src); [|exists max; split_and!; [done|lia|lia|by left]]).
  { simpl in Hf. lia. }
  rewrite (u64_small (max * 2)) by lia. rewrite Nat2Z.inj_succ, Z.pow_succ_r in Hf by lia.
  destruct (IH (max * 2) size src) as (max' & Heq & ? & ? & ?); [lia..|].
  exists max'. split_and!; [exact Heq|lia..].
Qed.

Lemma vec_append_rep (dest src : libtrace_vector_t) (xs ys : list mem) :
  vec_rep dest xs → vec_rep src ys → v_element_size dest = v_element_size src →
  Zlen xs + Zlen ys < 2 ^ 63 → 2 * (Zlen xs + Zlen ys) * v_element_size dest < 2 ^ 64 →
  ∃ dest' src', libtrace_vector_append dest src = Ok (dest', src') ∧
    vec_rep dest' (xs ++ ys) ∧ vec_rep src' [] ∧
    v_element_size dest' = v_element_size dest ∧ v_element_size src' = v_element_size src.
Proof.
  intros R R' Hes H63 Hb. vec_facts R m Hm Hlen Hpre Hch Hsz Hl.
  vec_facts R' m' Hm' Hlen' Hpre' Hch' Hsz' Hl'.
  pose proof (Zlen_nonneg xs). pose proof (Zlen_nonneg ys).
  unfold libtrace_vector_append. rewrite (proj2 (Z.eqb_eq _ _) Hes), Hl, Hl', Hsz, Hsz'.
  cbn [oassert obind pthread_mutex_lock]. destruct (Z.eqb_spec (Zlen ys) 0) as [Hy0|Hy0].
  { destruct ys; [|rewrite Zlen_cons in Hy0; pose proof (Zlen_nonneg ys); lia].
    exists dest, src. by rewrite app_nil_r. }
  destruct (Z.eqb_spec (Zlen xs) 0) as [Hx0|Hx0].
  { destruct xs; [|rewrite Zlen_cons in Hx0; pose proof (Zlen_nonneg xs); lia].
    cbn [obind pthread_mutex_unlock]. do 2 eexists. split; [done|].
    split_and!; [split|split| |]; simpl; try done; try lia; eexists; split_and!; try done. }
  set (es := v_element_size dest) in *. rewrite <- Hes in *.
  assert (Zlen (concat xs) = Zlen xs * es) as Hcat by by apply Zlen_concat.
  assert (Zlen (concat ys) = Zlen ys * es) as Hcat' by by apply Zlen_concat.
  destruct (vector_grow_ok 65 (v_max_size dest) (Zlen xs) (Zlen ys)) as
    (max' & -> & ? & ? & Hor); [lia|lia|lia|lia|nia|cbn; lia|]. cbn [obind].
  assert (max' * es < 2 ^ 64) as Hmb by (destruct Hor; nia).
  assert (∃ b, (if v_max_size dest =? max' then v_elements dest
                else mem_realloc (v_elements dest) (u64 (max' * es))) = Some b ∧
            Zlen b = max' * es ∧ concat xs `prefix_of` b) as (b & -> & Hblen & Hbpre).
  { destruct (Z.eqb_spec (v_max_size dest) max') as [<-|]; [by exists m|].
    rewrite u64_small, Hm by nia. apply mem_realloc_prefix; [nia|nia|done]. }
  rewrite (u64_small (es * Zlen ys)), Hm', mem_read_ok by nia. cbn [obind].
  rewrite drop_0. destruct Hpre' as [k' ->].
  rewrite (Z.mul_comm es (Zlen ys)), <- Hcat'. unfold Zlen at 2. rewrite Nat2Z.id, take_app_length.
  rewrite (u64_small (es * Zlen xs)), (Z.mul_comm es), <- Hcat by nia.
  destruct (mem_write_after (concat xs) (concat ys) b) as (b' & -> & ? & Hb'); [done|nia|].
  cbn [obind pthread_mutex_unlock]. rewrite u64_small by lia.
  do 2 eexists. split; [done|]. split_and!; [split|split| |]; simpl; try done; try lia.
  - exists b'. rewrite concat_app. split_and!; [done|congruence|done].
  - by apply Forall_app.
  - by rewrite Zlen_app.
  - rewrite Zlen_app. lia.
  - eexists. split_and!; [done..|]. apply prefix_nil.
  - rewrite Zlen_nil. lia.
Qed.

(** [libtrace_vector_append] puts the elements of the source after
    those of the destination and empties the source, whether it moves them
    (growing the block as often as needed; the loop ends) or swaps the blocks. *)
Theorem vector_append_correct (dest src : libtrace_vector_t) (xs ys : list mem) :
  vec_rep dest xs → vec_rep src ys → v_element_size dest = v_element_size src →
  Zlen xs + Zlen ys < 2 ^ 63 → 2 * (Zlen xs + Zlen ys) * v_element_size dest < 2 ^ 64 →
  ∃ dest' src', libtrace_vector_append dest src = Ok (dest', src') ∧
    vec_rep dest' (xs ++ ys) ∧ vec_rep src' [].
Proof.
  intros R R' Hes H63 Hb.
  destruct (vec_append_rep dest src xs ys) as (dest' & src' & F1 & F2 & F3 & _); [done..|].
  by exists dest', src'.
Qed.

Lemma vec_empty_rep v xs :
  vec_rep v xs → ∃ v', libtrace_vector_empty v = Ok v' ∧ vec_rep v' [] ∧
    v_element_size v' = v_element_size v ∧ v_max_size v' = v_max_size v.
Proof.
  intros R. vec_facts R m Hm Hlen Hpre Hch Hsz Hl. unfold libtrace_vector_empty. rewrite Hl.
  simpl. eexists. split; [done|]. split; [|done].
  split; simpl; try done; [|rewrite Zlen_nil; lia].
  exists m. split_and!; [done..|apply prefix_nil].
Qed.

(** ** Applying a function *)
Lemma mem_update_chunk (a b c d m : mem) :
  a ++ b ++ c `prefix_of` m → Zlen d = Zlen b →
  ∃ m', mem_read (Some m) (Zlen a) (Zlen b) = Ok b ∧
    mem_write (Some m) (Zlen a) d = Ok (Some m') ∧ Zlen m' = Zlen m ∧
    a ++ d ++ c `prefix_of` m'.
Proof.
  intros [k ->] Hd. pose proof (Zlen_nonneg a). pose proof (Zlen_nonneg c).
  rewrite mem_read_ok by (autorewrite with zlen; pose proof (Zlen_nonneg k); lia).
  unfold mem_write. autorewrite with zlen. pose proof (Zlen_nonneg k).
  rewrite (proj2 (Z.leb_le 0 _)), (proj2 (Z.leb_le (_ + _) _)) by lia. simpl.
  eexists. split; [|split; [done|]].
  - unfold Zlen. rewrite !Nat2Z.id, <- !(assoc_L app), drop_app_length. by rewrite take_app_length.
  - rewrite Hd. unfold Zlen in *. rewrite Z2Nat.inj_add, !Nat2Z.id, <- !(assoc_L app) by lia.
    rewrite take_app_length, <- drop_drop, !drop_app_length.
    split; [rewrite !length_app in *; lia|]. exists k. by rewrite <- !(assoc_L app).
Qed.

Section apply.
Context {W : Type} (fn : W → mem → W * mem) (es : Z).
(** The callback writes inside the element it is given. *)
Hypothesis fn_len : ∀ w d, Zlen d = es → Zlen (fn w d).2 = es.

Lemma apply_seq_len xs : ∀ w, Forall (λ x, Zlen x = es) xs →
  Forall (λ x, Zlen x = es) (apply_seq fn w xs).2 ∧ Zlen (apply_seq fn w xs).2 = Zlen xs.
Proof using fn_len.
  induction xs as [|x xs IH]; intros w HF; simpl; [done|].
  apply Forall_cons in HF as [Hx HF]. pose proof (fn_len w x Hx).
  destruct (fn w x) as [w1 x']. destruct (IH w1 HF) as [IHF IHl].
  destruct (apply_seq fn w1 xs) as [w2 ys]. simpl in *. rewrite !Zlen_cons. split; [by constructor|lia].
Qed.

Lemma vector_apply_ok todo : ∀ (acc : list mem) w m,
  0 < es → Zlen m < 2 ^ 64 →
  Forall (λ x, Zlen x = es) acc → Forall (λ x, Zlen x = es) todo →
  concat acc ++ concat todo `prefix_of` m →
  ∃ m', vector_apply_from (length todo) (Zlen acc) es fn w (Some m)
        = Ok ((apply_seq fn w todo).1, Some m') ∧ Zlen m' = Zlen m ∧
    concat acc ++ concat (apply_seq fn w todo).2 `prefix_of` m'.
Proof using fn_len.
  induction todo as [|x todo IH]; intros acc w m Hes Hb Hacc Htodo Hpre; [by exists m|].
  apply Forall_cons in Htodo as [Hx Htodo]. cbn [length vector_apply_from].
  pose proof (Zlen_concat acc es Hacc) as Hcat. pose proof (fn_len w x Hx) as Hx'.
  assert (Zlen (concat acc) ≤ Zlen m) as Hle.
  { destruct Hpre as [k ->]. autorewrite with zlen.
    pose proof (Zlen_nonneg (concat (x :: todo))). pose proof (Zlen_nonneg k). lia. }
  pose proof (Zlen_nonneg acc). rewrite u64_small, <- Hcat by nia.
  destruct (mem_update_chunk (concat acc) x (concat todo) (fn w x).2 m) as (m1 & Hr & Hw & Hl & Hp);
    [done|congruence|].
  rewrite Hx in Hr. rewrite Hr. cbn [obind]. cbn [apply_seq]. destruct (fn w x) as [w1 x'] eqn:E.
  simpl in Hw, Hx', Hp. rewrite Hw. cbn [obind].
  destruct (IH (acc ++ [x']) w1 m1) as (m' & Hrun & Hl' & Hp'); [done|lia| |done| |].
  { apply Forall_app. split; [done|by constructor]. }
  { rewrite concat_app. simpl. by rewrite app_nil_r, <- (assoc_L app). }
  autorewrite with zlen in Hrun. rewrite Z.add_0_r in Hrun. rewrite Hrun.
  destruct (apply_seq fn w1 todo) as [w2 ys]. simpl in *. exists m'.
  split_and!; [done|lia|]. revert Hp'. rewrite concat_app. simpl. by rewrite app_nil_r, <- (assoc_L app).
Qed.
End apply.

(** ** Correctness *)
Inductive v_op :=
| VPushBack (d : mem)
| VGet (location : Z)
| VRemoveFront
| VEmpty
| VGetSize.

Definition v_exec (v : libtrace_vector_t) (op : v_op)
  : outcome (libtrace_vector_t * (Z * option mem)) :=
  match op with
  | VPushBack d => let! v' := libtrace_vector_push_back v d in Ok (v', (0, None))
  | VGet i => let! r := libtrace_vector_get v i in Ok (v, r)
  | VRemoveFront => let! ' (v', r) := libtrace_vector_remove_front v in Ok (v', (r, None))
  | VEmpty => let! v' := libtrace_vector_empty v in Ok (v', (0, None))
  | VGetSize => Ok (v, (libtrace_vector_get_size v, None))
  end.

(** The specification: the same calls on a sequence of elements. *)
Definition v_spec (xs : list mem) (op : v_op) : list mem * (Z * option mem) :=
  match op with
  | VPushBack d => (xs ++ [d], (0, None))
  | VGet i =>
      (xs, match xs !! Z.to_nat i with Some x => (1, Some x) | None => (0, None) end)
  | VRemoveFront => match xs with [] => ([], (0, None)) | _ :: xs' => (xs', (1, None)) end
  | VEmpty => ([], (0, None))
  | VGetSize => (xs, (Zlen xs, None))
  end.

Fixpoint v_run (v : libtrace_vector_t) (ops : list v_op)
  : outcome (libtrace_vector_t * list (Z * option mem)) :=
  match ops with
  | [] => Ok (v, [])
  | op :: ops' =>
      let! ' (v1, r) := v_exec v op in
      let! ' (v2, rs) := v_run v1 ops' in
      Ok (v2, r :: rs)
  end.

Fixpoint v_spec_run (xs : list mem) (ops : list v_op) : list mem * list (Z * option mem) :=
  match ops with
  | [] => (xs, [])
  | op :: ops' =>
      let '(xs1, r) := v_spec xs op in
      let '(xs2, rs) := v_spec_run xs1 ops' in
      (xs2, r :: rs)
  end.

(** Calls a client may make: whole elements, indices that are not negative. *)
Definition v_op_ok (es : Z) (op : v_op) : Prop :=
  match op with
  | VPushBack d => Zlen d = es
  | VGet i => 0 ≤ i
  | _ => True
  end.

(** [n] bounds the elements there have ever been, and through it the capacity. *)
Definition vec_inv (es n : Z) (v : libtrace_vector_t) (xs : list mem) : Prop :=
  vec_rep v xs ∧ v_element_size v = es ∧ Zlen xs ≤ n ∧ v_max_size v ≤ 128 + 2 * n.

Lemma v_exec_refines es n v xs op :
  vec_inv es n v xs → v_op_ok es op → (128 + 2 * (n + 1)) * es < 2 ^ 64 →
  ∃ v', v_exec v op = Ok (v', (v_spec xs op).2) ∧ vec_inv es (n + 1) v' (v_spec xs op).1.
Proof.
  intros (R & <- & Hn & Hmax) Hop Hb. pose proof (vr_es _ _ R). unfold vec_inv.
  pose proof (Zlen_nonneg xs). destruct op as [d|i| | |]; cbn [v_exec v_spec fst snd].
  - destruct (vec_push_back_rep v xs d R Hop) as (v' & -> & R' & He & Hm).
    { destruct (Z.lt_ge_cases (Zlen xs) (v_max_size v)); [by left|right; nia]. }
    exists v'. rewrite He, Hm. split_and!; [done..|autorewrite with zlen; lia|]. bool_cases; lia.
  - rewrite (vec_get_rep v xs i R Hop). exists v. split_and!; [done..|lia|lia].
  - destruct xs as [|x xs].
    + unfold libtrace_vector_remove_front. rewrite (vr_lock _ _ R), (vr_size _ _ R).
      exists v. split_and!; [done..|simpl; lia|lia].
    + destruct (vec_remove_front_rep v x xs R) as (v' & -> & R' & He & Hm). exists v'.
      rewrite He, Hm, Zlen_cons in *. split_and!; [done..|simpl; lia|lia].
  - destruct (vec_empty_rep v xs R) as (v' & -> & R' & He & Hm). exists v'.
    rewrite He, Hm. split_and!; [done..|rewrite Zlen_nil; lia|lia].
  - unfold libtrace_vector_get_size. rewrite (vr_size _ _ R). exists v. split_and!; [done..|lia|lia].
Qed.

Lemma v_run_refines es ops : ∀ n v xs,
  vec_inv es n v xs → Forall (v_op_ok es) ops → (128 + 2 * (n + Zlen ops)) * es < 2 ^ 64 →
  ∃ v', v_run v ops = Ok (v', (v_spec_run xs ops).2) ∧
    vec_inv es (n + Zlen ops) v' (v_spec_run xs ops).1.
Proof.
  induction ops as [|op ops IH]; intros n v xs Hinv Hops Hb.
  { exists v. simpl. by rewrite Zlen_nil, Z.add_0_r. }
  apply Forall_cons in Hops as [Hop Hops]. rewrite Zlen_cons in *. pose proof (Zlen_nonneg ops).
  assert (0 < es) by (destruct Hinv as (R & <- & _); apply R).
  cbn [v_run v_spec_run].
  destruct (v_exec_refines es n v xs op) as (v1 & -> & Hinv1); [done..|nia|].
  destruct (v_spec xs op) as [xs1 r1]. simpl in *.
  destruct (IH (n + 1) v1 xs1) as (v2 & -> & Hinv2); [done..|nia|].
  exists v2. replace (n + (1 + Zlen ops)) with (n + 1 + Zlen ops) by lia.
  by destruct (v_spec_run xs1 ops) as [xs2 r2].
Qed.

(** C22: Functional refinement: any sequence of pushes, reads, removals
    from the front, emptyings and size queries on a freshly initialised vector
    runs without a fault (every access is inside the block) and returns what the
    same calls return on a mathematical sequence of elements, as long as the
    byte size of the block fits a [size_t]. *)
Theorem vector_refines_sequence (es : Z) (ops : list v_op) :
  0 < es → Forall (v_op_ok es) ops → (128 + 2 * Zlen ops) * es < 2 ^ 64 →
  ∃ v, v_run (libtrace_vector_init es) ops = Ok (v, (v_spec_run [] ops).2) ∧
    vec_rep v (v_spec_run [] ops).1.
Proof.
  intros Hes Hops Hb. pose proof (Zlen_nonneg ops).
  destruct (v_run_refines es ops 0 (libtrace_vector_init es) []) as (v & -> & R & _); [|done..|].
  - split_and!; [apply vec_rep_init; nia|done..].
  - by exists v.
Qed.

(** [libtrace_vector_apply_function] calls the callback once on each
    element, in order, and stores what it does to it. *)
Theorem vector_apply_function_correct {W} (fn : W → mem → W * mem) (w : W) v xs :
  (∀ w d, Zlen d = v_element_size v → Zlen (fn w d).2 = v_element_size v) →
  vec_rep v xs →
  ∃ v', libtrace_vector_apply_function fn w v = Ok ((apply_seq fn w xs).1, v') ∧
    vec_rep v' (apply_seq fn w xs).2.
Proof.
  intros Hfn R. vec_facts R m Hm Hlen Hpre Hch Hsz Hl.
  unfold libtrace_vector_apply_function. rewrite Hl, Hm, Hsz. cbn [obind pthread_mutex_lock].
  unfold Zlen at 1. rewrite Nat2Z.id.
  destruct (vector_apply_ok fn _ Hfn xs [] w m) as (m' & Hrun & Hl' & Hp'); [done|lia|done..|].
  change (Zlen (@nil mem)) with 0 in Hrun. rewrite Hrun. cbn [obind pthread_mutex_unlock].
  destruct (apply_seq_len fn _ Hfn xs w Hch) as [HF Hn].
  eexists. split; [done|]. split; simpl; try done; [|by rewrite Hn..].
  exists m'. split_and!; [done|lia|done].
Qed.

(** ** Sorting *)
Lemma chunks_concat n : ∀ es (xs : list mem) k,
  Forall (λ x, Zlen x = Z.of_nat es) xs → (n ≤ length xs)%nat →
  chunks n es (concat xs ++ k) = take n xs.
Proof.
  induction n as [|n IH]; intros es xs k HF Hn; [done|].
  destruct HF as [|x xs Hx HF]; simpl in *; [lia|]. unfold Zlen in Hx.
  assert (es = length x) as -> by lia. rewrite <- (assoc_L app), take_app_length, drop_app_length.
  f_equal. apply IH; [done|lia].
Qed.

Section sorting.
Variable qsort : (mem → mem → Z) → list mem → list mem.
Hypothesis qsort_perm : ∀ compar xs, qsort compar xs ≡ₚ xs.

(** What [libtrace_vector_qsort] does: it sorts the first [element_size]
    elements, not the [size] elements of the vector, and leaves the others. *)
Theorem vector_qsort_sorts_prefix v xs compar :
  vec_rep v xs → v_element_size v ≤ Zlen xs →
  let n := Z.to_nat (v_element_size v) in
  ∃ v', libtrace_vector_qsort qsort v compar = Ok v' ∧
    vec_rep v' (qsort compar (take n xs) ++ drop n xs).
Proof using qsort_perm.
  intros R Hle n. vec_facts R m Hm Hlen Hpre Hch Hsz Hl.
  set (es := v_element_size v) in *. unfold libtrace_vector_qsort, mem_qsort.
  rewrite Hl, Hm. fold es. cbn [obind pthread_mutex_lock].
  assert (Forall (λ x, Zlen x = es) (take n xs) ∧ Forall (λ x, Zlen x = es) (drop n xs)) as [HF1 HF2].
  { apply Forall_app. by rewrite take_drop. }
  assert (Zlen (take n xs) = es) as Hn by (unfold Zlen in *; rewrite length_take; lia).
  set (ys := qsort compar (take n xs)).
  assert (Forall (λ x, Zlen x = es) ys) as HF by (unfold ys; by rewrite qsort_perm).
  assert (Zlen ys = es) as Hny by (rewrite <- Hn; unfold Zlen, ys; by rewrite qsort_perm).
  destruct Hpre as [k Hk].
  assert (concat xs = concat (take n xs) ++ concat (drop n xs)) as Hsplit
    by by rewrite <- concat_app, take_drop.
  pose proof (Zlen_concat _ _ HF1) as Hc1. pose proof (Zlen_concat _ _ HF) as Hc.
  rewrite mem_read_ok by nia. cbn [obind].
  destruct (mem_update_chunk [] (concat (take n xs)) (concat (drop n xs)) (concat ys) m)
    as (m' & Hr & Hw & Hl' & Hp'); [exists k; simpl; by rewrite <- Hsplit|congruence|].
  rewrite mem_read_ok, Hc1, Hn in Hr by (change (Zlen (@nil (option Z))) with 0; nia).
  injection Hr as Hr. change (Zlen (@nil (option Z))) with 0 in *. rewrite Hr.
  rewrite <- (app_nil_r (concat (take n xs))), chunks_concat, take_take, Nat.min_id;
    [|by rewrite Z2Nat.id by lia|unfold Zlen in Hn; lia].
  fold n ys. rewrite Hw. cbn [obind pthread_mutex_unlock]. eexists. split; [done|].
  assert (Zlen (ys ++ drop n xs) = Zlen xs) as Hnn.
  { rewrite Zlen_app, Hny, <- Hn, <- Zlen_app. by rewrite take_drop. }
  split; simpl; try done; try (by rewrite Hnn); [|by apply Forall_app].
  exists m'. split_and!; [done|lia|]. by rewrite concat_app.
Qed.

(** The consequence: whatever correct [qsort] is used, there is a vector with a
    total order on its elements that [libtrace_vector_qsort] leaves unsorted. *)
Theorem vector_qsort_leaves_unsorted :
  ∃ v xs compar v' ys,
    vec_rep v xs ∧ libtrace_vector_qsort qsort v compar = Ok v' ∧ vec_rep v' ys ∧
    (∀ a b c, compar a b ≤ 0 → compar b c ≤ 0 → compar a c ≤ 0) ∧
    ¬ Sorted (λ a b, compar a b ≤ 0) ys.
Proof using qsort_perm.
  set (cell k := [Some k; Some 0] : mem).
  set (key (a : mem) := match a with Some k :: _ => k | _ => 0 end).
  set (xs := [cell 3; cell 2; cell 1]).
  set (v := {| v_max_size := 4; v_size := 3; v_element_size := 2;
               v_elements := Some (concat xs ++ [None; None]); v_lock := false |}).
  assert (vec_rep v xs) as R.
  { split; [|by unfold xs; rewrite !Forall_cons, Forall_nil|done..].
    eexists. split_and!; [done..|]. by eexists. }
  destruct (vector_qsort_sorts_prefix v xs (λ a b, key a - key b) R) as (v' & Hrun & R');
    [vm_compute; done|].
  eexists v, xs, (λ a b, key a - key b), v', _. split_and!; [done..|intros; lia|].
  simpl. intros Hs%Sorted_StronglySorted; [|intros a b c; lia].
  apply StronglySorted_app in Hs as (Hrel & _ & _).
  assert (cell 3 ∈ qsort (λ a b, key a - key b) [cell 3; cell 2]) as Hin.
  { rewrite qsort_perm. left. }
  specialize (Hrel _ (cell 1) Hin ltac:(left)). simpl in Hrel. lia.
Qed.
End sorting.

(** ** Instances of the theorems *)
Lemma vector_refines_sequence_witness :
  ∃ v, v_run (libtrace_vector_init 2)
         [VPushBack [Some 1; Some 2]; VPushBack [Some 3; Some 4]; VRemoveFront; VGet 0; VGet 1; VGetSize]
       = Ok (v, [(0, None); (0, None); (1, None); (1, Some [Some 3; Some 4]); (0, None); (1, None)]) ∧
    vec_rep v [[Some 3; Some 4]].
Proof.
  apply (vector_refines_sequence 2
    [VPushBack [Some 1; Some 2]; VPushBack [Some 3; Some 4]; VRemoveFront; VGet 0; VGet 1; VGetSize]).
  - lia.
  - by rewrite !Forall_cons, Forall_nil.
  - by vm_compute.
Defined.

(** A vector of two-byte elements. *)
Definition sample_vector (max : Z) (xs : list mem) : libtrace_vector_t :=
  {| v_max_size := max; v_size := Zlen xs; v_element_size := 2;
     v_elements := Some (concat xs ++ mem_alloc (2 * (max - Zlen xs))); v_lock := false |}.

Lemma vector_append_correct_witness :
  let xs := [[Some 1; Some 2]] in
  let ys := [[Some 3; Some 4]; [Some 5; Some 6]] in
  ∃ dest' src', libtrace_vector_append (sample_vector 1 xs) (sample_vector 2 ys)
    = Ok (dest', src') ∧ vec_rep dest' (xs ++ ys) ∧ vec_rep src' [].
Proof.
  intros xs ys. apply (vector_append_correct (sample_vector 1 xs) (sample_vector 2 ys) xs ys).
  - split; [|by unfold xs; rewrite !Forall_cons, Forall_nil|done..].
    eexists. split_and!; [done..|]. by eexists.
  - split; [|by unfold ys; rewrite !Forall_cons, Forall_nil|done..].
    eexists. split_and!; [done..|]. by eexists.
  - done.
  - done.
  - done.
Defined.

Lemma vector_apply_function_correct_witness :
  let xs := [[Some 1; Some 2]; [Some 3; Some 4]] in
  ∃ v', libtrace_vector_apply_function (λ n d, (n + 1, rev d)) 0 (sample_vector 4 xs) = Ok (2, v') ∧
    vec_rep v' [[Some 2; Some 1]; [Some 4; Some 3]].
Proof.
  intros xs. apply (vector_apply_function_correct (λ n d, (n + 1, rev d)) 0 (sample_vector 4 xs) xs).
  - intros w d Hd. simpl in *. unfold Zlen in *. by rewrite length_rev.
  - split; [|by unfold xs; rewrite !Forall_cons, Forall_nil|done..].
    eexists. split_and!; [done..|]. by eexists.
Defined.

(** A sorting function that can stand for the C library's. *)
Definition sample_qsort (compar : mem → mem → Z) (xs : list mem) : list mem :=
  @merge_sort _ (λ a b, compar a b ≤ 0) (λ a b, Z_le_dec (compar a b) 0) xs.

Lemma vector_qsort_sorts_prefix_witness :
  let xs := [[Some 2; Some 0]; [Some 1; Some 0]; [Some 0; Some 0]] in
  let compar a b := match a, b with Some i :: _, Some j :: _ => i - j | _, _ => 0 end in
  ∃ v', libtrace_vector_qsort sample_qsort (sample_vector 4 xs) compar = Ok v' ∧
    vec_rep v' [[Some 1; Some 0]; [Some 2; Some 0]; [Some 0; Some 0]].
Proof.
  intros xs compar.
  apply (vector_qsort_sorts_prefix sample_qsort) with (v := sample_vector 4 xs) (xs := xs)
    (compar := compar).
  - intros c l. apply merge_sort_Permutation.
  - split; [|by unfold xs; rewrite !Forall_cons, Forall_nil|done..].
    eexists. split_and!; [done..|]. by eexists.
  - done.
Defined.

Lemma vector_qsort_leaves_unsorted_witness :
  ∃ v xs compar v' ys,
    vec_rep v xs ∧ libtrace_vector_qsort sample_qsort v compar = Ok v' ∧ vec_rep v' ys ∧
    (∀ a b c, compar a b ≤ 0 → compar b c ≤ 0 → compar a c ≤ 0) ∧
    ¬ Sorted (λ a b, compar a b ≤ 0) ys.
Proof.
  apply (vector_qsort_leaves_unsorted sample_qsort).
  intros c l. apply merge_sort_Permutation.
Defined.
