(* ===== verification/RingBuffer.v ===== *)
(** * The ring buffer: lib/data-struct/ring_buffer.c

    A bounded FIFO of pointers between one writer and one reader; [start] is
    the next slot to read, [end] the next slot to write, one slot stays unused
    so that [start = end] means empty.  Pointers are numbers, [NULL] is 0.

    This file runs the operations one after the other: where the code would
    wait for the other side (on a condition variable, or polling), the call has
    the outcome [Blocked].  [RingConcurrent.v] interleaves a writer and a
    reader. *)

From S2P Require Import Prelude.
Local Open Scope Z_scope.
Local Open Scope outcome_scope.

Abbreviation LIBTRACE_RINGBUFFER_BLOCKING := 0.
Abbreviation LIBTRACE_RINGBUFFER_POLLING := 1.

Record libtrace_ringbuffer_t := {
  rb_start : Z;
  rb_size : Z;
  rb_mode : Z;
  rb_elements : option (list Z);
  rb_wlock : bool;
  rb_rlock : bool;
  rb_empty_lock : bool;
  rb_full_lock : bool;
  rb_end : Z;
}.

(** ** Assignments to the fields *)
Definition rb_set_start (rb : libtrace_ringbuffer_t) (s : Z) : libtrace_ringbuffer_t :=
  {| rb_start := s; rb_size := rb_size rb; rb_mode := rb_mode rb;
     rb_elements := rb_elements rb; rb_wlock := rb_wlock rb; rb_rlock := rb_rlock rb;
     rb_empty_lock := rb_empty_lock rb; rb_full_lock := rb_full_lock rb;
     rb_end := rb_end rb |}.

Definition rb_set_end (rb : libtrace_ringbuffer_t) (es : list Z) (e : Z)
  : libtrace_ringbuffer_t :=
  {| rb_start := rb_start rb; rb_size := rb_size rb; rb_mode := rb_mode rb;
     rb_elements := Some es; rb_wlock := rb_wlock rb; rb_rlock := rb_rlock rb;
     rb_empty_lock := rb_empty_lock rb; rb_full_lock := rb_full_lock rb; rb_end := e |}.

Definition rb_set_wlock (rb : libtrace_ringbuffer_t) (b : bool) : libtrace_ringbuffer_t :=
  {| rb_start := rb_start rb; rb_size := rb_size rb; rb_mode := rb_mode rb;
     rb_elements := rb_elements rb; rb_wlock := b; rb_rlock := rb_rlock rb;
     rb_empty_lock := rb_empty_lock rb; rb_full_lock := rb_full_lock rb;
     rb_end := rb_end rb |}.

Definition rb_set_rlock (rb : libtrace_ringbuffer_t) (b : bool) : libtrace_ringbuffer_t :=
  {| rb_start := rb_start rb; rb_size := rb_size rb; rb_mode := rb_mode rb;
     rb_elements := rb_elements rb; rb_wlock := rb_wlock rb; rb_rlock := b;
     rb_empty_lock := rb_empty_lock rb; rb_full_lock := rb_full_lock rb;
     rb_end := rb_end rb |}.

(** [rb->elements[i]] *)
Definition rb_elems (rb : libtrace_ringbuffer_t) : outcome (list Z) :=
  match rb_elements rb with None => Fault NullDeref | Some es => Ok es end.

(** ** Operations *)

(** [calloc] fails when the block would be larger than an object can be.  On
    failure the structure keeps what was assigned before. *)
Definition libtrace_ringbuffer_init (rb : libtrace_ringbuffer_t) (size mode : Z)
  : libtrace_ringbuffer_t * Z :=
  let size := u64 (size + 1) in
  if negb (1 <? size) then (rb, -1)
  else if 2 ^ 63 <=? size * 8 then
    ({| rb_start := 0; rb_size := size; rb_mode := rb_mode rb; rb_elements := None;
        rb_wlock := rb_wlock rb; rb_rlock := rb_rlock rb;
        rb_empty_lock := rb_empty_lock rb; rb_full_lock := rb_full_lock rb; rb_end := 0 |}, -1)
  else
    let blocking := mode =? LIBTRACE_RINGBUFFER_BLOCKING in
    ({| rb_start := 0; rb_size := size; rb_mode := mode;
        rb_elements := Some (replicate (Z.to_nat size) 0);
        rb_wlock := false; rb_rlock := false;
        rb_empty_lock := if blocking then false else rb_empty_lock rb;
        rb_full_lock := if blocking then false else rb_full_lock rb; rb_end := 0 |}, 0).

Definition libtrace_ringbuffer_destroy (rb : libtrace_ringbuffer_t) : libtrace_ringbuffer_t :=
  {| rb_start := 0; rb_size := 0; rb_mode := rb_mode rb; rb_elements := None;
     rb_wlock := rb_wlock rb; rb_rlock := rb_rlock rb;
     rb_empty_lock := rb_empty_lock rb; rb_full_lock := rb_full_lock rb; rb_end := 0 |}.

Definition libtrace_ringbuffer_is_empty (rb : libtrace_ringbuffer_t) : bool :=
  rb_start rb =? rb_end rb.

Definition libtrace_ringbuffer_is_full (rb : libtrace_ringbuffer_t) : outcome bool :=
  let! e := umod (u64 (rb_end rb + 1)) (rb_size rb) in
  Ok (rb_start rb =? e).

Definition libtrace_ringbuffer_nb_full (rb : libtrace_ringbuffer_t) : Z :=
  if rb_end rb <? rb_start rb
  then u64 (u64 (rb_end rb + rb_size rb) - rb_start rb)
  else u64 (rb_end rb - rb_start rb).

Definition libtrace_ringbuffer_nb_empty (rb : libtrace_ringbuffer_t) : Z :=
  if rb_start rb <=? rb_end rb
  then u64 (u64 (u64 (rb_start rb + rb_size rb) - rb_end rb) - 1)
  else u64 (u64 (rb_start rb - rb_end rb) - 1).

(** The wait loops end at once or, run alone, never. *)
Definition wait_for_empty (rb : libtrace_ringbuffer_t) : outcome unit :=
  if rb_mode rb =? LIBTRACE_RINGBUFFER_BLOCKING then
    let! held := pthread_mutex_lock (rb_empty_lock rb) in
    let! full := libtrace_ringbuffer_is_full rb in
    if full then Fault Blocked
    else let! _ := pthread_mutex_unlock held in Ok tt
  else
    let! full := libtrace_ringbuffer_is_full rb in
    if full then Fault Blocked else Ok tt.

Definition wait_for_full (rb : libtrace_ringbuffer_t) : outcome unit :=
  if rb_mode rb =? LIBTRACE_RINGBUFFER_BLOCKING then
    let! held := pthread_mutex_lock (rb_full_lock rb) in
    if libtrace_ringbuffer_is_empty rb then Fault Blocked
    else let! _ := pthread_mutex_unlock held in Ok tt
  else
    if libtrace_ringbuffer_is_empty rb then Fault Blocked else Ok tt.

Definition notify_full (rb : libtrace_ringbuffer_t) : outcome unit :=
  if rb_mode rb =? LIBTRACE_RINGBUFFER_BLOCKING then
    let! held := pthread_mutex_lock (rb_full_lock rb) in
    let! _ := pthread_mutex_unlock held in Ok tt
  else Ok tt.

Definition notify_empty (rb : libtrace_ringbuffer_t) : outcome unit :=
  if rb_mode rb =? LIBTRACE_RINGBUFFER_BLOCKING then
    let! held := pthread_mutex_lock (rb_empty_lock rb) in
    let! _ := pthread_mutex_unlock held in Ok tt
  else Ok tt.

Definition libtrace_ringbuffer_write (rb : libtrace_ringbuffer_t) (value : Z)
  : outcome libtrace_ringbuffer_t :=
  let! _ := wait_for_empty rb in
  let! es := rb_elems rb in
  let! es' := aset es (rb_end rb) value in
  let! end' := umod (u64 (rb_end rb + 1)) (rb_size rb) in
  let rb' := rb_set_end rb es' end' in
  let! _ := notify_full rb' in
  Ok rb'.

(** [for (; i < nb_ready; i++) { elements[end] = values[i]; end = (end + 1) % size; }],
    with [n] rounds left. *)
Fixpoint rb_write_loop (n : nat) (values es : list Z) (size i end_ : Z)
  : outcome (list Z * Z * Z) :=
  match n with
  | O => Ok (es, i, end_)
  | S n' =>
      let! v := aget values i in
      let! es' := aset es end_ v in
      let! end' := umod (u64 (end_ + 1)) size in
      rb_write_loop n' values es' size (i + 1) end'
  end.

(** The [do ... while (i < min_nb_buffers)] loop.  Every round but the last
    writes at least one value, so [nb_buffers + 1] rounds are enough. *)
Fixpoint rb_write_rounds (fuel : nat) (rb : libtrace_ringbuffer_t) (values : list Z)
    (nb_buffers min_nb_buffers i : Z) : outcome (libtrace_ringbuffer_t * Z) :=
  match fuel with
  | O => Fault OutOfFuel
  | S fuel' =>
      let! _ := wait_for_empty rb in
      let nb_ready := Z.min (libtrace_ringbuffer_nb_empty rb) (u64 (nb_buffers - i)) in
      let nb_ready := u64 (nb_ready + i) in
      let! es := rb_elems rb in
      let! ' (es', i', end') :=
        rb_write_loop (Z.to_nat (nb_ready - i)) values es (rb_size rb) i (rb_end rb) in
      let rb' := rb_set_end rb es' end' in
      let! _ := notify_full rb' in
      if i' <? min_nb_buffers
      then rb_write_rounds fuel' rb' values nb_buffers min_nb_buffers i'
      else Ok (rb', i')
  end.

Definition libtrace_ringbuffer_write_bulk (rb : libtrace_ringbuffer_t) (values : list Z)
    (nb_buffers min_nb_buffers : Z) : outcome (libtrace_ringbuffer_t * Z) :=
  let! _ := oassert (min_nb_buffers <=? nb_buffers) in
  let! full := if min_nb_buffers =? 0 then libtrace_ringbuffer_is_full rb else Ok false in
  if full then Ok (rb, 0)
  else rb_write_rounds (S (Z.to_nat nb_buffers)) rb values nb_buffers min_nb_buffers 0.

Definition libtrace_ringbuffer_try_write (rb : libtrace_ringbuffer_t) (value : Z)
  : outcome (libtrace_ringbuffer_t * Z) :=
  let! full := libtrace_ringbuffer_is_full rb in
  if full then Ok (rb, 0)
  else let! rb' := libtrace_ringbuffer_write rb value in Ok (rb', 1).

Definition libtrace_ringbuffer_read (rb : libtrace_ringbuffer_t)
  : outcome (libtrace_ringbuffer_t * Z) :=
  let! _ := wait_for_full rb in
  let! es := rb_elems rb in
  let! value := aget es (rb_start rb) in
  let! start' := umod (u64 (rb_start rb + 1)) (rb_size rb) in
  let rb' := rb_set_start rb start' in
  let! _ := notify_empty rb' in
  Ok (rb', value).

Fixpoint rb_read_loop (n : nat) (values es : list Z) (size i start : Z)
  : outcome (list Z * Z * Z) :=
  match n with
  | O => Ok (values, i, start)
  | S n' =>
      let! v := aget es start in
      let! values' := aset values i v in
      let! start' := umod (u64 (start + 1)) size in
      rb_read_loop n' values' es size (i + 1) start'
  end.

Fixpoint rb_read_rounds (fuel : nat) (rb : libtrace_ringbuffer_t) (values : list Z)
    (nb_buffers min_nb_buffers i : Z) : outcome (libtrace_ringbuffer_t * list Z * Z) :=
  match fuel with
  | O => Fault OutOfFuel
  | S fuel' =>
      let! _ := wait_for_full rb in
      let nb_ready := Z.min (libtrace_ringbuffer_nb_full rb) (u64 (nb_buffers - i)) in
      let nb_ready := u64 (nb_ready + i) in
      let! es := rb_elems rb in
      let! ' (values', i', start') :=
        rb_read_loop (Z.to_nat (nb_ready - i)) values es (rb_size rb) i (rb_start rb) in
      let rb' := rb_set_start rb start' in
      let! _ := notify_empty rb' in
      if i' <? min_nb_buffers
      then rb_read_rounds fuel' rb' values' nb_buffers min_nb_buffers i'
      else Ok (rb', values', i')
  end.

(** The result is the buffer, the array [values] after the call and the number
    of values read. *)
Definition libtrace_ringbuffer_read_bulk (rb : libtrace_ringbuffer_t) (values : list Z)
    (nb_buffers min_nb_buffers : Z) : outcome (libtrace_ringbuffer_t * list Z * Z) :=
  let! _ := oassert (min_nb_buffers <=? nb_buffers) in
  if (min_nb_buffers =? 0) && libtrace_ringbuffer_is_empty rb then Ok (rb, values, 0)
  else rb_read_rounds (S (Z.to_nat nb_buffers)) rb values nb_buffers min_nb_buffers 0.

(** 0 leaves the pointed-to value alone ([None]). *)
Definition libtrace_ringbuffer_try_read (rb : libtrace_ringbuffer_t)
  : outcome (libtrace_ringbuffer_t * Z * option Z) :=
  if libtrace_ringbuffer_is_empty rb then Ok (rb, 0, None)
  else let! ' (rb', v) := libtrace_ringbuffer_read rb in Ok (rb', 1, Some v).

(** ** The versions that take the writers' or the readers' lock

    [LOCK(w)] and [TRY_LOCK(w, ...)] both call [pthread_mutex_lock]. *)
Definition with_wlock {R} (rb : libtrace_ringbuffer_t)
    (body : libtrace_ringbuffer_t → outcome (libtrace_ringbuffer_t * R))
  : outcome (libtrace_ringbuffer_t * R) :=
  let! held := pthread_mutex_lock (rb_wlock rb) in
  let! ' (rb', r) := body (rb_set_wlock rb held) in
  let! held := pthread_mutex_unlock (rb_wlock rb') in
  Ok (rb_set_wlock rb' held, r).

Definition with_rlock {R} (rb : libtrace_ringbuffer_t)
    (body : libtrace_ringbuffer_t → outcome (libtrace_ringbuffer_t * R))
  : outcome (libtrace_ringbuffer_t * R) :=
  let! held := pthread_mutex_lock (rb_rlock rb) in
  let! ' (rb', r) := body (rb_set_rlock rb held) in
  let! held := pthread_mutex_unlock (rb_rlock rb') in
  Ok (rb_set_rlock rb' held, r).

Definition libtrace_ringbuffer_swrite (rb : libtrace_ringbuffer_t) (value : Z)
  : outcome (libtrace_ringbuffer_t * unit) :=
  with_wlock rb (λ rb, let! rb' := libtrace_ringbuffer_write rb value in Ok (rb', tt)).

Definition libtrace_ringbuffer_swrite_bulk (rb : libtrace_ringbuffer_t) (values : list Z)
    (nb_buffers min_nb_buffers : Z) : outcome (libtrace_ringbuffer_t * Z) :=
  let! full := if min_nb_buffers =? 0 then libtrace_ringbuffer_is_full rb else Ok false in
  if full then Ok (rb, 0)
  else with_wlock rb (λ rb, libtrace_ringbuffer_write_bulk rb values nb_buffers min_nb_buffers).

Definition libtrace_ringbuffer_try_swrite (rb : libtrace_ringbuffer_t) (value : Z)
  : outcome (libtrace_ringbuffer_t * Z) :=
  let! full := libtrace_ringbuffer_is_full rb in
  if full then Ok (rb, 0)
  else with_wlock rb (λ rb, libtrace_ringbuffer_try_write rb value).

Definition libtrace_ringbuffer_try_swrite_bl (rb : libtrace_ringbuffer_t) (value : Z)
  : outcome (libtrace_ringbuffer_t * Z) :=
  let! full := libtrace_ringbuffer_is_full rb in
  if full then Ok (rb, 0)
  else with_wlock rb (λ rb, libtrace_ringbuffer_try_write rb value).

Definition libtrace_ringbuffer_sread (rb : libtrace_ringbuffer_t)
  : outcome (libtrace_ringbuffer_t * Z) :=
  with_rlock rb libtrace_ringbuffer_read.

Definition libtrace_ringbuffer_sread_bulk (rb : libtrace_ringbuffer_t) (values : list Z)
    (nb_buffers min_nb_buffers : Z) : outcome (libtrace_ringbuffer_t * (list Z * Z)) :=
  if (min_nb_buffers =? 0) && libtrace_ringbuffer_is_empty rb then Ok (rb, (values, 0))
  else with_rlock rb (λ rb,
    let! ' (rb', vs, n) := libtrace_ringbuffer_read_bulk rb values nb_buffers min_nb_buffers in
    Ok (rb', (vs, n))).

Definition libtrace_ringbuffer_try_sread (rb : libtrace_ringbuffer_t)
  : outcome (libtrace_ringbuffer_t * (Z * option Z)) :=
  if libtrace_ringbuffer_is_empty rb then Ok (rb, (0, None))
  else with_rlock rb (λ rb,
    let! ' (rb', r, v) := libtrace_ringbuffer_try_read rb in Ok (rb', (r, v))).

Definition libtrace_ringbuffer_try_sread_bl (rb : libtrace_ringbuffer_t)
  : outcome (libtrace_ringbuffer_t * (Z * option Z)) :=
  if libtrace_ringbuffer_is_empty rb then Ok (rb, (0, None))
  else with_rlock rb (λ rb,
    let! ' (rb', r, v) := libtrace_ringbuffer_try_read rb in Ok (rb', (r, v))).

Definition libtrace_zero_ringbuffer (rb : libtrace_ringbuffer_t) : libtrace_ringbuffer_t :=
  {| rb_start := 0; rb_size := 0; rb_mode := rb_mode rb; rb_elements := None;
     rb_wlock := rb_wlock rb; rb_rlock := rb_rlock rb;
     rb_empty_lock := rb_empty_lock rb; rb_full_lock := rb_full_lock rb; rb_end := 0 |}.

(** ** Ring segments

    The slots from [start] on, modulo [size], hold [xs]; [end] is the slot
    after the last of them. *)
Record ring_seg (es : list Z) (size start end_ : Z) (xs : list Z) : Prop := {
  rs_len : Zlen es = size;
  rs_size : 1 < size < 2 ^ 63;
  rs_start : 0 ≤ start < size;
  rs_room : Zlen xs < size;
  rs_end : end_ = (start + Zlen xs) `mod` size;
  rs_elem : ∀ i x, xs !! i = Some x → es !! Z.to_nat ((start + Z.of_nat i) `mod` size) = Some x;
}.

Lemma ring_seg_end es size start end_ xs :
  ring_seg es size start end_ xs → 0 ≤ end_ < size.
Proof.
  intros R. rewrite (rs_end _ _ _ _ _ R). pose proof (rs_size _ _ _ _ _ R).
  apply Z.mod_pos_bound. lia.
Qed.

(** Storing at [end] appends, provided a slot stays free. *)
Lemma ring_store es size start end_ xs v :
  ring_seg es size start end_ xs → Zlen xs + 1 < size →
  ring_seg (<[Z.to_nat end_ := v]> es) size start ((end_ + 1) `mod` size) (xs ++ [v]).
Proof.
  intros R Hroom. pose proof (ring_seg_end _ _ _ _ _ R) as He.
  destruct R as [Hlen Hsz Hs Hr Hend Hel]. pose proof (Zlen_nonneg xs).
  split; [by rewrite Zlen_insert|done|done|autorewrite with zlen; lia| |].
  - rewrite Hend, Zplus_mod_idemp_l. autorewrite with zlen. f_equal. lia.
  - intros i x [Hx|[Hge Hx]]%lookup_app_Some.
    + rewrite list_lookup_insert_ne; [by apply Hel|].
      apply lookup_lt_Some in Hx. unfold Zlen in *. subst end_.
      rewrite !mod_wrap by lia. intros Heq. revert Heq. bool_cases; lia.
    + apply list_lookup_singleton_Some in Hx as [Hi ->].
      assert (Z.of_nat i = Zlen xs) as -> by (unfold Zlen; lia). rewrite <- Hend.
      apply list_lookup_insert_eq. unfold Zlen in *. lia.
Qed.

(** The slot at [start] holds the first element, and stepping over it removes it. *)
Lemma ring_load es size start end_ x xs :
  ring_seg es size start end_ (x :: xs) →
  es !! Z.to_nat start = Some x ∧ ring_seg es size ((start + 1) `mod` size) end_ xs.
Proof.
  intros [Hlen Hsz Hs Hr Hend Hel]. rewrite Zlen_cons in *. split.
  - specialize (Hel 0%nat x eq_refl). rewrite Z.add_0_r, Z.mod_small in Hel by lia. done.
  - split; [done|done| |lia| |].
    + apply Z.mod_pos_bound. lia.
    + rewrite Hend, Zplus_mod_idemp_l. f_equal. lia.
    + intros i y Hy. rewrite Zplus_mod_idemp_l, <- (Hel (S i) y Hy). do 3 f_equal. lia.
Qed.

Lemma ring_empty_iff es size start end_ xs :
  ring_seg es size start end_ xs → (start =? end_) = bool_decide (xs = []).
Proof.
  intros [Hlen Hsz Hs Hr Hend Hel]. pose proof (Zlen_nonneg xs).
  destruct xs as [|x xs].
  - rewrite bool_decide_eq_true_2, Z.eqb_eq, Hend by done.
    rewrite Zlen_nil, Z.add_0_r, Z.mod_small; lia.
  - rewrite bool_decide_eq_false_2, Z.eqb_neq, Hend by done.
    rewrite Zlen_cons in *. pose proof (Zlen_nonneg xs). rewrite mod_wrap by lia. bool_cases; lia.
Qed.

Lemma ring_full_iff es size start end_ xs :
  ring_seg es size start end_ xs →
  (start =? (end_ + 1) `mod` size) = (Zlen xs + 1 =? size).
Proof.
  intros [Hlen Hsz Hs Hr Hend Hel]. pose proof (Zlen_nonneg xs).
  rewrite Hend, Zplus_mod_idemp_l.
  destruct (Z.eqb_spec (Zlen xs + 1) size) as [Heq|Hne].
  - rewrite Z.eqb_eq, mod_wrap by lia. bool_cases; lia.
  - rewrite Z.eqb_neq, mod_wrap by lia. bool_cases; lia.
Qed.

(** ** A ring buffer that holds a sequence *)
Record rb_rep (rb : libtrace_ringbuffer_t) (xs : list Z) : Prop := {
  rr_seg : ∃ es, rb_elements rb = Some es ∧
             ring_seg es (rb_size rb) (rb_start rb) (rb_end rb) xs;
  rr_empty_lock : rb_empty_lock rb = false;
  rr_full_lock : rb_full_lock rb = false;
}.

(** The number of elements the buffer can hold. *)
Definition rb_capacity (rb : libtrace_ringbuffer_t) : Z := rb_size rb - 1.

Section rep.
Context (rb : libtrace_ringbuffer_t) (xs : list Z) (R : rb_rep rb xs).

Lemma rb_is_empty_rep : libtrace_ringbuffer_is_empty rb = bool_decide (xs = []).
Proof using R. destruct (rr_seg _ _ R) as (es & _ & S). by eapply ring_empty_iff. Qed.

Lemma rb_is_full_rep : libtrace_ringbuffer_is_full rb = Ok (Zlen xs =? rb_capacity rb).
Proof using R.
  destruct (rr_seg _ _ R) as (es & _ & S). pose proof (ring_seg_end _ _ _ _ _ S).
  pose proof (rs_size _ _ _ _ _ S). unfold libtrace_ringbuffer_is_full, rb_capacity.
  rewrite u64_small, umod_ok by lia. simpl. f_equal. rewrite (ring_full_iff _ _ _ _ _ S).
  destruct (Z.eqb_spec (Zlen xs + 1) (rb_size rb)), (Z.eqb_spec (Zlen xs) (rb_size rb - 1)); lia.
Qed.

Lemma rb_bounds : 0 < rb_capacity rb < 2 ^ 63 ∧ 0 ≤ Zlen xs ≤ rb_capacity rb.
Proof using R.
  destruct (rr_seg _ _ R) as (es & _ & S). pose proof (rs_size _ _ _ _ _ S).
  pose proof (rs_room _ _ _ _ _ S). pose proof (Zlen_nonneg xs). unfold rb_capacity. lia.
Qed.

Lemma rb_wait_for_empty_rep :
  wait_for_empty rb = if Zlen xs =? rb_capacity rb then Fault Blocked else Ok tt.
Proof using R.
  unfold wait_for_empty. rewrite rb_is_full_rep, (rr_empty_lock _ _ R). simpl.
  by destruct (rb_mode rb =? _), (Zlen xs =? rb_capacity rb).
Qed.

Lemma rb_wait_for_full_rep :
  wait_for_full rb = if bool_decide (xs = []) then Fault Blocked else Ok tt.
Proof using R.
  unfold wait_for_full. rewrite rb_is_empty_rep, (rr_full_lock _ _ R). simpl.
  by destruct (rb_mode rb =? _), (bool_decide (xs = [])).
Qed.

Lemma rb_notify_full_rep : notify_full rb = Ok tt.
Proof using R. unfold notify_full. rewrite (rr_full_lock _ _ R). by destruct (_ =? _). Qed.

Lemma rb_notify_empty_rep : notify_empty rb = Ok tt.
Proof using R. unfold notify_empty. rewrite (rr_empty_lock _ _ R). by destruct (_ =? _). Qed.

(** The two counting functions, and the closed forms their comments give. *)
Lemma rb_nb_full_rep : libtrace_ringbuffer_nb_full rb = Zlen xs.
Proof using R.
  destruct (rr_seg _ _ R) as (es & _ & [Hlen Hsz Hs Hr Hend Hel]).
  pose proof (Zlen_nonneg xs). unfold libtrace_ringbuffer_nb_full. rewrite Hend, mod_wrap by lia.
  rewrite u64_sub_l. destruct (Z.ltb_spec (rb_start rb + Zlen xs) (rb_size rb));
    bool_cases; rewrite u64_small; lia.
Qed.

Lemma rb_nb_empty_rep : libtrace_ringbuffer_nb_empty rb = rb_capacity rb - Zlen xs.
Proof using R.
  destruct (rr_seg _ _ R) as (es & _ & [Hlen Hsz Hs Hr Hend Hel]).
  pose proof (Zlen_nonneg xs). unfold libtrace_ringbuffer_nb_empty, rb_capacity.
  rewrite Hend, mod_wrap by lia.
  rewrite (u64_small (rb_start rb + rb_size rb)), !u64_sub_l by lia.
  destruct (Z.ltb_spec (rb_start rb + Zlen xs) (rb_size rb)); bool_cases; rewrite u64_small; lia.
Qed.
End rep.

Lemma rb_rep_set_end rb xs es e ys :
  rb_rep rb xs → ring_seg es (rb_size rb) (rb_start rb) e ys → rb_rep (rb_set_end rb es e) ys.
Proof. intros R S. split; [by exists es|apply R..]. Qed.

Lemma rb_rep_set_start rb xs es s ys :
  rb_rep rb xs → rb_elements rb = Some es → ring_seg es (rb_size rb) s (rb_end rb) ys →
  rb_rep (rb_set_start rb s) ys.
Proof. intros R He S. split; [by exists es|apply R..]. Qed.

Lemma rb_init_rep rb0 size mode :
  0 < size < 2 ^ 59 →
  rb_empty_lock rb0 = false → rb_full_lock rb0 = false →
  ∃ rb, libtrace_ringbuffer_init rb0 size mode = (rb, 0) ∧ rb_rep rb [] ∧
    rb_capacity rb = size ∧ rb_wlock rb = false ∧ rb_rlock rb = false.
Proof.
  intros Hs H1 H2. unfold libtrace_ringbuffer_init. rewrite u64_small by lia.
  rewrite (proj2 (Z.ltb_lt 1 _)) by lia. cbn [negb].
  destruct (Z.leb_spec (2 ^ 63) ((size + 1) * 8)); [lia|].
  eexists. split; [done|]. unfold rb_capacity. simpl. split_and!; [|lia|done..].
  split; simpl; [|rewrite H1; by destruct (_ =? _)|rewrite H2; by destruct (_ =? _)].
  eexists. split; [done|]. split; [|lia|lia|rewrite Zlen_nil; lia| |done].
  - rewrite Zlen_replicate. lia.
  - rewrite Z.mod_small; unfold Zlen; simpl; lia.
Qed.

(** ** What the operations do *)
Lemma rb_write_rep rb xs v :
  rb_rep rb xs → Zlen xs < rb_capacity rb →
  ∃ es e, libtrace_ringbuffer_write rb v = Ok (rb_set_end rb es e) ∧
    rb_rep (rb_set_end rb es e) (xs ++ [v]).
Proof.
  intros R Hlt. unfold libtrace_ringbuffer_write. rewrite (rb_wait_for_empty_rep _ _ R).
  rewrite (proj2 (Z.eqb_neq _ _)) by lia. cbn [obind].
  destruct (rr_seg _ _ R) as (es & He & S). unfold rb_elems. rewrite He. cbn [obind].
  pose proof (ring_seg_end _ _ _ _ _ S). pose proof (rs_size _ _ _ _ _ S).
  pose proof (rs_len _ _ _ _ _ S). unfold rb_capacity in Hlt.
  rewrite aset_ok, u64_small, umod_ok by lia. cbn [obind].
  assert (rb_rep (rb_set_end rb (<[Z.to_nat (rb_end rb) := v]> es)
    ((rb_end rb + 1) `mod` rb_size rb)) (xs ++ [v])) as R'.
  { eapply rb_rep_set_end; [done|]. apply ring_store; [done|lia]. }
  rewrite (rb_notify_full_rep _ _ R'). by do 2 eexists.
Qed.

Lemma rb_write_full rb xs v :
  rb_rep rb xs → Zlen xs = rb_capacity rb → libtrace_ringbuffer_write rb v = Fault Blocked.
Proof.
  intros R Heq. unfold libtrace_ringbuffer_write.
  by rewrite (rb_wait_for_empty_rep _ _ R), Heq, Z.eqb_refl.
Qed.

Lemma rb_read_rep rb x xs :
  rb_rep rb (x :: xs) →
  ∃ s, libtrace_ringbuffer_read rb = Ok (rb_set_start rb s, x) ∧
    rb_rep (rb_set_start rb s) xs.
Proof.
  intros R. unfold libtrace_ringbuffer_read. rewrite (rb_wait_for_full_rep _ _ R).
  rewrite bool_decide_eq_false_2 by done. cbn [obind].
  destruct (rr_seg _ _ R) as (es & He & S). unfold rb_elems. rewrite He. cbn [obind].
  destruct (ring_load _ _ _ _ _ _ S) as [Hx S']. pose proof (rs_start _ _ _ _ _ S).
  pose proof (rs_size _ _ _ _ _ S).
  rewrite (aget_ok _ _ x), u64_small, umod_ok by (done || lia). cbn [obind].
  assert (rb_rep (rb_set_start rb ((rb_start rb + 1) `mod` rb_size rb)) xs) as R'.
  { by eapply rb_rep_set_start. }
  rewrite (rb_notify_empty_rep _ _ R'). by eexists.
Qed.

Lemma rb_read_empty rb : rb_rep rb [] → libtrace_ringbuffer_read rb = Fault Blocked.
Proof. intros R. unfold libtrace_ringbuffer_read. by rewrite (rb_wait_for_full_rep _ _ R). Qed.

(** ** Bulk operations *)
Lemma rb_write_loop_ok n : ∀ values es size start i e xs,
  ring_seg es size start e xs → Zlen xs + Z.of_nat n < size →
  0 ≤ i → i + Z.of_nat n ≤ Zlen values →
  ∃ es' e', rb_write_loop n values es size i e = Ok (es', i + Z.of_nat n, e') ∧
    ring_seg es' size start e' (xs ++ take n (drop (Z.to_nat i) values)).
Proof.
  induction n as [|n IH]; intros values es size start i e xs S Hroom Hi Hv; cbn [rb_write_loop].
  { exists es, e. rewrite Z.add_0_r, take_0, app_nil_r. done. }
  destruct (aget_total values i) as (v & Hvi & ->); [lia|]. cbn [obind].
  pose proof (ring_seg_end _ _ _ _ _ S). pose proof (rs_size _ _ _ _ _ S).
  pose proof (rs_len _ _ _ _ _ S).
  rewrite aset_ok, u64_small, umod_ok by lia. cbn [obind].
  pose proof (ring_store _ _ _ _ _ v S ltac:(lia)) as S1.
  destruct (IH values _ size start (i + 1) _ (xs ++ [v]) S1) as (es' & e' & -> & S');
    [autorewrite with zlen; lia|lia|lia|].
  exists es', e'. split; [do 3 f_equal; lia|].
  rewrite (drop_S _ v) by done. simpl. rewrite <- (assoc_L app) in S'. simpl in S'.
  by replace (Z.to_nat (i + 1)) with (Datatypes.S (Z.to_nat i)) in S' by lia.
Qed.

Lemma rb_read_loop_ok n : ∀ values es size start i e xs,
  ring_seg es size start e xs → (n ≤ length xs)%nat →
  0 ≤ i → i + Z.of_nat n ≤ Zlen values →
  ∃ s', rb_read_loop n values es size i start
      = Ok (take (Z.to_nat i) values ++ take n xs ++ drop (Z.to_nat i + n) values,
            i + Z.of_nat n, s') ∧
    ring_seg es size s' e (drop n xs).
Proof.
  induction n as [|n IH]; intros values es size start i e xs S Hn Hi Hv; cbn [rb_read_loop].
  { exists start. rewrite Z.add_0_r, Nat.add_0_r, take_0. simpl. by rewrite take_drop. }
  destruct xs as [|x xs]; simpl in Hn; [lia|].
  destruct (ring_load _ _ _ _ _ _ S) as [Hx S1]. pose proof (rs_start _ _ _ _ _ S).
  pose proof (rs_size _ _ _ _ _ S).
  rewrite (aget_ok _ _ x) by (done || lia). cbn [obind].
  rewrite aset_ok, u64_small, umod_ok by lia. cbn [obind].
  destruct (IH (<[Z.to_nat i := x]> values) es size _ (i + 1) e xs S1) as (s' & -> & S');
    [lia|lia|rewrite Zlen_insert; lia|].
  exists s'. split; [|done]. do 3 f_equal; [|lia].
  replace (Z.to_nat (i + 1)) with (Datatypes.S (Z.to_nat i)) by lia.
  unfold Zlen in Hv. rewrite (take_S_r _ _ x) by (apply list_lookup_insert_eq; lia).
  rewrite take_insert_ge, drop_insert_lt by lia.
  rewrite <- (assoc_L app). simpl. do 4 f_equal. lia.
Qed.

Lemma rb_read_rounds_ok fuel rb xs values nb mn :
  rb_rep rb xs → 0 ≤ mn ≤ nb → nb < 2 ^ 64 → nb ≤ Zlen values → (Z.to_nat nb < fuel)%nat →
  (mn = 0 → xs ≠ []) →
  let k := Z.min (Zlen xs) nb in
  rb_read_rounds fuel rb values nb mn 0 = Fault Blocked ∧ Zlen xs < mn ∨
  mn ≤ Zlen xs ∧ ∃ s, rb_read_rounds fuel rb values nb mn 0
    = Ok (rb_set_start rb s, take (Z.to_nat k) xs ++ drop (Z.to_nat k) values, k) ∧
    rb_rep (rb_set_start rb s) (drop (Z.to_nat k) xs).
Proof.
  intros R Hmn Hnb Hv Hf Hne k. pose proof (rb_bounds _ _ R).
  destruct fuel as [|fuel]; [lia|]. cbn [rb_read_rounds].
  rewrite (rb_wait_for_full_rep _ _ R). case_bool_decide as Hxs.
  { left. subst xs. change (Zlen (@nil Z)) with 0 in *. split; [done|]. destruct (Z.eq_dec mn 0); [naive_solver|lia]. }
  cbn [obind]. rewrite (rb_nb_full_rep _ _ R), (Z.sub_0_r nb), (u64_small nb), Z.add_0_r by lia.
  fold k. rewrite u64_small, Z.sub_0_r by lia.
  destruct (rr_seg _ _ R) as (es & He & S). unfold rb_elems. rewrite He. cbn [obind].
  destruct (rb_read_loop_ok (Z.to_nat k) values es _ _ 0 _ xs S) as (s' & -> & S');
    [unfold Zlen in *; lia|lia|lia|]. cbn [obind]. simpl take. simpl Nat.add.
  assert (rb_rep (rb_set_start rb s') (drop (Z.to_nat k) xs)) as R' by by eapply rb_rep_set_start.
  rewrite (rb_notify_empty_rep _ _ R'). cbn [obind]. rewrite Z.add_0_l, Z2Nat.id by lia.
  destruct (Z.ltb_spec k mn) as [Hlt|Hge].
  - left. destruct fuel as [|fuel]; [lia|]. cbn [rb_read_rounds]. rewrite (rb_wait_for_full_rep _ _ R').
    rewrite bool_decide_eq_true_2; [split; [done|lia]|].
    apply drop_ge. unfold Zlen in *. lia.
  - right. split; [lia|]. by exists s'.
Qed.

Lemma rb_write_rounds_ok fuel rb xs values nb mn :
  rb_rep rb xs → 0 ≤ mn ≤ nb → nb < 2 ^ 64 → nb ≤ Zlen values → (Z.to_nat nb < fuel)%nat →
  (mn = 0 → Zlen xs ≠ rb_capacity rb) →
  let k := Z.min (rb_capacity rb - Zlen xs) nb in
  rb_write_rounds fuel rb values nb mn 0 = Fault Blocked ∧ rb_capacity rb - Zlen xs < mn ∨
  mn ≤ rb_capacity rb - Zlen xs ∧ ∃ es e, rb_write_rounds fuel rb values nb mn 0
    = Ok (rb_set_end rb es e, k) ∧
    rb_rep (rb_set_end rb es e) (xs ++ take (Z.to_nat k) values).
Proof.
  intros R Hmn Hnb Hv Hf Hne k. pose proof (rb_bounds _ _ R).
  destruct fuel as [|fuel]; [lia|]. cbn [rb_write_rounds].
  rewrite (rb_wait_for_empty_rep _ _ R). destruct (Z.eqb_spec (Zlen xs) (rb_capacity rb)).
  { left. split; [done|]. destruct (Z.eq_dec mn 0); [naive_solver|lia]. }
  cbn [obind]. rewrite (rb_nb_empty_rep _ _ R), (Z.sub_0_r nb), (u64_small nb), Z.add_0_r by lia.
  fold k. rewrite u64_small, Z.sub_0_r by lia.
  destruct (rr_seg _ _ R) as (es & He & S). unfold rb_elems. rewrite He. cbn [obind].
  destruct (rb_write_loop_ok (Z.to_nat k) values es _ _ 0 _ xs S) as (es' & e' & -> & S');
    [unfold rb_capacity in *; lia|lia|lia|]. cbn [obind]. rewrite drop_0 in S'.
  assert (rb_rep (rb_set_end rb es' e') (xs ++ take (Z.to_nat k) values)) as R'
    by by eapply rb_rep_set_end.
  rewrite (rb_notify_full_rep _ _ R'). cbn [obind]. rewrite Z.add_0_l, Z2Nat.id by lia.
  destruct (Z.ltb_spec k mn) as [Hlt|Hge].
  - left. destruct fuel as [|fuel]; [lia|]. cbn [rb_write_rounds]. rewrite (rb_wait_for_empty_rep _ _ R').
    unfold rb_capacity in *. simpl. rewrite Zlen_app, (proj2 (Z.eqb_eq _ _)); [split; [done|lia]|].
    unfold Zlen in *. rewrite length_take. lia.
  - right. split; [lia|]. by exists es', e'.
Qed.

(** ** Refinement of a bounded FIFO *)
Inductive rb_op :=
| RWrite (v : Z)
| RTryWrite (v : Z)
| RWriteBulk (values : list Z) (nb_buffers min_nb_buffers : Z)
| RRead
| RTryRead
| RReadBulk (values : list Z) (nb_buffers min_nb_buffers : Z)
| RIsEmpty
| RIsFull.

(** What a call gives back: a return value and the values it stores. *)
Abbreviation rb_ret := (Z * list Z)%type.

Definition rb_exec (rb : libtrace_ringbuffer_t) (op : rb_op)
  : outcome (libtrace_ringbuffer_t * rb_ret) :=
  match op with
  | RWrite v => let! rb' := libtrace_ringbuffer_write rb v in Ok (rb', (0, []))
  | RTryWrite v => let! ' (rb', r) := libtrace_ringbuffer_try_write rb v in Ok (rb', (r, []))
  | RWriteBulk vs nb mn =>
      let! ' (rb', n) := libtrace_ringbuffer_write_bulk rb vs nb mn in Ok (rb', (n, []))
  | RRead => let! ' (rb', v) := libtrace_ringbuffer_read rb in Ok (rb', (0, [v]))
  | RTryRead =>
      let! ' (rb', r, v) := libtrace_ringbuffer_try_read rb in Ok (rb', (r, option_list v))
  | RReadBulk vs nb mn =>
      let! ' (rb', vs', n) := libtrace_ringbuffer_read_bulk rb vs nb mn in Ok (rb', (n, vs'))
  | RIsEmpty => Ok (rb, (Z.b2z (libtrace_ringbuffer_is_empty rb), []))
  | RIsFull => let! b := libtrace_ringbuffer_is_full rb in Ok (rb, (Z.b2z b, []))
  end.

(** The specification: a queue of at most [cap] values.  The blocking calls
    block exactly when the queue cannot serve them; bulk calls transfer as many
    values as they can, at least the minimum asked for. *)
Definition fifo (cap : Z) (xs : list Z) (op : rb_op) : outcome (list Z * rb_ret) :=
  match op with
  | RWrite v => if Zlen xs <? cap then Ok (xs ++ [v], (0, [])) else Fault Blocked
  | RTryWrite v => if Zlen xs <? cap then Ok (xs ++ [v], (1, [])) else Ok (xs, (0, []))
  | RWriteBulk vs nb mn =>
      if mn <=? cap - Zlen xs then
        let k := Z.min (cap - Zlen xs) nb in Ok (xs ++ take (Z.to_nat k) vs, (k, []))
      else Fault Blocked
  | RRead => match xs with [] => Fault Blocked | x :: xs' => Ok (xs', (0, [x])) end
  | RTryRead => match xs with [] => Ok ([], (0, [])) | x :: xs' => Ok (xs', (1, [x])) end
  | RReadBulk vs nb mn =>
      if mn <=? Zlen xs then
        let k := Z.min (Zlen xs) nb in
        Ok (drop (Z.to_nat k) xs, (k, take (Z.to_nat k) xs ++ drop (Z.to_nat k) vs))
      else Fault Blocked
  | RIsEmpty => Ok (xs, (Z.b2z (bool_decide (xs = [])), []))
  | RIsFull => Ok (xs, (Z.b2z (Zlen xs =? cap), []))
  end.

(** Calls as the callers make them: the array has [nb_buffers] entries and the
    minimum is not larger. *)
Definition rb_op_ok (op : rb_op) : Prop :=
  match op with
  | RWriteBulk vs nb mn | RReadBulk vs nb mn => 0 ≤ mn ≤ nb ∧ nb ≤ Zlen vs ∧ nb < 2 ^ 64
  | _ => True
  end.

(** The two runs agree: same fault, or same result and related states. *)
Definition rb_related (cap : Z) {R} (c : outcome (libtrace_ringbuffer_t * R))
    (a : outcome (list Z * R)) : Prop :=
  match c, a with
  | Ok (rb, r), Ok (xs, r') => r = r' ∧ rb_rep rb xs ∧ rb_capacity rb = cap
  | Fault f, Fault f' => f = f'
  | _, _ => False
  end.

Lemma rb_write_related rb xs v :
  rb_rep rb xs →
  match libtrace_ringbuffer_write rb v with
  | Ok rb' => Zlen xs < rb_capacity rb ∧ rb_rep rb' (xs ++ [v]) ∧ rb_capacity rb' = rb_capacity rb
  | Fault f => f = Blocked ∧ Zlen xs = rb_capacity rb
  end.
Proof.
  intros R. pose proof (rb_bounds _ _ R).
  destruct (Z.eq_dec (Zlen xs) (rb_capacity rb)) as [Heq|Hne].
  - by rewrite (rb_write_full rb xs v R Heq).
  - destruct (rb_write_rep rb xs v R) as (es & e & -> & R'); [lia|]. split; [lia|done].
Qed.

Lemma rb_write_bulk_related rb xs vs nb mn :
  rb_rep rb xs → rb_op_ok (RWriteBulk vs nb mn) →
  rb_related (rb_capacity rb) (rb_exec rb (RWriteBulk vs nb mn))
    (fifo (rb_capacity rb) xs (RWriteBulk vs nb mn)).
Proof.
  intros R (? & ? & ?). pose proof (rb_bounds _ _ R). cbn [rb_exec fifo]. unfold libtrace_ringbuffer_write_bulk.
  rewrite (proj2 (Z.leb_le mn nb)), (rb_is_full_rep _ _ R) by lia. cbn [oassert obind].
  destruct (Z.eqb_spec mn 0) as [->|]; cbn [obind].
  { destruct (Z.eqb_spec (Zlen xs) (rb_capacity rb)) as [Heq|Hne].
    - rewrite (proj2 (Z.leb_le _ _)) by lia. simpl. rewrite Heq, Z.sub_diag, Z.min_l by lia.
      simpl. by rewrite app_nil_r.
    - destruct (rb_write_rounds_ok (S (Z.to_nat nb)) rb xs vs nb 0) as
        [[_ ?]|(_ & es & e & -> & R')]; [done|lia..| |]; [lia|].
      by rewrite (proj2 (Z.leb_le _ _)) by lia. }
  destruct (rb_write_rounds_ok (S (Z.to_nat nb)) rb xs vs nb mn) as
    [[-> ?]|(? & es & e & -> & R')]; [done|lia..| |].
  + by rewrite (proj2 (Z.leb_gt _ _)) by lia.
  + by rewrite (proj2 (Z.leb_le _ _)) by lia.
Qed.

Lemma rb_read_bulk_related rb xs vs nb mn :
  rb_rep rb xs → rb_op_ok (RReadBulk vs nb mn) →
  rb_related (rb_capacity rb) (rb_exec rb (RReadBulk vs nb mn))
    (fifo (rb_capacity rb) xs (RReadBulk vs nb mn)).
Proof.
  intros R (? & ? & ?). pose proof (rb_bounds _ _ R). cbn [rb_exec fifo]. unfold libtrace_ringbuffer_read_bulk.
  rewrite (proj2 (Z.leb_le mn nb)), (rb_is_empty_rep _ _ R) by lia. cbn [oassert obind].
  destruct (Z.eqb_spec mn 0) as [->|].
  { case_bool_decide as Hxs; cbn [andb].
    - subst xs. change (Zlen (@nil Z)) with 0. rewrite (proj2 (Z.leb_le _ _)), Z.min_l by lia.
      by rewrite drop_0.
    - destruct (rb_read_rounds_ok (S (Z.to_nat nb)) rb xs vs nb 0) as
        [[_ ?]|(_ & s & -> & R')]; [done|lia..|done|lia|].
      by rewrite (proj2 (Z.leb_le _ _)) by lia. }
  destruct (rb_read_rounds_ok (S (Z.to_nat nb)) rb xs vs nb mn) as
    [[-> ?]|(? & s & -> & R')]; [done|lia..| |].
  + by rewrite (proj2 (Z.leb_gt _ _)) by lia.
  + by rewrite (proj2 (Z.leb_le _ _)) by lia.
Qed.

Lemma rb_exec_refines rb xs op :
  rb_rep rb xs → rb_op_ok op →
  rb_related (rb_capacity rb) (rb_exec rb op) (fifo (rb_capacity rb) xs op).
Proof.
  intros R Hop. pose proof (rb_bounds _ _ R).
  destruct op as [v|v|vs nb mn| | |vs nb mn| |]; cbn [rb_exec fifo].
  - pose proof (rb_write_related rb xs v R) as Hw. destruct (libtrace_ringbuffer_write rb v).
    + destruct Hw as (? & ? & ?). by rewrite (proj2 (Z.ltb_lt _ _)).
    + destruct Hw as [-> ?]. rewrite (proj2 (Z.ltb_ge _ _)) by lia. done.
  - unfold libtrace_ringbuffer_try_write. rewrite (rb_is_full_rep _ _ R). cbn [obind].
    destruct (Z.eqb_spec (Zlen xs) (rb_capacity rb)).
    { by rewrite (proj2 (Z.ltb_ge _ _)) by lia. }
    destruct (rb_write_rep rb xs v R) as (es & e & -> & R'); [lia|].
    by rewrite (proj2 (Z.ltb_lt _ _)) by lia.
  - by apply rb_write_bulk_related.
  - destruct xs as [|x xs]; [by rewrite (rb_read_empty rb R)|].
    by destruct (rb_read_rep rb x xs R) as (s & -> & R').
  - unfold libtrace_ringbuffer_try_read. rewrite (rb_is_empty_rep _ _ R).
    destruct xs as [|x xs]; [done|].
    rewrite bool_decide_eq_false_2 by done. by destruct (rb_read_rep rb x xs R) as (s & -> & R').
  - by apply rb_read_bulk_related.
  - by rewrite (rb_is_empty_rep _ _ R).
  - by rewrite (rb_is_full_rep _ _ R).
Qed.

Fixpoint rb_run (rb : libtrace_ringbuffer_t) (ops : list rb_op)
  : outcome (libtrace_ringbuffer_t * list rb_ret) :=
  match ops with
  | [] => Ok (rb, [])
  | op :: ops' =>
      let! ' (rb1, r) := rb_exec rb op in
      let! ' (rb2, rs) := rb_run rb1 ops' in
      Ok (rb2, r :: rs)
  end.

Fixpoint fifo_run (cap : Z) (xs : list Z) (ops : list rb_op) : outcome (list Z * list rb_ret) :=
  match ops with
  | [] => Ok (xs, [])
  | op :: ops' =>
      let! ' (xs1, r) := fifo cap xs op in
      let! ' (xs2, rs) := fifo_run cap xs1 ops' in
      Ok (xs2, r :: rs)
  end.

Lemma rb_run_refines ops : ∀ rb xs,
  rb_rep rb xs → Forall rb_op_ok ops →
  rb_related (rb_capacity rb) (rb_run rb ops) (fifo_run (rb_capacity rb) xs ops).
Proof.
  induction ops as [|op ops IH]; intros rb xs R Hops; [done|].
  apply Forall_cons in Hops as [Hop Hops]. cbn [rb_run fifo_run].
  pose proof (rb_exec_refines rb xs op R Hop) as He.
  destruct (rb_exec rb op) as [[rb1 r]|], (fifo (rb_capacity rb) xs op) as [[xs1 r']|];
    try done; simpl in He |- *.
  destruct He as (-> & R1 & <-). specialize (IH rb1 xs1 R1 Hops).
  destruct (rb_run rb1 ops) as [[rb2 rs]|], (fifo_run (rb_capacity rb1) xs1 ops) as [[xs2 rs']|];
    try done; simpl in IH |- *. destruct IH as (-> & ? & ?). done.
Qed.

(** C1: Refinement: on a buffer initialised for [size] elements, any
    sequence of writes, reads, their non-blocking and bulk versions and the
    emptiness and fullness tests returns what a FIFO queue bounded by [size]
    returns: values come out in the order they went in, none is overwritten or
    lost, a call blocks exactly when the queue cannot serve it, and no access
    leaves the array. *)
Theorem ringbuffer_refines_bounded_fifo rb0 size mode ops :
  0 < size < 2 ^ 59 → rb_empty_lock rb0 = false → rb_full_lock rb0 = false →
  Forall rb_op_ok ops →
  ∃ rb, libtrace_ringbuffer_init rb0 size mode = (rb, 0) ∧
    rb_related size (rb_run rb ops) (fifo_run size [] ops).
Proof.
  intros Hs H1 H2 Hops.
  destruct (rb_init_rep rb0 size mode Hs H1 H2) as (rb & Hinit & R & Hcap & _).
  exists rb. split; [done|]. rewrite <- Hcap. by apply rb_run_refines.
Qed.

(** [libtrace_ringbuffer_init] refuses exactly the sizes for which
    no usable buffer exists: 0, and those for which [size + 1] elements cannot be
    counted or stored; in particular the wrap-around of [size + 1] is caught. *)
Theorem ringbuffer_init_result rb0 size mode :
  0 ≤ size < 2 ^ 64 →
  ((libtrace_ringbuffer_init rb0 size mode).2 = 0 ↔ 0 < size ∧ (size + 1) * 8 < 2 ^ 63) ∧
  ((libtrace_ringbuffer_init rb0 size mode).2 = 0 ∨
   (libtrace_ringbuffer_init rb0 size mode).2 = -1).
Proof.
  intros Hs. unfold libtrace_ringbuffer_init.
  destruct (Z.eq_dec size SIZE_MAX) as [->|Hne]; [by vm_compute; intuition|].
  rewrite u64_small by lia. destruct (Z.ltb_spec 1 (size + 1)); simpl; [|lia].
  destruct (Z.leb_spec (2 ^ 63) ((size + 1) * 8)); simpl; lia.
Qed.

(** The counting functions agree with the closed forms their
    comments give, on every buffer in use. *)
Theorem ringbuffer_counts_closed_form rb xs :
  rb_rep rb xs →
  libtrace_ringbuffer_nb_full rb
    = (rb_end rb + rb_size rb - rb_start rb) `mod` rb_size rb ∧
  libtrace_ringbuffer_nb_empty rb
    = (rb_start rb + rb_size rb - rb_end rb - 1) `mod` rb_size rb ∧
  libtrace_ringbuffer_nb_full rb + libtrace_ringbuffer_nb_empty rb = rb_capacity rb.
Proof.
  intros R. rewrite (rb_nb_full_rep _ _ R), (rb_nb_empty_rep _ _ R).
  destruct (rr_seg _ _ R) as (es & _ & [Hlen Hsz Hs Hr Hend Hel]). pose proof (Zlen_nonneg xs).
  unfold rb_capacity. rewrite Hend, (mod_wrap (_ + Zlen xs)) by lia.
  destruct (Z.ltb_spec (rb_start rb + Zlen xs) (rb_size rb)); rewrite !mod_wrap by lia;
    bool_cases; lia.
Qed.

(** ** The locking versions

    A function that neither reads nor changes the lock it is called under. *)
Definition wlock_blind {R} (f : libtrace_ringbuffer_t → outcome (libtrace_ringbuffer_t * R)) : Prop :=
  ∀ rb b, f (rb_set_wlock rb b) = let! ' (rb', r) := f rb in Ok (rb_set_wlock rb' b, r).

Definition rlock_blind {R} (f : libtrace_ringbuffer_t → outcome (libtrace_ringbuffer_t * R)) : Prop :=
  ∀ rb b, f (rb_set_rlock rb b) = let! ' (rb', r) := f rb in Ok (rb_set_rlock rb' b, r).

Lemma with_wlock_free {R} (f : _ → outcome (_ * R)) rb :
  wlock_blind f → rb_wlock rb = false → with_wlock rb f = f rb.
Proof.
  intros Hb Hw. unfold with_wlock. rewrite Hw. simpl. rewrite Hb.
  pose proof (Hb rb false) as Hf. replace (rb_set_wlock rb false) with rb in Hf
    by (destruct rb; simpl in *; by subst).
  destruct (f rb) as [[rb' r]|]; [|done]. simpl in *. injection Hf as Hf. by rewrite Hf at 2.
Qed.

Lemma with_rlock_free {R} (f : _ → outcome (_ * R)) rb :
  rlock_blind f → rb_rlock rb = false → with_rlock rb f = f rb.
Proof.
  intros Hb Hw. unfold with_rlock. rewrite Hw. simpl. rewrite Hb.
  pose proof (Hb rb false) as Hf. replace (rb_set_rlock rb false) with rb in Hf
    by (destruct rb; simpl in *; by subst).
  destruct (f rb) as [[rb' r]|]; [|done]. simpl in *. injection Hf as Hf. by rewrite Hf at 2.
Qed.

Lemma write_blind v :
  wlock_blind (λ rb, let! rb' := libtrace_ringbuffer_write rb v in Ok (rb', tt)).
Proof.
  intros rb b. unfold libtrace_ringbuffer_write.
  change (wait_for_empty (rb_set_wlock rb b)) with (wait_for_empty rb).
  change (rb_elems (rb_set_wlock rb b)) with (rb_elems rb). simpl.
  destruct (wait_for_empty rb); [|done]. simpl. destruct (rb_elems rb) as [es|]; [|done]. simpl.
  destruct (aset es (rb_end rb) v) as [es'|]; [|done]. simpl.
  destruct (umod (u64 (rb_end rb + 1)) (rb_size rb)) as [e|]; [|done]. simpl.
  change (notify_full (rb_set_end (rb_set_wlock rb b) es' e)) with (notify_full (rb_set_end rb es' e)).
  by destruct (notify_full (rb_set_end rb es' e)).
Qed.

Lemma try_write_blind v : wlock_blind (λ rb, libtrace_ringbuffer_try_write rb v).
Proof.
  intros rb b. unfold libtrace_ringbuffer_try_write.
  change (libtrace_ringbuffer_is_full (rb_set_wlock rb b)) with (libtrace_ringbuffer_is_full rb).
  destruct (libtrace_ringbuffer_is_full rb) as [[]|]; [done| |done]. simpl.
  pose proof (write_blind v rb b) as Hb. simpl in Hb.
  destruct (libtrace_ringbuffer_write (rb_set_wlock rb b) v),
    (libtrace_ringbuffer_write rb v); simpl in *; by simplify_eq.
Qed.

Lemma write_rounds_blind fuel : ∀ vs nb mn i,
  wlock_blind (λ rb, rb_write_rounds fuel rb vs nb mn i).
Proof.
  induction fuel as [|fuel IH]; intros vs nb mn i rb b; [done|]. cbn [rb_write_rounds].
  change (wait_for_empty (rb_set_wlock rb b)) with (wait_for_empty rb).
  change (rb_elems (rb_set_wlock rb b)) with (rb_elems rb).
  destruct (wait_for_empty rb); [|done]. cbn [obind].
  change (libtrace_ringbuffer_nb_empty (rb_set_wlock rb b)) with (libtrace_ringbuffer_nb_empty rb).
  destruct (rb_elems rb) as [es|]; [|done]. cbn [obind rb_set_wlock rb_size rb_end].
  destruct (rb_write_loop _ vs es _ i _) as [[[es' i'] e']|]; [|done]. cbn [obind].
  change (notify_full (rb_set_end _ es' e')) with (notify_full (rb_set_end rb es' e')).
  destruct (notify_full (rb_set_end rb es' e')); [|done]. cbn [obind].
  destruct (i' <? mn); [|done]. apply (IH vs nb mn i' (rb_set_end rb es' e') b).
Qed.

Lemma read_blind : rlock_blind libtrace_ringbuffer_read.
Proof.
  intros rb b. unfold libtrace_ringbuffer_read.
  change (wait_for_full (rb_set_rlock rb b)) with (wait_for_full rb).
  change (rb_elems (rb_set_rlock rb b)) with (rb_elems rb). simpl.
  destruct (wait_for_full rb); [|done]. simpl. destruct (rb_elems rb) as [es|]; [|done]. simpl.
  destruct (aget es (rb_start rb)) as [v|]; [|done]. simpl.
  destruct (umod (u64 (rb_start rb + 1)) (rb_size rb)) as [s'|]; [|done]. simpl.
  change (notify_empty (rb_set_start (rb_set_rlock rb b) s'))
    with (notify_empty (rb_set_start rb s')).
  by destruct (notify_empty (rb_set_start rb s')).
Qed.

Lemma try_read_blind :
  rlock_blind (λ rb, let! ' (rb', r, o) := libtrace_ringbuffer_try_read rb in Ok (rb', (r, o))).
Proof.
  intros rb b. unfold libtrace_ringbuffer_try_read.
  change (libtrace_ringbuffer_is_empty (rb_set_rlock rb b)) with (libtrace_ringbuffer_is_empty rb).
  destruct (libtrace_ringbuffer_is_empty rb); [done|].
  rewrite (read_blind rb b). by destruct (libtrace_ringbuffer_read rb) as [[]|].
Qed.

(** With the lock free, a locking version does what the plain one
    does and leaves the lock free; the early test changes nothing. *)
Theorem ringbuffer_locked_equals_plain rb v vs nb mn :
  rb_wlock rb = false → rb_rlock rb = false →
  libtrace_ringbuffer_try_swrite rb v = libtrace_ringbuffer_try_write rb v ∧
  libtrace_ringbuffer_try_swrite_bl rb v = libtrace_ringbuffer_try_write rb v ∧
  libtrace_ringbuffer_swrite rb v
    = (let! rb' := libtrace_ringbuffer_write rb v in Ok (rb', tt)) ∧
  (mn ≤ nb →
   libtrace_ringbuffer_swrite_bulk rb vs nb mn = libtrace_ringbuffer_write_bulk rb vs nb mn) ∧
  libtrace_ringbuffer_sread rb = libtrace_ringbuffer_read rb ∧
  libtrace_ringbuffer_try_sread rb
    = (let! ' (rb', r, o) := libtrace_ringbuffer_try_read rb in Ok (rb', (r, o))) ∧
  libtrace_ringbuffer_try_sread_bl rb = libtrace_ringbuffer_try_sread rb.
Proof.
  intros Hw Hr.
  assert (libtrace_ringbuffer_try_swrite rb v = libtrace_ringbuffer_try_write rb v) as Htry.
  { unfold libtrace_ringbuffer_try_swrite.
    rewrite (with_wlock_free _ rb (try_write_blind v) Hw). unfold libtrace_ringbuffer_try_write.
    by destruct (libtrace_ringbuffer_is_full rb) as [[]|]. }
  split_and!; [done..| | | | |done].
  - apply (with_wlock_free _ rb (write_blind v) Hw).
  - intros Hmn. unfold libtrace_ringbuffer_swrite_bulk, libtrace_ringbuffer_write_bulk.
    rewrite (proj2 (Z.leb_le mn nb) Hmn). cbn [oassert obind].
    destruct (if mn =? 0 then libtrace_ringbuffer_is_full rb else Ok false) as [[]|] eqn:E; [done| |done]. cbn [obind].
    rewrite with_wlock_free; [by rewrite E| |done]. intros rb' b.
    change (libtrace_ringbuffer_is_full (rb_set_wlock rb' b)) with (libtrace_ringbuffer_is_full rb').
    destruct (if mn =? 0 then libtrace_ringbuffer_is_full rb' else Ok false) as [[]|]; [done| |done].
    apply (write_rounds_blind _ vs nb mn 0 rb' b).
  - apply (with_rlock_free _ rb read_blind Hr).
  - unfold libtrace_ringbuffer_try_sread. rewrite (with_rlock_free _ rb try_read_blind Hr).
    unfold libtrace_ringbuffer_try_read. by destruct (libtrace_ringbuffer_is_empty rb).
Qed.

(** The comment of [libtrace_ringbuffer_try_write] says that a locked
    list makes the call return at once; the [TRY_LOCK] of the "try" versions is
    [pthread_mutex_lock]: when the lock is held and the buffer can serve the
    call, [try_swrite] and [try_sread] wait, like the [_bl] versions. *)
Theorem ringbuffer_try_versions_block_on_lock rb xs v :
  rb_rep rb xs → xs ≠ [] → Zlen xs < rb_capacity rb →
  rb_wlock rb = true → rb_rlock rb = true →
  libtrace_ringbuffer_try_swrite rb v = Fault Blocked ∧
  libtrace_ringbuffer_try_sread rb = Fault Blocked.
Proof.
  intros R Hne Hlt Hw Hr.
  unfold libtrace_ringbuffer_try_swrite, libtrace_ringbuffer_try_sread, with_wlock, with_rlock.
  rewrite (rb_is_full_rep _ _ R), (rb_is_empty_rep _ _ R), Hw, Hr.
  rewrite (proj2 (Z.eqb_neq _ _)), bool_decide_eq_false_2 by (done || lia). done.
Qed.

(** ** Instances of the theorems *)
Definition rb_sample (xs : list Z) (held : bool) : libtrace_ringbuffer_t :=
  {| rb_start := 0; rb_size := 4; rb_mode := LIBTRACE_RINGBUFFER_BLOCKING;
     rb_elements := Some (take 4 (xs ++ [0; 0; 0; 0])); rb_wlock := held; rb_rlock := held;
     rb_empty_lock := false; rb_full_lock := false; rb_end := Zlen xs |}.

Lemma ringbuffer_refines_bounded_fifo_witness :
  let ops := [RWrite 7; RTryWrite 8; RTryWrite 9; RRead; RWriteBulk [10; 11] 2 1;
              RReadBulk [0; 0; 0] 3 2; RTryRead; RRead] in
  ∃ rb, libtrace_ringbuffer_init (rb_sample [] false) 2 LIBTRACE_RINGBUFFER_BLOCKING = (rb, 0) ∧
    rb_related 2 (rb_run rb ops) (fifo_run 2 [] ops).
Proof.
  intros ops. apply (ringbuffer_refines_bounded_fifo (rb_sample [] false) 2 0 ops).
  - lia.
  - done.
  - done.
  - unfold ops. rewrite !Forall_cons, Forall_nil. simpl. unfold Zlen. simpl. lia.
Defined.

Lemma ringbuffer_init_result_witness :
  ((libtrace_ringbuffer_init (rb_sample [] false) SIZE_MAX 0).2 = 0
     ↔ 0 < SIZE_MAX ∧ (SIZE_MAX + 1) * 8 < 2 ^ 63) ∧
  ((libtrace_ringbuffer_init (rb_sample [] false) SIZE_MAX 0).2 = 0 ∨
   (libtrace_ringbuffer_init (rb_sample [] false) SIZE_MAX 0).2 = -1).
Proof. apply (ringbuffer_init_result (rb_sample [] false) SIZE_MAX 0). lia. Defined.

Lemma ringbuffer_counts_closed_form_witness :
  libtrace_ringbuffer_nb_full (rb_sample [5] false) = (1 + 4 - 0) `mod` 4 ∧
  libtrace_ringbuffer_nb_empty (rb_sample [5] false) = (0 + 4 - 1 - 1) `mod` 4 ∧
  libtrace_ringbuffer_nb_full (rb_sample [5] false)
    + libtrace_ringbuffer_nb_empty (rb_sample [5] false) = 3.
Proof.
  apply (ringbuffer_counts_closed_form (rb_sample [5] false) [5]).
  split; [|done..]. eexists. split; [done|].
  split; [done|done|done|done|done|]. intros [|[]] x Hx; simplify_eq/=; done.
Defined.

Lemma ringbuffer_locked_equals_plain_witness :
  libtrace_ringbuffer_sread (rb_sample [5] false) = libtrace_ringbuffer_read (rb_sample [5] false).
Proof.
  apply (ringbuffer_locked_equals_plain (rb_sample [5] false) 0 [] 0 0); reflexivity.
Defined.

Lemma ringbuffer_try_versions_block_on_lock_witness :
  libtrace_ringbuffer_try_swrite (rb_sample [5] true) 6 = Fault Blocked ∧
  libtrace_ringbuffer_try_sread (rb_sample [5] true) = Fault Blocked.
Proof.
  apply (ringbuffer_try_versions_block_on_lock (rb_sample [5] true) [5] 6);
    [|discriminate|reflexivity|reflexivity|reflexivity].
  split; [|done..]. eexists. split; [done|].
  split; [done|done|done|done|done|]. intros [|[]] x Hx; simplify_eq/=; done.
Defined.
