(* ===== verification/RingConcurrent.v ===== *)
(** * A writer and a reader on one ring buffer: lib/data-struct/ring_buffer.c

    [libtrace_ringbuffer_write] called in a loop by one thread and
    [libtrace_ringbuffer_read] called in a loop by another, interleaved at the
    shared accesses: taking and releasing [empty_lock] and [full_lock], the
    tests of the wait loops, going to sleep in [pthread_cond_wait] (which
    releases the lock in the same step), waking up (also spuriously), the store
    to or load from [elements], the assignment to [end] or [start], and the
    broadcasts.  [start], [end] and the elements are read and written without
    the locks, as in the code.  In polling mode the wait loops spin and the
    notifications do nothing.  Steps are sequentially consistent, which is what
    the comment in ring_buffer.h asks for. *)

From S2P Require Import Prelude RingBuffer.
Local Open Scope Z_scope.

(** Where the two threads are. *)
Inductive wpc :=
| WIdle                      (* between two calls *)
| WTest (v : Z)              (* holds empty_lock, about to test is_full *)
| WToSleep (v : Z)           (* holds empty_lock, the test said full *)
| WSleep (v : Z)             (* in pthread_cond_wait(empty_cond) *)
| WWoken (v : Z)             (* woken, needs empty_lock again *)
| WReady (v : Z)             (* wait_for_empty has returned *)
| WStored (v : Z)            (* elements[end] = value is done *)
| WAdvanced                  (* end has been advanced *)
| WNotify.                   (* holds full_lock, about to broadcast *)

Inductive rpc :=
| RIdle
| RTest                      (* holds full_lock, about to test is_empty *)
| RToSleep
| RSleep
| RWoken
| RReady                     (* wait_for_full has returned *)
| RLoaded (v : Z)            (* value = elements[start] is done *)
| RAdvanced
| RNotify.                   (* holds empty_lock, about to broadcast *)

Record conf := {
  c_rb : libtrace_ringbuffer_t;
  c_w : wpc;
  c_r : rpc;
  c_todo : list Z;           (* values the writer has not started on *)
  c_out : list Z;            (* values the reader has returned *)
}.

Definition rb_set_empty_lock (rb : libtrace_ringbuffer_t) (b : bool) : libtrace_ringbuffer_t :=
  {| rb_start := rb_start rb; rb_size := rb_size rb; rb_mode := rb_mode rb;
     rb_elements := rb_elements rb; rb_wlock := rb_wlock rb; rb_rlock := rb_rlock rb;
     rb_empty_lock := b; rb_full_lock := rb_full_lock rb; rb_end := rb_end rb |}.

Definition rb_set_full_lock (rb : libtrace_ringbuffer_t) (b : bool) : libtrace_ringbuffer_t :=
  {| rb_start := rb_start rb; rb_size := rb_size rb; rb_mode := rb_mode rb;
     rb_elements := rb_elements rb; rb_wlock := rb_wlock rb; rb_rlock := rb_rlock rb;
     rb_empty_lock := rb_empty_lock rb; rb_full_lock := b; rb_end := rb_end rb |}.

Definition wake_reader (r : rpc) : rpc := match r with RSleep => RWoken | _ => r end.
Definition wake_writer (w : wpc) : wpc := match w with WSleep v => WWoken v | _ => w end.

Abbreviation blocking rb := (rb_mode rb = LIBTRACE_RINGBUFFER_BLOCKING).

(** ** Steps of the writer *)
Inductive wstep : conf → conf → Prop :=
| w_lock rb v todo r out :
    blocking rb → rb_empty_lock rb = false →
    wstep {| c_rb := rb; c_w := WIdle; c_r := r; c_todo := v :: todo; c_out := out |}
          {| c_rb := rb_set_empty_lock rb true; c_w := WTest v; c_r := r; c_todo := todo; c_out := out |}
| w_test_full rb v todo r out :
    libtrace_ringbuffer_is_full rb = Ok true →
    wstep {| c_rb := rb; c_w := WTest v; c_r := r; c_todo := todo; c_out := out |}
          {| c_rb := rb; c_w := WToSleep v; c_r := r; c_todo := todo; c_out := out |}
| w_sleep rb v todo r out :
    wstep {| c_rb := rb; c_w := WToSleep v; c_r := r; c_todo := todo; c_out := out |}
          {| c_rb := rb_set_empty_lock rb false; c_w := WSleep v; c_r := r; c_todo := todo; c_out := out |}
| w_relock rb v todo r out :
    rb_empty_lock rb = false →
    wstep {| c_rb := rb; c_w := WWoken v; c_r := r; c_todo := todo; c_out := out |}
          {| c_rb := rb_set_empty_lock rb true; c_w := WTest v; c_r := r; c_todo := todo; c_out := out |}
| w_test_room rb v todo r out :
    libtrace_ringbuffer_is_full rb = Ok false →
    wstep {| c_rb := rb; c_w := WTest v; c_r := r; c_todo := todo; c_out := out |}
          {| c_rb := rb_set_empty_lock rb false; c_w := WReady v; c_r := r; c_todo := todo; c_out := out |}
| w_poll rb v todo r out :
    ¬ blocking rb → libtrace_ringbuffer_is_full rb = Ok false →
    wstep {| c_rb := rb; c_w := WIdle; c_r := r; c_todo := v :: todo; c_out := out |}
          {| c_rb := rb; c_w := WReady v; c_r := r; c_todo := todo; c_out := out |}
| w_store rb es es' v todo r out :
    rb_elements rb = Some es → aset es (rb_end rb) v = Ok es' →
    wstep {| c_rb := rb; c_w := WReady v; c_r := r; c_todo := todo; c_out := out |}
          {| c_rb := rb_set_end rb es' (rb_end rb); c_w := WStored v; c_r := r; c_todo := todo; c_out := out |}
| w_advance rb es e v todo r out :
    rb_elements rb = Some es → umod (u64 (rb_end rb + 1)) (rb_size rb) = Ok e →
    wstep {| c_rb := rb; c_w := WStored v; c_r := r; c_todo := todo; c_out := out |}
          {| c_rb := rb_set_end rb es e; c_w := WAdvanced; c_r := r; c_todo := todo; c_out := out |}
| w_notify_lock rb todo r out :
    blocking rb → rb_full_lock rb = false →
    wstep {| c_rb := rb; c_w := WAdvanced; c_r := r; c_todo := todo; c_out := out |}
          {| c_rb := rb_set_full_lock rb true; c_w := WNotify; c_r := r; c_todo := todo; c_out := out |}
| w_notify rb todo r out :
    wstep {| c_rb := rb; c_w := WNotify; c_r := r; c_todo := todo; c_out := out |}
          {| c_rb := rb_set_full_lock rb false; c_w := WIdle; c_r := wake_reader r; c_todo := todo; c_out := out |}
| w_no_notify rb todo r out :
    ¬ blocking rb →
    wstep {| c_rb := rb; c_w := WAdvanced; c_r := r; c_todo := todo; c_out := out |}
          {| c_rb := rb; c_w := WIdle; c_r := r; c_todo := todo; c_out := out |}.

(** ** Steps of the reader *)
Inductive rstep : conf → conf → Prop :=
| r_lock rb w todo out :
    blocking rb → rb_full_lock rb = false →
    rstep {| c_rb := rb; c_w := w; c_r := RIdle; c_todo := todo; c_out := out |}
          {| c_rb := rb_set_full_lock rb true; c_w := w; c_r := RTest; c_todo := todo; c_out := out |}
| r_test_empty rb w todo out :
    libtrace_ringbuffer_is_empty rb = true →
    rstep {| c_rb := rb; c_w := w; c_r := RTest; c_todo := todo; c_out := out |}
          {| c_rb := rb; c_w := w; c_r := RToSleep; c_todo := todo; c_out := out |}
| r_sleep rb w todo out :
    rstep {| c_rb := rb; c_w := w; c_r := RToSleep; c_todo := todo; c_out := out |}
          {| c_rb := rb_set_full_lock rb false; c_w := w; c_r := RSleep; c_todo := todo; c_out := out |}
| r_relock rb w todo out :
    rb_full_lock rb = false →
    rstep {| c_rb := rb; c_w := w; c_r := RWoken; c_todo := todo; c_out := out |}
          {| c_rb := rb_set_full_lock rb true; c_w := w; c_r := RTest; c_todo := todo; c_out := out |}
| r_test_data rb w todo out :
    libtrace_ringbuffer_is_empty rb = false →
    rstep {| c_rb := rb; c_w := w; c_r := RTest; c_todo := todo; c_out := out |}
          {| c_rb := rb_set_full_lock rb false; c_w := w; c_r := RReady; c_todo := todo; c_out := out |}
| r_poll rb w todo out :
    ¬ blocking rb → libtrace_ringbuffer_is_empty rb = false →
    rstep {| c_rb := rb; c_w := w; c_r := RIdle; c_todo := todo; c_out := out |}
          {| c_rb := rb; c_w := w; c_r := RReady; c_todo := todo; c_out := out |}
| r_load rb es v w todo out :
    rb_elements rb = Some es → aget es (rb_start rb) = Ok v →
    rstep {| c_rb := rb; c_w := w; c_r := RReady; c_todo := todo; c_out := out |}
          {| c_rb := rb; c_w := w; c_r := RLoaded v; c_todo := todo; c_out := out |}
| r_advance rb s v w todo out :
    umod (u64 (rb_start rb + 1)) (rb_size rb) = Ok s →
    rstep {| c_rb := rb; c_w := w; c_r := RLoaded v; c_todo := todo; c_out := out |}
          {| c_rb := rb_set_start rb s; c_w := w; c_r := RAdvanced; c_todo := todo; c_out := out ++ [v] |}
| r_notify_lock rb w todo out :
    blocking rb → rb_empty_lock rb = false →
    rstep {| c_rb := rb; c_w := w; c_r := RAdvanced; c_todo := todo; c_out := out |}
          {| c_rb := rb_set_empty_lock rb true; c_w := w; c_r := RNotify; c_todo := todo; c_out := out |}
| r_notify rb w todo out :
    rstep {| c_rb := rb; c_w := w; c_r := RNotify; c_todo := todo; c_out := out |}
          {| c_rb := rb_set_empty_lock rb false; c_w := wake_writer w; c_r := RIdle; c_todo := todo; c_out := out |}
| r_no_notify rb w todo out :
    ¬ blocking rb →
    rstep {| c_rb := rb; c_w := w; c_r := RAdvanced; c_todo := todo; c_out := out |}
          {| c_rb := rb; c_w := w; c_r := RIdle; c_todo := todo; c_out := out |}.

(** A sleeping thread may wake up without a broadcast. *)
Inductive spurious : conf → conf → Prop :=
| wake_w rb w r todo out :
    spurious {| c_rb := rb; c_w := w; c_r := r; c_todo := todo; c_out := out |}
             {| c_rb := rb; c_w := wake_writer w; c_r := r; c_todo := todo; c_out := out |}
| wake_r rb w r todo out :
    spurious {| c_rb := rb; c_w := w; c_r := r; c_todo := todo; c_out := out |}
             {| c_rb := rb; c_w := w; c_r := wake_reader r; c_todo := todo; c_out := out |}.

Definition step (c c' : conf) : Prop := wstep c c' ∨ rstep c c' ∨ spurious c c'.

Inductive steps : conf → conf → Prop :=
| steps_refl c : steps c c
| steps_next c c' c'' : steps c c' → step c' c'' → steps c c''.

(** The writer has [values] to write, the buffer is fresh. *)
Definition start_conf (rb : libtrace_ringbuffer_t) (values : list Z) : conf :=
  {| c_rb := rb; c_w := WIdle; c_r := RIdle; c_todo := values; c_out := [] |}.

(** ** Invariant *)

(** The value the writer has in hand and has not handed over yet. *)
Definition in_hand (w : wpc) : list Z :=
  match w with
  | WTest v | WToSleep v | WSleep v | WWoken v | WReady v | WStored v => [v]
  | _ => []
  end.

Definition w_holds (w : wpc) : bool := match w with WTest _ | WToSleep _ => true | _ => false end.
Definition w_notifies (w : wpc) : bool := match w with WNotify => true | _ => false end.
Definition r_holds (r : rpc) : bool := match r with RTest | RToSleep => true | _ => false end.
Definition r_notifies (r : rpc) : bool := match r with RNotify => true | _ => false end.

(** What a thread's position says about the buffer's contents [xs].  A thread
    that sleeps, or is about to, does so for a reason, or the other thread is on
    its way to wake it. *)
Definition w_claim (rb : libtrace_ringbuffer_t) (xs : list Z) (r : rpc) (w : wpc) : Prop :=
  match w with
  | WToSleep _ => blocking rb ∧ (Zlen xs = rb_capacity rb ∨ r = RAdvanced)
  | WSleep _ => blocking rb ∧ (Zlen xs = rb_capacity rb ∨ r = RAdvanced ∨ r = RNotify)
  | WReady _ => Zlen xs < rb_capacity rb
  | WStored v => Zlen xs < rb_capacity rb ∧
      ∃ es, rb_elements rb = Some es ∧ es !! Z.to_nat (rb_end rb) = Some v
  | WTest _ | WWoken _ | WNotify => blocking rb
  | _ => True
  end.

Definition r_claim (rb : libtrace_ringbuffer_t) (xs : list Z) (w : wpc) (r : rpc) : Prop :=
  match r with
  | RToSleep => blocking rb ∧ (xs = [] ∨ w = WAdvanced)
  | RSleep => blocking rb ∧ (xs = [] ∨ w = WAdvanced ∨ w = WNotify)
  | RReady => xs ≠ []
  | RLoaded v => ∃ xs', xs = v :: xs'
  | RTest | RWoken | RNotify => blocking rb
  | _ => True
  end.

Record inv (all : list Z) (c : conf) (xs : list Z) : Prop := {
  i_seg : ∃ es, rb_elements (c_rb c) = Some es ∧
            ring_seg es (rb_size (c_rb c)) (rb_start (c_rb c)) (rb_end (c_rb c)) xs;
  i_all : all = c_out c ++ xs ++ in_hand (c_w c) ++ c_todo c;
  i_empty_lock : rb_empty_lock (c_rb c) = w_holds (c_w c) || r_notifies (c_r c);
  i_full_lock : rb_full_lock (c_rb c) = r_holds (c_r c) || w_notifies (c_w c);
  i_excl_empty : w_holds (c_w c) && r_notifies (c_r c) = false;
  i_excl_full : r_holds (c_r c) && w_notifies (c_w c) = false;
  i_w : w_claim (c_rb c) xs (c_r c) (c_w c);
  i_r : r_claim (c_rb c) xs (c_w c) (c_r c);
}.

(** The tests of the wait loops, whoever holds the locks. *)
Lemma test_is_full rb es xs b :
  rb_elements rb = Some es →
  ring_seg es (rb_size rb) (rb_start rb) (rb_end rb) xs →
  libtrace_ringbuffer_is_full rb = Ok b →
  if b then Zlen xs = rb_capacity rb else Zlen xs < rb_capacity rb.
Proof.
  intros He S Ht. set (rb' := rb_set_full_lock (rb_set_empty_lock rb false) false).
  assert (rb_rep rb' xs) as R by (split; [by exists es|done..]).
  pose proof (rb_is_full_rep rb' xs R) as Hf. change (libtrace_ringbuffer_is_full rb') with
    (libtrace_ringbuffer_is_full rb) in Hf. rewrite Ht in Hf. injection Hf as ->.
  pose proof (proj2 (rb_bounds rb' xs R)). unfold rb_capacity in *. simpl in *.
  destruct (Z.eqb_spec (Zlen xs) (rb_size rb - 1)); lia.
Qed.

Lemma test_is_empty rb es xs :
  rb_elements rb = Some es →
  ring_seg es (rb_size rb) (rb_start rb) (rb_end rb) xs →
  libtrace_ringbuffer_is_empty rb = bool_decide (xs = []).
Proof. intros _ S. by eapply ring_empty_iff. Qed.

(** Writing to the free slot does not change the contents. *)
Lemma ring_store_free es size start e xs v :
  ring_seg es size start e xs → ring_seg (<[Z.to_nat e := v]> es) size start e xs.
Proof.
  intros R. pose proof (ring_seg_end _ _ _ _ _ R) as He.
  destruct R as [Hlen Hsz Hs Hr Hend Hel]. split; [by rewrite Zlen_insert|done..|].
  intros i x Hx. rewrite list_lookup_insert_ne; [by apply Hel|].
  apply lookup_lt_Some in Hx. unfold Zlen in *. subst e.
  rewrite !mod_wrap by lia. intros Heq. revert Heq. bool_cases; lia.
Qed.

Lemma ring_advance es size start e xs v :
  ring_seg es size start e xs → Zlen xs + 1 < size → es !! Z.to_nat e = Some v →
  ring_seg es size start ((e + 1) `mod` size) (xs ++ [v]).
Proof.
  intros R Hroom Hv. pose proof (ring_store _ _ _ _ _ v R Hroom) as R'.
  by rewrite list_insert_id in R'.
Qed.

(** A step that leaves the contents alone: case analysis on the other thread
    settles the locks and the claims. *)
Ltac claims := simpl in *; intuition (try congruence; try done).
Ltac same_contents xs other :=
  exists xs; split; simpl; [by eexists|by destruct other|..]; destruct other; claims.

Ltac open_inv :=
  match goal with
  | I : inv _ _ _ |- _ =>
      destruct I as [(es0 & Hes & Hseg) Hall Hel Hfl Hxe Hxf Hw Hr]; simpl in *
  end.

Lemma inv_wstep all c c' xs : inv all c xs → wstep c c' → ∃ xs', inv all c' xs'.
Proof.
  intros I H. destruct H as [rb v todo r out Hb Hl|rb v todo r out Ht|rb v todo r out
    |rb v todo r out Hl|rb v todo r out Ht|rb v todo r out Hb Ht|rb es es' v todo r out He Hst
    |rb es e v todo r out He Hst|rb todo r out Hb Hl|rb todo r out|rb todo r out Hb]; open_inv.
  - same_contents xs r.
  - pose proof (test_is_full _ _ _ _ Hes Hseg Ht). same_contents xs r.
  - same_contents xs r.
  - same_contents xs r.
  - pose proof (test_is_full _ _ _ _ Hes Hseg Ht). same_contents xs r.
  - pose proof (test_is_full _ _ _ _ Hes Hseg Ht). same_contents xs r.
  - assert (es = es0) as -> by congruence. pose proof (ring_seg_end _ _ _ _ _ Hseg).
    pose proof (rs_len _ _ _ _ _ Hseg). rewrite aset_ok in Hst by lia. injection Hst as <-.
    exists xs. split; simpl; [eexists; split; [done|by apply ring_store_free]|done|..];
      try (destruct r; claims; fail).
    split; [done|]. eexists. split; [done|]. apply list_lookup_insert_eq. unfold Zlen in *. lia.
  - destruct Hw as [Hroom (es1 & He1 & Hv)].
    assert (es = es0 ∧ es1 = es0) as [-> ->] by (split; congruence).
    pose proof (ring_seg_end _ _ _ _ _ Hseg). pose proof (rs_size _ _ _ _ _ Hseg).
    rewrite u64_small, umod_ok in Hst by lia. injection Hst as <-.
    exists (xs ++ [v]). split; simpl; [eexists; split; [done|]| |..]; try (destruct r; claims; fail).
    + apply ring_advance; [done|unfold rb_capacity in *; lia|done].
    + rewrite Hall. by rewrite <- !(assoc_L app).
    + destruct r; simpl in *; try done; try (destruct Hr as [? ?]; by auto).
      * by destruct xs.
      * destruct Hr as [xs' ->]. by eexists.
  - same_contents xs r.
  - same_contents xs r.
  - same_contents xs r.
Qed.

Lemma inv_rstep all c c' xs : inv all c xs → rstep c c' → ∃ xs', inv all c' xs'.
Proof.
  intros I H. destruct H as [rb w todo out Hb Hl|rb w todo out Ht|rb w todo out
    |rb w todo out Hl|rb w todo out Ht|rb w todo out Hb Ht|rb es v w todo out He Hld
    |rb s v w todo out Hst|rb w todo out Hb Hl|rb w todo out|rb w todo out Hb]; open_inv.
  - same_contents xs w.
  - rewrite (test_is_empty _ _ _ Hes Hseg) in Ht. apply bool_decide_eq_true in Ht.
    same_contents xs w.
  - same_contents xs w.
  - same_contents xs w.
  - rewrite (test_is_empty _ _ _ Hes Hseg) in Ht. apply bool_decide_eq_false in Ht.
    same_contents xs w.
  - rewrite (test_is_empty _ _ _ Hes Hseg) in Ht. apply bool_decide_eq_false in Ht.
    same_contents xs w.
  - destruct xs as [|x xs]; [done|]. destruct (ring_load _ _ _ _ _ _ Hseg) as [Hx _].
    apply aget_ok_inv in Hld as [_ Hld].
    assert (v = x) as -> by congruence. exists (x :: xs).
    split; simpl; [by exists es0|done|..]; try (destruct w; claims; fail). by eexists.
  - destruct Hr as [xs' ->]. destruct (ring_load _ _ _ _ _ _ Hseg) as [_ Hseg'].
    pose proof (rs_start _ _ _ _ _ Hseg). pose proof (rs_size _ _ _ _ _ Hseg).
    rewrite u64_small, umod_ok in Hst by lia. injection Hst as <-.
    exists xs'. split; simpl; [by eexists| |..]; try (destruct w; claims; fail).
    + rewrite Hall. by rewrite <- !(assoc_L app).
    + unfold w_claim, rb_capacity in *. destruct w; simpl in *; rewrite ?Zlen_cons in Hw;
        intuition lia.
  - same_contents xs w.
  - same_contents xs w.
  - same_contents xs w.
Qed.

Lemma inv_spurious all c c' xs : inv all c xs → spurious c c' → inv all c' xs.
Proof.
  intros I H. destruct H as [rb w r todo out|rb w r todo out]; open_inv.
  - split; simpl; [by exists es0|by destruct w|..]; destruct w, r; claims.
  - split; simpl; [by exists es0|done|..]; destruct w, r; claims.
Qed.

Lemma inv_step all c c' xs : inv all c xs → step c c' → ∃ xs', inv all c' xs'.
Proof.
  intros I [H|[H|H]]; [by eapply inv_wstep|by eapply inv_rstep|].
  exists xs. by eapply inv_spurious.
Qed.

Lemma inv_start rb values : rb_rep rb [] → inv values (start_conf rb values) [].
Proof.
  intros R. split; simpl; [apply R|done|apply R|apply R|done..].
Qed.

Lemma inv_reachable rb values c :
  rb_rep rb [] → steps (start_conf rb values) c → ∃ xs, inv values c xs.
Proof.
  intros R H. remember (start_conf rb values) as c0 eqn:E. induction H as [c|c c' c'' H IH Hst].
  - subst. exists []. by apply inv_start.
  - destruct (IH E) as [xs I]. by eapply inv_step.
Qed.

(** ** Correctness of the concurrent buffer *)

(** C2: Whatever the interleaving, the values the reader has returned
    are an initial piece of the values written, in order: none is lost,
    duplicated, reordered or read before it was stored; and never more values are
    in flight than the buffer holds. *)
Theorem ring_concurrent_fifo rb values c :
  rb_rep rb [] → steps (start_conf rb values) c →
  ∃ xs, values = c_out c ++ xs ++ in_hand (c_w c) ++ c_todo c ∧
    0 ≤ Zlen xs ≤ rb_capacity (c_rb c).
Proof.
  intros R H. destruct (inv_reachable rb values c R H) as [xs I]. exists xs.
  split; [apply I|]. destruct (i_seg _ _ _ I) as (es & _ & S).
  pose proof (rs_room _ _ _ _ _ S). pose proof (Zlen_nonneg xs). unfold rb_capacity. lia.
Qed.

(** A thread that holds what it needs can go on. *)
Lemma writer_moves all c xs v :
  inv all c xs → c_w c = WReady v ∨ c_w c = WStored v → ∃ c', wstep c c'.
Proof.
  destruct c as [rb w r todo out]. simpl. intros I H. open_inv.
  pose proof (ring_seg_end _ _ _ _ _ Hseg). pose proof (rs_size _ _ _ _ _ Hseg).
  pose proof (rs_len _ _ _ _ _ Hseg). destruct H as [->| ->]; eexists.
  - eapply w_store; [done|]. apply aset_ok. lia.
  - eapply w_advance; [done|]. apply umod_ok. lia.
Qed.

Lemma reader_moves all c xs :
  inv all c xs → c_r c = RReady ∨ (∃ v, c_r c = RLoaded v) → ∃ c', rstep c c'.
Proof.
  destruct c as [rb w r todo out]. simpl. intros I H. open_inv.
  pose proof (rs_start _ _ _ _ _ Hseg). pose proof (rs_size _ _ _ _ _ Hseg).
  pose proof (rs_len _ _ _ _ _ Hseg). destruct H as [->|[v ->]].
  - destruct (aget_total es0 (rb_start rb)) as (v & _ & Hv); [lia|]. eexists. by eapply r_load.
  - eexists. eapply r_advance. apply umod_ok. lia.
Qed.

(** A thread that holds a mutex can go on. *)
Lemma writer_holder_moves all c xs :
  inv all c xs → w_holds (c_w c) || w_notifies (c_w c) = true → ∃ c', wstep c c'.
Proof.
  destruct c as [rb w r todo out]. simpl. intros I H. open_inv.
  destruct w; try done; [|eexists; by apply w_sleep|eexists; by apply w_notify].
  destruct (libtrace_ringbuffer_is_full rb) as [[]|f] eqn:E.
  - eexists. by apply w_test_full.
  - eexists. by apply w_test_room.
  - pose proof (rs_size _ _ _ _ _ Hseg). unfold libtrace_ringbuffer_is_full in E.
    by rewrite umod_ok in E by lia.
Qed.

Lemma reader_holder_moves c :
  r_holds (c_r c) || r_notifies (c_r c) = true → ∃ c', rstep c c'.
Proof.
  destruct c as [rb w r todo out]. simpl. intros H.
  destruct r; try done; [|eexists; by apply r_sleep|eexists; by apply r_notify].
  destruct (libtrace_ringbuffer_is_empty rb) eqn:E; eexists; [by apply r_test_empty|].
  by apply r_test_data.
Qed.

(** With both mutexes free, a thread that cannot go on sleeps, or is the writer
    and has finished. *)
Lemma writer_can_step all c xs :
  inv all c xs → rb_empty_lock (c_rb c) = false → rb_full_lock (c_rb c) = false →
  blocking (c_rb c) →
  (∃ c', wstep c c') ∨ (∃ v, c_w c = WSleep v) ∨ (c_w c = WIdle ∧ c_todo c = []).
Proof.
  intros I H1 H2 Hb. pose proof (writer_moves all c xs) as Hm.
  pose proof (writer_holder_moves all c xs I) as Hh.
  destruct c as [rb w r todo out]. simpl in *.
  destruct w as [|v|v|v|v|v|v| |]; simpl in *; try (by left; apply Hh); try (by left; eauto).
  - destruct todo as [|v todo]; [by auto|]. left. eexists. by apply w_lock.
  - right. left. by exists v.
  - left. eexists. by apply w_relock.
  - left. eexists. by apply w_notify_lock.
Qed.

Lemma reader_can_step all c xs :
  inv all c xs → rb_empty_lock (c_rb c) = false → rb_full_lock (c_rb c) = false →
  blocking (c_rb c) → (∃ c', rstep c c') ∨ c_r c = RSleep.
Proof.
  intros I H1 H2 Hb. pose proof (reader_moves all c xs I) as Hm.
  pose proof (reader_holder_moves c) as Hh.
  destruct c as [rb w r todo out]. simpl in *.
  destruct r as [| | | | | |v| |]; simpl in *; try (by left; apply Hh); try (by left; eauto).
  - left. eexists. by apply r_lock.
  - by right.
  - left. eexists. by apply r_relock.
  - left. eexists. by apply r_notify_lock.
Qed.

(** C3: No deadlock and no lost wake-up: in blocking mode, a reachable
    state in which neither thread can take a step (spurious wake-ups apart) is
    one in which the writer has finished and every value has been read; the
    reader sleeps because there is nothing left. *)
Theorem ring_concurrent_no_deadlock rb values c :
  rb_rep rb [] → blocking (c_rb c) → steps (start_conf rb values) c →
  (∀ c', ¬ wstep c c') → (∀ c', ¬ rstep c c') →
  c_out c = values ∧ c_w c = WIdle ∧ c_todo c = [] ∧ c_r c = RSleep.
Proof.
  intros R Hb H Hnw Hnr. destruct (inv_reachable rb values c R H) as [xs I].
  assert (w_holds (c_w c) || w_notifies (c_w c) = false) as [Hw1 Hw2]%orb_false_iff.
  { apply not_true_is_false. intros Hh. by destruct (writer_holder_moves _ _ _ I Hh) as [c' ?%Hnw]. }
  assert (r_holds (c_r c) || r_notifies (c_r c) = false) as [Hr1 Hr2]%orb_false_iff.
  { apply not_true_is_false. intros Hh. by destruct (reader_holder_moves _ Hh) as [c' ?%Hnr]. }
  pose proof (i_empty_lock _ _ _ I) as He. pose proof (i_full_lock _ _ _ I) as Hf.
  rewrite Hw1, Hw2, Hr1, Hr2 in *. simpl in He, Hf.
  destruct (reader_can_step _ _ _ I He Hf Hb) as [[c' ?%Hnr]|Hr]; [done|].
  destruct (i_seg _ _ _ I) as (es & _ & S). pose proof (rs_size _ _ _ _ _ S).
  pose proof (i_r _ _ _ I) as Cr. pose proof (i_w _ _ _ I) as Cw. rewrite Hr in Cr, Cw.
  destruct (writer_can_step _ _ _ I He Hf Hb) as [[c' ?%Hnw]|[[v Hw]|[Hw Ht]]]; [done| |];
    rewrite Hw in Cr, Cw; simpl in Cr, Cw.
  - destruct Cr as [_ [->|[|]]]; [|done..]. destruct Cw as [_ [Hc|[|]]]; [|done..].
    unfold rb_capacity, Zlen in Hc. simpl in Hc. lia.
  - destruct Cr as [_ [->|[|]]]; [|done..]. split_and!; [|done..].
    pose proof (i_all _ _ _ I) as Ha. rewrite Hw, Ht in Ha. simpl in Ha. by rewrite app_nil_r in Ha.
Qed.

(** ** Instances of the theorems: one value goes through a buffer of one slot. *)
Lemma ring_sample_rep : rb_rep (rb_sample [] false) [].
Proof. split; [|done..]. eexists. split; [done|]. by split. Qed.

Lemma ring_concurrent_fifo_witness :
  ∃ xs, [7] = [] ++ xs ++ [7] ++ [] ∧ 0 ≤ Zlen xs ≤ 3.
Proof.
  apply (ring_concurrent_fifo (rb_sample [] false) [7]
    {| c_rb := rb_set_empty_lock (rb_sample [] false) true; c_w := WTest 7; c_r := RIdle;
       c_todo := []; c_out := [] |}).
  - exact ring_sample_rep.
  - eapply steps_next; [apply steps_refl|]. left. by apply w_lock.
Defined.

Lemma ring_concurrent_no_deadlock_witness :
  [] = @nil Z ∧ WIdle = WIdle ∧ @nil Z = [] ∧ RSleep = RSleep.
Proof.
  apply (ring_concurrent_no_deadlock (rb_sample [] false) []
    {| c_rb := rb_set_full_lock (rb_set_full_lock (rb_sample [] false) true) false;
       c_w := WIdle; c_r := RSleep; c_todo := []; c_out := [] |}).
  - exact ring_sample_rep.
  - done.
  - eapply steps_next; [|right; left; by apply r_sleep].
    eapply steps_next; [|right; left; by apply r_test_empty].
    eapply steps_next; [apply steps_refl|right; left; by apply r_lock].
  - intros c' H. inversion H.
  - intros c' H. inversion H.
Defined.
