(* ===== verification/SlidingWindow.v ===== *)
(** * The sliding window: lib/data-struct/sliding_window.c

    Values numbered by a 64-bit counter arrive in any order within a window of
    [size] numbers and leave in the order of their numbers.  Pointers are
    numbers, [NULL] is 0 and marks a slot nobody has written. *)

From S2P Require Import Prelude.
Local Open Scope Z_scope.
Local Open Scope outcome_scope.

Record libtrace_slidingwindow_t := {
  sw_start : Z;
  sw_size : Z;
  sw_start_number : Z;
  sw_elements : option (list Z);
}.

(** ** Operations *)
Definition libtrace_slidingwindow_init (size start_number : Z) : libtrace_slidingwindow_t :=
  {| sw_start := 0; sw_size := size; sw_start_number := start_number;
     sw_elements := Some (replicate (Z.to_nat size) 0) |}.

Definition libtrace_slidingwindow_destroy (sw : libtrace_slidingwindow_t)
  : libtrace_slidingwindow_t :=
  {| sw_start := 0; sw_size := 0; sw_start_number := 0; sw_elements := None |}.

Definition sw_elems (sw : libtrace_slidingwindow_t) : outcome (list Z) :=
  match sw_elements sw with None => Fault NullDeref | Some es => Ok es end.

Definition libtrace_slidingwindow_try_write (sw : libtrace_slidingwindow_t) (number value : Z)
  : outcome (libtrace_slidingwindow_t * Z) :=
  let adjusted_number := u64 (number - sw_start_number sw) in
  if adjusted_number <? sw_size sw then
    let! es := sw_elems sw in
    let! i := umod (u64 (adjusted_number + sw_start sw)) (sw_size sw) in
    let! es' := aset es i value in
    Ok ({| sw_start := sw_start sw; sw_size := sw_size sw;
           sw_start_number := sw_start_number sw; sw_elements := Some es' |}, 1)
  else Ok (sw, 0).

Definition libtrace_slidingwindow_read_ready (sw : libtrace_slidingwindow_t) : outcome bool :=
  let! es := sw_elems sw in
  let! v := aget es (sw_start sw) in
  Ok (negb (v =? 0)).

(** The result is the return value and what is stored through [value] and
    [number]; [number] may be null. *)
Definition libtrace_slidingwindow_try_read (sw : libtrace_slidingwindow_t) (number_given : bool)
  : outcome (libtrace_slidingwindow_t * (Z * option Z * option Z)) :=
  let! es := sw_elems sw in
  let! v := aget es (sw_start sw) in
  if negb (v =? 0) then
    let! es' := aset es (sw_start sw) 0 in
    let number := if number_given then Some (sw_start_number sw) else None in
    let! start' := umod (u64 (sw_start sw + 1)) (sw_size sw) in
    Ok ({| sw_start := start'; sw_size := sw_size sw;
           sw_start_number := u64 (sw_start_number sw + 1); sw_elements := Some es' |},
        (1, Some v, number))
  else Ok (sw, (0, None, None)).

Definition libtrace_zero_slidingwindow (sw : libtrace_slidingwindow_t)
  : libtrace_slidingwindow_t :=
  {| sw_start := 0; sw_size := 0; sw_start_number := 0; sw_elements := None |}.

(** ** Specification

    The window is the list of its slots: slot [i] is for the number
    [base + i] (modulo 2^64). *)
Record window := { win_base : Z; win_slots : list Z }.

Definition win_write (w : window) (number value : Z) : window * Z :=
  let i := u64 (number - win_base w) in
  if i <? Zlen (win_slots w)
  then ({| win_base := win_base w; win_slots := <[Z.to_nat i := value]> (win_slots w) |}, 1)
  else (w, 0).

Definition win_read (w : window) (number_given : bool) : window * (Z * option Z * option Z) :=
  match win_slots w with
  | v :: rest =>
      if v =? 0 then (w, (0, None, None))
      else ({| win_base := u64 (win_base w + 1); win_slots := rest ++ [0] |},
            (1, Some v, if number_given then Some (win_base w) else None))
  | [] => (w, (0, None, None))
  end.

(** Slot [i] of the window is stored at [(start + i) % size]. *)
Record sw_rep (sw : libtrace_slidingwindow_t) (w : window) : Prop := {
  sr_block : ∃ es, sw_elements sw = Some es ∧ Zlen es = sw_size sw ∧
    ∀ i, 0 ≤ i < sw_size sw →
      win_slots w !! Z.to_nat i = es !! Z.to_nat ((sw_start sw + i) `mod` sw_size sw);
  sr_len : Zlen (win_slots w) = sw_size sw;
  sr_size : 0 < sw_size sw < 2 ^ 63;
  sr_start : 0 ≤ sw_start sw < sw_size sw;
  sr_base : win_base w = sw_start_number sw;
}.

Lemma sw_rep_init size start_number :
  0 < size < 2 ^ 63 →
  sw_rep (libtrace_slidingwindow_init size start_number)
    {| win_base := start_number; win_slots := replicate (Z.to_nat size) 0 |}.
Proof.
  intros Hs. split; simpl; [|rewrite Zlen_replicate; lia|lia..|done].
  eexists. split_and!; [done|rewrite Zlen_replicate; lia|]. intros i Hi.
  pose proof (Z.mod_pos_bound (0 + i) size). rewrite !lookup_replicate_2 by lia. done.
Qed.

Lemma sw_write_refines sw w number value :
  sw_rep sw w →
  ∃ sw', libtrace_slidingwindow_try_write sw number value = Ok (sw', (win_write w number value).2) ∧
    sw_rep sw' (win_write w number value).1.
Proof.
  intros R. destruct (sr_block _ _ R) as (es & He & Hlen & Hel).
  pose proof (sr_size _ _ R). pose proof (sr_start _ _ R).
  unfold libtrace_slidingwindow_try_write, win_write.
  rewrite (sr_base _ _ R), (sr_len _ _ R).
  set (a := u64 (number - sw_start_number sw)).
  pose proof (u64_range (number - sw_start_number sw)) as Ha. fold a in Ha.
  destruct (Z.ltb_spec a (sw_size sw)); [|by exists sw].
  unfold sw_elems. rewrite He. simpl. rewrite u64_small, umod_ok by lia. simpl.
  pose proof (Z.mod_pos_bound (a + sw_start sw) (sw_size sw)).
  rewrite aset_ok by lia. simpl. eexists. split; [done|].
  split; simpl; [|by rewrite Zlen_insert, (sr_len _ _ R)|done|done|done].
  eexists. split_and!; [done|by rewrite Zlen_insert|]. intros i Hi.
  pose proof (sr_len _ _ R) as Hw. unfold Zlen in *. rewrite (Z.add_comm a).
  destruct (Z.eq_dec i a) as [->|Hne].
  - rewrite !list_lookup_insert_eq; [done| |lia].
    pose proof (Z.mod_pos_bound (sw_start sw + a) (sw_size sw)). lia.
  - rewrite !list_lookup_insert_ne, Hel by (rewrite ?mod_wrap by lia; bool_cases; lia). done.
Qed.

(** The head of the window is at [start], and it is there iff it is not null. *)
Lemma sw_head sw w es :
  sw_rep sw w → sw_elements sw = Some es →
  ∃ v rest, win_slots w = v :: rest ∧ es !! Z.to_nat (sw_start sw) = Some v ∧
    aget es (sw_start sw) = Ok v.
Proof.
  intros R He. destruct (sr_block _ _ R) as (es' & He' & Hlen & Hel).
  pose proof (sr_size _ _ R). pose proof (sr_start _ _ R). pose proof (sr_len _ _ R) as Hw.
  assert (es' = es) as -> by congruence. destruct (win_slots w) as [|v rest] eqn:E.
  { change (Zlen (@nil Z)) with 0 in Hw. lia. }
  exists v, rest. specialize (Hel 0). rewrite Z.add_0_r, Z.mod_small in Hel by lia.
  split_and!; [done|by rewrite <- Hel by lia|]. apply aget_ok; [lia|]. by rewrite <- Hel by lia.
Qed.

Lemma sw_read_refines sw w g :
  sw_rep sw w →
  ∃ sw', libtrace_slidingwindow_try_read sw g = Ok (sw', (win_read w g).2) ∧
    sw_rep sw' (win_read w g).1.
Proof.
  intros R. destruct (sr_block _ _ R) as (es & He & Hlen & Hel).
  pose proof (sr_size _ _ R). pose proof (sr_start _ _ R). pose proof (sr_len _ _ R) as Hw.
  destruct (sw_head sw w es R He) as (v & rest & Hslots & Hv & Hget).
  unfold libtrace_slidingwindow_try_read, win_read, sw_elems. rewrite He, Hslots in *. simpl.
  rewrite Hget. simpl. destruct (Z.eqb_spec v 0); [by exists sw|]. simpl.
  rewrite aset_ok, u64_small, umod_ok by lia. simpl. rewrite (sr_base _ _ R).
  eexists. split; [done|]. rewrite Zlen_cons in Hw.
  split; simpl; [|autorewrite with zlen; lia|done|apply Z.mod_pos_bound; lia|done].
  eexists. split_and!; [done|by rewrite Zlen_insert|]. intros i Hi.
  rewrite Zplus_mod_idemp_l. unfold Zlen in *. destruct (Z.eq_dec i (sw_size sw - 1)) as [->|Hne].
  - rewrite lookup_app_r by lia. replace (sw_start sw + 1 + (sw_size sw - 1)) with
      (sw_start sw + 1 * sw_size sw) by lia. rewrite Z_mod_plus_full, Z.mod_small by lia.
    rewrite list_lookup_insert_eq by lia. replace (Z.to_nat _ - length rest)%nat with 0%nat by lia. done.
  - specialize (Hel (i + 1)). replace (Z.to_nat (i + 1)) with (S (Z.to_nat i)) in Hel by lia.
    rewrite lookup_app_l by lia. simpl in Hel. rewrite Hel by lia.
    rewrite list_lookup_insert_ne by (rewrite mod_wrap by lia; bool_cases; lia).
    do 3 f_equal. lia.
Qed.

(** ** Correctness *)
Inductive sw_op :=
| SWrite (number value : Z)
| SRead (number_given : bool)
| SReady.

Abbreviation sw_ret := (Z * option Z * option Z)%type.

Definition sw_exec (sw : libtrace_slidingwindow_t) (op : sw_op)
  : outcome (libtrace_slidingwindow_t * sw_ret) :=
  match op with
  | SWrite n v => let! ' (sw', r) := libtrace_slidingwindow_try_write sw n v in Ok (sw', (r, None, None))
  | SRead g => libtrace_slidingwindow_try_read sw g
  | SReady => let! b := libtrace_slidingwindow_read_ready sw in Ok (sw, (Z.b2z b, None, None))
  end.

Definition win_exec (w : window) (op : sw_op) : window * sw_ret :=
  match op with
  | SWrite n v => let '(w', r) := win_write w n v in (w', (r, None, None))
  | SRead g => win_read w g
  | SReady => (w, (match win_slots w with v :: _ => Z.b2z (negb (v =? 0)) | [] => 0 end, None, None))
  end.

Fixpoint sw_run (sw : libtrace_slidingwindow_t) (ops : list sw_op)
  : outcome (libtrace_slidingwindow_t * list sw_ret) :=
  match ops with
  | [] => Ok (sw, [])
  | op :: ops' =>
      let! ' (sw1, r) := sw_exec sw op in
      let! ' (sw2, rs) := sw_run sw1 ops' in
      Ok (sw2, r :: rs)
  end.

Fixpoint win_run (w : window) (ops : list sw_op) : window * list sw_ret :=
  match ops with
  | [] => (w, [])
  | op :: ops' =>
      let '(w1, r) := win_exec w op in
      let '(w2, rs) := win_run w1 ops' in
      (w2, r :: rs)
  end.

Lemma sw_exec_refines sw w op :
  sw_rep sw w →
  ∃ sw', sw_exec sw op = Ok (sw', (win_exec w op).2) ∧ sw_rep sw' (win_exec w op).1.
Proof.
  intros R. destruct op as [n v|g|]; cbn [sw_exec win_exec].
  - destruct (sw_write_refines sw w n v R) as (sw' & -> & R').
    exists sw'. by destruct (win_write w n v).
  - by apply sw_read_refines.
  - destruct (sr_block _ _ R) as (es & He & _). unfold libtrace_slidingwindow_read_ready, sw_elems.
    destruct (sw_head sw w es R He) as (v & rest & -> & _ & Hget). rewrite He. simpl.
    rewrite Hget. by exists sw.
Qed.

Lemma sw_run_refines ops : ∀ sw w,
  sw_rep sw w →
  ∃ sw', sw_run sw ops = Ok (sw', (win_run w ops).2) ∧ sw_rep sw' (win_run w ops).1.
Proof.
  induction ops as [|op ops IH]; intros sw w R; [by exists sw|]. cbn [sw_run win_run].
  destruct (sw_exec_refines sw w op R) as (sw1 & -> & R1).
  destruct (win_exec w op) as [w1 r]. simpl in *.
  destruct (IH sw1 w1 R1) as (sw2 & -> & R2). exists sw2. by destruct (win_run w1 ops).
Qed.

(** C23: Refinement: any sequence of writes, reads and readiness tests
    on a window of [size] slots behaves like the abstract window: a value is
    accepted exactly when its number is one of the [size] numbers from the next
    one to be read on (64-bit arithmetic, so also across the wrap-around), and a
    read returns the value stored for the next number or nothing.  No access
    leaves the array. *)
Theorem slidingwindow_refines_window size start_number ops :
  0 < size < 2 ^ 63 →
  let w := {| win_base := start_number; win_slots := replicate (Z.to_nat size) 0 |} in
  ∃ sw, sw_run (libtrace_slidingwindow_init size start_number) ops = Ok (sw, (win_run w ops).2) ∧
    sw_rep sw (win_run w ops).1.
Proof. intros Hs w. apply sw_run_refines. by apply sw_rep_init. Qed.

(** The numbers the successful reads report. *)
Definition numbers (rs : list sw_ret) : list Z := omap (λ r : sw_ret, r.2) rs.

Definition all_ask (ops : list sw_op) : bool :=
  forallb (λ op, match op with SRead g => g | _ => true end) ops.

Lemma win_run_numbers ops : ∀ w,
  all_ask ops = true → 0 ≤ win_base w < 2 ^ 64 →
  numbers (win_run w ops).2
  = map (λ i, u64 (win_base w + Z.of_nat i)) (seq 0 (length (numbers (win_run w ops).2))).
Proof.
  induction ops as [|op ops IH]; intros w Hask Hb; [done|].
  simpl in Hask. apply andb_true_iff in Hask as [Hg Hask]. cbn [win_run].
  assert ((∃ w1 c, win_exec w op = (w1, (c, None, None)) ∧ win_base w1 = win_base w) ∨
    (∃ w1 v, win_exec w op = (w1, (1, Some v, Some (win_base w))) ∧
       win_base w1 = u64 (win_base w + 1))) as [(w1 & c & -> & Hb1)|(w1 & v & -> & Hb1)].
  { destruct op as [n v|g|]; simpl in Hg |- *; [| |by left; eauto].
    - left. unfold win_write. destruct (_ <? _); eauto.
    - unfold win_read. subst g. destruct (win_slots w) as [|v rest]; [by left; eauto|].
      destruct (v =? 0); [by left; eauto|by right; eauto]. }
  - specialize (IH w1 Hask). rewrite Hb1 in IH. destruct (win_run w1 ops) as [w2 rs]. by apply IH.
  - specialize (IH w1 Hask). rewrite Hb1 in IH. destruct (win_run w1 ops) as [w2 rs].
    simpl in *. change (omap _ rs) with (numbers rs). f_equal.
    + rewrite Z.add_0_r. by rewrite u64_small.
    + rewrite IH at 1 by apply u64_range. rewrite <- seq_shift, map_map.
      apply map_ext. intros i. rewrite u64_add_l. f_equal. lia.
Qed.

(** In-order delivery: in any run, the numbers reported by the
    successful reads are consecutive, from the initial number on, however the
    writes were ordered. *)
Theorem slidingwindow_in_order size start_number ops :
  0 < size < 2 ^ 63 → 0 ≤ start_number < 2 ^ 64 → all_ask ops = true →
  ∃ sw rs, sw_run (libtrace_slidingwindow_init size start_number) ops = Ok (sw, rs) ∧
    numbers rs = map (λ i, u64 (start_number + Z.of_nat i)) (seq 0 (length (numbers rs))).
Proof.
  intros Hs Hn Hask.
  destruct (sw_run_refines ops _ _ (sw_rep_init size start_number Hs)) as (sw & -> & _).
  do 2 eexists. split; [done|]. by apply win_run_numbers.
Qed.

Lemma slidingwindow_refines_window_witness :
  let ops := [SWrite 1 8; SRead true; SWrite 0 7; SWrite 9 5; SRead true; SRead true; SReady] in
  let w := {| win_base := 0; win_slots := replicate (Z.to_nat 3) 0 |} in
  ∃ sw, sw_run (libtrace_slidingwindow_init 3 0) ops = Ok (sw, (win_run w ops).2) ∧
    sw_rep sw (win_run w ops).1.
Proof.
  apply (slidingwindow_refines_window 3 0
    [SWrite 1 8; SRead true; SWrite 0 7; SWrite 9 5; SRead true; SRead true; SReady]). lia.
Defined.

(** Across the wrap-around of the counter. *)
Lemma slidingwindow_in_order_witness :
  let ops := [SWrite 0 8; SWrite SIZE_MAX 7; SRead true; SRead true] in
  ∃ sw rs, sw_run (libtrace_slidingwindow_init 3 SIZE_MAX) ops = Ok (sw, rs) ∧
    numbers rs = map (λ i, u64 (SIZE_MAX + Z.of_nat i)) (seq 0 (length (numbers rs))).
Proof.
  apply (slidingwindow_in_order 3 SIZE_MAX [SWrite 0 8; SWrite SIZE_MAX 7; SRead true; SRead true]);
    [lia|lia|reflexivity].
Defined.
