(* ===== verification/MessageQueue.v ===== *)
(** * The message queue: lib/data-struct/message_queue.c

    Messages between threads go through a pipe; [message_count], protected by a
    spin lock, is the number of messages not yet promised to a reader and is
    negative while readers wait.  A message is at most [PIPE_BUF] bytes, so the
    pipe delivers messages whole and in order: its contents are a list of
    messages.  First the operations run alone, then any number of threads
    interleaved at the pipe accesses and the critical sections. *)

From S2P Require Import Prelude.
Local Open Scope Z_scope.
Local Open Scope outcome_scope.

(** [INT_MIN] *)
Abbreviation LIBTRACE_MQ_FAILED := (- 2 ^ 31).

Record libtrace_message_queue_t (M : Type) := {
  mq_pipefd : Z * Z;
  mq_pipe : list M;            (* what has been written to [pipefd[1]] and not read *)
  mq_message_count : Z;
  mq_message_len : Z;
  mq_spin : bool;
}.
Arguments mq_pipefd {M} _.
Arguments mq_pipe {M} _.
Arguments mq_message_count {M} _.
Arguments mq_message_len {M} _.
Arguments mq_spin {M} _.

(** ** Operations *)
Section operations.
Context {M : Type}.
(** How many messages fit into the pipe. *)
Variable cap : Z.
Implicit Types mq : libtrace_message_queue_t M.

Definition mq_set mq (pipe : list M) (count : Z) (spin : bool) : libtrace_message_queue_t M :=
  {| mq_pipefd := mq_pipefd mq; mq_pipe := pipe; mq_message_count := count;
     mq_message_len := mq_message_len mq; mq_spin := spin |}.

(** [fds] are the descriptors [pipe] returns. *)
Definition libtrace_message_queue_init (fds : Z * Z) (message_len : Z)
  : outcome (libtrace_message_queue_t M) :=
  let! _ := oassert (negb (message_len =? 0)) in
  Ok {| mq_pipefd := fds; mq_pipe := []; mq_message_count := 0;
        mq_message_len := message_len; mq_spin := false |}.

Definition pipe_write mq (m : M) : outcome (libtrace_message_queue_t M) :=
  if Zlen (mq_pipe mq) <? cap
  then Ok (mq_set mq (mq_pipe mq ++ [m]) (mq_message_count mq) (mq_spin mq))
  else Fault Blocked.

Definition pipe_read mq : outcome (libtrace_message_queue_t M * M) :=
  match mq_pipe mq with
  | [] => Fault Blocked
  | m :: pipe => Ok (mq_set mq pipe (mq_message_count mq) (mq_spin mq), m)
  end.

Definition spin_lock mq : outcome (libtrace_message_queue_t M) :=
  let! held := pthread_mutex_lock (mq_spin mq) in
  Ok (mq_set mq (mq_pipe mq) (mq_message_count mq) held).

Definition spin_unlock mq : outcome (libtrace_message_queue_t M) :=
  let! held := pthread_mutex_unlock (mq_spin mq) in
  Ok (mq_set mq (mq_pipe mq) (mq_message_count mq) held).

(** The critical section of [put]: [ret = ++mq->message_count]. *)
Definition put_count_up mq : outcome (libtrace_message_queue_t M * Z) :=
  let! mq := spin_lock mq in
  let count := i32 (mq_message_count mq + 1) in
  let! mq := spin_unlock (mq_set mq (mq_pipe mq) count (mq_spin mq)) in
  Ok (mq, count).

Definition libtrace_message_queue_put mq (message : M)
  : outcome (libtrace_message_queue_t M * Z) :=
  let! _ := oassert (negb (mq_message_len mq =? 0)) in
  let! mq := pipe_write mq message in
  put_count_up mq.

(** The critical section of [get], [ret = mq->message_count--]: the count before the
    decrement. *)
Definition get_count_down mq : outcome (libtrace_message_queue_t M * Z) :=
  let! mq := spin_lock mq in
  let ret := mq_message_count mq in
  let! mq := spin_unlock (mq_set mq (mq_pipe mq) (i32 (mq_message_count mq - 1)) (mq_spin mq)) in
  Ok (mq, ret).

Definition libtrace_message_queue_get mq : outcome (libtrace_message_queue_t M * (Z * M)) :=
  let! ' (mq, ret) := get_count_down mq in
  let! ' (mq, message) := pipe_read mq in
  Ok (mq, (ret, message)).

(** [try_get] takes the lock, and keeps it for the [read] if there is a message; if not,
    it gives it back. *)
Definition try_enter mq : outcome (libtrace_message_queue_t M * option Z) :=
  let! mq := spin_lock mq in
  if 0 <? mq_message_count mq then
    let ret := i32 (mq_message_count mq - 1) in
    Ok (mq_set mq (mq_pipe mq) ret (mq_spin mq), Some ret)
  else
    let! mq := spin_unlock mq in
    Ok (mq, None).

(** The [read] and the end of the critical section. *)
Definition try_finish mq : outcome (libtrace_message_queue_t M * M) :=
  let! ' (mq, message) := pipe_read mq in
  let! mq := spin_unlock mq in
  Ok (mq, message).

Definition libtrace_message_queue_try_get mq
  : outcome (libtrace_message_queue_t M * (Z * option M)) :=
  if mq_message_count mq <=? 0 then Ok (mq, (LIBTRACE_MQ_FAILED, None))
  else
    let! ' (mq, entered) := try_enter mq in
    match entered with
    | Some ret => let! ' (mq, message) := try_finish mq in Ok (mq, (ret, Some message))
    | None => Ok (mq, (LIBTRACE_MQ_FAILED, None))
    end.

Definition libtrace_message_queue_count mq : Z := mq_message_count mq.

Definition libtrace_message_queue_destroy mq : libtrace_message_queue_t M :=
  {| mq_pipefd := mq_pipefd mq; mq_pipe := []; mq_message_count := 0;
     mq_message_len := 0; mq_spin := mq_spin mq |}.

Definition libtrace_message_queue_get_fd mq : Z := (mq_pipefd mq).1.
End operations.

(** ** Threads *)
Inductive pc (M : Type) :=
| PutWrite (m : M)           (* called put, about to write *)
| PutCount                   (* message written, count not yet raised *)
| GetCount                   (* called get *)
| GetRead (ret : Z)          (* count lowered, about to read *)
| TryTest                    (* called try_get *)
| TryLock                    (* the unlocked test passed *)
| TryRead (ret : Z)          (* holds the spin lock, about to read *)
| Done (ret : Z) (got : option M).
Arguments PutWrite {M} _.
Arguments PutCount {M}.
Arguments GetCount {M}.
Arguments GetRead {M} _.
Arguments TryTest {M}.
Arguments TryLock {M}.
Arguments TryRead {M} _.
Arguments Done {M} _ _.

Record mstate (M : Type) := MState {
  m_mq : libtrace_message_queue_t M;
  m_threads : list (pc M);
  m_sent : list M;             (* all messages written, in order *)
  m_got : list M;              (* all messages read, in order *)
}.
Arguments MState {M} _ _ _ _.
Arguments m_mq {M} _.
Arguments m_threads {M} _.
Arguments m_sent {M} _.
Arguments m_got {M} _.

Section threads.
Context {M : Type} (cap : Z).
Implicit Types (mq : libtrace_message_queue_t M) (ts : list (pc M)).

(** The critical section of [put] and of [get] is one step.  [try_get] reads from the
    pipe inside its own, so that others may act while it holds the lock. *)
Inductive mstep : mstate M → mstate M → Prop :=
| put_write mq mq' ts sent got i m :
    ts !! i = Some (PutWrite m) → pipe_write cap mq m = Ok mq' →
    mstep (MState mq ts sent got) (MState mq' (<[i := PutCount]> ts) (sent ++ [m]) got)
| put_count mq mq' ts sent got i c :
    ts !! i = Some PutCount → put_count_up mq = Ok (mq', c) →
    mstep (MState mq ts sent got) (MState mq' (<[i := Done c None]> ts) sent got)
| get_count mq mq' ts sent got i c :
    ts !! i = Some GetCount → get_count_down mq = Ok (mq', c) →
    mstep (MState mq ts sent got) (MState mq' (<[i := GetRead c]> ts) sent got)
| get_read mq mq' ts sent got i ret m :
    ts !! i = Some (GetRead ret) → pipe_read mq = Ok (mq', m) →
    mstep (MState mq ts sent got) (MState mq' (<[i := Done ret (Some m)]> ts) sent (got ++ [m]))
| try_fail mq ts sent got i :
    ts !! i = Some TryTest → mq_message_count mq ≤ 0 →
    mstep (MState mq ts sent got)
          (MState mq (<[i := Done LIBTRACE_MQ_FAILED None]> ts) sent got)
| try_pass mq ts sent got i :
    ts !! i = Some TryTest → 0 < mq_message_count mq →
    mstep (MState mq ts sent got) (MState mq (<[i := TryLock]> ts) sent got)
| try_lock mq mq' ts sent got i entered :
    ts !! i = Some TryLock → try_enter mq = Ok (mq', entered) →
    mstep (MState mq ts sent got)
          (MState mq' (<[i := match entered with Some ret => TryRead ret | None => Done LIBTRACE_MQ_FAILED None end]> ts) sent got)
| try_read mq mq' ts sent got i ret m :
    ts !! i = Some (TryRead ret) → try_finish mq = Ok (mq', m) →
    mstep (MState mq ts sent got) (MState mq' (<[i := Done ret (Some m)]> ts) sent (got ++ [m])).

Inductive msteps : mstate M → mstate M → Prop :=
| msteps_refl s : msteps s s
| msteps_next s s' s'' : msteps s s' → mstep s' s'' → msteps s s''.

(** Threads that have been promised a message, have written one that is not
    counted, or hold the lock. *)
Definition owed (p : pc M) : Z :=
  match p with GetRead _ | TryRead _ | PutCount => 1 | _ => 0 end.
Definition reading (p : pc M) : Z :=
  match p with TryRead _ => 1 | _ => 0 end.
Definition waiting (p : pc M) : Z :=
  match p with GetRead _ => 1 | _ => 0 end.

Fixpoint total (f : pc M → Z) ts : Z :=
  match ts with [] => 0 | p :: ts' => f p + total f ts' end.

Lemma total_insert f ts i p p' :
  ts !! i = Some p → total f (<[i := p']> ts) = total f ts - f p + f p'.
Proof.
  revert i. induction ts as [|q ts IH]; intros [|i] Hi; simplify_eq/=; [lia|].
  rewrite (IH i Hi). lia.
Qed.

Lemma total_bound f ts : (∀ p, 0 ≤ f p ≤ 1) → 0 ≤ total f ts ≤ Zlen ts.
Proof.
  intros Hf. induction ts as [|p ts IH]; simpl; [unfold Zlen; simpl; lia|].
  rewrite Zlen_cons. specialize (Hf p). lia.
Qed.

Lemma total_pos f ts i p : (∀ p, 0 ≤ f p) → ts !! i = Some p → f p ≤ total f ts.
Proof.
  intros Hf. revert i. induction ts as [|q ts IH]; intros [|i] Hi; simplify_eq/=.
  - assert (0 ≤ total f ts); [|lia]. clear -Hf. induction ts as [|q ts IH]; simpl; [lia|].
    specialize (Hf q). lia.
  - specialize (IH i Hi). specialize (Hf q). lia.
Qed.
(** The initial state: threads that have just made their calls. *)
Definition fresh_call (p : pc M) : Prop :=
  match p with PutWrite _ | GetCount | TryTest => True | _ => False end.

Lemma total_fresh f ts :
  (∀ p, fresh_call p → f p = 0) → Forall fresh_call ts → total f ts = 0.
Proof. intros Hf. induction 1 as [|p ts Hp _ IH]; simpl; [done|]. rewrite Hf by done. lia. Qed.
End threads.

(** ** Invariant *)
Section invariant.
Context {M : Type} (cap : Z) (n : nat).
(** The pipe is finite and there are fewer threads than an [int] can count. *)
Hypothesis cap_bound : 0 < cap.
Hypothesis int_bound : cap + Z.of_nat n + 1 < 2 ^ 31.

Record minv (s : mstate M) : Prop := {
  mi_threads : length (m_threads s) = n;
  mi_pipe : m_sent s = m_got s ++ mq_pipe (m_mq s);
  mi_cap : Zlen (mq_pipe (m_mq s)) ≤ cap;
  mi_count : Zlen (mq_pipe (m_mq s)) = mq_message_count (m_mq s) + total owed (m_threads s);
  mi_spin : total reading (m_threads s) = Z.b2z (mq_spin (m_mq s));
  mi_held : mq_spin (m_mq s) = true → 0 ≤ mq_message_count (m_mq s);
}.

Lemma minv_count_range s : minv s → - Z.of_nat n ≤ mq_message_count (m_mq s) ≤ cap.
Proof using Type.
  intros I. pose proof (mi_count _ I). pose proof (mi_cap _ I).
  pose proof (Zlen_nonneg (mq_pipe (m_mq s))).
  pose proof (total_bound owed (m_threads s) ltac:(by intros []; simpl; lia)) as Hb.
  unfold Zlen in Hb. rewrite (mi_threads _ I) in Hb. lia.
Qed.

Lemma pipe_read_ok (mq mq' : libtrace_message_queue_t M) m :
  pipe_read mq = Ok (mq', m) →
  ∃ rest, mq_pipe mq = m :: rest ∧ mq' = mq_set mq rest (mq_message_count mq) (mq_spin mq).
Proof using Type.
  unfold pipe_read. destruct (mq_pipe mq) as [|m' rest]; [done|]. intros [= <- ->]. by exists rest.
Qed.

(** Replace one thread's entry in the sums of the invariant. *)
Ltac replace_thread :=
  simpl in *; rewrite ?length_insert; erewrite ?total_insert by done; simpl.

(** The critical sections, when the lock is free. *)
Lemma put_count_up_ok (mq mq' : libtrace_message_queue_t M) c :
  put_count_up mq = Ok (mq', c) →
  mq_spin mq = false ∧ c = i32 (mq_message_count mq + 1) ∧ mq' = mq_set mq (mq_pipe mq) c false.
Proof using Type.
  unfold put_count_up, spin_lock, spin_unlock. destruct (mq_spin mq); [done|]. cbn. by intros [= <- <-].
Qed.

Lemma get_count_down_ok (mq mq' : libtrace_message_queue_t M) c :
  get_count_down mq = Ok (mq', c) →
  mq_spin mq = false ∧ c = mq_message_count mq ∧ mq' = mq_set mq (mq_pipe mq) (i32 (mq_message_count mq - 1)) false.
Proof using Type.
  unfold get_count_down, spin_lock, spin_unlock. destruct (mq_spin mq); [done|]. cbn. by intros [= <- <-].
Qed.

Lemma try_enter_ok (mq mq' : libtrace_message_queue_t M) entered :
  try_enter mq = Ok (mq', entered) →
  mq_spin mq = false ∧
  match entered with
  | Some c => 0 < mq_message_count mq ∧ c = i32 (mq_message_count mq - 1) ∧ mq' = mq_set mq (mq_pipe mq) c true
  | None => mq_message_count mq ≤ 0 ∧ mq' = mq_set mq (mq_pipe mq) (mq_message_count mq) false
  end.
Proof using Type.
  unfold try_enter, spin_lock, spin_unlock. destruct (mq_spin mq); [done|]. cbn.
  destruct (Z.ltb_spec 0 (mq_message_count mq)); intros [= <- <-]; by split_and!.
Qed.

Lemma try_finish_ok (mq mq' : libtrace_message_queue_t M) m :
  try_finish mq = Ok (mq', m) →
  mq_spin mq = true ∧ ∃ rest, mq_pipe mq = m :: rest ∧ mq' = mq_set mq rest (mq_message_count mq) false.
Proof using Type.
  unfold try_finish. intros H. obind_inv H. destruct a as [mq1 m1]. apply pipe_read_ok in Hstep as (rest & Hp & ->).
  unfold spin_unlock in H. cbn in H. destruct (mq_spin mq); [|done]. injection H as <- <-. split; [done|]. by exists rest.
Qed.

Lemma minv_step s s' : minv s → mstep cap s s' → minv s'.
Proof using cap_bound int_bound.
  intros I H. pose proof (minv_count_range s I) as Hrange.
  destruct H as [mq mq' ts sent got i m Hi Hw|mq mq' ts sent got i c Hi Hw|mq mq' ts sent got i c Hi Hw
    |mq mq' ts sent got i ret m Hi Hr|mq ts sent got i Hi Hc|mq ts sent got i Hi Hc
    |mq mq' ts sent got i entered Hi Hw|mq mq' ts sent got i ret m Hi Hr];
    destruct I as [Hn Hp Hcap Hcnt Hsp Hh]; simpl in *.
  - unfold pipe_write in Hw. destruct (Z.ltb_spec (Zlen (mq_pipe mq)) cap); [|done].
    injection Hw as <-. split; replace_thread; autorewrite with zlen; try lia; try done.
    rewrite Hp. by rewrite <- (assoc_L app).
  - apply put_count_up_ok in Hw as (Hs & -> & ->). rewrite i32_small by lia.
    split; replace_thread; rewrite ?Hs in *; simpl in *; try lia; done.
  - apply get_count_down_ok in Hw as (Hs & -> & ->). rewrite i32_small by lia.
    split; replace_thread; rewrite ?Hs in *; simpl in *; try lia; done.
  - apply pipe_read_ok in Hr as (rest & Hpipe & ->). rewrite Hpipe, Zlen_cons in *.
    split; replace_thread; try lia; try done. rewrite Hp. by rewrite <- (assoc_L app).
  - split; replace_thread; try lia; done.
  - split; replace_thread; try lia; done.
  - apply try_enter_ok in Hw as (Hs & Hw). destruct entered as [c|].
    + destruct Hw as (Hc & -> & ->). rewrite i32_small by lia.
      split; replace_thread; rewrite ?Hs in *; simpl in *; try lia; done.
    + destruct Hw as (Hc & ->). split; replace_thread; rewrite ?Hs in *; simpl in *; try lia; done.
  - apply try_finish_ok in Hr as (Hs & rest & Hpipe & ->). rewrite Hpipe, Zlen_cons in *. rewrite Hs in *.
    split; replace_thread; try lia; try done. rewrite Hp. by rewrite <- (assoc_L app).
Qed.

Lemma minv_start mq ts :
  length ts = n → Forall fresh_call ts →
  mq_pipe mq = [] → mq_message_count mq = 0 → mq_spin mq = false →
  minv (MState mq ts [] []).
Proof using cap_bound.
  intros Hn Hf Hp Hc Hs. split; simpl; rewrite ?Hp, ?Hc, ?Hs; try done.
  - change (Zlen (@nil M)) with 0. lia.
  - rewrite (total_fresh owed ts); [done| |done]. by intros [].
  - rewrite (total_fresh reading ts); [done| |done]. by intros [].
Qed.

Lemma minv_reachable mq ts s :
  length ts = n → Forall fresh_call ts →
  mq_pipe mq = [] → mq_message_count mq = 0 → mq_spin mq = false →
  msteps cap (MState mq ts [] []) s → minv s.
Proof using cap_bound int_bound.
  intros ? ? ? ? ? H. remember (MState mq ts [] []) as s0 eqn:E.
  induction H as [s|s s' s'' _ IH Hst]; [subst; by apply minv_start|].
  eapply minv_step; [by apply IH|done].
Qed.

(** At most one thread is in the critical section of [try_get]. *)
Lemma one_reader ts i j a b :
  total (M := M) reading ts ≤ 1 → ts !! i = Some (TryRead a) → ts !! j = Some (TryRead b) → i = j.
Proof using Type.
  clear. intros Ht Hi Hj. destruct (decide (i = j)) as [|Hne]; [done|].
  pose proof (total_insert reading ts i _ TryTest Hi) as H1. simpl in H1.
  assert (<[i := TryTest]> ts !! j = Some (TryRead b)) as Hj' by (by rewrite list_lookup_insert_ne).
  pose proof (total_pos reading _ j _ ltac:(by intros []; simpl; lia) Hj') as H2. simpl in H2. lia.
Qed.

Lemma try_finish_some s i ret : minv s → m_threads s !! i = Some (TryRead ret) →
  mq_spin (m_mq s) = true ∧ ∃ mq' m, try_finish (m_mq s) = Ok (mq', m).
Proof using Type.
  intros I Hi.
  pose proof (total_pos reading _ i _ ltac:(by intros []; simpl; lia) Hi) as Hr. simpl in Hr.
  pose proof (total_pos owed _ i _ ltac:(by intros []; simpl; lia) Hi) as Ho. simpl in Ho.
  pose proof (mi_spin _ I) as Hs. pose proof (mi_count _ I) as Hc. pose proof (mi_held _ I) as Hh.
  unfold try_finish, pipe_read, spin_unlock.
  destruct (mq_spin (m_mq s)); simpl in Hs; [specialize (Hh eq_refl)|lia]. split; [done|].
  destruct (mq_pipe (m_mq s)) as [|m rest]; [change (Zlen (@nil M)) with 0 in Hc; lia|]. by do 2 eexists.
Qed.

(** A state in which no thread can go on. *)
Definition stuck (s : mstate M) : Prop := ∀ s', ¬ mstep cap s s'.

(** Then each thread has finished, waits in [put] for room in the pipe or in [get] for
    a message: none waits for the lock. *)
Lemma stuck_threads s i p : minv s → stuck s → m_threads s !! i = Some p →
  match p with
  | Done _ _ => True
  | PutWrite _ => cap ≤ Zlen (mq_pipe (m_mq s))
  | GetRead _ => mq_pipe (m_mq s) = []
  | _ => False
  end.
Proof using Type.
  intros I Hst Hi. destruct s as [mq ts sent got]. cbn [m_mq m_threads] in *.
  assert (mq_spin mq = false) as Hs.
  { destruct (mq_spin mq) eqn:Hs; [|done]. pose proof (mi_spin _ I) as Ht. cbn in Ht. rewrite Hs in Ht. exfalso.
    assert (∃ j ret, ts !! j = Some (TryRead ret)) as (j & ret & Hj).
    { clear -Ht. induction ts as [|q ts IH]; [done|]. destruct (decide (reading q = 0)) as [Hq|Hq].
      - destruct IH as (j & ret & Hj); [cbn in Ht; cbn; lia|]. by exists (S j), ret.
      - destruct q; try done. by exists O, ret. }
    destruct (try_finish_some _ j ret I Hj) as (_ & mq' & m & Hf). by eapply Hst, (try_read cap mq mq' ts sent got j ret m). }
  destruct p as [m| | |ret| | |ret|ret got']; try done.
  - destruct (Z.ltb_spec (Zlen (mq_pipe mq)) cap) as [Hlt|]; [|done]. exfalso.
    eapply Hst, put_write; [done|]. unfold pipe_write. by rewrite (proj2 (Z.ltb_lt _ _) Hlt).
  - eapply Hst, put_count; [done|]. unfold put_count_up, spin_lock, spin_unlock. by rewrite Hs.
  - eapply Hst, get_count; [done|]. unfold get_count_down, spin_lock, spin_unlock. by rewrite Hs.
  - destruct (mq_pipe mq) as [|m rest] eqn:Hp; [done|]. exfalso. eapply Hst, get_read; [done|]. unfold pipe_read. by rewrite Hp.
  - destruct (Z.le_gt_cases (mq_message_count mq) 0); [by eapply Hst, try_fail|by eapply Hst, try_pass; [|lia]].
  - assert (∃ mq' e, try_enter mq = Ok (mq', e)) as (mq' & e & He).
    { unfold try_enter, spin_lock, spin_unlock. rewrite Hs. cbn. destruct (0 <? _); by do 2 eexists. }
    by eapply Hst, try_lock.
  - destruct (try_finish_some _ i ret I Hi) as [Hh _]. cbn in Hh. congruence.
Qed.

Section reachable.
Context (mq0 : libtrace_message_queue_t M) (ts0 : list (pc M)).
Hypothesis init_ok : mq_pipe mq0 = [] ∧ mq_message_count mq0 = 0 ∧ mq_spin mq0 = false.
Hypothesis calls_ok : length ts0 = n ∧ Forall fresh_call ts0.

(** C26: In every state reachable from a new queue by any number of calls made at the same
    time, each by a thread (their number and the size of the pipe together less than
    2^31): the messages received so far are an initial piece of those sent, and the
    rest is in the pipe; the counter is the
    number of messages in the pipe less the readers that have been promised one and
    less the messages that have been written and not yet counted; a thread in the
    critical section of [try_get] holds the lock alone and finds a message, so that it
    does not block others; and if no thread can go on, each has finished, waits in
    [put] with the pipe full or waits in [get] with the pipe empty, and the counter is
    the number of messages less the waiting readers. *)
Theorem message_queue_accounts s :
  msteps cap (MState mq0 ts0 [] []) s →
  m_sent s = m_got s ++ mq_pipe (m_mq s) ∧
  libtrace_message_queue_count (m_mq s) = Zlen (mq_pipe (m_mq s)) - total owed (m_threads s) ∧
  (∀ i ret, m_threads s !! i = Some (TryRead ret) →
     mq_spin (m_mq s) = true ∧ (∃ mq' m, try_finish (m_mq s) = Ok (mq', m)) ∧
     ∀ j ret', m_threads s !! j = Some (TryRead ret') → j = i) ∧
  (stuck s →
     (∀ i p, m_threads s !! i = Some p →
        match p with
        | Done _ _ => True
        | PutWrite _ => cap ≤ Zlen (mq_pipe (m_mq s))
        | GetRead _ => mq_pipe (m_mq s) = []
        | _ => False
        end) ∧
     libtrace_message_queue_count (m_mq s) = Zlen (mq_pipe (m_mq s)) - total waiting (m_threads s)).
Proof using cap_bound int_bound init_ok calls_ok.
  intros H. destruct init_ok as (? & ? & ?), calls_ok as (? & ?).
  assert (minv s) as I by by apply (minv_reachable mq0 ts0).
  pose proof (mi_count _ I) as Hc. unfold libtrace_message_queue_count. split_and!; [apply I|lia|..].
  - intros i ret Hi. destruct (try_finish_some s i ret I Hi) as [Hs Hf]. split_and!; [done|done|].
    intros j ret' Hj. eapply one_reader; [|done|done]. rewrite (mi_spin _ I), Hs. done.
  - intros Hst. assert (∀ i p, m_threads s !! i = Some p → owed p = waiting p) as Heq.
    { intros i p Hi. pose proof (stuck_threads s i p I Hst Hi). by destruct p. }
    split; [intros i p; by apply stuck_threads|].
    assert (total owed (m_threads s) = total waiting (m_threads s)) as Ht; [|lia].
    clear -Heq. induction (m_threads s) as [|p ts IH]; [done|]. simpl. f_equal; [by apply (Heq O)|].
    apply IH. intros i q Hq. by apply (Heq (S i)).
Qed.
End reachable.
End invariant.

(** ** The operations run alone *)
Section alone.
Context {M : Type} (cap : Z).
Implicit Types mq : libtrace_message_queue_t M.

(** A queue at rest that holds [ms]. *)
Definition mq_holds mq (ms : list M) : Prop :=
  mq_pipe mq = ms ∧ mq_message_count mq = Zlen ms ∧ mq_spin mq = false ∧
  mq_message_len mq ≠ 0 ∧ Zlen ms < 2 ^ 31 - 1.

(** [put] appends and returns the new number of messages, or blocks
    when the pipe is full; [try_get] returns the oldest message with the number
    of messages left, or [LIBTRACE_MQ_FAILED] and nothing on an empty queue. *)
Theorem message_queue_put_try_get mq ms m :
  mq_holds mq ms →
  (Zlen ms < cap → Zlen ms < 2 ^ 31 - 2 →
     ∃ mq', libtrace_message_queue_put cap mq m = Ok (mq', Zlen ms + 1) ∧
       mq_holds mq' (ms ++ [m])) ∧
  (cap ≤ Zlen ms → libtrace_message_queue_put cap mq m = Fault Blocked) ∧
  match ms with
  | [] => libtrace_message_queue_try_get mq = Ok (mq, (LIBTRACE_MQ_FAILED, None))
  | x :: rest => ∃ mq', libtrace_message_queue_try_get mq = Ok (mq', (Zlen rest, Some x)) ∧
                   mq_holds mq' rest
  end.
Proof.
  intros (Hp & Hc & Hs & Hl & Hb). unfold libtrace_message_queue_put, put_count_up, pipe_write.
  pose proof (Zlen_nonneg ms). rewrite (proj2 (Z.eqb_neq _ _) Hl), Hp. split_and!.
  - intros Hcap Hb'. rewrite (proj2 (Z.ltb_lt _ _) Hcap). simpl. unfold spin_lock. simpl.
    rewrite Hs. simpl. rewrite i32_small, Hc by lia. eexists. split; [done|].
    unfold mq_holds. simpl. autorewrite with zlen. split_and!; [done|lia|done|done|lia].
  - intros Hcap. by rewrite (proj2 (Z.ltb_ge _ _) Hcap).
  - unfold libtrace_message_queue_try_get, try_enter, try_finish. rewrite Hc. destruct ms as [|x rest]; [done|].
    rewrite Zlen_cons in *. pose proof (Zlen_nonneg rest).
    rewrite (proj2 (Z.leb_gt _ _)) by lia. unfold spin_lock. rewrite Hs. simpl.
    rewrite Hc, (proj2 (Z.ltb_lt _ _)), i32_small by lia. unfold pipe_read. simpl.
    rewrite Hp. simpl. replace (1 + Zlen rest - 1) with (Zlen rest) by lia.
    eexists. split; [done|]. unfold mq_holds. simpl. split_and!; [done..|lia].
Qed.

(** [get] takes the same message as [try_get] and leaves the same
    queue, but it returns the number of messages before the call, where the
    comment documents the number remaining ([try_get] returns that one). *)
Theorem message_queue_get_returns_old_count mq x rest :
  mq_holds mq (x :: rest) →
  ∃ mq', libtrace_message_queue_get mq = Ok (mq', (Zlen rest + 1, x)) ∧
    libtrace_message_queue_try_get mq = Ok (mq', (Zlen rest, Some x)) ∧ mq_holds mq' rest.
Proof.
  intros (Hp & Hc & Hs & Hl & Hb). rewrite Zlen_cons in *. pose proof (Zlen_nonneg rest).
  unfold libtrace_message_queue_get, get_count_down, libtrace_message_queue_try_get, try_enter, try_finish, spin_lock. rewrite Hs, Hc.
  rewrite (proj2 (Z.leb_gt _ _)) by lia. simpl.
  rewrite (proj2 (Z.ltb_lt _ _)), !i32_small by lia. unfold pipe_read. simpl.
  rewrite Hp. simpl. replace (1 + Zlen rest - 1) with (Zlen rest) by lia.
  eexists. split_and!; [do 3 f_equal; lia|done|]. unfold mq_holds. simpl. split_and!; [done..|lia].
Qed.
End alone.

(** ** Instances of the theorems *)
Definition mq_sample (ms : list Z) : libtrace_message_queue_t Z :=
  {| mq_pipefd := (3, 4); mq_pipe := ms; mq_message_count := Zlen ms; mq_message_len := 8;
     mq_spin := false |}.

(** Thread 0 puts 5, thread 1 tries to get it and holds the lock, and thread 2 gets. *)
Definition mq_three (pipe : list Z) (count : Z) (spin : bool) (ts : list (pc Z)) (sent got : list Z) : mstate Z :=
  MState (mq_set (mq_sample []) pipe count spin) ts sent got.

Lemma message_queue_accounts_witness :
  (let s := mq_three [5] 0 true [Done 1 None; TryRead 0; GetCount] [5] [] in
   msteps 8 (MState (mq_sample []) [PutWrite 5; TryTest; GetCount] [] []) s ∧
   (∃ mq' m, try_finish (m_mq s) = Ok (mq', m))) ∧
  let s := mq_three [] (-1) false [Done 1 None; Done 0 (Some 5); GetRead 0] [5] [5] in
  msteps 8 (MState (mq_sample []) [PutWrite 5; TryTest; GetCount] [] []) s ∧ m_sent s = m_got s ++ [] ∧
  libtrace_message_queue_count (m_mq s) = -1.
Proof.
  set (s0 := MState (mq_sample []) [PutWrite 5; TryTest; GetCount] [] []).
  set (s4 := mq_three [5] 0 true [Done 1 None; TryRead 0; GetCount] [5] []).
  set (s6 := mq_three [] (-1) false [Done 1 None; Done 0 (Some 5); GetRead 0] [5] [5]).
  assert (msteps 8 s0 s4) as H4.
  { eapply msteps_next; [|by apply (try_lock 8 (mq_set (mq_sample []) [5] 1 false) (mq_set (mq_sample []) [5] 0 true)
      [Done 1 None; TryLock; GetCount] [5] [] 1 (Some 0))].
    eapply msteps_next; [|by apply (try_pass 8 (mq_set (mq_sample []) [5] 1 false) [Done 1 None; TryTest; GetCount] [5] [] 1)].
    eapply msteps_next; [|by apply (put_count 8 (mq_set (mq_sample []) [5] 0 false) (mq_set (mq_sample []) [5] 1 false)
      [PutCount; TryTest; GetCount] [5] [] 0 1)].
    eapply msteps_next; [apply msteps_refl|].
    by apply (put_write 8 (mq_sample []) (mq_set (mq_sample []) [5] 0 false) [PutWrite 5; TryTest; GetCount] [] [] 0 5). }
  assert (msteps 8 s0 s6) as H6.
  { eapply msteps_next; [|by apply (get_count 8 (mq_set (mq_sample []) [] 0 false) (mq_set (mq_sample []) [] (-1) false)
      [Done 1 None; Done 0 (Some 5); GetCount] [5] [5] 2 0)].
    eapply msteps_next; [exact H4|].
    by apply (try_read 8 (mq_set (mq_sample []) [5] 0 true) (mq_set (mq_sample []) [] 0 false)
      [Done 1 None; TryRead 0; GetCount] [5] [] 1 0 5). }
  destruct (message_queue_accounts 8 3 ltac:(lia) ltac:(lia) (mq_sample []) [PutWrite 5; TryTest; GetCount]
    ltac:(done) ltac:(by split; [|repeat constructor]) s4 H4) as (_ & _ & Ht & _).
  destruct (message_queue_accounts 8 3 ltac:(lia) ltac:(lia) (mq_sample []) [PutWrite 5; TryTest; GetCount]
    ltac:(done) ltac:(by split; [|repeat constructor]) s6 H6) as (Hf & Hc & _).
  split; [split; [exact H4|]; by destruct (Ht 1%nat 0 eq_refl) as (_ & ? & _)|]. split_and!; [exact H6|exact Hf|exact Hc].
Defined.

Lemma message_queue_put_try_get_witness :
  ∃ mq', libtrace_message_queue_put 8 (mq_sample [1]) 2 = Ok (mq', 2) ∧ mq_holds mq' [1; 2].
Proof.
  apply (message_queue_put_try_get 8 (mq_sample [1]) [1] 2); [|reflexivity|reflexivity].
  repeat split. discriminate.
Defined.

Lemma message_queue_get_returns_old_count_witness :
  ∃ mq', libtrace_message_queue_get (mq_sample [1; 2]) = Ok (mq', (2, 1)) ∧
    libtrace_message_queue_try_get (mq_sample [1; 2]) = Ok (mq', (1, Some 1)) ∧ mq_holds mq' [2].
Proof.
  apply (message_queue_get_returns_old_count (mq_sample [1; 2]) 1 [2]). repeat split. discriminate.
Defined.
