(* ===== verification/Packet.v ===== *)
(** * Packets: the cached properties of lib/trace.c

    A packet ([libtrace_packet_t]) is a framing header, the bytes from the link
    layer on, and a cache of what has been worked out about it: lengths, link
    type and the positions of the layer 2, 3 and 4 headers.  Pointers into the
    packet are offsets into [pk_mem], the memory that holds the captured bytes;
    the memory may extend beyond the capture.

    A capture format is a table of functions ([libtrace_format_t]); those the
    decoders call are a record of optional operations on a packet. *)

From S2P Require Import Prelude Byteswap.
Local Open Scope Z_scope.
Local Open Scope outcome_scope.

(** ** Link types *)
Inductive libtrace_linktype_t :=
| TRACE_TYPE_UNKNOWN
| TRACE_TYPE_HDLC_POS
| TRACE_TYPE_ETH
| TRACE_TYPE_ATM
| TRACE_TYPE_80211
| TRACE_TYPE_NONE
| TRACE_TYPE_LINUX_SLL
| TRACE_TYPE_PFLOG
| TRACE_TYPE_POS
| TRACE_TYPE_80211_PRISM
| TRACE_TYPE_AAL5
| TRACE_TYPE_DUCK
| TRACE_TYPE_80211_RADIO
| TRACE_TYPE_LLCSNAP
| TRACE_TYPE_PPP
| TRACE_TYPE_METADATA
| TRACE_TYPE_NONDATA
| TRACE_TYPE_OPENBSD_LOOP.

#[export] Instance linktype_eq_dec : EqDecision libtrace_linktype_t.
Proof. solve_decision. Defined.

(** ** Packets

    [pk_link_type] is [None] for the value 0 (not cached); the [int] lengths are
    -1 when they are not cached; null header pointers are [None].  [pk_type] is the
    packet's type in the RT protocol. *)
Record libtrace_packet_t := {
  pk_header : list Z;
  pk_mem : list Z;
  pk_payload : Z;
  pk_type : Z;
  pk_capture_length : Z;
  pk_wire_length : Z;
  pk_payload_length : Z;
  pk_l2_header : option Z;
  pk_link_type : option libtrace_linktype_t;
  pk_l2_remaining : Z;
  pk_l3_header : option Z;
  pk_l3_ethertype : Z;
  pk_l3_remaining : Z;
  pk_l4_header : option Z;
  pk_transport_proto : Z;
  pk_l4_remaining : Z;
}.

(** ** Assignments to groups of fields *)
Definition pk_set_lengths (p : libtrace_packet_t) (cap wire : Z) : libtrace_packet_t :=
  {| pk_header := pk_header p; pk_mem := pk_mem p; pk_payload := pk_payload p; pk_type := pk_type p;
     pk_capture_length := cap; pk_wire_length := wire;
     pk_payload_length := pk_payload_length p;
     pk_l2_header := pk_l2_header p; pk_link_type := pk_link_type p;
     pk_l2_remaining := pk_l2_remaining p; pk_l3_header := pk_l3_header p;
     pk_l3_ethertype := pk_l3_ethertype p; pk_l3_remaining := pk_l3_remaining p;
     pk_l4_header := pk_l4_header p; pk_transport_proto := pk_transport_proto p;
     pk_l4_remaining := pk_l4_remaining p |}.

Definition pk_set_payload_length (p : libtrace_packet_t) (len : Z) : libtrace_packet_t :=
  {| pk_header := pk_header p; pk_mem := pk_mem p; pk_payload := pk_payload p; pk_type := pk_type p;
     pk_capture_length := pk_capture_length p; pk_wire_length := pk_wire_length p;
     pk_payload_length := len;
     pk_l2_header := pk_l2_header p; pk_link_type := pk_link_type p;
     pk_l2_remaining := pk_l2_remaining p; pk_l3_header := pk_l3_header p;
     pk_l3_ethertype := pk_l3_ethertype p; pk_l3_remaining := pk_l3_remaining p;
     pk_l4_header := pk_l4_header p; pk_transport_proto := pk_transport_proto p;
     pk_l4_remaining := pk_l4_remaining p |}.

Definition pk_set_link_type (p : libtrace_packet_t) (t : option libtrace_linktype_t)
  : libtrace_packet_t :=
  {| pk_header := pk_header p; pk_mem := pk_mem p; pk_payload := pk_payload p; pk_type := pk_type p;
     pk_capture_length := pk_capture_length p; pk_wire_length := pk_wire_length p;
     pk_payload_length := pk_payload_length p;
     pk_l2_header := pk_l2_header p; pk_link_type := t;
     pk_l2_remaining := pk_l2_remaining p; pk_l3_header := pk_l3_header p;
     pk_l3_ethertype := pk_l3_ethertype p; pk_l3_remaining := pk_l3_remaining p;
     pk_l4_header := pk_l4_header p; pk_transport_proto := pk_transport_proto p;
     pk_l4_remaining := pk_l4_remaining p |}.

Definition pk_set_l2 (p : libtrace_packet_t) (h : option Z) (rem : Z) : libtrace_packet_t :=
  {| pk_header := pk_header p; pk_mem := pk_mem p; pk_payload := pk_payload p; pk_type := pk_type p;
     pk_capture_length := pk_capture_length p; pk_wire_length := pk_wire_length p;
     pk_payload_length := pk_payload_length p;
     pk_l2_header := h; pk_link_type := pk_link_type p;
     pk_l2_remaining := rem; pk_l3_header := pk_l3_header p;
     pk_l3_ethertype := pk_l3_ethertype p; pk_l3_remaining := pk_l3_remaining p;
     pk_l4_header := pk_l4_header p; pk_transport_proto := pk_transport_proto p;
     pk_l4_remaining := pk_l4_remaining p |}.

Definition pk_set_l3 (p : libtrace_packet_t) (h : option Z) (ethertype rem : Z)
  : libtrace_packet_t :=
  {| pk_header := pk_header p; pk_mem := pk_mem p; pk_payload := pk_payload p; pk_type := pk_type p;
     pk_capture_length := pk_capture_length p; pk_wire_length := pk_wire_length p;
     pk_payload_length := pk_payload_length p;
     pk_l2_header := pk_l2_header p; pk_link_type := pk_link_type p;
     pk_l2_remaining := pk_l2_remaining p; pk_l3_header := h;
     pk_l3_ethertype := ethertype; pk_l3_remaining := rem;
     pk_l4_header := pk_l4_header p; pk_transport_proto := pk_transport_proto p;
     pk_l4_remaining := pk_l4_remaining p |}.

Definition pk_set_l4 (p : libtrace_packet_t) (h : option Z) (proto rem : Z)
  : libtrace_packet_t :=
  {| pk_header := pk_header p; pk_mem := pk_mem p; pk_payload := pk_payload p; pk_type := pk_type p;
     pk_capture_length := pk_capture_length p; pk_wire_length := pk_wire_length p;
     pk_payload_length := pk_payload_length p;
     pk_l2_header := pk_l2_header p; pk_link_type := pk_link_type p;
     pk_l2_remaining := pk_l2_remaining p; pk_l3_header := pk_l3_header p;
     pk_l3_ethertype := pk_l3_ethertype p; pk_l3_remaining := pk_l3_remaining p;
     pk_l4_header := h; pk_transport_proto := proto; pk_l4_remaining := rem |}.

Definition pk_set_mem (p : libtrace_packet_t) (mem : list Z) (payload : Z)
  : libtrace_packet_t :=
  {| pk_header := pk_header p; pk_mem := mem; pk_payload := payload; pk_type := pk_type p;
     pk_capture_length := pk_capture_length p; pk_wire_length := pk_wire_length p;
     pk_payload_length := pk_payload_length p;
     pk_l2_header := pk_l2_header p; pk_link_type := pk_link_type p;
     pk_l2_remaining := pk_l2_remaining p; pk_l3_header := pk_l3_header p;
     pk_l3_ethertype := pk_l3_ethertype p; pk_l3_remaining := pk_l3_remaining p;
     pk_l4_header := pk_l4_header p; pk_transport_proto := pk_transport_proto p;
     pk_l4_remaining := pk_l4_remaining p |}.

(** ** The format's operations

    An absent function is [None].  [set_capture_length] may change the framing
    header, and returns the new length. *)
Record libtrace_format_t := {
  f_get_link_type : option (libtrace_packet_t → libtrace_linktype_t);
  f_get_capture_length : option (libtrace_packet_t → Z);
  f_get_wire_length : option (libtrace_packet_t → Z);
  f_get_framing_length : option (libtrace_packet_t → Z);
  f_set_capture_length : option (libtrace_packet_t → Z → list Z * Z);
}.

Abbreviation LIBTRACE_PACKET_BUFSIZE := 65536.
(** [~0U], converted to [size_t]. *)
Abbreviation ALL_ONES_32 := (2 ^ 32 - 1).

Definition trace_clear_cache (p : libtrace_packet_t) : libtrace_packet_t :=
  {| pk_header := pk_header p; pk_mem := pk_mem p; pk_payload := pk_payload p; pk_type := pk_type p;
     pk_capture_length := -1; pk_wire_length := -1; pk_payload_length := -1;
     pk_l2_header := None; pk_link_type := None; pk_l2_remaining := 0;
     pk_l3_header := None; pk_l3_ethertype := 0; pk_l3_remaining := 0;
     pk_l4_header := None; pk_transport_proto := 0; pk_l4_remaining := 0 |}.

Section format.
Variable fmt : libtrace_format_t.

(** An [int] becomes a [size_t]. *)
Definition int_to_size (n : Z) : Z := u64 n.

Definition trace_get_capture_length (p : libtrace_packet_t)
  : outcome (libtrace_packet_t * Z) :=
  match (if pk_capture_length p =? -1 then
           match f_get_capture_length fmt with
           | None => None
           | Some f => Some (pk_set_lengths p (i32 (f p)) (pk_wire_length p))
           end
         else Some p) with
  | None => Ok (p, ALL_ONES_32)
  | Some p' =>
      let! _ := oassert (pk_capture_length p' <? LIBTRACE_PACKET_BUFSIZE) in
      Ok (p', int_to_size (pk_capture_length p'))
  end.

Definition trace_get_wire_length (p : libtrace_packet_t) : outcome (libtrace_packet_t * Z) :=
  match (if pk_wire_length p =? -1 then
           match f_get_wire_length fmt with
           | None => None
           | Some f => Some (pk_set_lengths p (pk_capture_length p) (i32 (f p)))
           end
         else Some p) with
  | None => Ok (p, ALL_ONES_32)
  | Some p' =>
      let! _ := oassert (pk_wire_length p' <? LIBTRACE_PACKET_BUFSIZE) in
      Ok (p', int_to_size (pk_wire_length p'))
  end.

Definition trace_get_framing_length (p : libtrace_packet_t) : Z :=
  match f_get_framing_length fmt with
  | Some f => int_to_size (f p)
  | None => ALL_ONES_32
  end.

Definition trace_get_link_type (p : libtrace_packet_t)
  : libtrace_packet_t * libtrace_linktype_t :=
  match pk_link_type p with
  | Some t => (p, t)
  | None =>
      match f_get_link_type fmt with
      | None => (p, TRACE_TYPE_UNKNOWN)
      | Some f => (pk_set_link_type p (Some (f p)), f p)
      end
  end.

(** Called with a place for the link type and, if [want_remaining], one for the
    number of bytes. *)
Definition trace_get_packet_buffer (p : libtrace_packet_t) (want_remaining : bool)
  : outcome (libtrace_packet_t * (Z * libtrace_linktype_t * option Z)) :=
  let '(p, linktype) := trace_get_link_type p in
  if want_remaining then
    let! ' (p, cap) := trace_get_capture_length p in
    let! ' (p, wire) := trace_get_wire_length p in
    let cap_len := i32 cap in
    let wire_len := i32 wire in
    let! _ := oassert (0 <=? cap_len) in
    let remaining :=
      if wire_len <? 0 then cap_len
      else if wire_len <? cap_len then wire_len
      else cap_len in
    Ok (p, (pk_payload p, linktype, Some remaining))
  else Ok (p, (pk_payload p, linktype, None)).

Definition trace_get_link (p : libtrace_packet_t) : Z := pk_payload p.

Definition trace_set_capture_length (p : libtrace_packet_t) (size : Z)
  : libtrace_packet_t * Z :=
  match f_set_capture_length fmt with
  | None => (p, ALL_ONES_32)
  | Some f =>
      let '(header', len) := f p size in
      let p' :=
        {| pk_header := header'; pk_mem := pk_mem p; pk_payload := pk_payload p; pk_type := pk_type p;
           pk_capture_length := i32 len; pk_wire_length := pk_wire_length p;
           pk_payload_length := pk_payload_length p;
           pk_l2_header := pk_l2_header p; pk_link_type := pk_link_type p;
           pk_l2_remaining := pk_l2_remaining p; pk_l3_header := pk_l3_header p;
           pk_l3_ethertype := pk_l3_ethertype p; pk_l3_remaining := pk_l3_remaining p;
           pk_l4_header := pk_l4_header p; pk_transport_proto := pk_transport_proto p;
           pk_l4_remaining := pk_l4_remaining p |} in
      (p', int_to_size (i32 len))
  end.
End format.

(** ** Decoding steps

    The header-skipping functions share one idiom: a null [remaining] means that
    nothing is checked; otherwise a header of [n] bytes that does not fit sets
    it to 0 and gives up, and one that fits is subtracted. *)
Definition consume (remaining : option Z) (n : Z) : bool * option Z :=
  match remaining with
  | None => (true, None)
  | Some r => if r <? n then (false, Some 0) else (true, Some (r - n))
  end.

(** [if (type) *type = v]: the field is only read when it is wanted. *)
Definition store_if (dest : option Z) (v : outcome Z) : outcome (option Z) :=
  match dest with
  | None => Ok None
  | Some _ => let! x := v in Ok (Some x)
  end.

(** What a decoding step returns: a pointer, and the in/out parameters. *)
Abbreviation decoded := (option Z * option Z * option Z)%type.

Definition be16 (mem : list Z) (off : Z) : outcome Z :=
  let! v := read16 mem off in Ok (ntohs v).

(** *** Reading and accounting

    [within mem off r slack]: the [r] bytes from [off] on are in the memory, and
    [slack] more (the decoders read some fields before they check the length). *)
Definition within (mem : list Z) (off r slack : Z) : Prop :=
  0 ≤ off ∧ 0 ≤ r ∧ off + r + slack ≤ Zlen mem.

(** A decoding step started at [off] with [r] bytes left: it does not fault; if
    it goes on, it has moved by at least [n] bytes and the new position and the
    new count describe the same end of the packet; if it gives up, the count has
    not grown. *)
Definition good_advance (n off r : Z) (c : outcome decoded) : Prop :=
  ∃ ptr t r', c = Ok (ptr, Some t, Some r') ∧
    match ptr with
    | Some off' => off + n ≤ off' ∧ 0 ≤ r' ∧ off' + r' = off + r
    | None => 0 ≤ r' ≤ r
    end.

Definition good_step (off r : Z) (c : outcome decoded) : Prop := good_advance 0 off r c.

Lemma good_advance_step n off r c : 0 ≤ n → good_advance n off r c → good_step off r c.
Proof.
  intros Hn (ptr & t & r' & -> & H). exists ptr, t, r'. split; [done|]. destruct ptr; lia.
Qed.

Lemma good_advance_skip n off r k t :
  0 ≤ k ≤ r → n ≤ k → good_advance n off r (Ok (Some (off + k), Some t, Some (r - k))).
Proof. intros. exists (Some (off + k)), t, (r - k). split; [done|lia]. Qed.

Lemma good_advance_stop n off r r' t :
  0 ≤ r' ≤ r → good_advance n off r (Ok (None, Some t, Some r')).
Proof. intros. by exists None, t, r'. Qed.

Lemma good_advance_trans n off r k c :
  0 ≤ k ≤ r → n ≤ k → good_step (off + k) (r - k) c → good_advance n off r c.
Proof.
  intros Hk Hn (ptr & t & r' & -> & H). exists ptr, t, r'. split; [done|].
  destruct ptr; lia.
Qed.
Create HintDb decode.
#[export] Hint Resolve good_advance_skip good_advance_stop : decode.

Lemma read8_ok mem off : 0 ≤ off < Zlen mem → ∃ b, read8 mem off = Ok b.
Proof. intros H. destruct (aget_total mem off H) as (b & _ & Hb). by exists b. Qed.

Lemma read16_ok mem off : 0 ≤ off → off + 2 ≤ Zlen mem → ∃ v, read16 mem off = Ok v.
Proof.
  intros. unfold read16. destruct (aget_total mem off) as (b0 & _ & ->); [lia|]. simpl.
  destruct (aget_total mem (off + 1)) as (b1 & _ & ->); [lia|]. by eexists.
Qed.

Lemma be16_ok mem off : 0 ≤ off → off + 2 ≤ Zlen mem → ∃ v, be16 mem off = Ok v.
Proof. intros H1 H2. unfold be16. destruct (read16_ok mem off H1 H2) as [v ->]. by eexists. Qed.

Lemma be16_range mem off v : bytes_ok mem → be16 mem off = Ok v → 0 ≤ v < 2 ^ 16.
Proof.
  intros Hb H. unfold be16, read16 in H. obind_inv H.
  injection H as <-. obind_inv Hstep. obind_inv Hstep. injection Hstep as <-.
  apply aget_ok_inv in Hstep0 as [_ H0]. apply aget_ok_inv in Hstep1 as [_ H1].
  pose proof (bytes_ok_lookup _ _ _ Hb H0). pose proof (bytes_ok_lookup _ _ _ Hb H1).
  apply byteswap16_range. lia.
Qed.

(** The idiom as a whole: a header of [n] bytes whose type field is read. *)
Lemma good_advance_header off r n t field :
  0 ≤ r → 0 ≤ n → (n ≤ r → ∃ v, field = Ok v) →
  good_advance n off r
    (match consume (Some r) n with
     | (false, rem') => Ok (None, Some t, rem')
     | (true, rem') =>
         let! type' := store_if (Some t) field in Ok (Some (off + n), type', rem')
     end).
Proof.
  intros Hr Hn Hf. unfold consume. destruct (Z.ltb_spec r n); [apply good_advance_stop; lia|].
  destruct Hf as [v ->]; [lia|]. simpl. apply good_advance_skip; lia.
Qed.

(** ** What the cached lengths guarantee *)
Lemma i32_u64 n : i32 (u64 n) = i32 n.
Proof.
  unfold i32, u64. rewrite <- (Z.mod_mod_divide (n `mod` 2 ^ 64 + 2 ^ 31) (2 ^ 64) (2 ^ 32)).
  - rewrite Zplus_mod_idemp_l. rewrite Z.mod_mod_divide; [done|by exists (2 ^ 32)].
  - by exists (2 ^ 32).
Qed.

Lemma i32_range n : - 2 ^ 31 ≤ i32 n < 2 ^ 31.
Proof. unfold i32. pose proof (Z.mod_pos_bound (n + 2 ^ 31) (2 ^ 32)). lia. Qed.

Lemma i32_idemp n : i32 (i32 n) = i32 n.
Proof. apply i32_small, i32_range. Qed.

(** The packet's cached [int] fields are [int]s. *)
Definition lengths_ok (p : libtrace_packet_t) : Prop :=
  i32 (pk_capture_length p) = pk_capture_length p ∧ i32 (pk_wire_length p) = pk_wire_length p.

Lemma capture_length_ok fmt p p' n :
  trace_get_capture_length fmt p = Ok (p', n) → lengths_ok p →
  lengths_ok p' ∧ i32 n = pk_capture_length p' ∧ pk_capture_length p' < 65536 ∧
  pk_payload p' = pk_payload p ∧ pk_mem p' = pk_mem p ∧ pk_link_type p' = pk_link_type p ∧
  pk_wire_length p' = pk_wire_length p ∧
  (pk_capture_length p' ≠ -1 → trace_get_capture_length fmt p' = Ok (p', n)).
Proof.
  unfold trace_get_capture_length. intros H Hok.
  destruct (Z.eqb_spec (pk_capture_length p) (-1)) as [Heq|Hne].
  - destruct (f_get_capture_length fmt) as [f|].
    + obind_inv H. injection H as <- <-. simpl in *.
      destruct (Z.ltb_spec (i32 (f p)) 65536); [|done].
      destruct Hok as [_ Hw]. unfold lengths_ok, int_to_size. simpl.
      rewrite i32_u64, !i32_idemp. split_and!; try done. intros Hne.
      rewrite (proj2 (Z.eqb_neq _ _) Hne). simpl. by rewrite (proj2 (Z.ltb_lt _ _)).
    + injection H as <- <-. rewrite Heq. by split_and!.
  - obind_inv H. injection H as <- <-. destruct (Z.ltb_spec (pk_capture_length p) 65536); [|done].
    unfold int_to_size. rewrite i32_u64. destruct Hok as [Hc Hw]. rewrite Hc.
    split_and!; try done. intros _. rewrite (proj2 (Z.eqb_neq _ _) Hne). simpl.
    by rewrite (proj2 (Z.ltb_lt _ _)).
Qed.

Lemma wire_length_ok fmt p p' n :
  trace_get_wire_length fmt p = Ok (p', n) → lengths_ok p →
  lengths_ok p' ∧ i32 n = pk_wire_length p' ∧
  pk_payload p' = pk_payload p ∧ pk_mem p' = pk_mem p ∧ pk_link_type p' = pk_link_type p ∧
  pk_capture_length p' = pk_capture_length p.
Proof.
  unfold trace_get_wire_length. intros H Hok.
  destruct (Z.eqb_spec (pk_wire_length p) (-1)) as [Heq|Hne].
  - destruct (f_get_wire_length fmt) as [f|]; [|injection H as <- <-; by split_and!].
    obind_inv H. injection H as <- <-. simpl in *.
    destruct Hok as [Hc _]. unfold lengths_ok, int_to_size. simpl.
    rewrite i32_u64, !i32_idemp. by split_and!.
  - obind_inv H. injection H as <- <-.
    unfold int_to_size. rewrite i32_u64. destruct Hok as [Hc Hw]. rewrite Hw. by split_and!.
Qed.

Lemma link_type_ok fmt p :
  let p' := (trace_get_link_type fmt p).1 in
  lengths_ok p → lengths_ok p' ∧ pk_payload p' = pk_payload p ∧ pk_mem p' = pk_mem p ∧
  pk_capture_length p' = pk_capture_length p ∧ pk_wire_length p' = pk_wire_length p.
Proof.
  intros p' H. subst p'. unfold trace_get_link_type.
  destruct (pk_link_type p); [by split_and!|]. by destruct (f_get_link_type fmt); split_and!.
Qed.

(** The headers that have been found so far. *)
Definition headers (p : libtrace_packet_t) : option Z * option Z * option Z :=
  (pk_l2_header p, pk_l3_header p, pk_l4_header p).

Lemma capture_length_frame fmt p p' n :
  trace_get_capture_length fmt p = Ok (p', n) →
  headers p' = headers p ∧ pk_payload_length p' = pk_payload_length p ∧ pk_mem p' = pk_mem p.
Proof.
  unfold trace_get_capture_length. intros H.
  destruct (_ =? -1); [destruct (f_get_capture_length fmt)|]; repeat obind_inv H;
    by injection H as <- _.
Qed.

Lemma packet_buffer_frame fmt p b p' res :
  trace_get_packet_buffer fmt p b = Ok (p', res) →
  headers p' = headers p ∧ pk_payload_length p' = pk_payload_length p.
Proof.
  unfold trace_get_packet_buffer. intros H.
  assert (headers (trace_get_link_type fmt p).1 = headers p ∧
    pk_payload_length (trace_get_link_type fmt p).1 = pk_payload_length p) as [H0 H1].
  { unfold trace_get_link_type. destruct (pk_link_type p); [done|].
    by destruct (f_get_link_type fmt). }
  destruct (trace_get_link_type fmt p) as [p0 t0]. simpl in H0, H1.
  destruct b; [|injection H as <- _; done].
  obind_inv H. destruct a as [p1 cap]. obind_inv H. destruct a as [p2 wire]. obind_inv H.
  injection H as <- _. rewrite <- H0, <- H1.
  destruct (capture_length_frame _ _ _ _ Hstep) as (<- & <- & _).
  unfold trace_get_wire_length in Hstep0.
  destruct (_ =? -1); [destruct (f_get_wire_length fmt)|]; repeat obind_inv Hstep0;
    by injection Hstep0 as <- _.
Qed.

Lemma packet_buffer_ok fmt p p' ptr t r :
  lengths_ok p → trace_get_packet_buffer fmt p true = Ok (p', (ptr, t, Some r)) →
  ptr = pk_payload p ∧ pk_mem p' = pk_mem p ∧ 0 ≤ r < 65536 ∧
  r = (if pk_wire_length p' <? 0 then pk_capture_length p'
       else Z.min (pk_capture_length p') (pk_wire_length p')).
Proof.
  intros Hok H. unfold trace_get_packet_buffer in H.
  pose proof (link_type_ok fmt p Hok) as (Hok0 & Hp0 & Hm0 & _).
  destruct (trace_get_link_type fmt p) as [p0 t0]. simpl in *.
  obind_inv H. destruct a as [p1 cap]. obind_inv H. destruct a as [p2 wire]. obind_inv H.
  destruct (capture_length_ok _ _ _ _ Hstep Hok0) as (Hok1 & Hc & Hlt & Hp1 & Hm1 & _).
  destruct (wire_length_ok _ _ _ _ Hstep0 Hok1) as (Hok2 & Hw & Hp2 & Hm2 & _ & Hcap).
  injection H as <- <- <- <-. destruct (Z.leb_spec 0 (i32 cap)) as [Hge|]; [|done].
  split; [congruence|]. split; [congruence|].
  rewrite Hw, Hc, Hcap in *. bool_cases; lia.
Qed.

(** The number of bytes [trace_get_packet_buffer] offers to the
    decoders is never negative, never more than the capture length nor, if the
    wire length is known, more than the wire length, and it is the smaller of
    the two; the pointer is the packet's payload. *)
Theorem packet_buffer_remaining fmt p p' ptr t r :
  lengths_ok p → trace_get_packet_buffer fmt p true = Ok (p', (ptr, t, Some r)) →
  ptr = pk_payload p ∧ pk_mem p' = pk_mem p ∧ 0 ≤ r < 65536 ∧
  r = (if pk_wire_length p' <? 0 then pk_capture_length p'
       else Z.min (pk_capture_length p') (pk_wire_length p')).
Proof. apply packet_buffer_ok. Qed.

(** ** An instance: 60 bytes captured of a 64-byte Ethernet frame *)
Definition sample_format (t : libtrace_linktype_t) (cap wire : Z) : libtrace_format_t :=
  {| f_get_link_type := Some (λ _, t); f_get_capture_length := Some (λ _, cap);
     f_get_wire_length := Some (λ _, wire); f_get_framing_length := Some (λ _, 16);
     f_set_capture_length := Some (λ p n, (pk_header p, n)) |}.

(** A packet nothing has been worked out about, in [bytes]. *)
Definition fresh_packet (bytes : list Z) : libtrace_packet_t :=
  trace_clear_cache
    {| pk_header := []; pk_mem := bytes; pk_payload := 0; pk_type := 0; pk_capture_length := 0;
       pk_wire_length := 0; pk_payload_length := 0; pk_l2_header := None;
       pk_link_type := None; pk_l2_remaining := 0; pk_l3_header := None;
       pk_l3_ethertype := 0; pk_l3_remaining := 0; pk_l4_header := None;
       pk_transport_proto := 0; pk_l4_remaining := 0 |}.

Lemma packet_buffer_remaining_witness :
  let p := fresh_packet (replicate 60 0) in
  0 = pk_payload p ∧ replicate 60 0 = pk_mem p ∧ 0 ≤ 60 < 65536 ∧ 60 = Z.min 60 64.
Proof.
  intros p. apply (packet_buffer_remaining (sample_format TRACE_TYPE_ETH 60 64) p
    (pk_set_lengths (pk_set_link_type p (Some TRACE_TYPE_ETH)) 60 64) 0 TRACE_TYPE_ETH 60);
    [split|]; reflexivity.
Defined.
