(* ===== verification/PktMeta.v ===== *)
(** * Meta-data headers: lib/protocols_pktmeta.c

    The headers a capture device puts in front of the link layer: Linux SLL,
    PFLOG, Prism and Radiotap. *)

From S2P Require Import Prelude Byteswap Packet.
Local Open Scope Z_scope.
Local Open Scope outcome_scope.

(** [sizeof] of the headers. *)
Abbreviation sizeof_sll := 16.
Abbreviation sizeof_pflog := 49.
Abbreviation sizeof_prism := 144.

(** [arphrd_type_to_libtrace] of linktypes.c: ARPHRD_ETHER, _EETHER,
    _IEEE80211, _IEEE80211_RADIOTAP, _PPP, _LOOPBACK and _NONE. *)
Definition arphrd_type_to_libtrace (arphrd : Z) : libtrace_linktype_t :=
  if arphrd =? 1 then TRACE_TYPE_ETH
  else if arphrd =? 2 then TRACE_TYPE_ETH
  else if arphrd =? 801 then TRACE_TYPE_80211
  else if arphrd =? 803 then TRACE_TYPE_80211_RADIO
  else if arphrd =? 512 then TRACE_TYPE_NONE
  else if arphrd =? 772 then TRACE_TYPE_ETH
  else if arphrd =? 0xFFFE then TRACE_TYPE_NONE
  else TRACE_TYPE_UNKNOWN.

(** ** Skipping one header

    Besides the pointer: [(arphrd_type, next, remaining)]. *)
Definition trace_get_payload_from_linux_sll (mem : list Z) (link : Z)
    (arphrd_type next remaining : option Z)
  : outcome (option Z * option Z * option Z * option Z) :=
  match consume remaining sizeof_sll with
  | (false, rem') => Ok (None, arphrd_type, next, rem')
  | (true, rem') =>
      let! next' := store_if next (be16 mem (link + 14)) in
      let! arphrd' := store_if arphrd_type (be16 mem (link + 2)) in
      Ok (Some (link + sizeof_sll), arphrd', next', rem')
  end.

(** The link type these return is written only on success. *)
Abbreviation meta_decoded := (option Z * libtrace_linktype_t * option Z)%type.

Definition trace_get_payload_from_pflog (mem : list Z) (link : Z)
    (type : libtrace_linktype_t) (remaining : option Z) : outcome meta_decoded :=
  match consume remaining sizeof_pflog with
  | (false, rem') => Ok (None, type, rem')
  | (true, rem') => Ok (Some (link + sizeof_pflog), TRACE_TYPE_NONE, rem')
  end.

Definition trace_get_payload_from_prism (mem : list Z) (link : Z)
    (type : libtrace_linktype_t) (remaining : option Z) : outcome meta_decoded :=
  match consume remaining sizeof_prism with
  | (false, rem') => Ok (None, type, rem')
  | (true, rem') => Ok (Some (link + sizeof_prism), TRACE_TYPE_80211, rem')
  end.

(** The length field is read before it is known to be there; it is little
    endian on the wire and needs no swapping on this host. *)
Definition trace_get_payload_from_radiotap (mem : list Z) (link : Z)
    (type : libtrace_linktype_t) (remaining : option Z) : outcome meta_decoded :=
  let! rtaplen := read16 mem (link + 2) in
  match consume remaining rtaplen with
  | (false, rem') => Ok (None, type, rem')
  | (true, rem') => Ok (Some (link + rtaplen), TRACE_TYPE_80211, rem')
  end.

(** ** The two public functions *)
Definition trace_get_packet_meta (fmt : libtrace_format_t) (p : libtrace_packet_t)
    (want_remaining : bool)
  : outcome (libtrace_packet_t * (option Z * libtrace_linktype_t * option Z)) :=
  let! ' (p', (pktbuf, linktype, rem)) := trace_get_packet_buffer fmt p true in
  let rem := if want_remaining then rem else None in
  match linktype with
  | TRACE_TYPE_LINUX_SLL | TRACE_TYPE_80211_RADIO | TRACE_TYPE_80211_PRISM =>
      Ok (p', (Some pktbuf, linktype, rem))
  | _ => Ok (p', (None, linktype, rem))
  end.

Definition trace_get_payload_from_meta (mem : list Z) (meta : Z)
    (linktype : libtrace_linktype_t) (remaining : Z)
  : outcome (option Z * libtrace_linktype_t * Z) :=
  match linktype with
  | TRACE_TYPE_LINUX_SLL =>
      let! ' (nexthdr, arphrd, next, rem) :=
        trace_get_payload_from_linux_sll mem meta (Some 0) (Some 0) (Some remaining) in
      let arphrd := default 0 arphrd in
      let next := default 0 next in
      let linktype' :=
        if bool_decide (arphrd_type_to_libtrace arphrd = TRACE_TYPE_ETH) && negb (next =? 0x0060)
        then TRACE_TYPE_NONE
        else arphrd_type_to_libtrace arphrd in
      Ok (nexthdr, linktype', default 0 rem)
  | TRACE_TYPE_80211_RADIO =>
      let! ' (nexthdr, t, rem) :=
        trace_get_payload_from_radiotap mem meta linktype (Some remaining) in
      Ok (nexthdr, t, default 0 rem)
  | TRACE_TYPE_80211_PRISM =>
      let! ' (nexthdr, t, rem) :=
        trace_get_payload_from_prism mem meta linktype (Some remaining) in
      Ok (nexthdr, t, default 0 rem)
  | TRACE_TYPE_PFLOG =>
      let! ' (nexthdr, t, rem) :=
        trace_get_payload_from_pflog mem meta linktype (Some remaining) in
      Ok (nexthdr, t, default 0 rem)
  | _ => Ok (None, linktype, remaining)
  end.
