(* ===== verification/Layer2.v ===== *)
(** * Layer 2: lib/protocols_l2.c

    Skipping link-layer headers (Ethernet, 802.1Q, MPLS, PPPoE, LLC/SNAP,
    802.11, HDLC framings, ATM), finding the layer 2 header of a packet, the MAC
    addresses, and stripping the headers between Ethernet and IP. *)

From S2P Require Import Prelude Byteswap Packet PktMeta.
Local Open Scope Z_scope.
Local Open Scope outcome_scope.

(** ** Sizes and ethertypes *)
Abbreviation sizeof_ether := 14.
Abbreviation sizeof_8021q := 4.
Abbreviation sizeof_llcsnap := 8.
Abbreviation sizeof_80211 := 30.
Abbreviation sizeof_ppp := 2.
Abbreviation sizeof_pppoe := 6.
Abbreviation sizeof_chdlc := 4.
Abbreviation sizeof_ppp_hdlc := 4.
Abbreviation sizeof_atm_capture_cell := 4.

Abbreviation TRACE_ETHERTYPE_LOOPBACK := 0x0060.
Abbreviation TRACE_ETHERTYPE_IP := 0x0800.
Abbreviation TRACE_ETHERTYPE_8021Q := 0x8100.
Abbreviation TRACE_ETHERTYPE_IPV6 := 0x86DD.
Abbreviation TRACE_ETHERTYPE_MPLS := 0x8847.
Abbreviation TRACE_ETHERTYPE_PPP_SES := 0x8864.

(** ** Skipping one header

    [type] and [remaining] are in/out parameters that may be null. *)
Definition trace_get_payload_from_ethernet (mem : list Z) (ethernet : Z)
    (type remaining : option Z) : outcome decoded :=
  match consume remaining sizeof_ether with
  | (false, rem') => Ok (None, type, rem')
  | (true, rem') =>
      let! type' := store_if type (be16 mem (ethernet + 12)) in
      Ok (Some (ethernet + sizeof_ether), type', rem')
  end.

Definition trace_get_payload_from_vlan (mem : list Z) (ethernet : Z)
    (type remaining : option Z) : outcome decoded :=
  match consume remaining sizeof_8021q with
  | (false, rem') => Ok (None, type, rem')
  | (true, rem') =>
      let! type' := store_if type (be16 mem (ethernet + 2)) in
      Ok (Some (ethernet + sizeof_8021q), type', rem')
  end.

(** The stack bit is read before the length is checked, and a header that does
    not fit leaves [remaining] as it is. *)
Definition trace_get_payload_from_mpls (mem : list Z) (ethernet : Z)
    (type remaining : option Z) : outcome decoded :=
  let! _ := oassert (bool_decide (type ≠ None)) in
  let! b2 := read8 mem (ethernet + 2) in
  let! type' :=
    if Z.land b2 0x01 =? 0 then Ok (Some TRACE_ETHERTYPE_MPLS)
    else if match remaining with None => true | Some r => 5 <=? r end then
      let! b4 := read8 mem (ethernet + 4) in
      let v := Z.land b4 0xF0 in
      Ok (Some (if v =? 0x40 then TRACE_ETHERTYPE_IP
                else if v =? 0x60 then TRACE_ETHERTYPE_IPV6
                else 0))
    else Ok type in
  match remaining with
  | None => Ok (Some (ethernet + 4), type', None)
  | Some r =>
      if r <? 4 then Ok (None, type', Some r)
      else Ok (Some (ethernet + 4), type', Some (r - 4))
  end.

Definition trace_get_payload_from_llcsnap (mem : list Z) (link : Z)
    (type remaining : option Z) : outcome decoded :=
  match consume remaining sizeof_llcsnap with
  | (false, rem') => Ok (None, type, rem')
  | (true, rem') =>
      let! type' := store_if type (be16 mem (link + 6)) in
      Ok (Some (link + sizeof_llcsnap), type', rem')
  end.

(** Fields of the first two bytes of an 802.11 header. *)
Definition wifi_type (b0 : Z) : Z := Z.land (Z.shiftr b0 2) 3.
Definition wifi_subtype (b0 : Z) : Z := Z.land (Z.shiftr b0 4) 15.
Definition wifi_to_ds (b1 : Z) : Z := Z.land b1 1.
Definition wifi_from_ds (b1 : Z) : Z := Z.land (Z.shiftr b1 1) 1.

(** How far the ethertype (or LLC header) is from byte 30. *)
Definition wifi_extra (b0 b1 : Z) : Z :=
  let extra := if negb (wifi_to_ds b1 =? 0) && negb (wifi_from_ds b1 =? 0) then 0 else -6 in
  if negb (Z.land (wifi_subtype b0) 0x8 =? 0) then extra + 2 else extra.

Definition shorter_than (remaining : option Z) (n : Z) : bool :=
  match remaining with None => false | Some r => r <? n end.

(** An 802.2 LLC/SNAP header after the 802.11 header is handed to the LLC/SNAP
    step with [remaining] as it was on entry. *)
Definition trace_get_payload_from_80211 (mem : list Z) (link : Z)
    (type remaining : option Z) : outcome decoded :=
  if shorter_than remaining sizeof_80211 then Ok (None, type, Some 0)
  else
    let! b0 := read8 mem link in
    if negb (wifi_type b0 =? 2) then Ok (None, type, remaining)
    else
      let! b1 := read8 mem (link + 1) in
      let extra := wifi_extra b0 b1 in
      if shorter_than remaining 2 then Ok (None, type, Some 0)
      else
        let eth := link + sizeof_80211 + extra in
        let! v := read16 mem eth in
        if v =? 0xaaaa then trace_get_payload_from_llcsnap mem eth type remaining
        else
          let! type' := store_if type (Ok (ntohs v)) in
          Ok (Some (eth + 2), type',
              (λ r, u32 (r - sizeof_80211 - extra - 2)) <$> remaining).

Definition trace_get_payload_from_ppp (mem : list Z) (link : Z)
    (type remaining : option Z) : outcome decoded :=
  match consume remaining sizeof_ppp with
  | (false, rem') => Ok (None, type, rem')
  | (true, rem') =>
      let! type' := store_if type
        (let! v := be16 mem link in Ok (if v =? 0x0021 then TRACE_ETHERTYPE_IP else 0)) in
      Ok (Some (link + sizeof_ppp), type', rem')
  end.

Definition trace_get_payload_from_pppoe (mem : list Z) (link : Z)
    (type remaining : option Z) : outcome decoded :=
  let! _ := oassert (bool_decide (type ≠ None)) in
  match consume remaining sizeof_pppoe with
  | (false, rem') => Ok (None, type, rem')
  | (true, rem') => trace_get_payload_from_ppp mem (link + sizeof_pppoe) type rem'
  end.

Definition trace_get_payload_from_chdlc (mem : list Z) (link : Z)
    (type remaining : option Z) : outcome decoded :=
  match consume remaining sizeof_chdlc with
  | (false, rem') => Ok (None, type, rem')
  | (true, rem') =>
      let! type' := store_if type (be16 mem (link + 2)) in
      Ok (Some (link + sizeof_chdlc), type', rem')
  end.

(** Both the link control protocol and an unknown protocol give type 0. *)
Definition trace_get_payload_from_ppp_hdlc (mem : list Z) (link : Z)
    (type remaining : option Z) : outcome decoded :=
  match consume remaining sizeof_ppp_hdlc with
  | (false, rem') => Ok (None, type, rem')
  | (true, rem') =>
      let! type' := store_if type
        (let! v := be16 mem (link + 2) in
         Ok (if v =? 0x0021 then TRACE_ETHERTYPE_IP else if v =? 0xc021 then 0 else 0)) in
      Ok (Some (link + sizeof_ppp_hdlc), type', rem')
  end.

(** The payload type is bits 28 to 30 of the cell header. *)
Definition trace_get_payload_from_atm (mem : list Z) (link : Z)
    (type remaining : option Z) : outcome decoded :=
  if shorter_than remaining sizeof_atm_capture_cell then Ok (None, type, Some 0)
  else
    let! type' := store_if type
      (let! b3 := read8 mem (link + 3) in Ok (Z.land (Z.shiftr b3 4) 7)) in
    Ok (Some (link + sizeof_atm_capture_cell), type',
        (λ r, r - sizeof_atm_capture_cell) <$> remaining).

(** The version nibble of a raw IP packet as an ethertype; another version
    leaves the ethertype as it was. *)
Definition guess_ethertype (b : Z) (ethertype : option Z) : outcome (option Z) :=
  match ethertype with
  | None => if (Z.land b 0xF0 =? 0x40) || (Z.land b 0xF0 =? 0x60)
            then Fault NullDeref else Ok None
  | Some e =>
      Ok (Some (if Z.land b 0xF0 =? 0x40 then TRACE_ETHERTYPE_IP
                else if Z.land b 0xF0 =? 0x60 then TRACE_ETHERTYPE_IPV6 else e))
  end.

(** ** Any link type *)
Definition trace_get_payload_from_layer2 (mem : list Z) (link : Z)
    (linktype : libtrace_linktype_t) (ethertype remaining : option Z) : outcome decoded :=
  match linktype with
  | TRACE_TYPE_UNKNOWN => Ok (None, ethertype, remaining)
  | TRACE_TYPE_80211_PRISM | TRACE_TYPE_80211_RADIO | TRACE_TYPE_PFLOG | TRACE_TYPE_LINUX_SLL =>
      Ok (None, ethertype, remaining)
  | TRACE_TYPE_DUCK => Ok (None, ethertype, remaining)
  | TRACE_TYPE_METADATA | TRACE_TYPE_NONDATA => Ok (None, ethertype, remaining)
  | TRACE_TYPE_80211 => trace_get_payload_from_80211 mem link ethertype remaining
  | TRACE_TYPE_ETH => trace_get_payload_from_ethernet mem link ethertype remaining
  | TRACE_TYPE_NONE =>
      let! b := read8 mem link in
      let! e := guess_ethertype b ethertype in
      Ok (Some link, e, remaining)
  | TRACE_TYPE_PPP => trace_get_payload_from_ppp mem link ethertype remaining
  | TRACE_TYPE_ATM =>
      let! ' (l, _, rem') := trace_get_payload_from_atm mem link None remaining in
      match l with
      | Some l => trace_get_payload_from_llcsnap mem l ethertype rem'
      | None => Ok (None, ethertype, rem')
      end
  | TRACE_TYPE_LLCSNAP => trace_get_payload_from_llcsnap mem link ethertype remaining
  | TRACE_TYPE_HDLC_POS => trace_get_payload_from_chdlc mem link ethertype remaining
  | TRACE_TYPE_POS => trace_get_payload_from_ppp_hdlc mem link ethertype remaining
  | TRACE_TYPE_AAL5 => Ok (None, ethertype, remaining)
  | TRACE_TYPE_OPENBSD_LOOP =>
      let link := link + 4 in
      let! b := read8 mem link in
      let! e := guess_ethertype b ethertype in
      Ok (Some link, e, remaining)
  end.

(** Link types that stand for a layer 2 header, and those of the meta-data
    headers in front of one. *)
Definition is_l2_type (t : libtrace_linktype_t) : bool :=
  match t with
  | TRACE_TYPE_HDLC_POS | TRACE_TYPE_ETH | TRACE_TYPE_ATM | TRACE_TYPE_80211
  | TRACE_TYPE_NONE | TRACE_TYPE_POS | TRACE_TYPE_AAL5 | TRACE_TYPE_DUCK
  | TRACE_TYPE_LLCSNAP | TRACE_TYPE_PPP | TRACE_TYPE_METADATA | TRACE_TYPE_NONDATA
  | TRACE_TYPE_OPENBSD_LOOP => true
  | TRACE_TYPE_LINUX_SLL | TRACE_TYPE_80211_RADIO | TRACE_TYPE_80211_PRISM
  | TRACE_TYPE_PFLOG | TRACE_TYPE_UNKNOWN => false
  end.

(** The loop that skips meta-data headers, from [meta] on.  SLL may be followed
    by Radiotap; Radiotap and Prism are followed by 802.11, PFLOG by raw IP, and
    those are not meta-data, so at most three calls are made. *)
Fixpoint skip_meta (fuel : nat) (mem : list Z) (meta : Z) (linktype : libtrace_linktype_t)
    (remaining : Z) : outcome (Z * libtrace_linktype_t * Z) :=
  match fuel with
  | O => Fault OutOfFuel
  | S fuel' =>
      let! ' (nexthdr, linktype', rem') :=
        trace_get_payload_from_meta mem meta linktype remaining in
      match nexthdr with
      | Some m => skip_meta fuel' mem m linktype' rem'
      | None => Ok (meta, linktype', rem')
      end
  end.

Definition meta_fuel : nat := 3.

(** [do { l = payload_from_meta(link) ... } while (l != NULL)] and then layer 2. *)
Definition trace_get_payload_from_link (mem : list Z) (link : Z)
    (linktype : libtrace_linktype_t) (ethertype : option Z) (remaining : Z) : outcome decoded :=
  let! ' (link', linktype', rem') := skip_meta meta_fuel mem link linktype remaining in
  trace_get_payload_from_layer2 mem link' linktype' ethertype (Some rem').

Section packet.
Variable fmt : libtrace_format_t.

(** The pointer, the link type and the remaining bytes. *)
Abbreviation l2_result := (option Z * libtrace_linktype_t * Z)%type.

Definition trace_get_layer2 (p : libtrace_packet_t) : outcome (libtrace_packet_t * l2_result) :=
  match pk_l2_header p with
  | Some h =>
      Ok (p, (Some h, default TRACE_TYPE_UNKNOWN (pk_link_type p), pk_l2_remaining p))
  | None =>
      let! ' (p, (meta, linktype, rem)) := trace_get_packet_buffer fmt p true in
      let remaining := default 0 rem in
      match linktype with
      | TRACE_TYPE_UNKNOWN => Ok (p, (None, linktype, remaining))
      | TRACE_TYPE_LINUX_SLL | TRACE_TYPE_80211_RADIO | TRACE_TYPE_80211_PRISM
      | TRACE_TYPE_PFLOG =>
          let! ' (meta', linktype', rem') :=
            skip_meta meta_fuel (pk_mem p) meta linktype remaining in
          if is_l2_type linktype'
          then Ok (pk_set_l2 p (Some meta') rem', (Some meta', linktype', rem'))
          else Ok (p, (None, linktype', rem'))
      | _ => Ok (pk_set_l2 p (Some meta) remaining, (Some meta, linktype, remaining))
      end
  end.

(** ** MAC addresses: offsets of six bytes *)
Definition get_source_mac_from_wifi (mem : list Z) (wifi : option Z) : outcome (option Z) :=
  match wifi with
  | None => Ok None
  | Some w =>
      let! b0 := read8 mem w in
      if (wifi_type b0 =? 1) && (Z.land (wifi_subtype b0) 0x2 =? 0) then Ok None
      else Ok (Some (w + 10))
  end.

Definition trace_get_source_mac (p : libtrace_packet_t)
  : outcome (libtrace_packet_t * option Z) :=
  let! ' (p, (link, linktype, _)) := trace_get_layer2 p in
  match link with
  | None => Ok (p, None)
  | Some l =>
      match linktype with
      | TRACE_TYPE_ETH => Ok (p, Some (l + 6))
      | TRACE_TYPE_80211 => let! m := get_source_mac_from_wifi (pk_mem p) (Some l) in Ok (p, m)
      | TRACE_TYPE_LINUX_SLL | TRACE_TYPE_80211_PRISM | TRACE_TYPE_80211_RADIO =>
          Fault AssertFailed
      | _ => Ok (p, None)
      end
  end.

Definition trace_get_destination_mac (p : libtrace_packet_t)
  : outcome (libtrace_packet_t * option Z) :=
  let! ' (p, (link, linktype, _)) := trace_get_layer2 p in
  match link with
  | None => Ok (p, None)
  | Some l =>
      match linktype with
      | TRACE_TYPE_80211 => Ok (p, Some (l + 4))
      | TRACE_TYPE_ETH => Ok (p, Some l)
      | TRACE_TYPE_LINUX_SLL | TRACE_TYPE_80211_PRISM | TRACE_TYPE_80211_RADIO =>
          Fault AssertFailed
      | _ => Ok (p, None)
      end
  end.
End packet.

(** ** Accounting *)
Section accounting.
Context (mem : list Z) (off r t slack : Z).
Hypothesis W : within mem off r slack.

(** Close a goal [∃ v, field = Ok v] for a field inside the packet. *)
Ltac field_ok := first [apply be16_ok; lia | apply read8_ok; lia].

Lemma ethernet_good : 0 ≤ slack →
  good_advance 14 off r (trace_get_payload_from_ethernet mem off (Some t) (Some r)).
Proof using W.
  intros Hs. destruct W as (? & ? & ?). apply good_advance_header; [lia|lia|].
  intros. field_ok.
Qed.

Lemma vlan_good : 0 ≤ slack →
  good_advance 4 off r (trace_get_payload_from_vlan mem off (Some t) (Some r)).
Proof using W.
  intros Hs. destruct W as (? & ? & ?). apply good_advance_header; [lia|lia|].
  intros. field_ok.
Qed.

Lemma llcsnap_good : 0 ≤ slack →
  good_advance 8 off r (trace_get_payload_from_llcsnap mem off (Some t) (Some r)).
Proof using W.
  intros Hs. destruct W as (? & ? & ?). apply good_advance_header; [lia|lia|].
  intros. field_ok.
Qed.

Lemma ppp_good : 0 ≤ slack →
  good_advance 2 off r (trace_get_payload_from_ppp mem off (Some t) (Some r)).
Proof using W.
  intros Hs. destruct W as (? & ? & ?). apply good_advance_header; [lia|lia|].
  intros. destruct (be16_ok mem off) as [v ->]; [lia..|]. by eexists.
Qed.

Lemma chdlc_good : 0 ≤ slack →
  good_advance 4 off r (trace_get_payload_from_chdlc mem off (Some t) (Some r)).
Proof using W.
  intros Hs. destruct W as (? & ? & ?). apply good_advance_header; [lia|lia|].
  intros. field_ok.
Qed.

Lemma ppp_hdlc_good : 0 ≤ slack →
  good_advance 4 off r (trace_get_payload_from_ppp_hdlc mem off (Some t) (Some r)).
Proof using W.
  intros Hs. destruct W as (? & ? & ?). apply good_advance_header; [lia|lia|].
  intros. destruct (be16_ok mem (off + 2)) as [v ->]; [lia..|]. by eexists.
Qed.

(** MPLS reads its third byte before any check: three bytes of slack. *)
Lemma mpls_good : 3 ≤ slack →
  good_advance 4 off r (trace_get_payload_from_mpls mem off (Some t) (Some r)).
Proof using W.
  intros Hs. destruct W as (? & ? & ?). unfold trace_get_payload_from_mpls. cbn [obind oassert].
  rewrite bool_decide_eq_true_2 by done. cbn [obind oassert].
  destruct (read8_ok mem (off + 2)) as [b2 ->]; [lia|]. cbn [obind].
  assert (∃ t', (if Z.land b2 1 =? 0 then Ok (Some TRACE_ETHERTYPE_MPLS)
    else if 5 <=? r then
      let! b4 := read8 mem (off + 4) in
      Ok (Some (if Z.land b4 0xF0 =? 0x40 then TRACE_ETHERTYPE_IP
                else if Z.land b4 0xF0 =? 0x60 then TRACE_ETHERTYPE_IPV6 else 0))
    else Ok (Some t)) = Ok (Some t')) as [t' ->].
  { destruct (_ =? 0); [by eexists|]. destruct (Z.leb_spec 5 r); [|by eexists].
    destruct (read8_ok mem (off + 4)) as [b4 ->]; [lia|]. by eexists. }
  cbn [obind]. destruct (Z.ltb_spec r 4); auto with decode lia.
Qed.
End accounting.

Lemma pppoe_good mem off r t slack :
  within mem off r slack → 0 ≤ slack →
  good_advance 6 off r (trace_get_payload_from_pppoe mem off (Some t) (Some r)).
Proof.
  intros W Hs. destruct W as (? & ? & ?). unfold trace_get_payload_from_pppoe, consume.
  rewrite bool_decide_eq_true_2 by done. cbn [obind oassert].
  destruct (Z.ltb_spec r 6); [auto with decode lia|].
  apply (good_advance_trans 6 off r 6); [lia..|].
  apply (good_advance_step 2); [done|].
  apply (ppp_good _ _ _ _ slack); [|done]. unfold within. lia.
Qed.

Lemma guess_ethertype_some b t : ∃ t', guess_ethertype b (Some t) = Ok (Some t').
Proof. by eexists. Qed.

Lemma atm_then_llcsnap_good mem off r t slack :
  within mem off r slack → 0 ≤ slack →
  good_step off r (trace_get_payload_from_layer2 mem off TRACE_TYPE_ATM (Some t) (Some r)).
Proof.
  intros (? & ? & ?) Hs. unfold trace_get_payload_from_layer2, trace_get_payload_from_atm.
  unfold shorter_than. destruct (Z.ltb_spec r 4); [apply good_advance_stop; lia|].
  cbn [obind store_if fmap option_fmap option_map]. apply (good_advance_trans 0 off r 4); [lia..|].
  apply (good_advance_step 8); [done|]. apply (llcsnap_good _ _ _ _ slack); [|done]. unfold within. lia.
Qed.

(** Skipping the layer 2 header of any link type but 802.11 and the
    OpenBSD loopback: the step stays inside the packet memory (one byte beyond
    the captured bytes is enough for the fields read before a check), and the
    pointer and the number of bytes it returns describe the same end of packet
    as the ones it was given. *)
Lemma layer2_good mem link linktype t r :
  within mem link r 1 → linktype ≠ TRACE_TYPE_80211 → linktype ≠ TRACE_TYPE_OPENBSD_LOOP →
  good_step link r (trace_get_payload_from_layer2 mem link linktype (Some t) (Some r)).
Proof.
  intros W Hw Ho. pose proof W as (? & ? & ?). destruct linktype; try done; cbn;
    try (apply good_advance_stop; lia).
  - apply (good_advance_step 4); [done|]. by apply (chdlc_good _ _ _ _ 1).
  - apply (good_advance_step 14); [done|]. by apply (ethernet_good _ _ _ _ 1).
  - by apply (atm_then_llcsnap_good mem link r t 1).
  - destruct (read8_ok mem link) as [b ->]; [lia|]. cbn [obind].
    exists (Some link). do 2 eexists. split; [done|lia].
  - apply (good_advance_step 4); [done|]. by apply (ppp_hdlc_good _ _ _ _ 1).
  - apply (good_advance_step 8); [done|]. by apply (llcsnap_good _ _ _ _ 1).
  - apply (good_advance_step 2); [done|]. by apply (ppp_good _ _ _ _ 1).
Qed.

(** The OpenBSD loopback header is skipped without being counted:
    the end of packet moves by its four bytes. *)
Theorem openbsd_loop_overcounts mem link t r :
  within mem link r 5 →
  ∃ t', trace_get_payload_from_layer2 mem link TRACE_TYPE_OPENBSD_LOOP (Some t) (Some r)
    = Ok (Some (link + 4), Some t', Some r).
Proof.
  intros (? & ? & ?). cbn. destruct (read8_ok mem (link + 4)) as [b ->]; [lia|]. cbn.
  by eexists.
Qed.

Lemma openbsd_loop_overcounts_witness :
  ∃ t', trace_get_payload_from_layer2 [2; 0; 0; 0; 0x45; 0; 0; 0; 0; 0] 0 TRACE_TYPE_OPENBSD_LOOP
    (Some 0) (Some 5) = Ok (Some 4, Some t', Some 5).
Proof. apply openbsd_loop_overcounts. unfold within. vm_compute. done. Defined.

(** ** 802.11 *)
Lemma wifi_extra_range b0 b1 : wifi_extra b0 b1 = -6 ∨ wifi_extra b0 b1 = -4 ∨
  wifi_extra b0 b1 = 0 ∨ wifi_extra b0 b1 = 2.
Proof. unfold wifi_extra. destruct (_ && _), (negb _); lia. Qed.

(** The complete behaviour on a data frame whose two type bytes are [b0] and
    [b1] and whose ethertype field holds [v]. *)
Lemma wifi_data_frame mem link t r b0 b1 v :
  let x := wifi_extra b0 b1 in
  0 ≤ r → sizeof_80211 ≤ r →
  read8 mem link = Ok b0 → read8 mem (link + 1) = Ok b1 → wifi_type b0 = 2 →
  read16 mem (link + 30 + x) = Ok v →
  trace_get_payload_from_80211 mem link (Some t) (Some r) =
    if v =? 0xaaaa then trace_get_payload_from_llcsnap mem (link + 30 + x) (Some t) (Some r)
    else Ok (Some (link + 32 + x), Some (ntohs v), Some (u32 (r - 32 - x))).
Proof.
  intros x Hr Hlen H0 H1 Ht Hv. unfold trace_get_payload_from_80211, shorter_than.
  rewrite (proj2 (Z.ltb_ge r 30)), H0 by lia. cbn [obind]. rewrite Ht, H1. cbn [negb Z.eqb].
  cbn [obind]. rewrite (proj2 (Z.ltb_ge r 2)) by lia. cbn zeta. fold x.
  change (2 =? 2) with true. cbn [negb]. rewrite Hv. cbn [obind].
  destruct (v =? 0xaaaa); [done|]. cbn. by replace (link + 30 + x + 2) with (link + 32 + x) by lia;
    replace (r - 30 - x - 2) with (r - 32 - x) by lia.
Qed.

(** An 802.11 data frame with an Ethernet II payload is accounted for
    exactly, provided its header has been captured completely. *)
Theorem wifi_accounting mem link t r b0 b1 v :
  let x := wifi_extra b0 b1 in
  0 ≤ r → sizeof_80211 ≤ r → 32 + x ≤ r < 2 ^ 32 →
  read8 mem link = Ok b0 → read8 mem (link + 1) = Ok b1 → wifi_type b0 = 2 →
  read16 mem (link + 30 + x) = Ok v → v ≠ 0xaaaa →
  good_step link r (trace_get_payload_from_80211 mem link (Some t) (Some r)).
Proof.
  intros x Hr Hlen Hfull H0 H1 Ht Hv Hne. pose proof (wifi_extra_range b0 b1) as Hx. fold x in Hx.
  rewrite (wifi_data_frame mem link t r b0 b1 v) by done. fold x.
  rewrite (proj2 (Z.eqb_neq _ _) Hne), u32_small by lia.
  exists (Some (link + 32 + x)). do 2 eexists. split; [done|lia].
Qed.

(** A four-address frame whose capture ends inside the part of the
    header that is not checked (30 bytes are, up to 34 are skipped): the
    subtraction wraps around and almost 2^32 bytes appear to remain. *)
Theorem wifi_remaining_wraps mem link t r b0 b1 v :
  let x := wifi_extra b0 b1 in
  sizeof_80211 ≤ r < 32 + x →
  read8 mem link = Ok b0 → read8 mem (link + 1) = Ok b1 → wifi_type b0 = 2 →
  read16 mem (link + 30 + x) = Ok v → v ≠ 0xaaaa →
  trace_get_payload_from_80211 mem link (Some t) (Some r)
    = Ok (Some (link + 32 + x), Some (ntohs v), Some (2 ^ 32 - (32 + x - r))).
Proof.
  intros x Hlen H0 H1 Ht Hv Hne. pose proof (wifi_extra_range b0 b1) as Hx. fold x in Hx.
  rewrite (wifi_data_frame mem link t r b0 b1 v) by (done || lia). fold x.
  rewrite (proj2 (Z.eqb_neq _ _) Hne). do 3 f_equal. unfold u32.
  rewrite <- (Z_mod_plus_full _ 1), Z.mod_small by lia. lia.
Qed.

(** An 802.11 data frame with an LLC/SNAP payload: the 802.11 header
    is never subtracted, so the bytes that appear to remain reach beyond the end
    of the packet by the length of that header. *)
Theorem wifi_llcsnap_overcounts mem link t r b0 b1 ty :
  let x := wifi_extra b0 b1 in
  sizeof_80211 ≤ r →
  read8 mem link = Ok b0 → read8 mem (link + 1) = Ok b1 → wifi_type b0 = 2 →
  read16 mem (link + 30 + x) = Ok 0xaaaa → be16 mem (link + 36 + x) = Ok ty →
  trace_get_payload_from_80211 mem link (Some t) (Some r)
    = Ok (Some (link + 38 + x), Some ty, Some (r - 8)).
Proof.
  intros x Hlen H0 H1 Ht Hv Hty.
  rewrite (wifi_data_frame mem link t r b0 b1 0xaaaa) by (done || lia). fold x.
  rewrite Z.eqb_refl. unfold trace_get_payload_from_llcsnap, consume.
  rewrite (proj2 (Z.ltb_ge r 8)) by lia.
  replace (link + 30 + x + 6) with (link + 36 + x) by lia. cbn [store_if]. rewrite Hty. cbn.
  by replace (link + 30 + x + 8) with (link + 38 + x) by lia.
Qed.

(** A QoS data frame between access points (both DS bits): 34 bytes are skipped;
    bytes 32 and 33 are [x] and [y]. *)
Definition wifi_frame (x y : Z) : list Z :=
  [0x88; 3] ++ replicate 30 0 ++ [x; y; 3; 0; 0; 0; 8; 0] ++ replicate 20 0.

Lemma wifi_accounting_witness :
  good_step 0 60 (trace_get_payload_from_80211 (wifi_frame 8 0) 0 (Some 0) (Some 60)).
Proof. by apply (wifi_accounting _ _ _ _ 0x88 3 8). Defined.

Lemma wifi_remaining_wraps_witness :
  trace_get_payload_from_80211 (wifi_frame 8 0) 0 (Some 0) (Some 30)
    = Ok (Some 34, Some 0x0800, Some (2 ^ 32 - 4)).
Proof. by apply (wifi_remaining_wraps (wifi_frame 8 0) 0 0 30 0x88 3 8). Defined.

Lemma wifi_llcsnap_overcounts_witness :
  trace_get_payload_from_80211 (wifi_frame 0xaa 0xaa) 0 (Some 0) (Some 60)
    = Ok (Some 40, Some 0x0800, Some 52).
Proof. by apply (wifi_llcsnap_overcounts (wifi_frame 0xaa 0xaa) 0 0 60 0x88 3 0x0800). Defined.

(** ** Skipping meta-data headers *)

(** How many meta-data headers can still follow. *)
Definition meta_rank (t : libtrace_linktype_t) : nat :=
  match t with
  | TRACE_TYPE_LINUX_SLL => 2
  | TRACE_TYPE_80211_RADIO | TRACE_TYPE_80211_PRISM | TRACE_TYPE_PFLOG => 1
  | _ => 0
  end.

Lemma arphrd_rank a : (meta_rank (arphrd_type_to_libtrace a) ≤ 1)%nat.
Proof. unfold arphrd_type_to_libtrace. repeat (destruct (a =? _); [simpl; lia|]). simpl. lia. Qed.

Lemma meta_good mem meta lt r :
  bytes_ok mem → within mem meta r 4 →
  ∃ ptr lt' r', trace_get_payload_from_meta mem meta lt r = Ok (ptr, lt', r') ∧
    match ptr with
    | Some m => meta ≤ m ∧ 0 ≤ r' ∧ m + r' = meta + r ∧ (meta_rank lt' < meta_rank lt)%nat
    | None => if is_l2_type lt then lt' = lt ∧ r' = r else is_l2_type lt' = false
    end.
Proof.
  intros Hb (? & ? & ?). destruct lt; try (by do 3 eexists);
    cbn [trace_get_payload_from_meta].
  - unfold trace_get_payload_from_linux_sll, consume. destruct (Z.ltb_spec r 16).
    { do 3 eexists. split; [done|]. reflexivity. }
    destruct (be16_ok mem (meta + 14)) as [v1 Hv1]; [lia..|].
    destruct (be16_ok mem (meta + 2)) as [v2 Hv2]; [lia..|]. cbn [store_if].
    rewrite Hv1, Hv2. cbn [obind default]. do 3 eexists. split; [done|]. cbn.
    split_and!; [lia..|]. destruct (_ && _); [simpl; lia|]. pose proof (arphrd_rank v2). lia.
  - unfold trace_get_payload_from_pflog, consume.
    destruct (Z.ltb_spec r 49); do 3 eexists; (split; [done|]); simpl; try done. lia.
  - unfold trace_get_payload_from_prism, consume.
    destruct (Z.ltb_spec r 144); do 3 eexists; (split; [done|]); simpl; try done. lia.
  - unfold trace_get_payload_from_radiotap, consume, read16.
    destruct (aget_total mem (meta + 2)) as (c0 & Hc0 & ->); [lia|].
    destruct (aget_total mem (meta + 2 + 1)) as (c1 & Hc1 & ->); [lia|]. cbn [obind].
    pose proof (bytes_ok_lookup _ _ _ Hb Hc0). pose proof (bytes_ok_lookup _ _ _ Hb Hc1).
    destruct (Z.ltb_spec r (c0 + 256 * c1)); do 3 eexists; (split; [done|]); simpl; try done. lia.
Qed.

Lemma skip_meta_good fuel : ∀ mem meta lt r,
  bytes_ok mem → within mem meta r 4 → (meta_rank lt < fuel)%nat →
  ∃ m lt' r', skip_meta fuel mem meta lt r = Ok (m, lt', r') ∧
    (is_l2_type lt' = true → meta ≤ m ∧ 0 ≤ r' ∧ m + r' = meta + r).
Proof.
  induction fuel as [|fuel IH]; intros mem meta lt r Hb W Hf; [lia|]. cbn [skip_meta].
  destruct (meta_good mem meta lt r Hb W) as (ptr & lt' & r' & -> & Hp). cbn [obind].
  destruct W as (? & ? & ?). destruct ptr as [m|].
  - destruct Hp as (? & ? & ? & ?).
    destruct (IH mem m lt' r' Hb) as (m2 & lt2 & r2 & -> & Hrec); [unfold within; lia|lia|].
    do 3 eexists. split; [done|]. intros Ht. specialize (Hrec Ht). lia.
  - do 3 eexists. split; [done|]. intros Ht. destruct (is_l2_type lt) eqn:E.
    + destruct Hp as [_ ->]. lia.
    + by rewrite Hp in Ht.
Qed.

(** ** The layer 2 header of a packet *)
Section layer2.
Context (fmt : libtrace_format_t) (p : libtrace_packet_t).

(** The captured bytes, and [slack] more, are in memory. *)
Definition captured (p : libtrace_packet_t) (slack : Z) : Prop :=
  bytes_ok (pk_mem p) ∧ lengths_ok p ∧
  ∀ p' ptr t r, trace_get_packet_buffer fmt p true = Ok (p', (ptr, t, Some r)) →
    within (pk_mem p) ptr r slack.

Lemma get_layer2_good p0 buf t0 r0 :
  captured p 4 → pk_l2_header p = None →
  trace_get_packet_buffer fmt p true = Ok (p0, (buf, t0, Some r0)) →
  ∃ p' ptr t r, trace_get_layer2 fmt p = Ok (p', (ptr, t, r)) ∧ pk_mem p' = pk_mem p ∧
    match ptr with
    | Some off => buf ≤ off ∧ 0 ≤ r ∧ off + r = buf + r0 ∧ is_l2_type t = true ∧
                  pk_l2_header p' = Some off ∧ pk_l2_remaining p' = r
    | None => is_l2_type t = false
    end.
Proof.
  intros (Hb & Hok & Hc) Hn Hbuf. unfold trace_get_layer2. rewrite Hn, Hbuf. cbn [obind].
  change (default 0 (Some r0)) with r0.
  pose proof (Hc _ _ _ _ Hbuf) as W.
  destruct (packet_buffer_ok fmt p p0 buf t0 r0 Hok Hbuf) as (_ & Hm & ? & _).
  assert (∀ lt, (meta_rank lt < 3)%nat) as Hrank by (intros []; simpl; lia).
  destruct (skip_meta_good meta_fuel (pk_mem p) buf t0 r0 Hb W (Hrank t0))
    as (m & lt & r & Hskip & Hacc).
  destruct t0; try (by do 4 eexists);
    try (do 4 eexists; split; [reflexivity|]; split; [exact Hm|]; simpl; split_and!; (done || lia));
    rewrite Hm, Hskip; cbn [obind];
    (destruct (is_l2_type lt) eqn:E; [|by do 4 eexists]);
    specialize (Hacc eq_refl); do 4 eexists; (split; [done|]); (split; [exact Hm|]); simpl;
    split_and!; (done || lia).
Qed.

(** C19: Finding the layer 2 header of a fresh packet: every meta-data
    header is skipped (the loop ends), nothing outside the packet memory is read
    (four bytes beyond the capture suffice), and the header found, with the bytes
    that remain after it, ends where the packet buffer ends. *)
Theorem get_layer2_accounting p0 buf t0 r0 :
  captured p 4 → pk_l2_header p = None →
  trace_get_packet_buffer fmt p true = Ok (p0, (buf, t0, Some r0)) →
  ∃ p' ptr t r, trace_get_layer2 fmt p = Ok (p', (ptr, t, r)) ∧ pk_mem p' = pk_mem p ∧
    match ptr with
    | Some off => buf ≤ off ∧ 0 ≤ r ∧ off + r = buf + r0 ∧ is_l2_type t = true ∧
                  pk_l2_header p' = Some off ∧ pk_l2_remaining p' = r
    | None => is_l2_type t = false
    end.
Proof. apply get_layer2_good. Qed.

(** Only the layer 2 cache is written. *)
Lemma get_layer2_frame p' res :
  trace_get_layer2 fmt p = Ok (p', res) →
  pk_l3_header p' = pk_l3_header p ∧ pk_l4_header p' = pk_l4_header p ∧
  pk_payload_length p' = pk_payload_length p.
Proof.
  unfold trace_get_layer2. intros H. destruct (pk_l2_header p); [by injection H as <- _|].
  obind_inv H. destruct a as [p0 [[meta lt] rem]].
  apply packet_buffer_frame in Hstep as [Hf <-]. injection Hf as _ <- <-.
  destruct lt; try (by injection H as <- _); obind_inv H; destruct a as [[m' lt'] r'];
    destruct (is_l2_type lt'); by injection H as <- _.
Qed.

(** The type [trace_get_packet_buffer] reports is the one it leaves cached. *)
Lemma packet_buffer_type p0 buf t0 r0 :
  trace_get_packet_buffer fmt p true = Ok (p0, (buf, t0, r0)) → f_get_link_type fmt ≠ None →
  pk_link_type p0 = Some t0.
Proof.
  unfold trace_get_packet_buffer. intros H Hf.
  assert (pk_link_type (trace_get_link_type fmt p).1 = Some (trace_get_link_type fmt p).2) as Ht.
  { unfold trace_get_link_type. destruct (pk_link_type p) eqn:E; [done|].
    by destruct (f_get_link_type fmt). }
  destruct (trace_get_link_type fmt p) as [p1 t1]. simpl in Ht.
  obind_inv H. destruct a as [p2 cap]. obind_inv H. destruct a as [p3 wire]. obind_inv H.
  injection H as <- _ <- _. rewrite <- Ht.
  assert (pk_link_type p2 = pk_link_type p1) as <-.
  { unfold trace_get_capture_length in Hstep.
    destruct (_ =? -1); [destruct (f_get_capture_length fmt)|]; repeat obind_inv Hstep;
      by injection Hstep as <- _. }
  unfold trace_get_wire_length in Hstep0.
  destruct (_ =? -1); [destruct (f_get_wire_length fmt)|]; repeat obind_inv Hstep0;
    by injection Hstep0 as <- _.
Qed.

Lemma layer2_cached_type p' off t r p0 buf t0 r0 :
  pk_l2_header p = None → f_get_link_type fmt ≠ None →
  trace_get_packet_buffer fmt p true = Ok (p0, (buf, t0, r0)) →
  trace_get_layer2 fmt p = Ok (p', (Some off, t, r)) →
  trace_get_layer2 fmt p' = Ok (p', (Some off, t0, r)) ∧ (t = t0 ↔ is_l2_type t0 = true).
Proof.
  intros Hn Hf Hbuf H. pose proof (packet_buffer_type p0 buf t0 r0 Hbuf Hf) as Ht0.
  unfold trace_get_layer2 in H. rewrite Hn, Hbuf in H. cbn [obind] in H.
  assert (p' = pk_set_l2 p0 (Some off) r ∧ is_l2_type t = true ∧ (is_l2_type t0 = true → t = t0))
    as (-> & Ht & Hsame).
  { destruct t0; try (injection H as <- <- <- <-; done); try done;
      obind_inv H; destruct a as [[m lt] r']; destruct (is_l2_type lt) eqn:E;
      try done; injection H as <- <- <- <-; split_and!; done. }
  unfold trace_get_layer2. simpl. rewrite Ht0. split; [done|].
  split; [by intros <-|done].
Qed.
(** The cached layer 2 header comes with the packet's link type, not
    with the type of the header: after meta-data headers have been skipped, a
    second call answers differently from the first (same pointer and count, but
    the link type of the meta-data header). *)
Theorem get_layer2_cached_type p' off t r p0 buf t0 r0 :
  pk_l2_header p = None → f_get_link_type fmt ≠ None →
  trace_get_packet_buffer fmt p true = Ok (p0, (buf, t0, r0)) →
  trace_get_layer2 fmt p = Ok (p', (Some off, t, r)) →
  trace_get_layer2 fmt p' = Ok (p', (Some off, t0, r)) ∧ (t = t0 ↔ is_l2_type t0 = true).
Proof. apply layer2_cached_type. Qed.
End layer2.

(** ** Instances *)

(** Close a closed, decidable goal by evaluation. *)
Ltac by_eval := first [vm_compute; done | apply (bool_decide_unpack _); vm_compute; done].

(** A Linux cooked header (Ethernet hardware, IPv4) before an IPv4 header. *)
Definition sll_packet : libtrace_format_t * libtrace_packet_t :=
  (sample_format TRACE_TYPE_LINUX_SLL 36 36,
   fresh_packet ([0; 0; 0; 1; 0; 6; 1; 2; 3; 4; 5; 6; 0; 0; 8; 0] ++
     [0x45; 0; 0; 20; 0; 1; 0; 0; 64; 59; 0; 0; 10; 0; 0; 1; 10; 0; 0; 2] ++ replicate 8 0)).

Lemma captured_sll : captured sll_packet.1 sll_packet.2 4.
Proof.
  split; [by_eval|]. split; [done|].
  intros p' ptr t r H. vm_compute in H. injection H as <- <- <- <-. unfold within. vm_compute. done.
Qed.

Lemma get_layer2_accounting_witness :
  ∃ p' ptr t r, trace_get_layer2 sll_packet.1 sll_packet.2 = Ok (p', (ptr, t, r)) ∧
    pk_mem p' = pk_mem sll_packet.2 ∧
    match ptr with
    | Some off => 0 ≤ off ∧ 0 ≤ r ∧ off + r = 0 + 36 ∧ is_l2_type t = true ∧
                  pk_l2_header p' = Some off ∧ pk_l2_remaining p' = r
    | None => is_l2_type t = false
    end.
Proof.
  apply (get_layer2_accounting sll_packet.1 sll_packet.2
    (pk_set_lengths (pk_set_link_type sll_packet.2 (Some TRACE_TYPE_LINUX_SLL)) 36 36)
    0 TRACE_TYPE_LINUX_SLL 36 captured_sll); vm_compute; reflexivity.
Defined.

Lemma get_layer2_cached_type_witness :
  let p' := pk_set_l2 (pk_set_lengths (pk_set_link_type sll_packet.2 (Some TRACE_TYPE_LINUX_SLL))
                        36 36) (Some 16) 20 in
  trace_get_layer2 sll_packet.1 sll_packet.2 = Ok (p', (Some 16, TRACE_TYPE_NONE, 20)) ∧
  trace_get_layer2 sll_packet.1 p' = Ok (p', (Some 16, TRACE_TYPE_LINUX_SLL, 20)).
Proof.
  intros p'. split; [vm_compute; reflexivity|].
  apply (get_layer2_cached_type sll_packet.1 sll_packet.2 p' 16 TRACE_TYPE_NONE 20
    (pk_set_lengths (pk_set_link_type sll_packet.2 (Some TRACE_TYPE_LINUX_SLL)) 36 36)
    0 TRACE_TYPE_LINUX_SLL (Some 36)); done.
Defined.
