(* ===== verification/Layer3.v ===== *)
(** * Layer 3: lib/protocols_l3.c

    Finding the IP header of a packet (through VLAN tags, MPLS labels and
    PPPoE), skipping IPv4 and IPv6 headers, header options, addresses, the IPv4
    header checksum and the fragment offset. *)

From Stdlib Require Import Sorting.Sorted.
From S2P Require Import Prelude Byteswap Checksum Packet PktMeta Layer2.
Local Open Scope Z_scope.
Local Open Scope outcome_scope.

(** ** Sizes and protocol numbers *)
Abbreviation sizeof_ip := 20.
Abbreviation sizeof_ip6 := 40.
Abbreviation sizeof_ip6_frag := 8.
Abbreviation TRACE_IPPROTO_IPV6 := 41.
Abbreviation TRACE_IPPROTO_ROUTING := 43.
Abbreviation TRACE_IPPROTO_FRAGMENT := 44.
Abbreviation TRACE_IPPROTO_ESP := 50.
Abbreviation TRACE_IPPROTO_AH := 51.
Abbreviation TRACE_IPPROTO_DSTOPTS := 60.
Abbreviation SW_IP_OFFMASK := 0x1fff.

(** The two nibbles of the first byte of an IPv4 header. *)
Definition ip_v (b0 : Z) : Z := Z.land (Z.shiftr b0 4) 15.
Definition ip_hl (b0 : Z) : Z := Z.land b0 15.

(** ** Skipping an IP header *)

(** The version, the fragment offset and the header length are read before
    [remaining] is looked at. *)
Definition trace_get_payload_from_ip (mem : list Z) (ipptr : Z)
    (prot remaining : option Z) : outcome decoded :=
  let! b0 := read8 mem ipptr in
  if negb (ip_v b0 =? 4) then Ok (None, prot, remaining)
  else
    let! off := be16 mem (ipptr + 6) in
    if negb (Z.land off SW_IP_OFFMASK =? 0) then Ok (None, prot, (λ _, 0) <$> remaining)
    else
      match consume remaining (ip_hl b0 * 4) with
      | (false, rem') => Ok (None, prot, rem')
      | (true, rem') =>
          let! prot' := store_if prot (read8 mem (ipptr + 9)) in
          Ok (Some (ipptr + ip_hl b0 * 4), prot', rem')
      end.

Definition is_ip6_ext (nxt : Z) : bool :=
  (nxt =? 0) || (nxt =? TRACE_IPPROTO_ROUTING) || (nxt =? TRACE_IPPROTO_AH)
  || (nxt =? TRACE_IPPROTO_DSTOPTS).

(** The [while(1)] loop over extension headers.  Each one skipped is at least 8
    bytes long and lies in memory, so as many rounds as there are bytes of
    memory are enough. *)
Fixpoint ip6_loop (fuel : nat) (mem : list Z) (payload nxt : Z) (prot remaining : option Z)
  : outcome decoded :=
  match fuel with
  | O => Fault OutOfFuel
  | S fuel' =>
      if is_ip6_ext nxt then
        let! l := read8 mem (payload + 1) in
        let len := u16 (u16 (l * 8) + 8) in
        match consume remaining len with
        | (false, rem') => Ok (None, prot, rem')
        | (true, rem') =>
            let! nxt' := read8 mem payload in
            ip6_loop fuel' mem (payload + len) nxt' prot rem'
        end
      else if nxt =? TRACE_IPPROTO_ESP then
        let! prot' := store_if prot (Ok TRACE_IPPROTO_ESP) in
        Ok (Some payload, prot', remaining)
      else if nxt =? TRACE_IPPROTO_FRAGMENT then
        match consume remaining sizeof_ip6_frag with
        | (false, rem') => Ok (None, prot, rem')
        | (true, rem') =>
            let! nxt' := read8 mem payload in
            ip6_loop fuel' mem (payload + sizeof_ip6_frag) nxt' prot rem'
        end
      else
        let! prot' := store_if prot (Ok nxt) in
        Ok (Some payload, prot', remaining)
  end.

Definition ip6_fuel (mem : list Z) : nat := S (length mem).

Definition trace_get_payload_from_ip6 (mem : list Z) (ipptr : Z)
    (prot remaining : option Z) : outcome decoded :=
  let! nxt := read8 mem (ipptr + 6) in
  match consume remaining sizeof_ip6 with
  | (false, rem') => Ok (None, prot, rem')
  | (true, rem') => ip6_loop (ip6_fuel mem) mem (ipptr + sizeof_ip6) nxt prot rem'
  end.

(** ** Finding layer 3 *)

(** [trace_get_payload_from_layer2] on a pointer that may be null: the link types
    that come with a null pointer do not look at it. *)
Definition payload_from_layer2_opt (mem : list Z) (link : option Z)
    (linktype : libtrace_linktype_t) (ethertype remaining : Z) : outcome decoded :=
  match link with
  | Some l => trace_get_payload_from_layer2 mem l linktype (Some ethertype) (Some remaining)
  | None =>
      if is_l2_type linktype then Fault NullDeref
      else Ok (None, Some ethertype, Some remaining)
  end.

(** The loop over VLAN tags, MPLS labels and PPPoE headers.  After MPLS the
    source tests [ethertype == 0x0], the pointer and not the value it points to;
    the pointer is never null, so the Ethernet header of a VPLS packet is not
    skipped.  Every header skipped is at least 4 bytes long. *)
Fixpoint l3_loop (fuel : nat) (mem : list Z) (iphdr : option Z) (ethertype remaining : Z)
  : outcome (option Z * Z * Z) :=
  match fuel with
  | O => Fault OutOfFuel
  | S fuel' =>
      match iphdr with
      | None => Ok (None, ethertype, remaining)
      | Some ip =>
          if remaining =? 0 then Ok (Some ip, ethertype, remaining)
          else if ethertype =? TRACE_ETHERTYPE_8021Q then
            let! ' (ip', e, r) := trace_get_payload_from_vlan mem ip (Some ethertype) (Some remaining) in
            l3_loop fuel' mem ip' (default 0 e) (default 0 r)
          else if ethertype =? TRACE_ETHERTYPE_MPLS then
            let! ' (ip', e, r) := trace_get_payload_from_mpls mem ip (Some ethertype) (Some remaining) in
            let ethertype_ptr_is_null := false in
            match ip' with
            | Some i =>
                if (ethertype_ptr_is_null : bool) then
                  let! ' (ip'', e', r') := trace_get_payload_from_ethernet mem i e r in
                  l3_loop fuel' mem ip'' (default 0 e') (default 0 r')
                else l3_loop fuel' mem ip' (default 0 e) (default 0 r)
            | None => l3_loop fuel' mem ip' (default 0 e) (default 0 r)
            end
          else if ethertype =? TRACE_ETHERTYPE_PPP_SES then
            let! ' (ip', e, r) := trace_get_payload_from_pppoe mem ip (Some ethertype) (Some remaining) in
            l3_loop fuel' mem ip' (default 0 e) (default 0 r)
          else Ok (Some ip, ethertype, remaining)
      end
  end.

Definition l3_fuel (remaining : Z) : nat := (Z.to_nat remaining + 2)%nat.

Section packet.
Variable fmt : libtrace_format_t.

(** Pointer, ethertype, remaining.  [ethertype0] is what the caller's variable
    holds before the call: raw IP of an unknown version leaves it there. *)
Abbreviation l3_result := (option Z * Z * Z)%type.

Definition trace_get_layer3 (p : libtrace_packet_t) (ethertype0 : Z)
  : outcome (libtrace_packet_t * l3_result) :=
  match pk_l3_header p with
  | Some h => Ok (p, (Some h, pk_l3_ethertype p, pk_l3_remaining p))
  | None =>
      let! ' (p, (link, linktype, remaining)) :=
        match pk_l2_header p with
        | Some h => Ok (p, (Some h, default TRACE_TYPE_UNKNOWN (pk_link_type p), pk_l2_remaining p))
        | None => trace_get_layer2 fmt p
        end in
      let! ' (iphdr, e, r) :=
        payload_from_layer2_opt (pk_mem p) link linktype ethertype0 remaining in
      let! ' (iphdr, ethertype, remaining) :=
        l3_loop (l3_fuel (default 0 r)) (pk_mem p) iphdr (default 0 e) (default 0 r) in
      match iphdr with
      | Some ip =>
          if remaining =? 0 then Ok (p, (None, ethertype, remaining))
          else Ok (pk_set_l3 p (Some ip) ethertype remaining, (Some ip, ethertype, remaining))
      | None => Ok (p, (None, ethertype, remaining))
      end
  end.

Definition trace_get_ip (p : libtrace_packet_t) (ethertype0 : Z)
  : outcome (libtrace_packet_t * option Z) :=
  let! ' (p, _) := trace_get_capture_length fmt p in
  let! ' (p, (ret, ethertype, remaining)) := trace_get_layer3 p ethertype0 in
  match ret with
  | None => Ok (p, None)
  | Some ip =>
      if negb (ethertype =? TRACE_ETHERTYPE_IP) then Ok (p, None)
      else if remaining <? sizeof_ip then Ok (p, None)
      else
        let! b0 := read8 (pk_mem p) ip in
        if negb (ip_v b0 =? 4) then Ok (p, None) else Ok (p, Some ip)
  end.

Definition trace_get_ip6 (p : libtrace_packet_t) (ethertype0 : Z)
  : outcome (libtrace_packet_t * option Z) :=
  let! ' (p, _) := trace_get_capture_length fmt p in
  let! ' (p, (ret, ethertype, remaining)) := trace_get_layer3 p ethertype0 in
  match ret with
  | None => Ok (p, None)
  | Some ip =>
      if negb (ethertype =? TRACE_ETHERTYPE_IPV6) then Ok (p, None)
      else if remaining <? sizeof_ip6 then Ok (p, None)
      else Ok (p, Some ip)
  end.
End packet.

(** ** Options

    [ptr] and [len] are updated; [type], [optlen] and [data] are set as far as
    the call gets.  The result starts with the return value. *)
Record option_state := {
  o_ptr : Z;
  o_len : Z;
  o_type : Z;
  o_optlen : Z;
  o_data : option Z;
}.

Definition trace_get_next_option (mem : list Z) (s : option_state)
  : outcome (Z * option_state) :=
  if o_len s <=? 0 then Ok (0, s)
  else
    let! type := read8 mem (o_ptr s) in
    let s1 := {| o_ptr := o_ptr s; o_len := o_len s; o_type := type;
                 o_optlen := o_optlen s; o_data := o_data s |} in
    if type =? 0 then Ok (0, s1)
    else if type =? 1 then
      Ok (1, {| o_ptr := o_ptr s + 1; o_len := o_len s - 1; o_type := type;
                o_optlen := o_optlen s; o_data := o_data s |})
    else
      let! optlen := read8 mem (o_ptr s + 1) in
      let s2 := {| o_ptr := o_ptr s; o_len := o_len s; o_type := type;
                   o_optlen := optlen; o_data := o_data s |} in
      if optlen <? 2 then Ok (0, s2)
      else if o_len s <? optlen then Ok (0, s2)
      else
        let s3 := {| o_ptr := o_ptr s + optlen; o_len := o_len s - optlen; o_type := type;
                     o_optlen := optlen; o_data := Some (o_ptr s + 2) |} in
        if o_len s3 <? 0 then Ok (0, s3) else Ok (1, s3).

(** ** Addresses

    What the functions leave in the [sockaddr] they return: ports and the
    link-layer protocol as they are in the packet (network order). *)
Inductive sockaddr :=
| SockIn (sin_port : Z) (sin_addr : list Z)
| SockIn6 (sin6_port : Z) (sin6_addr : list Z)
| SockLl (sll_protocol : Z) (sll_addr : list Z).

(** [mac] is the offset of [ether_shost] (6) or [ether_dhost] (0). *)
Definition get_ethernet_address (mem : list Z) (ethernet mac : Z) : outcome sockaddr :=
  let! proto := read16 mem (ethernet + 12) in
  let! addr := read_bytes mem (ethernet + mac) 6 in
  Ok (SockLl proto addr).

Definition get_source_ethernet_address (mem : list Z) (ethernet : Z) : outcome sockaddr :=
  get_ethernet_address mem ethernet 6.

Definition get_destination_ethernet_address (mem : list Z) (ethernet : Z) : outcome sockaddr :=
  get_ethernet_address mem ethernet 0.

(** [ports->src] or [ports->dst] at [field], if the transport header starts and
    its four port bytes are there. *)
Definition port_of (mem : list Z) (ports : option Z) (remaining field : Z) : outcome Z :=
  match ports with
  | Some o => if 4 <=? remaining then read16 mem (o + field) else Ok 0
  | None => Ok 0
  end.

Section addresses.
Variable fmt : libtrace_format_t.

Definition get_source_l2_address (p : libtrace_packet_t)
  : outcome (libtrace_packet_t * option sockaddr) :=
  let! ' (p, (l2, linktype, _)) := trace_get_layer2 fmt p in
  match l2, linktype with
  | Some l, TRACE_TYPE_ETH =>
      let! a := get_source_ethernet_address (pk_mem p) l in Ok (p, Some a)
  | _, _ => Ok (p, None)
  end.

Definition get_destination_l2_address (p : libtrace_packet_t)
  : outcome (libtrace_packet_t * option sockaddr) :=
  let! ' (p, (l2, linktype, _)) := trace_get_layer2 fmt p in
  match l2, linktype with
  | Some l, TRACE_TYPE_ETH =>
      let! a := get_destination_ethernet_address (pk_mem p) l in Ok (p, Some a)
  | _, _ => Ok (p, None)
  end.

Definition trace_get_source_address (p : libtrace_packet_t) (ethertype0 : Z)
  : outcome (libtrace_packet_t * option sockaddr) :=
  let! ' (p, (l3, ethertype, remaining)) := trace_get_layer3 fmt p ethertype0 in
  match l3 with
  | None => get_source_l2_address p
  | Some ip =>
      if ethertype =? TRACE_ETHERTYPE_IP then
        let! ' (ports, _, rem) := trace_get_payload_from_ip (pk_mem p) ip None (Some remaining) in
        let! port := port_of (pk_mem p) ports (default 0 rem) 0 in
        let! addr := read_bytes (pk_mem p) (ip + 12) 4 in
        Ok (p, Some (SockIn port addr))
      else if ethertype =? TRACE_ETHERTYPE_IPV6 then
        let! ' (ports, _, rem) := trace_get_payload_from_ip6 (pk_mem p) ip None (Some remaining) in
        let! port := port_of (pk_mem p) ports (default 0 rem) 0 in
        let! addr := read_bytes (pk_mem p) (ip + 8) 16 in
        Ok (p, Some (SockIn6 port addr))
      else get_source_l2_address p
  end.

Definition trace_get_destination_address (p : libtrace_packet_t) (ethertype0 : Z)
  : outcome (libtrace_packet_t * option sockaddr) :=
  let! ' (p, (l3, ethertype, remaining)) := trace_get_layer3 fmt p ethertype0 in
  match l3 with
  | None => get_destination_l2_address p
  | Some ip =>
      if ethertype =? TRACE_ETHERTYPE_IP then
        let! ' (ports, _, rem) := trace_get_payload_from_ip (pk_mem p) ip None (Some remaining) in
        let! port := port_of (pk_mem p) ports (default 0 rem) 2 in
        let! addr := read_bytes (pk_mem p) (ip + 16) 4 in
        Ok (p, Some (SockIn port addr))
      else if ethertype =? TRACE_ETHERTYPE_IPV6 then
        let! ' (ports, _, rem) := trace_get_payload_from_ip6 (pk_mem p) ip None (Some remaining) in
        let! port := port_of (pk_mem p) ports (default 0 rem) 2 in
        let! addr := read_bytes (pk_mem p) (ip + 24) 16 in
        Ok (p, Some (SockIn6 port addr))
      else get_destination_l2_address p
  end.

(** ** The IPv4 header checksum

    [safety] is the local array of 65536 bytes, with whatever it holds.  The
    result is the pointer to the checksum field and the checksum, or null. *)
Definition trace_checksum_layer3 (p : libtrace_packet_t) (ethertype0 : Z) (safety : list Z)
  : outcome (libtrace_packet_t * option (Z * Z)) :=
  let! ' (p, (l3, ethertype, remaining)) := trace_get_layer3 fmt p ethertype0 in
  match l3 with
  | None => Ok (p, None)
  | Some ip =>
      if ethertype =? TRACE_ETHERTYPE_IP then
        if remaining <? sizeof_ip then Ok (p, None)
        else
          let! b0 := read8 (pk_mem p) ip in
          let! header := read_bytes (pk_mem p) ip (Z.to_nat (ip_hl b0 * 4)) in
          let safety := header ++ drop (length header) safety in
          let! safety := aset safety 10 0 in
          let! safety := aset safety 11 0 in
          let! b0' := read8 safety 0 in
          let! csum := checksum_buffer safety 0 (ip_hl b0' * 4) in
          Ok (p, Some (ip + 10, ntohs csum))
      else Ok (p, None)
  end.

(** ** The fragment offset

    In the IPv6 case the source assigns [payload = ip6++], so that [payload] is
    the IPv6 header itself and [ip6->nxt] is read 40 bytes further on; the loop
    never moves [payload]. *)
Fixpoint frag_loop (fuel : nat) (mem : list Z) (payload nxt remaining : Z) : outcome (Z * Z) :=
  match fuel with
  | O => Fault OutOfFuel
  | S fuel' =>
      if is_ip6_ext nxt then
        let! l := read8 mem (payload + 1) in
        let len := u16 (u16 (l * 8) + 8) in
        if remaining <? len then Ok (0, 0)
        else
          let! nxt' := read8 mem payload in
          frag_loop fuel' mem payload nxt' (remaining - len)
      else if nxt =? TRACE_IPPROTO_FRAGMENT then
        if remaining <? sizeof_ip6_frag then Ok (0, 0)
        else
          let! offset := be16 mem (payload + 2) in
          Ok (Z.shiftr (Z.land offset 0xFFF8) 3 * 8,
              if negb (Z.land offset 0x0001 =? 0) then 1 else 0)
      else Ok (0, 0)
  end.

(** The offset and [*more]. *)
Definition trace_get_fragment_offset (p : libtrace_packet_t) (ethertype0 : Z)
  : outcome (libtrace_packet_t * (Z * Z)) :=
  let! ' (p, (l3, ethertype, remaining)) := trace_get_layer3 fmt p ethertype0 in
  match l3 with
  | None => Ok (p, (0, 0))
  | Some ip =>
      if ethertype =? TRACE_ETHERTYPE_IP then
        if remaining <? 8 then Ok (p, (0, 0))
        else
          let! offset := be16 (pk_mem p) (ip + 6) in
          Ok (p, (u16 (Z.land offset 0x1FFF * 8),
                  if negb (Z.land offset 0x2000 =? 0) then 1 else 0))
      else if ethertype =? TRACE_ETHERTYPE_IPV6 then
        let payload := ip in
        let! nxt := read8 (pk_mem p) (ip + sizeof_ip6 + 6) in
        if remaining <? sizeof_ip6 then Ok (p, (0, 0))
        else
          let! r := frag_loop (S (Z.to_nat remaining)) (pk_mem p) payload nxt (remaining - sizeof_ip6) in
          Ok (p, r)
      else Ok (p, (0, 0))
  end.
End addresses.

(** ** Accounting *)
Lemma ip_hl_range b0 : 0 ≤ ip_hl b0 ≤ 15.
Proof.
  unfold ip_hl. pose proof (Z.land_ones b0 4 ltac:(lia)) as H. change (Z.ones 4) with 15 in H.
  rewrite H. pose proof (Z.mod_pos_bound b0 (2 ^ 4)). lia.
Qed.

(** IPv4: the fields read before the check lie in the first ten bytes. *)
Lemma ip_good mem off r t :
  within mem off r 10 → good_step off r (trace_get_payload_from_ip mem off (Some t) (Some r)).
Proof.
  intros (? & ? & ?). unfold trace_get_payload_from_ip.
  destruct (read8_ok mem off) as [b0 ->]; [lia|]. cbn [obind].
  destruct (negb _); [apply good_advance_stop; lia|].
  destruct (be16_ok mem (off + 6)) as [v ->]; [lia..|]. cbn [obind].
  destruct (negb _); [apply good_advance_stop; lia|].
  pose proof (ip_hl_range b0). apply (good_advance_step (ip_hl b0 * 4)); [lia|].
  apply good_advance_header; [lia..|]. intros _. apply read8_ok. lia.
Qed.

Lemma ext_len_range l : 0 ≤ l < 256 → u16 (u16 (l * 8) + 8) = l * 8 + 8.
Proof. intros. rewrite (u16_small (l * 8)), u16_small; lia. Qed.

Lemma ip6_loop_good fuel : ∀ mem payload nxt r t,
  bytes_ok mem → within mem payload r 2 → Zlen mem - payload < Z.of_nat fuel →
  good_step payload r (ip6_loop fuel mem payload nxt (Some t) (Some r)).
Proof.
  induction fuel as [|fuel IH]; intros mem payload nxt r t Hb (? & ? & ?) Hf; [lia|].
  cbn [ip6_loop]. destruct (is_ip6_ext nxt); [|destruct (nxt =? TRACE_IPPROTO_ESP);
    [|destruct (nxt =? TRACE_IPPROTO_FRAGMENT)]].
  - destruct (aget_total mem (payload + 1)) as (l & Hl & Hrd); [lia|]. unfold read8.
    rewrite Hrd. cbn [obind]. pose proof (bytes_ok_lookup _ _ _ Hb Hl).
    rewrite ext_len_range by lia. unfold consume.
    destruct (Z.ltb_spec r (l * 8 + 8)); [apply good_advance_stop; lia|].
    destruct (aget_total mem payload) as (n & _ & ->); [lia|]. cbn [obind].
    apply (good_advance_trans 0 _ _ (l * 8 + 8)); [lia..|]. apply IH; [done|unfold within; lia|lia].
  - exists (Some payload). do 2 eexists. split; [done|lia].
  - unfold consume. destruct (Z.ltb_spec r 8); [apply good_advance_stop; lia|]. unfold read8.
    destruct (aget_total mem payload) as (n & _ & ->); [lia|]. cbn [obind].
    apply (good_advance_trans 0 _ _ 8); [lia..|]. apply IH; [done|unfold within; lia|lia].
  - exists (Some payload). do 2 eexists. split; [done|lia].
Qed.

Lemma ip6_good mem off r t :
  bytes_ok mem → within mem off r 7 →
  good_step off r (trace_get_payload_from_ip6 mem off (Some t) (Some r)).
Proof.
  intros Hb (? & ? & ?). unfold trace_get_payload_from_ip6, consume.
  destruct (read8_ok mem (off + 6)) as [n ->]; [lia|]. cbn [obind].
  destruct (Z.ltb_spec r 40); [apply good_advance_stop; lia|].
  apply (good_advance_trans 0 _ _ 40); [lia..|].
  apply ip6_loop_good; [done|unfold within; lia|]. unfold ip6_fuel, Zlen in *. lia.
Qed.

(** The tag-skipping loop ends, stays in memory and keeps the end of packet. *)
Lemma l3_loop_good fuel : ∀ mem ip e r,
  within mem ip r 3 → r + 1 < Z.of_nat fuel →
  ∃ ptr e' r', l3_loop fuel mem (Some ip) e r = Ok (ptr, e', r') ∧
    match ptr with
    | Some ip' => ip ≤ ip' ∧ 0 ≤ r' ∧ ip' + r' = ip + r
    | None => 0 ≤ r' ≤ r
    end.
Proof.
  induction fuel as [|fuel IH]; intros mem ip e r W Hf; [destruct W; lia|].
  assert (∀ c, good_advance 4 ip r c → ∃ ptr e' r', (let! ' (ip', e, r) := c in
      l3_loop fuel mem ip' (default 0 e) (default 0 r)) = Ok (ptr, e', r') ∧
    match ptr with
    | Some ip' => ip ≤ ip' ∧ 0 ≤ r' ∧ ip' + r' = ip + r
    | None => 0 ≤ r' ≤ r
    end) as Hnext.
  { destruct W as (? & ? & ?). intros c (ptr & t & r' & -> & Hp). simpl.
    destruct ptr as [ip'|].
    - destruct (IH mem ip' t r') as (ptr & e' & r'' & Hrun & Hp'); [unfold within; lia|lia|].
      do 3 eexists. split; [exact Hrun|]. destruct ptr; lia.
    - destruct fuel as [|fuel]; [lia|]. by do 3 eexists. }
  cbn [l3_loop]. destruct (r =? 0); [|destruct (e =? TRACE_ETHERTYPE_8021Q);
    [|destruct (e =? TRACE_ETHERTYPE_MPLS); [|destruct (e =? TRACE_ETHERTYPE_PPP_SES)]]].
  - do 3 eexists. split; [done|]. destruct W. lia.
  - apply Hnext. by apply (vlan_good _ _ _ _ 3).
  - destruct (Hnext _ (mpls_good _ _ _ e 3 W ltac:(lia))) as (ptr & e' & r' & Hrun & Hp).
    do 3 eexists. split; [|exact Hp]. rewrite <- Hrun.
    destruct (trace_get_payload_from_mpls mem ip (Some e) (Some r)) as [[[[i|] e1] r1]|]; done.
  - apply Hnext. destruct (pppoe_good _ _ _ e 3 W ltac:(lia)) as (ptr & t & r' & -> & Hp).
    exists ptr, t, r'. split; [done|]. destruct ptr; lia.
  - do 3 eexists. split; [done|]. destruct W. lia.
Qed.

(** ** Correctness *)
Section layer3.
Context (fmt : libtrace_format_t).

Lemma captured_le p s s' : s' ≤ s → captured fmt p s → captured fmt p s'.
Proof.
  intros Hs (? & ? & H). split_and!; [done..|]. intros p' ptr t r Hb.
  destruct (H _ _ _ _ Hb) as (? & ? & ?). unfold within. lia.
Qed.

(** Only the caches of layers 2 and 3 are written, and finding a header caches it. *)
Lemma get_layer3_frame p e0 p' ptr e r :
  trace_get_layer3 fmt p e0 = Ok (p', (ptr, e, r)) →
  pk_l4_header p' = pk_l4_header p ∧ pk_payload_length p' = pk_payload_length p.
Proof.
  unfold trace_get_layer3. intros H. destruct (pk_l3_header p) as [h|]; [by injection H as <- _|].
  obind_inv H. destruct a as [p1 [[link t] r1]]. obind_inv H. destruct a as [[i e2] r2].
  obind_inv H. destruct a as [[[ip|] e3] r3].
  all: assert (pk_l4_header p1 = pk_l4_header p ∧ pk_payload_length p1 = pk_payload_length p)
    as [<- <-] by (destruct (pk_l2_header p); [by injection Hstep as <- _|];
        by apply get_layer2_frame in Hstep as [_ ?]).
  all: try destruct (r3 =? 0); by injection H as <- _.
Qed.

(** What is left after layer 2 has been skipped and the loop has run. *)
Lemma l3_from_link mem link t e0 r :
  within mem link r 4 → t ≠ TRACE_TYPE_80211 → t ≠ TRACE_TYPE_OPENBSD_LOOP →
  ∃ ptr e' r', (let! ' (iphdr, e, r1) := payload_from_layer2_opt mem (Some link) t e0 r in
    l3_loop (l3_fuel (default 0 r1)) mem iphdr (default 0 e) (default 0 r1)) = Ok (ptr, e', r') ∧
    match ptr with
    | Some ip' => link ≤ ip' ∧ 0 ≤ r' ∧ ip' + r' = link + r
    | None => 0 ≤ r' ≤ r
    end.
Proof.
  intros (? & ? & ?) Hn1 Hn2. unfold payload_from_layer2_opt.
  destruct (layer2_good mem link t e0 r) as (ptr & e & r1 & -> & Hp);
    [unfold within; lia|done..|]. simpl. destruct ptr as [ip|].
  - destruct (l3_loop_good (l3_fuel r1) mem ip e r1) as (ptr & e' & r' & -> & Hp');
      [unfold within; lia|unfold l3_fuel; lia|].
    do 3 eexists. split; [done|]. destruct ptr; lia.
  - unfold l3_fuel. rewrite Nat.add_comm. simpl. by do 3 eexists.
Qed.

Lemma get_layer3_good p e0 p0 buf t0 r0 :
  captured fmt p 4 → pk_l2_header p = None → pk_l3_header p = None →
  trace_get_packet_buffer fmt p true = Ok (p0, (buf, t0, Some r0)) →
  (∀ p' ptr t r, trace_get_layer2 fmt p = Ok (p', (ptr, t, r)) →
     t ≠ TRACE_TYPE_80211 ∧ t ≠ TRACE_TYPE_OPENBSD_LOOP) →
  ∃ p' ptr e r, trace_get_layer3 fmt p e0 = Ok (p', (ptr, e, r)) ∧ pk_mem p' = pk_mem p ∧
    match ptr with
    | Some off => buf ≤ off ∧ 0 < r ∧ off + r = buf + r0 ∧
                  pk_l3_header p' = Some off ∧ pk_l3_ethertype p' = e ∧ pk_l3_remaining p' = r
    | None => pk_l3_header p' = None
    end.
Proof.
  intros Hcap Hl2 Hl3 Hbuf Ht. unfold trace_get_layer3. rewrite Hl3, Hl2.
  destruct (get_layer2_good fmt p p0 buf t0 r0 Hcap Hl2 Hbuf) as (p1 & ptr & t & r & Hl & Hm & Hp).
  destruct (Ht _ _ _ _ Hl) as [Hw Ho]. destruct (get_layer2_frame _ _ _ _ Hl) as [Hf _].
  rewrite Hl. cbn [obind]. rewrite Hm. destruct ptr as [l|].
  - destruct Hp as (? & ? & ? & _). destruct Hcap as (_ & _ & Hc).
    destruct (Hc _ _ _ _ Hbuf) as (? & ? & ?).
    destruct (l3_from_link (pk_mem p) l t e0 r) as (ptr & e' & r' & Hrun & Hp'); [unfold within; lia|done..|].
    apply obind_ok_inv in Hrun as ([[ip e] r1] & -> & Hrun). cbn [obind]. rewrite Hrun. cbn [obind].
    destruct ptr as [ip'|]; [|do 4 eexists; by rewrite Hf].
    destruct (Z.eqb_spec r' 0); do 4 eexists; (split; [done|]); (split; [done|]); [by rewrite Hf|].
    simpl. split_and!; (done || lia).
  - unfold payload_from_layer2_opt. rewrite Hp. cbn [obind]. unfold l3_fuel. rewrite Nat.add_comm.
    simpl. do 4 eexists. by rewrite Hf.
Qed.

(** C18: Finding the layer 3 header of a fresh packet, for every link type
    but 802.11 and the OpenBSD loopback: the search ends without leaving the
    packet memory (four bytes of slack), and when it finds a header, that header
    lies inside the packet buffer, at least one byte of it was captured, and the
    count returned reaches exactly to the end of the buffer. *)
Theorem get_layer3_accounting p e0 p0 buf t0 r0 :
  captured fmt p 4 → pk_l2_header p = None → pk_l3_header p = None →
  trace_get_packet_buffer fmt p true = Ok (p0, (buf, t0, Some r0)) →
  (∀ p' ptr t r, trace_get_layer2 fmt p = Ok (p', (ptr, t, r)) →
     t ≠ TRACE_TYPE_80211 ∧ t ≠ TRACE_TYPE_OPENBSD_LOOP) →
  ∃ p' ptr e r, trace_get_layer3 fmt p e0 = Ok (p', (ptr, e, r)) ∧ pk_mem p' = pk_mem p ∧
    match ptr with
    | Some off => buf ≤ off ∧ 0 < r ∧ off + r = buf + r0 ∧
                  pk_l3_header p' = Some off ∧ pk_l3_ethertype p' = e ∧ pk_l3_remaining p' = r
    | None => pk_l3_header p' = None
    end.
Proof. apply get_layer3_good. Qed.

Lemma layer3_cached p e0 p' off e r :
  trace_get_layer3 fmt p e0 = Ok (p', (Some off, e, r)) →
  ∀ e1, trace_get_layer3 fmt p' e1 = Ok (p', (Some off, e, r)).
Proof.
  intros H e1. unfold trace_get_layer3 in H. destruct (pk_l3_header p) as [h|] eqn:Hl3.
  - injection H as <- <- <- <-. unfold trace_get_layer3. by rewrite Hl3.
  - obind_inv H. destruct a as [p1 [[link t] r1]]. obind_inv H. destruct a as [[i e2] r2].
    obind_inv H. destruct a as [[[ip|] e3] r3]; [|done].
    destruct (r3 =? 0); [done|]. injection H as <- <- <- <-. done.
Qed.

(** The layer 3 cache is transparent: once a header has been found,
    asking again gives the same pointer, ethertype and count, whatever the
    caller's variable held, and changes nothing. *)
Theorem get_layer3_cached p e0 p' off e r :
  trace_get_layer3 fmt p e0 = Ok (p', (Some off, e, r)) →
  ∀ e1, trace_get_layer3 fmt p' e1 = Ok (p', (Some off, e, r)).
Proof. apply layer3_cached. Qed.

(** A packet with a meta-data header: once its layer 2 header has been
    asked for, its layer 3 header cannot be found any more, because the cached
    header is taken for a header of the packet's own link type.  (On the fresh
    packet the search goes through.) *)
Theorem layer3_lost_after_layer2 p e0 p' off t r p0 buf t0 r0 :
  pk_l2_header p = None → pk_l3_header p = None → f_get_link_type fmt ≠ None →
  trace_get_packet_buffer fmt p true = Ok (p0, (buf, t0, r0)) → is_l2_type t0 = false →
  trace_get_layer2 fmt p = Ok (p', (Some off, t, r)) →
  trace_get_layer3 fmt p' e0 = Ok (p', (None, e0, r)).
Proof.
  intros H2 H3 Hf Hbuf Ht0 Hl2. destruct (get_layer2_frame _ _ _ _ Hl2) as [Hk _].
  destruct (layer2_cached_type fmt p p' off t r p0 buf t0 r0 H2 Hf Hbuf Hl2) as [Hag _].
  unfold trace_get_layer3. rewrite Hk, H3. unfold trace_get_layer2 in Hag.
  assert (∃ h, pk_l2_header p' = Some h) as [h Hh].
  { unfold trace_get_layer2 in Hl2. rewrite H2, Hbuf in Hl2. cbn [obind] in Hl2.
    destruct t0; try done; obind_inv Hl2; destruct a as [[m lt] r1];
      destruct (is_l2_type lt); try done; injection Hl2 as <- _ _ _; by eexists. }
  rewrite Hh in *. injection Hag as -> Ht ->. rewrite Ht. cbn [obind].
  destruct t0; try done; cbn [payload_from_layer2_opt trace_get_payload_from_layer2 obind];
    unfold l3_fuel; by rewrite Nat.add_comm.
Qed.
End layer3.

(** A VPLS packet: the last MPLS label is followed by an Ethernet
    header.  [trace_get_payload_from_mpls] reports this as type 0, and
    [trace_get_layer3] means to skip the Ethernet header then, but compares the
    pointer [ethertype] with 0: the search stops at the Ethernet header and
    returns it as layer 3, with ethertype 0. *)
Theorem vpls_ethernet_not_skipped mem ip r b2 b4 fuel :
  5 ≤ r → read8 mem (ip + 2) = Ok b2 → read8 mem (ip + 4) = Ok b4 →
  Z.land b2 1 ≠ 0 → Z.land b4 0xF0 ≠ 0x40 → Z.land b4 0xF0 ≠ 0x60 → (2 ≤ fuel)%nat →
  l3_loop fuel mem (Some ip) TRACE_ETHERTYPE_MPLS r = Ok (Some (ip + 4), 0, r - 4).
Proof.
  intros Hr H2 H4 Hb H40 H60 Hf. destruct fuel as [|[|fuel]]; [lia..|].
  cbn [l3_loop]. rewrite (proj2 (Z.eqb_neq r 0)) by lia. cbn [Z.eqb].
  change (TRACE_ETHERTYPE_MPLS =? TRACE_ETHERTYPE_8021Q) with false.
  change (TRACE_ETHERTYPE_MPLS =? TRACE_ETHERTYPE_MPLS) with true. cbn iota.
  unfold trace_get_payload_from_mpls. rewrite bool_decide_eq_true_2 by done.
  cbn [oassert obind]. rewrite H2. cbn [obind]. rewrite (proj2 (Z.eqb_neq _ _) Hb).
  rewrite (proj2 (Z.leb_le 5 r) Hr), H4. cbn [obind].
  rewrite (proj2 (Z.eqb_neq _ _) H40), (proj2 (Z.eqb_neq _ _) H60).
  rewrite (proj2 (Z.ltb_ge r 4)) by lia. simpl. by destruct (r - 4 =? 0).
Qed.

(** ** Options *)

(** A caller's loop: [while (trace_get_next_option(&ptr, &len, ...))], collecting
    where each option starts. *)
Fixpoint walk_options (fuel : nat) (mem : list Z) (s : option_state)
  : outcome (list Z * option_state) :=
  match fuel with
  | O => Fault OutOfFuel
  | S fuel' =>
      let! ' (again, s') := trace_get_next_option mem s in
      if again =? 0 then Ok ([], s')
      else
        let! ' (starts, s'') := walk_options fuel' mem s' in
        Ok (o_ptr s :: starts, s'')
  end.

Lemma walk_options_S fuel mem s :
  walk_options (S fuel) mem s =
    let! ' (again, s') := trace_get_next_option mem s in
    if again =? 0 then Ok ([], s')
    else let! ' (starts, s'') := walk_options fuel mem s' in Ok (o_ptr s :: starts, s'').
Proof. done. Qed.

(** One call: it faults on nothing if one byte beyond the options is readable;
    a call that returns 1 has moved forward, by what it took off the length; a
    call that returns 0 has moved nothing. *)
Lemma next_option_step mem s :
  bytes_ok mem → 0 ≤ o_ptr s → o_ptr s + o_len s < Zlen mem →
  ∃ again s', trace_get_next_option mem s = Ok (again, s') ∧
    o_ptr s' + o_len s' = o_ptr s + o_len s ∧
    (again = 0 ∧ o_ptr s' = o_ptr s ∨
     again = 1 ∧ o_ptr s < o_ptr s' ∧ 0 ≤ o_len s').
Proof.
  intros Hb Hp Hl. unfold trace_get_next_option.
  destruct (Z.leb_spec (o_len s) 0); [by do 2 eexists; split; [done|]; auto|].
  destruct (read8_ok mem (o_ptr s)) as [ty ->]; [lia|]. cbn [obind].
  destruct (ty =? 0); [do 2 eexists; split; [done|]; simpl; lia|].
  destruct (ty =? 1); [do 2 eexists; split; [done|]; simpl; lia|].
  destruct (read8_ok mem (o_ptr s + 1)) as [ol ->]; [lia|]. cbn [obind].
  destruct (Z.ltb_spec ol 2); [do 2 eexists; split; [done|]; simpl; lia|].
  destruct (Z.ltb_spec (o_len s) ol); [do 2 eexists; split; [done|]; simpl; lia|].
  cbn [o_len]. destruct (Z.ltb_spec (o_len s - ol) 0); [lia|].
  do 2 eexists; split; [done|]; simpl; lia.
Qed.

(** Walking the options of a header ends after at most [len] calls
    that return true, reads no more than one byte beyond the option area, and
    visits the options in strictly increasing positions, all inside the area. *)
Theorem walk_options_terminates fuel mem s :
  bytes_ok mem → 0 ≤ o_ptr s → o_ptr s + o_len s < Zlen mem → o_len s ≤ Z.of_nat fuel →
  ∃ starts s', walk_options (S fuel) mem s = Ok (starts, s') ∧
    o_ptr s' + o_len s' = o_ptr s + o_len s ∧
    StronglySorted Z.lt starts ∧ Forall (λ a, o_ptr s ≤ a < o_ptr s + o_len s) starts.
Proof.
  intros Hb. revert s. induction fuel as [|fuel IH]; intros s Hp Hm Hf;
    destruct (next_option_step mem s Hb Hp Hm) as (again & s1 & Hn & Hsum & Hcase);
    rewrite walk_options_S, Hn; cbn [obind];
    (destruct Hcase as [[-> Hsame]|(-> & Hlt & Hlen)];
     [simpl; do 2 eexists; split; [done|]; split; [done|]; split; constructor|]).
  - lia.
  - destruct (IH s1) as (starts & s' & Hw & Hsum' & Hsort & Hin); [lia..|].
    change (1 =? 0) with false. cbn iota. rewrite Hw. cbn [obind].
    do 2 eexists. split; [done|]. split; [lia|]. split.
    + constructor; [done|]. eapply Forall_impl; [exact Hin|]. simpl. lia.
    + constructor; [lia|]. eapply Forall_impl; [exact Hin|]. simpl. lia.
Qed.

(** NOP, timestamp-like option of four bytes, NOP, end of options. *)
Lemma walk_options_terminates_witness :
  ∃ starts s',
    walk_options 9 [1; 8; 4; 7; 7; 1; 0; 0; 0]
      {| o_ptr := 0; o_len := 8; o_type := 0; o_optlen := 0; o_data := None |}
      = Ok (starts, s') ∧ o_ptr s' + o_len s' = 8 ∧ StronglySorted Z.lt starts ∧
    Forall (λ a, 0 ≤ a < 8) starts.
Proof.
  apply (walk_options_terminates 8 [1; 8; 4; 7; 7; 1; 0; 0; 0]
    {| o_ptr := 0; o_len := 8; o_type := 0; o_optlen := 0; o_data := None |});
    [repeat constructor; lia|vm_compute; done..].
Defined.

(** A single byte of options that is not a NOP or the end marker: the
    length byte behind the option area is read, and a header that ends where the
    memory ends makes the call fault. *)
Theorem next_option_overreads mem s ty :
  0 ≤ o_ptr s → o_len s = 1 → o_ptr s + 1 = Zlen mem → read8 mem (o_ptr s) = Ok ty →
  ty ≠ 0 → ty ≠ 1 → trace_get_next_option mem s = Fault OutOfBounds.
Proof.
  intros Hp Hl Hm Hty H0 H1. unfold trace_get_next_option. rewrite Hl, Hty. cbn [obind].
  change (1 <=? 0) with false. cbn iota.
  rewrite (proj2 (Z.eqb_neq _ _) H0), (proj2 (Z.eqb_neq _ _) H1).
  unfold read8. rewrite aget_oob by lia. done.
Qed.

Lemma next_option_overreads_witness :
  trace_get_next_option [5; 8]
    {| o_ptr := 1; o_len := 1; o_type := 0; o_optlen := 0; o_data := None |} = Fault OutOfBounds.
Proof. by apply (next_option_overreads [5; 8] _ 8). Defined.

(** ** The fragment offset *)
Section fragments.
Context (fmt : libtrace_format_t) (p : libtrace_packet_t) (e0 : Z).
Context (p' : libtrace_packet_t) (ip r : Z).

Lemma land_1fff v : Z.land v 0x1FFF = v `mod` 2 ^ 13.
Proof. change 0x1FFF with (Z.ones 13). by rewrite Z.land_ones by lia. Qed.

Lemma land_bit v k : 0 ≤ k → (Z.land v (2 ^ k) =? 0) = negb (Z.testbit v k).
Proof.
  intros Hk. replace (Z.land v (2 ^ k)) with (if Z.testbit v k then 2 ^ k else 0).
  - destruct (Z.testbit v k); [|done]. simpl. apply Z.eqb_neq. pose proof (Z.pow_pos_nonneg 2 k). lia.
  - apply Z.bits_inj'. intros n Hn. rewrite Z.land_spec, Z.pow2_bits_eqb by done.
    destruct (Z.eqb_spec k n) as [<-|].
    + rewrite andb_true_r. destruct (Z.testbit v k) eqn:E; [|by rewrite Z.bits_0].
      by rewrite Z.pow2_bits_eqb, Z.eqb_refl.
    + rewrite andb_false_r. destruct (Z.testbit v k); [|by rewrite Z.bits_0].
      rewrite Z.pow2_bits_eqb by done. by apply Z.eqb_neq.
Qed.

(** For an IPv4 packet with at least eight bytes of header captured,
    the result is the thirteen-bit offset field in bytes (eight times its value,
    without overflow of [uint16_t]) and [*more] is the more-fragments bit. *)
Theorem fragment_offset_ipv4 v :
  trace_get_layer3 fmt p e0 = Ok (p', (Some ip, TRACE_ETHERTYPE_IP, r)) →
  8 ≤ r → be16 (pk_mem p') (ip + 6) = Ok v →
  trace_get_fragment_offset fmt p e0
    = Ok (p', (8 * (v `mod` 2 ^ 13), if Z.testbit v 13 then 1 else 0)).
Proof.
  intros H3 Hr Hv. unfold trace_get_fragment_offset. rewrite H3. cbn [obind].
  change (TRACE_ETHERTYPE_IP =? TRACE_ETHERTYPE_IP) with true. cbn iota.
  rewrite (proj2 (Z.ltb_ge r 8)), Hv by lia. cbn [obind].
  rewrite land_1fff. change 0x2000 with (2 ^ 13). rewrite land_bit, negb_involutive by lia.
  pose proof (Z.mod_pos_bound v (2 ^ 13)). rewrite u16_small by lia.
  by rewrite Z.mul_comm.
Qed.

(** The loop looks at bytes 1 to 3 behind [payload] and nothing else, and ends. *)
Lemma frag_loop_result mem payload fuel : ∀ nxt rem v,
  bytes_ok mem → 0 ≤ payload → payload + 4 ≤ Zlen mem → be16 mem (payload + 2) = Ok v →
  0 ≤ rem < Z.of_nat fuel →
  frag_loop fuel mem payload nxt rem = Ok (0, 0) ∨
  frag_loop fuel mem payload nxt rem = Ok (8 * (v `div` 8), v `mod` 2).
Proof.
  induction fuel as [|fuel IH]; intros nxt rem v Hb Hp Hm Hv Hf; [lia|]. cbn [frag_loop].
  destruct (is_ip6_ext nxt); [|destruct (nxt =? TRACE_IPPROTO_FRAGMENT); [|by left]].
  - destruct (aget_total mem (payload + 1)) as (l & Hl & Hrd); [lia|]. unfold read8.
    rewrite Hrd. cbn [obind]. pose proof (bytes_ok_lookup _ _ _ Hb Hl).
    rewrite ext_len_range by lia. destruct (Z.ltb_spec rem (l * 8 + 8)); [by left|].
    destruct (aget_total mem payload) as (n & _ & ->); [lia|]. cbn [obind]. apply IH; done || lia.
  - destruct (rem <? 8); [by left|]. rewrite Hv. cbn [obind]. right.
    pose proof (be16_range _ _ _ Hb Hv). change 0xFFF8 with (Z.shiftl (Z.ones 13) 3).
    rewrite Z.shiftr_land, Z.shiftr_shiftl_l, Z.sub_diag, Z.shiftl_0_r by lia.
    rewrite Z.land_ones, Z.shiftr_div_pow2 by lia.
    pose proof (land_bit v 0 ltac:(lia)) as Hbit. change (2 ^ 0) with 1 in Hbit.
    rewrite Hbit, negb_involutive, <- Z.bit0_mod by lia.
    rewrite (Z.mod_small (v `div` 2 ^ 3)) by lia. rewrite (Z.mul_comm (v `div` 2 ^ 3)).
    by destruct (Z.testbit v 0).
Qed.

(** For an IPv6 packet the loop ends, but what it returns never comes
    from a fragment header: it is 0, or taken from bytes 2 and 3 of the IPv6
    header itself (the low part of the flow label), because [payload] is set to
    the IPv6 header and never moved. *)
Theorem fragment_offset_ipv6_from_flow_label v :
  trace_get_layer3 fmt p e0 = Ok (p', (Some ip, TRACE_ETHERTYPE_IPV6, r)) →
  bytes_ok (pk_mem p') → 0 ≤ ip → ip + 47 ≤ Zlen (pk_mem p') →
  be16 (pk_mem p') (ip + 2) = Ok v →
  trace_get_fragment_offset fmt p e0 = Ok (p', (0, 0)) ∨
  trace_get_fragment_offset fmt p e0 = Ok (p', (8 * (v `div` 8), v `mod` 2)).
Proof.
  intros H3 Hb Hip Hm Hv. unfold trace_get_fragment_offset. rewrite H3. cbn [obind].
  change (TRACE_ETHERTYPE_IPV6 =? TRACE_ETHERTYPE_IP) with false. rewrite Z.eqb_refl. cbn iota.
  destruct (read8_ok (pk_mem p') (ip + 40 + 6)) as [n ->]; [lia|]. cbn [obind].
  destruct (Z.ltb_spec r 40); [by left|].
  destruct (frag_loop_result (pk_mem p') ip (S (Z.to_nat r)) n (r - 40) v) as [-> | ->];
    try done; try lia; [by left|by right].
Qed.
End fragments.

(** *** Sample packets *)

(** Ethernet header with the given ethertype. *)
Definition ether_bytes (ethertype : Z) : list Z :=
  [2; 0; 0; 0; 0; 1; 2; 0; 0; 0; 0; 2; ethertype `div` 256; ethertype `mod` 256].

(** A 20-byte IPv4 header: total length, fragment field, protocol. *)
Definition ipv4_bytes (len frag proto : Z) : list Z :=
  [0x45; 0; len `div` 256; len `mod` 256; 0; 1; frag `div` 256; frag `mod` 256;
   64; proto; 0; 0; 192; 168; 0; 1; 192; 168; 0; 199].

(** An IPv6 header: payload length, next header, a flow label of 0xABCD. *)
Definition ipv6_bytes (len nxt : Z) : list Z :=
  [0x60; 0; 0xAB; 0xCD; len `div` 256; len `mod` 256; nxt; 64] ++ replicate 16 1 ++ replicate 16 2.

Definition eth_packet (bytes : list Z) : libtrace_format_t * libtrace_packet_t :=
  (sample_format TRACE_TYPE_ETH (Zlen bytes) (Zlen bytes), fresh_packet (bytes ++ replicate 16 0)).

(** The packet after a decoder has run; [p] itself if it faulted. *)
Definition after {A} (p : libtrace_packet_t) (c : outcome (libtrace_packet_t * A))
  : libtrace_packet_t :=
  match c with Ok (p', _) => p' | Fault _ => p end.

Lemma fragment_offset_ipv4_witness :
  let '(fmt, p) := eth_packet (ether_bytes 0x0800 ++ ipv4_bytes 28 0x20B9 17 ++ replicate 8 0) in
  trace_get_fragment_offset fmt p 0 = Ok (after p (trace_get_layer3 fmt p 0), (1480, 1)).
Proof.
  set (q := eth_packet _). cbn zeta.
  apply (fragment_offset_ipv4 q.1 q.2 0 (after q.2 (trace_get_layer3 q.1 q.2 0)) 14 28 0x20B9);
    vm_compute; done.
Defined.

(** The fragment header (offset 1480, more fragments) is at bytes 54 to 61; the
    result is 0. *)
Lemma fragment_offset_ipv6_from_flow_label_witness :
  let '(fmt, p) := eth_packet (ether_bytes 0x86DD ++ ipv6_bytes 24 44 ++
    [17; 0; 1480 `div` 256; 1480 `mod` 256 + 1; 0; 0; 0; 1] ++ replicate 16 0) in
  trace_get_fragment_offset fmt p 0 = Ok (after p (trace_get_layer3 fmt p 0), (0, 0)).
Proof.
  set (q := eth_packet _). cbn zeta.
  destruct (fragment_offset_ipv6_from_flow_label q.1 q.2 0
    (after q.2 (trace_get_layer3 q.1 q.2 0)) 14 64 0xABCD) as [H|H].
  - vm_compute. done.
  - apply (bool_decide_unpack _). vm_compute. done.
  - lia.
  - vm_compute. done.
  - vm_compute. done.
  - exact H.
  - vm_compute. done.
Defined.

(** ** Instances of the layer 3 search *)

(** Ethernet, one VLAN tag, IPv4. *)
Definition vlan_packet : libtrace_format_t * libtrace_packet_t :=
  eth_packet (ether_bytes 0x8100 ++ [0; 5; 8; 0] ++ ipv4_bytes 20 0 59).

Lemma captured_vlan : captured vlan_packet.1 vlan_packet.2 4.
Proof.
  split; [by_eval|]. split; [done|].
  intros p' ptr t r H. vm_compute in H. injection H as <- <- <- <-. unfold within. vm_compute. done.
Qed.

Lemma get_layer3_accounting_witness :
  ∃ p' ptr e r, trace_get_layer3 vlan_packet.1 vlan_packet.2 0 = Ok (p', (ptr, e, r)) ∧
    pk_mem p' = pk_mem vlan_packet.2 ∧
    match ptr with
    | Some off => 0 ≤ off ∧ 0 < r ∧ off + r = 0 + 38 ∧ pk_l3_header p' = Some off ∧
                  pk_l3_ethertype p' = e ∧ pk_l3_remaining p' = r
    | None => pk_l3_header p' = None
    end.
Proof.
  apply (get_layer3_accounting vlan_packet.1 vlan_packet.2 0
    (pk_set_lengths (pk_set_link_type vlan_packet.2 (Some TRACE_TYPE_ETH)) 38 38)
    0 TRACE_TYPE_ETH 38 captured_vlan); [vm_compute; reflexivity..|].
  intros p' ptr t r H. vm_compute in H. injection H as <- <- <- <-. done.
Defined.

Lemma get_layer3_cached_witness :
  let p' := after vlan_packet.2 (trace_get_layer3 vlan_packet.1 vlan_packet.2 0) in
  trace_get_layer3 vlan_packet.1 p' 77 = Ok (p', (Some 18, 0x0800, 20)).
Proof.
  intros p'. apply (get_layer3_cached vlan_packet.1 vlan_packet.2 0 p' 18 0x0800 20).
  vm_compute. reflexivity.
Defined.

Lemma layer3_lost_after_layer2_witness :
  let p' := after sll_packet.2 (trace_get_layer2 sll_packet.1 sll_packet.2) in
  trace_get_layer3 sll_packet.1 p' 0 = Ok (p', (None, 0, 20)) ∧
  (∃ p'', trace_get_layer3 sll_packet.1 sll_packet.2 0 = Ok (p'', (Some 16, 0x0800, 20))).
Proof.
  intros p'. split.
  - apply (layer3_lost_after_layer2 sll_packet.1 sll_packet.2 0 p' 16 TRACE_TYPE_NONE 20
      (pk_set_lengths (pk_set_link_type sll_packet.2 (Some TRACE_TYPE_LINUX_SLL)) 36 36)
      0 TRACE_TYPE_LINUX_SLL (Some 36)); done.
  - eexists. vm_compute. reflexivity.
Defined.

Lemma vpls_ethernet_not_skipped_witness :
  l3_loop 3 ([0; 0; 1; 64] ++ ether_bytes 0x0800 ++ replicate 20 0) (Some 0) 0x8847 38
    = Ok (Some 4, 0, 34).
Proof. apply (vpls_ethernet_not_skipped _ 0 38 1 2); first [lia | by_eval]. Defined.

(** ** The IPv4 header checksum *)
Section checksum.
Context (fmt : libtrace_format_t) (p : libtrace_packet_t) (e0 : Z).

(** Storing a checksum in network order: its bytes as the host holds it. *)
Lemma ntohs_bytes c : 0 ≤ c < 2 ^ 16 →
  ntohs c `div` 256 = c `mod` 256 ∧ ntohs c `mod` 256 = c `div` 256.
Proof. intros. unfold ntohs. rewrite byteswap16_spec by done. lia. Qed.

(** Zeroing the checksum field of a copied header. *)
Lemma zero_field_at a x y z k : Zlen a = k →
  obind (aset (a ++ x :: y :: z) k 0) (λ s, aset s (k + 1) 0) = Ok (a ++ 0 :: 0 :: z).
Proof.
  intros <-. pose proof (Zlen_nonneg z). pose proof (Zlen_nonneg a).
  rewrite aset_ok by (autorewrite with zlen; lia). cbn [obind].
  rewrite aset_ok by (autorewrite with zlen; lia). unfold Zlen.
  rewrite !insert_app_r_alt by lia.
  replace (Z.to_nat (Z.of_nat (length a)) - length a)%nat with 0%nat by lia.
  by replace (Z.to_nat (Z.of_nat (length a) + 1) - length a)%nat with 1%nat by lia.
Qed.

(** The checksum computed for an IPv4 header of any valid length
    (options included) does not depend on what the packet's checksum field or
    the local buffer held, and a header that carries it, in network order, is
    one a receiver accepts; the pointer returned is the checksum field. *)
Theorem checksum_layer3_correct p' ip r pre a x y b post safety :
  trace_get_layer3 fmt p e0 = Ok (p', (Some ip, TRACE_ETHERTYPE_IP, r)) → sizeof_ip ≤ r →
  pk_mem p' = pre ++ (a ++ [x; y] ++ b) ++ post → Zlen pre = ip → Zlen a = 10 →
  bytes_ok a → bytes_ok b →
  (∃ b0 a', a = b0 :: a' ∧ 12 + Zlen b = 4 * ip_hl b0) →
  ∃ c, trace_checksum_layer3 fmt p e0 safety = Ok (p', Some (ip + 10, c)) ∧
    checksum_buffer (pre ++ (a ++ [c `div` 256; c `mod` 256] ++ b) ++ post) ip (12 + Zlen b) = Ok 0.
Proof.
  intros H3 Hr Hm <- Ha Hba Hbb (b0 & a' & -> & Hhl).
  pose proof (ip_hl_range b0) as Hhl15.
  assert (Hl : ∀ v w, Zlen ((b0 :: a') ++ [v; w] ++ b) = ip_hl b0 * 4)
    by (intros; autorewrite with zlen in *; lia).
  set (l := (b0 :: a') ++ [x; y] ++ b) in *.
  assert (Hln : Z.to_nat (ip_hl b0 * 4) = length l) by (subst l; rewrite <- (Hl x y); unfold Zlen; lia).
  unfold trace_checksum_layer3. rewrite H3. cbn [obind].
  rewrite Z.eqb_refl, (proj2 (Z.ltb_ge r 20)), Hm by lia. unfold read8.
  rewrite (aget_ok _ _ b0); [|apply Zlen_nonneg|].
  2:{ unfold Zlen. rewrite Nat2Z.id. by apply list_lookup_middle. }
  cbn [obind]. rewrite Hln, read_bytes_app. cbn [obind].
  set (tail := drop (length l) safety). subst l. rewrite <- !app_assoc. cbn [app].
  pose proof (zero_field_at (b0 :: a') x y (b ++ tail) 10 Ha) as Hz.
  change (10 + 1) with 11 in Hz.
  apply obind_ok_inv in Hz as (s1 & Hs1 & Hs2). cbn [app] in Hs1, Hs2.
  rewrite Hs1. cbn [obind]. rewrite Hs2. cbn [obind]. rewrite (aget_ok _ _ b0) by done. cbn [obind].
  set (l0 := (b0 :: a') ++ [0; 0] ++ b). rewrite <- (Hl 0 0). fold l0.
  assert (Hb0 : bytes_ok l0) by (apply bytes_ok_app; split; [done|]; by apply bytes_ok_app;
    split; [repeat constructor; lia|]).
  assert (Hl0 : Zlen l0 < 2 ^ 16) by (subst l0; rewrite Hl; lia).
  pose proof (checksum_buffer_spec [] l0 tail Hb0 Hl0) as Hc.
  pose proof (word_sum_bound l0 Hb0) as [Hw _]. pose proof (fold16_range _ Hw).
  subst l0. change (Zlen []) with 0 in Hc. rewrite <- !app_assoc in Hc. cbn [app] in Hc.
  cbn [app]. rewrite Hc. cbn [obind]. eexists. split; [done|].
  destruct (ntohs_bytes (65535 - fold16 (word_sum (b0 :: a' ++ 0 :: 0 :: b)))) as [-> ->]; [cbn [app] in *; lia|].
  replace (12 + Zlen b) with (Zlen (b0 :: a') + 2 + Zlen b) by lia.
  apply (checksum_field_verifies pre (b0 :: a') b post); [done|done|rewrite Ha; done|autorewrite with zlen in *; lia|].
  pose proof (checksum_buffer_spec pre _ post Hb0 Hl0) as Hc'.
  replace (Zlen (b0 :: a') + 2 + Zlen b) with (Zlen ((b0 :: a') ++ [0; 0] ++ b)); [exact Hc'|].
  autorewrite with zlen. lia.
Qed.
End checksum.

(** RFC 1071's usual example behind an Ethernet header; the field holds garbage. *)
Lemma checksum_layer3_correct_witness :
  let a := [0x45; 0; 0; 0x73; 0; 0; 0x40; 0; 0x40; 0x11] in
  let b := [0xC0; 0xA8; 0; 1; 0xC0; 0xA8; 0; 0xC7] in
  let q := eth_packet (ether_bytes 0x0800 ++ a ++ [0xAB; 0xCD] ++ b) in
  ∃ c, trace_checksum_layer3 q.1 q.2 0 (replicate 80 7) =
      Ok (after q.2 (trace_get_layer3 q.1 q.2 0), Some (24, c)) ∧
    checksum_buffer (ether_bytes 0x0800 ++ (a ++ [c `div` 256; c `mod` 256] ++ b) ++ replicate 16 0)
      14 20 = Ok 0.
Proof.
  intros a b q.
  apply (checksum_layer3_correct q.1 q.2 0 (after q.2 (trace_get_layer3 q.1 q.2 0)) 14 20
    (ether_bytes 0x0800) a 0xAB 0xCD b (replicate 16 0) (replicate 80 7));
    try (lia || by_eval).
  by exists 0x45, (tail a).
Defined.
