(* ===== verification/Transport.v ===== *)
(** * Layer 4: lib/protocols_transport.c and lib/protocols_application.c

    Finding the transport header of a packet, the TCP, UDP, ICMP and ICMPv6
    headers, the payload behind them, ports, the payload length, the transport
    checksum, and the GRE and VXLAN encapsulations. *)

From S2P Require Import Prelude Byteswap Checksum Packet PktMeta Layer2 Layer3.
Local Open Scope Z_scope.
Local Open Scope outcome_scope.

Abbreviation TRACE_IPPROTO_ICMP := 1.
Abbreviation TRACE_IPPROTO_TCP := 6.
Abbreviation TRACE_IPPROTO_UDP := 17.
Abbreviation TRACE_IPPROTO_ICMPV6 := 58.
Abbreviation sizeof_tcp := 20.
Abbreviation sizeof_udp := 8.
Abbreviation sizeof_icmp := 8.
Abbreviation sizeof_icmp6 := 8.
Abbreviation sizeof_vxlan := 8.
Abbreviation LIBTRACE_GRE_FLAG_CHECKSUM := 0x8000.
Abbreviation LIBTRACE_GRE_FLAG_KEY := 0x2000.
Abbreviation LIBTRACE_GRE_FLAG_SEQ := 0x1000.

(** The upper nibble of byte 12 of a TCP header. *)
Definition tcp_doff (b12 : Z) : Z := Z.land (Z.shiftr b12 4) 15.

(** ** Skipping a transport header: the payload and [remaining] *)
Abbreviation advanced := (option Z * option Z)%type.

Definition trace_get_payload_from_udp (udp : Z) (remaining : option Z) : advanced :=
  match consume remaining sizeof_udp with
  | (false, rem') => (None, rem')
  | (true, rem') => (Some (udp + sizeof_udp), rem')
  end.

(** The header length is read before [remaining] is looked at. *)
Definition trace_get_payload_from_tcp (mem : list Z) (tcp : Z) (remaining : option Z)
  : outcome advanced :=
  let! b12 := read8 mem (tcp + 12) in
  let dlen := tcp_doff b12 * 4 in
  match consume remaining dlen with
  | (false, rem') => Ok (None, rem')
  | (true, rem') => Ok (Some (tcp + dlen), rem')
  end.

Definition trace_get_payload_from_icmp (icmp : Z) (remaining : option Z) : advanced :=
  match consume remaining sizeof_icmp with
  | (false, rem') => (None, rem')
  | (true, rem') => (Some (icmp + sizeof_icmp), rem')
  end.

Definition trace_get_payload_from_icmp6 (icmp : Z) (remaining : option Z) : advanced :=
  match consume remaining sizeof_icmp6 with
  | (false, rem') => (None, rem')
  | (true, rem') => (Some (icmp + sizeof_icmp6), rem')
  end.

Definition trace_get_payload_from_gre (mem : list Z) (gre : Z) (remaining : option Z)
  : outcome advanced :=
  if shorter_than remaining 4 then Ok (None, Some 0)
  else
    let! flags := be16 mem gre in
    let opt flag := if negb (Z.land flags flag =? 0) then 4 else 0 in
    let size := 4 + opt LIBTRACE_GRE_FLAG_CHECKSUM + opt LIBTRACE_GRE_FLAG_KEY
                  + opt LIBTRACE_GRE_FLAG_SEQ in
    match consume remaining size with
    | (false, rem') => Ok (None, rem')
    | (true, rem') => Ok (Some (gre + size), rem')
    end.

Definition trace_get_payload_from_vxlan (vxlan : Z) (remaining : option Z) : advanced :=
  match consume remaining sizeof_vxlan with
  | (false, rem') => (None, rem')
  | (true, rem') => (Some (vxlan + sizeof_vxlan), rem')
  end.

Definition trace_get_vxlan_from_udp (mem : list Z) (udp : Z) (remaining : option Z)
  : outcome advanced :=
  let! dest := read16 mem (udp + 2) in
  if negb (dest =? htons 4789) then Ok (None, remaining)
  else Ok (trace_get_payload_from_udp udp remaining).

(** [trace_get_tcp_from_ip], [..udp..] and [..icmp_from_ip] differ in the protocol. *)
Definition from_ip_if (proto : Z) (mem : list Z) (ip : Z) (remaining : option Z)
  : outcome advanced :=
  let! p := read8 mem (ip + 9) in
  if p =? proto then
    let! ' (ptr, _, rem') := trace_get_payload_from_ip mem ip None remaining in
    Ok (ptr, rem')
  else Ok (None, remaining).

Definition trace_get_tcp_from_ip := from_ip_if TRACE_IPPROTO_TCP.
Definition trace_get_udp_from_ip := from_ip_if TRACE_IPPROTO_UDP.
Definition trace_get_icmp_from_ip := from_ip_if TRACE_IPPROTO_ICMP.

(** ** The transport header of a packet

    [proto0] is what the caller's variable holds, [e0] what the local variable
    [ethertype] holds before [trace_get_layer3] is called. *)
Section packet.
Variable fmt : libtrace_format_t.

(** Skipping the IP headers: IPv6 inside IPv4 is followed. *)
Definition transport_of (mem : list Z) (ip ethertype proto0 remaining : Z) : outcome decoded :=
  if ethertype =? TRACE_ETHERTYPE_IP then
    let! ' (transport, proto, rem) :=
      trace_get_payload_from_ip mem ip (Some proto0) (Some remaining) in
    match transport with
    | Some t =>
        if default 0 proto =? TRACE_IPPROTO_IPV6
        then trace_get_payload_from_ip6 mem t proto rem
        else Ok (transport, proto, rem)
    | None => Ok (transport, proto, rem)
    end
  else if ethertype =? TRACE_ETHERTYPE_IPV6 then
    trace_get_payload_from_ip6 mem ip (Some proto0) (Some remaining)
  else Ok (None, Some 0, Some remaining).

Definition trace_get_transport (p : libtrace_packet_t) (proto0 e0 : Z)
  : outcome (libtrace_packet_t * (option Z * Z * Z)) :=
  match pk_l4_header p with
  | Some h => Ok (p, (Some h, pk_transport_proto p, pk_l4_remaining p))
  | None =>
      let! ' (p, (transport, ethertype, remaining)) := trace_get_layer3 fmt p e0 in
      match transport with
      | None => Ok (p, (None, proto0, remaining))
      | Some ip =>
          if remaining =? 0 then Ok (p, (None, proto0, remaining))
          else
            let! ' (transport, proto, rem) :=
              transport_of (pk_mem p) ip ethertype proto0 remaining in
            let proto := default 0 proto in
            let rem := default 0 rem in
            Ok (pk_set_l4 p transport proto rem, (transport, proto, rem))
      end
  end.

(** [trace_get_tcp], [..udp], [..icmp] and [..icmp6] differ in the protocol and the size. *)
Definition get_full_header (wanted size : Z) (p : libtrace_packet_t) (proto0 e0 : Z)
  : outcome (libtrace_packet_t * option Z) :=
  let! ' (p, (hdr, proto, rem)) := trace_get_transport p proto0 e0 in
  match hdr with
  | None => Ok (p, None)
  | Some h =>
      if negb (proto =? wanted) then Ok (p, None)
      else if rem <? size then Ok (p, None)
      else Ok (p, Some h)
  end.

Definition trace_get_tcp := get_full_header TRACE_IPPROTO_TCP sizeof_tcp.
Definition trace_get_udp := get_full_header TRACE_IPPROTO_UDP sizeof_udp.
Definition trace_get_icmp := get_full_header TRACE_IPPROTO_ICMP sizeof_icmp.
Definition trace_get_icmp6 := get_full_header TRACE_IPPROTO_ICMPV6 sizeof_icmp6.

(** ** Ports

    [field] is the offset of the port, [need] the bytes that must have been
    captured.  [e1] and [e2] are the uninitialised variables of the two calls. *)
Definition get_port (field need : Z) (p : libtrace_packet_t) (proto0 e1 e2 : Z)
  : outcome (libtrace_packet_t * Z) :=
  let! ' (p, (fragoff, _)) := trace_get_fragment_offset fmt p e1 in
  if negb (fragoff =? 0) then Ok (p, 0)
  else
    let! ' (p, (port, proto, remaining)) := trace_get_transport p proto0 e2 in
    if remaining <? need then Ok (p, 0)
    else if (proto =? TRACE_IPPROTO_ICMP) || (proto =? TRACE_IPPROTO_ICMPV6) then Ok (p, 0)
    else
      match port with
      | Some o => let! v := be16 (pk_mem p) (o + field) in Ok (p, v)
      | None => Ok (p, 0)
      end.

Definition trace_get_source_port := get_port 0 2.
Definition trace_get_destination_port := get_port 2 4.

(** ** The payload length *)

(** The switch on the transport protocol: [None] for [return 0]. *)
Definition payload_after (mem : list Z) (layer proto rem len : Z) : outcome (option Z) :=
  let sub n need :=
    if rem <? need then None else if len <? n then None else Some (u64 (len - n)) in
  if proto =? TRACE_IPPROTO_TCP then
    if rem <? sizeof_tcp then Ok None
    else
      let! b12 := read8 mem (layer + 12) in
      if len <? 4 * tcp_doff b12 then Ok None else Ok (Some (u64 (len - 4 * tcp_doff b12)))
  else if proto =? TRACE_IPPROTO_UDP then Ok (sub sizeof_udp sizeof_udp)
  else if proto =? TRACE_IPPROTO_ICMP then Ok (sub sizeof_icmp sizeof_icmp)
  else if proto =? TRACE_IPPROTO_ICMPV6 then Ok (sub sizeof_icmp6 sizeof_icmp6)
  else Ok None.

(** [len] after the switch on the ethertype: [None] for [return 0]. *)
Definition ip_payload_len (mem : list Z) (layer ethertype rem : Z) : outcome (option Z) :=
  if ethertype =? TRACE_ETHERTYPE_IP then
    if rem <? sizeof_ip then Ok None
    else
      let! ip_len := be16 mem (layer + 2) in
      let! b0 := read8 mem layer in
      let! ip_p := read8 mem (layer + 9) in
      let len := u64 (ip_len - 4 * ip_hl b0) in
      Ok (Some (if ip_p =? TRACE_IPPROTO_IPV6 then u64 (len - sizeof_ip6) else len))
  else if ethertype =? TRACE_ETHERTYPE_IPV6 then
    if rem <? sizeof_ip6 then Ok None
    else let! plen := be16 mem (layer + 4) in Ok (Some plen)
  else Ok None.

Definition trace_get_payload_length (p : libtrace_packet_t) (proto0 e1 e2 : Z)
  : outcome (libtrace_packet_t * Z) :=
  if negb (pk_payload_length p =? -1) then Ok (p, u64 (pk_payload_length p))
  else
    let p := pk_set_payload_length p 0 in
    let! ' (p, (layer, ethertype, rem)) := trace_get_layer3 fmt p e1 in
    match layer with
    | None => Ok (p, 0)
    | Some l =>
        let! len := ip_payload_len (pk_mem p) l ethertype rem in
        match len with
        | None => Ok (p, 0)
        | Some len =>
            let! ' (p, (layer, proto, rem)) := trace_get_transport p proto0 e2 in
            match layer with
            | None => Ok (p, 0)
            | Some l =>
                let! res := payload_after (pk_mem p) l proto rem len in
                match res with
                | None => Ok (p, 0)
                | Some len => Ok (pk_set_payload_length p (i32 len), len)
                end
            end
        end
    end.

(** ** The transport checksum *)

(** [memcpy(safety, hdr, n)] and then [check = 0], two bytes at [field]. *)
Definition copy_and_clear (mem : list Z) (hdr n field : Z) (safety : list Z) : outcome (list Z) :=
  let! header := read_bytes mem hdr (Z.to_nat n) in
  let safety := header ++ drop (length header) safety in
  let! safety := aset safety field 0 in
  aset safety (field + 1) 0.

(** The branches on the protocol: the payload, what remains, the checksum field,
    the local buffer and how much of it is used, and the sum to start from;
    [None] for a protocol without checksum.  The TCP header length is read again
    from the copy. *)
Definition checksum_header (mem : list Z) (header : option Z) (proto remaining sum : Z)
    (safety : list Z) : outcome (option (option Z * Z * Z * list Z * Z * Z)) :=
  if proto =? TRACE_IPPROTO_TCP then
    match header with
    | None => Fault NullDeref
    | Some tcp =>
        let! ' (payload, rem) := trace_get_payload_from_tcp mem tcp (Some remaining) in
        let! b12 := read8 mem (tcp + 12) in
        let! safety := copy_and_clear mem tcp (tcp_doff b12 * 4) 16 safety in
        let! b12' := read8 safety 12 in
        Ok (Some (payload, default 0 rem, tcp + 16, safety, tcp_doff b12' * 4, sum))
    end
  else if proto =? TRACE_IPPROTO_UDP then
    match header with
    | None => Fault NullDeref
    | Some udp =>
        let '(payload, rem) := trace_get_payload_from_udp udp (Some remaining) in
        let! safety := copy_and_clear mem udp sizeof_udp 6 safety in
        Ok (Some (payload, default 0 rem, udp + 6, safety, sizeof_udp, sum))
    end
  else if proto =? TRACE_IPPROTO_ICMP then
    match header with
    | None => Fault NullDeref
    | Some icmp =>
        let '(payload, rem) := trace_get_payload_from_icmp icmp (Some remaining) in
        let! safety := copy_and_clear mem icmp sizeof_icmp 2 safety in
        Ok (Some (payload, default 0 rem, icmp + 2, safety, sizeof_icmp, 0))
    end
  else Ok None.

(** The pseudo header; [None] for a header that is too short. *)
Definition pseudo_sum (mem : list Z) (header ethertype remaining : Z) : outcome (option Z) :=
  if ethertype =? TRACE_ETHERTYPE_IP then
    if remaining <? sizeof_ip then Ok None
    else let! s := ipv4_pseudo_checksum mem header in Ok (Some s)
  else if ethertype =? TRACE_ETHERTYPE_IPV6 then
    if remaining <? sizeof_ip6 then Ok None
    else let! s := ipv6_pseudo_checksum mem header in Ok (Some s)
  else Ok (Some 0).

(** The pointer to the checksum field and the checksum. *)
Definition trace_checksum_transport (p : libtrace_packet_t) (safety : list Z) (e1 e2 pr3 e3 e4 : Z)
  : outcome (libtrace_packet_t * option (Z * Z)) :=
  let! ' (p, (header, ethertype, remaining)) := trace_get_layer3 fmt p e1 in
  match header with
  | None => Ok (p, None)
  | Some h =>
      let! sum := pseudo_sum (pk_mem p) h ethertype remaining in
      match sum with
      | None => Ok (p, None)
      | Some sum =>
          let! ' (p, (header, proto, remaining)) := trace_get_transport p 0 e2 in
          let! parts := checksum_header (pk_mem p) header proto remaining sum safety in
          match parts with
          | None => Ok (p, None)
          | Some (payload, remaining, csum_ptr, safety, used, sum) =>
              let! s1 := add_checksum safety 0 (u16 used) in
              let sum := u32 (sum + s1) in
              let! ' (p, len) := trace_get_payload_length p pr3 e3 e4 in
              let plen := i32 len in
              if plen <? 0 then Ok (p, None)
              else if remaining <? plen then Ok (p, None)
              else
                match payload with
                | None => Ok (p, None)
                | Some pl =>
                    let! s2 := add_checksum (pk_mem p) pl (u16 plen) in
                    let! csum := finish_checksum (u32 (sum + s2)) in
                    Ok (p, Some (csum_ptr, ntohs csum))
                end
          end
      end
  end.
End packet.

(** ** Correctness *)
Section transport.
Context (fmt : libtrace_format_t).

(** The IP headers of a layer 3 packet are skipped inside memory and counted. *)
Lemma transport_of_good mem ip e pr r :
  bytes_ok mem → within mem ip r 10 → good_step ip r (transport_of mem ip e pr r).
Proof.
  intros Hb W. unfold transport_of. destruct (e =? TRACE_ETHERTYPE_IP).
  - destruct (ip_good mem ip r pr W) as (ptr & t & r' & -> & Hp). cbn [obind].
    destruct ptr as [o|]; [|by exists None, t, r']. destruct (_ =? _); [|by exists (Some o), t, r'].
    destruct W as (? & ? & ?).
    destruct (ip6_good mem o r' t Hb) as (ptr & t' & r'' & -> & Hp'); [unfold within; lia|].
    exists ptr, t', r''. split; [done|]. destruct ptr; lia.
  - destruct (e =? TRACE_ETHERTYPE_IPV6).
    + apply ip6_good; [done|]. destruct W as (? & ? & ?). unfold within. lia.
    + apply good_advance_stop. destruct W. lia.
Qed.

Lemma get_transport_good p pr e0 p0 buf t0 r0 :
  captured fmt p 10 → headers p = (None, None, None) →
  trace_get_packet_buffer fmt p true = Ok (p0, (buf, t0, Some r0)) →
  (∀ p' ptr t r, trace_get_layer2 fmt p = Ok (p', (ptr, t, r)) →
     t ≠ TRACE_TYPE_80211 ∧ t ≠ TRACE_TYPE_OPENBSD_LOOP) →
  ∃ p' ptr proto r, trace_get_transport fmt p pr e0 = Ok (p', (ptr, proto, r)) ∧
    pk_mem p' = pk_mem p ∧
    match ptr with
    | Some off => buf ≤ off ∧ 0 ≤ r ∧ off + r = buf + r0 ∧
                  pk_l4_header p' = Some off ∧ pk_transport_proto p' = proto ∧
                  pk_l4_remaining p' = r
    | None => pk_l4_header p' = None
    end.
Proof.
  intros Hcap [= H2 H3 H4] Hbuf Ht. unfold trace_get_transport. rewrite H4.
  destruct (get_layer3_good fmt p e0 p0 buf t0 r0) as (p1 & ptr & e & r & Hl3 & Hm & Hp);
    [by apply (captured_le fmt p 10)|done..|].
  apply get_layer3_frame in Hl3 as Hf; destruct Hf as [Hf _]. rewrite Hl3. cbn [obind].
  destruct ptr as [ip|]; [|do 4 eexists; split; [done|]; split; [done|]; by rewrite Hf].
  destruct Hp as (? & ? & ? & _). rewrite (proj2 (Z.eqb_neq r 0)) by lia.
  destruct Hcap as (Hb & _ & Hc). destruct (Hc _ _ _ _ Hbuf) as (? & ? & ?).
  destruct (transport_of_good (pk_mem p1) ip e pr r) as (ptr & proto & r' & -> & Hp);
    [by rewrite Hm|rewrite Hm; unfold within; lia|].
  cbn [obind]. do 4 eexists. split; [done|]. split; [done|]. simpl.
  destruct ptr; [|done]. split_and!; (done || lia).
Qed.

(** C17: Finding the transport header of a fresh packet (any link type but
    802.11 and the OpenBSD loopback; any mix of VLAN tags, MPLS labels, PPPoE,
    IPv4, IPv6 with extension headers, and IPv6 in IPv4): the search ends, reads
    nothing outside the packet memory (ten bytes of slack), and a header it
    finds lies in the packet buffer with a count that reaches exactly to its
    end; position, protocol and count are cached. *)
Theorem get_transport_accounting p pr e0 p0 buf t0 r0 :
  captured fmt p 10 → headers p = (None, None, None) →
  trace_get_packet_buffer fmt p true = Ok (p0, (buf, t0, Some r0)) →
  (∀ p' ptr t r, trace_get_layer2 fmt p = Ok (p', (ptr, t, r)) →
     t ≠ TRACE_TYPE_80211 ∧ t ≠ TRACE_TYPE_OPENBSD_LOOP) →
  ∃ p' ptr proto r, trace_get_transport fmt p pr e0 = Ok (p', (ptr, proto, r)) ∧
    pk_mem p' = pk_mem p ∧
    match ptr with
    | Some off => buf ≤ off ∧ 0 ≤ r ∧ off + r = buf + r0 ∧
                  pk_l4_header p' = Some off ∧ pk_transport_proto p' = proto ∧
                  pk_l4_remaining p' = r
    | None => pk_l4_header p' = None
    end.
Proof. apply get_transport_good. Qed.

(** [trace_get_tcp], [trace_get_udp], [trace_get_icmp] and
    [trace_get_icmp6] (the instances of [get_full_header]) on a fresh packet:
    they return, and what they return is a complete fixed header of the protocol
    they are asked for, inside the packet buffer. *)
Theorem full_header_in_buffer wanted size p pr e0 p0 buf t0 r0 :
  captured fmt p 10 → headers p = (None, None, None) →
  trace_get_packet_buffer fmt p true = Ok (p0, (buf, t0, Some r0)) →
  (∀ p' ptr t r, trace_get_layer2 fmt p = Ok (p', (ptr, t, r)) →
     t ≠ TRACE_TYPE_80211 ∧ t ≠ TRACE_TYPE_OPENBSD_LOOP) →
  ∃ p' res, get_full_header fmt wanted size p pr e0 = Ok (p', res) ∧
    (∀ h, res = Some h → buf ≤ h ∧ h + size ≤ buf + r0 ∧ pk_transport_proto p' = wanted).
Proof.
  intros Hcap Hh Hbuf Ht. unfold get_full_header.
  destruct (get_transport_good p pr e0 p0 buf t0 r0) as (p' & ptr & proto & r & -> & _ & Hp);
    [done..|]. cbn [obind]. destruct ptr as [h|]; [|by do 2 eexists].
  destruct (Z.eqb_spec proto wanted); [|by do 2 eexists]. cbn [negb].
  destruct (Z.ltb_spec r size); [by do 2 eexists|]. do 2 eexists. split; [done|].
  intros ? [= <-]. destruct Hp as (? & ? & ? & _ & ? & _). split_and!; (lia || congruence).
Qed.

(** The transport cache is transparent: once a header has been found,
    asking again gives the same answer and changes nothing. *)
Theorem get_transport_cached p pr e0 p' off proto r :
  trace_get_transport fmt p pr e0 = Ok (p', (Some off, proto, r)) →
  ∀ pr' e1, trace_get_transport fmt p' pr' e1 = Ok (p', (Some off, proto, r)).
Proof.
  intros H pr' e1. unfold trace_get_transport in H. destruct (pk_l4_header p) as [h|] eqn:E.
  - injection H as <- <- <- <-. unfold trace_get_transport. by rewrite E.
  - obind_inv H. destruct a as [p1 [[[ip|] e] r1]]; [|done]. destruct (r1 =? 0); [done|].
    obind_inv H. destruct a as [[t pt] r2]. injection H as <- -> <- <-. done.
Qed.

(** *** Ports and addresses *)

(** What [trace_get_payload_from_ip] does is independent of whether the protocol
    is asked for, apart from reporting it. *)
Lemma from_ip_prot mem ip pr r :
  within mem ip 0 10 →
  trace_get_payload_from_ip mem ip None (Some r) =
    let! ' (ptr, _, rem) := trace_get_payload_from_ip mem ip (Some pr) (Some r) in
    Ok (ptr, None, rem).
Proof.
  intros (? & ? & ?). unfold trace_get_payload_from_ip.
  destruct (read8_ok mem ip) as [b0 ->]; [lia|]. cbn [obind]. destruct (negb _); [done|].
  destruct (be16_ok mem (ip + 6)) as [v ->]; [lia..|]. cbn [obind]. destruct (negb _); [done|].
  destruct (consume _ _) as [[] rem']; [|done].
  destruct (read8_ok mem (ip + 9)) as [q ->]; [lia|]. done.
Qed.

(** A protocol is reported only together with a pointer; it is byte 9. *)
Lemma from_ip_cases mem ip pr r ptr pr' rem :
  trace_get_payload_from_ip mem ip (Some pr) (Some r) = Ok (ptr, pr', rem) →
  match ptr with
  | Some _ => ∃ q v, pr' = Some q ∧ read8 mem (ip + 9) = Ok q ∧ be16 mem (ip + 6) = Ok v ∧
                     Z.land v 0x1FFF = 0
  | None => True
  end.
Proof.
  unfold trace_get_payload_from_ip. intros H. obind_inv H.
  destruct (negb (_ =? 4)); [by injection H as <- _ _|]. obind_inv H.
  destruct (Z.eqb_spec (Z.land a0 0x1fff) 0); [|by injection H as <- _ _]. cbn [negb] in H.
  destruct (consume _ _) as [[] rem']; [|by injection H as <- _ _].
  obind_inv H. injection H as <- <- _. cbn [store_if] in Hstep1. obind_inv Hstep1.
  injection Hstep1 as <-. by do 2 eexists.
Qed.

(** The port read from the transport header is the one [port_of] finds. *)
Lemma port_of_transport field p1 ip r q pr e2 ports pr' rem port :
  (∀ e, trace_get_layer3 fmt p1 e = Ok (p1, (Some ip, TRACE_ETHERTYPE_IP, r))) → r ≠ 0 →
  pk_l4_header p1 = None → read8 (pk_mem p1) (ip + 9) = Ok q →
  q ≠ TRACE_IPPROTO_ICMP → q ≠ TRACE_IPPROTO_ICMPV6 → q ≠ TRACE_IPPROTO_IPV6 →
  trace_get_payload_from_ip (pk_mem p1) ip (Some pr) (Some r) = Ok (ports, pr', rem) →
  port_of (pk_mem p1) ports (default 0 rem) field = Ok port →
  ∃ p2, (let! ' (p, (port, proto, remaining)) := trace_get_transport fmt p1 pr e2 in
    if remaining <? 4 then Ok (p, 0)
    else if (proto =? TRACE_IPPROTO_ICMP) || (proto =? TRACE_IPPROTO_ICMPV6) then Ok (p, 0)
    else
      match port with
      | Some o => let! v := be16 (pk_mem p) (o + field) in Ok (p, v)
      | None => Ok (p, 0)
      end) = Ok (p2, ntohs port).
Proof.
  intros Hc Hr Hf Hq Hq1 Hq58 Hq41 Hip Hport. apply from_ip_cases in Hip as Hcases.
  unfold trace_get_transport. rewrite Hf, Hc. cbn [obind].
  rewrite (proj2 (Z.eqb_neq r 0) Hr). unfold transport_of. rewrite Z.eqb_refl, Hip. cbn [obind].
  destruct ports as [t|]; simpl in Hport.
  - destruct Hcases as (q' & v & -> & Hq' & _). rewrite Hq in Hq'. injection Hq' as <-.
    change (default 0 (Some q)) with q. rewrite (proj2 (Z.eqb_neq q _) Hq41). cbn [obind].
    change (default 0 (Some q)) with q.
    rewrite (proj2 (Z.eqb_neq q _) Hq1), (proj2 (Z.eqb_neq q _) Hq58). cbn [orb].
    destruct (Z.ltb_spec (default 0 rem) 4), (Z.leb_spec 4 (default 0 rem)); try lia.
    + injection Hport as <-. by eexists.
    + simpl. unfold be16. rewrite Hport. by eexists.
  - injection Hport as <-. cbn [obind]. destruct (_ <? 4); [by eexists|].
    destruct (_ || _); by eexists.
Qed.

(** Two separate pieces of code extract the destination port of an
    IPv4 packet: [trace_get_destination_port] through the fragment check and the
    transport header, and [trace_get_destination_address] directly.  They agree
    on every packet, fragments and truncated ones included, whose protocol is
    neither ICMP nor ICMPv6 (which the first one excludes) nor IPv6. *)
Theorem destination_port_agrees_with_address p p1 ip r q port addr pr e0 e2 :
  trace_get_layer3 fmt p e0 = Ok (p1, (Some ip, TRACE_ETHERTYPE_IP, r)) → r ≠ 0 →
  pk_l4_header p = None → within (pk_mem p1) ip 0 10 →
  read8 (pk_mem p1) (ip + 9) = Ok q →
  q ≠ TRACE_IPPROTO_ICMP → q ≠ TRACE_IPPROTO_ICMPV6 → q ≠ TRACE_IPPROTO_IPV6 →
  trace_get_destination_address fmt p e0 = Ok (p1, Some (SockIn port addr)) →
  ∃ p2, trace_get_destination_port fmt p pr e0 e2 = Ok (p2, ntohs port).
Proof.
  intros H3 Hr H4 W Hq Hq1 Hq58 Hq41 Ha. pose proof (layer3_cached fmt p e0 p1 ip _ r H3) as Hc.
  apply get_layer3_frame in H3 as Hf. destruct Hf as [Hf _]. rewrite H4 in Hf.
  unfold trace_get_destination_address in Ha. rewrite H3 in Ha. cbn [obind] in Ha.
  rewrite Z.eqb_refl, (from_ip_prot _ _ pr) in Ha by done. obind_inv Ha.
  destruct a as [[ports x] rem]. obind_inv Hstep. destruct a as [[ports' pr'] rem'].
  injection Hstep as <- <- <-. apply from_ip_cases in Hstep0 as Hcases. cbn [obind] in Ha.
  obind_inv Ha. rename a into port'. obind_inv Ha. injection Ha as <- _.
  unfold trace_get_destination_port, get_port, trace_get_fragment_offset.
  rewrite H3. cbn [obind]. rewrite Z.eqb_refl.
  destruct W as (? & ? & ?). destruct (be16_ok (pk_mem p1) (ip + 6)) as [v Hv]; [lia..|].
  pose proof (port_of_transport 2 p1 ip r q pr e2 _ _ _ _ Hc Hr Hf Hq Hq1 Hq58 Hq41 Hstep0 Hstep)
    as Htr.
  destruct (r <? 8); [exact Htr|]. rewrite Hv. cbn [obind].
  destruct (Z.eqb_spec (u16 (Z.land v 0x1FFF * 8)) 0) as [|Hoff]; [exact Htr|]. cbn [negb].
  destruct ports' as [t|].
  - destruct Hcases as (_ & v' & _ & _ & Hv' & Hz). rewrite Hv in Hv'. injection Hv' as <-.
    by rewrite Hz in Hoff.
  - injection Hstep as <-. by eexists.
Qed.

(** *** The payload length *)

(** The complete behaviour for TCP over IPv4, with [len] the total
    length of the IP header and [hl], [doff] the lengths of the two headers in
    bytes: the difference if both headers fit, 0 if the TCP header does not,
    and, where the total length is smaller than the IP header itself (as in
    captures with segmentation offloading, where it is 0), almost 2^64. *)
Theorem payload_length_tcp p p1 p2 ip r tcp rem len b0 b12 ip_p pr e1 e2 :
  let hl := 4 * ip_hl b0 in let doff := 4 * tcp_doff b12 in
  pk_payload_length p = -1 →
  trace_get_layer3 fmt (pk_set_payload_length p 0) e1 = Ok (p1, (Some ip, TRACE_ETHERTYPE_IP, r)) →
  sizeof_ip ≤ r → bytes_ok (pk_mem p1) →
  be16 (pk_mem p1) (ip + 2) = Ok len → read8 (pk_mem p1) ip = Ok b0 →
  read8 (pk_mem p1) (ip + 9) = Ok ip_p → ip_p ≠ TRACE_IPPROTO_IPV6 →
  trace_get_transport fmt p1 pr e2 = Ok (p2, (Some tcp, TRACE_IPPROTO_TCP, rem)) →
  sizeof_tcp ≤ rem → read8 (pk_mem p2) (tcp + 12) = Ok b12 →
  ∃ p3, trace_get_payload_length fmt p pr e1 e2 = Ok (p3,
    if len <? hl then 2 ^ 64 + (len - hl - doff)
    else if len - hl <? doff then 0 else len - hl - doff).
Proof.
  intros hl doff Hpl H3 Hr Hb Hlen Hb0 Hp Hv6 H4 Hrem Hb12.
  pose proof (be16_range _ _ _ Hb Hlen). pose proof (ip_hl_range b0).
  assert (0 ≤ tcp_doff b12 ≤ 15) by exact (ip_hl_range (Z.shiftr b12 4)).
  unfold trace_get_payload_length. rewrite Hpl. change (-1 =? -1) with true. cbn [negb].
  rewrite H3. cbn [obind]. unfold ip_payload_len. rewrite Z.eqb_refl, (proj2 (Z.ltb_ge r 20)) by lia.
  rewrite Hlen, Hb0, Hp. cbn [obind]. rewrite (proj2 (Z.eqb_neq _ _) Hv6), H4. cbn [obind].
  unfold payload_after. rewrite Z.eqb_refl, (proj2 (Z.ltb_ge rem 20)), Hb12 by lia. cbn [obind].
  fold hl doff. assert (0 ≤ hl ≤ 60 ∧ 0 ≤ doff ≤ 60) by lia. unfold u64.
  destruct (Z.ltb_spec len hl).
  - rewrite <- (Z_mod_plus_full (len - hl) 1), Z.mod_small by lia.
    rewrite (proj2 (Z.ltb_ge _ doff)) by lia. cbn [obind].
    rewrite Z.mod_small by lia. eexists. do 2 f_equal. lia.
  - rewrite (Z.mod_small (len - hl)) by lia. destruct (Z.ltb_spec (len - hl) doff); cbn [obind].
    + by eexists.
    + rewrite Z.mod_small by lia. by eexists.
Qed.

Lemma payload_after_range mem l q rem len n :
  payload_after mem l q rem len = Ok (Some n) → 0 ≤ n.
Proof.
  unfold payload_after. intros H. destruct (q =? 6); [destruct (rem <? 20); [done|]; obind_inv H|].
  all: repeat match type of H with
    | context [if ?b then _ else _] => destruct b
    end; try done; injection H as <-; apply u64_range.
Qed.

Lemma get_transport_frame p pr e0 p' res :
  trace_get_transport fmt p pr e0 = Ok (p', res) → pk_payload_length p' = pk_payload_length p.
Proof.
  unfold trace_get_transport. intros H. destruct (pk_l4_header p); [by injection H as <- _|].
  obind_inv H. destruct a as [p1 [[[ip|] e] r]]; apply get_layer3_frame in Hstep as [_ <-];
    [|by injection H as <- _].
  destruct (r =? 0); [by injection H as <- _|]. obind_inv H. destruct a as [[t q] rm].
  by injection H as <- _.
Qed.

(** The payload length is cached faithfully whenever it is a length
    an [int] can hold: a second call returns what the first one returned, 0
    after a failure included, and changes nothing. *)
Theorem payload_length_cached p p' n pr e1 e2 :
  trace_get_payload_length fmt p pr e1 e2 = Ok (p', n) → n < 2 ^ 31 →
  - 2 ^ 31 ≤ pk_payload_length p < 2 ^ 31 →
  ∀ pr' e1' e2', trace_get_payload_length fmt p' pr' e1' e2' = Ok (p', n).
Proof.
  intros H Hn Hp pr' e1' e2'.
  assert (pk_payload_length p' ≠ -1 ∧ u64 (pk_payload_length p') = n) as [Hne <-].
  2:{ unfold trace_get_payload_length. by rewrite (proj2 (Z.eqb_neq _ _) Hne). }
  unfold trace_get_payload_length in H.
  destruct (Z.eqb_spec (pk_payload_length p) (-1)) as [_|Hne]; [|by injection H as <- <-].
  cbn [negb] in H. obind_inv H. destruct a as [p1 [[l3 e] r]].
  apply get_layer3_frame in Hstep as [_ Hl]. simpl in Hl.
  destruct l3 as [l|]; [|injection H as <- <-; by rewrite Hl]. obind_inv H.
  destruct a as [len|]; [|injection H as <- <-; by rewrite Hl]. obind_inv H.
  destruct a as [p2 [[l4 q] rm]]. apply get_transport_frame in Hstep0. rewrite Hl in Hstep0.
  destruct l4 as [t|]; [|injection H as <- <-; by rewrite Hstep0]. obind_inv H.
  destruct a as [res|]; [|injection H as <- <-; by rewrite Hstep0].
  injection H as <- ->. simpl. apply payload_after_range in Hstep1.
  rewrite i32_small, u64_small by lia. lia.
Qed.

(** *** The transport checksum *)

(** For a UDP datagram over IPv4 that was captured completely: the
    checksum computed does not depend on what the checksum field or the local
    buffer held; stored in network order it makes the sum over pseudo header,
    header and payload verify; the pointer returned is the checksum field. *)
Theorem checksum_transport_udp p p1 p2 p3 ip r rem s0 pre a x y pay post safety e1 e2 pr3 e3 e4 :
  trace_get_layer3 fmt p e1 = Ok (p1, (Some ip, TRACE_ETHERTYPE_IP, r)) → sizeof_ip ≤ r →
  bytes_ok (pk_mem p1) → ipv4_pseudo_checksum (pk_mem p1) ip = Ok s0 →
  trace_get_transport fmt p1 0 e2 = Ok (p2, (Some (Zlen pre), TRACE_IPPROTO_UDP, rem)) →
  pk_mem p2 = pre ++ (a ++ [x; y]) ++ pay ++ post → pk_mem p3 = pk_mem p2 →
  Zlen a = 6 → bytes_ok a → bytes_ok pay → Zlen pay < 65528 → sizeof_udp + Zlen pay ≤ rem →
  trace_get_payload_length fmt p2 pr3 e3 e4 = Ok (p3, Zlen pay) →
  ∃ c, trace_checksum_transport fmt p safety e1 e2 pr3 e3 e4
      = Ok (p3, Some (Zlen pre + 6, c)) ∧
    finish_checksum (s0 + word_sum (a ++ [c `div` 256; c `mod` 256] ++ pay)) = Ok 0.
Proof.
  intros H3 Hr Hb Hs0 H4 Hm2 Hm3 Ha Hba Hbp Hlp Hrem Hpl.
  pose proof (Zlen_nonneg pay). apply ipv4_pseudo_bound in Hs0 as Hs0b; [|done].
  pose proof (word_sum_bound a Hba) as [? ?]. pose proof (word_sum_bound pay Hbp) as [? ?].
  unfold trace_checksum_transport. rewrite H3. cbn [obind]. unfold pseudo_sum.
  rewrite Z.eqb_refl, (proj2 (Z.ltb_ge r 20)), Hs0 by lia. cbn [obind]. rewrite H4. cbn [obind].
  unfold checksum_header. change (TRACE_IPPROTO_UDP =? TRACE_IPPROTO_TCP) with false. rewrite Z.eqb_refl.
  cbn iota. unfold trace_get_payload_from_udp, consume. rewrite (proj2 (Z.ltb_ge rem 8)) by lia.
  unfold copy_and_clear. rewrite Hm2.
  assert (Z.to_nat sizeof_udp = length (a ++ [x; y])) as ->
    by (rewrite length_app; unfold Zlen in Ha; simpl; lia).
  rewrite read_bytes_app. cbn [obind]. set (tail := drop _ safety). rewrite <- app_assoc. cbn [app].
  pose proof (zero_field_at a x y tail 6 Ha) as Hz.
  apply obind_ok_inv in Hz as (sf & -> & Hz). cbn [obind]. rewrite Hz. cbn [obind].
  assert (Hba0 : bytes_ok (a ++ [0; 0])) by (apply bytes_ok_app; split; [done|repeat constructor; lia]).
  pose proof (add_checksum_spec [] (a ++ [0; 0]) tail Hba0) as Hsum1.
  rewrite Zlen_app, Ha, <- app_assoc in Hsum1. change (Zlen [0; 0]) with 2 in Hsum1.
  change (Zlen []) with 0 in Hsum1. cbn [app] in Hsum1. rewrite (u16_small sizeof_udp) by lia.
  change (6 + 2) with sizeof_udp in Hsum1. rewrite Hsum1 by lia. cbn [obind]. rewrite Hpl. cbn [obind].
  rewrite i32_small, (proj2 (Z.ltb_ge (Zlen pay) 0)) by lia.
  change (default 0 (Some (rem - sizeof_udp))) with (rem - sizeof_udp).
  rewrite (proj2 (Z.ltb_ge _ (Zlen pay))), Hm3, Hm2, u16_small by lia.
  pose proof (add_checksum_spec (pre ++ a ++ [x; y]) pay post Hbp) as Hsum2.
  rewrite !Zlen_app, Ha, <- !app_assoc in Hsum2. change (Zlen [x; y]) with 2 in Hsum2.
  cbn [app] in Hsum2. rewrite <- !app_assoc. cbn [app].
  replace (Zlen pre + sizeof_udp) with (Zlen pre + (6 + 2)) by lia. rewrite Hsum2 by lia. cbn [obind].
  assert (Hev : Zeven (Zlen a)) by (by rewrite Ha).
  rewrite word_sum_app by done. cbn [word_sum]. set (s := s0 + (word_sum a + word_sum pay)).
  rewrite (u32_small (s0 + _)), u32_small by lia.
  replace (s0 + (word_sum a + (0 + 256 * 0 + 0)) + word_sum pay) with s by lia.
  rewrite finish_checksum_spec by lia. cbn [obind]. pose proof (fold16_range s ltac:(lia)).
  eexists. split; [done|]. destruct (ntohs_bytes (65535 - fold16 s)) as [-> ->]; [lia|].
  rewrite word_sum_app by done. cbn [word_sum app]. set (c := 65535 - fold16 s).
  replace (s0 + (word_sum a + (c `mod` 256 + 256 * (c `div` 256) + word_sum pay))) with (s + c)
    by (pose proof (Z.div_mod c 256); lia).
  rewrite finish_checksum_spec by lia. unfold c. by rewrite fold16_complement by lia.
Qed.
End transport.

(** ** Instances *)

(** Ethernet, IPv4 and 28 bytes of a TCP segment with a header of 24. *)
Definition tcp_bytes : list Z :=
  [0x1F; 0x90; 0; 80; 0; 0; 0; 1; 0; 0; 0; 0; 0x60; 2; 0xFF; 0xFF; 0; 0; 0; 0; 2; 4; 5; 0xB4;
   1; 2; 3; 4].

Definition tcp_packet : libtrace_format_t * libtrace_packet_t :=
  eth_packet (ether_bytes 0x0800 ++ ipv4_bytes 48 0 6 ++ tcp_bytes).

Lemma captured_tcp : captured tcp_packet.1 tcp_packet.2 10.
Proof.
  split; [by_eval|]. split; [done|].
  intros p' ptr t r H. vm_compute in H. injection H as <- <- <- <-. unfold within. vm_compute. done.
Qed.

Lemma get_transport_accounting_witness :
  ∃ p' ptr proto r, trace_get_transport tcp_packet.1 tcp_packet.2 0 0 = Ok (p', (ptr, proto, r)) ∧
    pk_mem p' = pk_mem tcp_packet.2 ∧
    match ptr with
    | Some off => 0 ≤ off ∧ 0 ≤ r ∧ off + r = 0 + 62 ∧ pk_l4_header p' = Some off ∧
                  pk_transport_proto p' = proto ∧ pk_l4_remaining p' = r
    | None => pk_l4_header p' = None
    end.
Proof.
  apply (get_transport_accounting tcp_packet.1 tcp_packet.2 0 0
    (pk_set_lengths (pk_set_link_type tcp_packet.2 (Some TRACE_TYPE_ETH)) 62 62)
    0 TRACE_TYPE_ETH 62 captured_tcp); [vm_compute; reflexivity..|].
  intros p' ptr t r H. vm_compute in H. injection H as <- <- <- <-. done.
Defined.

Lemma full_header_in_buffer_witness :
  ∃ p' res, trace_get_tcp tcp_packet.1 tcp_packet.2 0 0 = Ok (p', res) ∧
    (∀ h, res = Some h → 0 ≤ h ∧ h + 20 ≤ 0 + 62 ∧ pk_transport_proto p' = 6).
Proof.
  apply (full_header_in_buffer tcp_packet.1 6 20 tcp_packet.2 0 0
    (pk_set_lengths (pk_set_link_type tcp_packet.2 (Some TRACE_TYPE_ETH)) 62 62)
    0 TRACE_TYPE_ETH 62 captured_tcp); [vm_compute; reflexivity..|].
  intros p' ptr t r H. vm_compute in H. injection H as <- <- <- <-. done.
Defined.

Lemma get_transport_cached_witness :
  let p' := after tcp_packet.2 (trace_get_transport tcp_packet.1 tcp_packet.2 0 0) in
  trace_get_transport tcp_packet.1 p' 5 7 = Ok (p', (Some 34, 6, 28)).
Proof.
  intros p'. apply (get_transport_cached tcp_packet.1 tcp_packet.2 0 0 p' 34 6 28).
  vm_compute. reflexivity.
Defined.

Lemma destination_port_agrees_with_address_witness :
  ∃ p2, trace_get_destination_port tcp_packet.1 tcp_packet.2 0 0 0 = Ok (p2, ntohs (80 * 256)).
Proof.
  apply (destination_port_agrees_with_address tcp_packet.1 tcp_packet.2
    (after tcp_packet.2 (trace_get_layer3 tcp_packet.1 tcp_packet.2 0)) 14 48 6
    (80 * 256) [192; 168; 0; 199] 0 0 0); unfold within; by_eval.
Defined.

Lemma payload_length_tcp_witness :
  ∃ p3, trace_get_payload_length tcp_packet.1 tcp_packet.2 0 0 0 = Ok (p3, 4).
Proof.
  set (q := tcp_packet).
  set (p1 := after q.2 (trace_get_layer3 q.1 (pk_set_payload_length q.2 0) 0)).
  apply (payload_length_tcp q.1 q.2 p1 (after q.2 (trace_get_transport q.1 p1 0 0))
    14 48 34 28 48 0x45 0x60 6 0 0 0); by_eval.
Defined.

Lemma payload_length_cached_witness :
  let p' := after tcp_packet.2 (trace_get_payload_length tcp_packet.1 tcp_packet.2 0 0 0) in
  trace_get_payload_length tcp_packet.1 p' 9 9 9 = Ok (p', 4).
Proof.
  intros p'. apply (payload_length_cached tcp_packet.1 tcp_packet.2 p' 4 0 0 0); vm_compute; done.
Defined.

(** Ethernet, IPv4, and a UDP datagram of three bytes; the checksum field holds
    garbage. *)
Definition udp_packet : libtrace_format_t * libtrace_packet_t :=
  eth_packet (ether_bytes 0x0800 ++ ipv4_bytes 31 0 17 ++
    [0; 53; 0x30; 0x39; 0; 11] ++ [0xDE; 0xAD] ++ [1; 2; 3]).

Lemma checksum_transport_udp_witness :
  ∃ c p3, trace_checksum_transport udp_packet.1 udp_packet.2 (replicate 20 9) 0 0 0 0 0
      = Ok (p3, Some (40, c)) ∧
    finish_checksum (144768 + word_sum ([0; 53; 0x30; 0x39; 0; 11] ++
      [c `div` 256; c `mod` 256] ++ [1; 2; 3])) = Ok 0.
Proof.
  set (q := udp_packet). set (p1 := after q.2 (trace_get_layer3 q.1 q.2 0)).
  set (p2 := after p1 (trace_get_transport q.1 p1 0 0)).
  set (p3 := after p2 (trace_get_payload_length q.1 p2 0 0 0)).
  cut (∃ c, trace_checksum_transport q.1 q.2 (replicate 20 9) 0 0 0 0 0 = Ok (p3, Some (40, c)) ∧
    finish_checksum (144768 + word_sum ([0; 53; 0x30; 0x39; 0; 11] ++
      [c `div` 256; c `mod` 256] ++ [1; 2; 3])) = Ok 0).
  { intros (c & H1 & H2). exists c, p3. split; assumption. }
  apply (checksum_transport_udp q.1 q.2 p1 p2 p3 14 31 11 144768
    (ether_bytes 0x0800 ++ ipv4_bytes 31 0 17) [0; 53; 0x30; 0x39; 0; 11] 0xDE 0xAD [1; 2; 3]
    (replicate 16 0) (replicate 20 9) 0 0 0 0 0); by_eval.
Defined.
