(* ===== verification/Ospf.v ===== *)
(** * OSPF version 2: lib/protocols_ospf.c

    Finding the OSPF header of a packet, the contents behind it, and the
    iterators over router links, LSA headers and complete LSAs.  An iterator is
    called in a loop while it returns a positive number. *)

From S2P Require Import Prelude Byteswap Packet Layer2 Layer3 Transport.
Local Open Scope Z_scope.
Local Open Scope outcome_scope.

Abbreviation TRACE_IPPROTO_OSPF := 89.
Abbreviation sizeof_ospf_v2 := 24.
Abbreviation sizeof_ospf_lsa_v2 := 20.
Abbreviation sizeof_ospf_link_v2 := 12.
Abbreviation sizeof_ospf_router_lsa_v2 := 4.
Abbreviation sizeof_ospf_db_desc_v2 := 8.
Abbreviation sizeof_ospf_ls_update := 4.

(** ** Headers *)

(** The pointer, [*version] (None: not written) and [*remaining]. *)
Definition trace_get_ospf_header (fmt : libtrace_format_t) (p : libtrace_packet_t) (proto0 e0 : Z)
  : outcome (libtrace_packet_t * (option Z * option Z * Z)) :=
  let! ' (p, (ospf, proto, remaining)) := trace_get_transport fmt p proto0 e0 in
  match ospf with
  | None => Ok (p, (None, None, remaining))
  | Some o =>
      if negb (proto =? TRACE_IPPROTO_OSPF) || (remaining =? 0)
      then Ok (p, (None, None, remaining))
      else
        let! version := read8 (pk_mem p) o in
        if (version =? 2) && (remaining <? sizeof_ospf_v2)
        then Ok (p, (None, Some version, remaining))
        else Ok (p, (Some o, Some version, remaining))
  end.

(** The pointer, [*ospf_type] and [*remaining]. *)
Definition trace_get_ospf_contents_v2 (mem : list Z) (header : option Z) (remaining : Z)
  : outcome (option Z * Z * Z) :=
  match header with
  | None => Ok (None, 0, 0)
  | Some h =>
      if remaining <? sizeof_ospf_v2 then Ok (None, 0, 0)
      else
        let! type := read8 mem (h + 1) in
        Ok (Some (h + sizeof_ospf_v2), type, remaining - sizeof_ospf_v2)
  end.

(** The three functions that find the first element after a fixed header. *)
Definition first_after (size : Z) (header : option Z) (remaining : Z) : option Z * Z :=
  match header with
  | None => (None, 0)
  | Some h => if remaining <? size then (None, 0) else (Some (h + size), remaining - size)
  end.

Definition trace_get_first_ospf_link_from_router_lsa_v2 := first_after sizeof_ospf_router_lsa_v2.
Definition trace_get_first_ospf_lsa_from_db_desc_v2 := first_after sizeof_ospf_db_desc_v2.
Definition trace_get_first_ospf_lsa_from_update_v2 := first_after sizeof_ospf_ls_update.

(** The 24-bit metric at bytes 5 to 7 of an AS-external or summary LSA body. *)
Definition metric24 (mem : list Z) (lsa : Z) : outcome Z :=
  let! a := read8 mem (lsa + 5) in
  let! b := read8 mem (lsa + 6) in
  let! c := read8 mem (lsa + 7) in
  Ok (Z.lor (Z.lor (Z.shiftl a 16) (Z.shiftl b 8)) c).

Definition trace_get_ospf_metric_from_as_external_lsa_v2 := metric24.
Definition trace_get_ospf_metric_from_summary_lsa_v2 := metric24.

(** ** Iterators

    The state a caller passes by reference; outputs that a call does not write
    keep their values. *)
Record lsa_iter := {
  it_current : option Z;
  it_remaining : Z;
  it_hdr : option Z;
  it_body : option Z;
  it_type : Z;
  it_length : Z;
}.

Definition trace_get_next_ospf_link_v2 (s : lsa_iter) : Z * lsa_iter :=
  match it_current s with
  | Some c =>
      if it_remaining s <? sizeof_ospf_link_v2
      then (0, {| it_current := Some c; it_remaining := 0; it_hdr := None;
                  it_body := it_body s; it_type := it_type s; it_length := it_length s |})
      else (1, {| it_current := Some (c + sizeof_ospf_link_v2);
                  it_remaining := it_remaining s - sizeof_ospf_link_v2; it_hdr := Some c;
                  it_body := it_body s; it_type := it_type s; it_length := sizeof_ospf_link_v2 |})
  | None => (0, {| it_current := None; it_remaining := 0; it_hdr := None;
                   it_body := it_body s; it_type := it_type s; it_length := it_length s |})
  end.

(** ROUTER, NETWORK, SUMMARY, ASBR_SUMMARY and EXTERNAL. *)
Definition valid_lsa (type : Z) : bool := (1 <=? type) && (type <=? 5).

(** The test [remaining == 0] at the end compares the pointer, which is not
    null, so that a successful call always returns 1. *)
Definition trace_get_next_ospf_lsa_header_v2 (mem : list Z) (s : lsa_iter)
  : outcome (Z * lsa_iter) :=
  let none := {| it_current := it_current s; it_remaining := 0; it_hdr := None;
                 it_body := it_body s; it_type := it_type s; it_length := it_length s |} in
  match it_current s with
  | None => Ok (0, none)
  | Some c =>
      if it_remaining s <? sizeof_ospf_lsa_v2 then Ok (0, none)
      else
        let! type := read8 mem (c + 3) in
        if negb (valid_lsa type)
        then Ok (-1, {| it_current := Some c; it_remaining := 0; it_hdr := Some c;
                        it_body := it_body s; it_type := 0; it_length := sizeof_ospf_lsa_v2 |})
        else Ok (1, {| it_current := Some (c + sizeof_ospf_lsa_v2);
                       it_remaining := it_remaining s - sizeof_ospf_lsa_v2; it_hdr := Some c;
                       it_body := it_body s; it_type := 0; it_length := sizeof_ospf_lsa_v2 |})
  end.

Definition trace_get_next_ospf_lsa_v2 (mem : list Z) (s : lsa_iter) : outcome (Z * lsa_iter) :=
  let none := {| it_current := it_current s; it_remaining := 0; it_hdr := None;
                 it_body := None; it_type := it_type s; it_length := it_length s |} in
  match it_current s with
  | None => Ok (0, none)
  | Some c =>
      if it_remaining s <? sizeof_ospf_lsa_v2 then Ok (0, none)
      else
        let! type := read8 mem (c + 3) in
        let! length := be16 mem (c + 18) in
        if (it_remaining s <? length) || negb (valid_lsa type)
        then Ok (-1, {| it_current := Some c; it_remaining := 0; it_hdr := Some c;
                        it_body := None; it_type := type; it_length := length |})
        else
          let body := if length =? sizeof_ospf_lsa_v2 then None
                      else Some (c + sizeof_ospf_lsa_v2) in
          Ok (1, {| it_current := Some (c + length); it_remaining := it_remaining s - length;
                    it_hdr := Some c; it_body := body; it_type := type; it_length := length |})
  end.

(** ** The calling loop

    [while (next(&current, ...) > 0)], collecting the headers handed out. *)
Fixpoint walk (next : lsa_iter → outcome (Z * lsa_iter)) (fuel : nat) (s : lsa_iter)
  : outcome (list (Z * Z) * lsa_iter) :=
  match fuel with
  | O => Fault OutOfFuel
  | S fuel' =>
      let! ' (ret, s') := next s in
      if 0 <? ret then
        let! ' (hs, s'') := walk next fuel' s' in
        Ok ((default 0 (it_hdr s'), it_length s') :: hs, s'')
      else Ok ([], s')
  end.

(** The elements lie one behind the other, from [start] on, and end by [stop]. *)
Fixpoint tiles (start stop : Z) (hs : list (Z * Z)) : Prop :=
  match hs with
  | [] => start ≤ stop
  | (h, len) :: hs' => h = start ∧ 0 < len ∧ tiles (start + len) stop hs'
  end.

Section walk.
Context (mem : list Z) (next : lsa_iter → outcome (Z * lsa_iter)).

(** What the loop needs of an iterator: a call that returns 1 hands out the
    current element and moves by its length, which is positive; a call that
    returns 0 or -1 does not fault. *)
Definition iterates (ok : Z → Z → Prop) : Prop :=
  ∀ s c, it_current s = Some c → ok c (it_remaining s) →
    ∃ ret s', next s = Ok (ret, s') ∧
      (ret ≤ 0 ∨ ret = 1 ∧ it_hdr s' = Some c ∧ 0 < it_length s' ≤ it_remaining s ∧
        it_current s' = Some (c + it_length s') ∧
        it_remaining s' = it_remaining s - it_length s' ∧ ok (c + it_length s') (it_remaining s')).

Lemma walk_ends ok fuel : ∀ s c,
  iterates ok → it_current s = Some c → ok c (it_remaining s) → 0 ≤ it_remaining s →
  it_remaining s < Z.of_nat fuel →
  ∃ hs s', walk next fuel s = Ok (hs, s') ∧ tiles c (c + it_remaining s) hs.
Proof.
  induction fuel as [|fuel IH]; intros s c Hit Hc Hok Hr Hf; [lia|]. cbn [walk].
  destruct (Hit s c Hc Hok) as (ret & s1 & -> & Hcase). cbn [obind].
  destruct (Z.ltb_spec 0 ret).
  - destruct Hcase as [|(_ & Hh & Hl & Hc1 & Hr1 & Hok1)]; [lia|].
    destruct (IH s1 (c + it_length s1)) as (hs & s' & -> & Ht); try done; try lia.
    cbn [obind]. do 2 eexists. split; [done|]. rewrite Hh. simpl. split_and!; [done|lia|].
    by replace (c + it_remaining s) with (c + it_length s1 + it_remaining s1) by lia.
  - do 2 eexists. split; [done|]. simpl. lia.
Qed.
End walk.

(** ** Properties *)

(** Walking the links of a router LSA ends, and hands out links that
    lie one behind the other inside the captured bytes. *)
Theorem ospf_link_walk_terminates s c fuel :
  it_current s = Some c → 0 ≤ it_remaining s < Z.of_nat fuel →
  ∃ hs s', walk (λ s, Ok (trace_get_next_ospf_link_v2 s)) fuel s = Ok (hs, s') ∧
    tiles c (c + it_remaining s) hs.
Proof.
  intros Hc Hf. apply (walk_ends _ (λ _ r, 0 ≤ r)); try done; try lia.
  intros s1 c1 Hc1 Hr1. unfold trace_get_next_ospf_link_v2. rewrite Hc1.
  destruct (Z.ltb_spec (it_remaining s1) 12); do 2 eexists; (split; [done|]); [left; lia|].
  right. simpl. split_and!; (done || lia).
Qed.

(** Walking the LSA headers of a Database Description or LS Ack
    packet ends without leaving the captured bytes, and hands out headers that
    lie one behind the other inside them. *)
Theorem ospf_lsa_header_walk_terminates mem s c fuel :
  it_current s = Some c → within mem c (it_remaining s) 0 → it_remaining s < Z.of_nat fuel →
  ∃ hs s', walk (trace_get_next_ospf_lsa_header_v2 mem) fuel s = Ok (hs, s') ∧
    tiles c (c + it_remaining s) hs.
Proof.
  intros Hc W Hf. apply (walk_ends _ (λ c r, within mem c r 0)); try done; [|destruct W; lia].
  intros s1 c1 Hc1 (? & ? & ?). unfold trace_get_next_ospf_lsa_header_v2. rewrite Hc1.
  destruct (Z.ltb_spec (it_remaining s1) 20); [do 2 eexists; split; [done|]; left; lia|].
  destruct (read8_ok mem (c1 + 3)) as [ty ->]; [lia|]. cbn [obind].
  destruct (negb _); do 2 eexists; (split; [done|]); [left; lia|].
  right. unfold within. simpl. split_and!; (done || lia).
Qed.

(** A complete LSA whose length field is 0: the call succeeds, and the iterator
    stays where it is. *)
Lemma next_lsa_zero_length mem s c ty :
  it_current s = Some c → sizeof_ospf_lsa_v2 ≤ it_remaining s →
  read8 mem (c + 3) = Ok ty → valid_lsa ty = true → be16 mem (c + 18) = Ok 0 →
  ∃ s', trace_get_next_ospf_lsa_v2 mem s = Ok (1, s') ∧
    it_current s' = Some c ∧ it_remaining s' = it_remaining s.
Proof.
  intros Hc Hr Hty Hv Hlen. unfold trace_get_next_ospf_lsa_v2. rewrite Hc.
  rewrite (proj2 (Z.ltb_ge _ 20)), Hty, Hlen by lia. cbn [obind]. rewrite Hv.
  rewrite (proj2 (Z.ltb_ge (it_remaining s) 0)) by lia. cbn [orb negb].
  eexists. split; [done|]. simpl. rewrite Z.add_0_r, Z.sub_0_r. done.
Qed.

Lemma walk_stalls mem c ty fuel : ∀ s,
  it_current s = Some c → sizeof_ospf_lsa_v2 ≤ it_remaining s →
  read8 mem (c + 3) = Ok ty → valid_lsa ty = true → be16 mem (c + 18) = Ok 0 →
  walk (trace_get_next_ospf_lsa_v2 mem) fuel s = Fault OutOfFuel.
Proof.
  induction fuel as [|fuel IH]; intros s Hc Hr Hty Hv Hlen; [done|]. cbn [walk].
  destruct (next_lsa_zero_length mem s c ty) as (s' & -> & Hc' & Hr'); [done..|]. cbn [obind].
  change (0 <? 1) with true. cbn iota. by rewrite IH by (done || lia).
Qed.

(** The three ways a call inside the captured bytes can go. *)
Lemma next_lsa_cases mem s c :
  bytes_ok mem → it_current s = Some c → within mem c (it_remaining s) 0 →
  (∃ ret s', trace_get_next_ospf_lsa_v2 mem s = Ok (ret, s') ∧ ret ≤ 0) ∨
  (∃ ty, sizeof_ospf_lsa_v2 ≤ it_remaining s ∧ read8 mem (c + 3) = Ok ty ∧
     valid_lsa ty = true ∧ be16 mem (c + 18) = Ok 0) ∨
  (∃ s' len, trace_get_next_ospf_lsa_v2 mem s = Ok (1, s') ∧ it_hdr s' = Some c ∧
     0 < len ≤ it_remaining s ∧ it_length s' = len ∧ it_current s' = Some (c + len) ∧
     it_remaining s' = it_remaining s - len).
Proof.
  intros Hb Hc (? & ? & ?). unfold trace_get_next_ospf_lsa_v2. rewrite Hc.
  destruct (Z.ltb_spec (it_remaining s) 20); [left; by do 2 eexists|].
  destruct (read8_ok mem (c + 3)) as [ty Hty]; [lia|].
  destruct (be16_ok mem (c + 18)) as [v Hv]; [lia..|]. pose proof (be16_range _ _ _ Hb Hv).
  rewrite Hty, Hv. cbn [obind]. destruct (Z.ltb_spec (it_remaining s) v); cbn [orb].
  { left. do 2 eexists. split; [done|]. lia. }
  destruct (valid_lsa ty) eqn:Ht; cbn [negb].
  2:{ left. do 2 eexists. split; [done|]. lia. }
  right. destruct (Z.eq_dec v 0) as [->|]; [left; by exists ty|right].
  eexists _, v. split; [done|]. simpl. split_and!; (done || lia).
Qed.

(** C28: Walking the LSAs of an LS Update over captured bytes has exactly
    two outcomes.  Either it ends after at most as many calls as there are
    bytes, having handed out LSAs that lie one behind the other inside the
    captured bytes; or one of the LSAs reached has length 0, and then the loop
    [while (trace_get_next_ospf_lsa_v2(...) > 0)] never ends. *)
Theorem ospf_lsa_walk mem : ∀ s c,
  bytes_ok mem → it_current s = Some c → within mem c (it_remaining s) 0 →
  (∃ hs s', tiles c (c + it_remaining s) hs ∧
     ∀ fuel, it_remaining s < Z.of_nat fuel →
       walk (trace_get_next_ospf_lsa_v2 mem) fuel s = Ok (hs, s')) ∨
  (∃ off ty, c ≤ off ≤ c + it_remaining s - sizeof_ospf_lsa_v2 ∧
     read8 mem (off + 3) = Ok ty ∧ valid_lsa ty = true ∧ be16 mem (off + 18) = Ok 0 ∧
     ∀ fuel, walk (trace_get_next_ospf_lsa_v2 mem) fuel s = Fault OutOfFuel).
Proof.
  intros s c Hb Hc W. remember (Z.to_nat (it_remaining s)) as n eqn:Hn. revert s c Hc W Hn.
  induction (lt_wf n) as [n _ IH]. intros s c Hc W Hn. pose proof W as (? & ? & ?).
  destruct (next_lsa_cases mem s c Hb Hc W)
    as [(ret & s1 & Hnx & Hret)|[(ty & Hl & Hty & Hv & Hz)|(s1 & len & Hnx & Hh & Hle & Hlen & Hc1 & Hr1)]].
  - left. exists [], s1. split; [simpl; lia|]. intros [|fuel] Hf; [lia|]. cbn [walk].
    rewrite Hnx. cbn [obind]. by rewrite (proj2 (Z.ltb_ge 0 ret)).
  - right. exists c, ty. split_and!; try done; [lia..|]. intros fuel. by apply (walk_stalls mem c ty).
  - destruct (IH (Z.to_nat (it_remaining s1)) ltac:(subst n; lia) s1 (c + len)) as [(hs & s' & Ht & Hw)|Hst];
      [done|unfold within; lia|done|left|right].
    + exists ((c, len) :: hs), s'. split.
      * simpl. split_and!; [done|lia|]. by replace (c + it_remaining s) with (c + len + it_remaining s1) by lia.
      * intros [|fuel] Hf; [lia|]. cbn [walk]. rewrite Hnx. cbn [obind].
        change (0 <? 1) with true. cbn iota. rewrite Hw by lia. cbn [obind]. by rewrite Hh, Hlen.
    + destruct Hst as (off & ty & Hoff & Hty & Hv & Hz & Hw). exists off, ty.
      split_and!; try done; [lia..|]. intros [|fuel]; [done|]. cbn [walk]. rewrite Hnx. cbn [obind].
      change (0 <? 1) with true. cbn iota. by rewrite Hw.
Qed.

(** After the last LSA of a packet the call should return 0
    ("0 if there are no more LSAs to come"); it returns 1, because it compares
    the pointer [remaining] with 0 instead of the number of bytes. *)
Theorem ospf_last_lsa_returns_one mem s c ty :
  it_current s = Some c → sizeof_ospf_lsa_v2 ≤ it_remaining s →
  read8 mem (c + 3) = Ok ty → valid_lsa ty = true → be16 mem (c + 18) = Ok (it_remaining s) →
  ∃ s', trace_get_next_ospf_lsa_v2 mem s = Ok (1, s') ∧ it_remaining s' = 0 ∧ it_hdr s' = Some c.
Proof.
  intros Hc Hr Hty Hv Hlen. unfold trace_get_next_ospf_lsa_v2. rewrite Hc.
  rewrite (proj2 (Z.ltb_ge _ 20)), Hty, Hlen by lia. cbn [obind]. rewrite Hv, Z.ltb_irrefl.
  eexists. split; [done|]. simpl. rewrite Z.sub_diag. done.
Qed.

(** ** Instances *)

(** A network LSA of the given length: its header, and a body of zeros. *)
Definition lsa_bytes (len : Z) : list Z :=
  [0; 0; 0; 2] ++ replicate 14 0 ++ [len `div` 256; len `mod` 256] ++ replicate (Z.to_nat (len - 20)) 0.

Definition iter_at (c r : Z) : lsa_iter :=
  {| it_current := Some c; it_remaining := r; it_hdr := None; it_body := None;
     it_type := 0; it_length := 0 |}.

Lemma ospf_link_walk_terminates_witness :
  ∃ hs s', walk (λ s, Ok (trace_get_next_ospf_link_v2 s)) 40 (iter_at 4 30) = Ok (hs, s') ∧
    tiles 4 (4 + 30) hs.
Proof. apply (ospf_link_walk_terminates (iter_at 4 30) 4 40); [done|simpl; lia]. Defined.

Lemma ospf_lsa_header_walk_terminates_witness :
  ∃ hs s', walk (trace_get_next_ospf_lsa_header_v2 (lsa_bytes 20 ++ lsa_bytes 20)) 41 (iter_at 0 40)
      = Ok (hs, s') ∧ tiles 0 (0 + 40) hs.
Proof.
  apply (ospf_lsa_header_walk_terminates (lsa_bytes 20 ++ lsa_bytes 20) (iter_at 0 40) 0 41);
    unfold within; vm_compute; done.
Defined.

(** An LSA of 32 bytes and one of length 0. *)
Lemma ospf_lsa_walk_witness :
  walk (trace_get_next_ospf_lsa_v2 (lsa_bytes 32 ++ lsa_bytes 0)) 500 (iter_at 0 52)
    = Fault OutOfFuel.
Proof.
  destruct (ospf_lsa_walk (lsa_bytes 32 ++ lsa_bytes 0) (iter_at 0 52) 0)
    as [(hs & s' & _ & Hw)|(_ & _ & _ & _ & _ & _ & Hw)].
  - apply (bool_decide_unpack _). vm_compute. done.
  - done.
  - unfold within. vm_compute. done.
  - specialize (Hw 53%nat ltac:(simpl; lia)). vm_compute in Hw. done.
  - apply Hw.
Defined.

Lemma ospf_last_lsa_returns_one_witness :
  ∃ s', trace_get_next_ospf_lsa_v2 (lsa_bytes 32) (iter_at 0 32) = Ok (1, s') ∧
    it_remaining s' = 0 ∧ it_hdr s' = Some 0.
Proof. by apply (ospf_last_lsa_returns_one (lsa_bytes 32) (iter_at 0 32) 0 2). Defined.
