(* ===== verification/HashPacket.v ===== *)
(** * Hashing packets: toeplitz_hash_packet of lib/hash_toeplitz.c

    The hash of a packet's addresses and ports, by which packets are given to
    the threads of a parallel trace. *)

From S2P Require Import Prelude Byteswap Toeplitz Packet Layer2 Layer3 Transport.
Local Open Scope Z_scope.
Local Open Scope outcome_scope.

Section packet.
Variable fmt : libtrace_format_t.

(** [res], [offset], [accept_tcp] and [accept_udp] after the switch on the
    ethertype; [None] for [return 0]. *)
Definition hash_addresses (cnf : toeplitz_conf) (mem : list Z) (layer3 eth_type remaining : Z)
  : outcome (option (Z * Z * bool * bool)) :=
  if eth_type =? TRACE_ETHERTYPE_IP then
    if (hash_ipv4 cnf || hash_tcp_ipv4 cnf || x_hash_udp_ipv4 cnf) && (sizeof_ip <=? remaining)
    then let! res := toeplitz_first_hash cnf mem (layer3 + 12) 8 in
         Ok (Some (res, 8, hash_tcp_ipv4 cnf, x_hash_udp_ipv4 cnf))
    else Ok (Some (0, 0, false, false))
  else if eth_type =? TRACE_ETHERTYPE_IPV6 then
    if (hash_ipv6 cnf || hash_tcp_ipv6 cnf || x_hash_udp_ipv6 cnf) && (sizeof_ip6 <=? remaining)
    then let! res := toeplitz_first_hash cnf mem (layer3 + 8) 32 in
         Ok (Some (res, 32, hash_tcp_ipv6 cnf, x_hash_udp_ipv6 cnf))
    else Ok (Some (0, 0, false, false))
  else Ok None.

Definition toeplitz_hash_packet (p : libtrace_packet_t) (cnf : toeplitz_conf) (e1 pr e2 : Z)
  : outcome (libtrace_packet_t * Z) :=
  let! ' (p, (layer3, eth_type, remaining)) := trace_get_layer3 fmt p e1 in
  let! addresses :=
    match layer3 with
    | Some l3 => hash_addresses cnf (pk_mem p) l3 eth_type remaining
    | None => Ok (Some (0, 0, false, false))
    end in
  match addresses with
  | None => Ok (p, 0)
  | Some (res, offset, accept_tcp, accept_udp) =>
      let! ' (p, (transport, proto, remaining)) := trace_get_transport fmt p pr e2 in
      match transport with
      | None => Ok (p, res)
      | Some t =>
          if (proto =? TRACE_IPPROTO_UDP) && accept_udp && (4 <=? remaining)
             || (proto =? TRACE_IPPROTO_TCP) && accept_tcp && (4 <=? remaining)
          then let! res := toeplitz_hash cnf (pk_mem p) t offset 4 res in Ok (p, res)
          else Ok (p, res)
      end
  end.

(** ** Flows

    The packet carries an IPv4 header with the given addresses and a complete
    pair of ports behind it. *)
Definition ipv4_flow (p : libtrace_packet_t) (e1 pr e2 proto : Z) (src dst sport dport : list Z)
  : Prop :=
  ∃ p1 r p2 rem pre post pre2 post2,
    trace_get_layer3 fmt p e1 = Ok (p1, (Some (Zlen pre - 12), TRACE_ETHERTYPE_IP, r)) ∧
    sizeof_ip ≤ r ∧ pk_mem p1 = pre ++ (src ++ dst) ++ post ∧
    trace_get_transport fmt p1 pr e2 = Ok (p2, (Some (Zlen pre2), proto, rem)) ∧
    4 ≤ rem ∧ pk_mem p2 = pre2 ++ (sport ++ dport) ++ post2 ∧
    length src = 4%nat ∧ length dst = 4%nat ∧ length sport = 2%nat ∧ length dport = 2%nat.

(** The options that concern IPv4, and all that are supported. *)
Definition ipv4_options (cnf : toeplitz_conf) : bool := hash_ipv4 cnf || hash_tcp_ipv4 cnf || x_hash_udp_ipv4 cnf.
Definition any_option (cnf : toeplitz_conf) : bool :=
  ipv4_options cnf || hash_ipv6 cnf || hash_tcp_ipv6 cnf || x_hash_udp_ipv6 cnf.

(** Whether the ports are hashed too. *)
Definition ports_hashed (cnf : toeplitz_conf) (proto : Z) : bool :=
  (proto =? TRACE_IPPROTO_UDP) && x_hash_udp_ipv4 cnf || (proto =? TRACE_IPPROTO_TCP) && hash_tcp_ipv4 cnf.

(** Generating a key leaves the options as they are. *)
Lemma init_config_options rnd conf b c : toeplitz_init_config rnd conf b = Ok c → any_option c = any_option conf.
Proof.
  unfold toeplitz_init_config, toeplitz_hash_expand_key. intros E. obind_inv E. by injection E as <-.
Qed.

(** The hash of such a packet, from its fields. *)
Lemma hash_ipv4_flow p cnf e1 pr e2 proto src dst sport dport r1 r2 :
  ipv4_flow p e1 pr e2 proto src dst sport dport →
  (∀ pre post, toeplitz_hash cnf (pre ++ (src ++ dst) ++ post) (Zlen pre) 0 8 0 = Ok r1) →
  (∀ pre post, toeplitz_hash cnf (pre ++ (sport ++ dport) ++ post) (Zlen pre) 8 4 r1 = Ok r2) →
  ∃ p', toeplitz_hash_packet p cnf e1 pr e2
    = Ok (p', if ipv4_options cnf then if ports_hashed cnf proto then r2 else r1 else 0).
Proof.
  intros (p1 & r & p2 & rem & pre & post & pre2 & post2 & H3 & Hr & Hm1 & H4 & Hrem & Hm2 & _) Hr1 Hr2.
  unfold toeplitz_hash_packet. rewrite H3. cbn [obind]. unfold hash_addresses, toeplitz_first_hash, ipv4_options.
  rewrite Z.eqb_refl, (proj2 (Z.leb_le 20 r)), Hm1 by lia. rewrite andb_true_r.
  destruct (hash_ipv4 cnf || hash_tcp_ipv4 cnf || x_hash_udp_ipv4 cnf).
  - replace (Zlen pre - 12 + 12) with (Zlen pre) by lia. rewrite Hr1. cbn [obind].
    rewrite H4. cbn [obind]. rewrite Hm2, Hr2, (proj2 (Z.leb_le 4 rem)), !andb_true_r by lia.
    fold (ports_hashed cnf proto). destruct (ports_hashed cnf proto); by eexists.
  - cbn [obind]. rewrite H4. cbn [obind]. rewrite !andb_false_r. by eexists.
Qed.

(** Without options every packet that can be hashed has the hash 0. *)
Lemma hash_without_options p cnf e1 pr e2 p' h :
  any_option cnf = false → toeplitz_hash_packet p cnf e1 pr e2 = Ok (p', h) → h = 0.
Proof.
  unfold any_option, ipv4_options. rewrite !orb_false_iff. intros (((((F1 & F2) & F3) & F4) & F5) & F6) H.
  unfold toeplitz_hash_packet in H. obind_inv H. destruct a as [p1 [[l3 et] rem]]. obind_inv H.
  assert (a = None ∨ a = Some (0, 0, false, false)) as [-> | ->].
  { destruct l3 as [l3|]; [|injection Hstep0 as <-; by right]. unfold hash_addresses in Hstep0.
    rewrite F1, F2, F3, F4, F5, F6 in Hstep0. cbn [orb andb] in Hstep0. repeat case_match; simplify_eq; auto. }
  - congruence.
  - obind_inv H. destruct a as [p2 [[t proto] rem2]]. rewrite !andb_false_r in H. cbn [orb andb] in H.
    destruct t; congruence.
Qed.

(** C24: With a key for bidirectional hashing, both directions of a connection over
    IPv4 get the same hash, whatever the options and the protocol and wherever the
    headers lie in the two packets (VLAN tags on one side only, options, different
    payloads), so that both are given to the same thread: the IPv4 header and the
    first four bytes of the transport header must have been captured in both.  In a
    configuration without options, as [trace_set_hasher] makes it, the hash of every
    packet is 0, so that all packets are given to one thread. *)
Theorem hash_packet_symmetric rnd conf cnf p q e1 pr e2 proto src dst sport dport :
  toeplitz_init_config rnd conf true = Ok cnf →
  ipv4_flow p e1 pr e2 proto src dst sport dport →
  ipv4_flow q e1 pr e2 proto dst src dport sport →
  (∃ p' q' h, toeplitz_hash_packet p cnf e1 pr e2 = Ok (p', h) ∧ toeplitz_hash_packet q cnf e1 pr e2 = Ok (q', h)) ∧
  (any_option conf = false → ∀ x x' h, toeplitz_hash_packet x cnf e1 pr e2 = Ok (x', h) → h = 0).
Proof.
  intros Hc Hp Hq. split.
  2:{ intros Ho x x' h. apply hash_without_options. by rewrite (init_config_options _ _ _ _ Hc). }
  pose proof Hp as (? & ? & ? & ? & ? & ? & ? & ? & _ & _ & _ & _ & _ & _ & Hs & Hd & Hsp & Hdp).
  assert (length (key_cache cnf) = 320%nat) as Hcache by apply (bikey_cache_periodic _ _ _ Hc).
  pose proof (λ pre post, toeplitz_hash_spec cnf pre (src ++ dst) post 0 0) as A.
  set (r1 := Z.lxor 0 (xor_bytes (key_cache cnf) (src ++ dst) (0 * 8))) in *.
  pose proof (λ pre post, toeplitz_hash_spec cnf pre (sport ++ dport) post 8 r1) as B.
  set (r2 := Z.lxor r1 (xor_bytes (key_cache cnf) (sport ++ dport) (8 * 8))) in *.
  assert (Zlen (src ++ dst) = 8 ∧ Zlen (dst ++ src) = 8 ∧ Zlen (sport ++ dport) = 4 ∧
    Zlen (dport ++ sport) = 4) as (Z1 & Z2 & Z3 & Z4) by (unfold Zlen; rewrite !length_app; lia).
  assert (∀ pre post, toeplitz_hash cnf (pre ++ (src ++ dst) ++ post) (Zlen pre) 0 8 0 = Ok r1) as A1
    by (intros; rewrite <- Z1; apply A; rewrite length_app; lia).
  assert (∀ pre post, toeplitz_hash cnf (pre ++ (sport ++ dport) ++ post) (Zlen pre) 8 4 r1 = Ok r2) as B1
    by (intros; rewrite <- Z3; apply B; rewrite length_app; lia).
  destruct (hash_ipv4_flow p cnf e1 pr e2 proto src dst sport dport r1 r2) as [p' Hp']; [assumption..|].
  destruct (hash_ipv4_flow q cnf e1 pr e2 proto dst src dport sport r1 r2) as [q' Hq']; [assumption| | |].
  - intros pre post.
    pose proof (bikey_hash_swap rnd conf cnf src dst [] pre [] post 0 0 Hc) as Hsw.
    change (Z.of_nat 0) with 0 in Hsw. rewrite Z1, Z2, (A1 [] []) in Hsw. symmetry. apply Hsw; [lia|by rewrite Hs|lia].
  - intros pre post.
    pose proof (bikey_hash_swap rnd conf cnf sport dport [] pre [] post 8 r1 Hc) as Hsw.
    change (Z.of_nat 8) with 8 in Hsw. rewrite Z3, Z4, (B1 [] []) in Hsw. symmetry. apply Hsw; [lia|by rewrite Hsp|lia].
  - do 3 eexists. split; eassumption.
Qed.
End packet.

(** *** Both directions of a TCP connection *)
Definition forward_packet : libtrace_format_t * libtrace_packet_t :=
  eth_packet (ether_bytes 0x0800 ++ ipv4_bytes 48 0 6 ++ tcp_bytes).

Definition backward_bytes : list Z :=
  ether_bytes 0x0800 ++
  [0x45; 0; 0; 40; 0; 1; 0; 0; 64; 6; 0; 0; 192; 168; 0; 199; 192; 168; 0; 1] ++
  [0; 80; 0x1F; 0x90; 0; 0; 0; 1; 0; 0; 0; 0; 0x50; 16; 0; 0; 0; 0; 0; 0].

Definition backward_packet : libtrace_packet_t := fresh_packet (backward_bytes ++ replicate 24 0).

Lemma hash_packet_symmetric_witness :
  ∃ cnf p' q' h, toeplitz_init_config (λ _, 0x6D5A) rss_conf true = Ok cnf ∧
    toeplitz_hash_packet forward_packet.1 forward_packet.2 cnf 0 0 0 = Ok (p', h) ∧
    toeplitz_hash_packet forward_packet.1 backward_packet cnf 0 0 0 = Ok (q', h).
Proof.
  destruct (toeplitz_init_config (λ _, 0x6D5A) rss_conf true) as [cnf|] eqn:E.
  2:{ exfalso. apply (f_equal is_ok) in E. vm_compute in E. discriminate E. }
  destruct (hash_packet_symmetric forward_packet.1 (λ _, 0x6D5A) rss_conf cnf
    forward_packet.2 backward_packet 0 0 0 6 [192; 168; 0; 1] [192; 168; 0; 199]
    [0x1F; 0x90] [0; 80]) as ((p' & q' & h & H1 & H2) & _); [assumption|..].
  - set (p1 := after forward_packet.2 (trace_get_layer3 forward_packet.1 forward_packet.2 0)).
    exists p1, 48, (after p1 (trace_get_transport forward_packet.1 p1 0 0)), 28,
      (take 26 (pk_mem p1)), (drop 34 (pk_mem p1)), (take 34 (pk_mem p1)), (drop 38 (pk_mem p1)).
    split_and!; vm_compute; done.
  - set (p1 := after backward_packet (trace_get_layer3 forward_packet.1 backward_packet 0)).
    exists p1, 48, (after p1 (trace_get_transport forward_packet.1 p1 0 0)), 28,
      (take 26 (pk_mem p1)), (drop 34 (pk_mem p1)), (take 34 (pk_mem p1)), (drop 38 (pk_mem p1)).
    split_and!; vm_compute; done.
  - exists cnf, p', q', h. split_and!; [reflexivity|assumption..].
Defined.
