(* ===== verification/Strip.v ===== *)
(** * Stripping: trace_strip_packet of lib/protocols_l2.c

    Removing VLAN tags, MPLS labels and PPPoE headers between the Ethernet
    header and the network layer: the Ethernet header is moved up to the
    network layer and gets its ethertype. *)

From S2P Require Import Prelude Byteswap Packet PktMeta Layer2 Layer3.
Local Open Scope Z_scope.
Local Open Scope outcome_scope.

(** ** Writing to memory *)
Fixpoint write_bytes (mem : list Z) (off : Z) (l : list Z) : outcome (list Z) :=
  match l with
  | [] => Ok mem
  | b :: l' =>
      let! mem' := aset mem off b in
      write_bytes mem' (off + 1) l'
  end.

(** A [uint16_t] in host order. *)
Definition write16 (mem : list Z) (off v : Z) : outcome (list Z) :=
  write_bytes mem off [v `mod` 256; v `div` 256].

(** [memmove]: the bytes are read before any is written. *)
Definition memmove (mem : list Z) (dest src n : Z) : outcome (list Z) :=
  let! l := read_bytes mem src (Z.to_nat n) in
  write_bytes mem dest l.

(** ** The function *)

(** [while (!done)]: the next payload, [finalethertype] and [removed]. *)
Fixpoint strip_loop (fuel : nat) (mem : list Z) (nextpayload : option Z)
    (ethertype remaining finalethertype removed : Z) : outcome (option Z * Z * Z) :=
  match fuel with
  | O => Fault OutOfFuel
  | S fuel' =>
      match nextpayload with
      | None => Ok (None, finalethertype, removed)
      | Some np =>
          let oldrem := remaining in
          let go (c : outcome decoded) :=
            let! ' (np', e, r) := c in
            strip_loop fuel' mem np' (default 0 e) (default 0 r) finalethertype
              (u16 (removed + (oldrem - default 0 r))) in
          if remaining =? 0 then Ok (Some np, finalethertype, removed)
          else if ethertype =? TRACE_ETHERTYPE_8021Q then
            go (trace_get_payload_from_vlan mem np (Some ethertype) (Some remaining))
          else if ethertype =? TRACE_ETHERTYPE_MPLS then
            go (trace_get_payload_from_mpls mem np (Some ethertype) (Some remaining))
          else if ethertype =? TRACE_ETHERTYPE_PPP_SES then
            go (trace_get_payload_from_pppoe mem np (Some ethertype) (Some remaining))
          else Ok (Some np, (if finalethertype =? 0 then ethertype else finalethertype), removed)
      end
  end.

Definition strip_fuel (remaining : Z) : nat := (Z.to_nat remaining + 2)%nat.

Section packet.
Variable fmt : libtrace_format_t.

(** [packet->payload], and [packet->l2_header = NULL]. *)
Definition pk_move (p : libtrace_packet_t) (mem : list Z) (payload : Z) : libtrace_packet_t :=
  pk_set_l2 (pk_set_mem p mem payload) None (pk_l2_remaining p).

(** The first test compares the ethertype in network order. *)
Definition trace_strip_packet (p : libtrace_packet_t) : outcome libtrace_packet_t :=
  let! ' (p, (l2, linktype, remaining)) := trace_get_layer2 fmt p in
  if negb (bool_decide (linktype = TRACE_TYPE_ETH)) then Ok p
  else
    match l2 with
    | None => Fault NullDeref
    | Some ethernet =>
        let! ether_type := read16 (pk_mem p) (ethernet + 12) in
        if (ether_type =? TRACE_ETHERTYPE_IP) || (ether_type =? TRACE_ETHERTYPE_IPV6) then Ok p
        else if remaining <=? sizeof_ether then Ok p
        else
          let! ' (p, cap) := trace_get_capture_length fmt p in
          let caplen := u16 cap in
          let dest := ethernet + sizeof_ether in
          let remaining := remaining - sizeof_ether in
          let! ' (nextpayload, finalethertype, removed) :=
            strip_loop (strip_fuel remaining) (pk_mem p) (Some dest) (ntohs ether_type) remaining 0 0 in
          match nextpayload with
          | None => Ok p
          | Some np =>
              let! mem := write16 (pk_mem p) (ethernet + 12) (ntohs finalethertype) in
              let p := pk_set_mem p mem (pk_payload p) in
              let '(p, _) := trace_set_capture_length fmt p (u64 (caplen - removed)) in
              let n := dest - pk_payload p in
              let! mem := memmove (pk_mem p) (np - n) (pk_payload p) n in
              Ok (pk_move p mem (np - n))
          end
    end.
End packet.

(** ** Memory lemmas *)
Lemma write_bytes_lookup l : ∀ mem off,
  0 ≤ off → off + Zlen l ≤ Zlen mem →
  ∃ mem', write_bytes mem off l = Ok mem' ∧ length mem' = length mem ∧
    ∀ i, mem' !! i =
      if decide (Z.to_nat off ≤ i < Z.to_nat off + length l)%nat
      then l !! (i - Z.to_nat off)%nat else mem !! i.
Proof.
  induction l as [|b l IH]; intros mem off Ho Hl; cbn [write_bytes].
  - exists mem. split_and!; try done. intros i. rewrite decide_False; [done|simpl; lia].
  - rewrite Zlen_cons in Hl. pose proof (Zlen_nonneg l).
    rewrite aset_ok by lia. cbn [obind].
    destruct (IH (<[Z.to_nat off := b]> mem) (off + 1)) as (mem' & -> & Hlen & Hlk);
      [lia|rewrite Zlen_insert; lia|].
    exists mem'. split; [done|]. split; [by rewrite Hlen, length_insert|]. intros i. rewrite Hlk.
    replace (Z.to_nat (off + 1)) with (S (Z.to_nat off)) by lia. cbn [length].
    destruct (decide (i = Z.to_nat off)) as [->|Hi].
    + rewrite decide_False, decide_True by lia. rewrite Nat.sub_diag.
      rewrite list_lookup_insert_eq; [done|]. unfold Zlen in Hl. lia.
    + destruct (decide (S (Z.to_nat off) ≤ i < S (Z.to_nat off) + length l)%nat).
      * rewrite decide_True by lia. by replace (i - Z.to_nat off)%nat with (S (i - S (Z.to_nat off))) by lia.
      * rewrite decide_False by lia. by rewrite list_lookup_insert_ne.
Qed.

Lemma read_bytes_lookup n : ∀ mem off,
  0 ≤ off → off + Z.of_nat n ≤ Zlen mem →
  ∃ l, read_bytes mem off n = Ok l ∧ length l = n ∧
    ∀ i, (i < n)%nat → l !! i = mem !! (Z.to_nat off + i)%nat.
Proof.
  induction n as [|n IH]; intros mem off Ho Hn; cbn [read_bytes].
  - exists []. split_and!; try done. lia.
  - destruct (aget_total mem off) as (b & Hb & ->); [lia|]. cbn [obind].
    destruct (IH mem (off + 1)) as (l & -> & Hl & Hlk); [lia..|]. cbn [obind].
    exists (b :: l). split; [done|]. split; [simpl; lia|]. intros [|i] Hi.
    + by rewrite Nat.add_0_r.
    + simpl. rewrite Hlk by lia. f_equal. lia.
Qed.

(** Moving [n] bytes up by [d]. *)
Lemma memmove_lookup mem dest src n :
  0 ≤ src → 0 ≤ dest → 0 ≤ n → src + n ≤ Zlen mem → dest + n ≤ Zlen mem →
  ∃ mem', memmove mem dest src n = Ok mem' ∧ length mem' = length mem ∧
    ∀ i, mem' !! i =
      if decide (Z.to_nat dest ≤ i < Z.to_nat dest + Z.to_nat n)%nat
      then mem !! (Z.to_nat src + (i - Z.to_nat dest))%nat else mem !! i.
Proof.
  intros. unfold memmove.
  destruct (read_bytes_lookup (Z.to_nat n) mem src) as (l & -> & Hl & Hlk); [lia..|]. cbn [obind].
  destruct (write_bytes_lookup l mem dest) as (mem' & -> & Hlen & Hw); [lia|unfold Zlen in *; lia|].
  exists mem'. split_and!; try done. intros i. rewrite Hw, Hl.
  destruct (decide _); [|done]. apply Hlk. lia.
Qed.

(** ** The loop agrees with the layer 3 search

    Where [trace_get_layer3] ends up is where the stripped packet will start;
    [finalethertype] is the ethertype found there, or 0 if nothing was captured
    behind the headers. *)
Lemma strip_loop_spec fuel : ∀ mem np e r removed ptr e' r',
  l3_loop fuel mem (Some np) e r = Ok (ptr, e', r') → within mem np r 3 → r < 65536 →
  ∃ f rm, strip_loop fuel mem (Some np) e r 0 (u16 removed) = Ok (ptr, f, rm) ∧
    match ptr with
    | Some np' => f = (if r' =? 0 then 0 else e') ∧ rm = u16 (removed + (np' - np))
    | None => True
    end.
Proof.
  induction fuel as [|fuel IH]; intros mem np e r removed ptr e' r' H W Hlt; [done|].
  assert (∀ c n, 0 ≤ n → good_advance n np r c →
    (let! ' (ip', e1, r1) := c in l3_loop fuel mem ip' (default 0 e1) (default 0 r1))
      = Ok (ptr, e', r') →
    ∃ f rm, (let! ' (np', e1, r1) := c in
        strip_loop fuel mem np' (default 0 e1) (default 0 r1) 0
          (u16 (u16 removed + (r - default 0 r1)))) = Ok (ptr, f, rm) ∧
      match ptr with
      | Some np' => f = (if r' =? 0 then 0 else e') ∧ rm = u16 (removed + (np' - np))
      | None => True
      end) as Hnext.
  { intros c n Hn (ip' & t & r1 & -> & Hp) Hrun. cbn [obind] in *.
    change (default 0 (Some t)) with t in *. change (default 0 (Some r1)) with r1 in *.
    destruct ip' as [ip'|].
    - destruct W as (? & ? & ?).
      destruct (IH mem ip' t r1 (removed + (r - r1)) ptr e' r' Hrun) as (f & rm & Hs & Hf);
        [unfold within; lia|lia|].
      unfold u16 in *. rewrite Zplus_mod_idemp_l. exists f, rm. split; [exact Hs|].
      destruct ptr as [np'|]; [|done]. destruct Hf as [-> ->]. split; [done|].
      f_equal. lia.
    - destruct fuel; [done|]. cbn [l3_loop] in Hrun. injection Hrun as <- <- <-.
      by do 2 eexists. }
  cbn [l3_loop strip_loop] in *.
  destruct (Z.eqb_spec r 0) as [->|Hr0].
  { injection H as <- <- <-. do 2 eexists. split; [done|]. simpl. split; [done|]. f_equal. lia. }
  destruct (e =? TRACE_ETHERTYPE_8021Q).
  { apply (Hnext _ 4); [done|by apply (vlan_good _ _ _ _ 3)|done]. }
  destruct (e =? TRACE_ETHERTYPE_MPLS).
  { apply (Hnext _ 4); [done|by apply (mpls_good _ _ _ _ 3)|]. rewrite <- H.
    by destruct (trace_get_payload_from_mpls mem np (Some e) (Some r)) as [[[[i|] e1] r1]|]. }
  destruct (e =? TRACE_ETHERTYPE_PPP_SES).
  { apply (Hnext _ 6); [done|by apply (pppoe_good _ _ _ _ 3)|done]. }
  injection H as <- <- <-. do 2 eexists. split; [done|]. simpl.
  rewrite (proj2 (Z.eqb_neq r 0)) by done. split; [done|]. f_equal. lia.
Qed.

(** A [uint16_t] written in network order is read back. *)
Lemma write16_lookup mem off v :
  0 ≤ off → off + 2 ≤ Zlen mem → 0 ≤ v < 2 ^ 16 →
  ∃ mem', write16 mem off (ntohs v) = Ok mem' ∧ length mem' = length mem ∧
    mem' !! Z.to_nat off = Some (v `div` 256) ∧ mem' !! S (Z.to_nat off) = Some (v `mod` 256) ∧
    ∀ i, (i < Z.to_nat off ∨ Z.to_nat off + 2 ≤ i)%nat → mem' !! i = mem !! i.
Proof.
  intros Ho Hl Hv. unfold write16.
  destruct (write_bytes_lookup [ntohs v `mod` 256; ntohs v `div` 256] mem off) as (mem' & -> & Hlen & Hw);
    [done|done|]. destruct (ntohs_bytes v Hv) as [Hd Hm]. exists mem'. split_and!; try done.
  - rewrite Hw, decide_True, Nat.sub_diag by (simpl; lia). simpl. by rewrite Hm.
  - rewrite Hw, decide_True by (simpl; lia). replace (S _ - _)%nat with 1%nat by lia.
    simpl. by rewrite Hd.
  - intros i Hi. rewrite Hw, decide_False; [done|simpl; lia].
Qed.

(** ** Correctness *)
Section strip.
Context (fmt : libtrace_format_t) (p p1 p2 : libtrace_packet_t) (eth rem cap raw : Z).

(** A packet that starts with an Ethernet header, of which more than that header
    has been captured. *)
Hypothesis L2 : trace_get_layer2 fmt p = Ok (p1, (Some eth, TRACE_TYPE_ETH, rem)).
Hypothesis Raw : read16 (pk_mem p1) (eth + 12) = Ok raw.
Hypothesis NotIp : raw ≠ TRACE_ETHERTYPE_IP ∧ raw ≠ TRACE_ETHERTYPE_IPV6.
Hypothesis Rem : sizeof_ether < rem ≤ cap.
Hypothesis Cap : trace_get_capture_length fmt p1 = Ok (p2, cap) ∧ cap < 65536.
Hypothesis Start : pk_payload p2 = eth ∧ pk_mem p2 = pk_mem p1.
Hypothesis W : within (pk_mem p1) eth rem 3.

(** C25: For a packet that starts with an Ethernet header, behind which at least one
    byte was captured, and whose ethertype is not one that the early return takes
    for IP (0x0008 or 0xdd86, as the bytes are not swapped): stripping moves the
    packet's start to fourteen bytes before the
    position [np] at which the layer 3 search of [trace_get_layer3] ends: the
    two MAC addresses are there, followed by the ethertype found (or 0 if no
    byte was captured behind the last header), and from [np] on nothing has
    changed.  A format that can set the capture length is asked, once, for the old
    length less what lay in between, and the packet has the length it answers; the
    packet of a format that cannot keeps its capture length, although it now starts
    that much later. *)
Theorem strip_packet_correct np e r :
  l3_loop (strip_fuel (rem - 14)) (pk_mem p1) (Some (eth + 14)) (ntohs raw) (rem - 14)
    = Ok (Some np, e, r) →
  eth + 14 ≤ np ≤ eth + rem → 0 ≤ e < 2 ^ 16 →
  ∃ p', trace_strip_packet fmt p = Ok p' ∧ pk_payload p' = np - 14 ∧
    length (pk_mem p') = length (pk_mem p1) ∧ pk_l2_header p' = None ∧
    (∀ i, (i < 12)%nat → pk_mem p' !! (Z.to_nat (np - 14) + i)%nat = pk_mem p1 !! (Z.to_nat eth + i)%nat) ∧
    (let final := if r =? 0 then 0 else e in
     pk_mem p' !! Z.to_nat (np - 2) = Some (final `div` 256) ∧
     pk_mem p' !! S (Z.to_nat (np - 2)) = Some (final `mod` 256)) ∧
    (∀ i, (Z.to_nat np ≤ i)%nat → pk_mem p' !! i = pk_mem p1 !! i) ∧
    let n := cap - (np - (eth + 14)) in
    match f_set_capture_length fmt with
    | Some f =>
        ∃ q, pk_header q = pk_header p2 ∧ pk_header p' = (f q n).1 ∧ pk_capture_length p' = i32 (f q n).2 ∧
          ((f q n).2 = n → pk_capture_length p' = n)
    | None => pk_header p' = pk_header p2 ∧ pk_capture_length p' = pk_capture_length p2
    end.
Proof using L2 Raw NotIp Rem Cap Start W.
  intros Hl3 Hnp He. destruct NotIp as [N1 N2], Cap as [Hcap Hlt], Start as [Hst Hmem].
  pose proof W as (? & ? & ?).
  unfold trace_strip_packet. rewrite L2. cbn [obind]. rewrite bool_decide_eq_true_2 by done.
  cbn [negb]. rewrite Raw. cbn [obind]. rewrite (proj2 (Z.eqb_neq _ _) N1), (proj2 (Z.eqb_neq _ _) N2).
  cbn [orb]. rewrite (proj2 (Z.leb_gt rem 14)), Hcap by lia. cbn [obind]. rewrite Hmem.
  destruct (strip_loop_spec _ _ _ _ _ 0 _ _ _ Hl3) as (f & rm & Hs & -> & ->);
    [unfold within; lia|lia|]. change (u16 0) with 0 in Hs. rewrite Hs. cbn [obind].
  set (final := if r =? 0 then 0 else e). assert (0 ≤ final < 2 ^ 16) as Hfin by (subst final; bool_cases; lia).
  destruct (write16_lookup (pk_mem p1) (eth + 12) final) as (m1 & -> & Hl1 & Hm0 & Hm1 & Hmo); [lia..|].
  cbn [obind]. rewrite (u16_small cap), (u16_small (0 + (np - (eth + 14)))), u64_small by lia.
  set (p3 := pk_set_mem p2 m1 (pk_payload p2)).
  set (n := cap - (0 + (np - (eth + 14)))).
  assert (∃ p4 x, trace_set_capture_length fmt p3 n = (p4, x) ∧ pk_mem p4 = m1 ∧ pk_payload p4 = eth ∧
    match f_set_capture_length fmt with
    | Some g => pk_header p4 = (g p3 n).1 ∧ pk_capture_length p4 = i32 (g p3 n).2
    | None => p4 = p3
    end) as (p4 & x & -> & Hm4 & Hp4 & Hc4).
  { unfold trace_set_capture_length. destruct (f_set_capture_length fmt) as [g|].
    - destruct (g p3 n) as [hd len] eqn:Hg. do 2 eexists. split; [done|]. by split_and!.
    - do 2 eexists. split; [done|]. by split_and!. }
  rewrite Hm4, Hp4. replace (eth + 14 - eth) with 14 by lia.
  destruct (memmove_lookup m1 (np - 14) eth 14) as (m2 & -> & Hl2 & Hlk);
    [lia..|unfold Zlen in *; lia|unfold Zlen in *; lia|].
  cbn [obind]. eexists. split; [done|]. cbn [pk_move pk_set_l2 pk_set_mem pk_payload pk_mem pk_l2_header pk_header pk_capture_length].
  split; [done|]. split; [congruence|]. split; [done|].
  replace (cap - (np - (eth + 14))) with n by (subst n; lia).
  assert (∀ i, (i < 14)%nat → m2 !! (Z.to_nat (np - 14) + i)%nat = m1 !! (Z.to_nat eth + i)%nat) as Hmv.
  { intros i Hi. rewrite Hlk, decide_True by lia. f_equal. lia. }
  split; [|split; [|split]].
  - intros i Hi. rewrite Hmv, Hmo by lia. done.
  - split.
    + rewrite <- Hm0. replace (Z.to_nat (np - 2)) with (Z.to_nat (np - 14) + 12)%nat by lia.
      rewrite Hmv by lia. f_equal. lia.
    + rewrite <- Hm1. replace (S (Z.to_nat (np - 2))) with (Z.to_nat (np - 14) + 13)%nat by lia.
      rewrite Hmv by lia. f_equal. lia.
  - intros i Hi. rewrite Hlk, decide_False, Hmo by lia. done.
  - destruct (f_set_capture_length fmt) as [g|]; [|by rewrite Hc4]. destruct Hc4 as [Hh Hc].
    exists p3. split_and!; [done|done|done|]. rewrite Hc. intros ->. apply i32_small. lia.
Qed.
End strip.

(** *** A packet with two VLAN tags *)
Definition tagged_packet : libtrace_format_t * libtrace_packet_t :=
  eth_packet (ether_bytes 0x8100 ++ [0; 5; 0x81; 0; 0; 6; 8; 0] ++ ipv4_bytes 20 0 59).

Lemma strip_packet_correct_witness :
  ∃ p', trace_strip_packet tagged_packet.1 tagged_packet.2 = Ok p' ∧ pk_payload p' = 8 ∧
    pk_mem p' !! 20%nat = Some 8 ∧ pk_mem p' !! 21%nat = Some 0 ∧ pk_capture_length p' = 34.
Proof.
  set (q := tagged_packet).
  set (p1 := after q.2 (trace_get_layer2 q.1 q.2)).
  destruct (strip_packet_correct q.1 q.2 p1 p1 0 42 42 0x0081) with (np := 22) (e := 0x0800) (r := 20)
    as (p' & H1 & H2 & _ & _ & _ & [H3 H4] & _ & H5); try (unfold within; by_eval).
  exists p'. split_and!; [done..|]. by destruct H5 as (x & _ & _ & _ & ->).
Defined.

(** *** A format that cannot set the capture length *)
Definition fixed_length_format : libtrace_format_t :=
  let f := tagged_packet.1 in
  {| f_get_capture_length := f_get_capture_length f; f_get_wire_length := f_get_wire_length f;
     f_get_framing_length := f_get_framing_length f; f_get_link_type := f_get_link_type f; f_set_capture_length := None |}.

(** The packet starts eight bytes later and keeps its capture length of 42, which now
    reaches eight bytes beyond what was captured. *)
Example strip_keeps_length :
  ∃ p', trace_strip_packet fixed_length_format tagged_packet.2 = Ok p' ∧ pk_payload p' = 8 ∧ pk_capture_length p' = 42.
Proof. eexists. vm_compute. done. Qed.

(** *** Nothing behind the tag: the ethertype is lost *)
Lemma strip_nothing_behind_tag :
  ∃ p', trace_strip_packet (sample_format TRACE_TYPE_ETH 18 18)
      (fresh_packet (ether_bytes 0x8100 ++ [0; 5; 8; 0] ++ replicate 8 0)) = Ok p' ∧
    pk_payload p' = 4 ∧ pk_mem p' !! 16%nat = Some 0 ∧ pk_mem p' !! 17%nat = Some 0.
Proof. eexists. vm_compute. done. Qed.
