(* ===== verification/Linktypes.v ===== *)
(** * Link types and ports: lib/linktypes.c and trace_get_server_port of lib/trace.c

    The conversions between libtrace's link types and those of pcap (DLTs), of
    the RT protocol, of ERF records and of Linux (ARPHRD), and the guess which
    of two ports belongs to the server. *)

From S2P Require Import Prelude Packet PktMeta.
Local Open Scope Z_scope.
Local Open Scope outcome_scope.

(** ** pcap

    [libtrace_dlt_t] as a number, with the values of systems other than OpenBSD. *)
Abbreviation TRACE_DLT_ERROR := (-1).
Abbreviation TRACE_DLT_NULL := 0.
Abbreviation TRACE_DLT_EN10MB := 1.
Abbreviation TRACE_DLT_PPP := 9.
Abbreviation TRACE_DLT_ATM_RFC1483 := 11.
Abbreviation TRACE_DLT_RAW := 12.
Abbreviation TRACE_DLT_PPP_SERIAL := 50.
Abbreviation TRACE_DLT_LINKTYPE_RAW := 101.
Abbreviation TRACE_DLT_C_HDLC := 104.
Abbreviation TRACE_DLT_IEEE802_11 := 105.
Abbreviation TRACE_DLT_OPENBSD_LOOP := 108.
Abbreviation TRACE_DLT_LINUX_SLL := 113.
Abbreviation TRACE_DLT_PFLOG := 117.
Abbreviation TRACE_DLT_IEEE802_11_RADIO := 127.

Definition pcap_linktype_to_libtrace (linktype : Z) : libtrace_linktype_t :=
  if linktype =? TRACE_DLT_RAW then TRACE_TYPE_NONE
  else if linktype =? TRACE_DLT_LINKTYPE_RAW then TRACE_TYPE_NONE
  else if linktype =? TRACE_DLT_EN10MB then TRACE_TYPE_ETH
  else if linktype =? TRACE_DLT_IEEE802_11 then TRACE_TYPE_80211
  else if linktype =? TRACE_DLT_LINUX_SLL then TRACE_TYPE_LINUX_SLL
  else if linktype =? TRACE_DLT_PFLOG then TRACE_TYPE_PFLOG
  else if linktype =? TRACE_DLT_IEEE802_11_RADIO then TRACE_TYPE_80211_RADIO
  else if linktype =? TRACE_DLT_ATM_RFC1483 then TRACE_TYPE_LLCSNAP
  else if linktype =? TRACE_DLT_PPP then TRACE_TYPE_PPP
  else if linktype =? TRACE_DLT_PPP_SERIAL then TRACE_TYPE_POS
  else if linktype =? TRACE_DLT_C_HDLC then TRACE_TYPE_HDLC_POS
  else if linktype =? TRACE_DLT_OPENBSD_LOOP then TRACE_TYPE_OPENBSD_LOOP
  else TRACE_TYPE_UNKNOWN.

Definition libtrace_to_pcap_dlt (type : libtrace_linktype_t) : Z :=
  match type with
  | TRACE_TYPE_NONE => TRACE_DLT_RAW
  | TRACE_TYPE_ETH => TRACE_DLT_EN10MB
  | TRACE_TYPE_80211 => TRACE_DLT_IEEE802_11
  | TRACE_TYPE_LINUX_SLL => TRACE_DLT_LINUX_SLL
  | TRACE_TYPE_PFLOG => TRACE_DLT_PFLOG
  | TRACE_TYPE_80211_RADIO => TRACE_DLT_IEEE802_11_RADIO
  | TRACE_TYPE_LLCSNAP => TRACE_DLT_ATM_RFC1483
  | TRACE_TYPE_PPP => TRACE_DLT_PPP
  | TRACE_TYPE_HDLC_POS => TRACE_DLT_C_HDLC
  | TRACE_TYPE_POS => TRACE_DLT_PPP_SERIAL
  | TRACE_TYPE_OPENBSD_LOOP => TRACE_DLT_OPENBSD_LOOP
  | TRACE_TYPE_ATM | TRACE_TYPE_DUCK | TRACE_TYPE_80211_PRISM | TRACE_TYPE_AAL5
  | TRACE_TYPE_METADATA | TRACE_TYPE_NONDATA | TRACE_TYPE_UNKNOWN => TRACE_DLT_ERROR
  end.

Definition pcap_dlt_to_pcap_linktype (linktype : Z) : Z :=
  if linktype =? TRACE_DLT_RAW then TRACE_DLT_LINKTYPE_RAW else linktype.

Definition libtrace_to_pcap_linktype (type : libtrace_linktype_t) : Z :=
  pcap_dlt_to_pcap_linktype (libtrace_to_pcap_dlt type).

(** ** The RT protocol *)
Abbreviation TRACE_RT_DATA_DLT := 2000.
Abbreviation TRACE_RT_DATA_DLT_END := 2999.
Abbreviation TRACE_RT_DATA_BPF := 3000.
Abbreviation TRACE_RT_DATA_BPF_END := 3999.

Definition pcap_linktype_to_rt (linktype : Z) : Z :=
  pcap_dlt_to_pcap_linktype linktype + TRACE_RT_DATA_DLT.

Definition bpf_linktype_to_rt (linktype : Z) : Z :=
  pcap_dlt_to_pcap_linktype linktype + TRACE_RT_DATA_BPF.

Definition rt_to_pcap_linktype (rt_type : Z) : outcome Z :=
  if (TRACE_RT_DATA_DLT <=? rt_type) && (rt_type <? TRACE_RT_DATA_DLT_END)
  then Ok (rt_type - TRACE_RT_DATA_DLT)
  else if (TRACE_RT_DATA_BPF <=? rt_type) && (rt_type <? TRACE_RT_DATA_BPF_END)
  then Ok (rt_type - TRACE_RT_DATA_BPF)
  else
    let! _ := oassert ((TRACE_RT_DATA_DLT <=? rt_type) && (rt_type <? TRACE_RT_DATA_BPF_END)) in
    Ok 0.

(** ** ERF and ARPHRD *)
Definition erf_type_to_libtrace (erf : Z) : libtrace_linktype_t :=
  if erf =? 1 then TRACE_TYPE_HDLC_POS
  else if erf =? 2 then TRACE_TYPE_ETH
  else if erf =? 3 then TRACE_TYPE_ATM
  else if erf =? 4 then TRACE_TYPE_AAL5
  else if erf =? 16 then TRACE_TYPE_ETH
  else if erf =? 22 then TRACE_TYPE_NONE
  else if erf =? 23 then TRACE_TYPE_NONE
  else TRACE_TYPE_UNKNOWN.

Definition libtrace_to_erf_type (linktype : libtrace_linktype_t) : Z :=
  match linktype with
  | TRACE_TYPE_HDLC_POS => 1
  | TRACE_TYPE_ETH => 2
  | TRACE_TYPE_ATM => 3
  | TRACE_TYPE_AAL5 => 4
  | TRACE_TYPE_NONE => 22
  | _ => 255
  end.

Definition libtrace_to_arphrd_type (linktype : libtrace_linktype_t) : Z :=
  match linktype with
  | TRACE_TYPE_ETH => 1
  | TRACE_TYPE_80211 => 801
  | TRACE_TYPE_80211_RADIO => 803
  | _ => ALL_ONES_32
  end.

(** ** Ports *)
Inductive server_port := USE_DEST | USE_SOURCE.

Definition ROOT_SERVER (x : Z) : bool := x <? 512.
Definition ROOT_CLIENT (x : Z) : bool := (512 <=? x) && (x <? 1024).
Definition NONROOT_SERVER (x : Z) : bool := 5000 <=? x.
Definition NONROOT_CLIENT (x : Z) : bool := (1024 <=? x) && (x <? 5000).
Definition DYNAMIC (x : Z) : bool := (49152 <? x) && (x <? 65535).

Definition trace_get_server_port (protocol source dest : Z) : server_port :=
  let smaller := if source <? dest then USE_SOURCE else USE_DEST in
  if source =? dest then USE_DEST
  else if ROOT_SERVER source && ROOT_SERVER dest then smaller
  else if ROOT_SERVER source && negb (ROOT_SERVER dest) then USE_SOURCE
  else if negb (ROOT_SERVER source) && ROOT_SERVER dest then USE_DEST
  else if NONROOT_SERVER source && NONROOT_SERVER dest then smaller
  else if NONROOT_SERVER source && negb (NONROOT_SERVER dest) then USE_SOURCE
  else if negb (NONROOT_SERVER source) && NONROOT_SERVER dest then USE_DEST
  else if ROOT_CLIENT source && ROOT_CLIENT dest then smaller
  else if ROOT_CLIENT source && negb (ROOT_CLIENT dest) then
    if NONROOT_CLIENT dest then USE_SOURCE else USE_DEST
  else if negb (ROOT_CLIENT source) && ROOT_CLIENT dest then
    if NONROOT_CLIENT source then USE_DEST else USE_SOURCE
  else if NONROOT_CLIENT source && NONROOT_CLIENT dest then smaller
  else if NONROOT_CLIENT source && negb (NONROOT_CLIENT dest) then USE_DEST
  else if negb (NONROOT_CLIENT source) && NONROOT_CLIENT dest then USE_SOURCE
  else if DYNAMIC source && DYNAMIC dest then smaller
  else if DYNAMIC source && negb (DYNAMIC dest) then USE_DEST
  else if negb (DYNAMIC source) && DYNAMIC dest then USE_SOURCE
  else smaller.

(** ** Properties *)

(** Every conversion and its inverse: a link type that has a pcap DLT,
    a pcap link type, an ERF type or an ARPHRD type comes back from it
    unchanged; and the pcap link type of an RT data type, pcap or BPF, is the
    one that was put in, with raw IP in its file form. *)
Theorem linktype_roundtrips (t : libtrace_linktype_t) (dlt : Z) :
  (libtrace_to_pcap_dlt t ≠ TRACE_DLT_ERROR →
     pcap_linktype_to_libtrace (libtrace_to_pcap_dlt t) = t ∧
     pcap_linktype_to_libtrace (libtrace_to_pcap_linktype t) = t) ∧
  (libtrace_to_erf_type t ≠ 255 → erf_type_to_libtrace (libtrace_to_erf_type t) = t) ∧
  (libtrace_to_arphrd_type t ≠ ALL_ONES_32 →
     arphrd_type_to_libtrace (libtrace_to_arphrd_type t) = t) ∧
  (0 ≤ dlt < 999 →
     rt_to_pcap_linktype (pcap_linktype_to_rt dlt) = Ok (pcap_dlt_to_pcap_linktype dlt) ∧
     rt_to_pcap_linktype (bpf_linktype_to_rt dlt) = Ok (pcap_dlt_to_pcap_linktype dlt) ∧
     pcap_linktype_to_libtrace (pcap_dlt_to_pcap_linktype dlt) = pcap_linktype_to_libtrace dlt).
Proof.
  split; [by destruct t|]. split; [by destruct t|]. split; [by destruct t|].
  intros Hd. unfold pcap_linktype_to_rt, bpf_linktype_to_rt.
  assert (0 ≤ pcap_dlt_to_pcap_linktype dlt < 999) as Hl
    by (unfold pcap_dlt_to_pcap_linktype; bool_cases; lia).
  assert (pcap_linktype_to_libtrace (pcap_dlt_to_pcap_linktype dlt) = pcap_linktype_to_libtrace dlt)
    as Hraw by (unfold pcap_dlt_to_pcap_linktype; destruct (Z.eqb_spec dlt 12) as [->|]; done).
  set (l := pcap_dlt_to_pcap_linktype dlt) in *. unfold rt_to_pcap_linktype.
  split_and!; [| |done].
  - rewrite (proj2 (Z.leb_le _ _)), (proj2 (Z.ltb_lt _ _)) by lia. cbn [andb]. f_equal. lia.
  - rewrite (proj2 (Z.leb_le 2000 _)), (proj2 (Z.ltb_ge _ 2999)), (proj2 (Z.leb_le 3000 _)),
      (proj2 (Z.ltb_lt _ 3999)) by lia. cbn [andb]. f_equal. lia.
Qed.

Lemma linktype_roundtrips_witness :
  pcap_linktype_to_libtrace (libtrace_to_pcap_linktype TRACE_TYPE_NONE) = TRACE_TYPE_NONE ∧
  rt_to_pcap_linktype (pcap_linktype_to_rt 12) = Ok 101.
Proof.
  destruct (linktype_roundtrips TRACE_TYPE_NONE 12) as (H1 & _ & _ & H2).
  split; [by apply H1|apply H2; lia].
Defined.

(** The reference: servers below 512, then servers from 5000 on, then clients
    below 1024, then the rest. *)
Definition port_rank (x : Z) : Z :=
  if x <? 512 then 0 else if 5000 <=? x then 1 else if x <? 1024 then 2 else 3.

(** The four classes of the source, by rank. *)
Lemma port_class x :
  (x <? 512) = (port_rank x =? 0) ∧ (5000 <=? x) = (port_rank x =? 1) ∧
  ((512 <=? x) && (x <? 1024)) = (port_rank x =? 2) ∧
  ((1024 <=? x) && (x <? 5000)) = (port_rank x =? 3) ∧
  (port_rank x = 0 ∧ x < 512 ∨ port_rank x = 1 ∧ 5000 ≤ x ∨
   port_rank x = 2 ∧ 512 ≤ x < 1024 ∨ port_rank x = 3 ∧ 1024 ≤ x < 5000).
Proof.
  unfold port_rank. destruct (Z.ltb_spec x 512), (Z.leb_spec 5000 x); try lia;
    destruct (Z.ltb_spec x 1024); try lia;
    destruct (Z.leb_spec 512 x), (Z.leb_spec 1024 x); try lia;
    destruct (Z.ltb_spec x 5000); simpl; lia.
Qed.

(** The guess is the port of the smaller rank, and of the smaller
    number within a rank; so it names the same port for both directions of a
    connection, and the tests for the dynamic range never decide anything. *)
Theorem server_port_is_smallest protocol source dest :
  0 ≤ source < 2 ^ 16 → 0 ≤ dest < 2 ^ 16 →
  (trace_get_server_port protocol source dest = USE_SOURCE ↔
     port_rank source < port_rank dest ∨ port_rank source = port_rank dest ∧ source < dest) ∧
  (source ≠ dest → trace_get_server_port protocol dest source =
     match trace_get_server_port protocol source dest with
     | USE_SOURCE => USE_DEST
     | USE_DEST => USE_SOURCE
     end).
Proof.
  assert (∀ s d, trace_get_server_port protocol s d =
    if (port_rank s <? port_rank d) || (port_rank s =? port_rank d) && (s <? d)
    then USE_SOURCE else USE_DEST) as Hspec.
  { intros s d. unfold trace_get_server_port, ROOT_SERVER, NONROOT_SERVER, ROOT_CLIENT,
      NONROOT_CLIENT, DYNAMIC.
    destruct (port_class s) as (Hs1 & Hs2 & Hs3 & Hs4 & Hs),
      (port_class d) as (Hd1 & Hd2 & Hd3 & Hd4 & Hd).
    rewrite Hs1, Hs2, Hs3, Hs4, Hd1, Hd2, Hd3, Hd4. clear Hs1 Hs2 Hs3 Hs4 Hd1 Hd2 Hd3 Hd4.
    destruct (Z.eqb_spec s d), (Z.ltb_spec s d); try lia;
      destruct Hs as [[-> ?]|[[-> ?]|[[-> ?]|[-> ?]]]], Hd as [[-> ?]|[[-> ?]|[[-> ?]|[-> ?]]]];
      (done || lia). }
  intros Hs Hd. rewrite !Hspec. split.
  - destruct (Z.ltb_spec (port_rank source) (port_rank dest)),
      (Z.eqb_spec (port_rank source) (port_rank dest)), (Z.ltb_spec source dest);
      simpl; split; intros; (done || lia).
  - intros Hne.
    destruct (Z.ltb_spec (port_rank source) (port_rank dest)),
      (Z.eqb_spec (port_rank source) (port_rank dest)), (Z.ltb_spec source dest),
      (Z.ltb_spec (port_rank dest) (port_rank source)),
      (Z.eqb_spec (port_rank dest) (port_rank source)), (Z.ltb_spec dest source);
      simpl; (done || lia).
Qed.

Lemma server_port_is_smallest_witness :
  trace_get_server_port 6 51234 80 = USE_DEST ∧ trace_get_server_port 6 80 51234 = USE_SOURCE.
Proof.
  split; [reflexivity|].
  apply (server_port_is_smallest 6 51234 80); (lia || done).
Defined.
