(* ===== verification/Combiners.v ===== *)
(** * Combiners: lib/combiner_ordered.c and lib/combiner_unordered.c

    Every processing thread publishes its results to a queue of its own; the
    reporter reads the queues and sends the results on.  The ordered combiner
    merges the queues by key, the unordered one empties them one after the other.
    Both are verified against the queue interface of [QueueSpec]. *)

From Stdlib Require Import Sorting.Sorted.
From S2P Require Import Prelude DNodes QueueSpec Deque.
Local Open Scope Z_scope.
Local Open Scope outcome_scope.

(** ** Results *)
Inductive result_type :=
| RESULT_PACKET
| RESULT_TICK_INTERVAL
| RESULT_TICK_COUNT
| RESULT_USER (n : Z).

#[export] Instance result_type_eq_dec : EqDecision result_type.
Proof. solve_decision. Defined.

Record libtrace_result_t := {
  r_key : Z;
  r_value : Z;
  r_type : result_type;
}.

#[export] Instance result_eq_dec : EqDecision libtrace_result_t.
Proof. solve_decision. Defined.

Abbreviation UINT64_MAX := (2 ^ 64 - 1).

Section combiner.
Context {Q : Type} `{QueueLaws libtrace_result_t Q}.

(** The combiner, and the messages it has sent to the reporter.  There is one
    queue per processing thread. *)
Record libtrace_combine := {
  c_queues : list Q;
  c_last_count_tick : Z;
  c_last_ts_tick : Z;
  c_sent : list libtrace_result_t;
}.
Implicit Types c : libtrace_combine.

Definition set_queue c (queues : list Q) : libtrace_combine :=
  {| c_queues := queues; c_last_count_tick := c_last_count_tick c;
     c_last_ts_tick := c_last_ts_tick c; c_sent := c_sent c |}.
Definition set_ts c (t : Z) : libtrace_combine :=
  {| c_queues := c_queues c; c_last_count_tick := c_last_count_tick c;
     c_last_ts_tick := t; c_sent := c_sent c |}.
Definition set_count c (t : Z) : libtrace_combine :=
  {| c_queues := c_queues c; c_last_count_tick := t;
     c_last_ts_tick := c_last_ts_tick c; c_sent := c_sent c |}.
Definition send_message c (r : libtrace_result_t) : libtrace_combine :=
  {| c_queues := c_queues c; c_last_count_tick := c_last_count_tick c;
     c_last_ts_tick := c_last_ts_tick c; c_sent := c_sent c ++ [r] |}.

(** [publish], the same in both combiners: the queue of the thread, and whether
    the reporter is posted. *)
Definition publish c (t_id : Z) (res : libtrace_result_t) (reporter_thold : Z)
  : outcome (libtrace_combine * bool) :=
  let! queue := aget (c_queues c) t_id in
  let! queue := q_push_back queue res in
  let! queues := aset (c_queues c) t_id queue in
  let! size := q_get_size queue in
  Ok (set_queue c queues, reporter_thold <=? size).

(** [ASSERT_RET (libtrace_deque_pop_front(&queues[i], &r), == 1)]. *)
Definition pop_queue c (i : Z) : outcome (libtrace_combine * libtrace_result_t) :=
  let! v := aget (c_queues c) i in
  let! ' (v, r) := q_pop_front v in
  match r with
  | None => Fault AssertFailed
  | Some r => let! queues := aset (c_queues c) i v in Ok (set_queue c queues, r)
  end.

(** ** The ordered combiner *)

(** [peek_queue]: 1 with the key of the next result, or 0 if that result was a
    tick that has been dealt with.  [peeked] is [None] for a null pointer: the
    result is then peeked here, into a local variable that stays unset if the
    queue is empty. *)
Definition peek_queue (parallel : bool) c (i : Z) (peeked : option libtrace_result_t)
  : outcome (libtrace_combine * option Z) :=
  let! r :=
    match peeked with
    | Some r => Ok r
    | None =>
        let! v := aget (c_queues c) i in
        let! r := q_peek_front v in
        match r with Some r => Ok r | None => Fault Uninitialised end
    end in
  match r_type r with
  | RESULT_TICK_INTERVAL =>
      if c_last_ts_tick c <? r_key r then
        let! ' (c, r') := pop_queue (set_ts c (r_key r)) i in
        Ok (send_message c r', None)
      else let! ' (c, _) := pop_queue c i in Ok (c, None)
  | RESULT_TICK_COUNT =>
      if c_last_count_tick c <? r_key r then
        let c := set_count c (r_key r) in
        if parallel then
          let! ' (c, r') := pop_queue c i in
          Ok (send_message c r', None)
        else Ok (c, Some (r_key r))
      else let! ' (c, _) := pop_queue c i in Ok (c, None)
  | _ => Ok (c, Some (r_key r))
  end.

(** [do { ... } while (peek_queue(...) == 0)]: every further round has removed a
    result from the queue. *)
Fixpoint next_message (fuel : nat) (parallel : bool) c (i : Z) : outcome (libtrace_combine * Z) :=
  match fuel with
  | O => Fault OutOfFuel
  | S fuel' =>
      let! v := aget (c_queues c) i in
      let! r := q_peek_front v in
      match r with
      | None => Ok (c, 0)
      | Some r =>
          let! ' (c, key) := peek_queue parallel c i (Some r) in
          match key with
          | Some k => Ok (c, k)
          | None => next_message fuel' parallel c i
          end
      end
  end.

(** The local variables of [read_internal]. *)
Record merge_state := {
  m_live_count : Z;
  m_allactive : bool;
  m_live : list bool;
  m_key : list Z;
  m_min_key : Z;
  m_min_queue : Z;
}.

(** The first loop, from [i] on, [n] queues to go. *)
Fixpoint scan_queues (parallel : bool) (n : nat) (i : Z) c (m : merge_state)
  : outcome (libtrace_combine * merge_state) :=
  match n with
  | O => Ok (c, m)
  | S n' =>
      let! v := aget (c_queues c) i in
      let! size := q_get_size v in
      let! ' (c, peeked) :=
        if negb (size =? 0) then peek_queue parallel c i None else Ok (c, None) in
      let m :=
        match peeked with
        | Some k =>
            let smaller := (i =? 0) || (k <? m_min_key m) in
            {| m_live_count := m_live_count m + 1; m_allactive := m_allactive m;
               m_live := m_live m ++ [true]; m_key := m_key m ++ [k];
               m_min_key := if smaller then k else m_min_key m;
               m_min_queue := if smaller then i else m_min_queue m |}
        | None =>
            {| m_live_count := m_live_count m; m_allactive := false;
               m_live := m_live m ++ [false]; m_key := m_key m ++ [0];
               m_min_key := m_min_key m; m_min_queue := m_min_queue m |}
        end in
      scan_queues parallel n' (i + 1) c m
  end.

(** [for (i = 0; i < n; ++i) if (live[i] && min_key >= key[i]) ...]. *)
Fixpoint find_smallest (live : list bool) (key : list Z) (i min_key min_queue : Z) : Z * Z :=
  match live, key with
  | l :: live', k :: key' =>
      if l && (k <=? min_key) then find_smallest live' key' (i + 1) k i
      else find_smallest live' key' (i + 1) min_key min_queue
  | _, _ => (min_key, min_queue)
  end.

(** The second loop. *)
Fixpoint merge_loop (fuel : nat) (parallel final : bool) c (m : merge_state)
  : outcome libtrace_combine :=
  match fuel with
  | O => Fault OutOfFuel
  | S fuel' =>
      if m_allactive m || (negb (m_live_count m =? 0) && final) then
        let! ' (c, r) := pop_queue c (m_min_queue m) in
        let c := send_message c r in
        let! v := aget (c_queues c) (m_min_queue m) in
        let! size := q_get_size v in
        let! ' (c, peeked) := next_message (S (Z.to_nat size)) parallel c (m_min_queue m) in
        if negb (peeked =? 0) then
          let! key := aset (m_key m) (m_min_queue m) peeked in
          let '(mk, mq) :=
            if peeked <=? m_min_key m then (peeked, m_min_queue m)
            else find_smallest (m_live m) key 0 peeked (m_min_queue m) in
          merge_loop fuel' parallel final c
            {| m_live_count := m_live_count m; m_allactive := m_allactive m; m_live := m_live m;
               m_key := key; m_min_key := mk; m_min_queue := mq |}
        else
          let! live := aset (m_live m) (m_min_queue m) false in
          let! key := aset (m_key m) (m_min_queue m) 0 in
          let '(mk, mq) := find_smallest live key 0 UINT64_MAX (-1) in
          merge_loop fuel' parallel final c
            {| m_live_count := m_live_count m - 1; m_allactive := false; m_live := live;
               m_key := key; m_min_key := mk; m_min_queue := mq |}
      else Ok c
  end.

(** The number of results waiting. *)
Fixpoint total_size (queues : list Q) : outcome Z :=
  match queues with
  | [] => Ok 0
  | v :: vs =>
      let! n := q_get_size v in
      let! k := total_size vs in
      Ok (n + k)
  end.

(** Every round of the second loop sends a result, so that one round more than
    there are results is enough. *)
Definition read_internal (parallel final : bool) c : outcome libtrace_combine :=
  let! n := total_size (c_queues c) in
  let! ' (c, m) := scan_queues parallel (length (c_queues c)) 0 c
    {| m_live_count := 0; m_allactive := true; m_live := []; m_key := [];
       m_min_key := UINT64_MAX; m_min_queue := -1 |} in
  merge_loop (S (Z.to_nat n)) parallel final c m.

Definition ordered_read (parallel : bool) c : outcome libtrace_combine :=
  read_internal parallel false c.

(** [empty] after its loop. *)
Fixpoint count_empty (queues : list Q) : outcome Z :=
  match queues with
  | [] => Ok 0
  | v :: vs =>
      let! n := q_get_size v in
      let! k := count_empty vs in
      Ok (if n =? 0 then k + 1 else k)
  end.

(** [do { read_internal(trace, c, true); ... } while (empty < n)]. *)
Fixpoint ordered_read_final (fuel : nat) (parallel : bool) c : outcome libtrace_combine :=
  match fuel with
  | O => Fault OutOfFuel
  | S fuel' =>
      let! c := read_internal parallel true c in
      let! empty := count_empty (c_queues c) in
      if empty <? Zlen (c_queues c) then ordered_read_final fuel' parallel c else Ok c
  end.

(** ** The unordered combiner *)

(** [while (libtrace_deque_get_size(v) != 0)] on one queue. *)
Fixpoint unordered_drain (fuel : nat) c (i : Z) : outcome libtrace_combine :=
  match fuel with
  | O => Fault OutOfFuel
  | S fuel' =>
      let! v := aget (c_queues c) i in
      let! size := q_get_size v in
      if size =? 0 then Ok c
      else
        let! ' (c, r) := pop_queue c i in
        match r_type r with
        | RESULT_TICK_INTERVAL =>
            if r_key r <=? c_last_ts_tick c then unordered_drain fuel' c i
            else unordered_drain fuel' (send_message (set_ts c (r_key r)) r) i
        | RESULT_TICK_COUNT =>
            if r_key r <=? c_last_count_tick c then unordered_drain fuel' c i
            else unordered_drain fuel' (send_message (set_count c (r_key r)) r) i
        | _ => unordered_drain fuel' (send_message c r) i
        end
  end.

Fixpoint unordered_read_from (n : nat) (i : Z) c : outcome libtrace_combine :=
  match n with
  | O => Ok c
  | S n' =>
      let! v := aget (c_queues c) i in
      let! size := q_get_size v in
      let! c := unordered_drain (S (Z.to_nat size)) c i in
      unordered_read_from n' (i + 1) c
  end.

Definition unordered_read c : outcome libtrace_combine :=
  unordered_read_from (length (c_queues c)) 0 c.

(** [destroy], the same in both combiners: every queue must be empty. *)
Definition combiner_destroy c : outcome unit :=
  let! n := count_empty (c_queues c) in
  oassert (n =? Zlen (c_queues c)).
End combiner.
Arguments libtrace_combine : clear implicits.

(** ** What the queues hold *)
Section correct.
Context {Q : Type} `{QueueLaws libtrace_result_t Q}.
Implicit Types (c : libtrace_combine Q) (xss : list (list libtrace_result_t)).

Definition holds c xss : Prop := Forall2 q_rep (c_queues c) xss.

Lemma holds_length c xss : holds c xss → length (c_queues c) = length xss.
Proof. apply Forall2_length. Qed.

Lemma holds_aget c xss i xs :
  holds c xss → xss !! i = Some xs → ∃ v, aget (c_queues c) (Z.of_nat i) = Ok v ∧ q_rep v xs.
Proof.
  intros Hh Hi. destruct (Forall2_lookup_r _ _ _ _ _ Hh Hi) as (v & Hv & R). exists v.
  split; [|done]. apply aget_ok; [lia|]. by rewrite Nat2Z.id.
Qed.

Lemma holds_aset c xss i v xs :
  holds c xss → (i < length xss)%nat → q_rep v xs →
  ∃ qs, aset (c_queues c) (Z.of_nat i) v = Ok qs ∧ holds (set_queue c qs) (<[i := xs]> xss).
Proof.
  intros Hh Hi R. exists (<[i := v]> (c_queues c)). split.
  - rewrite aset_ok, Nat2Z.id; [done|]. unfold Zlen. rewrite (holds_length c xss) by done. lia.
  - by apply Forall2_insert.
Qed.

(** [c'] differs from [c] in its queues only. *)
Definition same_but_queues c c' : Prop := c' = set_queue c (c_queues c').

Lemma pop_queue_ok c xss i x xs :
  holds c xss → xss !! i = Some (x :: xs) →
  ∃ c', pop_queue c (Z.of_nat i) = Ok (c', x) ∧ holds c' (<[i := xs]> xss) ∧ same_but_queues c c'.
Proof.
  intros Hh Hi. unfold pop_queue. destruct (holds_aget c xss i _ Hh Hi) as (v & -> & R). cbn [obind].
  destruct (q_pop_front_cons v x xs R) as (v' & -> & R'). cbn [obind].
  destruct (holds_aset c xss i v' xs Hh) as (qs & -> & Hh'); [by eapply lookup_lt_Some|done|].
  cbn [obind]. eexists. split; [done|]. split; [done|]. done.
Qed.

(** ** The unordered combiner *)
Definition is_tick (r : libtrace_result_t) : bool :=
  match r_type r with RESULT_TICK_INTERVAL | RESULT_TICK_COUNT => true | _ => false end.

Definition is_interval (r : libtrace_result_t) : bool :=
  match r_type r with RESULT_TICK_INTERVAL => true | _ => false end.

Definition is_count (r : libtrace_result_t) : bool :=
  match r_type r with RESULT_TICK_COUNT => true | _ => false end.

(** The reference: results pass through, a tick only if it is later than the
    last one of its kind. *)
Fixpoint deliver (ts cnt : Z) (xs : list libtrace_result_t) : list libtrace_result_t * (Z * Z) :=
  match xs with
  | [] => ([], (ts, cnt))
  | r :: xs' =>
      let pass ts cnt := let '(out, t) := deliver ts cnt xs' in (r :: out, t) in
      match r_type r with
      | RESULT_TICK_INTERVAL => if r_key r <=? ts then deliver ts cnt xs' else pass (r_key r) cnt
      | RESULT_TICK_COUNT => if r_key r <=? cnt then deliver ts cnt xs' else pass ts (r_key r)
      | _ => pass ts cnt
      end
  end.

Lemma deliver_app xs : ∀ ts cnt ys,
  deliver ts cnt (xs ++ ys) =
    let '(out1, (ts1, cnt1)) := deliver ts cnt xs in
    let '(out2, t2) := deliver ts1 cnt1 ys in (out1 ++ out2, t2).
Proof.
  induction xs as [|r xs IH]; intros ts cnt ys; cbn [deliver app].
  - by destruct (deliver ts cnt ys).
  - destruct (r_type r); [|destruct (_ <=? _); [apply IH|]..|]; rewrite IH;
      destruct (deliver _ _ xs) as [out1 [ts1 cnt1]]; by destruct (deliver ts1 cnt1 ys).
Qed.

(** What delivering means: no result is lost, duplicated or moved, and the ticks
    of each kind that pass are strictly increasing. *)
Lemma deliver_spec xs : ∀ ts cnt,
  let out := (deliver ts cnt xs).1 in
  filter (λ r, is_tick r = false) out = filter (λ r, is_tick r = false) xs ∧
  out `sublist_of` xs ∧
  StronglySorted Z.lt (ts :: map r_key (filter (λ r, is_interval r = true) out)) ∧
  StronglySorted Z.lt (cnt :: map r_key (filter (λ r, is_count r = true) out)).
Proof.
  induction xs as [|r xs IH]; intros ts cnt; cbn [deliver].
  - split_and!; try done; repeat constructor.
  - assert (∀ a b l, a < b → StronglySorted Z.lt (b :: l) → StronglySorted Z.lt (a :: b :: l)) as Hadd.
    { intros a b l Hab Hs. constructor; [done|]. inversion Hs as [|? ? ? HF]. subst.
      constructor; [done|]. eapply Forall_impl; [exact HF|]. simpl. lia. }
    destruct (r_type r) eqn:Ht.
    + destruct (IH ts cnt) as (F1 & F2 & F3 & F4). destruct (deliver ts cnt xs) as [out t].
      cbn [fst] in *. rewrite !filter_cons. unfold is_tick, is_interval, is_count in *. rewrite Ht.
      rewrite !decide_True by done. rewrite !decide_False by done.
      split_and!; [by rewrite F1|by constructor|done..].
    + destruct (Z.leb_spec (r_key r) ts).
      * destruct (IH ts cnt) as (F1 & F2 & F3 & F4). split_and!; [|by constructor|done..].
        rewrite filter_cons, decide_False by (unfold is_tick; by rewrite Ht). done.
      * destruct (IH (r_key r) cnt) as (F1 & F2 & F3 & F4). destruct (deliver (r_key r) cnt xs) as [out t].
        cbn [fst] in *. rewrite !filter_cons. unfold is_tick, is_interval, is_count in *. rewrite Ht.
        rewrite !(decide_False (P := true = false)) by done. rewrite (decide_True (P := true = true)) by done.
        rewrite !(decide_False (P := false = true)) by done.
        split_and!; [done|by constructor|by apply Hadd|done].
    + destruct (Z.leb_spec (r_key r) cnt).
      * destruct (IH ts cnt) as (F1 & F2 & F3 & F4). split_and!; [|by constructor|done..].
        rewrite filter_cons, decide_False by (unfold is_tick; by rewrite Ht). done.
      * destruct (IH ts (r_key r)) as (F1 & F2 & F3 & F4). destruct (deliver ts (r_key r) xs) as [out t].
        cbn [fst] in *. rewrite !filter_cons. unfold is_tick, is_interval, is_count in *. rewrite Ht.
        rewrite !(decide_False (P := true = false)) by done. rewrite (decide_True (P := true = true)) by done.
        rewrite !(decide_False (P := false = true)) by done.
        split_and!; [done|by constructor|done|by apply Hadd].
    + destruct (IH ts cnt) as (F1 & F2 & F3 & F4). destruct (deliver ts cnt xs) as [out t].
      cbn [fst] in *. rewrite !filter_cons. unfold is_tick, is_interval, is_count in *. rewrite Ht.
      rewrite !decide_True by done. rewrite !decide_False by done.
      split_and!; [by rewrite F1|by constructor|done..].
Qed.

(** The state after a piece of input [xs] has been delivered from [c]. *)
Definition delivered c (xs : list libtrace_result_t) c' : Prop :=
  let '(out, (ts, cnt)) := deliver (c_last_ts_tick c) (c_last_count_tick c) xs in
  c_sent c' = c_sent c ++ out ∧ c_last_ts_tick c' = ts ∧ c_last_count_tick c' = cnt.

Lemma delivered_nil c qs : delivered c [] (set_queue c qs).
Proof. unfold delivered. simpl. by rewrite app_nil_r. Qed.

Lemma delivered_app c c1 c2 xs ys :
  delivered c xs c1 → delivered c1 ys c2 → delivered c (xs ++ ys) c2.
Proof.
  unfold delivered. rewrite deliver_app.
  destruct (deliver (c_last_ts_tick c) (c_last_count_tick c) xs) as [out1 [ts1 cnt1]].
  intros (E1 & -> & ->). destruct (deliver ts1 cnt1 ys) as [out2 [ts2 cnt2]].
  intros (E2 & E3 & E4). by rewrite E2, E1, app_assoc.
Qed.

Lemma unordered_drain_ok fuel : ∀ c xss i xs,
  holds c xss → xss !! i = Some xs → (length xs < fuel)%nat →
  ∃ c', unordered_drain fuel c (Z.of_nat i) = Ok c' ∧ holds c' (<[i := []]> xss) ∧
    delivered c xs c'.
Proof.
  induction fuel as [|fuel IH]; intros c xss i xs Hh Hi Hf; [lia|]. cbn [unordered_drain].
  destruct (holds_aget c xss i xs Hh Hi) as (v & -> & R). cbn [obind].
  rewrite (q_get_size_spec v xs R). cbn [obind]. destruct xs as [|r xs].
  - change (Zlen (@nil libtrace_result_t) =? 0) with true. cbn iota. exists c.
    rewrite list_insert_id by done. split_and!; try done. by destruct c; apply delivered_nil.
  - rewrite Zlen_cons. pose proof (Zlen_nonneg xs). rewrite (proj2 (Z.eqb_neq _ 0)) by lia.
    destruct (pop_queue_ok c xss i r xs Hh Hi) as (c1 & -> & Hh1 & Hs1). cbn [obind].
    assert (∀ c2, c_queues c2 = c_queues c1 → ∃ c', unordered_drain fuel c2 (Z.of_nat i) = Ok c' ∧
      holds c' (<[i:=[]]> xss) ∧ delivered c2 xs c') as Hgo.
    { intros c2 Hq. destruct (IH c2 (<[i := xs]> xss) i xs) as (c' & Hrun & Hh' & Hd).
      - unfold holds. by rewrite Hq.
      - apply list_lookup_insert_eq. by eapply lookup_lt_Some.
      - simpl in Hf. lia.
      - exists c'. rewrite list_insert_insert_eq in Hh'. done. }
    rewrite Hs1 in *. unfold delivered. cbn [deliver] in *. cbn [c_last_ts_tick c_last_count_tick set_queue] in *.
    destruct (r_type r); [|destruct (_ <=? _)..|];
      (edestruct Hgo as (c' & Hrun & Hh' & Hd); [|exists c'; split; [exact Hrun|]; split; [done|]]; [done|]);
      unfold delivered in Hd; cbn in Hd; destruct (deliver _ _ xs) as [out [ts cnt]];
      destruct Hd as (Hsent & ? & ?); split_and!; try done; rewrite Hsent; by rewrite <- ?app_assoc.
Qed.

Lemma unordered_read_from_ok n : ∀ c pre yss,
  holds c (pre ++ yss) → length yss = n →
  ∃ c', unordered_read_from n (Zlen pre) c = Ok c' ∧
    holds c' (pre ++ map (λ _, []) yss) ∧ delivered c (concat yss) c'.
Proof.
  induction n as [|n IH]; intros c pre yss Hh Hn; destruct yss as [|xs yss]; try done; cbn [unordered_read_from].
  - exists c. split_and!; try done. by destruct c; apply delivered_nil.
  - assert ((pre ++ xs :: yss) !! length pre = Some xs) as Hi by by apply list_lookup_middle.
    destruct (holds_aget c _ _ xs Hh Hi) as (v & Hv & R).
    unfold Zlen at 1. rewrite Hv. cbn [obind]. rewrite (q_get_size_spec v xs R). cbn [obind].
    destruct (unordered_drain_ok (S (Z.to_nat (Zlen xs))) c _ (length pre) xs Hh Hi) as (c1 & Hrun & Hh1 & Hd1);
      [unfold Zlen; lia|]. change (Zlen pre) with (Z.of_nat (length pre)). rewrite Hrun. cbn [obind].
    rewrite insert_app_r_alt, Nat.sub_diag in Hh1 by done. cbn in Hh1.
    destruct (IH c1 (pre ++ [[]]) yss) as (c2 & Hrun2 & Hh2 & Hd2);
      [by rewrite <- app_assoc|simpl in Hn; lia|].
    rewrite Zlen_app in Hrun2. change (Zlen [[]]) with 1 in Hrun2. unfold Zlen in Hrun2. rewrite Hrun2.
    exists c2. split; [done|]. split; [by rewrite <- app_assoc in Hh2|].
    cbn [concat]. by apply (delivered_app c c1).
Qed.

(** Reading with the unordered combiner always returns and leaves every
    queue empty; the results are sent queue by queue, in the order they were
    published, none lost, duplicated or changed; and of the ticks, which every
    thread publishes, those that are sent have strictly increasing keys, beyond
    the last tick of an earlier read. *)
Theorem unordered_read_delivers c xss :
  holds c xss →
  ∃ c' out, unordered_read c = Ok c' ∧ holds c' (map (λ _, []) xss) ∧
    c_sent c' = c_sent c ++ out ∧ out `sublist_of` concat xss ∧
    filter (λ r, is_tick r = false) out = filter (λ r, is_tick r = false) (concat xss) ∧
    StronglySorted Z.lt (c_last_ts_tick c :: map r_key (filter (λ r, is_interval r = true) out)) ∧
    StronglySorted Z.lt (c_last_count_tick c :: map r_key (filter (λ r, is_count r = true) out)).
Proof.
  intros Hh. unfold unordered_read. rewrite (holds_length c xss Hh).
  destruct (unordered_read_from_ok (length xss) c [] xss Hh eq_refl) as (c' & Hrun & Hh' & Hd).
  exists c', (deliver (c_last_ts_tick c) (c_last_count_tick c) (concat xss)).1.
  destruct (deliver_spec (concat xss) (c_last_ts_tick c) (c_last_count_tick c)) as (F1 & F2 & F3 & F4).
  split; [exact Hrun|]. split; [done|]. unfold delivered in Hd.
  destruct (deliver _ _ (concat xss)) as [out [ts cnt]]. split_and!; try done. apply Hd.
Qed.
End correct.

(** ** Merging: the reference *)
Implicit Types (xss yss : list (list libtrace_result_t)).

Definition key_le (a b : libtrace_result_t) : Prop := r_key a ≤ r_key b.

(** What a thread publishes when the keys are packet numbers: no ticks, keys in
    order, below [UINT64_MAX], and 0 at most for the very first result (0 stands
    for an empty queue in [next_message]). *)
Definition mergeable (xs : list libtrace_result_t) : Prop :=
  Forall (λ r, is_tick r = false ∧ 0 ≤ r_key r < UINT64_MAX) xs ∧
  StronglySorted key_le xs ∧ Forall (λ r, 0 < r_key r) (tail xs).

Definition nonempty (xs : list libtrace_result_t) : bool :=
  match xs with [] => false | _ => true end.
Definition head_key (xs : list libtrace_result_t) : Z :=
  match xs with [] => 0 | r :: _ => r_key r end.
Fixpoint live_queues (xss : list (list libtrace_result_t)) : Z :=
  match xss with [] => 0 | xs :: xss' => (if nonempty xs then 1 else 0) + live_queues xss' end.

Lemma mergeable_tail r xs : mergeable (r :: xs) → mergeable xs.
Proof.
  intros (F & S & P). split_and!.
  - by inversion F.
  - by inversion S.
  - simpl in P. destruct xs; [done|by inversion P].
Qed.

Lemma mergeable_head_least r xs : mergeable (r :: xs) → Forall (key_le r) (r :: xs).
Proof. intros (_ & S & _). constructor; [unfold key_le; lia|]. by inversion S. Qed.

Lemma live_queues_nonneg xss : 0 ≤ live_queues xss.
Proof. induction xss as [|xs xss IH]; simpl; [lia|]. destruct (nonempty xs); lia. Qed.

Lemma live_queues_zero xss : live_queues xss = 0 → Forall (λ xs, xs = []) xss.
Proof.
  induction xss as [|xs xss IH]; simpl; intros Hz; constructor;
    pose proof (live_queues_nonneg xss); destruct xs; simpl in *; try done; try lia; apply IH; lia.
Qed.

Lemma live_queues_insert xss : ∀ i x xs ys,
  xss !! i = Some (x :: xs) →
  live_queues (<[i := ys]> xss) = live_queues xss - (if nonempty ys then 0 else 1).
Proof.
  induction xss as [|zs xss IH]; intros [|i] x xs ys Hi; try done; simpl in *.
  - injection Hi as ->. simpl. destruct (nonempty ys); lia.
  - rewrite (IH i x xs ys Hi). lia.
Qed.

Lemma concat_insert_tail xss : ∀ i x xs,
  xss !! i = Some (x :: xs) → concat xss ≡ₚ x :: concat (<[i := xs]> xss).
Proof.
  induction xss as [|zs xss IH]; intros [|i] x xs Hi; try done; simpl in *.
  - by injection Hi as ->.
  - rewrite (IH i x xs Hi). symmetry. apply Permutation_middle.
Qed.

Lemma elem_of_concat xss y : y ∈ concat xss → ∃ zs, zs ∈ xss ∧ y ∈ zs.
Proof.
  induction xss as [|xs xss IH]; simpl; [set_solver|]. intros [Hy|Hy]%elem_of_app.
  - exists xs. set_solver.
  - destruct (IH Hy) as (zs & ? & ?). exists zs. set_solver.
Qed.

Lemma in_concat_heads xss y :
  Forall mergeable xss → y ∈ concat xss →
  ∃ i x xs, xss !! i = Some (x :: xs) ∧ key_le x y.
Proof.
  intros Hm (zs & Hzs & Hy)%elem_of_concat.
  apply list_elem_of_lookup in Hzs as [i Hi]. destruct zs as [|x xs]; [set_solver|].
  exists i, x, xs. split; [done|].
  pose proof (proj1 (Forall_lookup _ _) Hm _ _ Hi) as Hx%mergeable_head_least.
  by apply (proj1 (Forall_forall _ _) Hx).
Qed.

(** Queue [mq] has the least head, and its key is [mk]. *)
Definition is_min xss (mk mq : Z) : Prop :=
  ∃ i x xs, mq = Z.of_nat i ∧ xss !! i = Some (x :: xs) ∧ mk = r_key x ∧
    ∀ j y ys, xss !! j = Some (y :: ys) → r_key x ≤ r_key y.

Lemma find_smallest_spec xss : ∀ i mk mq mk' mq',
  find_smallest (nonempty <$> xss) (head_key <$> xss) i mk mq = (mk', mq') →
  mk' ≤ mk ∧ (∀ j y ys, xss !! j = Some (y :: ys) → mk' ≤ r_key y) ∧
  ((mk' = mk ∧ mq' = mq) ∨
   ∃ j x xs, mq' = i + Z.of_nat j ∧ xss !! j = Some (x :: xs) ∧ mk' = r_key x).
Proof.
  induction xss as [|xs xss IH]; intros i mk mq mk' mq'; cbn [find_smallest fmap list_fmap].
  - intros [= -> ->]. split_and!; [lia|done|by left].
  - destruct xs as [|x xs]; cbn [nonempty head_key andb].
    + intros Hf%IH. destruct Hf as (F1 & F2 & F3). split_and!; [done| |].
      * intros [|j] y ys; [done|apply F2].
      * destruct F3 as [F3|(j & y & ys & -> & F4 & F5)]; [by left|right].
        exists (S j), y, ys. split_and!; [lia|done|done].
    + destruct (Z.leb_spec (r_key x) mk); intros Hf%IH; destruct Hf as (F1 & F2 & F3); split_and!; try lia.
      * intros [|j] y ys; [intros [= -> ->]; lia|apply F2].
      * right. destruct F3 as [[-> ->]|(j & y & ys & -> & F4 & F5)].
        -- exists 0%nat, x, xs. split_and!; [lia|done|done].
        -- exists (S j), y, ys. split_and!; [lia|done|done].
      * intros [|j] y ys; [intros [= -> ->]; lia|apply F2].
      * destruct F3 as [F3|(j & y & ys & -> & F4 & F5)]; [by left|right].
        exists (S j), y, ys. split_and!; [lia|done|done].
Qed.

Lemma live_queues_pos xss i x xs : xss !! i = Some (x :: xs) → 0 < live_queues xss.
Proof.
  revert i. induction xss as [|zs xss IH]; intros [|i] Hi; try done; simpl in *.
  - injection Hi as ->. simpl. pose proof (live_queues_nonneg xss). lia.
  - specialize (IH i Hi). destruct (nonempty zs); lia.
Qed.

Lemma live_queues_find xss : live_queues xss ≠ 0 → ∃ i x xs, xss !! i = Some (x :: xs).
Proof.
  induction xss as [|zs xss IH]; simpl; [done|]. intros Hne. destruct zs as [|x xs]; simpl in *.
  - destruct IH as (i & x & xs & Hi); [lia|]. by exists (S i), x, xs.
  - by exists 0%nat, x, xs.
Qed.

(** Choosing among all the heads, from nothing or from one of them. *)
Lemma find_smallest_fresh xss mk mq :
  Forall mergeable xss →
  find_smallest (nonempty <$> xss) (head_key <$> xss) 0 UINT64_MAX (-1) = (mk, mq) →
  live_queues xss ≠ 0 → is_min xss mk mq.
Proof.
  intros Hm Hf%find_smallest_spec Hne. destruct Hf as (F1 & F2 & F3).
  destruct F3 as [[-> ->]|(j & x & xs & -> & Hj & ->)]; [|by exists j, x, xs].
  destruct (live_queues_find xss Hne) as (i & x & xs & Hi). specialize (F2 i x xs Hi).
  destruct (proj1 (Forall_lookup _ _) Hm _ _ Hi) as (Hk & _). inversion Hk. lia.
Qed.

Lemma find_smallest_from xss i x xs mk mq :
  xss !! i = Some (x :: xs) →
  find_smallest (nonempty <$> xss) (head_key <$> xss) 0 (r_key x) (Z.of_nat i) = (mk, mq) →
  is_min xss mk mq.
Proof.
  intros Hi Hf%find_smallest_spec. destruct Hf as (F1 & F2 & F3).
  destruct F3 as [[-> ->]|(j & y & ys & -> & Hj & ->)]; [by exists i, x, xs|by exists j, y, ys].
Qed.

(** The local variables describe the queues. *)
Definition minv xss (m : merge_state) : Prop :=
  m_live m = nonempty <$> xss ∧ m_key m = head_key <$> xss ∧
  m_live_count m = live_queues xss ∧ m_allactive m = forallb id (nonempty <$> xss) ∧
  (live_queues xss ≠ 0 → is_min xss (m_min_key m) (m_min_queue m)).

Lemma allactive_live xss : xss ≠ [] → forallb id (nonempty <$> xss) = true → live_queues xss ≠ 0.
Proof.
  destruct xss as [|xs xss]; [done|]. simpl. intros _ [Hx _]%andb_prop. unfold id in Hx. rewrite Hx.
  pose proof (live_queues_nonneg xss). lia.
Qed.

Lemma inactive_empty xss : forallb id (nonempty <$> xss) = false → [] ∈ xss.
Proof.
  induction xss as [|xs xss IH]; simpl; [done|]. unfold id at 1. intros [Hx|Hx]%andb_false_iff.
  - destruct xs; [left|done].
  - right. by apply IH.
Qed.

Lemma forallb_insert_false (l : list bool) i :
  (i < length l)%nat → forallb id (<[i := false]> l) = false.
Proof.
  revert i. induction l as [|b l IH]; intros [|i] Hi; simpl in *; try lia.
  rewrite IH by lia. apply andb_false_r.
Qed.

(** ** The ordered combiner *)
Section ordered.
Context {Q : Type} `{QueueLaws libtrace_result_t Q}.
Implicit Types (c : libtrace_combine Q).

Lemma holds_send c xss r : holds (send_message c r) xss ↔ holds c xss.
Proof. done. Qed.

Lemma peek_queue_result parallel c i r :
  is_tick r = false → peek_queue parallel c i (Some r) = Ok (c, Some (r_key r)).
Proof. unfold peek_queue, is_tick. cbn [obind]. by destruct (r_type r). Qed.

Lemma peek_queue_null parallel c xss i r xs :
  holds c xss → xss !! i = Some (r :: xs) → is_tick r = false →
  peek_queue parallel c (Z.of_nat i) None = Ok (c, Some (r_key r)).
Proof.
  intros Hh Hi Ht. destruct (holds_aget c xss i _ Hh Hi) as (v & Hv & R).
  rewrite <- (peek_queue_result parallel c (Z.of_nat i) r Ht). unfold peek_queue.
  rewrite Hv. cbn [obind]. by rewrite (q_peek_front_spec v _ R).
Qed.

Lemma next_message_ok fuel parallel c xss i xs :
  holds c xss → xss !! i = Some xs → Forall (λ r, is_tick r = false) xs →
  next_message (S fuel) parallel c (Z.of_nat i) = Ok (c, head_key xs).
Proof.
  intros Hh Hi Ht. cbn [next_message]. destruct (holds_aget c xss i _ Hh Hi) as (v & -> & R).
  cbn [obind]. rewrite (q_peek_front_spec v _ R). cbn [obind]. destruct xs as [|r xs]; [done|].
  cbn [head]. inversion Ht. by rewrite peek_queue_result.
Qed.

Lemma total_size_ok c xss :
  holds c xss → total_size (c_queues c) = Ok (Zlen (concat xss)).
Proof.
  unfold holds. induction 1 as [|v xs vs xss R _ IH]; [done|]. cbn [total_size concat].
  rewrite (q_get_size_spec v xs R). cbn [obind]. rewrite IH. cbn [obind]. by rewrite Zlen_app.
Qed.

Lemma count_empty_ok c xss :
  holds c xss → count_empty (c_queues c) = Ok (Zlen xss - live_queues xss).
Proof.
  unfold holds. induction 1 as [|v xs vs xss R _ IH]; [done|]. cbn [count_empty live_queues].
  rewrite (q_get_size_spec v xs R). cbn [obind]. rewrite IH. cbn [obind]. rewrite Zlen_cons. f_equal.
  destruct xs as [|x xs]; cbn [nonempty].
  - change (Zlen (@nil libtrace_result_t) =? 0) with true. cbn iota. lia.
  - rewrite Zlen_cons. pose proof (Zlen_nonneg xs). rewrite (proj2 (Z.eqb_neq _ 0)) by lia. lia.
Qed.

(** The first loop: [pre] are the queues already seen. *)
Definition scan_inv (pre : list (list libtrace_result_t)) (m : merge_state) : Prop :=
  minv pre m ∧ (live_queues pre = 0 → m_min_key m = UINT64_MAX ∧ m_min_queue m = -1).

Lemma is_min_snoc_nil pre mk mq : is_min pre mk mq → is_min (pre ++ [[]]) mk mq.
Proof.
  intros (i & x & xs & -> & Hi & -> & Hle). exists i, x, xs. split_and!; try done.
  - by apply lookup_app_l_Some.
  - intros j y ys [Hj|[_ Hj]]%lookup_app_Some; [by eapply Hle|].
    destruct (j - length pre)%nat; simpl in Hj; done.
Qed.

Lemma live_queues_app xss yss : live_queues (xss ++ yss) = live_queues xss + live_queues yss.
Proof. induction xss as [|xs xss IH]; simpl; [done|]. rewrite IH. lia. Qed.

Lemma lookup_snoc_cases {A} (l : list A) x j y :
  (l ++ [x]) !! j = Some y → l !! j = Some y ∨ (j = length l ∧ y = x).
Proof.
  intros [Hj|[Hl Hj]]%lookup_app_Some; [by left|right].
  destruct (j - length l)%nat eqn:E; simpl in Hj; [|done]. injection Hj as ->. split; [lia|done].
Qed.

Lemma is_min_snoc_cons pre mk mq x xs :
  (live_queues pre ≠ 0 → is_min pre mk mq) →
  (live_queues pre = 0 → r_key x < mk) →
  is_min (pre ++ [x :: xs]) (if r_key x <? mk then r_key x else mk)
    (if r_key x <? mk then Zlen pre else mq).
Proof.
  intros Hmin Hz. destruct (Z.ltb_spec (r_key x) mk) as [Hlt|Hge].
  - exists (length pre), x, xs. split_and!; try done; [by apply list_lookup_middle|].
    intros j y ys [Hj|[_ [= -> ->]]]%lookup_snoc_cases; [|lia].
    destruct Hmin as (i & z & zs & _ & Hi & -> & Hle); [by apply live_queues_pos in Hj; lia|].
    specialize (Hle j y ys Hj). lia.
  - destruct Hmin as (i & z & zs & -> & Hi & -> & Hle); [intros E; specialize (Hz E); lia|].
    exists i, z, zs. split_and!; try done; [by apply lookup_app_l_Some|].
    intros j y ys [Hj|[_ [= -> ->]]]%lookup_snoc_cases; [by eapply Hle|done].
Qed.

Lemma scan_queues_ok parallel c yss : ∀ pre m,
  holds c (pre ++ yss) → Forall mergeable yss → scan_inv pre m →
  ∃ m', scan_queues parallel (length yss) (Zlen pre) c m = Ok (c, m') ∧ scan_inv (pre ++ yss) m'.
Proof.
  induction yss as [|xs yss IH]; intros pre m Hh Hm Hs; cbn [length scan_queues].
  { exists m. by rewrite app_nil_r. }
  inversion Hm as [|? ? Hx Hm']. subst.
  assert ((pre ++ xs :: yss) !! length pre = Some xs) as Hi by by apply list_lookup_middle.
  destruct (holds_aget c _ _ _ Hh Hi) as (v & Hv & R). unfold Zlen at 1. rewrite Hv. cbn [obind].
  rewrite (q_get_size_spec v xs R). cbn [obind].
  assert (∀ m1, scan_inv (pre ++ [xs]) m1 → ∃ m',
    scan_queues parallel (length yss) (Zlen pre + 1) c m1 = Ok (c, m') ∧
    scan_inv (pre ++ xs :: yss) m') as Hgo.
  { intros m1 Hm1. rewrite cons_middle, app_assoc in Hh. rewrite (cons_middle xs), app_assoc.
    replace (Zlen pre + 1) with (Zlen (pre ++ [xs])) by (rewrite Zlen_app; reflexivity). by apply IH. }
  destruct Hs as ((E1 & E2 & E3 & E4 & E5) & E6). destruct xs as [|x xs].
  - change (Zlen (@nil libtrace_result_t) =? 0) with true. cbn [negb obind]. apply Hgo.
    unfold scan_inv, minv. cbn. rewrite live_queues_app, E1, E2, E3, !fmap_app, forallb_app.
    change (live_queues [[]]) with 0. rewrite !Z.add_0_r, andb_false_r.
    split_and!; try done. intros Hl. by apply is_min_snoc_nil, E5.
  - rewrite Zlen_cons. pose proof (Zlen_nonneg xs). rewrite (proj2 (Z.eqb_neq _ 0)) by lia. cbn [negb].
    destruct Hx as (Hx & _). inversion Hx as [|? ? [Ht Hk] _]. subst. unfold Zlen at 1.
    rewrite (peek_queue_null parallel c _ _ x xs Hh Hi Ht). cbn [obind].
    assert (((Zlen pre =? 0) || (r_key x <? m_min_key m)) = (r_key x <? m_min_key m)) as ->.
    { destruct (Z.eqb_spec (Zlen pre) 0) as [Hz|]; [|done]. destruct pre; [|rewrite Zlen_cons in Hz;
        pose proof (Zlen_nonneg pre); lia]. destruct (E6 eq_refl) as [-> _]. simpl. symmetry.
      apply Z.ltb_lt. lia. }
    apply Hgo. unfold scan_inv, minv. cbn [m_live m_key m_live_count m_allactive m_min_key m_min_queue].
    rewrite live_queues_app, E1, E2, E3, E4, !fmap_app, forallb_app.
    change (live_queues [x :: xs]) with 1. change (forallb id (nonempty <$> [x :: xs])) with true.
    rewrite andb_true_r. pose proof (live_queues_nonneg pre). split_and!; try done; [|lia..].
    intros _. apply is_min_snoc_cons; [done|]. intros E. destruct (E6 E) as [-> _]. lia.
Qed.

(** What one run of the merge achieves: [out] has been sent and [yss] is left.
    Everything is sent once or is left, the results are sent in the order of
    their keys, none before a smaller one that is left, and those of one queue
    in the order they were published. *)
Record merged xss (out : list libtrace_result_t) (yss : list (list libtrace_result_t)) : Prop := {
  merged_perm : concat xss ≡ₚ out ++ concat yss;
  merged_sorted : StronglySorted key_le out;
  merged_left : ∀ a b, a ∈ out → b ∈ concat yss → key_le a b;
  merged_queues :
    Forall2 (λ xs ys, ∃ zs, xs = zs ++ ys ∧ zs `sublist_of` out) xss yss;
}.

Lemma merged_refl xss : merged xss [] xss.
Proof.
  split; [done|constructor|set_solver|]. apply Forall_Forall2_diag, Forall_true.
  intros xs. by exists [].
Qed.

Lemma merged_step xss i x xs out yss :
  Forall mergeable xss → xss !! i = Some (x :: xs) →
  (∀ j y ys, xss !! j = Some (y :: ys) → r_key x ≤ r_key y) →
  merged (<[i := xs]> xss) out yss → merged xss (x :: out) yss.
Proof.
  intros Hm Hi Hmin [P S L F].
  assert (∀ y, y ∈ out ++ concat yss → key_le x y) as Hle.
  { intros y Hy. rewrite <- P in Hy.
    assert (y ∈ concat xss) as Hy' by (rewrite (concat_insert_tail _ _ _ _ Hi); by right).
    destruct (in_concat_heads xss y Hm Hy') as (j & z & zs & Hj & Hzy).
    specialize (Hmin j z zs Hj). unfold key_le in *. lia. }
  split.
  - by rewrite (concat_insert_tail _ _ _ _ Hi), P.
  - constructor; [done|]. apply Forall_forall. intros y Hy. apply Hle. set_solver.
  - intros a b [->|Ha]%elem_of_cons Hb; [apply Hle; set_solver|by apply L].
  - pose proof (lookup_lt_Some _ _ _ Hi) as Hlt. apply Forall2_same_length_lookup_2.
    { rewrite <- (Forall2_length _ _ _ F). by rewrite length_insert. }
    intros j zs ys Hj Hys. destruct (decide (j = i)) as [->|Hne].
    + rewrite Hi in Hj. injection Hj as <-.
      destruct (Forall2_lookup_lr _ _ _ _ _ _ F (list_lookup_insert_eq _ _ _ Hlt) Hys) as (ws & -> & Hw).
      exists (x :: ws). split; [done|by constructor].
    + rewrite <- (list_lookup_insert_ne xss i j xs) in Hj by done.
      destruct (Forall2_lookup_lr _ _ _ _ _ _ F Hj Hys) as (ws & -> & Hw).
      exists ws. split; [done|by constructor].
Qed.

(** Nothing has been sent that is beyond the last result of some queue. *)
Definition within_lasts xss (out : list libtrace_result_t) : Prop :=
  ∀ s xs, s ∈ out → xs ∈ xss → ∃ l, last xs = Some l ∧ key_le s l.

Lemma mergeable_last x xs : mergeable (x :: xs) → ∃ l, last (x :: xs) = Some l ∧ key_le x l.
Proof.
  intros Hm%mergeable_head_least. destruct (last (x :: xs)) as [l|] eqn:El; [|by apply last_None in El].
  exists l. split; [done|]. apply (proj1 (Forall_forall _ _) Hm). by eapply last_Some_elem_of.
Qed.

(** Sending the least head while every queue has something. *)
Lemma within_lasts_step xss i x xs out :
  Forall mergeable xss → xss !! i = Some (x :: xs) →
  (∀ j y ys, xss !! j = Some (y :: ys) → r_key x ≤ r_key y) →
  forallb id (nonempty <$> xss) = true →
  within_lasts (<[i := xs]> xss) out → within_lasts xss (x :: out).
Proof.
  intros Hm Hi Hle Ha Hw s ws Hs Hws. apply list_elem_of_lookup in Hws as [j Hj].
  apply elem_of_cons in Hs as [->|Hs].
  - destruct ws as [|y ys].
    { exfalso. rewrite <- (list_insert_id _ _ _ Hj) in Ha.
      rewrite list_fmap_insert, forallb_insert_false in Ha; [done|].
      rewrite length_fmap. by eapply lookup_lt_Some. }
    destruct (mergeable_last y ys) as (l & El & Hyl); [by apply (proj1 (Forall_lookup _ _) Hm j)|].
    exists l. split; [done|]. specialize (Hle j y ys Hj). unfold key_le in *. lia.
  - pose proof (lookup_lt_Some _ _ _ Hi) as Hlt. destruct (decide (j = i)) as [->|Hne].
    + rewrite Hi in Hj. injection Hj as <-.
      destruct (Hw s xs Hs) as (l & El & Hl); [by eapply list_elem_of_lookup_2, list_lookup_insert_eq|].
      exists l. split; [|done]. rewrite last_cons, El. done.
    + apply (Hw s ws Hs). rewrite <- (list_lookup_insert_ne xss i j xs) in Hj by done.
      by eapply list_elem_of_lookup_2.
Qed.

Lemma mergeable_insert xss i x xs :
  Forall mergeable xss → xss !! i = Some (x :: xs) → Forall mergeable (<[i := xs]> xss).
Proof.
  intros Hm Hi. apply Forall_insert; [done|].
  by apply mergeable_tail with x, (proj1 (Forall_lookup _ _) Hm _ _ Hi).
Qed.

(** One array cell of the local variables follows its queue. *)
Lemma aset_fmap {B} (f : list libtrace_result_t → B) xss i zs xs b :
  xss !! i = Some zs → b = f xs → aset (f <$> xss) (Z.of_nat i) b = Ok (f <$> <[i := xs]> xss).
Proof.
  intros Hi ->. apply lookup_lt_Some in Hi. rewrite aset_ok, Nat2Z.id, list_fmap_insert; [done|].
  unfold Zlen. rewrite length_fmap. lia.
Qed.

Lemma minv_same_live xss i x xs y ys m mk mq :
  xss !! i = Some (x :: xs) → minv xss m → is_min (<[i := y :: ys]> xss) mk mq →
  minv (<[i := y :: ys]> xss)
    {| m_live_count := m_live_count m; m_allactive := m_allactive m; m_live := m_live m;
       m_key := head_key <$> <[i := y :: ys]> xss; m_min_key := mk; m_min_queue := mq |}.
Proof.
  intros Hi (E1 & E2 & E3 & E4 & _) Hmin.
  assert (nonempty <$> <[i := y :: ys]> xss = nonempty <$> xss) as El.
  { rewrite list_fmap_insert. apply list_insert_id. by rewrite list_lookup_fmap, Hi. }
  unfold minv. cbn [m_live m_key m_live_count m_allactive m_min_key m_min_queue].
  rewrite El, (live_queues_insert _ _ _ _ _ Hi), E3. cbn [nonempty]. split_and!; try done. lia.
Qed.

(** A round of the second loop after the head [x] of queue [i] was sent. *)
Lemma merge_loop_round fuel parallel final c xss i x xs m :
  holds c xss → Forall mergeable xss → minv xss m → xss !! i = Some (x :: xs) →
  m_min_queue m = Z.of_nat i → m_min_key m = r_key x →
  (∀ j y ys, xss !! j = Some (y :: ys) → r_key x ≤ r_key y) →
  (m_allactive m || (negb (m_live_count m =? 0) && final)) = true →
  ∃ c' m', merge_loop (S fuel) parallel final c m = merge_loop fuel parallel final (send_message c' x) m' ∧
    same_but_queues c c' ∧ holds c' (<[i := xs]> xss) ∧ minv (<[i := xs]> xss) m'.
Proof.
  intros Hh Hm Hinv Hi Hq Hk Hle Hgo. cbn [merge_loop]. rewrite Hgo, Hq, Hk.
  destruct (pop_queue_ok c xss i x xs Hh Hi) as (c' & -> & Hh' & Hs). cbn [obind].
  pose proof (lookup_lt_Some _ _ _ Hi) as Hlt.
  assert (<[i := xs]> xss !! i = Some xs) as Hi' by by apply list_lookup_insert_eq.
  destruct (holds_aget (send_message c' x) _ i xs Hh' Hi') as (v & -> & R). cbn [obind].
  rewrite (q_get_size_spec v xs R). cbn [obind].
  pose proof (proj1 (Forall_lookup _ _) Hm _ _ Hi) as Hmx.
  assert (Forall (λ r, is_tick r = false) xs) as Ht.
  { destruct (mergeable_tail _ _ Hmx) as (Ht & _). eapply Forall_impl; [exact Ht|]. by intros ? []. }
  rewrite (next_message_ok _ _ (send_message c' x) _ i xs Hh' Hi' Ht). cbn [obind].
  pose proof Hinv as (E1 & E2 & E3 & E4 & _).
  pose proof (mergeable_insert _ _ _ _ Hm Hi) as Hm'. destruct xs as [|y ys]; cbn [head_key].
  - cbn [negb Z.eqb]. rewrite E1, E2, (aset_fmap nonempty _ _ _ [] false Hi eq_refl). cbn [obind].
    rewrite (aset_fmap head_key _ _ _ [] 0 Hi eq_refl). cbn [obind].
    destruct (find_smallest _ _ _ _ _) as [mk mq] eqn:Hf. exists c'. eexists. split; [done|].
    split_and!; [done..|]. unfold minv. cbn [m_live m_key m_live_count m_allactive m_min_key m_min_queue].
    rewrite (live_queues_insert _ _ _ _ _ Hi), E3. cbn [nonempty].
    rewrite (list_fmap_insert nonempty), forallb_insert_false by by rewrite length_fmap.
    split_and!; [done..|].
    intros Hne. eapply find_smallest_fresh; [done|exact Hf|].
    by rewrite (live_queues_insert _ _ _ _ _ Hi).
  - assert (0 < r_key y) as Hpos by (destruct Hmx as (_ & _ & Hp); by inversion Hp).
    rewrite (proj2 (Z.eqb_neq _ 0)) by lia. cbn [negb].
    rewrite E2, (aset_fmap head_key _ _ _ (y :: ys) (r_key y) Hi eq_refl). cbn [obind].
    assert (nonempty <$> xss = nonempty <$> <[i := y :: ys]> xss) as El.
    { rewrite list_fmap_insert. symmetry. apply list_insert_id. by rewrite list_lookup_fmap, Hi. }
    destruct (Z.leb_spec (r_key y) (r_key x)) as [Hyx|Hyx].
    + exists c'. eexists. split; [done|]. split_and!; [done..|].
      apply (minv_same_live _ _ _ _ _ _ m _ _ Hi); [done|]. exists i, y, ys. split_and!; try done.
      intros j z zs Hj. destruct (decide (j = i)) as [->|Hne].
      * rewrite Hi' in Hj. injection Hj as -> ->. lia.
      * rewrite list_lookup_insert_ne in Hj by done. specialize (Hle j z zs Hj). lia.
    + rewrite E1, El. destruct (find_smallest _ _ _ _ _) as [mk mq] eqn:Hf. exists c'. eexists.
      split; [done|]. split_and!; [done..|]. rewrite <- El, <- E1.
      apply (minv_same_live _ _ _ _ _ _ m _ _ Hi); [done|].
      by eapply find_smallest_from.
Qed.

Lemma merge_loop_ok fuel parallel final : ∀ c xss m,
  holds c xss → Forall mergeable xss → xss ≠ [] → minv xss m → (length (concat xss) < fuel)%nat →
  ∃ c' out yss, merge_loop fuel parallel final c m = Ok c' ∧
    holds c' yss ∧ merged xss out yss ∧ c_sent c' = c_sent c ++ out ∧
    (if final then Forall (λ xs, xs = []) yss else [] ∈ yss ∧ within_lasts xss out).
Proof.
  induction fuel as [|fuel IH]; intros c xss m Hh Hm Hne Hinv Hf; [lia|].
  pose proof Hinv as (E1 & E2 & E3 & E4 & E5).
  destruct (m_allactive m || (negb (m_live_count m =? 0) && final)) eqn:Hgo.
  - assert (live_queues xss ≠ 0) as Hl.
    { apply orb_prop in Hgo as [Ha|Hb]; [apply allactive_live; [done|by rewrite <- E4]|].
      apply andb_prop in Hb as [Hb _]. apply negb_true_iff, Z.eqb_neq in Hb. lia. }
    destruct (E5 Hl) as (i & x & xs & Hq & Hi & Hk & Hle).
    destruct (merge_loop_round fuel parallel final c xss i x xs m) as (c1 & m1 & -> & Hs & Hh1 & Hinv1); try done.
    destruct (IH (send_message c1 x) (<[i := xs]> xss) m1) as (c' & out & yss & -> & Hh' & Hmg & Hsent & Hfin).
    + done.
    + by eapply mergeable_insert.
    + intros E. apply (f_equal length) in E. rewrite length_insert in E. by destruct xss.
    + done.
    + rewrite (Permutation_length (concat_insert_tail _ _ _ _ Hi)) in Hf. simpl in Hf. lia.
    + exists c', (x :: out), yss. split_and!; try done; [by eapply merged_step| |].
      { rewrite Hsent. cbn [send_message c_sent]. rewrite Hs, <- app_assoc. done. }
      destruct final; [done|]. rewrite andb_false_r, orb_false_r, E4 in Hgo. split; [apply Hfin|].
      eapply within_lasts_step; [done..|apply Hfin].
  - cbn [merge_loop]. rewrite Hgo. exists c, [], xss.
    split_and!; [done..|apply merged_refl|by rewrite app_nil_r|].
    apply orb_false_iff in Hgo as [Ha Hb]. destruct final.
    + rewrite andb_true_r in Hb. apply negb_false_iff, Z.eqb_eq in Hb. apply live_queues_zero. lia.
    + split; [apply inactive_empty; by rewrite <- E4|]. intros s xs Hs. set_solver.
Qed.

Lemma read_internal_ok parallel final c xss :
  holds c xss → Forall mergeable xss → xss ≠ [] →
  ∃ c' out yss, read_internal parallel final c = Ok c' ∧
    holds c' yss ∧ merged xss out yss ∧ c_sent c' = c_sent c ++ out ∧
    (if final then Forall (λ xs, xs = []) yss else [] ∈ yss ∧ within_lasts xss out).
Proof.
  intros Hh Hm Hne. unfold read_internal. rewrite (total_size_ok c xss Hh). cbn [obind].
  rewrite (holds_length c xss Hh).
  edestruct (scan_queues_ok parallel c xss []) as (m & Hrun & Hinv); [done|done| |].
  2: { change (Zlen (@nil (list libtrace_result_t))) with 0 in Hrun. rewrite Hrun. cbn [obind].
       apply merge_loop_ok; [done..|apply Hinv|unfold Zlen; lia]. }
  split; [|done]. split_and!; done.
Qed.

(** ** Publishing and reading, in any order *)
Lemma publish_ok c xss t xs r thold :
  holds c xss → xss !! t = Some xs → Zlen xs < SIZE_MAX →
  ∃ c', publish c (Z.of_nat t) r thold = Ok (c', thold <=? Zlen xs + 1) ∧
    holds c' (<[t := xs ++ [r]]> xss) ∧ same_but_queues c c'.
Proof.
  intros Hh Ht Hlt. unfold publish. destruct (holds_aget c xss t xs Hh Ht) as (v & -> & R). cbn [obind].
  destruct (q_push_back_spec v xs r R Hlt) as (v' & -> & R'). cbn [obind].
  destruct (holds_aset c xss t v' (xs ++ [r]) Hh) as (qs & -> & Hh'); [by eapply lookup_lt_Some|done|].
  cbn [obind]. rewrite (q_get_size_spec v' _ R'). cbn [obind]. rewrite Zlen_app.
  eexists. split; [done|]. by split.
Qed.

Lemma StronglySorted_app_iff {A} (R : A → A → Prop) l k :
  StronglySorted R (l ++ k) ↔
    StronglySorted R l ∧ StronglySorted R k ∧ ∀ a b, a ∈ l → b ∈ k → R a b.
Proof.
  induction l as [|x l IH]; simpl.
  - split; [intros Hs; split_and!; [constructor|done|set_solver]|by intros (_ & ? & _)].
  - split.
    + intros Hs. inversion Hs as [|? ? Hs' HF]. subst. apply IH in Hs' as (F1 & F2 & F3).
      apply Forall_app in HF as [G1 G2]. split_and!; [by constructor|done|].
      intros a b [->|Ha]%elem_of_cons Hb; [by apply (proj1 (Forall_forall _ _) G2)|by apply F3].
    + intros (Hs & F2 & F3). inversion Hs as [|? ? Hs' HF]. subst. constructor.
      * apply IH. split_and!; [done..|]. intros a b Ha Hb. apply F3; [by right|done].
      * apply Forall_app. split; [done|]. apply Forall_forall. intros b Hb. apply F3; [by left|done].
Qed.

Lemma mergeable_prefix xs ys : mergeable (xs ++ ys) → mergeable xs.
Proof.
  intros (F & S & P). apply Forall_app in F as [F _]. apply StronglySorted_app_iff in S as (S & _ & _).
  split_and!; try done. destruct xs as [|x xs]; [done|]. by apply Forall_app in P as [P _].
Qed.

Lemma mergeable_suffix xs ys : mergeable (xs ++ ys) → mergeable ys.
Proof. induction xs as [|x xs IH]; simpl; [done|]. by intros ?%mergeable_tail%IH. Qed.

(** Runs one after the other. *)
Lemma merged_trans hist sent xss out yss :
  merged hist sent xss → merged xss out yss → merged hist (sent ++ out) yss.
Proof.
  intros [P1 S1 L1 F1] [P2 S2 L2 F2].
  assert (∀ b, b ∈ out ++ concat yss → b ∈ concat xss) as Hin by (intros b Hb; by rewrite P2).
  split.
  - by rewrite P1, P2, app_assoc.
  - apply StronglySorted_app_iff. split_and!; [done..|]. intros a b Ha Hb. apply L1; [done|].
    apply Hin. set_solver.
  - intros a b [Ha|Ha]%elem_of_app Hb; [|by apply L2]. apply L1; [done|]. apply Hin. set_solver.
  - apply Forall2_same_length_lookup_2; [by rewrite (Forall2_length _ _ _ F1), (Forall2_length _ _ _ F2)|].
    intros i hs ys Hhs Hys. destruct (Forall2_lookup_l _ _ _ _ _ F1 Hhs) as (xs & Hxs & zs & -> & Hz).
    destruct (Forall2_lookup_lr _ _ _ _ _ _ F2 Hxs Hys) as (ws & -> & Hw).
    exists (zs ++ ws). rewrite app_assoc. split; [done|by apply sublist_app].
Qed.

(** [hist] is what each thread has published so far. *)
Definition combiner_inv c (hist : list (list libtrace_result_t)) : Prop :=
  ∃ xss, holds c xss ∧ merged hist (c_sent c) xss ∧ within_lasts hist (c_sent c).

Lemma merged_mergeable hist sent xss :
  Forall mergeable hist → merged hist sent xss → Forall mergeable xss.
Proof.
  intros Hm [_ _ _ F]. apply Forall_lookup. intros i ys Hi.
  destruct (Forall2_lookup_r _ _ _ _ _ F Hi) as (hs & Hhs & zs & -> & _).
  eapply mergeable_suffix, (proj1 (Forall_lookup _ _) Hm), Hhs.
Qed.

Lemma within_lasts_history hist sent xss out :
  merged hist sent xss → within_lasts xss out → within_lasts hist out.
Proof.
  intros [_ _ _ F] Hw s hs Hs Hhs. apply list_elem_of_lookup in Hhs as [i Hi].
  destruct (Forall2_lookup_l _ _ _ _ _ F Hi) as (xs & Hxs & zs & -> & _).
  destruct (Hw s xs Hs) as (l & El & Hl); [by eapply list_elem_of_lookup_2|].
  exists l. split; [|done]. by rewrite last_app, El.
Qed.

Lemma ordered_read_inv parallel c hist :
  combiner_inv c hist → Forall mergeable hist → hist ≠ [] →
  ∃ c', ordered_read parallel c = Ok c' ∧ combiner_inv c' hist ∧ c_sent c `prefix_of` c_sent c'.
Proof.
  intros (xss & Hh & Hmg & Hw) Hm Hne.
  destruct (read_internal_ok parallel false c xss) as (c' & out & yss & Hrun & Hh' & Hmg' & Hsent & _ & Hw').
  - done.
  - by eapply merged_mergeable.
  - intros ->. apply Hne. destruct Hmg as [_ _ _ F]. by inversion F.
  - exists c'. split; [done|]. split; [|rewrite Hsent; by apply prefix_app_r].
    exists yss. rewrite Hsent. split_and!; [done|by eapply merged_trans|].
    intros s hs [Hs|Hs]%elem_of_app Hhs; [by apply Hw|].
    by eapply (within_lasts_history hist (c_sent c) xss out).
Qed.

Lemma concat_insert_snoc xss : ∀ i xs r,
  xss !! i = Some xs → concat (<[i := xs ++ [r]]> xss) ≡ₚ r :: concat xss.
Proof.
  induction xss as [|zs xss IH]; intros [|i] xs r Hi; try done; simpl in *.
  - injection Hi as ->. rewrite <- app_assoc. symmetry. apply Permutation_middle.
  - rewrite (IH i xs r Hi). symmetry. apply Permutation_middle.
Qed.

Lemma mergeable_snoc_last hs r l : mergeable (hs ++ [r]) → last hs = Some l → key_le l r.
Proof.
  intros (_ & S & _) Hl. apply StronglySorted_app_iff in S as (_ & _ & Hle).
  apply Hle; [by eapply last_Some_elem_of|set_solver].
Qed.

Lemma length_concat_lookup xss : ∀ i xs, xss !! i = Some xs → (length xs ≤ length (concat xss))%nat.
Proof.
  induction xss as [|ys xss IH]; intros [|i] xs Hi; try done; simpl in *; rewrite length_app.
  - injection Hi as ->. lia.
  - specialize (IH i xs Hi). lia.
Qed.

Lemma publish_inv c hist t hs r thold :
  combiner_inv c hist → hist !! t = Some hs → mergeable (hs ++ [r]) → Zlen (concat hist) < SIZE_MAX →
  ∃ c' posted, publish c (Z.of_nat t) r thold = Ok (c', posted) ∧
    combiner_inv c' (<[t := hs ++ [r]]> hist) ∧ c_sent c' = c_sent c.
Proof.
  intros (xss & Hh & [P S L F] & Hw) Ht Hm Hlt.
  destruct (Forall2_lookup_l _ _ _ _ _ F Ht) as (xs & Hxs & zs & -> & Hz).
  destruct (publish_ok c xss t xs r thold Hh Hxs) as (c' & Hrun & Hh' & Hs).
  { pose proof (length_concat_lookup xss t xs Hxs).
    apply Permutation_length in P. rewrite length_app in P. unfold Zlen in *. lia. }
  exists c', (thold <=? Zlen xs + 1). split; [done|].
  assert (c_sent c' = c_sent c) as Es by by rewrite Hs. split; [|done].
  assert (∀ s, s ∈ c_sent c → key_le s r) as Hr.
  { intros s Hs'. destruct (Hw s (zs ++ xs) Hs') as (l & El & Hl); [by eapply list_elem_of_lookup_2|].
    pose proof (mergeable_snoc_last _ _ _ Hm El). unfold key_le in *. lia. }
  exists (<[t := xs ++ [r]]> xss). rewrite Es. split_and!; [done|split|].
  - rewrite (concat_insert_snoc _ _ _ r Ht), (concat_insert_snoc _ _ _ r Hxs), P. apply Permutation_middle.
  - done.
  - intros a b Ha Hb. rewrite (concat_insert_snoc _ _ _ r Hxs) in Hb.
    apply elem_of_cons in Hb as [->|Hb]; [by apply Hr|by apply L].
  - apply Forall2_insert; [done|]. exists zs. by rewrite app_assoc.
  - intros s ws Hs' Hws. apply list_elem_of_lookup in Hws as [j Hj].
    apply list_lookup_insert_Some in Hj as [(-> & <- & _)|[_ Hj]].
    + exists r. split; [apply last_snoc|by apply Hr].
    + apply (Hw s ws Hs'). by eapply list_elem_of_lookup_2.
Qed.

Inductive action :=
| Publish (t : nat) (r : libtrace_result_t)
| Read.

Definition step (parallel : bool) (thold : Z) c (a : action) : outcome (libtrace_combine Q) :=
  match a with
  | Publish t r => let! ' (c, _) := publish c (Z.of_nat t) r thold in Ok c
  | Read => ordered_read parallel c
  end.

Fixpoint run (parallel : bool) (thold : Z) c (acts : list action) : outcome (libtrace_combine Q) :=
  match acts with
  | [] => Ok c
  | a :: acts' => let! c := step parallel thold c a in run parallel thold c acts'
  end.

(** What each thread has published, after [hist]. *)
Fixpoint published (hist : list (list libtrace_result_t)) (acts : list action)
  : list (list libtrace_result_t) :=
  match acts with
  | [] => hist
  | Publish t r :: acts' => published (alter (λ xs, xs ++ [r]) t hist) acts'
  | Read :: acts' => published hist acts'
  end.

Definition valid_thread (n : nat) (a : action) : Prop :=
  match a with Publish t _ => (t < n)%nat | Read => True end.

Lemma published_prefix acts : ∀ hist,
  Forall2 prefix hist (published hist acts).
Proof.
  induction acts as [|[t r|] acts IH]; intros hist; cbn [published].
  - by apply Forall_Forall2_diag, Forall_true.
  - specialize (IH (alter (λ xs, xs ++ [r]) t hist)). apply Forall2_same_length_lookup_2.
    { by rewrite <- (Forall2_length _ _ _ IH), length_alter. }
    intros j xs ys Hj Hys. destruct (Forall2_lookup_r _ _ _ _ _ IH Hys) as (ws & Hws & Hp).
    trans ws; [|done]. destruct (decide (j = t)) as [->|Hne].
    + rewrite list_lookup_alter_eq, Hj in Hws. injection Hws as <-. by apply prefix_app_r.
    + rewrite list_lookup_alter_ne, Hj in Hws by done. by injection Hws as <-.
  - apply IH.
Qed.

Lemma mergeable_published hist acts : Forall mergeable (published hist acts) → Forall mergeable hist.
Proof.
  intros Hm. apply Forall_lookup. intros i xs Hi.
  destruct (Forall2_lookup_l _ _ _ _ _ (published_prefix acts hist) Hi) as (ys & Hys & zs & ->).
  eapply mergeable_prefix, (proj1 (Forall_lookup _ _) Hm), Hys.
Qed.

Lemma run_inv parallel thold acts : ∀ c hist,
  combiner_inv c hist → hist ≠ [] → Forall (valid_thread (length hist)) acts →
  Forall mergeable (published hist acts) → Zlen (concat hist) + Zlen acts ≤ SIZE_MAX →
  ∃ c', run parallel thold c acts = Ok c' ∧ combiner_inv c' (published hist acts) ∧
    c_sent c `prefix_of` c_sent c'.
Proof.
  induction acts as [|a acts IH]; intros c hist Hinv Hne Hv Hm Hlen; cbn [run].
  { by exists c. }
  inversion Hv as [|? ? Ha Hv']. subst. rewrite Zlen_cons in Hlen. pose proof (Zlen_nonneg acts).
  destruct a as [t r|]; cbn [step published valid_thread] in *.
  - destruct (lookup_lt_is_Some_2 _ _ Ha) as [hs Ht].
    assert (alter (λ xs, xs ++ [r]) t hist = <[t := hs ++ [r]]> hist) as Ea.
    { rewrite list_insert_alter. apply list_alter_ext; [|done]. intros xs Hx. by simplify_eq. }
    rewrite Ea in *. pose proof (mergeable_published _ _ Hm) as Hm1.
    destruct (publish_inv c hist t hs r thold) as (c1 & posted & -> & Hinv1 & Es); try done; [|lia|].
    { apply (proj1 (Forall_lookup _ _) Hm1 t). by apply list_lookup_insert_eq. }
    cbn [obind]. rewrite <- Es. apply IH; [done| |by rewrite length_insert|done|].
    + intros E. apply (f_equal length) in E. rewrite length_insert in E. by destruct hist.
    + pose proof (Permutation_length (concat_insert_snoc _ _ _ r Ht)) as El. simpl in El.
      unfold Zlen in *. lia.
  - destruct (ordered_read_inv parallel c hist) as (c1 & -> & Hinv1 & Hp); [done| |done|].
    { by eapply mergeable_published. }
    cbn [obind]. destruct (IH c1 hist) as (c' & Hrun & Hinv' & Hp'); [done..|lia|].
    exists c'. split_and!; [done..|]. by trans (c_sent c1).
Qed.

Lemma live_queues_all_empty yss : Forall (λ xs, xs = []) yss → live_queues yss = 0.
Proof. induction 1 as [|xs yss -> _ IH]; [done|]. simpl. lia. Qed.

Lemma concat_all_empty yss : Forall (λ xs, xs = []) yss → concat yss = [].
Proof. by induction 1 as [|xs yss -> _ IH]. Qed.

Lemma destroy_empty c yss :
  holds c yss → Forall (λ xs, xs = []) yss → combiner_destroy c = Ok tt.
Proof.
  intros Hh Hy. unfold combiner_destroy. rewrite (count_empty_ok c yss Hh). cbn [obind].
  rewrite (live_queues_all_empty yss Hy). unfold Zlen. rewrite (holds_length c yss Hh), Z.sub_0_r.
  by rewrite Z.eqb_refl.
Qed.

Lemma ordered_read_final_ok fuel parallel c xss :
  holds c xss → Forall mergeable xss → xss ≠ [] →
  ∃ c' out yss, ordered_read_final (S fuel) parallel c = Ok c' ∧ holds c' yss ∧
    merged xss out yss ∧ c_sent c' = c_sent c ++ out ∧ Forall (λ xs, xs = []) yss.
Proof.
  intros Hh Hm Hne. cbn [ordered_read_final].
  destruct (read_internal_ok parallel true c xss Hh Hm Hne) as (c' & out & yss & -> & Hh' & Hmg & Hs & Hy).
  cbn [obind]. rewrite (count_empty_ok c' yss Hh'), (live_queues_all_empty yss Hy). cbn [obind].
  unfold Zlen. rewrite (holds_length c' yss Hh'), Z.sub_0_r, Z.ltb_irrefl.
  by exists c', out, yss.
Qed.

(** A read always returns; it sends results in the order of their keys, none
    before a smaller one that is still waiting, keeps those of one thread in the
    order they were published, loses and invents none, and it stops only when
    some thread has nothing waiting. *)
Theorem ordered_read_merges parallel c xss :
  holds c xss → Forall mergeable xss → xss ≠ [] →
  ∃ c' out yss, ordered_read parallel c = Ok c' ∧ holds c' yss ∧ merged xss out yss ∧
    c_sent c' = c_sent c ++ out ∧ [] ∈ yss.
Proof.
  intros Hh Hm Hne.
  destruct (read_internal_ok parallel false c xss Hh Hm Hne) as (c' & out & yss & F1 & F2 & F3 & F4 & F5 & _).
  by exists c', out, yss.
Qed.

(** C4: The contract of the ordered combiner.  Let every thread publish results with
    non-decreasing keys, those after its first greater than 0 and all below
    UINT64_MAX, and let there be no ticks ([count_tick_lost]: a tick may be lost), in
    any interleaving with reads by the reporter: every call succeeds, and after the final read, which ends after one round, the
    reporter has been sent exactly the published results, sorted by key across
    all threads and all reads, those of one thread in the order it published
    them; what earlier reads sent is the beginning of that sequence, and the
    queues are empty, so that the combiner can be destroyed. *)
Theorem ordered_combiner_correct parallel thold acts n c :
  holds c (replicate n []) → c_sent c = [] → (0 < n)%nat → Forall (valid_thread n) acts →
  Forall mergeable (published (replicate n []) acts) → Zlen acts ≤ SIZE_MAX →
  ∃ c1 c2, run parallel thold c acts = Ok c1 ∧ ordered_read_final 1 parallel c1 = Ok c2 ∧
    c_sent c1 `prefix_of` c_sent c2 ∧ StronglySorted key_le (c_sent c2) ∧
    c_sent c2 ≡ₚ concat (published (replicate n []) acts) ∧
    Forall (λ hs, hs `sublist_of` c_sent c2) (published (replicate n []) acts) ∧
    combiner_destroy c2 = Ok tt.
Proof.
  intros Hh Hs Hn Hv Hm Hlen.
  assert (concat (replicate n ([] : list libtrace_result_t)) = []) as Ec.
  { apply concat_all_empty, Forall_replicate. done. }
  destruct (run_inv parallel thold acts c (replicate n [])) as (c1 & Hrun & (xss & Hh1 & Hmg & Hw) & _).
  - exists (replicate n []). rewrite Hs. split_and!; [done|apply merged_refl|intros s xs; set_solver].
  - by destruct n; [lia|].
  - by rewrite length_replicate.
  - done.
  - rewrite Ec. change (Zlen (@nil libtrace_result_t)) with 0. lia.
  - destruct (ordered_read_final_ok 0 parallel c1 xss) as (c2 & out & yss & Hfin & Hh2 & Hmg2 & Hs2 & Hy).
    + done.
    + by eapply merged_mergeable.
    + intros ->. destruct Hmg as [_ _ _ F]. apply Forall2_length in F. simpl in F.
      pose proof (Forall2_length _ _ _ (published_prefix acts (replicate n []))) as El.
      rewrite length_replicate in El. lia.
    + destruct (merged_trans _ _ _ _ _ Hmg Hmg2) as [P S _ F]. rewrite <- Hs2 in *.
      rewrite (concat_all_empty _ Hy), app_nil_r in P.
      exists c1, c2. split_and!; try done; [rewrite Hs2; by apply prefix_app_r| |by eapply destroy_empty].
      apply Forall_lookup. intros i hs Hi.
      destruct (Forall2_lookup_l _ _ _ _ _ F Hi) as (ys & Hys & zs & -> & Hz).
      rewrite (proj1 (Forall_lookup _ _) Hy _ _ Hys), app_nil_r. done.
Qed.
End ordered.

(** ** The combiners over the double-ended queue *)
Definition sizeof_result : Z := 24.

(** [init_combiner], the same in both combiners, with the initial values of
    [combiner_ordered] and [combiner_unordered]. *)
Definition init_combiner (perpkt_threads : Z)
  : outcome (libtrace_combine (deque libtrace_result_t)) :=
  let! _ := oassert (0 <? perpkt_threads) in
  Ok {| c_queues := replicate (Z.to_nat perpkt_threads) (libtrace_deque_init sizeof_result);
        c_last_count_tick := 0; c_last_ts_tick := 0; c_sent := [] |}.

Lemma init_combiner_holds n c :
  init_combiner n = Ok c → holds c (replicate (Z.to_nat n) []) ∧ c_sent c = [].
Proof.
  unfold init_combiner. destruct (0 <? n); [|done]. intros [= <-]. split; [|done].
  unfold holds. apply Forall2_replicate, deque_init_rep.
Qed.

Definition pkt (k v : Z) : libtrace_result_t := {| r_key := k; r_value := v; r_type := RESULT_PACKET |}.

(** Two threads, packets 0 to 4: the first read has to stop at packet 2, as
    thread 1 may still publish packet 1. *)
Definition two_threads : list action :=
  [Publish 0 (pkt 0 10); Publish 0 (pkt 2 12); Read; Publish 1 (pkt 1 11); Read;
   Publish 1 (pkt 3 13); Publish 0 (pkt 4 14)].

Definition two_threads_start : libtrace_combine (deque libtrace_result_t) :=
  {| c_queues := [libtrace_deque_init sizeof_result; libtrace_deque_init sizeof_result];
     c_last_count_tick := 0; c_last_ts_tick := 0; c_sent := [] |}.

Lemma two_threads_mergeable : Forall mergeable (published (replicate 2 []) two_threads).
Proof.
  unfold mergeable, key_le, is_tick. cbn.
  repeat (apply Forall_cons; split_and!); repeat constructor; cbn; lia.
Qed.

Lemma ordered_combiner_correct_witness :
  init_combiner 2 = Ok two_threads_start ∧
  ∃ c1 c2, run false 1 two_threads_start two_threads = Ok c1 ∧
    ordered_read_final 1 false c1 = Ok c2 ∧
    c_sent c1 `prefix_of` c_sent c2 ∧ StronglySorted key_le (c_sent c2) ∧
    c_sent c2 ≡ₚ concat (published (replicate 2 []) two_threads) ∧
    Forall (λ hs, hs `sublist_of` c_sent c2) (published (replicate 2 []) two_threads) ∧
    combiner_destroy c2 = Ok tt.
Proof.
  split; [reflexivity|]. apply (ordered_combiner_correct false 1 two_threads 2 two_threads_start).
  - by apply (init_combiner_holds 2).
  - reflexivity.
  - lia.
  - repeat constructor.
  - apply two_threads_mergeable.
  - vm_compute. discriminate.
Defined.

(** A tick and a packet from thread 0, a packet from thread 1. *)
Definition tick_count (k : Z) : libtrace_result_t :=
  {| r_key := k; r_value := 0; r_type := RESULT_TICK_COUNT |}.

Definition publish_all (c : libtrace_combine (deque libtrace_result_t))
  (rs : list (Z * libtrace_result_t)) : outcome (libtrace_combine (deque libtrace_result_t)) :=
  foldl (λ o '(t, r), let! c := o in let! ' (c, _) := publish c t r 100 in Ok c) (Ok c) rs.

Definition both_waiting : outcome (libtrace_combine (deque libtrace_result_t)) :=
  publish_all two_threads_start [(0, pkt 7 1); (1, pkt 8 2)].

Lemma both_waiting_holds : ∃ c, both_waiting = Ok c ∧ holds c [[pkt 7 1]; [pkt 8 2]] ∧ c_sent c = [].
Proof.
  destruct (init_combiner_holds 2 two_threads_start eq_refl) as [Hh _].
  destruct (publish_ok two_threads_start [[]; []] 0 [] (pkt 7 1) 100 Hh eq_refl eq_refl) as (c & Hrun & Hc & Hs).
  destruct (publish_ok c [[pkt 7 1]; []] 1 [] (pkt 8 2) 100 Hc eq_refl eq_refl) as (c' & Hrun' & Hc' & Hs').
  exists c'. split; [|by rewrite Hs', Hs]. unfold both_waiting, publish_all. cbn [foldl obind].
  change (Z.of_nat 0) with 0 in Hrun. change (Z.of_nat 1) with 1 in Hrun'. rewrite Hrun. cbn [obind]. rewrite Hrun'. done.
Qed.

Lemma ordered_read_merges_witness :
  ∃ c c' out yss, both_waiting = Ok c ∧ ordered_read false c = Ok c' ∧ holds c' yss ∧
    merged [[pkt 7 1]; [pkt 8 2]] out yss ∧ c_sent c' = c_sent c ++ out ∧ [] ∈ yss.
Proof.
  destruct both_waiting_holds as (c & Hb & Hc & _).
  destruct (ordered_read_merges false c _ Hc) as (c' & out & yss & F); [| |by exists c, c', out, yss].
  - unfold mergeable, key_le, is_tick. repeat (apply Forall_cons; split_and!); repeat constructor; cbn; lia.
  - discriminate.
Defined.

Lemma unordered_read_delivers_witness :
  ∃ c c' out, both_waiting = Ok c ∧ unordered_read c = Ok c' ∧ holds c' [[]; []] ∧
    c_sent c' = c_sent c ++ out ∧ out `sublist_of` [pkt 7 1; pkt 8 2].
Proof.
  destruct both_waiting_holds as (c & Hb & Hc & _).
  destruct (unordered_read_delivers c _ Hc) as (c' & out & F1 & F2 & F3 & F4 & _).
  exists c, c', out. split_and!; assumption.
Defined.

(** A count tick can be lost.  In a trace without parallel input, [peek_queue]
    records the tick as seen when it first looks at it, without taking it from
    the queue; if the read has to wait for another thread, the next read takes
    the same tick for a duplicate and drops it: here thread 0 publishes the only
    tick there is, one read and a final read follow, and the reporter is sent the
    packet alone. *)
Theorem count_tick_lost :
  ∃ c1 c2 c3, publish_all two_threads_start [(0, tick_count 5); (0, pkt 6 1)] = Ok c1 ∧
    ordered_read false c1 = Ok c2 ∧ c_sent c2 = [] ∧
    ordered_read_final 2 false c2 = Ok c3 ∧ c_sent c3 = [pkt 6 1] ∧ combiner_destroy c3 = Ok tt.
Proof.
  eexists _, _, _. split; [vm_compute; reflexivity|]. split; [vm_compute; reflexivity|].
  split; [reflexivity|]. split; [vm_compute; reflexivity|]. split; reflexivity.
Qed.
