(* ===== verification/CombinerSorted.v ===== *)
(** * The sorting combiner: lib/combiner_sorted.c

    The results of every thread are collected in a vector; nothing is sent before
    the final read, which appends all vectors to the first one, sorts it and sends
    what it then holds.  The vectors store results by value, so the layout of
    [libtrace_result_t] in memory is part of the model. *)

From Stdlib Require Import Sorting.Sorted.
From stdpp Require Import sorting.
From S2P Require Import Prelude DNodes QueueSpec Deque Memory Vector Combiners.
Local Open Scope Z_scope.
Local Open Scope outcome_scope.

(** ** Results in memory *)

(** [n] bytes of [z], least significant first, and back.  A byte that nobody
    wrote reads as [fill]. *)
Fixpoint le_bytes (n : nat) (z : Z) : mem :=
  match n with
  | O => []
  | S n' => Some (Z.land z 255) :: le_bytes n' (Z.shiftr z 8)
  end.

Fixpoint le_value (fill : Z) (m : mem) : Z :=
  match m with
  | [] => 0
  | b :: m' => Z.lor (default fill b) (Z.shiftl (le_value fill m') 8)
  end.

Definition type_code (t : result_type) : Z :=
  match t with
  | RESULT_PACKET => 0
  | RESULT_TICK_INTERVAL => 1
  | RESULT_TICK_COUNT => 2
  | RESULT_USER n => n
  end.

Definition type_of_code (z : Z) : result_type :=
  match z with
  | 0 => RESULT_PACKET
  | 1 => RESULT_TICK_INTERVAL
  | 2 => RESULT_TICK_COUNT
  | _ => RESULT_USER z
  end.

(** [key] and [value] take eight bytes each, [type] four, and four bytes of
    padding follow. *)
Definition encode_result (r : libtrace_result_t) : mem :=
  le_bytes 8 (r_key r) ++ le_bytes 8 (r_value r) ++ le_bytes 4 (type_code (r_type r))
  ++ replicate 4 None.

Definition decode_result (fill : Z) (m : mem) : libtrace_result_t :=
  {| r_key := le_value fill (take 8 m);
     r_value := le_value fill (take 8 (drop 8 m));
     r_type := type_of_code (le_value fill (take 4 (drop 16 m))) |}.

(** ** The combiner *)
Section sorted.
Variable qsort : (mem → mem → Z) → list mem → list mem.
Variable fill : Z.

Abbreviation combine := (libtrace_combine libtrace_vector_t).
Implicit Types c : combine.

Definition sorted_init_combiner (perpkt_threads : Z) : outcome combine :=
  let! _ := oassert (0 <? perpkt_threads) in
  Ok {| c_queues := replicate (Z.to_nat perpkt_threads) (libtrace_vector_init sizeof_result);
        c_last_count_tick := 0; c_last_ts_tick := 0; c_sent := [] |}.

Definition sorted_publish c (t_id : Z) (res : libtrace_result_t) : outcome combine :=
  let! vec := aget (c_queues c) t_id in
  let! vec := libtrace_vector_push_back vec (encode_result res) in
  let! queues := aset (c_queues c) t_id vec in
  Ok (set_queue c queues).

Definition sorted_read c : outcome combine := Ok c.

Definition compare_result (p1 p2 : mem) : Z :=
  let r1 := decode_result fill p1 in
  let r2 := decode_result fill p2 in
  if r_key r1 <? r_key r2 then -1
  else if r_key r1 =? r_key r2 then 0
  else 1.

(** [for (i = 1; ...) libtrace_vector_append(&queues[0], &queues[i])], with [n]
    vectors to go. *)
Fixpoint append_all (n : nat) (i : Z) (queues : list libtrace_vector_t)
  : outcome (list libtrace_vector_t) :=
  match n with
  | O => Ok queues
  | S n' =>
      let! dest := aget queues 0 in
      let! src := aget queues i in
      let! ' (dest, src) := libtrace_vector_append dest src in
      let! queues := aset queues 0 dest in
      let! queues := aset queues i src in
      append_all n' (i + 1) queues
  end.

(** The sending loop from element [a] on, [n] elements to go. *)
Fixpoint send_all (n : nat) (a : Z) (v : libtrace_vector_t) c : outcome combine :=
  match n with
  | O => Ok c
  | S n' =>
      let! ' (ret, d) := libtrace_vector_get v a in
      let! _ := oassert (ret =? 1) in
      match d with
      | None => Fault Uninitialised
      | Some d =>
          let r := decode_result fill d in
          match r_type r with
          | RESULT_TICK_INTERVAL | RESULT_TICK_COUNT => send_all n' (a + 1) v c
          | _ => send_all n' (a + 1) v (send_message c r)
          end
      end
  end.

Definition sorted_read_final c : outcome combine :=
  let! queues := append_all (length (c_queues c) - 1) 1 (c_queues c) in
  let! v := aget queues 0 in
  let! v := libtrace_vector_qsort qsort v compare_result in
  let! c := send_all (Z.to_nat (libtrace_vector_get_size v)) 0 v c in
  let! v := libtrace_vector_empty v in
  let! queues := aset queues 0 v in
  Ok (set_queue c queues).

(** Every vector must be empty and is destroyed. *)
Fixpoint sorted_destroy (queues : list libtrace_vector_t) : outcome (list libtrace_vector_t) :=
  match queues with
  | [] => Ok []
  | v :: vs =>
      let! _ := oassert (libtrace_vector_get_size v =? 0) in
      let! vs := sorted_destroy vs in
      Ok (libtrace_vector_destroy v :: vs)
  end.
End sorted.

(** ** Round trip of the layout *)
Lemma le_bytes_length n : ∀ z, length (le_bytes n z) = n.
Proof. induction n as [|n IH]; intros z; simpl; [done|by rewrite IH]. Qed.

Lemma le_value_bytes fill n : ∀ z, 0 ≤ z < 2 ^ (8 * Z.of_nat n) → le_value fill (le_bytes n z) = z.
Proof.
  induction n as [|n IH]; intros z Hz; cbn [le_bytes le_value default].
  - change (8 * Z.of_nat 0) with 0 in Hz. simpl in Hz. lia.
  - unfold id. rewrite IH.
    + apply Z.bits_inj'. intros k Hk. change 255 with (Z.ones 8).
      rewrite Z.lor_spec, Z.land_spec, Z.shiftl_spec by lia.
      rewrite Z.testbit_ones_nonneg by lia. destruct (Z.ltb_spec k 8).
      * rewrite (Z.testbit_neg_r _ (k - 8)) by lia. by rewrite andb_true_r, orb_false_r.
      * rewrite Z.shiftr_spec by lia. rewrite andb_false_r. simpl. f_equal. lia.
    + rewrite Z.shiftr_div_pow2 by lia. rewrite Nat2Z.inj_succ in Hz.
      replace (8 * Z.succ (Z.of_nat n)) with (8 * Z.of_nat n + 8) in Hz by lia.
      rewrite Z.pow_add_r in Hz by lia. split; [apply Z.div_pos; lia|].
      apply Z.div_lt_upper_bound; lia.
Qed.

(** Values that fit their fields; user-defined types start beyond the others. *)
Definition result_ok (r : libtrace_result_t) : Prop :=
  0 ≤ r_key r < 2 ^ 64 ∧ 0 ≤ r_value r < 2 ^ 64 ∧
  match r_type r with RESULT_USER n => 3 ≤ n < 2 ^ 32 | _ => True end.

Lemma encode_result_length r : Zlen (encode_result r) = sizeof_result.
Proof. unfold Zlen, encode_result. by rewrite !length_app, !le_bytes_length. Qed.

Lemma type_of_type_code t :
  match t with RESULT_USER n => 3 ≤ n | _ => True end → type_of_code (type_code t) = t.
Proof. destruct t as [| | |n]; try done. simpl. intros Hn. by destruct n as [|[[]|[]|]|]; try lia. Qed.

Lemma decode_encode fill r : result_ok r → decode_result fill (encode_result r) = r.
Proof.
  intros (Hk & Hv & Ht). unfold decode_result, encode_result.
  assert (le_value fill (le_bytes 4 (type_code (r_type r))) = type_code (r_type r)) as E.
  { apply le_value_bytes. destruct (r_type r); simpl; lia. }
  rewrite take_app_length' by by rewrite le_bytes_length.
  rewrite (drop_app_length' (le_bytes 8 (r_key r))) by by rewrite le_bytes_length.
  rewrite take_app_length' by by rewrite le_bytes_length.
  replace 16%nat with (8 + 8)%nat by done. rewrite <- drop_drop.
  rewrite !drop_app_length' by by rewrite le_bytes_length.
  rewrite take_app_length' by by rewrite le_bytes_length.
  rewrite E, !le_value_bytes by (cbn; lia). rewrite type_of_type_code by (destruct (r_type r); lia || done).
  by destruct r.
Qed.

(** ** The final read *)
Section correct.
Variable qsort : (mem → mem → Z) → list mem → list mem.
Variable fill : Z.
Hypothesis qsort_perm : ∀ compar xs, qsort compar xs ≡ₚ xs.
Hypothesis qsort_sorted : ∀ compar xs,
  (∀ a b c, compar a b ≤ 0 → compar b c ≤ 0 → compar a c ≤ 0) →
  (∀ a b, compar a b ≤ 0 ∨ compar b a ≤ 0) →
  StronglySorted (λ a b, compar a b ≤ 0) (qsort compar xs).

Abbreviation combine := (libtrace_combine libtrace_vector_t).
Implicit Types (c : combine) (rss : list (list libtrace_result_t)).

(** A vector that holds the results [rs]. *)
Definition result_vector (v : libtrace_vector_t) (rs : list libtrace_result_t) : Prop :=
  vec_rep v (map encode_result rs) ∧ v_element_size v = sizeof_result ∧ Forall result_ok rs.

Definition sorted_holds c rss : Prop := Forall2 result_vector (c_queues c) rss.

Lemma forall2_aget (qs : list libtrace_vector_t) rss i rs :
  Forall2 result_vector qs rss → rss !! i = Some rs →
  ∃ v, aget qs (Z.of_nat i) = Ok v ∧ result_vector v rs.
Proof.
  intros Hh Hi. destruct (Forall2_lookup_r _ _ _ _ _ Hh Hi) as (v & Hv & R). exists v.
  split; [|done]. apply aget_ok; [lia|]. by rewrite Nat2Z.id.
Qed.

Lemma forall2_aset (qs : list libtrace_vector_t) rss i v rs :
  Forall2 result_vector qs rss → (i < length rss)%nat → result_vector v rs →
  ∃ qs', aset qs (Z.of_nat i) v = Ok qs' ∧ Forall2 result_vector qs' (<[i := rs]> rss).
Proof.
  intros Hh Hi R. exists (<[i := v]> qs). split; [|by apply Forall2_insert].
  rewrite aset_ok, Nat2Z.id; [done|]. unfold Zlen. rewrite (Forall2_length _ _ _ Hh). lia.
Qed.

Lemma append_all_ok yss : ∀ qs acc pre,
  Forall2 result_vector qs ((acc :: pre) ++ yss) →
  2 * (Zlen acc + Zlen (concat yss)) * sizeof_result < 2 ^ 64 →
  ∃ qs', append_all (length yss) (Zlen (acc :: pre)) qs = Ok qs' ∧
    Forall2 result_vector qs' ((acc ++ concat yss) :: pre ++ map (λ _, []) yss).
Proof.
  induction yss as [|ys yss IH]; intros qs acc pre Hh Hb; cbn [length append_all concat map].
  { exists qs. split; [done|]. by rewrite !app_nil_r in *. }
  cbn [concat] in Hb. rewrite Zlen_app in Hb.
  pose proof (Zlen_nonneg acc). pose proof (Zlen_nonneg ys). pose proof (Zlen_nonneg (concat yss)).
  destruct (forall2_aget qs _ 0 acc Hh eq_refl) as (dest & Hd & R1 & Es1 & O1).
  destruct (forall2_aget qs _ (length (acc :: pre)) ys Hh) as (src & Hs & R2 & Es2 & O2).
  { by apply list_lookup_middle. }
  change 0 with (Z.of_nat 0) at 1. rewrite Hd. cbn [obind]. unfold Zlen at 1. rewrite Hs. cbn [obind].
  destruct (vec_append_rep dest src _ _ R1 R2) as (dest' & src' & -> & R1' & R2' & Es1' & Es2').
  { congruence. }
  { rewrite !Zlen_map. unfold sizeof_result in *. lia. }
  { rewrite !Zlen_map, Es1. unfold sizeof_result in *. lia. }
  cbn [obind]. rewrite <- map_app in R1'.
  destruct (forall2_aset qs _ 0 dest' (acc ++ ys) Hh) as (qs1 & Ha1 & Hh1).
  { simpl. lia. }
  { split_and!; [done|congruence|by apply Forall_app]. }
  change (Z.of_nat 0) with 0 in Ha1. rewrite Ha1. cbn [obind].
  destruct (forall2_aset qs1 _ (length (acc :: pre)) src' [] Hh1) as (qs2 & Ha2 & Hh2).
  { rewrite length_insert, !length_app. simpl. lia. }
  { split_and!; [done|congruence|done]. }
  unfold Zlen at 1. rewrite Ha2. cbn [obind].
  assert (<[length (acc :: pre):=[]]> (<[0%nat:=acc ++ ys]> ((acc :: pre) ++ ys :: yss))
          = ((acc ++ ys) :: (pre ++ [[]])) ++ yss) as E.
  { simpl. f_equal. rewrite insert_app_r_alt by done. rewrite Nat.sub_diag. simpl.
    by rewrite <- app_assoc. }
  rewrite E in Hh2. destruct (IH qs2 (acc ++ ys) (pre ++ [[]]) Hh2) as (qs' & Hrun & Hh').
  { rewrite Zlen_app. lia. }
  exists qs'. split.
  - rewrite <- Hrun. f_equal. rewrite !Zlen_cons, Zlen_app. change (Zlen [[]]) with 1. lia.
  - by rewrite <- !app_assoc in Hh'.
Qed.

Lemma send_all_ok v rs : ∀ pre c,
  vec_rep v (map encode_result (pre ++ rs)) → Forall result_ok rs →
  ∃ c', send_all fill (length rs) (Zlen pre) v c = Ok c' ∧
    c_sent c' = c_sent c ++ filter (λ r, is_tick r = false) rs ∧ c_queues c' = c_queues c.
Proof.
  induction rs as [|r rs IH]; intros pre c R Hok; cbn [length send_all].
  { exists c. by rewrite filter_nil, app_nil_r. }
  inversion Hok as [|? ? Hr Hok']. subst. pose proof (Zlen_nonneg pre).
  rewrite (vec_get_rep v _ (Zlen pre) R) by lia. unfold Zlen at 1. rewrite Nat2Z.id.
  rewrite list_lookup_fmap, list_lookup_middle by done.
  change (encode_result <$> Some r) with (Some (encode_result r)). cbn [obind oassert Z.eqb Pos.eqb].
  rewrite decode_encode by done. rewrite cons_middle, app_assoc in R.
  replace (Zlen pre + 1) with (Zlen (pre ++ [r])) by (rewrite Zlen_app; done).
  destruct (IH (pre ++ [r]) (if is_tick r then c else send_message c r)) as (c' & F1 & F2 & F3); try done.
  exists c'. split; [|split].
  - rewrite <- F1. unfold is_tick. by destruct (r_type r).
  - rewrite F2, filter_cons. destruct (is_tick r).
    + by rewrite decide_False.
    + rewrite decide_True by done. cbn. by rewrite <- app_assoc.
  - rewrite F3. by destruct (is_tick r).
Qed.

Lemma compare_encoded a b :
  result_ok a → result_ok b →
  (compare_result fill (encode_result a) (encode_result b) ≤ 0 ↔ key_le a b).
Proof.
  intros Ha Hb. unfold compare_result, key_le. rewrite !decode_encode by done.
  destruct (Z.ltb_spec (r_key a) (r_key b)); [lia|].
  destruct (Z.eqb_spec (r_key a) (r_key b)); lia.
Qed.

Lemma compare_trans a b d :
  compare_result fill a b ≤ 0 → compare_result fill b d ≤ 0 → compare_result fill a d ≤ 0.
Proof.
  unfold compare_result. destruct (decode_result fill a) as [ka va ta], (decode_result fill b) as [kb vb tb],
    (decode_result fill d) as [kc vc tc]. cbn.
  repeat match goal with |- context [?x <? ?y] => destruct (Z.ltb_spec x y) end;
  repeat match goal with |- context [?x =? ?y] => destruct (Z.eqb_spec x y) end; lia.
Qed.

Lemma compare_total a b : compare_result fill a b ≤ 0 ∨ compare_result fill b a ≤ 0.
Proof.
  unfold compare_result.
  destruct (Z.ltb_spec (r_key (decode_result fill a)) (r_key (decode_result fill b))); [left; lia|].
  destruct (Z.eqb_spec (r_key (decode_result fill a)) (r_key (decode_result fill b))); [left; lia|right].
  rewrite (proj2 (Z.ltb_lt _ _)); lia.
Qed.

(** What sorting does to a vector of results: the first 24 are sorted by key,
    the others stay where they are. *)
Lemma sort_results v rs :
  result_vector v rs → sizeof_result ≤ Zlen rs →
  ∃ v' out, libtrace_vector_qsort qsort v (compare_result fill) = Ok v' ∧ result_vector v' out ∧
    take 24 out ≡ₚ take 24 rs ∧ drop 24 out = drop 24 rs ∧ StronglySorted key_le (take 24 out).
Proof using qsort_perm qsort_sorted.
  intros (R & Es & Hok) Hlen.
  destruct (vector_qsort_sorts_prefix qsort qsort_perm v _ (compare_result fill) R) as (v' & Hrun & R').
  { by rewrite Zlen_map, Es. }
  rewrite Es in R'. change (Z.to_nat sizeof_result) with 24%nat in R'.
  rewrite <- !fmap_take, <- fmap_drop in R'.
  destruct (Permutation_map_inv encode_result (take 24 rs) (qsort_perm (compare_result fill) _))
    as (ys & Hys & Hp). change (map encode_result) with (fmap (M := list) encode_result) in Hys.
  rewrite Hys, <- fmap_app in R'.
  assert (length ys = 24)%nat as Hl.
  { rewrite <- (Permutation_length Hp), length_take. unfold sizeof_result, Zlen in Hlen. lia. }
  assert (Forall result_ok ys) as Hoky by (rewrite <- Hp; by apply Forall_take).
  exists v', (ys ++ drop 24 rs). rewrite take_app_length', drop_app_length' by done.
  split; [exact Hrun|]. split; [split; [exact R'|split]|split; [done|split; [done|]]].
  { rewrite <- Es. unfold libtrace_vector_qsort in Hrun. repeat obind_inv Hrun. by injection Hrun as <-. }
  { apply Forall_app. split; [done|by apply Forall_drop]. }
  pose proof (qsort_sorted (compare_result fill) (encode_result <$> take 24 rs) compare_trans compare_total) as Hs.
  rewrite Hys in Hs. clear -Hs Hoky. induction Hoky as [|y ys Hy Hoky IH]; [constructor|].
  inversion Hs as [|? ? Hs' HF]. subst. constructor; [by apply IH|].
  apply Forall_forall. intros z Hz. apply compare_encoded; [done|by eapply Forall_forall|].
  apply (proj1 (Forall_forall _ _) HF). by apply list_elem_of_fmap_2.
Qed.

Lemma sorted_destroy_ok qs rss :
  Forall2 result_vector qs rss → Forall (λ rs, rs = []) rss →
  sorted_destroy qs = Ok (map libtrace_vector_destroy qs).
Proof.
  induction 1 as [|v rs qs rss (R & _) _ IH]; intros He; [done|]. inversion He. subst.
  cbn [sorted_destroy map]. unfold libtrace_vector_get_size. rewrite (vr_size _ _ R).
  change (Zlen (map encode_result []) =? 0) with true. cbn [oassert obind].
  by rewrite IH.
Qed.

(** The final read of the sorting combiner, when at least 24 results were
    published: it returns, sends every result that is not a tick once, and
    empties the vectors, so that the combiner can be destroyed.  The order is that
    of the keys for the first 24 results only, since the vector's sort takes the
    element size for the number of elements; the rest is sent as published. *)
Theorem sorted_read_final_correct c rss :
  sorted_holds c rss → rss ≠ [] → sizeof_result ≤ Zlen (concat rss) →
  2 * Zlen (concat rss) * sizeof_result < 2 ^ 64 →
  ∃ c' out, sorted_read_final qsort fill c = Ok c' ∧
    c_sent c' = c_sent c ++ filter (λ r, is_tick r = false) out ∧
    take 24 out ≡ₚ take 24 (concat rss) ∧ StronglySorted key_le (take 24 out) ∧
    drop 24 out = drop 24 (concat rss) ∧
    sorted_destroy (c_queues c') = Ok (map libtrace_vector_destroy (c_queues c')).
Proof using qsort_perm qsort_sorted.
  intros Hh Hne Hlen Hb. unfold sorted_read_final. destruct rss as [|acc yss]; [done|].
  cbn [concat] in *. rewrite Zlen_app in Hlen, Hb.
  assert (length (c_queues c) - 1 = length yss)%nat as ->
    by (rewrite (Forall2_length _ _ _ Hh); simpl; lia).
  destruct (append_all_ok yss (c_queues c) acc [] Hh Hb) as (qs & Hrun & Hqs).
  change (Zlen [acc]) with 1 in Hrun. rewrite Hrun. cbn [obind]. clear Hrun.
  destruct (forall2_aget qs _ 0 (acc ++ concat yss) Hqs eq_refl) as (v & Hv & Rv).
  change (Z.of_nat 0) with 0 in Hv. rewrite Hv. cbn [obind].
  destruct (sort_results v _ Rv) as (v' & out & -> & (R' & Es' & Ok') & Hp & Hd & Hs);
    [by rewrite Zlen_app|]. cbn [obind].
  unfold libtrace_vector_get_size. rewrite (vr_size _ _ R'), Zlen_map. unfold Zlen at 1. rewrite Nat2Z.id.
  destruct (send_all_ok v' out [] c R' Ok') as (c1 & Hsend & Hsent & Hq).
  change (Zlen (@nil libtrace_result_t)) with 0 in Hsend. rewrite Hsend. cbn [obind].
  destruct (vec_empty_rep v' _ R') as (v2 & -> & R2 & Es2 & _). cbn [obind].
  destruct (forall2_aset qs _ 0 v2 [] Hqs) as (qs' & Ha & Hqs').
  { simpl. lia. }
  { split_and!; [done|congruence|done]. }
  change (Z.of_nat 0) with 0 in Ha. rewrite Ha. cbn [obind].
  exists (set_queue c1 qs'), out. split_and!; try done. cbn [c_queues set_queue].
  apply (sorted_destroy_ok _ _ Hqs'). simpl. constructor; [done|].
  apply Forall_forall. intros x Hx. apply list_elem_of_fmap in Hx as (? & -> & _). done.
Qed.
End correct.

(** ** Fewer than 24 results *)
Definition vec_resize (v : libtrace_vector_t) (n : Z) : libtrace_vector_t :=
  {| v_max_size := v_max_size v; v_size := n; v_element_size := v_element_size v;
     v_elements := v_elements v; v_lock := v_lock v |}.

(** The sort does not look at the size. *)
Lemma qsort_resize qsort v n compar v' :
  libtrace_vector_qsort qsort (vec_resize v n) compar = Ok v' →
  libtrace_vector_qsort qsort v compar = Ok (vec_resize v' (v_size v)).
Proof.
  unfold libtrace_vector_qsort. cbn [v_lock v_elements v_element_size vec_resize].
  destruct (pthread_mutex_lock (v_lock v)); [cbn [obind]|done].
  destruct (mem_qsort _ _ _ _ _); [cbn [obind]|done].
  destruct (pthread_mutex_unlock _); [cbn [obind]|done]. by intros [= <-].
Qed.

Lemma vec_rep_truncate v xs (n : nat) :
  vec_rep v xs → (n ≤ length xs)%nat → vec_rep (vec_resize v (Z.of_nat n)) (take n xs).
Proof.
  intros R Hn. vec_facts R m Hm Hlen Hpre Hch Hsz Hl.
  assert (Zlen (take n xs) = Z.of_nat n) as E by (unfold Zlen; rewrite length_take; lia).
  split; cbn [v_max_size v_size v_element_size v_elements v_lock vec_resize]; try done.
  - exists m. split_and!; try done. trans (concat xs); [|done].
    rewrite <- (take_drop n xs) at 2. rewrite concat_app. by apply prefix_app_r.
  - by apply Forall_take.
  - rewrite E. unfold Zlen in *. lia.
Qed.

Lemma concat_replicate {A} (n k : nat) (x : A) :
  concat (replicate n (replicate k x)) = replicate (n * k) x.
Proof. induction n as [|n IH]; [done|]. simpl. by rewrite IH, replicate_add. Qed.

(** An element of the block that nobody wrote. *)
Definition blank : mem := replicate 24 None.
Definition blank_result : libtrace_result_t := {| r_key := 0; r_value := 0; r_type := RESULT_PACKET |}.

Section garbage.
Variable qsort : (mem → mem → Z) → list mem → list mem.
Hypothesis qsort_perm : ∀ compar xs, qsort compar xs ≡ₚ xs.
Hypothesis qsort_sorted : ∀ compar xs,
  (∀ a b c, compar a b ≤ 0 → compar b c ≤ 0 → compar a c ≤ 0) →
  (∀ a b, compar a b ≤ 0 ∨ compar b a ≤ 0) →
  StronglySorted (λ a b, compar a b ≤ 0) (qsort compar xs).

Lemma blank_first r :
  result_ok r → 0 < r_key r →
  head (qsort (compare_result 0) (encode_result r :: replicate 23 blank)) = Some blank.
Proof using qsort_perm qsort_sorted.
  intros Hr Hk. set (xs := encode_result r :: replicate 23 blank).
  pose proof (qsort_perm (compare_result 0) xs) as Hp.
  pose proof (qsort_sorted (compare_result 0) xs (compare_trans 0) (compare_total 0)) as Hs.
  destruct (qsort (compare_result 0) xs) as [|y ys].
  { apply Permutation_length in Hp. done. }
  inversion Hs as [|? ? _ HF]. subst. simpl. f_equal.
  assert (y ∈ xs) as [->|Hy]%elem_of_cons by (rewrite <- Hp; left); [exfalso|by apply elem_of_replicate_inv in Hy].
  assert (blank ∈ ys) as Hb.
  { assert (blank ∈ encode_result r :: ys) as [Hb|]%elem_of_cons by (rewrite Hp; right; by left); [exfalso|done].
    apply (f_equal (decode_result 0)) in Hb. rewrite decode_encode in Hb by done.
    apply (f_equal r_key) in Hb. change (0 = r_key r) in Hb. lia. }
  pose proof (proj1 (Forall_forall _ _) HF blank Hb) as Hle. cbv beta in Hle.
  unfold compare_result in Hle. rewrite decode_encode in Hle by done.
  change (r_key (decode_result 0 blank)) with 0 in Hle.
  rewrite (proj2 (Z.ltb_ge _ _)), (proj2 (Z.eqb_neq _ _)) in Hle by lia. lia.
Qed.

(** With one result in the vector, seen as a full block. *)
Lemma one_result_block r v :
  libtrace_vector_push_back (libtrace_vector_init sizeof_result) (encode_result r) = Ok v →
  vec_rep (vec_resize v 128) (encode_result r :: replicate 127 blank) ∧ v_size v = 1 ∧
  v_element_size v = sizeof_result.
Proof.
  unfold libtrace_vector_push_back. cbn [v_lock v_max_size v_size v_elements v_element_size libtrace_vector_init].
  change (128 <=? 0) with false. cbn [obind pthread_mutex_lock].
  pose proof (encode_result_length r) as El. generalize dependent (encode_result r). intros e El.
  rewrite mem_read_ok by (unfold sizeof_result in *; lia). cbn [obind].
  rewrite drop_0, take_ge by (unfold Zlen, sizeof_result in *; lia).
  change (u64 (0 * sizeof_result)) with 0. unfold mem_write. rewrite El.
  change (Zlen (mem_alloc (u64 (128 * sizeof_result)))) with 3072.
  change ((0 <=? 0) && (0 + sizeof_result <=? 3072)) with true. cbn [obind pthread_mutex_unlock].
  intros Hv. injection Hv. intros <-. split; [|done]. split; cbn [v_max_size v_size v_element_size v_elements v_lock vec_resize]; try done.
  - eexists. split; [reflexivity|]. change (take (Z.to_nat 0) _) with (@nil (option Z)). cbn [app]. split.
    + rewrite Zlen_app, El. vm_compute. reflexivity.
    + cbn [concat]. unfold blank. rewrite concat_replicate. apply prefix_app. vm_compute. by exists [].
  - constructor; [done|]. by apply Forall_replicate.
Qed.

(** A single published result is lost.  The sort of a vector with fewer than 24
    results includes memory that was never written; if that memory is zero, what
    is sent for a result with a positive key is not the result but a packet
    result without a packet, whatever correct [qsort] is used. *)
Theorem sorted_combiner_sends_garbage r :
  result_ok r → 0 < r_key r →
  ∃ c1 c2, (let! c := sorted_init_combiner 1 in sorted_publish c 0 r) = Ok c1 ∧
    sorted_read_final qsort 0 c1 = Ok c2 ∧ c_sent c2 = [blank_result].
Proof using qsort_perm qsort_sorted.
  intros Hr Hk.
  assert (is_ok (libtrace_vector_push_back (libtrace_vector_init sizeof_result) (encode_result r)) = true) as Hpush.
  { destruct (vec_push_back_rep (libtrace_vector_init sizeof_result) [] (encode_result r)) as (v & -> & _);
      [by apply vec_rep_init|by rewrite encode_result_length|by left|done]. }
  destruct (libtrace_vector_push_back _ (encode_result r)) as [v|] eqn:Hv; [|done].
  destruct (one_result_block r v Hv) as (R & Hsz & Hes).
  exists {| c_queues := [v]; c_last_count_tick := 0; c_last_ts_tick := 0; c_sent := [] |}.
  destruct (vector_qsort_sorts_prefix qsort qsort_perm _ _ (compare_result 0) R) as (v' & Hq & R').
  { cbn [v_element_size vec_resize]. rewrite Hes. done. }
  cbn [v_element_size vec_resize] in R'. rewrite Hes in R'.
  change (take (Z.to_nat sizeof_result) (encode_result r :: replicate 127 blank))
    with (encode_result r :: replicate 23 blank) in R'.
  apply qsort_resize in Hq. pose proof (blank_first r Hr Hk) as Hb.
  destruct (qsort (compare_result 0) (encode_result r :: replicate 23 blank)) as [|y ys]; [done|].
  injection Hb as ->. apply (vec_rep_truncate v' _ 1) in R'; [|simpl; lia].
  change (take 1 ((blank :: ys) ++ _)) with [blank] in R'.
  destruct (vec_empty_rep _ _ R') as (v2 & He & _).
  eexists. split; [|split].
  - unfold sorted_init_combiner, sorted_publish. change (0 <? 1) with true. cbn [oassert obind c_queues].
    change (aget _ 0) with (Ok (libtrace_vector_init sizeof_result)). cbn [obind]. rewrite Hv. reflexivity.
  - unfold sorted_read_final. cbn [length c_queues Nat.sub append_all obind].
    change (aget [v] 0) with (Ok v). cbn [obind]. rewrite Hq, Hsz. change 1 with (Z.of_nat 1).
    cbn [obind]. set (w := vec_resize v' (Z.of_nat 1)) in *.
    change (Z.to_nat (libtrace_vector_get_size w)) with 1%nat. cbn [send_all].
    rewrite (vec_get_rep _ _ 0 R') by lia. change ([blank] !! Z.to_nat 0) with (Some blank).
    cbn [obind Z.eqb Pos.eqb oassert]. change (decode_result 0 blank) with blank_result.
    cbn [r_type blank_result obind]. rewrite He. cbn [obind]. reflexivity.
  - reflexivity.
Qed.
End garbage.

(** ** Instances of the theorems *)
Lemma sample_qsort_perm compar xs : sample_qsort compar xs ≡ₚ xs.
Proof. apply merge_sort_Permutation. Qed.

Lemma sample_qsort_sorted compar xs :
  (∀ a b c, compar a b ≤ 0 → compar b c ≤ 0 → compar a c ≤ 0) →
  (∀ a b, compar a b ≤ 0 ∨ compar b a ≤ 0) →
  StronglySorted (λ a b, compar a b ≤ 0) (sample_qsort compar xs).
Proof.
  intros Ht Htot. apply StronglySorted_merge_sort; [|exact Htot]. intros a b c. apply Ht.
Qed.

Lemma sorted_combiner_sends_garbage_witness :
  ∃ c1 c2, (let! c := sorted_init_combiner 1 in sorted_publish c 0 (pkt 5 77)) = Ok c1 ∧
    sorted_read_final sample_qsort 0 c1 = Ok c2 ∧ c_sent c2 = [blank_result].
Proof.
  apply (sorted_combiner_sends_garbage sample_qsort sample_qsort_perm sample_qsort_sorted (pkt 5 77)).
  - unfold result_ok. cbn. lia.
  - cbn. lia.
Defined.

(** Thirty packets in descending order, in the second of two vectors. *)
Definition thirty : list libtrace_result_t := map (λ k, pkt (30 - Z.of_nat k) 0) (seq 0 30).
Definition result_vec (rs : list libtrace_result_t) : libtrace_vector_t :=
  {| v_max_size := 128; v_size := Zlen rs; v_element_size := sizeof_result;
     v_elements := Some (concat (map encode_result rs) ++ mem_alloc ((128 - Zlen rs) * 24));
     v_lock := false |}.

Lemma result_vec_ok rs : Zlen rs ≤ 128 → Forall result_ok rs → result_vector (result_vec rs) rs.
Proof.
  intros Hn Hok. split_and!; [|done..].
  assert (Forall (λ x, Zlen x = sizeof_result) (map encode_result rs)) as HF.
  { apply Forall_map, Forall_true. intros r. apply encode_result_length. }
  split; cbn [v_max_size v_size v_element_size v_elements v_lock result_vec]; try done.
  - eexists. split_and!; [done| |by apply prefix_app_r].
    rewrite Zlen_app, (Zlen_concat _ _ HF), Zlen_map, mem_alloc_len by lia. unfold sizeof_result. lia.
  - by rewrite Zlen_map.
  - rewrite Zlen_map. lia.
Qed.

Lemma sorted_read_final_correct_witness :
  ∃ c' out, sorted_read_final sample_qsort 0
      {| c_queues := [result_vec []; result_vec thirty]; c_last_count_tick := 0;
         c_last_ts_tick := 0; c_sent := [] |} = Ok c' ∧
    c_sent c' = filter (λ r, is_tick r = false) out ∧
    take 24 out ≡ₚ take 24 thirty ∧ StronglySorted key_le (take 24 out) ∧
    drop 24 out = drop 24 thirty ∧
    sorted_destroy (c_queues c') = Ok (map libtrace_vector_destroy (c_queues c')).
Proof.
  apply (sorted_read_final_correct sample_qsort 0 sample_qsort_perm sample_qsort_sorted
    {| c_queues := [result_vec []; result_vec thirty]; c_last_count_tick := 0;
       c_last_ts_tick := 0; c_sent := [] |} [[]; thirty]).
  - apply Forall2_cons. split; [by apply result_vec_ok|]. apply Forall2_cons. split; [|constructor].
    apply result_vec_ok; [vm_compute; discriminate|]. unfold thirty. apply Forall_map, Forall_forall. intros k Hk%elem_of_seq.
    unfold result_ok. cbn. lia.
  - discriminate.
  - vm_compute. discriminate.
  - vm_compute. reflexivity.
Defined.
