(* ===== verification/Buckets.v ===== *)
(** * Packet buckets: lib/data-struct/buckets.c

    Packets read from one buffer share a bucket: every packet gets an id from a
    circular range, and when all ids of a bucket have been released its buffer
    is freed.  Buckets are chained in a linked list ([LinkedList]), oldest first;
    the last one is the one packets are added to.  Bucket nodes live in a memory
    of their own, so that using a freed one is a fault, and the buffers freed so
    far are recorded. *)

From S2P Require Import Prelude DNodes LinkedList.
Local Open Scope Z_scope.
Local Open Scope outcome_scope.

Abbreviation MAX_OUTSTANDING := 200000.

Record libtrace_bucket_node_t := {
  bn_startindex : Z;
  bn_released : list Z;
  bn_activemembers : Z;
  bn_slots : Z;
  bn_buffer : option Z;
}.

(** [b_packets] is the array of [MAX_OUTSTANDING + 1] pointers, null where the
    map has no entry. *)
Record libtrace_bucket_t := {
  b_nextid : Z;
  b_node : option loc;
  b_packets : gmap Z loc;
  b_nodelist : option libtrace_list_t;
  b_lock : bool;
  b_nodes : gmap loc libtrace_bucket_node_t;
  b_listmem : gmap loc (node loc);
  b_freed : list Z;
}.

(** ** Accesses *)
Definition packets_get (ps : gmap Z loc) (id : Z) : outcome (option loc) :=
  if (0 <=? id) && (id <=? MAX_OUTSTANDING) then Ok (ps !! id) else Fault OutOfBounds.

Definition packets_set (ps : gmap Z loc) (id : Z) (p : option loc) : outcome (gmap Z loc) :=
  if (0 <=? id) && (id <=? MAX_OUTSTANDING)
  then Ok (match p with Some n => <[id := n]> ps | None => delete id ps end)
  else Fault OutOfBounds.

Definition bn_load (ns : gmap loc libtrace_bucket_node_t) (p : option loc)
  : outcome (loc * libtrace_bucket_node_t) :=
  match p with
  | None => Fault NullDeref
  | Some n => match ns !! n with Some nd => Ok (n, nd) | None => Fault Dangling end
  end.

(** [memset(l + off, v, n)]. *)
Definition bytes_memset (l : list Z) (off n v : Z) : outcome (list Z) :=
  if (0 <=? off) && (off + n <=? Zlen l)
  then Ok (take (Z.to_nat off) l ++ replicate (Z.to_nat n) v ++ drop (Z.to_nat (off + n)) l)
  else Fault OutOfBounds.

(** [clear_bucket_node]: the buffers freed. *)
Definition clear_bucket_node (nd : libtrace_bucket_node_t) (freed : list Z) : list Z :=
  match bn_buffer nd with Some buf => freed ++ [buf] | None => freed end.

Definition b_update (b : libtrace_bucket_t) (nextid : Z) (packets : gmap Z loc)
    (nodes : gmap loc libtrace_bucket_node_t) (lock : bool) : libtrace_bucket_t :=
  {| b_nextid := nextid; b_node := b_node b; b_packets := packets; b_nodelist := b_nodelist b;
     b_lock := lock; b_nodes := nodes; b_listmem := b_listmem b; b_freed := b_freed b |}.

(** ** Operations *)
Definition sizeof_bucket_node : Z := 32.

Definition libtrace_bucket_init : libtrace_bucket_t :=
  let '(h, l) := libtrace_list_init sizeof_bucket_node in
  {| b_nextid := 199999; b_node := None; b_packets := ∅; b_nodelist := l; b_lock := false;
     b_nodes := ∅; b_listmem := h; b_freed := [] |}.

(** The bucket nodes that are still allocated, and the buffers freed. *)
Definition libtrace_bucket_destroy (b : libtrace_bucket_t)
  : outcome (gmap loc libtrace_bucket_node_t * list Z) :=
  let! held := pthread_mutex_lock (b_lock b) in
  let! ' (nodes, freed) :=
    match b_node b with
    | None => Ok (b_nodes b, b_freed b)
    | Some _ =>
        let! ' (n, nd) := bn_load (b_nodes b) (b_node b) in
        Ok (delete n (b_nodes b), clear_bucket_node nd (b_freed b))
    end in
  let! _ := libtrace_list_deinit (b_listmem b) (b_nodelist b) in
  let! _ := pthread_mutex_unlock held in
  Ok (nodes, freed).

Definition libtrace_create_new_bucket (b : libtrace_bucket_t) (buffer : option Z)
  : outcome libtrace_bucket_t :=
  let bnode := fresh (dom (b_nodes b)) in
  let! held := pthread_mutex_lock (b_lock b) in
  let! ' (nodes, freed, (listmem, nodelist)) :=
    match b_node b with
    | None => Ok (b_nodes b, b_freed b, (b_listmem b, b_nodelist b))
    | Some _ =>
        let! ' (n, nd) := bn_load (b_nodes b) (b_node b) in
        if bn_startindex nd =? 0 then
          let freed := clear_bucket_node nd (b_freed b) in
          let! ' (listmem, nodelist, _) := libtrace_list_pop_back (b_listmem b) (b_nodelist b) true in
          Ok (delete n (b_nodes b), freed, (listmem, nodelist))
        else Ok (b_nodes b, b_freed b, (b_listmem b, b_nodelist b))
    end in
  let! held := pthread_mutex_unlock held in
  let nd := {| bn_startindex := 0; bn_released := replicate 10 0; bn_activemembers := 0;
               bn_slots := 10; bn_buffer := buffer |} in
  let! held := pthread_mutex_lock held in
  let! ' (listmem, nodelist) := libtrace_list_push_back listmem nodelist (Some bnode) in
  let! held := pthread_mutex_unlock held in
  Ok {| b_nextid := b_nextid b; b_node := Some bnode; b_packets := b_packets b;
        b_nodelist := nodelist; b_lock := held; b_nodes := <[bnode := nd]> nodes;
        b_listmem := listmem; b_freed := freed |}.

(** The slot of an id in a bucket; a [uint16_t]. *)
Definition bucket_slot (startindex id : Z) : Z :=
  u16 (if id <? startindex then MAX_OUTSTANDING - startindex + id - 1 else id - startindex).

(** [realloc] and [memset] of ten more slots. *)
Definition grow_slots (nd : libtrace_bucket_node_t) : outcome (list Z * Z) :=
  let slots := u16 (bn_slots nd + 10) in
  let released := take (Z.to_nat slots) (bn_released nd)
                  ++ replicate (Z.to_nat slots - length (bn_released nd)) 0 in
  let! released := bytes_memset released (slots - 10) 10 0 in
  Ok (released, slots).

(** Where the source waits for the condition variable the model has the fault
    [Blocked]. *)
Definition libtrace_push_into_bucket (b : libtrace_bucket_t) : outcome (libtrace_bucket_t * Z) :=
  let! held := pthread_mutex_lock (b_lock b) in
  match b_node b with
  | None => let! held := pthread_mutex_unlock held in
            Ok (b_update b (b_nextid b) (b_packets b) (b_nodes b) held, 0)
  | Some _ =>
      let nextid := if MAX_OUTSTANDING <=? b_nextid b then 1 else b_nextid b in
      let! ' (n, nd) := bn_load (b_nodes b) (b_node b) in
      if bn_startindex nd =? 0 then
        let! p := packets_get (b_packets b) nextid in
        match p with
        | Some _ => Fault Blocked
        | None =>
            let! released := aset (bn_released nd) 0 1 in
            let nd' := {| bn_startindex := nextid; bn_released := released; bn_activemembers := 1;
                          bn_slots := bn_slots nd; bn_buffer := bn_buffer nd |} in
            let! packets := packets_set (b_packets b) nextid (Some n) in
            let! held := pthread_mutex_unlock held in
            Ok (b_update b (u64 (nextid + 1)) packets (<[n := nd']> (b_nodes b)) held, nextid)
        end
      else
        let s := bucket_slot (bn_startindex nd) nextid in
        let! ' (released, slots) :=
          if bn_slots nd <=? s then grow_slots nd else Ok (bn_released nd, bn_slots nd) in
        let! p := packets_get (b_packets b) nextid in
        match p with
        | Some _ => Fault Blocked
        | None =>
            let! packets := packets_set (b_packets b) nextid (Some n) in
            let! released := aset released s 1 in
            let nd' := {| bn_startindex := bn_startindex nd; bn_released := released;
                          bn_activemembers := u16 (bn_activemembers nd + 1);
                          bn_slots := slots; bn_buffer := bn_buffer nd |} in
            let nextid' := u64 (nextid + 1) in
            let! held := pthread_mutex_unlock held in
            Ok (b_update b nextid' packets (<[n := nd']> (b_nodes b)) held, u64 (nextid' - 1))
        end
  end.

(** The loop over the slots of the front bucket from number [i] on, [n] slots to
    go: ids that were released become free. *)
Fixpoint free_slots (n : nat) (released : list Z) (i startindex : Z) (packets : gmap Z loc)
  : outcome (gmap Z loc) :=
  match n with
  | O => Ok packets
  | S n' =>
      let! r := aget released i in
      let! packets :=
        if r =? 2 then
          let index := i + startindex in
          let index := if MAX_OUTSTANDING <=? index then index - (MAX_OUTSTANDING - 1) else index in
          packets_set packets index None
        else Ok packets in
      free_slots n' released (i + 1) startindex packets
  end.

(** [while (libtrace_list_get_size(b->nodelist) > 1)]: every round removes a
    bucket. *)
Fixpoint free_front (fuel : nat) (b : libtrace_bucket_t) : outcome libtrace_bucket_t :=
  match fuel with
  | O => Fault OutOfFuel
  | S fuel' =>
      if libtrace_list_get_size (b_nodelist b) <=? 1 then Ok b
      else
        let! lnode := libtrace_list_get_index (b_listmem b) (b_nodelist b) 0 in
        let! lnode := load (b_listmem b) lnode in
        let! ' (front, nd) := bn_load (b_nodes b) (Some (nd_data lnode)) in
        if 0 <? bn_activemembers nd then Ok b
        else if bool_decide (Some front = b_node b) then Ok b
        else
          let! _ := oassert (bool_decide (nd_next lnode ≠ None)) in
          let! packets := free_slots (Z.to_nat (bn_slots nd)) (bn_released nd) 0 (bn_startindex nd)
            (b_packets b) in
          let freed := clear_bucket_node nd (b_freed b) in
          let! ' (listmem, nodelist, _) := libtrace_list_pop_front (b_listmem b) (b_nodelist b) true in
          free_front fuel'
            {| b_nextid := b_nextid b; b_node := b_node b; b_packets := packets;
               b_nodelist := nodelist; b_lock := b_lock b; b_nodes := delete front (b_nodes b);
               b_listmem := listmem; b_freed := freed |}
  end.

Definition libtrace_release_bucket_id (b : libtrace_bucket_t) (id : Z) : outcome libtrace_bucket_t :=
  let! _ := oassert (negb (id =? 0)) in
  let! held := pthread_mutex_lock (b_lock b) in
  let! p := packets_get (b_packets b) id in
  let! _ := oassert (bool_decide (p ≠ None)) in
  let! ' (n, nd) := bn_load (b_nodes b) p in
  let s := bucket_slot (bn_startindex nd) id in
  let! _ := oassert (s <? bn_slots nd) in
  let! r := aget (bn_released nd) s in
  let! _ := oassert (negb (r =? 0)) in
  let! b :=
    if r =? 1 then
      let previd := if b_nextid b =? 1 then MAX_OUTSTANDING - 1 else u64 (b_nextid b - 1) in
      let last := bool_decide (Some n = b_node b) && (id =? previd) in
      let! packets := if last then packets_set (b_packets b) id None else Ok (b_packets b) in
      let! released := aset (bn_released nd) s (if last then 0 else 2) in
      let nd' :=
        {| bn_startindex := if last && (id =? bn_startindex nd) then 0 else bn_startindex nd;
           bn_released := released; bn_activemembers := u16 (bn_activemembers nd - 1);
           bn_slots := bn_slots nd; bn_buffer := bn_buffer nd |} in
      Ok (b_update b (if last then previd else b_nextid b) packets (<[n := nd']> (b_nodes b)) held)
    else Ok (b_update b (b_nextid b) (b_packets b) (b_nodes b) held) in
  let! b := free_front (S (Z.to_nat (libtrace_list_get_size (b_nodelist b)))) b in
  let! held := pthread_mutex_unlock (b_lock b) in
  Ok (b_update b (b_nextid b) (b_packets b) (b_nodes b) held).

(** ** Slots and ids *)

(** The slot of an id, and the id of a slot, before truncation to sixteen bits. *)
Definition slot_of (start id : Z) : Z :=
  if id <? start then MAX_OUTSTANDING - start + id - 1 else id - start.
Definition id_of (start i : Z) : Z :=
  if MAX_OUTSTANDING <=? i + start then i + start - (MAX_OUTSTANDING - 1) else i + start.
Definition valid_id (id : Z) : Prop := 1 ≤ id < MAX_OUTSTANDING.

Lemma slot_of_range start id : valid_id start → valid_id id → 0 ≤ slot_of start id < MAX_OUTSTANDING - 1.
Proof. unfold valid_id, slot_of. intros. destruct (Z.ltb_spec id start); lia. Qed.

Lemma id_of_valid start i : valid_id start → 0 ≤ i < MAX_OUTSTANDING - 1 → valid_id (id_of start i).
Proof. unfold valid_id, id_of. intros. destruct (Z.leb_spec MAX_OUTSTANDING (i + start)); lia. Qed.

Lemma id_of_slot start id : valid_id start → valid_id id → id_of start (slot_of start id) = id.
Proof.
  unfold valid_id, id_of, slot_of. intros. destruct (Z.ltb_spec id start);
    destruct (Z.leb_spec MAX_OUTSTANDING (MAX_OUTSTANDING - start + id - 1 + start));
    destruct (Z.leb_spec MAX_OUTSTANDING (id - start + start)); lia.
Qed.

Lemma slot_of_id start i :
  valid_id start → 0 ≤ i < MAX_OUTSTANDING - 1 → slot_of start (id_of start i) = i.
Proof.
  unfold valid_id, id_of, slot_of. intros. destruct (Z.leb_spec MAX_OUTSTANDING (i + start));
    [destruct (Z.ltb_spec (i + start - (MAX_OUTSTANDING - 1)) start)|destruct (Z.ltb_spec (i + start) start)]; lia.
Qed.

Lemma slot_of_inj start a b :
  valid_id start → valid_id a → valid_id b → slot_of start a = slot_of start b → a = b.
Proof. intros Hs Ha Hb E. by rewrite <- (id_of_slot start a), E, id_of_slot. Qed.

(** The next id, and the one before. *)
Definition norm_id (nextid : Z) : Z := if MAX_OUTSTANDING <=? nextid then 1 else nextid.
Definition prev_id (nextid : Z) : Z := if nextid =? 1 then MAX_OUTSTANDING - 1 else nextid - 1.

Lemma norm_id_valid n : 1 ≤ n ≤ MAX_OUTSTANDING → valid_id (norm_id n).
Proof. unfold norm_id, valid_id. intros. destruct (Z.leb_spec MAX_OUTSTANDING n); lia. Qed.

(** Going on by one id goes on by one slot, up to a full circle. *)
Lemma slot_of_next start n :
  valid_id start → valid_id n → slot_of start n < MAX_OUTSTANDING - 2 →
  slot_of start (norm_id (n + 1)) = slot_of start n + 1.
Proof.
  unfold valid_id, slot_of, norm_id. intros.
  repeat match goal with
  | |- context [?x <? ?y] => destruct (Z.ltb_spec x y)
  | |- context [?x <=? ?y] => destruct (Z.leb_spec x y)
  | H : context [?x <? ?y] |- _ => destruct (Z.ltb_spec x y)
  end; lia.
Qed.

Lemma slot_of_prev start n :
  valid_id start → 1 ≤ n ≤ MAX_OUTSTANDING → 0 < slot_of start (norm_id n) →
  slot_of start (prev_id n) = slot_of start (norm_id n) - 1.
Proof.
  unfold valid_id, slot_of, norm_id, prev_id. intros.
  repeat match goal with
  | |- context [?x <? ?y] => destruct (Z.ltb_spec x y)
  | |- context [?x <=? ?y] => destruct (Z.leb_spec x y)
  | |- context [?x =? ?y] => destruct (Z.eqb_spec x y)
  | H : context [?x <? ?y] |- _ => destruct (Z.ltb_spec x y)
  | H : context [?x <=? ?y] |- _ => destruct (Z.leb_spec x y)
  end; lia.
Qed.

(** ** Well-formed buckets *)
Fixpoint count1 (l : list Z) : Z :=
  match l with [] => 0 | r :: l' => (if r =? 1 then 1 else 0) + count1 l' end.

Lemma count1_range l : 0 ≤ count1 l ≤ Zlen l.
Proof.
  induction l as [|r l IH]; cbn [count1]; [done|]. rewrite Zlen_cons. destruct (r =? 1); lia.
Qed.

Lemma count1_insert l : ∀ i r v, l !! i = Some r →
  count1 (<[i := v]> l) = count1 l - (if r =? 1 then 1 else 0) + (if v =? 1 then 1 else 0).
Proof.
  induction l as [|x l IH]; intros [|i] r v Hi; try done.
  - injection Hi as ->. change (<[0%nat:=v]> (r :: l)) with (v :: l). cbn [count1]. lia.
  - change (<[S i:=v]> (x :: l)) with (x :: <[i:=v]> l). cbn [count1]. rewrite (IH i r v Hi). lia.
Qed.

Lemma count1_app l k : count1 (l ++ k) = count1 l + count1 k.
Proof. induction l as [|r l IH]; cbn; [done|]. rewrite IH. lia. Qed.

Lemma count1_zero l : (∀ i, l !! i ≠ Some 1) → count1 l = 0.
Proof.
  induction l as [|r l IH]; intros Hl; [done|]. cbn. rewrite IH by (intros i; apply (Hl (S i))).
  destruct (Z.eqb_spec r 1) as [->|]; [by specialize (Hl 0%nat)|done].
Qed.

Lemma count1_none l : count1 l = 0 → ∀ i, l !! i ≠ Some 1.
Proof.
  induction l as [|r l IH]; intros Hc [|i]; try done; cbn in *; pose proof (count1_range l).
  - intros [= ->]. change (1 =? 1) with true in Hc. cbn in Hc. lia.
  - apply IH. destruct (r =? 1); lia.
Qed.

Record node_ok (nd : libtrace_bucket_node_t) : Prop := {
  no_slots : 0 < bn_slots nd < 2 ^ 16;
  no_len : Zlen (bn_released nd) = bn_slots nd;
  no_vals : Forall (λ r, r = 0 ∨ r = 1 ∨ r = 2) (bn_released nd);
  no_active : bn_activemembers nd = count1 (bn_released nd);
  no_unused : bn_startindex nd = 0 → Forall (λ r, r = 0) (bn_released nd);
  no_start : bn_startindex nd ≠ 0 → valid_id (bn_startindex nd);
}.

(** The state of an id in a bucket: 1 in use, 2 released, 0 neither. *)
Definition slot_state (nd : libtrace_bucket_node_t) (id : Z) : option Z :=
  bn_released nd !! Z.to_nat (slot_of (bn_startindex nd) id).

Definition id_state (nd : libtrace_bucket_node_t) (id r : Z) : Prop :=
  bn_startindex nd ≠ 0 ∧ valid_id id ∧ slot_state nd id = Some r.

Definition has_id (nd : libtrace_bucket_node_t) (id : Z) : Prop := ∃ r, r ≠ 0 ∧ id_state nd id r.

Definition buffers (nodes : gmap loc libtrace_bucket_node_t) (xs : list loc) : list Z :=
  omap (λ n, nodes !! n ≫= bn_buffer) xs.

(** ** The invariant

    [xs] are the buckets in the chain, [created] the buffers handed over so far,
    and [out] the ids in use, each with the buffer of its bucket.  The first part
    does not depend on which bucket is the current one. *)
Record buckets_ok (b : libtrace_bucket_t) (xs : list loc) (created : list Z)
    (out : gmap Z (option Z)) : Prop := {
  bo_list : ∃ l, b_nodelist b = Some l ∧ list_rep (b_listmem b) l xs;
  bo_nodup : NoDup xs;
  bo_dom : ∀ n, n ∈ xs ↔ is_Some (b_nodes b !! n);
  bo_ok : ∀ n nd, b_nodes b !! n = Some nd → node_ok nd;
  bo_packets : ∀ id n, b_packets b !! id = Some n ↔ ∃ nd, b_nodes b !! n = Some nd ∧ has_id nd id;
  bo_out : ∀ id buf, out !! id = Some buf ↔
    ∃ n nd, b_packets b !! id = Some n ∧ b_nodes b !! n = Some nd ∧
      slot_state nd id = Some 1 ∧ bn_buffer nd = buf;
  bo_next : 1 ≤ b_nextid b ≤ MAX_OUTSTANDING;
  bo_bufs : created ≡ₚ b_freed b ++ buffers (b_nodes b) xs;
}.

(** The ids of the current bucket are consecutive up to the next id. *)
Definition next_ok (b : libtrace_bucket_t) (nd : libtrace_bucket_node_t) : Prop :=
  let k := slot_of (bn_startindex nd) (norm_id (b_nextid b)) in
  1 ≤ k ≤ bn_slots nd ∧ ∀ i r, k ≤ Z.of_nat i → bn_released nd !! i = Some r → r = 0.

Record bucket_inv (b : libtrace_bucket_t) (xs : list loc) (created : list Z)
    (out : gmap Z (option Z)) : Prop := {
  bi_ok :> buckets_ok b xs created out;
  bi_node : b_node b = last xs;
  bi_used : ∀ n nd, b_nodes b !! n = Some nd → bn_startindex nd = 0 → b_node b = Some n;
  bi_free : ∀ n nd, b_node b = Some n → b_nodes b !! n = Some nd → bn_startindex nd ≠ 0 → next_ok b nd;
  bi_lock : b_lock b = false;
}.

Lemma bucket_init_inv : bucket_inv libtrace_bucket_init [] [] ∅.
Proof.
  unfold libtrace_bucket_init. destruct (@list_init_rep loc sizeof_bucket_node) as (l & -> & R).
  split; [split|..]; cbn; try done.
  - by exists l.
  - constructor.
  - intros n. split; [set_solver|by intros [? ?]].
  - intros id n. split; [done|]. by intros (? & ? & _).
  - intros id buf. split; [done|]. by intros (? & ? & ? & _).
Qed.

Lemma buffers_fresh nodes xs n nd : n ∉ xs → buffers (<[n := nd]> nodes) xs = buffers nodes xs.
Proof.
  intros Hn. unfold buffers. apply list_omap_ext. apply Forall_Forall2_diag, Forall_forall.
  intros m Hm. rewrite lookup_insert_ne; [done|]. intros ->. done.
Qed.

Lemma buffers_delete nodes xs n : n ∉ xs → buffers (delete n nodes) xs = buffers nodes xs.
Proof.
  intros Hn. unfold buffers. apply list_omap_ext. apply Forall_Forall2_diag, Forall_forall.
  intros m Hm. rewrite lookup_delete_ne; [done|]. intros ->. done.
Qed.

Lemma buffers_update nodes xs n nd nd' :
  nodes !! n = Some nd → bn_buffer nd' = bn_buffer nd → buffers (<[n := nd']> nodes) xs = buffers nodes xs.
Proof.
  intros Hn Hb. unfold buffers. apply list_omap_ext. apply Forall_Forall2_diag, Forall_forall.
  intros m _. destruct (decide (m = n)) as [->|Hne].
  - rewrite lookup_insert_eq, Hn. done.
  - by rewrite lookup_insert_ne.
Qed.

Lemma buffers_snoc nodes xs n nd :
  nodes !! n = Some nd → buffers nodes (xs ++ [n]) = buffers nodes xs ++ option_list (bn_buffer nd).
Proof. intros Hn. unfold buffers. rewrite omap_app. f_equal. simpl. rewrite Hn. simpl. by destruct (bn_buffer nd). Qed.

Lemma buffers_cons nodes xs n nd :
  nodes !! n = Some nd → buffers nodes (n :: xs) = option_list (bn_buffer nd) ++ buffers nodes xs.
Proof. intros Hn. unfold buffers. simpl. rewrite Hn. simpl. by destruct (bn_buffer nd). Qed.

Lemma clear_bucket_node_buffers nd freed :
  clear_bucket_node nd freed = freed ++ option_list (bn_buffer nd).
Proof. unfold clear_bucket_node. destruct (bn_buffer nd); simpl; [done|by rewrite app_nil_r]. Qed.

(** ** A new bucket *)
Lemma drop_unused b xs n nd created out :
  buckets_ok b (xs ++ [n]) created out → b_nodes b !! n = Some nd → bn_startindex nd = 0 →
  Zlen (xs ++ [n]) ≤ SIZE_MAX →
  ∃ h l, libtrace_list_pop_back (b_listmem b) (b_nodelist b) true = Ok (h, l, (1, Some n)) ∧
    buckets_ok {| b_nextid := b_nextid b; b_node := b_node b; b_packets := b_packets b;
                  b_nodelist := l; b_lock := b_lock b; b_nodes := delete n (b_nodes b);
                  b_listmem := h; b_freed := clear_bucket_node nd (b_freed b) |} xs created out.
Proof.
  intros [(l & Hl & R) Hnd Hdom Hok Hp Ho Hn Hb] Hnode Hst Hlen.
  destruct (list_pop_back_rep _ _ _ _ R Hlen) as (h' & l' & Hpop & R').
  assert (n ∉ xs) as Hnin by (apply NoDup_app in Hnd as (_ & Hx & _); set_solver).
  assert (∀ m nd', b_nodes b !! m = Some nd' → (∃ id, has_id nd' id) → m ≠ n) as Hne.
  { intros m nd' Hm (id & r & _ & Hst' & _) ->. rewrite Hm in Hnode. by simplify_eq. }
  exists h', (Some l'). rewrite Hl. split; [done|]. split; cbn.
  - by exists l'.
  - by apply NoDup_app in Hnd as (? & _ & _).
  - intros m. rewrite lookup_delete_is_Some, <- Hdom. set_solver.
  - intros m nd' [_ Hm]%lookup_delete_Some. by eapply Hok.
  - intros id m. rewrite Hp. split; intros (nd' & Hm & Hi); exists nd'; (split; [|done]).
    + rewrite lookup_delete_ne; [done|]. intros <-. by eapply (Hne n nd'); [|by exists id|].
    + by apply lookup_delete_Some in Hm as [_ Hm].
  - intros id buf. rewrite Ho. split; intros (m & nd' & Hpm & Hm & ?); exists m, nd'; (split; [done|split; [|done]]).
    + rewrite lookup_delete_ne; [done|]. intros <-. apply Hp in Hpm as (nd2 & Hm2 & Hi).
      by eapply (Hne n nd2); [|by exists id|].
    + by apply lookup_delete_Some in Hm as [_ Hm].
  - done.
  - rewrite Hb, buffers_delete, (buffers_snoc _ _ _ nd Hnode), clear_bucket_node_buffers by done.
    rewrite <- app_assoc. apply Permutation_app_head, Permutation_app_comm.
Qed.

Lemma add_bucket b xs n buf created out :
  buckets_ok b xs created out → b_nodes b !! n = None →
  (∀ m nd, b_nodes b !! m = Some nd → bn_startindex nd ≠ 0) → Zlen xs < SIZE_MAX →
  ∃ h l, libtrace_list_push_back (b_listmem b) (b_nodelist b) (Some n) = Ok (h, l) ∧
    bucket_inv {| b_nextid := b_nextid b; b_node := Some n; b_packets := b_packets b;
                  b_nodelist := l; b_lock := false;
                  b_nodes := <[n := {| bn_startindex := 0; bn_released := replicate 10 0;
                                       bn_activemembers := 0; bn_slots := 10; bn_buffer := buf |}]> (b_nodes b);
                  b_listmem := h; b_freed := b_freed b |} (xs ++ [n]) (created ++ option_list buf) out.
Proof.
  intros [(l & Hl & R) Hnd Hdom Hok Hp Ho Hn Hb] Hnone Hused Hlen.
  destruct (list_push_back_rep _ _ _ n R Hlen) as (h' & l' & Hpush & R').
  assert (n ∉ xs) as Hnin by (rewrite Hdom, Hnone; by intros [? ?]).
  assert (∀ m nd, b_nodes b !! m = Some nd → m ≠ n) as Hne by (intros m nd Hm ->; congruence).
  exists h', (Some l'). rewrite Hl. split; [done|]. split; [split| | | |]; cbn.
  - by exists l'.
  - apply NoDup_app. split_and!; [done|set_solver|apply NoDup_singleton].
  - intros m. rewrite lookup_insert_is_Some, elem_of_app, list_elem_of_singleton, Hdom.
    destruct (decide (n = m)) as [->|]; [by naive_solver|]. naive_solver.
  - intros m nd [[<- <-]|[_ Hm]]%lookup_insert_Some; [|by eapply Hok].
    split; cbn; try done; try lia; [repeat (constructor; [by left|]); constructor|intros _; repeat constructor].
  - intros id m. rewrite Hp. split.
    + intros (nd & Hm & Hi). exists nd. split; [|done]. rewrite lookup_insert_ne; [done|].
      intros ->. by eapply Hne.
    + intros (nd & [[<- <-]|[_ Hm]]%lookup_insert_Some & Hi); [by destruct Hi as (r & _ & Hz & _)|by exists nd].
  - intros id buf'. rewrite Ho. split.
    + intros (m & nd & Hpm & Hm & ?). exists m, nd. split; [done|]. split; [|done].
      rewrite lookup_insert_ne; [done|]. intros ->. by eapply Hne.
    + intros (m & nd & Hpm & Hm & ?). exists m, nd. split; [done|]. split; [|done].
      apply Hp in Hpm as (nd' & Hm' & _). rewrite lookup_insert_ne in Hm; [done|]. intros ->. by eapply Hne.
  - done.
  - erewrite Hb, buffers_snoc by apply lookup_insert_eq. rewrite buffers_fresh by done. by rewrite app_assoc.
  - by rewrite last_snoc.
  - intros m nd [[<- <-]|[_ Hm]]%lookup_insert_Some Hst; [done|by apply Hused in Hm].
  - intros m nd [= <-]. rewrite lookup_insert_eq. by intros [= <-].
  - done.
Qed.

Lemma create_new_bucket_ok b xs created out buf :
  bucket_inv b xs created out → Zlen xs < SIZE_MAX →
  ∃ b' xs', libtrace_create_new_bucket b buf = Ok b' ∧
    bucket_inv b' xs' (created ++ option_list buf) out ∧ Zlen xs' ≤ Zlen xs + 1.
Proof.
  intros [Hok Hnode Hused Hfree Hlock] Hlen. unfold libtrace_create_new_bucket. rewrite Hlock.
  cbn [obind pthread_mutex_lock].
  assert (b_nodes b !! fresh (dom (b_nodes b)) = None) as Hfresh by apply not_elem_of_dom, is_fresh.
  generalize dependent (fresh (dom (b_nodes b))). intros n Hfresh.
  destruct xs as [|n0 xs _] using rev_ind.
  { rewrite Hnode. cbn. destruct (add_bucket b [] n buf created out) as (h & l & -> & Hinv); try done.
    { intros m nd Hm. assert (m ∈ []) by (apply (bo_dom _ _ _ _ Hok); eauto). set_solver. }
    eexists _, [n]. split; [done|]. split; [done|]. done. }
  rewrite last_snoc in Hnode. rewrite Hnode.
  assert (is_Some (b_nodes b !! n0)) as [nd0 Hn0] by (apply (bo_dom _ _ _ _ Hok); set_solver).
  cbn [bn_load]. rewrite Hn0. cbn [obind]. rewrite Zlen_app in Hlen. change (Zlen [n0]) with 1 in Hlen.
  assert (n ≠ n0) as Hne by (intros ->; congruence).
  destruct (Z.eqb_spec (bn_startindex nd0) 0) as [Hst|Hst].
  - destruct (drop_unused b xs n0 nd0 created out) as (h & l & -> & Hok1); try done.
    { rewrite Zlen_app. change (Zlen [n0]) with 1. lia. }
    cbn [obind pthread_mutex_unlock pthread_mutex_lock].
    destruct (add_bucket _ xs n buf created out Hok1) as (h' & l' & Hpush & Hinv).
    { cbn. by rewrite lookup_delete_ne. }
    { cbn. intros m nd [Hm0 Hm]%lookup_delete_Some Hz. apply Hused in Hm; [|done]. congruence. }
    { lia. }
    cbn [b_listmem b_nodelist] in Hpush. rewrite Hpush. cbn [obind pthread_mutex_unlock].
    eexists _, (xs ++ [n]). split; [done|]. split; [exact Hinv|]. rewrite !Zlen_app. change (Zlen [n0]) with 1.
    change (Zlen [n]) with 1. lia.
  - cbn [obind pthread_mutex_unlock pthread_mutex_lock].
    destruct (add_bucket b (xs ++ [n0]) n buf created out Hok) as (h' & l' & Hpush & Hinv); try done.
    { intros m nd Hm Hz. pose proof (Hused _ _ Hm Hz). congruence. }
    { rewrite Zlen_app. change (Zlen [n0]) with 1. lia. }
    rewrite Hpush. cbn [obind pthread_mutex_unlock].
    eexists _, ((xs ++ [n0]) ++ [n]). split; [done|]. split; [exact Hinv|]. rewrite !Zlen_app. done.
Qed.

(** ** Changing the state of one id *)
Lemma update_node b xs created out n nd nd' i0 packets' nextid' lock out' :
  buckets_ok b xs created out → b_nodes b !! n = Some nd → node_ok nd' → bn_buffer nd' = bn_buffer nd →
  1 ≤ nextid' ≤ MAX_OUTSTANDING →
  b_packets b !! i0 = None ∨ b_packets b !! i0 = Some n →
  (∀ id r, id ≠ i0 → r ≠ 0 → id_state nd' id r ↔ id_state nd id r) →
  (∀ id, id ≠ i0 → packets' !! id = b_packets b !! id) →
  (∀ id, id ≠ i0 → out' !! id = out !! id) →
  (packets' !! i0 = Some n ∧ has_id nd' i0 ∨ packets' !! i0 = None ∧ ¬ has_id nd' i0) →
  (out' !! i0 = Some (bn_buffer nd) ∧ slot_state nd' i0 = Some 1 ∧ packets' !! i0 = Some n ∨
   out' !! i0 = None ∧ (packets' !! i0 = None ∨ slot_state nd' i0 ≠ Some 1)) →
  buckets_ok (b_update b nextid' packets' (<[n := nd']> (b_nodes b)) lock) xs created out'.
Proof.
  intros [Hl Hnd Hdom Hok Hp Ho Hn Hb] Hnode Hok' Hbuf Hnext Hi0 Hst Hpk Hout Hp0 Ho0.
  assert (∀ id, id ≠ i0 → has_id nd' id ↔ has_id nd id) as Hhas.
  { intros id Hne. split; intros (r & Hr & Hs); exists r; (split; [done|]); by apply Hst. }
  split; cbn; try done.
  - intros m. rewrite lookup_insert_is_Some, Hdom. destruct (decide (n = m)) as [->|]; naive_solver.
  - intros m nd2 [[_ <-]|[_ Hm]]%lookup_insert_Some; [done|by eapply Hok].
  - intros id m. destruct (decide (id = i0)) as [->|Hne].
    + destruct Hp0 as [[-> Hh]|[-> Hh]]; split.
      * intros [= <-]. exists nd'. by rewrite lookup_insert_eq.
      * intros (nd2 & [[<- <-]|[Hmn Hm]]%lookup_insert_Some & Hh2); [done|].
        assert (b_packets b !! i0 = Some m) by (apply Hp; by exists nd2). naive_solver.
      * done.
      * intros (nd2 & [[<- <-]|[Hmn Hm]]%lookup_insert_Some & Hh2); [done|].
        assert (b_packets b !! i0 = Some m) by (apply Hp; by exists nd2). naive_solver.
    + rewrite Hpk, Hp by done. split.
      * intros (nd2 & Hm & Hh2). destruct (decide (m = n)) as [->|].
        -- exists nd'. rewrite lookup_insert_eq. split; [done|]. apply Hhas; [done|]. congruence.
        -- exists nd2. by rewrite lookup_insert_ne.
      * intros (nd2 & [[<- <-]|[Hmn Hm]]%lookup_insert_Some & Hh2); [|by exists nd2].
        exists nd. split; [done|]. by apply Hhas.
  - intros id buf. destruct (decide (id = i0)) as [->|Hne].
    + destruct Ho0 as [(-> & Hs1 & Hpi)|[-> Hs1]]; split.
      * intros [= <-]. exists n, nd'. by rewrite lookup_insert_eq.
      * intros (m & nd2 & Hpm & Hm & _ & <-). rewrite Hpi in Hpm. injection Hpm as <-.
        rewrite lookup_insert_eq in Hm. injection Hm as <-. by rewrite Hbuf.
      * done.
      * intros (m & nd2 & Hpm & Hm & Hs & _). destruct Hp0 as [[Hpi _]|[Hpi _]]; [|congruence].
        rewrite Hpi in Hpm. injection Hpm as <-. rewrite lookup_insert_eq in Hm. injection Hm as <-.
        destruct Hs1; congruence.
    + rewrite Hout, Ho, Hpk by done. split; intros (m & nd2 & Hpm & Hm & Hs & Hbm).
      * exists m. destruct (decide (m = n)) as [->|]; [|exists nd2; by rewrite lookup_insert_ne].
        exists nd'. rewrite lookup_insert_eq. rewrite Hnode in Hm. injection Hm as <-. split_and!; try done.
        -- apply Hp in Hpm as (nd3 & Hn3 & r & Hr & Hz & Hv & _). rewrite Hnode in Hn3. injection Hn3 as <-.
           assert (id_state nd' id 1) as (_ & _ & ?) by (by apply Hst). done.
        -- congruence.
      * exists m. apply lookup_insert_Some in Hm as [[<- <-]|[Hmn Hm]]; [|by exists nd2].
        exists nd. split_and!; try done; [|congruence].
        apply Hp in Hpm as (nd3 & Hn3 & Hh3). rewrite Hnode in Hn3. injection Hn3 as <-.
        apply Hhas in Hh3 as (r & Hr & Hz & Hv & _); [|done].
        assert (id_state nd id 1) as (_ & _ & ?) by (by apply Hst). done.
  - by rewrite (buffers_update _ _ _ nd).
Qed.

(** ** Adding a packet *)
Lemma packets_get_ok ps id : valid_id id → packets_get ps id = Ok (ps !! id).
Proof.
  intros [? ?]. unfold packets_get.
  by rewrite (proj2 (Z.leb_le 0 id)), (proj2 (Z.leb_le id _)) by lia.
Qed.

Lemma packets_set_ok ps id p :
  valid_id id → packets_set ps id p = Ok (match p with Some n => <[id := n]> ps | None => delete id ps end).
Proof.
  intros [? ?]. unfold packets_set.
  by rewrite (proj2 (Z.leb_le 0 id)), (proj2 (Z.leb_le id _)) by lia.
Qed.

Lemma bucket_slot_of start id nd :
  node_ok nd → bn_startindex nd = start → start ≠ 0 → valid_id id → slot_of start id < 2 ^ 16 →
  bucket_slot start id = slot_of start id.
Proof.
  intros Hok <- Hz Hv Hlt. pose proof (slot_of_range _ id (no_start _ Hok Hz) Hv).
  unfold bucket_slot. fold (slot_of (bn_startindex nd) id). apply u16_small. lia.
Qed.

Lemma next_fresh_out b xs created out id :
  buckets_ok b xs created out → b_packets b !! id = None → out !! id = None.
Proof.
  intros [_ _ _ _ _ Ho _ _] Hp. destruct (out !! id) as [buf|] eqn:E; [|done].
  apply Ho in E as (n & nd & Hpn & _). congruence.
Qed.

Lemma u64_next n : valid_id n → u64 (n + 1) = n + 1 ∧ 1 ≤ n + 1 ≤ MAX_OUTSTANDING.
Proof. intros [? ?]. split; [apply u64_small|]; lia. Qed.

(** The current bucket's first packet. *)
Lemma first_packet_ok b xs created out n nd nextid :
  buckets_ok b xs created out → b_nodes b !! n = Some nd → bn_startindex nd = 0 → valid_id nextid →
  b_packets b !! nextid = None → b_node b = Some n → b_node b = last xs →
  (∀ m nd, b_nodes b !! m = Some nd → bn_startindex nd = 0 → b_node b = Some m) →
  bucket_inv (b_update b (nextid + 1) (<[nextid := n]> (b_packets b))
    (<[n := {| bn_startindex := nextid; bn_released := <[0%nat := 1]> (bn_released nd);
               bn_activemembers := 1; bn_slots := bn_slots nd; bn_buffer := bn_buffer nd |}]> (b_nodes b)) false)
    xs created (<[nextid := bn_buffer nd]> out).
Proof.
  intros Hok Hn Hz Hv Hp Hcur Hlast Hused.
  pose proof (bo_ok _ _ _ _ Hok _ _ Hn) as [Hsl Hlen Hvals Hact Hun _]. specialize (Hun Hz).
  assert (∃ rel, bn_released nd = 0 :: rel ∧ Forall (λ r, r = 0) rel) as (rel & Erel & Hrel).
  { destruct (bn_released nd) as [|r rel]; [change (Zlen []) with 0 in Hlen; lia|].
    inversion Hun. subst. by exists rel. }
  rewrite Erel in *. change (<[0%nat:=1]> (0 :: rel)) with (1 :: rel).
  assert (slot_of nextid nextid = 0) as Hs0.
  { unfold slot_of. rewrite Z.ltb_irrefl. lia. }
  assert (∀ i r, (1 :: rel) !! i = Some r → r ≠ 0 → i = 0%nat) as Hone.
  { intros [|i] r Hi Hr; [done|]. exfalso. apply Hr. by eapply (proj1 (Forall_lookup _ _) Hrel). }
  pose proof (u64_next nextid Hv) as [_ Hnx]. destruct Hv as [Hv1 Hv2].
  split; [eapply (update_node b xs created out n nd _ nextid)|..]; try done.
  - split; cbn; try done; try lia.
    + constructor; [by right; left|]. eapply Forall_impl; [exact Hrel|]. by left.
    + rewrite (count1_zero rel); [done|]. intros i Hi.
      pose proof (proj1 (Forall_lookup _ _) Hrel _ _ Hi) as E. done.
  - by left.
  - intros id r Hne Hr. split; [|by intros (? & _)]. intros (_ & Hvi & Hs). exfalso. apply Hne.
    unfold slot_state in Hs. cbn [bn_startindex bn_released] in Hs.
    apply (Hone _ _ Hs) in Hr as E. assert (slot_of nextid id = 0) as E0.
    { pose proof (slot_of_range nextid id ltac:(split; lia) Hvi). lia. }
    apply (slot_of_inj nextid); [split; lia|done|split; lia|congruence].
  - intros id Hne. by rewrite lookup_insert_ne.
  - intros id Hne. by rewrite lookup_insert_ne.
  - left. rewrite lookup_insert_eq. split; [done|]. exists 1. split; [done|]. split_and!; [cbn; lia|split; lia|].
    unfold slot_state. cbn [bn_startindex bn_released]. by rewrite Hs0.
  - left. rewrite !lookup_insert_eq. split_and!; try done.
    unfold slot_state. cbn [bn_startindex bn_released]. by rewrite Hs0.
  - cbn. intros m nd2 [[<- <-]|[_ Hm]]%lookup_insert_Some Hz2; [cbn in Hz2; lia|by eapply Hused].
  - cbn. intros m nd2 Hm. rewrite Hcur in Hm. injection Hm as <-. rewrite lookup_insert_eq. intros [= <-] _.
    unfold next_ok. cbn [bn_startindex b_nextid b_update bn_slots bn_released].
    rewrite slot_of_next, Hs0 by (try (split; lia); rewrite Hs0; lia). split; [lia|].
    intros i r Hi Hr. destruct (decide (r = 0)) as [|Hr0]; [done|]. apply Hone in Hr; [lia|done].
Qed.

Lemma id_state_insert nd nd' i0 v id r :
  node_ok nd → valid_id i0 → bn_startindex nd ≠ 0 → bn_startindex nd' = bn_startindex nd →
  (∀ i r, r ≠ 0 → bn_released nd' !! i = Some r ↔
     (<[Z.to_nat (slot_of (bn_startindex nd) i0) := v]> (bn_released nd)) !! i = Some r ∨
     (i = Z.to_nat (slot_of (bn_startindex nd) i0) ∧ r = v)) →
  id ≠ i0 → r ≠ 0 → id_state nd' id r ↔ id_state nd id r.
Proof.
  intros Hok Hv Hz Hst Hrel Hne Hr. unfold id_state, slot_state. rewrite Hst.
  split; intros (? & Hvi & Hs); (split_and!; [done..|]);
    pose proof (slot_of_range _ _ (no_start _ Hok Hz) Hvi);
    pose proof (slot_of_range _ _ (no_start _ Hok Hz) Hv);
    (assert (Z.to_nat (slot_of (bn_startindex nd) id) ≠ Z.to_nat (slot_of (bn_startindex nd) i0)) as Hsl;
     [intros E; apply Hne, (slot_of_inj (bn_startindex nd)); [by apply (no_start _ Hok)|done|done|lia]|]).
  - apply Hrel in Hs as [Hs|[Hs _]]; [|done|done]. by rewrite list_lookup_insert_ne in Hs.
  - apply Hrel; [done|]. left. by rewrite list_lookup_insert_ne.
Qed.

Lemma next_packet_ok b xs created out n nd m nextid :
  buckets_ok b xs created out → b_nodes b !! n = Some nd → bn_startindex nd ≠ 0 →
  norm_id (b_nextid b) = nextid → next_ok b nd →
  b_packets b !! nextid = None → b_node b = Some n → b_node b = last xs →
  (∀ m nd, b_nodes b !! m = Some nd → bn_startindex nd = 0 → b_node b = Some m) →
  slot_of (bn_startindex nd) nextid < bn_slots nd + Z.of_nat m < 2 ^ 16 →
  bucket_inv (b_update b (nextid + 1) (<[nextid := n]> (b_packets b))
    (<[n := {| bn_startindex := bn_startindex nd;
               bn_released := <[Z.to_nat (slot_of (bn_startindex nd) nextid) := 1]>
                                (bn_released nd ++ replicate m 0);
               bn_activemembers := u16 (bn_activemembers nd + 1);
               bn_slots := bn_slots nd + Z.of_nat m; bn_buffer := bn_buffer nd |}]> (b_nodes b)) false)
    xs created (<[nextid := bn_buffer nd]> out).
Proof.
  intros Hok Hn Hz Hnorm [Hk Hfree] Hp Hcur Hlast Hused Hslot. cbv zeta in Hk, Hfree. rewrite Hnorm in Hk, Hfree.
  pose proof (bo_ok _ _ _ _ Hok _ _ Hn) as Hno. pose proof (no_start _ Hno Hz) as Hstart.
  pose proof (norm_id_valid _ (bo_next _ _ _ _ Hok)) as Hv. rewrite Hnorm in Hv.
  set (start := bn_startindex nd) in *. set (k := slot_of start nextid) in *.
  set (rel1 := bn_released nd ++ replicate m 0).
  assert (Zlen rel1 = bn_slots nd + Z.of_nat m) as Hlen1.
  { unfold rel1. rewrite Zlen_app, Zlen_replicate, (no_len _ Hno). done. }
  assert (rel1 !! Z.to_nat k = Some 0) as Hk0.
  { destruct (lookup_lt_is_Some_2 rel1 (Z.to_nat k)) as [r Hr]; [unfold Zlen in Hlen1; lia|].
    rewrite Hr. f_equal. apply lookup_app_Some in Hr as [Hr|[_ Hr]]; [apply (Hfree (Z.to_nat k)); [lia|done]|].
    by apply lookup_replicate in Hr as [-> _]. }
  pose proof (count1_range rel1) as Hc1.
  assert (count1 rel1 = count1 (bn_released nd)) as Ec.
  { unfold rel1. rewrite count1_app, (count1_zero (replicate m 0)); [lia|].
    intros i Hi. by apply lookup_replicate in Hi as [? _]. }
  pose proof (count1_insert rel1 (Z.to_nat k) 0 1 Hk0) as Eins. cbn in Eins.
  pose proof (u64_next nextid Hv) as [_ Hnx].
  split; [eapply (update_node b xs created out n nd _ nextid)|..]; try done.
  - split; cbn; try done.
    + lia.
    + by rewrite Zlen_insert.
    + apply Forall_insert; [|by right; left]. apply Forall_app. split; [apply (no_vals _ Hno)|].
      apply Forall_replicate. by left.
    + rewrite Eins, (no_active _ Hno), u16_small; [lia|]. pose proof (count1_range (<[Z.to_nat k:=1]> rel1)).
      rewrite Zlen_insert in *. lia.
  - by left.
  - intros id r Hne Hr. apply (id_state_insert nd _ nextid 1); try done. cbn [bn_released]. intros i r' Hr'.
    fold start k. rewrite !list_lookup_insert_Some. unfold rel1. rewrite lookup_app_Some.
    rewrite length_app, length_replicate. pose proof (no_len _ Hno) as Hl. unfold Zlen in Hl, Hlen1.
    unfold rel1 in Hlen1. rewrite length_app, length_replicate in Hlen1. split.
    + intros [(-> & <- & _)|(Hi & [Hs|[_ Hs]])]; [by right|by left; right|].
      apply lookup_replicate in Hs as [-> _]. done.
    + intros [[(<- & <- & _)|(Hi & Hs)]|[-> ->]].
      * left. split_and!; [done|done|lia].
      * right. split; [done|]. by left.
      * left. split_and!; [done|done|lia].
  - intros id Hne. by rewrite lookup_insert_ne.
  - intros id Hne. by rewrite lookup_insert_ne.
  - left. rewrite lookup_insert_eq. split; [done|]. exists 1. split; [done|]. split_and!; [done..|].
    unfold slot_state. cbn [bn_startindex bn_released]. fold start k. apply list_lookup_insert_eq.
    unfold Zlen in Hlen1. lia.
  - left. rewrite !lookup_insert_eq. split_and!; try done.
    unfold slot_state. cbn [bn_startindex bn_released]. fold start k. apply list_lookup_insert_eq.
    unfold Zlen in Hlen1. lia.
  - cbn. intros m' nd2 [[<- <-]|[_ Hm]]%lookup_insert_Some Hz2; [by cbn in Hz2|by eapply Hused].
  - cbn. intros m' nd2 Hm. rewrite Hcur in Hm. injection Hm as <-. rewrite lookup_insert_eq. intros [= <-] _.
    unfold next_ok. cbn [bn_startindex b_nextid b_update bn_slots bn_released].
    rewrite slot_of_next by (try done; fold k; lia). fold k. split; [lia|].
    intros i r Hi. rewrite list_lookup_insert_ne by lia. intros [Hr|[_ Hr]]%lookup_app_Some.
    + by apply (Hfree i); [lia|].
    + by apply lookup_replicate in Hr as [-> _].
Qed.

Lemma grow_slots_ok nd :
  node_ok nd → bn_slots nd + 10 < 2 ^ 16 →
  grow_slots nd = Ok (bn_released nd ++ replicate 10 0, bn_slots nd + 10).
Proof.
  intros [Hs Hl _ _ _ _] Hlt. unfold grow_slots. rewrite u16_small by lia. unfold Zlen in Hl.
  rewrite take_ge by lia. replace (Z.to_nat (bn_slots nd + 10) - length (bn_released nd))%nat with 10%nat by lia.
  unfold bytes_memset. rewrite Zlen_app, Zlen_replicate. unfold Zlen. rewrite Hl.
  rewrite (proj2 (Z.leb_le 0 _)), (proj2 (Z.leb_le (_ + _) _)) by lia. cbn [andb obind].
  rewrite take_app_length', drop_ge, app_nil_r by (rewrite ?length_app, ?length_replicate; lia). done.
Qed.

(** The current bucket is far from having 65,536 slots. *)
Definition small_bucket (b : libtrace_bucket_t) : Prop :=
  ∀ n nd, b_node b = Some n → b_nodes b !! n = Some nd → bn_slots nd + 10 < 2 ^ 16.

Lemma push_into_bucket_ok b xs created out :
  bucket_inv b xs created out → small_bucket b →
  match libtrace_push_into_bucket b with
  | Ok (b', id) =>
      (b_node b = None ∧ id = 0 ∧ bucket_inv b' xs created out) ∨
      (valid_id id ∧ out !! id = None ∧
       ∃ n nd, b_node b = Some n ∧ b_nodes b !! n = Some nd ∧
         bucket_inv b' xs created (<[id := bn_buffer nd]> out))
  | Fault f => f = Blocked ∧ is_Some (b_packets b !! norm_id (b_nextid b))
  end.
Proof.
  intros [Hok Hnode Hused Hfree Hlock] Hsmall. unfold libtrace_push_into_bucket. rewrite Hlock.
  cbn [obind pthread_mutex_lock].
  destruct (b_node b) as [n|] eqn:Hcur; cbn [obind pthread_mutex_unlock].
  2: { left. split_and!; try done. split; [destruct Hok; by split|cbn; by rewrite Hcur..|done]. }
  assert (is_Some (b_nodes b !! n)) as [nd Hn].
  { apply (bo_dom _ _ _ _ Hok). symmetry in Hnode; apply last_Some in Hnode as [l' ->]; set_solver. }
  cbn [bn_load]. rewrite Hn. cbn [obind]. fold (norm_id (b_nextid b)).
  pose proof (norm_id_valid _ (bo_next _ _ _ _ Hok)) as Hv.
  pose proof (bo_ok _ _ _ _ Hok _ _ Hn) as Hno. specialize (Hsmall n nd Hcur Hn).
  destruct (u64_next _ Hv) as [E1 _].
  assert (u64 (norm_id (b_nextid b) + 1 - 1) = norm_id (b_nextid b)) as E2.
  { rewrite Z.add_simpl_r. apply u64_small. destruct Hv. lia. }
  destruct (Z.eqb_spec (bn_startindex nd) 0) as [Hz|Hz].
  - rewrite packets_get_ok by done. cbn [obind].
    destruct (b_packets b !! norm_id (b_nextid b)) as [n'|] eqn:Hp; [by split|].
    rewrite aset_ok, packets_set_ok by (try done; pose proof (no_slots _ Hno); rewrite (no_len _ Hno); lia).
    cbn [obind pthread_mutex_unlock]. rewrite E1. right. split_and!; [done|by eapply next_fresh_out|].
    exists n, nd. split_and!; [done..|]. rewrite <- Hcur in *. by apply first_packet_ok.
  - specialize (Hfree n nd eq_refl Hn Hz). pose proof Hfree as [Hk _]. cbv zeta in Hk.
    rewrite (bucket_slot_of _ _ nd) by (try done; lia).
    set (k := slot_of (bn_startindex nd) (norm_id (b_nextid b))) in *.
    assert (∃ m, (if bn_slots nd <=? k then grow_slots nd else Ok (bn_released nd, bn_slots nd))
      = Ok (bn_released nd ++ replicate m 0, bn_slots nd + Z.of_nat m) ∧
      k < bn_slots nd + Z.of_nat m < 2 ^ 16) as (m & -> & Hm).
    { destruct (Z.leb_spec (bn_slots nd) k).
      - exists 10%nat. rewrite grow_slots_ok by (done || lia). split; [done|lia].
      - exists 0%nat. cbn [replicate]. rewrite app_nil_r. change (Z.of_nat 0) with 0. rewrite Z.add_0_r.
        split; [done|]. pose proof (no_slots _ Hno). lia. }
    cbn [obind]. rewrite packets_get_ok by done. cbn [obind].
    destruct (b_packets b !! norm_id (b_nextid b)) as [n'|] eqn:Hp; [by split|].
    rewrite packets_set_ok by done. cbn [obind]. rewrite aset_ok.
    2: { rewrite Zlen_app, Zlen_replicate, (no_len _ Hno). lia. }
    cbn [obind pthread_mutex_unlock]. rewrite E1, E2. right. split_and!; [done|by eapply next_fresh_out|].
    exists n, nd. split_and!; [done..|]. rewrite <- Hcur in *. by apply next_packet_ok.
Qed.

(** ** Freeing the buckets at the front *)
Lemma free_slots_ok nd : node_ok nd → bn_startindex nd ≠ 0 → ∀ n i ps,
  i + Z.of_nat n = bn_slots nd → 0 ≤ i →
  ∃ ps', free_slots n (bn_released nd) i (bn_startindex nd) ps = Ok ps' ∧
    ∀ id, (id_state nd id 2 ∧ i ≤ slot_of (bn_startindex nd) id → ps' !! id = None) ∧
          (¬ (id_state nd id 2 ∧ i ≤ slot_of (bn_startindex nd) id) → ps' !! id = ps !! id).
Proof.
  intros Hno Hz n. pose proof (no_start _ Hno Hz) as Hstart. pose proof (no_slots _ Hno) as Hsl.
  induction n as [|n IH]; intros i ps Hin Hi; cbn [free_slots].
  - exists ps. split; [done|]. intros id. split; [|done]. intros [(_ & Hv & Hs) Hle].
    apply lookup_lt_Some in Hs. pose proof (no_len _ Hno) as Hl. unfold Zlen in Hl. lia.
  - destruct (aget_total (bn_released nd) i) as (r & Hr & ->); [rewrite (no_len _ Hno); lia|]. cbn [obind].
    fold (id_of (bn_startindex nd) i).
    assert (valid_id (id_of (bn_startindex nd) i)) as Hv by (apply id_of_valid; [done|lia]).
    assert (slot_of (bn_startindex nd) (id_of (bn_startindex nd) i) = i) as Hsi by (apply slot_of_id; [done|lia]).
    rewrite packets_set_ok by done.
    assert (∀ id, id_state nd id 2 ∧ i ≤ slot_of (bn_startindex nd) id ↔
      (id_state nd id 2 ∧ i + 1 ≤ slot_of (bn_startindex nd) id) ∨
      (r = 2 ∧ id = id_of (bn_startindex nd) i)) as Hsplit.
    { intros id. split.
      - intros [Hs Hle]. destruct (decide (slot_of (bn_startindex nd) id = i)) as [E|]; [right|left; split; [done|lia]].
        destruct Hs as (_ & Hvi & Hs). unfold slot_state in Hs. rewrite E, Hr in Hs. split; [congruence|].
        by rewrite <- E, id_of_slot.
      - intros [[Hs Hle]|[-> ->]]; [split; [done|lia]|]. rewrite Hsi. split; [|lia]. split_and!; [done|done|].
        unfold slot_state. by rewrite Hsi. }
    destruct (Z.eqb_spec r 2) as [->|Hr2]; cbn [obind].
    + destruct (IH (i + 1) (delete (id_of (bn_startindex nd) i) ps)) as (ps' & Hrun & Hps); [lia..|].
      exists ps'. split; [exact Hrun|]. intros id. rewrite Hsplit. destruct (Hps id) as [P1 P2]. split.
      * intros [Hs|[_ ->]]; [by apply P1|].
        destruct (decide (i + 1 ≤ slot_of (bn_startindex nd) (id_of (bn_startindex nd) i))) as [|Hn1]; [lia|].
        rewrite P2 by naive_solver. apply lookup_delete_eq.
      * intros Hn. rewrite P2 by naive_solver. rewrite lookup_delete_ne; [done|]. intros <-. naive_solver.
    + destruct (IH (i + 1) ps) as (ps' & Hrun & Hps); [lia..|].
      exists ps'. split; [exact Hrun|]. intros id. rewrite Hsplit. destruct (Hps id) as [P1 P2]. split.
      * intros [Hs|[-> _]]; [by apply P1|done].
      * intros Hn. apply P2. naive_solver.
Qed.

Lemma list_front_two (h : gmap loc (node loc)) l x y xs :
  list_rep h l (x :: y :: xs) →
  ∃ p n, libtrace_list_get_index h (Some l) 0 = Ok (Some p) ∧ load h (Some p) = Ok n ∧
    nd_data n = x ∧ nd_next n ≠ None.
Proof.
  intros (ns & R & Hns). destruct ns as [|[p x'] [|[q y'] ns]]; try done. injection Hns as -> -> _.
  destruct (rep_seg _ _ _ _ _ R) as [Hp _]. pose proof (rep_head _ _ _ _ _ R) as Hh.
  pose proof (rep_size _ _ _ _ _ R) as Hs. rewrite !Zlen_cons in Hs. pose proof (Zlen_nonneg ns).
  exists p, (Node x (Some q) None). unfold libtrace_list_get_index. rewrite Hs.
  rewrite (proj2 (Z.leb_gt _ 0)) by lia. cbn. rewrite Hh. cbn in Hp. rewrite Hp. split_and!; done.
Qed.

Definition b_unlocked (b : libtrace_bucket_t) : libtrace_bucket_t :=
  b_update b (b_nextid b) (b_packets b) (b_nodes b) false.

Lemma drop_front b xs n nd created out ps h l lock :
  buckets_ok b (n :: xs) created out → b_nodes b !! n = Some nd → bn_activemembers nd = 0 →
  list_rep h l xs →
  (∀ id, (id_state nd id 2 ∧ 0 ≤ slot_of (bn_startindex nd) id → ps !! id = None) ∧
         (¬ (id_state nd id 2 ∧ 0 ≤ slot_of (bn_startindex nd) id) → ps !! id = b_packets b !! id)) →
  buckets_ok {| b_nextid := b_nextid b; b_node := b_node b; b_packets := ps; b_nodelist := Some l;
                b_lock := lock; b_nodes := delete n (b_nodes b); b_listmem := h;
                b_freed := clear_bucket_node nd (b_freed b) |} xs created out.
Proof.
  intros [_ Hnd Hdom Hok Hp Ho Hn Hb] Hnode Hact R Hps. apply NoDup_cons in Hnd as [Hnin Hnd].
  pose proof (Hok _ _ Hnode) as Hno. rewrite (no_active _ Hno) in Hact.
  assert (∀ id, has_id nd id ↔ id_state nd id 2 ∧ 0 ≤ slot_of (bn_startindex nd) id) as Hhas.
  { intros id. split.
    - intros (r & Hr & Hz & Hv & Hs). pose proof (slot_of_range _ _ (no_start _ Hno Hz) Hv).
      assert (r = 2) as ->; [|by split_and!; try done; lia].
      destruct (proj1 (Forall_lookup _ _) (no_vals _ Hno) _ _ Hs) as [E|[E|E]]; subst r; try done.
      by apply count1_none in Hs.
    - intros [Hs _]. by exists 2. }
  assert (∀ id m, ps !! id = Some m ↔ b_packets b !! id = Some m ∧ m ≠ n) as Hpsm.
  { intros id m. destruct (Hps id) as [P1 P2]. split.
    - intros Hm. rewrite <- Hhas in P1, P2. assert (¬ has_id nd id) as Hnh by (intros Hh; rewrite P1 in Hm; done).
      rewrite P2 in Hm by done. split; [done|]. intros ->. apply Hp in Hm as (nd2 & Hn2 & Hh2).
      rewrite Hnode in Hn2. injection Hn2 as <-. done.
    - intros [Hm Hne]. rewrite P2; [done|]. rewrite <- Hhas. intros Hh.
      assert (b_packets b !! id = Some n) by (apply Hp; by exists nd). congruence. }
  split; cbn; try done.
  - by exists l.
  - intros m. rewrite lookup_delete_is_Some, <- Hdom. set_solver.
  - intros m nd' [_ Hm]%lookup_delete_Some. by eapply Hok.
  - intros id m. rewrite Hpsm, Hp. split.
    + intros [(nd' & Hm & Hi) Hne]. exists nd'. by rewrite lookup_delete_ne.
    + intros (nd' & [Hne Hm]%lookup_delete_Some & Hi). split; [by exists nd'|done].
  - intros id buf. rewrite Ho. split.
    + intros (m & nd' & Hpm & Hm & Hs & Hbuf). assert (m ≠ n) as Hne.
      { intros ->. rewrite Hnode in Hm. injection Hm as <-. by apply count1_none in Hs. }
      exists m, nd'. rewrite Hpsm, lookup_delete_ne by done. done.
    + intros (m & nd' & [Hpm Hne]%Hpsm & [_ Hm]%lookup_delete_Some & ?). by exists m, nd'.
  - rewrite Hb, (buffers_cons _ _ _ _ Hnode), buffers_delete, clear_bucket_node_buffers by done.
    by rewrite app_assoc.
Qed.

(** The front of the chain is a bucket in use, or the only one. *)
Definition settled (b : libtrace_bucket_t) (xs : list loc) : Prop :=
  (length xs ≤ 1)%nat ∨ ∃ n nd, head xs = Some n ∧ b_nodes b !! n = Some nd ∧ 0 < bn_activemembers nd.

Lemma free_front_ok fuel : ∀ b xs created out,
  bucket_inv (b_unlocked b) xs created out → Zlen xs ≤ SIZE_MAX → (length xs < fuel)%nat →
  ∃ b' xs', free_front fuel b = Ok b' ∧ b_lock b' = b_lock b ∧
    bucket_inv (b_unlocked b') xs' created out ∧ settled b' xs' ∧ Zlen xs' ≤ Zlen xs.
Proof.
  induction fuel as [|fuel IH]; intros b xs created out Hinv Hlen Hf; [lia|]. cbn [free_front].
  destruct (bo_list _ _ _ _ Hinv) as (l & Hl & R). cbn in Hl, R. rewrite Hl.
  cbn [libtrace_list_get_size]. rewrite (list_rep_size _ _ _ R).
  destruct xs as [|n [|n1 xs]].
  { change (Zlen [] <=? 1) with true. cbn iota. exists b, []. split_and!; try done. left. simpl. lia. }
  { change (Zlen [n] <=? 1) with true. cbn iota. exists b, [n]. split_and!; try done. left. simpl. lia. }
  rewrite (proj2 (Z.leb_gt _ 1)) by (rewrite !Zlen_cons; pose proof (Zlen_nonneg xs); lia).
  destruct (list_front_two _ _ _ _ _ R) as (p & ln & -> & Hld & Hdata & Hnext). cbn [obind].
  rewrite Hld. cbn [obind]. rewrite Hdata.
  assert (is_Some (b_nodes b !! n)) as [nd Hn] by (apply (bo_dom _ _ _ _ Hinv); by left).
  cbn [bn_load]. rewrite Hn. cbn [obind].
  destruct (Z.ltb_spec 0 (bn_activemembers nd)) as [Hact|Hact].
  { exists b, (n :: n1 :: xs). split_and!; try done. right. by exists n, nd. }
  assert (Some n ≠ b_node b) as Hcur.
  { pose proof (bi_node _ _ _ _ Hinv) as E. change (b_node b = last (n :: n1 :: xs)) in E.
    rewrite E, last_cons_cons. intros Hlast. symmetry in Hlast.
    apply last_Some_elem_of in Hlast. pose proof (bo_nodup _ _ _ _ Hinv) as Hnd. by apply NoDup_cons in Hnd as []. }
  rewrite bool_decide_eq_false_2 by done. rewrite bool_decide_eq_true_2 by done. cbn [oassert obind].
  pose proof (bo_ok _ _ _ _ Hinv _ _ Hn) as Hno.
  assert (bn_startindex nd ≠ 0) as Hz.
  { intros Hz. apply Hcur. symmetry. by apply (bi_used _ _ _ _ Hinv n nd). }
  assert (bn_activemembers nd = 0) as Hact0.
  { rewrite (no_active _ Hno) in *. pose proof (count1_range (bn_released nd)). lia. }
  destruct (free_slots_ok nd Hno Hz (Z.to_nat (bn_slots nd)) 0 (b_packets b)) as (ps & -> & Hps);
    [pose proof (no_slots _ Hno); lia|lia|]. cbn [obind].
  destruct (list_pop_front_rep _ _ _ _ R Hlen) as (h' & l' & -> & R'). cbn [obind].
  destruct Hinv as [Hok Hnode Hused Hfree _]. change (b_node b = last (n :: n1 :: xs)) in Hnode.
  cbn in Hused, Hfree.
  match goal with |- context [free_front fuel ?b1] =>
    destruct (IH b1 (n1 :: xs) created out) as (b' & xs' & Hrun & Hlk & Hinv' & Hset & Hle) end.
  - split.
    + by apply (drop_front (b_unlocked b) (n1 :: xs) n nd created out ps h' l' false).
    + exact Hnode.
    + cbn. intros m nd2 [_ Hm]%lookup_delete_Some. by apply Hused.
    + cbn. intros m nd2 Hm [_ Hm2]%lookup_delete_Some. by apply (Hfree m).
    + done.
  - rewrite !Zlen_cons in *. lia.
  - simpl in *. lia.
  - exists b', xs'. split_and!; try done. rewrite !Zlen_cons in *. lia.
Qed.

(** ** Releasing an id *)
Definition release_node (nd : libtrace_bucket_node_t) (id : Z) (last : bool) : libtrace_bucket_node_t :=
  {| bn_startindex := if last && (id =? bn_startindex nd) then 0 else bn_startindex nd;
     bn_released := <[Z.to_nat (slot_of (bn_startindex nd) id) := if last then 0 else 2]> (bn_released nd);
     bn_activemembers := u16 (bn_activemembers nd - 1);
     bn_slots := bn_slots nd; bn_buffer := bn_buffer nd |}.

Lemma release_node_ok nd id last :
  node_ok nd → id_state nd id 1 →
  (last = true → id = bn_startindex nd →
     ∀ i r, (1 ≤ i)%nat → bn_released nd !! i = Some r → r = 0) →
  node_ok (release_node nd id last).
Proof.
  intros Hno (Hz & Hv & Hs) Hlast. unfold slot_state in Hs.
  set (s := Z.to_nat (slot_of (bn_startindex nd) id)) in *.
  pose proof (count1_insert _ _ _ (if last then 0 else 2) Hs) as Ec.
  assert (((if last then 0 else 2) =? 1) = false) as E0 by by destruct last. rewrite E0 in Ec. cbn in Ec.
  pose proof (count1_range (<[s := if last then 0 else 2]> (bn_released nd))) as Hr.
  rewrite Zlen_insert, (no_len _ Hno) in Hr. pose proof (no_slots _ Hno).
  split; cbn [release_node bn_slots bn_released bn_activemembers bn_startindex]; fold s.
  - apply (no_slots _ Hno).
  - by rewrite Zlen_insert, (no_len _ Hno).
  - apply Forall_insert; [apply (no_vals _ Hno)|]. destruct last; [by left|by right; right].
  - rewrite Ec, (no_active _ Hno), u16_small by lia. lia.
  - intros Hst. destruct last; [|done]. cbn in Hst. destruct (Z.eqb_spec id (bn_startindex nd)) as [E|]; [|done].
    specialize (Hlast eq_refl E). assert (s = 0%nat) as Es.
    { unfold s, slot_of. rewrite E, Z.ltb_irrefl. lia. }
    apply Forall_lookup. intros i r Hi. rewrite Es in Hi. apply list_lookup_insert_Some in Hi as [(_ & <- & _)|[Hi Hl]]; [done|].
    apply (Hlast i r); [lia|done].
  - intros Hst. destruct (last && (id =? bn_startindex nd)); [done|]. by apply (no_start _ Hno).
Qed.

Lemma release_node_state nd id0 last id r :
  node_ok nd → id_state nd id0 1 →
  (last = true → id0 = bn_startindex nd →
     ∀ i r, (1 ≤ i)%nat → bn_released nd !! i = Some r → r = 0) →
  id ≠ id0 → r ≠ 0 → id_state (release_node nd id0 last) id r ↔ id_state nd id r.
Proof.
  intros Hno (Hz & Hv & Hs) Hlast Hne Hr. unfold id_state, slot_state.
  cbn [release_node bn_startindex bn_released].
  destruct (last && (id0 =? bn_startindex nd)) eqn:El.
  - apply andb_prop in El as [-> E%Z.eqb_eq]. specialize (Hlast eq_refl E). split; [by intros (? & _)|].
    intros (_ & Hvi & Hi). exfalso. apply Hr.
    pose proof (slot_of_range _ _ (no_start _ Hno Hz) Hvi).
    eapply Hlast; [|exact Hi]. destruct (decide (slot_of (bn_startindex nd) id = 0)) as [E0|]; [|lia].
    exfalso. apply Hne. apply (slot_of_inj (bn_startindex nd)); [by apply (no_start _ Hno)|done|done|].
    rewrite E0, E. unfold slot_of. rewrite Z.ltb_irrefl. lia.
  - split; intros (_ & Hvi & Hi); (split_and!; [done..|]);
      pose proof (slot_of_range _ _ (no_start _ Hno Hz) Hvi);
      pose proof (slot_of_range _ _ (no_start _ Hno Hz) Hv);
      (assert (Z.to_nat (slot_of (bn_startindex nd) id) ≠ Z.to_nat (slot_of (bn_startindex nd) id0)) as Hsl;
       [intros E; apply Hne, (slot_of_inj (bn_startindex nd)); [by apply (no_start _ Hno)|done|done|lia]|]).
    + by rewrite list_lookup_insert_ne in Hi.
    + by rewrite list_lookup_insert_ne.
Qed.

Lemma release_state nd id last :
  id_state nd id 1 → bn_released (release_node nd id last) !! Z.to_nat (slot_of (bn_startindex nd) id)
    = Some (if last then 0 else 2).
Proof.
  intros (_ & _ & Hs). unfold slot_state in Hs. cbn. apply list_lookup_insert_eq. by eapply lookup_lt_Some.
Qed.

Lemma prev_id_valid n : 1 ≤ n ≤ MAX_OUTSTANDING → valid_id (prev_id n) ∧ norm_id (prev_id n) = prev_id n.
Proof.
  unfold prev_id, norm_id, valid_id. intros. destruct (Z.eqb_spec n 1); (split; [lia|]);
    [done|rewrite (proj2 (Z.leb_gt _ _)); lia].
Qed.

(** The last id of the current bucket is taken back. *)
Lemma take_back_ok b xs created out n nd id buf lock :
  bucket_inv b xs created out → b_nodes b !! n = Some nd → b_node b = Some n →
  b_packets b !! id = Some n → id_state nd id 1 → id = prev_id (b_nextid b) → bn_buffer nd = buf →
  bucket_inv (b_unlocked (b_update b (prev_id (b_nextid b)) (delete id (b_packets b))
    (<[n := release_node nd id true]> (b_nodes b)) lock)) xs created (delete id out).
Proof.
  intros [Hok Hnode Hused Hfree _] Hn Hcur Hp Hst Hid Hbuf. pose proof (bo_ok _ _ _ _ Hok _ _ Hn) as Hno.
  pose proof Hst as (Hz & Hv & Hs). destruct (Hfree n nd Hcur Hn Hz) as [Hk Hzero]. cbv zeta in Hk, Hzero.
  set (k := slot_of (bn_startindex nd) (norm_id (b_nextid b))) in *.
  assert (slot_of (bn_startindex nd) id = k - 1) as Hslot.
  { rewrite Hid. apply slot_of_prev; [by apply (no_start _ Hno)|apply (bo_next _ _ _ _ Hok)|fold k; lia]. }
  assert (true = true → id = bn_startindex nd → ∀ i r, (1 ≤ i)%nat → bn_released nd !! i = Some r → r = 0) as Hone.
  { intros _ E i r Hi. apply Hzero. assert (slot_of (bn_startindex nd) id = 0); [|lia].
    rewrite E. unfold slot_of. rewrite Z.ltb_irrefl. lia. }
  destruct (prev_id_valid _ (bo_next _ _ _ _ Hok)) as [Hvp Hnp].
  split.
  - apply (update_node b xs created out n nd (release_node nd id true) id (delete id (b_packets b))
      (prev_id (b_nextid b)) false (delete id out)); try done.
    + by apply release_node_ok.
    + cbn. destruct Hvp. lia.
    + by right.
    + intros id' r Hne Hr. by apply release_node_state.
    + intros id' Hne. by rewrite lookup_delete_ne.
    + intros id' Hne. by rewrite lookup_delete_ne.
    + right. rewrite lookup_delete_eq. split; [done|]. intros (r & Hr & Hz' & _ & Hs').
      cbn [release_node bn_startindex] in Hz'. unfold slot_state in Hs'.
      destruct (true && (id =? bn_startindex nd)) eqn:E; [done|].
      cbn [bn_startindex release_node] in Hs'. rewrite E in Hs'. rewrite (release_state nd id true Hst) in Hs'. congruence.
    + right. rewrite !lookup_delete_eq. split; [done|]. by left.
  - exact Hnode.
  - cbn. intros m nd2 [[<- _]|[_ Hm]]%lookup_insert_Some Hz2; [done|by eapply Hused].
  - cbn [b_node b_nodes b_unlocked b_update]. intros m nd2 Hm. rewrite Hcur in Hm. injection Hm as <-.
    rewrite lookup_insert_eq. intros [= <-] Hz2. unfold next_ok. cbn [b_nextid b_unlocked b_update].
    cbn [release_node bn_startindex] in *. destruct (Z.eqb_spec id (bn_startindex nd)) as [|Hns]; [done|].
    cbn [andb]. rewrite Hnp, <- Hid, Hslot. cbn [bn_slots]. split.
    + assert (k - 1 ≠ 0); [|cbn; lia]. intros E. apply Hns, (slot_of_inj (bn_startindex nd)); try by apply (no_start _ Hno).
      { done. }
      rewrite Hslot, E. unfold slot_of. rewrite Z.ltb_irrefl. lia.
    + intros i r Hi Hr. apply list_lookup_insert_Some in Hr as [(_ & <- & _)|[Hne Hr]]; [done|].
      apply (Hzero i); [lia|done].
  - done.
Qed.

(** Any other id is marked. *)
Lemma mark_released_ok b xs created out n nd id buf lock :
  bucket_inv b xs created out → b_nodes b !! n = Some nd →
  b_packets b !! id = Some n → id_state nd id 1 → bn_buffer nd = buf →
  bucket_inv (b_unlocked (b_update b (b_nextid b) (b_packets b)
    (<[n := release_node nd id false]> (b_nodes b)) lock)) xs created (delete id out).
Proof.
  intros [Hok Hnode Hused Hfree _] Hn Hp Hst Hbuf. pose proof (bo_ok _ _ _ _ Hok _ _ Hn) as Hno.
  pose proof Hst as (Hz & Hv & Hs).
  assert (slot_state (release_node nd id false) id = Some 2) as Hs2 by exact (release_state nd id false Hst).
  split.
  - apply (update_node b xs created out n nd (release_node nd id false) id (b_packets b)
      (b_nextid b) false (delete id out)); try done.
    + by apply release_node_ok.
    + apply (bo_next _ _ _ _ Hok).
    + by right.
    + intros id' r Hne Hr. by apply release_node_state.
    + intros id' Hne. by rewrite lookup_delete_ne.
    + left. split; [done|]. by exists 2.
    + right. rewrite lookup_delete_eq. split; [done|]. right. by rewrite Hs2.
  - exact Hnode.
  - cbn. intros m nd2 [[<- <-]|[_ Hm]]%lookup_insert_Some Hz2; [by cbn in Hz2|by eapply Hused].
  - cbn [b_node b_nodes b_unlocked b_update]. intros m nd2 Hm [[<- <-]|[_ Hm2]]%lookup_insert_Some Hz2.
    + destruct (Hfree n nd Hm Hn Hz) as [Hk Hzero]. cbv zeta in Hk, Hzero. split; [exact Hk|].
      intros i r Hi Hr. cbn [release_node bn_released] in Hr. rewrite list_lookup_insert_ne in Hr by
        (intros E; apply (Hzero i 1) in Hi; [done|];
         unfold slot_state in Hs; by rewrite <- E).
      by apply (Hzero i).
    + by apply (Hfree m).
  - done.
Qed.

Lemma release_bucket_id_ok b xs created out id buf :
  bucket_inv b xs created out → Zlen xs ≤ SIZE_MAX → out !! id = Some buf →
  ∃ b' xs', libtrace_release_bucket_id b id = Ok b' ∧ bucket_inv b' xs' created (delete id out) ∧
    settled b' xs' ∧ Zlen xs' ≤ Zlen xs.
Proof.
  intros Hinv Hlen Hout.
  apply (bo_out _ _ _ _ Hinv) in Hout as (n & nd & Hp & Hn & Hs & Hbuf).
  pose proof (bo_ok _ _ _ _ Hinv _ _ Hn) as Hno.
  assert (id_state nd id 1) as Hst.
  { apply (bo_packets _ _ _ _ Hinv) in Hp as (nd2 & Hn2 & r & _ & Hz & Hv & _). rewrite Hn in Hn2. by injection Hn2 as <-. }
  pose proof Hst as (Hz & Hv & _). unfold slot_state in Hs.
  pose proof (lookup_lt_Some _ _ _ Hs) as Hlt. pose proof (no_len _ Hno) as Hl. unfold Zlen in Hl.
  pose proof (slot_of_range _ _ (no_start _ Hno Hz) Hv) as Hsr. pose proof (no_slots _ Hno) as Hsl.
  unfold libtrace_release_bucket_id. rewrite (proj2 (Z.eqb_neq id 0)) by (destruct Hv; lia).
  cbn [negb oassert obind]. rewrite (bi_lock _ _ _ _ Hinv). cbn [pthread_mutex_lock obind].
  rewrite packets_get_ok, Hp by done. cbn [obind]. rewrite bool_decide_eq_true_2 by done. cbn [oassert obind bn_load].
  rewrite Hn. cbn [obind]. rewrite (bucket_slot_of _ _ nd) by (done || lia).
  rewrite (proj2 (Z.ltb_lt _ _)) by lia. cbn [oassert obind].
  rewrite (aget_ok _ _ 1) by (done || lia). cbn [obind negb Z.eqb Pos.eqb oassert].
  rewrite (aset_ok (bn_released nd)) by (unfold Zlen; lia).
  assert ((if b_nextid b =? 1 then MAX_OUTSTANDING - 1 else u64 (b_nextid b - 1)) = prev_id (b_nextid b)) as ->.
  { unfold prev_id. pose proof (bo_next _ _ _ _ Hinv). destruct (Z.eqb_spec (b_nextid b) 1); [done|]. apply u64_small. lia. }
  assert (∀ b1, bucket_inv (b_unlocked b1) xs created (delete id out) → b_lock b1 = true →
    ∃ b' xs', (let! b2 := free_front (S (Z.to_nat (libtrace_list_get_size (b_nodelist b1)))) b1 in
       let! held := pthread_mutex_unlock (b_lock b2) in
       Ok (b_update b2 (b_nextid b2) (b_packets b2) (b_nodes b2) held)) = Ok b' ∧
      bucket_inv b' xs' created (delete id out) ∧ settled b' xs' ∧ Zlen xs' ≤ Zlen xs) as Hgo.
  { intros b1 Hinv1 Hlk. destruct (bo_list _ _ _ _ Hinv1) as (l & Hl1 & R). cbn in Hl1, R. rewrite Hl1.
    cbn [libtrace_list_get_size]. rewrite (list_rep_size _ _ _ R).
    destruct (free_front_ok (S (Z.to_nat (Zlen xs))) b1 xs created (delete id out) Hinv1 Hlen)
      as (b' & xs' & -> & Hlk' & Hinv' & Hset & Hle); [unfold Zlen; lia|].
    cbn [obind]. rewrite Hlk', Hlk. cbn [pthread_mutex_unlock obind]. exists (b_unlocked b'), xs'. by split_and!. }
  destruct (bool_decide (Some n = b_node b) && (id =? prev_id (b_nextid b))) eqn:Elast.
  - apply andb_prop in Elast as [Hcur%bool_decide_eq_true Hid%Z.eqb_eq].
    rewrite packets_set_ok by done. cbn [obind andb]. apply Hgo; [|done].
    by eapply (take_back_ok b xs created out n nd id).
  - cbn [obind andb]. apply Hgo; [|done]. by eapply (mark_released_ok b xs created out n nd id).
Qed.

(** ** How far the current bucket is filled

    The next id goes to slot [k] at most, and there are at most [k + 10] slots. *)
Definition filled_to (b : libtrace_bucket_t) (k : Z) : Prop :=
  ∀ n nd, b_node b = Some n → b_nodes b !! n = Some nd →
    (bn_startindex nd ≠ 0 → slot_of (bn_startindex nd) (norm_id (b_nextid b)) ≤ k) ∧ bn_slots nd ≤ k + 10.

(** The buffer of the current bucket. *)
Definition current_buffer (b : libtrace_bucket_t) : option Z :=
  b_node b ≫= λ n, b_nodes b !! n ≫= bn_buffer.

Lemma filled_small b k : filled_to b k → k + 20 < 2 ^ 16 → small_bucket b.
Proof. intros Hf Hk n nd Hn Hnd. destruct (Hf n nd Hn Hnd). lia. Qed.

Lemma filled_mono b k k' : filled_to b k → k ≤ k' → filled_to b k'.
Proof. intros Hf Hk n nd Hn Hnd. destruct (Hf n nd Hn Hnd) as [H1 H2]. split; [intros H; specialize (H1 H)|]; lia. Qed.

Lemma create_current b buffer b' : libtrace_create_new_bucket b buffer = Ok b' →
  filled_to b' 0 ∧ current_buffer b' = buffer.
Proof.
  unfold libtrace_create_new_bucket, current_buffer. intros H. obind_inv H. obind_inv H. destruct a0 as [[nodes freed] [m l]].
  repeat (obind_inv H). destruct a2 as [m' l']. obind_inv H. injection H as <-. cbn. rewrite lookup_insert_eq. cbn. split; [|done].
  intros n nd [= <-]. cbn. rewrite lookup_insert_eq. intros [= <-]. cbn. split; [done|lia].
Qed.

Lemma push_current b xs created out k b' id : bucket_inv b xs created out → filled_to b k → 0 ≤ k → k + 20 < 2 ^ 16 →
  libtrace_push_into_bucket b = Ok (b', id) →
  filled_to b' (k + 1) ∧ current_buffer b' = current_buffer b ∧ b_freed b' = b_freed b.
Proof.
  intros [Hok Hnode Hused Hfree Hlock] Hf Hk0 Hk. unfold libtrace_push_into_bucket. rewrite Hlock. cbn [obind pthread_mutex_lock].
  destruct (b_node b) as [n|] eqn:Hcur.
  2: { cbn. intros [= <- <-]. split_and!; try done. intros ? ? H. cbn in H. congruence. }
  cbn [bn_load]. destruct (b_nodes b !! n) as [nd|] eqn:Hn; [|done]. cbn [obind].
  destruct (Hf n nd Hcur Hn) as [Hs Hsl]. pose proof (norm_id_valid _ (bo_next _ _ _ _ Hok)) as Hv.
  fold (norm_id (b_nextid b)). set (i := norm_id (b_nextid b)) in *. destruct (u64_next i Hv) as [E1 E2].
  assert (∀ nd', bn_buffer nd' = bn_buffer nd → bn_startindex nd' = i ∨ bn_startindex nd' ≠ 0 ∧ bn_startindex nd' = bn_startindex nd →
    bn_slots nd' ≤ k + 11 → ∀ ps held b1, b1 = b_update b (u64 (i + 1)) ps (<[n := nd']> (b_nodes b)) held →
    filled_to b1 (k + 1) ∧ current_buffer b1 = current_buffer b ∧ b_freed b1 = b_freed b) as Hgo.
  { intros nd' Hb Hst Hsl' ps held b1 ->. unfold current_buffer. cbn [b_node b_update b_nodes b_freed]. rewrite Hcur. cbn. rewrite lookup_insert_eq, Hn. cbn.
    split_and!; try done. intros m nd2. cbn. rewrite Hcur. intros [= <-]. rewrite lookup_insert_eq. intros [= <-]. rewrite E1. split; [|lia].
    intros Hz. destruct Hst as [->|[Hz' Est]]; [|rewrite Est in *].
    - rewrite slot_of_next by (try done; unfold slot_of; rewrite Z.ltb_irrefl; lia). unfold slot_of. rewrite Z.ltb_irrefl. lia.
    - pose proof (bo_ok _ _ _ _ Hok _ _ Hn) as Hno. assert (bn_startindex nd ≠ 0) as E by congruence.
      specialize (Hs E). rewrite slot_of_next by (by apply (no_start _ Hno) || done || lia). lia. }
  destruct (Z.eqb_spec (bn_startindex nd) 0) as [Hz|Hz].
  - intros H. obind_inv H. destruct a; [done|]. obind_inv H. obind_inv H. obind_inv H. injection H as <- <-.
    refine (Hgo _ _ _ _ _ _ _ eq_refl); cbn; [done|by left|lia].
  - intros H. obind_inv H. destruct a as [released slots]. obind_inv H. destruct a; [done|]. obind_inv H. obind_inv H. obind_inv H.
    injection H as <- <-. refine (Hgo _ _ _ _ _ _ _ eq_refl); cbn; [done|by right|]. specialize (Hs Hz). clear Hgo Hstep0 Hstep1 Hstep2 Hstep3.
    destruct (Z.leb_spec (bn_slots nd) (bucket_slot (bn_startindex nd) i)) as [Hle|Hle]; [|injection Hstep as <- <-; lia].
    unfold grow_slots in Hstep. obind_inv Hstep. injection Hstep as <- <-.
    assert (bucket_slot (bn_startindex nd) i ≤ k).
    { unfold bucket_slot. fold (slot_of (bn_startindex nd) i). unfold u16. pose proof (slot_of_range _ _ (no_start _ (bo_ok _ _ _ _ Hok _ _ Hn) Hz) Hv).
      rewrite Z.mod_small; lia. }
    unfold u16. pose proof (no_slots _ (bo_ok _ _ _ _ Hok _ _ Hn)). rewrite Z.mod_small; lia.
Qed.

(** Freeing the buckets at the front leaves the current one alone. *)
Lemma free_front_current fuel : ∀ b b', free_front fuel b = Ok b' →
  b_node b' = b_node b ∧ b_nextid b' = b_nextid b ∧ ∀ n, b_node b = Some n → b_nodes b' !! n = b_nodes b !! n.
Proof.
  induction fuel as [|fuel IH]; intros b b'; [done|]. cbn [free_front].
  destruct (_ <=? 1); [by intros [= <-]|]. intros H. obind_inv H. obind_inv H. obind_inv H. destruct a1 as [front nd].
  destruct (0 <? bn_activemembers nd); [by injection H as <-|].
  destruct (bool_decide_reflect (Some front = b_node b)) as [E|E]; [by injection H as <-|].
  obind_inv H. obind_inv H. obind_inv H. destruct a3 as [[m l] x]. apply IH in H as (H1 & H2 & H3). cbn in H1, H2, H3.
  split_and!; [done..|]. intros n Hn. rewrite H3 by done. apply lookup_delete_ne. congruence.
Qed.

Lemma release_current b xs created out k b' id buf : bucket_inv b xs created out → out !! id = Some buf → filled_to b k →
  libtrace_release_bucket_id b id = Ok b' → filled_to b' k ∧ current_buffer b' = current_buffer b.
Proof.
  intros Hinv Hout Hf. unfold libtrace_release_bucket_id. intros H. obind_inv H. obind_inv H. obind_inv H. obind_inv H. obind_inv H.
  destruct a3 as [n nd]. obind_inv H. obind_inv H. obind_inv H. obind_inv H. obind_inv H. obind_inv H. injection H as <-.
  apply free_front_current in Hstep8 as (F1 & F2 & F3). unfold bn_load in Hstep3. destruct a1 as [n'|]; [|done].
  destruct (b_nodes b !! n') as [nd'|] eqn:Hn; [|done]. injection Hstep3 as -> ->.
  apply (bo_out _ _ _ _ Hinv) in Hout as (n2 & nd2 & Hp & Hn2 & _ & _).
  pose proof (bo_packets _ _ _ _ Hinv id n2) as Hpk. apply Hpk in Hp as (? & ? & _ & _ & Hz & Hid & _). simplify_eq.
  assert (filled_to a6 k ∧ current_buffer a6 = current_buffer b) as [G1 G2].
  { destruct (a4 =? 1).
    2: { injection Hstep7 as <-. split; [|done]. intros m nd3. cbn. apply Hf. }
    obind_inv Hstep7. obind_inv Hstep7. injection Hstep7 as <-. unfold filled_to, current_buffer. cbn [b_node b_update b_nodes b_nextid].
    split.
    2: { destruct (b_node b) as [m|]; [|done]. cbn. destruct (decide (m = n)) as [->|Hne]; [by rewrite lookup_insert_eq, Hn|by rewrite lookup_insert_ne]. }
    intros m nd3 Hm. destruct (Hf m) with (nd := default nd (b_nodes b !! m)) as [Hs Hsl]; [done|..].
    { destruct (bo_dom _ _ _ _ Hinv m) as [Hd _]. destruct Hd as [x0 ->]; [|done].
      pose proof (bi_node _ _ _ _ Hinv) as E. rewrite Hm in E. symmetry in E. apply last_Some in E as [l' ->]. set_solver. }
    destruct (decide (m = n)) as [->|Hne]; [|].
    2: { rewrite lookup_insert_ne by done. intros E. rewrite E in Hs, Hsl. cbn in Hs, Hsl. rewrite bool_decide_eq_false_2 by congruence.
         cbn [andb]. done. }
    rewrite lookup_insert_eq. intros [= <-]. cbn. rewrite Hn in Hs, Hsl. cbn in Hs, Hsl. split; [|done].
    rewrite bool_decide_eq_true_2 by done. cbn [andb].
    set (previd := if b_nextid b =? 1 then MAX_OUTSTANDING - 1 else u64 (b_nextid b - 1)).
    assert (previd = prev_id (b_nextid b)) as ->.
    { unfold previd, prev_id. pose proof (bo_next _ _ _ _ Hinv). destruct (Z.eqb_spec (b_nextid b) 1); [done|]. apply u64_small. lia. }
    destruct (id =? prev_id (b_nextid b)); cbn [andb]; [|exact Hs].
    destruct (Z.eqb_spec id (bn_startindex nd)); [done|]. intros Hz'. specialize (Hs Hz').
    destruct (prev_id_valid _ (bo_next _ _ _ _ Hinv)) as [_ ->].
    destruct (bi_free _ _ _ _ Hinv n nd Hm Hn Hz') as [Hk _]. cbv zeta in Hk.
    rewrite slot_of_prev; [lia|by apply (no_start _ (bo_ok _ _ _ _ Hinv _ _ Hn))|apply (bo_next _ _ _ _ Hinv)|lia]. }
  split.
  - intros m nd3 Hm Hnd3. cbn in Hm, Hnd3 |- *. rewrite F2. apply (G1 m nd3); [congruence|]. rewrite <- F3; [done|congruence].
  - rewrite <- G2. unfold current_buffer. cbn. rewrite F1. destruct (b_node a6) as [m|] eqn:E; [|done]. cbn. by rewrite F3.
Qed.

(** ** The first 199,999 ids

    The ids that are taken are among the first [c] that were given out, and the next
    one is number [c]. *)
Definition ids_up_to (b : libtrace_bucket_t) (c : Z) : Prop :=
  0 ≤ c ∧ norm_id (b_nextid b) = id_of 199999 c ∧
  ∀ id n, b_packets b !! id = Some n → ∃ j, 0 ≤ j < c ∧ id = id_of 199999 j.

Lemma id_of_next c : 0 ≤ c < MAX_OUTSTANDING - 1 → norm_id (id_of 199999 c + 1) = id_of 199999 (c + 1).
Proof.
  intros Hc. unfold id_of, norm_id. destruct (Z.leb_spec MAX_OUTSTANDING (c + 199999)); destruct (Z.leb_spec MAX_OUTSTANDING (c + 1 + 199999));
    match goal with |- context [?x <=? ?y] => destruct (Z.leb_spec x y) end; lia.
Qed.

Lemma id_of_prev c n : 1 ≤ c < MAX_OUTSTANDING → 1 ≤ n ≤ MAX_OUTSTANDING → norm_id n = id_of 199999 c →
  prev_id n = id_of 199999 (c - 1) ∧ norm_id (prev_id n) = prev_id n.
Proof.
  intros Hc Hn. unfold id_of, norm_id, prev_id. destruct (Z.leb_spec MAX_OUTSTANDING n); destruct (Z.leb_spec MAX_OUTSTANDING (c + 199999));
    destruct (Z.leb_spec MAX_OUTSTANDING (c - 1 + 199999)); destruct (Z.eqb_spec n 1);
    match goal with |- context [?x <=? ?y] => destruct (Z.leb_spec x y) end; lia.
Qed.

Lemma init_ids : ids_up_to libtrace_bucket_init 0.
Proof. split_and!; [done..|]. by intros id n H. Qed.

Lemma create_ids b buffer b' : libtrace_create_new_bucket b buffer = Ok b' →
  b_packets b' = b_packets b ∧ b_nextid b' = b_nextid b.
Proof.
  unfold libtrace_create_new_bucket. intros H. obind_inv H. obind_inv H. destruct a0 as [[nodes freed] [m l]].
  repeat (obind_inv H). destruct a2 as [m' l']. obind_inv H. by injection H as <-.
Qed.

(** Not all of the first ids are taken. *)
Lemma ids_not_exhausted b c : ids_up_to b c → c < MAX_OUTSTANDING - 1 → b_packets b !! norm_id (b_nextid b) = None.
Proof.
  intros (Hc & Hn & Hp) Hlt. destruct (b_packets b !! _) as [n|] eqn:E; [|done]. exfalso.
  apply Hp in E as (j & Hj & E). rewrite Hn in E. apply (f_equal (slot_of 199999)) in E. rewrite !slot_of_id in E by (done || lia). lia.
Qed.

Lemma push_ids b c b' id : ids_up_to b c → c < MAX_OUTSTANDING - 1 → b_lock b = false → 1 ≤ b_nextid b ≤ MAX_OUTSTANDING →
  libtrace_push_into_bucket b = Ok (b', id) → b_node b ≠ None → ids_up_to b' (c + 1).
Proof.
  intros (Hc & Hn & Hp) Hlt Hlock Hnext. unfold libtrace_push_into_bucket. rewrite Hlock. cbn [pthread_mutex_lock obind].
  fold (norm_id (b_nextid b)). pose proof (norm_id_valid _ Hnext) as Hv. destruct (u64_next _ Hv) as [E1 E2].
  assert (∀ ps n nodes held, packets_set (b_packets b) (norm_id (b_nextid b)) (Some n) = Ok ps →
    ids_up_to (b_update b (u64 (norm_id (b_nextid b) + 1)) ps nodes held) (c + 1)) as Hgo.
  { intros ps n nodes held. rewrite packets_set_ok by done. intros [= <-]. rewrite E1. split_and!; [lia| |]; cbn.
    - rewrite Hn. apply id_of_next. lia.
    - intros id' n'. rewrite lookup_insert_Some. intros [[<- _]|[_ H]]; [exists c; split; [lia|done]|].
      apply Hp in H as (j & Hj & ->). exists j. split; [lia|done]. }
  destruct (b_node b) as [n|]; [|done]. intros H _. obind_inv H. destruct a as [n' nd]. destruct (bn_startindex nd =? 0).
  - obind_inv H. destruct a; [done|]. obind_inv H. obind_inv H. obind_inv H. injection H as <- _. by eapply Hgo.
  - obind_inv H. destruct a as [released slots]. obind_inv H. destruct a; [done|]. obind_inv H. obind_inv H. obind_inv H. injection H as <- _. by eapply Hgo.
Qed.

Lemma free_slots_sub n : ∀ released i start ps ps', free_slots n released i start ps = Ok ps' → ps' ⊆ ps.
Proof.
  induction n as [|n IH]; intros released i start ps ps'; cbn [free_slots]; [by intros [= <-]|].
  intros H. obind_inv H. obind_inv H. apply IH in H. etrans; [exact H|]. destruct (a =? 2); [|by injection Hstep0 as <-].
  unfold packets_set in Hstep0. destruct (_ && _); [|done]. injection Hstep0 as <-. apply delete_subseteq.
Qed.

Lemma free_front_sub fuel : ∀ b b', free_front fuel b = Ok b' → b_packets b' ⊆ b_packets b.
Proof.
  induction fuel as [|fuel IH]; intros b b'; [done|]. cbn [free_front]. destruct (_ <=? 1); [by intros [= <-]|].
  intros H. obind_inv H. obind_inv H. obind_inv H. destruct a1 as [front nd]. destruct (0 <? bn_activemembers nd); [by injection H as <-|].
  destruct (bool_decide _); [by injection H as <-|]. obind_inv H. obind_inv H. obind_inv H. destruct a3 as [[m l] x].
  apply IH in H. cbn in H. etrans; [exact H|]. by eapply free_slots_sub.
Qed.

Lemma release_ids b c id b' : ids_up_to b c → 1 ≤ b_nextid b ≤ MAX_OUTSTANDING → c < MAX_OUTSTANDING → valid_id id →
  libtrace_release_bucket_id b id = Ok b' → ∃ c', c' ≤ c ∧ ids_up_to b' c'.
Proof.
  intros (Hc & Hn & Hp) Hnext Hlt Hv. unfold libtrace_release_bucket_id. intros H. do 5 obind_inv H. destruct a3 as [n nd]. do 6 obind_inv H.
  injection H as <-. pose proof (free_front_sub _ _ _ Hstep8) as Hsub. pose proof (free_front_current _ _ _ Hstep8) as (_ & Hnx & _).
  assert (a1 = b_packets b !! id) as Ha1.
  { rewrite packets_get_ok in Hstep1 by done. by injection Hstep1. }
  assert (∀ c', ids_up_to a6 c' → ids_up_to (b_update a7 (b_nextid a7) (b_packets a7) (b_nodes a7) a8) c') as Hgo.
  { intros c' (H1 & H2 & H3). split_and!; cbn; [done|by rewrite Hnx|]. intros id' n' H'. eapply H3, lookup_weaken; [exact H'|exact Hsub]. }
  destruct (a4 =? 1); [|injection Hstep7 as <-; exists c; split; [lia|by apply Hgo]].
  obind_inv Hstep7. obind_inv Hstep7. injection Hstep7 as <-. destruct (bool_decide _ && _) eqn:Elast.
  2: { exists c. split; [lia|]. apply Hgo. injection Hstep10 as <-. done. }
  apply andb_true_iff in Elast as [_ Hid%Z.eqb_eq]. rewrite packets_set_ok in Hstep10 by done. injection Hstep10 as <-.
  assert (is_Some (b_packets b !! id)) as [n' Hn'].
  { rewrite <- Ha1. unfold bn_load in Hstep3. destruct a1; [by eexists|done]. }
  pose proof (Hp _ _ Hn') as (j0 & Hj0 & _). exists (c - 1). split; [lia|]. apply Hgo.
  destruct (id_of_prev c (b_nextid b) ltac:(lia) Hnext Hn) as [Ep Enp].
  assert (id = prev_id (b_nextid b)) as Eid.
  { rewrite Hid. unfold prev_id. destruct (Z.eqb_spec (b_nextid b) 1); [done|]. apply u64_small. lia. }
  split_and!; cbn; [lia| |].
  - rewrite <- Hid, Eid. congruence.
  - intros id' n2 [Hne H]%lookup_delete_Some. apply Hp in H as (j & Hj & ->). exists j. split; [|done].
    assert (j ≠ c - 1); [|lia]. intros ->. apply Hne. congruence.
Qed.

(** The buffers of the chain have not been freed. *)
Lemma live_buffer b xs created out n nd buf : bucket_inv b xs created out → NoDup created →
  b_nodes b !! n = Some nd → bn_buffer nd = Some buf → buf ∈ created ∧ buf ∉ b_freed b.
Proof.
  intros Hinv Hnd Hn Hbuf. pose proof (bo_bufs _ _ _ _ Hinv) as Hp. rewrite Hp in Hnd. apply NoDup_app in Hnd as (_ & Hdisj & _).
  assert (buf ∈ buffers (b_nodes b) xs) as Hin.
  { unfold buffers. apply list_elem_of_omap. exists n. split; [|by rewrite Hn]. apply (bo_dom _ _ _ _ Hinv). eauto. }
  split; [rewrite Hp; set_solver|]. intros Hin2. by apply (Hdisj buf).
Qed.

Lemma out_buffer_live b xs created out id buf : bucket_inv b xs created out → NoDup created →
  out !! id = Some (Some buf) → buf ∈ created ∧ buf ∉ b_freed b.
Proof.
  intros Hinv Hnd Ho. apply (bo_out _ _ _ _ Hinv) in Ho as (n & nd & _ & Hn & _ & Hbuf). by eapply live_buffer.
Qed.

Lemma current_buffer_live b xs created out buf : bucket_inv b xs created out → NoDup created →
  current_buffer b = Some buf → buf ∈ created ∧ buf ∉ b_freed b.
Proof.
  unfold current_buffer. intros Hinv Hnd H. apply bind_Some in H as (n & _ & H). apply bind_Some in H as (nd & Hn & Hb).
  by eapply live_buffer.
Qed.

(** ** Runs *)
Inductive bucket_op := BCreate (buffer : option Z) | BPush | BRelease (id : Z).

(** One call, with the ids in use before and after; an id is released only while
    it is in use, and the current bucket stays small. *)
Inductive bucket_step : libtrace_bucket_t → gmap Z (option Z) → list Z →
    libtrace_bucket_t → gmap Z (option Z) → list Z → Prop :=
| step_create b out created buffer b' :
    libtrace_create_new_bucket b buffer = Ok b' →
    bucket_step b out created b' out (created ++ option_list buffer)
| step_push b out created b' id n nd buf :
    small_bucket b → libtrace_push_into_bucket b = Ok (b', id) →
    b_node b = Some n → b_nodes b !! n = Some nd → bn_buffer nd = buf →
    bucket_step b out created b' (<[id := buf]> out) created
| step_release b out created id buf b' :
    out !! id = Some buf → libtrace_release_bucket_id b id = Ok b' →
    bucket_step b out created b' (delete id out) created.

Inductive bucket_run : libtrace_bucket_t → gmap Z (option Z) → list Z → nat → Prop :=
| run_start : bucket_run libtrace_bucket_init ∅ [] 0
| run_step b out created k b' out' created' :
    bucket_run b out created k → bucket_step b out created b' out' created' →
    bucket_run b' out' created' (S k).

Lemma bucket_run_inv b out created k :
  bucket_run b out created k → Z.of_nat k ≤ SIZE_MAX →
  ∃ xs, bucket_inv b xs created out ∧ Zlen xs ≤ Z.of_nat k.
Proof.
  induction 1 as [|b out created k b' out' created' _ IH Hstep]; intros Hk.
  { exists []. split; [apply bucket_init_inv|done]. }
  destruct IH as (xs & Hinv & Hlen); [lia|].
  destruct Hstep as [b out created buffer b' Hc|b out created b' id n nd buf Hsm Hp Hcur Hn <-|b out created id buf b' Ho Hr].
  - destruct (create_new_bucket_ok b xs created out buffer) as (b2 & xs' & Hc2 & Hinv' & Hle); [done|lia|].
    exists xs'. rewrite Hc in Hc2. injection Hc2 as <-. split; [done|lia].
  - pose proof (push_into_bucket_ok b xs created out Hinv Hsm) as Hpush. rewrite Hp in Hpush.
    destruct Hpush as [(Hnone & _)|(_ & _ & n2 & nd2 & Hcur2 & Hn2 & Hinv')]; [congruence|].
    exists xs. simplify_eq. split; [done|lia].
  - destruct (release_bucket_id_ok b xs created out id buf Hinv) as (b2 & xs' & Hr2 & Hinv' & _ & Hle); [lia|done|].
    exists xs'. rewrite Hr in Hr2. injection Hr2 as <-. split; [done|lia].
Qed.

(** Whatever sequence of calls led to a state, the next call works: a new bucket
    can be created; adding a packet gives an id from 1 to 199,999 that is not in
    use, unless the slot of the next id is still taken, when the caller waits;
    and releasing an id in use succeeds, passes all the assertions of the code,
    never touches a freed bucket, and leaves no exhausted bucket at the front of
    the chain. *)
Theorem bucket_calls_succeed b out created k :
  bucket_run b out created k → Z.of_nat k < SIZE_MAX →
  (∀ buffer, is_ok (libtrace_create_new_bucket b buffer) = true) ∧
  (small_bucket b → b_node b ≠ None →
     (libtrace_push_into_bucket b = Fault Blocked ∧ is_Some (b_packets b !! norm_id (b_nextid b))) ∨
     ∃ b' id, libtrace_push_into_bucket b = Ok (b', id) ∧ valid_id id ∧ out !! id = None) ∧
  (∀ id buf, out !! id = Some buf →
     ∃ b' xs, libtrace_release_bucket_id b id = Ok b' ∧ settled b' xs ∧ ∀ n, n ∈ xs ↔ is_Some (b_nodes b' !! n)).
Proof.
  intros Hrun Hk. destruct (bucket_run_inv b out created k Hrun) as (xs & Hinv & Hlen); [lia|]. split_and!.
  - intros buffer. destruct (create_new_bucket_ok b xs created out buffer) as (b' & xs' & -> & _); [done|lia|done].
  - intros Hsm Hcur. pose proof (push_into_bucket_ok b xs created out Hinv Hsm) as Hp.
    destruct (libtrace_push_into_bucket b) as [[b' id]|f]; [right|left].
    + exists b', id. destruct Hp as [(? & _)|(? & ? & _)]; done.
    + by destruct Hp as [-> ?].
  - intros id buf Ho.
    destruct (release_bucket_id_ok b xs created out id buf Hinv) as (b' & xs' & -> & Hinv' & Hset & _); [lia|done|].
    exists b', xs'. split_and!; try done. apply (bo_dom _ _ _ _ Hinv').
Qed.

(** Destroying frees the current bucket and its buffer, if there is one, and nothing
    else. *)
Lemma bucket_destroy_ok b xs created out : bucket_inv b xs created out →
  libtrace_bucket_destroy b
  = Ok (match b_node b with Some n => delete n (b_nodes b) | None => b_nodes b end,
        b_freed b ++ option_list (current_buffer b)).
Proof.
  intros Hinv. destruct (bo_list _ _ _ _ Hinv) as (l & Hl & R). unfold libtrace_bucket_destroy, current_buffer.
  rewrite (bi_lock _ _ _ _ Hinv). cbn [pthread_mutex_lock obind]. destruct (b_node b) as [n|] eqn:Hcur.
  - assert (is_Some (b_nodes b !! n)) as [nd Hn].
    { apply (bo_dom _ _ _ _ Hinv). pose proof (bi_node _ _ _ _ Hinv) as E. rewrite Hcur in E. symmetry in E.
      apply last_Some in E as [l' ->]. set_solver. }
    cbn [bn_load]. rewrite Hn. cbn [obind mbind option_bind]. rewrite Hl, (list_deinit_rep _ _ _ R).
    cbn [obind pthread_mutex_unlock]. rewrite clear_bucket_node_buffers, Hn. done.
  - cbn [obind]. rewrite Hl, (list_deinit_rep _ _ _ R). cbn [obind pthread_mutex_unlock]. cbn. by rewrite app_nil_r.
Qed.

(** C16: After any sequence of calls in which the current bucket gets fewer than 65,526
    slots before a packet is added and no call has to wait for a free id: no buffer
    is freed twice, and none while an id of its bucket is in use.  Destroying the
    structure then frees the buffer of the current bucket too, once, and if ids of
    that bucket are in use their buffer is gone; the buffers of the ids of older
    buckets stay. *)
Theorem bucket_buffers_safe b out created k :
  bucket_run b out created k → Z.of_nat k ≤ SIZE_MAX → NoDup created →
  NoDup (b_freed b) ∧ (∀ buf, buf ∈ b_freed b → buf ∈ created) ∧
  (∀ id buf, out !! id = Some (Some buf) → buf ∈ created ∧ buf ∉ b_freed b) ∧
  ∃ nodes freed, libtrace_bucket_destroy b = Ok (nodes, freed) ∧ NoDup freed ∧ (∀ buf, buf ∈ freed → buf ∈ created) ∧
    ∀ id buf, out !! id = Some (Some buf) → (buf ∈ freed ↔ current_buffer b = Some buf).
Proof.
  intros Hrun Hk Hnd. destruct (bucket_run_inv b out created k Hrun Hk) as (xs & Hinv & Hlen).
  pose proof (bo_bufs _ _ _ _ Hinv) as Hp. pose proof Hnd as Hnd'. rewrite Hp in Hnd'. apply NoDup_app in Hnd' as (Hf & _ & _).
  assert (∀ buf, buf ∈ b_freed b → buf ∈ created) as Hsub by (intros buf Hb; rewrite Hp; set_solver).
  assert (∀ id buf, out !! id = Some (Some buf) → buf ∈ created ∧ buf ∉ b_freed b) as Hout
    by (intros id buf; by eapply out_buffer_live).
  split_and!; [done|done|done|]. do 2 eexists. split; [by eapply bucket_destroy_ok|].
  pose proof (λ buf, current_buffer_live b xs created out buf Hinv Hnd) as Hcur.
  destruct (current_buffer b) as [buf0|].
  - destruct (Hcur buf0 eq_refl) as [Hc Hn]. change (option_list (Some buf0)) with [buf0]. split_and!.
    + apply NoDup_app. split_and!; [done| |apply NoDup_singleton]. intros x Hx Hx0. apply list_elem_of_singleton in Hx0 as ->. done.
    + intros buf. rewrite elem_of_app, list_elem_of_singleton. intros [?| ->]; [by apply Hsub|done].
    + intros id buf Ho. destruct (Hout id buf Ho) as [_ Hnf]. rewrite elem_of_app, list_elem_of_singleton. split; [intros [?| ->]; done|].
      intros [= <-]. by right.
  - change (option_list None) with (@nil Z). rewrite app_nil_r. split_and!; [done|done|]. intros id buf Ho. destruct (Hout id buf Ho) as [_ Hnf]. by split.
Qed.

(** All buckets but the current one stay allocated. *)
Theorem bucket_destroy_leaks b out created k n :
  bucket_run b out created k → Z.of_nat k ≤ SIZE_MAX → b_node b = Some n →
  ∃ freed, libtrace_bucket_destroy b = Ok (delete n (b_nodes b), freed).
Proof.
  intros Hrun Hk Hcur. destruct (bucket_run_inv b out created k Hrun Hk) as (xs & Hinv & Hlen).
  rewrite (bucket_destroy_ok b xs created out Hinv), Hcur. by eexists.
Qed.

(** ** Instances *)
Definition bucket_after (ops : list bucket_op) : outcome libtrace_bucket_t :=
  foldl (λ o op, let! b := o in
    match op with
    | BCreate buffer => libtrace_create_new_bucket b buffer
    | BPush => let! ' (b, _) := libtrace_push_into_bucket b in Ok b
    | BRelease id => libtrace_release_bucket_id b id
    end) (Ok libtrace_bucket_init) ops.

(** Two buckets with a packet each, the first with id 199,999, the second with
    id 1. *)
Definition sample_ops : list bucket_op := [BCreate (Some 100); BPush; BCreate (Some 200); BPush].
Definition sample_bucket (n : nat) : libtrace_bucket_t :=
  match bucket_after (take n sample_ops) with Ok b => b | Fault _ => libtrace_bucket_init end.
Definition sample_out : gmap Z (option Z) := <[1 := Some 200]> (<[199999 := Some 100]> ∅).

Lemma sample_small n : Forall (λ p, bn_slots p.2 + 10 < 2 ^ 16) (map_to_list (b_nodes (sample_bucket n))) →
  small_bucket (sample_bucket n).
Proof.
  intros HF m nd _ Hm. apply elem_of_map_to_list in Hm.
  exact (proj1 (Forall_forall _ _) HF _ Hm).
Qed.

Lemma sample_run : bucket_run (sample_bucket 4) sample_out [100; 200] 4.
Proof.
  apply (run_step (sample_bucket 3) (<[199999 := Some 100]> ∅) [100; 200]).
  2: { eapply (step_push _ _ _ _ 1 2%positive _ (Some 200)); [apply sample_small; repeat constructor|vm_compute; reflexivity..]. }
  apply (run_step (sample_bucket 2) (<[199999 := Some 100]> ∅) [100]).
  2: { eapply (step_create _ _ [100] (Some 200)). vm_compute. reflexivity. }
  apply (run_step (sample_bucket 1) ∅ [100]).
  2: { eapply (step_push _ _ _ _ 199999 1%positive _ (Some 100)); [apply sample_small; repeat constructor|vm_compute; reflexivity..]. }
  apply (run_step (sample_bucket 0) ∅ []); [constructor|].
  eapply (step_create _ _ [] (Some 100)). vm_compute. reflexivity.
Qed.

Lemma bucket_calls_succeed_witness :
  ∃ b' xs, libtrace_release_bucket_id (sample_bucket 4) 199999 = Ok b' ∧ settled b' xs ∧
    ∀ n, n ∈ xs ↔ is_Some (b_nodes b' !! n).
Proof.
  apply (bucket_calls_succeed (sample_bucket 4) sample_out [100; 200] 4 sample_run) with (buf := Some 100).
  - vm_compute. reflexivity.
  - reflexivity.
Defined.

(** The second bucket is the current one: destroying frees its buffer, although the id 1
    is in use. *)
Lemma bucket_buffers_safe_witness :
  NoDup (b_freed (sample_bucket 4)) ∧
  ∃ nodes freed, libtrace_bucket_destroy (sample_bucket 4) = Ok (nodes, freed) ∧ NoDup freed ∧ 200 ∈ freed ∧ 100 ∉ freed.
Proof.
  destruct (bucket_buffers_safe (sample_bucket 4) sample_out [100; 200] 4 sample_run) as (H1 & _ & _ & nodes & freed & E & H2 & _ & H3).
  - vm_compute. discriminate.
  - by apply (bool_decide_eq_true_1 (NoDup [100; 200])).
  - split; [exact H1|]. exists nodes, freed. split_and!; [exact E|exact H2|by apply (H3 1 200)|].
    intros Hin. apply (H3 199999 100) in Hin; [|done]. vm_compute in Hin. discriminate Hin.
Defined.

Lemma bucket_destroy_leaks_witness :
  ∃ freed, libtrace_bucket_destroy (sample_bucket 4) = Ok (delete 2%positive (b_nodes (sample_bucket 4)), freed).
Proof.
  apply (bucket_destroy_leaks (sample_bucket 4) sample_out [100; 200] 4 2%positive sample_run).
  - vm_compute. discriminate.
  - vm_compute. reflexivity.
Defined.
