(* ===== verification/ObjectCache.v ===== *)
(** * The object cache: lib/data-struct/object_cache.c

    A pool of recycled objects (packets): a ring buffer that all threads share
    and, per thread, a small array of objects.  Objects are numbered in the order
    in which [oc->alloc] returns them, and [oc->free] records what it is given.  A
    call is one step; a call that would wait for another thread is [Blocked].

    A thread's table of caches is represented by the entry for this object
    cache. *)

From S2P Require Import Prelude RingBuffer.
Local Open Scope Z_scope.
Local Open Scope outcome_scope.

Record local_cache := {
  lc_total : Z;
  lc_used : Z;
  lc_cache : list Z;
  lc_invalid : bool;
}.

(** [thread_list] holds the registered threads; the tables of all threads, the
    objects allocated and the objects freed belong to the surroundings. *)
Record libtrace_ocache_t := {
  oc_rb : libtrace_ringbuffer_t;
  oc_thread_cache_size : Z;
  oc_max_allocations : Z;
  oc_current_allocations : Z;
  oc_thread_list : list nat;
  oc_local : list (option local_cache);
  oc_allocated : nat;
  oc_freed : list Z;
}.

Definition oc_set_rb (oc : libtrace_ocache_t) (rb : libtrace_ringbuffer_t) : libtrace_ocache_t :=
  {| oc_rb := rb; oc_thread_cache_size := oc_thread_cache_size oc;
     oc_max_allocations := oc_max_allocations oc; oc_current_allocations := oc_current_allocations oc;
     oc_thread_list := oc_thread_list oc; oc_local := oc_local oc; oc_allocated := oc_allocated oc;
     oc_freed := oc_freed oc |}.

Definition oc_set_local (oc : libtrace_ocache_t) (local : list (option local_cache))
    (threads : list nat) : libtrace_ocache_t :=
  {| oc_rb := oc_rb oc; oc_thread_cache_size := oc_thread_cache_size oc;
     oc_max_allocations := oc_max_allocations oc; oc_current_allocations := oc_current_allocations oc;
     oc_thread_list := threads; oc_local := local; oc_allocated := oc_allocated oc;
     oc_freed := oc_freed oc |}.

Definition oc_set_alloc (oc : libtrace_ocache_t) (current : Z) (allocated : nat) : libtrace_ocache_t :=
  {| oc_rb := oc_rb oc; oc_thread_cache_size := oc_thread_cache_size oc;
     oc_max_allocations := oc_max_allocations oc; oc_current_allocations := current;
     oc_thread_list := oc_thread_list oc; oc_local := oc_local oc; oc_allocated := allocated;
     oc_freed := oc_freed oc |}.

Definition oc_set_freed (oc : libtrace_ocache_t) (freed : list Z) : libtrace_ocache_t :=
  {| oc_rb := oc_rb oc; oc_thread_cache_size := oc_thread_cache_size oc;
     oc_max_allocations := oc_max_allocations oc; oc_current_allocations := oc_current_allocations oc;
     oc_thread_list := oc_thread_list oc; oc_local := oc_local oc; oc_allocated := oc_allocated oc;
     oc_freed := freed |}.

(** [memcpy(&dst[doff], &src[soff], n)] and [memmove], on arrays of pointers. *)
Definition arr_copy (dst : list Z) (doff : Z) (src : list Z) (soff n : Z) : outcome (list Z) :=
  if (0 <=? doff) && (doff + n <=? Zlen dst) && (0 <=? soff) && (soff + n <=? Zlen src)
  then Ok (take (Z.to_nat doff) dst ++ take (Z.to_nat n) (drop (Z.to_nat soff) src)
           ++ drop (Z.to_nat (doff + n)) dst)
  else Fault OutOfBounds.

(** ** Creating *)

(** [None] is the return value -1. *)
Definition libtrace_ocache_init (rb0 : libtrace_ringbuffer_t) (threads : nat)
    (thread_cache_size buffer_size : Z) (limit_size : bool) : outcome (option libtrace_ocache_t) :=
  let! _ := oassert (negb (buffer_size =? 0)) in
  let '(rb, ret) := libtrace_ringbuffer_init rb0 buffer_size LIBTRACE_RINGBUFFER_BLOCKING in
  if negb (ret =? 0) then Ok None
  else Ok (Some {| oc_rb := rb; oc_thread_cache_size := thread_cache_size;
                   oc_max_allocations := if limit_size then buffer_size else 0;
                   oc_current_allocations := 0; oc_thread_list := [];
                   oc_local := replicate threads None; oc_allocated := 0; oc_freed := [] |}).

(** ** Thread caches *)

(** [find_cache] with [register_thread]: the cache of thread [t], created if the
    thread has none yet; none at all if thread caches are switched off.  What
    [malloc] leaves in a new cache is 0 here and never read. *)
Definition find_cache (oc : libtrace_ocache_t) (t : nat)
  : outcome (libtrace_ocache_t * option local_cache) :=
  let! entry := aget (oc_local oc) (Z.of_nat t) in
  if oc_thread_cache_size oc =? 0 then Ok (oc, None)
  else
    match entry with
    | Some lc => let! _ := oassert (negb (lc_invalid lc)) in Ok (oc, Some lc)
    | None =>
        let lc := {| lc_total := oc_thread_cache_size oc; lc_used := 0;
                     lc_cache := replicate (Z.to_nat (oc_thread_cache_size oc)) 0;
                     lc_invalid := false |} in
        let! local := aset (oc_local oc) (Z.of_nat t) (Some lc) in
        Ok (oc_set_local oc local (oc_thread_list oc ++ [t]), Some lc)
    end.

Definition set_cache (oc : libtrace_ocache_t) (t : nat) (lc : option local_cache)
  : outcome libtrace_ocache_t :=
  let! local := aset (oc_local oc) (Z.of_nat t) lc in
  Ok (oc_set_local oc local (oc_thread_list oc)).

(** The last thread of the list takes the place of thread [t]; nothing if [t] is
    not in the list. *)
Fixpoint list_index (ts : list nat) (t : nat) : option nat :=
  match ts with
  | [] => None
  | x :: ts' => if (x =? t)%nat then Some O else S <$> list_index ts' t
  end.

Definition remove_thread (ts : list nat) (t : nat) : option (list nat) :=
  match list_index ts t with
  | None => None
  | Some i => Some (take (pred (length ts)) (<[i := default t (last ts)]> ts))
  end.

(** [unregister_thread]: the objects of the cache go back to the ring, or are
    freed. *)
Definition unregister_thread (oc : libtrace_ocache_t) (t : nat) : outcome libtrace_ocache_t :=
  let! entry := aget (oc_local oc) (Z.of_nat t) in
  match entry with
  | None => Fault NullDeref
  | Some lc =>
      match remove_thread (oc_thread_list oc) t with
      | None => Ok oc
      | Some threads =>
          let lc' := {| lc_total := lc_total lc; lc_used := lc_used lc; lc_cache := lc_cache lc;
                        lc_invalid := true |} in
          let! local := aset (oc_local oc) (Z.of_nat t) (Some lc') in
          let oc := oc_set_local oc local threads in
          if negb (oc_max_allocations oc =? 0) then
            let! ' (rb, _) := libtrace_ringbuffer_swrite_bulk (oc_rb oc) (lc_cache lc) (lc_used lc) (lc_used lc) in
            Ok (oc_set_rb oc rb)
          else Ok (oc_set_freed oc (oc_freed oc ++ take (Z.to_nat (lc_used lc)) (lc_cache lc)))
      end
  end.

(** [libtrace_ocache_unregister_thread], for the entry of this object cache. *)
Definition libtrace_ocache_unregister_thread (oc : libtrace_ocache_t) (t : nat)
  : outcome libtrace_ocache_t :=
  let! ' (oc, lc) := find_cache oc t in
  match lc with
  | None => Ok oc
  | Some _ => let! oc := unregister_thread oc t in set_cache oc t None
  end.

(** ** Taking objects *)

(** The ring, the array [values] and the cache after the call, and the number of
    objects obtained. *)
Definition libtrace_ocache_alloc_cache (rb : libtrace_ringbuffer_t) (values : list Z)
    (nb_buffers min_nb_buffers : Z) (lc : local_cache)
  : outcome (libtrace_ringbuffer_t * list Z * local_cache * Z) :=
  let with_cache cache used :=
    {| lc_total := lc_total lc; lc_used := used; lc_cache := cache; lc_invalid := lc_invalid lc |} in
  if nb_buffers <=? lc_used lc then
    let! values := arr_copy values 0 (lc_cache lc) (lc_used lc - nb_buffers) nb_buffers in
    Ok (rb, values, with_cache (lc_cache lc) (lc_used lc - nb_buffers), nb_buffers)
  else
    let! ' (rb, values, cache, used, i) :=
      if lc_total lc <? nb_buffers then
        let! ' (rb, (values, i)) := libtrace_ringbuffer_sread_bulk rb values nb_buffers min_nb_buffers in
        Ok (rb, values, lc_cache lc, lc_used lc, i)
      else
        let i := lc_used lc in
        let! values := arr_copy values 0 (lc_cache lc) 0 (lc_used lc) in
        let min := if i <? min_nb_buffers then min_nb_buffers - i else 0 in
        let! ' (rb, (cache, used)) := libtrace_ringbuffer_sread_bulk rb (lc_cache lc) (lc_total lc) min in
        Ok (rb, values, cache, used, i) in
    let! ' (values, used, i) :=
      if (i <? nb_buffers) && negb (used =? 0) then
        let remaining := Z.min used (nb_buffers - i) in
        let! values := arr_copy values i cache (used - remaining) remaining in
        Ok (values, used - remaining, i + remaining)
      else Ok (values, used, i) in
    let! _ := oassert (min_nb_buffers <=? i) in
    Ok (rb, values, with_cache cache used, i).

(** From the thread's cache if it has one, else from the ring. *)
Definition take_objects (oc : libtrace_ocache_t) (t : nat) (lc : option local_cache) (values : list Z)
    (nb_buffers min_nb_buffers : Z) : outcome (libtrace_ocache_t * option local_cache * list Z * Z) :=
  match lc with
  | Some lc =>
      let! ' (rb, values, lc, i) :=
        libtrace_ocache_alloc_cache (oc_rb oc) values nb_buffers min_nb_buffers lc in
      let! oc := set_cache (oc_set_rb oc rb) t (Some lc) in
      Ok (oc, Some lc, values, i)
  | None =>
      let! ' (rb, (values, i)) :=
        libtrace_ringbuffer_sread_bulk (oc_rb oc) values nb_buffers min_nb_buffers in
      Ok (oc_set_rb oc rb, None, values, i)
  end.

(** The loop that calls [oc->alloc] for the rest of the array, [n] rounds to go:
    the next object has the next number. *)
Fixpoint alloc_objects (n : nat) (allocated : nat) (values : list Z) (i : Z) : outcome (list Z) :=
  match n with
  | O => Ok values
  | S n' =>
      let! values := aset values i (Z.of_nat (S allocated)) in
      alloc_objects n' (S allocated) values (i + 1)
  end.

Definition libtrace_ocache_alloc (oc : libtrace_ocache_t) (t : nat) (values : list Z)
    (nb_buffers min_nb_buffers : Z) : outcome (libtrace_ocache_t * list Z * Z) :=
  let! ' (oc, lc) := find_cache oc t in
  let limited := negb (oc_max_allocations oc =? 0) in
  let try_alloc := negb (limited && (oc_max_allocations oc <=? oc_current_allocations oc)) in
  let! _ := oassert (if limited then nb_buffers <? oc_max_allocations oc else true) in
  let min := if try_alloc then 0 else min_nb_buffers in
  let! ' (oc, lc, values, i) := take_objects oc t lc values nb_buffers min in
  let! ' (oc, values, i) :=
    if try_alloc then
      let '(current, nb) :=
        if limited then
          let nb := Z.min (oc_max_allocations oc - oc_current_allocations oc) (nb_buffers - i) in
          (oc_current_allocations oc + nb, nb + i)
        else (oc_current_allocations oc, nb_buffers) in
      let n := Z.to_nat (nb - i) in
      let! values := alloc_objects n (oc_allocated oc) values i in
      let oc := oc_set_alloc oc current (oc_allocated oc + n) in
      if nb <? min_nb_buffers then
        let! ' (oc, _, rest, j) :=
          take_objects oc t lc (drop (Z.to_nat nb) values) (nb_buffers - nb) (min_nb_buffers - nb) in
        Ok (oc, take (Z.to_nat nb) values ++ rest, nb + j)
      else Ok (oc, values, nb)
    else Ok (oc, values, i) in
  let! _ := oassert (min_nb_buffers <=? i) in
  Ok (oc, values, i).

(** ** Giving objects back *)
Definition libtrace_ocache_free_cache (rb : libtrace_ringbuffer_t) (values : list Z)
    (nb_buffers min_nb_buffers : Z) (lc : local_cache)
  : outcome (libtrace_ringbuffer_t * local_cache * Z) :=
  let with_cache cache used :=
    {| lc_total := lc_total lc; lc_used := used; lc_cache := cache; lc_invalid := lc_invalid lc |} in
  if nb_buffers <=? lc_total lc - lc_used lc then
    let! cache := arr_copy (lc_cache lc) (lc_used lc) values 0 nb_buffers in
    Ok (rb, with_cache cache (lc_used lc + nb_buffers), nb_buffers)
  else
    let! ' (rb, cache, used, i) :=
      if lc_total lc <? nb_buffers then
        let! ' (rb, i) := libtrace_ringbuffer_swrite_bulk rb values nb_buffers min_nb_buffers in
        Ok (rb, lc_cache lc, lc_used lc, i)
      else
        let i := lc_total lc - lc_used lc in
        let! cache := arr_copy (lc_cache lc) (lc_used lc) values 0 i in
        let min := if i <? min_nb_buffers then min_nb_buffers - i else 0 in
        let! ' (rb, n) := libtrace_ringbuffer_swrite_bulk rb cache (lc_total lc) min in
        let used := lc_total lc - n in
        let! cache := if negb (used =? 0) then arr_copy cache 0 cache (lc_total lc - used) used else Ok cache in
        Ok (rb, cache, used, i) in
    if (i <? nb_buffers) && negb (used =? lc_total lc) then
      let remaining := Z.min (lc_total lc - used) (nb_buffers - i) in
      let! cache := arr_copy cache used values i remaining in
      Ok (rb, with_cache cache (used + remaining), i + remaining)
    else Ok (rb, with_cache cache used, i).

Definition libtrace_ocache_free (oc : libtrace_ocache_t) (t : nat) (values : list Z)
    (nb_buffers min_nb_buffers : Z) : outcome (libtrace_ocache_t * Z) :=
  let! ' (oc, lc) := find_cache oc t in
  let limited := negb (oc_max_allocations oc =? 0) in
  let! _ := oassert (if limited then nb_buffers <? oc_max_allocations oc else true) in
  let min := if limited then min_nb_buffers else 0 in
  let! ' (oc, i) :=
    match lc with
    | Some lc =>
        let! ' (rb, lc, i) := libtrace_ocache_free_cache (oc_rb oc) values nb_buffers min lc in
        let! oc := set_cache (oc_set_rb oc rb) t (Some lc) in
        Ok (oc, i)
    | None =>
        let! ' (rb, i) := libtrace_ringbuffer_swrite_bulk (oc_rb oc) values nb_buffers min in
        Ok (oc_set_rb oc rb, i)
    end in
  if negb limited && (i <? min_nb_buffers) then
    let n := min_nb_buffers - i in
    if (0 <=? i) && (min_nb_buffers <=? Zlen values)
    then Ok (oc_set_freed oc (oc_freed oc ++ take (Z.to_nat n) (drop (Z.to_nat i) values)), min_nb_buffers)
    else Fault OutOfBounds
  else Ok (oc, i).

(** ** Destroying *)
Fixpoint unregister_all (fuel : nat) (oc : libtrace_ocache_t) : outcome libtrace_ocache_t :=
  match oc_thread_list oc with
  | [] => Ok oc
  | t :: _ =>
      match fuel with
      | O => Fault OutOfFuel
      | S fuel' => let! oc := unregister_thread oc t in unregister_all fuel' oc
      end
  end.

Fixpoint drain_ring (fuel : nat) (oc : libtrace_ocache_t) : outcome libtrace_ocache_t :=
  match fuel with
  | O => Fault OutOfFuel
  | S fuel' =>
      let! ' (rb, ret, ele) := libtrace_ringbuffer_try_read (oc_rb oc) in
      if ret =? 0 then Ok (oc_set_rb oc rb)
      else
        match ele with
        | None => Fault Uninitialised
        | Some ele =>
            let oc := oc_set_freed (oc_set_rb oc rb) (oc_freed oc ++ [ele]) in
            let current := if negb (oc_max_allocations oc =? 0) then u64 (oc_current_allocations oc - 1)
                           else oc_current_allocations oc in
            drain_ring fuel' (oc_set_alloc oc current (oc_allocated oc))
        end
  end.

Definition libtrace_zero_ocache (oc : libtrace_ocache_t) : libtrace_ocache_t :=
  {| oc_rb := libtrace_zero_ringbuffer (oc_rb oc); oc_thread_cache_size := 0; oc_max_allocations := 0;
     oc_current_allocations := 0; oc_thread_list := []; oc_local := oc_local oc;
     oc_allocated := oc_allocated oc; oc_freed := oc_freed oc |}.

(** One round per registered thread, and one per object in the ring. *)
Definition libtrace_ocache_destroy (oc : libtrace_ocache_t) : outcome (libtrace_ocache_t * Z) :=
  let! oc := unregister_all (length (oc_thread_list oc)) oc in
  let! oc := drain_ring (S (Z.to_nat (libtrace_ringbuffer_nb_full (oc_rb oc)))) oc in
  let oc := libtrace_zero_ocache
              (oc_set_rb oc (libtrace_ringbuffer_destroy (oc_rb oc))) in
  Ok (oc, if negb (oc_current_allocations oc =? 0) then i32 (oc_current_allocations oc) else 0).

(** ** The bulk operations of the ring *)
Definition ring_holds (rb : libtrace_ringbuffer_t) (cap : Z) (xs : list Z) : Prop :=
  rb_rep rb xs ∧ rb_capacity rb = cap ∧ rb_wlock rb = false ∧ rb_rlock rb = false.

Lemma sread_bulk_ok rb cap xs values nb mn :
  ring_holds rb cap xs → 0 ≤ mn ≤ nb → nb < 2 ^ 64 → nb ≤ Zlen values →
  let k := Z.min (Zlen xs) nb in
  (libtrace_ringbuffer_sread_bulk rb values nb mn = Fault Blocked ∧ Zlen xs < mn) ∨
  (mn ≤ Zlen xs ∧ ∃ rb', libtrace_ringbuffer_sread_bulk rb values nb mn
     = Ok (rb', (take (Z.to_nat k) xs ++ drop (Z.to_nat k) values, k)) ∧
   ring_holds rb' cap (drop (Z.to_nat k) xs)).
Proof.
  intros (R & Hc & Hw & Hr) Hmn Hnb Hv k. pose proof (rb_bounds _ _ R).
  unfold libtrace_ringbuffer_sread_bulk. rewrite (rb_is_empty_rep _ _ R).
  destruct ((mn =? 0) && bool_decide (xs = [])) eqn:E.
  { apply andb_prop in E as [->%Z.eqb_eq ->%bool_decide_eq_true]. right. split; [done|].
    exists rb. unfold k. change (Zlen (@nil Z)) with 0. rewrite Z.min_l by lia. rewrite drop_0. by split. }
  unfold with_rlock. rewrite Hr. cbn [pthread_mutex_lock obind].
  assert (rb_rep (rb_set_rlock rb true) xs) as R' by (destruct R; by split).
  unfold libtrace_ringbuffer_read_bulk. rewrite (proj2 (Z.leb_le mn nb)) by lia. cbn [oassert obind].
  rewrite (rb_is_empty_rep _ _ R'), E.
  destruct (rb_read_rounds_ok (S (Z.to_nat nb)) (rb_set_rlock rb true) xs values nb mn) as
    [[-> ?]|(? & s & -> & R2)]; [done|lia..| |by left|right].
  { intros ->. by destruct (bool_decide_reflect (xs = [])). }
  split; [done|]. cbn [obind rb_rlock rb_set_start rb_set_rlock pthread_mutex_unlock]. eexists. split; [done|].
  split_and!; [destruct R2; by split|done..].
Qed.

Lemma swrite_bulk_ok rb cap xs values nb mn :
  ring_holds rb cap xs → 0 ≤ mn ≤ nb → nb < 2 ^ 64 → nb ≤ Zlen values →
  let k := Z.min (cap - Zlen xs) nb in
  (libtrace_ringbuffer_swrite_bulk rb values nb mn = Fault Blocked ∧ cap - Zlen xs < mn) ∨
  (mn ≤ cap - Zlen xs ∧ ∃ rb', libtrace_ringbuffer_swrite_bulk rb values nb mn = Ok (rb', k) ∧
   ring_holds rb' cap (xs ++ take (Z.to_nat k) values)).
Proof.
  intros (R & Hc & Hw & Hr) Hmn Hnb Hv k. pose proof (rb_bounds _ _ R).
  unfold libtrace_ringbuffer_swrite_bulk. rewrite (rb_is_full_rep _ _ R), Hc.
  assert ((if mn =? 0 then Ok (Zlen xs =? cap) else Ok false)
    = Ok ((mn =? 0) && (Zlen xs =? cap))) as -> by by destruct (mn =? 0). cbn [obind].
  destruct ((mn =? 0) && (Zlen xs =? cap)) eqn:E.
  { apply andb_prop in E as [->%Z.eqb_eq E%Z.eqb_eq]. right. split; [lia|]. exists rb.
    unfold k. rewrite E, Z.sub_diag, Z.min_l by lia. rewrite app_nil_r. by split. }
  unfold with_wlock. rewrite Hw. cbn [pthread_mutex_lock obind].
  assert (rb_rep (rb_set_wlock rb true) xs) as R' by (destruct R; by split).
  unfold libtrace_ringbuffer_write_bulk. rewrite (proj2 (Z.leb_le mn nb)) by lia. cbn [oassert obind].
  rewrite (rb_is_full_rep _ _ R'). change (rb_capacity (rb_set_wlock rb true)) with (rb_capacity rb). rewrite Hc.
  assert ((if mn =? 0 then Ok (Zlen xs =? cap) else Ok false)
    = Ok ((mn =? 0) && (Zlen xs =? cap))) as -> by by destruct (mn =? 0). cbn [obind]. rewrite E.
  destruct (rb_write_rounds_ok (S (Z.to_nat nb)) (rb_set_wlock rb true) xs values nb mn) as
    [[-> Hlt]|(? & es & e & -> & R2)]; [done|lia..| | |].
  { intros ->. change (rb_capacity (rb_set_wlock rb true)) with (rb_capacity rb). rewrite Hc.
    destruct (Z.eqb_spec (Zlen xs) cap); [done|lia]. }
  { left. split; [done|]. by rewrite <- Hc. }
  right. rewrite <- Hc. split; [done|].
  cbn [obind rb_wlock rb_set_end rb_set_wlock pthread_mutex_unlock]. eexists. split; [unfold k; by rewrite <- Hc|].
  split_and!; [|done..]. unfold k. rewrite <- Hc. destruct R2; by split.
Qed.

(** ** Thread caches that hold objects *)
Record lc_ok (lc : local_cache) : Prop := {
  lo_len : Zlen (lc_cache lc) = lc_total lc;
  lo_used : 0 ≤ lc_used lc ≤ lc_total lc;
  lo_total : lc_total lc < 2 ^ 63;
  lo_valid : lc_invalid lc = false;
}.

Definition contents (lc : local_cache) : list Z := take (Z.to_nat (lc_used lc)) (lc_cache lc).

Lemma contents_length lc : lc_ok lc → Zlen (contents lc) = lc_used lc.
Proof. intros [Hl Hu _ _]. unfold contents, Zlen in *. rewrite length_take. lia. Qed.

Lemma arr_copy_ok dst doff src soff n :
  0 ≤ doff → 0 ≤ n → doff + n ≤ Zlen dst → 0 ≤ soff → soff + n ≤ Zlen src →
  arr_copy dst doff src soff n
  = Ok (take (Z.to_nat doff) dst ++ take (Z.to_nat n) (drop (Z.to_nat soff) src)
        ++ drop (Z.to_nat (doff + n)) dst).
Proof.
  intros. unfold arr_copy.
  by rewrite (proj2 (Z.leb_le 0 doff)), (proj2 (Z.leb_le (doff + n) _)), (proj2 (Z.leb_le 0 soff)),
    (proj2 (Z.leb_le (soff + n) _)) by lia.
Qed.

Lemma Zlen_take {A} (l : list A) n : 0 ≤ n ≤ Zlen l → Zlen (take (Z.to_nat n) l) = n.
Proof. unfold Zlen. intros. rewrite length_take. lia. Qed.

Lemma Zlen_drop {A} (l : list A) n : 0 ≤ n ≤ Zlen l → Zlen (drop (Z.to_nat n) l) = Zlen l - n.
Proof. unfold Zlen. intros. rewrite length_drop. lia. Qed.

(** The last [n] of the first [m] elements, and the rest of them. *)
Lemma take_split_last {A} (l : list A) m n :
  0 ≤ n ≤ m → take (Z.to_nat m) l = take (Z.to_nat (m - n)) l ++ take (Z.to_nat n) (drop (Z.to_nat (m - n)) l).
Proof.
  intros. rewrite take_take_drop. f_equal. lia.
Qed.

Lemma take_prefix2 {A} (a b c : list A) n :
  n = Zlen a + Zlen b → take (Z.to_nat n) (a ++ b ++ c) = a ++ b.
Proof.
  intros ->. rewrite app_assoc. apply take_app_length'. rewrite length_app. unfold Zlen. lia.
Qed.

Lemma perm_rotate {A} (a b d y : list A) : a ++ b ++ d ++ y ≡ₚ y ++ b ++ d ++ a.
Proof.
  rewrite !app_assoc, (Permutation_app_comm _ y), <- !app_assoc.
  apply Permutation_app_head. rewrite Permutation_app_comm. by rewrite <- app_assoc.
Qed.

(** The result of taking objects out of a ring [xs] and a cache: [got] is a
    prefix of the array. *)
Definition took (cap : Z) (xs : list Z) (lc : local_cache) (values : list Z) (nb mn : Z)
    (r : outcome (libtrace_ringbuffer_t * list Z * local_cache * Z)) : Prop :=
  (r = Fault Blocked ∧ Zlen xs < mn) ∨
  ∃ rb' values' lc' i xs', r = Ok (rb', values', lc', i) ∧ ring_holds rb' cap xs' ∧ lc_ok lc' ∧
    mn ≤ i ≤ nb ∧ 0 ≤ i ∧ Zlen values' = Zlen values ∧
    xs ++ contents lc ≡ₚ take (Z.to_nat i) values' ++ xs' ++ contents lc'.

Lemma alloc_cache_ok rb cap xs values nb mn lc :
  ring_holds rb cap xs → lc_ok lc → 0 ≤ mn ≤ nb → nb < 2 ^ 64 → nb ≤ Zlen values →
  took cap xs lc values nb mn (libtrace_ocache_alloc_cache rb values nb mn lc).
Proof.
  intros Hrb Hlc Hmn Hnb Hv. pose proof Hlc as [Hl Hu Ht Hi]. unfold libtrace_ocache_alloc_cache.
  destruct (Z.leb_spec nb (lc_used lc)) as [Hle|Hgt].
  { rewrite arr_copy_ok by lia. change (take (Z.to_nat 0) values) with (@nil Z). cbn [obind app]. right. do 5 eexists. split; [done|].
    split; [done|]. split; [by split; cbn; lia || done|]. split; [lia|]. split; [lia|].
    assert (Zlen (take (Z.to_nat nb) (drop (Z.to_nat (lc_used lc - nb)) (lc_cache lc))) = nb) as En.
    { apply Zlen_take. rewrite Zlen_drop; lia. }
    split; [rewrite Zlen_app, En, Z.add_0_l, Zlen_drop; lia|].
    rewrite take_app_length' by (unfold Zlen in En; lia). unfold contents. cbn [lc_used lc_cache].
    rewrite (take_split_last (lc_cache lc) (lc_used lc) nb) by lia.
    rewrite (Permutation_app_comm (take (Z.to_nat nb) _)). rewrite <- app_assoc. done. }
  pose proof (Zlen_nonneg xs) as Hxs.
  destruct (Z.ltb_spec (lc_total lc) nb) as [Hbig|Hsmall].
  - destruct (sread_bulk_ok rb cap xs values nb mn Hrb Hmn Hnb Hv) as [[-> Hlt]|(Hge & rb' & -> & Hrb')]; [by left|].
    cbn [obind]. set (k := Z.min (Zlen xs) nb) in *.
    assert (Zlen (take (Z.to_nat k) xs) = k) as Ek by (apply Zlen_take; lia).
    destruct ((k <? nb) && negb (lc_used lc =? 0)) eqn:E.
    + apply andb_prop in E as [Hk%Z.ltb_lt Hu0]. set (rem := Z.min (lc_used lc) (nb - k)).
      rewrite arr_copy_ok by (try lia; rewrite Zlen_app, Ek, Zlen_drop; lia). cbn [obind].
      rewrite (proj2 (Z.leb_le mn _)) by lia. cbn [oassert obind]. right. do 5 eexists. split; [done|].
      split; [done|]. split; [by split; cbn; lia || done|]. split; [lia|]. split; [lia|].
      assert (Zlen (take (Z.to_nat rem) (drop (Z.to_nat (lc_used lc - rem)) (lc_cache lc))) = rem) as Er.
      { apply Zlen_take. rewrite Zlen_drop; lia. }
      rewrite take_app_length' by (unfold Zlen in Ek; lia).
      split. { rewrite !Zlen_app, Ek, Er, Zlen_drop by (rewrite Zlen_app, Ek, Zlen_drop; lia).
               rewrite Zlen_app, Ek, Zlen_drop; lia. }
      rewrite take_prefix2 by lia.
      unfold contents. cbn [lc_used lc_cache].
      rewrite (take_split_last (lc_cache lc) (lc_used lc) rem) by lia.
      rewrite <- (take_drop (Z.to_nat k) xs) at 1. rewrite <- !app_assoc. apply Permutation_app_head.
      rewrite (Permutation_app_comm (take (Z.to_nat (lc_used lc - rem)) _)), !app_assoc.
      apply Permutation_app_tail, Permutation_app_comm.
    + cbn [obind]. rewrite (proj2 (Z.leb_le mn _)) by lia. cbn [oassert obind]. right. do 5 eexists. split; [done|].
      split; [done|]. split; [by split|]. split; [lia|]. split; [lia|].
      split; [rewrite Zlen_app, Ek, Zlen_drop; lia|].
      rewrite take_app_length' by (unfold Zlen in Ek; lia). change (contents _) with (contents lc).
      rewrite <- (take_drop (Z.to_nat k) xs) at 1. by rewrite <- app_assoc.
  - rewrite arr_copy_ok by lia. change (take (Z.to_nat 0) values) with (@nil Z). cbn [obind app]. change (drop (Z.to_nat 0) (lc_cache lc)) with (lc_cache lc). rewrite Z.add_0_l.
    set (min := if lc_used lc <? mn then mn - lc_used lc else 0).
    assert (0 ≤ min ≤ lc_total lc ∧ mn ≤ min + lc_used lc ∧ min ≤ mn) as Hmin.
    { unfold min. destruct (Z.ltb_spec (lc_used lc) mn); lia. }
    destruct (sread_bulk_ok rb cap xs (lc_cache lc) (lc_total lc) min Hrb) as [[-> Hlt]|(Hge & rb' & -> & Hrb')];
      [lia|lia|lia|left; split; [done|lia]|].
    cbn [obind]. set (k := Z.min (Zlen xs) (lc_total lc)) in *.
    assert (Zlen (take (Z.to_nat k) xs) = k) as Ek by (apply Zlen_take; lia).
    assert (Zlen (take (Z.to_nat (lc_used lc)) (lc_cache lc)) = lc_used lc) as Eu by (apply Zlen_take; lia).
    rewrite (proj2 (Z.ltb_lt (lc_used lc) nb)) by lia. cbn [andb].
    set (cache' := take (Z.to_nat k) xs ++ drop (Z.to_nat k) (lc_cache lc)).
    assert (Zlen cache' = lc_total lc) as Ec by (unfold cache'; rewrite Zlen_app, Ek, Zlen_drop; lia).
    assert (take (Z.to_nat k) cache' = take (Z.to_nat k) xs) as Etk.
    { unfold cache'. rewrite take_app_length'; [done|]. unfold Zlen in Ek. lia. }
    set (values1 := take (Z.to_nat (lc_used lc)) (lc_cache lc) ++ drop (Z.to_nat (lc_used lc)) values).
    assert (Zlen values1 = Zlen values) as Ev1 by (unfold values1; rewrite Zlen_app, Eu, Zlen_drop; lia).
    assert (take (Z.to_nat (lc_used lc)) values1 = contents lc) as Etv.
    { unfold values1. rewrite take_app_length'; [done|]. unfold Zlen in Eu. lia. }
    destruct (Z.eqb_spec k 0) as [Hk0|Hk0]; cbn [negb].
    + cbn [obind]. rewrite (proj2 (Z.leb_le mn _)) by lia. cbn [oassert obind]. right. do 5 eexists. split; [done|].
      split; [done|]. split; [by split; cbn; lia || done|]. split; [lia|]. split; [lia|]. split; [done|].
      rewrite Etv. unfold contents at 2. cbn [lc_used lc_cache]. rewrite Hk0. change (take (Z.to_nat 0) cache') with (@nil Z).
      change (drop (Z.to_nat 0) xs) with xs.
      rewrite app_nil_r. apply Permutation_app_comm.
    + set (rem := Z.min k (nb - lc_used lc)).
      rewrite arr_copy_ok by lia. cbn [obind].
      rewrite (proj2 (Z.leb_le mn _)) by lia. cbn [oassert obind]. right. do 5 eexists. split; [done|].
      split; [done|]. split; [by split; cbn; lia || done|]. split; [lia|]. split; [lia|].
      assert (Zlen (take (Z.to_nat rem) (drop (Z.to_nat (k - rem)) cache')) = rem) as Er.
      { apply Zlen_take. rewrite Zlen_drop; lia. }
      assert (Zlen (take (Z.to_nat (lc_used lc)) values1) = lc_used lc) as Eu1 by (apply Zlen_take; lia).
      split; [rewrite !Zlen_app, Eu1, Er, Zlen_drop; lia|].
      rewrite take_prefix2 by lia.
      rewrite Etv. unfold contents at 3. cbn [lc_used lc_cache].
      rewrite <- (take_drop (Z.to_nat k) xs) at 1. rewrite <- Etk, (take_split_last cache' k rem) by lia.
      rewrite <- !app_assoc. apply perm_rotate.
Qed.

Definition gave (cap : Z) (xs : list Z) (lc : local_cache) (values : list Z) (nb mn : Z)
    (r : outcome (libtrace_ringbuffer_t * local_cache * Z)) : Prop :=
  (r = Fault Blocked ∧ cap - Zlen xs < mn) ∨
  ∃ rb' lc' i xs', r = Ok (rb', lc', i) ∧ ring_holds rb' cap xs' ∧ lc_ok lc' ∧
    mn ≤ i ≤ nb ∧ 0 ≤ i ∧ xs ++ contents lc ++ take (Z.to_nat i) values ≡ₚ xs' ++ contents lc'.

(** Appending objects to a cache that has room for them. *)
Lemma cache_append cache total used inv values i n :
  lc_ok {| lc_total := total; lc_used := used; lc_cache := cache; lc_invalid := inv |} →
  0 ≤ n ≤ total - used → 0 ≤ i → i + n ≤ Zlen values →
  ∃ cache', arr_copy cache used values i n = Ok cache' ∧
    lc_ok {| lc_total := total; lc_used := used + n; lc_cache := cache'; lc_invalid := inv |} ∧
    take (Z.to_nat (used + n)) cache'
    = take (Z.to_nat used) cache ++ take (Z.to_nat n) (drop (Z.to_nat i) values).
Proof.
  intros [Hl Hu Ht Hv] Hn Hi Hin. cbn in *. rewrite arr_copy_ok by lia. eexists. split; [done|].
  assert (Zlen (take (Z.to_nat used) cache) = used) as Eu by (apply Zlen_take; lia).
  assert (Zlen (take (Z.to_nat n) (drop (Z.to_nat i) values)) = n) as En.
  { apply Zlen_take. rewrite Zlen_drop; lia. }
  split; [split; cbn; try lia; try done|by rewrite take_prefix2 by lia].
  rewrite !Zlen_app, Eu, En, Zlen_drop; lia.
Qed.

Lemma take_take_drop_Z {A} (l : list A) i n :
  0 ≤ i → 0 ≤ n → take (Z.to_nat i) l ++ take (Z.to_nat n) (drop (Z.to_nat i) l) = take (Z.to_nat (i + n)) l.
Proof. intros. rewrite take_take_drop. f_equal. lia. Qed.

Lemma free_cache_ok rb cap xs values nb mn lc :
  ring_holds rb cap xs → lc_ok lc → 0 ≤ mn ≤ nb → nb < 2 ^ 64 → nb ≤ Zlen values →
  gave cap xs lc values nb mn (libtrace_ocache_free_cache rb values nb mn lc).
Proof.
  intros Hrb Hlc Hmn Hnb Hv. pose proof Hlc as [Hl Hu Ht Hi]. unfold libtrace_ocache_free_cache.
  assert (lc = {| lc_total := lc_total lc; lc_used := lc_used lc; lc_cache := lc_cache lc;
                  lc_invalid := lc_invalid lc |}) as Elc by by destruct lc.
  rewrite Elc in Hlc. pose proof Hrb as (Rb & Ec & _). pose proof (rb_bounds _ _ Rb) as Hcap. rewrite Ec in Hcap.
  destruct (Z.leb_spec nb (lc_total lc - lc_used lc)) as [Hle|Hgt].
  { destruct (cache_append _ _ _ _ values 0 nb Hlc) as (c' & -> & Hlc' & Et); [lia..|]. cbn [obind].
    right. do 4 eexists. split; [done|]. split; [done|]. split; [done|]. split; [lia|]. split; [lia|].
    unfold contents at 2. cbn [lc_used lc_cache]. rewrite Et. done. }
  destruct (Z.ltb_spec (lc_total lc) nb) as [Hbig|Hsmall].
  - destruct (swrite_bulk_ok rb cap xs values nb mn Hrb Hmn Hnb Hv) as [[-> Hlt]|(Hge & rb' & -> & Hrb')]; [by left|].
    cbn [obind]. set (k := Z.min (cap - Zlen xs) nb) in *. right.
    destruct ((k <? nb) && negb (lc_used lc =? lc_total lc)) eqn:E.
    + apply andb_prop in E as [Hk%Z.ltb_lt _]. set (rem := Z.min (lc_total lc - lc_used lc) (nb - k)).
      destruct (cache_append _ _ _ _ values k rem Hlc) as (c' & -> & Hlc' & Et); [lia..|]. cbn [obind].
      do 4 eexists. split; [done|]. split; [done|]. split; [done|]. split; [lia|]. split; [lia|].
      unfold contents at 2. cbn [lc_used lc_cache]. rewrite Et, <- (take_take_drop_Z values k rem) by lia.
      rewrite <- !app_assoc. apply Permutation_app_head. rewrite !app_assoc. apply Permutation_app_tail.
      apply Permutation_app_comm.
    + do 4 eexists. split; [done|]. split; [done|]. split; [done|]. split; [lia|]. split; [lia|].
      change (contents {| lc_total := _ |}) with (contents lc). rewrite <- app_assoc.
      apply Permutation_app_head, Permutation_app_comm.
  - set (i := lc_total lc - lc_used lc) in *.
    destruct (cache_append _ _ _ _ values 0 i Hlc) as (c1 & -> & Hlc1 & Et1); [lia..|]. cbn [obind].
    replace (lc_used lc + i) with (lc_total lc) in Hlc1, Et1 by lia. change (drop (Z.to_nat 0) values) with values in Et1.
    pose proof (lo_len _ Hlc1) as Hl1. cbn in Hl1. rewrite take_ge in Et1 by (unfold Zlen in Hl1; lia).
    set (min := if i <? mn then mn - i else 0).
    assert (0 ≤ min ≤ lc_total lc ∧ mn ≤ min + i ∧ min ≤ mn) as Hmin.
    { unfold min. destruct (Z.ltb_spec i mn); lia. }
    destruct (swrite_bulk_ok rb cap xs c1 (lc_total lc) min Hrb) as [[-> Hlt]|(Hge & rb' & -> & Hrb')];
      [lia|lia|lia|left; split; [done|lia]|].
    cbn [obind]. set (k := Z.min (cap - Zlen xs) (lc_total lc)) in *. set (used := lc_total lc - k).
    assert (∃ c2, (if negb (used =? 0) then arr_copy c1 0 c1 (lc_total lc - used) used else Ok c1) = Ok c2 ∧
      Zlen c2 = lc_total lc ∧ take (Z.to_nat used) c2 = drop (Z.to_nat k) c1) as (c2 & -> & Hl2 & Et2).
    { destruct (Z.eqb_spec used 0) as [E0|E0]; cbn [negb].
      - exists c1. split; [done|]. split; [done|]. rewrite E0. change (take (Z.to_nat 0) c1) with (@nil Z).
        symmetry. apply drop_ge. unfold Zlen in Hl1. lia.
      - rewrite arr_copy_ok by lia. eexists. split; [done|]. change (take (Z.to_nat 0) c1) with (@nil Z).
        rewrite app_nil_l, Z.add_0_l. replace (lc_total lc - used) with k by lia.
        assert (Zlen (drop (Z.to_nat k) c1) = used) as Ed by (rewrite Zlen_drop; lia).
        rewrite (take_ge (drop _ c1)) by (unfold Zlen in Ed; lia). split.
        + rewrite Zlen_app, Ed, Zlen_drop; lia.
        + apply take_app_length'. unfold Zlen in Ed. lia. }
    cbn [obind]. right.
    assert (lc_ok {| lc_total := lc_total lc; lc_used := used; lc_cache := c2; lc_invalid := lc_invalid lc |}) as Hlc2
      by (split; cbn; lia || done).
    assert (xs ++ contents lc ++ take (Z.to_nat i) values
            = (xs ++ take (Z.to_nat k) c1) ++ drop (Z.to_nat k) c1) as Eall.
    { rewrite <- app_assoc, take_drop, Et1. done. }
    destruct ((i <? nb) && negb (used =? lc_total lc)) eqn:E.
    + apply andb_prop in E as [Hk%Z.ltb_lt _]. set (rem := Z.min (lc_total lc - used) (nb - i)).
      destruct (cache_append _ _ _ _ values i rem Hlc2) as (c3 & -> & Hlc3 & Et3); [lia..|]. cbn [obind].
      do 4 eexists. split; [done|]. split; [done|]. split; [done|]. split; [lia|]. split; [lia|].
      unfold contents at 2. cbn [lc_used lc_cache]. rewrite Et3, Et2, <- (take_take_drop_Z values i rem) by lia.
      rewrite !(app_assoc xs), !app_assoc. rewrite <- (app_assoc xs), Eall. by rewrite <- !app_assoc.
    + do 4 eexists. split; [done|]. split; [done|]. split; [done|]. split.
      { apply andb_false_iff in E as [E%Z.ltb_ge|E%negb_false_iff%Z.eqb_eq]; lia. }
      split; [lia|]. unfold contents at 2. cbn [lc_used lc_cache]. by rewrite Eall, Et2.
Qed.

(** ** The pool *)
Definition cache_objects (o : option local_cache) : list Z :=
  match o with Some lc => if lc_invalid lc then [] else contents lc | None => [] end.

Lemma cache_objects_ok lc : lc_ok lc → cache_objects (Some lc) = contents lc.
Proof. intros Hlc. cbn. by rewrite (lo_valid _ Hlc). Qed.

Definition cached (oc : libtrace_ocache_t) : list Z := concat (map cache_objects (oc_local oc)).

Record oc_ok (oc : libtrace_ocache_t) (cap : Z) (xs : list Z) : Prop := {
  ok_ring : ring_holds (oc_rb oc) cap xs;
  ok_size : 0 ≤ oc_thread_cache_size oc < 2 ^ 63;
  ok_local : ∀ t lc, oc_local oc !! t = Some (Some lc) → lc_ok lc;
  ok_threads : ∀ t, t ∈ oc_thread_list oc ↔ ∃ lc, oc_local oc !! t = Some (Some lc);
  ok_nodup : NoDup (oc_thread_list oc);
}.

Lemma cached_insert (l : list (option local_cache)) : ∀ t, (t < length l)%nat →
  ∃ rest, ∀ o, concat (map cache_objects (<[t := o]> l)) ≡ₚ cache_objects o ++ rest.
Proof.
  induction l as [|o l IH]; intros [|t] Ht; simpl in Ht; try lia.
  - exists (concat (map cache_objects l)). done.
  - destruct (IH t) as [rest Hrest]; [lia|]. exists (cache_objects o ++ rest). intros o'. simpl.
    rewrite Hrest, !app_assoc. apply Permutation_app_tail, Permutation_app_comm.
Qed.

Lemma cached_at oc t o : oc_local oc !! t = Some o →
  ∃ rest, cached oc ≡ₚ cache_objects o ++ rest ∧
    ∀ o', concat (map cache_objects (<[t := o']> (oc_local oc))) ≡ₚ cache_objects o' ++ rest.
Proof.
  intros Ht. destruct (cached_insert (oc_local oc) t) as [rest Hrest]; [by eapply lookup_lt_Some|].
  exists rest. split; [|done]. unfold cached. rewrite <- (Hrest o). by rewrite list_insert_id.
Qed.

(** Only the ring, the tables and the list of threads may differ. *)
Definition same_counts (oc oc' : libtrace_ocache_t) : Prop :=
  oc_max_allocations oc' = oc_max_allocations oc ∧
  oc_current_allocations oc' = oc_current_allocations oc ∧
  oc_allocated oc' = oc_allocated oc ∧ oc_freed oc' = oc_freed oc ∧
  oc_thread_cache_size oc' = oc_thread_cache_size oc ∧ length (oc_local oc') = length (oc_local oc).

(** The cache [find_cache] has returned. *)
Definition current_cache (oc : libtrace_ocache_t) (t : nat) (lc : option local_cache) : Prop :=
  match lc with None => True | Some c => oc_local oc !! t = Some (Some c) end.

Lemma find_cache_ok oc cap xs t :
  oc_ok oc cap xs → (t < length (oc_local oc))%nat →
  ∃ oc' lc, find_cache oc t = Ok (oc', lc) ∧ oc_ok oc' cap xs ∧ cached oc' ≡ₚ cached oc ∧
    current_cache oc' t lc ∧ same_counts oc oc' ∧
    (lc = None → oc' = oc ∧ oc_thread_cache_size oc = 0).
Proof.
  intros [Hr Hs Hl Ht Hn] Hlt. unfold find_cache.
  destruct (lookup_lt_is_Some_2 (oc_local oc) t Hlt) as [o Ho].
  rewrite (aget_ok _ _ o) by (try lia; by rewrite Nat2Z.id). cbn [obind].
  destruct (Z.eqb_spec (oc_thread_cache_size oc) 0) as [Hz|Hz].
  { exists oc, None. split_and!; done. }
  destruct o as [lc|].
  - pose proof (Hl t lc Ho) as Hlc. rewrite (lo_valid _ Hlc). cbn [negb oassert obind].
    exists oc, (Some lc). split_and!; done.
  - rewrite aset_ok, Nat2Z.id by (unfold Zlen; lia). cbn [obind].
    set (lc := {| lc_total := _ |}). exists (oc_set_local oc (<[t:=Some lc]> (oc_local oc)) (oc_thread_list oc ++ [t])), (Some lc).
    assert (lc_ok lc) as Hlc by (split; cbn; [rewrite Zlen_replicate|..]; lia || done).
    assert (t ∉ oc_thread_list oc) as Hnin by (rewrite Ht; intros [lc' Hlc']; congruence).
    split_and!; try done.
    + split; cbn; try done.
      * intros t' lc' [(_ & [= <-] & _)|[_ H']]%list_lookup_insert_Some; [done|by eapply Hl].
      * intros t'. rewrite elem_of_app, list_elem_of_singleton, Ht. split.
        -- intros [[lc' Hlc']| ->]; [exists lc'|exists lc]; apply list_lookup_insert_Some; [right|left; done].
           split; [|done]. intros <-. congruence.
        -- intros [lc' [(<- & _)|[_ H']]%list_lookup_insert_Some]; [by right|left; by exists lc'].
      * apply NoDup_app. split_and!; [done|set_solver|apply NoDup_singleton].
    + destruct (cached_at oc t None Ho) as (rest & E1 & E2). unfold cached at 1. cbn [oc_local oc_set_local].
      rewrite E2, E1. done.
    + by apply list_lookup_insert_eq.
    + unfold same_counts. cbn [oc_local oc_set_local]. by rewrite length_insert.
Qed.

Lemma replace_cache oc cap xs t lc lc' rb' xs' :
  oc_ok oc cap xs → oc_local oc !! t = Some (Some lc) → lc_ok lc' → ring_holds rb' cap xs' →
  ∃ oc', set_cache (oc_set_rb oc rb') t (Some lc') = Ok oc' ∧ oc_ok oc' cap xs' ∧
    current_cache oc' t (Some lc') ∧ same_counts oc oc' ∧
    ∃ rest, cached oc ≡ₚ contents lc ++ rest ∧ cached oc' ≡ₚ contents lc' ++ rest.
Proof.
  intros [Hr Hs Hl Ht Hn] Hlc Hok' Hrb'. unfold set_cache. cbn [oc_local oc_set_rb].
  pose proof (lookup_lt_Some _ _ _ Hlc) as Hlt.
  rewrite aset_ok, Nat2Z.id by (unfold Zlen; lia). cbn [obind]. eexists. split; [done|].
  split_and!.
  - split; cbn; try done.
    + intros t' c [(_ & [= <-] & _)|[_ H']]%list_lookup_insert_Some; [done|by eapply Hl].
    + intros t'. rewrite Ht. split.
      * intros [c Hc]. destruct (decide (t' = t)) as [->|].
        -- exists lc'. by apply list_lookup_insert_eq.
        -- exists c. by rewrite list_lookup_insert_ne.
      * intros [c [(-> & _)|[_ H']]%list_lookup_insert_Some]; [by exists lc|by exists c].
  - by apply list_lookup_insert_eq.
  - unfold same_counts. cbn [oc_local oc_set_local oc_set_rb]. by rewrite length_insert.
  - destruct (cached_at oc t _ Hlc) as (rest & E1 & E2). exists rest.
    rewrite cache_objects_ok in E1 by by eapply Hl. split; [done|].
    unfold cached. cbn [oc_local oc_set_local oc_set_rb]. by rewrite E2, cache_objects_ok.
Qed.

Lemma take_objects_ok oc cap xs t lc values nb mn :
  oc_ok oc cap xs → current_cache oc t lc → 0 ≤ mn ≤ nb → nb < 2 ^ 64 → nb ≤ Zlen values →
  (take_objects oc t lc values nb mn = Fault Blocked ∧ Zlen xs < mn) ∨
  ∃ oc' lc' values' i xs', take_objects oc t lc values nb mn = Ok (oc', lc', values', i) ∧
    oc_ok oc' cap xs' ∧ current_cache oc' t lc' ∧ same_counts oc oc' ∧ mn ≤ i ≤ nb ∧ 0 ≤ i ∧
    Zlen values' = Zlen values ∧ xs ++ cached oc ≡ₚ take (Z.to_nat i) values' ++ xs' ++ cached oc'.
Proof.
  intros Hok Hcur Hmn Hnb Hv. unfold take_objects. pose proof (Zlen_nonneg xs). destruct lc as [lc|].
  - destruct (alloc_cache_ok (oc_rb oc) cap xs values nb mn lc) as
      [[-> ?]|(rb' & values' & lc' & i & xs' & -> & Hrb' & Hlc' & ? & ? & ? & Hp)]; [apply Hok|by apply (ok_local _ _ _ Hok t)|done..|by left|].
    right. cbn [obind].
    destruct (replace_cache oc cap xs t lc lc' rb' xs') as (oc' & -> & Hok' & Hcur' & Hsc & rest & E1 & E2); try done.
    cbn [obind]. do 5 eexists. split; [done|]. split_and!; try done; try lia.
    rewrite E1, E2, app_assoc, Hp, <- !app_assoc. done.
  - destruct (sread_bulk_ok (oc_rb oc) cap xs values nb mn) as [[-> ?]|(? & rb' & -> & Hrb')]; [apply Hok|done..|by left|].
    right. cbn [obind]. do 5 eexists. split; [done|].
    assert (Zlen (take (Z.to_nat (Zlen xs `min` nb)) xs) = Zlen xs `min` nb) as Ek by (apply Zlen_take; lia).
    split; [destruct Hok; by split|]. split; [done|]. split; [done|]. split; [lia|]. split; [lia|]. split.
    + rewrite Zlen_app, Ek, Zlen_drop; lia.
    + rewrite take_app_length' by (unfold Zlen in *; lia). rewrite app_assoc, take_drop. done.
Qed.

Definition numbers (a n : nat) : list Z := map Z.of_nat (seq (S a) n).

Lemma alloc_objects_ok n : ∀ a values i,
  0 ≤ i → i + Z.of_nat n ≤ Zlen values →
  ∃ values', alloc_objects n a values i = Ok values' ∧ Zlen values' = Zlen values ∧
    take (Z.to_nat (i + Z.of_nat n)) values' = take (Z.to_nat i) values ++ numbers a n.
Proof.
  induction n as [|n IH]; intros a values i Hi Hn; cbn [alloc_objects].
  { exists values. rewrite Z.add_0_r, app_nil_r. done. }
  rewrite aset_ok by lia. cbn [obind].
  destruct (IH (S a) (<[Z.to_nat i := Z.of_nat (S a)]> values) (i + 1)) as (values' & Hrun & Hl & Ht);
    [lia|rewrite Zlen_insert; lia|].
  exists values'. split; [exact Hrun|]. rewrite Zlen_insert in Hl. split; [done|].
  replace (i + Z.of_nat (S n)) with (i + 1 + Z.of_nat n) by lia. rewrite Ht.
  replace (Z.to_nat (i + 1)) with (S (Z.to_nat i)) by lia. unfold Zlen in *.
  rewrite (take_S_r _ _ (Z.of_nat (S a))) by (apply list_lookup_insert_eq; lia).
  rewrite take_insert_ge, <- app_assoc by lia. done.
Qed.

(** How many objects a limited pool may still allocate. *)
Definition counts_ok (oc : libtrace_ocache_t) : Prop :=
  oc_max_allocations oc ≠ 0 → 0 ≤ oc_current_allocations oc ≤ oc_max_allocations oc.

Lemma ocache_alloc_ok oc cap xs t values nb mn :
  oc_ok oc cap xs → (t < length (oc_local oc))%nat → 0 ≤ mn ≤ nb → nb < 2 ^ 64 → nb ≤ Zlen values →
  counts_ok oc → (oc_max_allocations oc ≠ 0 → nb < oc_max_allocations oc) →
  (libtrace_ocache_alloc oc t values nb mn = Fault Blocked ∧ oc_max_allocations oc ≠ 0) ∨
  ∃ oc' values' i xs' n, libtrace_ocache_alloc oc t values nb mn = Ok (oc', values', i) ∧
    oc_ok oc' cap xs' ∧ mn ≤ i ≤ nb ∧ (oc_max_allocations oc = 0 → i = nb) ∧
    oc_allocated oc' = (oc_allocated oc + n)%nat ∧ oc_freed oc' = oc_freed oc ∧
    oc_max_allocations oc' = oc_max_allocations oc ∧ length (oc_local oc') = length (oc_local oc) ∧
    counts_ok oc' ∧ (oc_max_allocations oc ≠ 0 → oc_current_allocations oc' = oc_current_allocations oc + Z.of_nat n) ∧
    numbers (oc_allocated oc) n ++ xs ++ cached oc ≡ₚ take (Z.to_nat i) values' ++ xs' ++ cached oc'.
Proof.
  intros Hok Ht Hmn Hnb Hv Hcnt Hmax. unfold libtrace_ocache_alloc.
  destruct (find_cache_ok oc cap xs t Hok Ht) as (oc1 & lc & -> & Hok1 & Hc1 & Hcur1 & (M1 & K1 & A1 & F1 & S1 & L1) & _).
  cbn [obind]. rewrite M1, K1. unfold counts_ok in *.
  set (limited := negb (oc_max_allocations oc =? 0)).
  set (try_alloc := negb (limited && (oc_max_allocations oc <=? oc_current_allocations oc))).
  assert ((if limited then nb <? oc_max_allocations oc else true) = true) as ->.
  { unfold limited. destruct (Z.eqb_spec (oc_max_allocations oc) 0); [done|]. cbn. apply Z.ltb_lt. by apply Hmax. }
  cbn [oassert obind].
  destruct (take_objects_ok oc1 cap xs t lc values nb (if try_alloc then 0 else mn)) as
    [[-> ?]|(oc2 & lc2 & v2 & i & x2 & -> & Hok2 & Hcur2 & (M2 & K2 & A2 & F2 & S2 & L2) & Hi & Hi0 & Hl2 & Hp2)];
    [done|done|destruct try_alloc; lia|done|done|left; split; [done|]|].
  { unfold try_alloc, limited in *. pose proof (Zlen_nonneg xs).
    destruct (Z.eqb_spec (oc_max_allocations oc) 0); [cbn in *; lia|done]. }
  cbn [obind]. destruct try_alloc eqn:Etry.
  2: { cbn [obind]. rewrite (proj2 (Z.leb_le mn i)) by lia. cbn [oassert obind]. right.
       exists oc2, v2, i, x2, 0%nat. split; [done|]. split; [done|]. split; [lia|].
       split; [intros Hz; unfold try_alloc, limited in Etry; by rewrite Hz in Etry|].
       split; [lia|]. split; [congruence|]. split; [congruence|]. split; [congruence|].
       split; [rewrite M2, K2, M1, K1; done|]. split; [intros _; lia|]. cbn [numbers seq map app].
       rewrite <- Hp2. by rewrite Hc1. }
  rewrite M2, K2, M1, K1.
  set (new := if limited then Z.min (oc_max_allocations oc - oc_current_allocations oc) (nb - i) else nb - i).
  assert (0 ≤ new ≤ nb - i ∧ (limited = true → oc_current_allocations oc + new ≤ oc_max_allocations oc)) as [Hnew Hlim].
  { unfold new. unfold limited in *. destruct (Z.eqb_spec (oc_max_allocations oc) 0) as [|Hz]; cbn [negb] in *; [split; [lia|done]|].
    specialize (Hcnt Hz). lia. }
  assert ((if limited then
            (oc_current_allocations oc + Z.min (oc_max_allocations oc - oc_current_allocations oc) (nb - i),
             Z.min (oc_max_allocations oc - oc_current_allocations oc) (nb - i) + i)
           else (oc_current_allocations oc, nb))
          = (if limited then oc_current_allocations oc + new else oc_current_allocations oc, i + new)) as ->.
  { unfold new. destruct limited; f_equal; lia. }
  cbn iota beta. replace (i + new - i) with new by lia.
  destruct (alloc_objects_ok (Z.to_nat new) (oc_allocated oc2) v2 i) as (v3 & -> & Hl3 & Ht3); [lia|lia|].
  cbn [obind]. rewrite Z2Nat.id in Ht3 by lia. set (n := Z.to_nat new) in *.
  set (cur := if limited then oc_current_allocations oc + new else oc_current_allocations oc).
  assert (oc_ok (oc_set_alloc oc2 cur (oc_allocated oc2 + n)) cap x2) as Hok3 by (destruct Hok2; by split).
  assert (oc_max_allocations oc ≠ 0 → 0 ≤ cur ≤ oc_max_allocations oc ∧ cur = oc_current_allocations oc + Z.of_nat n) as Hcur'.
  { intros Hz. unfold cur, limited in *. destruct (Z.eqb_spec (oc_max_allocations oc) 0); [done|]. cbn [negb] in *.
    specialize (Hcnt Hz). specialize (Hlim eq_refl). lia. }
  assert (numbers (oc_allocated oc) n ++ xs ++ cached oc ≡ₚ take (Z.to_nat (i + new)) v3 ++ x2 ++ cached oc2) as Hp3.
  { rewrite Ht3, A2, A1, <- Hc1, Hp2. rewrite !app_assoc. apply Permutation_app_tail, Permutation_app_tail, Permutation_app_comm. }
  assert (oc_max_allocations oc = 0 → i + new = nb) as Hall.
  { intros Hz. unfold new, limited. rewrite Hz. cbn. lia. }
  destruct (Z.ltb_spec (i + new) mn) as [Hlt|Hge].
  - destruct (take_objects_ok (oc_set_alloc oc2 cur (oc_allocated oc2 + n)) cap x2 t lc2
      (drop (Z.to_nat (i + new)) v3) (nb - (i + new)) (mn - (i + new))) as
      [[-> ?]|(oc4 & lc4 & v4 & j & x4 & -> & Hok4 & Hcur4 & (M4 & K4 & A4 & F4 & S4 & L4) & Hj & Hj0 & Hl4 & Hp4)];
      [done|by destruct lc2|lia|lia|rewrite Zlen_drop; lia|left; split; [done|lia]|].
    cbn [obind]. rewrite (proj2 (Z.leb_le mn _)) by lia. cbn [oassert obind]. right. cbn in M4, K4, A4, F4, S4, L4.
    do 5 eexists. split; [done|]. split; [done|]. split; [lia|]. split; [intros Hz; specialize (Hall Hz); lia|].
    split; [rewrite A4, A2, A1; done|]. split; [congruence|]. split; [congruence|]. split; [congruence|].
    split; [rewrite M4, K4, M2, M1; intros Hz; by apply Hcur'|]. split; [rewrite K4; intros Hz; by apply Hcur'|].
    rewrite Hp3. change (cached (oc_set_alloc oc2 cur (oc_allocated oc2 + n))) with (cached oc2) in Hp4.
    rewrite Hp4.
    assert (take (Z.to_nat (i + new + j)) (take (Z.to_nat (i + new)) v3 ++ v4)
      = take (Z.to_nat (i + new)) v3 ++ take (Z.to_nat j) v4) as ->.
    { assert (length (take (Z.to_nat (i + new)) v3) = Z.to_nat (i + new)) as El.
      { rewrite length_take. unfold Zlen in *. lia. }
      rewrite take_app, El, take_ge by (rewrite El; lia). f_equal. f_equal. lia. }
    by rewrite <- app_assoc.
  - cbn [obind]. rewrite (proj2 (Z.leb_le mn _)) by lia. cbn [oassert obind]. right.
    do 5 eexists. split; [done|]. split; [exact Hok3|]. split; [lia|]. split; [exact Hall|]. cbn.
    split; [rewrite A2, A1; done|]. split; [congruence|]. split; [congruence|]. split; [congruence|].
    split; [rewrite M2, M1; intros Hz; by apply Hcur'|]. split; [intros Hz; by apply Hcur'|].
    exact Hp3.
Qed.

Lemma ocache_free_ok oc cap xs t values nb mn :
  oc_ok oc cap xs → (t < length (oc_local oc))%nat → 0 ≤ mn ≤ nb → nb < 2 ^ 64 → nb ≤ Zlen values →
  (oc_max_allocations oc ≠ 0 → nb < oc_max_allocations oc) →
  (libtrace_ocache_free oc t values nb mn = Fault Blocked ∧ oc_max_allocations oc ≠ 0 ∧ cap - Zlen xs < mn) ∨
  ∃ oc' i xs' fr, libtrace_ocache_free oc t values nb mn = Ok (oc', i) ∧
    oc_ok oc' cap xs' ∧ mn ≤ i ≤ nb ∧
    oc_allocated oc' = oc_allocated oc ∧ oc_freed oc' = oc_freed oc ++ fr ∧
    oc_max_allocations oc' = oc_max_allocations oc ∧ length (oc_local oc') = length (oc_local oc) ∧
    oc_current_allocations oc' = oc_current_allocations oc ∧ (oc_max_allocations oc ≠ 0 → fr = []) ∧
    xs ++ cached oc ++ take (Z.to_nat i) values ≡ₚ xs' ++ cached oc' ++ fr.
Proof.
  intros Hok Ht Hmn Hnb Hv Hmax. unfold libtrace_ocache_free.
  destruct (find_cache_ok oc cap xs t Hok Ht) as (oc1 & lc & -> & Hok1 & Hc1 & Hcur1 & (M1 & K1 & A1 & F1 & S1 & L1) & _).
  cbn [obind]. rewrite M1. set (limited := negb (oc_max_allocations oc =? 0)).
  assert ((if limited then nb <? oc_max_allocations oc else true) = true) as ->.
  { unfold limited. destruct (Z.eqb_spec (oc_max_allocations oc) 0); [done|]. cbn. apply Z.ltb_lt. by apply Hmax. }
  cbn [oassert obind]. set (min := if limited then mn else 0).
  assert (0 ≤ min ≤ nb) as Hmin by (unfold min; destruct limited; lia).
  pose proof (ok_ring _ _ _ Hok1) as Hrb. pose proof Hrb as (Rb & Ec & _).
  pose proof (rb_bounds _ _ Rb) as Hcap. rewrite Ec in Hcap.
  assert ((match lc with
    | Some lc =>
        let! ' (rb, lc, i) := libtrace_ocache_free_cache (oc_rb oc1) values nb min lc in
        let! oc := set_cache (oc_set_rb oc1 rb) t (Some lc) in Ok (oc, i)
    | None =>
        let! ' (rb, i) := libtrace_ringbuffer_swrite_bulk (oc_rb oc1) values nb min in
        Ok (oc_set_rb oc1 rb, i)
    end = Fault Blocked ∧ cap - Zlen xs < min) ∨
    ∃ oc2 i x2, (match lc with
    | Some lc =>
        let! ' (rb, lc, i) := libtrace_ocache_free_cache (oc_rb oc1) values nb min lc in
        let! oc := set_cache (oc_set_rb oc1 rb) t (Some lc) in Ok (oc, i)
    | None =>
        let! ' (rb, i) := libtrace_ringbuffer_swrite_bulk (oc_rb oc1) values nb min in
        Ok (oc_set_rb oc1 rb, i)
    end) = Ok (oc2, i) ∧ oc_ok oc2 cap x2 ∧ same_counts oc1 oc2 ∧ min ≤ i ≤ nb ∧
      xs ++ cached oc1 ++ take (Z.to_nat i) values ≡ₚ x2 ++ cached oc2)
    as [[-> Hlt]|(oc2 & i & x2 & -> & Hok2 & (M2 & K2 & A2 & F2 & S2 & L2) & Hi & Hp2)].
  { destruct lc as [lc|].
    - destruct (free_cache_ok (oc_rb oc1) cap xs values nb min lc) as
        [[-> ?]|(rb' & lc' & i & xs' & -> & Hrb' & Hlc' & ? & ? & Hp)]; [done|by apply (ok_local _ _ _ Hok1 t)|done..|by left|].
      right. cbn [obind].
      destruct (replace_cache oc1 cap xs t lc lc' rb' xs') as (oc' & -> & Hok' & Hcur' & Hsc & rest & E1 & E2); try done.
      cbn [obind]. exists oc', i, xs'. split_and!; try done; try lia.
      rewrite E1, E2. rewrite <- app_assoc, (Permutation_app_comm rest), !app_assoc. rewrite <- (app_assoc xs), Hp. done.
    - destruct (swrite_bulk_ok (oc_rb oc1) cap xs values nb min) as [[-> ?]|(? & rb' & -> & Hrb')]; [done..|by left|].
      right. cbn [obind]. do 3 eexists. split; [done|]. split; [destruct Hok1; by split|]. split; [done|]. split; [lia|].
      change (cached (oc_set_rb oc1 rb')) with (cached oc1). rewrite <- app_assoc.
      apply Permutation_app_head, Permutation_app_comm. }
  { left. cbn [obind]. unfold min, limited in Hlt. destruct (Z.eqb_spec (oc_max_allocations oc) 0); cbn [negb] in Hlt; [lia|done]. }
  right. cbn [obind].
  assert (xs ++ cached oc ++ take (Z.to_nat i) values ≡ₚ x2 ++ cached oc2) as Hp by by rewrite <- Hc1.
  destruct (negb limited && (i <? mn)) eqn:E.
  - apply andb_prop in E as [El%negb_true_iff Hlt%Z.ltb_lt].
    rewrite (proj2 (Z.leb_le 0 i)), (proj2 (Z.leb_le mn _)) by lia. cbn [andb].
    do 4 eexists. split; [done|]. split; [destruct Hok2; by split|]. cbn. split; [lia|]. split; [congruence|].
    split; [by rewrite F2, F1|]. split; [congruence|]. split; [congruence|]. split; [congruence|]. split.
    { intros Hz. unfold limited in El. by destruct (Z.eqb_spec (oc_max_allocations oc) 0). }
    change (cached (oc_set_freed oc2 _)) with (cached oc2).
    replace (take (Z.to_nat mn) values) with
      (take (Z.to_nat i) values ++ take (Z.to_nat (mn - i)) (drop (Z.to_nat i) values)).
    + rewrite !app_assoc. apply Permutation_app_tail. by rewrite <- !app_assoc.
    + rewrite take_take_drop_Z by lia. f_equal. lia.
  - exists oc2, i, x2, []. split; [done|]. split; [done|]. split.
    { apply andb_false_iff in E as [E%negb_false_iff|E%Z.ltb_ge]; [|lia]. unfold min in Hi. rewrite E in Hi. lia. }
    split; [congruence|]. split; [rewrite app_nil_r; congruence|]. split; [congruence|]. split; [congruence|].
    split; [congruence|]. split; [done|]. by rewrite app_nil_r.
Qed.

(** ** Threads that leave *)
Lemma list_index_split ts t : t ∈ ts →
  ∃ l1 l2, ts = l1 ++ t :: l2 ∧ list_index ts t = Some (length l1).
Proof.
  induction ts as [|x ts IH]; [set_solver|]. intros Hin. cbn [list_index].
  destruct (Nat.eqb_spec x t) as [->|Hne]; [by exists [], ts|].
  destruct IH as (l1 & l2 & E1 & ->); [set_solver|]. exists (x :: l1), l2. by rewrite E1.
Qed.

Lemma remove_thread_ok ts t : t ∈ ts → ∃ ts', remove_thread ts t = Some ts' ∧ t :: ts' ≡ₚ ts.
Proof.
  intros Hin. unfold remove_thread. destruct (list_index_split ts t Hin) as (l1 & l2 & -> & ->).
  eexists. split; [done|].
  rewrite insert_app_r_alt, Nat.sub_diag by lia. cbn [insert list_insert].
  destruct l2 as [|z l2 _] using rev_ind.
  - rewrite last_snoc, length_app, Nat.add_1_r. cbn [pred length default].
    rewrite take_app_length. apply Permutation_cons_append.
  - assert (l1 ++ t :: l2 ++ [z] = (l1 ++ t :: l2) ++ [z]) as E by by rewrite <- app_assoc.
    rewrite E at 1 2. rewrite last_snoc. cbn [default id].
    assert (l1 ++ z :: l2 ++ [z] = (l1 ++ z :: l2) ++ [z]) as -> by by rewrite <- app_assoc.
    rewrite take_app_length' by (rewrite !length_app; cbn; lia).
    rewrite E, <- !Permutation_middle, app_nil_r. apply Permutation_swap.
Qed.

(** While threads leave, only the registered threads have usable caches. *)
Record oc_leaving (oc : libtrace_ocache_t) (cap : Z) (xs : list Z) : Prop := {
  lv_ring : ring_holds (oc_rb oc) cap xs;
  lv_threads : ∀ t, t ∈ oc_thread_list oc → ∃ lc, oc_local oc !! t = Some (Some lc) ∧ lc_ok lc;
  lv_valid : ∀ t lc, oc_local oc !! t = Some (Some lc) → lc_invalid lc = false → t ∈ oc_thread_list oc;
  lv_nodup : NoDup (oc_thread_list oc);
}.

Lemma ok_leaving oc cap xs : oc_ok oc cap xs → oc_leaving oc cap xs.
Proof.
  intros [Hr Hs Hl Ht Hn]. split; try done.
  - intros t [lc Hlc]%Ht. exists lc. split; [done|by eapply Hl].
  - intros t lc Hlc _. apply Ht. by exists lc.
Qed.

(** What [unregister_thread] does with the objects of the cache. *)
Lemma unregister_thread_ok oc cap xs t lc :
  oc_leaving oc cap xs → t ∈ oc_thread_list oc → oc_local oc !! t = Some (Some lc) → 
  (oc_max_allocations oc ≠ 0 → Zlen (xs ++ contents lc) ≤ cap) →
  ∃ oc' lc' xs' fr, unregister_thread oc t = Ok oc' ∧ oc_leaving oc' cap xs' ∧
    oc_local oc' = <[t := Some lc']> (oc_local oc) ∧ lc_invalid lc' = true ∧
    t :: oc_thread_list oc' ≡ₚ oc_thread_list oc ∧
    oc_freed oc' = oc_freed oc ++ fr ∧ (oc_max_allocations oc ≠ 0 → fr = []) ∧
    oc_max_allocations oc' = oc_max_allocations oc ∧ oc_current_allocations oc' = oc_current_allocations oc ∧
    oc_allocated oc' = oc_allocated oc ∧ oc_thread_cache_size oc' = oc_thread_cache_size oc ∧
    xs ++ cached oc ≡ₚ xs' ++ cached oc' ++ fr.
Proof.
  intros [Hr Ht Hv Hn] Hin Hlc Hroom. destruct (Ht t Hin) as (lc0 & Hlc0 & Hok).
  assert (lc0 = lc) as -> by congruence. pose proof Hok as [Hl Hu Htot Hinv].
  unfold unregister_thread. pose proof (lookup_lt_Some _ _ _ Hlc) as Hlt.
  rewrite (aget_ok _ _ (Some lc)) by (try lia; by rewrite Nat2Z.id). cbn [obind].
  destruct (remove_thread_ok _ _ Hin) as (ts & -> & Hperm).
  rewrite aset_ok, Nat2Z.id by (unfold Zlen; lia). cbn [obind].
  set (lc' := {| lc_total := lc_total lc; lc_invalid := true |}).
  destruct (cached_at oc t _ Hlc) as (rest & E1 & E2). rewrite cache_objects_ok in E1 by done.
  specialize (E2 (Some lc')). cbn [cache_objects lc' lc_invalid] in E2.
  assert (NoDup (t :: ts)) as [Hnt Hnts]%NoDup_cons by by rewrite Hperm.
  assert (∀ rb' xs' freed, ring_holds rb' cap xs' → oc_leaving (oc_set_freed (oc_set_rb
    (oc_set_local oc (<[t:=Some lc']> (oc_local oc)) ts) rb') freed) cap xs') as Hlv.
  { intros rb' xs' fr Hrb'. split; cbn; try done.
    - intros t' Ht'. rewrite list_lookup_insert_ne by (intros ->; done). apply Ht. rewrite <- Hperm. by right.
    - intros t' c [(_ & [= <-] & _)|[Hne H']]%list_lookup_insert_Some; [done|].
      intros Hc. specialize (Hv t' c H' Hc). rewrite <- Hperm in Hv. apply elem_of_cons in Hv as [->|]; done. }
  cbn [oc_max_allocations oc_set_local oc_rb].
  destruct (Z.eqb_spec (oc_max_allocations oc) 0) as [Hz|Hz]; cbn [negb].
  - eexists _, lc', xs, (contents lc). split; [done|].
    split. { by apply (Hlv (oc_rb oc) xs (oc_freed oc ++ contents lc)). }
    do 2 (split; [done|]). do 7 (split; [done|]). unfold cached at 2. cbn. rewrite E2, E1.
    apply Permutation_app_head, Permutation_app_comm.
  - specialize (Hroom Hz). rewrite Zlen_app, contents_length in Hroom by done.
    destruct (swrite_bulk_ok (oc_rb oc) cap xs (lc_cache lc) (lc_used lc) (lc_used lc) Hr) as
      [[_ ?]|(_ & rb' & -> & Hrb')]; [lia..|]. cbn [obind].
    eexists _, lc', _, []. split; [done|].
    split. { apply (Hlv _ _ (oc_freed oc) Hrb'). }
    do 2 (split; [done|]). split; [done|]. split; [by rewrite app_nil_r|]. do 5 (split; [done|]).
    rewrite Z.min_r by lia. unfold cached at 2. cbn. rewrite E2, E1, app_nil_r. by rewrite <- app_assoc.
Qed.

Lemma ocache_unregister_ok oc cap xs t :
  oc_ok oc cap xs → (t < length (oc_local oc))%nat →
  (oc_max_allocations oc ≠ 0 → Zlen (xs ++ cached oc) ≤ cap) →
  ∃ oc' xs' fr, libtrace_ocache_unregister_thread oc t = Ok oc' ∧ oc_ok oc' cap xs' ∧
    oc_allocated oc' = oc_allocated oc ∧ oc_freed oc' = oc_freed oc ++ fr ∧
    oc_max_allocations oc' = oc_max_allocations oc ∧ length (oc_local oc') = length (oc_local oc) ∧
    oc_current_allocations oc' = oc_current_allocations oc ∧ (oc_max_allocations oc ≠ 0 → fr = []) ∧
    xs ++ cached oc ≡ₚ xs' ++ cached oc' ++ fr.
Proof.
  intros Hok Ht Hroom. unfold libtrace_ocache_unregister_thread.
  destruct (find_cache_ok oc cap xs t Hok Ht) as
    (oc1 & lc & -> & Hok1 & Hc1 & Hcur1 & (M1 & K1 & A1 & F1 & S1 & L1) & Hnone).
  cbn [obind]. destruct lc as [lc|].
  2: { destruct (Hnone eq_refl) as [-> _]. exists oc, xs, []. rewrite !app_nil_r. split_and!; done. }
  cbn in Hcur1. pose proof (ok_local _ _ _ Hok1 t lc Hcur1) as Hlc.
  assert (t ∈ oc_thread_list oc1) as Hin by (apply (ok_threads _ _ _ Hok1); by exists lc).
  destruct (cached_at oc1 t _ Hcur1) as (rest & E1 & _). rewrite cache_objects_ok in E1 by done.
  destruct (unregister_thread_ok oc1 cap xs t lc) as (oc2 & lc' & x2 & fr & -> & Hlv & Hl2 & Hinv & Hperm
    & F2 & Hfr & M2 & K2 & A2 & S2 & Hp); [by apply ok_leaving|done..| |].
  { intros Hz. rewrite M1 in Hz. specialize (Hroom Hz). rewrite <- Hc1, E1, !Zlen_app in Hroom.
    rewrite Zlen_app. pose proof (Zlen_nonneg rest). lia. }
  cbn [obind]. unfold set_cache. pose proof (lookup_lt_Some _ _ _ Hcur1) as Hlt.
  rewrite Hl2, aset_ok, Nat2Z.id, list_insert_insert_eq by (unfold Zlen; rewrite length_insert; lia). cbn [obind].
  assert (cached (oc_set_local oc2 (<[t:=None]> (oc_local oc1)) (oc_thread_list oc2)) ≡ₚ cached oc2) as Hc2.
  { destruct (cached_at oc2 t (Some lc')) as (r2 & G1 & G2).
    { rewrite Hl2. by apply list_lookup_insert_eq. }
    specialize (G2 None). rewrite Hl2, list_insert_insert_eq in G2. cbn in G1. rewrite Hinv in G1.
    unfold cached at 1. cbn [oc_local oc_set_local]. by rewrite G1, G2. }
  exists (oc_set_local oc2 (<[t:=None]> (oc_local oc1)) (oc_thread_list oc2)), x2, fr. split; [done|].
  assert (NoDup (t :: oc_thread_list oc2)) as [Hnt _]%NoDup_cons by (rewrite Hperm; apply Hok1).
  split; [|cbn; rewrite length_insert; split_and!; try congruence].
  - split; cbn; [apply Hlv|rewrite S2; apply Hok1| | |apply Hlv].
    + intros t' c [(_ & ? & _)|[_ H']]%list_lookup_insert_Some; [done|]. by eapply (ok_local _ _ _ Hok1).
    + intros t'. destruct (decide (t' = t)) as [->|Hne].
      * split; [done|]. intros [c Hc]. by rewrite list_lookup_insert_eq in Hc.
      * rewrite list_lookup_insert_ne by done. rewrite <- (ok_threads _ _ _ Hok1), <- Hperm. set_solver.
  - rewrite <- M1. exact Hfr.
  - by rewrite Hc2, <- Hc1.
Qed.

(** ** Destroying the pool *)
Lemma cached_registered oc cap xs : oc_leaving oc cap xs → oc_thread_list oc = [] → cached oc = [].
Proof.
  intros [_ _ Hv _] Hts. unfold cached. rewrite Hts in Hv. induction (oc_local oc) as [|o l IH]; [done|].
  cbn. rewrite IH.
  - destruct o as [lc|]; [|done]. cbn. destruct (lc_invalid lc) eqn:E; [done|].
    destruct (not_elem_of_nil O). apply (Hv O lc); done.
  - intros t lc Hlc Hi. destruct (not_elem_of_nil (S t)). by apply (Hv (S t) lc).
Qed.

Lemma unregister_all_ok n : ∀ oc cap xs,
  length (oc_thread_list oc) = n → oc_leaving oc cap xs →
  (oc_max_allocations oc ≠ 0 → Zlen (xs ++ cached oc) ≤ cap) →
  ∃ oc' xs', unregister_all n oc = Ok oc' ∧ ring_holds (oc_rb oc') cap xs' ∧
    oc_max_allocations oc' = oc_max_allocations oc ∧ 
    oc_freed oc ++ xs ++ cached oc ≡ₚ oc_freed oc' ++ xs'.
Proof.
  induction n as [|n IH]; intros oc cap xs Hn Hlv Hroom.
  { apply nil_length_inv in Hn. cbn [unregister_all]. rewrite Hn. exists oc, xs.
    rewrite (cached_registered _ _ _ Hlv Hn), app_nil_r. split_and!; try done. apply Hlv. }
  cbn [unregister_all]. destruct (oc_thread_list oc) as [|t ts] eqn:Ets; [done|].
  assert (t ∈ oc_thread_list oc) as Hin by (rewrite Ets; left).
  destruct (lv_threads _ _ _ Hlv t Hin) as (lc & Hlc & Hok).
  destruct (cached_at oc t _ Hlc) as (rest & E1 & _). rewrite cache_objects_ok in E1 by done.
  destruct (unregister_thread_ok oc cap xs t lc Hlv Hin Hlc) as (oc2 & lc' & x2 & fr & -> & Hlv2 & _ & _ & Hperm
    & F2 & Hfr & M2 & _ & _ & _ & Hp).
  { intros Hz. specialize (Hroom Hz). rewrite E1, !Zlen_app in Hroom. rewrite Zlen_app.
    pose proof (Zlen_nonneg rest). lia. }
  cbn [obind]. destruct (IH oc2 cap x2) as (oc3 & x3 & -> & Hr3 & M3 & Hp3).
  - apply Permutation_length in Hperm. rewrite Ets in Hperm. cbn in *. lia.
  - done.
  - rewrite M2. intros Hz. specialize (Hroom Hz). rewrite Hp, (Hfr Hz), app_nil_r in Hroom. done.
  - exists oc3, x3. split_and!; [done|done|congruence|]. rewrite <- Hp3, Hp, F2, <- !app_assoc.
    apply Permutation_app_head. by rewrite (app_assoc x2), Permutation_app_comm.
Qed.

Lemma drain_ring_ok xs : ∀ oc cap fuel, ring_holds (oc_rb oc) cap xs → (length xs < fuel)%nat →
  ∃ oc', drain_ring fuel oc = Ok oc' ∧ oc_freed oc' = oc_freed oc ++ xs.
Proof.
  induction xs as [|x xs IH]; intros oc cap [|fuel] (R & Hc & Hw & Hr) Hf; cbn [length] in Hf; try lia;
    cbn [drain_ring]; unfold libtrace_ringbuffer_try_read; rewrite (rb_is_empty_rep _ _ R).
  - rewrite bool_decide_eq_true_2 by done. cbn [obind Z.eqb]. eexists. split; [done|]. by rewrite app_nil_r.
  - rewrite bool_decide_eq_false_2 by done. destruct (rb_read_rep _ _ _ R) as (s & -> & R'). cbn [obind Z.eqb].
    edestruct (IH (oc_set_alloc (oc_set_freed (oc_set_rb oc (rb_set_start (oc_rb oc) s)) (oc_freed oc ++ [x]))
      (if negb (oc_max_allocations oc =? 0) then u64 (oc_current_allocations oc - 1) else oc_current_allocations oc)
      (oc_allocated oc)) cap fuel) as (oc' & Hrun & F); [by split_and!|lia|].
    exists oc'. split; [exact Hrun|]. rewrite F. cbn. by rewrite <- app_assoc.
Qed.

(** ** Threads that take, give back and leave

    [held] are the objects that the clients have been handed and have not given
    back.  A client gives back objects it holds, in an array of at least that
    size, and asks a limited pool for fewer objects than it may hold. *)
Inductive pool_step : libtrace_ocache_t * list Z → libtrace_ocache_t * list Z → Prop :=
| step_alloc oc held t values nb mn oc' values' i :
    (t < length (oc_local oc))%nat → 0 ≤ mn ≤ nb → nb < 2 ^ 64 → nb ≤ Zlen values →
    (oc_max_allocations oc ≠ 0 → nb < oc_max_allocations oc) →
    libtrace_ocache_alloc oc t values nb mn = Ok (oc', values', i) →
    pool_step (oc, held) (oc', take (Z.to_nat i) values' ++ held)
| step_free oc held t values nb mn rest oc' i :
    (t < length (oc_local oc))%nat → 0 ≤ mn ≤ nb → nb < 2 ^ 64 → nb ≤ Zlen values →
    (oc_max_allocations oc ≠ 0 → nb < oc_max_allocations oc) →
    held ≡ₚ take (Z.to_nat nb) values ++ rest →
    libtrace_ocache_free oc t values nb mn = Ok (oc', i) →
    pool_step (oc, held) (oc', drop (Z.to_nat i) (take (Z.to_nat nb) values) ++ rest)
| step_unregister oc held t oc' :
    (t < length (oc_local oc))%nat → libtrace_ocache_unregister_thread oc t = Ok oc' →
    pool_step (oc, held) (oc', held).

(** The pool a program has created, and what has happened to it since. *)
Definition pool_reachable (rb0 : libtrace_ringbuffer_t) (threads : nat) (thread_cache_size buffer_size : Z)
    (limit_size : bool) (oc : libtrace_ocache_t) (held : list Z) : Prop :=
  ∃ oc0, libtrace_ocache_init rb0 threads thread_cache_size buffer_size limit_size = Ok (Some oc0) ∧
    rtc pool_step (oc0, []) (oc, held).

Record pool_inv (cap : Z) (oc : libtrace_ocache_t) (held xs : list Z) : Prop := {
  pi_ok : oc_ok oc cap xs;
  pi_all : numbers 0 (oc_allocated oc) ≡ₚ held ++ xs ++ cached oc ++ oc_freed oc;
  pi_max : oc_max_allocations oc = 0 ∨ oc_max_allocations oc = cap ∧
    oc_current_allocations oc = Z.of_nat (oc_allocated oc) ∧ Z.of_nat (oc_allocated oc) ≤ cap ∧ oc_freed oc = [];
}.

Lemma numbers_app a n : numbers 0 a ++ numbers a n = numbers 0 (a + n).
Proof. unfold numbers. rewrite seq_app, map_app. done. Qed.

Lemma numbers_NoDup n : NoDup (numbers 0 n).
Proof.
  unfold numbers. apply NoDup_fmap_2; [intros ? ? ?; lia|]. apply NoDup_ListNoDup, seq_NoDup.
Qed.

(** Permutations of appended lists of objects, by counting. *)
Ltac count_perm :=
  repeat match goal with H : _ ≡ₚ _ |- _ => rewrite (Permutation_count_occ Z.eq_dec) in H end;
  rewrite (Permutation_count_occ Z.eq_dec); intros z;
  repeat match goal with H : ∀ x : Z, count_occ _ _ _ = _ |- _ => specialize (H z) end;
  rewrite ?count_occ_app in *; lia.

Lemma pool_inv_counts cap oc held xs : pool_inv cap oc held xs → counts_ok oc.
Proof. intros [_ _ [H|(H1 & H2 & H3 & _)]] Hz; [done|lia]. Qed.

(** In a limited pool there is room in the ring for whatever is outside of it. *)
Lemma pool_inv_room cap oc held xs : pool_inv cap oc held xs → oc_max_allocations oc ≠ 0 →
  Zlen held + Zlen xs + Zlen (cached oc) ≤ cap.
Proof.
  intros [_ Ha [H|(H1 & H2 & H4 & H3)]] Hz; [done|]. apply Permutation_length in Ha.
  rewrite H3, !length_app in Ha. unfold numbers in Ha. rewrite length_map, length_seq in Ha. unfold Zlen.
  cbn in Ha. lia.
Qed.

Lemma pool_inv_alloc cap oc held xs t values nb mn :
  pool_inv cap oc held xs → (t < length (oc_local oc))%nat → 0 ≤ mn ≤ nb → nb < 2 ^ 64 → nb ≤ Zlen values →
  (oc_max_allocations oc ≠ 0 → nb < oc_max_allocations oc) →
  (libtrace_ocache_alloc oc t values nb mn = Fault Blocked ∧ oc_max_allocations oc ≠ 0) ∨
  ∃ oc' values' i xs', libtrace_ocache_alloc oc t values nb mn = Ok (oc', values', i) ∧ mn ≤ i ≤ nb ∧
    (oc_max_allocations oc = 0 → i = nb) ∧ pool_inv cap oc' (take (Z.to_nat i) values' ++ held) xs'.
Proof.
  intros Hi Ht Hmn Hnb Hv Hmax. pose proof Hi as [Hok Ha Hlim].
  destruct (ocache_alloc_ok oc cap xs t values nb mn) as
    [?|(oc' & v' & i & xs' & n & -> & Hok' & ? & ? & A & F & M & L & C & K & Hp)];
    [done..|by eapply pool_inv_counts|done|by left|].
  right. exists oc', v', i, xs'. split_and!; [done|lia|lia|done|]. split; [done| |].
  - rewrite A, <- numbers_app, F. count_perm.
  - rewrite M, A, F. destruct Hlim as [?|(E & E1 & E2 & E3)]; [by left|right].
    assert (oc_max_allocations oc ≠ 0) as Hz.
    { destruct (ok_ring _ _ _ Hok) as (R & Ec & _). pose proof (rb_bounds _ _ R). lia. }
    specialize (K Hz). assert (oc_max_allocations oc' ≠ 0) as Hz' by congruence. specialize (C Hz').
    split_and!; try done; lia.
Qed.

Lemma pool_inv_free cap oc held xs t values nb mn rest :
  pool_inv cap oc held xs → (t < length (oc_local oc))%nat → 0 ≤ mn ≤ nb → nb < 2 ^ 64 → nb ≤ Zlen values →
  (oc_max_allocations oc ≠ 0 → nb < oc_max_allocations oc) → held ≡ₚ take (Z.to_nat nb) values ++ rest →
  ∃ oc' i xs', libtrace_ocache_free oc t values nb mn = Ok (oc', i) ∧ mn ≤ i ≤ nb ∧
    pool_inv cap oc' (drop (Z.to_nat i) (take (Z.to_nat nb) values) ++ rest) xs'.
Proof.
  intros Hi Ht Hmn Hnb Hv Hmax Hh. pose proof Hi as [Hok Ha Hlim].
  destruct (ocache_free_ok oc cap xs t values nb mn) as
    [(_ & Hz & Hlt)|(oc' & i & xs' & fr & -> & Hok' & Hin & A & F & M & L & K & Hfr & Hp)]; [done..| |].
  { pose proof (pool_inv_room _ _ _ _ Hi Hz) as Hroom. rewrite Hh, Zlen_app, Zlen_take in Hroom by lia.
    pose proof (Zlen_nonneg rest). pose proof (Zlen_nonneg (cached oc)). lia. }
  exists oc', i, xs'. split_and!; [done|lia|lia|]. split; [done| |].
  - assert (take (Z.to_nat nb) values
      = take (Z.to_nat i) values ++ drop (Z.to_nat i) (take (Z.to_nat nb) values)) as Es.
    { rewrite <- (take_drop (Z.to_nat i) (take (Z.to_nat nb) values)) at 1. f_equal.
      rewrite take_take. f_equal. lia. }
    rewrite Es in Hh. rewrite A, F. clear -Ha Hh Hp. count_perm.
  - rewrite M, A, F, K. destruct Hlim as [?|(E & E1 & E2 & E3)]; [by left|right].
    assert (oc_max_allocations oc ≠ 0) as Hz.
    { destruct (ok_ring _ _ _ Hok) as (R & Ec & _). pose proof (rb_bounds _ _ R). lia. }
    rewrite (Hfr Hz), E3. done.
Qed.

Lemma pool_inv_unregister cap oc held xs t :
  pool_inv cap oc held xs → (t < length (oc_local oc))%nat →
  ∃ oc' xs', libtrace_ocache_unregister_thread oc t = Ok oc' ∧ pool_inv cap oc' held xs'.
Proof.
  intros Hi Ht. pose proof Hi as [Hok Ha Hlim].
  destruct (ocache_unregister_ok oc cap xs t Hok Ht) as (oc' & xs' & fr & -> & Hok' & A & F & M & L & K & Hfr & Hp).
  { intros Hz. pose proof (pool_inv_room _ _ _ _ Hi Hz). rewrite Zlen_app. pose proof (Zlen_nonneg held). lia. }
  exists oc', xs'. split; [done|]. split; [done| |].
  - rewrite A, F. count_perm.
  - rewrite M, A, F, K. destruct Hlim as [?|(E & E1 & E2 & E3)]; [by left|right].
    assert (oc_max_allocations oc ≠ 0) as Hz.
    { destruct (ok_ring _ _ _ Hok) as (R & Ec & _). pose proof (rb_bounds _ _ R). lia. }
    rewrite (Hfr Hz), E3. done.
Qed.

(** Sizes for which [libtrace_ocache_init] succeeds, with unlocked ring locks. *)
Definition pool_sizes (rb0 : libtrace_ringbuffer_t) (thread_cache_size buffer_size : Z) : Prop :=
  0 ≤ thread_cache_size < 2 ^ 63 ∧ 0 < buffer_size < 2 ^ 59 ∧
  rb_empty_lock rb0 = false ∧ rb_full_lock rb0 = false.

Lemma cached_replicate n : concat (map cache_objects (replicate n None)) = [].
Proof. by induction n. Qed.

Lemma pool_inv_init rb0 threads tcs size limit oc :
  pool_sizes rb0 tcs size → libtrace_ocache_init rb0 threads tcs size limit = Ok (Some oc) →
  pool_inv size oc [] [] ∧ length (oc_local oc) = threads ∧
  oc_max_allocations oc = (if limit then size else 0).
Proof.
  intros (Htcs & Hsize & H1 & H2). unfold libtrace_ocache_init.
  rewrite (proj2 (Z.eqb_neq size 0)) by lia. cbn [negb oassert obind].
  destruct (rb_init_rep rb0 size LIBTRACE_RINGBUFFER_BLOCKING Hsize H1 H2) as (rb & -> & R & Hc & Hw & Hr).
  cbn [Z.eqb negb]. injection 1 as <-. cbn. rewrite length_replicate. split; [|done].
  split; cbn.
  - split; cbn; [by split_and!|done| | |constructor].
    + intros t lc [? _]%lookup_replicate. done.
    + intros t. split; [set_solver|]. intros [lc [? _]%lookup_replicate]. done.
  - unfold cached. cbn. by rewrite cached_replicate.
  - destruct limit; [right|by left]. split_and!; try done. lia.
Qed.

Lemma pool_step_inv cap s1 s2 : pool_step s1 s2 →
  (∃ xs, pool_inv cap s1.1 s1.2 xs) →
  (∃ xs, pool_inv cap s2.1 s2.2 xs).
Proof.
  intros Hs [xs Hi]. destruct Hs as [oc held t values nb mn oc' v' i Ht Hmn Hnb Hv Hmax Hrun
    |oc held t values nb mn rest oc' i Ht Hmn Hnb Hv Hmax Hh Hrun|oc held t oc' Ht Hrun]; cbn in *.
  - destruct (pool_inv_alloc cap oc held xs t values nb mn) as [[E _]|(o & v & j & xs' & E & _ & _ & Hi')]; try done;
      rewrite Hrun in E; [done|]. injection E as <- <- <-. by exists xs'.
  - destruct (pool_inv_free cap oc held xs t values nb mn rest) as (o & j & xs' & E & _ & Hi'); try done.
    rewrite Hrun in E. injection E as <- <-. by exists xs'.
  - destruct (pool_inv_unregister cap oc held xs t) as (o & xs' & E & Hi'); try done.
    rewrite Hrun in E. injection E as <-. by exists xs'.
Qed.

Lemma pool_run_inv cap s1 s2 : rtc pool_step s1 s2 →
  (∃ xs, pool_inv cap s1.1 s1.2 xs) → ∃ xs, pool_inv cap s2.1 s2.2 xs.
Proof. induction 1; eauto using pool_step_inv. Qed.

Lemma pool_reachable_inv rb0 threads tcs size limit oc held :
  pool_sizes rb0 tcs size → pool_reachable rb0 threads tcs size limit oc held → ∃ xs, pool_inv size oc held xs.
Proof.
  intros Hsz (oc0 & Hinit & Hrun). destruct (pool_inv_init _ _ _ _ _ _ Hsz Hinit) as (Hi & _ & _).
  apply (pool_run_inv _ _ _ Hrun). by exists [].
Qed.

(** ** Theorems *)

(** C11: Whatever sequence of taking, giving back and leaving the threads run, every
    object ever allocated is in exactly one place: held by a client, in the ring,
    in a thread's cache, or freed.  So no object is handed to two clients and
    none is freed while it is held; a limited pool never allocates more than
    [buffer_size] objects and frees none. *)
Theorem ocache_accounts_for_every_object rb0 threads tcs size limit oc held :
  pool_sizes rb0 tcs size → pool_reachable rb0 threads tcs size limit oc held →
  ∃ xs, ring_holds (oc_rb oc) size xs ∧
    numbers 0 (oc_allocated oc) ≡ₚ held ++ xs ++ cached oc ++ oc_freed oc ∧
    NoDup (held ++ xs ++ cached oc ++ oc_freed oc) ∧
    (oc_max_allocations oc ≠ 0 → Z.of_nat (oc_allocated oc) ≤ size ∧ oc_freed oc = []).
Proof.
  intros Hsz Hr. destruct (pool_reachable_inv _ _ _ _ _ _ _ Hsz Hr) as (xs & [Hok Ha Hlim]).
  exists xs. split_and!; [apply Hok|done|rewrite <- Ha; apply numbers_NoDup|].
  intros Hz. destruct Hlim as [|(_ & _ & ? & ?)]; done.
Qed.

(** In every reachable pool the calls of a well-behaved client return: giving
    back objects it holds and leaving never block, in a limited pool as in an
    unlimited one; taking objects gives between [min_nb_buffers] and
    [nb_buffers] of them, all of them if the pool is unlimited, and can wait only
    in a limited pool. *)
Theorem ocache_calls_return rb0 threads tcs size limit oc held t values nb mn :
  pool_sizes rb0 tcs size → pool_reachable rb0 threads tcs size limit oc held →
  (t < length (oc_local oc))%nat → 0 ≤ mn ≤ nb → nb < 2 ^ 64 → nb ≤ Zlen values →
  (oc_max_allocations oc ≠ 0 → nb < oc_max_allocations oc) →
  (∃ oc', libtrace_ocache_unregister_thread oc t = Ok oc') ∧
  (∀ rest, held ≡ₚ take (Z.to_nat nb) values ++ rest →
   ∃ oc' i, libtrace_ocache_free oc t values nb mn = Ok (oc', i) ∧ mn ≤ i ≤ nb) ∧
  (libtrace_ocache_alloc oc t values nb mn = Fault Blocked ∧ oc_max_allocations oc ≠ 0 ∨
   ∃ oc' values' i, libtrace_ocache_alloc oc t values nb mn = Ok (oc', values', i) ∧ mn ≤ i ≤ nb ∧
     (oc_max_allocations oc = 0 → i = nb)).
Proof.
  intros Hsz Hr Ht Hmn Hnb Hv Hmax. destruct (pool_reachable_inv _ _ _ _ _ _ _ Hsz Hr) as (xs & Hi).
  split_and!.
  - destruct (pool_inv_unregister _ _ _ _ t Hi Ht) as (oc' & _ & H & _). by exists oc'.
  - intros rest Hh. destruct (pool_inv_free _ _ _ _ t values nb mn rest Hi) as (oc' & i & _ & H & Hin & _); try done.
    by exists oc', i.
  - destruct (pool_inv_alloc _ _ _ _ t values nb mn Hi) as [H|(oc' & v' & i & _ & H & Hin & Hall & _)]; try done.
    + by left.
    + right. by exists oc', v', i.
Qed.

(** [libtrace_ocache_destroy] frees every object that the clients do not hold,
    each once, and returns 0 even if they do hold some: the counter that it
    returns is the one that [libtrace_zero_ocache] has just cleared. *)
Theorem ocache_destroy_frees_but_reports_zero rb0 threads tcs size limit oc held :
  pool_sizes rb0 tcs size → pool_reachable rb0 threads tcs size limit oc held →
  ∃ oc', libtrace_ocache_destroy oc = Ok (oc', 0) ∧
    numbers 0 (oc_allocated oc) ≡ₚ held ++ oc_freed oc'.
Proof.
  intros Hsz Hr. destruct (pool_reachable_inv _ _ _ _ _ _ _ Hsz Hr) as (xs & Hi). pose proof Hi as [Hok Ha _].
  unfold libtrace_ocache_destroy.
  destruct (unregister_all_ok _ oc size xs eq_refl (ok_leaving _ _ _ Hok)) as (oc1 & x1 & -> & Hr1 & _ & Hp1).
  { intros Hz. pose proof (pool_inv_room _ _ _ _ Hi Hz). rewrite Zlen_app. pose proof (Zlen_nonneg held). lia. }
  cbn [obind]. destruct (drain_ring_ok x1 oc1 size (S (Z.to_nat (libtrace_ringbuffer_nb_full (oc_rb oc1)))) Hr1)
    as (oc2 & -> & F2).
  { destruct Hr1 as (R & _). rewrite (rb_nb_full_rep _ _ R). unfold Zlen. lia. }
  cbn [obind]. eexists. split; [done|]. cbn. rewrite F2. count_perm.
Qed.

(** ** Concrete runs

    A limited pool of four objects and two threads with caches of two: thread 0
    takes three objects and gives two of them back. *)
Definition sample_pool0 : libtrace_ocache_t :=
  match libtrace_ocache_init (rb_sample [] false) 2 2 4 true with
  | Ok (Some oc) => oc
  | _ => {| oc_rb := rb_sample [] false; oc_thread_cache_size := 0; oc_max_allocations := 0;
            oc_current_allocations := 0; oc_thread_list := []; oc_local := []; oc_allocated := 0;
            oc_freed := [] |}
  end.

Definition sample_pool1 : libtrace_ocache_t :=
  match libtrace_ocache_alloc sample_pool0 0 [0; 0; 0] 3 1 with Ok (oc, _, _) => oc | _ => sample_pool0 end.

Definition sample_pool2 : libtrace_ocache_t :=
  match libtrace_ocache_free sample_pool1 0 [3; 1] 2 2 with Ok (oc, _) => oc | _ => sample_pool1 end.

Lemma sample_sizes : pool_sizes (rb_sample [] false) 2 4.
Proof. by split_and!. Qed.

Lemma sample_pool_run : pool_reachable (rb_sample [] false) 2 2 4 true sample_pool2 [2].
Proof.
  exists sample_pool0. split; [vm_compute; reflexivity|].
  apply (rtc_l _ _ (sample_pool1, [1; 2; 3])).
  - eapply (step_alloc sample_pool0 [] 0 [0; 0; 0] 3 1 sample_pool1 [1; 2; 3] 3);
      [vm_compute; lia|lia..|vm_compute; discriminate|vm_compute; reflexivity|vm_compute; reflexivity].
  - apply rtc_once.
    eapply (step_free sample_pool1 [1; 2; 3] 0 [3; 1] 2 2 [2] sample_pool2 2);
      [vm_compute; lia|lia..|vm_compute; discriminate|vm_compute; reflexivity| |vm_compute; reflexivity].
    change (take (Z.to_nat 2) [3; 1] ++ [2]) with [3; 1; 2].
    by apply (bool_decide_eq_true_1 ([1; 2; 3] ≡ₚ [3; 1; 2])).
Qed.

Lemma ocache_accounts_for_every_object_witness :
  ∃ xs, ring_holds (oc_rb sample_pool2) 4 xs ∧
    numbers 0 (oc_allocated sample_pool2) ≡ₚ [2] ++ xs ++ cached sample_pool2 ++ oc_freed sample_pool2 ∧
    NoDup ([2] ++ xs ++ cached sample_pool2 ++ oc_freed sample_pool2) ∧
    (oc_max_allocations sample_pool2 ≠ 0 →
     Z.of_nat (oc_allocated sample_pool2) ≤ 4 ∧ oc_freed sample_pool2 = []).
Proof. exact (ocache_accounts_for_every_object _ _ _ _ _ _ _ sample_sizes sample_pool_run). Defined.

Lemma ocache_calls_return_witness :
  ∃ oc' i, libtrace_ocache_free sample_pool2 1 [2] 1 1 = Ok (oc', i) ∧ 1 ≤ i ≤ 1.
Proof.
  apply (ocache_calls_return _ _ _ _ _ _ _ 1 [2] 1 1 sample_sizes sample_pool_run) with (rest := []);
    [vm_compute; lia|lia|lia|vm_compute; discriminate|vm_compute; reflexivity|done].
Defined.

Lemma ocache_destroy_frees_but_reports_zero_witness :
  ∃ oc', libtrace_ocache_destroy sample_pool2 = Ok (oc', 0) ∧
    numbers 0 (oc_allocated sample_pool2) ≡ₚ [2] ++ oc_freed oc'.
Proof. exact (ocache_destroy_frees_but_reports_zero _ _ _ _ _ _ _ sample_sizes sample_pool_run). Defined.
