(* ===== verification/Timestamps.v ===== *)
(** * Timestamps: the conversions of lib/trace.c

    A capture format reports the time of a packet in one or more of four forms:
    an ERF timestamp (32 bits of seconds, 32 bits of fraction), a [timespec], a
    [timeval] or a [double]; [trace_get_erf_timestamp], [trace_get_timespec],
    [trace_get_timeval] and [trace_get_seconds] convert whatever the format has.
    The seeking functions convert the other way.

    Doubles are the binary64 numbers of the Standard Library's SpecFloat. *)

From Stdlib Require Import SpecFloat.
From S2P Require Import Prelude Packet.
Local Open Scope Z_scope.
Local Open Scope outcome_scope.

(** [time_t], [suseconds_t] and [long] are 64 bits wide. *)
Definition i64 (z : Z) : Z := (z + 2 ^ 63) `mod` 2 ^ 64 - 2 ^ 63.

Record timeval := { tv_sec : Z; tv_usec : Z }.
Record timespec := { ts_sec : Z; ts_nsec : Z }.

#[export] Instance timeval_eq_dec : EqDecision timeval.
Proof. solve_decision. Defined.
#[export] Instance timespec_eq_dec : EqDecision timespec.
Proof. solve_decision. Defined.

Abbreviation UINT_MAX := (2 ^ 32 - 1).

(** ** Doubles *)
Abbreviation double := spec_float.
Definition dadd : double → double → double := SFadd 53 1024.
Definition dsub : double → double → double := SFsub 53 1024.
Definition dmul : double → double → double := SFmul 53 1024.
Definition ddiv : double → double → double := SFdiv 53 1024.
Definition double_of_int (n : Z) : double := binary_normalize 53 1024 n 0 false.

(** The integer part, and the conversion to a [w]-bit unsigned type, which is
    undefined for a value out of its range. *)
Definition dtrunc (d : double) : option Z :=
  match d with
  | S754_zero _ => Some 0
  | S754_finite s m e =>
      let n := if 0 <=? e then Z.pos m * 2 ^ e else Z.pos m / 2 ^ (- e) in
      Some (if s then - n else n)
  | _ => None
  end.

Definition double_to_uint (w : Z) (d : double) : outcome Z :=
  match dtrunc d with
  | Some n => if (0 <=? n) && (n <? 2 ^ w) then Ok n else Fault BadConversion
  | None => Fault BadConversion
  end.

(** ** What a format provides *)
Record time_format := {
  tf_get_erf_timestamp : option (libtrace_packet_t → Z);
  tf_get_timespec : option (libtrace_packet_t → timespec);
  tf_get_timeval : option (libtrace_packet_t → timeval);
  tf_get_seconds : option (libtrace_packet_t → double);
}.

Section time.
Variable fmt : time_format.

Definition trace_get_erf_timestamp (p : libtrace_packet_t) : outcome Z :=
  match tf_get_erf_timestamp fmt, tf_get_timespec fmt, tf_get_timeval fmt, tf_get_seconds fmt with
  | Some get, _, _, _ => Ok (get p)
  | None, Some get, _, _ =>
      let ts := get p in
      Ok (u64 (u64 (Z.shiftl (u64 (ts_sec ts)) 32) + u64 (Z.shiftl (u64 (ts_nsec ts)) 32) / 1000000000))
  | None, None, Some get, _ =>
      let tv := get p in
      Ok (u64 (u64 (Z.shiftl (u64 (tv_sec tv)) 32) + u64 (Z.shiftl (u64 (tv_usec tv)) 32) / 1000000))
  | None, None, None, Some get =>
      let seconds := get p in
      let! whole := double_to_uint 64 seconds in
      let! frac := double_to_uint 64 (dmul (dsub seconds (double_of_int whole)) (double_of_int UINT_MAX)) in
      Ok (u64 (u64 (Z.shiftl whole 32) + frac))
  | None, None, None, None => Ok 0
  end.

(** An ERF timestamp as a number of seconds and units of which there are [unit]
    in a second, with the carry of the code. *)
Definition split_erf (ts unit : Z) : Z * Z :=
  let sec := Z.shiftr ts 32 in
  let frac := Z.shiftr (u64 (Z.land ts 4294967295 * unit)) 32 in
  if unit <=? frac then (sec + 1, frac - unit) else (sec, frac).

Definition trace_get_timeval (p : libtrace_packet_t) : outcome timeval :=
  match tf_get_timeval fmt, tf_get_erf_timestamp fmt, tf_get_timespec fmt, tf_get_seconds fmt with
  | Some get, _, _, _ => Ok (get p)
  | None, Some get, _, _ =>
      let '(sec, usec) := split_erf (get p) 1000000 in Ok {| tv_sec := sec; tv_usec := usec |}
  | None, None, Some get, _ =>
      let ts := get p in Ok {| tv_sec := ts_sec ts; tv_usec := ts_nsec ts ÷ 1000 |}
  | None, None, None, Some get =>
      let seconds := get p in
      let! sec := double_to_uint 32 seconds in
      let! usec := double_to_uint 32
        (ddiv (dmul (dsub seconds (double_of_int sec)) (double_of_int 1000000)) (double_of_int UINT_MAX)) in
      Ok {| tv_sec := sec; tv_usec := usec |}
  | None, None, None, None => Ok {| tv_sec := -1; tv_usec := -1 |}
  end.

Definition trace_get_timespec (p : libtrace_packet_t) : outcome timespec :=
  match tf_get_timespec fmt, tf_get_erf_timestamp fmt, tf_get_timeval fmt, tf_get_seconds fmt with
  | Some get, _, _, _ => Ok (get p)
  | None, Some get, _, _ =>
      let '(sec, nsec) := split_erf (get p) 1000000000 in Ok {| ts_sec := sec; ts_nsec := nsec |}
  | None, None, Some get, _ =>
      let tv := get p in Ok {| ts_sec := tv_sec tv; ts_nsec := i64 (tv_usec tv * 1000) |}
  | None, None, None, Some get =>
      let seconds := get p in
      let! sec := double_to_uint 32 seconds in
      let! nsec := double_to_uint 63
        (ddiv (dmul (dsub seconds (double_of_int sec)) (double_of_int 1000000000)) (double_of_int UINT_MAX)) in
      Ok {| ts_sec := sec; ts_nsec := nsec |}
  | None, None, None, None => Ok {| ts_sec := -1; ts_nsec := -1 |}
  end.

Definition trace_get_seconds (p : libtrace_packet_t) : double :=
  match tf_get_seconds fmt, tf_get_erf_timestamp fmt, tf_get_timespec fmt, tf_get_timeval fmt with
  | Some get, _, _, _ => get p
  | None, Some get, _, _ =>
      let ts := get p in
      dadd (double_of_int (Z.shiftr ts 32))
        (ddiv (dmul (double_of_int (Z.land ts UINT_MAX)) (double_of_int 1)) (double_of_int UINT_MAX))
  | None, None, Some get, _ =>
      let ts := get p in
      dadd (double_of_int (ts_sec ts))
        (ddiv (dmul (double_of_int (ts_nsec ts)) (double_of_int 1)) (double_of_int 1000000000))
  | None, None, None, Some get =>
      let tv := get p in
      dadd (double_of_int (tv_sec tv))
        (ddiv (dmul (double_of_int (tv_usec tv)) (double_of_int 1)) (double_of_int 1000000))
  | None, None, None, None => S754_zero false
  end.
End time.

(** ** Seeking

    [F] is the state of the format; the functions that a format provides change
    it and return a result.  [None] as a result is the error
    [TRACE_ERR_OPTION_UNAVAIL] with the return value -1. *)
Record seek_format (F : Type) := {
  sf_seek_erf : option (F → Z → F * Z);
  sf_seek_timeval : option (F → timeval → F * Z);
  sf_seek_seconds : option (F → double → F * Z);
}.
Arguments sf_seek_erf {F} _.
Arguments sf_seek_timeval {F} _.
Arguments sf_seek_seconds {F} _.

Section seek.
Context {F : Type}.
Variable fmt : seek_format F.

Definition trace_seek_erf_timestamp (f : F) (ts : Z) : option (F * Z) :=
  match sf_seek_erf fmt, sf_seek_timeval fmt, sf_seek_seconds fmt with
  | Some seek, _, _ => Some (seek f ts)
  | None, Some seek, _ =>
      let '(sec, usec) := split_erf ts 1000000 in Some (seek f {| tv_sec := sec; tv_usec := usec |})
  | None, None, Some seek =>
      Some (seek f (dadd (double_of_int (Z.shiftr ts 32))
        (ddiv (dmul (double_of_int (Z.land ts UINT_MAX)) (double_of_int 1)) (double_of_int UINT_MAX))))
  | None, None, None => None
  end.

Definition trace_seek_seconds (f : F) (seconds : double) : outcome (option (F * Z)) :=
  match sf_seek_seconds fmt, sf_seek_timeval fmt, sf_seek_erf fmt with
  | Some seek, _, _ => Ok (Some (seek f seconds))
  | None, Some seek, _ =>
      let! sec := double_to_uint 32 seconds in
      let! usec := double_to_uint 32
        (ddiv (dmul (dsub seconds (double_of_int sec)) (double_of_int 1000000)) (double_of_int UINT_MAX)) in
      Ok (Some (seek f {| tv_sec := sec; tv_usec := usec |}))
  | None, None, Some seek =>
      let! sec := double_to_uint 32 seconds in
      let! frac := double_to_uint 64 (dmul (dsub seconds (double_of_int sec)) (double_of_int UINT_MAX)) in
      Ok (Some (seek f (u64 (u64 (Z.shiftl sec 32) + frac))))
  | None, None, None => Ok None
  end.

Definition trace_seek_timeval (f : F) (tv : timeval) : option (F * Z) :=
  match sf_seek_timeval fmt, sf_seek_erf fmt, sf_seek_seconds fmt with
  | Some seek, _, _ => Some (seek f tv)
  | None, Some seek, _ =>
      Some (seek f (u64 (u64 (Z.shiftl (u64 (tv_sec tv)) 32) + u64 (u64 (tv_usec tv) * UINT_MAX) / 1000000)))
  | None, None, Some seek =>
      Some (seek f (dadd (double_of_int (tv_sec tv))
        (ddiv (dmul (double_of_int (tv_usec tv)) (double_of_int 1)) (double_of_int 1000000))))
  | None, None, None => None
  end.
End seek.

(** ** Lemmas *)

(** Below, [unit] is the number of units in a second. *)
Lemma split_erf_ok ts unit :
  0 ≤ ts < 2 ^ 64 → 0 < unit ≤ 2 ^ 32 →
  split_erf ts unit = (ts / 2 ^ 32, (ts `mod` 2 ^ 32 * unit) / 2 ^ 32) ∧
  0 ≤ (ts `mod` 2 ^ 32 * unit) / 2 ^ 32 < unit.
Proof.
  intros Hts Hu. unfold split_erf. change 4294967295 with (Z.ones 32).
  rewrite Z.land_ones, !Z.shiftr_div_pow2 by lia.
  pose proof (Z.mod_pos_bound ts (2 ^ 32) ltac:(lia)) as Hm.
  rewrite u64_small by nia.
  assert (0 ≤ (ts `mod` 2 ^ 32 * unit) / 2 ^ 32 < unit) as Hr.
  { split; [apply Z.div_pos; nia|]. apply Z.div_lt_upper_bound; nia. }
  destruct (Z.leb_spec unit ((ts `mod` 2 ^ 32 * unit) / 2 ^ 32)); [lia|done].
Qed.

(** In units, both parts together are the timestamp rounded down. *)
Lemma split_erf_floor ts unit : 0 ≤ ts → 0 < unit →
  ts / 2 ^ 32 * unit + (ts `mod` 2 ^ 32 * unit) / 2 ^ 32 = (ts * unit) / 2 ^ 32.
Proof.
  intros Hts Hu. rewrite (Z.div_mod ts (2 ^ 32)) at 3 by lia.
  replace ((2 ^ 32 * (ts / 2 ^ 32) + ts `mod` 2 ^ 32) * unit)
    with (ts / 2 ^ 32 * unit * 2 ^ 32 + ts `mod` 2 ^ 32 * unit) by ring.
  by rewrite Z.div_add_l by lia.
Qed.

(** The other direction: seconds and units become an ERF timestamp. *)
Lemma join_erf_floor sec n unit :
  0 ≤ sec < 2 ^ 32 → 0 ≤ n < unit → unit ≤ 2 ^ 32 →
  u64 (u64 (Z.shiftl (u64 sec) 32) + u64 (Z.shiftl (u64 n) 32) / unit)
  = ((sec * unit + n) * 2 ^ 32) / unit ∧
  0 ≤ ((sec * unit + n) * 2 ^ 32) / unit < 2 ^ 64.
Proof.
  intros Hs Hn Hu. rewrite !Z.shiftl_mul_pow2 by lia.
  rewrite !(u64_small sec), !(u64_small n) by lia. rewrite !(u64_small (_ * _)) by lia.
  assert (0 ≤ n * 2 ^ 32 / unit < 2 ^ 32) as Hf.
  { split; [apply Z.div_pos; lia|]. apply Z.div_lt_upper_bound; nia. }
  replace ((sec * unit + n) * 2 ^ 32) with (sec * 2 ^ 32 * unit + n * 2 ^ 32) by ring.
  rewrite Z.div_add_l by lia. rewrite u64_small by lia. split; [done|lia].
Qed.

Lemma erf_parts sec n unit :
  0 ≤ sec → 0 ≤ n < unit → unit ≤ 2 ^ 32 →
  ((sec * unit + n) * 2 ^ 32 / unit) / 2 ^ 32 = sec ∧
  ((sec * unit + n) * 2 ^ 32 / unit) `mod` 2 ^ 32 = n * 2 ^ 32 / unit.
Proof.
  intros Hs Hn Hu.
  replace ((sec * unit + n) * 2 ^ 32) with (sec * 2 ^ 32 * unit + n * 2 ^ 32) by ring.
  rewrite Z.div_add_l by lia.
  assert (0 ≤ n * 2 ^ 32 / unit < 2 ^ 32) as Hf.
  { split; [apply Z.div_pos; lia|]. apply Z.div_lt_upper_bound; nia. }
  split; [symmetry; by apply (Z.div_unique_pos _ _ _ (n * 2 ^ 32 / unit)); lia|].
  symmetry. apply (Z.mod_unique_pos _ _ sec); lia.
Qed.

(** ** What the conversions mean

    A format that has one of the integral forms.  The time it reports for a
    packet is [num / den] seconds. *)
Inductive time_source :=
| SrcErf (ts : Z)
| SrcTimespec (ts : timespec)
| SrcTimeval (tv : timeval).

Definition source_ok (s : time_source) : Prop :=
  match s with
  | SrcErf ts => 0 ≤ ts < 2 ^ 64
  | SrcTimespec ts => 0 ≤ ts_sec ts < 2 ^ 32 ∧ 0 ≤ ts_nsec ts < 10 ^ 9
  | SrcTimeval tv => 0 ≤ tv_sec tv < 2 ^ 32 ∧ 0 ≤ tv_usec tv < 10 ^ 6
  end.

Definition source_format (s : time_source) : time_format :=
  match s with
  | SrcErf ts => {| tf_get_erf_timestamp := Some (λ _, ts); tf_get_timespec := None;
                    tf_get_timeval := None; tf_get_seconds := None |}
  | SrcTimespec ts => {| tf_get_erf_timestamp := None; tf_get_timespec := Some (λ _, ts);
                         tf_get_timeval := None; tf_get_seconds := None |}
  | SrcTimeval tv => {| tf_get_erf_timestamp := None; tf_get_timespec := None;
                        tf_get_timeval := Some (λ _, tv); tf_get_seconds := None |}
  end.

Definition instant (s : time_source) : Z * Z :=
  match s with
  | SrcErf ts => (ts, 2 ^ 32)
  | SrcTimespec ts => (ts_sec ts * 10 ^ 9 + ts_nsec ts, 10 ^ 9)
  | SrcTimeval tv => (tv_sec tv * 10 ^ 6 + tv_usec tv, 10 ^ 6)
  end.

(** The instant in units of which there are [unit] in a second, rounded down. *)
Definition in_units (s : time_source) (unit : Z) : Z := (instant s).1 * unit / (instant s).2.

(** C30: Whatever integral form a format provides, an ERF timestamp, a [timespec] or a
    [timeval], all three functions report the same instant, each rounded down to
    its own unit and with a fraction below one second.  (So the order of packets
    in time is kept.) *)
Theorem timestamps_round_down s p :
  source_ok s →
  trace_get_erf_timestamp (source_format s) p = Ok (in_units s (2 ^ 32)) ∧
  (∃ tv, trace_get_timeval (source_format s) p = Ok tv ∧
     tv_sec tv * 10 ^ 6 + tv_usec tv = in_units s (10 ^ 6) ∧ 0 ≤ tv_usec tv < 10 ^ 6) ∧
  (∃ ts, trace_get_timespec (source_format s) p = Ok ts ∧
     ts_sec ts * 10 ^ 9 + ts_nsec ts = in_units s (10 ^ 9) ∧ 0 ≤ ts_nsec ts < 10 ^ 9).
Proof.
  destruct s as [ts|ts|tv]; unfold in_units; cbn [source_ok instant fst snd]; intros Hs.
  - rewrite Z.div_mul by lia. split; [done|].
    unfold trace_get_timeval, trace_get_timespec. cbn [source_format tf_get_timeval tf_get_timespec tf_get_erf_timestamp].
    destruct (split_erf_ok ts 1000000 Hs) as [-> H6]; [lia|].
    destruct (split_erf_ok ts 1000000000 Hs) as [-> H9]; [lia|].
    split; eexists; (split; [done|]); cbn [tv_sec tv_usec ts_sec ts_nsec];
      (split; [apply split_erf_floor; lia|done]).
  - rewrite Z.div_mul by lia. destruct Hs as [Hs Hn]. split_and!.
    + unfold trace_get_erf_timestamp. cbn [source_format tf_get_timespec tf_get_erf_timestamp]. f_equal.
      by apply join_erf_floor.
    + unfold trace_get_timeval. cbn [source_format tf_get_timeval tf_get_timespec tf_get_erf_timestamp].
      eexists. split; [done|]. cbn [tv_sec tv_usec]. rewrite Z.quot_div_nonneg by lia.
      split; [|split; [apply Z.div_pos; lia|apply Z.div_lt_upper_bound; lia]].
      change (10 ^ 9) with (1000 * 10 ^ 6). rewrite Z.div_mul_cancel_r by lia.
      replace (ts_sec ts * (1000 * 10 ^ 6) + ts_nsec ts) with (ts_sec ts * 10 ^ 6 * 1000 + ts_nsec ts) by ring.
      by rewrite Z.div_add_l by lia.
    + by eexists.
  - rewrite Z.div_mul by lia. destruct Hs as [Hs Hn]. split_and!.
    + unfold trace_get_erf_timestamp. cbn [source_format tf_get_timespec tf_get_timeval tf_get_erf_timestamp]. f_equal.
      by apply join_erf_floor.
    + by eexists.
    + unfold trace_get_timespec. cbn [source_format tf_get_timeval tf_get_timespec tf_get_erf_timestamp].
      eexists. split; [done|]. cbn [ts_sec ts_nsec]. unfold i64. rewrite Z.mod_small by lia.
      split; [|lia].
      replace ((tv_sec tv * 10 ^ 6 + tv_usec tv) * 10 ^ 9) with ((tv_sec tv * 10 ^ 6 + tv_usec tv) * 1000 * 10 ^ 6) by lia.
      rewrite Z.div_mul by lia. lia.
Qed.

(** Dividing by [unit] in steps of [2 ^ 32]: what is lost on the way there is
    lost on the way back. *)
Lemma unit_roundtrip n unit : 0 ≤ n → 0 < unit ≤ 2 ^ 32 →
  (n * 2 ^ 32 / unit) * unit / 2 ^ 32 = n - (if (n * 2 ^ 32) `mod` unit =? 0 then 0 else 1).
Proof.
  intros Hn Hu. pose proof (Z.div_mod (n * 2 ^ 32) unit ltac:(lia)) as E.
  pose proof (Z.mod_pos_bound (n * 2 ^ 32) unit ltac:(lia)) as Hr.
  set (q := n * 2 ^ 32 / unit) in *. set (r := (n * 2 ^ 32) `mod` unit) in *.
  symmetry. destruct (Z.eqb_spec r 0).
  - apply (Z.div_unique_pos _ _ _ 0); lia.
  - apply (Z.div_unique_pos _ _ _ (2 ^ 32 - r)); lia.
Qed.

(** A power of two in [unit] does not matter for divisibility. *)
Lemma unit_divides n odd m : 0 < odd → 0 < m → Z.gcd odd (2 ^ 32) = 1 → (m | 2 ^ 32) →
  ((n * 2 ^ 32) `mod` (m * odd) =? 0) = (n `mod` odd =? 0).
Proof.
  intros Ho Hm Hg [c Hc]. apply eq_true_iff_eq. rewrite !Z.eqb_eq, !Z.mod_divide by lia. split.
  - intros [k Hk]. apply (Z.gauss _ (2 ^ 32)); [|done]. exists (k * m). rewrite (Z.mul_comm _ n), Hk. ring.
  - intros [k ->]. exists (k * c). rewrite Hc. ring.
Qed.

(** Writing a [timeval] or a [timespec] to an ERF record and reading it back keeps
    the seconds; the fraction comes back one unit too small, except that of a
    multiple of 1/64 second (microseconds) or 1/512 second (nanoseconds), which
    comes back exactly. *)
Theorem timestamp_erf_roundtrip tv ts p :
  source_ok (SrcTimeval tv) → source_ok (SrcTimespec ts) →
  (let! e := trace_get_erf_timestamp (source_format (SrcTimeval tv)) p in
   trace_get_timeval (source_format (SrcErf e)) p)
  = Ok {| tv_sec := tv_sec tv; tv_usec := tv_usec tv - (if tv_usec tv `mod` 15625 =? 0 then 0 else 1) |} ∧
  (let! e := trace_get_erf_timestamp (source_format (SrcTimespec ts)) p in
   trace_get_timespec (source_format (SrcErf e)) p)
  = Ok {| ts_sec := ts_sec ts; ts_nsec := ts_nsec ts - (if ts_nsec ts `mod` 1953125 =? 0 then 0 else 1) |}.
Proof.
  intros [Hs Hu] [Hs' Hn]. split.
  - unfold trace_get_erf_timestamp, trace_get_timeval.
    cbn [source_format tf_get_timespec tf_get_timeval tf_get_erf_timestamp obind].
    destruct (join_erf_floor (tv_sec tv) (tv_usec tv) 1000000) as [-> Hr]; [lia..|].
    set (e := _ / 1000000) in *. destruct (split_erf_ok e 1000000 Hr) as [-> _]; [lia|].
    pose proof (erf_parts (tv_sec tv) (tv_usec tv) 1000000 ltac:(lia) ltac:(lia) ltac:(lia)) as [E1 E2].
    fold e in E1, E2. rewrite E1, E2, unit_roundtrip by lia.
    change 1000000 with (64 * 15625). by rewrite unit_divides by (lia || done || by exists (2 ^ 26)).
  - unfold trace_get_erf_timestamp, trace_get_timespec.
    cbn [source_format tf_get_timespec tf_get_timeval tf_get_erf_timestamp obind].
    destruct (join_erf_floor (ts_sec ts) (ts_nsec ts) 1000000000) as [-> Hr]; [lia..|].
    set (e := _ / 1000000000) in *. destruct (split_erf_ok e 1000000000 Hr) as [-> _]; [lia|].
    pose proof (erf_parts (ts_sec ts) (ts_nsec ts) 1000000000 ltac:(lia) ltac:(lia) ltac:(lia)) as [E1 E2].
    fold e in E1, E2. rewrite E1, E2, unit_roundtrip by lia.
    change 1000000000 with (512 * 1953125). by rewrite unit_divides by (lia || done || by exists (2 ^ 23)).
Qed.

(** A format that reports doubles: the fraction of a second is lost, since it is
    divided by [UINT_MAX] although it is not a fixed-point number. *)
Theorem seconds_lose_their_fraction p :
  let half := ddiv (double_of_int 3) (double_of_int 2) in
  let fmt := {| tf_get_erf_timestamp := None; tf_get_timespec := None; tf_get_timeval := None;
                tf_get_seconds := Some (λ _, half) |} in
  trace_get_timeval fmt p = Ok {| tv_sec := 1; tv_usec := 0 |} ∧
  trace_get_timespec fmt p = Ok {| ts_sec := 1; ts_nsec := 0 |} ∧
  trace_get_erf_timestamp fmt p = Ok (2 ^ 32 + (2 ^ 31 - 1)).
Proof. split_and!; vm_compute; reflexivity. Qed.

(** ** Concrete packets *)
Definition sample_time_packet : libtrace_packet_t :=
  {| pk_header := []; pk_mem := []; pk_payload := 0; pk_type := 0; pk_capture_length := -1; pk_wire_length := -1;
     pk_payload_length := -1; pk_l2_header := None; pk_link_type := None; pk_l2_remaining := 0;
     pk_l3_header := None; pk_l3_ethertype := 0; pk_l3_remaining := 0; pk_l4_header := None;
     pk_transport_proto := 0; pk_l4_remaining := 0 |}.

Lemma timestamps_round_down_witness :
  let s := SrcErf 6764573491200000000 in
  trace_get_erf_timestamp (source_format s) sample_time_packet = Ok (in_units s (2 ^ 32)) ∧
  (∃ tv, trace_get_timeval (source_format s) sample_time_packet = Ok tv ∧
     tv_sec tv * 10 ^ 6 + tv_usec tv = in_units s (10 ^ 6) ∧ 0 ≤ tv_usec tv < 10 ^ 6) ∧
  (∃ ts, trace_get_timespec (source_format s) sample_time_packet = Ok ts ∧
     ts_sec ts * 10 ^ 9 + ts_nsec ts = in_units s (10 ^ 9) ∧ 0 ≤ ts_nsec ts < 10 ^ 9).
Proof. intros s. apply (timestamps_round_down s sample_time_packet). cbn. lia. Defined.

Lemma timestamp_erf_roundtrip_witness :
  (let! e := trace_get_erf_timestamp (source_format (SrcTimeval {| tv_sec := 1500000000; tv_usec := 7 |}))
               sample_time_packet in
   trace_get_timeval (source_format (SrcErf e)) sample_time_packet)
  = Ok {| tv_sec := 1500000000; tv_usec := 6 |}.
Proof.
  apply (timestamp_erf_roundtrip {| tv_sec := 1500000000; tv_usec := 7 |} {| ts_sec := 0; ts_nsec := 0 |});
    cbn; lia.
Defined.
