(* ===== verification/Wireless.v ===== *)
(** * Wireless headers: lib/link_wireless.c

    A Radiotap header is eight bytes, the last four of which say which fields
    follow; the fields lie behind each other in the order of their numbers.  The
    functions find a field and read it, directly or behind a Linux SLL header. *)

From S2P Require Import Prelude Byteswap Packet PktMeta.
Local Open Scope Z_scope.
Local Open Scope outcome_scope.

Inductive libtrace_radiotap_field_t :=
| TRACE_RADIOTAP_TSFT
| TRACE_RADIOTAP_FLAGS
| TRACE_RADIOTAP_RATE
| TRACE_RADIOTAP_CHANNEL
| TRACE_RADIOTAP_FHSS
| TRACE_RADIOTAP_DBM_ANTSIGNAL
| TRACE_RADIOTAP_DBM_ANTNOISE
| TRACE_RADIOTAP_LOCK_QUALITY
| TRACE_RADIOTAP_TX_ATTENUATION
| TRACE_RADIOTAP_DB_TX_ATTENUATION
| TRACE_RADIOTAP_DBM_TX_POWER
| TRACE_RADIOTAP_ANTENNA
| TRACE_RADIOTAP_DB_ANTSIGNAL
| TRACE_RADIOTAP_DB_ANTNOISE
| TRACE_RADIOTAP_RX_FLAGS
| TRACE_RADIOTAP_TX_FLAGS
| TRACE_RADIOTAP_RTS_RETRIES
| TRACE_RADIOTAP_DATA_RETRIES
| TRACE_RADIOTAP_EXT.

#[export] Instance radiotap_field_eq_dec : EqDecision libtrace_radiotap_field_t.
Proof. solve_decision. Defined.

Definition field_bit (f : libtrace_radiotap_field_t) : Z :=
  match f with
  | TRACE_RADIOTAP_TSFT => 0 | TRACE_RADIOTAP_FLAGS => 1 | TRACE_RADIOTAP_RATE => 2
  | TRACE_RADIOTAP_CHANNEL => 3 | TRACE_RADIOTAP_FHSS => 4 | TRACE_RADIOTAP_DBM_ANTSIGNAL => 5
  | TRACE_RADIOTAP_DBM_ANTNOISE => 6 | TRACE_RADIOTAP_LOCK_QUALITY => 7
  | TRACE_RADIOTAP_TX_ATTENUATION => 8 | TRACE_RADIOTAP_DB_TX_ATTENUATION => 9
  | TRACE_RADIOTAP_DBM_TX_POWER => 10 | TRACE_RADIOTAP_ANTENNA => 11
  | TRACE_RADIOTAP_DB_ANTSIGNAL => 12 | TRACE_RADIOTAP_DB_ANTNOISE => 13
  | TRACE_RADIOTAP_RX_FLAGS => 14 | TRACE_RADIOTAP_TX_FLAGS => 15
  | TRACE_RADIOTAP_RTS_RETRIES => 16 | TRACE_RADIOTAP_DATA_RETRIES => 17
  | TRACE_RADIOTAP_EXT => 31
  end.

(** [ALIGN_NATURAL_16(p, s)]; pointers are offsets. *)
Definition ALIGN_NATURAL_16 (p s : Z) : Z := if (p - s) `mod` 2 =? 0 then p else p + 1.

(** The tests of [trace_get_radiotap_field], in its order: the field, whether its
    position is aligned before it is returned, and by how much it is skipped. *)
Definition radiotap_steps : list (libtrace_radiotap_field_t * bool * Z) :=
  [(TRACE_RADIOTAP_TSFT, false, 8); (TRACE_RADIOTAP_FLAGS, false, 1); (TRACE_RADIOTAP_RATE, false, 1);
   (TRACE_RADIOTAP_CHANNEL, true, 4); (TRACE_RADIOTAP_FHSS, true, 2);
   (TRACE_RADIOTAP_DBM_ANTSIGNAL, false, 1); (TRACE_RADIOTAP_DBM_ANTNOISE, false, 1);
   (TRACE_RADIOTAP_LOCK_QUALITY, true, 2); (TRACE_RADIOTAP_TX_ATTENUATION, true, 2);
   (TRACE_RADIOTAP_DB_TX_ATTENUATION, true, 2); (TRACE_RADIOTAP_DBM_TX_POWER, false, 1);
   (TRACE_RADIOTAP_ANTENNA, false, 1); (TRACE_RADIOTAP_DB_ANTSIGNAL, false, 1);
   (TRACE_RADIOTAP_DB_ANTNOISE, false, 0)].

(** [if (field == g) return p (aligned); if (present & (1 << g)) p += size;] for
    every step. *)
Fixpoint walk_fields (steps : list (libtrace_radiotap_field_t * bool * Z)) (present : Z)
    (field : libtrace_radiotap_field_t) (p s : Z) : option Z :=
  match steps with
  | [] => None
  | (g, align, size) :: steps' =>
      if decide (field = g) then Some (if align then ALIGN_NATURAL_16 p s else p)
      else walk_fields steps' present field
             (if Z.land present (Z.shiftl 1 (field_bit g)) =? 0 then p else p + size) s
  end.

(** The loop over extended bitmasks has no bound of its own; in a finite memory
    it ends at the latest at its end. *)
Fixpoint skip_bitmasks (fuel : nat) (mem : list Z) (p : Z) : outcome Z :=
  match fuel with
  | O => Fault OutOfFuel
  | S fuel' =>
      let! w := read32 mem p in
      if Z.land w (Z.shiftl 1 31) =? 0 then Ok p else skip_bitmasks fuel' mem (p + 4)
  end.

Definition trace_get_radiotap_field (mem : list Z) (link : Z) (field : libtrace_radiotap_field_t)
  : outcome (option Z) :=
  let! present := read32 mem (link + 4) in
  if Z.land present (Z.shiftl 1 (field_bit field)) =? 0 then Ok None
  else
    let! p := skip_bitmasks (S (length mem)) mem (link + 4) in
    let p := p + 4 in
    Ok (walk_fields radiotap_steps present field p p).

(** ** Reading the fields

    All the functions have the same shape; [read] is how the field is read.  Behind
    a Linux SLL header they call themselves; [None] is the result [false]. *)
Fixpoint get_wireless (fuel : nat) (field : libtrace_radiotap_field_t)
    (read : list Z → Z → outcome Z) (mem : list Z) (link : option Z)
    (linktype : libtrace_linktype_t) : outcome (option Z) :=
  match fuel with
  | O => Fault OutOfFuel
  | S fuel' =>
      match link with
      | None => Ok None
      | Some link =>
          match linktype with
          | TRACE_TYPE_80211_RADIO =>
              let! p := trace_get_radiotap_field mem link field in
              match p with
              | Some p => let! v := read mem p in Ok (Some v)
              | None => Ok None
              end
          | TRACE_TYPE_LINUX_SLL =>
              let! ' (l, type, _, _) := trace_get_payload_from_linux_sll mem link (Some 0) None None in
              get_wireless fuel' field read mem l (arphrd_type_to_libtrace (default 0 type))
          | _ => Ok None
          end
      end
  end.

(** An [int8_t] field. *)
Definition read_i8 (mem : list Z) (p : Z) : outcome Z := let! v := read8 mem p in Ok (i8 v).

(** The header behind an SLL header is never an SLL header again: two rounds are
    enough. *)
Definition trace_get_wireless_tsft := get_wireless 2 TRACE_RADIOTAP_TSFT read64.
Definition trace_get_wireless_flags := get_wireless 2 TRACE_RADIOTAP_FLAGS read8.
Definition trace_get_wireless_rate := get_wireless 2 TRACE_RADIOTAP_RATE read8.
Definition trace_get_wireless_freq := get_wireless 2 TRACE_RADIOTAP_CHANNEL read16.
Definition trace_get_wireless_signal_strength_dbm := get_wireless 2 TRACE_RADIOTAP_DBM_ANTSIGNAL read_i8.
Definition trace_get_wireless_noise_strength_dbm := get_wireless 2 TRACE_RADIOTAP_DBM_ANTNOISE read_i8.
Definition trace_get_wireless_signal_strength_db := get_wireless 2 TRACE_RADIOTAP_DB_ANTSIGNAL read8.
Definition trace_get_wireless_noise_strength_db := get_wireless 2 TRACE_RADIOTAP_DB_ANTNOISE read8.
Definition trace_get_wireless_tx_attenuation := get_wireless 2 TRACE_RADIOTAP_TX_ATTENUATION read16.
Definition trace_get_wireless_tx_attenuation_db := get_wireless 2 TRACE_RADIOTAP_DB_TX_ATTENUATION read16.
Definition trace_get_wireless_tx_power_dbm := get_wireless 2 TRACE_RADIOTAP_DBM_TX_POWER read_i8.
Definition trace_get_wireless_antenna := get_wireless 2 TRACE_RADIOTAP_ANTENNA read8.

(** ** The layout of a Radiotap header

    The documentation gives every field a type; a field lies behind the present
    fields before it, at the next multiple of its type's size, counted from the
    start of the header: type size and number of values. *)
Definition radiotap_types : list (libtrace_radiotap_field_t * Z * Z) :=
  [(TRACE_RADIOTAP_TSFT, 8, 1); (TRACE_RADIOTAP_FLAGS, 1, 1); (TRACE_RADIOTAP_RATE, 1, 1);
   (TRACE_RADIOTAP_CHANNEL, 2, 2); (TRACE_RADIOTAP_FHSS, 1, 2);
   (TRACE_RADIOTAP_DBM_ANTSIGNAL, 1, 1); (TRACE_RADIOTAP_DBM_ANTNOISE, 1, 1);
   (TRACE_RADIOTAP_LOCK_QUALITY, 2, 1); (TRACE_RADIOTAP_TX_ATTENUATION, 2, 1);
   (TRACE_RADIOTAP_DB_TX_ATTENUATION, 2, 1); (TRACE_RADIOTAP_DBM_TX_POWER, 1, 1);
   (TRACE_RADIOTAP_ANTENNA, 1, 1); (TRACE_RADIOTAP_DB_ANTSIGNAL, 1, 1);
   (TRACE_RADIOTAP_DB_ANTNOISE, 1, 1)].

Definition round_up (off unit : Z) : Z := (off + unit - 1) / unit * unit.

(** Field [field] and the padding that the fields before it need. *)
Fixpoint layout (types : list (libtrace_radiotap_field_t * Z * Z)) (has : libtrace_radiotap_field_t → bool)
    (field : libtrace_radiotap_field_t) (off pad : Z) : option (Z * Z) :=
  match types with
  | [] => None
  | (g, unit, n) :: types' =>
      if decide (field = g) then Some (round_up off unit, pad)
      else if has g then layout types' has field (round_up off unit + unit * n)
                           (pad + (round_up off unit - off))
      else layout types' has field off pad
  end.

(** ** Lemmas *)
Definition has_field (present : Z) (f : libtrace_radiotap_field_t) : bool :=
  negb (Z.land present (Z.shiftl 1 (field_bit f)) =? 0).

Lemma round_up_1 off : round_up off 1 = off.
Proof. unfold round_up. rewrite Z.div_1_r. lia. Qed.

Lemma round_up_2 off : round_up off 2 = if off `mod` 2 =? 0 then off else off + 1.
Proof.
  unfold round_up. pose proof (Z.div_mod off 2 ltac:(lia)). pose proof (Z.mod_pos_bound off 2 ltac:(lia)).
  destruct (Z.eqb_spec (off `mod` 2) 0).
  - replace ((off + 2 - 1) / 2) with (off / 2); [lia|]. apply (Z.div_unique_pos _ _ _ 1); lia.
  - replace ((off + 2 - 1) / 2) with (off / 2 + 1); [lia|]. apply (Z.div_unique_pos _ _ _ 0); lia.
Qed.

Definition small_unit (t : libtrace_radiotap_field_t * Z * Z) : Prop := t.1.2 = 1 ∨ t.1.2 = 2.

Lemma round_up_ge off unit : unit = 1 ∨ unit = 2 → off ≤ round_up off unit.
Proof.
  intros [->| ->]; [by rewrite round_up_1|]. rewrite round_up_2. destruct (_ =? _); lia.
Qed.

Lemma layout_pad types has f : Forall small_unit types → ∀ off pad o pad',
  layout types has f off pad = Some (o, pad') → pad ≤ pad'.
Proof.
  induction 1 as [|[[g unit] n] types Hu _ IH]; intros off pad o pad' H; [done|]. cbn [layout] in H.
  pose proof (round_up_ge off unit Hu). case_decide; [injection H as <- <-; lia|].
  destruct (has g); apply IH in H; lia.
Qed.

(** A step of the code that treats its field as the layout does. *)
Definition step_matches (c : libtrace_radiotap_field_t * bool * Z) (t : libtrace_radiotap_field_t * Z * Z) : Prop :=
  c.1.1 = t.1.1 ∧ c.2 = t.1.2 * t.2 ∧
  (t.1.2 = 1 ∧ (c.1.2 = true → c.1.1 = TRACE_RADIOTAP_FHSS) ∨ t.1.2 = 2 ∧ c.1.2 = true).

(** The fields behind TSFT, the last of which is never skipped. *)
Lemma walk_layout steps types present field s base : Forall2 step_matches steps types →
  field ≠ TRACE_RADIOTAP_FHSS → base `mod` 2 = 0 → ∀ off o,
  layout (types ++ [(TRACE_RADIOTAP_DB_ANTNOISE, 1, 1)]) (has_field present) field off 0 = Some (o, 0) →
  walk_fields (steps ++ [(TRACE_RADIOTAP_DB_ANTNOISE, false, 0)]) present field (s + off - base) s
  = Some (s + o - base).
Proof.
  intros Hm Hf Hb. induction Hm as [|[[g al] size] [[g' unit] n] steps types (Eg & Es & Hu) Hm IH];
    intros off o H; cbn [app walk_fields layout] in *.
  - case_decide as Hd; [|by destruct (has_field present TRACE_RADIOTAP_DB_ANTNOISE)].
    injection H as <-. by rewrite round_up_1.
  - cbn in Eg, Es, Hu. subst g' size.
    assert (Forall small_unit (types ++ [(TRACE_RADIOTAP_DB_ANTNOISE, 1, 1)])) as Hsm.
    { apply Forall_app. split; [|by repeat constructor]. clear -Hm.
      induction Hm as [|? ? ? ? (_ & _ & Hu)]; constructor; [|done]. unfold small_unit. tauto. }
    case_decide as Hd.
    + injection H as Ho. subst. f_equal. destruct Hu as [[-> Hal]|[-> ->]].
      * rewrite round_up_1. destruct al; [|done]. by destruct Hf; rewrite Hal.
      * rewrite round_up_2. unfold ALIGN_NATURAL_16. replace (s + off - base - s) with (off - base) by lia.
        rewrite Zminus_mod, Hb, Z.sub_0_r, Zmod_mod. destruct (_ =? _); lia.
    + unfold has_field in H at 1. destruct (Z.land present _ =? 0); cbn [negb] in H; [by apply IH|].
      assert (unit = 1 ∨ unit = 2) as Hun by tauto. pose proof (round_up_ge off unit Hun).
      pose proof (layout_pad _ _ _ Hsm _ _ _ _ H) as Hp.
      assert (round_up off unit = off) as Er by lia. rewrite Er, Z.sub_diag, Z.add_0_r in H.
      apply IH in H. rewrite <- H. f_equal. lia.
Qed.

Lemma steps_match : Forall2 step_matches (tail (take 13 radiotap_steps)) (tail (take 13 radiotap_types)).
Proof.
  cbn [radiotap_steps radiotap_types take tail].
  repeat (apply Forall2_cons; split; [split_and!; [done..|cbn; try (by left; split); by right]|]).
  constructor.
Qed.

(** Finding a field of a header with one bitmask. *)
Lemma radiotap_field_walk mem link present field :
  read32 mem (link + 4) = Ok present → has_field present TRACE_RADIOTAP_EXT = false →
  has_field present field = true →
  trace_get_radiotap_field mem link field
  = Ok (walk_fields radiotap_steps present field (link + 8) (link + 8)).
Proof.
  intros Hr He Hf. unfold trace_get_radiotap_field. rewrite Hr. cbn [obind].
  unfold has_field in *. apply negb_true_iff in Hf. rewrite Hf. cbn [skip_bitmasks]. rewrite Hr. cbn [obind].
  apply negb_false_iff in He. change (field_bit TRACE_RADIOTAP_EXT) with 31 in He. rewrite He. cbn [obind].
  by replace (link + 4 + 4) with (link + 8) by lia.
Qed.

(** ** Theorems *)

(** C31: In a Radiotap header with a single bitmask, a field is found exactly where the
    documented layout puts it, provided that no field before it is preceded by
    padding (any field but FHSS, which no function reads). *)
Theorem radiotap_field_position mem link present field off :
  read32 mem (link + 4) = Ok present → has_field present TRACE_RADIOTAP_EXT = false →
  has_field present field = true → field ≠ TRACE_RADIOTAP_FHSS →
  layout radiotap_types (has_field present) field 8 0 = Some (off, 0) →
  trace_get_radiotap_field mem link field = Ok (Some (link + off)).
Proof.
  intros Hr He Hf Hne Hl. rewrite (radiotap_field_walk _ _ _ _ Hr He Hf). f_equal.
  change radiotap_steps with ((TRACE_RADIOTAP_TSFT, false, 8) :: tail (take 13 radiotap_steps) ++ [(TRACE_RADIOTAP_DB_ANTNOISE, false, 0)]).
  change radiotap_types with ((TRACE_RADIOTAP_TSFT, 8, 1) :: tail (take 13 radiotap_types) ++ [(TRACE_RADIOTAP_DB_ANTNOISE, 1, 1)]) in Hl.
  cbn [walk_fields layout] in *. change (round_up 8 8) with 8 in Hl. case_decide; [by injection Hl as <-|].
  unfold has_field in Hl at 1. destruct (Z.land present (Z.shiftl 1 (field_bit TRACE_RADIOTAP_TSFT)) =? 0); cbn [negb] in Hl.
  - apply (walk_layout _ _ present field (link + 8) 8 steps_match Hne) in Hl; [|done].
    replace (link + 8 + 8 - 8) with (link + 8) in Hl by lia. rewrite Hl. f_equal. lia.
  - change (0 + (8 - 8)) with 0 in Hl. change (8 + 8 * 1) with 16 in Hl.
    apply (walk_layout _ _ present field (link + 8) 8 steps_match Hne) in Hl; [|done].
    replace (link + 8 + 16 - 8) with (link + 8 + 8) in Hl by lia. rewrite Hl. f_equal. lia.
Qed.

(** Skipping a field forgets its padding: in every header with the flags but no
    rate, the channel and the signal strength, the signal strength is read one
    byte before its place. *)
Theorem radiotap_signal_misplaced mem link present off pad :
  read32 mem (link + 4) = Ok present → has_field present TRACE_RADIOTAP_EXT = false →
  has_field present TRACE_RADIOTAP_FLAGS = true → has_field present TRACE_RADIOTAP_RATE = false →
  has_field present TRACE_RADIOTAP_CHANNEL = true → has_field present TRACE_RADIOTAP_DBM_ANTSIGNAL = true →
  layout radiotap_types (has_field present) TRACE_RADIOTAP_DBM_ANTSIGNAL 8 0 = Some (off, pad) →
  trace_get_radiotap_field mem link TRACE_RADIOTAP_DBM_ANTSIGNAL = Ok (Some (link + off - 1)).
Proof.
  intros Hr He Hfl Hra Hch Hsi Hl. rewrite (radiotap_field_walk _ _ _ _ Hr He Hsi). f_equal.
  lazy -[has_field round_up Z.add Z.sub Z.mul] in Hl. rewrite Hfl, Hra, Hch, !round_up_1 in Hl.
  lazy -[field_bit Z.land Z.shiftl Z.eqb Z.add].
  unfold has_field in *. apply negb_true_iff in Hfl, Hch. apply negb_false_iff in Hra. rewrite Hfl, Hch, Hra.
  destruct (Z.land present (Z.shiftl 1 (field_bit TRACE_RADIOTAP_TSFT)) =? 0),
    (Z.land present (Z.shiftl 1 (field_bit TRACE_RADIOTAP_FHSS)) =? 0); cbn [negb] in Hl;
    injection Hl as <- _; f_equal; rewrite ?round_up_2;
    match goal with |- context [?a =? 0] => change (a =? 0) with false end; change (round_up 8 8) with 8; lia.
Qed.

(** Behind a Linux SLL header there is no second SLL header, so two rounds are
    always enough: the functions do not call themselves more than once. *)
Theorem wireless_recursion_ends mem field read link linktype n :
  get_wireless (2 + n) field read mem link linktype = get_wireless 2 field read mem link linktype.
Proof.
  destruct link as [link|]; [|done]. destruct linktype; try done. cbn [get_wireless Nat.add].
  unfold trace_get_payload_from_linux_sll. cbn [consume store_if obind].
  destruct (be16 mem (link + 2)) as [v|]; cbn [obind default]; [|done].
  destruct n; unfold arphrd_type_to_libtrace; by repeat destruct (_ =? _).
Qed.

(** ** Concrete headers

    Flags (0x10), rate (0x02), channel (2412 MHz) and signal strength (-60 dBm); and
    the same without the rate. *)
Definition radiotap_sample : list Z :=
  [0; 0; 15; 0; 0x2E; 0; 0; 0; 0x10; 0x02; 0x6C; 0x09; 0xA0; 0; 0xC4].
Definition radiotap_unaligned : list Z :=
  [0; 0; 15; 0; 0x2A; 0; 0; 0; 0x10; 0; 0x6C; 0x09; 0xA0; 0; 0xC4].

Lemma radiotap_field_position_witness :
  trace_get_radiotap_field radiotap_sample 0 TRACE_RADIOTAP_DBM_ANTSIGNAL = Ok (Some (0 + 14)).
Proof. by apply (radiotap_field_position radiotap_sample 0 0x2E). Defined.

Lemma radiotap_signal_misplaced_witness :
  trace_get_radiotap_field radiotap_unaligned 0 TRACE_RADIOTAP_DBM_ANTSIGNAL = Ok (Some (0 + 14 - 1)).
Proof. by apply (radiotap_signal_misplaced radiotap_unaligned 0 0x2A 14 1). Defined.

Example wireless_signal_found :
  trace_get_wireless_signal_strength_dbm radiotap_sample (Some 0) TRACE_TYPE_80211_RADIO = Ok (Some (-60)).
Proof. reflexivity. Qed.
