(* ===== verification/FormatHelper.v ===== *)
(** * Files and errors: lib/format_helper.c

    Trace files are read and written through libwandio, which is not part of this
    repository: its calls are the operations of the class [Wandio], and what the
    format modules rely on is the class [WandioFile], which relates a handle to
    the bytes of a file.  The error of a trace is its error number; the message
    is not modelled. *)

From S2P Require Import Prelude.
Local Open Scope Z_scope.
Local Open Scope outcome_scope.

(** [wandio_read] returns the handle after the call, the bytes stored and the
    return value; [wandio_peek] the same without moving.  [errno] is what the
    variable holds after the last call on a handle. *)
Class Wandio := {
  io_t : Type;
  iow_t : Type;
  wandio_create : list Z → option io_t;
  wandio_read : io_t → Z → io_t * list Z * Z;
  wandio_peek : io_t → Z → io_t * list Z * Z;
  wandio_wcreate : list Z → Z → Z → Z → option iow_t;
  wandio_wwrite : iow_t → list Z → iow_t * Z;
  errno_open : Z;
  errno_read : io_t → Z;
  errno_write : iow_t → Z;
}.

(** A handle for reading stands before the rest of a file, of which as many bytes
    are read as are wanted and there; a handle for writing stands behind what
    has been written. *)
Class WandioFile (W : Wandio) := {
  io_rest : io_t → list Z;
  iow_bytes : iow_t → list Z;
  wandio_read_spec : ∀ io n, 0 ≤ n →
    ∃ io', wandio_read io n = (io', take (Z.to_nat n) (io_rest io), Z.min n (Zlen (io_rest io))) ∧
      io_rest io' = drop (Z.to_nat n) (io_rest io);
  wandio_wwrite_spec : ∀ iow bs,
    ∃ iow', wandio_wwrite iow bs = (iow', Zlen bs) ∧ iow_bytes iow' = iow_bytes iow ++ bs;
}.

(** Files in memory: a handle is the list of the bytes. *)
#[export] Instance memory_wandio : Wandio := {
  io_t := list Z;
  iow_t := list Z;
  wandio_create uri := Some [];
  wandio_read io n := (drop (Z.to_nat n) io, take (Z.to_nat n) io, Z.min n (Zlen io));
  wandio_peek io n := (io, take (Z.to_nat n) io, Z.min n (Zlen io));
  wandio_wcreate uri compress level flag := Some [];
  wandio_wwrite io bs := (io ++ bs, Zlen bs);
  errno_open := 0;
  errno_read io := 0;
  errno_write io := 0;
}.

#[export, refine] Instance memory_wandio_file : WandioFile memory_wandio := {
  io_rest io := io;
  iow_bytes io := io;
}.
Proof.
  - intros io n Hn. by eexists.
  - intros iow bs. by eexists.
Defined.

(** ** Errors *)
Abbreviation TRACE_ERR_NOERROR := 0.
Abbreviation TRACE_ERR_BAD_FORMAT := (-1).
Abbreviation TRACE_ERR_INIT_FAILED := (-2).
Abbreviation TRACE_ERR_UNKNOWN_OPTION := (-3).
Abbreviation TRACE_ERR_NO_CONVERSION := (-4).
Abbreviation TRACE_ERR_BAD_PACKET := (-5).
Abbreviation TRACE_ERR_OPTION_UNAVAIL := (-6).
Abbreviation TRACE_ERR_UNSUPPORTED := (-7).
Abbreviation TRACE_ERR_BAD_STATE := (-8).
Abbreviation TRACE_ERR_BAD_FILTER := (-9).
Abbreviation TRACE_ERR_UNSUPPORTED_COMPRESS := (-11).

(** The new error number; an error number of 0 fails the assertion. *)
Definition trace_set_err (errcode : Z) : outcome Z :=
  let! _ := oassert (negb (errcode =? 0)) in Ok errcode.

Definition trace_set_err_out (errcode : Z) : outcome Z :=
  let! _ := oassert (negb (errcode =? 0)) in Ok errcode.

(** ** Opening files

    The handle and, if there is none, the error. *)
Definition trace_open_file `{Wandio} (uridata : list Z) : outcome (option io_t * option Z) :=
  match wandio_create uridata with
  | Some io => Ok (Some io, None)
  | None =>
      let! err := trace_set_err (if negb (errno_open =? 0) then errno_open
                                 else TRACE_ERR_UNSUPPORTED_COMPRESS) in
      Ok (None, Some err)
  end.

Abbreviation TRACE_OPTION_COMPRESSTYPE_LAST := 5.

Definition trace_open_file_out `{Wandio} (uridata : list Z) (compress_type level fileflag : Z)
  : outcome (option iow_t * option Z) :=
  if (level <? 0) || (9 <? level) then
    let! err := trace_set_err_out TRACE_ERR_UNSUPPORTED_COMPRESS in Ok (None, Some err)
  else if (compress_type <? 0) || (TRACE_OPTION_COMPRESSTYPE_LAST <=? compress_type) then
    let! err := trace_set_err_out TRACE_ERR_UNSUPPORTED_COMPRESS in Ok (None, Some err)
  else
    match wandio_wcreate uridata compress_type level fileflag with
    | Some io => Ok (Some io, None)
    | None => let! err := trace_set_err_out errno_open in Ok (None, Some err)
    end.
