(* ===== verification/PcapFile.v ===== *)
(** * pcap files: lib/format_pcapfile.c, and demote_packet of lib/linktypes.c

    A pcap file is a header of 24 bytes, whose magic number says in which byte
    order the numbers are and whether times are in nanoseconds, and records of a
    16-byte header and the captured bytes.

    A packet object is the packet together with its memory: the allocated buffer
    holds the framing header ([pk_header]) and, behind it, the memory in which
    the payload lies ([pk_mem]). *)

From S2P Require Import Prelude Byteswap Packet PktMeta Layer2 Linktypes Wireless Timestamps FormatHelper.
Local Open Scope Z_scope.
Local Open Scope outcome_scope.

Inductive buf_control_t := TRACE_CTRL_PACKET | TRACE_CTRL_EXTERNAL.
#[export] Instance buf_control_eq_dec : EqDecision buf_control_t.
Proof. solve_decision. Defined.

(** [o_buffer], [o_header] and [o_payload]: the pointers are not null. *)
Record packet_obj := {
  o_pkt : libtrace_packet_t;
  o_buffer : bool;
  o_header : bool;
  o_payload : bool;
  o_buf_control : buf_control_t;
}.

Definition o_set_pkt (o : packet_obj) (p : libtrace_packet_t) : packet_obj :=
  {| o_pkt := p; o_buffer := o_buffer o; o_header := o_header o; o_payload := o_payload o;
     o_buf_control := o_buf_control o |}.

(** The contents of the packet's buffer, with a framing header of [n] bytes. *)
Definition pk_set_buffer (p : libtrace_packet_t) (buf : list Z) (n : Z) (type : Z) : libtrace_packet_t :=
  {| pk_header := take (Z.to_nat n) buf; pk_mem := drop (Z.to_nat n) buf; pk_payload := 0; pk_type := type;
     pk_capture_length := pk_capture_length p; pk_wire_length := pk_wire_length p;
     pk_payload_length := pk_payload_length p;
     pk_l2_header := pk_l2_header p; pk_link_type := pk_link_type p;
     pk_l2_remaining := pk_l2_remaining p; pk_l3_header := pk_l3_header p;
     pk_l3_ethertype := pk_l3_ethertype p; pk_l3_remaining := pk_l3_remaining p;
     pk_l4_header := pk_l4_header p; pk_transport_proto := pk_transport_proto p;
     pk_l4_remaining := pk_l4_remaining p |}.

Definition o_bytes (o : packet_obj) : list Z := pk_header (o_pkt o) ++ pk_mem (o_pkt o).

(** Storing bytes into a buffer, and taking bytes out of one. *)
Definition store (buf : list Z) (off : Z) (bs : list Z) : outcome (list Z) :=
  if (0 <=? off) && (off + Zlen bs <=? Zlen buf)
  then Ok (take (Z.to_nat off) buf ++ bs ++ drop (Z.to_nat (off + Zlen bs)) buf)
  else Fault OutOfBounds.

Definition slice (buf : list Z) (off n : Z) : outcome (list Z) :=
  if (0 <=? off) && (off + n <=? Zlen buf) then Ok (take (Z.to_nat n) (drop (Z.to_nat off) buf))
  else Fault OutOfBounds.

(** A function of a format's table is total: on a packet whose header is not
    there it has no meaning, 0 here. *)
Definition ok_or {A} (d : A) (c : outcome A) : A := match c with Ok a => a | Fault _ => d end.

(** ** The file header *)
Record pcapfile_header_t := {
  ph_magic_number : Z;
  ph_version_major : Z;
  ph_version_minor : Z;
  ph_thiszone : Z;
  ph_sigfigs : Z;
  ph_snaplen : Z;
  ph_network : Z;
}.

Abbreviation MAGIC1 := 0xa1b2c3d4.
Abbreviation MAGIC2 := 0xa1b23c4d.
Abbreviation MAGIC1_REV := 0xd4c3b2a1.
Abbreviation MAGIC2_REV := 0x4d3cb2a1.
Abbreviation sizeof_pcapfile_header := 24.
Abbreviation sizeof_pkt_hdr := 16.

Definition encode_pcapfile_header (h : pcapfile_header_t) : list Z :=
  bytes32 (ph_magic_number h) ++ bytes16 (ph_version_major h) ++ bytes16 (ph_version_minor h) ++
  bytes32 (ph_thiszone h) ++ bytes32 (ph_sigfigs h) ++ bytes32 (ph_snaplen h) ++ bytes32 (ph_network h).

Definition decode_pcapfile_header (b : list Z) : outcome pcapfile_header_t :=
  let! magic := read32 b 0 in
  let! major := read16 b 4 in
  let! minor := read16 b 6 in
  let! zone := read32 b 8 in
  let! sigfigs := read32 b 12 in
  let! snaplen := read32 b 16 in
  let! network := read32 b 20 in
  Ok {| ph_magic_number := magic; ph_version_major := major; ph_version_minor := minor;
        ph_thiszone := i32 zone; ph_sigfigs := sigfigs; ph_snaplen := snaplen; ph_network := network |}.

Definition header_is_backwards_magic (header : pcapfile_header_t) : bool :=
  (ph_magic_number header =? MAGIC1_REV) || (ph_magic_number header =? MAGIC2_REV).

Definition header_is_magic (header : pcapfile_header_t) : bool :=
  (ph_magic_number header =? MAGIC1) || (ph_magic_number header =? MAGIC2)
  || header_is_backwards_magic header.

Definition trace_in_nanoseconds (header : pcapfile_header_t) : bool :=
  (ph_magic_number header =? MAGIC2) || (ph_magic_number header =? MAGIC2_REV).

(** [data] is the file header of a trace, [None] for a trace without data. *)
Definition swaps (data : option pcapfile_header_t) (num : Z) : Z :=
  match data with
  | None => num
  | Some header => if header_is_backwards_magic header then byteswap16 num else num
  end.

Definition swapl (data : option pcapfile_header_t) (num : Z) : Z :=
  match data with
  | None => num
  | Some header => if header_is_backwards_magic header then byteswap32 num else num
  end.

Abbreviation TRACE_RADIOTAP_F_FCS := 0x10.
Abbreviation ETHERTYPE_LOOPBACK := 0x60.

(** ** What the header of a record says *)
Section record.
Variable data : option pcapfile_header_t.

Definition pcapfile_get_link_type (p : libtrace_packet_t) : outcome libtrace_linktype_t :=
  let! linktype := rt_to_pcap_linktype (pk_type p) in
  Ok (pcap_linktype_to_libtrace linktype).

Definition nanoseconds : bool :=
  match data with Some header => trace_in_nanoseconds header | None => false end.

Definition pcapfile_get_timeval (p : libtrace_packet_t) : outcome timeval :=
  let! sec := read32 (pk_header p) 0 in
  let! frac := read32 (pk_header p) 4 in
  Ok {| tv_sec := swapl data sec;
        tv_usec := if nanoseconds then swapl data frac / 1000 else swapl data frac |}.

Definition pcapfile_get_timespec (p : libtrace_packet_t) : outcome timespec :=
  let! sec := read32 (pk_header p) 0 in
  let! frac := read32 (pk_header p) 4 in
  Ok {| ts_sec := swapl data sec;
        ts_nsec := if nanoseconds then swapl data frac else u32 (swapl data frac * 1000) |}.

Definition pcapfile_get_capture_length (p : libtrace_packet_t) : outcome Z :=
  let! caplen := read32 (pk_header p) 8 in Ok (i32 (swapl data caplen)).

(** The link type is not cached by this function in the model: [trace_get_link_type]
    would only store what it returns. *)
Definition pcapfile_get_wire_length (p : libtrace_packet_t) : outcome Z :=
  let! wirelen := read32 (pk_header p) 12 in
  let wirelen := swapl data wirelen in
  if pk_type p =? pcap_linktype_to_rt TRACE_DLT_EN10MB then Ok (i32 (wirelen + 4))
  else if pk_type p =? pcap_linktype_to_rt TRACE_DLT_IEEE802_11_RADIO then
    let! linktype := pcapfile_get_link_type p in
    let linktype := default linktype (pk_link_type p) in
    let! flags := trace_get_wireless_flags (pk_mem p) (Some (pk_payload p)) linktype in
    match flags with
    | None => Fault Uninitialised
    | Some flags =>
        if Z.land flags TRACE_RADIOTAP_F_FCS =? 0 then Ok (i32 (wirelen + 4)) else Ok (i32 wirelen)
    end
  else if pk_type p =? pcap_linktype_to_rt TRACE_DLT_LINUX_SLL then
    let! protocol := be16 (pk_mem p) (pk_payload p + 14) in
    if protocol =? ETHERTYPE_LOOPBACK then Ok (i32 (wirelen + 4)) else Ok (i32 wirelen)
  else Ok (i32 wirelen).

Definition pcapfile_get_framing_length (p : libtrace_packet_t) : Z := sizeof_pkt_hdr.

Definition TRACE_DIR_OUTGOING : Z := 0.
Definition TRACE_DIR_INCOMING : Z := 1.

(** The direction is only known behind an SLL or a PFLOG header. *)
Definition pcapfile_get_direction (p : libtrace_packet_t) : outcome Z :=
  let! linktype := pcapfile_get_link_type p in
  match linktype with
  | TRACE_TYPE_LINUX_SLL =>
      let! pkttype := read16 (pk_mem p) (pk_payload p) in
      Ok (if negb (ntohs (if pkttype =? 0 then 1 else 0) =? 0) then TRACE_DIR_INCOMING else TRACE_DIR_OUTGOING)
  | TRACE_TYPE_PFLOG =>
      let! dir := read8 (pk_mem p) (pk_payload p + 45) in
      Ok (if negb (ntohs (if dir =? 0 then 1 else 0) =? 0) then TRACE_DIR_INCOMING else TRACE_DIR_OUTGOING)
  | _ => Ok (-1)
  end.

(** The length functions of the format, without [set_capture_length]; the code of
    the latter calls [trace_get_capture_length]. *)
Definition pcapfile_lengths : libtrace_format_t :=
  {| f_get_link_type := Some (λ p, ok_or TRACE_TYPE_UNKNOWN (pcapfile_get_link_type p));
     f_get_capture_length := Some (λ p, ok_or 0 (pcapfile_get_capture_length p));
     f_get_wire_length := Some (λ p, ok_or 0 (pcapfile_get_wire_length p));
     f_get_framing_length := Some pcapfile_get_framing_length;
     f_set_capture_length := None |}.

(** The header after the call, and the length returned. *)
Definition pcapfile_set_capture_length (p : libtrace_packet_t) (size : Z) : outcome (list Z * Z) :=
  let! ' (p, caplen) := trace_get_capture_length pcapfile_lengths p in
  if caplen <? size then Ok (pk_header p, caplen)
  else
    let! header := store (pk_header p) 8 (bytes32 (swapl data (u32 size))) in
    let p := pk_set_lengths p (-1) (pk_wire_length p) in
    let p := {| pk_header := header; pk_mem := pk_mem p; pk_payload := pk_payload p; pk_type := pk_type p;
                pk_capture_length := pk_capture_length p; pk_wire_length := pk_wire_length p;
                pk_payload_length := pk_payload_length p; pk_l2_header := pk_l2_header p;
                pk_link_type := pk_link_type p; pk_l2_remaining := pk_l2_remaining p;
                pk_l3_header := pk_l3_header p; pk_l3_ethertype := pk_l3_ethertype p;
                pk_l3_remaining := pk_l3_remaining p; pk_l4_header := pk_l4_header p;
                pk_transport_proto := pk_transport_proto p; pk_l4_remaining := pk_l4_remaining p |} in
    let! ' (p, caplen) := trace_get_capture_length pcapfile_lengths p in
    Ok (header, caplen).

Definition pcapfile_format : libtrace_format_t :=
  {| f_get_link_type := f_get_link_type pcapfile_lengths;
     f_get_capture_length := f_get_capture_length pcapfile_lengths;
     f_get_wire_length := f_get_wire_length pcapfile_lengths;
     f_get_framing_length := f_get_framing_length pcapfile_lengths;
     f_set_capture_length := Some (λ p size, ok_or (pk_header p, 0) (pcapfile_set_capture_length p size)) |}.

Definition pcapfile_time : time_format :=
  {| tf_get_erf_timestamp := None;
     tf_get_timespec := Some (λ p, ok_or {| ts_sec := 0; ts_nsec := 0 |} (pcapfile_get_timespec p));
     tf_get_timeval := Some (λ p, ok_or {| tv_sec := 0; tv_usec := 0 |} (pcapfile_get_timeval p));
     tf_get_seconds := None |}.
End record.

(** ** Reading *)
Section io.
Context {W : Wandio}.
(** What [malloc(LIBTRACE_PACKET_BUFSIZE)] finds in the memory. *)
Variable fresh : list Z.

Definition pcapfile_probe_magic (io : io_t) : outcome Z :=
  let '(_, bs, len) := wandio_peek io sizeof_pcapfile_header in
  if len <? sizeof_pcapfile_header then Ok 0
  else
    let! header := decode_pcapfile_header bs in
    Ok (if header_is_magic header then 1 else 0).

(** An input trace: its URI, its file, the format's data and the error. *)
Record pcapfile_trace := {
  pf_uridata : list Z;
  pf_io : option io_t;
  pf_header : pcapfile_header_t;
  pf_started : bool;
  pf_real_time : Z;
  pf_err : Z;
}.

Definition pf_set_err (t : pcapfile_trace) (err : Z) : pcapfile_trace :=
  {| pf_uridata := pf_uridata t; pf_io := pf_io t; pf_header := pf_header t; pf_started := pf_started t;
     pf_real_time := pf_real_time t; pf_err := err |}.

Definition pf_set_io (t : pcapfile_trace) (io : option io_t) (started : bool) : pcapfile_trace :=
  {| pf_uridata := pf_uridata t; pf_io := io; pf_header := pf_header t; pf_started := started;
     pf_real_time := pf_real_time t; pf_err := pf_err t |}.

(** [io] is the file that [guess_format] may have opened; the header is what
    [malloc] leaves. *)
Definition pcapfile_init_input (uridata : list Z) (io : option io_t) (header : pcapfile_header_t)
  : pcapfile_trace :=
  {| pf_uridata := uridata; pf_io := io; pf_header := header; pf_started := false; pf_real_time := 0;
     pf_err := TRACE_ERR_NOERROR |}.

Definition pf_fail (t : pcapfile_trace) (errcode : Z) : outcome (pcapfile_trace * Z) :=
  let! err := trace_set_err errcode in Ok (pf_set_err t err, -1).

Definition pcapfile_start_input (t : pcapfile_trace) : outcome (pcapfile_trace * Z) :=
  let! t :=
    match pf_io t with
    | Some _ => Ok t
    | None =>
        let! ' (io, err) := trace_open_file (pf_uridata t) in
        let t := pf_set_io t io false in
        Ok (match err with Some e => pf_set_err t e | None => t end)
    end in
  if pf_started t then Ok (t, 0)
  else
    match pf_io t with
    | None => Ok (t, -1)
    | Some io =>
        let '(io, bs, err) := wandio_read io sizeof_pcapfile_header in
        let t := pf_set_io t (Some io) true in
        if err <? 1 then pf_fail t TRACE_ERR_INIT_FAILED
        else if negb (err =? sizeof_pcapfile_header) then pf_fail t TRACE_ERR_INIT_FAILED
        else
          let! header := decode_pcapfile_header bs in
          let t := {| pf_uridata := pf_uridata t; pf_io := pf_io t; pf_header := header; pf_started := true;
                      pf_real_time := pf_real_time t; pf_err := pf_err t |} in
          if negb (header_is_magic header) then pf_fail t TRACE_ERR_INIT_FAILED
          else if negb (swaps (Some header) (ph_version_major header) =? 2)
                  && negb (swaps (Some header) (ph_version_minor header) =? 4)
          then pf_fail t TRACE_ERR_INIT_FAILED
          else Ok (t, 0)
    end.

(** [buffer] is the packet's own buffer if it is [None]. *)
Definition pcapfile_prepare_packet (o : packet_obj) (buffer : option (list Z)) (rt_type : Z) (own : bool)
  : packet_obj :=
  {| o_pkt := pk_set_buffer (o_pkt o) (default (o_bytes o) buffer) sizeof_pkt_hdr rt_type;
     o_buffer := true; o_header := true; o_payload := true;
     o_buf_control := if own then TRACE_CTRL_PACKET else TRACE_CTRL_EXTERNAL |}.

(** The packet with its buffer filled so far; header and payload pointers as they
    were. *)
Definition o_fill (o : packet_obj) (buf : list Z) (type : Z) : packet_obj :=
  {| o_pkt := pk_set_buffer (o_pkt o) buf sizeof_pkt_hdr type; o_buffer := true; o_header := o_header o;
     o_payload := o_payload o; o_buf_control := o_buf_control o |}.

Definition pcapfile_read_packet (t : pcapfile_trace) (o : packet_obj)
  : outcome (pcapfile_trace * packet_obj * Z) :=
  match pf_io t with
  | None => Fault NullDeref
  | Some io =>
      let data := Some (pf_header t) in
      let type := pcap_linktype_to_rt (swapl data (ph_network (pf_header t))) in
      let buf := if negb (o_buffer o) || bool_decide (o_buf_control o = TRACE_CTRL_EXTERNAL) then fresh
                 else o_bytes o in
      let '(io, bs, err) := wandio_read io sizeof_pkt_hdr in
      let t := pf_set_io t (Some io) (pf_started t) in
      let fail errcode buf :=
        let! ' (t, ret) := pf_fail t errcode in Ok (t, o_fill o buf type, ret) in
      let! buf := store buf 0 bs in
      if err <? 0 then fail (errno_read io) buf
      else if err =? 0 then Ok (t, o_fill o buf type, 0)
      else if err <? sizeof_pkt_hdr then fail (errno_read io) buf
      else
        let! caplen := read32 buf 8 in
        let bytes_to_read := swapl data caplen in
        if LIBTRACE_PACKET_BUFSIZE <=? bytes_to_read then fail TRACE_ERR_BAD_PACKET buf
        else if bytes_to_read =? 0 then
          let o := o_fill o buf type in
          Ok (t, {| o_pkt := o_pkt o; o_buffer := true; o_header := true; o_payload := o_payload o;
                    o_buf_control := o_buf_control o |}, sizeof_pkt_hdr)
        else
          let '(io, bs, err) := wandio_read io bytes_to_read in
          let t := pf_set_io t (Some io) (pf_started t) in
          let fail errcode buf :=
            let! ' (t, ret) := pf_fail t errcode in Ok (t, o_fill o buf type, ret) in
          let! buf := store buf sizeof_pkt_hdr bs in
          if err <? 0 then fail (errno_read io) buf
          else if err =? 0 then Ok (t, o_fill o buf type, 0)
          else if err <? bytes_to_read then fail (errno_read io) buf
          else
            let o := pcapfile_prepare_packet o (Some buf) type true in
            let o := o_set_pkt o (pk_set_lengths (o_pkt o) bytes_to_read (pk_wire_length (o_pkt o))) in
            Ok (t, o, sizeof_pkt_hdr + bytes_to_read)
  end.

Definition pcapfile_config_input (t : pcapfile_trace) (realtime : option Z) : outcome (pcapfile_trace * Z) :=
  match realtime with
  | Some v => Ok ({| pf_uridata := pf_uridata t; pf_io := pf_io t; pf_header := pf_header t;
                     pf_started := pf_started t; pf_real_time := v; pf_err := pf_err t |}, 0)
  | None => pf_fail t TRACE_ERR_UNKNOWN_OPTION
  end.

(** ** Making a packet simpler: [demote_packet] of linktypes.c

    What the code uses of [packet->trace]. *)
Record packet_trace := {
  tr_format : libtrace_format_t;
  tr_time : time_format;
}.

(** [trace_create_dead("pcapfile:-")] *)
Definition dead_pcapfile : packet_trace :=
  {| tr_format := pcapfile_format None; tr_time := pcapfile_time None |}.

Abbreviation LIBTRACE_ARPHRD_PPP := 512.

Definition demote_packet (tr : packet_trace) (o : packet_obj) : outcome (packet_trace * packet_obj * bool) :=
  let fmt := tr_format tr in
  let '(p, linktype) := trace_get_link_type fmt (o_pkt o) in
  match linktype with
  | TRACE_TYPE_ATM =>
      let! ' (p, caplen) := trace_get_capture_length fmt p in
      let! ' (payload, _, remaining) :=
        trace_get_payload_from_atm (pk_mem p) (pk_payload p) (Some 0) (Some (u32 caplen)) in
      match payload with
      | None =>
          Ok (tr, {| o_pkt := p; o_buffer := o_buffer o; o_header := o_header o; o_payload := false;
                     o_buf_control := o_buf_control o |}, false)
      | Some payload =>
          let remaining := default 0 remaining in
          let! tv := trace_get_timeval (tr_time tr) p in
          let! ' (p, wire) := trace_get_wire_length fmt p in
          let! bs := slice (pk_mem p) payload remaining in
          let header := bytes32 (u32 (tv_sec tv)) ++ bytes32 (u32 (tv_usec tv)) ++ bytes32 remaining ++
                        bytes32 (u32 (wire - (caplen - remaining))) in
          Ok (dead_pcapfile,
              {| o_pkt := trace_clear_cache
                   (pk_set_buffer p (header ++ bs) sizeof_pkt_hdr (pcap_linktype_to_rt TRACE_DLT_ATM_RFC1483));
                 o_buffer := true; o_header := true; o_payload := true; o_buf_control := TRACE_CTRL_PACKET |}, true)
      end
  | TRACE_TYPE_LINUX_SLL =>
      let! ha_type := be16 (pk_mem p) (pk_payload p + 2) in
      let! next_proto := be16 (pk_mem p) (pk_payload p + 14) in
      let type :=
        if ha_type =? LIBTRACE_ARPHRD_PPP then Some (pcap_linktype_to_rt TRACE_DLT_RAW)
        else if next_proto =? ETHERTYPE_LOOPBACK then Some (pcap_linktype_to_rt TRACE_DLT_EN10MB)
        else if next_proto =? 0x0800 then Some (pcap_linktype_to_rt TRACE_DLT_RAW)
        else if next_proto =? 0x86DD then Some (pcap_linktype_to_rt TRACE_DLT_RAW)
        else None in
      match type with
      | None => Ok (tr, o_set_pkt o p, false)
      | Some type =>
          let p := {| pk_header := pk_header p; pk_mem := pk_mem p; pk_payload := pk_payload p + sizeof_sll;
                      pk_type := type; pk_capture_length := pk_capture_length p;
                      pk_wire_length := pk_wire_length p; pk_payload_length := pk_payload_length p;
                      pk_l2_header := pk_l2_header p; pk_link_type := pk_link_type p;
                      pk_l2_remaining := pk_l2_remaining p; pk_l3_header := pk_l3_header p;
                      pk_l3_ethertype := pk_l3_ethertype p; pk_l3_remaining := pk_l3_remaining p;
                      pk_l4_header := pk_l4_header p; pk_transport_proto := pk_transport_proto p;
                      pk_l4_remaining := pk_l4_remaining p |} in
          let! ' (p, caplen) := trace_get_capture_length fmt p in
          let '(p, _) := trace_set_capture_length fmt p (u64 (caplen - sizeof_sll)) in
          Ok (tr, o_set_pkt o (trace_clear_cache p), true)
      end
  | _ => Ok (tr, o_set_pkt o p, false)
  end.

(** ** Writing *)
Record pcapfile_out := {
  po_uridata : list Z;
  po_file : option iow_t;
  po_compress_type : Z;
  po_level : Z;
  po_flag : Z;
  po_err : Z;
}.

Abbreviation O_CREAT_WRONLY := 65.

Definition pcapfile_init_output (uridata : list Z) : pcapfile_out :=
  {| po_uridata := uridata; po_file := None; po_compress_type := 0; po_level := 0;
     po_flag := O_CREAT_WRONLY; po_err := TRACE_ERR_NOERROR |}.

Inductive output_option := OUTPUT_COMPRESS | OUTPUT_COMPRESSTYPE | OUTPUT_FILEFLAGS | OUTPUT_OTHER.

Definition pcapfile_config_output (out : pcapfile_out) (option : output_option) (value : Z)
  : outcome (pcapfile_out * Z) :=
  let set compress_type level flag :=
    {| po_uridata := po_uridata out; po_file := po_file out; po_compress_type := compress_type;
       po_level := level; po_flag := flag; po_err := po_err out |} in
  match option with
  | OUTPUT_COMPRESS => Ok (set (po_compress_type out) value (po_flag out), 0)
  | OUTPUT_COMPRESSTYPE => Ok (set value (po_level out) (po_flag out), 0)
  | OUTPUT_FILEFLAGS => Ok (set (po_compress_type out) (po_level out) value, 0)
  | OUTPUT_OTHER =>
      let! err := trace_set_err_out TRACE_ERR_UNKNOWN_OPTION in
      Ok ({| po_uridata := po_uridata out; po_file := po_file out; po_compress_type := po_compress_type out;
             po_level := po_level out; po_flag := po_flag out; po_err := err |}, -1)
  end.

Definition po_set_file (out : pcapfile_out) (file : option iow_t) (err : Z) : pcapfile_out :=
  {| po_uridata := po_uridata out; po_file := file; po_compress_type := po_compress_type out;
     po_level := po_level out; po_flag := po_flag out; po_err := err |}.

(** [while (libtrace_to_pcap_linktype(linktype) == TRACE_DLT_ERROR)]: a packet that
    cannot be made simpler fails the assertion.  A demoted packet has a pcap link
    type, so two rounds are enough. *)
Fixpoint demote_for_pcap (fuel : nat) (tr : packet_trace) (o : packet_obj) (ptr : Z)
    (linktype : libtrace_linktype_t) : outcome (packet_trace * packet_obj * Z * libtrace_linktype_t) :=
  if negb (libtrace_to_pcap_linktype linktype =? TRACE_DLT_ERROR) then Ok (tr, o, ptr, linktype)
  else
    match fuel with
    | O => Fault OutOfFuel
    | S fuel' =>
        let! ' (tr, o, done) := demote_packet tr o in
        if negb done then Fault AssertFailed
        else
          let! ' (p, (ptr, linktype, _)) := trace_get_packet_buffer (tr_format tr) (o_pkt o) true in
          demote_for_pcap fuel' tr (o_set_pkt o p) ptr linktype
    end.

Definition pcapfile_header_for (linktype : libtrace_linktype_t) : pcapfile_header_t :=
  {| ph_magic_number := MAGIC1; ph_version_major := 2; ph_version_minor := 4; ph_thiszone := 0;
     ph_sigfigs := 0; ph_snaplen := 65536; ph_network := libtrace_to_pcap_linktype linktype |}.

(** The file, opened and given a header with the first packet.  [None]: no file. *)
Definition open_pcapfile (out : pcapfile_out) (linktype : libtrace_linktype_t)
  : outcome (pcapfile_out * option iow_t) :=
  match po_file out with
  | Some file => Ok (out, Some file)
  | None =>
      let! ' (file, err) :=
        trace_open_file_out (po_uridata out) (po_compress_type out) (po_level out) (po_flag out) in
      match file with
      | None =>
          let! err := trace_set_err_out errno_open in
          Ok (po_set_file out None err, None)
      | Some file =>
          let '(file, _) := wandio_wwrite file (encode_pcapfile_header (pcapfile_header_for linktype)) in
          Ok (po_set_file out (Some file) (po_err out), Some file)
      end
  end.

Definition pcapfile_write_packet (out : pcapfile_out) (tr : packet_trace) (o : packet_obj)
  : outcome (pcapfile_out * packet_trace * packet_obj * Z) :=
  let! tv := trace_get_timeval (tr_time tr) (o_pkt o) in
  let! ' (p, (ptr, linktype, _)) := trace_get_packet_buffer (tr_format tr) (o_pkt o) true in
  let o := o_set_pkt o p in
  match linktype with
  | TRACE_TYPE_NONDATA | TRACE_TYPE_UNKNOWN => Ok (out, tr, o, 0)
  | _ =>
      let! ' (tr, o, ptr, linktype) := demote_for_pcap 2 tr o ptr linktype in
      let! ' (out, file) := open_pcapfile out linktype in
      match file with
      | None => Ok (out, tr, o, -1)
      | Some file =>
          let! ' (p, caplen) := trace_get_capture_length (tr_format tr) (o_pkt o) in
          let caplen := u32 caplen in
          let! _ := oassert (caplen <? LIBTRACE_PACKET_BUFSIZE) in
          let! ' (p, wire) := trace_get_wire_length (tr_format tr) p in
          let wirelen :=
            if bool_decide (linktype = TRACE_TYPE_ETH) then (if 4 <=? wire then u32 (wire - 4) else 0)
            else u32 wire in
          let o := o_set_pkt o p in
          let caplen := if wirelen <? caplen then wirelen else caplen in
          let hdr := bytes32 (u32 (tv_sec tv)) ++ bytes32 (u32 (tv_usec tv)) ++ bytes32 caplen ++ bytes32 wirelen in
          let '(file, numbytes) := wandio_wwrite file hdr in
          let out := po_set_file out (Some file) (po_err out) in
          if negb (numbytes =? sizeof_pkt_hdr) then Ok (out, tr, o, -1)
          else
            let! bs := if caplen =? 0 then Ok [] else
                         if o_payload o then slice (pk_mem p) ptr caplen else Fault NullDeref in
            let '(file, ret) := wandio_wwrite file bs in
            let out := po_set_file out (Some file) (po_err out) in
            if negb (ret =? caplen) then Ok (out, tr, o, -1)
            else Ok (out, tr, o, i32 (numbytes + ret))
      end
  end.
End io.

(** ** Packets described by their trace

    [same_data]: the packets differ at most in what is cached. *)
Definition same_data (p p' : libtrace_packet_t) : Prop :=
  pk_header p' = pk_header p ∧ pk_mem p' = pk_mem p ∧ pk_payload p' = pk_payload p ∧ pk_type p' = pk_type p.

(** A packet of link type [lt], captured at [tv], of which the bytes [bs] of [wire]
    were captured; cached values, if any, are these. *)
Record describes (tr : packet_trace) (p : libtrace_packet_t) (lt : libtrace_linktype_t) (tv : timeval)
    (bs : list Z) (wire : Z) : Prop := {
  ds_link : ∃ f, f_get_link_type (tr_format tr) = Some f ∧ ∀ p', same_data p p' → f p' = lt;
  ds_link_cache : pk_link_type p = None ∨ pk_link_type p = Some lt;
  ds_cap : ∃ f, f_get_capture_length (tr_format tr) = Some f ∧ ∀ p', same_data p p' → f p' = Zlen bs;
  ds_cap_cache : pk_capture_length p = -1 ∨ pk_capture_length p = Zlen bs;
  ds_cap_range : Zlen bs < LIBTRACE_PACKET_BUFSIZE;
  ds_wire : ∃ f, f_get_wire_length (tr_format tr) = Some f ∧ ∀ p', same_data p p' → f p' = wire;
  ds_wire_cache : pk_wire_length p = -1 ∨ pk_wire_length p = wire;
  ds_wire_range : 0 ≤ wire < LIBTRACE_PACKET_BUFSIZE;
  ds_time : ∀ p', same_data p p' → trace_get_timeval (tr_time tr) p' = Ok tv;
  ds_bytes : slice (pk_mem p) (pk_payload p) (Zlen bs) = Ok bs;
}.

Lemma same_data_refl p : same_data p p.
Proof. by split_and!. Qed.
Lemma same_data_trans p q r : same_data p q → same_data q r → same_data p r.
Proof. intros (? & ? & ? & ?) (? & ? & ? & ?). split_and!; congruence. Qed.

(** Only the caches of link type and lengths may change. *)
Lemma describes_recache tr p lt tv bs wire p' :
  describes tr p lt tv bs wire → same_data p p' →
  (pk_link_type p' = None ∨ pk_link_type p' = Some lt) →
  (pk_capture_length p' = -1 ∨ pk_capture_length p' = Zlen bs) →
  (pk_wire_length p' = -1 ∨ pk_wire_length p' = wire) → describes tr p' lt tv bs wire.
Proof.
  intros [(f & Hf & Hl) _ (g & Hg & Hc) _ Hcr (h & Hh & Hw) _ Hwr Ht Hb] Hs H1 H2 H3. split; try done.
  - exists f. split; [done|]. intros q Hq. apply Hl. by eapply same_data_trans.
  - exists g. split; [done|]. intros q Hq. apply Hc. by eapply same_data_trans.
  - exists h. split; [done|]. intros q Hq. apply Hw. by eapply same_data_trans.
  - intros q Hq. apply Ht. by eapply same_data_trans.
  - destruct Hs as (_ & -> & -> & _). done.
Qed.

Section getters.
Context (tr : packet_trace) (p : libtrace_packet_t) (lt : libtrace_linktype_t) (tv : timeval)
  (bs : list Z) (wire : Z) (D : describes tr p lt tv bs wire).

Lemma get_link_type_ok : ∃ p', trace_get_link_type (tr_format tr) p = (p', lt) ∧
  same_data p p' ∧ describes tr p' lt tv bs wire.
Proof using D.
  unfold trace_get_link_type. destruct (ds_link_cache _ _ _ _ _ _ D) as [E|E]; rewrite E.
  - destruct (ds_link _ _ _ _ _ _ D) as (f & -> & Hf). rewrite Hf by apply same_data_refl.
    eexists. split; [done|]. split; [done|].
    apply (describes_recache tr p); [done|done|by right|apply D|apply D].
  - exists p. split; [done|]. split; [apply same_data_refl|done].
Qed.

Lemma get_capture_length_ok : ∃ p', trace_get_capture_length (tr_format tr) p = Ok (p', Zlen bs) ∧
  same_data p p' ∧ describes tr p' lt tv bs wire.
Proof using D.
  unfold trace_get_capture_length. pose proof (ds_cap_range _ _ _ _ _ _ D). pose proof (Zlen_nonneg bs).
  destruct (ds_cap_cache _ _ _ _ _ _ D) as [E|E]; rewrite E.
  - cbn [Z.eqb Pos.eqb]. destruct (ds_cap _ _ _ _ _ _ D) as (f & -> & Hf). rewrite Hf by apply same_data_refl.
    rewrite i32_small by lia. cbn [pk_capture_length pk_set_lengths]. rewrite (proj2 (Z.ltb_lt _ _)) by lia.
    cbn [oassert obind]. unfold int_to_size. rewrite u64_small by lia. eexists. split; [done|].
    split; [done|]. apply (describes_recache tr p); [done|done|apply D|by right|apply D].
  - rewrite (proj2 (Z.eqb_neq _ _)) by lia. rewrite E, (proj2 (Z.ltb_lt _ _)) by lia.
    cbn [oassert obind]. unfold int_to_size. rewrite u64_small by lia. exists p. split; [done|].
    split; [apply same_data_refl|done].
Qed.

Lemma get_wire_length_ok : ∃ p', trace_get_wire_length (tr_format tr) p = Ok (p', wire) ∧
  same_data p p' ∧ describes tr p' lt tv bs wire.
Proof using D.
  unfold trace_get_wire_length. pose proof (ds_wire_range _ _ _ _ _ _ D).
  destruct (ds_wire_cache _ _ _ _ _ _ D) as [E|E]; rewrite E.
  - cbn [Z.eqb Pos.eqb]. destruct (ds_wire _ _ _ _ _ _ D) as (f & -> & Hf). rewrite Hf by apply same_data_refl.
    rewrite i32_small by lia. cbn [pk_wire_length pk_set_lengths]. rewrite (proj2 (Z.ltb_lt _ _)) by lia.
    cbn [oassert obind]. unfold int_to_size. rewrite u64_small by lia. eexists. split; [done|].
    split; [done|]. apply (describes_recache tr p); [done|done|apply D|apply D|by right].
  - rewrite (proj2 (Z.eqb_neq _ _)) by lia. rewrite E, (proj2 (Z.ltb_lt _ _)) by lia.
    cbn [oassert obind]. unfold int_to_size. rewrite u64_small by lia. exists p. split; [done|].
    split; [apply same_data_refl|done].
Qed.
End getters.

Lemma get_packet_buffer_ok tr p lt tv bs wire : describes tr p lt tv bs wire →
  ∃ p', trace_get_packet_buffer (tr_format tr) p true
      = Ok (p', (pk_payload p, lt, Some (Z.min wire (Zlen bs)))) ∧
    same_data p p' ∧ describes tr p' lt tv bs wire.
Proof.
  intros D. unfold trace_get_packet_buffer.
  destruct (get_link_type_ok _ _ _ _ _ _ D) as (p1 & -> & S1 & D1).
  destruct (get_capture_length_ok _ _ _ _ _ _ D1) as (p2 & -> & S2 & D2). cbn [obind].
  destruct (get_wire_length_ok _ _ _ _ _ _ D2) as (p3 & -> & S3 & D3). cbn [obind].
  pose proof (ds_cap_range _ _ _ _ _ _ D). pose proof (Zlen_nonneg bs).
  rewrite !(i32_small (Zlen bs)) by lia. rewrite (proj2 (Z.leb_le 0 _)) by lia. cbn [oassert obind].
  assert (same_data p p3) as S by eauto using same_data_trans.
  pose proof (ds_wire_range _ _ _ _ _ _ D). rewrite !(i32_small wire), (proj2 (Z.ltb_ge wire 0)) by lia.
  exists p3. split; [|by split]. destruct S as (_ & _ & -> & _). do 4 f_equal. bool_cases; lia.
Qed.

(** ** What a written file holds *)
Definition pcap_wirelen (lt : libtrace_linktype_t) (wire : Z) : Z :=
  if bool_decide (lt = TRACE_TYPE_ETH) then wire - 4 else wire.

(** The bytes that are written: not more than the length written. *)
Definition pcap_bytes (lt : libtrace_linktype_t) (bs : list Z) (wire : Z) : list Z :=
  take (Z.to_nat (Z.min (Zlen bs) (pcap_wirelen lt wire))) bs.

Definition pcap_record (lt : libtrace_linktype_t) (tv : timeval) (bs : list Z) (wire : Z) : list Z :=
  bytes32 (tv_sec tv) ++ bytes32 (tv_usec tv) ++ bytes32 (Zlen (pcap_bytes lt bs wire)) ++
  bytes32 (pcap_wirelen lt wire) ++ pcap_bytes lt bs wire.

Definition time_ok (tv : timeval) : Prop := 0 ≤ tv_sec tv < 2 ^ 32 ∧ 0 ≤ tv_usec tv < 2 ^ 32.

(** A packet that pcap files can hold. *)
Definition pcap_writable (lt : libtrace_linktype_t) (tv : timeval) (wire : Z) : Prop :=
  libtrace_to_pcap_linktype lt ≠ TRACE_DLT_ERROR ∧ time_ok tv ∧ (lt = TRACE_TYPE_ETH → 4 ≤ wire).

Lemma pcap_wirelen_range lt wire :
  (lt = TRACE_TYPE_ETH → 4 ≤ wire) → 0 ≤ wire < LIBTRACE_PACKET_BUFSIZE →
  0 ≤ pcap_wirelen lt wire < LIBTRACE_PACKET_BUFSIZE.
Proof. intros He Hw. unfold pcap_wirelen. case_bool_decide as E; [specialize (He E)|]; lia. Qed.

Lemma pcap_bytes_len lt bs wire :
  0 ≤ pcap_wirelen lt wire → Zlen (pcap_bytes lt bs wire) = Z.min (Zlen bs) (pcap_wirelen lt wire).
Proof. intros. unfold pcap_bytes, Zlen in *. rewrite length_take. lia. Qed.

Lemma slice_ok buf off n : 0 ≤ off → off + n ≤ Zlen buf →
  slice buf off n = Ok (take (Z.to_nat n) (drop (Z.to_nat off) buf)).
Proof.
  intros. unfold slice. by rewrite (proj2 (Z.leb_le 0 off)), (proj2 (Z.leb_le (off + n) _)) by lia.
Qed.

Lemma slice_prefix buf off n bs k : slice buf off n = Ok bs → 0 ≤ k ≤ n →
  slice buf off k = Ok (take (Z.to_nat k) bs).
Proof.
  unfold slice. destruct (0 <=? off) eqn:E1; [|done]. destruct (Z.leb_spec (off + n) (Zlen buf)); [|done].
  cbn [andb]. injection 1 as <-. intros Hk. rewrite (proj2 (Z.leb_le (off + k) _)) by lia.
  rewrite take_take. do 2 f_equal. lia.
Qed.

Section files.
Context {W : Wandio} {WF : WandioFile W}.

(** A file for output: already open, or openable; [written] is what it will start
    with. *)
Definition out_bytes (out : pcapfile_out) (lt : libtrace_linktype_t) (written : list Z) : Prop :=
  match po_file out with
  | Some file => iow_bytes file = written
  | None => 0 ≤ po_level out ≤ 9 ∧ 0 ≤ po_compress_type out < TRACE_OPTION_COMPRESSTYPE_LAST ∧
      ∃ file, wandio_wcreate (po_uridata out) (po_compress_type out) (po_level out) (po_flag out) = Some file ∧
        written = iow_bytes file ++ encode_pcapfile_header (pcapfile_header_for lt)
  end.

Lemma open_pcapfile_ok out lt written : out_bytes out lt written →
  ∃ out' file, open_pcapfile out lt = Ok (out', Some file) ∧ iow_bytes file = written.
Proof.
  unfold out_bytes, open_pcapfile. destruct (po_file out) as [file|]; [intros <-; by exists out, file|].
  intros (Hl & Hc & file & Hf & ->). unfold trace_open_file_out.
  rewrite (proj2 (Z.ltb_ge (po_level out) 0)), (proj2 (Z.ltb_ge 9 (po_level out))) by lia.
  rewrite (proj2 (Z.ltb_ge (po_compress_type out) 0)), (proj2 (Z.leb_gt _ (po_compress_type out))) by lia.
  cbn [orb]. rewrite Hf. cbn [obind].
  destruct (wandio_wwrite_spec file (encode_pcapfile_header (pcapfile_header_for lt))) as (file' & -> & Hb).
  by eexists _, file'.
Qed.

Lemma write_packet_ok out tr o lt tv bs wire written :
  describes tr (o_pkt o) lt tv bs wire → pcap_writable lt tv wire → o_payload o = true →
  out_bytes out lt written →
  ∃ out' o' file, pcapfile_write_packet out tr o
      = Ok (out', tr, o', sizeof_pkt_hdr + Zlen (pcap_bytes lt bs wire)) ∧
    po_file out' = Some file ∧ iow_bytes file = written ++ pcap_record lt tv bs wire.
Proof.
  intros D (Hdlt & (Hs & Hu) & Heth) Hpay Hout. unfold pcapfile_write_packet.
  rewrite (ds_time _ _ _ _ _ _ D) by apply same_data_refl. cbn [obind].
  destruct (get_packet_buffer_ok _ _ _ _ _ _ D) as (p1 & -> & S1 & D1). cbn [obind].
  assert (demote_for_pcap 2 tr (o_set_pkt o p1) (pk_payload (o_pkt o)) lt
    = Ok (tr, o_set_pkt o p1, pk_payload (o_pkt o), lt)) as Hdem.
  { cbn [demote_for_pcap]. by rewrite (proj2 (Z.eqb_neq _ _) Hdlt). }
  assert (∀ (A : Type) (x y : A),
    match lt with TRACE_TYPE_NONDATA | TRACE_TYPE_UNKNOWN => x | _ => y end = y) as Hlt.
  { intros A x y. destruct lt; try done; by destruct Hdlt. }
  rewrite Hlt, Hdem. cbn [obind]. clear Hlt Hdem.
  destruct (open_pcapfile_ok _ _ _ Hout) as (out1 & file & -> & Hb). cbn [obind o_pkt o_set_pkt].
  destruct (get_capture_length_ok _ _ _ _ _ _ D1) as (p2 & -> & S2 & D2). cbn [obind].
  pose proof (ds_cap_range _ _ _ _ _ _ D). pose proof (Zlen_nonneg bs). pose proof (ds_wire_range _ _ _ _ _ _ D).
  rewrite !(u32_small (Zlen bs)) by lia. rewrite (proj2 (Z.ltb_lt _ _)) by lia. cbn [oassert obind].
  destruct (get_wire_length_ok _ _ _ _ _ _ D2) as (p3 & -> & S3 & D3). cbn [obind].
  pose proof (pcap_wirelen_range lt wire Heth ltac:(done)) as Hwl.
  assert ((if bool_decide (lt = TRACE_TYPE_ETH) then if 4 <=? wire then u32 (wire - 4) else 0 else u32 wire)
    = pcap_wirelen lt wire) as ->.
  { unfold pcap_wirelen. case_bool_decide as E; [|by rewrite u32_small by lia]. specialize (Heth E).
    rewrite (proj2 (Z.leb_le 4 wire)), u32_small by lia. done. }
  set (wl := pcap_wirelen lt wire) in *.
  assert ((if wl <? Zlen bs then wl else Zlen bs) = Zlen (pcap_bytes lt bs wire)) as ->.
  { rewrite pcap_bytes_len by lia. fold wl. destruct (Z.ltb_spec wl (Zlen bs)); lia. }
  set (out' := pcap_bytes lt bs wire). rewrite !(u32_small (tv_sec tv)), !(u32_small (tv_usec tv)) by lia.
  destruct (wandio_wwrite_spec file (bytes32 (tv_sec tv) ++ bytes32 (tv_usec tv) ++ bytes32 (Zlen out') ++ bytes32 wl))
    as (file2 & -> & Hb2). change (Zlen (_ ++ _ ++ _ ++ _)) with sizeof_pkt_hdr. cbn [Z.eqb Pos.eqb negb].
  assert ((if Zlen out' =? 0 then Ok [] else
      if o_payload (o_set_pkt (o_set_pkt o p1) p3) then slice (pk_mem p3) (pk_payload (o_pkt o)) (Zlen out')
      else Fault NullDeref) = Ok out') as ->.
  { cbn [o_payload o_set_pkt]. rewrite Hpay. destruct (Z.eqb_spec (Zlen out') 0) as [E|E].
    - by destruct out'.
    - assert (same_data (o_pkt o) p3) as (_ & -> & _ & _) by eauto using same_data_trans.
      rewrite (slice_prefix _ _ _ _ (Zlen out') (ds_bytes _ _ _ _ _ _ D)).
      + f_equal. unfold out'. rewrite pcap_bytes_len by lia. done.
      + unfold out'. rewrite pcap_bytes_len by lia. fold wl. lia. }
  cbn [obind]. destruct (wandio_wwrite_spec file2 out') as (file3 & -> & Hb3). rewrite Z.eqb_refl. cbn [negb].
  rewrite i32_small by (unfold out'; rewrite pcap_bytes_len by lia; fold wl; lia).
  do 3 eexists. split; [done|]. split; [done|]. rewrite Hb3, Hb2, Hb. unfold pcap_record. fold wl out'.
  by rewrite <- !app_assoc.
Qed.
End files.

(** ** Reading a record *)
Lemma store_app buf off bs :
  0 ≤ off → off + Zlen bs ≤ Zlen buf →
  store buf off bs = Ok (take (Z.to_nat off) buf ++ bs ++ drop (Z.to_nat (off + Zlen bs)) buf).
Proof.
  intros. unfold store. by rewrite (proj2 (Z.leb_le 0 off)), (proj2 (Z.leb_le (off + Zlen bs) _)) by lia.
Qed.

(** The file header and the link type of the packets that follow. *)
Definition native_header (lt : libtrace_linktype_t) (h : pcapfile_header_t) : Prop :=
  ph_magic_number h = MAGIC1 ∧ ph_network h = libtrace_to_pcap_linktype lt.

Definition pcap_trace (h : pcapfile_header_t) : packet_trace :=
  {| tr_format := pcapfile_format (Some h); tr_time := pcapfile_time (Some h) |}.

Definition pcap_type (lt : libtrace_linktype_t) : Z := pcap_linktype_to_rt (libtrace_to_pcap_linktype lt).

Lemma native_swapl lt h v : native_header lt h → swapl (Some h) v = v.
Proof. intros [E _]. unfold swapl, header_is_backwards_magic. by rewrite E. Qed.

(** Link types whose records read back as they were written: those behind which
    the reader does not add the length of a frame check sequence again. *)
Definition plain_type (lt : libtrace_linktype_t) : Prop :=
  libtrace_to_pcap_linktype lt ≠ TRACE_DLT_ERROR ∧ lt ≠ TRACE_TYPE_80211_RADIO ∧ lt ≠ TRACE_TYPE_LINUX_SLL.

Lemma pcap_type_back lt : libtrace_to_pcap_linktype lt ≠ TRACE_DLT_ERROR →
  rt_to_pcap_linktype (pcap_type lt) = Ok (libtrace_to_pcap_linktype lt) ∧
  pcap_linktype_to_libtrace (libtrace_to_pcap_linktype lt) = lt.
Proof. destruct lt; try done; by intros []. Qed.

(** A packet whose buffer holds a record with the bytes [bs]. *)
Lemma describes_record h lt tv bs wire p tail :
  native_header lt h → plain_type lt → pcap_writable lt tv wire →
  0 ≤ wire < LIBTRACE_PACKET_BUFSIZE → Zlen bs < LIBTRACE_PACKET_BUFSIZE →
  pk_header p = bytes32 (tv_sec tv) ++ bytes32 (tv_usec tv) ++ bytes32 (Zlen bs) ++ bytes32 (pcap_wirelen lt wire) →
  pk_mem p = bs ++ tail → pk_payload p = 0 → pk_type p = pcap_type lt →
  pk_link_type p = None → pk_capture_length p = Zlen bs → pk_wire_length p = -1 →
  describes (pcap_trace h) p lt tv bs wire.
Proof.
  intros Hn (Hdlt & Hr & Hsll) (_ & (Hs & Hu) & Heth) Hw Hb Eh Em Ep Et El Ec Ew.
  pose proof (native_swapl lt h) as Hsw. pose proof (Zlen_nonneg bs). pose proof (pcap_wirelen_range lt wire Heth Hw) as Hwl.
  destruct (pcap_type_back lt Hdlt) as [Hback Hlt].
  split; cbn [tr_format tr_time pcap_trace].
  - eexists. split; [done|]. intros p' (_ & _ & _ & Et'). unfold pcapfile_get_link_type.
    rewrite Et', Et, Hback. cbn [obind ok_or]. done.
  - by left.
  - eexists. split; [done|]. intros p' (Eh' & _). unfold pcapfile_get_capture_length. rewrite Eh', Eh.
    rewrite (app_assoc (bytes32 (tv_sec tv))).
    change 8 with (Zlen (bytes32 (tv_sec tv) ++ bytes32 (tv_usec tv))). rewrite read32_bytes32 by lia.
    cbn [obind ok_or]. rewrite Hsw by done. by rewrite i32_small by lia.
  - by right.
  - done.
  - eexists. split; [done|]. intros p' (Eh' & _ & _ & Et'). unfold pcapfile_get_wire_length. rewrite Eh', Eh, Et', Et.
    rewrite (app_assoc (bytes32 (tv_sec tv))), (app_assoc (_ ++ _)).
    rewrite <- (app_nil_r (bytes32 (pcap_wirelen lt wire))).
    change 12 with (Zlen ((bytes32 (tv_sec tv) ++ bytes32 (tv_usec tv)) ++ bytes32 (Zlen bs))).
    rewrite read32_bytes32 by lia. cbn [obind]. rewrite Hsw by done.
    assert ((pcap_type lt =? pcap_linktype_to_rt TRACE_DLT_IEEE802_11_RADIO) = false ∧
            (pcap_type lt =? pcap_linktype_to_rt TRACE_DLT_LINUX_SLL) = false ∧
            (pcap_type lt =? pcap_linktype_to_rt TRACE_DLT_EN10MB) = bool_decide (lt = TRACE_TYPE_ETH)) as (-> & -> & ->).
    { destruct lt; try done. }
    unfold pcap_wirelen in *. case_bool_decide; cbn [ok_or]; rewrite i32_small by lia; lia.
  - by left.
  - done.
  - intros p' (Eh' & _). unfold trace_get_timeval, pcapfile_time. cbn [tf_get_timeval]. f_equal.
    unfold pcapfile_get_timeval. rewrite Eh', Eh.
    assert (∀ l, read32 (bytes32 (tv_sec tv) ++ l) 0 = Ok (tv_sec tv)) as ->
      by (intros l; apply (read32_bytes32 [] _ l); lia). cbn [obind].
    change 4 with (Zlen (bytes32 (tv_sec tv))). rewrite read32_bytes32 by lia. cbn [obind ok_or].
    rewrite !Hsw by done. unfold nanoseconds, trace_in_nanoseconds. destruct Hn as [-> _]. by destruct tv.
  - rewrite Em, Ep, slice_ok by (try rewrite Zlen_app; pose proof (Zlen_nonneg tail); lia).
    rewrite drop_0, take_app_length' by (unfold Zlen; lia). done.
Qed.

Section reading.
Context {W : Wandio} {WF : WandioFile W} (fresh : list Z) (Hfresh : Zlen fresh = LIBTRACE_PACKET_BUFSIZE).

(** [trace_fin_packet] clears the caches before the next packet is read. *)
Definition o_clear (o : packet_obj) : packet_obj := o_set_pkt o (trace_clear_cache (o_pkt o)).

(** A packet that owns a whole buffer, or has none. *)
Definition buffer_ok (o : packet_obj) : Prop :=
  o_buffer o = false ∨ o_buf_control o = TRACE_CTRL_EXTERNAL ∨ Zlen (o_bytes o) = LIBTRACE_PACKET_BUFSIZE.

Lemma current_buffer o : buffer_ok o →
  Zlen (if negb (o_buffer o) || bool_decide (o_buf_control o = TRACE_CTRL_EXTERNAL) then fresh else o_bytes o)
  = LIBTRACE_PACKET_BUFSIZE.
Proof using Hfresh.
  intros [->|[->|E]]; [done|by rewrite bool_decide_eq_true_2, orb_true_r by done|].
  by destruct (negb (o_buffer o) || _).
Qed.

Lemma read_record_ok t o lt tv bs wire rest io :
  pf_io t = Some io → native_header lt (pf_header t) → plain_type lt → pcap_writable lt tv wire →
  0 ≤ wire < LIBTRACE_PACKET_BUFSIZE → buffer_ok o →
  0 < Zlen bs ≤ LIBTRACE_PACKET_BUFSIZE - sizeof_pkt_hdr →
  io_rest io = bytes32 (tv_sec tv) ++ bytes32 (tv_usec tv) ++ bytes32 (Zlen bs) ++
               bytes32 (pcap_wirelen lt wire) ++ bs ++ rest →
  ∃ t' o' io', pcapfile_read_packet fresh t (o_clear o) = Ok (t', o', sizeof_pkt_hdr + Zlen bs) ∧
    pf_io t' = Some io' ∧ io_rest io' = rest ∧ pf_header t' = pf_header t ∧ buffer_ok o' ∧
    o_payload o' = true ∧ describes (pcap_trace (pf_header t)) (o_pkt o') lt tv bs wire.
Proof using Hfresh WF.
  intros Hio Hn Hpl Hwr Hwire Hbuf Hlen Hrest. pose proof (native_swapl lt (pf_header t)) as Hsw.
  unfold pcapfile_read_packet. rewrite Hio.
  change (o_bytes (o_clear o)) with (o_bytes o). cbn [o_buffer o_buf_control o_clear o_set_pkt].
  pose proof (current_buffer o Hbuf) as Hb0.
  set (b0 := if negb (o_buffer o) || _ then fresh else o_bytes o) in *.
  destruct (wandio_read_spec io sizeof_pkt_hdr) as (io1 & -> & Hio1); [lia|]. rewrite Hrest in *.
  set (hdr := bytes32 (tv_sec tv) ++ bytes32 (tv_usec tv) ++ bytes32 (Zlen bs) ++ bytes32 (pcap_wirelen lt wire)).
  assert (bytes32 (tv_sec tv) ++ bytes32 (tv_usec tv) ++ bytes32 (Zlen bs) ++
    bytes32 (pcap_wirelen lt wire) ++ bs ++ rest = hdr ++ bs ++ rest) as E by (unfold hdr; by rewrite <- !app_assoc).
  rewrite E in *. clear E. change (Z.to_nat sizeof_pkt_hdr) with (length hdr) in *.
  rewrite take_app_length in *. rewrite drop_app_length in Hio1. change (length hdr) with (Z.to_nat sizeof_pkt_hdr) in *.
  assert (Z.min sizeof_pkt_hdr (Zlen (hdr ++ bs ++ rest)) = sizeof_pkt_hdr) as ->.
  { rewrite Zlen_app. change (Zlen hdr) with sizeof_pkt_hdr. pose proof (Zlen_nonneg (bs ++ rest)). lia. }
  rewrite store_app by (change (Zlen hdr) with sizeof_pkt_hdr; lia). cbn [obind].
  change (take (Z.to_nat 0) b0) with (@nil Z). cbn [app]. change (sizeof_pkt_hdr <? 0) with false.
  change (sizeof_pkt_hdr =? 0) with false. change (sizeof_pkt_hdr <? sizeof_pkt_hdr) with false. cbn iota.
  set (tail := drop (Z.to_nat (0 + Zlen hdr)) b0).
  assert (Zlen tail = LIBTRACE_PACKET_BUFSIZE - sizeof_pkt_hdr) as Htail.
  { unfold tail. change (Z.to_nat (0 + Zlen hdr)) with 16%nat. unfold Zlen in *. rewrite length_drop. lia. }
  assert (read32 (hdr ++ tail) 8 = Ok (Zlen bs)) as ->.
  { unfold hdr. rewrite <- !app_assoc, (app_assoc (bytes32 (tv_sec tv))).
    change 8 with (Zlen (bytes32 (tv_sec tv) ++ bytes32 (tv_usec tv))). apply read32_bytes32. lia. }
  cbn [obind]. rewrite (Hsw (Zlen bs) Hn). rewrite (proj2 (Z.leb_gt _ (Zlen bs))), (proj2 (Z.eqb_neq (Zlen bs) 0)) by lia.
  destruct (wandio_read_spec io1 (Zlen bs)) as (io2 & -> & Hio2); [lia|]. rewrite Hio1 in *.
  rewrite take_app_length', drop_app_length' in * by (unfold Zlen; lia).
  assert (Z.min (Zlen bs) (Zlen (bs ++ rest)) = Zlen bs) as ->.
  { rewrite Zlen_app. pose proof (Zlen_nonneg rest). lia. }
  rewrite store_app by (rewrite ?Zlen_app, ?Htail; change (Zlen hdr) with sizeof_pkt_hdr; lia). cbn [obind].
  rewrite (proj2 (Z.ltb_ge (Zlen bs) 0)), (proj2 (Z.eqb_neq (Zlen bs) 0)), (proj2 (Z.ltb_ge (Zlen bs) (Zlen bs))) by lia.
  change (Z.to_nat sizeof_pkt_hdr) with (length hdr). rewrite take_app_length.
  assert (drop (Z.to_nat (sizeof_pkt_hdr + Zlen bs)) (hdr ++ tail) = drop (length bs) tail) as ->.
  { replace (Z.to_nat (sizeof_pkt_hdr + Zlen bs)) with (length hdr + length bs)%nat
      by (change (length hdr) with 16%nat; unfold Zlen; lia).
    by rewrite drop_app_add. }
  do 3 eexists. split; [done|]. split; [done|]. split; [done|]. split; [done|].
  split; [right; right|split; [done|]].
  - unfold o_bytes. cbn [o_pkt o_set_pkt pk_header pk_mem pk_set_lengths pk_set_buffer pcapfile_prepare_packet default].
    rewrite take_drop. unfold id. rewrite !Zlen_app. unfold Zlen in *. rewrite length_drop.
    change (length hdr) with 16%nat. lia.
  - apply (describes_record _ _ _ _ _ _ (drop (length bs) tail)); try done; try lia;
      cbn [o_pkt o_set_pkt pk_header pk_mem pk_type pk_set_lengths pk_set_buffer pcapfile_prepare_packet default id];
      change (Z.to_nat sizeof_pkt_hdr) with (length hdr);
      first [by rewrite take_app_length|by rewrite drop_app_length|rewrite Hsw by done; by destruct Hn as [_ ->]].
Qed.
End reading.

(** ** Whole files *)
Section whole.
Context {W : Wandio} {WF : WandioFile W}.

(** Packets written one after the other; every call must succeed. *)
Fixpoint write_packets (out : pcapfile_out) (ps : list (packet_trace * packet_obj)) : outcome pcapfile_out :=
  match ps with
  | [] => Ok out
  | (tr, o) :: ps' =>
      let! ' (out, _, _, ret) := pcapfile_write_packet out tr o in
      let! _ := oassert (0 <? ret) in
      write_packets out ps'
  end.

(** Reading into one packet object until there is nothing more to read: the packets
    read, and the last return value. *)
Fixpoint read_packets (fresh : list Z) (fuel : nat) (t : pcapfile_trace) (o : packet_obj)
  : outcome (list libtrace_packet_t * Z) :=
  match fuel with
  | O => Fault OutOfFuel
  | S fuel' =>
      let! ' (t, o, ret) := pcapfile_read_packet fresh t (o_clear o) in
      if ret <=? 0 then Ok ([], ret)
      else
        let! ' (ps, last) := read_packets fresh fuel' t o in
        Ok (o_pkt o :: ps, last)
  end.

Lemma read_packets_step fresh n t o :
  read_packets fresh (S n) t o =
  (let! ' (t, o, ret) := pcapfile_read_packet fresh t (o_clear o) in
   if ret <=? 0 then Ok ([], ret)
   else let! ' (ps, last) := read_packets fresh n t o in Ok (o_pkt o :: ps, last)).
Proof. done. Qed.

(** A captured packet: its trace, its object and what they say. *)
Record captured := {
  cp_trace : packet_trace;
  cp_obj : packet_obj;
  cp_time : timeval;
  cp_bytes : list Z;
  cp_wire : Z;
}.

Definition storable (lt : libtrace_linktype_t) (c : captured) : Prop :=
  describes (cp_trace c) (o_pkt (cp_obj c)) lt (cp_time c) (cp_bytes c) (cp_wire c) ∧
  pcap_writable lt (cp_time c) (cp_wire c) ∧ o_payload (cp_obj c) = true ∧
  0 < Zlen (pcap_bytes lt (cp_bytes c) (cp_wire c)) ≤ LIBTRACE_PACKET_BUFSIZE - sizeof_pkt_hdr.

Definition record_of (lt : libtrace_linktype_t) (c : captured) : list Z :=
  pcap_record lt (cp_time c) (cp_bytes c) (cp_wire c).

Lemma write_packets_ok lt cs : ∀ out written,
  Forall (storable lt) cs → out_bytes out lt written → cs ≠ [] →
  ∃ out' file, write_packets out (map (λ c, (cp_trace c, cp_obj c)) cs) = Ok out' ∧ po_file out' = Some file ∧
    iow_bytes file = written ++ concat (map (record_of lt) cs).
Proof using WF.
  induction cs as [|c cs IH]; intros out written Hcs Hout Hne; [done|].
  apply Forall_cons in Hcs as [(D & Hw & Hp & Hl) Hcs]. cbn [map write_packets concat].
  destruct (write_packet_ok out (cp_trace c) (cp_obj c) lt _ _ _ written D Hw Hp Hout) as (out1 & o1 & file & -> & Hf & Hb).
  cbn [obind]. rewrite (proj2 (Z.ltb_lt 0 _)) by lia. cbn [oassert obind].
  destruct cs as [|c' cs].
  - exists out1, file. cbn [map concat write_packets]. rewrite app_nil_r. done.
  - destruct (IH out1 (written ++ record_of lt c)) as (out' & file' & Hrun & Hf' & Hb'); [done| |done|].
    { unfold out_bytes. by rewrite Hf. }
    exists out', file'. split; [done|]. split; [done|]. by rewrite Hb', <- app_assoc.
Qed.

Lemma read_eof fresh t o io : Zlen fresh = LIBTRACE_PACKET_BUFSIZE → buffer_ok o →
  pf_io t = Some io → io_rest io = [] →
  ∃ t' o', pcapfile_read_packet fresh t (o_clear o) = Ok (t', o', 0).
Proof using WF.
  intros Hfresh Hbuf Hio Hrest. unfold pcapfile_read_packet. rewrite Hio.
  destruct (wandio_read_spec io sizeof_pkt_hdr) as (io1 & -> & _); [lia|]. rewrite Hrest.
  change (o_bytes (o_clear o)) with (o_bytes o). cbn [o_buffer o_buf_control o_clear o_set_pkt].
  pose proof (current_buffer fresh Hfresh o Hbuf) as Hb0. rewrite take_nil.
  rewrite store_app by (change (Zlen (@nil Z)) with 0; lia). cbn [obind].
  change (Z.min sizeof_pkt_hdr (Zlen (@nil Z))) with 0. by do 2 eexists.
Qed.

Lemma read_packets_ok fresh lt cs : Zlen fresh = LIBTRACE_PACKET_BUFSIZE → plain_type lt → ∀ t o io,
  Forall (storable lt) cs → pf_io t = Some io → native_header lt (pf_header t) → buffer_ok o →
  io_rest io = concat (map (record_of lt) cs) →
  ∃ ps, read_packets fresh (S (length cs)) t o = Ok (ps, 0) ∧
    Forall2 (λ c p, describes (pcap_trace (pf_header t)) p lt (cp_time c)
               (pcap_bytes lt (cp_bytes c) (cp_wire c)) (cp_wire c)) cs ps.
Proof using WF.
  intros Hfresh Hpl. induction cs as [|c cs IH]; intros t o io Hcs Hio Hn Hbuf Hrest.
  - cbn [length read_packets]. destruct (read_eof fresh t o io Hfresh Hbuf Hio Hrest) as (t' & o' & ->).
    cbn [obind]. by exists [].
  - apply Forall_cons in Hcs as [(D & Hw & Hp & Hl) Hcs]. cbn [length map concat] in *.
    unfold record_of at 1 in Hrest. unfold pcap_record in Hrest. rewrite <- !app_assoc in Hrest.
    destruct (read_record_ok fresh Hfresh t o lt (cp_time c) (pcap_bytes lt (cp_bytes c) (cp_wire c)) (cp_wire c)
      (concat (map (record_of lt) cs)) io) as (t' & o' & io' & Hrun & Hio' & Hrest' & Hh & Hbuf' & Hpay & D');
      try done; [apply D|].
    rewrite read_packets_step, Hrun. cbn [obind]. rewrite (proj2 (Z.leb_gt _ 0)) by lia.
    destruct (IH t' o' io') as (ps & -> & HF); [done|done|by rewrite Hh|done|done|]. cbn [obind].
    exists (o_pkt o' :: ps). split; [done|]. constructor; [done|]. by rewrite Hh in HF.
Qed.
End whole.

(** ** Theorems *)

(** The header of a file that has just been written is read back. *)
Lemma start_written {W : Wandio} {WF : WandioFile W} lt uri io h0 rest :
  libtrace_to_pcap_linktype lt ≠ TRACE_DLT_ERROR →
  io_rest io = encode_pcapfile_header (pcapfile_header_for lt) ++ rest →
  ∃ t io', pcapfile_start_input (pcapfile_init_input uri (Some io) h0) = Ok (t, 0) ∧
    pf_io t = Some io' ∧ io_rest io' = rest ∧ pf_header t = pcapfile_header_for lt.
Proof.
  intros Hlt Hrest. unfold pcapfile_start_input. cbn [pf_io pcapfile_init_input obind pf_started].
  destruct (wandio_read_spec io sizeof_pcapfile_header) as (io1 & -> & Hio1); [lia|]. rewrite Hrest in *.
  assert (length (encode_pcapfile_header (pcapfile_header_for lt)) = Z.to_nat sizeof_pcapfile_header) as El by done.
  rewrite take_app_length' by done. rewrite drop_app_length' in Hio1 by done.
  assert (Z.min sizeof_pcapfile_header (Zlen (encode_pcapfile_header (pcapfile_header_for lt) ++ rest))
    = sizeof_pcapfile_header) as ->.
  { rewrite Zlen_app. change (Zlen (encode_pcapfile_header _)) with sizeof_pcapfile_header.
    pose proof (Zlen_nonneg rest). lia. }
  cbn [Z.ltb Z.compare Pos.compare Pos.compare_cont Z.eqb Pos.eqb negb].
  assert (decode_pcapfile_header (encode_pcapfile_header (pcapfile_header_for lt))
    = Ok (pcapfile_header_for lt)) as -> by (destruct lt; try (by destruct Hlt); vm_compute; reflexivity).
  cbn [obind]. do 2 eexists. split; [done|]. done.
Qed.

(** C8: Writing packets of one link type to a new pcap file and reading the file gives
    back every packet, in order, with its link type, its time to the
    microsecond, its wire length and its captured bytes (not more than the wire
    length, for Ethernet less the four bytes of the frame check sequence), and then
    the end of the file.  The packets may come from any capture format and have any
    link type that pcap knows but Radiotap and Linux SLL, whose wire length may grow
    ([wire_length_grows]); an Ethernet packet has a wire length of at least four,
    and at least one byte and at most 65,520 are stored. *)
Theorem pcapfile_roundtrip {W : Wandio} {WF : WandioFile W} lt cs out f0 :
  plain_type lt → cs ≠ [] → Forall (storable lt) cs →
  po_file out = None → 0 ≤ po_level out ≤ 9 → 0 ≤ po_compress_type out < TRACE_OPTION_COMPRESSTYPE_LAST →
  wandio_wcreate (po_uridata out) (po_compress_type out) (po_level out) (po_flag out) = Some f0 →
  iow_bytes f0 = [] →
  ∃ out' file, write_packets out (map (λ c, (cp_trace c, cp_obj c)) cs) = Ok out' ∧ po_file out' = Some file ∧
    ∀ io uri h0 fresh o, io_rest io = iow_bytes file → Zlen fresh = LIBTRACE_PACKET_BUFSIZE → buffer_ok o →
    ∃ t ps, pcapfile_start_input (pcapfile_init_input uri (Some io) h0) = Ok (t, 0) ∧
      read_packets fresh (S (length cs)) t o = Ok (ps, 0) ∧
      Forall2 (λ c p, describes (pcap_trace (pf_header t)) p lt (cp_time c)
                 (pcap_bytes lt (cp_bytes c) (cp_wire c)) (cp_wire c)) cs ps.
Proof.
  intros Hpl Hne Hcs Hnone Hlev Hcomp Hcreate Hempty.
  destruct (write_packets_ok lt cs out (encode_pcapfile_header (pcapfile_header_for lt)) Hcs) as (out' & file & Hrun & Hf & Hb); [|done|].
  { unfold out_bytes. rewrite Hnone. split; [done|]. split; [done|]. exists f0. by rewrite Hempty. }
  exists out', file. split; [done|]. split; [done|]. intros io uri h0 fresh o Hio Hfresh Hbuf. rewrite Hb in Hio.
  destruct (start_written lt uri io h0 _ (proj1 Hpl) Hio) as (t & io' & Ht & Hio' & Hrest & Hh).
  destruct (read_packets_ok fresh lt cs Hfresh Hpl t o io') as (ps & Hps & HF); [done|done|by rewrite Hh|done|done|].
  by exists t, ps.
Qed.

(** What [pcapfile_read_packet] returns, as a function of the bytes left in the
    file: 0 at its end and for a record whose bytes are all missing, -1 for a
    record that is cut, an impossible length or a failed read, and the size of
    the record otherwise.  Two cases end the program: a length from 65521 to
    65535 with enough bytes behind it overruns the packet buffer, and a cut
    record makes [trace_set_err] fail if [errno] is 0. *)
Definition pcap_read_result (data : option pcapfile_header_t) (errno : Z) (rest : list Z) : outcome Z :=
  let cut := if errno =? 0 then Fault AssertFailed else Ok (-1) in
  if Zlen rest =? 0 then Ok 0
  else if Zlen rest <? sizeof_pkt_hdr then cut
  else
    let! caplen := read32 rest 8 in
    let caplen := swapl data caplen in
    let there := Z.min caplen (Zlen rest - sizeof_pkt_hdr) in
    if LIBTRACE_PACKET_BUFSIZE <=? caplen then Ok (-1)
    else if caplen =? 0 then Ok sizeof_pkt_hdr
    else if LIBTRACE_PACKET_BUFSIZE - sizeof_pkt_hdr <? there then Fault OutOfBounds
    else if there =? 0 then Ok 0
    else if there <? caplen then cut
    else Ok (sizeof_pkt_hdr + caplen).

Lemma read32_prefix l k off v : read32 l off = Ok v → read32 (l ++ k) off = Ok v.
Proof.
  assert (∀ i x, aget l i = Ok x → aget (l ++ k) i = Ok x) as Ha.
  { intros i x [Hi Hl]%aget_ok_inv. apply aget_ok; [lia|]. apply lookup_app_l_Some, Hl. }
  intros H. unfold read32, read16 in *. obind_inv H. obind_inv H. obind_inv Hstep. obind_inv Hstep.
  obind_inv Hstep0. obind_inv Hstep0. rewrite (Ha _ _ Hstep1), (Ha _ _ Hstep2), (Ha _ _ Hstep3), (Ha _ _ Hstep4).
  cbn [obind]. injection Hstep as <-. injection Hstep0 as <-. exact H.
Qed.

Lemma read32_range l off v : bytes_ok l → read32 l off = Ok v → 0 ≤ v < 2 ^ 32.
Proof.
  intros Hb H. unfold read32, read16 in H. obind_inv H. obind_inv H. obind_inv Hstep. obind_inv Hstep.
  obind_inv Hstep0. obind_inv Hstep0. injection Hstep as <-. injection Hstep0 as <-. injection H as <-.
  apply aget_ok_inv in Hstep1 as [_ H1], Hstep2 as [_ H2], Hstep3 as [_ H3], Hstep4 as [_ H4].
  pose proof (bytes_ok_lookup _ _ _ Hb H1). pose proof (bytes_ok_lookup _ _ _ Hb H2).
  pose proof (bytes_ok_lookup _ _ _ Hb H3). pose proof (bytes_ok_lookup _ _ _ Hb H4). lia.
Qed.

Lemma read32_total l off : 0 ≤ off → off + 4 ≤ Zlen l → ∃ v, read32 l off = Ok v.
Proof.
  intros. unfold read32. destruct (read16_ok l off) as [lo ->]; [lia..|].
  destruct (read16_ok l (off + 2)) as [hi ->]; [lia..|]. by eexists.
Qed.

(** C29: Reading from any file, whatever its bytes, ends as [pcap_read_result] says, and
    in no other way. *)
Theorem pcapfile_read_outcomes {W : Wandio} {WF : WandioFile W} fresh t o io errno :
  Zlen fresh = LIBTRACE_PACKET_BUFSIZE → buffer_ok o → bytes_ok (io_rest io) →
  pf_io t = Some io → (∀ io', errno_read io' = errno) →
  (let! ' (_, _, ret) := pcapfile_read_packet fresh t (o_clear o) in Ok ret)
  = pcap_read_result (Some (pf_header t)) errno (io_rest io).
Proof.
  intros Hfresh Hbuf Hbytes Hio Herr. unfold pcapfile_read_packet, pcap_read_result. rewrite Hio.
  change (o_bytes (o_clear o)) with (o_bytes o). cbn [o_buffer o_buf_control o_clear o_set_pkt].
  pose proof (current_buffer fresh Hfresh o Hbuf) as Hb0.
  set (b0 := if negb (o_buffer o) || _ then fresh else o_bytes o) in *.
  destruct (wandio_read_spec io sizeof_pkt_hdr) as (io1 & -> & Hio1); [lia|].
  set (rest := io_rest io) in *. pose proof (Zlen_nonneg rest) as Hr0.
  assert (Zlen (take (Z.to_nat sizeof_pkt_hdr) rest) = Z.min sizeof_pkt_hdr (Zlen rest)) as Ht
    by (unfold Zlen; rewrite length_take; lia).
  rewrite store_app by lia. cbn [obind]. change (take (Z.to_nat 0) b0) with (@nil Z). cbn [app].
  rewrite (proj2 (Z.ltb_ge (Z.min _ _) 0)) by lia.
  assert (∀ t' buf ty, (let! ' (_, _, ret) := (let! ' (t, ret) := pf_fail t' (errno_read io1) in Ok (t, o_fill (o_clear o) buf ty, ret)) in Ok ret)
    = if errno =? 0 then Fault AssertFailed else Ok (-1)) as Hcut1.
  { intros t' buf ty. unfold pf_fail, trace_set_err. rewrite Herr. by destruct (errno =? 0). }
  destruct (Z.eqb_spec (Zlen rest) 0) as [Hz|Hz].
  { rewrite Hz. change (Z.min sizeof_pkt_hdr 0 =? 0) with true. done. }
  rewrite (proj2 (Z.eqb_neq (Z.min _ _) 0)) by lia.
  destruct (Z.ltb_spec (Zlen rest) sizeof_pkt_hdr) as [Hs|Hs].
  { rewrite (proj2 (Z.ltb_lt (Z.min _ _) sizeof_pkt_hdr)) by lia. apply Hcut1. }
  rewrite (proj2 (Z.ltb_ge (Z.min _ _) sizeof_pkt_hdr)) by lia. clear Hcut1.
  set (hdr := take (Z.to_nat sizeof_pkt_hdr) rest) in *. rewrite Z.min_l in Ht by lia.
  destruct (read32_total hdr 8) as [caplen Hcap]; [lia..|].
  rewrite (read32_prefix _ _ _ _ Hcap). cbn [obind].
  assert (read32 rest 8 = Ok caplen) as ->.
  { rewrite <- (take_drop (Z.to_nat sizeof_pkt_hdr) rest). by apply read32_prefix. }
  cbn [obind]. set (want := swapl (Some (pf_header t)) caplen).
  assert (0 ≤ want) as Hwant.
  { assert (0 ≤ caplen < 2 ^ 32) as Hc.
    { eapply read32_range; [|exact Hcap]. unfold hdr, bytes_ok in *. by apply Forall_take. }
    unfold want, swapl. destruct (header_is_backwards_magic _); [|lia]. by apply byteswap32_range. }
  destruct (Z.leb_spec LIBTRACE_PACKET_BUFSIZE want); [done|].
  destruct (Z.eqb_spec want 0); [done|].
  destruct (wandio_read_spec io1 want) as (io2 & -> & _); [lia|]. rewrite Hio1.
  set (body := drop (Z.to_nat sizeof_pkt_hdr) rest).
  assert (Zlen body = Zlen rest - sizeof_pkt_hdr) as Hbody by (unfold body, Zlen in *; rewrite length_drop; lia).
  rewrite Hbody. set (there := Z.min want (Zlen rest - sizeof_pkt_hdr)).
  assert (Zlen (take (Z.to_nat want) body) = there) as Hth.
  { unfold there. rewrite <- Hbody. unfold Zlen in *. rewrite length_take. lia. }
  set (tail := drop (Z.to_nat (0 + Zlen hdr)) b0).
  assert (Zlen (hdr ++ tail) = LIBTRACE_PACKET_BUFSIZE) as Hlen.
  { rewrite Zlen_app, Ht. unfold tail. rewrite Ht. unfold Zlen in *. rewrite length_drop. lia. }
  destruct (Z.ltb_spec (LIBTRACE_PACKET_BUFSIZE - sizeof_pkt_hdr) there) as [Hov|Hov].
  { unfold store. rewrite Hth, Hlen. rewrite (proj2 (Z.leb_gt (sizeof_pkt_hdr + there) _)) by lia. done. }
  rewrite store_app by lia. cbn [obind]. rewrite (proj2 (Z.ltb_ge there 0)) by lia.
  destruct (Z.eqb_spec there 0); [done|]. destruct (Z.ltb_spec there want); [|done].
  unfold pf_fail, trace_set_err. rewrite Herr. by destruct (errno =? 0).
Qed.

(** ** Concrete files *)
Definition sample_trace (lt : libtrace_linktype_t) (tv : timeval) (cap wire : Z) : packet_trace :=
  {| tr_format := {| f_get_link_type := Some (λ _, lt); f_get_capture_length := Some (λ _, cap);
                     f_get_wire_length := Some (λ _, wire); f_get_framing_length := Some (λ _, 0);
                     f_set_capture_length := None |};
     tr_time := source_format (SrcTimeval tv) |}.

Definition sample_obj (mem : list Z) : packet_obj :=
  {| o_pkt := trace_clear_cache (pk_set_buffer sample_time_packet mem 0 0); o_buffer := true; o_header := true;
     o_payload := true; o_buf_control := TRACE_CTRL_PACKET |}.

Definition sample_captured (sec : Z) (bs : list Z) (wire : Z) : captured :=
  {| cp_trace := sample_trace TRACE_TYPE_ETH {| tv_sec := sec; tv_usec := 250000 |} (Zlen bs) wire;
     cp_obj := sample_obj bs; cp_time := {| tv_sec := sec; tv_usec := 250000 |}; cp_bytes := bs; cp_wire := wire |}.

Lemma sample_captured_storable sec bs wire :
  0 ≤ sec < 2 ^ 32 → 0 < Zlen bs < 1000 → 4 < wire < 1000 → storable TRACE_TYPE_ETH (sample_captured sec bs wire).
Proof.
  intros Hs Hb Hw. unfold storable. cbn [sample_captured cp_trace cp_obj cp_time cp_bytes cp_wire].
  assert (pcap_wirelen TRACE_TYPE_ETH wire = wire - 4) as Ew by done.
  split_and!; [|by split_and!; cbn; try lia|done|rewrite pcap_bytes_len; lia..].
  split; cbn; try (by left); try lia; try done.
  - by eexists.
  - by eexists.
  - by eexists.
  - rewrite slice_ok by (change (drop (Z.to_nat 0) bs) with bs; lia).
    change (drop (Z.to_nat 0) (drop (Z.to_nat 0) bs)) with bs. rewrite take_ge; [done|]. unfold Zlen. lia.
Qed.

Definition sample_out : pcapfile_out := pcapfile_init_output [].
Definition sample_cs : list captured :=
  [sample_captured 1500000000 [1; 2; 3; 4; 5; 6] 10; sample_captured 1500000001 [7; 8; 9] 60].

Lemma pcapfile_roundtrip_witness :
  ∃ out' file, write_packets sample_out (map (λ c, (cp_trace c, cp_obj c)) sample_cs) = Ok out' ∧
    po_file out' = Some file ∧
    ∀ io uri h0 fresh o, io_rest io = iow_bytes file → Zlen fresh = LIBTRACE_PACKET_BUFSIZE → buffer_ok o →
    ∃ t ps, pcapfile_start_input (pcapfile_init_input uri (Some io) h0) = Ok (t, 0) ∧
      read_packets fresh 3 t o = Ok (ps, 0) ∧
      Forall2 (λ c p, describes (pcap_trace (pf_header t)) p TRACE_TYPE_ETH (cp_time c)
                 (pcap_bytes TRACE_TYPE_ETH (cp_bytes c) (cp_wire c)) (cp_wire c)) sample_cs ps.
Proof.
  apply (pcapfile_roundtrip TRACE_TYPE_ETH sample_cs sample_out []); try done.
  repeat (apply Forall_cons; split; [apply sample_captured_storable; [lia|by split|lia]|]). constructor.
Defined.

(** The excluded link types: a Radiotap packet without a frame check sequence and an SLL
    packet of the loopback protocol, both of wire length 60, come back with 64. *)
Definition written_and_read (lt : libtrace_linktype_t) (bs : list Z) (wire : Z) : outcome (list Z) :=
  let tv := {| tv_sec := 1500000000; tv_usec := 250000 |} in
  let! out := write_packets (W := memory_wandio) (pcapfile_init_output []) [(sample_trace lt tv (Zlen bs) wire, sample_obj bs)] in
  let! ' (t, _) := pcapfile_start_input (W := memory_wandio) (pcapfile_init_input [] (po_file out) (pcapfile_header_for lt)) in
  let! ' (ps, _) := read_packets (replicate 64 0) 2 t (sample_obj (replicate 64 0)) in
  let! ws := (fix go ps := match ps with
    | [] => Ok []
    | p :: ps => let! ' (_, w) := trace_get_wire_length (tr_format (pcap_trace (pf_header t))) p in let! ws := go ps in Ok (w :: ws)
    end) ps in Ok ws.

Example wire_length_grows :
  written_and_read TRACE_TYPE_80211_RADIO ([0; 0; 9; 0; 2; 0; 0; 0; 0] ++ replicate 23 7) 60 = Ok [64] ∧
  written_and_read TRACE_TYPE_LINUX_SLL ([0; 0; 3; 4; 0; 6; 0; 0; 0; 0; 0; 0; 0; 0; 0; 0x60] ++ replicate 16 7) 60 = Ok [64] ∧
  written_and_read TRACE_TYPE_PPP (replicate 32 7) 60 = Ok [60].
Proof. split_and!; vm_compute; reflexivity. Qed.

(** A packet without a buffer, and a record of 65,530 bytes. *)
Definition new_packet : packet_obj :=
  {| o_pkt := sample_time_packet; o_buffer := false; o_header := false; o_payload := false;
     o_buf_control := TRACE_CTRL_PACKET |}.

Definition long_record : list Z := bytes32 0 ++ bytes32 0 ++ bytes32 65530 ++ bytes32 65530 ++ replicate (Z.to_nat 65530) 0.

Lemma pcapfile_read_outcomes_witness :
  (let! ' (_, _, ret) := pcapfile_read_packet (W := memory_wandio) (replicate (Z.to_nat 65536) 0)
      (pcapfile_init_input (W := memory_wandio) [] (Some long_record) (pcapfile_header_for TRACE_TYPE_ETH)) (o_clear new_packet) in Ok ret)
  = Fault OutOfBounds.
Proof.
  rewrite (pcapfile_read_outcomes (W := memory_wandio) (WF := memory_wandio_file) (replicate (Z.to_nat 65536) 0)
    (pcapfile_init_input (W := memory_wandio) [] (Some long_record) (pcapfile_header_for TRACE_TYPE_ETH))
    new_packet long_record 0); [|by rewrite Zlen_replicate|by left|..].
  - vm_compute. reflexivity.
  - unfold bytes_ok. apply Forall_app. split; [by repeat constructor|]. repeat (apply Forall_app; split; [by repeat constructor|]).
    by apply Forall_replicate.
  - done.
  - done.
Defined.

(** The version test asks for both numbers to be wrong: version 9.4 is accepted. *)
Example pcapfile_version_9_4_accepted :
  (let! ' (_, ret) := pcapfile_start_input (W := memory_wandio) (pcapfile_init_input []
     (Some (encode_pcapfile_header {| ph_magic_number := MAGIC1; ph_version_major := 9; ph_version_minor := 4;
        ph_thiszone := 0; ph_sigfigs := 0; ph_snaplen := 65536; ph_network := 1 |}))
     (pcapfile_header_for TRACE_TYPE_ETH)) in Ok ret) = Ok 0.
Proof. vm_compute. reflexivity. Qed.
