(* ===== verification/Uri.v ===== *)
(** * URIs and capture formats: trace_create, trace_create_dead and
    trace_create_output of lib/trace.c

    A C string is the list of its characters without the final NUL.  What
    [trace_create] does besides choosing the format sets every field of the
    trace to a constant and calls the format's [init_input]. *)

From S2P Require Import Prelude FormatHelper.
Local Open Scope Z_scope.
Local Open Scope outcome_scope.

Abbreviation URI_PROTO_LINE := 16.
Abbreviation COLON := 58.

(** [strchr]: the index of the first occurrence. *)
Fixpoint strchr (s : list Z) (c : Z) : option nat :=
  match s with
  | [] => None
  | x :: s' => if x =? c then Some O else S <$> strchr s' c
  end.

(** [strncpy(dest, src, n); dest[n] = 0] into a block of [size] bytes: the string
    that the block holds then. *)
Definition xstrncpy (size : Z) (src : list Z) (n : nat) : outcome (list Z) :=
  if size <=? Z.of_nat n then Fault OutOfBounds else Ok (take n src).

(** [xstrndup] allocates [n + 1] bytes. *)
Definition xstrndup (src : list Z) (n : nat) : outcome (list Z) := xstrncpy (Z.of_nat n + 1) src n.

(** The format's name and the data; [None] is a null result. *)
Definition trace_parse_uri (uri : list Z) : outcome (option (list Z * list Z)) :=
  match strchr uri COLON with
  | None => Ok None
  | Some i =>
      if URI_PROTO_LINE <? Z.of_nat i then Ok None
      else
        let! format := xstrndup uri i in
        Ok (Some (format, drop (S i) uri))
  end.

(** Characters are compared without regard to the case of ASCII letters. *)
Definition tolower (c : Z) : Z := if (65 <=? c) && (c <=? 90) then c + 32 else c.

Fixpoint strncasecmp (s t : list Z) (n : nat) : bool :=
  match n, s, t with
  | O, _, _ => true
  | S n', x :: s', y :: t' => (tolower x =? tolower y) && strncasecmp s' t' n'
  | S _, [], [] => true
  | S _, _, _ => false
  end.

Section formats.
Context {W : Wandio}.

(** What choosing a format uses of its table. *)
Record format_entry := {
  fe_name : list Z;
  fe_probe_filename : option (list Z → bool);
  fe_probe_magic : option (io_t → io_t * bool);
  fe_init_input : bool;
  fe_init_output : bool;
}.

(** [strlen(scan) == strlen(tmp->name) && strncasecmp(...) == 0] over the list. *)
Definition name_matches (scan : list Z) (f : format_entry) : bool :=
  (length scan =? length (fe_name f))%nat && strncasecmp scan (fe_name f) (length scan).

Fixpoint find_format (formats : list format_entry) (scan : list Z) : option format_entry :=
  match formats with
  | [] => None
  | f :: formats' => if name_matches scan f then Some f else find_format formats' scan
  end.

Fixpoint probe_filenames (formats : list format_entry) (filename : list Z) : option format_entry :=
  match formats with
  | [] => None
  | f :: formats' =>
      match fe_probe_filename f with
      | Some probe => if probe filename then Some f else probe_filenames formats' filename
      | None => probe_filenames formats' filename
      end
  end.

Fixpoint probe_magics (formats : list format_entry) (io : io_t) : io_t * option format_entry :=
  match formats with
  | [] => (io, None)
  | f :: formats' =>
      match fe_probe_magic f with
      | Some probe =>
          let '(io, found) := probe io in
          if found then (io, Some f) else probe_magics formats' io
      | None => probe_magics formats' io
      end
  end.

(** The format, and the file that was opened to look at its contents.  A file
    that no format recognises is closed again; the pointer to it stays. *)
Definition guess_format (formats : list format_entry) (filename : list Z)
  : option format_entry * option io_t :=
  match probe_filenames formats filename with
  | Some f => (Some f, None)
  | None =>
      match wandio_create filename with
      | None => (None, None)
      | Some io => let '(io, f) := probe_magics formats io in (f, Some io)
      end
  end.

(** The trace as far as the choice of the format determines it: the format, the
    data of the URI, the file, and the error. *)
Record chosen := {
  ch_format : option format_entry;
  ch_uridata : option (list Z);
  ch_io : option io_t;
  ch_err : Z;
}.

(** [init f uridata] is the result of the format's [init_input], an error number
    or success. *)
Definition trace_create (formats : list format_entry) (init : format_entry → list Z → option Z)
    (uri : list Z) : outcome chosen :=
  let finish f uridata io :=
    if fe_init_input f then
      Ok {| ch_format := Some f; ch_uridata := Some uridata; ch_io := io;
            ch_err := default TRACE_ERR_NOERROR (init f uridata) |}
    else
      let! err := trace_set_err TRACE_ERR_UNSUPPORTED in
      Ok {| ch_format := Some f; ch_uridata := Some uridata; ch_io := io; ch_err := err |} in
  let! parsed := trace_parse_uri uri in
  match parsed with
  | None =>
      match guess_format formats uri with
      | (None, io) =>
          let! err := trace_set_err TRACE_ERR_BAD_FORMAT in
          Ok {| ch_format := None; ch_uridata := None; ch_io := io; ch_err := err |}
      | (Some f, io) => finish f uri io
      end
  | Some (scan, uridata) =>
      match find_format formats scan with
      | None =>
          let! err := trace_set_err TRACE_ERR_BAD_FORMAT in
          Ok {| ch_format := None; ch_uridata := None; ch_io := None; ch_err := err |}
      | Some f => finish f uridata None
      end
  end.

(** The name is copied into a block of [URI_PROTO_LINE] bytes. *)
Definition dead_scan (uri : list Z) : outcome (list Z) :=
  match strchr uri COLON with
  | None => xstrncpy URI_PROTO_LINE uri (length uri)
  | Some i => xstrncpy URI_PROTO_LINE uri i
  end.

Definition trace_create_dead (formats : list format_entry) (uri : list Z) : outcome chosen :=
  let! scan := dead_scan uri in
  match find_format formats scan with
  | None =>
      let! err := trace_set_err TRACE_ERR_BAD_FORMAT in
      Ok {| ch_format := None; ch_uridata := None; ch_io := None; ch_err := err |}
  | Some f => Ok {| ch_format := Some f; ch_uridata := None; ch_io := None; ch_err := TRACE_ERR_NOERROR |}
  end.

(** An unknown format is reported with the name that has just been freed. *)
Definition trace_create_output (formats : list format_entry) (init : format_entry → list Z → option Z)
    (uri : list Z) : outcome chosen :=
  let! parsed := trace_parse_uri uri in
  match parsed with
  | None =>
      let! err := trace_set_err_out TRACE_ERR_BAD_FORMAT in
      Ok {| ch_format := None; ch_uridata := None; ch_io := None; ch_err := err |}
  | Some (scan, uridata) =>
      match find_format formats scan with
      | None => Fault Dangling
      | Some f =>
          if fe_init_output f then
            Ok {| ch_format := Some f; ch_uridata := Some uridata; ch_io := None;
                  ch_err := default TRACE_ERR_NOERROR (init f uridata) |}
          else Fault Dangling
      end
  end.
End formats.

(** ** Theorems *)
Lemma strchr_None s c : strchr s c = None ↔ c ∉ s.
Proof.
  induction s as [|x s IH]; cbn [strchr]; [set_solver|].
  destruct (Z.eqb_spec x c) as [->|Hne]; [set_solver|].
  destruct (strchr s c); cbn; [|set_solver]. split; [done|]. intros Hn. destruct IH as [_ IH].
  assert (c ∉ s) as Hs by set_solver. by apply IH in Hs.
Qed.

Lemma strchr_Some s c i : strchr s c = Some i ↔ ∃ pre post, s = pre ++ c :: post ∧ c ∉ pre ∧ i = length pre.
Proof.
  revert i. induction s as [|x s IH]; intros i; cbn [strchr].
  - split; [done|]. intros ([|??] & ? & ? & _); done.
  - destruct (Z.eqb_spec x c) as [->|Hne].
    + split; [intros [= <-]; exists [], s; set_solver|]. intros ([|y pre] & post & E & Hn & ->); [done|].
      injection E as -> _. set_solver.
    + rewrite fmap_Some. split.
      * intros (j & Hj & ->). apply IH in Hj as (pre & post & -> & Hn & ->). exists (x :: pre), post.
        split_and!; [done|set_solver|done].
      * intros ([|y pre] & post & E & Hn & ->); [injection E as -> _; done|]. injection E as <- ->.
        exists (length pre). split; [|done]. apply IH. exists pre, post. set_solver.
Qed.

(** [trace_parse_uri] is the inverse of joining a format name without a colon, of at
    most sixteen characters, and any data by a colon; every other URI is
    rejected, and parsing never leaves a string. *)
Theorem parse_uri_inverse uri format data :
  trace_parse_uri uri = Ok (Some (format, data)) ↔
  uri = format ++ COLON :: data ∧ COLON ∉ format ∧ Zlen format ≤ URI_PROTO_LINE.
Proof.
  unfold trace_parse_uri, xstrndup, xstrncpy. split.
  - destruct (strchr uri COLON) as [i|] eqn:E; [|done]. apply strchr_Some in E as (pre & post & -> & Hn & ->).
    destruct (Z.ltb_spec URI_PROTO_LINE (Z.of_nat (length pre))); [done|].
    rewrite (proj2 (Z.leb_gt _ _)) by lia. cbn [obind]. rewrite take_app_length, <- Nat.add_1_r, drop_app_add.
    cbn. injection 1 as <- <-. split_and!; [done|done|unfold Zlen; lia].
  - intros (-> & Hn & Hl). rewrite (proj2 (strchr_Some _ _ (length format))) by by exists format, data.
    unfold Zlen in Hl. rewrite (proj2 (Z.ltb_ge _ _)), (proj2 (Z.leb_gt _ _)) by lia. cbn [obind].
    rewrite take_app_length, <- Nat.add_1_r, drop_app_add. done.
Qed.

(** [trace_create_dead] writes beyond the end of its sixteen-byte block exactly if
    the format's name has sixteen characters or more, although a name of sixteen
    is accepted elsewhere. *)
Theorem create_dead_overflow {W : Wandio} formats uri name data :
  (uri = name ++ COLON :: data ∨ uri = name) → COLON ∉ name →
  (trace_create_dead formats uri = Fault OutOfBounds ↔ URI_PROTO_LINE ≤ Zlen name).
Proof.
  intros Huri Hn. unfold trace_create_dead, dead_scan.
  assert (match strchr uri COLON with None => xstrncpy URI_PROTO_LINE uri (length uri) | Some i => xstrncpy URI_PROTO_LINE uri i end
    = xstrncpy URI_PROTO_LINE uri (length name)) as ->.
  { destruct Huri as [->| ->].
    - by rewrite (proj2 (strchr_Some _ _ (length name))) by by exists name, data.
    - by rewrite (proj2 (strchr_None name COLON)). }
  unfold xstrncpy, Zlen. destruct (Z.leb_spec URI_PROTO_LINE (Z.of_nat (length name))); cbn [obind]; [split; [lia|done]|].
  split; [|lia]. by destruct (find_format formats _).
Qed.

(** A format is found by its name, whatever the case of its letters, and the first
    one in the list wins. *)
Theorem find_format_ignores_case {W : Wandio} formats scan :
  find_format formats scan
  = head (filter (λ f, map tolower (fe_name f) = map tolower scan) formats).
Proof.
  assert (∀ s t, (length s =? length t)%nat && strncasecmp s t (length s) = bool_decide (map tolower t = map tolower s)) as Hm.
  { induction s as [|x s IH]; intros [|y t]; cbn [length strncasecmp map Nat.eqb andb]; try done.
    specialize (IH t). rewrite andb_comm, <- andb_assoc, (andb_comm (strncasecmp _ _ _)), IH.
    destruct (Z.eqb_spec (tolower x) (tolower y)) as [E|E]; cbn [andb].
    - rewrite E. apply bool_decide_ext. split; [by intros ->|by intros [= ->]].
    - symmetry. apply bool_decide_eq_false_2. congruence. }
  induction formats as [|f formats IH]; [done|]. cbn [find_format]. unfold name_matches. rewrite Hm, filter_cons, IH.
  case_bool_decide as E; case_decide as E'; done.
Qed.

(** ** Concrete URIs *)

(** A name of twenty characters. *)
Lemma create_dead_overflow_witness :
  trace_create_dead (W := memory_wandio) [] (replicate 20 97 ++ COLON :: [98]) = Fault OutOfBounds.
Proof.
  apply (create_dead_overflow [] _ (replicate 20 97) [98]); [by left|set_solver|done].
Defined.
