(* ===== verification/Filter.v ===== *)
(** * Filters: trace_create_filter to trace_apply_filter of lib/trace.c, and
    trace_copy_packet

    A filter is a string that is compiled when the first packet is seen, or a
    program given as byte code.  Compiling and running programs is libpcap's:
    [pcap_compile], for a link type's DLT number, and [bpf_filter], on captured
    bytes, are parameters.  This is the build without the LLVM compiler. *)

From S2P Require Import Prelude Byteswap Packet PktMeta Layer2 Linktypes Timestamps FormatHelper PcapFile.
Local Open Scope Z_scope.
Local Open Scope outcome_scope.

Section filters.
Context {prog : Type}.
Variable pcap_compile : Z → list Z → option prog.
Variable bpf_filter : prog → list Z → Z.
(** The contents of a newly allocated block of 65536 bytes. *)
Variable fresh : list Z.

(** [fi_filter] is meaningful if [fi_flag] is set. *)
Record libtrace_filter_t := {
  fi_string : option (list Z);
  fi_flag : bool;
  fi_filter : option prog;
}.

Definition trace_create_filter_from_bytecode (insns : prog) : libtrace_filter_t :=
  {| fi_string := None; fi_flag := true; fi_filter := Some insns |}.

Definition trace_create_filter (filterstring : list Z) : libtrace_filter_t :=
  {| fi_string := Some filterstring; fi_flag := false; fi_filter := None |}.

(** The filter, the return value and the error set in the trace of the packet.
    [linkptr]: the packet has a payload. *)
Definition trace_bpf_compile (fi : libtrace_filter_t) (linkptr : bool) (linktype : libtrace_linktype_t)
  : outcome (libtrace_filter_t * Z * option Z) :=
  let fail := let! err := trace_set_err TRACE_ERR_BAD_FILTER in Ok (fi, -1, Some err) in
  if negb linkptr then fail
  else
    match fi_string fi with
    | Some filterstring =>
        if fi_flag fi then Ok (fi, 0, None)
        else if bool_decide (linktype = TRACE_TYPE_UNKNOWN) then fail
        else if libtrace_to_pcap_dlt linktype =? TRACE_DLT_ERROR then fail
        else
          match pcap_compile (libtrace_to_pcap_dlt linktype) filterstring with
          | None => fail
          | Some filter => Ok ({| fi_string := fi_string fi; fi_flag := true; fi_filter := Some filter |}, 0, None)
          end
    | None => Ok (fi, 0, None)
    end.

(** The packet, whose lengths may be cached by the call, and the copy.  The
    cached values and the trace are those of the caller. *)
Definition trace_copy_packet (fmt : libtrace_format_t) (o : packet_obj) : outcome (packet_obj * packet_obj) :=
  let p := o_pkt o in
  let framing := trace_get_framing_length fmt p in
  let! _ := if o_header o then Ok tt else Fault NullDeref in
  let! header := slice (pk_header p) 0 framing in
  let! buffer := store fresh 0 header in
  let! ' (p, caplen) := trace_get_capture_length fmt p in
  let! _ := if o_payload o then Ok tt else Fault NullDeref in
  let! payload := slice (pk_mem p) (pk_payload p) caplen in
  let! buffer := store buffer framing payload in
  Ok (o_set_pkt o p,
      {| o_pkt := trace_clear_cache (pk_set_buffer p buffer framing (pk_type p));
         o_buffer := true; o_header := true; o_payload := true; o_buf_control := TRACE_CTRL_PACKET |}).

(** [while (libtrace_to_pcap_dlt(linktype) == TRACE_DLT_ERROR)]: the link type found,
    or [None] if the packet cannot be made simpler.  [dead]: the copy belongs to
    the dead trace of [demote_packet]. *)
Fixpoint demote_for_filter (fuel : nat) (tr : packet_trace) (o : packet_obj) (dead : bool)
    (linktype : libtrace_linktype_t)
  : outcome (option (packet_trace * packet_obj * bool * libtrace_linktype_t)) :=
  if negb (libtrace_to_pcap_dlt linktype =? TRACE_DLT_ERROR) then Ok (Some (tr, o, dead, linktype))
  else
    match fuel with
    | O => Fault OutOfFuel
    | S fuel' =>
        let! ' (tr, o, simpler) := demote_packet tr o in
        if negb simpler then Ok None
        else
          let dead := dead || bool_decide (linktype = TRACE_TYPE_ATM) in
          let '(p, linktype) := trace_get_link_type (tr_format tr) (o_pkt o) in
          demote_for_filter fuel' tr (o_set_pkt o p) dead linktype
    end.

(** Compiling and running the filter on the packet or its copy [o]: the filter,
    [o], the result and the error set in the trace of [o]. *)
Definition run_filter (fi : libtrace_filter_t) (tr : packet_trace) (o : packet_obj)
    (linktype : libtrace_linktype_t) : outcome (libtrace_filter_t * packet_obj * Z * option Z) :=
  let! ' (p, (linkptr, _, clen)) := trace_get_packet_buffer (tr_format tr) (o_pkt o) true in
  let o := o_set_pkt o p in
  if negb (o_payload o) then Ok (fi, o, 0, None)
  else
    let! ' (fi, ret, err) := trace_bpf_compile fi true linktype in
    if ret =? -1 then Ok (fi, o, -1, err)
    else
      let! _ := oassert (fi_flag fi) in
      let! bs := slice (pk_mem p) linkptr (u32 (default 0 clen)) in
      match fi_filter fi with
      | None => Fault Uninitialised
      | Some filter => Ok (fi, o, i32 (bpf_filter filter bs), err)
      end.

(** The filter, the packet, the result and the error set in the packet's trace. *)
Definition trace_apply_filter (fi : libtrace_filter_t) (tr : packet_trace) (o : packet_obj)
  : outcome (libtrace_filter_t * packet_obj * Z * option Z) :=
  let '(p, linktype) := trace_get_link_type (tr_format tr) (o_pkt o) in
  let o := o_set_pkt o p in
  if bool_decide (linktype = TRACE_TYPE_NONDATA) then Ok (fi, o, 1, None)
  else if libtrace_to_pcap_dlt linktype =? TRACE_DLT_ERROR then
    let! ' (o, copy) := trace_copy_packet (tr_format tr) o in
    let! simpler := demote_for_filter 2 tr copy false linktype in
    match simpler with
    | None =>
        let! err := trace_set_err TRACE_ERR_NO_CONVERSION in
        Ok (fi, o, -1, Some err)
    | Some (tr, copy, dead, linktype) =>
        let! ' (fi, _, ret, err) := run_filter fi tr copy linktype in
        Ok (fi, o, ret, if dead : bool then None else err)
    end
  else run_filter fi tr o linktype.
End filters.
Arguments libtrace_filter_t : clear implicits.

(** ** Copying *)

(** The copy of a packet whose framing header of [n] bytes is there holds the same
    header, the same captured bytes and the same type, if both fit into the new
    block; if they do not, the block is overrun. *)
Theorem copy_packet_correct fresh tr o lt tv bs wire n :
  describes tr (o_pkt o) lt tv bs wire → Zlen fresh = LIBTRACE_PACKET_BUFSIZE →
  o_header o = true → o_payload o = true →
  trace_get_framing_length (tr_format tr) (o_pkt o) = n → 0 ≤ n ≤ Zlen (pk_header (o_pkt o)) →
  if n + Zlen bs <=? LIBTRACE_PACKET_BUFSIZE then
    ∃ o' c, trace_copy_packet fresh (tr_format tr) o = Ok (o', c) ∧ same_data (o_pkt o) (o_pkt o') ∧
      pk_header (o_pkt c) = take (Z.to_nat n) (pk_header (o_pkt o)) ∧
      slice (pk_mem (o_pkt c)) (pk_payload (o_pkt c)) (Zlen bs) = Ok bs ∧
      pk_type (o_pkt c) = pk_type (o_pkt o)
  else trace_copy_packet fresh (tr_format tr) o = Fault OutOfBounds.
Proof.
  intros D Hf Hh Hp Hn Hn'. unfold trace_copy_packet. rewrite Hn, Hh, Hp. cbn [obind].
  pose proof (Zlen_nonneg bs).
  rewrite slice_ok by lia. cbn [obind].
  set (hd := take (Z.to_nat n) (drop (Z.to_nat 0) (pk_header (o_pkt o)))).
  assert (Zlen hd = n) as Hhd by (unfold hd, Zlen in *; rewrite length_take, length_drop; lia).
  destruct (get_capture_length_ok _ _ _ _ _ _ D) as (p1 & E1 & S1 & D1).
  destruct (Z.le_gt_cases n LIBTRACE_PACKET_BUFSIZE) as [Hle|Hgt].
  2:{ rewrite (proj2 (Z.leb_gt _ _)) by lia. unfold store. rewrite Hhd, Hf, (proj2 (Z.leb_gt (0 + n) _)) by lia.
      by rewrite andb_false_r. }
  rewrite (store_app fresh) by lia. cbn [obind]. rewrite E1. cbn [obind].
  rewrite (ds_bytes _ _ _ _ _ _ D1). cbn [obind].
  set (buf := take _ fresh ++ hd ++ drop _ fresh).
  assert (Zlen buf = LIBTRACE_PACKET_BUFSIZE) as Hbuf.
  { subst buf. unfold Zlen in *. rewrite !length_app, length_take, length_drop. lia. }
  destruct (Z.leb_spec (n + Zlen bs) LIBTRACE_PACKET_BUFSIZE).
  2:{ unfold store. by rewrite Hbuf, (proj2 (Z.leb_gt (n + _) _)), andb_false_r by lia. }
  rewrite (store_app buf) by lia. cbn [obind].
  do 2 eexists. split; [done|]. split; [exact S1|]. cbn [o_pkt trace_clear_cache pk_set_buffer pk_header pk_mem pk_payload pk_type].
  assert (length hd = Z.to_nat n) as Hl by (unfold Zlen in Hhd; lia).
  assert (take (Z.to_nat n) buf = hd) as Htake.
  { subst buf. change (take (Z.to_nat 0) fresh) with (@nil Z). cbn [app]. rewrite <- Hl. apply take_app_length. }
  rewrite Htake.
  split_and!; [|..].
  - rewrite <- Hl at 1. rewrite take_app_length. done.
  - rewrite <- Hl at 1. rewrite drop_app_length. rewrite slice_ok by (rewrite ?Zlen_app; pose proof (Zlen_nonneg (drop (Z.to_nat (n + Zlen bs)) buf)); lia).
    cbn [drop Z.to_nat]. unfold Zlen. rewrite Nat2Z.id. f_equal. apply take_app_length.
  - apply S1.
Qed.

(** ** Filtering a sequence of packets *)
Lemma dlt_known lt : libtrace_to_pcap_dlt lt ≠ TRACE_DLT_ERROR → lt ≠ TRACE_TYPE_NONDATA ∧ lt ≠ TRACE_TYPE_UNKNOWN.
Proof. intros H. by destruct lt. Qed.

Lemma filter_slice tr p lt tv bs wire : describes tr p lt tv bs wire →
  slice (pk_mem p) (pk_payload p) (u32 (Z.min wire (Zlen bs))) = Ok (take (Z.to_nat wire) bs).
Proof.
  intros D. pose proof (ds_wire_range _ _ _ _ _ _ D). pose proof (ds_cap_range _ _ _ _ _ _ D).
  pose proof (Zlen_nonneg bs). rewrite u32_small by lia.
  rewrite (slice_prefix _ _ _ _ (Z.min wire (Zlen bs)) (ds_bytes _ _ _ _ _ _ D)) by lia. f_equal.
  destruct (Z.le_gt_cases wire (Zlen bs)); [by rewrite Z.min_l by lia|].
  rewrite Z.min_r by lia. rewrite !take_ge; [done|unfold Zlen in *; lia..].
Qed.

Section runs.
Context {prog : Type} (pcap_compile : Z → list Z → option prog) (bpf_filter : prog → list Z → Z).
Context (fresh : list Z).

(** One filter applied to packets in turn: results and errors. *)
Fixpoint apply_filter_all (fi : libtrace_filter_t prog) (cs : list (packet_trace * packet_obj))
  : outcome (list (Z * option Z)) :=
  match cs with
  | [] => Ok []
  | (tr, o) :: cs' =>
      let! ' (fi, _, ret, err) := trace_apply_filter pcap_compile bpf_filter fresh fi tr o in
      let! rest := apply_filter_all fi cs' in
      Ok ((ret, err) :: rest)
  end.

(** A packet of a link type that libpcap knows. *)
Definition filterable (lc : libtrace_linktype_t * captured) : Prop :=
  describes (cp_trace lc.2) (o_pkt (cp_obj lc.2)) lc.1 (cp_time lc.2) (cp_bytes lc.2) (cp_wire lc.2) ∧
  libtrace_to_pcap_dlt lc.1 ≠ TRACE_DLT_ERROR ∧ o_payload (cp_obj lc.2) = true.

(** The bytes that count: those captured, without what is beyond the wire length. *)
Definition filter_bytes (c : captured) : list Z := take (Z.to_nat (cp_wire c)) (cp_bytes c).

(** What filtering with a string means: the program is compiled for the link type
    of the first packet for which that is possible and then kept. *)
Fixpoint filter_results (s : list Z) (compiled : option prog) (cs : list (libtrace_linktype_t * captured))
  : list (Z * option Z) :=
  match cs with
  | [] => []
  | (lt, c) :: cs' =>
      match (match compiled with Some f => Some f | None => pcap_compile (libtrace_to_pcap_dlt lt) s end) with
      | Some f => (i32 (bpf_filter f (filter_bytes c)), None) :: filter_results s (Some f) cs'
      | None => (-1, Some TRACE_ERR_BAD_FILTER) :: filter_results s None cs'
      end
  end.

(** One packet, with a filter that is compiled or has a string. *)
Lemma apply_filter_ok fi lc f :
  filterable lc →
  (if fi_flag fi then fi_filter fi = Some f
   else ∃ s, fi_string fi = Some s ∧ pcap_compile (libtrace_to_pcap_dlt lc.1) s = Some f) →
  ∃ o', trace_apply_filter pcap_compile bpf_filter fresh fi (cp_trace lc.2) (cp_obj lc.2)
    = Ok ({| fi_string := fi_string fi; fi_flag := true; fi_filter := Some f |}, o',
          i32 (bpf_filter f (filter_bytes lc.2)), None).
Proof.
  destruct lc as [lt c]. intros (D & Hdlt & Hp) Hfi. cbn [fst snd] in *. unfold trace_apply_filter.
  destruct (dlt_known lt Hdlt) as [Hn Hu].
  destruct (get_link_type_ok _ _ _ _ _ _ D) as (p1 & -> & S1 & D1).
  rewrite bool_decide_eq_false_2, (proj2 (Z.eqb_neq _ _)) by done. unfold run_filter. cbn [o_set_pkt o_pkt].
  destruct (get_packet_buffer_ok _ _ _ _ _ _ D1) as (p2 & -> & S2 & D2). cbn [obind].
  cbn [o_payload o_set_pkt]. rewrite Hp. cbn [negb].
  assert (trace_bpf_compile pcap_compile fi true lt
    = Ok ({| fi_string := fi_string fi; fi_flag := true; fi_filter := Some f |}, 0, None)) as ->.
  { unfold trace_bpf_compile. cbn [negb]. destruct fi as [str [] flt]; cbn [fi_flag fi_string fi_filter] in *.
    - rewrite Hfi. by destruct str.
    - destruct Hfi as (s & -> & Hc). rewrite bool_decide_eq_false_2 by done.
      by rewrite (proj2 (Z.eqb_neq _ _) Hdlt), Hc. }
  cbn [obind Z.eqb fi_flag oassert fi_filter]. eexists.
  assert (pk_payload p1 = pk_payload p2) as -> by (symmetry; apply S2).
  cbn [default id]. unfold id. rewrite (filter_slice _ _ _ _ _ _ D2). done.
Qed.

Lemma apply_filter_bad fi lc s :
  filterable lc → fi_flag fi = false → fi_string fi = Some s →
  pcap_compile (libtrace_to_pcap_dlt lc.1) s = None →
  ∃ o', trace_apply_filter pcap_compile bpf_filter fresh fi (cp_trace lc.2) (cp_obj lc.2)
    = Ok (fi, o', -1, Some TRACE_ERR_BAD_FILTER).
Proof.
  destruct lc as [lt c]. intros (D & Hdlt & Hp) Hfl Hs Hc. cbn [fst snd] in *. unfold trace_apply_filter.
  destruct (dlt_known lt Hdlt) as [Hn Hu].
  destruct (get_link_type_ok _ _ _ _ _ _ D) as (p1 & -> & S1 & D1).
  rewrite bool_decide_eq_false_2, (proj2 (Z.eqb_neq _ _)) by done. unfold run_filter. cbn [o_set_pkt o_pkt].
  destruct (get_packet_buffer_ok _ _ _ _ _ _ D1) as (p2 & -> & S2 & D2). cbn [obind].
  cbn [o_payload o_set_pkt]. rewrite Hp. unfold trace_bpf_compile. cbn [negb].
  rewrite Hs, Hfl, bool_decide_eq_false_2 by done. rewrite (proj2 (Z.eqb_neq _ _) Hdlt), Hc. by eexists.
Qed.

Lemma apply_filter_all_compiled s str f cs :
  Forall filterable cs →
  apply_filter_all {| fi_string := str; fi_flag := true; fi_filter := Some f |}
    (map (λ lc, (cp_trace lc.2, cp_obj lc.2)) cs) = Ok (filter_results s (Some f) cs).
Proof.
  induction cs as [|[lt c] cs IH]; intros Hcs; [done|]. apply Forall_cons in Hcs as [Hc Hcs].
  cbn [map apply_filter_all filter_results].
  destruct (apply_filter_ok {| fi_string := str; fi_flag := true; fi_filter := Some f |} (lt, c) f Hc) as [o' E]; [done|].
  cbn [snd fi_string] in E. cbn [snd]. rewrite E. cbn [obind]. by rewrite IH.
Qed.
End runs.

(** C14: A filter made from a string, applied to packets of any link types that libpcap
    knows, never faults; every result is the one of the program that was compiled
    for the link type of the first packet for which the string compiles, run on
    the captured bytes within the wire length, also where a later packet has a
    different link type; before that each result is the error that the string
    does not compile. *)
Theorem filter_string_results {prog} (pcap_compile : Z → list Z → option prog) bpf_filter fresh s cs :
  Forall filterable cs →
  apply_filter_all pcap_compile bpf_filter fresh (trace_create_filter s)
    (map (λ lc, (cp_trace lc.2, cp_obj lc.2)) cs)
  = Ok (filter_results pcap_compile bpf_filter s None cs).
Proof.
  induction cs as [|[lt c] cs IH]; intros Hcs; [done|]. apply Forall_cons in Hcs as [Hc Hcs].
  cbn [map apply_filter_all filter_results snd].
  destruct (pcap_compile (libtrace_to_pcap_dlt lt) s) as [f|] eqn:E.
  - destruct (apply_filter_ok pcap_compile bpf_filter fresh (trace_create_filter s) (lt, c) f Hc) as [o' E']; [by exists s|].
    cbn [snd] in E'. rewrite E'. cbn [obind]. by rewrite (apply_filter_all_compiled _ _ _ s) by done.
  - destruct (apply_filter_bad pcap_compile bpf_filter fresh (trace_create_filter s) (lt, c) s Hc) as [o' E']; [done..|].
    cbn [snd] in E'. rewrite E'. cbn [obind]. by rewrite IH.
Qed.

(** ** Concrete packets

    Programs are numbers here: a string compiles to the DLT number, and a program
    accepts what starts with that number. *)
Definition sample_compile (dlt : Z) (s : list Z) : option Z := Some dlt.
Definition sample_bpf (f : Z) (bs : list Z) : Z := if bool_decide (head bs = Some f) then 1500 else 0.

Definition sample_packet (lt : libtrace_linktype_t) (bs : list Z) : libtrace_linktype_t * captured :=
  (lt, {| cp_trace := sample_trace lt {| tv_sec := 0; tv_usec := 0 |} (Zlen bs) 60; cp_obj := sample_obj bs;
          cp_time := {| tv_sec := 0; tv_usec := 0 |}; cp_bytes := bs; cp_wire := 60 |}).

Lemma sample_packet_describes lt bs : Zlen bs < 1000 →
  describes (cp_trace (sample_packet lt bs).2) (o_pkt (cp_obj (sample_packet lt bs).2)) lt {| tv_sec := 0; tv_usec := 0 |} bs 60.
Proof.
  intros Hb. pose proof (Zlen_nonneg bs). split; cbn; try (by left); try lia; try done.
  - by eexists.
  - by eexists.
  - by eexists.
  - rewrite slice_ok by (change (drop (Z.to_nat 0) bs) with bs; lia).
    change (drop (Z.to_nat 0) (drop (Z.to_nat 0) bs)) with bs. rewrite take_ge; [done|]. unfold Zlen. lia.
Qed.

(** The first packet is Ethernet (1), the second raw IP (12): the second is
    filtered by the program for Ethernet. *)
Lemma filter_string_results_witness :
  apply_filter_all sample_compile sample_bpf [] (trace_create_filter [])
    (map (λ lc, (cp_trace lc.2, cp_obj lc.2))
       [sample_packet TRACE_TYPE_ETH [1; 2]; sample_packet TRACE_TYPE_NONE [12; 0]; sample_packet TRACE_TYPE_NONE [1; 0]])
  = Ok [(1500, None); (0, None); (1500, None)].
Proof.
  apply (filter_string_results sample_compile sample_bpf [] []
    [sample_packet TRACE_TYPE_ETH [1; 2]; sample_packet TRACE_TYPE_NONE [12; 0]; sample_packet TRACE_TYPE_NONE [1; 0]]).
  repeat (apply Forall_cons; split; [by split_and!; [apply sample_packet_describes|..]|]). constructor.
Defined.

Lemma copy_packet_correct_witness :
  ∃ o' c, trace_copy_packet (replicate (Z.to_nat 65536) 0) (tr_format (cp_trace (sample_packet TRACE_TYPE_ETH [1; 2; 3]).2))
      (sample_obj [1; 2; 3]) = Ok (o', c) ∧
    same_data (o_pkt (sample_obj [1; 2; 3])) (o_pkt o') ∧
    pk_header (o_pkt c) = [] ∧ slice (pk_mem (o_pkt c)) (pk_payload (o_pkt c)) 3 = Ok [1; 2; 3] ∧ pk_type (o_pkt c) = 0.
Proof.
  apply (copy_packet_correct (replicate (Z.to_nat 65536) 0) (cp_trace (sample_packet TRACE_TYPE_ETH [1; 2; 3]).2)
    (sample_obj [1; 2; 3]) TRACE_TYPE_ETH {| tv_sec := 0; tv_usec := 0 |} [1; 2; 3] 60 0).
  - by apply (sample_packet_describes TRACE_TYPE_ETH [1; 2; 3]).
  - by rewrite Zlen_replicate.
  - done.
  - done.
  - done.
  - done.
Defined.
