(* ===== verification/Trace.v ===== *)
(** * Traces and packets as objects: the life cycle of lib/trace.c

    A trace remembers the packet it read last, and a packet the trace it belongs
    to; starting, pausing, reading, finishing and destroying keep the two in step.
    Traces, packets, filters and buckets are objects of a heap each ([world]);
    reading through a pointer to an object that has been freed is the fault
    [Dangling].

    A format module is a table of functions on the format's data and the packet.
    A function of a module that sets the trace's error returns it.  The traces
    are those of the sequential interface (state NEW, no threads) for which a
    format was found. *)

From S2P Require Import Prelude DNodes Packet PktMeta Linktypes Timestamps FormatHelper PcapFile Buckets Filter.
Local Open Scope Z_scope.
Local Open Scope outcome_scope.

Inductive trace_option_t :=
| TRACE_OPTION_SNAPLEN | TRACE_OPTION_PROMISC | TRACE_OPTION_FILTER | TRACE_OPTION_META_FREQ
| TRACE_OPTION_EVENT_REALTIME | TRACE_OPTION_HASHER.

Inductive hasher_types := HASHER_BALANCE | HASHER_BIDIRECTIONAL | HASHER_UNIDIRECTIONAL | HASHER_CUSTOM.
#[export] Instance hasher_types_eq_dec : EqDecision hasher_types.
Proof. solve_decision. Defined.

(** A hasher is the user's function, or [toeplitz_hash_packet] with a configuration
    for one or for both directions. *)
Inductive fn_hasher := HasherUser (fn : positive) | HasherToeplitz (bidirectional : bool).

(** The argument of a configuration call: a number, a filter or a kind of hasher. *)
Inductive option_value := VInt (n : Z) | VFilter (f : loc) | VHasher (h : hasher_types).

Section traces.
Context {F prog : Type}.
Variable pcap_compile : Z → list Z → option prog.
Variable bpf_filter : prog → list Z → Z.
(** The contents of newly allocated memory. *)
Variable fresh : list Z.

(** What [read_packet] does: the format's data, the buckets, the packet, the
    bucket and id it was given, the error set and the return value. *)
Record read_result := {
  rr_data : F;
  rr_buckets : gmap loc libtrace_bucket_t;
  rr_obj : packet_obj;
  rr_bucket : option (loc * Z);
  rr_err : option Z;
  rr_ret : Z;
}.

Record format_module := {
  fm_table : F → packet_trace;
  fm_start_input : option (F → outcome (F * option Z * Z));
  fm_pause_input : option (F → F);
  fm_config_input : option (F → trace_option_t → option_value → F * option Z * Z);
  fm_read_packet : option (F → gmap loc libtrace_bucket_t → packet_obj → outcome read_result);
  fm_prepare_packet : option (F → packet_obj → list Z → Z → Z → outcome (F * packet_obj * option Z * Z));
  fm_fin_packet : option (F → packet_obj → F * packet_obj);
  fm_parallel : bool;
}.

(** A mutex of the trace.  Locking or unlocking one that has been destroyed is
    undefined; it is the fault [Dangling]. *)
Inductive mutex := MFree | MHeld | MDestroyed.

Definition mutex_lock (m : mutex) : outcome mutex :=
  match m with MFree => Ok MHeld | MHeld => Fault Blocked | MDestroyed => Fault Dangling end.
Definition mutex_unlock (m : mutex) : outcome mutex :=
  match m with MHeld => Ok MFree | MFree => Fault BadUnlock | MDestroyed => Fault Dangling end.
(** [ASSERT_RET(pthread_mutex_destroy(...), == 0)]: destroying a held mutex returns
    [EBUSY]. *)
Definition mutex_destroy (m : mutex) : outcome mutex :=
  match m with MFree => Ok MDestroyed | MHeld => Fault AssertFailed | MDestroyed => Fault Dangling end.

(** The fields of [libtrace_t] that the sequential interface uses. *)
Record libtrace_t := {
  tr_module : format_module;
  tr_data : F;
  tr_err : Z;
  tr_started : bool;
  tr_filter : option loc;
  tr_snaplen : Z;
  tr_filtered_packets : Z;
  tr_accepted_packets : Z;
  tr_sequence_number : Z;
  tr_last_packet : option loc;
  tr_lock : mutex;
  tr_hasher_type : hasher_types;
  tr_hasher : option fn_hasher;
}.

Record packet := {
  tp_obj : packet_obj;
  tp_trace : option loc;
  tp_order : Z;
  tp_hash : Z;
  tp_srcbucket : option loc;
  tp_internalid : Z;
}.

Record world := {
  w_traces : gmap loc libtrace_t;
  w_packets : gmap loc packet;
  w_filters : gmap loc (libtrace_filter_t prog);
  w_buckets : gmap loc libtrace_bucket_t;
  w_parallel : bool;
}.

(** ** Reading and writing objects *)
Definition load {A} (m : gmap loc A) (x : loc) : outcome A :=
  match m !! x with Some a => Ok a | None => Fault Dangling end.

Definition set_trace (w : world) (t : loc) (tr : libtrace_t) : world :=
  {| w_traces := <[t := tr]> (w_traces w); w_packets := w_packets w; w_filters := w_filters w;
     w_buckets := w_buckets w; w_parallel := w_parallel w |}.
Definition set_packet (w : world) (p : loc) (pk : packet) : world :=
  {| w_traces := w_traces w; w_packets := <[p := pk]> (w_packets w); w_filters := w_filters w;
     w_buckets := w_buckets w; w_parallel := w_parallel w |}.
Definition set_filter (w : world) (f : loc) (fi : libtrace_filter_t prog) : world :=
  {| w_traces := w_traces w; w_packets := w_packets w; w_filters := <[f := fi]> (w_filters w);
     w_buckets := w_buckets w; w_parallel := w_parallel w |}.
Definition set_buckets (w : world) (bs : gmap loc libtrace_bucket_t) : world :=
  {| w_traces := w_traces w; w_packets := w_packets w; w_filters := w_filters w;
     w_buckets := bs; w_parallel := w_parallel w |}.

Definition tr_set (tr : libtrace_t) (data : F) (err : Z) (started : bool) (last : option loc) (lock : mutex) : libtrace_t :=
  {| tr_module := tr_module tr; tr_data := data; tr_err := err; tr_started := started; tr_filter := tr_filter tr;
     tr_snaplen := tr_snaplen tr; tr_filtered_packets := tr_filtered_packets tr;
     tr_accepted_packets := tr_accepted_packets tr; tr_sequence_number := tr_sequence_number tr;
     tr_last_packet := last; tr_lock := lock; tr_hasher_type := tr_hasher_type tr; tr_hasher := tr_hasher tr |}.
Definition tr_set_err (tr : libtrace_t) (err : Z) : libtrace_t :=
  tr_set tr (tr_data tr) err (tr_started tr) (tr_last_packet tr) (tr_lock tr).
Definition tr_set_data (tr : libtrace_t) (data : F) (err : option Z) : libtrace_t :=
  tr_set tr data (default (tr_err tr) err) (tr_started tr) (tr_last_packet tr) (tr_lock tr).
Definition tr_set_last (tr : libtrace_t) (last : option loc) : libtrace_t :=
  tr_set tr (tr_data tr) (tr_err tr) (tr_started tr) last (tr_lock tr).
Definition tr_set_counts (tr : libtrace_t) (filtered accepted seq : Z) : libtrace_t :=
  {| tr_module := tr_module tr; tr_data := tr_data tr; tr_err := tr_err tr; tr_started := tr_started tr;
     tr_filter := tr_filter tr; tr_snaplen := tr_snaplen tr; tr_filtered_packets := filtered;
     tr_accepted_packets := accepted; tr_sequence_number := seq;
     tr_last_packet := tr_last_packet tr; tr_lock := tr_lock tr; tr_hasher_type := tr_hasher_type tr; tr_hasher := tr_hasher tr |}.
Definition tr_set_options (tr : libtrace_t) (filter : option loc) (snaplen : Z) : libtrace_t :=
  {| tr_module := tr_module tr; tr_data := tr_data tr; tr_err := tr_err tr; tr_started := tr_started tr;
     tr_filter := filter; tr_snaplen := snaplen; tr_filtered_packets := tr_filtered_packets tr;
     tr_accepted_packets := tr_accepted_packets tr; tr_sequence_number := tr_sequence_number tr;
     tr_last_packet := tr_last_packet tr; tr_lock := tr_lock tr; tr_hasher_type := tr_hasher_type tr; tr_hasher := tr_hasher tr |}.
Definition tr_set_hasher (tr : libtrace_t) (type : hasher_types) (hasher : option fn_hasher) : libtrace_t :=
  {| tr_module := tr_module tr; tr_data := tr_data tr; tr_err := tr_err tr; tr_started := tr_started tr;
     tr_filter := tr_filter tr; tr_snaplen := tr_snaplen tr; tr_filtered_packets := tr_filtered_packets tr;
     tr_accepted_packets := tr_accepted_packets tr; tr_sequence_number := tr_sequence_number tr;
     tr_last_packet := tr_last_packet tr; tr_lock := tr_lock tr; tr_hasher_type := type; tr_hasher := hasher |}.

Definition tp_set_obj (pk : packet) (o : packet_obj) : packet :=
  {| tp_obj := o; tp_trace := tp_trace pk; tp_order := tp_order pk; tp_hash := tp_hash pk;
     tp_srcbucket := tp_srcbucket pk; tp_internalid := tp_internalid pk |}.
Definition tp_set_trace (pk : packet) (t : option loc) : packet :=
  {| tp_obj := tp_obj pk; tp_trace := t; tp_order := tp_order pk; tp_hash := tp_hash pk;
     tp_srcbucket := tp_srcbucket pk; tp_internalid := tp_internalid pk |}.
Definition trace_packet_set_order (pk : packet) (order : Z) : packet :=
  {| tp_obj := tp_obj pk; tp_trace := tp_trace pk; tp_order := order; tp_hash := tp_hash pk;
     tp_srcbucket := tp_srcbucket pk; tp_internalid := tp_internalid pk |}.
Definition tp_set_bucket (pk : packet) (b : option (loc * Z)) : packet :=
  match b with
  | None => pk
  | Some (b, id) =>
      {| tp_obj := tp_obj pk; tp_trace := tp_trace pk; tp_order := tp_order pk; tp_hash := tp_hash pk;
         tp_srcbucket := Some b; tp_internalid := id |}
  end.

(** ** Errors *)
Definition trace_is_err (tr : libtrace_t) : bool := negb (tr_err tr =? 0).
Definition trace_get_err (tr : libtrace_t) : libtrace_t * Z := (tr_set_err tr 0, tr_err tr).

(** [trace_set_err] on the trace, and the value the caller returns. *)
Definition fail_with (w : world) (t : loc) (tr : libtrace_t) (code ret : Z) : outcome (world * Z) :=
  let! err := trace_set_err code in Ok (set_trace w t (tr_set_err tr err), ret).

(** ** Packets *)

(** A new packet at the address [p]. *)
Definition empty_packet : libtrace_packet_t :=
  {| pk_header := []; pk_mem := []; pk_payload := 0; pk_type := 0; pk_capture_length := -1; pk_wire_length := -1;
     pk_payload_length := -1; pk_l2_header := None; pk_link_type := None; pk_l2_remaining := 0; pk_l3_header := None;
     pk_l3_ethertype := 0; pk_l3_remaining := 0; pk_l4_header := None; pk_transport_proto := 0; pk_l4_remaining := 0 |}.

Definition trace_create_packet (w : world) (p : loc) : world :=
  set_packet w p
    {| tp_obj := {| o_pkt := empty_packet; o_buffer := false; o_header := false; o_payload := false;
                    o_buf_control := TRACE_CTRL_PACKET |};
       tp_trace := None; tp_order := 0; tp_hash := 0; tp_srcbucket := None; tp_internalid := 0 |}.

(** The format's [fin_packet], if there is one. *)
Definition format_fin_packet (w : world) (t p : loc) : outcome world :=
  let! tr := load (w_traces w) t in
  match fm_fin_packet (tr_module tr) with
  | None => Ok w
  | Some fin =>
      let! pk := load (w_packets w) p in
      let '(data, o) := fin (tr_data tr) (tp_obj pk) in
      Ok (set_packet (set_trace w t (tr_set_data tr data None)) p (tp_set_obj pk o))
  end.

Definition trace_destroy_packet (w : world) (p : loc) : outcome world :=
  let! pk := load (w_packets w) p in
  let! w :=
    match tp_trace pk with
    | Some t => if w_parallel w then format_fin_packet w t p else Ok w
    | None => Ok w
    end in
  let! pk := load (w_packets w) p in
  let! w :=
    match tp_trace pk with
    | Some t =>
        let! tr := load (w_traces w) t in
        Ok (if bool_decide (tr_last_packet tr = Some p) then set_trace w t (tr_set_last tr None) else w)
    | None => Ok w
    end in
  Ok {| w_traces := w_traces w; w_packets := delete p (w_packets w); w_filters := w_filters w;
        w_buckets := w_buckets w; w_parallel := w_parallel w |}.

Definition release_bucket (w : world) (pk : packet) : outcome world :=
  match tp_srcbucket pk with
  | Some b =>
      if tp_internalid pk =? 0 then Ok w
      else
        let! bucket := load (w_buckets w) b in
        let! bucket := libtrace_release_bucket_id bucket (tp_internalid pk) in
        Ok (set_buckets w (<[b := bucket]> (w_buckets w)))
  | None => Ok w
  end.

(** The trace forgets the packet, under its lock. *)
Definition forget_packet (w : world) (t p : loc) : outcome world :=
  let! tr := load (w_traces w) t in
  let! held := mutex_lock (tr_lock tr) in
  let last := if bool_decide (tr_last_packet tr = Some p) then None else tr_last_packet tr in
  let! held := mutex_unlock held in
  Ok (set_trace w t (tr_set tr (tr_data tr) (tr_err tr) (tr_started tr) last held)).

(** The packet after it has been finished. *)
Definition finished (pk : packet) : packet :=
  let o := tp_obj pk in
  {| tp_obj := {| o_pkt := trace_clear_cache (o_pkt o);
                  o_buffer := if bool_decide (o_buf_control o = TRACE_CTRL_PACKET) then o_buffer o else false;
                  o_header := false; o_payload := false; o_buf_control := o_buf_control o |};
     tp_trace := None; tp_order := 0; tp_hash := 0; tp_srcbucket := None; tp_internalid := tp_internalid pk |}.

Definition trace_fin_packet (w : world) (p : loc) : outcome world :=
  let! pk := load (w_packets w) p in
  let! w := match tp_trace pk with Some t => format_fin_packet w t p | None => Ok w end in
  let! pk := load (w_packets w) p in
  let! w := release_bucket w pk in
  let! w := match tp_trace pk with Some t => forget_packet w t p | None => Ok w end in
  Ok (set_packet w p (finished pk)).

(** ** Starting, pausing and destroying traces *)
Definition trace_start (w : world) (t : loc) : outcome (world * Z) :=
  let! tr := load (w_traces w) t in
  if trace_is_err tr then Ok (w, -1)
  else
    let! ' (tr, ret) :=
      match fm_start_input (tr_module tr) with
      | Some start => let! ' (data, err, ret) := start (tr_data tr) in Ok (tr_set_data tr data err, ret)
      | None => Ok (tr, 0)
      end in
    if ret <? 0 then Ok (set_trace w t tr, ret)
    else Ok (set_trace w t (tr_set tr (tr_data tr) (tr_err tr) true (tr_last_packet tr) (tr_lock tr)), 0).

(** [if (last_packet) trace_fin_packet(last_packet); assert(last_packet == NULL);] *)
Definition fin_last_packet (w : world) (t : loc) : outcome world :=
  let! tr := load (w_traces w) t in
  let! w := match tr_last_packet tr with Some p => trace_fin_packet w p | None => Ok w end in
  let! tr := load (w_traces w) t in
  let! _ := oassert (bool_decide (tr_last_packet tr = None)) in
  Ok w.

Definition pause_data (tr : libtrace_t) : F :=
  match fm_pause_input (tr_module tr) with Some pause => pause (tr_data tr) | None => tr_data tr end.

Definition trace_pause (w : world) (t : loc) : outcome (world * Z) :=
  let! tr := load (w_traces w) t in
  if negb (tr_started tr) then fail_with w t tr TRACE_ERR_BAD_STATE (-1)
  else
    let! w := fin_last_packet w t in
    let! tr := load (w_traces w) t in
    Ok (set_trace w t (tr_set tr (pause_data tr) (tr_err tr) false (tr_last_packet tr) (tr_lock tr)), 0).

(** The mutex is destroyed before the last packet is finished.  The format's
    [pause_input] and [fin_input] only change the format's data, which is freed
    with the trace. *)
Definition trace_destroy (w : world) (t : loc) : outcome world :=
  let! tr := load (w_traces w) t in
  let! lock := mutex_destroy (tr_lock tr) in
  let w := set_trace w t (tr_set tr (tr_data tr) (tr_err tr) (tr_started tr) (tr_last_packet tr) lock) in
  let! w := fin_last_packet w t in
  Ok {| w_traces := delete t (w_traces w); w_packets := w_packets w; w_filters := w_filters w;
        w_buckets := w_buckets w; w_parallel := w_parallel w |}.

(** ** Configuration *)
Definition config_input (tr : libtrace_t) (option : trace_option_t) (value : option_value) : libtrace_t * Z :=
  match fm_config_input (tr_module tr) with
  | Some config =>
      let '(data, err, ret) := config (tr_data tr) option value in
      (tr_set_data tr data err, ret)
  | None => (tr, -1)
  end.

Definition trace_set_hasher (tr : libtrace_t) (type : hasher_types) (hasher : option fn_hasher) : libtrace_t * Z :=
  if bool_decide ((type = HASHER_CUSTOM ∧ hasher = None) ∨ (type = HASHER_BALANCE ∧ hasher ≠ None)) then (tr, -1)
  else
    let tr := tr_set_hasher tr type hasher in
    let '(tr, ret) :=
      if fm_parallel (tr_module tr) then config_input tr TRACE_OPTION_HASHER (VHasher type) else (tr, -1) in
    if ret =? -1 then
      match hasher with
      | None =>
          match type with
          | HASHER_CUSTOM | HASHER_BALANCE => (tr, 0)
          | HASHER_BIDIRECTIONAL => (tr_set_hasher tr type (Some (HasherToeplitz true)), 0)
          | HASHER_UNIDIRECTIONAL => (tr_set_hasher tr type (Some (HasherToeplitz false)), 0)
          end
      | Some _ => (tr, 0)
      end
    else (tr_set_hasher tr type None, 0).

(** An option that only a format can support: an error unless the format has
    already set one. *)
Definition unsupported_option (tr : libtrace_t) (code : Z) : outcome (libtrace_t * Z) :=
  if trace_is_err tr then Ok (tr, -1)
  else let! err := trace_set_err code in Ok (tr_set_err tr err, -1).

Definition clear_err (tr : libtrace_t) : libtrace_t :=
  if trace_is_err tr then fst (trace_get_err tr) else tr.

(** What libtrace does itself, if the format did not accept the option. *)
Definition config_native (tr : libtrace_t) (option : trace_option_t) (value : option_value)
  : outcome (libtrace_t * Z) :=
  match option, value with
  | TRACE_OPTION_SNAPLEN, VInt n =>
      let tr := clear_err tr in
      let! tr :=
        if (n <? 0) || (LIBTRACE_PACKET_BUFSIZE <? n) then
          let! err := trace_set_err TRACE_ERR_BAD_STATE in Ok (tr_set_err tr err)
        else Ok tr in
      Ok (tr_set_options tr (tr_filter tr) (u64 n), 0)
  | TRACE_OPTION_FILTER, VFilter f =>
      let tr := clear_err tr in
      Ok (tr_set_options tr (Some f) (tr_snaplen tr), 0)
  | TRACE_OPTION_HASHER, _ => Ok (tr, -1)
  | TRACE_OPTION_PROMISC, _ | TRACE_OPTION_META_FREQ, _ | TRACE_OPTION_EVENT_REALTIME, _ =>
      unsupported_option tr TRACE_ERR_OPTION_UNAVAIL
  | _, _ => Fault OutOfBounds (* an argument of the wrong type *)
  end.

Definition trace_config (tr : libtrace_t) (option : trace_option_t) (value : option_value)
  : outcome (libtrace_t * Z) :=
  if trace_is_err tr then Ok (tr, -1)
  else
    match option, value with
    | TRACE_OPTION_HASHER, VHasher type => Ok (trace_set_hasher tr type None)
    | _, _ =>
        match fm_config_input (tr_module tr) with
        | Some _ =>
            let '(tr, ret) := config_input tr option value in
            if ret =? 0 then Ok (tr, 0) else config_native tr option value
        | None => config_native tr option value
        end
    end.

(** The shorthands; a boolean is passed as 0 or 1. *)
Definition trace_set_snaplen (tr : libtrace_t) (snaplen : Z) := trace_config tr TRACE_OPTION_SNAPLEN (VInt snaplen).
Definition trace_set_promisc (tr : libtrace_t) (promisc : bool) :=
  trace_config tr TRACE_OPTION_PROMISC (VInt (if promisc then 1 else 0)).
Definition trace_set_filter (tr : libtrace_t) (filter : loc) := trace_config tr TRACE_OPTION_FILTER (VFilter filter).
Definition trace_set_meta_freq (tr : libtrace_t) (freq : Z) := trace_config tr TRACE_OPTION_META_FREQ (VInt freq).
Definition trace_set_event_realtime (tr : libtrace_t) (realtime : bool) :=
  trace_config tr TRACE_OPTION_EVENT_REALTIME (VInt (if realtime then 1 else 0)).

(** ** Reading *)

(** One round of the loop: [Some] result to return, or [None] to read on. *)
Definition read_round (read : F → gmap loc libtrace_bucket_t → packet_obj → outcome read_result)
    (w : world) (t p : loc) : outcome (world * option Z) :=
  let! pk := load (w_packets w) p in
  let! tr := load (w_traces w) t in
  let! rr := read (tr_data tr) (w_buckets w) (tp_obj pk) in
  let tr := tr_set_data tr (rr_data rr) (rr_err rr) in
  let pk := tp_set_bucket (tp_set_obj (tp_set_trace pk (Some t)) (rr_obj rr)) (rr_bucket rr) in
  let w := set_packet (set_trace (set_buckets w (rr_buckets rr)) t tr) p pk in
  if (rr_ret rr =? -1) || (rr_ret rr =? 0) then Ok (w, Some (rr_ret rr))
  else
    let! ' (w, filtret) :=
      match tr_filter tr with
      | None => Ok (w, None)
      | Some f =>
          let! fi := load (w_filters w) f in
          let! ' (fi, o, filtret, err) :=
            trace_apply_filter pcap_compile bpf_filter fresh fi (fm_table (tr_module tr) (tr_data tr)) (tp_obj pk) in
          Ok (set_packet (set_trace (set_filter w f fi) t (tr_set_data tr (tr_data tr) err)) p (tp_set_obj pk o),
              Some filtret)
      end in
    let! tr := load (w_traces w) t in
    match filtret with
    | Some (-1) => Ok (w, Some (-1))
    | Some 0 =>
        let w := set_trace w t (tr_set_counts tr (u64 (tr_filtered_packets tr + 1)) (tr_accepted_packets tr)
                                  (tr_sequence_number tr)) in
        let! w := trace_fin_packet w p in
        Ok (w, None)
    | _ =>
        let! pk := load (w_packets w) p in
        let o := tp_obj pk in
        let o := if 0 <? tr_snaplen tr
                 then o_set_pkt o (trace_set_capture_length (tr_format (fm_table (tr_module tr) (tr_data tr)))
                                     (o_pkt o) (tr_snaplen tr)).1
                 else o in
        let pk := trace_packet_set_order (tp_set_obj pk o) (tr_sequence_number tr) in
        let tr := tr_set_counts tr (tr_filtered_packets tr) (u64 (tr_accepted_packets tr + 1))
                    (u64 (tr_sequence_number tr + 1)) in
        let tr := tr_set_last tr (if bool_decide (tp_trace pk = Some t) then Some p else tr_last_packet tr) in
        Ok (set_packet (set_trace w t tr) p pk, Some (rr_ret rr))
    end.

(** [do ... while(1)] *)
Fixpoint read_loop (fuel : nat) (read : F → gmap loc libtrace_bucket_t → packet_obj → outcome read_result)
    (w : world) (t p : loc) : outcome (world * Z) :=
  match fuel with
  | O => Fault OutOfFuel
  | S fuel' =>
      let! ' (w, result) := read_round read w t p in
      match result with
      | Some ret => Ok (w, ret)
      | None => read_loop fuel' read w t p
      end
  end.

(** The buffer control of an allocated packet is always one of the two valid
    values. *)
Definition trace_read_packet (fuel : nat) (w : world) (t p : loc) : outcome (world * Z) :=
  let! tr := load (w_traces w) t in
  if trace_is_err tr then Ok (w, -1)
  else if negb (tr_started tr) then fail_with w t tr TRACE_ERR_BAD_STATE (-1)
  else
    let! pk := load (w_packets w) p in
    match fm_read_packet (tr_module tr) with
    | Some read =>
        let! w := if bool_decide (tp_trace pk = Some t) then trace_fin_packet w p else Ok w in
        read_loop fuel read w t p
    | None => fail_with w t tr TRACE_ERR_UNSUPPORTED (-1)
    end.

(** The buffer may be null. *)
Definition trace_prepare_packet (w : world) (t p : loc) (buffer : option (list Z)) (rt_type flags : Z)
  : outcome (world * Z) :=
  let! pk := load (w_packets w) p in
  let! tr := load (w_traces w) t in
  match buffer with
  | None => Ok (w, -1)
  | Some buffer =>
      let! held := mutex_lock (tr_lock tr) in
      let! held := mutex_unlock held in
      let tr := tr_set tr (tr_data tr) (tr_err tr) (tr_started tr) (Some p) held in
      let o := o_set_pkt (tp_obj pk) (trace_clear_cache (o_pkt (tp_obj pk))) in
      let w := set_packet (set_trace w t tr) p (tp_set_obj (tp_set_trace pk (Some t)) o) in
      match fm_prepare_packet (tr_module tr) with
      | Some prepare =>
          let! ' (data, o, err, ret) := prepare (tr_data tr) o buffer rt_type flags in
          Ok (set_packet (set_trace w t (tr_set_data tr data err)) p (tp_set_obj (tp_set_trace pk (Some t)) o), ret)
      | None => fail_with w t tr TRACE_ERR_UNSUPPORTED (-1)
      end
  end.
End traces.

Arguments world : clear implicits.
Arguments format_module : clear implicits.
Arguments libtrace_t : clear implicits.
Arguments read_result : clear implicits.

(** ** Output traces

    The format's functions work on its data, and return the error they set. *)
Section outputs.
Context {O : Type}.

Record output_module := {
  om_start_output : option (O → O * option Z * Z);
  om_config_output : option (O → Z → Z → O * option Z * Z);
  om_write_packet : option (O → packet → outcome (O * packet * option Z * Z));
}.

Record libtrace_out_t := {
  lo_module : output_module;
  lo_data : O;
  lo_err : Z;
  lo_started : bool;
}.

Definition lo_set (lo : libtrace_out_t) (data : O) (err : option Z) (started : bool) : libtrace_out_t :=
  {| lo_module := lo_module lo; lo_data := data; lo_err := default (lo_err lo) err; lo_started := started |}.

Definition trace_start_output (lo : libtrace_out_t) : libtrace_out_t * Z :=
  let '(lo, ret) :=
    match om_start_output (lo_module lo) with
    | Some start => let '(data, err, ret) := start (lo_data lo) in (lo_set lo data err (lo_started lo), ret)
    | None => (lo, 0)
    end in
  if ret <? 0 then (lo, ret) else (lo_set lo (lo_data lo) None true, 0).

Definition trace_config_output (lo : libtrace_out_t) (option value : Z) : libtrace_out_t * Z :=
  match om_config_output (lo_module lo) with
  | Some config => let '(data, err, ret) := config (lo_data lo) option value in (lo_set lo data err (lo_started lo), ret)
  | None => (lo, -1)
  end.

Definition trace_write_packet (lo : libtrace_out_t) (pk : packet) : outcome (libtrace_out_t * packet * Z) :=
  if negb (lo_started lo) then
    let! err := trace_set_err_out TRACE_ERR_BAD_STATE in
    Ok (lo_set lo (lo_data lo) (Some err) (lo_started lo), pk, -1)
  else
    match om_write_packet (lo_module lo) with
    | Some write =>
        let! ' (data, pk, err, ret) := write (lo_data lo) pk in
        Ok (lo_set lo data err (lo_started lo), pk, ret)
    | None =>
        let! err := trace_set_err_out TRACE_ERR_UNSUPPORTED in
        Ok (lo_set lo (lo_data lo) (Some err) (lo_started lo), pk, -1)
    end.
End outputs.

(** ** Well-formed worlds *)
Section invariant.
Context {F prog : Type} (pcap_compile : Z → list Z → option prog) (bpf_filter : prog → list Z → Z)
  (fresh : list Z) (left : F → nat).
Implicit Types (w : world F prog) (tr : libtrace_t F) (t p q f : loc) (pk : packet).

(** A filter that [trace_create_filter] or [trace_create_filter_from_bytecode] made,
    compiled or not. *)
Definition filter_ok (fi : libtrace_filter_t prog) : Prop :=
  if fi_flag fi then fi_filter fi ≠ None else fi_string fi ≠ None.

(** Applying a filter keeps it so. *)
Lemma run_filter_keeps fi ptr o lt fi' o' ret err :
  filter_ok fi → run_filter pcap_compile bpf_filter fi ptr o lt = Ok (fi', o', ret, err) → filter_ok fi'.
Proof.
  intros Hfi H. unfold run_filter in H. obind_inv H. destruct a as [p [[linkptr x] clen]].
  cbn [o_set_pkt o_payload] in H. destruct (o_payload o); cbn [negb] in H; [|by injection H as <- _ _ _].
  obind_inv H. destruct a as [[fi1 ret1] err1].
  assert (filter_ok fi1) as Hfi1.
  { unfold trace_bpf_compile in Hstep0. cbn [negb] in Hstep0.
    repeat case_match; simplify_eq/=; try done. }
  destruct (ret1 =? -1); [by injection H as <- _ _ _|]. obind_inv H. obind_inv H.
  destruct (fi_filter fi1); [|done]. by injection H as <- _ _ _.
Qed.

Lemma apply_filter_keeps fi ptr o fi' o' ret err :
  filter_ok fi → trace_apply_filter pcap_compile bpf_filter fresh fi ptr o = Ok (fi', o', ret, err) → filter_ok fi'.
Proof.
  intros Hfi H. unfold trace_apply_filter in H. destruct (trace_get_link_type _ _) as [p lt].
  case_bool_decide; [by injection H as <- _ _ _|]. destruct (_ =? _); [|by eapply run_filter_keeps].
  obind_inv H. destruct a as [o1 copy]. obind_inv H. destruct a as [[[[ptr1 copy1] dead] lt1]|].
  - obind_inv H. destruct a as [[[fi1 o2] r1] e1]. injection H as <- _ _ _. by eapply run_filter_keeps.
  - obind_inv H. by injection H as <- _ _ _.
Qed.

(** What the trace relies on: a packet read leaves fewer packets to read and is not
    kept in a bucket, and finishing one leaves no more.  The functions of a module
    may fail; [start_fault] and [read_fault] are the faults that they, and the
    filters on the packets read, can end in. *)
Record module_ok (m : format_module F) : Prop := {
  mo_read : ∀ read data bs o rr, fm_read_packet m = Some read → read data bs o = Ok rr →
    rr_bucket rr = None ∧ (rr_ret rr ≠ -1 ∧ rr_ret rr ≠ 0 → (left (rr_data rr) < left data)%nat);
  mo_fin : ∀ fin data o, fm_fin_packet m = Some fin → (left (fin data o).1 ≤ left data)%nat;
}.

Definition start_fault (m : format_module F) (e : fault) : Prop :=
  ∃ start data, fm_start_input m = Some start ∧ start data = Fault e.

Definition read_fault (m : format_module F) (e : fault) : Prop :=
  ∃ read data bs o, fm_read_packet m = Some read ∧
    (read data bs o = Fault e ∨
     ∃ rr fi, read data bs o = Ok rr ∧ filter_ok fi ∧
       trace_apply_filter pcap_compile bpf_filter fresh fi (fm_table m (rr_data rr)) (rr_obj rr) = Fault e).

(** [inv_last]: the packet a trace read last is alive and belongs to it.
    [inv_trace]: the trace of a packet is alive. *)
Record winv w : Prop := {
  inv_last : ∀ t tr p, w_traces w !! t = Some tr → tr_last_packet tr = Some p →
    ∃ pk, w_packets w !! p = Some pk ∧ tp_trace pk = Some t;
  inv_trace : ∀ p pk t, w_packets w !! p = Some pk → tp_trace pk = Some t → is_Some (w_traces w !! t);
  inv_lock : ∀ t tr, w_traces w !! t = Some tr → tr_lock tr = MFree ∧ module_ok (tr_module tr);
  inv_filter : ∀ t tr f, w_traces w !! t = Some tr → tr_filter tr = Some f → is_Some (w_filters w !! f);
  inv_filters : ∀ f fi, w_filters w !! f = Some fi → filter_ok fi;
  inv_bucket : ∀ p pk, w_packets w !! p = Some pk → tp_srcbucket pk = None;
}.

(** No other trace has read [p] last. *)
Definition only_last w t p : Prop :=
  ∀ t' tr', w_traces w !! t' = Some tr' → tr_last_packet tr' = Some p → t' = t.

Lemma load_Some {A} (m : gmap loc A) x a : m !! x = Some a → load m x = Ok a.
Proof. intros E. unfold load. by rewrite E. Qed.

(** Two traces that differ in data, error, start, counts or hasher. *)
Definition same_links tr tr' : Prop :=
  tr_module tr' = tr_module tr ∧ tr_lock tr' = tr_lock tr ∧ tr_filter tr' = tr_filter tr.

Lemma winv_set_trace_gen w t tr' :
  winv w → tr_lock tr' = MFree → module_ok (tr_module tr') →
  (∀ f, tr_filter tr' = Some f → is_Some (w_filters w !! f)) →
  (∀ p, tr_last_packet tr' = Some p → ∃ pk, w_packets w !! p = Some pk ∧ tp_trace pk = Some t) →
  winv (set_trace w t tr').
Proof.
  intros [Hl Ht Hk Hf Hfs Hb] Hlk Hm Hft Hlast. split; cbn [set_trace w_traces w_packets w_filters].
  - intros t1 tr1 p1. rewrite lookup_insert. case_decide; [intros [= <-]; subst; apply Hlast|apply Hl].
  - intros p1 pk1 t1 E1 E2. rewrite lookup_insert. case_decide; [by eexists|by eapply Ht].
  - intros t1 tr1. rewrite lookup_insert. case_decide; [by intros [= <-]|apply Hk].
  - intros t1 tr1 f1. rewrite lookup_insert. case_decide; [intros [= <-]; apply Hft|apply Hf].
  - done.
  - done.
Qed.

Lemma winv_set_trace w t tr tr' :
  winv w → w_traces w !! t = Some tr → same_links tr tr' →
  (∀ p, tr_last_packet tr' = Some p → ∃ pk, w_packets w !! p = Some pk ∧ tp_trace pk = Some t) →
  winv (set_trace w t tr').
Proof.
  intros W E (Hm & Hlk & Hft) Hlast. destruct (inv_lock _ W _ _ E) as [Hlk' Hm'].
  apply winv_set_trace_gen; [done|by rewrite Hlk|by rewrite Hm| |done]. rewrite Hft. intros f. by apply (inv_filter _ W t).
Qed.

Lemma winv_set_packet w p pk' :
  winv w → (∀ t tr, w_traces w !! t = Some tr → tr_last_packet tr = Some p → tp_trace pk' = Some t) →
  (∀ t, tp_trace pk' = Some t → is_Some (w_traces w !! t)) → tp_srcbucket pk' = None →
  winv (set_packet w p pk').
Proof.
  intros [Hl Ht Hk Hf Hfs Hb] Hlast Hlive Hbk. split; cbn [set_packet w_traces w_packets w_filters]; [..|done|done|done|].
  - intros t1 tr1 p1 E1 E2. rewrite lookup_insert. case_decide as E; [|by eapply Hl].
    subst p1. eexists. split; [done|]. by eapply Hlast.
  - intros p1 pk1 t1. rewrite lookup_insert. case_decide; [intros [= <-]; apply Hlive|apply Ht].
  - intros p1 pk1. rewrite lookup_insert. case_decide; [by intros [= <-]|apply Hb].
Qed.

Lemma winv_set_filter w f fi : winv w → filter_ok fi → winv (set_filter w f fi).
Proof.
  intros [Hl Ht Hk Hf Hfs Hb] Hfi. split; try done; cbn [set_filter w_traces w_packets w_filters].
  - intros t1 tr1 f1 E1 E2. rewrite lookup_insert. case_decide; [by eexists|by eapply Hf].
  - intros f1 fi1. rewrite lookup_insert. case_decide; [by intros [= <-]|apply Hfs].
Qed.

Lemma winv_set_buckets w bs : winv w → winv (set_buckets w bs).
Proof. by intros []. Qed.

(** What finishing the packet [p] may change in a trace: the format's data, and the
    last packet, which is forgotten. *)
Definition after_fin p tr tr' : Prop :=
  same_links tr tr' ∧ (left (tr_data tr') ≤ left (tr_data tr))%nat ∧ tr_err tr' = tr_err tr ∧
  tr_started tr' = tr_started tr ∧ tr_snaplen tr' = tr_snaplen tr ∧
  tr_filtered_packets tr' = tr_filtered_packets tr ∧ tr_accepted_packets tr' = tr_accepted_packets tr ∧
  tr_sequence_number tr' = tr_sequence_number tr ∧
  tr_last_packet tr' = if bool_decide (tr_last_packet tr = Some p) then None else tr_last_packet tr.

(** The traces of [w'] are those of [w], changed at most as [R] says. *)
Definition traces_rel (R : libtrace_t F → libtrace_t F → Prop) w w' : Prop :=
  ∀ t, option_Forall2 R (w_traces w !! t) (w_traces w' !! t).

Lemma traces_rel_lookup R w w' t tr :
  traces_rel R w w' → w_traces w !! t = Some tr → ∃ tr', w_traces w' !! t = Some tr' ∧ R tr tr'.
Proof. intros H E. specialize (H t). rewrite E in H. inversion H; subst. eauto. Qed.

Lemma traces_rel_lookup_r R w w' t tr' :
  traces_rel R w w' → w_traces w' !! t = Some tr' → ∃ tr, w_traces w !! t = Some tr ∧ R tr tr'.
Proof. intros H E. specialize (H t). rewrite E in H. inversion H; subst. eauto. Qed.

Lemma traces_rel_set (R : libtrace_t F → libtrace_t F → Prop) w t tr tr' :
  (∀ tr1, R tr1 tr1) → w_traces w !! t = Some tr → R tr tr' → traces_rel R w (set_trace w t tr').
Proof.
  intros Hr E HR t1. cbn [set_trace w_traces]. rewrite lookup_insert. case_decide; [subst; rewrite E; by constructor|].
  destruct (w_traces w !! t1); by constructor.
Qed.

(** What calling the format's [fin_packet] may change. *)
Definition same_but_data tr tr' : Prop :=
  same_links tr tr' ∧ (left (tr_data tr') ≤ left (tr_data tr))%nat ∧ tr_err tr' = tr_err tr ∧
  tr_started tr' = tr_started tr ∧ tr_snaplen tr' = tr_snaplen tr ∧
  tr_filtered_packets tr' = tr_filtered_packets tr ∧ tr_accepted_packets tr' = tr_accepted_packets tr ∧
  tr_sequence_number tr' = tr_sequence_number tr ∧ tr_last_packet tr' = tr_last_packet tr.

Lemma same_but_data_refl tr : same_but_data tr tr.
Proof. by split_and!. Qed.

Lemma format_fin_packet_ok w t p pk tr :
  winv w → w_packets w !! p = Some pk → w_traces w !! t = Some tr →
  ∃ w' pk', format_fin_packet w t p = Ok w' ∧ winv w' ∧ traces_rel same_but_data w w' ∧
    (∀ q, q ≠ p → w_packets w' !! q = w_packets w !! q) ∧ w_packets w' !! p = Some pk' ∧
    tp_trace pk' = tp_trace pk ∧ w_filters w' = w_filters w.
Proof.
  intros W Ep Et. unfold format_fin_packet. rewrite (load_Some _ _ _ Et). cbn [obind].
  destruct (fm_fin_packet (tr_module tr)) as [fin|] eqn:Efin.
  2:{ exists w, pk. split_and!; try done. intros t1. destruct (w_traces w !! t1); constructor. apply same_but_data_refl. }
  rewrite (load_Some _ _ _ Ep). cbn [obind]. destruct (inv_lock _ W _ _ Et) as [_ M].
  pose proof (mo_fin _ M fin (tr_data tr) (tp_obj pk) Efin) as Hle.
  destruct (fin (tr_data tr) (tp_obj pk)) as [data o]. cbn [fst] in Hle.
  do 2 eexists. split; [done|]. split_and!.
  - apply winv_set_packet.
    + apply (winv_set_trace _ _ tr); [done|done|done|]. intros q. exact (inv_last _ W t tr q Et).
    + intros t1 tr1 E1 E2. cbn [set_trace w_traces] in E1. rewrite lookup_insert in E1. case_decide.
      * injection E1 as <-. subst t1. cbn in E2. destruct (inv_last _ W _ _ _ Et E2) as (pk1 & ? & ?). by simplify_eq.
      * destruct (inv_last _ W _ _ _ E1 E2) as (pk1 & ? & ?). by simplify_eq.
    + intros t1 E1. cbn [set_trace w_traces]. rewrite lookup_insert. case_decide; [by eexists|].
      by apply (inv_trace _ W p pk).
    + exact (inv_bucket _ W p pk Ep).
  - apply (traces_rel_set _ w t tr); [apply same_but_data_refl|done|]. by split_and!.
  - intros q Hq. cbn [set_packet w_packets]. by rewrite lookup_insert_ne.
  - cbn [set_packet w_packets]. apply lookup_insert_eq.
  - done.
  - done.
Qed.

Lemma forget_packet_ok w t p tr :
  winv w → w_traces w !! t = Some tr →
  ∃ w', forget_packet w t p = Ok w' ∧ winv w' ∧ w_packets w' = w_packets w ∧ w_filters w' = w_filters w ∧
    (∀ t', t' ≠ t → w_traces w' !! t' = w_traces w !! t') ∧
    ∃ tr', w_traces w' !! t = Some tr' ∧ after_fin p tr tr'.
Proof.
  intros W Et. unfold forget_packet. rewrite (load_Some _ _ _ Et). cbn [obind].
  destruct (inv_lock _ W _ _ Et) as [-> _]. cbn [mutex_lock mutex_unlock obind].
  eexists. split; [done|]. split_and!; try done.
  - apply (winv_set_trace _ _ tr); [done|done|..].
    + split_and!; try done. cbn. symmetry. by apply (inv_lock _ W _ _ Et).
    + intros q. cbn. case_bool_decide; [done|]. exact (inv_last _ W t tr q Et).
  - intros t' Hne. cbn [set_trace w_traces]. by rewrite lookup_insert_ne.
  - eexists. cbn [set_trace w_traces]. split; [apply lookup_insert_eq|]. split_and!; try done.
    split_and!; try done. cbn. symmetry. by apply (inv_lock _ W _ _ Et).
Qed.

Lemma after_fin_other p tr tr' : same_but_data tr tr' → tr_last_packet tr ≠ Some p → after_fin p tr tr'.
Proof.
  intros (? & ? & ? & ? & ? & ? & ? & ? & E) Hne. unfold after_fin. rewrite bool_decide_eq_false_2 by done.
  split_and!; done.
Qed.

Lemma after_fin_trans p tr1 tr2 tr3 : same_but_data tr1 tr2 → after_fin p tr2 tr3 → after_fin p tr1 tr3.
Proof.
  intros ((H1 & H2 & H2') & H3 & H4 & H5 & H6 & H7 & H8 & H9 & H10) ((K1 & K2 & K2') & K3 & K4 & K5 & K6 & K7 & K8 & K9 & K10).
  rewrite H10 in K10. split_and!; try congruence; [split_and!; congruence|by eapply Nat.le_trans].
Qed.

(** Finishing a packet returns, keeps the world well formed and the other packets,
    detaches the packet from its trace, and makes its trace forget it. *)
Lemma fin_packet_ok w p pk :
  winv w → w_packets w !! p = Some pk →
  ∃ w', trace_fin_packet w p = Ok w' ∧ winv w' ∧ traces_rel (after_fin p) w w' ∧
    (∀ q, q ≠ p → w_packets w' !! q = w_packets w !! q) ∧
    (∃ pk', w_packets w' !! p = Some pk' ∧ tp_trace pk' = None) ∧ w_filters w' = w_filters w.
Proof.
  intros W Ep. unfold trace_fin_packet. rewrite (load_Some _ _ _ Ep). cbn [obind].
  destruct (tp_trace pk) as [t|] eqn:Etp.
  - destruct (inv_trace _ W _ _ _ Ep Etp) as [tr Et].
    destruct (format_fin_packet_ok w t p pk tr W Ep Et) as (w1 & pk1 & -> & W1 & R1 & Q1 & E1 & T1 & F1). cbn [obind].
    rewrite (load_Some _ _ _ E1). cbn [obind]. unfold release_bucket. rewrite (inv_bucket _ W1 _ _ E1). cbn [obind].
    rewrite T1, Etp. destruct (traces_rel_lookup _ _ _ _ _ R1 Et) as (tr1 & Et1 & S1).
    destruct (forget_packet_ok w1 t p tr1 W1 Et1) as (w2 & -> & W2 & P2 & F2 & Q2 & tr2 & E2 & A2). cbn [obind].
    assert (∀ t' tr', w_traces w2 !! t' = Some tr' → tr_last_packet tr' ≠ Some p) as Hnone.
    { intros t' tr' E' Hl. destruct (decide (t' = t)) as [->|Hne].
      - rewrite E2 in E'. injection E' as <-. destruct A2 as (_ & _ & _ & _ & _ & _ & _ & _ & A).
        rewrite A in Hl. by case_bool_decide.
      - rewrite Q2 in E' by done. destruct (inv_last _ W1 _ _ _ E' Hl) as (? & ? & ?). congruence. }
    eexists. split; [done|]. split_and!.
    + apply winv_set_packet; [done| |done|done]. intros t' tr' E' Hl. by destruct (Hnone t' tr').
    + intros t'. cbn [set_packet w_traces]. destruct (decide (t' = t)) as [->|Hne].
      * rewrite Et, E2. constructor. by eapply after_fin_trans.
      * rewrite Q2 by done. specialize (R1 t'). inversion R1 as [x y HR Ex Ey|]; [|by constructor].
        constructor. apply after_fin_other; [done|]. intros Hl. symmetry in Ex.
        destruct (inv_last _ W _ _ _ Ex Hl) as (? & ? & ?). congruence.
    + intros q Hq. cbn [set_packet w_packets]. rewrite lookup_insert_ne, P2 by done. by apply Q1.
    + eexists. cbn [set_packet w_packets]. split; [apply lookup_insert_eq|done].
    + cbn [set_packet w_filters]. congruence.
  - cbn [obind]. rewrite (load_Some _ _ _ Ep). cbn [obind]. unfold release_bucket. rewrite (inv_bucket _ W _ _ Ep), Etp. cbn [obind].
    assert (∀ t' tr', w_traces w !! t' = Some tr' → tr_last_packet tr' ≠ Some p) as Hnone.
    { intros t' tr' E' Hl. destruct (inv_last _ W _ _ _ E' Hl) as (? & ? & ?). congruence. }
    eexists. split; [done|]. split_and!.
    + apply winv_set_packet; [done| |done|done]. intros t' tr' E' Hl. by destruct (Hnone t' tr').
    + intros t'. cbn [set_packet w_traces]. destruct (w_traces w !! t') eqn:E'; constructor.
      apply after_fin_other; [apply same_but_data_refl|by eapply Hnone].
    + intros q Hq. cbn [set_packet w_packets]. by rewrite lookup_insert_ne.
    + eexists. cbn [set_packet w_packets]. split; [apply lookup_insert_eq|done].
    + done.
Qed.

Lemma fin_last_packet_ok w t tr :
  winv w → w_traces w !! t = Some tr →
  ∃ w' tr', fin_last_packet w t = Ok w' ∧ winv w' ∧ w_traces w' !! t = Some tr' ∧ tr_last_packet tr' = None ∧
    tr_started tr' = tr_started tr ∧
    (∀ q, tr_last_packet tr ≠ Some q → w_packets w' !! q = w_packets w !! q) ∧
    (∀ q pk, tr_last_packet tr = Some q → w_packets w' !! q = Some pk → tp_trace pk = None).
Proof.
  intros W Et. unfold fin_last_packet. rewrite (load_Some _ _ _ Et). cbn [obind].
  destruct (tr_last_packet tr) as [p|] eqn:El; cbn [obind].
  - destruct (inv_last _ W _ _ _ Et El) as (pk & Ep & _).
    destruct (fin_packet_ok w p pk W Ep) as (w1 & -> & W1 & R1 & Q1 & (pk1 & E1 & T1) & _). cbn [obind].
    destruct (traces_rel_lookup _ _ _ _ _ R1 Et) as (tr1 & Et1 & (_ & _ & _ & Hs & _ & _ & _ & _ & Hl)).
    rewrite (load_Some _ _ _ Et1). cbn [obind]. rewrite El, bool_decide_eq_true_2 in Hl by done.
    rewrite bool_decide_eq_true_2 by done. cbn [oassert obind].
    exists w1, tr1. split_and!; try done.
    + intros q Hq. apply Q1. congruence.
    + intros q pkq [= <-] Eq. congruence.
  - rewrite (load_Some _ _ _ Et). cbn [obind]. rewrite bool_decide_eq_true_2 by done. cbn [oassert obind].
    exists w, tr. split_and!; done.
Qed.

Lemma trace_pause_ok w t tr :
  winv w → w_traces w !! t = Some tr →
  ∃ w', trace_pause w t = Ok (w', if tr_started tr then 0 else -1) ∧ winv w' ∧
    ∃ tr', w_traces w' !! t = Some tr' ∧ tr_started tr' = false ∧
      (tr_started tr = true → tr_last_packet tr' = None).
Proof.
  intros W Et. unfold trace_pause. rewrite (load_Some _ _ _ Et). cbn [obind].
  destruct (tr_started tr) eqn:Es; cbn [negb].
  - destruct (fin_last_packet_ok w t tr W Et) as (w1 & tr1 & -> & W1 & Et1 & Hl & Hs & _ & _). cbn [obind].
    rewrite (load_Some _ _ _ Et1). cbn [obind]. eexists. split; [done|]. split.
    + apply (winv_set_trace _ _ tr1); [done|done|done|]. intros q. cbn. by rewrite Hl.
    + eexists. cbn [set_trace w_traces]. split; [apply lookup_insert_eq|]. by split; [|intros _].
  - cbn [fail_with trace_set_err oassert obind Z.eqb negb]. eexists. split; [done|]. split.
    + apply (winv_set_trace _ _ tr); [done|done|done|]. intros q. exact (inv_last _ W t tr q Et).
    + eexists. cbn [set_trace w_traces]. split; [apply lookup_insert_eq|]. by split; [|intros].
Qed.

(** No packet belongs to the trace. *)
Definition no_packet w t : Prop := ∀ q pk, w_packets w !! q = Some pk → tp_trace pk ≠ Some t.

(** Destroying a trace that has no last packet frees it. *)
Lemma trace_destroy_ok w t tr :
  winv w → w_traces w !! t = Some tr → tr_last_packet tr = None →
  ∃ w' , trace_destroy w t = Ok w' ∧ w_traces w' !! t = None ∧ w_packets w' = w_packets w ∧ (no_packet w t → winv w').
Proof.
  intros W Et Hl. unfold trace_destroy. rewrite (load_Some _ _ _ Et). cbn [obind].
  destruct (inv_lock _ W _ _ Et) as [-> _]. cbn [mutex_destroy obind]. unfold fin_last_packet.
  cbn [set_trace w_traces]. erewrite load_Some by apply lookup_insert_eq. cbn [obind tr_set tr_last_packet]. rewrite Hl.
  cbn [obind set_trace w_traces]. erewrite load_Some by apply lookup_insert_eq. cbn [obind tr_set tr_last_packet].
  rewrite bool_decide_eq_true_2 by done. cbn [oassert obind w_traces w_packets].
  eexists. split; [done|]. cbn [w_traces w_packets]. split_and!; [apply lookup_delete_eq|done|].
  intros Ho. cbn [set_trace w_traces w_packets w_filters w_buckets w_parallel]. rewrite delete_insert_eq.
  split; cbn [w_traces w_packets w_filters].
  - intros t1 q1 p1. rewrite lookup_delete. case_decide; [done|]. apply W.
  - intros p1 pk1 t1 E1 E2. rewrite lookup_delete. case_decide; [|by eapply (inv_trace _ W)]. subst t1. by destruct (Ho p1 pk1).
  - intros t1 q1. rewrite lookup_delete. case_decide; [done|]. apply W.
  - intros t1 q1 f1. rewrite lookup_delete. case_decide; [done|]. apply W.
  - apply W.
  - apply W.
Qed.

(** Destroying a trace that has a last packet locks the destroyed mutex. *)
Lemma trace_destroy_last w t tr p :
  winv w → w_traces w !! t = Some tr → tr_last_packet tr = Some p → trace_destroy w t = Fault Dangling.
Proof.
  intros W Et Hl. destruct (inv_last _ W _ _ _ Et Hl) as (pk & Ep & Tp). pose proof (inv_bucket _ W _ _ Ep) as Bp.
  unfold trace_destroy. rewrite (load_Some _ _ _ Et). cbn [obind].
  destruct (inv_lock _ W _ _ Et) as [-> _]. cbn [mutex_destroy obind]. set (tr1 := tr_set tr _ _ _ _ _).
  set (w1 := set_trace w t tr1). assert (w_traces w1 !! t = Some tr1) as Et1 by apply lookup_insert_eq.
  unfold fin_last_packet. rewrite (load_Some _ _ _ Et1). cbn [obind tr1 tr_set tr_last_packet]. rewrite Hl.
  unfold trace_fin_packet. rewrite (load_Some (w_packets w1) _ _ Ep). cbn [obind]. rewrite Tp.
  unfold format_fin_packet. rewrite (load_Some _ _ _ Et1). cbn [obind tr1 tr_set tr_module].
  destruct (fm_fin_packet (tr_module tr)) as [fin|]; cbn [obind].
  - rewrite (load_Some (w_packets w1) _ _ Ep). cbn [obind]. destruct (fin _ (tp_obj pk)) as [data o]. cbn [obind].
    erewrite (load_Some (w_packets _) p) by apply lookup_insert_eq. cbn [obind]. unfold release_bucket.
    cbn [tp_set_obj tp_srcbucket tp_trace]. rewrite Bp, Tp. cbn [obind]. unfold forget_packet.
    erewrite (load_Some (w_traces _) t) by apply lookup_insert_eq. done.
  - rewrite (load_Some (w_packets w1) _ _ Ep). cbn [obind]. unfold release_bucket. rewrite Bp, Tp. cbn [obind].
    unfold forget_packet. rewrite (load_Some _ _ _ Et1). done.
Qed.

Lemma trace_destroy_packet_ok w p pk :
  winv w → w_packets w !! p = Some pk →
  ∃ w', trace_destroy_packet w p = Ok w' ∧ winv w' ∧ w_packets w' !! p = None.
Proof.
  intros W Ep. unfold trace_destroy_packet. rewrite (load_Some _ _ _ Ep). cbn [obind].
  assert (∃ w1 pk1, match tp_trace pk with Some t => if w_parallel w then format_fin_packet w t p else Ok w | None => Ok w end
    = Ok w1 ∧ winv w1 ∧ w_packets w1 !! p = Some pk1 ∧ tp_trace pk1 = tp_trace pk) as (w1 & pk1 & -> & W1 & E1 & T1).
  { destruct (tp_trace pk) as [t|] eqn:Etp; [|by exists w, pk]. destruct (w_parallel w); [|by exists w, pk].
    destruct (inv_trace _ W _ _ _ Ep Etp) as [tr Et].
    destruct (format_fin_packet_ok w t p pk tr W Ep Et) as (w1 & pk1 & -> & W1 & R1 & Q1 & E1 & T1 & F1).
    exists w1, pk1. split_and!; congruence. }
  cbn [obind]. rewrite (load_Some _ _ _ E1). cbn [obind]. clear pk Ep T1 W w.
  assert (∃ w2, match tp_trace pk1 with
      | Some t => let! tr := load (w_traces w1) t in
          Ok (if bool_decide (tr_last_packet tr = Some p) then set_trace w1 t (tr_set_last tr None) else w1)
      | None => Ok w1 end = Ok w2 ∧ winv w2 ∧
    ∀ t tr, w_traces w2 !! t = Some tr → tr_last_packet tr ≠ Some p) as (w2 & -> & W2 & Hnone).
  { assert (∀ t tr, w_traces w1 !! t = Some tr → tr_last_packet tr = Some p → tp_trace pk1 = Some t) as Hl.
    { intros t tr Et El. destruct (inv_last _ W1 _ _ _ Et El) as (? & ? & ?). congruence. }
    destruct (tp_trace pk1) as [t|] eqn:Etp.
    2:{ exists w1. split_and!; try done. intros t tr Et El. by discriminate (Hl t tr Et El). }
    destruct (inv_trace _ W1 _ _ _ E1 Etp) as [tr Et]. rewrite (load_Some _ _ _ Et). cbn [obind].
    eexists. split; [done|]. case_bool_decide as Ed.
    - split; [by apply (winv_set_trace _ _ tr)|]. intros t1 tr1. cbn [set_trace w_traces]. rewrite lookup_insert.
      case_decide; [by intros [= <-]|]. intros Et1 El1. apply (Hl _ _ Et1) in El1. congruence.
    - split; [done|]. intros t1 tr1 Et1 El1. pose proof (Hl _ _ Et1 El1) as [= <-]. congruence. }
  cbn [obind]. eexists. split; [done|]. cbn [w_packets]. split; [|apply lookup_delete_eq].
  split; cbn [w_traces w_packets w_filters].
  - intros t tr q Et El. destruct (inv_last _ W2 _ _ _ Et El) as (pk & Ep & Tp). exists pk. split; [|done].
    rewrite lookup_delete_ne; [done|]. intros <-. by apply (Hnone t tr).
  - intros q pk t. rewrite lookup_delete. case_decide; [done|]. apply W2.
  - apply W2.
  - apply W2.
  - apply W2.
  - intros q pk. rewrite lookup_delete. case_decide; [done|]. apply W2.
Qed.

(** What a call of [trace_read_packet] that reaches the format does to the counters
    of the trace and to the packet, if [n] packets were filtered out: at the end
    of the trace or after an error the packet belongs to the trace; a packet
    that is returned has the next number and is the trace's last packet. *)
Definition read_effect w' t p (tr : libtrace_t F) (n : nat) (ret : Z) : Prop :=
  ∃ tr' pk', w_traces w' !! t = Some tr' ∧ w_packets w' !! p = Some pk' ∧ tp_trace pk' = Some t ∧
    u64 (tr_filtered_packets tr') = u64 (tr_filtered_packets tr + Z.of_nat n) ∧
    if bool_decide (ret = -1 ∨ ret = 0) then
      tr_accepted_packets tr' = tr_accepted_packets tr ∧ tr_sequence_number tr' = tr_sequence_number tr ∧
      tr_last_packet tr' = if bool_decide (tr_last_packet tr = Some p) then None else tr_last_packet tr
    else
      tr_accepted_packets tr' = u64 (tr_accepted_packets tr + 1) ∧
      tr_sequence_number tr' = u64 (tr_sequence_number tr + 1) ∧
      tp_order pk' = tr_sequence_number tr ∧ tr_last_packet tr' = Some p.

(** The result of the trace's filter, if it has one and it can be applied, for the
    packet that the format has read. *)
Definition filter_result w tr (rr : read_result F) : option Z :=
  match tr_filter tr with
  | Some f =>
      match w_filters w !! f with
      | Some fi =>
          match trace_apply_filter pcap_compile bpf_filter fresh fi (fm_table (tr_module tr) (rr_data rr)) (rr_obj rr) with
          | Ok (_, _, ret, _) => Some ret
          | Fault _ => None
          end
      | None => None
      end
  | None => None
  end.

(** The format gives a packet that the filter rejects. *)
Definition rejects (read : F → gmap loc libtrace_bucket_t → packet_obj → outcome (read_result F)) w t p : Prop :=
  ∃ tr pk rr, w_traces w !! t = Some tr ∧ w_packets w !! p = Some pk ∧
    read (tr_data tr) (w_buckets w) (tp_obj pk) = Ok rr ∧ rr_ret rr ≠ -1 ∧ rr_ret rr ≠ 0 ∧
    filter_result w tr rr = Some 0.

(** [n] packets in a row are rejected from [w] on, and then one is not, or there is
    none, in [w']. *)
Inductive rejections read t p : world F prog → nat → world F prog → Prop :=
| R_none w : ¬ rejects read w t p → rejections read t p w O w
| R_one w w1 n w' : rejects read w t p → read_round pcap_compile bpf_filter fresh read w t p = Ok (w1, None) →
    rejections read t p w1 n w' → rejections read t p w (S n) w'.

(** A packet was filtered out. *)
Definition round_again w' t p tr : Prop :=
  ∃ tr' pk', w_traces w' !! t = Some tr' ∧ w_packets w' !! p = Some pk' ∧ only_last w' t p ∧
    tr_module tr' = tr_module tr ∧ (left (tr_data tr') < left (tr_data tr))%nat ∧
    tr_filtered_packets tr' = u64 (tr_filtered_packets tr + 1) ∧
    tr_accepted_packets tr' = tr_accepted_packets tr ∧ tr_sequence_number tr' = tr_sequence_number tr ∧
    tr_last_packet tr' = if bool_decide (tr_last_packet tr = Some p) then None else tr_last_packet tr.

(** Attaching the packet read to the trace. *)
Lemma winv_attach w t p tr tr' pk o bs :
  winv w → only_last w t p → w_traces w !! t = Some tr → w_packets w !! p = Some pk →
  same_links tr tr' → tr_last_packet tr' = tr_last_packet tr →
  let w' := set_packet (set_trace (set_buckets w bs) t tr') p (tp_set_obj (tp_set_trace pk (Some t)) o) in
  winv w' ∧ only_last w' t p.
Proof.
  intros W Ho Et Ep Hs Hl w'. split.
  - apply winv_set_packet.
    + apply (winv_set_trace _ _ tr); [by apply winv_set_buckets|done|done|]. intros q. rewrite Hl.
      exact (inv_last _ W t tr q Et).
    + intros t1 tr1 E1 L1. cbn [set_trace set_buckets w_traces] in E1. rewrite lookup_insert in E1.
      case_decide; [by subst|]. cbn. f_equal. symmetry. by apply (Ho _ _ E1 L1).
    + intros t1 [= <-]. cbn [set_trace w_traces]. rewrite lookup_insert_eq. by eexists.
    + exact (inv_bucket _ W p pk Ep).
  - intros t1 tr1 E1 L1. cbn [w' set_packet set_trace set_buckets w_traces] in E1. rewrite lookup_insert in E1.
    case_decide; [done|]. by apply (Ho _ _ E1 L1).
Qed.

(** A packet the filter rejects is counted and finished. *)
Lemma reject_ok w t p pk tr m :
  winv w → w_traces w !! t = Some tr → w_packets w !! p = Some pk → tr_module tr = m →
  let w1 := set_trace w t (tr_set_counts tr (u64 (tr_filtered_packets tr + 1)) (tr_accepted_packets tr)
                             (tr_sequence_number tr)) in
  ∃ w', trace_fin_packet w1 p = Ok w' ∧ winv w' ∧
    ∃ tr' pk', w_traces w' !! t = Some tr' ∧ w_packets w' !! p = Some pk' ∧ only_last w' t p ∧
    tr_module tr' = m ∧ (left (tr_data tr') ≤ left (tr_data tr))%nat ∧
    tr_filtered_packets tr' = u64 (tr_filtered_packets tr + 1) ∧
    tr_accepted_packets tr' = tr_accepted_packets tr ∧ tr_sequence_number tr' = tr_sequence_number tr ∧
    tr_last_packet tr' = if bool_decide (tr_last_packet tr = Some p) then None else tr_last_packet tr.
Proof.
  intros W Et Ep Em w1.
  assert (winv w1) as W1.
  { apply (winv_set_trace _ _ tr); [done|done|done|]. intros q. exact (inv_last _ W t tr q Et). }
  destruct (fin_packet_ok w1 p pk W1 Ep) as (w2 & -> & W2 & R2 & _ & (pk2 & E2 & _) & _).
  exists w2. split; [done|]. split; [done|].
  assert (∃ tr1, w_traces w1 !! t = Some tr1 ∧ tr1 = tr_set_counts tr (u64 (tr_filtered_packets tr + 1))
    (tr_accepted_packets tr) (tr_sequence_number tr)) as (tr1 & Et1 & Etr1)
    by (eexists; split; [apply lookup_insert_eq|done]).
  destruct (traces_rel_lookup _ _ _ _ _ R2 Et1) as (tr2 & Et2 & (Hs & Hd & _ & _ & _ & H1 & H2 & H3 & H4)). subst tr1.
  exists tr2, pk2. split_and!; try done.
  - intros t1 tr1 E1 L1. destruct (traces_rel_lookup_r _ _ _ _ _ R2 E1) as (tr0 & _ & (_ & _ & _ & _ & _ & _ & _ & _ & K)).
    rewrite K in L1. by case_bool_decide.
  - destruct Hs as [-> _]. done.
Qed.

(** A packet that is returned. *)
Lemma accept_ok w t p tr pk o :
  winv w → w_traces w !! t = Some tr → w_packets w !! p = Some pk → tp_trace pk = Some t →
  let tr' := tr_set_last (tr_set_counts tr (tr_filtered_packets tr) (u64 (tr_accepted_packets tr + 1))
                           (u64 (tr_sequence_number tr + 1))) (Some p) in
  winv (set_packet (set_trace w t tr') p (trace_packet_set_order (tp_set_obj pk o) (tr_sequence_number tr))).
Proof.
  intros W Et Ep Tp tr'. apply winv_set_packet.
  - apply (winv_set_trace _ _ tr); [done|done|done|]. intros q [= <-]. by exists pk.
  - intros t1 tr1 E1 L1. cbn [set_trace w_traces] in E1. rewrite lookup_insert in E1. cbn. rewrite Tp.
    case_decide; [by subst|]. destruct (inv_last _ W _ _ _ E1 L1) as (? & ? & ?). congruence.
  - cbn. rewrite Tp. intros t1 [= <-]. rewrite lookup_insert_eq. by eexists.
  - exact (inv_bucket _ W p pk Ep).
Qed.

(** Applying the trace's filter, if it has one, changes the filter, the error and
    what is cached in the packet. *)
Lemma filter_step_ok w t p tr pk (rr : read_result F) :
  winv w → w_traces w !! t = Some tr → w_packets w !! p = Some pk → tp_trace pk = Some t →
  tr_data tr = rr_data rr → tp_obj pk = rr_obj rr →
  (∀ f fi, tr_filter tr = Some f → w_filters w !! f = Some fi → ∃ fi' o' ret err,
     trace_apply_filter pcap_compile bpf_filter fresh fi (fm_table (tr_module tr) (rr_data rr)) (rr_obj rr)
     = Ok (fi', o', ret, err) ∧ filter_ok fi') →
  ∃ w' filtret tr' o',
    match tr_filter tr with
    | None => Ok (w, None)
    | Some f =>
        let! fi := load (w_filters w) f in
        let! ' (fi, o, filtret, err) :=
          trace_apply_filter pcap_compile bpf_filter fresh fi (fm_table (tr_module tr) (tr_data tr)) (tp_obj pk) in
        Ok (set_packet (set_trace (set_filter w f fi) t (tr_set_data tr (tr_data tr) err)) p (tp_set_obj pk o),
            Some filtret)
    end = Ok (w', filtret) ∧ winv w' ∧ w_traces w' !! t = Some tr' ∧ w_packets w' !! p = Some (tp_set_obj pk o') ∧
    tr' = tr_set_err tr (tr_err tr') ∧ filtret = filter_result w tr rr.
Proof.
  intros W Et Ep Tp Ed Eo Hfi. rewrite Ed, Eo. destruct (tr_filter tr) as [f|] eqn:Ef.
  - destruct (inv_filter _ W _ _ _ Et Ef) as [fi Efi]. rewrite (load_Some _ _ _ Efi). cbn [obind].
    destruct (Hfi f fi eq_refl Efi) as (fi' & o' & ret & err & Hap & Hok). rewrite Hap. cbn [obind].
    do 2 eexists. exists (tr_set_data tr (tr_data tr) err), o'. rewrite <- Ed. split; [done|]. split_and!.
    + apply winv_set_packet.
      * apply (winv_set_trace _ _ tr); [by apply winv_set_filter|done|done|]. intros q. exact (inv_last _ W t tr q Et).
      * intros t1 tr1 E1 L1. cbn [set_trace set_filter w_traces] in E1. rewrite lookup_insert in E1. cbn. rewrite Tp.
        case_decide; [by subst|]. destruct (inv_last _ W _ _ _ E1 L1) as (? & ? & ?). congruence.
      * cbn. rewrite Tp. intros t1 [= <-]. rewrite lookup_insert_eq. by eexists.
      * exact (inv_bucket _ W p pk Ep).
    + apply lookup_insert_eq.
    + apply lookup_insert_eq.
    + done.
    + unfold filter_result. by rewrite Ef, Efi, Hap.
  - exists w, None, tr, (tp_obj pk). unfold filter_result. rewrite Ef. split_and!; try done; [by destruct pk|by destruct tr].
Qed.

(** One round returns, if the format and the filter do, and reads on exactly if the
    packet is rejected. *)
Lemma read_round_ok w t p tr pk read :
  winv w → only_last w t p → w_traces w !! t = Some tr → tr_last_packet tr ≠ Some p → w_packets w !! p = Some pk →
  fm_read_packet (tr_module tr) = Some read →
  (∃ e, read_round pcap_compile bpf_filter fresh read w t p = Fault e ∧ read_fault (tr_module tr) e) ∨
  ∃ w' res, read_round pcap_compile bpf_filter fresh read w t p = Ok (w', res) ∧ winv w' ∧
    match res with
    | Some ret => ¬ rejects read w t p ∧ read_effect w' t p tr 0 ret
    | None => rejects read w t p ∧ round_again w' t p tr
    end.
Proof.
  intros W Ho Et Hlp Ep Er. unfold read_round. rewrite (load_Some _ _ _ Ep). cbn [obind]. rewrite (load_Some _ _ _ Et).
  cbn [obind]. destruct (inv_lock _ W _ _ Et) as [_ M].
  destruct (read (tr_data tr) (w_buckets w) (tp_obj pk)) as [rr|e] eqn:Ecall.
  2:{ left. exists e. split; [done|]. exists read, (tr_data tr), (w_buckets w), (tp_obj pk). auto. }
  destruct (mo_read _ M read _ _ _ rr Er Ecall) as (Hb & Hret). cbn [obind].
  assert (rejects read w t p ↔ (rr_ret rr ≠ -1 ∧ rr_ret rr ≠ 0) ∧ filter_result w tr rr = Some 0) as Hrej.
  { split; [|by intros [[] ?]; exists tr, pk, rr]. intros (tr0 & pk0 & rr0 & E1 & E2 & E3 & E4 & E5 & E6).
    rewrite Et in E1. injection E1 as <-. rewrite Ep in E2. injection E2 as <-. rewrite Ecall in E3. by injection E3 as <-. }
  rewrite Hb. cbn [tp_set_bucket]. set (tr1 := tr_set_data tr (rr_data rr) (rr_err rr)).
  set (pk1 := tp_set_obj _ (rr_obj rr)).
  destruct (winv_attach w t p tr tr1 pk (rr_obj rr) (rr_buckets rr) W Ho Et Ep) as [W1 Ho1]; [done|done|].
  set (w1 := set_packet _ p _) in *. change (set_packet _ p pk1) with w1.
  assert (w_traces w1 !! t = Some tr1) as Et1 by apply lookup_insert_eq.
  assert (w_packets w1 !! p = Some pk1) as Ep1 by apply lookup_insert_eq.
  assert (∀ w2 tr2 pk2 ret, winv w2 → w_traces w2 !! t = Some tr2 → w_packets w2 !! p = Some pk2 → tp_trace pk2 = Some t →
    tr2 = tr_set_err tr1 (tr_err tr2) → ret = -1 ∨ ret = 0 → read_effect w2 t p tr 0 ret) as Hend.
  { intros w2 tr2 pk2 ret W2 E2 P2 T2 Htr Hr. exists tr2, pk2. rewrite bool_decide_eq_true_2 by done.
    rewrite bool_decide_eq_false_2 by done. rewrite Htr. cbn. rewrite Z.add_0_r. by rewrite <- Htr. }
  destruct ((rr_ret rr =? -1) || (rr_ret rr =? 0)) eqn:Eend.
  { apply orb_prop in Eend. rewrite !Z.eqb_eq in Eend. right. exists w1, (Some (rr_ret rr)). split_and!; [done|done| |].
    - rewrite Hrej. intros [[] _]. by destruct Eend.
    - by apply (Hend w1 tr1 pk1). }
  apply orb_false_iff in Eend. rewrite !Z.eqb_neq in Eend. pose proof (Hret Eend) as Hleft.
  assert ((∃ e f fi, tr_filter tr = Some f ∧ w_filters w !! f = Some fi ∧
      trace_apply_filter pcap_compile bpf_filter fresh fi (fm_table (tr_module tr) (rr_data rr)) (rr_obj rr) = Fault e) ∨
    ∀ f fi, tr_filter tr1 = Some f → w_filters w1 !! f = Some fi → ∃ fi' o' ret err,
      trace_apply_filter pcap_compile bpf_filter fresh fi (fm_table (tr_module tr1) (rr_data rr)) (rr_obj rr)
      = Ok (fi', o', ret, err) ∧ filter_ok fi') as [(e & f & fi & Ef & Efi & Hap)|Hfi].
  { change (tr_filter tr1) with (tr_filter tr). change (w_filters w1) with (w_filters w).
    destruct (tr_filter tr) as [f|]; [|by right]. destruct (w_filters w !! f) as [fi|] eqn:Efi; [|right; intros; congruence].
    destruct (trace_apply_filter pcap_compile bpf_filter fresh fi (fm_table (tr_module tr) (rr_data rr)) (rr_obj rr))
      as [[[[fi' o'] ret] err]|e] eqn:Hap; [right|left; by exists e, f, fi].
    intros f' fi'' ? ?. simplify_eq. do 4 eexists. split; [exact Hap|]. eapply apply_filter_keeps; [|exact Hap].
    by apply (inv_filters _ W f'). }
  { left. exists e. change (tr_filter tr1) with (tr_filter tr). rewrite Ef.
    rewrite (load_Some (w_filters w1) f fi Efi). cbn [obind].
    change (tp_obj pk1) with (rr_obj rr). change (tr_module tr1) with (tr_module tr). change (tr_data tr1) with (rr_data rr).
    rewrite Hap. split; [done|]. exists read, (tr_data tr), (w_buckets w), (tp_obj pk). split; [done|]. right.
    exists rr, fi. split_and!; [done|by apply (inv_filters _ W f)|done]. }
  destruct (filter_step_ok w1 t p tr1 pk1 rr W1 Et1 Ep1) as (w2 & filtret & tr2 & o2 & -> & W2 & Et2 & Ep2 & Htr2 & Hfr); [done..|].
  change (filter_result w1 tr1 rr) with (filter_result w tr rr) in Hfr. rewrite <- Hfr in Hrej.
  right. cbn [obind]. rewrite (load_Some _ _ _ Et2). cbn [obind].
  destruct (reject_ok w2 t p _ tr2 (tr_module tr) W2 Et2 Ep2) as (w3 & Efin & W3 & tr3 & pk3 & Et3 & Ep3 & Ho3 & Hm3 & Hd3 & Hf3 & Ha3 & Hs3 & Hl3);
    [by rewrite Htr2|].
  assert (tr_filtered_packets tr2 = tr_filtered_packets tr) as Hcf by by rewrite Htr2.
  assert (tr_accepted_packets tr2 = tr_accepted_packets tr) as Hca by by rewrite Htr2.
  assert (tr_sequence_number tr2 = tr_sequence_number tr) as Hcs by by rewrite Htr2.
  assert (tr_last_packet tr2 = tr_last_packet tr) as Hcl by by rewrite Htr2.
  assert (left (tr_data tr2) < left (tr_data tr))%nat as Hlt by (by rewrite Htr2).
  assert (∀ o3, read_effect (set_packet (set_trace w2 t (tr_set_last (tr_set_counts tr2 (tr_filtered_packets tr2)
     (u64 (tr_accepted_packets tr2 + 1)) (u64 (tr_sequence_number tr2 + 1))) (Some p))) p
     (trace_packet_set_order (tp_set_obj (tp_set_obj pk1 o2) o3) (tr_sequence_number tr2))) t p tr 0 (rr_ret rr)) as Hacc.
  { intros o3. do 2 eexists. split; [apply lookup_insert_eq|]. split; [apply lookup_insert_eq|].
    rewrite bool_decide_eq_false_2 by tauto. cbn. rewrite Z.add_0_r, Hcf, Hca, Hcs. done. }
  assert (round_again w3 t p tr) as Hagain.
  { exists tr3, pk3. rewrite Hcf in Hf3. rewrite Hca in Ha3. rewrite Hcs in Hs3. rewrite Hcl in Hl3. split_and!; try done. by eapply Nat.le_lt_trans. }
  destruct filtret as [[|fr|[fr|fr|]]|]; cbn [obind].
  1: { rewrite Efin. cbn [obind]. exists w3, None. split_and!; [done|done|by apply Hrej; split|done]. }
  4: { exists w2, (Some (-1)). split_and!; [done|done|by rewrite Hrej; intros [_ [=]]|].
       apply (Hend w2 tr2 _ (-1) W2 Et2 Ep2); auto. }
  all: rewrite (load_Some _ _ _ Ep2); cbn [obind]; cbn [tp_trace tp_set_obj trace_packet_set_order pk1 tp_set_trace];
    rewrite bool_decide_eq_true_2 by done; 
    do 2 eexists; (split; [done|]); split; [exact (accept_ok w2 t p tr2 _ _ W2 Et2 Ep2 eq_refl)|];
    split; [by rewrite Hrej; intros [_ [=]]|apply Hacc].
Qed.

(** What reading does in all: packets that are rejected, and a round that returns. *)
Definition read_result_ok read w0 t p tr w' ret : Prop :=
  ∃ n w1, rejections read t p w0 n w1 ∧ read_round pcap_compile bpf_filter fresh read w1 t p = Ok (w', Some ret) ∧
    read_effect w' t p tr n ret.

Lemma read_loop_ok fuel t p read : ∀ w tr pk,
  winv w → only_last w t p → w_traces w !! t = Some tr → tr_last_packet tr ≠ Some p → w_packets w !! p = Some pk →
  fm_read_packet (tr_module tr) = Some read → (left (tr_data tr) < fuel)%nat →
  (∃ e, read_loop pcap_compile bpf_filter fresh fuel read w t p = Fault e ∧ read_fault (tr_module tr) e) ∨
  ∃ w' ret, read_loop pcap_compile bpf_filter fresh fuel read w t p = Ok (w', ret) ∧ winv w' ∧
    read_result_ok read w t p tr w' ret.
Proof.
  induction fuel as [|fuel IH]; intros w tr pk W Ho Et Hl Ep Er Hlt; [by apply Nat.nlt_0_r in Hlt|].
  cbn [read_loop]. destruct (read_round_ok w t p tr pk read W Ho Et Hl Ep Er) as [(e & -> & He)|(w1 & res & E1 & W1 & H1)];
    [left; by exists e|]. rewrite E1. cbn [obind].
  destruct res as [ret|].
  { right. exists w1, ret. destruct H1 as [Hn H1]. split_and!; [done|done|]. exists O, w. split; [by constructor|done]. }
  destruct H1 as (Hrej & tr1 & pk1 & Et1 & Ep1 & Ho1 & Hm1 & Hd1 & Hf1 & Ha1 & Hs1 & Hl1).
  rewrite bool_decide_eq_false_2 in Hl1 by done. rewrite <- Hm1.
  destruct (IH w1 tr1 pk1) as [?|(w2 & ret & E2 & W2 & n & w3 & Hr3 & E3 & tr2 & pk2 & Et2 & Ep2 & Tp2 & Hf2 & H2)]; try done.
  { by rewrite Hl1. } { by rewrite Hm1. } { eapply Nat.lt_le_trans; [done|]. by apply Nat.lt_succ_r. } { by left. }
  right. exists w2, ret. split; [done|]. split; [done|]. exists (S n), w3. split; [by eapply R_one|]. split; [done|].
  exists tr2, pk2. split_and!; try done.
  - rewrite Hf2, Hf1, u64_add_l, Nat2Z.inj_succ. f_equal. clear. lia.
  - rewrite <- Ha1, <- Hs1, <- Hl1. done.
Qed.

(** Reading from a started trace without error in a well-formed world returns, if the
    format and the filter do: at most [left data] packets are rejected. *)
Lemma read_packet_ok fuel w t p tr pk read :
  winv w → only_last w t p → w_traces w !! t = Some tr → w_packets w !! p = Some pk →
  (left (tr_data tr) < fuel)%nat → tr_err tr = 0 → tr_started tr = true → fm_read_packet (tr_module tr) = Some read →
  (∃ e, trace_read_packet pcap_compile bpf_filter fresh fuel w t p = Fault e ∧ read_fault (tr_module tr) e) ∨
  ∃ w0 w' ret, (if bool_decide (tp_trace pk = Some t) then trace_fin_packet w p else Ok w) = Ok w0 ∧
    trace_read_packet pcap_compile bpf_filter fresh fuel w t p = Ok (w', ret) ∧ winv w' ∧
    read_result_ok read w0 t p tr w' ret.
Proof.
  intros W Ho Et Ep Hlt He Hs Er. unfold trace_read_packet. rewrite (load_Some _ _ _ Et). cbn [obind]. unfold trace_is_err.
  rewrite He, Hs. cbn [Z.eqb negb]. rewrite (load_Some _ _ _ Ep). cbn [obind]. rewrite Er.
  case_bool_decide as Htp.
  - destruct (fin_packet_ok w p pk W Ep) as (w1 & -> & W1 & R1 & _ & (pk1 & E1 & T1) & _). cbn [obind].
    destruct (traces_rel_lookup _ _ _ _ _ R1 Et) as (tr1 & Et1 & ((Hm & _) & Hd & _ & _ & _ & Hf & Ha & Hsq & Hl)).
    assert (∀ t' tr', w_traces w1 !! t' = Some tr' → tr_last_packet tr' ≠ Some p) as Hnone.
    { intros t' tr' E' L'. destruct (inv_last _ W1 _ _ _ E' L') as (? & ? & ?). congruence. }
    rewrite <- Hm.
    destruct (read_loop_ok fuel t p read w1 tr1 pk1 W1) as [?|(w2 & ret & -> & W2 & n & w3 & H3 & H4 & H2)]; try done.
    { intros t' tr' E' L'. by destruct (Hnone t' tr'). } { by apply (Hnone t). } { by rewrite Hm. }
    { by eapply Nat.le_lt_trans. } { by left. }
    right. exists w1, w2, ret. split_and!; [done|done|done|]. exists n, w3. split_and!; [done|done|].
    destruct H2 as (tr2 & pk2 & ? & ? & ? & Hf2 & H2). exists tr2, pk2. rewrite <- Hf, <- Ha, <- Hsq. split_and!; try done.
    case_bool_decide; [|done]. destruct H2 as (? & ? & Hl2). split_and!; try done. rewrite Hl2, Hl.
    repeat case_bool_decide; done.
  - cbn [obind]. destruct (read_loop_ok fuel t p read w tr pk W) as [?|(w2 & ret & -> & W2 & H2)]; try done.
    { intros El. destruct (inv_last _ W _ _ _ Et El) as (? & ? & ?). congruence. } { by left. }
    right. by exists w, w2, ret.
Qed.

(** Any other read fails with an error. *)
Lemma read_packet_refused fuel w t p tr pk :
  w_traces w !! t = Some tr → w_packets w !! p = Some pk →
  ¬ (tr_err tr = 0 ∧ tr_started tr = true ∧ is_Some (fm_read_packet (tr_module tr))) →
  ∃ err, err ≠ 0 ∧
    trace_read_packet pcap_compile bpf_filter fresh fuel w t p = Ok (set_trace w t (tr_set_err tr err), -1).
Proof.
  intros Et Ep Hn. unfold trace_read_packet. rewrite (load_Some _ _ _ Et). cbn [obind]. unfold trace_is_err.
  destruct (Z.eqb_spec (tr_err tr) 0) as [He|He]; cbn [negb].
  2:{ exists (tr_err tr). split; [done|]. do 2 f_equal.
      destruct w. unfold set_trace, tr_set_err, tr_set. cbn in *. f_equal. symmetry. apply insert_id. rewrite Et. by destruct tr. }
  destruct (tr_started tr) eqn:Es; cbn [negb]; [|by eexists; split; [|done]].
  rewrite (load_Some _ _ _ Ep). cbn [obind]. destruct (fm_read_packet (tr_module tr)) as [read|] eqn:Er.
  - destruct Hn. by split_and!; [..|eexists].
  - by eexists; split; [|done].
Qed.

Lemma trace_start_ok w t tr :
  winv w → w_traces w !! t = Some tr →
  (∃ e, trace_start w t = Fault e ∧ start_fault (tr_module tr) e) ∨ ∃ w' ret, trace_start w t = Ok (w', ret) ∧ winv w'.
Proof.
  intros W Et. unfold trace_start. rewrite (load_Some _ _ _ Et). cbn [obind].
  destruct (trace_is_err tr); [right; by exists w, (-1)|].
  assert (∀ tr', same_links tr tr' → tr_last_packet tr' = tr_last_packet tr → winv (set_trace w t tr')) as Hset.
  { intros tr' Hs Hl. apply (winv_set_trace _ _ tr); [done|done|done|]. intros q. rewrite Hl. exact (inv_last _ W t tr q Et). }
  destruct (fm_start_input (tr_module tr)) as [start|] eqn:Es; cbn [obind].
  - destruct (start (tr_data tr)) as [[[data err] ret]|e] eqn:Ecall; cbn [obind].
    + right. destruct (ret <? 0); do 2 eexists; (split; [done|by apply Hset]).
    + left. exists e. split; [done|]. by exists start, (tr_data tr).
  - right. do 2 eexists. split; [done|by apply Hset].
Qed.

(** Configuring a trace does not touch its last packet, and a filter is the one given. *)
Definition config_links (value : option_value) tr tr' : Prop :=
  tr_module tr' = tr_module tr ∧ tr_lock tr' = tr_lock tr ∧ tr_last_packet tr' = tr_last_packet tr ∧
  (tr_filter tr' = tr_filter tr ∨ ∃ f, value = VFilter f ∧ tr_filter tr' = Some f).

Lemma config_links_refl value tr : config_links value tr tr.
Proof. split_and!; auto. Qed.

Lemma config_input_links tr option value v tr' ret : config_input tr option value = (tr', ret) → config_links v tr tr'.
Proof.
  unfold config_input. destruct (fm_config_input (tr_module tr)) as [config|].
  - destruct (config (tr_data tr) option value) as [[data err] r]. intros [= <- _]. split_and!; auto.
  - intros [= <- _]. apply config_links_refl.
Qed.

Lemma config_links_trans v tr1 tr2 tr3 : config_links v tr1 tr2 → config_links v tr2 tr3 → config_links v tr1 tr3.
Proof.
  intros (H1 & H2 & H3 & H4) (K1 & K2 & K3 & K4). split_and!; [congruence..|].
  destruct K4 as [K4|K4]; [|by right]. rewrite K4. done.
Qed.

Lemma config_native_links tr option value tr' ret :
  config_native tr option value = Ok (tr', ret) → config_links value tr tr'.
Proof.
  unfold config_native, unsupported_option, clear_err. intros H.
  destruct option, value; try done; repeat case_match; simplify_eq/=; split_and!; eauto.
Qed.

Lemma set_hasher_links tr type hasher tr' ret v : trace_set_hasher tr type hasher = (tr', ret) → config_links v tr tr'.
Proof.
  unfold trace_set_hasher. case_bool_decide; [intros [= <- _]; apply config_links_refl|].
  set (tr1 := tr_set_hasher tr type hasher).
  destruct (if fm_parallel (tr_module tr1) then _ else _) as [tr2 r] eqn:E2.
  assert (config_links v tr1 tr2) as H2.
  { destruct (fm_parallel (tr_module tr1)); [by eapply config_input_links|]. injection E2 as <- _. apply config_links_refl. }
  intros Hr. assert (config_links v tr1 tr') as H1; [|by split_and!; apply H1].
  eapply config_links_trans; [done|]. repeat case_match; simplify_eq/=; split_and!; auto.
Qed.

Lemma trace_config_links tr option value tr' ret :
  trace_config tr option value = Ok (tr', ret) → config_links value tr tr'.
Proof.
  unfold trace_config. destruct (trace_is_err tr); [intros [= <- _]; apply config_links_refl|].
  assert (∀ r, match fm_config_input (tr_module tr) with
      | Some _ => let '(tr, ret) := config_input tr option value in
          if ret =? 0 then Ok (tr, 0) else config_native tr option value
      | None => config_native tr option value end = Ok (tr', r) → config_links value tr tr') as Hgen.
  { intros r. destruct (fm_config_input (tr_module tr)); [|by apply config_native_links].
    destruct (config_input tr option value) as [tr1 r1] eqn:E1. pose proof (config_input_links _ _ _ value _ _ E1) as H1.
    destruct (r1 =? 0); [by intros [= <- _]|]. intros H2%config_native_links. by eapply config_links_trans. }
  destruct option, value; try apply Hgen. intros [=]. by eapply set_hasher_links.
Qed.

Lemma winv_create_packet w p : winv w → w_packets w !! p = None → winv (trace_create_packet w p).
Proof.
  intros W Ep. apply winv_set_packet; [done| |done|done]. intros t tr Et El.
  destruct (inv_last _ W _ _ _ Et El) as (? & ? & _). congruence.
Qed.

Lemma winv_prepare w t p buffer rt_type flags w' ret :
  winv w → only_last w t p → trace_prepare_packet w t p buffer rt_type flags = Ok (w', ret) → winv w'.
Proof.
  intros W Ho. unfold trace_prepare_packet. unfold load at 1. destruct (w_packets w !! p) as [pk|] eqn:Ep; [|done].
  cbn [obind]. unfold load. destruct (w_traces w !! t) as [tr|] eqn:Et; [|done]. cbn [obind].
  destruct buffer as [buffer|]; [|by intros [= <- _]].
  destruct (inv_lock _ W _ _ Et) as [El _]. rewrite El. cbn [mutex_lock mutex_unlock obind].
  set (tr1 := tr_set tr _ _ _ _ _).
  assert (∀ o, winv (set_packet w p (tp_set_obj (tp_set_trace pk (Some t)) o))) as W0.
  { intros o. apply winv_set_packet; [done|..].
    - intros t1 tr1' E1 L1. cbn. f_equal. symmetry. by apply (Ho t1 tr1').
    - cbn. intros t1 [= <-]. by eexists.
    - exact (inv_bucket _ W p pk Ep). }
  assert (∀ tr' o, same_links tr tr' → tr_last_packet tr' = Some p →
    winv (set_packet (set_trace w t tr') p (tp_set_obj (tp_set_trace pk (Some t)) o))) as Hset.
  { intros tr' o Hs Hl.
    change (winv (set_trace (set_packet w p (tp_set_obj (tp_set_trace pk (Some t)) o)) t tr')).
    apply (winv_set_trace _ _ tr); [apply W0|done|done|]. intros q. rewrite Hl. intros [= <-].
    eexists. cbn [set_packet w_packets]. split; [apply lookup_insert_eq|done]. }
  assert (same_links tr tr1) as Hs1 by (split_and!; [done|by rewrite El|done]).
  assert (∀ pk1 tr1', set_trace (set_packet (set_trace w t tr1) p pk1) t tr1' = set_packet (set_trace w t tr1') p pk1) as Hsw.
  { intros pk1 tr1'. unfold set_trace, set_packet. cbn. by rewrite insert_insert_eq. }
  assert (∀ pk1 pk2 tr1', set_packet (set_trace (set_packet (set_trace w t tr1) p pk1) t tr1') p pk2
    = set_packet (set_trace w t tr1') p pk2) as Hsw2.
  { intros pk1 pk2 tr1'. unfold set_trace, set_packet. cbn. by rewrite !insert_insert_eq. }
  destruct (fm_prepare_packet (tr_module tr1)) as [prepare|].
  - intros H. obind_inv H. destruct a as [[[data o] err] r]. injection H as <- _. rewrite Hsw2. by apply Hset.
  - cbn [fail_with trace_set_err oassert Z.eqb negb obind]. intros [= <- _]. rewrite Hsw. by apply Hset.
Qed.

(** ** Use of the interface

    The calls of a program that keeps two rules: a packet that one trace has read
    last is not read into from another ([only_last]), and a trace is destroyed
    only when no packet belongs to it ([no_packet]).  The traces are of modules
    that keep to [module_ok]. *)
Inductive api_step w : world F prog → Prop :=
| A_create t tr : w_traces w !! t = None → tr_last_packet tr = None → tr_lock tr = MFree → tr_filter tr = None →
    module_ok (tr_module tr) → api_step w (set_trace w t tr)
| A_create_filter f fi : w_filters w !! f = None → filter_ok fi → api_step w (set_filter w f fi)
| A_create_packet p : w_packets w !! p = None → api_step w (trace_create_packet w p)
| A_start t w' ret : trace_start w t = Ok (w', ret) → api_step w w'
| A_pause t w' ret : trace_pause w t = Ok (w', ret) → api_step w w'
| A_config t tr option value tr' ret : w_traces w !! t = Some tr → trace_config tr option value = Ok (tr', ret) →
    (∀ f, value = VFilter f → is_Some (w_filters w !! f)) → api_step w (set_trace w t tr')
| A_read fuel t p w' ret tr : w_traces w !! t = Some tr → (left (tr_data tr) < fuel)%nat → only_last w t p →
    trace_read_packet pcap_compile bpf_filter fresh fuel w t p = Ok (w', ret) → api_step w w'
| A_prepare t p buffer rt_type flags w' ret : only_last w t p →
    trace_prepare_packet w t p buffer rt_type flags = Ok (w', ret) → api_step w w'
| A_fin p w' : trace_fin_packet w p = Ok w' → api_step w w'
| A_destroy_packet p w' : trace_destroy_packet w p = Ok w' → api_step w w'
| A_destroy t w' : no_packet w t → trace_destroy w t = Ok w' → api_step w w'.

Definition empty_world (parallel : bool) : world F prog :=
  {| w_traces := ∅; w_packets := ∅; w_filters := ∅; w_buckets := ∅; w_parallel := parallel |}.

Inductive api_reachable : world F prog → Prop :=
| AR_empty parallel : api_reachable (empty_world parallel)
| AR_step w w' : api_reachable w → api_step w w' → api_reachable w'.

Lemma load_inv {A} (m : gmap loc A) x a : load m x = Ok a → m !! x = Some a.
Proof. unfold load. destruct (m !! x); [by intros [= ->]|done]. Qed.

Lemma winv_step w w' : winv w → api_step w w' → winv w'.
Proof.
  intros W [t tr E El Elk Ef M|f fi E Hf|p E|t w1 r E|t w1 r E|t tr opt v tr' r E Ec Hv|fuel t p w1 r tr Et Hlt Ho E
    |t p b ty fl w1 r Ho E|p w1 E|p w1 E|t w1 Ho E].
  - apply winv_set_trace_gen; [done|done|done|by rewrite Ef|by rewrite El].
  - by apply winv_set_filter.
  - by apply winv_create_packet.
  - destruct (w_traces w !! t) as [tr|] eqn:Et; [|by unfold trace_start, load in E; rewrite Et in E].
    destruct (trace_start_ok w t tr W Et) as [(? & ? & _)|(? & ? & E' & ?)]; congruence.
  - destruct (w_traces w !! t) as [tr|] eqn:Et; [|by unfold trace_pause, load in E; rewrite Et in E].
    destruct (trace_pause_ok w t tr W Et) as (? & E' & ? & _). congruence.
  - destruct (trace_config_links _ _ _ _ _ Ec) as (Hm & Hk & Hl & Hf). destruct (inv_lock _ W _ _ E) as [? ?].
    apply winv_set_trace_gen; [done|by rewrite Hk|by rewrite Hm| |].
    + intros f Hff. destruct Hf as [Hf|(f' & Hvf & Hf)]; [rewrite Hf in Hff; by apply (inv_filter _ W t tr)|].
      apply Hv. congruence.
    + intros q. rewrite Hl. exact (inv_last _ W t tr q E).
  - destruct (w_packets w !! p) as [pk|] eqn:Ep.
    2:{ unfold trace_read_packet in E. rewrite (load_Some _ _ _ Et) in E. cbn [obind] in E.
        destruct (trace_is_err tr); [congruence|]. destruct (tr_started tr); cbn in E; [unfold load in E; by rewrite Ep in E|].
        injection E as <- _. apply (winv_set_trace _ _ tr); [done|done|done|]. intros q. exact (inv_last _ W t tr q Et). }
    destruct (decide (tr_err tr = 0 ∧ tr_started tr = true ∧ is_Some (fm_read_packet (tr_module tr)))) as [(He & Hs & [read Er])|Hn].
    + destruct (read_packet_ok fuel w t p tr pk read W Ho Et Ep Hlt He Hs Er) as [(? & ? & _)|(? & ? & ? & _ & E' & ? & _)]; congruence.
    + destruct (read_packet_refused fuel w t p tr pk Et Ep Hn) as (err & _ & E'). rewrite E in E'. injection E' as -> _.
      apply (winv_set_trace _ _ tr); [done|done|done|]. intros q. exact (inv_last _ W t tr q Et).
  - by eapply winv_prepare.
  - destruct (w_packets w !! p) as [pk|] eqn:Ep; [|by unfold trace_fin_packet, load in E; rewrite Ep in E].
    destruct (fin_packet_ok w p pk W Ep) as (? & E' & ? & _). congruence.
  - destruct (w_packets w !! p) as [pk|] eqn:Ep; [|by unfold trace_destroy_packet, load in E; rewrite Ep in E].
    destruct (trace_destroy_packet_ok w p pk W Ep) as (? & E' & ? & _). congruence.
  - destruct (w_traces w !! t) as [tr|] eqn:Et; [|by unfold trace_destroy, load in E; rewrite Et in E].
    assert (tr_last_packet tr = None) as Hl.
    { destruct (tr_last_packet tr) as [p|] eqn:El; [|done]. destruct (inv_last _ W _ _ _ Et El) as (pk & Ep & Tp). by destruct (Ho p pk). }
    destruct (trace_destroy_ok w t tr W Et Hl) as (? & E' & _ & _ & HW). rewrite E in E'. injection E' as <-. by apply HW.
Qed.

Lemma api_reachable_winv w : api_reachable w → winv w.
Proof. induction 1 as [b|w w' _ IH Hs]; [|by eapply winv_step]. split; intros *; cbn; by rewrite lookup_empty. Qed.

(** ** Reading into a packet that another trace has read last *)

(** The other traces are not touched, and the trace keeps its module and a free lock. *)
Definition others_same t w w' : Prop :=
  (∀ t1, t1 ≠ t → w_traces w' !! t1 = w_traces w !! t1) ∧
  ∃ tr tr', w_traces w !! t = Some tr ∧ w_traces w' !! t = Some tr' ∧ tr_module tr' = tr_module tr ∧
    tr_lock tr' = tr_lock tr.

Lemma others_same_trans t w1 w2 w3 : others_same t w1 w2 → others_same t w2 w3 → others_same t w1 w3.
Proof.
  intros (H1 & a & b & E1 & E2 & E3 & E4) (K1 & c & d & L1 & L2 & L3 & L4). assert (b = c) as <- by congruence. split.
  - intros t1 Hne. by rewrite K1, H1.
  - exists a, d. split_and!; congruence.
Qed.

Lemma others_same_set t w tr tr' :
  w_traces w !! t = Some tr → tr_module tr' = tr_module tr → tr_lock tr' = tr_lock tr → others_same t w (set_trace w t tr').
Proof.
  intros E Hm Hl. split; [intros t1 Hne; cbn; by rewrite lookup_insert_ne|]. exists tr, tr'.
  split_and!; [done|apply lookup_insert_eq|done..].
Qed.

Lemma others_same_refl t w tr : w_traces w !! t = Some tr → others_same t w w.
Proof. intros E. split; [done|]. by exists tr, tr. Qed.

(** Finishing a packet of [t], whose lock is free and which is in no bucket, returns. *)
Lemma fin_packet_loose w t p pk tr :
  w_packets w !! p = Some pk → tp_trace pk = Some t → tp_srcbucket pk = None → w_traces w !! t = Some tr →
  tr_lock tr = MFree →
  ∃ w', trace_fin_packet w p = Ok w' ∧ others_same t w w' ∧
    ∃ pk', w_packets w' !! p = Some pk' ∧ tp_srcbucket pk' = None.
Proof.
  intros Ep Tp Bp Et El. unfold trace_fin_packet. rewrite (load_Some _ _ _ Ep). cbn [obind]. rewrite Tp.
  assert (∃ w1 pk1 tr1, format_fin_packet w t p = Ok w1 ∧ w_packets w1 !! p = Some pk1 ∧ tp_trace pk1 = Some t ∧
    tp_srcbucket pk1 = None ∧ w_traces w1 !! t = Some tr1 ∧ tr_lock tr1 = MFree ∧ others_same t w w1)
    as (w1 & pk1 & tr1 & -> & Ep1 & Tp1 & Bp1 & Et1 & El1 & H1).
  { unfold format_fin_packet. rewrite (load_Some _ _ _ Et). cbn [obind].
    destruct (fm_fin_packet (tr_module tr)) as [fin|]; [|exists w, pk, tr; by split_and!; [..|eapply others_same_refl]].
    rewrite (load_Some _ _ _ Ep). cbn [obind]. destruct (fin (tr_data tr) (tp_obj pk)) as [data o].
    do 3 eexists. split; [done|]. cbn [set_packet set_trace w_packets w_traces].
    split_and!; [apply lookup_insert_eq|done|done|apply lookup_insert_eq|done|]. by eapply others_same_set. }
  cbn [obind]. rewrite (load_Some _ _ _ Ep1). cbn [obind]. unfold release_bucket. rewrite Bp1. cbn [obind].
  rewrite Tp1. unfold forget_packet. rewrite (load_Some _ _ _ Et1). cbn [obind]. rewrite El1.
  cbn [mutex_lock mutex_unlock obind]. eexists. split; [done|]. split.
  - eapply others_same_trans; [done|]. by eapply (others_same_set t w1 tr1).
  - eexists. cbn [set_packet w_packets]. split; [apply lookup_insert_eq|done].
Qed.

(** What holds of the trace and the packet throughout the loop. *)
Definition loose w t p : Prop :=
  ∃ tr pk, w_traces w !! t = Some tr ∧ tr_lock tr = MFree ∧ module_ok (tr_module tr) ∧
    w_packets w !! p = Some pk ∧ tp_srcbucket pk = None.

Lemma read_round_frame read w t p w' res :
  loose w t p → (∀ tr, w_traces w !! t = Some tr → fm_read_packet (tr_module tr) = Some read) →
  read_round pcap_compile bpf_filter fresh read w t p = Ok (w', res) →
  others_same t w w' ∧ ∃ pk', w_packets w' !! p = Some pk' ∧ tp_srcbucket pk' = None ∧
    (res ≠ None → tp_trace pk' = Some t).
Proof.
  intros (tr & pk & Et & El & M & Ep & Bp) Hr H. specialize (Hr _ Et). unfold read_round in H.
  rewrite (load_Some _ _ _ Ep) in H. cbn [obind] in H. rewrite (load_Some _ _ _ Et) in H. cbn [obind] in H.
  obind_inv H. rename a into rr, Hstep into Er. destruct (mo_read _ M read _ _ _ rr Hr Er) as (Hb & _). rewrite Hb in H. cbn [tp_set_bucket] in H. clear Er Hb.
  set (tr1 := tr_set_data tr (rr_data rr) (rr_err rr)) in *. set (pk1 := tp_set_obj _ (rr_obj rr)) in *.
  set (w1 := set_packet _ p pk1) in *.
  assert (others_same t w w1) as H1 by (by apply (others_same_set t w tr)).
  assert (w_traces w1 !! t = Some tr1) as Et1 by apply lookup_insert_eq.
  destruct ((rr_ret rr =? -1) || (rr_ret rr =? 0)).
  { injection H as <- <-. split; [done|]. exists pk1. split_and!; [apply lookup_insert_eq|done|done]. }
  obind_inv H. destruct a as [w2 filtret].
  assert (∃ tr2 pk2, w_traces w2 !! t = Some tr2 ∧ tr_lock tr2 = MFree ∧ w_packets w2 !! p = Some pk2 ∧
    tp_trace pk2 = Some t ∧ tp_srcbucket pk2 = None ∧ others_same t w w2) as (tr2 & pk2 & Et2 & El2 & Ep2 & Tp2 & Bp2 & H2).
  { destruct (tr_filter tr1); [|injection Hstep as <- <-; exists tr1, pk1; by split_and!; [..|apply lookup_insert_eq|idtac|idtac|]].
    obind_inv Hstep. obind_inv Hstep. destruct a0 as [[[fi o] fr] err]. injection Hstep as <- <-.
    do 2 eexists. split; [apply lookup_insert_eq|]. split; [done|]. split; [apply lookup_insert_eq|]. split_and!; [done|done|].
    eapply others_same_trans; [done|]. by apply (others_same_set t (set_filter w1 _ fi) tr1). }
  rewrite (load_Some _ _ _ Et2) in H. cbn [obind] in H.
  assert (∀ v, others_same t w2 (set_trace w2 t (tr_set_counts tr2 v (tr_accepted_packets tr2) (tr_sequence_number tr2)))) as Hc
    by (intros v; by apply (others_same_set t w2 tr2)).
  assert (∀ pk3 tr3, tr_module tr3 = tr_module tr2 → tr_lock tr3 = tr_lock tr2 →
    others_same t w (set_packet (set_trace w2 t tr3) p pk3)) as Hacc.
  { intros pk3 tr3 Hm Hl. eapply others_same_trans; [exact H2|]. by apply (others_same_set t w2 tr2). }
  destruct filtret as [[|fr|[fr|fr|]]|]; cbn [obind] in H.
  1: { obind_inv H. injection H as <- <-.
       edestruct (fin_packet_loose (set_trace w2 t (tr_set_counts tr2 (u64 (tr_filtered_packets tr2 + 1)) (tr_accepted_packets tr2)
          (tr_sequence_number tr2))) t p pk2) as (w3 & E3 & H3 & pk3 & Ep3 & Bp3); [done|done|done|apply lookup_insert_eq|done|].
       rewrite E3 in Hstep0. injection Hstep0 as <-. split; [|by exists pk3].
       eapply others_same_trans; [exact H2|]. eapply others_same_trans; [apply Hc|done]. }
  4: { injection H as <- <-. split; [done|]. exists pk2. by split_and!. }
  all: rewrite (load_Some _ _ _ Ep2) in H; cbn [obind] in H; injection H as <- <-; split; [by apply Hacc|];
    eexists; split; [apply lookup_insert_eq|]; done.
Qed.

Lemma read_loop_frame fuel read t p : ∀ w w' ret,
  loose w t p → (∀ tr, w_traces w !! t = Some tr → fm_read_packet (tr_module tr) = Some read) →
  read_loop pcap_compile bpf_filter fresh fuel read w t p = Ok (w', ret) →
  others_same t w w' ∧ ∃ pk', w_packets w' !! p = Some pk' ∧ tp_srcbucket pk' = None ∧ tp_trace pk' = Some t.
Proof.
  induction fuel as [|fuel IH]; intros w w' ret Hlo Hr H; [done|]. cbn [read_loop] in H. obind_inv H.
  destruct a as [w1 res]. destruct (read_round_frame read w t p w1 res Hlo Hr Hstep) as (H1 & pk1 & Ep1 & Bp1 & Tp1).
  destruct res as [r|].
  - injection H as <- _. split; [done|]. exists pk1. by split_and!; [..|apply Tp1].
  - destruct Hlo as (tr & pk & Et & El & M & Ep & Bp). pose proof H1 as (_ & tr0 & tr1 & E0 & E1 & Em & Elk).
    assert (tr0 = tr) as -> by congruence.
    destruct (IH w1 w' ret) as (H2 & Hpk); [|by intros ? ?; simplify_eq; rewrite Em; apply Hr|done|].
    + exists tr1, pk1. split_and!; [done|congruence|by rewrite Em|done|done].
    + split; [|done]. by eapply others_same_trans.
Qed.
End invariant.

(** ** Theorems *)
Section theorems.
Context {F prog : Type} (pcap_compile : Z → list Z → option prog) (bpf_filter : prog → list Z → Z)
  (fresh : list Z) (left : F → nat).

(** C12: A program that keeps the two rules can do nothing that fails in libtrace: after
    any sequence of its calls, every trace can be paused (which finishes its last
    packet), every packet can be finished and destroyed, and starting any trace and
    reading from it into any packet that no other trace has read last return, or
    end in a fault of the format's own function or of the filter applied to a
    packet read; the packet a trace has read last is alive and belongs to it.  A
    trace can be destroyed exactly if it has no last packet: otherwise the mutex
    that has just been destroyed is locked to finish the packet. *)
Theorem trace_calls_safe w :
  api_reachable pcap_compile bpf_filter fresh left w →
  (∀ t tr, w_traces w !! t = Some tr →
     ((∃ w' ret, trace_start w t = Ok (w', ret)) ∨ ∃ e, trace_start w t = Fault e ∧ start_fault (tr_module tr) e) ∧
     (∃ w' tr', trace_pause w t = Ok (w', if tr_started tr then 0 else -1) ∧
        w_traces w' !! t = Some tr' ∧ tr_started tr' = false ∧
        (tr_started tr = true → tr_last_packet tr' = None)) ∧
     match tr_last_packet tr with
     | None => ∃ w', trace_destroy w t = Ok w' ∧ w_traces w' !! t = None ∧ w_packets w' = w_packets w
     | Some p => trace_destroy w t = Fault Dangling ∧ ∃ pk, w_packets w !! p = Some pk ∧ tp_trace pk = Some t
     end ∧
     (∀ p pk, w_packets w !! p = Some pk → only_last w t p →
        let call := trace_read_packet pcap_compile bpf_filter fresh (S (left (tr_data tr))) w t p in
        (∃ w' ret, call = Ok (w', ret)) ∨
        ∃ e, call = Fault e ∧ read_fault pcap_compile bpf_filter fresh (tr_module tr) e)) ∧
  (∀ p pk, w_packets w !! p = Some pk →
     (∃ w', trace_fin_packet w p = Ok w') ∧ (∃ w', trace_destroy_packet w p = Ok w')).
Proof.
  intros W%api_reachable_winv. split.
  - intros t tr Et. split_and!.
    + destruct (trace_start_ok _ w t tr W Et) as [?|(w' & ret & ? & _)]; eauto.
    + destruct (trace_pause_ok _ w t tr W Et) as (w' & ? & _ & tr' & ? & ? & ?). eauto 10.
    + destruct (tr_last_packet tr) as [p|] eqn:El.
      * split; [by eapply trace_destroy_last|]. by apply (inv_last _ _ W t tr).
      * destruct (trace_destroy_ok _ w t tr W Et El) as (w' & ? & ? & ? & _). eauto.
    + intros p pk Ep Ho call.
      destruct (decide (tr_err tr = 0 ∧ tr_started tr = true ∧ is_Some (fm_read_packet (tr_module tr)))) as [(He & Hs & [read Er])|Hn].
      * destruct (read_packet_ok pcap_compile bpf_filter fresh left (S (left (tr_data tr))) w t p tr pk read W Ho Et Ep)
          as [?|(? & w' & ret & _ & ? & _)]; [apply Nat.lt_succ_diag_r|done..|by right|left; eauto].
      * destruct (read_packet_refused pcap_compile bpf_filter fresh (S (left (tr_data tr))) w t p tr pk Et Ep Hn) as (err & _ & ?).
        left. eauto.
  - intros p pk Ep. split.
    + destruct (fin_packet_ok _ w p pk W Ep) as (w' & ? & _). eauto.
    + destruct (trace_destroy_packet_ok _ w p pk W Ep) as (w' & ? & _). eauto.
Qed.

(** C13: A read from a started trace without error returns, unless the format's read or
    the filter fails.  The packet is finished first if it belongs to the trace.
    The rounds before the last are exactly those in which the filter rejects the
    packet read; there are [n] of them, and the number of filtered packets grows
    by [n].  The packet returned is counted as accepted, gets the next sequence
    number, belongs to the trace and is its last packet; at the end of the trace,
    or after an error, nothing else is counted and the packet still belongs to the
    trace. *)
Theorem read_packet_counts w t tr p pk read :
  api_reachable pcap_compile bpf_filter fresh left w →
  w_traces w !! t = Some tr → w_packets w !! p = Some pk → only_last w t p →
  tr_err tr = 0 → tr_started tr = true → fm_read_packet (tr_module tr) = Some read →
  let call := trace_read_packet pcap_compile bpf_filter fresh (S (left (tr_data tr))) w t p in
  (∃ e, call = Fault e ∧ read_fault pcap_compile bpf_filter fresh (tr_module tr) e) ∨
  ∃ w0 n w1 w' ret,
    (if bool_decide (tp_trace pk = Some t) then trace_fin_packet w p else Ok w) = Ok w0 ∧
    rejections pcap_compile bpf_filter fresh read t p w0 n w1 ∧
    read_round pcap_compile bpf_filter fresh read w1 t p = Ok (w', Some ret) ∧
    call = Ok (w', ret) ∧ read_effect w' t p tr n ret.
Proof.
  intros W%api_reachable_winv Et Ep Ho He Hs Hr call.
  destruct (read_packet_ok pcap_compile bpf_filter fresh left (S (left (tr_data tr))) w t p tr pk read W Ho Et Ep)
    as [?|(w0 & w' & ret & ? & ? & _ & n & w1 & ? & ? & ?)]; [apply Nat.lt_succ_diag_r|done..|by left|].
  right. by exists w0, n, w1, w', ret.
Qed.

(** Without the first rule: once a packet that the trace [t] has read last has been
    read into from another trace, pausing [t] fails its assertion. *)
Theorem shared_packet_fails_pause w t t' tr tr' p fuel w' ret :
  api_reachable pcap_compile bpf_filter fresh left w →
  w_traces w !! t = Some tr → tr_started tr = true → tr_last_packet tr = Some p →
  w_traces w !! t' = Some tr' → t' ≠ t → tr_err tr' = 0 → tr_started tr' = true → fm_read_packet (tr_module tr') ≠ None →
  trace_read_packet pcap_compile bpf_filter fresh fuel w t' p = Ok (w', ret) →
  trace_pause w' t = Fault AssertFailed.
Proof.
  intros W%api_reachable_winv Et Es El Et' Hne He Hs Hr H.
  destruct (inv_last _ _ W _ _ _ Et El) as (pk & Ep & Tp).
  destruct (inv_lock _ _ W _ _ Et') as [Hlk M].
  unfold trace_read_packet in H. rewrite (load_Some _ _ _ Et') in H. cbn [obind] in H. unfold trace_is_err in H.
  rewrite He, Hs in H. cbn [Z.eqb negb] in H. rewrite (load_Some _ _ _ Ep) in H. cbn [obind] in H.
  destruct (fm_read_packet (tr_module tr')) as [read|] eqn:Er; [|done].
  rewrite bool_decide_eq_false_2 in H by congruence. cbn [obind] in H.
  destruct (read_loop_frame pcap_compile bpf_filter fresh left fuel read t' p w w' ret) as ((Hsame & tr0 & tr1 & E0 & E1 & _ & Elk) & pk' & Ep' & Bp' & Tp');
    [|by intros ? ?; simplify_eq|done|].
  { exists tr', pk. split_and!; try done. by apply (inv_bucket _ _ W p). }
  assert (w_traces w' !! t = Some tr) as Ett by (by rewrite Hsame).
  unfold trace_pause. rewrite (load_Some _ _ _ Ett). cbn [obind]. rewrite Es. cbn [negb].
  unfold fin_last_packet. rewrite (load_Some _ _ _ Ett). cbn [obind]. rewrite El.
  destruct (fin_packet_loose w' t' p pk' tr1) as (w2 & -> & (Hsame2 & _) & _); [done|done|done|done| |].
  { by rewrite Elk; simplify_eq. }
  cbn [obind]. rewrite (load_Some (w_traces w2) t tr) by (by rewrite Hsame2).
  cbn [obind]. rewrite bool_decide_eq_false_2 by (by rewrite El). done.
Qed.

(** Without the second rule: after a read that found the end of the trace, the
    packet still points to the trace, which can be destroyed if it had no other
    last packet; destroying the packet then reads freed memory. *)
Theorem destroy_after_eof_dangles w t tr p pk w1 :
  api_reachable pcap_compile bpf_filter fresh left w →
  w_traces w !! t = Some tr → w_packets w !! p = Some pk → only_last w t p →
  (∀ q, tr_last_packet tr = Some q → q = p) →
  trace_read_packet pcap_compile bpf_filter fresh (S (left (tr_data tr))) w t p = Ok (w1, 0) →
  ∃ w2, trace_destroy w1 t = Ok w2 ∧ trace_destroy_packet w2 p = Fault Dangling.
Proof.
  intros W%api_reachable_winv Et Ep Ho Hq H.
  destruct (decide (tr_err tr = 0 ∧ tr_started tr = true ∧ is_Some (fm_read_packet (tr_module tr)))) as [(He & Hs & [read Er])|Hn].
  2:{ destruct (read_packet_refused pcap_compile bpf_filter fresh (S (left (tr_data tr))) w t p tr pk Et Ep Hn) as (err & _ & E).
      rewrite H in E. discriminate E. }
  destruct (read_packet_ok pcap_compile bpf_filter fresh left (S (left (tr_data tr))) w t p tr pk read W Ho Et Ep)
    as [(e & E & _)|(w0 & w' & ret & _ & E & W' & n & w3 & _ & _ & tr1 & pk1 & Et1 & Ep1 & Tp1 & _ & Heff)];
    [apply Nat.lt_succ_diag_r|done..|congruence|].
  rewrite H in E. injection E as <- <-.
  rewrite bool_decide_eq_true_2 in Heff by auto. destruct Heff as (_ & _ & Hl).
  assert (tr_last_packet tr1 = None) as Hl1.
  { rewrite Hl. case_bool_decide as Hd; [done|]. destruct (tr_last_packet tr) as [q|]; [|done]. by destruct Hd; rewrite (Hq q). }
  destruct (trace_destroy_ok _ w1 t tr1 W' Et1 Hl1) as (w2 & -> & Ed & Hp & _). exists w2. split; [done|].
  assert (w_packets w2 !! p = Some pk1) as Ep2 by (by rewrite Hp).
  unfold trace_destroy_packet. rewrite (load_Some _ _ _ Ep2). cbn [obind]. rewrite Tp1. unfold format_fin_packet, load.
  destruct (w_parallel w2); [by rewrite Ed|]. cbn [obind]. rewrite Ep2. cbn [obind]. by rewrite Tp1, Ed.
Qed.
End theorems.

(** ** A small format

    A trace of Ethernet packets of three bytes; its data is the number of packets
    left. *)
Definition counting_read (data : nat) (bs : gmap loc libtrace_bucket_t) (o : packet_obj) : outcome (read_result nat) :=
  Ok match data with
     | O => {| rr_data := O; rr_buckets := bs; rr_obj := o; rr_bucket := None; rr_err := None; rr_ret := 0 |}
     | S n => {| rr_data := n; rr_buckets := bs; rr_obj := sample_obj [1; 2; 3]; rr_bucket := None;
                 rr_err := None; rr_ret := 3 |}
     end.

Definition counting_format : format_module nat :=
  {| fm_table := λ _, sample_trace TRACE_TYPE_ETH {| tv_sec := 0; tv_usec := 0 |} 3 60;
     fm_start_input := None; fm_pause_input := None; fm_config_input := None; fm_read_packet := Some counting_read;
     fm_prepare_packet := None; fm_fin_packet := None; fm_parallel := false |}.

Definition counting_trace (n : nat) : libtrace_t nat :=
  {| tr_module := counting_format; tr_data := n; tr_err := 0; tr_started := false; tr_filter := None; tr_snaplen := 0;
     tr_filtered_packets := 0; tr_accepted_packets := 0; tr_sequence_number := 0; tr_last_packet := None; tr_lock := MFree;
     tr_hasher_type := HASHER_BALANCE; tr_hasher := None |}.

(** Two traces, of [n] packets and of two, both started, and a packet. *)
Definition two_traces (n : nat) : world nat Z :=
  let w := set_trace (set_trace (empty_world false) 1%positive (counting_trace n)) 2%positive (counting_trace 2) in
  let w := trace_create_packet w 1%positive in
  let start tr := tr_set tr (tr_data tr) (tr_err tr) true (tr_last_packet tr) (tr_lock tr) in
  set_trace (set_trace w 1%positive (start (counting_trace n))) 2%positive (start (counting_trace 2)).

Lemma counting_filters (fi : libtrace_filter_t Z) : filter_ok fi →
  ∃ fi' o' ret err, trace_apply_filter sample_compile sample_bpf [] fi
    (sample_trace TRACE_TYPE_ETH {| tv_sec := 0; tv_usec := 0 |} 3 60) (sample_obj [1; 2; 3])
    = Ok (fi', o', ret, err) ∧ filter_ok fi'.
Proof.
  intros Hfi. assert (filterable (sample_packet TRACE_TYPE_ETH [1; 2; 3])) as Hf
    by (split_and!; [by apply sample_packet_describes|done..]).
  destruct (apply_filter_ok sample_compile sample_bpf [] fi (sample_packet TRACE_TYPE_ETH [1; 2; 3])
    (default 1 (if fi_flag fi then fi_filter fi else Some 1)) Hf) as [o' E].
  - unfold filter_ok in Hfi. destruct (fi_flag fi).
    + by destruct (fi_filter fi).
    + destruct (fi_string fi) as [s|]; [|done]. by exists s.
  - do 4 eexists. split; [exact E|]. done.
Qed.

Lemma counting_ok : module_ok id counting_format.
Proof.
  split; [|done]. intros read data bs o rr [= <-] [= <-]. split; [by destruct data|].
  destruct data as [|n]; cbn; [naive_solver|]. intros _. apply Nat.lt_succ_diag_r.
Qed.

Definition started_trace (n : nat) : libtrace_t nat := tr_set (counting_trace n) n 0 true None MFree.

Lemma reachable_start w t n :
  api_reachable sample_compile sample_bpf [] id w → w_traces w !! t = Some (counting_trace n) →
  api_reachable sample_compile sample_bpf [] id (set_trace w t (started_trace n)).
Proof.
  intros H E. eapply AR_step; [exact H|]. apply (A_start _ _ _ _ _ t _ 0). unfold trace_start.
  by rewrite (load_Some _ _ _ E).
Qed.

Lemma two_traces_reachable n : api_reachable sample_compile sample_bpf [] id (two_traces n).
Proof.
  apply reachable_start; [apply reachable_start|]; [|done|done].
  eapply AR_step; [|by apply (A_create_packet _ _ _ _ _ 1%positive)].
  eapply AR_step; [|apply (A_create _ _ _ _ _ 2%positive); [done..|apply counting_ok]].
  eapply AR_step; [|apply (A_create _ _ _ _ _ 1%positive); [done..|apply counting_ok]].
  apply AR_empty.
Qed.

Lemma two_traces_only_last n t p : only_last (two_traces n) t p.
Proof.
  intros t' tr'. cbn [two_traces set_trace trace_create_packet set_packet w_traces empty_world]. rewrite !lookup_insert.
  repeat case_decide; [by intros [= <-]..|]. by rewrite lookup_empty.
Qed.

(** Trace 1 has been read into the packet. *)
Definition one_read : world nat Z :=
  match trace_read_packet sample_compile sample_bpf [] 3 (two_traces 2) 1%positive 1%positive with
  | Ok (w, _) => w
  | Fault _ => two_traces 2
  end.

Lemma one_read_reachable : api_reachable sample_compile sample_bpf [] id one_read.
Proof.
  eapply AR_step; [apply (two_traces_reachable 2)|].
  apply (A_read _ _ _ _ _ 3 1%positive 1%positive _ 3 (started_trace 2)); [done| |apply two_traces_only_last|].
  - apply Nat.lt_succ_diag_r.
  - vm_compute. reflexivity.
Qed.

Lemma trace_calls_safe_witness :
  trace_destroy one_read 1%positive = Fault Dangling ∧ (∃ w', trace_destroy one_read 2%positive = Ok w') ∧
  (∃ w', trace_fin_packet one_read 1%positive = Ok w').
Proof.
  destruct (trace_calls_safe sample_compile sample_bpf [] id one_read one_read_reachable) as [H Hp].
  destruct (H 1%positive (default (counting_trace 0) (w_traces one_read !! 1%positive))) as (_ & _ & Hd & _); [vm_compute; reflexivity|].
  destruct (H 2%positive (default (counting_trace 0) (w_traces one_read !! 2%positive))) as (_ & _ & (w' & Hd2 & _) & _); [vm_compute; reflexivity|].
  destruct (Hp 1%positive (default (Build_packet new_packet None 0 0 None 0) (w_packets one_read !! 1%positive))) as [Hf _];
    [vm_compute; reflexivity|].
  split_and!; [exact (proj1 Hd)|by exists w'|exact Hf].
Defined.

(** A trace whose packets count down in their first byte, and a filter that accepts
    the packets that begin with 0 or 1. *)
Definition countdown_read (data : nat) (bs : gmap loc libtrace_bucket_t) (o : packet_obj) : outcome (read_result nat) :=
  let! rr := counting_read data bs o in
  Ok {| rr_data := rr_data rr; rr_buckets := bs; rr_obj := if rr_ret rr =? 0 then o else sample_obj [Z.of_nat data; 2; 3];
        rr_bucket := None; rr_err := None; rr_ret := rr_ret rr |}.

Definition countdown_format : format_module nat :=
  {| fm_table := fm_table counting_format; fm_start_input := None; fm_pause_input := None; fm_config_input := None;
     fm_read_packet := Some countdown_read; fm_prepare_packet := None; fm_fin_packet := None; fm_parallel := false |}.

Definition low_bpf (f : Z) (bs : list Z) : Z := if default 0 (head bs) <=? 1 then 1 else 0.

Definition countdown_trace (started : bool) (filter : option loc) : libtrace_t nat :=
  {| tr_module := countdown_format; tr_data := 4%nat; tr_err := 0; tr_started := started; tr_filter := filter; tr_snaplen := 0;
     tr_filtered_packets := 0; tr_accepted_packets := 0; tr_sequence_number := 0; tr_last_packet := None; tr_lock := MFree;
     tr_hasher_type := HASHER_BALANCE; tr_hasher := None |}.

Lemma countdown_ok : module_ok id countdown_format.
Proof.
  split; [|done]. intros read data bs o rr [= <-] [= <-]. split; [done|].
  destruct data as [|n]; cbn; [naive_solver|]. intros _. apply Nat.lt_succ_diag_r.
Qed.

(** The trace and a packet; then the trace gets the filter, and is started. *)
Definition countdown_new : world nat Z :=
  let w := set_trace (empty_world false) 1%positive (countdown_trace false None) in
  trace_create_packet (set_filter w 1%positive (trace_create_filter_from_bytecode 1)) 1%positive.
Definition countdown_filtered : world nat Z := set_trace countdown_new 1%positive (countdown_trace false (Some 1%positive)).
Definition countdown_world : world nat Z := set_trace countdown_filtered 1%positive (countdown_trace true (Some 1%positive)).

Lemma countdown_world_reachable : api_reachable sample_compile low_bpf [] id countdown_world.
Proof.
  apply (AR_step _ _ _ _ countdown_filtered); [|by apply (A_start _ _ _ _ _ 1%positive _ 0)].
  apply (AR_step _ _ _ _ countdown_new).
  2:{ apply (A_config _ _ _ _ _ 1%positive (countdown_trace false None) TRACE_OPTION_FILTER (VFilter 1%positive) _ 0);
      [done|done|by intros f [= <-]; eexists]. }
  eapply AR_step; [|by apply (A_create_packet _ _ _ _ _ 1%positive)].
  eapply AR_step; [|by apply (A_create_filter _ _ _ _ _ 1%positive)].
  eapply AR_step; [|apply (A_create _ _ _ _ _ 1%positive); [done..|apply countdown_ok]].
  apply AR_empty.
Qed.

(** Of the four packets three are rejected before the one that is returned. *)
Lemma read_packet_counts_witness :
  ∃ w' n, trace_read_packet sample_compile low_bpf [] 5 countdown_world 1%positive 1%positive = Ok (w', 3) ∧
    read_effect w' 1%positive 1%positive (countdown_trace true (Some 1%positive)) n 3 ∧ u64 (Z.of_nat n) = 3.
Proof.
  destruct (read_packet_counts sample_compile low_bpf [] id countdown_world 1%positive (countdown_trace true (Some 1%positive))
    1%positive (default (Build_packet new_packet None 0 0 None 0) (w_packets countdown_world !! 1%positive)) countdown_read)
    as [(e & E & _)|(w0 & n & w1 & w' & ret & _ & _ & _ & E & H)].
  - apply countdown_world_reachable.
  - done.
  - vm_compute. reflexivity.
  - intros t tr. cbn [countdown_world countdown_filtered countdown_new set_trace trace_create_packet set_packet set_filter w_traces empty_world].
    rewrite !lookup_insert. repeat case_decide; [by intros [= <-]..|]. by rewrite lookup_empty.
  - done.
  - done.
  - done.
  - vm_compute in E. discriminate E.
  - exists w', n. assert (ret = 3) as -> by (vm_compute in E; congruence). split; [exact E|]. split; [exact H|].
    destruct H as (tr' & pk' & Et & _ & _ & Hf & _). cbn [tr_filtered_packets countdown_trace] in Hf.
    change (u64 (Z.of_nat n)) with (u64 (0 + Z.of_nat n)). rewrite <- Hf.
    assert (option_map tr_filtered_packets (w_traces w' !! 1%positive) = Some 3) as H3.
    { vm_compute in E. injection E as <-. vm_compute. reflexivity. }
    rewrite Et in H3. injection H3 as ->. reflexivity.
Defined.

Lemma shared_packet_fails_pause_witness :
  (let! ' (w, _) := trace_read_packet sample_compile sample_bpf [] 3 one_read 2%positive 1%positive in
   trace_pause w 1%positive) = Fault AssertFailed.
Proof.
  destruct (trace_read_packet sample_compile sample_bpf [] 3 one_read 2%positive 1%positive) as [[w' ret]|] eqn:E;
    [|vm_compute in E; done].
  apply (shared_packet_fails_pause sample_compile sample_bpf [] id one_read 1%positive 2%positive
    (default (counting_trace 0) (w_traces one_read !! 1%positive)) (default (counting_trace 0) (w_traces one_read !! 2%positive))
    1%positive 3 w' ret); [apply one_read_reachable|..|exact E]; vm_compute; done.
Defined.

(** A trace without packets. *)
Lemma destroy_after_eof_dangles_witness :
  (let! ' (w, _) := trace_read_packet sample_compile sample_bpf [] 1 (two_traces 0) 1%positive 1%positive in
   let! w := trace_destroy w 1%positive in
   trace_destroy_packet w 1%positive) = Fault Dangling.
Proof.
  destruct (trace_read_packet sample_compile sample_bpf [] 1 (two_traces 0) 1%positive 1%positive) as [[w1 ret]|] eqn:E;
    [|vm_compute in E; done].
  destruct (destroy_after_eof_dangles sample_compile sample_bpf [] id (two_traces 0) 1%positive (started_trace 0) 1%positive
    (default (tp_set_trace (Build_packet new_packet None 0 0 None 0) None) (w_packets (two_traces 0) !! 1%positive)) w1)
    as (w2 & E1 & E2).
  - apply two_traces_reachable.
  - done.
  - done.
  - apply two_traces_only_last.
  - done.
  - assert (ret = 0) as -> by (vm_compute in E; congruence). exact E.
  - cbn [obind]. rewrite E1. exact E2.
Defined.

(** A program of a filter that accepts with the largest possible length, as byte
    code often does, makes reading fail without an error. *)
Example accept_all_ones_fails :
  (let f := trace_create_filter_from_bytecode 1 in
   let w := set_filter (two_traces 2) 1%positive f in
   let w := set_trace w 1%positive (tr_set_options (started_trace 2) (Some 1%positive) 0) in
   let! ' (w, ret) := trace_read_packet sample_compile (λ _ _, 2 ^ 32 - 1) [] 3 w 1%positive 1%positive in
   let! tr := load (w_traces w) 1%positive in
   Ok (ret, tr_err tr)) = Ok (-1, 0).
Proof. vm_compute. reflexivity. Qed.

(** An invalid snap length sets an error but is stored, and the call reports
    success. *)
Lemma config_snaplen (F : Type) (tr : libtrace_t F) n :
  tr_err tr = 0 → fm_config_input (tr_module tr) = None →
  ∃ tr', trace_config tr TRACE_OPTION_SNAPLEN (VInt n) = Ok (tr', 0) ∧ tr_snaplen tr' = u64 n ∧
    tr_err tr' = if (0 <=? n) && (n <=? LIBTRACE_PACKET_BUFSIZE) then 0 else TRACE_ERR_BAD_STATE.
Proof.
  intros He Hc. unfold trace_config, config_native, clear_err, trace_is_err. rewrite He, Hc. cbn [Z.eqb negb].
  rewrite !Z.ltb_antisym, <- negb_andb.
  destruct ((0 <=? n) && (n <=? LIBTRACE_PACKET_BUFSIZE)); cbn [negb trace_set_err oassert Z.eqb obind]; by eexists.
Qed.

(** The hasher that is left: none for balancing or if the format hashes itself, the
    Toeplitz hash for the directional kinds, and the user's. *)
Lemma set_hasher_result (F : Type) (tr : libtrace_t F) type hasher tr' :
  trace_set_hasher tr type hasher = (tr', 0) →
  tr_hasher tr' = None ∨ tr_hasher tr' = hasher ∨
  (hasher = None ∧ tr_hasher tr' = Some (HasherToeplitz (bool_decide (type = HASHER_BIDIRECTIONAL)))).
Proof.
  unfold trace_set_hasher, config_input. case_bool_decide; [done|].
  repeat case_match; intros; simplify_eq/=; auto; repeat case_match; simplify_eq/=; auto.
Qed.

(** ** The pcap file format as a module *)
Section pcap.
Context {W : Wandio}.
Variable fresh : list Z.

Definition err_of (t : pcapfile_trace) : option Z := if pf_err t =? 0 then None else Some (pf_err t).

(** The trace keeps the error; the format's data starts each call without one. *)
Definition no_err (t : pcapfile_trace) : pcapfile_trace := pf_set_err t 0.

Definition pcapfile_module : format_module pcapfile_trace :=
  {| fm_table := λ t, pcap_trace (pf_header t);
     fm_start_input := Some (λ t, let! ' (t, ret) := pcapfile_start_input (no_err t) in Ok (t, err_of t, ret));
     fm_pause_input := None;
     fm_config_input := Some (λ t option value,
       let realtime := match option, value with TRACE_OPTION_EVENT_REALTIME, VInt n => Some n | _, _ => None end in
       match pcapfile_config_input (no_err t) realtime with
       | Ok (t', ret) => (t', err_of t', ret)
       | Fault _ => (t, None, -1)
       end);
     fm_read_packet := Some (λ t bs o,
       let! ' (t, o, ret) := pcapfile_read_packet fresh (no_err t) o in
       Ok {| rr_data := t; rr_buckets := bs; rr_obj := o; rr_bucket := None; rr_err := err_of t; rr_ret := ret |});
     fm_prepare_packet := None;
     fm_fin_packet := None;
     fm_parallel := false |}.

(** It keeps to [module_ok] whatever the bytes of the file: what is left to read is
    the rest of the file, of which each packet takes its header; a read gives
    nothing back. *)
Definition pcapfile_left {WF : WandioFile W} (t : pcapfile_trace) : nat :=
  match pf_io t with Some io => length (io_rest io) | None => O end.

Lemma pcapfile_module_ok {WF : WandioFile W} :
  (∀ io n, (length (io_rest (wandio_read io n).1.1) ≤ length (io_rest io))%nat) → module_ok pcapfile_left pcapfile_module.
Proof.
  intros Hshrink. split; [|done]. intros read t bs o rr [= <-] H. obind_inv H. destruct a as [[t' o'] ret]. injection H as <-.
  cbn [rr_bucket rr_ret rr_data]. split; [done|]. intros [Hm1 H0]. unfold pcapfile_read_packet in Hstep.
  change (pf_io (no_err t)) with (pf_io t) in Hstep. unfold pcapfile_left at 2.
  destruct (pf_io t) as [io|]; [|done].
  destruct (wandio_read_spec io sizeof_pkt_hdr) as (io1 & Eio1 & Hio1); [lia|]. rewrite Eio1 in Hstep.
  pose proof (Zlen_nonneg (io_rest io)) as Hlen.
  assert (∀ t1 e (o1 : packet_obj) t2 o2 r, (let! ' (t, ret) := pf_fail t1 e in Ok (t, o1, ret)) = Ok (t2, o2, r) → r = -1) as Hfail.
  { intros t1 e o1 t2 o2 r Hf. unfold pf_fail in Hf. destruct (trace_set_err e) as [e'|]; [|done].
    cbn [obind] in Hf. congruence. }
  obind_inv Hstep. destruct (_ <? 0); [by apply Hfail in Hstep|].
  destruct (Z.eqb_spec (Z.min sizeof_pkt_hdr (Zlen (io_rest io))) 0) as [|Hne]; [by injection Hstep as _ _ <-|].
  assert (length (io_rest io1) < length (io_rest io))%nat as Hlt by (rewrite Hio1, length_drop; unfold Zlen in *; lia).
  destruct (_ <? sizeof_pkt_hdr); [by apply Hfail in Hstep|]. obind_inv Hstep.
  destruct (LIBTRACE_PACKET_BUFSIZE <=? _); [by apply Hfail in Hstep|].
  set (want := swapl _ a0) in Hstep. destruct (want =? 0); [by injection Hstep as <- _ _|].
  destruct (wandio_read io1 _) as [[io2 bs2] err2] eqn:Eio2. obind_inv Hstep.
  destruct (err2 <? 0); [by apply Hfail in Hstep|]. destruct (err2 =? 0); [by injection Hstep as _ _ <-|].
  destruct (err2 <? _); [by apply Hfail in Hstep|]. injection Hstep as <- _ _.
  unfold pcapfile_left. cbn [pf_io pf_set_io]. eapply Nat.le_lt_trans; [|exact Hlt].
  specialize (Hshrink io1 want). by rewrite Eio2 in Hshrink.
Qed.
End pcap.

(** Writing two packets to a file and reading it back through the interface of
    traces: return values, sequence numbers and capture lengths, up to the end of
    the file.  The packets are small, so that a small buffer is enough. *)
Definition pcap_session (file : list Z) (snaplen : Z) : outcome (list (Z * Z * Z)) :=
  let fresh := replicate 64 0 in
  let tr : libtrace_t pcapfile_trace :=
    {| tr_module := pcapfile_module fresh;
       tr_data := pcapfile_init_input [] (Some file) (pcapfile_header_for TRACE_TYPE_ETH);
       tr_err := 0; tr_started := false; tr_filter := None; tr_snaplen := 0;
       tr_filtered_packets := 0; tr_accepted_packets := 0; tr_sequence_number := 0; tr_last_packet := None; tr_lock := MFree;
       tr_hasher_type := HASHER_BALANCE; tr_hasher := None |} in
  let! ' (tr, _) := trace_set_snaplen tr snaplen in
  let w : world pcapfile_trace Z := set_trace (empty_world false) 1%positive tr in
  let w := trace_create_packet w 1%positive in
  let! ' (w, _) := trace_start w 1%positive in
  let read w :=
    let! ' (w, ret) := trace_read_packet sample_compile sample_bpf fresh 1 w 1%positive 1%positive in
    let! pk := load (w_packets w) 1%positive in
    let! ' (_, cap) := if ret <=? 0 then Ok (o_pkt (tp_obj pk), 0)
      else trace_get_capture_length (pcapfile_format (Some (pcapfile_header_for TRACE_TYPE_ETH))) (o_pkt (tp_obj pk)) in
    Ok (w, (ret, tp_order pk, cap)) in
  let! ' (w, r1) := read w in
  let! ' (w, r2) := read w in
  let! ' (w, r3) := read w in
  Ok [r1; r2; r3].

Example pcap_session_reads_what_was_written :
  (let! out := write_packets PcapFile.sample_out (map (λ c, (cp_trace c, cp_obj c)) sample_cs) in
   pcap_session (default [] (po_file out)) 4)
  = Ok [(22, 0, 4); (19, 1, 3); (0, 0, 0)].
Proof. vm_compute. reflexivity. Qed.
