(* ===== verification/ParConfig.v ===== *)
(** * Configuring a parallel trace: lib/trace_parallel.c

    The settings of a parallel trace are changed by a function each, by a string
    of [key=value] options, by a file of such strings or by environment
    variables, and completed with defaults when the trace starts.

    A C string is the list of its characters without the final NUL.  Printed
    messages are not modelled.  The environment and the number of processors are
    parameters. *)

From Stdlib Require Import Ascii String.
From S2P Require Import Prelude.
Local Open Scope Z_scope.
Local Open Scope outcome_scope.

Inductive trace_state :=
| STATE_NEW | STATE_RUNNING | STATE_PAUSING | STATE_PAUSED | STATE_FINISHED | STATE_FINISHING
| STATE_DESTROYED | STATE_JOINED | STATE_ERROR.
#[export] Instance trace_state_eq_dec : EqDecision trace_state.
Proof. solve_decision. Defined.

Inductive thread_types := THREAD_EMPTY | THREAD_HASHER | THREAD_PERPKT | THREAD_REPORTER | THREAD_KEEPALIVE.
#[export] Instance thread_types_eq_dec : EqDecision thread_types.
Proof. solve_decision. Defined.

Record user_configuration := {
  cache_size : Z;
  thread_cache_size : Z;
  fixed_count : bool;
  burst_size : Z;
  tick_interval : Z;
  tick_count : Z;
  perpkt_threads : Z;
  hasher_queue_size : Z;
  hasher_polling : bool;
  reporter_polling : bool;
  reporter_thold : Z;
  debug_state : bool;
}.

Definition ZERO_USER_CONFIG : user_configuration :=
  {| cache_size := 0; thread_cache_size := 0; fixed_count := false; burst_size := 0; tick_interval := 0;
     tick_count := 0; perpkt_threads := 0; hasher_queue_size := 0; hasher_polling := false;
     reporter_polling := false; reporter_thold := 0; debug_state := false |}.

(** An assignment to one of the fields. *)
Inductive setting :=
| CacheSize (n : Z) | ThreadCacheSize (n : Z) | FixedCount (b : bool) | BurstSize (n : Z)
| TickInterval (n : Z) | TickCount (n : Z) | PerpktThreads (n : Z) | HasherQueueSize (n : Z)
| HasherPolling (b : bool) | ReporterPolling (b : bool) | ReporterThold (n : Z) | DebugState (b : bool).

Definition assign (s : setting) (uc : user_configuration) : user_configuration :=
  let '(Build_user_configuration cs tcs fc bs ti tc pt hqs hp rp rt ds) := uc in
  match s with
  | CacheSize n => Build_user_configuration n tcs fc bs ti tc pt hqs hp rp rt ds
  | ThreadCacheSize n => Build_user_configuration cs n fc bs ti tc pt hqs hp rp rt ds
  | FixedCount b => Build_user_configuration cs tcs b bs ti tc pt hqs hp rp rt ds
  | BurstSize n => Build_user_configuration cs tcs fc n ti tc pt hqs hp rp rt ds
  | TickInterval n => Build_user_configuration cs tcs fc bs n tc pt hqs hp rp rt ds
  | TickCount n => Build_user_configuration cs tcs fc bs ti n pt hqs hp rp rt ds
  | PerpktThreads n => Build_user_configuration cs tcs fc bs ti tc n hqs hp rp rt ds
  | HasherQueueSize n => Build_user_configuration cs tcs fc bs ti tc pt n hp rp rt ds
  | HasherPolling b => Build_user_configuration cs tcs fc bs ti tc pt hqs b rp rt ds
  | ReporterPolling b => Build_user_configuration cs tcs fc bs ti tc pt hqs hp b rt ds
  | ReporterThold n => Build_user_configuration cs tcs fc bs ti tc pt hqs hp rp n ds
  | DebugState b => Build_user_configuration cs tcs fc bs ti tc pt hqs hp rp rt b
  end.

(** The functions of a combiner that starting a trace looks at; a function is a number. *)
Record libtrace_combine_t := {
  cb_initialise : option positive;
  cb_publish : option positive;
  cb_configuration : Z;
}.

Definition combiner_none : libtrace_combine_t :=
  {| cb_initialise := None; cb_publish := None; cb_configuration := 0 |}.

(** The fields of [libtrace_t] that are settings of the parallel interface. *)
Record par_trace := {
  pt_state : trace_state;
  pt_config : user_configuration;
  pt_tracetime : bool;
  pt_perpkt_thread_count : Z;
  pt_hasher : option positive;
  pt_hasher_type : thread_types;
  pt_combiner : libtrace_combine_t;
}.

Definition pt_set_config (tr : par_trace) (uc : user_configuration) : par_trace :=
  {| pt_state := pt_state tr; pt_config := uc; pt_tracetime := pt_tracetime tr;
     pt_perpkt_thread_count := pt_perpkt_thread_count tr; pt_hasher := pt_hasher tr;
     pt_hasher_type := pt_hasher_type tr; pt_combiner := pt_combiner tr |}.
Definition pt_set_combiner (tr : par_trace) (c : libtrace_combine_t) : par_trace :=
  {| pt_state := pt_state tr; pt_config := pt_config tr; pt_tracetime := pt_tracetime tr;
     pt_perpkt_thread_count := pt_perpkt_thread_count tr; pt_hasher := pt_hasher tr;
     pt_hasher_type := pt_hasher_type tr; pt_combiner := c |}.
Definition pt_set_threads (tr : par_trace) (count : Z) (type : thread_types) : par_trace :=
  {| pt_state := pt_state tr; pt_config := pt_config tr; pt_tracetime := pt_tracetime tr;
     pt_perpkt_thread_count := count; pt_hasher := pt_hasher tr;
     pt_hasher_type := type; pt_combiner := pt_combiner tr |}.

(** ** The functions *)
Definition trace_is_configurable (tr : par_trace) : bool :=
  bool_decide (pt_state tr = STATE_NEW) || bool_decide (pt_state tr = STATE_PAUSED).

Definition set_field (tr : par_trace) (s : setting) : par_trace * Z :=
  if trace_is_configurable tr then (pt_set_config tr (assign s (pt_config tr)), 0) else (tr, -1).

Definition trace_set_perpkt_threads (tr : par_trace) (nb : Z) : par_trace * Z :=
  if trace_is_configurable tr then
    if 0 <=? nb then (pt_set_config tr (assign (PerpktThreads nb) (pt_config tr)), 0) else (tr, -1)
  else (tr, -1).
Definition trace_set_tick_interval (tr : par_trace) (millisec : Z) := set_field tr (TickInterval millisec).
Definition trace_set_tick_count (tr : par_trace) (count : Z) := set_field tr (TickCount count).
Definition trace_set_cache_size (tr : par_trace) (size : Z) := set_field tr (CacheSize size).
Definition trace_set_thread_cache_size (tr : par_trace) (size : Z) := set_field tr (ThreadCacheSize size).
Definition trace_set_fixed_count (tr : par_trace) (fixed : bool) := set_field tr (FixedCount fixed).
Definition trace_set_burst_size (tr : par_trace) (size : Z) := set_field tr (BurstSize size).
Definition trace_set_hasher_queue_size (tr : par_trace) (size : Z) := set_field tr (HasherQueueSize size).
Definition trace_set_hasher_polling (tr : par_trace) (polling : bool) := set_field tr (HasherPolling polling).
Definition trace_set_reporter_polling (tr : par_trace) (polling : bool) := set_field tr (ReporterPolling polling).
Definition trace_set_reporter_thold (tr : par_trace) (thold : Z) := set_field tr (ReporterThold thold).
Definition trace_set_debug_state (tr : par_trace) (debug : bool) := set_field tr (DebugState debug).

Definition trace_set_tracetime (tr : par_trace) (tracetime : bool) : par_trace * Z :=
  if trace_is_configurable tr then
    ({| pt_state := pt_state tr; pt_config := pt_config tr; pt_tracetime := tracetime;
        pt_perpkt_thread_count := pt_perpkt_thread_count tr; pt_hasher := pt_hasher tr;
        pt_hasher_type := pt_hasher_type tr; pt_combiner := pt_combiner tr |}, 0)
  else (tr, -1).

Definition trace_set_combiner (tr : par_trace) (combiner : option libtrace_combine_t) (config : Z) : par_trace :=
  pt_set_combiner tr
    match combiner with
    | Some c => {| cb_initialise := cb_initialise c; cb_publish := cb_publish c; cb_configuration := config |}
    | None => combiner_none
    end.

(** ** Strings *)
Definition str (s : string) : list Z := map (λ a, Z.of_N (N_of_ascii a)) (list_ascii_of_string s).

(** The longest initial piece whose characters satisfy [f], and the rest. *)
Fixpoint span (f : Z → bool) (s : list Z) : list Z * list Z :=
  match s with
  | [] => ([], [])
  | c :: s' => if f c then let '(a, b) := span f s' in (c :: a, b) else ([], s)
  end.

Definition isspace (c : Z) : bool := (c =? 32) || ((9 <=? c) && (c <=? 13)).
Definition isdigit (c : Z) : bool := (48 <=? c) && (c <=? 57).
Abbreviation EQUALS := 61.

(** [strncmp(s, t, n) == 0]. *)
Fixpoint strncmp_eq (s t : list Z) (n : nat) : bool :=
  match n, s, t with
  | O, _, _ => true
  | S n', x :: s', y :: t' => (x =? y) && strncmp_eq s' t' n'
  | S _, [], [] => true
  | S _, _, _ => false
  end.

(** [strtoll(s, NULL, 10)]: blanks, a sign and digits; the value is limited to
    the range of [long long]. *)
Definition digits_value (acc : Z) (ds : list Z) : Z := fold_left (λ a c, 10 * a + (c - 48)) ds acc.

Definition strtoll (s : list Z) : Z :=
  let s := snd (span isspace s) in
  let '(negative, s) :=
    match s with
    | c :: s' => if c =? 45 then (true, s') else if c =? 43 then (false, s') else (false, s)
    | [] => (false, s)
    end in
  let v := digits_value 0 (fst (span isdigit s)) in
  Z.max (- 2 ^ 63) (Z.min (2 ^ 63 - 1) (if negative : bool then - v else v)).

(** The delimiters of [strtok(str, delim)] are blank, comma, full stop and minus. *)
Definition is_delim (c : Z) : bool := (c =? 32) || (c =? 44) || (c =? 46) || (c =? 45).

(** The token, and the string the next call goes on with. *)
Definition strtok (s : list Z) : option (list Z * list Z) :=
  match snd (span is_delim s) with
  | [] => None
  | s => let '(tok, rest) := span (λ c, negb (is_delim c)) s in Some (tok, tail rest)
  end.

(** [sscanf(pch, %99[^=]=%99s)]: [Some] when it returns two. *)
Definition sscanf_option (pch : list Z) : option (list Z * list Z) :=
  match take 99 (fst (span (λ c, negb (c =? EQUALS)) pch)) with
  | [] => None
  | key =>
      match drop (length key) pch with
      | c :: rest =>
          if c =? EQUALS then
            match take 99 (fst (span (λ c, negb (isspace c)) (snd (span isspace rest)))) with
            | [] => None
            | value => Some (key, value)
            end
          else None
      | [] => None
      end
  end.

(** ** Options *)
Abbreviation BUFLEN := 100%nat.

Definition config_bool_parse (value : list Z) : bool :=
  if strncmp_eq value (str "true") BUFLEN then true
  else if strncmp_eq value (str "false") BUFLEN then false
  else negb (strtoll value =? 0).

Definition config_string (uc : user_configuration) (key value : list Z) : user_configuration :=
  let named name := strncmp_eq key (str name) BUFLEN in
  let number := u64 (strtoll value) in
  let flag := config_bool_parse value in
  if named "cache_size"%string || named "cs"%string then assign (CacheSize number) uc
  else if named "thread_cache_size"%string || named "tcs"%string then assign (ThreadCacheSize number) uc
  else if named "fixed_count"%string || named "fc"%string then assign (FixedCount flag) uc
  else if named "burst_size"%string || named "bs"%string then assign (BurstSize number) uc
  else if named "tick_interval"%string || named "ti"%string then assign (TickInterval number) uc
  else if named "tick_count"%string || named "tc"%string then assign (TickCount number) uc
  else if named "perpkt_threads"%string || named "pt"%string then assign (PerpktThreads number) uc
  else if named "hasher_queue_size"%string || named "hqs"%string then assign (HasherQueueSize number) uc
  else if named "hasher_polling"%string || named "hp"%string then assign (HasherPolling flag) uc
  else if named "reporter_polling"%string || named "rp"%string then assign (ReporterPolling flag) uc
  else if named "reporter_thold"%string || named "rt"%string then assign (ReporterThold number) uc
  else if named "debug_state"%string || named "ds"%string then assign (DebugState flag) uc
  else uc.

Definition config_token (uc : user_configuration) (pch : list Z) : user_configuration :=
  match sscanf_option pch with
  | Some (key, value) => config_string uc key value
  | None => uc
  end.

(** Every token has a character, so the length of the string bounds the rounds. *)
Fixpoint config_tokens (fuel : nat) (uc : user_configuration) (s : list Z) : outcome user_configuration :=
  match fuel with
  | O => Fault OutOfFuel
  | S fuel' =>
      match strtok s with
      | None => Ok uc
      | Some (pch, rest) => config_tokens fuel' (config_token uc pch) rest
      end
  end.

Definition trace_set_configuration (tr : par_trace) (s : list Z) : outcome (par_trace * Z) :=
  if trace_is_configurable tr then
    let! uc := config_tokens (S (length s)) (pt_config tr) s in
    Ok (pt_set_config tr uc, 0)
  else Ok (tr, -1).

(** [fgets(line, 1024, file)]: up to 1023 characters, to the end of the line. *)
Fixpoint fgets (n : nat) (file : list Z) : list Z * list Z :=
  match n, file with
  | O, _ | _, [] => ([], file)
  | S n', c :: file' => if c =? 10 then ([c], file') else let '(l, r) := fgets n' file' in (c :: l, r)
  end.

(** The string that a block of characters holds. *)
Definition c_string (block : list Z) : list Z := fst (span (λ c, negb (c =? 0)) block).

Fixpoint config_lines (fuel : nat) (tr : par_trace) (file : list Z) : outcome par_trace :=
  match fuel with
  | O => Fault OutOfFuel
  | S fuel' =>
      match fgets 1023 file with
      | ([], _) => Ok tr
      | (line, file') =>
          let! ' (tr, _) := trace_set_configuration tr (c_string line) in
          config_lines fuel' tr file'
      end
  end.

(** [failed] is [ferror(file)] at the end. *)
Definition trace_set_configuration_file (tr : par_trace) (file : list Z) (failed : bool)
  : outcome (par_trace * Z) :=
  if trace_is_configurable tr then
    let! tr := config_lines (S (length file)) tr file in
    Ok (tr, if failed then -1 else 0)
  else Ok (tr, -1).

(** ** Environment variables *)
Abbreviation ENV_SIZE := 1024.

(** [strncpy(&buf[off], src, n)]: [n] bytes are written. *)
Definition strncpy (buf : list Z) (off : Z) (src : list Z) (n : Z) : outcome (list Z) :=
  if Zlen buf <? off + n then Fault OutOfBounds
  else
    let new := take (Z.to_nat n) src in
    Ok (take (Z.to_nat off) buf ++ new ++ replicate (Z.to_nat n - length new) 0 ++ drop (Z.to_nat (off + n)) buf).

Definition toupper (c : Z) : Z := if (97 <=? c) && (c <=? 122) then c - 32 else c.

Definition clean_char (c : Z) : Z :=
  let c := toupper c in
  if ((65 <=? c) && (c <=? 90)) || ((48 <=? c) && (c <=? 57)) then c else 95.

(** The loop over [env_name]: the buffer and [mark]. *)
Fixpoint clean_loop (fuel : nat) (env_name : list Z) (mark i : Z) : outcome (list Z * Z) :=
  match fuel with
  | O => Fault OutOfFuel
  | S fuel' =>
      let! c := aget env_name i in
      if c =? 0 then Ok (env_name, mark)
      else
        let mark := if toupper c =? 58 then i else mark in
        let! env_name := aset env_name i (clean_char c) in
        clean_loop fuel' env_name mark (i + 1)
  end.

Abbreviation LIBTRACE_CONF_ := (str "LIBTRACE_CONF_").

(** The buffer before the loop: the prefix, the name of the format, a colon and the
    data of the URI. *)
Definition env_buffer (name uridata : list Z) : outcome (list Z) :=
  let! env_name := strncpy (replicate (Z.to_nat ENV_SIZE) 0) 0 LIBTRACE_CONF_ ENV_SIZE in
  let len := Zlen LIBTRACE_CONF_ in
  let! env_name := strncpy env_name len name (u64 (ENV_SIZE - len)) in
  let len := len + Zlen name in
  let! env_name := strncpy env_name len [58] (u64 (ENV_SIZE - len)) in
  let len := len + 1 in
  strncpy env_name len uridata (u64 (ENV_SIZE - len)).

Section environment.
Variable getenv : list Z → option (list Z).

Definition apply_env (tr : par_trace) (name : list Z) : outcome par_trace :=
  match getenv name with
  | Some env => let! ' (tr, _) := trace_set_configuration tr env in Ok tr
  | None => Ok tr
  end.

Definition parse_env_config (format_name uridata : list Z) (tr : par_trace) : outcome par_trace :=
  let! env_name := env_buffer format_name uridata in
  let! ' (env_name, mark) := clean_loop (S (Z.to_nat ENV_SIZE)) env_name 0 0 in
  let! tr := apply_env tr (str "LIBTRACE_CONF") in
  let! ' (env_name, tr) :=
    if mark =? 0 then Ok (env_name, tr)
    else
      let! env_name := aset env_name mark 0 in
      let! tr := apply_env tr (c_string env_name) in
      let! env_name := aset env_name mark 95 in
      Ok (env_name, tr) in
  apply_env tr (c_string env_name).
End environment.

(** ** Defaults

    [nproc] is what the system says about its processors. *)
Definition get_nb_cores (nproc : Z) : Z := if nproc <=? 0 then 1 else nproc.

(** [combiner_unordered], of which both functions are there. *)
Definition combiner_unordered : libtrace_combine_t :=
  {| cb_initialise := Some 1%positive; cb_publish := Some 2%positive; cb_configuration := 0 |}.

(** The room that full queues of all threads need. *)
Definition queued_packets (uc : user_configuration) (count : Z) : Z := u64 (u64 (hasher_queue_size uc + 1) * count).

(** The trace, and whether the warning about [cache_size] is printed. *)
Definition verify_configuration (nproc : Z) (tr : par_trace) : par_trace * bool :=
  let uc := pt_config tr in
  let uc := if hasher_queue_size uc <=? 0 then assign (HasherQueueSize 1000) uc else uc in
  let count :=
    if perpkt_threads uc <=? 0 then
      let count := get_nb_cores nproc in if count <=? 0 then 1 else count
    else i32 (perpkt_threads uc) in
  let uc := if reporter_thold uc <=? 0 then assign (ReporterThold 100) uc else uc in
  let uc := if burst_size uc <=? 0 then assign (BurstSize 10) uc else uc in
  let uc := if thread_cache_size uc <=? 0 then assign (ThreadCacheSize 20) uc else uc in
  let uc := if cache_size uc <=? 0 then assign (CacheSize (queued_packets uc count)) uc else uc in
  let warn := cache_size uc <? queued_packets uc count in
  let combiner := pt_combiner tr in
  let combiner :=
    match cb_initialise combiner, cb_publish combiner with
    | None, None => combiner_unordered
    | _, _ => combiner
    end in
  let type :=
    match pt_hasher tr with
    | Some _ => if 1 <? count then THREAD_HASHER else pt_hasher_type tr
    | None => pt_hasher_type tr
    end in
  (pt_set_threads (pt_set_combiner (pt_set_config tr uc) combiner) count type, warn).

(** ** Strings of options *)
Lemma span_all f s : Forall (λ c, f c = true) s → span f s = (s, []).
Proof. induction 1 as [|c s Hc _ IH]; [done|]. simpl. by rewrite Hc, IH. Qed.

Lemma span_app f s c t : Forall (λ c, f c = true) s → f c = false → span f (s ++ c :: t) = (s, c :: t).
Proof. intros Hs Hc. induction Hs as [|x s Hx _ IH]; simpl; [by rewrite Hc|]. by rewrite Hx, IH. Qed.

Lemma span_none f s : match s with [] => True | c :: _ => f c = false end → span f s = ([], s).
Proof. destruct s as [|c s]; simpl; [done|]. by intros ->. Qed.

(** Letters, digits and the underscore. *)
Definition plain (c : Z) : bool :=
  ((48 <=? c) && (c <=? 57)) || ((97 <=? c) && (c <=? 122)) || (c =? 95).

Lemma plain_not_delim c : plain c = true → is_delim c = false.
Proof. unfold plain, is_delim. destruct (Z.leb_spec 48 c), (Z.eqb_spec c 32), (Z.eqb_spec c 44), (Z.eqb_spec c 46), (Z.eqb_spec c 45); try done; lia. Qed.
Lemma plain_not_space c : plain c = true → isspace c = false.
Proof. unfold plain, isspace. destruct (Z.leb_spec 48 c), (Z.eqb_spec c 32), (Z.leb_spec 9 c), (Z.leb_spec c 13); try done; lia. Qed.
Lemma plain_not_equals c : plain c = true → (c =? EQUALS) = false.
Proof. unfold plain. destruct (Z.eqb_spec c 61) as [->|]; done. Qed.
Lemma space_not_delim c : isspace c = true → c ≠ 32 → is_delim c = false.
Proof.
  unfold isspace, is_delim. intros H Hn. rewrite (proj2 (Z.eqb_neq c 32)) in * by done. cbn [orb] in *.
  apply andb_true_iff in H as [_ H%Z.leb_le].
  by rewrite !(proj2 (Z.eqb_neq c _)) by lia.
Qed.

Abbreviation all_plain := (Forall (λ c, plain c = true)).

Lemma plain_nonblank s : all_plain s → Forall (λ c, negb (isspace c) = true) s.
Proof. intros H. eapply Forall_impl; [done|]. cbn. intros c ->%plain_not_space. done. Qed.

Lemma plain_nondelim s : all_plain s → Forall (λ c, negb (is_delim c) = true) s.
Proof. intros H. eapply Forall_impl; [done|]. cbn. intros c ->%plain_not_delim. done. Qed.

Lemma plain_nonequals s : all_plain s → Forall (λ c, negb (c =? EQUALS) = true) s.
Proof. intros H. eapply Forall_impl; [done|]. cbn. intros c ->%plain_not_equals. done. Qed.

(** An option, followed by blanks. *)
Lemma sscanf_print key value ws :
  all_plain key → all_plain value → Forall (λ c, isspace c = true) ws →
  key ≠ [] → value ≠ [] → (length key ≤ 99)%nat → (length value ≤ 99)%nat →
  sscanf_option (key ++ EQUALS :: value ++ ws) = Some (key, value).
Proof.
  intros Hk Hv Hws Hkn Hvn Hkl Hvl. unfold sscanf_option.
  rewrite span_app by (done || by apply plain_nonequals). cbn [fst]. rewrite take_ge by done.
  destruct key as [|k key]; [done|]. rewrite drop_app_length. cbn [Z.eqb].
  rewrite (span_none isspace).
  2:{ destruct value; [done|]. simpl. by apply plain_not_space, (Forall_inv Hv). }
  cbn [snd].
  assert (fst (span (λ c, negb (isspace c)) (value ++ ws)) = value) as ->.
  { destruct ws as [|c ws]; [by rewrite app_nil_r, (span_all _ _ (plain_nonblank _ Hv))|].
    rewrite span_app; [done|by apply plain_nonblank|]. apply negb_false_iff. apply (Forall_inv Hws). }
  rewrite take_ge by done. by destruct value.
Qed.

Definition delim_free (s : list Z) : Prop := Forall (λ c, negb (is_delim c) = true) s.

Lemma strtok_last s : delim_free s → s ≠ [] → strtok s = Some (s, []).
Proof.
  intros Hs Hn. unfold strtok. rewrite span_none.
  2:{ destruct s as [|c s]; [done|]. by apply negb_true_iff, (Forall_inv Hs). }
  cbn [snd]. destruct s; [done|]. by rewrite span_all.
Qed.

Lemma strtok_next s d rest :
  delim_free s → s ≠ [] → is_delim d = true → strtok (s ++ d :: rest) = Some (s, rest).
Proof.
  intros Hs Hn Hd. unfold strtok. rewrite span_none.
  2:{ destruct s as [|c s]; [done|]. simpl. by apply negb_true_iff, (Forall_inv Hs). }
  cbn [snd]. destruct s as [|c s]; [done|]. cbn [app]. change (c :: s ++ d :: rest) with ((c :: s) ++ d :: rest).
  rewrite (span_app _ (c :: s)); [done|done|by rewrite Hd].
Qed.

(** ** Decimal numbers *)
Fixpoint decimal_loop (fuel : nat) (n : Z) (acc : list Z) : list Z :=
  match fuel with
  | O => acc
  | S fuel' =>
      let acc := 48 + n `mod` 10 :: acc in
      if n `div` 10 =? 0 then acc else decimal_loop fuel' (n `div` 10) acc
  end.

(** Twenty digits are enough for [long long]. *)
Definition decimal (n : Z) : list Z := decimal_loop 20 n [].

Lemma decimal_loop_spec f n acc :
  (0 < f)%nat → 0 ≤ n < 10 ^ Z.of_nat f → Forall (λ c, isdigit c = true) acc →
  let ds := decimal_loop f n acc in
  Forall (λ c, isdigit c = true) ds ∧ digits_value 0 ds = digits_value n acc ∧
  ds ≠ [] ∧ (length ds ≤ f + length acc)%nat.
Proof.
  revert n acc. induction f as [|f IH]; intros n acc Hf Hn Hacc; [lia|]. cbn [decimal_loop].
  assert (0 ≤ n `mod` 10 < 10) by (apply Z.mod_pos_bound; lia).
  assert (Forall (λ c, isdigit c = true) (48 + n `mod` 10 :: acc)) as Hacc'.
  { constructor; [|done]. unfold isdigit. apply andb_true_iff. rewrite !Z.leb_le. lia. }
  pose proof (Z.div_mod n 10 ltac:(lia)) as Hdm.
  destruct (Z.eqb_spec (n `div` 10) 0) as [E|E].
  - split_and!; [done| |done|cbn [length]; lia].
    unfold digits_value. cbn [fold_left]. f_equal. lia.
  - rewrite Nat2Z.inj_succ, Z.pow_succ_r in Hn by lia.
    assert (0 ≤ n `div` 10 < 10 ^ Z.of_nat f).
    { split; [apply Z.div_pos; lia|]. apply Z.div_lt_upper_bound; lia. }
    assert (0 < f)%nat by (destruct f; [|lia]; change (10 ^ Z.of_nat 0) with 1 in *; lia).
    destruct (IH (n `div` 10) (48 + n `mod` 10 :: acc)) as (? & Hv & ? & Hl); [done|done|done|].
    split_and!; [done| |done|cbn [length] in *; lia].
    rewrite Hv. unfold digits_value. cbn [fold_left]. f_equal. lia.
Qed.

Lemma decimal_spec n : 0 ≤ n < 2 ^ 63 →
  Forall (λ c, isdigit c = true) (decimal n) ∧ digits_value 0 (decimal n) = n ∧
  decimal n ≠ [] ∧ (length (decimal n) ≤ 20)%nat.
Proof.
  intros Hn. destruct (decimal_loop_spec 20 n []) as (? & ? & ? & ?); [lia| |done|split_and!; done].
  change (10 ^ Z.of_nat 20) with 100000000000000000000. lia.
Qed.

Lemma digit_plain c : isdigit c = true → plain c = true.
Proof. unfold isdigit, plain. by intros ->. Qed.

Lemma strtoll_decimal n : 0 ≤ n < 2 ^ 63 → strtoll (decimal n) = n.
Proof.
  intros Hn. destruct (decimal_spec n Hn) as (Hd & Hv & Hne & _).
  unfold strtoll. destruct (decimal n) as [|c s] eqn:E; [done|].
  pose proof (Forall_inv Hd) as Hc.
  rewrite (span_none isspace) by by apply plain_not_space, digit_plain. cbn [snd].
  unfold isdigit in Hc. apply andb_true_iff in Hc as [Hc%Z.leb_le _].
  rewrite !(proj2 (Z.eqb_neq c _)) by lia. rewrite span_all by done. cbn [fst]. rewrite Hv. lia.
Qed.

(** ** Printing settings, and setting them by calls *)
Definition key_of (long : bool) (s : setting) : list Z :=
  let pick l s := str (if long then l else s) in
  match s with
  | CacheSize _ => pick "cache_size"%string "cs"%string
  | ThreadCacheSize _ => pick "thread_cache_size"%string "tcs"%string
  | FixedCount _ => pick "fixed_count"%string "fc"%string
  | BurstSize _ => pick "burst_size"%string "bs"%string
  | TickInterval _ => pick "tick_interval"%string "ti"%string
  | TickCount _ => pick "tick_count"%string "tc"%string
  | PerpktThreads _ => pick "perpkt_threads"%string "pt"%string
  | HasherQueueSize _ => pick "hasher_queue_size"%string "hqs"%string
  | HasherPolling _ => pick "hasher_polling"%string "hp"%string
  | ReporterPolling _ => pick "reporter_polling"%string "rp"%string
  | ReporterThold _ => pick "reporter_thold"%string "rt"%string
  | DebugState _ => pick "debug_state"%string "ds"%string
  end.

Definition value_of (s : setting) : list Z :=
  match s with
  | CacheSize n | ThreadCacheSize n | BurstSize n | TickInterval n | TickCount n | PerpktThreads n
  | HasherQueueSize n | ReporterThold n => decimal n
  | FixedCount b | HasherPolling b | ReporterPolling b | DebugState b => str (if b then "true" else "false")
  end.

Definition print_option (o : bool * setting) : list Z := key_of o.1 o.2 ++ EQUALS :: value_of o.2.

Fixpoint print_options (opts : list (bool * setting)) : list Z :=
  match opts with
  | [] => []
  | [o] => print_option o
  | o :: opts' => print_option o ++ 44 :: print_options opts'
  end.

(** A line of options for each list. *)
Definition print_file (lines : list (list (bool * setting))) : list Z :=
  concat (map (λ opts, print_options opts ++ [10]) lines).

Definition call_setter (tr : par_trace) (s : setting) : par_trace * Z :=
  match s with
  | CacheSize n => trace_set_cache_size tr n
  | ThreadCacheSize n => trace_set_thread_cache_size tr n
  | FixedCount b => trace_set_fixed_count tr b
  | BurstSize n => trace_set_burst_size tr n
  | TickInterval n => trace_set_tick_interval tr n
  | TickCount n => trace_set_tick_count tr n
  | PerpktThreads n => trace_set_perpkt_threads tr n
  | HasherQueueSize n => trace_set_hasher_queue_size tr n
  | HasherPolling b => trace_set_hasher_polling tr b
  | ReporterPolling b => trace_set_reporter_polling tr b
  | ReporterThold n => trace_set_reporter_thold tr n
  | DebugState b => trace_set_debug_state tr b
  end.

Definition call_setters (tr : par_trace) (ss : list setting) : par_trace :=
  fold_left (λ tr s, fst (call_setter tr s)) ss tr.

Definition setting_ok (s : setting) : Prop :=
  match s with
  | PerpktThreads n => 0 ≤ n < 2 ^ 31
  | CacheSize n | ThreadCacheSize n | BurstSize n | TickInterval n | TickCount n
  | HasherQueueSize n | ReporterThold n => 0 ≤ n < 2 ^ 63
  | _ => True
  end.

Lemma plain_key long s : all_plain (key_of long s) ∧ key_of long s ≠ [] ∧ (length (key_of long s) ≤ 99)%nat.
Proof. destruct long, s; (split_and!; [repeat constructor|discriminate|vm_compute; lia]). Qed.

Lemma plain_decimal n : 0 ≤ n < 2 ^ 63 →
  all_plain (decimal n) ∧ decimal n ≠ [] ∧ (length (decimal n) ≤ 99)%nat.
Proof.
  intros Hn. destruct (decimal_spec n Hn) as (Hd & _ & Hne & Hl). split_and!; [|done|lia].
  eapply Forall_impl; [done|]. apply digit_plain.
Qed.

Lemma plain_value s : setting_ok s → all_plain (value_of s) ∧ value_of s ≠ [] ∧ (length (value_of s) ≤ 99)%nat.
Proof.
  destruct s as [n|n|b|n|n|n|n|n|b|b|n|b]; cbn [setting_ok value_of]; intros H;
    (apply plain_decimal; lia) || (destruct b; (split_and!; [repeat constructor|discriminate|vm_compute; lia])).
Qed.

Lemma strtoll_value n : 0 ≤ n < 2 ^ 63 → u64 (strtoll (decimal n)) = n.
Proof. intros Hn. rewrite strtoll_decimal by done. apply u64_small. lia. Qed.

Lemma bool_value (b : bool) : config_bool_parse (str (if b then "true" else "false")) = b.
Proof. by destruct b. Qed.

(** Decide the comparisons of the key with the names. *)
Ltac decide_names :=
  repeat match goal with
  | |- context [strncmp_eq ?k ?n ?l] =>
      let b := eval vm_compute in (strncmp_eq k n l) in change (strncmp_eq k n l) with b; cbn [orb]
  end.

Lemma config_string_print uc long s : setting_ok s → config_string uc (key_of long s) (value_of s) = assign s uc.
Proof.
  intros Hs. unfold config_string. set (v := value_of s). set (f := config_bool_parse v).
  destruct s; destruct long; cbn [key_of]; decide_names; subst v f; cbn [value_of setting_ok] in *;
    rewrite ?strtoll_value, ?bool_value by lia; done.
Qed.

Lemma option_token uc o ws :
  setting_ok o.2 → Forall (λ c, isspace c = true) ws → config_token uc (print_option o ++ ws) = assign o.2 uc.
Proof.
  intros Hs Hws. unfold config_token, print_option. rewrite <- app_assoc. cbn [app].
  destruct (plain_key o.1 o.2) as (? & ? & ?), (plain_value o.2 Hs) as (? & ? & ?).
  rewrite sscanf_print by done. by apply config_string_print.
Qed.

Lemma option_delim_free o ws :
  setting_ok o.2 → delim_free ws → delim_free (print_option o ++ ws) ∧ print_option o ++ ws ≠ [].
Proof.
  intros Hs Hws. unfold print_option.
  destruct (plain_key o.1 o.2) as (Hk & Hkn & _), (plain_value o.2 Hs) as (Hv & _).
  split; [|by destruct (key_of o.1 o.2)]. apply Forall_app; split; [|done].
  apply Forall_app; split; [by apply plain_nondelim|]. constructor; [done|by apply plain_nondelim].
Qed.

Abbreviation blanks := (λ ws, Forall (λ c, isspace c = true) ws ∧ delim_free ws).

Lemma blanks_token uc ws : Forall (λ c, isspace c = true) ws → ws ≠ [] → config_token uc ws = uc.
Proof.
  intros Hs Hne. unfold config_token, sscanf_option.
  assert (Forall (λ c, negb (c =? EQUALS) = true) ws) as He.
  { eapply Forall_impl; [done|]. cbn. intros c Hc. destruct (Z.eqb_spec c 61) as [->|]; done. }
  rewrite span_all by done. cbn [fst].
  destruct (take 99 ws) as [|k key] eqn:E; [done|].
  destruct (drop (length (k :: key)) ws) as [|c rest] eqn:Ed; [done|].
  apply (Forall_drop _ (length (k :: key))) in He. rewrite Ed in He. apply Forall_inv in He.
  apply negb_true_iff in He. by rewrite He.
Qed.

Lemma config_tokens_print opts fuel uc ws :
  Forall (λ o, setting_ok o.2) opts → blanks ws → (length (print_options opts ++ ws) < fuel)%nat →
  config_tokens fuel uc (print_options opts ++ ws) = Ok (fold_left (λ uc s, assign s uc) opts.*2 uc).
Proof.
  intros Hok [Hws Hwd]. revert fuel uc. induction Hok as [|o opts Ho _ IH]; intros fuel uc Hf.
  - destruct fuel as [|fuel]; [lia|]. cbn [config_tokens app print_options].
    destruct ws as [|c ws]; [done|]. rewrite strtok_last, blanks_token by done.
    destruct fuel; [simpl in Hf; lia|done].
  - destruct fuel as [|fuel]; [lia|]. cbn [config_tokens].
    destruct opts as [|o' opts].
    + destruct (option_delim_free o ws Ho Hwd). cbn [print_options] in *.
      rewrite strtok_last, option_token by done.
      destruct fuel; [|done]. rewrite length_app in Hf. unfold print_option in Hf.
      rewrite length_app in Hf. simpl in Hf. lia.
    + destruct (option_delim_free o [] Ho) as [Hd Hn]; [constructor|]. rewrite app_nil_r in Hd, Hn.
      change (print_options (o :: o' :: opts)) with (print_option o ++ 44 :: print_options (o' :: opts)) in *.
      rewrite <- app_assoc, <- app_comm_cons, length_app in Hf. cbn [length] in Hf.
      rewrite <- app_assoc, <- app_comm_cons, strtok_next by done.
      rewrite <- (app_nil_r (print_option o)), option_token by done. cbn [fmap list_fmap fold_left].
      apply IH. lia.
Qed.

Lemma set_config_set tr a b : pt_set_config (pt_set_config tr a) b = pt_set_config tr b.
Proof. done. Qed.

Lemma call_setter_assign tr s : setting_ok s →
  call_setter tr s = if trace_is_configurable tr then (pt_set_config tr (assign s (pt_config tr)), 0) else (tr, -1).
Proof.
  intros Hs. destruct s; try done. cbn [call_setter setting_ok] in *. unfold trace_set_perpkt_threads.
  by rewrite (proj2 (Z.leb_le 0 n)) by lia.
Qed.

Lemma call_setters_assign tr ss : Forall setting_ok ss →
  call_setters tr ss =
  if trace_is_configurable tr then pt_set_config tr (fold_left (λ uc s, assign s uc) ss (pt_config tr)) else tr.
Proof.
  intros Hs. revert tr. induction Hs as [|s ss Hs _ IH]; intros tr.
  - cbn. destruct (trace_is_configurable tr); [by destruct tr|done].
  - unfold call_setters in *. cbn [fold_left]. rewrite IH, call_setter_assign by done.
    destruct (trace_is_configurable tr) eqn:E; cbn [fst]; [|by rewrite E].
    change (trace_is_configurable (pt_set_config _ _)) with (trace_is_configurable tr). by rewrite E.
Qed.

Lemma set_configuration_print tr opts ws :
  Forall (λ o, setting_ok o.2) opts → blanks ws →
  trace_set_configuration tr (print_options opts ++ ws) =
  Ok (call_setters tr opts.*2, if trace_is_configurable tr then 0 else -1).
Proof.
  intros Hok Hws. unfold trace_set_configuration.
  rewrite call_setters_assign by by apply Forall_fmap.
  destruct (trace_is_configurable tr); [|done]. by rewrite config_tokens_print by (done || lia).
Qed.

(** ** Files of options *)
Definition line_char (c : Z) : bool := plain c || (c =? EQUALS) || (c =? 44).
Abbreviation line_chars := (Forall (λ c, line_char c = true)).

Lemma plain_line s : all_plain s → line_chars s.
Proof. intros H. eapply Forall_impl; [done|]. unfold line_char. by intros c ->. Qed.

Lemma line_char_visible c : line_char c = true → c ≠ 0 ∧ c ≠ 10.
Proof. intros H. split; intros ->; done. Qed.

Lemma option_chars o : setting_ok o.2 → line_chars (print_option o).
Proof.
  intros Hs. destruct (plain_key o.1 o.2) as (? & _), (plain_value o.2 Hs) as (? & _).
  apply Forall_app; split; [by apply plain_line|]. constructor; [done|by apply plain_line].
Qed.

Lemma options_chars opts : Forall (λ o, setting_ok o.2) opts → line_chars (print_options opts).
Proof.
  induction 1 as [|o opts Ho _ IH]; [constructor|]. destruct opts as [|o' opts]; [by apply option_chars|].
  apply Forall_app; split; [by apply option_chars|]. by constructor.
Qed.

Lemma fgets_line n line rest :
  line_chars line → (length line < n)%nat → fgets n (line ++ 10 :: rest) = (line ++ [10], rest).
Proof.
  intros Hl. revert n. induction Hl as [|c line Hc _ IH]; intros n Hn; (destruct n as [|n]; [simpl in Hn; lia|]).
  - done.
  - cbn [fgets app]. apply line_char_visible in Hc as [_ Hc]. rewrite (proj2 (Z.eqb_neq c 10)) by done.
    rewrite IH by (simpl in Hn; lia). done.
Qed.

Lemma c_string_line line : line_chars line → c_string (line ++ [10]) = line ++ [10].
Proof.
  intros Hl. unfold c_string. rewrite span_all; [done|]. apply Forall_app; split; [|by repeat constructor].
  eapply Forall_impl; [done|]. cbn. intros c [Hc _]%line_char_visible. by rewrite (proj2 (Z.eqb_neq c 0)) by done.
Qed.

Lemma call_setters_app tr ss ss' : call_setters tr (ss ++ ss') = call_setters (call_setters tr ss) ss'.
Proof. apply fold_left_app. Qed.

Definition line_ok (opts : list (bool * setting)) : Prop :=
  Forall (λ o, setting_ok o.2) opts ∧ (length (print_options opts) < 1023)%nat.

Lemma config_lines_print lines fuel tr :
  Forall line_ok lines → (length (print_file lines) < fuel)%nat →
  config_lines fuel tr (print_file lines) = Ok (call_setters tr (concat lines).*2).
Proof.
  intros Hl. revert fuel tr. induction Hl as [|opts lines [Ho Hlen] _ IH]; intros fuel tr Hf.
  - destruct fuel; [lia|done].
  - destruct fuel as [|fuel]; [lia|].
    change (print_file (opts :: lines)) with ((print_options opts ++ [10]) ++ print_file lines) in *.
    pose proof (options_chars opts Ho) as Hc. rewrite <- app_assoc in *. cbn [config_lines].
    change ([10] ++ print_file lines) with (10 :: print_file lines) in *.
    rewrite fgets_line by done. rewrite c_string_line by done.
    rewrite set_configuration_print; [|done|by repeat constructor].
    destruct (print_options opts ++ [10]) eqn:E; [by destruct (print_options opts)|]. cbn [obind].
    rewrite IH by (rewrite length_app in Hf; simpl in Hf; lia).
    cbn [concat]. by rewrite fmap_app, call_setters_app.
Qed.

(** C38: Setting options by a string of assignments with commas between them, under their
    long or their short names, or by a file of lines of such strings (no line of
    1023 characters or more), has the effect of calling the function for each
    option in order, on a trace in any state; the result is -1 if the trace is
    not configurable or the file could not be read, and 0 otherwise. *)
Theorem configuration_text tr opts lines failed :
  Forall (λ o, setting_ok o.2) opts → Forall line_ok lines →
  trace_set_configuration tr (print_options opts) =
    Ok (call_setters tr opts.*2, if trace_is_configurable tr then 0 else -1) ∧
  trace_set_configuration_file tr (print_file lines) failed =
    Ok (call_setters tr (concat lines).*2,
        if trace_is_configurable tr then if failed then -1 else 0 else -1).
Proof.
  intros Ho Hl. split.
  - rewrite <- (app_nil_r (print_options opts)). apply set_configuration_print; [done|by repeat constructor].
  - unfold trace_set_configuration_file. destruct (trace_is_configurable tr) eqn:E.
    + by rewrite config_lines_print by (done || lia).
    + rewrite call_setters_assign; [by rewrite E|]. apply Forall_fmap. apply Forall_concat.
      eapply Forall_impl; [done|]. by intros ? [? _].
Qed.

Definition new_trace : par_trace :=
  {| pt_state := STATE_NEW; pt_config := ZERO_USER_CONFIG; pt_tracetime := false; pt_perpkt_thread_count := 0;
     pt_hasher := None; pt_hasher_type := THREAD_EMPTY; pt_combiner := combiner_none |}.

Definition sample_options : list (bool * setting) :=
  [(true, CacheSize 4000); (false, BurstSize 32); (false, HasherPolling true); (true, PerpktThreads 7)].

Lemma configuration_text_witness :
  print_options sample_options = str "cache_size=4000,bs=32,hp=true,perpkt_threads=7" ∧
  trace_set_configuration new_trace (print_options sample_options) = Ok (call_setters new_trace sample_options.*2, 0) ∧
  trace_set_configuration_file new_trace (print_file [sample_options; []; sample_options]) false =
    Ok (call_setters new_trace (concat [sample_options; []; sample_options]).*2, 0).
Proof.
  split; [reflexivity|].
  apply (configuration_text new_trace sample_options [sample_options; []; sample_options] false).
  - repeat constructor; cbn; lia.
  - assert (line_ok sample_options) by (split; [repeat constructor; cbn; lia|vm_compute; lia]).
    assert (line_ok []) by (split; [constructor|vm_compute; lia]). by repeat constructor.
Defined.

(** ** Names of environment variables *)
Lemma toupper_colon c : (toupper c =? 58) = (c =? 58).
Proof.
  unfold toupper. destruct (Z.leb_spec 97 c), (Z.leb_spec c 122); cbn [andb]; try done.
  rewrite !(proj2 (Z.eqb_neq _ 58)) by lia. done.
Qed.

Lemma clean_char_nonzero c : clean_char c ≠ 0.
Proof.
  unfold clean_char. destruct (_ || _) eqn:E; [|done]. intros E0. rewrite E0 in E. done.
Qed.

(** [mark] after the characters [s], the first of which has the index [i]. *)
Fixpoint last_colon (mark i : Z) (s : list Z) : Z :=
  match s with
  | [] => mark
  | c :: s' => last_colon (if c =? 58 then i else mark) (i + 1) s'
  end.

Lemma last_colon_app mark i s s' : last_colon mark i (s ++ s') = last_colon (last_colon mark i s) (i + Zlen s) s'.
Proof.
  revert mark i. induction s as [|c s IH]; intros mark i; cbn [last_colon app].
  - by rewrite Zlen_nil, Z.add_0_r.
  - rewrite IH, Zlen_cons. f_equal. lia.
Qed.

Lemma last_colon_none mark i s : Forall (λ c, c ≠ 58) s → last_colon mark i s = mark.
Proof.
  intros Hs. revert i. induction Hs as [|c s Hc _ IH]; intros i; [done|]. cbn [last_colon].
  by rewrite (proj2 (Z.eqb_neq c 58)), IH.
Qed.

Lemma clean_loop_step fuel d todo t mark :
  Forall (λ c, c ≠ 0) todo →
  clean_loop (length todo + fuel) (d ++ todo ++ t) mark (Zlen d) =
  clean_loop fuel (d ++ map clean_char todo ++ t) (last_colon mark (Zlen d) todo) (Zlen d + Zlen todo).
Proof.
  intros Hn. revert d mark. induction Hn as [|c todo Hc _ IH]; intros d mark.
  - cbn. by rewrite Zlen_nil, Z.add_0_r.
  - cbn [length Nat.add clean_loop app].
    assert (Z.to_nat (Zlen d) = length d) as Hd by apply Nat2Z.id.
    assert (0 ≤ Zlen d < Zlen (d ++ c :: todo ++ t)).
    { pose proof (Zlen_nonneg d). pose proof (Zlen_nonneg (todo ++ t)). autorewrite with zlen in *. lia. }
    rewrite (aget_ok _ _ c); [|lia|by rewrite Hd, list_lookup_middle]. cbn [obind].
    rewrite (proj2 (Z.eqb_neq c 0)) by done. rewrite aset_ok by done. cbn [obind].
    rewrite Hd, <- (Nat.add_0_r (length d)), insert_app_r. cbn [insert list_insert].
    rewrite toupper_colon.
    replace (d ++ clean_char c :: todo ++ t) with ((d ++ [clean_char c]) ++ todo ++ t) by by rewrite <- app_assoc.
    specialize (IH (d ++ [clean_char c]) (if c =? 58 then Zlen d else mark)).
    rewrite Zlen_app, Zlen_cons, Zlen_nil in IH. change (1 + 0) with 1 in IH. rewrite IH, <- app_assoc.
    cbn [last_colon map app]. f_equal. rewrite Zlen_cons. lia.
Qed.

Lemma strncpy_string s src :
  Zlen s ≤ ENV_SIZE →
  strncpy (s ++ replicate (Z.to_nat ENV_SIZE - length s) 0) (Zlen s) src (u64 (ENV_SIZE - Zlen s)) =
  let new := take (Z.to_nat ENV_SIZE - length s) src in
  Ok (s ++ new ++ replicate (Z.to_nat ENV_SIZE - length s - length new) 0).
Proof.
  intros Hs. pose proof (Zlen_nonneg s). rewrite u64_small by lia. unfold strncpy.
  assert (Zlen (s ++ replicate (Z.to_nat ENV_SIZE - length s) 0) = ENV_SIZE) as ->.
  { rewrite Zlen_app, Zlen_replicate. unfold Zlen in *. lia. }
  rewrite (proj2 (Z.ltb_ge _ _)) by lia.
  replace (Z.to_nat (ENV_SIZE - Zlen s)) with (Z.to_nat ENV_SIZE - length s)%nat by (unfold Zlen in *; lia).
  replace (Z.to_nat (Zlen s)) with (length s) by (unfold Zlen; lia). rewrite take_app_length.
  rewrite drop_ge, app_nil_r; [done|].
  rewrite length_app, length_replicate. unfold Zlen in *. lia.
Qed.

(** Appending a string that fits. *)
Lemma strncpy_fits s src :
  Zlen s + Zlen src ≤ ENV_SIZE →
  strncpy (s ++ replicate (Z.to_nat ENV_SIZE - length s) 0) (Zlen s) src (u64 (ENV_SIZE - Zlen s)) =
  Ok ((s ++ src) ++ replicate (Z.to_nat ENV_SIZE - length (s ++ src)) 0).
Proof.
  intros Hs. pose proof (Zlen_nonneg src). rewrite strncpy_string by lia. cbv zeta.
  unfold Zlen in *. rewrite take_ge by lia. rewrite <- app_assoc, length_app. do 4 f_equal. lia.
Qed.

Lemma c_string_zero s t : Forall (λ c, c ≠ 0) s → c_string (s ++ 0 :: t) = s.
Proof.
  intros Hs. unfold c_string. rewrite span_app; [done| |done].
  eapply Forall_impl; [done|]. cbn. intros c Hc. by rewrite (proj2 (Z.eqb_neq c 0)).
Qed.

Lemma clean_nonzero s : Forall (λ c, c ≠ 0) (map clean_char s).
Proof. apply Forall_fmap, Forall_true. intros. apply clean_char_nonzero. Qed.

Lemma clean_prefix : map clean_char LIBTRACE_CONF_ = LIBTRACE_CONF_.
Proof. reflexivity. Qed.

Lemma env_buffer_ok name uridata :
  Zlen name ≤ 16 →
  let s := LIBTRACE_CONF_ ++ name ++ [58] in
  let new := take (Z.to_nat ENV_SIZE - length s) uridata in
  env_buffer name uridata = Ok (s ++ new ++ replicate (Z.to_nat ENV_SIZE - length s - length new) 0).
Proof.
  intros Hn. cbv zeta. unfold env_buffer.
  pose proof (strncpy_fits [] LIBTRACE_CONF_) as H0. cbn [app length] in H0.
  change (Zlen (@nil Z)) with 0 in H0. change (u64 (ENV_SIZE - 0)) with ENV_SIZE in H0. rewrite Nat.sub_0_r in H0.
  rewrite H0 by done. cbn [obind].
  rewrite strncpy_fits by (change (Zlen LIBTRACE_CONF_) with 14; lia). cbn [obind].
  assert (Zlen LIBTRACE_CONF_ + Zlen name = Zlen (LIBTRACE_CONF_ ++ name)) as -> by by rewrite Zlen_app.
  assert (Zlen (LIBTRACE_CONF_ ++ name) ≤ 30) by (rewrite Zlen_app; change (Zlen LIBTRACE_CONF_) with 14; lia).
  rewrite strncpy_fits by (change (Zlen [58]) with 1; lia). cbn [obind].
  assert (Zlen (LIBTRACE_CONF_ ++ name) + 1 = Zlen ((LIBTRACE_CONF_ ++ name) ++ [58])) as ->
    by (rewrite (Zlen_app _ [58]); done).
  rewrite strncpy_string by (rewrite (Zlen_app _ [58]); change (Zlen [58]) with 1; lia).
  by rewrite <- (app_assoc LIBTRACE_CONF_ name [58]).
Qed.

Lemma span_length f s : length (snd (span f s)) = (length s - length (fst (span f s)))%nat ∧ (length (fst (span f s)) ≤ length s)%nat.
Proof. induction s as [|c s IH]; cbn [span]; [done|]. destruct (f c); [|cbn; lia]. destruct (span f s). cbn in *. lia. Qed.

Lemma strtok_shorter s tok rest : strtok s = Some (tok, rest) → (length rest < length s)%nat.
Proof.
  unfold strtok. pose proof (span_length is_delim s) as [H1 H2].
  destruct (snd (span is_delim s)) as [|c s'] eqn:E; [done|].
  pose proof (span_length (λ c, negb (is_delim c)) (c :: s')) as [H3 H4].
  destruct (span _ (c :: s')) as [a b] eqn:E2. intros [= <- <-]. cbn [fst snd] in *.
  assert (is_delim c = false) as Hc.
  { clear -E. induction s as [|x s IH]; [done|]. cbn in E. destruct (is_delim x) eqn:Ex; [|by injection E as -> ->].
    destruct (span is_delim s); auto. }
  cbn [span] in E2. rewrite Hc in E2. cbn [negb] in E2. destruct (span _ s') as [a' b'].
  injection E2 as <- <-. cbn [length] in *. destruct b'; cbn [tail length] in *; lia.
Qed.

Lemma config_tokens_ok fuel uc s : (length s < fuel)%nat → is_ok (config_tokens fuel uc s) = true.
Proof.
  revert uc s. induction fuel as [|fuel IH]; intros uc s Hf; [lia|]. cbn [config_tokens].
  destruct (strtok s) as [[tok rest]|] eqn:E; [|done]. apply strtok_shorter in E. apply IH. lia.
Qed.

Lemma apply_env_ok getenv tr name : ∃ tr', apply_env getenv tr name = Ok tr'.
Proof.
  unfold apply_env. destruct (getenv name) as [env|]; [|by eexists]. unfold trace_set_configuration.
  destruct (trace_is_configurable tr); [|by eexists].
  pose proof (config_tokens_ok (S (length env)) (pt_config tr) env ltac:(lia)).
  destruct (config_tokens _ _ _); [by eexists|done].
Qed.

Section environment_proofs.
Context (name uridata pre post : list Z).
Hypothesis name_short : Zlen name ≤ 16.
Hypothesis name_chars : Forall (λ c, c ≠ 0) name.
Hypothesis uri_chars : Forall (λ c, c ≠ 0) uridata.
Hypothesis split_last : name ++ 58 :: uridata = pre ++ 58 :: post.
Hypothesis post_plain : Forall (λ c, c ≠ 58) post.

Let full := LIBTRACE_CONF_ ++ pre ++ 58 :: post.

Lemma full_nonzero : Forall (λ c, c ≠ 0) full.
Proof using name_chars uri_chars split_last.
  unfold full. rewrite <- split_last. repeat apply Forall_app_2; [by repeat constructor|done|by constructor].
Qed.

Lemma full_length : Zlen full = 14 + Zlen name + 1 + Zlen uridata.
Proof using split_last.
  unfold full. rewrite <- split_last, !Zlen_app, Zlen_cons. change (Zlen LIBTRACE_CONF_) with 14. lia.
Qed.

Lemma clean_full (fuel : nat) t :
  clean_loop (length full + fuel) (full ++ t) 0 0 =
  clean_loop fuel (map clean_char full ++ t) (14 + Zlen pre) (Zlen full).
Proof using name_chars uri_chars split_last post_plain.
  pose proof (clean_loop_step fuel [] full t 0 full_nonzero) as H. cbn [app] in H.
  change (Zlen (@nil Z)) with 0 in H. rewrite H. f_equal. unfold full.
  rewrite last_colon_app. rewrite (last_colon_none _ _ LIBTRACE_CONF_) by by repeat constructor.
  rewrite last_colon_app. cbn [last_colon]. rewrite Z.eqb_refl, last_colon_none by done.
  change (Zlen LIBTRACE_CONF_) with 14. lia.
Qed.

End environment_proofs.

Lemma clean_full_split pre post : map clean_char (LIBTRACE_CONF_ ++ pre ++ 58 :: post) = (LIBTRACE_CONF_ ++ map clean_char pre) ++ 95 :: map clean_char post.
Proof. rewrite !map_app, clean_prefix, <- app_assoc. done. Qed.

(** The end of the function, on the buffer that the loop leaves. *)
Lemma env_variables getenv pre post tr k :
  let full := LIBTRACE_CONF_ ++ pre ++ 58 :: post in
  let buf := map clean_char full ++ 0 :: k in
  let mark := 14 + Zlen pre in
  (let! tr := apply_env getenv tr (str "LIBTRACE_CONF") in
   let! ' (env_name, tr) :=
     if mark =? 0 then Ok (buf, tr)
     else
       let! env_name := aset buf mark 0 in
       let! tr := apply_env getenv tr (c_string env_name) in
       let! env_name := aset env_name mark 95 in
       Ok (env_name, tr) in
   apply_env getenv tr (c_string env_name)) =
  (let! tr := apply_env getenv tr (str "LIBTRACE_CONF") in
   let! tr := apply_env getenv tr (LIBTRACE_CONF_ ++ map clean_char pre) in
   apply_env getenv tr (map clean_char full)).
Proof.
  cbv zeta. pose proof (Zlen_nonneg pre). rewrite (proj2 (Z.eqb_neq _ 0)) by lia.
  destruct (apply_env_ok getenv tr (str "LIBTRACE_CONF")) as [tr1 ->]. cbn [obind].
  set (a := LIBTRACE_CONF_ ++ map clean_char pre).
  assert (Zlen a = 14 + Zlen pre) as Ha by (unfold a; rewrite Zlen_app, Zlen_map; done).
  assert (Z.to_nat (14 + Zlen pre) = (length a + 0)%nat) as Hn by (unfold Zlen in *; lia).
  rewrite clean_full_split. fold a. rewrite <- app_assoc, <- app_comm_cons.
  set (t := map clean_char post ++ 0 :: k).
  assert (∀ x, 0 ≤ 14 + Zlen pre < Zlen (a ++ x :: t)).
  { intros x. pose proof (Zlen_nonneg t). rewrite Zlen_app, Zlen_cons. lia. }
  rewrite aset_ok by done. cbn [obind]. rewrite Hn, insert_app_r. cbn [insert list_insert].
  assert (Forall (λ c, c ≠ 0) a) by (apply Forall_app_2; [by repeat constructor|apply clean_nonzero]).
  rewrite c_string_zero by done. destruct (apply_env_ok getenv tr1 a) as [tr2 ->]. cbn [obind].
  rewrite aset_ok by done. cbn [obind]. rewrite Hn, insert_app_r. cbn [insert list_insert]. unfold t.
  rewrite app_comm_cons, app_assoc, c_string_zero; [done|].
  apply Forall_app_2; [done|]. constructor; [done|apply clean_nonzero].
Qed.

(** The configuration from the environment: if the name of the format (at most sixteen
    characters), the data of the URI and a prefix fit into 1023 characters, the
    variables [LIBTRACE_CONF], then [LIBTRACE_CONF_] with what is before the last
    colon of "format:uri", then [LIBTRACE_CONF_] with all of "format:uri" are
    applied in this order, letters raised to capitals and everything that is
    neither letter nor digit replaced by an underscore, and the function returns.
    A longer URI makes it run over the end of its buffer. *)
Theorem env_config_order getenv name uridata pre post tr :
  Zlen name ≤ 16 → Forall (λ c, c ≠ 0) name → Forall (λ c, c ≠ 0) uridata →
  name ++ 58 :: uridata = pre ++ 58 :: post → Forall (λ c, c ≠ 58) post →
  if 14 + Zlen name + 1 + Zlen uridata <? ENV_SIZE then
    parse_env_config getenv name uridata tr =
      (let! tr := apply_env getenv tr (str "LIBTRACE_CONF") in
       let! tr := apply_env getenv tr (LIBTRACE_CONF_ ++ map clean_char pre) in
       apply_env getenv tr (LIBTRACE_CONF_ ++ map clean_char name ++ 95 :: map clean_char uridata)) ∧
    is_ok (parse_env_config getenv name uridata tr) = true
  else parse_env_config getenv name uridata tr = Fault OutOfBounds.
Proof.
  intros Hn Hnc Huc Hsp Hpost.
  pose proof (full_length name uridata pre post Hsp) as Hlen. set (full := LIBTRACE_CONF_ ++ pre ++ 58 :: post) in *.
  unfold parse_env_config. rewrite env_buffer_ok by done. cbn [obind].
  set (s := LIBTRACE_CONF_ ++ name ++ [58]).
  assert (full = s ++ uridata) as Efull.
  { unfold full, s. rewrite <- Hsp, <- !app_assoc. done. }
  assert (length s ≤ 31)%nat as Hs.
  { unfold s. rewrite !length_app. change (length LIBTRACE_CONF_) with 14%nat. cbn. unfold Zlen in Hn. lia. }
  assert (Zlen full = Z.of_nat (length s) + Zlen uridata) as Hlen2 by (rewrite Efull; apply Zlen_app).
  destruct (Z.ltb_spec (14 + Zlen name + 1 + Zlen uridata) ENV_SIZE) as [Hfit|Hbig].
  - rewrite take_ge by (unfold Zlen in *; lia). rewrite app_assoc, <- Efull.
    set (k := (_ - _ - _)%nat). assert (k ≠ 0)%nat by (unfold k, Zlen in *; lia).
    assert (S (Z.to_nat ENV_SIZE) = (length full + S k)%nat) as -> by (unfold k, Zlen in *; lia).
    unfold full. rewrite (clean_full name uridata) by done. fold full.
    destruct k as [|k]; [done|]. cbn [replicate clean_loop].
    rewrite (aget_ok _ _ 0); [|apply Zlen_nonneg|].
    2:{ apply list_lookup_middle. rewrite length_map. unfold Zlen. lia. }
    cbn [obind Z.eqb]. unfold full. rewrite env_variables.
    assert (LIBTRACE_CONF_ ++ map clean_char name ++ 95 :: map clean_char uridata =
            map clean_char (LIBTRACE_CONF_ ++ pre ++ 58 :: post)) as ->.
    { rewrite <- Hsp, !map_app, clean_prefix. done. }
    split; [done|].
    destruct (apply_env_ok getenv tr (str "LIBTRACE_CONF")) as [tr1 ->]. cbn [obind].
    destruct (apply_env_ok getenv tr1 (LIBTRACE_CONF_ ++ map clean_char pre)) as [tr2 ->]. cbn [obind].
    by destruct (apply_env_ok getenv tr2 (map clean_char (LIBTRACE_CONF_ ++ pre ++ 58 :: post))) as [tr3 ->].
  - set (new := take _ uridata).
    assert (length new = (Z.to_nat ENV_SIZE - length s)%nat) as Hnew.
    { unfold new. rewrite length_take. unfold Zlen in *. lia. }
    rewrite Hnew, Nat.sub_diag. cbn [replicate]. rewrite app_nil_r.
    assert (Forall (λ c, c ≠ 0) (s ++ new)) as Hz.
    { repeat apply Forall_app_2; [by repeat constructor|done|by repeat constructor|]. by apply Forall_take. }
    pose proof (clean_loop_step 1 [] (s ++ new) [] 0 Hz) as H. rewrite length_app, Hnew in H.
    replace (length s + (Z.to_nat ENV_SIZE - length s) + 1)%nat with (S (Z.to_nat ENV_SIZE)) in H by lia.
    rewrite !app_nil_r in H. cbn [app] in H. change (Zlen (@nil Z)) with 0 in H. rewrite H. cbn [clean_loop].
    rewrite aget_oob; [done|]. rewrite Zlen_map. lia.
Qed.

Definition sample_env (name : list Z) : option (list Z) :=
  if bool_decide (name = str "LIBTRACE_CONF") then Some (str "bs=5 pt=3")
  else if bool_decide (name = str "LIBTRACE_CONF_RT_HOST") then Some (str "bs=6")
  else if bool_decide (name = str "LIBTRACE_CONF_RT") then Some (str "bs=8")
  else None.

Lemma env_config_order_witness :
  parse_env_config sample_env (str "rt") (str "host:3434") new_trace =
    Ok (call_setters new_trace [BurstSize 5; PerpktThreads 3; BurstSize 6]) ∧
  parse_env_config sample_env (str "rt") (replicate 1007 97) new_trace = Fault OutOfBounds.
Proof.
  split.
  - pose proof (env_config_order sample_env (str "rt") (str "host:3434") (str "rt:host") (str "3434") new_trace) as H.
    cbv beta iota in H. destruct H as [H _]; [done|by repeat constructor|by repeat constructor|reflexivity|by repeat constructor|].
    rewrite H. vm_compute. reflexivity.
  - pose proof (env_config_order sample_env (str "rt") (replicate 1007 97) (str "rt") (replicate 1007 97) new_trace) as H.
    rewrite Zlen_replicate in H. apply H.
    + done.
    + by repeat constructor.
    + by apply Forall_replicate.
    + done.
    + by apply Forall_replicate.
Defined.

(** ** Defaults *)
Definition or_default (d v : Z) : Z := if v =? 0 then d else v.

Definition sizes_in_range (uc : user_configuration) : Prop :=
  0 ≤ cache_size uc ∧ 0 ≤ thread_cache_size uc ∧ 0 ≤ burst_size uc ∧ 0 ≤ hasher_queue_size uc ∧ 0 ≤ reporter_thold uc ∧
  0 ≤ perpkt_threads uc < 2 ^ 31.

Lemma leb_default d v : 0 ≤ v → (if v <=? 0 then d else v) = or_default d v.
Proof. intros. unfold or_default. destruct (Z.leb_spec v 0), (Z.eqb_spec v 0); lia. Qed.

Lemma assign_default (mk : Z → setting) v uc d :
  0 ≤ v → assign (mk v) uc = uc →
  (if v <=? 0 then assign (mk d) uc else uc) = assign (mk (or_default d v)) uc.
Proof. intros Hv Ha. rewrite <- leb_default by done. destruct (v <=? 0); [done|by rewrite Ha]. Qed.

Lemma thread_count_default nproc v :
  0 ≤ v < 2 ^ 31 →
  (if v <=? 0 then if get_nb_cores nproc <=? 0 then 1 else get_nb_cores nproc else i32 v) =
  or_default (Z.max 1 nproc) v.
Proof.
  intros Hv. rewrite i32_small, <- leb_default by lia. destruct (v <=? 0); [|done].
  unfold get_nb_cores. destruct (Z.leb_spec nproc 0); bool_cases; lia.
Qed.

(** Checking the configuration when a trace starts: there is at least one thread, as
    many as asked for or else one for each processor; a size that was not set gets its
    default and the others stay; the cache then holds what the queues of all
    threads hold, unless a smaller size was asked for, which is when the warning is
    printed; the dedicated hasher is used exactly if there is a hasher and more
    than one thread; and there is a combiner. *)
Theorem verify_configuration_ok nproc tr :
  let uc := pt_config tr in
  let queue := or_default 1000 (hasher_queue_size uc) in
  let count := or_default (Z.max 1 nproc) (perpkt_threads uc) in
  sizes_in_range uc → (queue + 1) * count < 2 ^ 64 → pt_hasher_type tr = THREAD_EMPTY →
  let '(tr', warn) := verify_configuration nproc tr in
  pt_perpkt_thread_count tr' = count ∧ 1 ≤ count ∧
  pt_config tr' =
    {| cache_size := or_default ((queue + 1) * count) (cache_size uc);
       thread_cache_size := or_default 20 (thread_cache_size uc);
       fixed_count := fixed_count uc;
       burst_size := or_default 10 (burst_size uc);
       tick_interval := tick_interval uc;
       tick_count := tick_count uc;
       perpkt_threads := perpkt_threads uc;
       hasher_queue_size := queue;
       hasher_polling := hasher_polling uc;
       reporter_polling := reporter_polling uc;
       reporter_thold := or_default 100 (reporter_thold uc);
       debug_state := debug_state uc |} ∧
  (warn = true ↔ 0 < cache_size uc < (queue + 1) * count) ∧
  (pt_hasher_type tr' = THREAD_HASHER ↔ is_Some (pt_hasher tr) ∧ 1 < count) ∧
  (is_Some (cb_initialise (pt_combiner tr')) ∨ is_Some (cb_publish (pt_combiner tr'))).
Proof.
  destruct tr as [state [cs tcs fc bs ti tc pt hqs hp rp rt ds] tt c0 hasher type combiner].
  cbv zeta. unfold sizes_in_range. cbn [pt_config cache_size thread_cache_size burst_size hasher_queue_size reporter_thold
    perpkt_threads fixed_count tick_interval tick_count hasher_polling reporter_polling debug_state pt_hasher_type pt_hasher].
  intros (Hcs & Htcs & Hbs & Hhqs & Hrt & Hpt) Hfit ->.
  set (queue := or_default 1000 hqs) in *. set (count := or_default (Z.max 1 nproc) pt) in *.
  assert (0 < queue) by (unfold queue, or_default; destruct (Z.eqb_spec hqs 0); lia).
  assert (1 ≤ count) as Hcount by (unfold count, or_default; destruct (Z.eqb_spec pt 0); lia).
  assert (queue + 1 < 2 ^ 64) by nia.
  unfold verify_configuration. cbn [pt_config hasher_queue_size].
  rewrite (assign_default HasherQueueSize) by done. fold queue. set (uc1 := assign (HasherQueueSize queue) _).
  change (perpkt_threads uc1) with pt. rewrite thread_count_default by done. fold count.
  rewrite (assign_default ReporterThold) by done. set (uc2 := assign _ uc1).
  rewrite (assign_default BurstSize) by done. set (uc3 := assign _ uc2).
  rewrite (assign_default ThreadCacheSize) by done. set (uc4 := assign _ uc3).
  rewrite (assign_default CacheSize) by done. subst uc4 uc3 uc2 uc1.
  unfold queued_packets. cbn [assign cache_size hasher_queue_size burst_size thread_cache_size reporter_thold].
  assert (0 ≤ (queue + 1) * count) by nia.
  rewrite (u64_small (queue + 1)), u64_small by lia. cbn [pt_set_threads pt_set_combiner pt_set_config pt_perpkt_thread_count pt_config
    pt_hasher_type pt_combiner pt_hasher].
  split_and!; [done|done|done| | |].
  - rewrite Z.ltb_lt. unfold or_default. destruct (Z.eqb_spec cs 0); lia.
  - destruct hasher as [h|]; [|by split; [|intros [[? ?] _]]].
    destruct (Z.ltb_spec 1 count); (split; [|intros [_ ?]]); done || lia || by eexists.
  - destruct (cb_initialise combiner) eqn:E1; [left; rewrite E1; by eexists|].
    destruct (cb_publish combiner) eqn:E2; [right; rewrite E2; by eexists|by left; eexists].
Qed.

Lemma verify_configuration_ok_witness :
  let tr := fst (call_setter (fst (call_setter new_trace (PerpktThreads 4))) (CacheSize 100)) in
  let '(tr', warn) := verify_configuration 8 tr in
  pt_perpkt_thread_count tr' = 4 ∧ cache_size (pt_config tr') = 100 ∧ warn = true.
Proof.
  set (tr := fst _). pose proof (verify_configuration_ok 8 tr) as H. cbv zeta in H |- *.
  destruct (verify_configuration 8 tr) as [tr' warn].
  destruct H as (Hc & _ & Hu & Hw & _); [unfold sizes_in_range; vm_compute; split_and!; (done || by intros ?)|done|done|].
  split_and!; [by rewrite Hc|by rewrite Hu|]. apply Hw. by vm_compute.
Defined.

(** A number of threads of more than 32 bits is cut off: here none is started. *)
Example thread_count_cut :
  ∃ tr, trace_set_configuration new_trace (str "pt=4294967296") = Ok (tr, 0) ∧
    pt_perpkt_thread_count (fst (verify_configuration 8 tr)) = 0.
Proof. eexists. split; [reflexivity|]. reflexivity. Qed.
