(* ===== verification/Statistics.v ===== *)
(** * Counters: trace_get_received_packets to trace_add_statistics of lib/trace.c

    What the functions use of a trace is its state, its own counts and those of
    its per-packet threads, the cached statistics and the format's functions.  A
    format's [get_statistics] changes the structure it is given; the older
    [get_*_packets] functions return a number. *)

From S2P Require Import Prelude ParConfig.
Local Open Scope Z_scope.
Local Open Scope outcome_scope.

(** A field of [LIBTRACE_STAT_FIELDS]: its [_valid] bit and its value. *)
Record counter := { c_valid : bool; c_value : Z }.

Record libtrace_stat_t := {
  st_accepted : counter;
  st_filtered : counter;
  st_received : counter;
  st_dropped : counter;
  st_captured : counter;
  st_errors : counter;
  st_magic : Z;
}.

Abbreviation LIBTRACE_STAT_MAGIC := 0x41.
Abbreviation UINT64_MAX := (2 ^ 64 - 1).

(** The fields, for statements about each of them. *)
Definition stat_fields : list (libtrace_stat_t → counter) :=
  [st_accepted; st_filtered; st_received; st_dropped; st_captured; st_errors].

(** A thread's accepted and filtered packets. *)
Record stat_trace := {
  sx_state : trace_state;
  sx_accepted_packets : Z;
  sx_filtered_packets : Z;
  sx_threads : list (Z * Z);
  sx_stats : option libtrace_stat_t;
  sx_dedicated_hasher : bool;
  sx_get_statistics : option (libtrace_stat_t → libtrace_stat_t);
  sx_get_thread_statistics : option (Z * Z → libtrace_stat_t → libtrace_stat_t);
  sx_get_received_packets : option Z;
  sx_get_filtered_packets : option Z;
  sx_get_dropped_packets : option Z;
}.

Definition sx_set_stats (tr : stat_trace) (s : libtrace_stat_t) : stat_trace :=
  {| sx_state := sx_state tr; sx_accepted_packets := sx_accepted_packets tr; sx_filtered_packets := sx_filtered_packets tr;
     sx_threads := sx_threads tr; sx_stats := Some s; sx_dedicated_hasher := sx_dedicated_hasher tr;
     sx_get_statistics := sx_get_statistics tr; sx_get_thread_statistics := sx_get_thread_statistics tr;
     sx_get_received_packets := sx_get_received_packets tr; sx_get_filtered_packets := sx_get_filtered_packets tr;
     sx_get_dropped_packets := sx_get_dropped_packets tr |}.

Definition trace_create_statistics : libtrace_stat_t :=
  let zero := {| c_valid := false; c_value := 0 |} in
  {| st_accepted := zero; st_filtered := zero; st_received := zero; st_dropped := zero; st_captured := zero;
     st_errors := zero; st_magic := LIBTRACE_STAT_MAGIC |}.

(** [for (i = 0; i < perpkt_thread_count; i++) ret += ...] *)
Definition add_threads (start : Z) (counts : list Z) : Z := foldl (λ n c, u64 (n + c)) start counts.

(** [stat->x##_valid = 0] for every field. *)
Definition invalidate (c : counter) : counter := {| c_valid := false; c_value := c_value c |}.
Definition invalidate_all (s : libtrace_stat_t) (accepted filtered : Z) : libtrace_stat_t :=
  {| st_accepted := {| c_valid := true; c_value := accepted |};
     st_filtered := {| c_valid := true; c_value := filtered |};
     st_received := invalidate (st_received s); st_dropped := invalidate (st_dropped s);
     st_captured := invalidate (st_captured s); st_errors := invalidate (st_errors s); st_magic := st_magic s |}.

Definition trace_get_accepted_packets (tr : stat_trace) : Z :=
  let ret := add_threads 0 (map fst (sx_threads tr)) in
  if ret =? 0 then sx_accepted_packets tr else ret.

(** The counts of the library itself. *)
Definition lib_filtered (tr : stat_trace) : Z := add_threads (sx_filtered_packets tr) (map snd (sx_threads tr)).

(** The contents written to [stat] by a trace that is not paused or finished. *)
Definition current_statistics (tr : stat_trace) (s : libtrace_stat_t) : libtrace_stat_t :=
  let s := invalidate_all s (trace_get_accepted_packets tr) (lib_filtered tr) in
  match sx_get_statistics tr with Some get => get s | None => s end.

Definition is_finished (st : trace_state) : bool :=
  match st with
  | STATE_PAUSED | STATE_FINISHED | STATE_FINISHING | STATE_JOINED => true
  | _ => false
  end.

(** A null [stat] stands for the structure of the trace itself, allocated when it
    is missing. *)
Definition trace_get_statistics (tr : stat_trace) (stat : option libtrace_stat_t)
  : outcome (stat_trace * libtrace_stat_t) :=
  match stat with
  | None =>
      let s := default trace_create_statistics (sx_stats tr) in
      let! _ := oassert (st_magic s =? LIBTRACE_STAT_MAGIC) in
      let s := if is_finished (sx_state tr) then s else current_statistics tr s in
      Ok (sx_set_stats tr s, s)
  | Some s =>
      let! _ := oassert (st_magic s =? LIBTRACE_STAT_MAGIC) in
      if is_finished (sx_state tr) then Ok (tr, default s (sx_stats tr))
      else Ok (tr, current_statistics tr s)
  end.

(** [garbage] is what the local variable [stat] holds; its magic number is set. *)
Definition local_statistics (tr : stat_trace) (garbage : libtrace_stat_t) : outcome libtrace_stat_t :=
  let stat := {| st_accepted := st_accepted garbage; st_filtered := st_filtered garbage;
                 st_received := st_received garbage; st_dropped := st_dropped garbage;
                 st_captured := st_captured garbage; st_errors := st_errors garbage;
                 st_magic := LIBTRACE_STAT_MAGIC |} in
  let! ' (_, stat) := trace_get_statistics tr (Some stat) in
  Ok stat.

(** [if (trace->stats && trace->stats->x_valid) return trace->stats->x; else ...] *)
Definition cached (tr : stat_trace) (field : libtrace_stat_t → counter) : option Z :=
  match sx_stats tr with
  | Some s => if c_valid (field s) then Some (c_value (field s)) else None
  | None => None
  end.

Definition trace_get_received_packets (tr : stat_trace) (garbage : libtrace_stat_t) : outcome Z :=
  let from_cache := default UINT64_MAX (cached tr st_received) in
  match sx_get_received_packets tr with
  | Some ret => Ok (if ret =? UINT64_MAX then from_cache else ret)
  | None =>
      match sx_get_statistics tr with
      | Some _ =>
          let! stat := local_statistics tr garbage in
          Ok (if c_valid (st_received stat) then c_value (st_received stat) else from_cache)
      | None => Ok from_cache
      end
  end.

Definition trace_get_dropped_packets (tr : stat_trace) (garbage : libtrace_stat_t) : outcome Z :=
  let from_cache := default UINT64_MAX (cached tr st_dropped) in
  match sx_get_dropped_packets tr with
  | Some ret => Ok (if ret =? UINT64_MAX then from_cache else ret)
  | None =>
      match sx_get_statistics tr with
      | Some _ =>
          let! stat := local_statistics tr garbage in
          Ok (if c_valid (st_dropped stat) then c_value (st_dropped stat) else from_cache)
      | None => Ok from_cache
      end
  end.

Definition trace_get_filtered_packets (tr : stat_trace) (garbage : libtrace_stat_t) : outcome Z :=
  let lib := lib_filtered tr in
  match sx_get_filtered_packets tr with
  | Some trace_filtered => Ok (if trace_filtered =? UINT64_MAX then UINT64_MAX else u64 (trace_filtered + lib))
  | None =>
      match sx_get_statistics tr with
      | Some _ =>
          let! stat := local_statistics tr garbage in
          Ok (if c_valid (st_filtered stat) then u64 (lib + c_value (st_filtered stat)) else UINT64_MAX)
      | None => Ok (match cached tr st_filtered with Some n => u64 (n + lib) | None => lib end)
      end
  end.

Definition trace_get_thread_statistics (tr : stat_trace) (thread : Z * Z) (s : libtrace_stat_t) : outcome libtrace_stat_t :=
  let! _ := oassert (st_magic s =? LIBTRACE_STAT_MAGIC) in
  let s := invalidate_all s thread.1 thread.2 in
  Ok match sx_get_thread_statistics tr with
     | Some get => if sx_dedicated_hasher tr then s else get thread s
     | None => s
     end.

(** The macro of the next two functions: a field is valid if both are; otherwise
    its value is left alone. *)
Definition combine_counter (op : Z → Z → Z) (a b c : counter) : counter :=
  if c_valid a && c_valid b then {| c_valid := true; c_value := u64 (op (c_value a) (c_value b)) |}
  else invalidate c.

Definition combine_statistics (op : Z → Z → Z) (a b c : libtrace_stat_t) : outcome libtrace_stat_t :=
  let! _ := oassert (st_magic a =? LIBTRACE_STAT_MAGIC) in
  let! _ := oassert (st_magic b =? LIBTRACE_STAT_MAGIC) in
  let! _ := oassert (st_magic c =? LIBTRACE_STAT_MAGIC) in
  Ok {| st_accepted := combine_counter op (st_accepted a) (st_accepted b) (st_accepted c);
        st_filtered := combine_counter op (st_filtered a) (st_filtered b) (st_filtered c);
        st_received := combine_counter op (st_received a) (st_received b) (st_received c);
        st_dropped := combine_counter op (st_dropped a) (st_dropped b) (st_dropped c);
        st_captured := combine_counter op (st_captured a) (st_captured b) (st_captured c);
        st_errors := combine_counter op (st_errors a) (st_errors b) (st_errors c);
        st_magic := st_magic c |}.

Definition trace_subtract_statistics := combine_statistics Z.sub.
Definition trace_add_statistics := combine_statistics Z.add.

(** ** Theorems *)

Lemma combine_statistics_fields op a b c s f :
  combine_statistics op a b c = Ok s → f ∈ stat_fields → f s = combine_counter op (f a) (f b) (f c).
Proof.
  unfold combine_statistics. intros H Hf. do 3 obind_inv H. injection H as <-. unfold stat_fields in Hf.
  repeat (apply elem_of_cons in Hf as [->|Hf]; [done|]). set_solver.
Qed.

Lemma combine_statistics_ok op a b c :
  st_magic a = LIBTRACE_STAT_MAGIC → st_magic b = LIBTRACE_STAT_MAGIC → st_magic c = LIBTRACE_STAT_MAGIC →
  ∃ s, combine_statistics op a b c = Ok s ∧ st_magic s = LIBTRACE_STAT_MAGIC.
Proof. intros Ha Hb Hc. unfold combine_statistics. rewrite Ha, Hb, Hc. by eexists. Qed.

(** Adding the statistics of two periods and subtracting those of the second gives
    back those of the first, modulo 2^64, for every field that both have, and
    marks every other field as invalid. *)
Theorem add_subtract_statistics a b c d :
  st_magic a = LIBTRACE_STAT_MAGIC → st_magic b = LIBTRACE_STAT_MAGIC → st_magic c = LIBTRACE_STAT_MAGIC →
  st_magic d = LIBTRACE_STAT_MAGIC →
  ∃ sum diff, trace_add_statistics a b c = Ok sum ∧ trace_subtract_statistics sum b d = Ok diff ∧
    ∀ f, f ∈ stat_fields →
      if c_valid (f a) && c_valid (f b)
      then c_valid (f diff) = true ∧ c_value (f diff) = u64 (c_value (f a))
      else c_valid (f diff) = false.
Proof.
  intros Ha Hb Hc Hd. destruct (combine_statistics_ok Z.add a b c) as (sum & Es & Hs); [done..|].
  destruct (combine_statistics_ok Z.sub sum b d) as (diff & Ed & _); [done..|].
  exists sum, diff. split; [done|]. split; [done|]. intros f Hf.
  rewrite (combine_statistics_fields _ _ _ _ _ f Ed Hf), (combine_statistics_fields _ _ _ _ _ f Es Hf).
  unfold combine_counter. destruct (c_valid (f a)), (c_valid (f b)) eqn:Eb; cbn; try done. split; [done|].
  rewrite u64_sub_l. f_equal. lia.
Qed.

(** A format that reports statistics and leaves the count of filtered packets to the
    library gets that count doubled by [trace_get_filtered_packets], while
    [trace_get_statistics] reports it once. *)
Theorem filtered_counted_twice tr get garbage :
  sx_get_filtered_packets tr = None → sx_get_statistics tr = Some get → is_finished (sx_state tr) = false →
  (∀ s, st_filtered (get s) = st_filtered s) →
  trace_get_filtered_packets tr garbage = Ok (u64 (2 * lib_filtered tr)) ∧
  ∃ s, local_statistics tr garbage = Ok s ∧ st_filtered s = {| c_valid := true; c_value := lib_filtered tr |}.
Proof.
  intros Hg Hs Hf Hget. unfold trace_get_filtered_packets, local_statistics, trace_get_statistics.
  rewrite Hg, Hs, Hf. cbn [st_magic oassert Z.eqb Pos.eqb obind].
  unfold current_statistics. rewrite Hs. cbn [obind]. rewrite !Hget. cbn. split; [do 2 f_equal; lia|].
  eexists. split; [done|]. by rewrite Hget.
Qed.

(** The accepted packets that [trace_get_statistics] reports are those of
    [trace_get_accepted_packets], if the format leaves them alone and the trace
    has not been paused. *)
Lemma accepted_statistics tr s :
  (∀ get s, sx_get_statistics tr = Some get → st_accepted (get s) = st_accepted s) →
  is_finished (sx_state tr) = false → st_magic s = LIBTRACE_STAT_MAGIC →
  ∃ s', trace_get_statistics tr (Some s) = Ok (tr, s') ∧
    st_accepted s' = {| c_valid := true; c_value := trace_get_accepted_packets tr |}.
Proof.
  intros Hget Hf Hm. unfold trace_get_statistics. rewrite Hm, Hf. cbn [oassert Z.eqb Pos.eqb obind].
  eexists. split; [done|]. unfold current_statistics.
  destruct (sx_get_statistics tr) as [get|] eqn:E; [|done]. by rewrite (Hget get) by done.
Qed.

(** ** Concrete counters *)
Definition sample_stat (n : Z) : libtrace_stat_t :=
  {| st_accepted := {| c_valid := true; c_value := n |}; st_filtered := {| c_valid := true; c_value := 2 * n |};
     st_received := {| c_valid := false; c_value := 0 |}; st_dropped := {| c_valid := false; c_value := 0 |};
     st_captured := {| c_valid := false; c_value := 0 |}; st_errors := {| c_valid := false; c_value := 0 |};
     st_magic := LIBTRACE_STAT_MAGIC |}.

Lemma add_subtract_statistics_witness :
  ∃ sum diff, trace_add_statistics (sample_stat 5) (sample_stat 7) trace_create_statistics = Ok sum ∧
    trace_subtract_statistics sum (sample_stat 7) trace_create_statistics = Ok diff ∧
    c_valid (st_accepted diff) = true ∧ c_value (st_accepted diff) = 5.
Proof.
  destruct (add_subtract_statistics (sample_stat 5) (sample_stat 7) trace_create_statistics trace_create_statistics)
    as (sum & diff & E1 & E2 & H); [done..|].
  exists sum, diff. split; [done|]. split; [done|]. exact (H st_accepted ltac:(left)).
Defined.

(** Three packets were filtered by the library; the format reports drops only. *)
Definition sample_stat_trace : stat_trace :=
  {| sx_state := STATE_NEW; sx_accepted_packets := 10; sx_filtered_packets := 3; sx_threads := []; sx_stats := None;
     sx_dedicated_hasher := false;
     sx_get_statistics := Some (λ s, {| st_accepted := st_accepted s; st_filtered := st_filtered s;
       st_received := st_received s; st_dropped := {| c_valid := true; c_value := 1 |}; st_captured := st_captured s;
       st_errors := st_errors s; st_magic := st_magic s |});
     sx_get_thread_statistics := None; sx_get_received_packets := None; sx_get_filtered_packets := None;
     sx_get_dropped_packets := None |}.

Lemma filtered_counted_twice_witness :
  trace_get_filtered_packets sample_stat_trace trace_create_statistics = Ok 6 ∧
  ∃ s, local_statistics sample_stat_trace trace_create_statistics = Ok s ∧
    st_filtered s = {| c_valid := true; c_value := 3 |}.
Proof.
  apply (filtered_counted_twice sample_stat_trace
    (λ s, {| st_accepted := st_accepted s; st_filtered := st_filtered s;
       st_received := st_received s; st_dropped := {| c_valid := true; c_value := 1 |}; st_captured := st_captured s;
       st_errors := st_errors s; st_magic := st_magic s |}) trace_create_statistics); done.
Defined.
