(* ===== verification/Erf.v ===== *)
(** * ERF files: lib/format_erf.c

    An ERF record is a header of 16 bytes (timestamp, type, flags, record length,
    loss counter, wire length, the last three in network order), extension headers
    of 8 bytes each if the top bit of the type is set, two bytes of padding for
    Ethernet, and the captured bytes.

    The buffer of a packet holds the framing header ([pk_header]) and the memory
    behind it ([pk_mem]); reading through [packet->header] reads from both.  A
    packet without payload is one whose record has the flag [rxerror]. *)

From S2P Require Import Prelude Byteswap Packet PktMeta Layer2 Linktypes Timestamps FormatHelper PcapFile.
Local Open Scope Z_scope.
Local Open Scope outcome_scope.

Abbreviation dag_record_size := 16.
Abbreviation TYPE_LEGACY := 0.
Abbreviation TYPE_ETH := 2.
Abbreviation TYPE_DSM_COLOR_ETH := 16.
Abbreviation TYPE_AAL2 := 18.
Abbreviation TYPE_RAW_LINK := 24.
Abbreviation TRACE_RT_DATA_ERF := 1001.
Abbreviation EIO := 5.
Abbreviation O_CREAT_WRONLY := 65.

(** ** The fields of a record *)
Definition erf_ts (b : list Z) : outcome Z := read64 b 0.
Definition erf_type (b : list Z) : outcome Z := read8 b 8.
Definition erf_flags (b : list Z) : outcome Z := read8 b 9.
Definition erf_rlen (b : list Z) : outcome Z := be16 b 10.
Definition erf_lctr (b : list Z) : outcome Z := be16 b 12.
Definition erf_wlen (b : list Z) : outcome Z := be16 b 14.

(** [flags.rxerror] and [flags.iface] *)
Definition rxerror (flags : Z) : bool := Z.testbit flags 4.
Definition iface (flags : Z) : Z := Z.land flags 3.

Definition packet_bytes (p : libtrace_packet_t) : list Z := pk_header p ++ pk_mem p.

(** ** The length of the framing *)

(** The padding of a packet of the ERF format, and of one of another format. *)
Definition erf_padding (b : list Z) : outcome Z :=
  let! type := erf_type b in
  let type := Z.land type 0x7f in
  Ok (if (type =? TYPE_ETH) || (type =? TYPE_DSM_COLOR_ETH) then 2 else 0).

Definition erf_get_padding (is_erf : bool) (fmt : libtrace_format_t) (p : libtrace_packet_t)
  : outcome (libtrace_packet_t * Z) :=
  if is_erf then
    let! pad := erf_padding (packet_bytes p) in Ok (p, pad)
  else
    let '(p, linktype) := trace_get_link_type fmt p in
    Ok (p, if bool_decide (linktype = TRACE_TYPE_ETH) then 2 else 0).

(** The loop over the extension headers, which goes on while the one at [off] is
    less than [1UL << 31]. *)
Fixpoint ext_loop (fuel : nat) (b : list Z) (off extsize rlen : Z) : outcome Z :=
  let! v := read64 b off in
  if v <? 2 ^ 31 then
    match fuel with
    | O => Fault OutOfFuel
    | S fuel' =>
        let extsize := u16 (extsize + 8) in
        let! _ := oassert (extsize <=? rlen) in
        ext_loop fuel' b (off + 8) extsize rlen
    end
  else Ok extsize.

Definition erf_framing (b : list Z) : outcome Z :=
  let! type := erf_type b in
  let! extsize :=
    if Z.land type 0x80 =? 0x80 then
      let! rlen := erf_rlen b in
      ext_loop (length b) b dag_record_size 8 rlen
    else Ok 0 in
  let! pad := erf_padding b in
  Ok (dag_record_size + extsize + pad).

Definition erf_get_framing_length (p : libtrace_packet_t) : outcome Z := erf_framing (packet_bytes p).

(** ** What the header says *)
Definition erf_get_link_type (p : libtrace_packet_t) : outcome libtrace_linktype_t :=
  let! type := erf_type (packet_bytes p) in
  let type := Z.land type 0x7f in
  if negb (type =? TYPE_LEGACY) then Ok (erf_type_to_libtrace type)
  else
    let! c := read8 (pk_mem p) (pk_payload p + 4) in
    Ok (if c =? 0x45 then TRACE_TYPE_PPP else TRACE_TYPE_UNKNOWN).

Definition erf_get_direction (p : libtrace_packet_t) : outcome Z :=
  let! flags := erf_flags (packet_bytes p) in Ok (iface flags).

(** The header after the call, and the direction. *)
Definition erf_set_direction (p : libtrace_packet_t) (direction : Z) : outcome (list Z * Z) :=
  let! flags := erf_flags (packet_bytes p) in
  let flags := Z.lor (Z.ldiff flags 3) (Z.land direction 3) in
  let! header := store (pk_header p) 9 [flags] in
  Ok (header, iface flags).

Definition erf_get_erf_timestamp (p : libtrace_packet_t) : outcome Z := erf_ts (packet_bytes p).

(** [payload]: the packet has one. *)
Definition erf_get_capture_length (payload : bool) (p : libtrace_packet_t) : outcome Z :=
  if negb payload then Ok 0
  else
    let! rlen := erf_rlen (packet_bytes p) in
    let! framing := erf_get_framing_length p in
    let! wlen := erf_wlen (packet_bytes p) in
    let caplen := i32 (rlen - framing) in
    Ok (if wlen <? caplen then wlen else caplen).

Definition erf_get_wire_length (p : libtrace_packet_t) : outcome Z := erf_wlen (packet_bytes p).

Definition erf_has_payload (p : libtrace_packet_t) : bool :=
  match erf_flags (packet_bytes p) with Ok flags => negb (rxerror flags) | Fault _ => false end.

(** The format's table, without [set_capture_length], whose code calls
    [trace_get_capture_length]. *)
Definition erf_lengths : libtrace_format_t :=
  {| f_get_link_type := Some (λ p, ok_or TRACE_TYPE_UNKNOWN (erf_get_link_type p));
     f_get_capture_length := Some (λ p, ok_or 0 (erf_get_capture_length (erf_has_payload p) p));
     f_get_wire_length := Some (λ p, ok_or 0 (erf_get_wire_length p));
     f_get_framing_length := Some (λ p, ok_or 0 (erf_get_framing_length p));
     f_set_capture_length := None |}.

Definition pk_set_header (p : libtrace_packet_t) (header : list Z) : libtrace_packet_t :=
  {| pk_header := header; pk_mem := pk_mem p; pk_payload := pk_payload p; pk_type := pk_type p;
     pk_capture_length := pk_capture_length p; pk_wire_length := pk_wire_length p;
     pk_payload_length := pk_payload_length p; pk_l2_header := pk_l2_header p;
     pk_link_type := pk_link_type p; pk_l2_remaining := pk_l2_remaining p;
     pk_l3_header := pk_l3_header p; pk_l3_ethertype := pk_l3_ethertype p;
     pk_l3_remaining := pk_l3_remaining p; pk_l4_header := pk_l4_header p;
     pk_transport_proto := pk_transport_proto p; pk_l4_remaining := pk_l4_remaining p |}.

(** The header after the call, and the length returned. *)
Definition erf_set_capture_length (p : libtrace_packet_t) (size : Z) : outcome (list Z * Z) :=
  let! ' (p, caplen) := trace_get_capture_length erf_lengths p in
  if caplen <? size then Ok (pk_header p, caplen)
  else
    let p := pk_set_lengths p (-1) (pk_wire_length p) in
    let! framing := erf_get_framing_length p in
    let! header := store (pk_header p) 10 (bytes16 (htons (u16 (size + framing)))) in
    let! ' (_, caplen) := trace_get_capture_length erf_lengths (pk_set_header p header) in
    Ok (header, caplen).

Definition erf_format : libtrace_format_t :=
  {| f_get_link_type := f_get_link_type erf_lengths;
     f_get_capture_length := f_get_capture_length erf_lengths;
     f_get_wire_length := f_get_wire_length erf_lengths;
     f_get_framing_length := f_get_framing_length erf_lengths;
     f_set_capture_length := Some (λ p size, ok_or (pk_header p, 0) (erf_set_capture_length p size)) |}.

Definition erf_time : time_format :=
  {| tf_get_erf_timestamp := Some (λ p, ok_or 0 (erf_get_erf_timestamp p));
     tf_get_timespec := None; tf_get_timeval := None; tf_get_seconds := None |}.

Definition erf_packet_trace : packet_trace := {| tr_format := erf_format; tr_time := erf_time |}.

(** ** Reading *)
Section io.
Context {W : Wandio}.
Variable fresh : list Z.

Definition erf_probe_magic (io : io_t) : outcome Z :=
  let '(_, b, len) := wandio_peek io 4096 in
  if len <? dag_record_size then Ok 0
  else
    let! rlen := erf_rlen b in
    let! ts := erf_ts b in
    let! type := erf_type b in
    Ok (if rlen <? dag_record_size then 0
        else if ts <? 0x2f0539b000000000 then 0
        else if Z.shiftr ts 32 =? 0xa1b2c3d4 then 0
        else if Z.shiftr ts 32 =? 0xd4c3b2a1 then 0
        else if TYPE_AAL2 <? Z.land type 0x7f then 0
        else 1).

Record erf_trace := {
  et_uridata : list Z;
  et_io : option io_t;
  et_drops : Z;
  et_real_time : Z;
  et_err : Z;
}.

Definition et_set (t : erf_trace) (io : option io_t) (drops err : Z) : erf_trace :=
  {| et_uridata := et_uridata t; et_io := io; et_drops := drops; et_real_time := et_real_time t; et_err := err |}.

Definition erf_init_input (uridata : list Z) (io : option io_t) : erf_trace :=
  {| et_uridata := uridata; et_io := io; et_drops := 0; et_real_time := 0; et_err := TRACE_ERR_NOERROR |}.

Inductive erf_option := ERF_EVENT_REALTIME (v : Z) | ERF_UNAVAILABLE | ERF_UNKNOWN.

Definition erf_config_input (t : erf_trace) (option : erf_option) : outcome (erf_trace * Z) :=
  match option with
  | ERF_EVENT_REALTIME v =>
      Ok ({| et_uridata := et_uridata t; et_io := et_io t; et_drops := et_drops t; et_real_time := v;
             et_err := et_err t |}, 0)
  | ERF_UNAVAILABLE =>
      let! err := trace_set_err TRACE_ERR_OPTION_UNAVAIL in Ok (et_set t (et_io t) (et_drops t) err, -1)
  | ERF_UNKNOWN =>
      let! err := trace_set_err TRACE_ERR_UNKNOWN_OPTION in Ok (et_set t (et_io t) (et_drops t) err, -1)
  end.

Definition erf_start_input (t : erf_trace) : outcome (erf_trace * Z) :=
  match et_io t with
  | Some _ => Ok (t, 0)
  | None =>
      let! ' (io, err) := trace_open_file (et_uridata t) in
      match io with
      | None => Ok (et_set t None (et_drops t) (default (et_err t) err), -1)
      | Some io => Ok (et_set t (Some io) 0 (et_err t), 0)
      end
  end.

(** The packet and the number of packets lost, for a buffer [buf] that is its own
    if [own]. *)
Definition erf_prepare_packet (o : packet_obj) (buf : list Z) (rt_type : Z) (own : bool) (drops : Z)
  : outcome (packet_obj * Z) :=
  let! flags := erf_flags buf in
  let! framing := if rxerror flags then Ok dag_record_size else erf_framing buf in
  let! rlen := erf_rlen buf in
  let! _ := oassert (negb (rlen =? 0)) in
  let! type := erf_type buf in
  let! lctr := erf_lctr buf in
  Ok ({| o_pkt := pk_set_buffer (o_pkt o) buf framing rt_type; o_buffer := true; o_header := true;
         o_payload := negb (rxerror flags);
         o_buf_control := if own then TRACE_CTRL_PACKET else TRACE_CTRL_EXTERNAL |},
      if Z.land type 0x7f =? TYPE_DSM_COLOR_ETH then drops else u64 (drops + lctr)).

Definition erf_read_packet (t : erf_trace) (o : packet_obj) : outcome (erf_trace * packet_obj * Z) :=
  match et_io t with
  | None => Fault NullDeref
  | Some io =>
      let buf := if negb (o_buffer o) || bool_decide (o_buf_control o = TRACE_CTRL_EXTERNAL) then fresh
                 else o_bytes o in
      let '(io, bs, numbytes) := wandio_read io dag_record_size in
      let fail io errcode buf :=
        let! err := trace_set_err errcode in
        Ok (et_set t (Some io) (et_drops t) err, o_fill o buf (pk_type (o_pkt o)), -1) in
      let! buf := store buf 0 bs in
      if numbytes =? -1 then fail io (errno_read io) buf
      else if numbytes =? 0 then Ok (et_set t (Some io) (et_drops t) (et_err t), o_fill o buf (pk_type (o_pkt o)), 0)
      else if numbytes <? dag_record_size then fail io TRACE_ERR_BAD_PACKET buf
      else
        let! rlen := erf_rlen buf in
        let size := u32 (rlen - dag_record_size) in
        if LIBTRACE_PACKET_BUFSIZE <=? size then fail io TRACE_ERR_BAD_PACKET buf
        else
          let! type := erf_type buf in
          if TYPE_RAW_LINK <=? Z.land type 0x7f then fail io TRACE_ERR_BAD_PACKET buf
          else
            let '(io, bs, numbytes) := wandio_read io size in
            let! buf := store buf dag_record_size bs in
            if negb (numbytes =? size) then
              if numbytes =? -1 then fail io (errno_read io) buf else fail io EIO buf
            else
              let! ' (o, drops) := erf_prepare_packet o buf TRACE_RT_DATA_ERF true (et_drops t) in
              Ok (et_set t (Some io) drops (et_err t), o, rlen)
  end.

(** ** Writing *)
Record erf_out := {
  eo_uridata : list Z;
  eo_file : option iow_t;
  eo_compress_type : Z;
  eo_level : Z;
  eo_flag : Z;
  eo_err : Z;
}.

Definition erf_init_output (uridata : list Z) : erf_out :=
  {| eo_uridata := uridata; eo_file := None; eo_compress_type := 0; eo_level := 0; eo_flag := O_CREAT_WRONLY;
     eo_err := TRACE_ERR_NOERROR |}.

Definition eo_set (out : erf_out) (file : option iow_t) (err : Z) : erf_out :=
  {| eo_uridata := eo_uridata out; eo_file := file; eo_compress_type := eo_compress_type out;
     eo_level := eo_level out; eo_flag := eo_flag out; eo_err := err |}.

Definition erf_config_output (out : erf_out) (option : output_option) (value : Z) : outcome (erf_out * Z) :=
  match option with
  | OUTPUT_COMPRESS =>
      Ok ({| eo_uridata := eo_uridata out; eo_file := eo_file out; eo_compress_type := eo_compress_type out;
             eo_level := value; eo_flag := eo_flag out; eo_err := eo_err out |}, 0)
  | OUTPUT_COMPRESSTYPE =>
      Ok ({| eo_uridata := eo_uridata out; eo_file := eo_file out; eo_compress_type := value;
             eo_level := eo_level out; eo_flag := eo_flag out; eo_err := eo_err out |}, 0)
  | OUTPUT_FILEFLAGS =>
      Ok ({| eo_uridata := eo_uridata out; eo_file := eo_file out; eo_compress_type := eo_compress_type out;
             eo_level := eo_level out; eo_flag := value; eo_err := eo_err out |}, 0)
  | OUTPUT_OTHER =>
      let! err := trace_set_err_out TRACE_ERR_UNKNOWN_OPTION in Ok (eo_set out (eo_file out) err, -1)
  end.

Definition erf_start_output (out : erf_out) : outcome (erf_out * Z) :=
  let! ' (file, err) := trace_open_file_out (eo_uridata out) (eo_compress_type out) (eo_level out) (eo_flag out) in
  Ok (eo_set out file (default (eo_err out) err), match file with Some _ => 0 | None => -1 end).

(** [header] is the framing header, [bs] the captured bytes; the header after the
    call, and the number of bytes written. *)
Definition erf_dump_packet (out : erf_out) (file : iow_t) (header bs : list Z)
  : outcome (erf_out * list Z * Z) :=
  let framinglen := Zlen header in
  let caplen := Zlen bs in
  let! rlen := erf_rlen header in
  let! header := if negb (caplen + framinglen =? rlen)
                 then store header 10 (bytes16 (htons (u16 (caplen + framinglen)))) else Ok header in
  let fail file :=
    let! err := trace_set_err_out (errno_write file) in Ok (eo_set out (Some file) err, header, -1) in
  let '(file, numbytes) := wandio_wwrite file header in
  if negb (numbytes =? framinglen) then fail file
  else
    let '(file, numbytes) := wandio_wwrite file bs in
    if negb (numbytes =? caplen) then fail file
    else Ok (eo_set out (Some file) (eo_err out), header, numbytes + framinglen).

(** Simpler forms of the packet are tried until one has an ERF type; [None]: there
    is none.  A demoted packet has a simpler link type, so three rounds are enough. *)
Fixpoint find_compatible_linktype (fuel : nat) (tr : packet_trace) (o : packet_obj)
  : outcome (packet_trace * packet_obj * bool) :=
  let '(p, linktype) := trace_get_link_type (tr_format tr) (o_pkt o) in
  let o := o_set_pkt o p in
  if negb (libtrace_to_erf_type linktype =? 255) then Ok (tr, o, true)
  else
    match fuel with
    | O => Fault OutOfFuel
    | S fuel' =>
        let! ' (tr, o, simpler) := demote_packet tr o in
        if negb simpler then Ok (tr, o, false) else find_compatible_linktype fuel' tr o
    end.

(** [pk_payload] bytes of the packet; nothing is read for a length of 0. *)
Definition payload_bytes (o : packet_obj) (n : Z) : outcome (list Z) :=
  if n =? 0 then Ok []
  else if o_payload o then slice (pk_mem (o_pkt o)) (pk_payload (o_pkt o)) n else Fault NullDeref.

(** The new header of a packet from another format; the flags are set to 1 by
    [memset] and get the direction [dir], if it is known; [garbage] is what the
    local variable holds behind the header. *)
Definition erf_new_header (ts type dir rlen wlen : Z) (garbage : list Z) : list Z :=
  let flags := if dir =? -1 then 1 else Z.lor (Z.ldiff 1 3) (Z.land dir 3) in
  bytes64 ts ++ [type; flags] ++ bytes16 (htons (u16 rlen)) ++ bytes16 0 ++ bytes16 (htons (u16 wlen)) ++
  (if type =? TYPE_ETH then garbage else []).

(** [is_erf]: the trace of the packet is of the ERF format; [dir]: its direction.
    The padding is computed a second time after the search for a link type, but
    that value is not used. *)
Definition erf_write_packet (out : erf_out) (tr : packet_trace) (o : packet_obj) (is_erf : bool) (dir : Z)
    (garbage : list Z) : outcome (erf_out * packet_trace * packet_obj * Z) :=
  match eo_file out with
  | None => Fault AssertFailed
  | Some file =>
      let '(p, linktype) := trace_get_link_type (tr_format tr) (o_pkt o) in
      let o := o_set_pkt o p in
      if bool_decide (linktype = TRACE_TYPE_NONDATA) then Ok (out, tr, o, 0)
      else if negb (o_header o) then Ok (out, tr, o, -1)
      else
        let! ' (p, pad) := erf_get_padding is_erf (tr_format tr) p in
        let! header := if o_payload o then Ok (pk_header p)
                       else store (pk_header p) 10 (bytes16 (htons (dag_record_size + pad))) in
        let p := pk_set_header p header in
        let o := o_set_pkt o p in
        if pk_type p =? TRACE_RT_DATA_ERF then
          let framing := trace_get_framing_length (tr_format tr) p in
          let! ' (p, caplen) := trace_get_capture_length (tr_format tr) p in
          let! bs := payload_bytes o caplen in
          let! hd := slice (packet_bytes p) 0 framing in
          let! ' (out, hd, ret) := erf_dump_packet out file hd bs in
          let! bytes := store (packet_bytes p) 0 hd in
          Ok (out, tr, o_set_pkt o (pk_set_header p (take (length header) bytes)), ret)
        else
          let! ts := trace_get_erf_timestamp (tr_time tr) p in
          let! ' (tr, o, compatible) := find_compatible_linktype 3 tr o in
          if negb compatible then
            let! err := trace_set_err_out TRACE_ERR_NO_CONVERSION in
            Ok (eo_set out (Some file) err, tr, o, -1)
          else
            let '(p, linktype) := trace_get_link_type (tr_format tr) (o_pkt o) in
            let type := libtrace_to_erf_type linktype in
            let! ' (p, caplen) := trace_get_capture_length (tr_format tr) p in
            let! _ := oassert ((0 <? caplen) && (caplen <=? 65536)) in
            let! _ := oassert (trace_get_framing_length (tr_format tr) p <=? 65536) in
            let framing := if type =? TYPE_ETH then dag_record_size + 2 else dag_record_size in
            let rlen := caplen + framing in
            let! _ := oassert ((0 <? rlen) && (rlen <=? 65536)) in
            let! ' (p, wlen) := trace_get_wire_length (tr_format tr) p in
            let o := o_set_pkt o p in
            let! bs := payload_bytes o caplen in
            let! ' (out, _, ret) := erf_dump_packet out file (erf_new_header ts type dir rlen wlen garbage) bs in
            Ok (out, tr, o, ret)
  end.
End io.

(** ** Seeking: the search of [erf_fast_seek_start]

    The index is a list of timestamps and offsets; reading behind its end leaves
    the local [record] as it was.  The search stops at an entry with the time
    asked for or when [min_off] has reached [max_off]. *)
Record erf_index_t := { ix_timestamp : Z; ix_offset : Z }.

Definition index_read (index : list erf_index_t) (current : Z) (record : erf_index_t) : erf_index_t :=
  default record (index !! Z.to_nat current).

Fixpoint fast_seek_search (fuel : nat) (index : list erf_index_t) (erfts min_off max_off : Z) (record : erf_index_t)
  : outcome (Z * erf_index_t) :=
  match fuel with
  | O => Fault OutOfFuel
  | S fuel' =>
      let current := Z.shiftr (u64 (max_off + min_off)) 2 in
      let record := index_read index current record in
      let min_off := if ix_timestamp record <? erfts then current else min_off in
      let max_off := if erfts <? ix_timestamp record then current else max_off in
      if ix_timestamp record =? erfts then Ok (current, record)
      else if min_off <? max_off then fast_seek_search fuel' index erfts min_off max_off record
      else Ok (current, record)
  end.

(** ** Theorems *)

(** The search halves the sum twice: if every entry of the index is before the
    time asked for, it never ends, whatever the size of the index. *)
Theorem fast_seek_diverges index erfts n record fuel :
  0 < n < 2 ^ 62 → n ≤ Zlen index → Forall (λ e, ix_timestamp e < erfts) index →
  fast_seek_search fuel index erfts 0 n record = Fault OutOfFuel.
Proof.
  intros Hn Hlen Hall. assert (∀ m record, 0 ≤ m → 3 * m ≤ n →
    fast_seek_search fuel index erfts m n record = Fault OutOfFuel) as H; [|apply H; lia].
  induction fuel as [|fuel IH]; intros m r Hm Hm3; [done|]. cbn [fast_seek_search].
  rewrite u64_small, Z.shiftr_div_pow2 by lia. change (2 ^ 2) with 4.
  set (c := (n + m) / 4). assert (0 ≤ c ∧ 3 * c ≤ n ∧ c < Zlen index) as (Hc0 & Hc3 & Hcl).
  { unfold c. split_and!; [apply Z.div_pos; lia|..]; Z.to_euclidean_division_equations; lia. }
  unfold index_read. destruct (lookup_lt_is_Some_2 index (Z.to_nat c)) as [e He]; [unfold Zlen in *; lia|].
  rewrite He. cbn [default]. unfold id. pose proof (Forall_lookup_1 _ _ _ _ Hall He) as Hlt. cbn beta in Hlt.
  rewrite (proj2 (Z.ltb_lt _ _) Hlt), (proj2 (Z.ltb_ge erfts _)), (proj2 (Z.eqb_neq _ _)) by lia.
  rewrite (proj2 (Z.ltb_lt c n)) by lia. by apply IH.
Qed.

Lemma fast_seek_diverges_witness :
  fast_seek_search 1000 [{| ix_timestamp := 10; ix_offset := 0 |}; {| ix_timestamp := 20; ix_offset := 64 |}] 30 0 2
    {| ix_timestamp := 0; ix_offset := 0 |} = Fault OutOfFuel.
Proof.
  apply (fast_seek_diverges [{| ix_timestamp := 10; ix_offset := 0 |}; {| ix_timestamp := 20; ix_offset := 64 |}] 30 2).
  - lia.
  - done.
  - by repeat constructor.
Defined.

(** ** Records *)
Definition erf_header (ts type flags rlen lctr wlen : Z) : list Z :=
  bytes64 ts ++ [type; flags] ++ bytes16 (htons rlen) ++ bytes16 (htons lctr) ++ bytes16 (htons wlen).

Lemma be16_field pre v post : 0 ≤ v < 2 ^ 16 → be16 (pre ++ bytes16 (htons v) ++ post) (Zlen pre) = Ok v.
Proof.
  intros Hv. unfold be16. rewrite read16_bytes16 by (by apply byteswap16_range). cbn [obind]. by rewrite ntohs_htons.
Qed.

Section header.
Context (ts type flags rlen lctr wlen : Z) (rest : list Z).
Context (Hts : 0 ≤ ts < 2 ^ 64) (Hr : 0 ≤ rlen < 2 ^ 16) (Hl : 0 ≤ lctr < 2 ^ 16) (Hw : 0 ≤ wlen < 2 ^ 16).
Local Abbreviation b := (erf_header ts type flags rlen lctr wlen ++ rest).

Lemma erf_ts_ok : erf_ts b = Ok ts.
Proof using Hts. unfold erf_ts, erf_header. rewrite <- !app_assoc. by apply (read64_bytes64 []). Qed.

Lemma erf_type_ok : erf_type b = Ok type.
Proof. unfold erf_type, read8, erf_header. rewrite <- !app_assoc. change 8 with (Zlen (bytes64 ts)). apply aget_app_at. Qed.

Lemma erf_flags_ok : erf_flags b = Ok flags.
Proof.
  unfold erf_flags, read8, erf_header. rewrite <- !app_assoc. cbn [app].
  change (bytes64 ts ++ type :: ?l) with (bytes64 ts ++ [type] ++ l). rewrite app_assoc.
  change 9 with (Zlen (bytes64 ts ++ [type])). apply aget_app_at.
Qed.

Lemma erf_rlen_ok : erf_rlen b = Ok rlen.
Proof using Hr.
  unfold erf_rlen, erf_header. rewrite <- !app_assoc, (app_assoc (bytes64 ts)).
  change 10 with (Zlen (bytes64 ts ++ [type; flags])). by apply be16_field.
Qed.

Lemma erf_lctr_ok : erf_lctr b = Ok lctr.
Proof using Hl.
  unfold erf_lctr, erf_header. rewrite <- !app_assoc, (app_assoc (bytes64 ts)), (app_assoc (bytes64 ts ++ _)).
  change 12 with (Zlen ((bytes64 ts ++ [type; flags]) ++ bytes16 (htons rlen))). by apply be16_field.
Qed.

Lemma erf_wlen_ok : erf_wlen b = Ok wlen.
Proof using Hw.
  unfold erf_wlen, erf_header.
  rewrite <- !app_assoc, (app_assoc (bytes64 ts)), (app_assoc (bytes64 ts ++ _)), (app_assoc ((bytes64 ts ++ _) ++ _)).
  change 14 with (Zlen (((bytes64 ts ++ [type; flags]) ++ bytes16 (htons rlen)) ++ bytes16 (htons lctr))).
  by apply be16_field.
Qed.

Lemma erf_padding_ok : erf_padding b =
  Ok (if (Z.land type 0x7f =? TYPE_ETH) || (Z.land type 0x7f =? TYPE_DSM_COLOR_ETH) then 2 else 0).
Proof. unfold erf_padding. by rewrite erf_type_ok. Qed.

(** Without extension headers. *)
Lemma erf_framing_ok : Z.land type 0x80 ≠ 0x80 → erf_framing b = Ok (dag_record_size +
  (if (Z.land type 0x7f =? TYPE_ETH) || (Z.land type 0x7f =? TYPE_DSM_COLOR_ETH) then 2 else 0)).
Proof.
  intros Ht. unfold erf_framing. rewrite erf_type_ok. cbn [obind]. rewrite (proj2 (Z.eqb_neq _ _) Ht). cbn [obind].
  by rewrite erf_padding_ok.
Qed.
End header.

(** The time of a record, in microseconds. *)
Definition erf_timeval (ts : Z) : timeval :=
  let '(sec, usec) := split_erf ts 1000000 in {| tv_sec := sec; tv_usec := usec |}.

Definition pad_size (type : Z) : Z := if type =? TYPE_ETH then 2 else 0.

(** The types that the writer uses. *)
Lemma erf_type_used lt type : libtrace_to_erf_type lt = type → type ≠ 255 →
  Z.land type 0x80 ≠ 0x80 ∧ Z.land type 0x7f = type ∧ type ≠ TYPE_LEGACY ∧ type < TYPE_RAW_LINK ∧
  (if (type =? TYPE_ETH) || (type =? TYPE_DSM_COLOR_ETH) then 2 else 0) = pad_size type ∧
  type ≠ TYPE_DSM_COLOR_ETH ∧ erf_type_to_libtrace type = lt ∧ lt ≠ TRACE_TYPE_NONDATA.
Proof. intros <- H. destruct lt; by try done. Qed.

Lemma no_rxerror flags : 0 ≤ flags < 16 → rxerror flags = false.
Proof. intros H. unfold rxerror. apply Z.bits_above_log2; [lia|]. destruct (Z.eq_dec flags 0) as [->|]; [done|]. apply Z.log2_lt_pow2; lia. Qed.

(** A packet whose buffer holds a record with the bytes [bs]: its capture length is
    limited by the wire length. *)
Lemma describes_erf lt type ts flags lctr wire p pad bs tail :
  libtrace_to_erf_type lt = type → type ≠ 255 → 0 ≤ ts < 2 ^ 64 → 0 ≤ flags < 16 → 0 ≤ lctr < 2 ^ 16 →
  0 ≤ wire < LIBTRACE_PACKET_BUFSIZE → Zlen pad = pad_size type →
  dag_record_size + pad_size type + Zlen bs < LIBTRACE_PACKET_BUFSIZE →
  pk_header p = erf_header ts type flags (dag_record_size + pad_size type + Zlen bs) lctr wire ++ pad →
  pk_mem p = bs ++ tail → pk_payload p = 0 →
  pk_link_type p = None → pk_capture_length p = -1 → pk_wire_length p = -1 →
  describes erf_packet_trace p lt (erf_timeval ts) (take (Z.to_nat wire) bs) wire ∧
  ∀ p', same_data p p' → trace_get_erf_timestamp erf_time p' = Ok ts.
Proof.
  intros Ht Hne Hts Hfl Hlc Hw Hpad Hlen Eh Em Ep El Ec Ew. set (rlen := dag_record_size + pad_size type + Zlen bs) in *.
  destruct (erf_type_used lt type Ht Hne) as (Hext & Hmask & Hleg & Hraw & Hps & Hdsm & Hback & _).
  pose proof (Zlen_nonneg bs). assert (0 ≤ pad_size type ≤ 2) as Hp2 by (unfold pad_size; destruct (type =? _); lia).
  change (2 ^ 16) with 65536 in *. assert (0 ≤ rlen < 65536) as Hr by lia.
  assert (∀ p', same_data p p' → packet_bytes p' = erf_header ts type flags rlen lctr wire ++ pad ++ bs ++ tail) as Hb.
  { intros p' (E1 & E2 & _). unfold packet_bytes. by rewrite E1, E2, Eh, Em, <- app_assoc. }
  assert (Zlen (take (Z.to_nat wire) bs) = Z.min wire (Zlen bs)) as Htk.
  { unfold Zlen. rewrite length_take. lia. }
  split; [split; cbn [tr_format tr_time erf_packet_trace erf_format f_get_link_type f_get_capture_length f_get_wire_length erf_lengths]|].
  - eexists. split; [done|]. intros p' Hs. unfold erf_get_link_type. rewrite (Hb p' Hs), erf_type_ok. cbn [obind].
    rewrite Hmask, (proj2 (Z.eqb_neq _ _) Hleg). cbn [negb ok_or]. done.
  - by left.
  - eexists. split; [done|]. intros p' Hs. unfold erf_get_capture_length, erf_has_payload, erf_get_framing_length.
    rewrite (Hb p' Hs), erf_flags_ok, no_rxerror by done. cbn [negb]. rewrite erf_rlen_ok by done. cbn [obind].
    rewrite erf_framing_ok by done. cbn [obind]. rewrite erf_wlen_ok by done. cbn [obind ok_or]. rewrite Hmask, Hps.
    replace (rlen - (dag_record_size + pad_size type)) with (Zlen bs) by lia. rewrite i32_small, Htk by lia.
    destruct (Z.ltb_spec wire (Zlen bs)); lia.
  - by left.
  - lia.
  - eexists. split; [done|]. intros p' Hs. unfold erf_get_wire_length. by rewrite (Hb p' Hs), erf_wlen_ok.
  - by left.
  - done.
  - intros p' Hs. unfold trace_get_timeval, erf_time. cbn [tf_get_timeval tf_get_erf_timestamp].
    unfold erf_get_erf_timestamp. rewrite (Hb p' Hs), erf_ts_ok by done. cbn [ok_or]. unfold erf_timeval.
    by destruct (split_erf ts 1000000).
  - rewrite Em, Ep, slice_ok by (rewrite ?Zlen_app; pose proof (Zlen_nonneg tail); lia).
    change (Z.to_nat 0) with O. rewrite drop_0. f_equal. rewrite Htk.
    rewrite take_app_le by (unfold Zlen in *; lia).
    destruct (Z.le_gt_cases wire (Zlen bs)); [by rewrite Z.min_l|].
    rewrite Z.min_r by lia. rewrite !take_ge; [done|unfold Zlen in *; lia..].
  - intros p' Hs. unfold trace_get_erf_timestamp, erf_time. cbn [tf_get_erf_timestamp].
    unfold erf_get_erf_timestamp. by rewrite (Hb p' Hs), erf_ts_ok.
Qed.

(** ** Reading a record *)
Section reading.
Context {W : Wandio} {WF : WandioFile W}.

(** Reading the first [n] bytes of a file into a buffer. *)
Lemma read_into io n buf hd rest off :
  io_rest io = hd ++ rest → Zlen hd = n → 0 ≤ off → off + n ≤ Zlen buf →
  ∃ io', wandio_read io n = (io', hd, n) ∧ io_rest io' = rest ∧
    store buf off hd = Ok (take (Z.to_nat off) buf ++ hd ++ drop (Z.to_nat (off + n)) buf).
Proof using WF.
  intros Hio Hn Ho Hb. pose proof (Zlen_nonneg hd). destruct (wandio_read_spec io n) as (io' & E & Hr); [lia|].
  rewrite Hio in *. exists io'. rewrite E, Hr. rewrite take_app_length', drop_app_length' by (unfold Zlen in *; lia).
  split_and!; [|done|].
  - rewrite Zlen_app, Hn. pose proof (Zlen_nonneg rest). by rewrite Z.min_l by lia.
  - by rewrite store_app, Hn by lia.
Qed.

Context (fresh : list Z) (Hfresh : Zlen fresh = LIBTRACE_PACKET_BUFSIZE).

Lemma erf_read_record t o io lt type ts flags lctr wire pad bs rest :
  et_io t = Some io → buffer_ok o →
  libtrace_to_erf_type lt = type → type ≠ 255 → 0 ≤ ts < 2 ^ 64 → 0 ≤ flags < 16 → 0 ≤ lctr < 2 ^ 16 →
  0 ≤ wire < LIBTRACE_PACKET_BUFSIZE → Zlen pad = pad_size type →
  dag_record_size + pad_size type + Zlen bs < LIBTRACE_PACKET_BUFSIZE →
  let rlen := dag_record_size + pad_size type + Zlen bs in
  io_rest io = erf_header ts type flags rlen lctr wire ++ (pad ++ bs) ++ rest →
  ∃ t' o' io', erf_read_packet fresh t (o_clear o) = Ok (t', o', rlen) ∧ et_io t' = Some io' ∧ io_rest io' = rest ∧
    et_drops t' = u64 (et_drops t + lctr) ∧ buffer_ok o' ∧
    describes erf_packet_trace (o_pkt o') lt (erf_timeval ts) (take (Z.to_nat wire) bs) wire ∧
    trace_get_erf_timestamp erf_time (o_pkt o') = Ok ts.
Proof using Hfresh WF.
  intros Hio Hbuf Ht Hne Hts Hfl Hlc Hw Hpad Hlen rlen Hrest.
  destruct (erf_type_used lt type Ht Hne) as (Hext & Hmask & Hleg & Hraw & Hps & Hdsm & Hback & _).
  assert (0 ≤ pad_size type ≤ 2) as Hp2 by (unfold pad_size; destruct (type =? _); lia).
  pose proof (Zlen_nonneg bs). change (2 ^ 16) with 65536 in *. assert (16 ≤ rlen < 65536) as Hr by lia.
  unfold erf_read_packet. rewrite Hio. change (o_bytes (o_clear o)) with (o_bytes o).
  cbn [o_buffer o_buf_control o_clear o_set_pkt].
  pose proof (current_buffer fresh Hfresh o Hbuf) as Hb0. set (b0 := if negb (o_buffer o) || _ then fresh else o_bytes o) in *.
  set (hd := erf_header ts type flags rlen lctr wire) in *.
  destruct (read_into io dag_record_size b0 hd ((pad ++ bs) ++ rest) 0) as (io1 & -> & Hio1 & ->); [done|done|lia|lia|].
  cbn [obind]. change (take (Z.to_nat 0) b0) with (@nil Z). cbn [app]. change (Z.to_nat (0 + dag_record_size)) with 16%nat.
  cbn [Z.eqb Z.ltb Z.compare Pos.compare Pos.compare_cont].
  assert (∀ l, erf_rlen (hd ++ l) = Ok rlen) as Erl by (intros l; apply erf_rlen_ok; change (2 ^ 16) with 65536; lia).
  rewrite Erl. cbn [obind].
  assert (u32 (rlen - dag_record_size) = Zlen (pad ++ bs)) as ->.
  { rewrite Zlen_app, Hpad, u32_small by lia. lia. }
  assert (0 ≤ Zlen (pad ++ bs) ∧ dag_record_size + Zlen (pad ++ bs) = rlen) as [Hpb Hrl] by (rewrite Zlen_app, Hpad; lia).
  rewrite (proj2 (Z.leb_gt _ (Zlen (pad ++ bs)))) by lia. unfold hd at 1. rewrite erf_type_ok. cbn [obind].
  rewrite Hmask, (proj2 (Z.leb_gt _ type)) by lia.
  set (tail := drop 16 b0). assert (Zlen tail = 65536 - 16) as Htail.
  { unfold tail, Zlen in *. rewrite length_drop. lia. }
  destruct (read_into io1 (Zlen (pad ++ bs)) (hd ++ tail) (pad ++ bs) rest dag_record_size) as (io2 & -> & Hio2 & ->);
    [done|done|lia|rewrite (Zlen_app hd), Htail; change (Zlen hd) with 16; lia|].
  cbn [obind]. change (Z.to_nat dag_record_size) with (length hd). rewrite take_app_length.
  replace (Z.to_nat (dag_record_size + Zlen (pad ++ bs))) with (length hd + length (pad ++ bs))%nat
    by (change (length hd) with 16%nat; unfold Zlen; lia).
  rewrite drop_app_add. rewrite Z.eqb_refl. cbn [negb]. set (tl := drop (length (pad ++ bs)) tail).
  rewrite <- (app_assoc pad). unfold erf_prepare_packet, hd. rewrite erf_flags_ok. cbn [obind]. rewrite no_rxerror by done.
  rewrite erf_framing_ok by done. cbn [obind]. fold hd. rewrite Erl. cbn [obind].
  rewrite (proj2 (Z.eqb_neq rlen 0)) by lia. cbn [negb oassert obind]. unfold hd. rewrite erf_type_ok. cbn [obind].
  rewrite erf_lctr_ok by done. cbn [obind]. rewrite Hmask, Hps, (proj2 (Z.eqb_neq _ _) Hdsm).
  fold hd. set (buf := hd ++ pad ++ bs ++ tl).
  assert (length (hd ++ pad) = Z.to_nat (dag_record_size + pad_size type)) as Hlp.
  { rewrite length_app. change (length hd) with 16%nat. unfold Zlen in Hpad. lia. }
  assert (buf = (hd ++ pad) ++ bs ++ tl) as Ebuf by (unfold buf; by rewrite <- app_assoc).
  do 3 eexists. split; [done|]. split; [done|]. split; [done|]. split; [done|].
  split; [right; right|].
  - unfold o_bytes. cbn [o_pkt pk_header pk_mem pk_set_buffer]. rewrite take_drop, Ebuf, !Zlen_app, Hpad.
    change (Zlen hd) with 16. unfold tl, Zlen in *. rewrite length_drop, length_app. lia.
  - cbn [o_pkt]. destruct (describes_erf lt type ts flags lctr wire
      (pk_set_buffer (o_pkt (o_clear o)) buf (dag_record_size + pad_size type) TRACE_RT_DATA_ERF) pad bs tl) as [D T];
      try done.
    + cbn [pk_set_buffer pk_header]. rewrite Ebuf, <- Hlp. apply take_app_length.
    + cbn [pk_set_buffer pk_mem]. rewrite Ebuf, <- Hlp. apply drop_app_length.
    + split; [exact D|]. apply T, same_data_refl.
Qed.
End reading.

(** ** Writing a record *)

(** A packet of another format, with what the writer needs besides: its ERF
    timestamp, its direction, and the uninitialised bytes that become its padding. *)
Record erf_source := {
  es_cap : captured;
  es_ts : Z;
  es_dir : Z;
  es_garbage : list Z;
}.

Definition es_obj (s : erf_source) : packet_obj := cp_obj (es_cap s).
Definition es_trace (s : erf_source) : packet_trace := cp_trace (es_cap s).
Definition es_bytes (s : erf_source) : list Z := cp_bytes (es_cap s).

Definition erf_storable (lt : libtrace_linktype_t) (s : erf_source) : Prop :=
  describes (es_trace s) (o_pkt (es_obj s)) lt (cp_time (es_cap s)) (es_bytes s) (cp_wire (es_cap s)) ∧
  (∀ p', same_data (o_pkt (es_obj s)) p' → trace_get_erf_timestamp (tr_time (es_trace s)) p' = Ok (es_ts s)) ∧
  (∀ p', same_data (o_pkt (es_obj s)) p' → trace_get_framing_length (tr_format (es_trace s)) p' ≤ 65536) ∧
  0 ≤ es_ts s < 2 ^ 64 ∧ libtrace_to_erf_type lt ≠ 255 ∧ Zlen (es_garbage s) = 2 ∧
  o_header (es_obj s) = true ∧ o_payload (es_obj s) = true ∧ pk_type (o_pkt (es_obj s)) ≠ TRACE_RT_DATA_ERF ∧
  0 < Zlen (es_bytes s) ∧ dag_record_size + 2 + Zlen (es_bytes s) < LIBTRACE_PACKET_BUFSIZE.

Definition es_flags (s : erf_source) : Z := if es_dir s =? -1 then 1 else Z.lor (Z.ldiff 1 3) (Z.land (es_dir s) 3).
Definition es_pad (lt : libtrace_linktype_t) (s : erf_source) : list Z :=
  if libtrace_to_erf_type lt =? TYPE_ETH then es_garbage s else [].

Definition erf_record (lt : libtrace_linktype_t) (s : erf_source) : list Z :=
  let type := libtrace_to_erf_type lt in
  erf_header (es_ts s) type (es_flags s) (dag_record_size + pad_size type + Zlen (es_bytes s)) 0 (cp_wire (es_cap s)) ++
  es_pad lt s ++ es_bytes s.

Lemma es_flags_range s : 0 ≤ es_flags s < 16.
Proof.
  unfold es_flags. destruct (es_dir s =? -1); [lia|]. change (Z.ldiff 1 3) with 0. rewrite Z.lor_0_l.
  change 3 with (2 ^ 2 - 1). rewrite land_ones_mod by lia. pose proof (Z.mod_pos_bound (es_dir s) (2 ^ 2)). lia.
Qed.

Lemma Zlen_es_pad lt s : erf_storable lt s → Zlen (es_pad lt s) = pad_size (libtrace_to_erf_type lt).
Proof. intros (_ & _ & _ & _ & _ & Hg & _). unfold es_pad, pad_size. by destruct (libtrace_to_erf_type lt =? TYPE_ETH). Qed.

Section writing.
Context {W : Wandio} {WF : WandioFile W}.

Lemma erf_write_record out file lt s :
  eo_file out = Some file → erf_storable lt s →
  ∃ out' o' file', erf_write_packet out (es_trace s) (es_obj s) false (es_dir s) (es_garbage s)
      = Ok (out', es_trace s, o', Zlen (erf_record lt s)) ∧
    eo_file out' = Some file' ∧ iow_bytes file' = iow_bytes file ++ erf_record lt s.
Proof using WF.
  intros Hf St. pose proof (Zlen_es_pad lt s St) as Hpad. pose proof (es_flags_range s) as Hfl.
  destruct St as (D & Hts & Hfr & Htr & Hne & Hg & Hh & Hp & Hty & Hlen).
  set (type := libtrace_to_erf_type lt) in *. destruct (erf_type_used lt type eq_refl Hne) as (_ & _ & _ & _ & _ & _ & _ & Hnd).
  assert (0 ≤ pad_size type ≤ 2) as Hp2 by (unfold pad_size; destruct (type =? _); lia).
  unfold erf_write_packet. rewrite Hf. destruct (get_link_type_ok _ _ _ _ _ _ D) as (p1 & -> & S1 & D1).
  rewrite bool_decide_eq_false_2 by done. cbn [o_header o_payload o_set_pkt]. rewrite Hh, Hp. cbn [negb].
  unfold erf_get_padding. destruct (get_link_type_ok _ _ _ _ _ _ D1) as (p2 & -> & S2 & D2). cbn [obind].
  assert (pk_set_header p2 (pk_header p2) = p2) as -> by (by destruct p2).
  assert (same_data (o_pkt (es_obj s)) p2) as S02 by eauto using same_data_trans.
  assert (pk_type p2 = pk_type (o_pkt (es_obj s))) as -> by apply S02. rewrite (proj2 (Z.eqb_neq _ _) Hty).
  rewrite (Hts p2 S02). cbn [obind].
  cbn [find_compatible_linktype o_pkt o_set_pkt].
  destruct (get_link_type_ok _ _ _ _ _ _ D2) as (p3 & -> & S3 & D3). fold type. rewrite (proj2 (Z.eqb_neq _ _) Hne).
  cbn [negb obind o_pkt o_set_pkt]. destruct (get_link_type_ok _ _ _ _ _ _ D3) as (p4 & -> & S4 & D4). fold type.
  destruct (get_capture_length_ok _ _ _ _ _ _ D4) as (p5 & -> & S5 & D5). cbn [obind].
  rewrite (proj2 (Z.ltb_lt 0 _)), (proj2 (Z.leb_le _ 65536)) by lia. cbn [andb oassert obind].
  assert (same_data (o_pkt (es_obj s)) p5) as S05 by eauto 10 using same_data_trans.
  rewrite (proj2 (Z.leb_le _ _) (Hfr p5 S05)). cbn [oassert obind].
  set (framing := if type =? TYPE_ETH then dag_record_size + 2 else dag_record_size).
  assert (framing = dag_record_size + pad_size type) as Efr by (unfold framing, pad_size; destruct (type =? _); lia).
  rewrite Efr, (proj2 (Z.ltb_lt 0 (_ + _))), (proj2 (Z.leb_le (_ + _) 65536)) by lia. cbn [andb oassert obind].
  destruct (get_wire_length_ok _ _ _ _ _ _ D5) as (p6 & -> & S6 & D6). cbn [obind].
  unfold payload_bytes. rewrite (proj2 (Z.eqb_neq _ 0)) by lia. cbn [o_payload o_pkt o_set_pkt].
  rewrite Hp, (ds_bytes _ _ _ _ _ _ D6). cbn [obind].
  pose proof (ds_wire_range _ _ _ _ _ _ D) as Hw.
  set (rlen := dag_record_size + pad_size type + Zlen (es_bytes s)).
  assert (erf_new_header (es_ts s) type (es_dir s) (Zlen (es_bytes s) + (dag_record_size + pad_size type)) (cp_wire (es_cap s)) (es_garbage s)
    = erf_header (es_ts s) type (es_flags s) rlen 0 (cp_wire (es_cap s)) ++ es_pad lt s) as ->.
  { unfold erf_new_header, erf_header, es_pad, es_flags. fold type. rewrite !u16_small by lia.
    replace (Zlen (es_bytes s) + (dag_record_size + pad_size type)) with rlen by lia.
    rewrite <- !app_assoc. change (htons 0) with 0. done. }
  unfold erf_dump_packet. rewrite erf_rlen_ok by (change (2 ^ 16) with 65536; lia). cbn [obind].
  set (hd := erf_header (es_ts s) type (es_flags s) rlen 0 (cp_wire (es_cap s)) ++ es_pad lt s).
  assert (Zlen hd = dag_record_size + pad_size type) as Hhd by (unfold hd; rewrite Zlen_app, Hpad; done).
  rewrite Hhd, (proj2 (Z.eqb_eq _ rlen)) by lia. cbn [negb obind].
  destruct (wandio_wwrite_spec file hd) as (f1 & -> & Hb1). rewrite Hhd, Z.eqb_refl. cbn [negb].
  destruct (wandio_wwrite_spec f1 (es_bytes s)) as (f2 & -> & Hb2). rewrite Z.eqb_refl. cbn [negb obind].
  assert (Zlen (es_bytes s) + (dag_record_size + pad_size type) = Zlen (erf_record lt s)) as ->.
  { unfold erf_record. rewrite app_assoc, Zlen_app. fold type rlen hd. lia. }
  do 3 eexists. split; [done|]. split; [done|]. rewrite Hb2, Hb1. unfold erf_record. fold type rlen. rewrite <- !app_assoc. unfold hd. by rewrite <- !app_assoc.
Qed.
End writing.

(** ** Whole files *)
Section whole.
Context {W : Wandio} {WF : WandioFile W}.

Fixpoint erf_write_packets (out : erf_out) (ss : list erf_source) : outcome erf_out :=
  match ss with
  | [] => Ok out
  | s :: ss' =>
      let! ' (out, _, _, ret) := erf_write_packet out (es_trace s) (es_obj s) false (es_dir s) (es_garbage s) in
      let! _ := oassert (0 <? ret) in
      erf_write_packets out ss'
  end.

Fixpoint erf_read_packets (fresh : list Z) (fuel : nat) (t : erf_trace) (o : packet_obj)
  : outcome (list libtrace_packet_t * Z) :=
  match fuel with
  | O => Fault OutOfFuel
  | S fuel' =>
      let! ' (t, o, ret) := erf_read_packet fresh t (o_clear o) in
      if ret <=? 0 then Ok ([], ret)
      else
        let! ' (ps, last) := erf_read_packets fresh fuel' t o in
        Ok (o_pkt o :: ps, last)
  end.

Lemma erf_read_packets_step fresh n t o :
  erf_read_packets fresh (S n) t o =
  (let! ' (t, o, ret) := erf_read_packet fresh t (o_clear o) in
   if ret <=? 0 then Ok ([], ret)
   else let! ' (ps, last) := erf_read_packets fresh n t o in Ok (o_pkt o :: ps, last)).
Proof. done. Qed.

(** Each packet of the file has its own link type. *)
Definition erf_records (ls : list (libtrace_linktype_t * erf_source)) : list Z :=
  concat (map (λ ls, erf_record ls.1 ls.2) ls).

Lemma erf_write_packets_ok ls : ∀ out file,
  Forall (λ ls, erf_storable ls.1 ls.2) ls → eo_file out = Some file →
  ∃ out' file', erf_write_packets out (map snd ls) = Ok out' ∧ eo_file out' = Some file' ∧
    iow_bytes file' = iow_bytes file ++ erf_records ls.
Proof using WF.
  induction ls as [|[lt s] ls IH]; intros out file Hls Hf; cbn [map erf_write_packets].
  - exists out, file. by rewrite app_nil_r.
  - apply Forall_cons in Hls as [Hs Hls]. cbn [fst snd] in *.
    destruct (erf_write_record out file lt s Hf Hs) as (out1 & o1 & f1 & -> & Hf1 & Hb1). cbn [obind].
    rewrite (proj2 (Z.ltb_lt 0 _)).
    2:{ destruct Hs as (_ & _ & _ & _ & _ & _ & _ & _ & _ & Hlen & _). unfold erf_record. rewrite !Zlen_app.
        pose proof (Zlen_nonneg (erf_header (es_ts s) (libtrace_to_erf_type lt) (es_flags s)
          (dag_record_size + pad_size (libtrace_to_erf_type lt) + Zlen (es_bytes s)) 0 (cp_wire (es_cap s)))).
        pose proof (Zlen_nonneg (es_pad lt s)). lia. }
    cbn [oassert obind]. destruct (IH out1 f1 Hls Hf1) as (out' & file' & -> & Hf' & Hb').
    exists out', file'. split_and!; try done. rewrite Hb', Hb1, <- app_assoc. done.
Qed.

Lemma erf_read_eof fresh t o io : Zlen fresh = LIBTRACE_PACKET_BUFSIZE → buffer_ok o →
  et_io t = Some io → io_rest io = [] → ∃ t' o', erf_read_packet fresh t (o_clear o) = Ok (t', o', 0).
Proof using WF.
  intros Hfresh Hbuf Hio Hrest. unfold erf_read_packet. rewrite Hio.
  destruct (wandio_read_spec io dag_record_size) as (io1 & -> & _); [lia|]. rewrite Hrest.
  change (o_bytes (o_clear o)) with (o_bytes o). cbn [o_buffer o_buf_control o_clear o_set_pkt].
  pose proof (current_buffer fresh Hfresh o Hbuf) as Hb0. rewrite take_nil.
  rewrite store_app by (change (Zlen (@nil Z)) with 0; lia). cbn [obind].
  change (Z.min dag_record_size (Zlen (@nil Z))) with 0. by do 2 eexists.
Qed.

(** What is expected of a packet read back. *)
Definition erf_same (ls : libtrace_linktype_t * erf_source) (p : libtrace_packet_t) : Prop :=
  let c := es_cap ls.2 in
  describes erf_packet_trace p ls.1 (erf_timeval (es_ts ls.2)) (take (Z.to_nat (cp_wire c)) (cp_bytes c)) (cp_wire c) ∧
  trace_get_erf_timestamp erf_time p = Ok (es_ts ls.2).

Lemma erf_read_packets_ok fresh ls : Zlen fresh = LIBTRACE_PACKET_BUFSIZE → ∀ t o io,
  Forall (λ ls, erf_storable ls.1 ls.2) ls → et_io t = Some io → buffer_ok o → io_rest io = erf_records ls →
  ∃ ps, erf_read_packets fresh (S (length ls)) t o = Ok (ps, 0) ∧ Forall2 erf_same ls ps.
Proof using WF.
  intros Hfresh. induction ls as [|[lt s] ls IH]; intros t o io Hls Hio Hbuf Hrest.
  - cbn [length erf_read_packets]. destruct (erf_read_eof fresh t o io Hfresh Hbuf Hio Hrest) as (t' & o' & ->).
    cbn [obind]. by exists [].
  - apply Forall_cons in Hls as [Hs Hls]. cbn [fst snd] in Hs. unfold erf_records in Hrest. cbn [map concat fst snd] in Hrest.
    unfold erf_record in Hrest. rewrite <- !(app_assoc (erf_header _ _ _ _ _ _)) in Hrest.
    pose proof (Zlen_es_pad lt s Hs) as Hpad. pose proof (es_flags_range s) as Hfl.
    pose proof Hs as (D & Hts & Hfr & Htr & Hne & Hg & Hh & Hp & Hty & Hlen).
    assert (0 ≤ pad_size (libtrace_to_erf_type lt) ≤ 2) as Hp2 by (unfold pad_size; destruct (_ =? _); lia).
    destruct (erf_read_record fresh Hfresh t o io lt (libtrace_to_erf_type lt) (es_ts s) (es_flags s) 0 (cp_wire (es_cap s))
      (es_pad lt s) (es_bytes s) (erf_records ls)) as (t' & o' & io' & Hrun & Hio' & Hrest' & _ & Hbuf' & D' & T');
      try done; [apply D|lia|].
    rewrite erf_read_packets_step, Hrun. cbn [obind length]. rewrite (proj2 (Z.leb_gt _ 0)) by lia.
    destruct (IH t' o' io' Hls Hio' Hbuf' Hrest') as (ps & -> & HF). cbn [obind].
    exists (o_pkt o' :: ps). split; [done|]. by constructor.
Qed.
End whole.

(** C9: Writing packets of any link types that ERF knows, from any other format, to an
    ERF file and reading the file gives back every packet, in order, with its link
    type, its full 64-bit ERF timestamp, its wire length and its captured bytes
    (not more than the wire length), and then the end of the file. *)
Theorem erf_roundtrip {W : Wandio} {WF : WandioFile W} ls out f0 :
  Forall (λ ls, erf_storable ls.1 ls.2) ls →
  0 ≤ eo_level out ≤ 9 → 0 ≤ eo_compress_type out < TRACE_OPTION_COMPRESSTYPE_LAST →
  wandio_wcreate (eo_uridata out) (eo_compress_type out) (eo_level out) (eo_flag out) = Some f0 → iow_bytes f0 = [] →
  ∃ out1 out' file, erf_start_output out = Ok (out1, 0) ∧ erf_write_packets out1 (map snd ls) = Ok out' ∧
    eo_file out' = Some file ∧
    ∀ io uri fresh o, io_rest io = iow_bytes file → Zlen fresh = LIBTRACE_PACKET_BUFSIZE → buffer_ok o →
    ∃ t ps, erf_start_input (erf_init_input uri (Some io)) = Ok (t, 0) ∧
      erf_read_packets fresh (S (length ls)) t o = Ok (ps, 0) ∧ Forall2 erf_same ls ps.
Proof.
  intros Hls Hl Hc Hcreate Hempty. unfold erf_start_output, trace_open_file_out.
  rewrite (proj2 (Z.ltb_ge (eo_level out) 0)), (proj2 (Z.ltb_ge 9 (eo_level out))) by lia.
  rewrite (proj2 (Z.ltb_ge (eo_compress_type out) 0)), (proj2 (Z.leb_gt _ (eo_compress_type out))) by lia.
  cbn [orb]. rewrite Hcreate. cbn [obind].
  destruct (erf_write_packets_ok ls (eo_set out (Some f0) (eo_err out)) f0 Hls eq_refl) as (out' & file & Hrun & Hf & Hb).
  eexists _, out', file. split; [done|]. split; [done|]. split; [done|].
  intros io uri fresh o Hio Hfresh Hbuf. rewrite Hb, Hempty in Hio.
  destruct (erf_read_packets_ok fresh ls Hfresh (erf_init_input uri (Some io)) o io Hls eq_refl Hbuf Hio) as (ps & Hps & HF).
  eexists _, ps. by split_and!.
Qed.

(** An Ethernet record whose length leaves no room for the padding is read without
    an error, but its capture length is negative, and looking at its bytes fails
    an assertion. *)
Theorem erf_short_record_fails {W : Wandio} {WF : WandioFile W} fresh t o io ts flags lctr wire rlen bs rest :
  Zlen fresh = LIBTRACE_PACKET_BUFSIZE → et_io t = Some io → buffer_ok o →
  0 ≤ ts < 2 ^ 64 → 0 ≤ flags < 16 → 0 ≤ lctr < 2 ^ 16 → 0 ≤ wire < 2 ^ 16 →
  rlen = 16 ∨ rlen = 17 → Zlen bs = rlen - dag_record_size →
  io_rest io = erf_header ts TYPE_ETH flags rlen lctr wire ++ bs ++ rest →
  ∃ t' o', erf_read_packet fresh t (o_clear o) = Ok (t', o', rlen) ∧
    trace_get_packet_buffer erf_format (o_pkt o') true = Fault AssertFailed.
Proof.
  intros Hfresh Hio Hbuf Hts Hfl Hlc Hw Hrl Hbs Hrest. change (2 ^ 16) with 65536 in *.
  unfold erf_read_packet. rewrite Hio. change (o_bytes (o_clear o)) with (o_bytes o).
  cbn [o_buffer o_buf_control o_clear o_set_pkt].
  pose proof (current_buffer fresh Hfresh o Hbuf) as Hb0. set (b0 := if negb (o_buffer o) || _ then fresh else o_bytes o) in *.
  set (hd := erf_header ts TYPE_ETH flags rlen lctr wire) in *.
  destruct (read_into io dag_record_size b0 hd (bs ++ rest) 0) as (io1 & -> & Hio1 & ->); [done|done|lia|lia|].
  cbn [obind]. change (take (Z.to_nat 0) b0) with (@nil Z). cbn [app]. change (Z.to_nat (0 + dag_record_size)) with 16%nat.
  cbn [Z.eqb Z.ltb Z.compare Pos.compare Pos.compare_cont].
  assert (∀ l, erf_rlen (hd ++ l) = Ok rlen) as Erl by (intros l; apply erf_rlen_ok; change (2 ^ 16) with 65536; lia).
  rewrite Erl. cbn [obind]. rewrite u32_small, <- Hbs by lia.
  rewrite (proj2 (Z.leb_gt _ (Zlen bs))) by lia. unfold hd at 1. rewrite erf_type_ok. cbn [obind].
  change (TYPE_RAW_LINK <=? Z.land TYPE_ETH 0x7f) with false. cbn iota.
  set (tail := drop 16 b0). assert (Zlen tail = 65536 - 16) as Htail.
  { unfold tail, Zlen in *. rewrite length_drop. lia. }
  destruct (read_into io1 (Zlen bs) (hd ++ tail) bs rest dag_record_size) as (io2 & -> & Hio2 & ->);
    [done|done|lia|rewrite (Zlen_app hd), Htail; change (Zlen hd) with 16; lia|].
  cbn [obind]. rewrite Z.eqb_refl. cbn [negb]. change (Z.to_nat dag_record_size) with (length hd). rewrite take_app_length.
  set (rest' := bs ++ drop _ (hd ++ tail)). unfold erf_prepare_packet, hd. rewrite erf_flags_ok. cbn [obind].
  rewrite no_rxerror by done. rewrite erf_framing_ok by done. cbn [obind]. fold hd. rewrite Erl. cbn [obind].
  rewrite (proj2 (Z.eqb_neq rlen 0)) by lia. cbn [negb oassert obind]. unfold hd. rewrite erf_type_ok. cbn [obind].
  rewrite erf_lctr_ok by done. cbn [obind]. fold hd.
  do 2 eexists. split; [done|]. cbn [o_pkt]. set (p := pk_set_buffer _ _ _ _).
  assert (packet_bytes p = hd ++ rest') as Hpb by (unfold packet_bytes, p; cbn [pk_header pk_mem pk_set_buffer]; apply take_drop).
  assert (∀ p', packet_bytes p' = hd ++ rest' → erf_get_capture_length (erf_has_payload p') p' = Ok (rlen - 18)) as Hcap.
  { intros p' E. unfold erf_get_capture_length, erf_has_payload, erf_get_framing_length. rewrite E. unfold hd.
    rewrite erf_flags_ok, no_rxerror by done. cbn [negb]. fold hd. rewrite Erl. cbn [obind]. unfold hd.
    rewrite erf_framing_ok by done. cbn [obind]. rewrite erf_wlen_ok by done. cbn [obind].
    change (dag_record_size + _) with 18. rewrite i32_small by lia. by rewrite (proj2 (Z.ltb_ge _ _)) by lia. }
  unfold trace_get_packet_buffer.
  destruct (trace_get_link_type erf_format p) as [p1 linktype] eqn:Elt.
  assert (packet_bytes p1 = hd ++ rest' ∧ pk_capture_length p1 = -1 ∧ pk_wire_length p1 = -1) as (Hpb1 & Hc1 & Hw1).
  { change p1 with (fst (p1, linktype)). rewrite <- Elt. rewrite <- Hpb. split_and!; reflexivity. }
  unfold trace_get_capture_length. rewrite Hc1. cbn [Z.eqb Pos.eqb]. cbn [erf_format f_get_capture_length erf_lengths].
  rewrite (Hcap p1 Hpb1). cbn [ok_or pk_capture_length pk_set_lengths]. rewrite i32_small by lia.
  rewrite (proj2 (Z.ltb_lt (rlen - 18) _)) by lia. cbn [oassert obind].
  destruct (trace_get_wire_length erf_format (pk_set_lengths p1 (rlen - 18) (pk_wire_length p1))) as [[p3 wl]|f] eqn:Ewl.
  - cbn [obind]. assert (i32 (int_to_size (rlen - 18)) = rlen - 18) as ->
      by (unfold int_to_size; destruct Hrl; subst rlen; vm_compute; reflexivity).
    by rewrite (proj2 (Z.leb_gt 0 _)) by lia.
  - exfalso. unfold trace_get_wire_length in Ewl. cbn [pk_wire_length pk_set_lengths] in Ewl. rewrite Hw1 in Ewl.
    cbn [Z.eqb Pos.eqb erf_format f_get_wire_length erf_lengths] in Ewl. unfold erf_get_wire_length in Ewl.
    change (packet_bytes (pk_set_lengths p1 (rlen - 18) (-1))) with (packet_bytes p1) in Ewl. rewrite Hpb1 in Ewl. unfold hd in Ewl.
    rewrite erf_wlen_ok in Ewl by done. cbn [ok_or pk_wire_length pk_set_lengths] in Ewl. rewrite i32_small in Ewl by lia.
    by rewrite (proj2 (Z.ltb_lt wire _)) in Ewl by lia.
Qed.

(** If any of the last four bytes of the first extension header is not 0, one
    extension header is counted, whatever its first byte says about a further one:
    the eight bytes are compared in the order of the host. *)
Theorem extension_headers_missed ts type flags rlen lctr wlen e1 rest :
  Z.land type 0x80 = 0x80 → 0 ≤ rlen < 2 ^ 16 → length e1 = 8%nat → bytes_ok e1 → (∃ x, x ∈ drop 4 e1 ∧ x ≠ 0) →
  erf_framing (erf_header ts type flags rlen lctr wlen ++ e1 ++ rest)
  = Ok (dag_record_size + 8 + if (Z.land type 0x7f =? TYPE_ETH) || (Z.land type 0x7f =? TYPE_DSM_COLOR_ETH) then 2 else 0).
Proof.
  intros Ht Hr Hl Hok (x & Hx & Hx0). unfold erf_framing. rewrite erf_type_ok. cbn [obind]. rewrite Ht. cbn [Z.eqb Pos.eqb].
  rewrite erf_rlen_ok by done. cbn [obind].
  assert (∃ v, read64 (erf_header ts type flags rlen lctr wlen ++ e1 ++ rest) dag_record_size = Ok v ∧ 2 ^ 31 ≤ v) as (v & Ev & Hv).
  { destruct e1 as [|b0 [|b1 [|b2 [|b3 [|b4 [|b5 [|b6 [|b7 [|]]]]]]]]]; try done. cbn [drop] in Hx.
    repeat (apply Forall_cons in Hok as [? Hok]). set (hd := erf_header ts type flags rlen lctr wlen).
    assert (∀ i b, [b0; b1; b2; b3; b4; b5; b6; b7] !! i = Some b →
      aget (hd ++ [b0; b1; b2; b3; b4; b5; b6; b7] ++ rest) (16 + Z.of_nat i) = Ok b) as Hget.
    { intros i b Hi. apply aget_ok; [lia|]. replace (Z.to_nat (16 + Z.of_nat i)) with (length hd + i)%nat
        by (change (length hd) with 16%nat; lia).
      rewrite lookup_app_r by lia. replace (length hd + i - length hd)%nat with i by lia. by apply lookup_app_l_Some. }
    unfold read64, read32, read16.
    rewrite (Hget 0%nat b0 eq_refl : aget _ 16 = _). cbn [obind].
    rewrite (Hget 1%nat b1 eq_refl : aget _ (16 + 1) = _). cbn [obind].
    rewrite (Hget 2%nat b2 eq_refl : aget _ (16 + 2) = _). cbn [obind].
    rewrite (Hget 3%nat b3 eq_refl : aget _ (16 + 2 + 1) = _). cbn [obind].
    rewrite (Hget 4%nat b4 eq_refl : aget _ (16 + 4) = _). cbn [obind].
    rewrite (Hget 5%nat b5 eq_refl : aget _ (16 + 4 + 1) = _). cbn [obind].
    rewrite (Hget 6%nat b6 eq_refl : aget _ (16 + 4 + 2) = _). cbn [obind].
    rewrite (Hget 7%nat b7 eq_refl : aget _ (16 + 4 + 2 + 1) = _). cbn [obind].
    eexists. split; [done|]. cbn beta in *.
    repeat (apply elem_of_cons in Hx as [->|Hx]; [lia|]). by apply elem_of_nil in Hx. }
  assert (∀ fuel, ext_loop fuel (erf_header ts type flags rlen lctr wlen ++ e1 ++ rest) dag_record_size 8 rlen = Ok 8) as ->.
  { intros [|fuel]; cbn [ext_loop]; rewrite Ev; cbn [obind]; by rewrite (proj2 (Z.ltb_ge v _)) by lia. }
  cbn [obind]. rewrite erf_padding_ok. done.
Qed.

(** ** Reading arbitrary files *)
Lemma aget_app_l {A} (hd x : list A) i : i < Zlen hd → aget (hd ++ x) i = aget hd i.
Proof.
  intros Hi. unfold aget, in_range. destruct (Z.leb_spec 0 i); cbn [andb]; [|done].
  rewrite Zlen_app. pose proof (Zlen_nonneg x). rewrite !(proj2 (Z.ltb_lt i _)) by lia.
  rewrite lookup_app_l; [done|]. unfold Zlen in *. lia.
Qed.

Lemma be16_app_l hd x off : 0 ≤ off → off + 1 < Zlen hd → be16 (hd ++ x) off = be16 hd off.
Proof. intros H0 H. unfold be16, read16. by rewrite !aget_app_l by lia. Qed.

Section fields.
Context (hd : list Z) (Hhd : Zlen hd = dag_record_size).

Lemma erf_type_app x : erf_type (hd ++ x) = erf_type hd.
Proof using Hhd. unfold erf_type, read8. by rewrite aget_app_l by lia. Qed.
Lemma erf_flags_app x : erf_flags (hd ++ x) = erf_flags hd.
Proof using Hhd. unfold erf_flags, read8. by rewrite aget_app_l by lia. Qed.
Lemma erf_rlen_app x : erf_rlen (hd ++ x) = erf_rlen hd.
Proof using Hhd. unfold erf_rlen. by rewrite be16_app_l by lia. Qed.
Lemma erf_lctr_app x : erf_lctr (hd ++ x) = erf_lctr hd.
Proof using Hhd. unfold erf_lctr. by rewrite be16_app_l by lia. Qed.

Lemma erf_fields_ok : bytes_ok hd → ∃ type flags rlen lctr, erf_type hd = Ok type ∧ erf_flags hd = Ok flags ∧
  erf_rlen hd = Ok rlen ∧ erf_lctr hd = Ok lctr ∧ 0 ≤ type < 256 ∧ 0 ≤ rlen < 2 ^ 16.
Proof using Hhd.
  intros Hok. destruct (aget_total hd 8) as (type & Hl8 & E8); [lia|]. destruct (aget_total hd 9) as (flags & _ & E9); [lia|].
  destruct (be16_ok hd 10) as [rlen E10]; [lia..|]. destruct (be16_ok hd 12) as [lctr E12]; [lia..|].
  exists type, flags, rlen, lctr. split_and!; try done; [by eapply bytes_ok_lookup..| |]; by eapply be16_range.
Qed.

(** A record without extension headers can always be made into a packet, which
    keeps the whole buffer. *)
Lemma erf_prepare_ok o x rt_type own drops type flags rlen lctr :
  erf_type hd = Ok type → erf_flags hd = Ok flags → erf_rlen hd = Ok rlen → erf_lctr hd = Ok lctr →
  Z.land type 0x80 ≠ 0x80 → rlen ≠ 0 →
  ∃ o' drops', erf_prepare_packet o (hd ++ x) rt_type own drops = Ok (o', drops') ∧ o_bytes o' = hd ++ x.
Proof using Hhd.
  intros Ety Efl Erl Elc Hext Hr. unfold erf_prepare_packet. rewrite erf_flags_app, Efl. cbn [obind].
  assert (∃ n, (if rxerror flags then Ok dag_record_size else erf_framing (hd ++ x)) = Ok n) as [n ->].
  { destruct (rxerror flags); [by eexists|]. unfold erf_framing. rewrite erf_type_app, Ety. cbn [obind].
    rewrite (proj2 (Z.eqb_neq _ _) Hext). cbn [obind]. unfold erf_padding. rewrite erf_type_app, Ety. by eexists. }
  cbn [obind]. rewrite erf_rlen_app, Erl. cbn [obind]. rewrite (proj2 (Z.eqb_neq rlen 0)) by done.
  cbn [negb oassert obind]. rewrite erf_type_app, Ety, erf_lctr_app, Elc. cbn [obind].
  do 2 eexists. split; [done|]. unfold o_bytes. cbn [o_pkt pk_header pk_mem pk_set_buffer]. apply take_drop.
Qed.
End fields.

(** The return value of a read, as a function of the bytes left in the file. *)
Definition erf_read_result (rest : list Z) : Z :=
  if Zlen rest =? 0 then 0
  else if Zlen rest <? dag_record_size then -1
  else
    let rlen := ok_or 0 (erf_rlen rest) in
    if rlen <? dag_record_size then -1
    else if TYPE_RAW_LINK <=? Z.land (ok_or 0 (erf_type rest)) 0x7f then -1
    else if Zlen rest <? rlen then -1
    else rlen.

(** C10: Reading from a file of arbitrary bytes, without extension headers, always
    returns and never leaves the packet buffer: 0 at the end of the file, -1 for a
    record that is cut, too short or of an unknown type, and otherwise the length
    of the record, which is then behind the reader. *)
Theorem erf_read_returns {W : Wandio} {WF : WandioFile W} fresh t o io :
  Zlen fresh = LIBTRACE_PACKET_BUFSIZE → et_io t = Some io → buffer_ok o → bytes_ok (io_rest io) →
  Z.land (ok_or 0 (erf_type (io_rest io))) 0x80 ≠ 0x80 →
  ∃ t' o' io', erf_read_packet fresh t (o_clear o) = Ok (t', o', erf_read_result (io_rest io)) ∧ et_io t' = Some io' ∧
    (0 < erf_read_result (io_rest io) → buffer_ok o' ∧
       io_rest io' = drop (Z.to_nat (erf_read_result (io_rest io))) (io_rest io)).
Proof.
  intros Hfresh Hio Hbuf Hok Hext. unfold erf_read_packet. rewrite Hio. change (o_bytes (o_clear o)) with (o_bytes o).
  cbn [o_buffer o_buf_control o_clear o_set_pkt].
  pose proof (current_buffer fresh Hfresh o Hbuf) as Hb0. set (b0 := if negb (o_buffer o) || _ then fresh else o_bytes o) in *.
  set (rest := io_rest io) in *. unfold erf_read_result.
  destruct (wandio_read_spec io dag_record_size) as (io1 & -> & Hio1); [lia|]. fold rest in Hio1 |- *.
  pose proof (Zlen_nonneg rest).
  assert (Zlen (take (Z.to_nat dag_record_size) rest) = Z.min dag_record_size (Zlen rest)) as Htk
    by (unfold Zlen; rewrite length_take; lia).
  rewrite store_app by lia. cbn [obind]. rewrite (proj2 (Z.eqb_neq (Z.min _ _) (-1))) by lia.
  destruct (Z.eqb_spec (Zlen rest) 0) as [E0|E0].
  { rewrite E0. cbn [Z.min Z.compare Z.eqb]. by do 3 eexists. }
  rewrite (proj2 (Z.eqb_neq (Z.min _ _) 0)) by lia.
  destruct (Z.ltb_spec (Zlen rest) dag_record_size) as [Hs|Hs].
  { rewrite (proj2 (Z.ltb_lt (Z.min _ _) _)) by lia. by do 3 eexists. }
  rewrite (proj2 (Z.ltb_ge (Z.min _ _) _)) by lia. rewrite Z.min_l in Htk by lia.
  set (hd := take (Z.to_nat dag_record_size) rest) in *. set (more := drop (Z.to_nat dag_record_size) rest) in *.
  assert (rest = hd ++ more) as Er by (symmetry; apply take_drop).
  destruct (erf_fields_ok hd Htk) as (type & flags & rlen & lctr & Ety & Efl & Erl & Elc & Hty & Hrl).
  { rewrite Er in Hok. by apply bytes_ok_app in Hok as [? _]. }
  rewrite Er, (erf_rlen_app hd Htk), Erl, (erf_type_app hd Htk), Ety. rewrite Er, (erf_type_app hd Htk), Ety in Hext. cbn [ok_or] in *.
  change (take (Z.to_nat 0) b0) with (@nil Z). cbn [app].
  rewrite erf_rlen_app, Erl, erf_type_app, Ety by done. cbn [obind]. change (2 ^ 16) with 65536 in Hrl.
  destruct (Z.ltb_spec rlen dag_record_size) as [Hr16|Hr16].
  { rewrite (proj2 (Z.leb_le _ (u32 _))); [by do 3 eexists|]. unfold u32. change (2 ^ 32) with 4294967296.
    Z.to_euclidean_division_equations. lia. }
  rewrite u32_small, (proj2 (Z.leb_gt _ (rlen - _))) by lia.
  destruct (Z.leb_spec TYPE_RAW_LINK (Z.land type 0x7f)); [by do 3 eexists|].
  destruct (wandio_read_spec io1 (rlen - dag_record_size)) as (io2 & -> & Hio2); [lia|]. rewrite Hio1 in *.
  set (tl := drop (Z.to_nat (0 + Zlen hd)) b0). assert (Zlen tl = 65536 - 16) as Htl.
  { unfold tl. rewrite Htk. unfold Zlen in *. rewrite length_drop. lia. }
  set (bs := take (Z.to_nat (rlen - dag_record_size)) more).
  assert (Zlen bs = Z.min (rlen - dag_record_size) (Zlen more)) as Hbs by (unfold bs, Zlen; rewrite length_take; lia).
  pose proof (Zlen_nonneg more).
  rewrite store_app by (rewrite ?Zlen_app, ?Htk, ?Htl; lia). cbn [obind]. rewrite Zlen_app, Htk.
  destruct (Z.ltb_spec (dag_record_size + Zlen more) rlen) as [Hcut|Hcut].
  { rewrite (proj2 (Z.eqb_neq (Z.min _ _) (rlen - _))) by lia. cbn [negb].
    rewrite (proj2 (Z.eqb_neq (Z.min _ _) (-1))) by lia. by do 3 eexists. }
  rewrite (proj2 (Z.eqb_eq (Z.min _ _) (rlen - _))) by lia. cbn [negb].
  assert (take (Z.to_nat dag_record_size) (hd ++ tl) = hd) as ->.
  { rewrite <- Htk. unfold Zlen. rewrite Nat2Z.id. apply take_app_length. }
  set (dr := drop _ (hd ++ tl)).
  destruct (erf_prepare_ok hd Htk (o_clear o) (bs ++ dr) TRACE_RT_DATA_ERF true (et_drops t) type flags rlen lctr)
    as (o' & drops & -> & Ho'); try done; [lia|]. cbn [obind].
  do 3 eexists. split; [done|]. split; [done|]. intros _. split.
  - right. right. rewrite Ho', !Zlen_app, Htk, Hbs. unfold dr, Zlen in *. rewrite length_drop, length_app. lia.
  - rewrite Hio2. replace (Z.to_nat rlen) with (length hd + Z.to_nat (rlen - dag_record_size))%nat by (unfold Zlen in Htk; lia).
    by rewrite drop_app_add.
Qed.

(** ** Concrete records *)
Definition sample_source (lt : libtrace_linktype_t) (bs : list Z) : libtrace_linktype_t * erf_source :=
  (lt, {| es_cap := {| cp_trace := {| tr_format := tr_format (sample_trace lt {| tv_sec := 0; tv_usec := 0 |} (Zlen bs) 60);
                                      tr_time := source_format (SrcErf 0x5000000080000000) |};
                       cp_obj := sample_obj bs; cp_time := erf_timeval 0x5000000080000000; cp_bytes := bs; cp_wire := 60 |};
          es_ts := 0x5000000080000000; es_dir := 1; es_garbage := [7; 9] |}).

Lemma sample_source_storable lt bs : libtrace_to_erf_type lt ≠ 255 → 0 < Zlen bs < 1000 →
  erf_storable (sample_source lt bs).1 (sample_source lt bs).2.
Proof.
  intros Hlt Hb. unfold erf_storable. cbn [sample_source fst snd es_cap es_ts es_dir es_garbage es_trace es_obj es_bytes
    cp_trace cp_obj cp_time cp_bytes cp_wire].
  split_and!; try done; try lia.
  split; cbn; try (by left); try lia; try done.
  - by eexists.
  - by eexists.
  - by eexists.
  - rewrite slice_ok by (change (drop (Z.to_nat 0) bs) with bs; lia).
    change (drop (Z.to_nat 0) (drop (Z.to_nat 0) bs)) with bs. rewrite take_ge; [done|]. unfold Zlen. lia.
Qed.

Definition sample_sources : list (libtrace_linktype_t * erf_source) :=
  [sample_source TRACE_TYPE_ETH [1; 2; 3]; sample_source TRACE_TYPE_NONE [0x45; 0]].

Lemma erf_roundtrip_witness :
  ∃ out1 out' file, erf_start_output (W := memory_wandio) (erf_init_output []) = Ok (out1, 0) ∧
    erf_write_packets (W := memory_wandio) out1 (map snd sample_sources) = Ok out' ∧ eo_file (W := memory_wandio) out' = Some file ∧
    ∀ io uri fresh o, io_rest (W := memory_wandio) io = iow_bytes file → Zlen fresh = LIBTRACE_PACKET_BUFSIZE → buffer_ok o →
    ∃ t ps, erf_start_input (W := memory_wandio) (erf_init_input uri (Some io)) = Ok (t, 0) ∧
      erf_read_packets fresh 3 t o = Ok (ps, 0) ∧ Forall2 erf_same sample_sources ps.
Proof.
  apply (erf_roundtrip (W := memory_wandio) (WF := memory_wandio_file) sample_sources (erf_init_output (W := memory_wandio) []) []); try done.
  repeat (apply Forall_cons; split; [by apply sample_source_storable|]). constructor.
Defined.

Lemma erf_short_record_fails_witness :
  ∃ t' o', erf_read_packet (W := memory_wandio) (replicate (Z.to_nat 65536) 0)
      (erf_init_input (W := memory_wandio) [] (Some (erf_header 5 TYPE_ETH 1 16 0 60))) (o_clear new_packet) = Ok (t', o', 16) ∧
    trace_get_packet_buffer erf_format (o_pkt o') true = Fault AssertFailed.
Proof.
  apply (erf_short_record_fails (W := memory_wandio) (WF := memory_wandio_file) (replicate (Z.to_nat 65536) 0)
    (erf_init_input (W := memory_wandio) [] (Some (erf_header 5 TYPE_ETH 1 16 0 60))) new_packet
    (erf_header 5 TYPE_ETH 1 16 0 60) 5 1 0 60 16 [] []);
    [by rewrite Zlen_replicate|done|by left|done|done|done|done|by left|done|done].
Defined.

(** The first extension header announces another by its top bit; the framing ends
    behind the first. *)
Lemma extension_headers_missed_witness :
  erf_framing (erf_header 5 (128 + TYPE_ETH) 1 60 0 60 ++ [0x83; 0; 0; 0; 0; 0; 0; 1] ++ [0x03; 0; 0; 0; 0; 0; 0; 2] ++ [0; 0; 9])
  = Ok 26.
Proof.
  apply (extension_headers_missed 5 (128 + TYPE_ETH) 1 60 0 60 [0x83; 0; 0; 0; 0; 0; 0; 1]
    ([0x03; 0; 0; 0; 0; 0; 0; 2] ++ [0; 0; 9])); try done.
  - by repeat constructor.
  - exists 1. split; [set_solver|done].
Defined.

Lemma erf_read_returns_witness :
  ∃ t' o' io', erf_read_packet (W := memory_wandio) (replicate (Z.to_nat 65536) 0)
      (erf_init_input (W := memory_wandio) [] (Some (erf_header 5 1 1 18 0 60 ++ [1; 2; 3]))) (o_clear new_packet)
      = Ok (t', o', 18) ∧ et_io (W := memory_wandio) t' = Some io' ∧
    (0 < 18 → buffer_ok o' ∧ io_rest (W := memory_wandio) io' = [3]).
Proof.
  apply (erf_read_returns (W := memory_wandio) (WF := memory_wandio_file) (replicate (Z.to_nat 65536) 0)
    (erf_init_input (W := memory_wandio) [] (Some (erf_header 5 1 1 18 0 60 ++ [1; 2; 3]))) new_packet
    (erf_header 5 1 1 18 0 60 ++ [1; 2; 3]));
    [by rewrite Zlen_replicate|done|by left|by repeat constructor|done].
Defined.
