(* ===== verification/OldFormats.v ===== *)
(** * Formats with records of fixed size: lib/format_tsh.c, format_legacy.c, format_atmhdr.c, format_duck.c

    TSH records hold a time, an interface and 36 bytes from the IP header on; the
    legacy DAG formats hold records of 64 bytes, or of 68 for NZIX, whose times have 30
    bits and are counted on by the trace; an ATM header record is a time and four
    bytes; DUCK records are clock reports, written behind the number of their
    version.

    A packet and its buffer are as in PcapFile.  Structures are packed, so the offsets
    of fields are the sums of the sizes before them. *)

From S2P Require Import Prelude Byteswap Packet PktMeta Layer2 Linktypes Timestamps FormatHelper PcapFile Erf.
Local Open Scope Z_scope.
Local Open Scope outcome_scope.

(** The format types of [TRACE_RT_DATA_SIMPLE] and of DUCK records. *)
Abbreviation TRACE_RT_DATA_LEGACY_ATM := 1006.
Abbreviation TRACE_RT_DATA_LEGACY_POS := 1007.
Abbreviation TRACE_RT_DATA_LEGACY_ETH := 1008.
Abbreviation TRACE_RT_DATA_TSH := 1012.
Abbreviation TRACE_RT_DATA_ATMHDR := 1013.
Abbreviation TRACE_RT_DATA_LEGACY_NZIX := 1014.
Abbreviation TRACE_RT_DUCK_2_4 := 13.
Abbreviation TRACE_RT_DUCK_2_5 := 14.
Abbreviation TRACE_RT_DUCK_5_0 := 19.

Definition be32 (mem : list Z) (off : Z) : outcome Z := let! v := read32 mem off in Ok (byteswap32 v).

(** ** TSH *)
Abbreviation sizeof_tsh_header := 8.

Definition tsh_get_framing_length (p : libtrace_packet_t) : Z := sizeof_tsh_header.
Definition tsh_get_link_type (p : libtrace_packet_t) : libtrace_linktype_t := TRACE_TYPE_NONE.

(** [usecs & htonl(0xFF000000)] is the first byte of the field as it is in memory. *)
Definition tsh_get_direction (p : libtrace_packet_t) : outcome Z :=
  let! usecs := read32 (pk_header p) 4 in
  Ok (Z.shiftr (byteswap32 (Z.land usecs (byteswap32 0xFF000000))) 24).

Definition tsh_get_timeval (p : libtrace_packet_t) : outcome timeval :=
  let! sec := be32 (pk_header p) 0 in
  let! usecs := read32 (pk_header p) 4 in
  Ok {| tv_sec := sec; tv_usec := byteswap32 (Z.land usecs (byteswap32 0x00FFFFFF)) |}.

Definition tsh_get_capture_length (p : libtrace_packet_t) : Z := 36.

(** [ip_len] is at offset 2. *)
Definition tsh_get_wire_length (p : libtrace_packet_t) : outcome Z := be16 (pk_mem p) (pk_payload p + 2).

Definition tsh_prepare_packet (o : packet_obj) (buf : list Z) (rt_type : Z) (own : bool) : packet_obj :=
  {| o_pkt := pk_set_buffer (o_pkt o) buf sizeof_tsh_header rt_type; o_buffer := true; o_header := true; o_payload := true;
     o_buf_control := if own then TRACE_CTRL_PACKET else TRACE_CTRL_EXTERNAL |}.

(** ** The legacy formats *)
Inductive legacy_kind := LEGACY_ATM | LEGACY_POS | LEGACY_ETH.

Definition legacyeth_get_framing_length (p : libtrace_packet_t) : Z := 10.
Definition legacypos_get_framing_length (p : libtrace_packet_t) : Z := 16.
Definition legacyatm_get_framing_length (p : libtrace_packet_t) : Z := 12.
Definition legacynzix_get_framing_length (p : libtrace_packet_t) : Z := 14.

Definition legacypos_get_link_type (p : libtrace_packet_t) : outcome libtrace_linktype_t :=
  let! b0 := read8 (pk_mem p) (pk_payload p) in
  let! b1 := read8 (pk_mem p) (pk_payload p + 1) in
  Ok (if (b0 =? 0xFF) && (b1 =? 0x03) then TRACE_TYPE_POS
      else if (b0 =? 0x0F) && (b1 =? 0x00) then TRACE_TYPE_HDLC_POS
      else if (b0 =? 0x8F) && (b1 =? 0x00) then TRACE_TYPE_HDLC_POS
      else TRACE_TYPE_PPP).
Definition legacyatm_get_link_type (p : libtrace_packet_t) : libtrace_linktype_t := TRACE_TYPE_ATM.
Definition legacyeth_get_link_type (p : libtrace_packet_t) : libtrace_linktype_t := TRACE_TYPE_ETH.
Definition legacynzix_get_link_type (p : libtrace_packet_t) : libtrace_linktype_t := TRACE_TYPE_ETH.

Definition legacy_get_capture_length (p : libtrace_packet_t) : Z := 64.
Definition legacynzix_get_capture_length (p : libtrace_packet_t) : Z := 54.

Definition legacypos_get_wire_length (p : libtrace_packet_t) : outcome Z :=
  let! wlen := be32 (pk_header p) 12 in
  let! _ := oassert (0 <? wlen) in
  Ok (i32 wlen).
Definition legacyatm_get_wire_length (p : libtrace_packet_t) : Z := 53.
Definition legacyeth_get_wire_length (p : libtrace_packet_t) : outcome Z :=
  let! wlen := read16 (pk_header p) 8 in Ok (wlen + 4).
Definition legacynzix_get_wire_length (p : libtrace_packet_t) : outcome Z :=
  let! len := read32 (pk_header p) 8 in Ok (i32 len).

Definition legacy_get_erf_timestamp (p : libtrace_packet_t) : outcome Z := read64 (pk_header p) 0.

(** *** The clock of NZIX traces *)
Record legacy_format_data_t := { starttime : Z; ts_high : Z; ts_old : Z }.

Definition legacy_init_format_data : legacy_format_data_t := {| starttime := 0; ts_high := 0; ts_old := 0 |}.

Definition ts_cmp (ts_a ts_b : Z) : Z :=
  let ts_a := u32 (Z.shiftl ts_a 2) in
  let ts_b := u32 (Z.shiftl ts_b 2) in
  if ts_b <? ts_a then ts_a - ts_b else ts_b - ts_a.

(** The time for the field [ts] of a header, which changes the trace. *)
Definition nzix_clock (d : legacy_format_data_t) (hdr_ts : Z) : legacy_format_data_t * timeval :=
  let hdr_ts := Z.shiftr hdr_ts 2 in
  let new_ts := if (2 ^ 32 - 1) / 2 <? ts_cmp hdr_ts (ts_old d) then u64 (ts_high d + 2 ^ 30) else ts_high d in
  let new_ts := Z.ldiff new_ts (2 ^ 30 - 1) in
  let new_ts := u64 (new_ts + hdr_ts) in
  ({| starttime := starttime d; ts_high := new_ts; ts_old := hdr_ts |},
   {| tv_sec := starttime d + new_ts / (1000 * 1000); tv_usec := new_ts `mod` (1000 * 1000) |}).

Definition legacynzix_get_timeval (d : legacy_format_data_t) (p : libtrace_packet_t) : outcome (legacy_format_data_t * timeval) :=
  let! hdr_ts := read32 (pk_header p) 0 in Ok (nzix_clock d hdr_ts).

(** [framing]: what the format's [get_framing_length] returns. *)
Definition legacy_prepare_packet (o : packet_obj) (buf : list Z) (framing rt_type : Z) (own : bool) : packet_obj :=
  {| o_pkt := pk_set_buffer (o_pkt o) buf framing rt_type; o_buffer := true; o_header := true; o_payload := true;
     o_buf_control := if own then TRACE_CTRL_PACKET else TRACE_CTRL_EXTERNAL |}.

(** ** ATM headers *)
Definition atmhdr_get_framing_length (p : libtrace_packet_t) : Z := 8.
Definition atmhdr_get_link_type (p : libtrace_packet_t) : libtrace_linktype_t := TRACE_TYPE_ATM.
Definition atmhdr_get_capture_length (p : libtrace_packet_t) : Z := 4.
Definition atmhdr_get_wire_length (p : libtrace_packet_t) : Z := 53.

Definition atmhdr_get_erf_timestamp (p : libtrace_packet_t) : outcome Z :=
  let! frac := read32 (pk_header p) 0 in
  let! sec := read32 (pk_header p) 4 in
  Ok (u64 (frac + u64 (Z.shiftl sec 32))).

Definition atmhdr_prepare_packet (o : packet_obj) (buf : list Z) (rt_type : Z) (own : bool) : packet_obj :=
  {| o_pkt := pk_set_buffer (o_pkt o) buf 8 rt_type; o_buffer := true; o_header := true; o_payload := true;
     o_buf_control := if own then TRACE_CTRL_PACKET else TRACE_CTRL_EXTERNAL |}.

(** ** DUCK *)

(** The sizes of [duck2_4_t], [duck2_5_t] and [duck5_0_t]. *)
Definition duck_size (version : Z) : option Z :=
  if version =? TRACE_RT_DUCK_2_4 then Some 112
  else if version =? TRACE_RT_DUCK_2_5 then Some 84
  else if version =? TRACE_RT_DUCK_5_0 then Some 100
  else None.

Definition duck_get_capture_length (p : libtrace_packet_t) : outcome Z :=
  match duck_size (pk_type p) with
  | Some n => Ok n
  | None => let! _ := trace_set_err TRACE_ERR_BAD_PACKET in Ok (-1)
  end.
Definition duck_get_framing_length (p : libtrace_packet_t) : Z := 0.
Definition duck_get_wire_length (p : libtrace_packet_t) : Z := 0.
Definition duck_get_link_type (p : libtrace_packet_t) : libtrace_linktype_t := TRACE_TYPE_DUCK.

Definition duck_prepare_packet (o : packet_obj) (buf : list Z) (rt_type : Z) (own : bool) : packet_obj :=
  {| o_pkt := pk_set_buffer (o_pkt o) buf 0 rt_type; o_buffer := true; o_header := false; o_payload := true;
     o_buf_control := if own then TRACE_CTRL_PACKET else TRACE_CTRL_EXTERNAL |}.

(** ** Files *)
Section files.
Context {W : Wandio}.
Variable fresh : list Z.

(** A trace read from a file. *)
Record file_trace := { ft_uridata : list Z; ft_io : option io_t; ft_err : Z }.
Definition ft_set (t : file_trace) (io : option io_t) (err : Z) : file_trace :=
  {| ft_uridata := ft_uridata t; ft_io := io; ft_err := err |}.

(** The four formats start in the same way. *)
Definition start_input (t : file_trace) : outcome (file_trace * Z) :=
  match ft_io t with
  | Some _ => Ok (t, 0)
  | None =>
      let! ' (io, err) := trace_open_file (ft_uridata t) in
      Ok (ft_set t io (default (ft_err t) err), match io with Some _ => 0 | None => -1 end)
  end.
Definition tsh_start_input := start_input.
Definition legacy_start_input := start_input.
Definition atmhdr_start_input := start_input.
Definition duck_start_input := start_input.

(** The buffer that a record is read into. *)
Definition own_buffer (o : packet_obj) : list Z :=
  if negb (o_buffer o) || bool_decide (o_buf_control o = TRACE_CTRL_EXTERNAL) then fresh else o_bytes o.

Definition read_fails (t : file_trace) (o : packet_obj) (io : io_t) (buf : list Z) (type code ret : Z)
  : outcome (file_trace * packet_obj * Z) :=
  let! err := trace_set_err code in Ok (ft_set t (Some io) err, o_fill o buf type, ret).

Definition tsh_read_packet (t : file_trace) (o : packet_obj) : outcome (file_trace * packet_obj * Z) :=
  match ft_io t with
  | None => Fault NullDeref
  | Some io =>
      let type := TRACE_RT_DATA_TSH in
      let '(io, bs, numbytes) := wandio_read io sizeof_tsh_header in
      let! buf := store (own_buffer o) 0 bs in
      if numbytes =? -1 then read_fails t o io buf type (errno_read io) (-1)
      else if numbytes =? 0 then Ok (ft_set t (Some io) (ft_err t), o_fill o buf type, 0)
      else if numbytes <? sizeof_tsh_header then read_fails t o io buf type (errno_read io) (-1)
      else
        let '(io, bs, numbytes') := wandio_read io 36 in
        let! buf := store buf numbytes bs in
        if negb (numbytes' =? 36) then read_fails t o io buf type (errno_read io) (-1)
        else Ok (ft_set t (Some io) (ft_err t), tsh_prepare_packet o buf type true, 80)
  end.

Definition legacy_type (kind : legacy_kind) : Z :=
  match kind with LEGACY_ATM => TRACE_RT_DATA_LEGACY_ATM | LEGACY_POS => TRACE_RT_DATA_LEGACY_POS | LEGACY_ETH => TRACE_RT_DATA_LEGACY_ETH end.
Definition legacy_framing (kind : legacy_kind) (p : libtrace_packet_t) : Z :=
  match kind with LEGACY_ATM => legacyatm_get_framing_length p | LEGACY_POS => legacypos_get_framing_length p
  | LEGACY_ETH => legacyeth_get_framing_length p end.

(** The loop goes on after a short read, from the start of the buffer. *)
Fixpoint legacy_read_loop (fuel : nat) (kind : legacy_kind) (t : file_trace) (o : packet_obj) (io : io_t) (buf : list Z)
  : outcome (file_trace * packet_obj * Z) :=
  match fuel with
  | O => Fault OutOfFuel
  | S fuel' =>
      let type := legacy_type kind in
      let '(io, bs, numbytes) := wandio_read io 64 in
      let! buf := store buf 0 bs in
      if negb (numbytes =? 64) then
        if numbytes <? 0 then read_fails t o io buf type (errno_read io) numbytes
        else if 0 <? numbytes then legacy_read_loop fuel' kind t o io buf
        else Ok (ft_set t (Some io) (ft_err t), o_fill o buf type, numbytes)
      else Ok (ft_set t (Some io) (ft_err t), legacy_prepare_packet o buf (legacy_framing kind (o_pkt o)) type true, 64)
  end.

Definition legacy_read_packet (fuel : nat) (kind : legacy_kind) (t : file_trace) (o : packet_obj) : outcome (file_trace * packet_obj * Z) :=
  match ft_io t with
  | None => Fault NullDeref
  | Some io => legacy_read_loop fuel kind t o io (own_buffer o)
  end.

(** Records of length 0 are skipped. *)
Fixpoint nzix_read_loop (fuel : nat) (t : file_trace) (o : packet_obj) (io : io_t) (buf : list Z)
  : outcome (file_trace * packet_obj * Z) :=
  match fuel with
  | O => Fault OutOfFuel
  | S fuel' =>
      let type := TRACE_RT_DATA_LEGACY_NZIX in
      let '(io, bs, numbytes) := wandio_read io 68 in
      let! buf := store buf 0 bs in
      if negb (numbytes =? 68) then
        if numbytes <? 0 then read_fails t o io buf type (errno_read io) numbytes
        else if 0 <? numbytes then nzix_read_loop fuel' t o io buf
        else Ok (ft_set t (Some io) (ft_err t), o_fill o buf type, numbytes)
      else
        let! len := read32 buf 8 in
        if len =? 0 then nzix_read_loop fuel' t o io buf
        else
          let! data := slice buf 12 26 in
          let! buf := store buf 14 data in
          Ok (ft_set t (Some io) (ft_err t),
              legacy_prepare_packet o buf (legacynzix_get_framing_length (o_pkt o)) type true, 68)
  end.

Definition legacynzix_read_packet (fuel : nat) (t : file_trace) (o : packet_obj) : outcome (file_trace * packet_obj * Z) :=
  match ft_io t with
  | None => Fault NullDeref
  | Some io => nzix_read_loop fuel t o io (own_buffer o)
  end.

Definition atmhdr_read_packet (t : file_trace) (o : packet_obj) : outcome (file_trace * packet_obj * Z) :=
  match ft_io t with
  | None => Fault NullDeref
  | Some io =>
      let type := TRACE_RT_DATA_ATMHDR in
      let '(io, bs, numbytes) := wandio_read io 12 in
      let! buf := store (own_buffer o) 0 bs in
      if negb (numbytes =? 12) then
        if negb (numbytes =? 0) then read_fails t o io buf type (errno_read io) numbytes
        else Ok (ft_set t (Some io) (ft_err t), o_fill o buf type, numbytes)
      else Ok (ft_set t (Some io) (ft_err t), atmhdr_prepare_packet o buf type true, 12)
  end.

(** [version]: the [dag_version] of the format's data, 0 before the first read. *)
Definition duck_read_version (t : file_trace) (io : io_t) (version : Z) : outcome (io_t * Z * option Z) :=
  if version =? 0 then
    let '(io, bs, numbytes) := wandio_read io 4 in
    if negb (numbytes =? 4) then let! err := trace_set_err (errno_read io) in Ok (io, version, Some err)
    else let! v := read32 bs 0 in Ok (io, v, None)
  else Ok (io, version, None).

Definition duck_read_packet (t : file_trace) (version : Z) (o : packet_obj) : outcome (file_trace * Z * packet_obj * Z) :=
  match ft_io t with
  | None => Fault NullDeref
  | Some io =>
      let! ' (io, version, failed) := duck_read_version t io version in
      match failed with
      | Some err => Ok (ft_set t (Some io) err, version, o_fill o (own_buffer o) (pk_type (o_pkt o)), -1)
      | None =>
          match duck_size version with
          | None =>
              let! err := trace_set_err TRACE_ERR_BAD_PACKET in
              Ok (ft_set t (Some io) err, version, o_fill o (own_buffer o) (pk_type (o_pkt o)), -1)
          | Some size =>
              let '(io, bs, numbytes) := wandio_read io size in
              let! buf := store (own_buffer o) 0 bs in
              if numbytes =? size then
                Ok (ft_set t (Some io) (ft_err t), version, duck_prepare_packet o buf version true, numbytes)
              else if numbytes =? -1 then
                let! err := trace_set_err (errno_read io) in
                Ok (ft_set t (Some io) err, version, o_fill o buf version, -1)
              else if numbytes =? 0 then Ok (ft_set t (Some io) (ft_err t), version, o_fill o buf version, 0)
              else
                let! err := trace_set_err TRACE_ERR_BAD_PACKET in
                Ok (ft_set t (Some io) err, version, duck_prepare_packet o buf version true, numbytes)
          end
      end
  end.

(** *** Writing DUCK *)
Record duck_out := {
  do_uridata : list Z;
  do_file : option iow_t;
  do_compress_type : Z;
  do_level : Z;
  do_fileflag : Z;
  do_dag_version : Z;
  do_err : Z;
}.

Definition duck_init_output (uridata : list Z) : duck_out :=
  {| do_uridata := uridata; do_file := None; do_compress_type := 0; do_level := 0; do_fileflag := O_CREAT_WRONLY;
     do_dag_version := 0; do_err := TRACE_ERR_NOERROR |}.

Definition do_set (out : duck_out) (file : option iow_t) (version err : Z) : duck_out :=
  {| do_uridata := do_uridata out; do_file := file; do_compress_type := do_compress_type out; do_level := do_level out;
     do_fileflag := do_fileflag out; do_dag_version := version; do_err := err |}.

Definition duck_config_output (out : duck_out) (option : output_option) (value : Z) : outcome (duck_out * Z) :=
  match option with
  | OUTPUT_COMPRESS =>
      Ok ({| do_uridata := do_uridata out; do_file := do_file out; do_compress_type := do_compress_type out; do_level := value;
             do_fileflag := do_fileflag out; do_dag_version := do_dag_version out; do_err := do_err out |}, 0)
  | OUTPUT_COMPRESSTYPE =>
      Ok ({| do_uridata := do_uridata out; do_file := do_file out; do_compress_type := value; do_level := do_level out;
             do_fileflag := do_fileflag out; do_dag_version := do_dag_version out; do_err := do_err out |}, 0)
  | OUTPUT_FILEFLAGS =>
      Ok ({| do_uridata := do_uridata out; do_file := do_file out; do_compress_type := do_compress_type out; do_level := do_level out;
             do_fileflag := value; do_dag_version := do_dag_version out; do_err := do_err out |}, 0)
  | OUTPUT_OTHER =>
      let! err := trace_set_err_out TRACE_ERR_UNKNOWN_OPTION in Ok (do_set out (do_file out) (do_dag_version out) err, -1)
  end.

Definition duck_start_output (out : duck_out) : outcome (duck_out * Z) :=
  let! ' (file, err) := trace_open_file_out (do_uridata out) (do_compress_type out) (do_level out) (do_fileflag out) in
  Ok (do_set out file (do_dag_version out) (default (do_err out) err), match file with Some _ => 0 | None => -1 end).

(** [caplen]: the capture length of the packet, as [trace_get_capture_length] gives it. *)
Definition duck_write_packet (out : duck_out) (p : libtrace_packet_t) (caplen : Z) : outcome (duck_out * Z) :=
  if negb (pk_type p =? TRACE_RT_DUCK_2_4) && negb (pk_type p =? TRACE_RT_DUCK_2_5) && negb (pk_type p =? TRACE_RT_DUCK_5_0) then
    let! err := trace_set_err_out TRACE_ERR_BAD_PACKET in
    Ok (do_set out (do_file out) (do_dag_version out) err, -1)
  else
    match do_file out with
    | None => Fault AssertFailed
    | Some file =>
        let '(file, numbytes) :=
          if do_dag_version out =? 0 then wandio_wwrite file (bytes32 (pk_type p)) else (file, 4) in
        if negb (numbytes =? 4) then
          let! err := trace_set_err_out (errno_write file) in Ok (do_set out (Some file) (do_dag_version out) err, -1)
        else
          let version := if do_dag_version out =? 0 then pk_type p else do_dag_version out in
          let! bs := slice (pk_mem p) (pk_payload p) caplen in
          let '(file, numbytes) := wandio_wwrite file bs in
          if negb (numbytes =? caplen) then
            let! err := trace_set_err_out (errno_write file) in Ok (do_set out (Some file) version err, -1)
          else Ok (do_set out (Some file) version (do_err out), numbytes)
    end.
End files.

(** ** The clock of NZIX traces is exact *)
Definition nzix_state (start t : Z) : legacy_format_data_t := {| starttime := start; ts_high := t; ts_old := t `mod` 2 ^ 30 |}.

(** The field for the time [t], whose two lowest bits are not used. *)
Definition nzix_field (t x : Z) : Z := 4 * (t `mod` 2 ^ 30) + x.

Fixpoint nzix_times (d : legacy_format_data_t) (fields : list Z) : list timeval :=
  match fields with
  | [] => []
  | f :: fields => let '(d, tv) := nzix_clock d f in tv :: nzix_times d fields
  end.

Lemma ts_cmp_30 a b : 0 ≤ a < 2 ^ 30 → 0 ≤ b < 2 ^ 30 → ts_cmp a b = 4 * Z.abs (a - b).
Proof.
  intros Ha Hb. unfold ts_cmp, u32. rewrite !Z.shiftl_mul_pow2 by lia. rewrite !Z.mod_small by lia.
  destruct (b * 2 ^ 2 <? a * 2 ^ 2) eqn:E; lia.
Qed.

Lemma nzix_clock_step start t t' x :
  0 ≤ t ≤ t' → t' - t < 2 ^ 29 → t' < 2 ^ 63 → 0 ≤ x < 4 →
  nzix_clock (nzix_state start t) (nzix_field t' x) =
    (nzix_state start t', {| tv_sec := start + t' / 1000000; tv_usec := t' `mod` 1000000 |}).
Proof.
  intros Ht Hg Hb Hx. unfold nzix_clock, nzix_state, nzix_field. cbn [starttime ts_high ts_old].
  set (m := 2 ^ 30). pose proof (Z.mod_pos_bound t m ltac:(lia)) as B1. pose proof (Z.mod_pos_bound t' m ltac:(lia)) as B2.
  pose proof (Z.div_mod t m ltac:(lia)) as D1. pose proof (Z.div_mod t' m ltac:(lia)) as D2.
  assert (Z.shiftr (4 * (t' `mod` m) + x) 2 = t' `mod` m) as ->.
  { rewrite Z.shiftr_div_pow2 by lia. change (2 ^ 2) with 4. rewrite Z.mul_comm, Z.div_add_l by lia. rewrite (Z.div_small x 4) by lia. lia. }
  rewrite ts_cmp_30 by (unfold m in *; lia).
  change ((2 ^ 32 - 1) / 2) with (2 ^ 31 - 1).
  assert (t' / m = t / m ∨ t' / m = t / m + 1) as Hq.
  { assert (t / m ≤ t' / m) by (apply Z.div_le_mono; unfold m; lia). assert (t' / m < t / m + 2) by (unfold m in *; nia). lia. }
  assert ((if 2 ^ 31 - 1 <? 4 * Z.abs (t' `mod` m - t `mod` m) then u64 (t + m) else t) / m = t' / m) as Hd.
  { destruct Hq as [Hq|Hq].
    - rewrite (proj2 (Z.ltb_ge _ _)); [done|]. unfold m in *. nia.
    - rewrite (proj2 (Z.ltb_lt _ _)) by (unfold m in *; nia). unfold u64. rewrite Z.mod_small by (unfold m; lia).
      rewrite <- (Z.mul_1_l m) at 1. rewrite Z.div_add by (unfold m; lia). lia. }
  change (m - 1) with (Z.ones 30). rewrite Z.ldiff_ones_r by lia.
  rewrite Z.shiftr_div_pow2, Z.shiftl_mul_pow2 by lia. fold m. rewrite Hd.
  assert (u64 (t' / m * m + t' `mod` m) = t') as -> by (unfold u64; rewrite Z.mod_small; lia). done.
Qed.

(** The times of an NZIX trace: whatever the two unused bits of the fields are, if each
    packet is less than 2^29 microseconds (about nine minutes) after the one before,
    and the first after the start, the times reported are exact, beyond the 2^30
    microseconds that a field can hold. *)
Theorem nzix_clock_exact start ts : ∀ xs,
  Forall (λ x, 0 ≤ x < 4) xs → length xs = length ts →
  (∀ i t t', (0 :: ts) !! i = Some t → ts !! i = Some t' → t ≤ t' < t + 2 ^ 29) → Forall (λ t, t < 2 ^ 63) ts →
  nzix_times (nzix_state start 0) (zip_with nzix_field ts xs) =
    map (λ t, {| tv_sec := start + t / 1000000; tv_usec := t `mod` 1000000 |}) ts.
Proof.
  assert (∀ xs t0, 0 ≤ t0 → Forall (λ x, 0 ≤ x < 4) xs → length xs = length ts →
    (∀ i t t', (t0 :: ts) !! i = Some t → ts !! i = Some t' → t ≤ t' < t + 2 ^ 29) → Forall (λ t, t < 2 ^ 63) ts →
    nzix_times (nzix_state start t0) (zip_with nzix_field ts xs) =
      map (λ t, {| tv_sec := start + t / 1000000; tv_usec := t `mod` 1000000 |}) ts) as K; [|intros xs; apply (K xs 0); lia].
  induction ts as [|t ts IH]; intros xs t0 H0 Hx Hlen Hg Hb; [done|].
  destruct xs as [|x xs]; [done|]. apply Forall_cons in Hx as [Hx Hxs]. apply Forall_cons in Hb as [Hb Hbs].
  assert (t0 ≤ t < t0 + 2 ^ 29) as Ht by by apply (Hg 0%nat).
  cbn [zip_with nzix_times map]. rewrite nzix_clock_step by lia. f_equal.
  apply IH; [lia|done|by injection Hlen|intros i; apply (Hg (S i))|done].
Qed.

(** Times that pass 2^30 and a multiple of it: 1073 seconds, then 1200, 1600 and 2000. *)
Lemma nzix_clock_exact_witness :
  nzix_times (nzix_state 946638000 0) (zip_with nzix_field [400000000; 800000000; 1200000000; 1600000000; 2000000000; 2200000000] [0; 1; 2; 3; 0; 1])
  = map (λ t, {| tv_sec := 946638000 + t / 1000000; tv_usec := t `mod` 1000000 |})
      [400000000; 800000000; 1200000000; 1600000000; 2000000000; 2200000000].
Proof.
  apply (nzix_clock_exact 946638000 [400000000; 800000000; 1200000000; 1600000000; 2000000000; 2200000000] [0; 1; 2; 3; 0; 1]).
  - repeat constructor; lia.
  - done.
  - intros i t t' H1 H2. do 6 (destruct i as [|i]; [cbn in H1, H2; injection H1 as <-; injection H2 as <-; lia|]). done.
  - repeat constructor; lia.
Defined.

(** A packet that is slightly older than the one before, across a wrap of the field, is taken for
    a second wrap: it and all packets after it get a time that is 2^31 microseconds late. *)
Example nzix_clock_backwards :
  nzix_times (nzix_state 0 (2 ^ 30 + 5)) [nzix_field (2 ^ 30 - 5) 0; nzix_field (2 ^ 30 + 6) 0] =
    [{| tv_sec := 3221; tv_usec := 225467 |}; {| tv_sec := 3221; tv_usec := 225478 |}].
Proof. reflexivity. Qed.

(** ** Reading records *)
Section records.
Context {W : Wandio} {WF : WandioFile W}.
Implicit Types (t : file_trace) (o : packet_obj) (io : io_t).

(** A whole record, at the start of the buffer. *)
Lemma read_front io n buf rec rest :
  io_rest io = rec ++ rest → Zlen rec = n → n ≤ Zlen buf →
  ∃ io', wandio_read io n = (io', rec, n) ∧ io_rest io' = rest ∧ store buf 0 rec = Ok (rec ++ drop (Z.to_nat n) buf).
Proof using WF. intros H1 H2 H3. destruct (read_into io n buf rec rest 0) as (io' & E & Hr & Hs); try done. by exists io'. Qed.

(** The end of a file. *)
Lemma read_end io n buf : io_rest io = [] → 0 ≤ n → ∃ io', wandio_read io n = (io', [], 0) ∧ io_rest io' = [] ∧ store buf 0 [] = Ok buf.
Proof using WF.
  intros H Hn. destruct (wandio_read_spec io n Hn) as (io' & E & Hr). rewrite H in *. exists io'.
  rewrite take_nil in E. rewrite drop_nil in Hr. split_and!; [|done|].
  - rewrite E. by rewrite Z.min_r by (change (Zlen []) with 0; lia).
  - unfold store. rewrite (proj2 (Z.leb_le _ (Zlen buf))); [done|]. change (Zlen []) with 0. pose proof (Zlen_nonneg buf). lia.
Qed.

(** *** NZIX: two bytes of padding in the middle of the packet *)
Record nzix_record := { nz_ts : Z; nz_crc : Z; nz_len : Z; nz_front : list Z; nz_pad : list Z; nz_back : list Z }.

Definition nzix_bytes (r : nzix_record) : list Z :=
  (bytes32 (nz_ts r) ++ bytes32 (nz_crc r) ++ bytes32 (nz_len r)) ++ nz_front r ++ nz_pad r ++ nz_back r.

Definition nzix_ok (r : nzix_record) : Prop :=
  0 ≤ nz_ts r < 2 ^ 32 ∧ 0 ≤ nz_len r < 2 ^ 31 ∧ Zlen (nz_front r) = 26 ∧ Zlen (nz_pad r) = 2 ∧ Zlen (nz_back r) = 28.

Lemma nzix_bytes_len r : nzix_ok r → Zlen (nzix_bytes r) = 68.
Proof. intros (_ & _ & H1 & H2 & H3). unfold nzix_bytes. rewrite !Zlen_app, H1, H2, H3. done. Qed.

(** What a program sees of a packet that has been read. *)
Definition nzix_packet (r : nzix_record) o : Prop :=
  o_payload o = true ∧ take 54 (pk_mem (o_pkt o)) = nz_front r ++ nz_back r ∧ pk_payload (o_pkt o) = 0 ∧
  legacynzix_get_wire_length (o_pkt o) = Ok (nz_len r) ∧ read32 (pk_header (o_pkt o)) 0 = Ok (nz_ts r).

Lemma nzix_read_one fuel t o io buf r rest :
  nzix_ok r → Zlen buf = LIBTRACE_PACKET_BUFSIZE → io_rest io = nzix_bytes r ++ rest →
  ∃ io' buf', io_rest io' = rest ∧ Zlen buf' = LIBTRACE_PACKET_BUFSIZE ∧
    if nz_len r =? 0 then nzix_read_loop (S fuel) t o io buf = nzix_read_loop fuel t o io' buf'
    else ∃ o', nzix_read_loop (S fuel) t o io buf = Ok (ft_set t (Some io') (ft_err t), o', 68) ∧ nzix_packet r o' ∧ buffer_ok o'.
Proof using WF.
  intros Hr Hb Hio. pose proof (nzix_bytes_len r Hr) as Hn. destruct Hr as (H1 & H2 & H3 & H4 & H5).
  destruct (read_front io 68 buf (nzix_bytes r) rest) as (io' & E & Hio' & Hst); [done|done|lia|].
  set (buf' := nzix_bytes r ++ drop (Z.to_nat 68) buf) in *.
  assert (Zlen buf' = LIBTRACE_PACKET_BUFSIZE) as Hb'.
  { unfold buf'. rewrite Zlen_app, Hn. unfold Zlen in *. rewrite length_drop. lia. }
  exists io', buf'. split; [done|]. split; [done|]. cbn [nzix_read_loop]. rewrite E, Hst. cbn [obind]. cbn [Z.eqb Pos.eqb negb].
  assert (read32 buf' 8 = Ok (nz_len r)) as Hlen.
  { unfold buf', nzix_bytes. rewrite <- !(app_assoc (bytes32 _)). rewrite (app_assoc (bytes32 (nz_ts r))).
    apply (read32_bytes32 (bytes32 (nz_ts r) ++ bytes32 (nz_crc r)) (nz_len r)). lia. }
  rewrite Hlen. cbn [obind]. destruct (nz_len r =? 0) eqn:E0; [done|].
  set (hd := bytes32 (nz_ts r) ++ bytes32 (nz_crc r) ++ bytes32 (nz_len r)) in *.
  assert (buf' = hd ++ nz_front r ++ nz_pad r ++ nz_back r ++ drop (Z.to_nat 68) buf) as Eb.
  { unfold buf', nzix_bytes. fold hd. by rewrite <- !app_assoc. }
  assert (length hd = 12%nat) as Hhd by done.
  assert (slice buf' 12 26 = Ok (nz_front r)) as ->.
  { unfold slice. rewrite Hb'. cbn [Z.leb Z.compare andb]. change (Z.to_nat 12) with (length hd).
    rewrite Eb, drop_app_length. change (Z.to_nat 26) with 26%nat. rewrite take_app_length'; [done|unfold Zlen in H3; lia]. }
  cbn [obind]. rewrite store_app by lia. cbn [obind]. rewrite H3. change (Z.to_nat 14) with 14%nat. change (Z.to_nat (14 + 26)) with 40%nat.
  set (tl := drop (Z.to_nat 68) buf) in *.
  assert (drop 40 buf' = nz_back r ++ tl) as ->.
  { rewrite Eb, !app_assoc, <- (app_assoc ((hd ++ _) ++ _)). rewrite drop_app_length'; [done|].
    rewrite !length_app, Hhd. unfold Zlen in *. lia. }
  assert (∃ x y, take 14 buf' = hd ++ [x; y]) as (x & y & Ht).
  { destruct (nz_front r) as [|x [|y front]] eqn:Ef; [done|done|]. exists x, y. rewrite Eb.
    rewrite take_app, Hhd, take_ge by lia. done. }
  rewrite Ht. eexists. split; [done|].
  set (nb := (hd ++ [x; y]) ++ nz_front r ++ nz_back r ++ tl).
  assert (take 14 nb = hd ++ [x; y]) as T14 by (apply take_app_length'; by rewrite length_app, Hhd).
  assert (drop 14 nb = nz_front r ++ nz_back r ++ tl) as D14 by (apply drop_app_length'; by rewrite length_app, Hhd).
  split; [|right; right].
  - unfold nzix_packet, legacynzix_get_wire_length, legacy_prepare_packet, legacynzix_get_framing_length.
    cbn [o_payload o_pkt pk_set_buffer pk_mem pk_payload pk_header]. change (Z.to_nat 14) with 14%nat. rewrite T14, D14.
    split_and!; [done| |done| |].
    + rewrite app_assoc. apply take_app_length'. rewrite length_app. unfold Zlen in *. lia.
    + unfold hd. rewrite <- !app_assoc, (app_assoc (bytes32 (nz_ts r))).
      rewrite (read32_bytes32 (bytes32 (nz_ts r) ++ bytes32 (nz_crc r))) by lia. cbn [obind]. rewrite i32_small by lia. done.
    + unfold hd. rewrite <- !app_assoc. exact (read32_bytes32 [] _ _ H1).
  - unfold o_bytes, legacy_prepare_packet. cbn [o_pkt pk_set_buffer pk_header pk_mem]. rewrite take_drop. unfold nb.
    rewrite !Zlen_app, H3, H5. change (Zlen hd) with 12. unfold tl, Zlen in *. rewrite length_drop. cbn [length]. lia.
Qed.

(** *** A file of records

    The calls of a program that reads to the end: each returns [ret] and a packet that
    is [good] for the next record, and the last returns 0. *)
Fixpoint reads {R} (read : file_trace → packet_obj → outcome (file_trace * packet_obj * Z)) (ret : Z) (good : R → packet_obj → Prop)
    (rs : list R) t o : Prop :=
  match rs with
  | [] => ∃ t' o', read t o = Ok (t', o', 0)
  | r :: rs => ∃ t' o', read t o = Ok (t', o', ret) ∧ good r o' ∧ reads read ret good rs t' o'
  end.

(** The rest of the trace's file. *)
Definition at_rest t (bs : list Z) : Prop := ∃ io, ft_io t = Some io ∧ io_rest io = bs.

Lemma reads_concat {R} read ret (good : R → packet_obj → Prop) (ok : R → Prop) (bytes : R → list Z) :
  (∀ t o, buffer_ok o → at_rest t [] → ∃ t' o', read t o = Ok (t', o', 0)) →
  (∀ t o r rest, buffer_ok o → ok r → at_rest t (bytes r ++ rest) →
     ∃ t' o', read t o = Ok (t', o', ret) ∧ good r o' ∧ buffer_ok o' ∧ at_rest t' rest) →
  ∀ rs t o, buffer_ok o → Forall ok rs → at_rest t (concat (map bytes rs)) → reads read ret good rs t o.
Proof.
  intros Hend Hone. induction rs as [|r rs IH]; intros t o Hb Hok Hat; cbn [reads]; [by apply Hend|].
  apply Forall_cons in Hok as [Hr Hrs]. cbn [map concat] in Hat.
  destruct (Hone t o r _ Hb Hr Hat) as (t' & o' & E & Hg & Hb' & Hat'). exists t', o'. split; [done|]. split; [done|]. by apply IH.
Qed.

(** A record of [n] bytes, of which [framing] are in front of the payload. *)
Definition holds_record (framing n type : Z) (rec : list Z) o : Prop :=
  pk_type (o_pkt o) = type ∧ o_payload o = true ∧ pk_payload (o_pkt o) = 0 ∧
  pk_header (o_pkt o) = take (Z.to_nat framing) rec ∧ take (Z.to_nat (n - framing)) (pk_mem (o_pkt o)) = drop (Z.to_nat framing) rec.

Lemma prepared_record o buf rec tl framing n type :
  buf = rec ++ tl → Zlen rec = n → 0 ≤ framing ≤ n → Zlen buf = LIBTRACE_PACKET_BUFSIZE →
  let o' := legacy_prepare_packet o buf framing type true in holds_record framing n type rec o' ∧ buffer_ok o'.
Proof.
  intros Eb Hn Hf Hb. split; [|right; right].
  - unfold holds_record, legacy_prepare_packet. cbn [o_pkt o_payload pk_set_buffer pk_type pk_payload pk_header pk_mem].
    split_and!; try done; rewrite Eb.
    + rewrite take_app_le; [done|]. unfold Zlen in *. lia.
    + rewrite drop_app_le by (unfold Zlen in *; lia). apply take_app_length'. rewrite length_drop. unfold Zlen in *. lia.
  - unfold o_bytes, legacy_prepare_packet. cbn [o_pkt pk_set_buffer pk_header pk_mem]. by rewrite take_drop.
Qed.

Lemma front_size (buf rec : list Z) n : Zlen rec = n → 0 ≤ n ≤ Zlen buf → Zlen (rec ++ drop (Z.to_nat n) buf) = Zlen buf.
Proof. intros H1 H2. rewrite Zlen_app. unfold Zlen in *. rewrite length_drop. lia. Qed.

Context (fresh : list Z) (Hfresh : Zlen fresh = LIBTRACE_PACKET_BUFSIZE).

Lemma own_buffer_size o : buffer_ok o → Zlen (own_buffer fresh o) = LIBTRACE_PACKET_BUFSIZE.
Proof using Hfresh. apply (current_buffer fresh Hfresh). Qed.

(** TSH: the eight bytes of the header, then 36. *)
Lemma tsh_reads_file recs t o :
  buffer_ok o → Forall (λ rec, Zlen rec = 44) recs → at_rest t (concat recs) →
  reads (tsh_read_packet fresh) 80 (holds_record 8 44 TRACE_RT_DATA_TSH) recs t o.
Proof using Hfresh WF.
  intros Hb Hok Hat. rewrite <- (map_id recs) in Hat.
  eapply (reads_concat _ _ _ (λ rec, Zlen rec = 44) (λ rec, rec)); [| |exact Hb|exact Hok|exact Hat]; clear t o recs Hb Hok Hat.
  - intros t o Hb (io & Hio & Hr). unfold tsh_read_packet. rewrite Hio.
    destruct (read_end io 8 (own_buffer fresh o) Hr) as (io' & -> & _ & ->); [lia|]. by do 2 eexists.
  - intros t o rec rest Hb Hn (io & Hio & Hr). unfold tsh_read_packet. rewrite Hio. pose proof (own_buffer_size o Hb) as Hs.
    rewrite <- (take_drop 8 rec), <- app_assoc in Hr.
    assert (Zlen (take 8 rec) = 8 ∧ Zlen (drop 8 rec) = 36) as [L1 L2] by (unfold Zlen in *; rewrite length_take, length_drop; lia).
    destruct (read_front io 8 (own_buffer fresh o) (take 8 rec) (drop 8 rec ++ rest)) as (io1 & -> & Hr1 & ->); [done|done|lia|].
    cbn [obind Z.eqb Z.ltb Z.compare Pos.compare Pos.compare_cont].
    set (b0 := own_buffer fresh o) in *.
    destruct (read_into io1 36 (take 8 rec ++ drop (Z.to_nat 8) b0) (drop 8 rec) rest 8) as (io2 & -> & Hr2 & ->);
      [done|done|lia|rewrite front_size by lia; lia|].
    cbn [obind]. cbn [Z.eqb Pos.eqb negb].
    assert (take (Z.to_nat 8) (take 8 rec ++ drop (Z.to_nat 8) b0) = take 8 rec) as -> by (apply take_app_length'; unfold Zlen in *; lia).
    assert (drop (Z.to_nat (8 + 36)) (take 8 rec ++ drop (Z.to_nat 8) b0) = drop 44 b0) as ->.
    { change (Z.to_nat (8 + 36)) with 44%nat. rewrite drop_app_ge by (unfold Zlen in *; lia). rewrite drop_drop. f_equal. unfold Zlen in *. lia. }
    rewrite app_assoc, take_drop. do 2 eexists. split; [done|].
    destruct (prepared_record o (rec ++ drop 44 b0) rec (drop 44 b0) 8 44 TRACE_RT_DATA_TSH) as [H1 H2]; [done|done|lia| |].
    { change 44%nat with (Z.to_nat 44). rewrite front_size by lia. done. }
    split; [exact H1|]. split; [exact H2|]. by exists io2.
Qed.

(** Records that are read at once. *)
Lemma legacy_reads_file kind fuel recs t o :
  buffer_ok o → Forall (λ rec, Zlen rec = 64) recs → at_rest t (concat recs) →
  reads (legacy_read_packet fresh (S fuel) kind) 64 (holds_record (legacy_framing kind (o_pkt o)) 64 (legacy_type kind)) recs t o.
Proof using Hfresh WF.
  intros Hb Hok Hat. rewrite <- (map_id recs) in Hat.
  assert (∀ p q, legacy_framing kind p = legacy_framing kind q) as Hfr by by destruct kind.
  eapply (reads_concat _ _ _ (λ rec, Zlen rec = 64) (λ rec, rec)); [| |exact Hb|exact Hok|exact Hat]; clear t recs Hb Hok Hat.
  - intros t o1 Hb (io & Hio & Hr). unfold legacy_read_packet. rewrite Hio. cbn [legacy_read_loop].
    destruct (read_end io 64 (own_buffer fresh o1) Hr) as (io' & -> & _ & ->); [lia|]. by do 2 eexists.
  - intros t o1 rec rest Hb Hn (io & Hio & Hr). unfold legacy_read_packet. rewrite Hio. cbn [legacy_read_loop].
    pose proof (own_buffer_size o1 Hb) as Hs.
    destruct (read_front io 64 (own_buffer fresh o1) rec rest) as (io1 & -> & Hr1 & ->); [done|done|lia|].
    cbn [obind]. cbn [Z.eqb Pos.eqb negb]. do 2 eexists. split; [done|]. rewrite (Hfr (o_pkt o1) (o_pkt o)).
    destruct (prepared_record o1 (rec ++ drop (Z.to_nat 64) (own_buffer fresh o1)) rec (drop (Z.to_nat 64) (own_buffer fresh o1))
      (legacy_framing kind (o_pkt o)) 64 (legacy_type kind)) as [H1 H2]; [done|done|by destruct kind| |].
    { rewrite front_size by lia. done. }
    split; [exact H1|]. split; [exact H2|]. by exists io1.
Qed.

Lemma atmhdr_reads_file recs t o :
  buffer_ok o → Forall (λ rec, Zlen rec = 12) recs → at_rest t (concat recs) →
  reads (atmhdr_read_packet fresh) 12 (holds_record 8 12 TRACE_RT_DATA_ATMHDR) recs t o.
Proof using Hfresh WF.
  intros Hb Hok Hat. rewrite <- (map_id recs) in Hat.
  eapply (reads_concat _ _ _ (λ rec, Zlen rec = 12) (λ rec, rec)); [| |exact Hb|exact Hok|exact Hat]; clear t o recs Hb Hok Hat.
  - intros t o Hb (io & Hio & Hr). unfold atmhdr_read_packet. rewrite Hio.
    destruct (read_end io 12 (own_buffer fresh o) Hr) as (io' & -> & _ & ->); [lia|]. by do 2 eexists.
  - intros t o rec rest Hb Hn (io & Hio & Hr). unfold atmhdr_read_packet. rewrite Hio. pose proof (own_buffer_size o Hb) as Hs.
    destruct (read_front io 12 (own_buffer fresh o) rec rest) as (io1 & -> & Hr1 & ->); [done|done|lia|].
    cbn [obind]. cbn [Z.eqb Pos.eqb negb]. do 2 eexists. split; [done|].
    destruct (prepared_record o (rec ++ drop (Z.to_nat 12) (own_buffer fresh o)) rec (drop (Z.to_nat 12) (own_buffer fresh o)) 8 12
      TRACE_RT_DATA_ATMHDR) as [H1 H2]; [done|done|lia| |].
    { rewrite front_size by lia. done. }
    split; [exact H1|]. split; [exact H2|]. by exists io1.
Qed.

(** *** NZIX files *)
Definition nz_is_packet (r : nzix_record) : Prop := nz_len r ≠ 0.

Lemma nzix_loop_ok rs : ∀ fuel t o io buf,
  (length rs < fuel)%nat → Forall nzix_ok rs → Zlen buf = LIBTRACE_PACKET_BUFSIZE → io_rest io = concat (map nzix_bytes rs) →
  match filter nz_is_packet rs with
  | [] => ∃ t' o', nzix_read_loop fuel t o io buf = Ok (t', o', 0)
  | r :: rs' => ∃ t' o' rest, nzix_read_loop fuel t o io buf = Ok (t', o', 68) ∧ nzix_packet r o' ∧ buffer_ok o' ∧
      at_rest t' (concat (map nzix_bytes rest)) ∧ Forall nzix_ok rest ∧ filter nz_is_packet rest = rs' ∧ (length rest < length rs)%nat
  end.
Proof using WF.
  clear. induction rs as [|r rs IH]; intros fuel t o io buf Hf Hok Hb Hio; (destruct fuel as [|fuel]; [cbn in Hf; lia|]).
  - cbn. destruct (read_end io 68 buf Hio) as (io' & -> & _ & ->); [lia|]. by do 2 eexists.
  - apply Forall_cons in Hok as [Hr Hrs]. cbn [map concat length] in *.
    destruct (nzix_read_one fuel t o io buf r _ Hr Hb Hio) as (io' & buf' & Hio' & Hb' & H). rewrite filter_cons.
    destruct (nz_len r =? 0) eqn:E.
    + rewrite decide_False by (unfold nz_is_packet; lia). rewrite H.
      specialize (IH fuel t o io' buf' ltac:(lia) Hrs Hb' Hio'). destruct (filter nz_is_packet rs); [done|].
      destruct IH as (t' & o' & rest & H1 & H2 & H3 & H4 & H5 & H6 & H7). exists t', o', rest. split_and!; try done. lia.
    + rewrite decide_True by (unfold nz_is_packet; lia). destruct H as (o' & H1 & H2 & H3).
      do 2 eexists. exists rs. split_and!; try done; [by exists io'|lia].
Qed.

(** Reading an NZIX file to its end gives, in order, every record that is a packet, with its
    54 bytes put together again around the padding, its wire length and time field; the
    clock reports, whose length is 0, are left out. *)
Theorem nzix_file_read rs t o fuel :
  Forall nzix_ok rs → buffer_ok o → at_rest t (concat (map nzix_bytes rs)) → (length rs < fuel)%nat →
  reads (legacynzix_read_packet fresh fuel) 68 nzix_packet (filter nz_is_packet rs) t o.
Proof using Hfresh WF.
  remember (filter nz_is_packet rs) as ps eqn:E. intros Hok Hb (io & Hio & Hr) Hf.
  revert rs t o io E Hok Hb Hio Hr Hf. induction ps as [|r ps IH]; intros rs t o io E Hok Hb Hio Hr Hf; cbn [reads];
    pose proof (nzix_loop_ok rs fuel t o io (own_buffer fresh o) Hf Hok (own_buffer_size o Hb) Hr) as H; rewrite <- E in H.
  - unfold legacynzix_read_packet. by rewrite Hio.
  - destruct H as (t' & o' & rest & H1 & H2 & H3 & (io' & H4 & H4') & H5 & H6 & H7). exists t', o'.
    split; [unfold legacynzix_read_packet; by rewrite Hio|]. split; [done|]. apply (IH rest t' o' io'); try done. lia.
Qed.

(** Reading a file of TSH, legacy or ATM header records to its end gives every record in
    order: the framing header and behind it the captured bytes. *)
Theorem fixed_records_read recs t o kind fuel :
  buffer_ok o → at_rest t (concat recs) →
  (Forall (λ rec, Zlen rec = 44) recs → reads (tsh_read_packet fresh) 80 (holds_record 8 44 TRACE_RT_DATA_TSH) recs t o) ∧
  (Forall (λ rec, Zlen rec = 64) recs →
     reads (legacy_read_packet fresh (S fuel) kind) 64 (holds_record (legacy_framing kind (o_pkt o)) 64 (legacy_type kind)) recs t o) ∧
  (Forall (λ rec, Zlen rec = 12) recs → reads (atmhdr_read_packet fresh) 12 (holds_record 8 12 TRACE_RT_DATA_ATMHDR) recs t o).
Proof using Hfresh WF.
  intros Hb Hat. split_and!; intros Hok; [by apply tsh_reads_file|by apply legacy_reads_file|by apply atmhdr_reads_file].
Qed.

(** *** DUCK files *)
Fixpoint duck_write_all (out : duck_out) (n : Z) (ps : list libtrace_packet_t) : outcome duck_out :=
  match ps with
  | [] => Ok out
  | p :: ps => let! ' (out, ret) := duck_write_packet out p n in let! _ := oassert (ret =? n) in duck_write_all out n ps
  end.

(** A packet with the report [bs]. *)
Definition duck_packet (ty n : Z) (bs : list Z) (p : libtrace_packet_t) : Prop :=
  pk_type p = ty ∧ slice (pk_mem p) (pk_payload p) n = Ok bs.

Fixpoint duck_reads (ty n : Z) (bss : list (list Z)) t (version : Z) o : Prop :=
  match bss with
  | [] => ∃ t' o', duck_read_packet fresh t version o = Ok (t', ty, o', 0)
  | bs :: bss => ∃ t' o', duck_read_packet fresh t version o = Ok (t', ty, o', n) ∧ duck_packet ty n bs (o_pkt o') ∧
      duck_reads ty n bss t' ty o'
  end.

Lemma duck_size_cases ty n : duck_size ty = Some n →
  (ty = TRACE_RT_DUCK_2_4 ∨ ty = TRACE_RT_DUCK_2_5 ∨ ty = TRACE_RT_DUCK_5_0) ∧ 84 ≤ n ≤ 112.
Proof.
  clear. unfold duck_size. destruct (Z.eqb_spec ty TRACE_RT_DUCK_2_4); [intros [= <-]; lia|].
  destruct (Z.eqb_spec ty TRACE_RT_DUCK_2_5); [intros [= <-]; lia|]. destruct (Z.eqb_spec ty TRACE_RT_DUCK_5_0); [intros [= <-]; lia|done].
Qed.

Lemma duck_type_test ty n : duck_size ty = Some n →
  negb (ty =? TRACE_RT_DUCK_2_4) && negb (ty =? TRACE_RT_DUCK_2_5) && negb (ty =? TRACE_RT_DUCK_5_0) = false.
Proof. clear. intros H. apply duck_size_cases in H as [[->|[->| ->]] _]; done. Qed.

Lemma duck_packet_len ty n bs p : 0 ≤ n → duck_packet ty n bs p → Zlen bs = n.
Proof.
  clear. intros Hn [_ H]. unfold slice in H. destruct (_ && _) eqn:E; [|done]. injection H as <-.
  apply andb_prop in E as [E1 E2]. unfold Zlen in *. rewrite length_take, length_drop. lia.
Qed.

Lemma duck_write_one ty n out f p bs :
  duck_size ty = Some n → duck_packet ty n bs p → do_file out = Some f → do_dag_version out = 0 ∨ do_dag_version out = ty →
  ∃ out' f', duck_write_packet out p n = Ok (out', n) ∧ do_file out' = Some f' ∧ do_dag_version out' = ty ∧
    iow_bytes f' = iow_bytes f ++ (if do_dag_version out =? 0 then bytes32 ty else []) ++ bs.
Proof using WF.
  clear fresh Hfresh. intros Hty Hp Hf Hv. pose proof (duck_size_cases ty n Hty) as [Hc Hn].
  pose proof (duck_packet_len ty n bs p ltac:(lia) Hp) as Hlen. destruct Hp as [Ht Hs].
  unfold duck_write_packet. rewrite Ht, (duck_type_test ty n Hty), Hf.
  assert (∃ f1, (if do_dag_version out =? 0 then wandio_wwrite f (bytes32 ty) else (f, 4)) = (f1, 4) ∧
    iow_bytes f1 = iow_bytes f ++ (if do_dag_version out =? 0 then bytes32 ty else [])) as (f1 & -> & H1).
  { destruct (do_dag_version out =? 0); [|exists f; by rewrite app_nil_r].
    destruct (wandio_wwrite_spec f (bytes32 ty)) as (f1 & E & H1). by exists f1. }
  cbn [Z.eqb Pos.eqb negb]. rewrite Hs. cbn [obind]. destruct (wandio_wwrite_spec f1 bs) as (f2 & -> & H2).
  rewrite Hlen, Z.eqb_refl. cbn [negb]. do 2 eexists. split; [done|]. split; [done|].
  split; [|by rewrite H2, H1, <- app_assoc]. cbn. destruct Hv as [->| ->]; [done|]. by destruct (ty =? 0).
Qed.

Lemma duck_write_all_ok ty n bss : duck_size ty = Some n → ∀ ps out f,
  Forall2 (duck_packet ty n) bss ps → do_file out = Some f → do_dag_version out = ty →
  ∃ out' f', duck_write_all out n ps = Ok out' ∧ do_file out' = Some f' ∧ iow_bytes f' = iow_bytes f ++ concat bss.
Proof using WF.
  clear fresh Hfresh. intros Hty. assert (ty ≠ 0) as Hne by (apply duck_size_cases in Hty as [Hc _]; lia).
  induction bss as [|bs bss IH]; intros ps out f Hps Hf Hv; apply Forall2_cons_inv_l in Hps || apply Forall2_nil_inv_l in Hps.
  - subst ps. exists out, f. by rewrite app_nil_r.
  - destruct Hps as (p & ps' & Hp & Hps & ->).
    destruct (duck_write_one ty n out f p bs) as (out1 & f1 & E & Hf1 & Hv1 & Hb1); [done|done|done|by right|].
    cbn [duck_write_all]. rewrite E. cbn [obind]. rewrite Z.eqb_refl. cbn [oassert obind].
    destruct (IH ps' out1 f1 Hps Hf1 Hv1) as (out' & f' & E' & Hf' & Hb'). exists out', f'. split_and!; [done|done|].
    rewrite Hb', Hb1, Hv, (proj2 (Z.eqb_neq ty 0) Hne). cbn [concat app]. by rewrite <- app_assoc.
Qed.

(** One report, with or without the version in front. *)
Lemma duck_read_one ty n t o version bs rest :
  duck_size ty = Some n → Zlen bs = n → buffer_ok o → version = 0 ∨ version = ty →
  at_rest t ((if version =? 0 then bytes32 ty else []) ++ bs ++ rest) →
  ∃ t' o', duck_read_packet fresh t version o = Ok (t', ty, o', n) ∧ duck_packet ty n bs (o_pkt o') ∧ buffer_ok o' ∧ at_rest t' rest.
Proof using Hfresh WF.
  intros Hty Hlen Hb Hv (io & Hio & Hr). pose proof (duck_size_cases ty n Hty) as [Hc Hn].
  unfold duck_read_packet. rewrite Hio.
  assert (∃ io1, duck_read_version t io version = Ok (io1, ty, None) ∧ io_rest io1 = bs ++ rest) as (io1 & -> & Hr1).
  { unfold duck_read_version. destruct (version =? 0) eqn:E.
    - destruct (read_front io 4 (bytes32 ty) (bytes32 ty) (bs ++ rest)) as (io1 & -> & H1 & _); [done|done|done|].
      cbn [Z.eqb Pos.eqb negb]. pose proof (read32_bytes32 [] ty [] ltac:(lia)) as Hrd. rewrite app_nil_r in Hrd.
      cbn [app] in Hrd. change (Zlen []) with 0 in Hrd. rewrite Hrd. cbn [obind]. by exists io1.
    - assert (version = ty) as -> by lia. by exists io. }
  cbn [obind]. rewrite Hty. pose proof (own_buffer_size o Hb) as Hs.
  destruct (read_front io1 n (own_buffer fresh o) bs rest) as (io2 & -> & Hr2 & ->); [done|done|lia|].
  cbn [obind]. rewrite Z.eqb_refl. do 2 eexists. split; [done|].
  split_and!; [split; [done|]|right; right|by exists io2]; unfold duck_prepare_packet; cbn [o_pkt pk_set_buffer pk_mem pk_payload pk_header].
  - unfold slice. cbn [Z.leb Z.compare andb Z.add Z.to_nat take drop]. rewrite !drop_0, front_size by lia.
    rewrite (proj2 (Z.leb_le n _)) by lia. f_equal. apply take_app_length'. unfold Zlen in *. lia.
  - unfold o_bytes. cbn [o_pkt pk_set_buffer pk_header pk_mem]. rewrite take_drop, front_size by lia. done.
Qed.

Lemma duck_reads_ok ty n bss : duck_size ty = Some n → Forall (λ bs, Zlen bs = n) bss → ∀ t o,
  buffer_ok o → at_rest t (concat bss) → duck_reads ty n bss t ty o.
Proof using Hfresh WF.
  intros Hty Hall. pose proof (duck_size_cases ty n Hty) as [Hc Hn].
  assert ((ty =? 0) = false) as Hz by lia.
  induction bss as [|bs bss IH]; intros t o Hb Hat; cbn [duck_reads].
  - destruct Hat as (io & Hio & Hr). unfold duck_read_packet, duck_read_version. rewrite Hio, Hz. cbn [obind]. rewrite Hty.
    destruct (read_end io n (own_buffer fresh o) Hr) as (io' & -> & _ & ->); [lia|]. cbn [obind].
    rewrite (proj2 (Z.eqb_neq 0 n)) by lia. cbn [Z.eqb]. by do 2 eexists.
  - apply Forall_cons in Hall as [Hbs Hall]. cbn [concat] in Hat.
    destruct (duck_read_one ty n t o ty bs (concat bss)) as (t' & o' & E & Hp & Hb' & Hat'); [done|done|done|by right|by rewrite Hz|].
    exists t', o'. split; [done|]. split; [done|]. by apply IH.
Qed.

(** DUCK reports of one version written to a new file and read again come back, in order,
    byte for byte, and then the end of the file. *)
Theorem duck_roundtrip ty n ps bss out f0 :
  duck_size ty = Some n → Forall2 (duck_packet ty n) bss ps → ps ≠ [] →
  do_file out = Some f0 → iow_bytes f0 = [] → do_dag_version out = 0 →
  ∃ out' f, duck_write_all out n ps = Ok out' ∧ do_file out' = Some f ∧
    ∀ t o, buffer_ok o → at_rest t (iow_bytes f) → duck_reads ty n bss t 0 o.
Proof using Hfresh WF.
  intros Hty Hps Hne Hf Hf0 Hv. pose proof (duck_size_cases ty n Hty) as [Hc Hn].
  assert (Forall (λ bs, Zlen bs = n) bss) as Hall.
  { clear -Hps Hn. induction Hps; constructor; [|done]. eapply duck_packet_len; [lia|done]. }
  destruct bss as [|bs bss]; [by apply Forall2_nil_inv_l in Hps|]. apply Forall2_cons_inv_l in Hps as (p & ps' & Hp & Hps & ->).
  destruct (duck_write_one ty n out f0 p bs) as (out1 & f1 & E & Hf1 & Hv1 & Hb1); [done|done|done|by left|].
  destruct (duck_write_all_ok ty n bss Hty ps' out1 f1 Hps Hf1 Hv1) as (out' & f' & E' & Hf' & Hb').
  exists out', f'. cbn [duck_write_all]. rewrite E. cbn [obind]. rewrite Z.eqb_refl. cbn [oassert obind]. split; [done|]. split; [done|].
  intros t o Hb Hat. rewrite Hb', Hb1, Hf0, Hv in Hat. cbn [app Z.eqb] in Hat. rewrite <- app_assoc in Hat.
  apply Forall_cons in Hall as [Hbs Hall]. cbn [duck_reads].
  destruct (duck_read_one ty n t o 0 bs (concat bss)) as (t' & o' & E1 & Hp1 & Hb1' & Hat'); [done|done|done|by left|done|].
  exists t', o'. split; [done|]. split; [done|]. by apply duck_reads_ok.
Qed.
End records.

(** ** What the headers say *)
Lemma land_upper_24 n : 0 ≤ n < 2 ^ 32 → Z.land n 0xFFFFFF00 = n / 256 * 256.
Proof.
  intros Hn. change 0xFFFFFF00 with (Z.ldiff (Z.ones 32) (Z.ones 8)). rewrite Z.ldiff_land, Z.land_assoc, <- Z.ldiff_land.
  rewrite Z.land_ones, Z.mod_small by lia. rewrite Z.ldiff_ones_r, Z.shiftr_div_pow2, Z.shiftl_mul_pow2 by lia. done.
Qed.

(** The header of a TSH record: the seconds, the interface and the microseconds, in network
    order. *)
Lemma tsh_header_fields p a b c d i x y z :
  pk_header p = [a; b; c; d; i; x; y; z] → bytes_ok [a; b; c; d; i; x; y; z] →
  tsh_get_direction p = Ok i ∧
  tsh_get_timeval p = Ok {| tv_sec := d + 256 * c + 65536 * b + 16777216 * a; tv_usec := z + 256 * y + 65536 * x |}.
Proof.
  intros Hh Hb. rewrite !bytes_ok_cons in Hb. destruct Hb as (Ha & Hb & Hc & Hd & Hi & Hx & Hy & Hz & _).
  unfold tsh_get_direction, tsh_get_timeval, be32. rewrite Hh.
  change (read32 [a; b; c; d; i; x; y; z] 0) with (Ok (a + 256 * b + 2 ^ 16 * (c + 256 * d))).
  change (read32 [a; b; c; d; i; x; y; z] 4) with (Ok (i + 256 * x + 2 ^ 16 * (y + 256 * z))). cbn [obind].
  set (n := i + 256 * x + 2 ^ 16 * (y + 256 * z)).
  change (byteswap32 0xFF000000) with (2 ^ 8 - 1). change (byteswap32 0x00FFFFFF) with 0xFFFFFF00.
  rewrite land_ones_mod by lia. rewrite land_upper_24 by lia. split; f_equal.
  - replace (n `mod` 2 ^ 8) with (i + 256 * 0 + 65536 * 0 + 16777216 * 0) by (subst n; lia).
    rewrite byteswap32_bytes by lia. rewrite Z.shiftr_div_pow2 by lia. lia.
  - replace (a + 256 * b + 2 ^ 16 * (c + 256 * d)) with (a + 256 * b + 65536 * c + 16777216 * d) by lia.
    replace (n / 256 * 256) with (0 + 256 * x + 65536 * y + 16777216 * z) by (subst n; lia).
    rewrite !byteswap32_bytes by lia. f_equal; lia.
Qed.

(** ** Concrete files *)
Definition file_of (bs : list Z) : @file_trace memory_wandio := {| ft_uridata := []; ft_io := Some bs; ft_err := 0 |}.
Definition no_packet : packet_obj :=
  {| o_pkt := o_pkt (sample_obj []); o_buffer := false; o_header := false; o_payload := false; o_buf_control := TRACE_CTRL_PACKET |}.

(** The capture length of the legacy formats counts the framing header as well, so that the
    last bytes that a program may look at are left over from the packet before. *)
Example legacy_capture_stale : ∃ t' o',
  legacy_read_packet (W := memory_wandio) (replicate (Z.to_nat 65536) 7) 1 LEGACY_ETH
    (file_of (replicate 64 1)) no_packet = Ok (t', o', 64) ∧
  take (Z.to_nat (legacy_get_capture_length (o_pkt o'))) (pk_mem (o_pkt o')) = replicate 54 1 ++ replicate 10 7.
Proof. by do 2 eexists. Qed.

Definition zero_buffer : list Z := replicate (Z.to_nat LIBTRACE_PACKET_BUFSIZE) 0.
Lemma zero_buffer_size : Zlen zero_buffer = LIBTRACE_PACKET_BUFSIZE.
Proof. unfold zero_buffer. by rewrite Zlen_replicate, Z2Nat.id by lia. Qed.

Definition sample_nzix (len : Z) : nzix_record :=
  {| nz_ts := 400; nz_crc := 0; nz_len := len; nz_front := replicate 26 1; nz_pad := [0; 0]; nz_back := replicate 28 2 |}.

Definition sample_nzix_file : list nzix_record := [sample_nzix 60; sample_nzix 0; sample_nzix 1500].

Lemma nzix_file_read_witness :
  filter nz_is_packet sample_nzix_file = [sample_nzix 60; sample_nzix 1500] ∧
  reads (legacynzix_read_packet (W := memory_wandio) zero_buffer 4) 68 nzix_packet (filter nz_is_packet sample_nzix_file)
    (file_of (concat (map nzix_bytes sample_nzix_file))) no_packet.
Proof.
  split; [reflexivity|].
  refine (nzix_file_read (WF := memory_wandio_file) zero_buffer zero_buffer_size sample_nzix_file
    (file_of (concat (map nzix_bytes sample_nzix_file))) no_packet 4 _ _ _ _).
  - unfold sample_nzix_file. repeat constructor; cbn; lia.
  - by left.
  - by eexists.
  - cbn. lia.
Defined.

Lemma fixed_records_read_witness :
  reads (tsh_read_packet (W := memory_wandio) zero_buffer) 80 (holds_record 8 44 TRACE_RT_DATA_TSH)
    [replicate 44 1; replicate 44 2] (file_of (concat [replicate 44 1; replicate 44 2])) no_packet.
Proof.
  refine (proj1 (fixed_records_read (WF := memory_wandio_file) zero_buffer zero_buffer_size [replicate 44 1; replicate 44 2]
    (file_of (concat [replicate 44 1; replicate 44 2])) no_packet LEGACY_ETH 0 _ _) _).
  - by left.
  - by eexists.
  - by repeat constructor.
Defined.

Definition duck_sample (x : Z) : libtrace_packet_t := pk_set_buffer (o_pkt (sample_obj [])) (replicate 84 x) 0 TRACE_RT_DUCK_2_5.

Lemma duck_roundtrip_witness : ∃ out' f,
  duck_write_all (W := memory_wandio) (do_set (W := memory_wandio) (duck_init_output (W := memory_wandio) []) (Some []) 0 0) 84 [duck_sample 1; duck_sample 2] = Ok out' ∧
  do_file (W := memory_wandio) out' = Some f ∧
  duck_reads (W := memory_wandio) zero_buffer TRACE_RT_DUCK_2_5 84 [replicate 84 1; replicate 84 2] (file_of f) 0 no_packet.
Proof.
  destruct (duck_roundtrip (WF := memory_wandio_file) zero_buffer zero_buffer_size TRACE_RT_DUCK_2_5 84 [duck_sample 1; duck_sample 2]
    [replicate 84 1; replicate 84 2] (do_set (W := memory_wandio) (duck_init_output (W := memory_wandio) []) (Some []) 0 0) [])
    as (out' & f & H1 & H2 & H3); try done.
  - repeat constructor.
  - exists out', f. split; [done|]. split; [done|]. apply H3; [by left|by eexists].
Defined.
