(* ===== verification/Events.v ===== *)
(** * Events: trace_event of lib/trace.c and its functions in lib/format_helper.c

    A program that may not block asks [trace_event] what there is to do: a packet
    has arrived, the program is to wait for a file descriptor or for some seconds,
    or the trace has ended.  [trace_event_trace] plays a trace file back with the
    gaps between its packets: it reads a packet ahead into a packet of its own and
    gives it out when it is due.  [trace_event_device] looks whether a device has
    data.  [erf_event] and [pcapfile_event] are the event functions of two formats.

    What the trace keeps between the calls, [libtrace_event_status_t], is passed
    next to the objects of Trace.v.  When a packet is given out, the program's
    packet gets the pointers of the trace's own packet: both then have the same
    buffer, which is filled again only by a later call, after it has finished the
    program's packet. *)

From Stdlib Require Import SpecFloat.
From S2P Require Import Prelude DNodes Packet Timestamps FormatHelper PcapFile Buckets Filter Trace.
Local Open Scope Z_scope.
Local Open Scope outcome_scope.

Inductive event_type := TRACE_EVENT_IOWAIT | TRACE_EVENT_SLEEP | TRACE_EVENT_PACKET | TRACE_EVENT_TERMINATE.
#[export] Instance event_type_eq_dec : EqDecision event_type.
Proof. solve_decision. Defined.

Record libtrace_eventobj_t := {
  eo_type : event_type;
  eo_fd : Z;
  eo_seconds : double;
  eo_size : Z;
}.

(** [{0,0,0.0,0}], with a type set later. *)
Definition event_of (type : event_type) : libtrace_eventobj_t :=
  {| eo_type := type; eo_fd := 0; eo_seconds := S754_zero false; eo_size := 0 |}.

Record libtrace_event_status_t := {
  ev_packet : option loc;
  ev_tdelta : double;
  ev_trace_last_ts : double;
  ev_psize : Z;
  ev_waiting : bool;
}.

(** The status of a new trace. *)
Definition new_status : libtrace_event_status_t :=
  {| ev_packet := None; ev_tdelta := S754_zero false; ev_trace_last_ts := S754_zero false; ev_psize := 0;
     ev_waiting := false |}.

(** The numbers [1e-9] and [tv_sec + ((double)tv_usec / 1000000.0)]. *)
Definition one_nanosecond : double := S754_finite false 4835703278458517 (-82).
Definition seconds_of (tv : timeval) : double :=
  dadd (double_of_int (tv_sec tv)) (ddiv (double_of_int (tv_usec tv)) (double_of_int 1000000)).

(** [packet->type], [header], [payload], [buffer] and [buf_control] of the packet [e],
    and its [trace]. *)
Definition take_over (pk e : packet) : packet :=
  let o := tp_obj e in
  let q := o_pkt (tp_obj pk) in
  {| tp_obj :=
       {| o_pkt :=
            {| pk_header := pk_header (o_pkt o); pk_mem := pk_mem (o_pkt o); pk_payload := pk_payload (o_pkt o);
               pk_type := pk_type (o_pkt o); pk_capture_length := pk_capture_length q;
               pk_wire_length := pk_wire_length q; pk_payload_length := pk_payload_length q;
               pk_l2_header := pk_l2_header q; pk_link_type := pk_link_type q; pk_l2_remaining := pk_l2_remaining q;
               pk_l3_header := pk_l3_header q; pk_l3_ethertype := pk_l3_ethertype q;
               pk_l3_remaining := pk_l3_remaining q; pk_l4_header := pk_l4_header q;
               pk_transport_proto := pk_transport_proto q; pk_l4_remaining := pk_l4_remaining q |};
          o_buffer := o_buffer o; o_header := o_header o; o_payload := o_payload o;
          o_buf_control := o_buf_control o |};
     tp_trace := tp_trace e; tp_order := tp_order pk; tp_hash := tp_hash pk; tp_srcbucket := tp_srcbucket pk;
     tp_internalid := tp_internalid pk |}.

(** [buffer], [header] and [payload] are null and the buffer is not the packet's. *)
Definition disown (pk : packet) : packet :=
  tp_set_obj pk {| o_pkt := o_pkt (tp_obj pk); o_buffer := false; o_header := false; o_payload := false;
                   o_buf_control := TRACE_CTRL_EXTERNAL |}.

Section events.
Context {F prog : Type}.
Variable pcap_compile : Z → list Z → option prog.
Variable bpf_filter : prog → list Z → Z.
(** The contents of newly allocated memory, and the address of a new packet. *)
Variable fresh_mem : list Z.
Variable new_address : world F prog → loc.
Implicit Types (w : world F prog) (t p : loc) (tr : libtrace_t F).

(** [trace_perror] prints the error and clears it. *)
Definition trace_perror w t : outcome (world F prog) :=
  let! tr := load (w_traces w) t in Ok (set_trace w t (tr_set_err tr 0)).

Definition perror_if_err w t : outcome (world F prog) :=
  let! tr := load (w_traces w) t in if trace_is_err tr then trace_perror w t else Ok w.

(** ** Trace files

    A packet to give out: read if none is waiting, [None] at the end of the trace. *)
Definition next_event_packet (fuel : nat) w t p (ev : libtrace_event_status_t)
  : outcome (world F prog * libtrace_event_status_t * option loc) :=
  let '(w, e) :=
    match ev_packet ev with
    | Some e => (w, e)
    | None => (trace_create_packet w (new_address w), new_address w)
    end in
  let set packet psize :=
    {| ev_packet := packet; ev_tdelta := ev_tdelta ev; ev_trace_last_ts := ev_trace_last_ts ev; ev_psize := psize;
       ev_waiting := ev_waiting ev |} in
  if ev_waiting ev then Ok (w, set (Some e) (ev_psize ev), Some e)
  else
    let! ' (w, psize) := trace_read_packet pcap_compile bpf_filter fresh_mem fuel w t e in
    if psize <? 1 then
      let! w := perror_if_err w t in
      let! w := trace_destroy_packet w e in
      let! pk := load (w_packets w) p in
      Ok (set_packet w p (disown pk), set None psize, None)
    else Ok (w, set (Some e) psize, Some e).

(** [stv] is the time of day. *)
Definition trace_event_trace (fuel : nat) w t p (ev : libtrace_event_status_t) (stv : timeval)
  : outcome (world F prog * libtrace_event_status_t * libtrace_eventobj_t) :=
  let! ' (w, ev, next) := next_event_packet fuel w t p ev in
  match next with
  | None => Ok (w, ev, event_of TRACE_EVENT_TERMINATE)
  | Some e =>
      let! tr := load (w_traces w) t in
      let! pke := load (w_packets w) e in
      let ts := trace_get_seconds (tr_time (fm_table (tr_module tr) (tr_data tr))) (o_pkt (tp_obj pke)) in
      let now := seconds_of stv in
      let replaying := SFltb one_nanosecond (SFabs (ev_tdelta ev)) in
      if replaying && SFltb (dsub now (ev_tdelta ev)) ts then
        Ok (w,
            {| ev_packet := Some e; ev_tdelta := ev_tdelta ev; ev_trace_last_ts := ts; ev_psize := ev_psize ev;
               ev_waiting := true |},
            {| eo_type := TRACE_EVENT_SLEEP; eo_fd := 0; eo_seconds := dsub ts (ev_trace_last_ts ev); eo_size := 0 |})
      else
        let tdelta := if replaying then ev_tdelta ev else dsub now ts in
        let! pk := load (w_packets w) p in
        Ok (set_packet w p (take_over pk pke),
            {| ev_packet := Some e; ev_tdelta := tdelta; ev_trace_last_ts := ts; ev_psize := ev_psize ev;
               ev_waiting := false |},
            event_of TRACE_EVENT_PACKET)
  end.

(** The event function of ERF and pcap files: as fast as possible if [real_time] is
    set. *)
Definition file_event (real_time : bool) (fuel : nat) w t p (ev : libtrace_event_status_t) (stv : timeval)
  : outcome (world F prog * libtrace_event_status_t * libtrace_eventobj_t) :=
  if real_time then
    let! ' (w, size) := trace_read_packet pcap_compile bpf_filter fresh_mem fuel w t p in
    Ok (w, ev, {| eo_type := if size <? 1 then TRACE_EVENT_TERMINATE else TRACE_EVENT_PACKET; eo_fd := 0;
                  eo_seconds := S754_zero false; eo_size := size |})
  else trace_event_trace fuel w t p ev stv.

Definition erf_event := file_event.
Definition pcapfile_event := file_event.

(** ** Devices

    What [select] says: an error, an interrupted call, or whether the descriptor is
    ready. *)
Inductive select_result := SelectError | SelectInterrupted | SelectReady (ready : bool).

(** The answer of the first call of [select] that is not interrupted. *)
Fixpoint poll_device (answers : list select_result) : outcome (option bool) :=
  match answers with
  | [] => Fault OutOfFuel
  | SelectError :: _ => Ok None
  | SelectInterrupted :: answers' => poll_device answers'
  | SelectReady ready :: _ => Ok (Some ready)
  end.

(** [fd] is what [get_fd] returns, [None] if the format has none: then no descriptor
    is looked at. *)
Definition trace_event_device (fuel : nat) w t p (fd : option Z) (answers : list select_result)
  : outcome (world F prog * libtrace_eventobj_t) :=
  let event type size := {| eo_type := type; eo_fd := default 0 fd; eo_seconds := S754_zero false; eo_size := size |} in
  let! ready := poll_device answers in
  match ready with
  | None => Ok (w, event TRACE_EVENT_TERMINATE 0)
  | Some ready =>
      if bool_decide (is_Some fd) && ready then
        let! ' (w, size) := trace_read_packet pcap_compile bpf_filter fresh_mem fuel w t p in
        if size <? 1 then
          let! w := perror_if_err w t in
          Ok (w, event TRACE_EVENT_TERMINATE size)
        else Ok (w, event TRACE_EVENT_PACKET size)
      else Ok (w, event TRACE_EVENT_IOWAIT 0)
  end.

(** ** The call *)
Definition event_function := world F prog → loc → loc → libtrace_event_status_t →
  outcome (world F prog * libtrace_event_status_t * libtrace_eventobj_t).

Definition trace_event (format_event : option event_function) w t p (ev : libtrace_event_status_t)
  : outcome (world F prog * libtrace_event_status_t * libtrace_eventobj_t) :=
  let! w := trace_fin_packet w p in
  let! pk := load (w_packets w) p in
  let w := set_packet w p (tp_set_trace pk (Some t)) in
  match format_event with
  | Some f => f w t p ev
  | None => Ok (w, ev, event_of TRACE_EVENT_IOWAIT)
  end.
End events.

(** ** Traces whose packets can be told apart

    [left data] is what the packets still to be read contain, as [content] sees it;
    reading gives them one after the other, sets no error and uses no buckets. *)
Section replay.
Context {F prog A : Type} (pcap_compile : Z → list Z → option prog) (bpf_filter : prog → list Z → Z) (fresh_mem : list Z).
Implicit Types (w : world F prog) (t p e : loc) (tr : libtrace_t F) (ev : libtrace_event_status_t).
Context (content : libtrace_packet_t → A) (left : F → list A).

Definition content_reader (read : F → gmap loc libtrace_bucket_t → packet_obj → outcome (read_result F)) : Prop :=
  ∀ data bs o, ∃ rr, read data bs o = Ok rr ∧ rr_bucket rr = None ∧ rr_err rr = None ∧
    match left data with
    | [] => rr_ret rr = 0 ∧ left (rr_data rr) = []
    | a :: rest => 0 < rr_ret rr ∧ left (rr_data rr) = rest ∧ content (o_pkt (rr_obj rr)) = a
    end.

(** A started trace without a filter, of a file format: nothing is done when a packet
    is finished. *)
Definition playable tr : Prop :=
  tr_err tr = 0 ∧ tr_started tr = true ∧ tr_filter tr = None ∧ tr_snaplen tr = 0 ∧ tr_lock tr = MFree ∧
  fm_fin_packet (tr_module tr) = None ∧ ∃ read, fm_read_packet (tr_module tr) = Some read ∧ content_reader read.

Definition plain_packet t (pk : packet) : Prop :=
  tp_srcbucket pk = None ∧ (tp_trace pk = None ∨ tp_trace pk = Some t).

Lemma fin_plain w t p tr pk :
  w_traces w !! t = Some tr → playable tr → w_packets w !! p = Some pk → plain_packet t pk →
  ∃ w' tr', trace_fin_packet w p = Ok w' ∧ w_traces w' !! t = Some tr' ∧ playable tr' ∧ tr_module tr' = tr_module tr ∧
    tr_data tr' = tr_data tr ∧ w_packets w' = <[p := finished pk]> (w_packets w).
Proof.
  intros Et Hq Ep [Hb Ht]. pose proof Hq as (He & Hs & Hf & Hn & Hl & Hfin & Hr).
  unfold trace_fin_packet. rewrite (load_Some _ _ _ Ep). cbn [obind]. unfold release_bucket.
  destruct Ht as [Ht|Ht]; rewrite Ht; cbn [obind].
  - rewrite (load_Some _ _ _ Ep). cbn [obind]. rewrite Hb, Ht. cbn [obind]. by do 2 eexists.
  - unfold format_fin_packet, forget_packet. rewrite (load_Some _ _ _ Et). cbn [obind]. rewrite Hfin. cbn [obind].
    rewrite (load_Some _ _ _ Ep). cbn [obind]. rewrite Hb, Ht. cbn [obind]. rewrite (load_Some _ _ _ Et). cbn [obind].
    rewrite Hl. cbn [mutex_lock mutex_unlock obind]. do 2 eexists. split; [done|].
    split; [apply lookup_insert_eq|]. done.
Qed.

Lemma read_plain fuel w t e tr pk :
  w_traces w !! t = Some tr → playable tr → w_packets w !! e = Some pk → plain_packet t pk →
  ∃ w' tr' pk' ret, trace_read_packet pcap_compile bpf_filter fresh_mem (S fuel) w t e = Ok (w', ret) ∧
    w_traces w' !! t = Some tr' ∧ playable tr' ∧ w_packets w' = <[e := pk']> (w_packets w) ∧
    tp_srcbucket pk' = None ∧ tp_trace pk' = Some t ∧
    match left (tr_data tr) with
    | [] => ret = 0 ∧ left (tr_data tr') = []
    | a :: rest => 0 < ret ∧ left (tr_data tr') = rest ∧ content (o_pkt (tp_obj pk')) = a
    end.
Proof.
  intros Et Hq Ep Hpl. pose proof Hq as (He & Hs & _ & _ & _ & _ & read & Hr & Hc).
  unfold trace_read_packet. rewrite (load_Some _ _ _ Et). cbn [obind]. unfold trace_is_err. rewrite He, Hs, Hr.
  cbn [Z.eqb negb]. rewrite (load_Some _ _ _ Ep). cbn [obind].
  assert (∃ w1 tr1 pk1, (if bool_decide (tp_trace pk = Some t) then trace_fin_packet w e else Ok w) = Ok w1 ∧
    w_traces w1 !! t = Some tr1 ∧ playable tr1 ∧ tr_module tr1 = tr_module tr ∧
    tr_data tr1 = tr_data tr ∧ w_packets w1 !! e = Some pk1 ∧ (∀ x, <[e := x]> (w_packets w1) = <[e := x]> (w_packets w)) ∧ tp_srcbucket pk1 = None)
    as (w1 & tr1 & pk1 & -> & Et1 & Hq1 & Em1 & Ed1 & Ep1 & Eq1 & Eb1).
  { case_bool_decide as E; [|exists w, tr, pk; by destruct Hpl].
    destruct (fin_plain w t e tr pk Et Hq Ep Hpl) as (w1 & tr1 & -> & Et1 & Hq1 & Em1 & Ed1 & Ew1).
    exists w1, tr1, (finished pk). rewrite Ew1. split_and!; try done; [apply lookup_insert_eq|].
    intros x. apply insert_insert_eq. }
  cbn [obind read_loop]. unfold read_round. rewrite (load_Some _ _ _ Ep1). cbn [obind]. rewrite (load_Some _ _ _ Et1). cbn [obind].
  destruct (Hc (tr_data tr1) (w_buckets w1) (tp_obj pk1)) as (rr & -> & Hrb & Herr & Hcase). cbn [obind]. rewrite Hrb, Herr.
  rewrite <- Ed1 in *. cbn [tp_set_bucket tr_set_data tr_set tr_filter].
  destruct Hq1 as (He1 & Hs1 & Hf1 & Hn1 & Hl1 & Hfin1 & Hr1).
  destruct (left (tr_data tr1)) as [|a rest].
  - destruct Hcase as [Hret Hl]. rewrite Hret. cbn [Z.eqb Pos.eqb orb obind]. do 4 eexists. split; [done|].
    split; [apply lookup_insert_eq|]. split; [by split_and!|]. split; [cbn; apply Eq1|]. done.
  - destruct Hcase as (Hret & Hl & Hco). rewrite !(proj2 (Z.eqb_neq (rr_ret rr) _)) by lia. cbn [orb]. rewrite Hf1. cbn [obind].
    rewrite (load_Some (w_traces (set_packet _ _ _)) t (tr_set_data tr1 (rr_data rr) None)) by apply lookup_insert_eq.
    cbn [obind]. unfold load at 1. cbn [set_packet w_packets]. rewrite lookup_insert_eq. cbn [obind tr_set_data tr_set tr_snaplen].
    rewrite Hn1. cbn [Z.ltb Z.compare]. do 4 eexists. split; [done|]. split; [apply lookup_insert_eq|]. split; [by split_and!|].
    split; [cbn; rewrite insert_insert_eq; apply Eq1|]. done.
Qed.

Lemma destroy_plain w t e tr pk :
  w_traces w !! t = Some tr → playable tr → w_packets w !! e = Some pk → tp_trace pk = Some t →
  ∃ w' tr', trace_destroy_packet w e = Ok w' ∧ w_traces w' !! t = Some tr' ∧ playable tr' ∧ tr_data tr' = tr_data tr ∧
    w_packets w' = delete e (w_packets w).
Proof.
  intros Et Hq Ep Htr. pose proof Hq as (_ & _ & _ & _ & _ & Hfin & _).
  unfold trace_destroy_packet, format_fin_packet. rewrite (load_Some _ _ _ Ep). cbn [obind]. rewrite Htr.
  rewrite (load_Some _ _ _ Et). cbn [obind]. rewrite Hfin.
  replace (if w_parallel w then Ok w else Ok w) with (Ok w) by by destruct (w_parallel w). cbn [obind].
  rewrite (load_Some _ _ _ Ep). cbn [obind]. rewrite Htr, (load_Some _ _ _ Et). cbn [obind].
  case_bool_decide; do 2 eexists; (split; [done|]); cbn; [split; [apply lookup_insert_eq|]|]; done.
Qed.

(** ** Replaying

    [pending] is what the program has not been given: the packet that waits, if any,
    and what is left in the trace. *)
Context (new_address : world F prog → loc) (Hnew : ∀ w, w_packets w !! new_address w = None)
  (Hcontent : ∀ q q', same_data q q' → content q' = content q).

Definition replay_holds w t p ev (pending : list A) : Prop :=
  ∃ tr pk, w_traces w !! t = Some tr ∧ playable tr ∧ w_packets w !! p = Some pk ∧ plain_packet t pk ∧
    match ev_packet ev with
    | None => ev_waiting ev = false ∧ pending = left (tr_data tr)
    | Some e => e ≠ p ∧ ∃ pke, w_packets w !! e = Some pke ∧ plain_packet t pke ∧
        pending = (if ev_waiting ev then [content (o_pkt (tp_obj pke))] else []) ++ left (tr_data tr)
    end.

(** The packet [e] of the trace contains [a], and [rest] is left. *)
Definition ready w t p e (a : A) (rest : list A) : Prop :=
  ∃ tr pk pke, w_traces w !! t = Some tr ∧ playable tr ∧ w_packets w !! p = Some pk ∧ plain_packet t pk ∧ e ≠ p ∧
    w_packets w !! e = Some pke ∧ plain_packet t pke ∧ content (o_pkt (tp_obj pke)) = a ∧ left (tr_data tr) = rest.

(** The read into the trace's own packet. *)
Lemma next_read_ok fuel w t p e tr pk pke :
  w_traces w !! t = Some tr → playable tr → w_packets w !! p = Some pk → plain_packet t pk → e ≠ p →
  w_packets w !! e = Some pke → plain_packet t pke →
  ∃ w' ret, trace_read_packet pcap_compile bpf_filter fresh_mem (S fuel) w t e = Ok (w', ret) ∧
    match left (tr_data tr) with
    | [] => ret = 0 ∧ ∃ w1, (let! w1 := perror_if_err w' t in
                            let! w2 := trace_destroy_packet w1 e in
                            let! pk := load (w_packets w2) p in Ok (set_packet w2 p (disown pk))) = Ok w1 ∧
              ∀ ev, ev_packet ev = None → ev_waiting ev = false → replay_holds w1 t p ev []
    | a :: rest => 0 < ret ∧ ready w' t p e a rest
    end.
Proof using Type.
  intros Et Hq Ep Hpl Hne Ee Hple.
  destruct (read_plain fuel w t e tr pke Et Hq Ee Hple) as (w' & tr' & pk' & ret & -> & Et' & Hq' & Ew' & Hb' & Ht' & Hcase).
  exists w', ret. split; [done|]. assert (w_packets w' !! e = Some pk') as Ee' by (rewrite Ew'; apply lookup_insert_eq).
  assert (w_packets w' !! p = Some pk) as Ep' by by rewrite Ew', lookup_insert_ne.
  destruct (left (tr_data tr)) as [|a rest].
  - destruct Hcase as [-> Hl]. split; [done|]. unfold perror_if_err. rewrite (load_Some _ _ _ Et'). cbn [obind].
    unfold trace_is_err. rewrite (proj1 Hq'). cbn [Z.eqb negb obind].
    destruct (destroy_plain w' t e tr' pk' Et' Hq' Ee' Ht') as (w2 & tr2 & -> & Et2 & Hq2 & Ed2 & Ew2). cbn [obind].
    rewrite (load_Some (w_packets w2) p pk) by by rewrite Ew2, lookup_delete_ne. cbn [obind]. eexists. split; [done|].
    intros ev E1 E2. unfold replay_holds. rewrite E1, E2. exists tr2, (disown pk). split_and!; try done; first [apply lookup_insert_eq|apply Hpl|by rewrite Ed2].
  - destruct Hcase as (Hret & Hl & Hco). split; [done|]. exists tr', pk, pk'. by split_and!; try done; try (split; [|right]).
Qed.

Lemma next_event_packet_ok fuel w t p ev pending : replay_holds w t p ev pending →
  ∃ w' ev' next, next_event_packet pcap_compile bpf_filter fresh_mem new_address (S fuel) w t p ev = Ok (w', ev', next) ∧
    match next with
    | None => pending = [] ∧ replay_holds w' t p ev' []
    | Some e => ∃ a rest, pending = a :: rest ∧ ready w' t p e a rest
    end.
Proof using Hnew.
  intros (tr & pk & Et & Hq & Ep & Hpl & Hev). unfold next_event_packet.
  assert (∃ w0 e pke, match ev_packet ev with Some e => (w, e)
      | None => (trace_create_packet w (new_address w), new_address w) end = (w0, e) ∧
    w_traces w0 !! t = Some tr ∧ w_packets w0 !! p = Some pk ∧ e ≠ p ∧ w_packets w0 !! e = Some pke ∧ plain_packet t pke ∧
    pending = (if ev_waiting ev then [content (o_pkt (tp_obj pke))] else []) ++ left (tr_data tr))
    as (w0 & e & pke & -> & Et0 & Ep0 & Hne & Ee & Hple & Hpend).
  { destruct (ev_packet ev) as [e|].
    - destruct Hev as (Hne & pke & Ee & Hple & Hpend). by exists w, e, pke.
    - destruct Hev as [-> ->]. assert (new_address w ≠ p) as Hne by (intros E; specialize (Hnew w); congruence).
      eexists _, _, _. split; [done|]. split; [done|]. split; [by cbn; rewrite lookup_insert_ne|]. split; [done|].
      split; [apply lookup_insert_eq|]. split; [by split; [|left]|done]. }
  destruct (ev_waiting ev).
  - do 3 eexists. split; [done|]. exists (content (o_pkt (tp_obj pke))), (left (tr_data tr)). split; [done|].
    by exists tr, pk, pke.
  - destruct (next_read_ok fuel w0 t p e tr pk pke Et0 Hq Ep0 Hpl Hne Ee Hple) as (w' & ret & -> & Hcase). cbn [obind].
    cbn [app] in Hpend. subst pending. destruct (left (tr_data tr)) as [|a rest].
    + destruct Hcase as (-> & w1 & Hw1 & Hh). cbn [Z.ltb Z.compare]. obind_inv Hw1. rewrite Hstep. cbn [obind].
      obind_inv Hw1. rewrite Hstep0. cbn [obind]. obind_inv Hw1. rewrite Hstep1. cbn [obind]. injection Hw1 as <-.
      do 3 eexists. split; [done|]. split; [done|]. by apply Hh.
    + destruct Hcase as [Hret Hready]. rewrite (proj2 (Z.ltb_ge ret 1)) by lia. do 3 eexists. split; [done|]. by exists a, rest.
Qed.

(** A call of the program, at the time [stv]. *)
Definition event_call (fuel : nat) w t p ev (stv : timeval)
  : outcome (world F prog * libtrace_event_status_t * libtrace_eventobj_t) :=
  trace_event (Some (λ w t p ev, trace_event_trace pcap_compile bpf_filter fresh_mem new_address fuel w t p ev stv))
    w t p ev.

Lemma take_over_content pk pke : content (o_pkt (tp_obj (take_over pk pke))) = content (o_pkt (tp_obj pke)).
Proof using Hcontent. by apply Hcontent. Qed.

Lemma event_call_ok fuel w t p ev stv pending : replay_holds w t p ev pending →
  ∃ w' ev' event, event_call (S fuel) w t p ev stv = Ok (w', ev', event) ∧
    match eo_type event with
    | TRACE_EVENT_IOWAIT => False
    | TRACE_EVENT_SLEEP => pending ≠ [] ∧ replay_holds w' t p ev' pending
    | TRACE_EVENT_PACKET => ∃ a rest pk, pending = a :: rest ∧ replay_holds w' t p ev' rest ∧
        w_packets w' !! p = Some pk ∧ content (o_pkt (tp_obj pk)) = a
    | TRACE_EVENT_TERMINATE => pending = [] ∧ replay_holds w' t p ev' []
    end.
Proof using Hnew Hcontent.
  intros (tr & pk & Et & Hq & Ep & Hpl & Hev). unfold event_call, trace_event.
  destruct (fin_plain w t p tr pk Et Hq Ep Hpl) as (w1 & tr1 & -> & Et1 & Hq1 & _ & Ed1 & Ew1). cbn [obind].
  rewrite (load_Some (w_packets w1) p (finished pk)) by (rewrite Ew1; apply lookup_insert_eq). cbn [obind].
  set (w2 := set_packet w1 p _).
  assert (replay_holds w2 t p ev pending) as H2.
  { exists tr1, (tp_set_trace (finished pk) (Some t)). split; [done|]. split; [done|]. split; [apply lookup_insert_eq|].
    split; [by split; [|right]|]. destruct (ev_packet ev) as [e|]; [|by rewrite Ed1].
    destruct Hev as (Hne & pke & Ee & Hple & ->). split; [done|]. exists pke. rewrite Ed1. split; [|done].
    cbn. by rewrite Ew1, !lookup_insert_ne. }
  unfold trace_event_trace. destruct (next_event_packet_ok fuel w2 t p ev pending H2) as (w3 & ev3 & next & -> & Hnext).
  cbn [obind]. destruct next as [e|]; [|by do 3 eexists].
  destruct Hnext as (a & rest & -> & tr3 & pk3 & pke & Et3 & Hq3 & Ep3 & Hpl3 & Hne & Ee & Hple & Hco & Hl).
  rewrite (load_Some _ _ _ Et3). cbn [obind]. rewrite (load_Some _ _ _ Ee). cbn [obind].
  destruct (_ && _).
  - do 3 eexists. split; [done|]. split; [done|]. exists tr3, pk3. do 4 (split; [done|]).
    cbn [ev_packet ev_waiting]. split; [done|]. exists pke. by rewrite Hco, Hl.
  - rewrite (load_Some _ _ _ Ep3). cbn [obind]. do 3 eexists. split; [done|].
    exists a, rest, (take_over pk3 pke). split; [done|]. split; [|split; [apply lookup_insert_eq|by rewrite take_over_content]].
    exists tr3, (take_over pk3 pke). split; [done|]. split; [done|]. split; [apply lookup_insert_eq|].
    split; [split; [apply Hpl3|apply Hple]|]. cbn [ev_packet ev_waiting]. split; [done|]. exists pke. rewrite Hl. split; [|done].
    cbn. by rewrite lookup_insert_ne.
Qed.

(** The program asks at the times [clock], with one packet; for each call the kind of
    event, and what the packet contains if it is a packet. *)
Fixpoint replay (fuel : nat) w t p ev (clock : list timeval)
  : outcome (world F prog * libtrace_event_status_t * list (event_type * option A)) :=
  match clock with
  | [] => Ok (w, ev, [])
  | stv :: clock' =>
      let! ' (w, ev, event) := event_call fuel w t p ev stv in
      let! pk := load (w_packets w) p in
      let seen := match eo_type event with TRACE_EVENT_PACKET => Some (content (o_pkt (tp_obj pk))) | _ => None end in
      let! ' (w, ev, events) := replay fuel w t p ev clock' in
      Ok (w, ev, (eo_type event, seen) :: events)
  end.

Lemma replay_ok fuel t p clock : ∀ w ev pending, replay_holds w t p ev pending →
  ∃ w' ev' events rest, replay (S fuel) w t p ev clock = Ok (w', ev', events) ∧ replay_holds w' t p ev' rest ∧
    pending = omap snd events ++ rest ∧
    (∀ i seen, events !! i = Some (TRACE_EVENT_TERMINATE, seen) → omap snd (take i events) = pending).
Proof using Hnew Hcontent.
  induction clock as [|stv clock IH]; intros w ev pending Hh.
  - exists w, ev, [], pending. cbn. by split_and!.
  - cbn [replay]. destruct (event_call_ok fuel w t p ev stv pending Hh) as (w1 & ev1 & event & -> & Hcase). cbn [obind].
    assert (∃ pk rest1, w_packets w1 !! p = Some pk ∧ replay_holds w1 t p ev1 rest1 ∧
      let seen := match eo_type event with TRACE_EVENT_PACKET => Some (content (o_pkt (tp_obj pk))) | _ => None end in
      pending = option_list seen ++ rest1 ∧ (eo_type event = TRACE_EVENT_TERMINATE → pending = [])) as
      (pk & rest1 & Ep & H1 & Hpend & Hterm).
    { destruct (eo_type event); [done| | |].
      - destruct Hcase as [_ H1]. pose proof H1 as (? & pk & _ & _ & Ep & _). by exists pk, pending.
      - destruct Hcase as (a & rest & pk & -> & H1 & Ep & <-). by exists pk, rest.
      - destruct Hcase as [-> H1]. pose proof H1 as (? & pk & _ & _ & Ep & _). by exists pk, []. }
    rewrite (load_Some _ _ _ Ep). cbn [obind].
    destruct (IH w1 ev1 rest1 H1) as (w2 & ev2 & events & rest & -> & H2 & Hpend2 & Hterm2). cbn [obind].
    do 3 eexists. exists rest. split; [done|]. split; [done|].
    set (seen := match eo_type event with TRACE_EVENT_PACKET => Some (content (o_pkt (tp_obj pk))) | _ => None end) in *.
    assert (∀ l : list (event_type * option A), omap snd ((eo_type event, seen) :: l) = option_list seen ++ omap snd l) as Hom
      by (intros l; cbn; by destruct seen).
    split; [by rewrite Hom, Hpend, Hpend2, app_assoc|].
    intros [|i] s0 Hi; cbn [lookup] in Hi.
    + injection Hi as Hty _. by rewrite (Hterm Hty).
    + cbn [take]. rewrite Hom, Hpend. f_equal. by apply (Hterm2 i s0).
Qed.

(** C33: Playing a trace file back through the event interface, at whatever times the
    program asks, every call returns, and the packets it is given are those of the
    trace in their order, each once; the end of the trace is reported only when all
    have been given. *)
Theorem replay_in_order fuel t p w tr pk clock :
  w_traces w !! t = Some tr → playable tr → w_packets w !! p = Some pk → plain_packet t pk →
  ∃ w' ev' events, replay (S fuel) w t p new_status clock = Ok (w', ev', events) ∧
    omap snd events `prefix_of` left (tr_data tr) ∧
    (∀ i seen, events !! i = Some (TRACE_EVENT_TERMINATE, seen) → omap snd (take i events) = left (tr_data tr)).
Proof using Hnew Hcontent.
  intros Et Hq Ep Hpl. destruct (replay_ok fuel t p clock w new_status (left (tr_data tr))) as (w' & ev' & events & rest & Hrun & _ & Hp & Ht).
  { by exists tr, pk. }
  exists w', ev', events. split; [done|]. split; [by exists rest|done].
Qed.
End replay.

(** ** A trace in memory

    The data of the trace is the list of the times of its packets, in seconds; a
    packet keeps its time as its type. *)
Definition tape_read (data : list Z) (bs : gmap loc libtrace_bucket_t) (o : packet_obj) : outcome (read_result (list Z)) :=
  match data with
  | [] => Ok {| rr_data := []; rr_buckets := bs; rr_obj := o; rr_bucket := None; rr_err := None; rr_ret := 0 |}
  | a :: rest =>
      Ok {| rr_data := rest; rr_buckets := bs; rr_obj := o_set_pkt o (pk_set_buffer (o_pkt o) [] 0 a); rr_bucket := None;
            rr_err := None; rr_ret := 1 |}
  end.

Definition tape_format : format_module (list Z) :=
  {| fm_table := λ _, {| tr_format := sample_format TRACE_TYPE_ETH 60 64;
                         tr_time := {| tf_get_erf_timestamp := None; tf_get_timespec := None; tf_get_timeval := None;
                                       tf_get_seconds := Some (λ q, double_of_int (pk_type q)) |} |};
     fm_start_input := None; fm_pause_input := None; fm_config_input := None; fm_read_packet := Some tape_read;
     fm_prepare_packet := None; fm_fin_packet := None; fm_parallel := false |}.

Definition tape (times : list Z) : libtrace_t (list Z) :=
  {| tr_module := tape_format; tr_data := times; tr_err := 0; tr_started := true; tr_filter := None; tr_snaplen := 0;
     tr_filtered_packets := 0; tr_accepted_packets := 0; tr_sequence_number := 0; tr_last_packet := None; tr_lock := MFree;
     tr_hasher_type := HASHER_BALANCE; tr_hasher := None |}.

Definition tape_world (times : list Z) : world (list Z) Z :=
  trace_create_packet (set_trace (empty_world false) 1%positive (tape times)) 1%positive.

Definition unused_address (w : world (list Z) Z) : loc := fresh (dom (w_packets w) : gset loc).

Lemma unused_address_new w : w_packets w !! unused_address w = None.
Proof. apply (not_elem_of_dom (D := gset loc)). unfold unused_address. apply is_fresh. Qed.

Lemma tape_reader : content_reader pk_type id tape_read.
Proof. intros [|a rest] bs o; by eexists. Qed.

Definition at_time (ms : Z) : timeval := {| tv_sec := ms / 1000; tv_usec := ms `mod` 1000 * 1000 |}.
Definition tape_clock : list timeval := map at_time [5000000; 5000500; 5000600; 5001000; 5003000; 5003001].

Definition tape_replay := replay sample_compile sample_bpf [] pk_type unused_address 1 (tape_world [100; 101; 103])
  1%positive 1%positive new_status tape_clock.

Lemma replay_in_order_witness :
  (let! ' (_, _, events) := tape_replay in Ok events) =
    Ok [(TRACE_EVENT_PACKET, Some 100); (TRACE_EVENT_SLEEP, None); (TRACE_EVENT_SLEEP, None);
        (TRACE_EVENT_PACKET, Some 101); (TRACE_EVENT_PACKET, Some 103); (TRACE_EVENT_TERMINATE, None)] ∧
  ∃ w' ev' events, tape_replay = Ok (w', ev', events) ∧ omap snd events `prefix_of` [100; 101; 103] ∧
    (∀ i seen, events !! i = Some (TRACE_EVENT_TERMINATE, seen) → omap snd (take i events) = [100; 101; 103]).
Proof.
  split; [vm_compute; reflexivity|].
  apply (replay_in_order sample_compile sample_bpf [] pk_type id unused_address unused_address_new
    (λ q q' H, proj2 (proj2 (proj2 H))) 0 1%positive 1%positive (tape_world [100; 101; 103]) (tape [100; 101; 103])
    {| tp_obj := {| o_pkt := empty_packet; o_buffer := false; o_header := false; o_payload := false;
                    o_buf_control := TRACE_CTRL_PACKET |};
       tp_trace := None; tp_order := 0; tp_hash := 0; tp_srcbucket := None; tp_internalid := 0 |}).
  - reflexivity.
  - split_and!; try reflexivity. exists tape_read. split; [reflexivity|]. apply tape_reader.
  - reflexivity.
  - split; [reflexivity|left; reflexivity].
Defined.

(** Half a second before a packet is due, a program is told to sleep for the second
    that lies between it and the packet before; asking again, it is told to sleep
    for 0 seconds. *)
Example sleep_seconds :
  (let call w ev ms := event_call sample_compile sample_bpf [] unused_address 1 w 1%positive 1%positive ev (at_time ms) in
   let! ' (w, ev, _) := call (tape_world [100; 101; 103]) new_status 5000000 in
   let! ' (w, ev, event1) := call w ev 5000500 in
   let! ' (_, _, event2) := call w ev 5000600 in
   Ok (eo_seconds event1, eo_seconds event2)) = Ok (double_of_int 1, S754_zero false).
Proof. vm_compute. reflexivity. Qed.

(** A packet event of a trace file has the size 0, and one of a device the size of
    the packet. *)
Example packet_event_sizes :
  (let w := tape_world [100; 101; 103] in
   let! ' (_, _, event1) := event_call sample_compile sample_bpf [] unused_address 1 w 1%positive 1%positive new_status (at_time 5) in
   let! ' (_, event2) := trace_event_device sample_compile sample_bpf [] 1 w 1%positive 1%positive (Some 3) [SelectInterrupted; SelectReady true] in
   Ok (eo_type event1, eo_size event1, eo_type event2, eo_size event2)) = Ok (TRACE_EVENT_PACKET, 0, TRACE_EVENT_PACKET, 1).
Proof. vm_compute. reflexivity. Qed.
