(* ===== verification/Pcap.v ===== *)
(** * Traces through libpcap: lib/format_pcap.c, and promote_packet of lib/linktypes.c

    The formats [pcap] (files) and [pcapint] (network interfaces) leave the work
    to libpcap, which is not part of this repository: its calls are the
    operations of the class [Libpcap], and what its manual says of files is the
    class [LibpcapFile].  The build is one with [pcap_create],
    [pcap_set_immediate_mode], [pcap_setnonblock] and [pcap_inject].

    A packet that was read is not copied: header and payload stay in libpcap's
    memory, which is valid until the next call of [pcap_next_ex] on the handle.
    [pp_place] says which call has provided the memory. *)

From S2P Require Import Prelude Byteswap Packet PktMeta Layer2 Layer3 Linktypes Wireless Timestamps FormatHelper PcapFile Filter.
Local Open Scope Z_scope.
Local Open Scope outcome_scope.

(** ** The header of a packet

    [struct pcap_pkthdr] of a 64-bit system: a [timeval] of two 64-bit numbers and
    two 32-bit lengths. *)
Record pcap_pkthdr := {
  kh_ts : timeval;
  kh_caplen : Z;
  kh_len : Z;
}.

Abbreviation sizeof_pcap_pkthdr := 24.

Definition encode_pkthdr (h : pcap_pkthdr) : list Z :=
  bytes64 (u64 (tv_sec (kh_ts h))) ++ bytes64 (u64 (tv_usec (kh_ts h))) ++ bytes32 (kh_caplen h) ++ bytes32 (kh_len h).

(** ** libpcap

    [pcap_next_ex] returns the handle, its return value and, if it has stored
    pointers, the header and the bytes they point to.  [pcap_dump] takes the
    header and the bytes it is to write.  The functions that configure a handle
    return it with a status. *)
Class Libpcap := {
  pcap_t : Type;
  pcap_dumper_t : Type;
  bpf_program : Type;
  pcap_open_offline : list Z → option pcap_t;
  pcap_create : list Z → option pcap_t;
  pcap_set_snaplen : pcap_t → Z → pcap_t * Z;
  pcap_set_promisc : pcap_t → Z → pcap_t * Z;
  pcap_set_timeout : pcap_t → Z → pcap_t * Z;
  pcap_set_immediate_mode : pcap_t → Z → pcap_t * Z;
  pcap_activate : pcap_t → pcap_t * Z;
  pcap_setnonblock : pcap_t → Z → pcap_t;
  pcap_open_live : list Z → Z → Z → Z → option pcap_t;
  pcap_open_dead : Z → Z → option pcap_t;
  pcap_compile : pcap_t → list Z → option bpf_program;
  pcap_setfilter : pcap_t → bpf_program → pcap_t * Z;
  pcap_datalink : pcap_t → Z;
  pcap_next_ex : pcap_t → pcap_t * Z * option (list Z * list Z);
  pcap_dump_open : pcap_t → list Z → option pcap_dumper_t;
  pcap_dump : pcap_dumper_t → list Z → list Z → pcap_dumper_t;
  pcap_inject : pcap_t → list Z → pcap_t * Z;
  pcap_stats : pcap_t → option Z;
  pcap_fileno : pcap_t → Z;
}.

(** A header that a file can hold, with its bytes. *)
Definition storable_header (r : pcap_pkthdr * list Z) : Prop :=
  time_ok (kh_ts r.1) ∧ kh_caplen r.1 = Zlen r.2 ∧ kh_caplen r.1 < LIBTRACE_PACKET_BUFSIZE ∧
  0 ≤ kh_len r.1 < LIBTRACE_PACKET_BUFSIZE.

(** A handle of a file stands before the packets not read so far; a dumper stands
    behind the packets written.  A new dumper has written none. *)
Class LibpcapFile (L : Libpcap) := {
  pcap_rest : pcap_t → list (pcap_pkthdr * list Z);
  dumped : pcap_dumper_t → list (pcap_pkthdr * list Z);
  pcap_next_ex_packet : ∀ p h bs rest, pcap_rest p = (h, bs) :: rest →
    ∃ p', pcap_next_ex p = (p', 1, Some (encode_pkthdr h, bs)) ∧ pcap_rest p' = rest ∧
      pcap_datalink p' = pcap_datalink p;
  pcap_next_ex_end : ∀ p, pcap_rest p = [] → ∃ p', pcap_next_ex p = (p', -2, None);
  pcap_dump_open_new : ∀ p uri d, pcap_dump_open p uri = Some d → dumped d = [];
  pcap_dump_packet : ∀ d h bs, storable_header (h, bs) →
    dumped (pcap_dump d (encode_pkthdr h) bs) = dumped d ++ [(h, bs)];
}.

(** ** What the header of a packet says *)
Definition pcap_get_link_type (p : libtrace_packet_t) : outcome libtrace_linktype_t :=
  let! linktype := rt_to_pcap_linktype (pk_type p) in
  Ok (pcap_linktype_to_libtrace linktype).

Definition pcap_get_timeval (p : libtrace_packet_t) : outcome timeval :=
  let! sec := read64 (pk_header p) 0 in
  let! usec := read64 (pk_header p) 8 in
  Ok {| tv_sec := i64 sec; tv_usec := i64 usec |}.

Definition pcap_get_capture_length (p : libtrace_packet_t) : outcome Z :=
  let! caplen := read32 (pk_header p) 16 in
  let! _ := oassert (caplen <=? 65536) in
  Ok (i32 caplen).

Definition pcap_get_wire_length (p : libtrace_packet_t) : outcome Z :=
  let! len := read32 (pk_header p) 20 in
  if pk_type p =? pcap_linktype_to_rt TRACE_DLT_EN10MB then Ok (i32 (len + 4))
  else if pk_type p =? pcap_linktype_to_rt TRACE_DLT_IEEE802_11_RADIO then
    let! linktype := pcap_get_link_type p in
    let linktype := default linktype (pk_link_type p) in
    let! flags := trace_get_wireless_flags (pk_mem p) (Some (pk_payload p)) linktype in
    match flags with
    | None => Fault Uninitialised
    | Some flags => if Z.land flags TRACE_RADIOTAP_F_FCS =? 0 then Ok (i32 (len + 4)) else Ok (i32 len)
    end
  else Ok (i32 len).

Definition pcap_get_framing_length (p : libtrace_packet_t) : Z := sizeof_pcap_pkthdr.

(** The functions of the format's table, without [set_capture_length].  A length
    for which [pcap_get_capture_length] fails an assertion fails the one of
    [trace_get_capture_length] too. *)
Definition pcap_lengths : libtrace_format_t :=
  {| f_get_link_type := Some (λ p, ok_or TRACE_TYPE_UNKNOWN (pcap_get_link_type p));
     f_get_capture_length := Some (λ p, ok_or LIBTRACE_PACKET_BUFSIZE (pcap_get_capture_length p));
     f_get_wire_length := Some (λ p, ok_or 0 (pcap_get_wire_length p));
     f_get_framing_length := Some pcap_get_framing_length;
     f_set_capture_length := None |}.

Definition pk_set_header (p : libtrace_packet_t) (header : list Z) : libtrace_packet_t :=
  {| pk_header := header; pk_mem := pk_mem p; pk_payload := pk_payload p; pk_type := pk_type p;
     pk_capture_length := pk_capture_length p; pk_wire_length := pk_wire_length p;
     pk_payload_length := pk_payload_length p; pk_l2_header := pk_l2_header p; pk_link_type := pk_link_type p;
     pk_l2_remaining := pk_l2_remaining p; pk_l3_header := pk_l3_header p; pk_l3_ethertype := pk_l3_ethertype p;
     pk_l3_remaining := pk_l3_remaining p; pk_l4_header := pk_l4_header p;
     pk_transport_proto := pk_transport_proto p; pk_l4_remaining := pk_l4_remaining p |}.

(** The header after the call, and the length returned. *)
Definition pcap_set_capture_length (p : libtrace_packet_t) (size : Z) : outcome (list Z * Z) :=
  let! ' (p, caplen) := trace_get_capture_length pcap_lengths p in
  if caplen <? size then Ok (pk_header p, caplen)
  else
    let p := pk_set_lengths p (-1) (pk_wire_length p) in
    let! header := store (pk_header p) 16 (bytes32 (u32 size)) in
    let! ' (p, caplen) := trace_get_capture_length pcap_lengths (pk_set_header p header) in
    Ok (header, caplen).

Definition pcap_format : libtrace_format_t :=
  {| f_get_link_type := f_get_link_type pcap_lengths;
     f_get_capture_length := f_get_capture_length pcap_lengths;
     f_get_wire_length := f_get_wire_length pcap_lengths;
     f_get_framing_length := f_get_framing_length pcap_lengths;
     f_set_capture_length := Some (λ p size, ok_or (pk_header p, 0) (pcap_set_capture_length p size)) |}.

Definition pcap_time : time_format :=
  {| tf_get_erf_timestamp := None; tf_get_timespec := None;
     tf_get_timeval := Some (λ p, ok_or {| tv_sec := 0; tv_usec := 0 |} (pcap_get_timeval p));
     tf_get_seconds := None |}.

(** A trace of the format [pcap] or [pcapint], for its packets. *)
Definition libpcap_trace : packet_trace := {| tr_format := pcap_format; tr_time := pcap_time |}.

(** ** Directions *)
Abbreviation TRACE_SLL_HOST := 0.
Abbreviation TRACE_SLL_OUTGOING := 4.
Abbreviation LIBTRACE_ARPHRD_ETHER := 1.
Abbreviation LIBTRACE_ARPHRD_PPP := 512.

(** [promote_packet] allocates a buffer and leaves the address of the SLL header as
    [malloc] has found it: [addr], eight bytes; [proto0] is what its protocol
    field holds before the call of [trace_get_layer3].  [format_pcap]: the format of
    the packet's trace is of the type [TRACE_FORMAT_PCAP]. *)
Definition promote_packet (fmt : libtrace_format_t) (format_pcap : bool) (addr : list Z) (proto0 : Z) (o : packet_obj)
  : outcome packet_obj :=
  if negb format_pcap then Ok o
  else
    let! linktype := rt_to_pcap_linktype (pk_type (o_pkt o)) in
    let linktype := pcap_linktype_to_libtrace linktype in
    if bool_decide (linktype = TRACE_TYPE_LINUX_SLL) then Ok o
    else
      let! ' (p, caplen) := trace_get_capture_length fmt (o_pkt o) in
      let framing := trace_get_framing_length fmt p in
      let! ' (p, known) :=
        match linktype with
        | TRACE_TYPE_NONE =>
            let! ' (p, (_, protocol, _)) := trace_get_layer3 fmt p proto0 in
            Ok (p, Some (htons LIBTRACE_ARPHRD_PPP, htons protocol))
        | TRACE_TYPE_ETH => Ok (p, Some (htons LIBTRACE_ARPHRD_ETHER, htons 0x0060))
        | _ => Ok (p, None)
        end in
      match known with
      | None => Ok (o_set_pkt o p)
      | Some (hatype, protocol) =>
          let hdr := bytes16 TRACE_SLL_OUTGOING ++ bytes16 hatype ++ bytes16 (htons 6) ++ addr ++ bytes16 protocol in
          let! header := slice (pk_header p) 0 framing in
          let! payload := slice (pk_mem p) (pk_payload p) caplen in
          let! caplen0 := read32 header 8 in
          let! header := store header 8 (bytes32 (u32 (caplen0 + sizeof_sll))) in
          let! wirelen0 := read32 header 12 in
          let! header := store header 12 (bytes32 (u32 (wirelen0 + sizeof_sll))) in
          Ok {| o_pkt := trace_clear_cache
                  (pk_set_buffer p (header ++ hdr ++ payload) framing (pcap_linktype_to_rt TRACE_DLT_LINUX_SLL));
                o_buffer := true; o_header := true; o_payload := true; o_buf_control := TRACE_CTRL_PACKET |}
      end.

(** The packet and the return value. *)
Definition pcap_set_direction (addr : list Z) (proto0 : Z) (o : packet_obj) (dir : Z) : outcome (packet_obj * Z) :=
  if negb ((dir =? TRACE_DIR_OUTGOING) || (dir =? TRACE_DIR_INCOMING)) then Ok (o, -1)
  else
    let! o := promote_packet pcap_format true addr proto0 o in
    if negb (o_payload o) then Fault NullDeref
    else
      let p := o_pkt o in
      let pkttype := if dir =? TRACE_DIR_OUTGOING then TRACE_SLL_OUTGOING else TRACE_SLL_HOST in
      let! mem := store (pk_mem p) (pk_payload p) (bytes16 pkttype) in
      Ok (o_set_pkt o (pk_set_mem p mem (pk_payload p)), dir).

(** The error set in the trace, if any, and the return value. *)
Definition pcap_get_direction (o : packet_obj) : outcome (option Z * Z) :=
  let p := o_pkt o in
  let missing := let! err := trace_set_err TRACE_ERR_BAD_PACKET in Ok (Some err, -1) in
  let! linktype := pcap_get_link_type p in
  match linktype with
  | TRACE_TYPE_LINUX_SLL =>
      if negb (o_payload o) then missing
      else
        let! pkttype := read16 (pk_mem p) (pk_payload p) in
        Ok (None, if pkttype =? TRACE_SLL_OUTGOING then TRACE_DIR_OUTGOING else TRACE_DIR_INCOMING)
  | TRACE_TYPE_PFLOG =>
      if negb (o_payload o) then missing
      else
        let! dir := read8 (pk_mem p) (pk_payload p + 45) in
        Ok (None, if negb (ntohs (if dir =? 0 then 1 else 0) =? 0) then TRACE_DIR_INCOMING else TRACE_DIR_OUTGOING)
  | _ => Ok (None, -1)
  end.

(** ** Input traces *)
Section input.
Context {L : Libpcap}.
(** [libtrace_halt] when a call of [pcap_next_ex], counted from the start of the
    trace, has returned. *)
Variable libtrace_halt : Z → bool.

(** A pointer to a handle: not initialised, null, or a handle. *)
Inductive pcap_ptr := PcapGarbage | PcapNull | PcapHandle (p : pcap_t).

Definition pcap_deref (ptr : pcap_ptr) : outcome pcap_t :=
  match ptr with
  | PcapGarbage => Fault Uninitialised
  | PcapNull => Fault NullDeref
  | PcapHandle p => Ok p
  end.

(** [in_calls] counts the calls of [pcap_next_ex]. *)
Record pcap_input := {
  in_uridata : list Z;
  in_pcap : pcap_ptr;
  in_filter : option (libtrace_filter_t bpf_program);
  in_snaplen : Z;
  in_promisc : Z;
  in_calls : Z;
  in_err : Z;
}.

Definition in_set_pcap (t : pcap_input) (ptr : pcap_ptr) : pcap_input :=
  {| in_uridata := in_uridata t; in_pcap := ptr; in_filter := in_filter t; in_snaplen := in_snaplen t;
     in_promisc := in_promisc t; in_calls := in_calls t; in_err := in_err t |}.

Definition in_set_options (t : pcap_input) (filter : option (libtrace_filter_t bpf_program)) (snaplen promisc : Z)
  : pcap_input :=
  {| in_uridata := in_uridata t; in_pcap := in_pcap t; in_filter := filter; in_snaplen := snaplen;
     in_promisc := promisc; in_calls := in_calls t; in_err := in_err t |}.

Definition in_set_err (t : pcap_input) (err : Z) : pcap_input :=
  {| in_uridata := in_uridata t; in_pcap := in_pcap t; in_filter := in_filter t; in_snaplen := in_snaplen t;
     in_promisc := in_promisc t; in_calls := in_calls t; in_err := err |}.

(** [trace_set_err] and [return -1]. *)
Definition in_fail (t : pcap_input) (errcode : Z) : outcome (pcap_input * Z) :=
  let! err := trace_set_err errcode in Ok (in_set_err t err, -1).

Definition pcap_init_input (uridata : list Z) : pcap_input :=
  {| in_uridata := uridata; in_pcap := PcapNull; in_filter := None; in_snaplen := LIBTRACE_PACKET_BUFSIZE;
     in_promisc := 0; in_calls := 0; in_err := TRACE_ERR_NOERROR |}.

(** The handle is left as [malloc] has found it. *)
Definition pcapint_init_input (uridata : list Z) : pcap_input :=
  {| in_uridata := uridata; in_pcap := PcapGarbage; in_filter := None; in_snaplen := LIBTRACE_PACKET_BUFSIZE;
     in_promisc := 0; in_calls := 0; in_err := TRACE_ERR_NOERROR |}.

(** Compiling a filter that has not been compiled, and setting it.  The result of
    [pcap_compile] is not looked at: a filter it could not compile is marked as
    compiled, and what it holds is then handed to [pcap_setfilter]. *)
Definition apply_input_filter (t : pcap_input) (p : pcap_t) (filter : libtrace_filter_t bpf_program)
  : outcome (pcap_input * pcap_t * Z) :=
  let filter :=
    if fi_flag filter then filter
    else {| fi_string := fi_string filter; fi_flag := true;
            fi_filter := match pcap_compile p (default [] (fi_string filter)) with
                         | Some prog => Some prog
                         | None => fi_filter filter
                         end |} in
  match fi_filter filter with
  | None => Fault Uninitialised
  | Some prog =>
      let '(p, ret) := pcap_setfilter p prog in
      Ok (in_set_pcap (in_set_options t (Some filter) (in_snaplen t) (in_promisc t)) (PcapHandle p), p, ret)
  end.

Definition pcap_start_input (t : pcap_input) : outcome (pcap_input * Z) :=
  match in_pcap t with
  | PcapHandle _ | PcapGarbage => Ok (t, 0)
  | PcapNull =>
      match pcap_open_offline (in_uridata t) with
      | None => in_fail t TRACE_ERR_INIT_FAILED
      | Some p =>
          let t := in_set_pcap t (PcapHandle p) in
          match in_filter t with
          | None => Ok (t, 0)
          | Some filter =>
              let! ' (t, _, ret) := apply_input_filter t p filter in
              if ret =? -1 then in_fail t TRACE_ERR_INIT_FAILED else Ok (t, 0)
          end
      end
  end.

Inductive input_option := INPUT_FILTER (f : libtrace_filter_t bpf_program) | INPUT_SNAPLEN (n : Z) | INPUT_PROMISC (n : Z)
| INPUT_META_FREQ | INPUT_EVENT_REALTIME | INPUT_OTHER.

Definition pcap_config_input (t : pcap_input) (option : input_option) : pcap_input * Z :=
  match option with
  | INPUT_FILTER f => (in_set_options t (Some f) (in_snaplen t) (in_promisc t), 0)
  | _ => (t, -1)
  end.

Definition pcapint_config_input (t : pcap_input) (option : input_option) : pcap_input * Z :=
  match option with
  | INPUT_FILTER f => (in_set_options t (Some f) (in_snaplen t) (in_promisc t), 0)
  | INPUT_SNAPLEN n => (in_set_options t (in_filter t) n (in_promisc t), 0)
  | INPUT_PROMISC n => (in_set_options t (in_filter t) (in_snaplen t) n, 0)
  | _ => (t, -1)
  end.

Abbreviation PCAP_WARNING := 1.
Abbreviation PCAP_WARNING_PROMISC_NOTSUP := 2.
Abbreviation PCAP_ERROR_ACTIVATED := (-4).

(** One call of [pcap_next_ex]: what libpcap has handed out before is not valid any
    more. *)
Definition in_next (t : pcap_input) (p : pcap_t) : pcap_input * Z * option (list Z * list Z) :=
  let '(p, ret, found) := pcap_next_ex p in
  ({| in_uridata := in_uridata t; in_pcap := PcapHandle p; in_filter := in_filter t; in_snaplen := in_snaplen t;
      in_promisc := in_promisc t; in_calls := in_calls t + 1; in_err := in_err t |}, ret, found).

(** The options of a handle that has been created, in order; a status that says
    that the handle is already active ends the start. *)
Fixpoint set_handle_options (t : pcap_input) (p : pcap_t) (calls : list (pcap_t → pcap_t * Z))
  : outcome (pcap_input * option pcap_t) :=
  match calls with
  | [] => Ok (t, Some p)
  | call :: calls' =>
      let '(p, ret) := call p in
      let t := in_set_pcap t (PcapHandle p) in
      if ret =? PCAP_ERROR_ACTIVATED then
        let! ' (t, _) := in_fail t TRACE_ERR_INIT_FAILED in Ok (t, None)
      else set_handle_options t p calls'
  end.

Definition pcapint_start_input (t : pcap_input) : outcome (pcap_input * Z) :=
  match pcap_create (in_uridata t) with
  | None => in_fail (in_set_pcap t PcapNull) TRACE_ERR_INIT_FAILED
  | Some p =>
      let t := in_set_pcap t (PcapHandle p) in
      let! ' (t, p) := set_handle_options t p
        [λ p, pcap_set_snaplen p (in_snaplen t); λ p, pcap_set_promisc p (in_promisc t);
         λ p, pcap_set_timeout p 1; λ p, pcap_set_immediate_mode p 1] in
      match p with
      | None => Ok (t, -1)
      | Some p =>
          let '(p, ret) := pcap_activate p in
          let t := in_set_pcap t (PcapHandle p) in
          if negb (ret =? 0) && (ret =? PCAP_WARNING_PROMISC_NOTSUP) then in_fail t TRACE_ERR_INIT_FAILED
          else if negb (ret =? 0) && negb (ret =? PCAP_WARNING) then in_fail t TRACE_ERR_INIT_FAILED
          else
            let p := pcap_setnonblock p 0 in
            let t := in_set_pcap t (PcapHandle p) in
            match in_filter t with
            | None => Ok (t, 0)
            | Some filter =>
                let! ' (t, p, ret) := apply_input_filter t p filter in
                if ret =? -1 then in_fail t TRACE_ERR_INIT_FAILED
                else
                  let '(t, pcapret, _) := in_next t p in
                  Ok (t, if pcapret <? 0 then -1 else 0)
            end
      end
  end.

(** [pcap_close] does not allow a null pointer. *)
Definition pcap_pause_input (t : pcap_input) : outcome (pcap_input * Z) :=
  let! _ := pcap_deref (in_pcap t) in Ok (in_set_pcap t PcapNull, 0).

(** ** Reading

    [pp_place] is the number of the call of [pcap_next_ex] in whose memory header
    and payload lie, or [None] if they lie in the packet's own buffer. *)
Record pcap_packet := {
  pp_obj : packet_obj;
  pp_place : option Z;
}.

(** The packet, if its memory is still valid. *)
Definition pcap_view (t : pcap_input) (pp : pcap_packet) : outcome packet_obj :=
  match pp_place pp with
  | None => Ok (pp_obj pp)
  | Some n => if n =? in_calls t then Ok (pp_obj pp) else Fault Dangling
  end.

(** [buffer] is the packet's own buffer if it is [None]. *)
Definition pcap_prepare_packet (pp : pcap_packet) (buffer : option (list Z)) (rt_type : Z) (own : bool) : pcap_packet :=
  let o := pp_obj pp in
  {| pp_obj := {| o_pkt := pk_set_buffer (o_pkt o) (default (o_bytes o) buffer) sizeof_pcap_pkthdr rt_type;
                  o_buffer := true; o_header := true; o_payload := true;
                  o_buf_control := if own then TRACE_CTRL_PACKET else TRACE_CTRL_EXTERNAL |};
     pp_place := None |}.

(** The pointers that [pcap_next_ex] has stored, null if there are none. *)
Definition pp_point (pp : pcap_packet) (calls type : Z) (found : option (list Z * list Z)) : pcap_packet :=
  let o := pp_obj pp in
  let '(header, mem) := default ([], []) found in
  {| pp_obj := {| o_pkt := pk_set_buffer (o_pkt o) (header ++ mem) (Zlen header) type; o_buffer := true;
                  o_header := bool_decide (is_Some found); o_payload := bool_decide (is_Some found);
                  o_buf_control := o_buf_control o |};
     pp_place := Some calls |}.

(** [for(;;)]: a call that times out is repeated unless the program is to stop. *)
Fixpoint pcap_read_loop (fuel : nat) (t : pcap_input) (p : pcap_t) (pp : pcap_packet) (type : Z)
  : outcome (pcap_input * pcap_packet * Z) :=
  match fuel with
  | O => Fault OutOfFuel
  | S fuel' =>
      let '(t, ret, found) := in_next t p in
      let pp := pp_point pp (in_calls t) type found in
      if ret =? 0 then
        if libtrace_halt (in_calls t) then Ok (t, pp, 0)
        else
          let! p := pcap_deref (in_pcap t) in
          pcap_read_loop fuel' t p pp type
      else if ret =? -1 then let! ' (t, ret) := in_fail t TRACE_ERR_BAD_PACKET in Ok (t, pp, ret)
      else if ret =? -2 then Ok (t, pp, 0)
      else if negb (o_header (pp_obj pp)) then Fault NullDeref
      else
        let! len := read32 (pk_header (o_pkt (pp_obj pp))) 20 in
        Ok (t, pp, i32 (len + sizeof_pcap_pkthdr))
  end.

(** The buffer that a packet without one is given is not used. *)
Definition pcap_read_packet (fuel : nat) (t : pcap_input) (pp : pcap_packet) : outcome (pcap_input * pcap_packet * Z) :=
  let! p := pcap_deref (in_pcap t) in
  pcap_read_loop fuel t p pp (pcap_linktype_to_rt (pcap_datalink p)).

Definition pcap_get_fd (t : pcap_input) : outcome Z :=
  let! p := pcap_deref (in_pcap t) in Ok (pcap_fileno p).

(** The packets dropped, if libpcap knows. *)
Definition pcap_get_statistics (t : pcap_input) : outcome (pcap_input * option Z) :=
  let! p := pcap_deref (in_pcap t) in
  match pcap_stats p with
  | None => let! ' (t, _) := in_fail t TRACE_ERR_UNSUPPORTED in Ok (t, None)
  | Some dropped => Ok (t, Some dropped)
  end.
End input.

(** ** Output traces *)
Section output.
Context {L : Libpcap}.

Record pcap_output := {
  out_uridata : list Z;
  out_pcap : option pcap_t;
  out_dump : option pcap_dumper_t;
  out_err : Z;
}.

Definition out_set (out : pcap_output) (pcap : option pcap_t) (dump : option pcap_dumper_t) (err : Z) : pcap_output :=
  {| out_uridata := out_uridata out; out_pcap := pcap; out_dump := dump; out_err := err |}.

Definition pcap_init_output (uridata : list Z) : pcap_output :=
  {| out_uridata := uridata; out_pcap := None; out_dump := None; out_err := TRACE_ERR_NOERROR |}.

(** With [pcap_inject] the same. *)
Definition pcapint_init_output (uridata : list Z) : pcap_output := pcap_init_output uridata.

(** [pcap_close] does not allow a null pointer: a trace without packets has none to
    close. *)
Definition pcap_fin_output (out : pcap_output) : outcome (option pcap_dumper_t) :=
  match out_pcap out with
  | None => Fault NullDeref
  | Some _ => Ok (out_dump out)
  end.

Definition pcapint_fin_output (out : pcap_output) : outcome Z :=
  match out_pcap out with
  | None => Fault NullDeref
  | Some _ => Ok 0
  end.

(** [while (libtrace_to_pcap_linktype(linktype) == TRACE_DLT_ERROR)], with the result
    [None] for a packet that cannot be made simpler.  [from_pcap]: the packet
    belongs to a trace of this module.  Only an ATM packet has no pcap link type
    and can be demoted; it then belongs to a [pcapfile] trace. *)
Fixpoint demote_for_dump (fuel : nat) (tr : packet_trace) (from_pcap : bool) (o : packet_obj)
    (linktype : libtrace_linktype_t) (remaining : option Z)
  : outcome (packet_trace * bool * packet_obj * option (option Z)) :=
  if negb (libtrace_to_pcap_linktype linktype =? TRACE_DLT_ERROR) then Ok (tr, from_pcap, o, Some remaining)
  else
    match fuel with
    | O => Fault OutOfFuel
    | S fuel' =>
        let! ' (tr, o, done) := demote_packet tr o in
        if negb done then Ok (tr, from_pcap, o, None)
        else
          let! ' (p, (_, linktype, remaining)) := trace_get_packet_buffer (tr_format tr) (o_pkt o) true in
          demote_for_dump fuel' tr false (o_set_pkt o p) linktype remaining
    end.

(** The dumper, opened with the first packet; [None] after an error.  If there is no
    handle, the message of the error is asked of the null pointer. *)
Definition open_dump (out : pcap_output) (linktype : libtrace_linktype_t) : outcome (pcap_output * option pcap_dumper_t) :=
  match out_pcap out with
  | Some _ => Ok (out, out_dump out)
  | None =>
      match pcap_open_dead (libtrace_to_pcap_dlt linktype) 65536 with
      | None => Fault NullDeref
      | Some p =>
          match pcap_dump_open p (out_uridata out) with
          | None => let! err := trace_set_err_out TRACE_ERR_INIT_FAILED in Ok (out_set out (Some p) None err, None)
          | Some d => Ok (out_set out (Some p) (Some d) (out_err out), Some d)
          end
      end
  end.

(** The header for a packet of another format, and the packet, whose lengths are
    cached. *)
Definition dump_header (tr : packet_trace) (p : libtrace_packet_t) (remaining : Z)
  : outcome (libtrace_packet_t * pcap_pkthdr) :=
  let! ts := trace_get_timeval (tr_time tr) p in
  let '(p, linktype) := trace_get_link_type (tr_format tr) p in
  let! ' (p, wire) := trace_get_wire_length (tr_format tr) p in
  let len := if bool_decide (linktype = TRACE_TYPE_ETH) then (if 4 <=? wire then u32 (wire - 4) else 0) else u32 wire in
  let! _ := oassert (remaining <? 65536) in
  let! _ := oassert (len <? 65536) in
  Ok (p, {| kh_ts := ts; kh_caplen := remaining; kh_len := len |}).

(** A dumper that could not be opened stays null, and a later packet is written to
    it. *)
Definition pcap_write_packet (out : pcap_output) (tr : packet_trace) (from_pcap : bool) (o : packet_obj)
  : outcome (pcap_output * packet_trace * packet_obj * Z) :=
  let! ' (p, (_, linktype, remaining)) := trace_get_packet_buffer (tr_format tr) (o_pkt o) true in
  let! ' (tr, from_pcap, o, found) := demote_for_dump 2 tr from_pcap (o_set_pkt o p) linktype remaining in
  match found with
  | None =>
      let! err := trace_set_err_out TRACE_ERR_NO_CONVERSION in
      Ok (out_set out (out_pcap out) (out_dump out) err, tr, o, -1)
  | Some remaining =>
      let remaining := default 0 remaining in
      let '(p, linktype) := trace_get_link_type (tr_format tr) (o_pkt o) in
      let o := o_set_pkt o p in
      let was_open := bool_decide (is_Some (out_pcap out)) in
      let! ' (out, dump) := open_dump out linktype in
      if negb was_open && bool_decide (dump = None) then Ok (out, tr, o, -1)
      else if negb (o_payload o) then Ok (out, tr, o, 0)
      else
        match dump with
        | None => Fault NullDeref
        | Some d =>
            let! ' (p, header, caplen) :=
              if from_pcap then let! caplen := read32 (pk_header p) 16 in Ok (p, pk_header p, caplen)
              else let! ' (p, h) := dump_header tr p remaining in Ok (p, encode_pkthdr h, kh_caplen h) in
            let! bs := slice (pk_mem p) (pk_payload p) caplen in
            Ok (out_set out (out_pcap out) (Some (pcap_dump d header bs)) (out_err out), tr, o_set_pkt o p, 0)
        end
  end.

(** The packet is sent on the interface; a handle that could not be opened is not
    noticed. *)
Definition pcapint_write_packet (out : pcap_output) (tr : packet_trace) (o : packet_obj)
  : outcome (pcap_output * packet_obj * Z) :=
  let '(p, linktype) := trace_get_link_type (tr_format tr) (o_pkt o) in
  if bool_decide (linktype = TRACE_TYPE_NONDATA) then Ok (out, o_set_pkt o p, 0)
  else
    let pcap := match out_pcap out with Some p => Some p | None => pcap_open_live (out_uridata out) 65536 0 0 end in
    match pcap with
    | None => Fault NullDeref
    | Some h =>
        let! ' (p, caplen) := trace_get_capture_length (tr_format tr) p in
        let! bs := slice (pk_mem p) (pk_payload p) caplen in
        let '(h, err) := pcap_inject h bs in
        Ok (out_set out (Some h) (out_dump out) (out_err out), o_set_pkt o p,
            if negb (err =? i32 caplen) then -1 else err)
    end.
End output.

(** ** Headers as they are read *)
Section header.
Context (h : pcap_pkthdr) (Hcap : 0 ≤ kh_caplen h < 2 ^ 32) (Hlen : 0 ≤ kh_len h < 2 ^ 32).

Lemma pkthdr_sec : read64 (encode_pkthdr h) 0 = Ok (u64 (tv_sec (kh_ts h))).
Proof using Type. unfold encode_pkthdr. apply (read64_bytes64 []), u64_range. Qed.

Lemma pkthdr_usec : read64 (encode_pkthdr h) 8 = Ok (u64 (tv_usec (kh_ts h))).
Proof using Type.
  unfold encode_pkthdr. change 8 with (Zlen (bytes64 (u64 (tv_sec (kh_ts h))))). apply read64_bytes64, u64_range.
Qed.

Lemma pkthdr_caplen : read32 (encode_pkthdr h) 16 = Ok (kh_caplen h).
Proof using Hcap.
  unfold encode_pkthdr. rewrite app_assoc.
  change 16 with (Zlen (bytes64 (u64 (tv_sec (kh_ts h))) ++ bytes64 (u64 (tv_usec (kh_ts h))))).
  by apply read32_bytes32.
Qed.

Lemma pkthdr_len : read32 (encode_pkthdr h) 20 = Ok (kh_len h).
Proof using Hlen.
  unfold encode_pkthdr. rewrite (app_assoc (bytes64 (u64 (tv_usec _)))), app_assoc, <- (app_nil_r (bytes32 (kh_len h))).
  change 20 with (Zlen (bytes64 (u64 (tv_sec (kh_ts h))) ++ bytes64 (u64 (tv_usec (kh_ts h))) ++ bytes32 (kh_caplen h))).
  by apply read32_bytes32.
Qed.
End header.

Lemma i64_u64 z : - 2 ^ 63 ≤ z < 2 ^ 63 → i64 (u64 z) = z.
Proof. intros Hz. unfold i64, u64. rewrite Zplus_mod_idemp_l, Z.mod_small; lia. Qed.

(** Link types that libpcap can name and whose wire length is the length stored, up
    to the frame check sequence of Ethernet. *)
Definition dump_type (lt : libtrace_linktype_t) : Prop :=
  libtrace_to_pcap_linktype lt ≠ TRACE_DLT_ERROR ∧ lt ≠ TRACE_TYPE_80211_RADIO.

Lemma dlt_to_rt lt : pcap_linktype_to_rt (libtrace_to_pcap_dlt lt) = pcap_type lt.
Proof. by destruct lt. Qed.

(** A packet whose header is [h] and whose bytes are [bs] is what they say. *)
Lemma describes_libpcap p lt h bs tail wire :
  dump_type lt → time_ok (kh_ts h) → kh_caplen h = Zlen bs → kh_len h = pcap_wirelen lt wire →
  (lt = TRACE_TYPE_ETH → 4 ≤ wire) → 0 ≤ wire < LIBTRACE_PACKET_BUFSIZE → Zlen bs < LIBTRACE_PACKET_BUFSIZE →
  pk_header p = encode_pkthdr h → pk_mem p = bs ++ tail → pk_payload p = 0 → pk_type p = pcap_type lt →
  pk_link_type p = None → pk_capture_length p = -1 → pk_wire_length p = -1 →
  describes libpcap_trace p lt (kh_ts h) bs wire.
Proof.
  intros (Hdlt & Hr) (Hs & Hu) Ec El He Hw Hb Eh Em Ep Et Hlt Hcl Hwl. pose proof (Zlen_nonneg bs).
  pose proof (pcap_wirelen_range lt wire He Hw) as Hwr. destruct (pcap_type_back lt Hdlt) as [Hback Hback'].
  split; cbn [tr_format tr_time libpcap_trace].
  - eexists. split; [done|]. intros p' (_ & _ & _ & Et'). unfold pcap_get_link_type. by rewrite Et', Et, Hback.
  - by left.
  - eexists. split; [done|]. intros p' (Eh' & _). unfold pcap_get_capture_length. rewrite Eh', Eh, pkthdr_caplen by lia.
    cbn [obind]. rewrite (proj2 (Z.leb_le _ _)) by lia. cbn [oassert obind ok_or]. rewrite i32_small; lia.
  - by left.
  - done.
  - eexists. split; [done|]. intros p' (Eh' & _ & _ & Et'). unfold pcap_get_wire_length.
    rewrite Eh', Eh, Et', Et, pkthdr_len by lia. cbn [obind].
    assert ((pcap_type lt =? pcap_linktype_to_rt TRACE_DLT_IEEE802_11_RADIO) = false ∧
            (pcap_type lt =? pcap_linktype_to_rt TRACE_DLT_EN10MB) = bool_decide (lt = TRACE_TYPE_ETH)) as (-> & ->)
      by by destruct lt.
    unfold pcap_wirelen in *. case_bool_decide; cbn [ok_or]; rewrite i32_small; lia.
  - by left.
  - done.
  - intros p' (Eh' & _). unfold trace_get_timeval, pcap_time. cbn [tf_get_timeval]. f_equal.
    unfold pcap_get_timeval. rewrite Eh', Eh, pkthdr_sec, pkthdr_usec. cbn [obind ok_or].
    rewrite !i64_u64 by lia. by destruct (kh_ts h).
  - rewrite Em, Ep, slice_ok by (try rewrite Zlen_app; pose proof (Zlen_nonneg tail); lia).
    rewrite drop_0, take_app_length' by (unfold Zlen; lia). done.
Qed.

(** ** Writing *)
Section writing.
Context {L : Libpcap} {LF : LibpcapFile L}.

(** A captured packet, and whether its trace is one of this module: then its header
    is written as it is. *)
Abbreviation dump_source := (bool * captured)%type.

Definition dump_bytes (s : dump_source) : list Z :=
  if s.1 then cp_bytes s.2 else take (Z.to_nat (Z.min (cp_wire s.2) (Zlen (cp_bytes s.2)))) (cp_bytes s.2).

Definition dump_record (lt : libtrace_linktype_t) (s : dump_source) : pcap_pkthdr * list Z :=
  ({| kh_ts := cp_time s.2; kh_caplen := Zlen (dump_bytes s); kh_len := pcap_wirelen lt (cp_wire s.2) |}, dump_bytes s).

Definition dumpable (lt : libtrace_linktype_t) (s : dump_source) : Prop :=
  describes (cp_trace s.2) (o_pkt (cp_obj s.2)) lt (cp_time s.2) (cp_bytes s.2) (cp_wire s.2) ∧
  pcap_writable lt (cp_time s.2) (cp_wire s.2) ∧ o_payload (cp_obj s.2) = true ∧
  (s.1 = true → pk_header (o_pkt (cp_obj s.2)) = encode_pkthdr (dump_record lt s).1).

(** The packets that a trace has written; a trace that has not been opened can be. *)
Definition out_holds (out : pcap_output) (lt : libtrace_linktype_t) (rs : list (pcap_pkthdr * list Z)) : Prop :=
  match out_pcap out with
  | Some _ => ∃ d, out_dump out = Some d ∧ dumped d = rs
  | None => rs = [] ∧ ∃ p d, pcap_open_dead (libtrace_to_pcap_dlt lt) 65536 = Some p ∧
      pcap_dump_open p (out_uridata out) = Some d
  end.

Lemma open_dump_ok out lt rs : out_holds out lt rs →
  ∃ out' d, open_dump out lt = Ok (out', Some d) ∧ dumped d = rs ∧ is_Some (out_pcap out').
Proof using LF.
  unfold out_holds, open_dump. destruct (out_pcap out) as [p|] eqn:E.
  - intros (d & Hd & Hrs). exists out, d. by rewrite Hd, E.
  - intros (-> & p & d & -> & Hd). rewrite Hd. eexists _, d. split; [done|]. split; [by eapply pcap_dump_open_new|done].
Qed.

Lemma dump_header_ok tr p lt tv bs wire rem : describes tr p lt tv bs wire → (lt = TRACE_TYPE_ETH → 4 ≤ wire) →
  rem < LIBTRACE_PACKET_BUFSIZE →
  ∃ p', dump_header tr p rem = Ok (p', {| kh_ts := tv; kh_caplen := rem; kh_len := pcap_wirelen lt wire |}) ∧ same_data p p'.
Proof.
  intros D He Hr. unfold dump_header. rewrite (ds_time _ _ _ _ _ _ D p (same_data_refl p)). cbn [obind].
  destruct (get_link_type_ok _ _ _ _ _ _ D) as (p1 & -> & S1 & D1).
  destruct (get_wire_length_ok _ _ _ _ _ _ D1) as (p2 & -> & S2 & D2). cbn [obind].
  pose proof (ds_wire_range _ _ _ _ _ _ D) as Hw. pose proof (pcap_wirelen_range lt wire He Hw) as Hwr.
  assert ((if bool_decide (lt = TRACE_TYPE_ETH) then if 4 <=? wire then u32 (wire - 4) else 0 else u32 wire)
    = pcap_wirelen lt wire) as ->.
  { unfold pcap_wirelen in *. case_bool_decide as E; [rewrite (proj2 (Z.leb_le 4 _)) by auto|]; apply u32_small; lia. }
  rewrite !(proj2 (Z.ltb_lt _ 65536)) by lia. cbn [oassert obind]. exists p2. split; [done|]. by eapply same_data_trans.
Qed.

Lemma dump_bytes_len s : 0 ≤ cp_wire s.2 →
  Zlen (dump_bytes s) = if s.1 then Zlen (cp_bytes s.2) else Z.min (cp_wire s.2) (Zlen (cp_bytes s.2)).
Proof using Type. intros. unfold dump_bytes. destruct s.1; [done|]. unfold Zlen. rewrite length_take. lia. Qed.

Lemma dump_record_storable lt s : dumpable lt s → storable_header (dump_record lt s).
Proof using Type.
  intros (D & (_ & Ht & He) & _). pose proof (ds_wire_range _ _ _ _ _ _ D) as Hw.
  pose proof (ds_cap_range _ _ _ _ _ _ D). pose proof (pcap_wirelen_range lt _ He Hw).
  split_and!; cbn [dump_record fst snd kh_ts kh_caplen kh_len]; [done|done| |lia|lia].
  rewrite dump_bytes_len by lia. destruct s.1; lia.
Qed.

Lemma pcap_write_packet_ok out lt s rs : dumpable lt s → out_holds out lt rs →
  ∃ out' o', pcap_write_packet out (cp_trace s.2) s.1 (cp_obj s.2) = Ok (out', cp_trace s.2, o', 0) ∧
    out_holds out' lt (rs ++ [dump_record lt s]) ∧ is_Some (out_pcap out').
Proof using LF.
  intros Hs Hout. pose proof (dump_record_storable lt s Hs) as Hst. destruct Hs as (D & (Hdlt & Ht & He) & Hp & Hhdr).
  unfold pcap_write_packet. destruct (get_packet_buffer_ok _ _ _ _ _ _ D) as (p1 & -> & S1 & D1). cbn [obind].
  cbn [demote_for_dump]. rewrite (proj2 (Z.eqb_neq _ TRACE_DLT_ERROR)) by done. cbn [negb obind o_pkt o_set_pkt default id].
  destruct (get_link_type_ok _ _ _ _ _ _ D1) as (p2 & -> & S2 & D2).
  destruct (open_dump_ok out lt rs Hout) as (out1 & d & -> & Hd & Hsome). cbn [obind].
  rewrite (bool_decide_eq_false_2 (Some d = None)) by done. rewrite andb_false_r. cbn [o_payload o_set_pkt]. rewrite Hp. cbn [negb].
  assert (∃ p3, (if s.1 then let! caplen := read32 (pk_header p2) 16 in Ok (p2, pk_header p2, caplen)
     else let! ' (p, h) := dump_header (cp_trace s.2) p2 (Z.min (cp_wire s.2) (Zlen (cp_bytes s.2))) in
          Ok (p, encode_pkthdr h, kh_caplen h))
     = Ok (p3, encode_pkthdr (dump_record lt s).1, Zlen (dump_bytes s)) ∧ same_data p2 p3) as (p3 & Hdr & S3).
  { pose proof (ds_wire_range _ _ _ _ _ _ D). pose proof (dump_bytes_len s ltac:(lia)) as Hl.
    destruct s.1 eqn:Es.
    - exists p2. split; [|apply same_data_refl].
      assert (pk_header p2 = encode_pkthdr (dump_record lt s).1) as Eh.
      { destruct (same_data_trans _ _ _ S1 S2) as (-> & _). by apply Hhdr. }
      destruct Hst as (_ & Hc & Hc' & _). cbn [dump_record fst kh_caplen] in Hc'. rewrite Eh, pkthdr_caplen; [done|].
      cbn [dump_record fst kh_caplen]. pose proof (Zlen_nonneg (dump_bytes s)). lia.
    - destruct (dump_header_ok _ _ _ _ _ _ (Z.min (cp_wire s.2) (Zlen (cp_bytes s.2))) D2 He) as (p3 & -> & S3); [lia|].
      exists p3. unfold dump_record. cbn [obind fst kh_caplen]. by rewrite Hl. }
  rewrite Hdr. cbn [obind].
  assert (slice (pk_mem p3) (pk_payload p3) (Zlen (dump_bytes s)) = Ok (dump_bytes s)) as ->.
  { destruct (same_data_trans _ _ _ (same_data_trans _ _ _ S1 S2) S3) as (_ & -> & -> & _).
    pose proof (ds_bytes _ _ _ _ _ _ D) as Hb. pose proof (ds_wire_range _ _ _ _ _ _ D).
    rewrite dump_bytes_len by lia. unfold dump_bytes. destruct s.1; [done|].
    rewrite (slice_prefix _ _ _ _ (Z.min (cp_wire s.2) (Zlen (cp_bytes s.2))) Hb)
      by (pose proof (Zlen_nonneg (cp_bytes s.2)); lia). done. }
  cbn [obind]. do 2 eexists. split; [done|]. unfold out_holds. cbn [out_set out_pcap out_dump].
  destruct (out_pcap out1) as [q|] eqn:Eq; [|by destruct Hsome]. split; [|done].
  eexists. split; [done|]. rewrite pcap_dump_packet by done. by rewrite Hd, <- surjective_pairing.
Qed.

(** Packets written one after the other; every call must succeed. *)
Fixpoint pcap_write_packets (out : pcap_output) (ss : list dump_source) : outcome pcap_output :=
  match ss with
  | [] => Ok out
  | s :: ss' =>
      let! ' (out, _, _, ret) := pcap_write_packet out (cp_trace s.2) s.1 (cp_obj s.2) in
      let! _ := oassert (ret =? 0) in
      pcap_write_packets out ss'
  end.

Lemma pcap_write_packets_ok lt ss : ∀ out rs, Forall (dumpable lt) ss → out_holds out lt rs →
  ∃ out', pcap_write_packets out ss = Ok out' ∧ out_holds out' lt (rs ++ map (dump_record lt) ss) ∧
    (ss ≠ [] → is_Some (out_pcap out')).
Proof using LF.
  induction ss as [|s ss IH]; intros out rs Hss Hout.
  - exists out. cbn [pcap_write_packets map]. by rewrite app_nil_r.
  - apply Forall_cons in Hss as [Hs Hss]. cbn [pcap_write_packets map].
    destruct (pcap_write_packet_ok out lt s rs Hs Hout) as (out1 & o1 & -> & H1 & Hsome). cbn [obind oassert Z.eqb].
    destruct (IH out1 _ Hss H1) as (out' & -> & H2 & Hsome'). exists out'. split; [done|].
    rewrite <- app_assoc in H2. split; [done|]. intros _. destruct ss; [|by apply Hsome'].
    cbn [map] in H2. unfold out_holds in H2. destruct (out_pcap out') eqn:E; [done|]. destruct H2 as [H2 _].
    by destruct rs.
Qed.
End writing.

(** ** Reading *)
Section reading.
Context {L : Libpcap} (libtrace_halt : Z → bool).

(** [trace_fin_packet] clears the caches before the next packet is read. *)
Definition pp_clear (pp : pcap_packet) : pcap_packet := {| pp_obj := o_clear (pp_obj pp); pp_place := pp_place pp |}.

(** Reading into one packet object and looking at each packet, until there is
    nothing more to read: the packets, and the last return value.  A file is read
    without timeouts, so that each packet takes one call of [pcap_next_ex]. *)
Fixpoint pcap_read_packets (fuel : nat) (t : pcap_input) (pp : pcap_packet) : outcome (list libtrace_packet_t * Z) :=
  match fuel with
  | O => Fault OutOfFuel
  | S fuel' =>
      let! ' (t, pp, ret) := pcap_read_packet libtrace_halt 1 t (pp_clear pp) in
      if ret <=? 0 then Ok ([], ret)
      else
        let! o := pcap_view t pp in
        let! ' (ps, last) := pcap_read_packets fuel' t pp in
        Ok (o_pkt o :: ps, last)
  end.

(** Reading into several packet objects one after the other, as a thread of a
    parallel trace does, until one cannot be read. *)
Fixpoint pcap_read_burst (fuel : nat) (t : pcap_input) (pps : list pcap_packet) : outcome (pcap_input * list pcap_packet) :=
  match pps with
  | [] => Ok (t, [])
  | pp :: pps' =>
      let! ' (t, pp, ret) := pcap_read_packet libtrace_halt fuel t (pp_clear pp) in
      if ret <=? 0 then Ok (t, [])
      else
        let! ' (t, rest) := pcap_read_burst fuel t pps' in
        Ok (t, pp :: rest)
  end.

Context {LF : LibpcapFile L}.

Lemma pcap_read_packet_ok t p pp lt r rest wire :
  in_pcap t = PcapHandle p → pcap_rest p = r :: rest → pcap_datalink p = libtrace_to_pcap_dlt lt → dump_type lt →
  storable_header r → kh_len r.1 = pcap_wirelen lt wire → (lt = TRACE_TYPE_ETH → 4 ≤ wire) →
  0 ≤ wire < LIBTRACE_PACKET_BUFSIZE →
  ∃ t' p' pp', pcap_read_packet libtrace_halt 1 t (pp_clear pp) = Ok (t', pp', kh_len r.1 + sizeof_pcap_pkthdr) ∧
    in_pcap t' = PcapHandle p' ∧ pcap_rest p' = rest ∧ pcap_datalink p' = libtrace_to_pcap_dlt lt ∧
    pcap_view t' pp' = Ok (pp_obj pp') ∧ describes libpcap_trace (o_pkt (pp_obj pp')) lt (kh_ts r.1) r.2 wire.
Proof using LF.
  destruct r as [h bs]. cbn [fst snd]. intros Hp Hr Hdl Hty (Ht & Hc & Hc' & Hl) Hlen He Hw. cbn [fst snd] in *.
  unfold pcap_read_packet. rewrite Hp. cbn [pcap_deref obind pcap_read_loop]. unfold in_next.
  destruct (pcap_next_ex_packet _ _ _ _ Hr) as (p' & -> & Hr' & Hdl'). cbn [Z.eqb Pos.eqb]. cbn iota.
  unfold pp_point. cbn [pp_obj pp_clear o_clear o_set_pkt o_header o_pkt default id]. rewrite bool_decide_eq_true_2 by done.
  cbn [negb pk_header pk_set_buffer]. rewrite take_app_length'  by done.
  pose proof (Zlen_nonneg bs). rewrite pkthdr_len by lia. cbn [obind].
  do 3 eexists. split; [rewrite i32_small by lia; done|]. split; [done|]. split; [done|]. split; [by rewrite Hdl'|].
  split; [unfold pcap_view; cbn [pp_place in_calls]; by rewrite Z.eqb_refl|].
  apply (describes_libpcap _ _ _ _ []); try done; try lia.
  - cbn [o_pkt pp_obj pk_mem pk_set_buffer]. by rewrite drop_app_length', app_nil_r by done.
  - cbn [o_pkt pp_obj pk_type pk_set_buffer]. by rewrite Hdl, dlt_to_rt.
Qed.

Lemma pcap_read_end t p pp : in_pcap t = PcapHandle p → pcap_rest p = [] →
  ∃ t' pp', pcap_read_packet libtrace_halt 1 t pp = Ok (t', pp', 0).
Proof using LF.
  intros Hp Hr. unfold pcap_read_packet. rewrite Hp. cbn [pcap_deref obind pcap_read_loop]. unfold in_next.
  destruct (pcap_next_ex_end _ Hr) as (p' & ->). by do 2 eexists.
Qed.

Lemma pcap_read_packets_ok lt ss : dump_type lt → ∀ t p pp, Forall (dumpable lt) ss →
  in_pcap t = PcapHandle p → pcap_datalink p = libtrace_to_pcap_dlt lt → pcap_rest p = map (dump_record lt) ss →
  ∃ ps, pcap_read_packets (S (length ss)) t pp = Ok (ps, 0) ∧
    Forall2 (λ s q, describes libpcap_trace q lt (cp_time s.2) (dump_bytes s) (cp_wire s.2)) ss ps.
Proof using LF.
  intros Hty. induction ss as [|s ss IH]; intros t p pp Hss Hp Hdl Hr; cbn [length].
  - unfold pcap_read_packets. destruct (pcap_read_end t p (pp_clear pp) Hp Hr) as (t' & pp' & ->). by exists [].
  - apply Forall_cons in Hss as [Hs Hss]. pose proof (dump_record_storable lt s Hs) as Hst.
    destruct Hs as (D & (_ & _ & He) & _). pose proof (ds_wire_range _ _ _ _ _ _ D) as Hw.
    pose proof (pcap_wirelen_range lt _ He Hw).
    destruct (pcap_read_packet_ok t p pp lt (dump_record lt s) (map (dump_record lt) ss) (cp_wire s.2))
      as (t' & p' & pp' & Hrun & Hp' & Hr' & Hdl' & Hv & D'); try done.
    remember (S (length ss)) as n eqn:En. cbn [pcap_read_packets]. rewrite Hrun. cbn [obind].
    rewrite (proj2 (Z.leb_gt _ 0)) by (cbn [dump_record fst kh_len]; lia). rewrite Hv. cbn [obind].
    destruct (IH t' p' pp' Hss Hp' Hdl' Hr') as (ps & -> & HF). cbn [obind].
    eexists. split; [done|]. by constructor.
Qed.
End reading.

(** ** Which memory is valid *)
Section memory.
Context {L : Libpcap} (libtrace_halt : Z → bool).

Lemma pcap_read_loop_place fuel type : ∀ t p pp t' pp' ret,
  pcap_read_loop libtrace_halt fuel t p pp type = Ok (t', pp', ret) →
  pp_place pp' = Some (in_calls t') ∧ in_calls t < in_calls t'.
Proof.
  induction fuel as [|fuel IH]; intros t p pp t' pp' ret; cbn [pcap_read_loop]; [done|].
  unfold in_next. destruct (pcap_next_ex p) as [[p1 r] found]. cbn [in_calls].
  set (t1 := {| in_uridata := in_uridata t; in_calls := in_calls t + 1 |}).
  assert (∀ calls, pp_place (pp_point pp calls type found) = Some calls) as Hpl.
  { intros calls. unfold pp_point. by destruct (default ([], []) found). }
  destruct (r =? 0).
  - destruct (libtrace_halt _); [intros [= <- <- <-]; rewrite Hpl; cbn; split; [done|lia]|].
    cbn [in_pcap t1 pcap_deref obind]. intros H. apply IH in H as [? ?]. cbn in *. split; [done|lia].
  - destruct (r =? -1); [cbn; intros [= <- <- <-]; rewrite Hpl; cbn; split; [done|lia]|].
    destruct (r =? -2); [cbn; intros [= <- <- <-]; rewrite Hpl; cbn; split; [done|lia]|].
    destruct (negb _); [done|]. intros H. obind_inv H. injection H as <- <- <-. rewrite Hpl. cbn. split; [done|lia].
Qed.

Lemma pcap_read_packet_place fuel t pp t' pp' ret :
  pcap_read_packet libtrace_halt fuel t pp = Ok (t', pp', ret) →
  pp_place pp' = Some (in_calls t') ∧ in_calls t < in_calls t'.
Proof. unfold pcap_read_packet. intros H. obind_inv H. by apply pcap_read_loop_place in H. Qed.

Lemma pcap_read_burst_calls fuel pps : ∀ t t' out,
  pcap_read_burst libtrace_halt fuel t pps = Ok (t', out) → in_calls t ≤ in_calls t' ∧ (pps ≠ [] → in_calls t < in_calls t').
Proof.
  induction pps as [|pp pps IH]; intros t t' out; cbn [pcap_read_burst]; [by intros [= <- <-]|].
  intros H. obind_inv H. destruct a as [[t1 pp1] ret]. apply pcap_read_packet_place in Hstep as [_ Hlt].
  destruct (ret <=? 0); [injection H as <- <-; split; [lia|done]|].
  obind_inv H. destruct a as [t2 rest]. apply IH in Hstep as [? _]. injection H as <- <-. split; [lia|intros; lia].
Qed.

Lemma pcap_read_burst_views fuel pps : ∀ t t' out,
  pcap_read_burst libtrace_halt fuel t pps = Ok (t', out) →
  ∀ i pp, out !! i = Some pp → pcap_view t' pp = if bool_decide (S i = length pps) then Ok (pp_obj pp) else Fault Dangling.
Proof.
  induction pps as [|pp0 pps IH]; intros t t' out; cbn [pcap_read_burst]; [by intros [= <- <-]|].
  intros H i pp Hi. obind_inv H. destruct a as [[t1 pp1] ret]. apply pcap_read_packet_place in Hstep as [Hpl Hlt].
  destruct (ret <=? 0); [by injection H as <- <-|].
  obind_inv H. destruct a as [t2 rest]. injection H as <- <-.
  destruct i as [|i]; cbn in Hi.
  - injection Hi as <-. unfold pcap_view. rewrite Hpl. destruct pps as [|pp2 pps].
    + cbn in Hstep. injection Hstep as <- _. by rewrite Z.eqb_refl.
    + apply pcap_read_burst_calls in Hstep as [_ Hc]. rewrite (proj2 (Z.eqb_neq _ _)); [done|].
      specialize (Hc ltac:(done)). lia.
  - rewrite (IH _ _ _ Hstep i pp Hi). cbn [length]. by rewrite (bool_decide_ext (S (S i) = S (length pps)) (S i = length pps)) by lia.
Qed.
End memory.

(** ** Promoting

    The header after the additions of [promote_packet]. *)
Definition later (h : pcap_pkthdr) : pcap_pkthdr :=
  {| kh_ts := {| tv_sec := tv_sec (kh_ts h); tv_usec := tv_usec (kh_ts h) + 16 * (2 ^ 32 + 1) |};
     kh_caplen := kh_caplen h; kh_len := kh_len h |}.

Lemma promote_header h : 0 ≤ tv_usec (kh_ts h) < 1000000 →
  (let! caplen0 := read32 (encode_pkthdr h) 8 in
   let! header := store (encode_pkthdr h) 8 (bytes32 (u32 (caplen0 + sizeof_sll))) in
   let! wirelen0 := read32 header 12 in
   store header 12 (bytes32 (u32 (wirelen0 + sizeof_sll)))) = Ok (encode_pkthdr (later h)).
Proof.
  intros Hu. unfold encode_pkthdr, later. cbn [kh_ts tv_sec tv_usec kh_caplen kh_len].
  set (u := tv_usec (kh_ts h)) in *. set (s := bytes64 (u64 (tv_sec (kh_ts h)))). rewrite !(u64_small) by lia.
  set (l := bytes32 (kh_caplen h) ++ bytes32 (kh_len h)).
  assert (Zlen s = 8) as Hs by done. assert (∀ v, Zlen (bytes32 v) = 4) as Hb by done. pose proof (Zlen_nonneg l).
  unfold bytes64 at 1 2.
  rewrite (Z.div_small u (2 ^ 32)) by lia. rewrite <- !app_assoc.
  change 8 with (Zlen s). rewrite read32_bytes32 by lia. cbn [obind]. rewrite u32_small by lia.
  rewrite store_app by (rewrite ?Zlen_app, ?Hs, ?Hb; lia).
  change (Z.to_nat (Zlen s + Zlen (bytes32 (u + 16)))) with 12%nat.
  change (Z.to_nat (Zlen s)) with (length s). rewrite take_app_length.
  change (drop 12 (s ++ bytes32 u ++ bytes32 0 ++ l)) with (bytes32 0 ++ l). cbn [obind].
  rewrite app_assoc. change 12 with (Zlen (s ++ bytes32 (u + 16))).
  rewrite read32_bytes32 by lia. cbn [obind]. rewrite u32_small by lia.
  rewrite store_app by (rewrite ?Zlen_app, ?Hs, ?Hb; lia).
  change (Z.to_nat (Zlen (s ++ bytes32 (u + 16)))) with (length (s ++ bytes32 (u + 16))). rewrite take_app_length.
  change (Z.to_nat _) with 16%nat. change (drop 16 ((s ++ bytes32 (u + 16)) ++ bytes32 0 ++ l)) with l.
  f_equal. rewrite <- !app_assoc. f_equal. unfold bytes64. rewrite <- app_assoc. f_equal.
  - rewrite <- (bytes32_mod (u + 16 * (2 ^ 32 + 1))). f_equal. replace (u + 16 * (2 ^ 32 + 1)) with (u + 16 + 16 * 2 ^ 32) by lia.
    rewrite Z_mod_plus_full, Z.mod_small; lia.
  - f_equal. f_equal. replace (u + 16 * (2 ^ 32 + 1)) with (u + 16 + 16 * 2 ^ 32) by lia.
    rewrite Z.div_add, Z.div_small; lia.
Qed.

(** The SLL header of a promoted Ethernet packet, and the packet. *)
Definition eth_sll (addr : list Z) (pkttype : Z) : list Z :=
  bytes16 pkttype ++ bytes16 (htons LIBTRACE_ARPHRD_ETHER) ++ bytes16 (htons 6) ++ addr ++ bytes16 (htons 0x0060).

Lemma pcap_capture_length_fresh p h n : pk_header p = encode_pkthdr h → pk_capture_length p = -1 →
  kh_caplen h = n → 0 ≤ n < LIBTRACE_PACKET_BUFSIZE →
  trace_get_capture_length pcap_format p = Ok (pk_set_lengths p n (pk_wire_length p), n).
Proof.
  intros Eh Ec En Hn. unfold trace_get_capture_length. rewrite Ec. cbn [Z.eqb Pos.eqb f_get_capture_length pcap_format pcap_lengths].
  unfold pcap_get_capture_length. rewrite Eh, pkthdr_caplen by lia. cbn [obind]. rewrite (proj2 (Z.leb_le _ _)) by lia.
  cbn [oassert obind ok_or]. rewrite !(i32_small (kh_caplen h)) by lia. cbn [pk_capture_length pk_set_lengths].
  rewrite (proj2 (Z.ltb_lt _ _)) by lia. cbn [oassert obind]. rewrite En. unfold int_to_size. by rewrite u64_small by lia.
Qed.

Lemma slice_head l k n : Zlen l = n → slice (l ++ k) 0 n = Ok l.
Proof.
  intros <-. rewrite slice_ok by (rewrite ?Zlen_app; pose proof (Zlen_nonneg k); lia).
  rewrite drop_0, take_app_length' by (unfold Zlen; lia). done.
Qed.

Lemma promote_eth o h bs tail addr proto0 :
  pk_header (o_pkt o) = encode_pkthdr h → pk_mem (o_pkt o) = bs ++ tail → pk_payload (o_pkt o) = 0 →
  pk_type (o_pkt o) = pcap_type TRACE_TYPE_ETH → pk_capture_length (o_pkt o) = -1 →
  0 ≤ tv_usec (kh_ts h) < 1000000 → kh_caplen h = Zlen bs → Zlen bs < LIBTRACE_PACKET_BUFSIZE →
  ∃ p, promote_packet pcap_format true addr proto0 o =
    Ok {| o_pkt := trace_clear_cache (pk_set_buffer p (encode_pkthdr (later h) ++ eth_sll addr TRACE_SLL_OUTGOING ++ bs)
                     sizeof_pcap_pkthdr (pcap_linktype_to_rt TRACE_DLT_LINUX_SLL));
          o_buffer := true; o_header := true; o_payload := true; o_buf_control := TRACE_CTRL_PACKET |}.
Proof.
  intros Eh Em Ep Et Ec Hu Hc Hb. pose proof (Zlen_nonneg bs). unfold promote_packet. rewrite Et. cbn [negb].
  change (rt_to_pcap_linktype (pcap_type TRACE_TYPE_ETH)) with (Ok TRACE_DLT_EN10MB). cbn [obind].
  change (pcap_linktype_to_libtrace TRACE_DLT_EN10MB) with TRACE_TYPE_ETH. rewrite bool_decide_eq_false_2 by done.
  rewrite (pcap_capture_length_fresh _ h (Zlen bs)) by done. cbn [obind].
  change (trace_get_framing_length pcap_format _) with sizeof_pcap_pkthdr.
  cbn [pk_header pk_mem pk_payload pk_set_lengths]. rewrite Eh, Em, Ep.
  rewrite <- (app_nil_r (encode_pkthdr h)), !slice_head by done. cbn [obind].
  pose proof (promote_header h Hu) as Hh.
  obind_inv Hh. rewrite Hstep. cbn [obind]. obind_inv Hh. rewrite Hstep0. cbn [obind]. obind_inv Hh. rewrite Hstep1.
  cbn [obind]. rewrite Hh. cbn [obind]. by eexists.
Qed.

(** ** Theorems *)

(** C39: Packets of one link type from any formats, packets of this module among them,
    that are written to a new trace are read back by a handle of what was dumped:
    every packet in order, with its link type, its time, its wire length and its
    bytes (of a packet of another format not more than its wire length), and then
    the end of the file.  Each packet can be looked at until the next one is
    read.  The link type is any that pcap knows but Radiotap, whose wire length may
    grow ([radiotap_grows]), and an Ethernet packet has a wire length of at least
    four. *)
Theorem pcap_roundtrip {L : Libpcap} {LF : LibpcapFile L} lt ss uri p0 d0 :
  dump_type lt → ss ≠ [] → Forall (dumpable lt) ss →
  pcap_open_dead (libtrace_to_pcap_dlt lt) 65536 = Some p0 → pcap_dump_open p0 uri = Some d0 →
  ∃ out d, pcap_write_packets (pcap_init_output uri) ss = Ok out ∧ pcap_fin_output out = Ok (Some d) ∧
    ∀ halt t p pp, in_pcap t = PcapHandle p → pcap_datalink p = libtrace_to_pcap_dlt lt → pcap_rest p = dumped d →
    ∃ ps, pcap_read_packets halt (S (length ss)) t pp = Ok (ps, 0) ∧
      Forall2 (λ s q, describes libpcap_trace q lt (cp_time s.2) (dump_bytes s) (cp_wire s.2)) ss ps.
Proof.
  intros Hty Hne Hss Hp0 Hd0.
  destruct (pcap_write_packets_ok lt ss (pcap_init_output uri) [] Hss) as (out & Hrun & Hh & Hs).
  { split; [done|]. eauto. }
  specialize (Hs Hne). unfold out_holds in Hh. destruct (out_pcap out) as [q|] eqn:Eq; [|by destruct Hs].
  destruct Hh as (d & Hd & Hrs). exists out, d. split; [done|].
  split; [unfold pcap_fin_output; by rewrite Eq, Hd|]. intros halt t p pp Hp Hdl Hr. rewrite Hrs in Hr.
  by apply (pcap_read_packets_ok halt lt ss Hty t p pp).
Qed.

(** When packets of a trace are read into several packet objects one after the
    other, as the threads of a parallel trace do, the pointers of every one but
    the last have been given up by libpcap when the burst has been read; if the
    burst ends early, those of all of them. *)
Theorem pcap_burst_dangles {L : Libpcap} halt fuel t pps t' out :
  pcap_read_burst halt fuel t pps = Ok (t', out) →
  ∀ i pp, out !! i = Some pp →
    pcap_view t' pp = if bool_decide (S i = length pps) then Ok (pp_obj pp) else Fault Dangling.
Proof. apply pcap_read_burst_views. Qed.

(** Setting the direction of an Ethernet packet puts an SLL header before its bytes,
    and the direction is read back.  The lengths in the header stay those of the
    Ethernet packet, and the time of the packet moves by 68719476752
    microseconds: the lengths are added to the fields of another struct. *)
Theorem set_direction_moves_time o h bs tail addr proto0 dir :
  pk_header (o_pkt o) = encode_pkthdr h → pk_mem (o_pkt o) = bs ++ tail → pk_payload (o_pkt o) = 0 →
  pk_type (o_pkt o) = pcap_type TRACE_TYPE_ETH → pk_capture_length (o_pkt o) = -1 → Zlen addr = 8 →
  time_ok (kh_ts h) → tv_usec (kh_ts h) < 1000000 → kh_caplen h = Zlen bs →
  Zlen bs < LIBTRACE_PACKET_BUFSIZE → 0 ≤ kh_len h < LIBTRACE_PACKET_BUFSIZE →
  dir = TRACE_DIR_OUTGOING ∨ dir = TRACE_DIR_INCOMING →
  ∃ o', pcap_set_direction addr proto0 o dir = Ok (o', dir) ∧ pcap_get_direction o' = Ok (None, dir) ∧
    pcap_get_link_type (o_pkt o') = Ok TRACE_TYPE_LINUX_SLL ∧
    slice (pk_mem (o_pkt o')) (pk_payload (o_pkt o') + sizeof_sll) (Zlen bs) = Ok bs ∧
    pcap_get_capture_length (o_pkt o') = Ok (Zlen bs) ∧ pcap_get_wire_length (o_pkt o') = Ok (kh_len h) ∧
    pcap_get_timeval (o_pkt o') = Ok {| tv_sec := tv_sec (kh_ts h); tv_usec := tv_usec (kh_ts h) + 68719476752 |}.
Proof.
  intros Eh Em Ep Et Ec Ea Ht Hu Hc Hb Hl Hd. pose proof (Zlen_nonneg bs). destruct Ht as [Hs Hu0].
  destruct (promote_eth o h bs tail addr proto0) as (p & Hpr); try done; try lia.
  unfold pcap_set_direction. rewrite Hpr.
  assert (negb ((dir =? TRACE_DIR_OUTGOING) || (dir =? TRACE_DIR_INCOMING)) = false) as -> by by destruct Hd as [-> | ->].
  set (pkttype := if dir =? TRACE_DIR_OUTGOING then TRACE_SLL_OUTGOING else TRACE_SLL_HOST).
  cbn [obind o_payload negb o_pkt trace_clear_cache pk_set_buffer pk_mem pk_payload].
  change (Z.to_nat sizeof_pcap_pkthdr) with (length (encode_pkthdr (later h))). rewrite drop_app_length.
  assert (∀ v, Zlen (bytes16 v) = 2) as Hb16 by done.
  assert (store (eth_sll addr TRACE_SLL_OUTGOING ++ bs) 0 (bytes16 pkttype) = Ok (eth_sll addr pkttype ++ bs)) as ->.
  { rewrite store_app; [done|lia|]. unfold eth_sll. rewrite !Zlen_app, Ea, !Hb16. lia. }
  cbn [obind]. eexists. split; [done|].
  unfold pcap_get_direction, pcap_get_link_type, pcap_get_capture_length, pcap_get_wire_length, pcap_get_timeval.
  cbn [o_pkt o_set_pkt o_payload negb pk_set_mem pk_set_buffer trace_clear_cache pk_type pk_header pk_mem pk_payload].
  change (Z.to_nat sizeof_pcap_pkthdr) with (length (encode_pkthdr (later h))).
  rewrite take_app_length, pkthdr_caplen, pkthdr_len, pkthdr_sec, pkthdr_usec by (cbn [later kh_caplen kh_len]; lia).
  cbn [later kh_ts kh_caplen kh_len tv_sec tv_usec obind]. rewrite !i64_u64, (proj2 (Z.leb_le _ _)) by lia.
  cbn [oassert obind]. rewrite !i32_small by lia. rewrite Hc. split_and!; try done.
  - change (rt_to_pcap_linktype _) with (Ok TRACE_DLT_LINUX_SLL). cbn [obind].
    change (pcap_linktype_to_libtrace TRACE_DLT_LINUX_SLL) with TRACE_TYPE_LINUX_SLL. unfold eth_sll. rewrite <- app_assoc.
    assert (∀ l, read16 (bytes16 pkttype ++ l) 0 = Ok pkttype) as ->.
    { intros l. apply (read16_bytes16 []). unfold pkttype. destruct (dir =? _); lia. }
    cbn [obind]. unfold pkttype.
    by destruct Hd as [-> | ->].
  - replace (0 + sizeof_sll) with (Zlen (eth_sll addr pkttype)) by (unfold eth_sll; rewrite !Zlen_app, Ea, !Hb16; lia).
    rewrite slice_ok, drop_app_length', take_ge by (rewrite ?Zlen_app; unfold Zlen; lia). done.
Qed.

(** ** Concrete traces

    libpcap on files in memory: a handle is the link type and the packets left, a
    dumper the packets written.  A file name is not looked at. *)
Definition decode_pkthdr (b : list Z) : pcap_pkthdr :=
  {| kh_ts := {| tv_sec := i64 (ok_or 0 (read64 b 0)); tv_usec := i64 (ok_or 0 (read64 b 8)) |};
     kh_caplen := ok_or 0 (read32 b 16); kh_len := ok_or 0 (read32 b 20) |}.

#[export] Instance memory_libpcap : Libpcap := {
  pcap_t := Z * list (pcap_pkthdr * list Z);
  pcap_dumper_t := list (pcap_pkthdr * list Z);
  bpf_program := list Z;
  pcap_open_offline uri := Some (TRACE_DLT_EN10MB, []);
  pcap_create uri := Some (TRACE_DLT_EN10MB, []);
  pcap_set_snaplen p n := (p, 0);
  pcap_set_promisc p n := (p, 0);
  pcap_set_timeout p n := (p, 0);
  pcap_set_immediate_mode p n := (p, 0);
  pcap_activate p := (p, 0);
  pcap_setnonblock p n := p;
  pcap_open_live uri snaplen promisc timeout := Some (TRACE_DLT_EN10MB, []);
  pcap_open_dead linktype snaplen := Some (linktype, []);
  pcap_compile p s := Some s;
  pcap_setfilter p f := (p, 0);
  pcap_datalink p := p.1;
  pcap_next_ex p :=
    match p.2 with
    | [] => (p, -2, None)
    | (h, bs) :: rest => ((p.1, rest), 1, Some (encode_pkthdr h, bs))
    end;
  pcap_dump_open p uri := Some [];
  pcap_dump d header bs := d ++ [(decode_pkthdr header, bs)];
  pcap_inject p bs := (p, Zlen bs);
  pcap_stats p := Some 0;
  pcap_fileno p := 3;
}.

Lemma decode_encode_pkthdr h bs : storable_header (h, bs) → decode_pkthdr (encode_pkthdr h) = h.
Proof.
  intros ((Hs & Hu) & Hc & Hc' & Hl). cbn [fst snd] in *. pose proof (Zlen_nonneg bs).
  unfold decode_pkthdr. rewrite pkthdr_sec, pkthdr_usec, pkthdr_caplen, pkthdr_len by lia. cbn [ok_or].
  rewrite !i64_u64 by lia. by destruct h as [[] ? ?].
Qed.

#[export, refine] Instance memory_libpcap_file : LibpcapFile memory_libpcap := {
  pcap_rest p := p.2;
  dumped d := d;
}.
Proof.
  - intros [dlt rs] h bs rest E. cbn in *. subst rs. by eexists.
  - intros [dlt rs] E. cbn in *. subst rs. by eexists.
  - by intros p uri d [= <-].
  - intros d h bs Hh. cbn [pcap_dump memory_libpcap]. by rewrite (decode_encode_pkthdr h bs).
Defined.

(** A packet of six bytes that was captured by this module, and one of another
    format. *)
Definition sample_pkthdr : pcap_pkthdr :=
  {| kh_ts := {| tv_sec := 1500000000; tv_usec := 250000 |}; kh_caplen := 6; kh_len := 60 |}.

Definition sample_eth : packet_obj :=
  {| o_pkt := trace_clear_cache (pk_set_buffer sample_time_packet (encode_pkthdr sample_pkthdr ++ [1; 2; 3; 4; 5; 6])
                sizeof_pcap_pkthdr (pcap_type TRACE_TYPE_ETH));
     o_buffer := true; o_header := true; o_payload := true; o_buf_control := TRACE_CTRL_PACKET |}.

Definition sample_sources : list (bool * captured) :=
  [(true, {| cp_trace := libpcap_trace; cp_obj := sample_eth; cp_time := kh_ts sample_pkthdr;
             cp_bytes := [1; 2; 3; 4; 5; 6]; cp_wire := 64 |});
   (false, sample_captured 1500000001 [7; 8; 9] 60)].

Lemma sample_sources_dumpable : Forall (dumpable TRACE_TYPE_ETH) sample_sources.
Proof.
  apply Forall_cons. split; [|apply Forall_cons; split; [|constructor]].
  - split_and!; [|by split_and!; vm_compute; try lia|done|done].
    apply (describes_libpcap _ _ sample_pkthdr _ []); try done; by split_and!; vm_compute.
  - destruct (sample_captured_storable 1500000001 [7; 8; 9] 60) as (D & Hw & Hp & _); [lia|by split|lia|].
    split_and!; try done; apply Hw.
Qed.

Definition sample_input (rs : list (pcap_pkthdr * list Z)) : pcap_input :=
  in_set_pcap (pcap_init_input []) (PcapHandle (TRACE_DLT_EN10MB, rs)).

Definition unread_packet : pcap_packet := {| pp_obj := new_packet; pp_place := None |}.

Lemma pcap_roundtrip_witness :
  ∃ out d, pcap_write_packets (pcap_init_output []) sample_sources = Ok out ∧ pcap_fin_output out = Ok (Some d) ∧
    ∀ halt t p pp, in_pcap t = PcapHandle p → pcap_datalink p = TRACE_DLT_EN10MB → pcap_rest p = dumped d →
    ∃ ps, pcap_read_packets halt 3 t pp = Ok (ps, 0) ∧
      Forall2 (λ s q, describes libpcap_trace q TRACE_TYPE_ETH (cp_time s.2) (dump_bytes s) (cp_wire s.2)) sample_sources ps.
Proof.
  apply (pcap_roundtrip (L := memory_libpcap) TRACE_TYPE_ETH sample_sources [] (TRACE_DLT_EN10MB, []) []); try done.
  apply sample_sources_dumpable.
Defined.

Definition sample_burst : outcome (pcap_input * list pcap_packet) :=
  pcap_read_burst (λ _, false) 1 (sample_input (map (dump_record TRACE_TYPE_ETH) sample_sources))
    [unread_packet; unread_packet].

Lemma pcap_burst_dangles_witness :
  (let! ' (t, pps) := sample_burst in Ok (Zlen pps)) = Ok 2 ∧
  ∀ t pps, sample_burst = Ok (t, pps) →
    ∀ pp, (pps !! 0%nat = Some pp → pcap_view t pp = Fault Dangling) ∧
          (pps !! 1%nat = Some pp → pcap_view t pp = Ok (pp_obj pp)).
Proof.
  split; [vm_compute; reflexivity|]. intros t pps H pp.
  split; intros Hpp; rewrite (pcap_burst_dangles _ _ _ _ _ _ H _ _ Hpp); reflexivity.
Defined.

Lemma set_direction_moves_time_witness :
  ∃ o', pcap_set_direction (replicate 8 0) 0 sample_eth TRACE_DIR_INCOMING = Ok (o', TRACE_DIR_INCOMING) ∧
    pcap_get_direction o' = Ok (None, TRACE_DIR_INCOMING) ∧
    pcap_get_capture_length (o_pkt o') = Ok 6 ∧
    pcap_get_timeval (o_pkt o') = Ok {| tv_sec := 1500000000; tv_usec := 68719726752 |}.
Proof.
  destruct (set_direction_moves_time sample_eth sample_pkthdr [1; 2; 3; 4; 5; 6] [] (replicate 8 0) 0 TRACE_DIR_INCOMING)
    as (o' & H1 & H2 & _ & _ & H3 & _ & H4); try done; try (by right).
  exists o'. by split_and!.
Defined.

(** A packet that cannot be promoted loses its first two bytes. *)
Example set_direction_overwrites :
  let o := {| o_pkt := trace_clear_cache (pk_set_buffer sample_time_packet (encode_pkthdr sample_pkthdr ++ [1; 2; 3; 4; 5; 6])
                sizeof_pcap_pkthdr (pcap_type TRACE_TYPE_80211));
     o_buffer := true; o_header := true; o_payload := true; o_buf_control := TRACE_CTRL_PACKET |} in
  (let! ' (o, _) := pcap_set_direction (replicate 8 0) 0 o TRACE_DIR_OUTGOING in Ok (pk_mem (o_pkt o)))
  = Ok [4; 0; 3; 4; 5; 6].
Proof. vm_compute. reflexivity. Qed.

(** An output trace that nothing was written to cannot be closed. *)
Example fin_output_without_packets : pcap_fin_output (pcap_init_output []) = Fault NullDeref.
Proof. reflexivity. Qed.

(** The excluded link type: a Radiotap packet of another format without a frame check
    sequence and with a wire length of 60 comes back with 64. *)
Example radiotap_grows :
  let bs := [0; 0; 9; 0; 2; 0; 0; 0; 0] ++ replicate 23 7 in
  let c := {| cp_trace := sample_trace TRACE_TYPE_80211_RADIO (kh_ts sample_pkthdr) 32 60; cp_obj := sample_obj bs;
              cp_time := kh_ts sample_pkthdr; cp_bytes := bs; cp_wire := 60 |} in
  (let! out := pcap_write_packets (L := memory_libpcap) (pcap_init_output []) [(false, c)] in
   let! d := pcap_fin_output out in
   let t := in_set_pcap (pcap_init_input []) (PcapHandle (TRACE_DLT_IEEE802_11_RADIO, default [] d)) in
   let! ' (t, pp, _) := pcap_read_packet (L := memory_libpcap) (λ _, false) 1 t unread_packet in
   let! ' (_, w) := trace_get_wire_length (tr_format libpcap_trace) (o_pkt (pp_obj pp)) in
   Ok w) = Ok 64.
Proof. vm_compute. reflexivity. Qed.
