(* ===== verification/Odp.v ===== *)
(** * Capturing with OpenDataPlane: lib/format_odp.c

    Packets arrive in the queues of ODP, which is not part of this repository:
    its calls are the operations of the class [Odp] on the state of ODP and the
    network.  What the format relies on is the class [OdpPackets]: the events that
    wait are scheduled in order, each as a buffer that the program holds until it
    frees it.

    [libtrace_halt] is a global variable that [trace_interrupt] sets; reading looks
    at it only after an event has been scheduled, so that an interrupt during the
    wait is the same as one before it.

    A packet's [buffer] and [header] are the handle of the ODP packet, which the
    model keeps as the only element of [pk_header]; its payload is the memory at
    the layer 2 header. *)

From Stdlib Require Import Ascii String.
From S2P Require Import Prelude DNodes Packet PktMeta Linktypes Timestamps FormatHelper PcapFile Buckets Filter Trace ParConfig Erf.
Local Open Scope Z_scope.
Local Open Scope outcome_scope.

Abbreviation SHM_PKT_POOL_SIZE := (512 * 2048).
Abbreviation SHM_PKT_POOL_BUF_SIZE := 1856.
Abbreviation TRACE_RT_DATA_ODP := 1018.
Abbreviation READ_EOF := 0.

Record odp_pool_param_t := { seg_len : Z; pkt_len_min : Z; pkt_num : Z }.

(** Handles are numbers; a packet handle of 0 is a null pointer.  A call that waits
    for ever returns [None].  [errno] and [time] belong to the environment, too. *)
Class Odp := {
  odp_t : Type;
  ODP_PKTIO_INVALID : Z;
  odp_init_global : odp_t → list Z → odp_t * Z;
  odp_init_local : odp_t → odp_t * Z;
  odp_pool_lookup : odp_t → list Z → option Z;
  odp_pool_create : odp_t → list Z → odp_pool_param_t → odp_t * option Z;
  odp_pktio_open : odp_t → list Z → Z → odp_t * Z;
  odp_pktin_queue_config : odp_t → Z → odp_t * Z;
  odp_pktout_queue_config : odp_t → Z → odp_t * Z;
  odp_pktio_start : odp_t → Z → odp_t * Z;
  odp_pktio_stop : odp_t → Z → odp_t;
  odp_pktio_close : odp_t → Z → odp_t;
  odp_schedule : odp_t → option (odp_t * Z);
  odp_packet_is_valid : odp_t → Z → bool;
  odp_packet_l2_ptr : odp_t → Z → option (list Z);
  odp_packet_len : odp_t → Z → Z;
  odp_packet_free : odp_t → Z → odp_t;
  odp_errno : odp_t → Z;
  time_now : odp_t → Z;
}.

Inductive process (A : Type) := Exit | Return (a : A).
Arguments Exit {A}.
Arguments Return {A} _.

Section odp.
Context `{OD : Odp} `{W : Wandio}.

(** ** State *)

(** [struct odp_format_data_t], with the state of ODP and the global flag.  The
    member [per_stream] is not used. *)
Record odp_format_data_t := {
  pvt : Z;
  pkts_read : Z;
  pktio : Z;
  pkt : Z;
  pkt_len : Z;
  l2h : option (list Z);
  odp_state : odp_t;
  libtrace_halt : bool;
}.

(** [struct odp_format_data_out_t]; the member [path] is not used. *)
Record odp_format_data_out_t := {
  level : Z;
  compress_type : Z;
  fileflag : Z;
  file : option iow_t;
}.

Definition with_odp (d : odp_format_data_t) (s : odp_t) : odp_format_data_t :=
  {| pvt := pvt d; pkts_read := pkts_read d; pktio := pktio d; pkt := pkt d; pkt_len := pkt_len d; l2h := l2h d;
     odp_state := s; libtrace_halt := libtrace_halt d |}.

Definition trace_interrupt (d : odp_format_data_t) : odp_format_data_t :=
  {| pvt := pvt d; pkts_read := pkts_read d; pktio := pktio d; pkt := pkt d; pkt_len := pkt_len d; l2h := l2h d;
     odp_state := odp_state d; libtrace_halt := true |}.

(** ** Setting up *)

(** [strcat] into a block of [size] bytes, and [strcpy], which is the same behind
    nothing. *)
Definition strcat (size : Z) (dst src : list Z) : outcome (list Z) :=
  if Zlen dst + Zlen src + 1 <=? size then Ok (dst ++ src) else Fault OutOfBounds.

Definition packet_pool_params : odp_pool_param_t :=
  {| seg_len := SHM_PKT_POOL_BUF_SIZE; pkt_len_min := SHM_PKT_POOL_BUF_SIZE;
     pkt_num := SHM_PKT_POOL_SIZE / SHM_PKT_POOL_BUF_SIZE |}.

(** The state of ODP, what is stored in [format_data->pktio], the contents of [err]
    and the return value.  The number of processors that is asked for is not used. *)
Definition lodp_init_environment (s : odp_t) (uridata : list Z) (errlen : Z)
  : outcome (process (odp_t * Z * list Z * Z)) :=
  let err := if Zlen (str "No error") <? errlen then str "No error" else [] in
  let! dpdk_params := strcat 256 [] (str "-n 4 -w ") in
  let! dpdk_params := strcat 256 dpdk_params uridata in
  let '(s, ret) := odp_init_global s dpdk_params in
  if negb (ret =? 0) then Ok Exit
  else
    let '(s, ret) := odp_init_local s in
    if negb (ret =? 0) then Ok Exit
    else
      let '(s, pool) :=
        match odp_pool_lookup s (str "packet_pool") with
        | Some pool => (s, Some pool)
        | None => odp_pool_create s (str "packet_pool") packet_pool_params
        end in
      match pool with
      | None => Ok Exit
      | Some pool =>
          let '(s, pktio) := odp_pktio_open s (str "0") pool in
          if pktio =? ODP_PKTIO_INVALID then Ok (Return (s, pktio, err, 1))
          else
            let '(s, ret) := odp_pktin_queue_config s pktio in
            if negb (ret =? 0) then Ok (Return (s, pktio, err, 1))
            else
              let '(s, _) := odp_pktout_queue_config s pktio in
              Ok (Return (s, pktio, err, 0))
      end.

(** The state of ODP, the format's data, the error and its message, and the return
    value.  [fresh]: what the new block of memory holds. *)
Definition lodp_init_input (fresh : odp_format_data_t) (s : odp_t) (halt : bool) (uridata : list Z)
  : outcome (process (odp_t * option odp_format_data_t * option (Z * list Z) * Z)) :=
  let! env := lodp_init_environment s uridata 500 in
  match env with
  | Exit => Ok Exit
  | Return (s, pktio, err, ret) =>
      if negb (ret =? 0) then
        let! code := trace_set_err TRACE_ERR_INIT_FAILED in
        Ok (Return (s, None, Some (code, err), -1))
      else
        let d := {| pvt := i32 0xFAFAFAFA; pkts_read := 0; pktio := pktio; pkt := pkt fresh; pkt_len := pkt_len fresh;
                    l2h := l2h fresh; odp_state := s; libtrace_halt := halt |} in
        Ok (Return (s, Some d, None, 0))
  end.

Abbreviation O_CREAT_WRONLY := 65.

(** The block holds a [struct odp_format_data_out_t], but [lodp_init_environment]
    stores [pktio] through a pointer to [struct odp_format_data_t]: 8 bytes at the
    offset 8, where [level] and [compress_type] are. *)
Definition store_pktio (out : odp_format_data_out_t) (pktio : Z) : odp_format_data_out_t :=
  {| level := i32 pktio; compress_type := i32 (Z.shiftr pktio 32); fileflag := fileflag out; file := file out |}.

Definition lodp_init_output (s : odp_t) (uridata : list Z)
  : outcome (process (odp_t * option odp_format_data_out_t * option (Z * list Z) * Z)) :=
  let out := {| level := 0; compress_type := 0; fileflag := O_CREAT_WRONLY; file := None |} in
  let! env := lodp_init_environment s uridata 500 in
  match env with
  | Exit => Ok Exit
  | Return (s, pktio, err, ret) =>
      let out := store_pktio out pktio in
      if negb (ret =? 0) then
        let! code := trace_set_err_out TRACE_ERR_INIT_FAILED in
        Ok (Return (s, None, Some (code, err), -1))
      else Ok (Return (s, Some out, None, 0))
  end.

(** [TRACE_OPTION_OUTPUT_OTHER]: a number that is not a member of the enumeration. *)
Inductive trace_option_output_t :=
| TRACE_OPTION_OUTPUT_FILEFLAGS | TRACE_OPTION_OUTPUT_COMPRESS | TRACE_OPTION_OUTPUT_COMPRESSTYPE
| TRACE_OPTION_OUTPUT_OTHER.

(** [data]: the value that the pointer points to. *)
Definition lodp_config_output (out : odp_format_data_out_t) (opt : trace_option_output_t) (data : option Z)
  : outcome (odp_format_data_out_t * option Z * Z) :=
  match data with
  | None => Ok (out, None, -1)
  | Some _ =>
      match opt with
      | TRACE_OPTION_OUTPUT_COMPRESS => Ok (out, None, 0)
      | TRACE_OPTION_OUTPUT_COMPRESSTYPE => Ok (out, None, 0)
      | TRACE_OPTION_OUTPUT_FILEFLAGS => Ok (out, None, 0)
      | _ => let! code := trace_set_err_out TRACE_ERR_UNKNOWN_OPTION in Ok (out, Some code, -1)
      end
  end.

(** A failure to start the interface is only printed. *)
Definition lodp_start_input (d : odp_format_data_t) : odp_format_data_t * Z :=
  let '(s, ret) := odp_pktio_start (odp_state d) (pktio d) in (with_odp d s, 0).

Definition lodp_start_output (out : odp_format_data_out_t) (uridata : list Z)
  : outcome (odp_format_data_out_t * option Z * Z) :=
  let! ' (io, err) := trace_open_file_out uridata (compress_type out) (level out) (fileflag out) in
  let out := {| level := level out; compress_type := compress_type out; fileflag := fileflag out; file := io |} in
  Ok (out, err, match io with Some _ => 0 | None => -1 end).

(** The trace has no [io]: nothing but the interface is closed. *)
Definition lodp_fin_input (d : odp_format_data_t) : odp_t * Z :=
  let s := odp_pktio_stop (odp_state d) (pktio d) in
  (odp_pktio_close s (pktio d), 0).

(** ** Reading *)
Definition pk_set_odp (p : libtrace_packet_t) (header mem : list Z) (cap wire type : Z) : libtrace_packet_t :=
  {| pk_header := header; pk_mem := mem; pk_payload := 0; pk_type := type;
     pk_capture_length := cap; pk_wire_length := wire;
     pk_payload_length := pk_payload_length p;
     pk_l2_header := pk_l2_header p; pk_link_type := pk_link_type p;
     pk_l2_remaining := pk_l2_remaining p; pk_l3_header := pk_l3_header p;
     pk_l3_ethertype := pk_l3_ethertype p; pk_l3_remaining := pk_l3_remaining p;
     pk_l4_header := pk_l4_header p; pk_transport_proto := pk_transport_proto p;
     pk_l4_remaining := pk_l4_remaining p |}.

Abbreviation TRACE_PREP_OWN_BUFFER := 1.

(** The payload is that of the packet read last, whatever the buffer is. *)
Definition lodp_prepare_packet (d : odp_format_data_t) (o : packet_obj) (buffer : list Z) (rt_type flags : Z)
  : packet_obj * Z :=
  ({| o_pkt := pk_set_odp (o_pkt o) buffer (default [] (l2h d)) (pkt_len d) (pkt_len d) rt_type;
      o_buffer := true; o_header := true; o_payload := bool_decide (is_Some (l2h d));
      o_buf_control := if Z.land flags TRACE_PREP_OWN_BUFFER =? TRACE_PREP_OWN_BUFFER
                       then TRACE_CTRL_PACKET else TRACE_CTRL_EXTERNAL |}, 0).

(** [fuel]: the number of events that may be taken off the queue. *)
Fixpoint lodp_read_pack (fuel : nat) (d : odp_format_data_t) : outcome (odp_format_data_t * Z) :=
  match fuel with
  | O => Fault OutOfFuel
  | S fuel' =>
      match odp_schedule (odp_state d) with
      | None => Fault Blocked
      | Some (s, ev) =>
          if negb (odp_packet_is_valid s ev) then
            lodp_read_pack fuel'
              {| pvt := pvt d; pkts_read := pkts_read d; pktio := pktio d; pkt := ev; pkt_len := pkt_len d;
                 l2h := l2h d; odp_state := s; libtrace_halt := libtrace_halt d |}
          else
            let numbytes := i32 (odp_packet_len s ev) in
            Ok ({| pvt := pvt d; pkts_read := u32 (pkts_read d + 1); pktio := pktio d; pkt := ev;
                   pkt_len := numbytes; l2h := odp_packet_l2_ptr s ev; odp_state := s;
                   libtrace_halt := libtrace_halt d |},
                if libtrace_halt d then READ_EOF else numbytes)
      end
  end.

Definition o_external (o : packet_obj) : packet_obj :=
  {| o_pkt := pk_set_odp (o_pkt o) (pk_header (o_pkt o)) (pk_mem (o_pkt o)) (pk_capture_length (o_pkt o))
                (pk_wire_length (o_pkt o)) TRACE_RT_DATA_ODP;
     o_buffer := false; o_header := o_header o; o_payload := o_payload o; o_buf_control := TRACE_CTRL_EXTERNAL |}.

Definition lodp_read_packet (fuel : nat) (d : odp_format_data_t) (o : packet_obj)
  : outcome (odp_format_data_t * packet_obj * option Z * Z) :=
  let! _ := if o_buffer o then oassert (bool_decide (o_buf_control o = TRACE_CTRL_PACKET)) else Ok tt in
  let o := o_external o in
  let! ' (d, numbytes) := lodp_read_pack fuel d in
  if numbytes =? -1 then
    let! code := trace_set_err (odp_errno (odp_state d)) in Ok (d, o, Some code, -1)
  else if numbytes =? 0 then Ok (d, o, None, 0)
  else if pkt d =? 0 then
    let! code := trace_set_err (odp_errno (odp_state d)) in
    Ok (d, o_set_pkt o (pk_set_lengths (o_pkt o) (pkt_len d) (pk_wire_length (o_pkt o))), Some code, -1)
  else
    let '(o, ret) := lodp_prepare_packet d o [pkt d] (pk_type (o_pkt o)) 0 in
    if negb (ret =? 0) then Ok (d, o, None, -1) else Ok (d, o, None, numbytes).

(** The handle in [packet->buffer]. *)
Definition buffer_handle (o : packet_obj) : Z := if o_buffer o then default 0 (head (pk_header (o_pkt o))) else 0.

Definition lodp_fin_packet (d : odp_format_data_t) (o : packet_obj) : odp_format_data_t * packet_obj :=
  if bool_decide (o_buf_control o = TRACE_CTRL_EXTERNAL) then
    (with_odp d (odp_packet_free (odp_state d) (buffer_handle o)),
     {| o_pkt := o_pkt o; o_buffer := false; o_header := o_header o; o_payload := o_payload o;
        o_buf_control := o_buf_control o |})
  else (d, o).

(** ** Writing *)

(** [fmt]: the format of the packet's trace. *)
Definition lodp_write_packet (fmt : libtrace_format_t) (out : odp_format_data_out_t) (o : packet_obj)
  : outcome (odp_format_data_out_t * packet_obj * option Z * Z) :=
  match file out with
  | None => Fault AssertFailed
  | Some io =>
      let! ' (p, caplen) := trace_get_capture_length fmt (o_pkt o) in
      let o := o_set_pkt o p in
      let! bytes := payload_bytes o caplen in
      let '(io, numbytes) := wandio_wwrite io bytes in
      let! ' (p, caplen) := trace_get_capture_length fmt (o_pkt o) in
      let out := {| level := level out; compress_type := compress_type out; fileflag := fileflag out; file := Some io |} in
      if negb (numbytes =? i32 caplen) then
        let! code := trace_set_err_out (errno_write io) in Ok (out, o, Some code, -1)
      else Ok (out, o, None, numbytes)
  end.

(** ** The functions of the table *)

(** A null pointer is used to report that it is null. *)
Definition of_packet {A} (packet : option libtrace_packet_t) (f : libtrace_packet_t → A) : outcome A :=
  match packet with Some p => Ok (f p) | None => Fault NullDeref end.

Definition lodp_get_capture_length (packet : option libtrace_packet_t) : outcome Z :=
  of_packet packet pk_capture_length.
Definition lodp_get_framing_length (packet : option libtrace_packet_t) : outcome Z := of_packet packet (λ _, 0).
Definition lodp_get_wire_length (packet : option libtrace_packet_t) : outcome Z := of_packet packet pk_wire_length.
Definition lodp_get_link_type (packet : option libtrace_packet_t) : libtrace_linktype_t := TRACE_TYPE_ETH.
Definition lodp_get_seconds (s : odp_t) (packet : libtrace_packet_t) : double := double_of_int (time_now s).

Definition lodp_format : libtrace_format_t :=
  {| f_get_link_type := Some (λ p, lodp_get_link_type (Some p));
     f_get_capture_length := Some (λ p, ok_or (-1) (lodp_get_capture_length (Some p)));
     f_get_wire_length := Some (λ p, ok_or (-1) (lodp_get_wire_length (Some p)));
     f_get_framing_length := Some (λ p, ok_or (-1) (lodp_get_framing_length (Some p)));
     f_set_capture_length := None |}.

Definition lodp_time (s : odp_t) : time_format :=
  {| tf_get_erf_timestamp := None; tf_get_timespec := None; tf_get_timeval := None;
     tf_get_seconds := Some (lodp_get_seconds s) |}.

Definition lodp (fuel : nat) : format_module odp_format_data_t :=
  {| fm_table := λ d, {| tr_format := lodp_format; tr_time := lodp_time (odp_state d) |};
     fm_start_input := Some (λ d, let '(d, ret) := lodp_start_input d in Ok (d, None, ret));
     fm_pause_input := None;
     fm_config_input := None;
     fm_read_packet := Some (λ d bs o,
       let! ' (d, o, err, ret) := lodp_read_packet fuel d o in
       Ok {| rr_data := d; rr_buckets := bs; rr_obj := o; rr_bucket := None; rr_err := err; rr_ret := ret |});
     fm_prepare_packet := Some (λ d o buffer rt_type flags,
       let '(o, ret) := lodp_prepare_packet d o buffer rt_type flags in Ok (d, o, None, ret));
     fm_fin_packet := Some lodp_fin_packet;
     fm_parallel := false |}.
End odp.
Arguments odp_format_data_t : clear implicits.
Arguments odp_format_data_out_t : clear implicits.

(** ** What the format relies on *)
Record odp_event := { ev_valid : bool; ev_bytes : list Z }.

(** The events that wait or will arrive, and the buffers the program holds.  An event
    comes as a buffer that nobody holds, and the bytes of a valid packet that fits
    into a segment of the pool are contiguous from the layer 2 header on. *)
Class OdpPackets (OD : Odp) := {
  odp_pending : odp_t → list odp_event;
  odp_held : odp_t → gset Z;
  odp_schedule_spec : ∀ s e es, odp_pending s = e :: es →
    ∃ s' h, odp_schedule s = Some (s', h) ∧ odp_pending s' = es ∧ h ≠ 0 ∧ (h ∉ odp_held s) ∧
      odp_held s' = {[h]} ∪ odp_held s ∧ odp_packet_is_valid s' h = ev_valid e ∧
      (ev_valid e = true → odp_packet_len s' h = Zlen (ev_bytes e) ∧
         (Zlen (ev_bytes e) ≤ SHM_PKT_POOL_BUF_SIZE → odp_packet_l2_ptr s' h = Some (ev_bytes e)));
  odp_schedule_waits : ∀ s, odp_pending s = [] → odp_schedule s = None;
  odp_packet_free_spec : ∀ s h, h ∈ odp_held s →
    odp_pending (odp_packet_free s h) = odp_pending s ∧ odp_held (odp_packet_free s h) = odp_held s ∖ {[h]};
}.

(** ODP in memory: the calls that may fail return what [mo_ret] says, a buffer has
    a number that is not in use, and the calls of [odp_packet_free] are recorded. *)
Inductive odp_call := CGlobal | CLocal | CPool | CPktio | CPktin | CPktout | CStart.

Record memory_odp_t := {
  mo_ret : odp_call → Z;
  mo_queue : list odp_event;
  mo_live : gmap Z odp_event;
  mo_freed : list Z;
}.

Definition free_number (s : memory_odp_t) : Z := fresh ({[0]} ∪ dom (mo_live s) : gset Z).

#[export] Instance memory_odp : Odp := {
  odp_t := memory_odp_t;
  ODP_PKTIO_INVALID := 0;
  odp_init_global s params := (s, mo_ret s CGlobal);
  odp_init_local s := (s, mo_ret s CLocal);
  odp_pool_lookup s name := None;
  odp_pool_create s name params := (s, if mo_ret s CPool =? 0 then Some 1 else None);
  odp_pktio_open s name pool := (s, mo_ret s CPktio);
  odp_pktin_queue_config s io := (s, mo_ret s CPktin);
  odp_pktout_queue_config s io := (s, mo_ret s CPktout);
  odp_pktio_start s io := (s, mo_ret s CStart);
  odp_pktio_stop s io := s;
  odp_pktio_close s io := s;
  odp_schedule s :=
    match mo_queue s with
    | [] => None
    | e :: es =>
        let h := free_number s in
        Some ({| mo_ret := mo_ret s; mo_queue := es; mo_live := <[h := e]> (mo_live s); mo_freed := mo_freed s |}, h)
    end;
  odp_packet_is_valid s h := match mo_live s !! h with Some e => ev_valid e | None => false end;
  odp_packet_l2_ptr s h := ev_bytes <$> (mo_live s !! h);
  odp_packet_len s h := match mo_live s !! h with Some e => Zlen (ev_bytes e) | None => 0 end;
  odp_packet_free s h :=
    {| mo_ret := mo_ret s; mo_queue := mo_queue s; mo_live := delete h (mo_live s); mo_freed := mo_freed s ++ [h] |};
  odp_errno s := 5;
  time_now s := 1500000000;
}.

#[export, refine] Instance memory_odp_packets : OdpPackets memory_odp := {
  odp_pending := mo_queue;
  odp_held s := dom (mo_live s);
}.
Proof.
  - intros s e es E. simpl. rewrite E. do 2 eexists. split; [done|]. simpl. rewrite lookup_insert_eq.
    assert (free_number s ∉ ({[0]} ∪ dom (mo_live s) : gset Z)) as Hf by apply (is_fresh ({[0]} ∪ dom (mo_live s) : gset Z)).
    split_and!; [done|set_solver..|by rewrite dom_insert_L|done|]. done.
  - intros s E. simpl in *. by rewrite E.
  - intros s h Hh. simpl. by rewrite dom_delete_L.
Defined.

(** ** Reading from the queue *)
Section reading.
Context {OD : Odp} {P : OdpPackets OD}.
Implicit Types (d : odp_format_data_t OD) (e : odp_event) (skip : list odp_event) (o : packet_obj).

(** A packet of at most one segment. *)
Definition fits e : bool := Zlen (ev_bytes e) <=? SHM_PKT_POOL_BUF_SIZE.
Definition invalid e : bool := negb (ev_valid e).

(** What reading the event [e] behind [skip] invalid ones leaves. *)
Definition has_read d d' skip e rest : Prop :=
  odp_pending (odp_state d') = rest ∧ pkt d' ≠ 0 ∧ (pkt d' ∉ odp_held (odp_state d)) ∧
  pkt d' ∈ odp_held (odp_state d') ∧ odp_held (odp_state d) ⊆ odp_held (odp_state d') ∧
  size (odp_held (odp_state d')) = (size (odp_held (odp_state d)) + length skip + 1)%nat ∧
  pkts_read d' = u32 (pkts_read d + 1) ∧ pkt_len d' = Zlen (ev_bytes e) ∧ l2h d' = Some (ev_bytes e) ∧
  libtrace_halt d' = libtrace_halt d.

Lemma read_pack_valid fuel d skip e rest :
  odp_pending (odp_state d) = skip ++ e :: rest → Forall invalid skip → ev_valid e → fits e →
  (length skip < fuel)%nat →
  ∃ d', lodp_read_pack fuel d = Ok (d', if libtrace_halt d then READ_EOF else Zlen (ev_bytes e)) ∧
    has_read d d' skip e rest.
Proof.
  revert fuel d. induction skip as [|e0 skip IH]; intros [|fuel] d Hp Hs Hv Hf Hlt; try (simpl in Hlt; lia).
  - destruct (odp_schedule_spec _ _ _ Hp) as (s & h & Es & Ep & Hnz & Hn & Eh & Ev & Hb).
    apply Is_true_true in Hv. destruct (Hb Hv) as [El Ed]. unfold fits in Hf. apply Is_true_true, Z.leb_le in Hf.
    cbn [lodp_read_pack]. rewrite Es, Ev, Hv. cbn [negb]. pose proof (Zlen_nonneg (ev_bytes e)).
    rewrite El, i32_small by lia. eexists. split; [done|]. unfold has_read. cbn.
    rewrite Eh, Ed, size_union, size_singleton by set_solver. split_and!; try done; [set_solver..|lia].
  - apply Forall_cons in Hs as [H0 Hs]. destruct (odp_schedule_spec _ _ _ Hp) as (s & h & Es & Ep & Hnz & Hn & Eh & Ev & _).
    cbn [lodp_read_pack]. rewrite Es, Ev. unfold invalid in H0. apply Is_true_true in H0. rewrite H0.
    match goal with |- context [lodp_read_pack fuel ?d1] => destruct (IH fuel d1) as (d' & -> & H) end;
      [done..|simpl in Hlt; lia|].
    exists d'. split; [done|]. unfold has_read in *. cbn in *. destruct H as (? & ? & ? & ? & Hsub & Hsz & ? & ? & ? & ?).
    rewrite Eh, size_union, size_singleton in Hsz by set_solver.
    split_and!; try done; [set_solver..|lia].
Qed.

(** With nothing valid left, reading waits for ever. *)
Lemma read_pack_waits fuel d :
  Forall invalid (odp_pending (odp_state d)) → (length (odp_pending (odp_state d)) < fuel)%nat →
  lodp_read_pack fuel d = Fault Blocked.
Proof.
  remember (odp_pending (odp_state d)) as es eqn:Ee. symmetry in Ee. revert fuel d Ee.
  induction es as [|e es IH]; intros [|fuel] d Ee Hi Hlt; try (simpl in Hlt; lia); cbn [lodp_read_pack].
  - by rewrite odp_schedule_waits.
  - apply Forall_cons in Hi as [H0 Hi]. destruct (odp_schedule_spec _ _ _ Ee) as (s & h & -> & Ep & _ & _ & _ & -> & _).
    unfold invalid in H0. apply Is_true_true in H0. rewrite H0. apply IH; [done..|]. simpl in Hlt. lia.
Qed.

(** The packet after the event has been read. *)
Definition delivered o d' e : packet_obj :=
  {| o_pkt := pk_set_odp (o_pkt (o_external o)) [pkt d'] (ev_bytes e) (Zlen (ev_bytes e)) (Zlen (ev_bytes e)) TRACE_RT_DATA_ODP;
     o_buffer := true; o_header := true; o_payload := true; o_buf_control := TRACE_CTRL_EXTERNAL |}.

Lemma read_packet_delivers fuel d o skip e rest :
  odp_pending (odp_state d) = skip ++ e :: rest → Forall invalid skip → ev_valid e → fits e → ev_bytes e ≠ [] →
  libtrace_halt d = false → o_buffer o = false → (length skip < fuel)%nat →
  ∃ d', lodp_read_packet fuel d o = Ok (d', delivered o d' e, None, Zlen (ev_bytes e)) ∧ has_read d d' skip e rest.
Proof.
  intros Hp Hs Hv Hf Hne Hh Hb Hlt. unfold lodp_read_packet. rewrite Hb. cbn [obind].
  destruct (read_pack_valid fuel d skip e rest) as (d' & -> & H); [done..|]. rewrite Hh. cbn [obind].
  assert (0 < Zlen (ev_bytes e)) by (destruct (ev_bytes e); [done|rewrite Zlen_cons; pose proof (Zlen_nonneg l); lia]).
  rewrite (proj2 (Z.eqb_neq _ _)), (proj2 (Z.eqb_neq _ _)) by lia.
  pose proof H as (_ & Hnz & _ & _ & _ & _ & _ & El & Ed & _). rewrite (proj2 (Z.eqb_neq _ _)) by done.
  exists d'. split; [|done]. unfold lodp_prepare_packet, delivered. by rewrite Ed, El.
Qed.

(** An interrupt, or an empty packet: the end of the trace. *)
Lemma read_packet_ends fuel d o skip e rest :
  odp_pending (odp_state d) = skip ++ e :: rest → Forall invalid skip → ev_valid e → fits e →
  libtrace_halt d = true ∨ ev_bytes e = [] → o_buffer o = false → (length skip < fuel)%nat →
  ∃ d', lodp_read_packet fuel d o = Ok (d', o_external o, None, 0) ∧ has_read d d' skip e rest.
Proof.
  intros Hp Hs Hv Hf Hh Hb Hlt. unfold lodp_read_packet. rewrite Hb. cbn [obind].
  destruct (read_pack_valid fuel d skip e rest) as (d' & -> & H); [done..|]. cbn [obind].
  exists d'. split; [|done]. destruct Hh as [->| ->]; [done|]. by destruct (libtrace_halt d).
Qed.
Definition seen e : Z * Z * list Z := (Zlen (ev_bytes e), Zlen (ev_bytes e), ev_bytes e).

(** A valid packet is not empty and fits into a segment. *)
Definition regular e : bool := implb (ev_valid e) (fits e && negb (bool_decide (ev_bytes e = []))).

Lemma delivered_seen o d e :
  fits e → ∃ q, trace_get_capture_length lodp_format (o_pkt (delivered o d e)) = Ok (q, Zlen (ev_bytes e)) ∧
    payload_bytes (delivered o d e) (Zlen (ev_bytes e)) = Ok (ev_bytes e).
Proof.
  unfold fits. rewrite Is_true_true, Z.leb_le. intros Hf. pose proof (Zlen_nonneg (ev_bytes e)).
  eexists. split.
  - unfold trace_get_capture_length. cbn [delivered o_pkt pk_set_odp pk_capture_length].
    rewrite (proj2 (Z.eqb_neq _ _)) by lia. cbn [pk_set_odp pk_capture_length]. rewrite (proj2 (Z.ltb_lt _ _)) by lia. cbn [oassert obind].
    unfold int_to_size. by rewrite u64_small by lia.
  - unfold payload_bytes. destruct (Z.eqb_spec (Zlen (ev_bytes e)) 0) as [E|E].
    + by destruct (ev_bytes e).
    + cbn [delivered o_payload o_pkt pk_set_odp pk_mem pk_payload]. unfold slice. rewrite Z.add_0_l, !Z.leb_refl.
      cbn [andb Z.leb Z.compare Z.to_nat]. rewrite drop_0, take_ge by (unfold Zlen; lia). done.
Qed.

Lemma first_valid (es : list odp_event) :
  Forall invalid es ∨ ∃ skip e rest, es = skip ++ e :: rest ∧ Forall invalid skip ∧ ev_valid e.
Proof.
  induction es as [|e es IH]; [by left|]. destruct (ev_valid e) eqn:Ev.
  - right. exists [], e, es. split_and!; [done..|]. by apply Is_true_true.
  - assert (invalid e) as Hi by (unfold invalid; by rewrite Ev).
    destruct IH as [H|(skip & e' & rest & -> & H & Hv)]; [left; by constructor|].
    right. exists (e :: skip), e', rest. split_and!; [done|by constructor|done].
Qed.

Lemma filter_invalid (es : list odp_event) : Forall invalid es → filter ev_valid es = [] ∧ filter invalid es = es.
Proof.
  induction 1 as [|e es He _ [IH1 IH2]]; [done|]. unfold invalid in *. cbn.
  destruct (ev_valid e); [done|]. cbn. rewrite decide_False, decide_True by tauto. split; [done|]. by f_equal.
Qed.

End reading.

(** ** Reading through the interface of traces *)
Section session.
Context {OD : Odp} {P : OdpPackets OD} {prog : Type} (pcap_compile : Z → list Z → option prog)
  (bpf_filter : prog → list Z → Z) (fresh : list Z) (fuel rounds : nat).
Implicit Types (w : world (odp_format_data_t OD) prog) (tr : libtrace_t (odp_format_data_t OD)) (t p : loc) (pk : packet)
  (d : odp_format_data_t OD) (e : odp_event).

Abbreviation read := (trace_read_packet pcap_compile bpf_filter fresh rounds).

(** A started trace of the format, with no error and no filter. *)
Definition running w t tr : Prop :=
  w_traces w !! t = Some tr ∧ tr_module tr = lodp fuel ∧ tr_err tr = 0 ∧ tr_started tr = true ∧
  tr_filter tr = None ∧ tr_lock tr = MFree.

(** The packet is new or finished; or it was read from the trace and holds a buffer. *)
Definition unused w p : Prop :=
  ∃ pk, w_packets w !! p = Some pk ∧ tp_srcbucket pk = None ∧ tp_trace pk = None ∧ o_buffer (tp_obj pk) = false.
Definition holds w t p tr (h : Z) : Prop :=
  ∃ pk, w_packets w !! p = Some pk ∧ tp_srcbucket pk = None ∧ tp_trace pk = Some t ∧
    o_buf_control (tp_obj pk) = TRACE_CTRL_EXTERNAL ∧ buffer_handle (tp_obj pk) = h ∧
    h ∈ odp_held (odp_state (tr_data tr)).

(** Finishing a packet of the trace frees its buffer, whatever the handle is. *)
Lemma fin_packet_frees w t p tr pk :
  running w t tr → w_packets w !! p = Some pk → tp_srcbucket pk = None → tp_trace pk = Some t →
  o_buf_control (tp_obj pk) = TRACE_CTRL_EXTERNAL →
  ∃ w' tr', trace_fin_packet w p = Ok w' ∧ running w' t tr' ∧
    tr_data tr' = with_odp (tr_data tr) (odp_packet_free (odp_state (tr_data tr)) (buffer_handle (tp_obj pk))) ∧
    unused w' p.
Proof.
  intros (Et & Em & He & Es & Ef & El) Ep Eb Ett Ec. unfold trace_fin_packet, format_fin_packet.
  rewrite (load_Some _ _ _ Ep). cbn [obind]. rewrite Ett, (load_Some _ _ _ Et). cbn [obind]. rewrite Em.
  cbn [lodp fm_fin_packet]. unfold lodp_fin_packet. rewrite bool_decide_eq_true_2 by done.
  cbn [obind]. erewrite (load_Some _ p) by apply lookup_insert_eq. cbn [obind].
  unfold release_bucket. cbn [tp_set_obj tp_srcbucket tp_trace]. rewrite Eb. cbn [obind]. rewrite Ett.
  unfold forget_packet. cbn [set_packet w_traces]. erewrite (load_Some _ t) by apply lookup_insert_eq. cbn [obind].
  cbn [tr_set_data tr_set tr_lock]. rewrite El. cbn [mutex_lock mutex_unlock obind].
  do 2 eexists. split; [done|]. split; [split; [apply lookup_insert_eq|by split_and!]|]. split; [done|].
  eexists. split; [apply lookup_insert_eq|]. split_and!; try done. cbn. by case_bool_decide.
Qed.

(** The loop of [trace_read_packet] returns what the format's function returns. *)
Lemma read_loop_returns w t p tr pk d o ret :
  running w t tr → w_packets w !! p = Some pk → rounds ≠ O →
  lodp_read_packet fuel (tr_data tr) (tp_obj pk) = Ok (d, o, None, ret) →
  ∃ w' tr' pk', read_loop pcap_compile bpf_filter fresh rounds
      (λ d bs o, let! ' (d, o, err, ret) := lodp_read_packet fuel d o in
         Ok {| rr_data := d; rr_buckets := bs; rr_obj := o; rr_bucket := None; rr_err := err; rr_ret := ret |}) w t p
      = Ok (w', ret) ∧ running w' t tr' ∧ w_packets w' !! p = Some pk' ∧
    tr_data tr' = d ∧ tp_obj pk' = o ∧ tp_trace pk' = Some t ∧ tp_srcbucket pk' = tp_srcbucket pk.
Proof.
  intros (Et & Em & He & Es & Ef & El) Ep Hr Hread. destruct rounds as [|n]; [done|]. cbn [read_loop].
  unfold read_round. rewrite (load_Some _ _ _ Ep). cbn [obind]. rewrite (load_Some _ _ _ Et). cbn [obind].
  rewrite Hread. cbn [obind rr_data rr_err rr_obj rr_bucket rr_buckets rr_ret tp_set_bucket].
  destruct ((ret =? -1) || (ret =? 0)).
  { cbn [obind]. do 3 eexists. split; [done|]. split; [split; [apply lookup_insert_eq|by split_and!]|].
    by split; [apply lookup_insert_eq|]. }
  cbn [tr_set_data tr_set tr_filter]. rewrite Ef. cbn [obind]. cbn [set_packet w_traces].
  erewrite (load_Some _ t) by apply lookup_insert_eq. cbn [obind w_packets].
  erewrite (load_Some _ p) by apply lookup_insert_eq. cbn [obind].
  do 3 eexists. split; [done|]. split; [split; [apply lookup_insert_eq|by split_and!]|].
  split; [apply lookup_insert_eq|]. cbn. rewrite Em. split_and!; try done.
  destruct (0 <? tr_snaplen tr); [|done]. by destruct o as [[] ? ? ? ?].
Qed.

(** A read from a trace into a packet that holds no buffer, or the one read last. *)
Definition ready w t p tr s : Prop :=
  unused w p ∧ s = odp_state (tr_data tr) ∨
  ∃ h, holds w t p tr h ∧ s = odp_packet_free (odp_state (tr_data tr)) h.

Lemma read_returns w t p tr s :
  running w t tr → ready w t p tr s → rounds ≠ O →
  ∃ o, o_buffer o = false ∧
    (∀ d o' ret, lodp_read_packet fuel (with_odp (tr_data tr) s) o = Ok (d, o', None, ret) →
       ∃ w' tr' pk', read w t p = Ok (w', ret) ∧ running w' t tr' ∧ w_packets w' !! p = Some pk' ∧
         tr_data tr' = d ∧ tp_obj pk' = o' ∧ tp_trace pk' = Some t ∧ tp_srcbucket pk' = None) ∧
    (∀ f, lodp_read_packet fuel (with_odp (tr_data tr) s) o = Fault f → read w t p = Fault f).
Proof.
  intros Hrun Hready Hr. pose proof Hrun as (Et & Em & He & Es & Ef & El).
  assert (∃ w1 tr1 pk1, read w t p = read_loop pcap_compile bpf_filter fresh rounds
      (λ d bs o, let! ' (d, o, err, ret) := lodp_read_packet fuel d o in
         Ok {| rr_data := d; rr_buckets := bs; rr_obj := o; rr_bucket := None; rr_err := err; rr_ret := ret |}) w1 t p ∧
    running w1 t tr1 ∧ w_packets w1 !! p = Some pk1 ∧ tp_srcbucket pk1 = None ∧ o_buffer (tp_obj pk1) = false ∧
    tr_data tr1 = with_odp (tr_data tr) s) as (w1 & tr1 & pk1 & -> & Hrun1 & Ep1 & Eb1 & Eo1 & Ed1).
  { unfold trace_read_packet. rewrite (load_Some _ _ _ Et). cbn [obind]. unfold trace_is_err. rewrite He. cbn [Z.eqb negb].
    rewrite Es. cbn [negb]. rewrite Em. cbn [lodp fm_read_packet].
    destruct Hready as [[(pk & Ep & Eb & Ett & Eo) ->]|(h & (pk & Ep & Eb & Ett & Ec & Eh & Hh) & ->)];
      rewrite (load_Some _ _ _ Ep); cbn [obind]; rewrite Ett.
    - rewrite bool_decide_eq_false_2 by done. cbn [obind]. exists w, tr, pk. split_and!; try done. by destruct (tr_data tr).
    - rewrite bool_decide_eq_true_2 by done.
      destruct (fin_packet_frees w t p tr pk) as (w1 & tr1 & -> & Hrun1 & Ed1 & pk1 & ? & ? & ? & ?); [done..|].
      cbn [obind]. exists w1, tr1, pk1. subst h. by split_and!. }
  exists (tp_obj pk1). split; [done|]. split.
  - intros d o' ret Hread. destruct (read_loop_returns w1 t p tr1 pk1 d o' ret) as (w' & tr' & pk' & -> & ? & ? & ? & ? & ? & Eb);
      [done..|by rewrite Ed1|]. exists w', tr', pk'. by rewrite Eb.
  - intros f Hread. destruct Hrun1 as (Et1 & _). destruct rounds as [|n]; [done|]. cbn [read_loop]. unfold read_round.
    rewrite (load_Some _ _ _ Ep1). cbn [obind]. rewrite (load_Some _ _ _ Et1). cbn [obind]. by rewrite Ed1, Hread.
Qed.

(** Reading [n] packets into the same object: what each read returns, the capture
    length and the bytes of the payload. *)
Fixpoint read_packets (n : nat) w t p : outcome (world (odp_format_data_t OD) prog * list (Z * Z * list Z)) :=
  match n with
  | O => Ok (w, [])
  | S n =>
      let! ' (w, ret) := read w t p in
      let! pk := load (w_packets w) p in
      let! ' (_, cap) := trace_get_capture_length lodp_format (o_pkt (tp_obj pk)) in
      let! bytes := payload_bytes (tp_obj pk) cap in
      let! ' (w, rest) := read_packets n w t p in
      Ok (w, (ret, cap, bytes) :: rest)
  end.

(** One packet. *)
Lemma read_packets_S n w t p tr s skip e rest :
  running w t tr → ready w t p tr s → rounds ≠ O → libtrace_halt (tr_data tr) = false →
  odp_pending s = skip ++ e :: rest → Forall invalid skip → ev_valid e → regular e → (length skip < fuel)%nat →
  ∃ w' tr' s', read_packets (S n) w t p =
      (let! ' (w, l) := read_packets n w' t p in Ok (w, seen e :: l)) ∧
    running w' t tr' ∧ ready w' t p tr' s' ∧ libtrace_halt (tr_data tr') = false ∧ odp_pending s' = rest ∧
    size (odp_held s') = (size (odp_held s) + length skip)%nat ∧
    pkts_read (tr_data tr') = u32 (pkts_read (tr_data tr) + 1).
Proof.
  intros Hrun Hready Hr Hh Hp Hs Hv Hreg Hlt. unfold regular in Hreg. pose proof (proj1 (Is_true_true _) Hv) as Hvt. rewrite Hvt in Hreg.
  apply andb_prop_elim in Hreg as [Hf Hne]. apply negb_prop_elim in Hne; rewrite bool_decide_spec in Hne.
  destruct (read_returns w t p tr s) as (o & Ho & Hok & _); [done..|].
  destruct (read_packet_delivers fuel (with_odp (tr_data tr) s) o skip e rest) as (d & Hread & Hd); [done..|].
  destruct (Hok _ _ _ Hread) as (w' & tr' & pk & E & Hrun' & Ep & Ed & Eo & Ett & Eb).
  cbn [read_packets]. rewrite E. cbn [obind]. rewrite (load_Some _ _ _ Ep). cbn [obind]. rewrite Eo.
  destruct (delivered_seen o d e Hf) as (q & -> & Epay). cbn [obind]. rewrite Epay. cbn [obind].
  destruct Hd as (Hpend & _ & Hn & Hin & Hsub & Hsz & Hpk & _ & _ & Hhalt). cbn in Hn, Hsub, Hsz, Hpk, Hhalt.
  destruct (odp_packet_free_spec (odp_state d) (pkt d) Hin) as [Hpend' Hheld].
  exists w', tr', (odp_packet_free (odp_state d) (pkt d)). rewrite Ed. split; [done|]. split; [done|]. split; [|split_and!].
  - right. exists (pkt d). rewrite Ed. split; [|done]. exists pk. rewrite Eo, Ed. by split_and!.
  - by rewrite Hhalt.
  - by rewrite Hpend'.
  - rewrite Hheld, size_difference, size_singleton by set_solver. lia.
  - done.
Qed.

(** With no valid event left the next read waits for ever. *)
Lemma read_waits w t p tr s :
  running w t tr → ready w t p tr s → rounds ≠ O → Forall invalid (odp_pending s) →
  (length (odp_pending s) < fuel)%nat → read w t p = Fault Blocked.
Proof.
  intros Hrun Hready Hr Hi Hlt. destruct (read_returns w t p tr s) as (o & Ho & _ & Hfault); [done..|].
  apply Hfault. unfold lodp_read_packet. rewrite Ho. cbn [obind]. by rewrite read_pack_waits.
Qed.

Lemma read_packets_all m : ∀ es w t p tr s,
  (length es ≤ m)%nat → running w t tr → ready w t p tr s → rounds ≠ O → libtrace_halt (tr_data tr) = false →
  odp_pending s = es → Forall regular es → (length es < fuel)%nat →
  ∃ w' tr' s' taken left, read_packets (length (filter ev_valid es)) w t p = Ok (w', map seen (filter ev_valid es)) ∧
    running w' t tr' ∧ ready w' t p tr' s' ∧ es = taken ++ left ∧ Forall invalid left ∧ odp_pending s' = left ∧
    size (odp_held s') = (size (odp_held s) + length (filter invalid taken))%nat ∧
    u32 (pkts_read (tr_data tr')) = u32 (pkts_read (tr_data tr) + Z.of_nat (length (filter ev_valid es))).
Proof.
  induction m as [|m IH]; intros es w t p tr s Hm Hrun Hready Hr Hh Hp Hreg Hlt;
    (destruct (first_valid es) as [Hi|(skip & e & rest & -> & Hs & Hv)];
     [exists w, tr, s, [], es; rewrite (proj1 (filter_invalid es Hi)); cbn; rewrite Z.add_0_r, Nat.add_0_r; by split_and!|]);
    rewrite length_app in Hm, Hlt; cbn in Hm, Hlt; [lia|].
  apply Forall_app in Hreg as [_ Hreg]. apply Forall_cons in Hreg as [He Hreg].
  destruct (filter_invalid skip Hs) as [Fv Fi]. rewrite !filter_app, Fv, filter_cons, decide_True by done. cbn [app length].
  destruct (read_packets_S (length (filter ev_valid rest)) w t p tr s skip e rest)
    as (w1 & tr1 & s1 & -> & Hrun1 & Hready1 & Hh1 & Hp1 & Hsz1 & Hc1); [done..|lia|].
  destruct (IH rest w1 t p tr1 s1) as (w2 & tr2 & s2 & taken & left & -> & Hrun2 & Hready2 & -> & Hl & Hp2 & Hsz2 & Hc2);
    [lia|done..|lia|].
  exists w2, tr2, s2, (skip ++ e :: taken), left. cbn [obind map]. split_and!; try done.
  - by rewrite <- app_assoc.
  - rewrite filter_app, Fi, filter_cons, decide_False, length_app, Hsz2, Hsz1; [lia|].
    unfold invalid. destruct (ev_valid e); [by intros []|done].
  - rewrite Hc2, Hc1. unfold u32. rewrite Zplus_mod_idemp_l. f_equal. lia.
Qed.

(** An interrupted or an empty packet is taken off the queue: the read returns 0, and
    the packet does not know the buffer. *)
Lemma read_ends w t p tr s skip e rest :
  running w t tr → ready w t p tr s → rounds ≠ O → odp_pending s = skip ++ e :: rest → Forall invalid skip → ev_valid e →
  fits e → libtrace_halt (tr_data tr) = true ∨ ev_bytes e = [] → (length skip < fuel)%nat →
  ∃ w' tr' pk, read w t p = Ok (w', 0) ∧ running w' t tr' ∧ w_packets w' !! p = Some pk ∧ tp_trace pk = Some t ∧
    tp_srcbucket pk = None ∧ o_buf_control (tp_obj pk) = TRACE_CTRL_EXTERNAL ∧ buffer_handle (tp_obj pk) = 0 ∧
    odp_pending (odp_state (tr_data tr')) = rest ∧
    size (odp_held (odp_state (tr_data tr'))) = (size (odp_held s) + length skip + 1)%nat ∧
    pkts_read (tr_data tr') = u32 (pkts_read (tr_data tr) + 1).
Proof.
  intros Hrun Hready Hr Hp Hs Hv Hf Hh Hlt.
  destruct (read_returns w t p tr s) as (o & Ho & Hok & _); [done..|].
  destruct (read_packet_ends fuel (with_odp (tr_data tr) s) o skip e rest) as (d & Hread & Hd); [done..|].
  destruct (Hok _ _ _ Hread) as (w' & tr' & pk & E & Hrun' & Ep & Ed & Eo & Ett & Eb).
  exists w', tr', pk. rewrite Ed, Eo. by destruct Hd as (? & _ & _ & _ & _ & Hsz & ? & _).
Qed.
End session.

(** ** Writing *)
Section writing.
Context {W : Wandio} {WF : WandioFile W}.

(** Writing a packet of which all bytes of the payload are there appends them. *)
Lemma write_packet_appends fmt (out : odp_format_data_out_t W) io o p n bytes :
  file out = Some io → trace_get_capture_length fmt (o_pkt o) = Ok (p, n) →
  trace_get_capture_length fmt p = Ok (p, n) → payload_bytes (o_set_pkt o p) n = Ok bytes →
  Zlen bytes = n → n < 65536 →
  ∃ out' io', lodp_write_packet fmt out o = Ok (out', o_set_pkt o p, None, n) ∧ file out' = Some io' ∧
    iow_bytes io' = iow_bytes io ++ bytes.
Proof.
  intros Ef Ec Ec' Eb El Hn. unfold lodp_write_packet. rewrite Ef, Ec. cbn [obind]. rewrite Eb. cbn [obind].
  destruct (wandio_wwrite_spec io bytes) as (io' & -> & Hio). cbn [o_set_pkt o_pkt]. rewrite Ec'. cbn [obind].
  pose proof (Zlen_nonneg bytes). rewrite El, i32_small, Z.eqb_refl by lia. cbn [negb].
  do 2 eexists. split; [done|]. by split.
Qed.
End writing.

(** ** Theorems *)

(** C15: With no filter set and no interrupt, and if no valid packet in the queue is
    empty or longer than 1,856 bytes, reading from a started trace into a new packet delivers the valid packets of the
    queue in the order of their arrival, with their bytes and lengths, and skips
    the invalid ones; the packets are counted, the snap length has no effect.  Once
    the packet in hand is finished, the buffers the program holds are those it held
    before and one for each invalid packet, which is never freed.  With no valid
    packet left, the next read waits for ever. *)
Theorem odp_delivers_packets {OD : Odp} {P : OdpPackets OD} {prog} pcap_compile bpf_filter fresh fuel rounds
    (w : world (odp_format_data_t OD) prog) t p tr es :
  running fuel w t tr → unused w p → (0 < rounds)%nat → libtrace_halt (tr_data tr) = false →
  odp_pending (odp_state (tr_data tr)) = es → Forall regular es → (length es < fuel)%nat →
  ∃ w' tr' s' taken rest,
    read_packets pcap_compile bpf_filter fresh rounds (length (filter ev_valid es)) w t p
    = Ok (w', map seen (filter ev_valid es)) ∧
    running fuel w' t tr' ∧ ready w' t p tr' s' ∧ es = taken ++ rest ∧ filter ev_valid rest = [] ∧ odp_pending s' = rest ∧
    size (odp_held s') = (size (odp_held (odp_state (tr_data tr))) + length (filter invalid taken))%nat ∧
    u32 (pkts_read (tr_data tr')) = u32 (pkts_read (tr_data tr) + Z.of_nat (length (filter ev_valid es))) ∧
    trace_read_packet pcap_compile bpf_filter fresh rounds w' t p = Fault Blocked.
Proof.
  intros Hrun Hu Hr Hh Hp Hreg Hlt.
  destruct (read_packets_all pcap_compile bpf_filter fresh fuel rounds (length es) es w t p tr (odp_state (tr_data tr)))
    as (w' & tr' & s' & taken & rest & H1 & Hrun' & Hready' & -> & Hl & Hp' & Hsz & Hc); try done; [by left|lia|].
  exists w', tr', s', taken, rest. split_and!; try done; [by apply filter_invalid|].
  apply (read_waits pcap_compile bpf_filter fresh fuel rounds w' t p tr' s'); try done; [lia|by rewrite Hp'|].
  rewrite Hp'. rewrite length_app in Hlt. lia.
Qed.

(** A new trace and a new packet: three packets wait, of which the second is invalid. *)
Definition sample_events : list odp_event :=
  [{| ev_valid := true; ev_bytes := [1; 2; 3] |}; {| ev_valid := false; ev_bytes := [] |};
   {| ev_valid := true; ev_bytes := [4] |}].

Definition sample_data (halt : bool) (es : list odp_event) : odp_format_data_t memory_odp :=
  {| pvt := 0; pkts_read := 0; pktio := 1; pkt := 0; pkt_len := 0; l2h := None;
     odp_state := {| mo_ret := λ _, 0; mo_queue := es; mo_live := ∅; mo_freed := [] |} : @odp_t memory_odp;
     libtrace_halt := halt |}.

Definition sample_odp_trace (halt : bool) (es : list odp_event) : libtrace_t (odp_format_data_t memory_odp) :=
  {| tr_module := lodp 10; tr_data := sample_data halt es;
     tr_err := 0; tr_started := true; tr_filter := None; tr_snaplen := 0;
     tr_filtered_packets := 0; tr_accepted_packets := 0; tr_sequence_number := 0; tr_last_packet := None; tr_lock := MFree;
     tr_hasher_type := HASHER_BALANCE; tr_hasher := None |}.

Definition sample_odp_world (halt : bool) (es : list odp_event) : world (odp_format_data_t memory_odp) Z :=
  trace_create_packet (set_trace (empty_world false) 1%positive (sample_odp_trace halt es)) 2%positive.

Lemma sample_odp_running halt es : running 10 (sample_odp_world halt es) 1%positive (sample_odp_trace halt es).
Proof. split_and!; done. Qed.
Lemma sample_odp_unused halt es : unused (sample_odp_world halt es) 2%positive.
Proof. by eexists. Qed.

Lemma odp_delivers_packets_witness :
  ∃ w', read_packets sample_compile sample_bpf [] 1 2 (sample_odp_world false sample_events) 1%positive 2%positive
    = Ok (w', [(3, 3, [1; 2; 3]); (1, 1, [4])]) ∧
  trace_read_packet sample_compile sample_bpf [] 1 w' 1%positive 2%positive = Fault Blocked.
Proof.
  destruct (odp_delivers_packets (P := memory_odp_packets) sample_compile sample_bpf [] 10 1
    (sample_odp_world false sample_events) 1%positive 2%positive (sample_odp_trace false sample_events) sample_events
    (sample_odp_running false sample_events) (sample_odp_unused false sample_events))
    as (w' & _ & _ & _ & _ & H & _ & _ & _ & _ & _ & _ & _ & Hb); [lia|reflexivity|reflexivity|by repeat constructor|simpl; lia|].
  exists w'. split; [exact H|exact Hb].
Defined.

(** When a read ends the trace, because it was interrupted or because the packet is
    empty, a valid packet has been taken off the queue and counted; its buffer is
    held, but the packet has no pointer to it, and finishing the packet frees a null
    handle instead. *)
Theorem odp_end_loses_buffer {OD : Odp} {P : OdpPackets OD} {prog} pcap_compile bpf_filter fresh fuel rounds
    (w : world (odp_format_data_t OD) prog) t p tr skip e rest :
  running fuel w t tr → unused w p → (0 < rounds)%nat →
  odp_pending (odp_state (tr_data tr)) = skip ++ e :: rest → Forall invalid skip → ev_valid e → fits e →
  libtrace_halt (tr_data tr) = true ∨ ev_bytes e = [] → (length skip < fuel)%nat →
  ∃ w' tr' w'' tr'',
    trace_read_packet pcap_compile bpf_filter fresh rounds w t p = Ok (w', 0) ∧ running fuel w' t tr' ∧
    odp_pending (odp_state (tr_data tr')) = rest ∧ pkts_read (tr_data tr') = u32 (pkts_read (tr_data tr) + 1) ∧
    size (odp_held (odp_state (tr_data tr'))) = (size (odp_held (odp_state (tr_data tr))) + length skip + 1)%nat ∧
    trace_fin_packet w' p = Ok w'' ∧ running fuel w'' t tr'' ∧
    odp_state (tr_data tr'') = odp_packet_free (odp_state (tr_data tr')) 0.
Proof.
  intros Hrun Hu Hr Hp Hs Hv Hf Hh Hlt.
  destruct (read_ends pcap_compile bpf_filter fresh fuel rounds w t p tr (odp_state (tr_data tr)) skip e rest)
    as (w' & tr' & pk & -> & Hrun' & Ep & Ett & Eb & Ec & Eh & Hp' & Hsz & Hc); try done; [by left|lia|].
  destruct (fin_packet_frees fuel w' t p tr' pk) as (w'' & tr'' & Efin & Hrun'' & Ed & _); [done..|].
  exists w', tr', w'', tr''. rewrite Ed, Eh. by split_and!.
Qed.

Lemma odp_end_loses_buffer_witness :
  ∃ w' w'' tr'', trace_read_packet sample_compile sample_bpf [] 1 (sample_odp_world true sample_events) 1%positive 2%positive
    = Ok (w', 0) ∧ trace_fin_packet w' 2%positive = Ok w'' ∧ w_traces w'' !! 1%positive = Some tr'' ∧
    last (mo_freed (odp_state (tr_data tr''))) = Some 0.
Proof.
  destruct (odp_end_loses_buffer (P := memory_odp_packets) sample_compile sample_bpf [] 10 1
    (sample_odp_world true sample_events) 1%positive 2%positive (sample_odp_trace true sample_events) []
    {| ev_valid := true; ev_bytes := [1; 2; 3] |} (tail sample_events)
    (sample_odp_running true sample_events) (sample_odp_unused true sample_events))
    as (w' & tr' & w'' & tr'' & H1 & _ & _ & _ & _ & H2 & (Et'' & _) & H3);
    [lia|reflexivity|constructor|exact I|exact I|by left|simpl; lia|].
  exists w', w'', tr''. split_and!; [exact H1|exact H2|exact Et''|]. rewrite H3. apply last_snoc.
Defined.

(** Preparing the environment leaves the array of the DPDK parameters exactly when the
    name of the device has more than 247 characters. *)
Lemma dpdk_params_overflow {OD : Odp} s uridata errlen :
  lodp_init_environment s uridata errlen = Fault OutOfBounds ↔ 247 < Zlen uridata.
Proof.
  unfold lodp_init_environment. cbn [obind strcat]. unfold strcat at 1.
  change (Zlen [] + Zlen (str "-n 4 -w ") + 1 <=? 256) with true. cbn [obind]. unfold strcat.
  change (Zlen ([] ++ str "-n 4 -w ")) with 8. pose proof (Zlen_nonneg uridata).
  destruct (Z.leb_spec (8 + Zlen uridata + 1) 256); cbn [obind]; [|split; [lia|done]].
  split; [|lia]. repeat case_match; simplify_eq/=; done.
Qed.

(** An output trace cannot be configured: whatever option is set, starting it opens the
    file with a compression level and type that are the halves of the number of the
    interface, and fails with the error of an unsupported compression unless they
    are in range. *)
Theorem odp_output_compression {OD : Odp} {W : Wandio} s uridata s' (out : odp_format_data_out_t W) err ret :
  lodp_init_output s uridata = Ok (Return (s', Some out, err, ret)) →
  ∃ s1 s2 pool io, odp_pktio_open s1 (str "0") pool = (s2, io) ∧ io ≠ ODP_PKTIO_INVALID ∧ err = None ∧ ret = 0 ∧
  ∀ opt data out' err' ret', lodp_config_output out opt data = Ok (out', err', ret') →
    lodp_start_output out' uridata =
      let level := i32 io in let compress_type := i32 (Z.shiftr io 32) in
      if bool_decide (0 ≤ level ≤ 9 ∧ 0 ≤ compress_type < TRACE_OPTION_COMPRESSTYPE_LAST) then
        let! ' (file, err) :=
          match wandio_wcreate uridata compress_type level 65 with
          | Some file => Ok (Some file, None)
          | None => let! err := trace_set_err_out errno_open in Ok (None, Some err)
          end in
        Ok ({| level := level; compress_type := compress_type; fileflag := 65; file := file |}, err,
            match file with Some _ => 0 | None => -1 end)
      else
        Ok ({| level := level; compress_type := compress_type; fileflag := 65; file := None |},
            Some TRACE_ERR_UNSUPPORTED_COMPRESS, -1).
Proof.
  unfold lodp_init_output. intros H. obind_inv H. destruct a as [|[[[s2 io] msg] r]]; [done|].
  destruct (Z.eqb_spec r 0) as [->|Hr]; cbn [negb] in H; [|by obind_inv H].
  injection H as <- <- <- <-. unfold lodp_init_environment in Hstep. do 2 obind_inv Hstep.
  destruct (odp_init_global s a0) as [s1 r1]. case_match; [done|].
  destruct (odp_init_local s1) as [s3 r3]. case_match; [done|].
  match goal with H : context [let '(_, _) := ?e in _] |- _ => destruct e as [s4 [pool|]] end; [|done].
  destruct (odp_pktio_open s4 (str "0") pool) as [s5 io'] eqn:Eopen.
  destruct (Z.eqb_spec io' ODP_PKTIO_INVALID) as [|Hio]; [done|].
  destruct (odp_pktin_queue_config s5 io') as [s6 r6]. case_match; [done|].
  destruct (odp_pktout_queue_config s6 io') as [s7 r7]. injection Hstep as <- <- <-.
  exists s4, s5, pool, io'. split_and!; try done. intros opt data out' err' ret' Hc.
  assert (out' = store_pktio {| level := 0; compress_type := 0; fileflag := 65; file := None |} io') as ->
    by (destruct data, opt; by injection Hc as <- _).
  unfold lodp_start_output, trace_open_file_out. cbn [store_pktio level compress_type fileflag file].
  case_bool_decide as Hb.
  - rewrite (proj2 (Z.ltb_ge _ 0)), (proj2 (Z.ltb_ge 9 _)), (proj2 (Z.ltb_ge _ 0)), (proj2 (Z.leb_gt _ _)) by lia. done.
  - destruct (Z.ltb_spec (i32 io') 0), (Z.ltb_spec 9 (i32 io')), (Z.ltb_spec (i32 (Z.shiftr io' 32)) 0),
      (Z.leb_spec TRACE_OPTION_COMPRESSTYPE_LAST (i32 (Z.shiftr io' 32))); try done. lia.
Qed.

(** Interface number 12: the output trace does not start. *)
Lemma odp_output_compression_witness :
  ∃ out, lodp_init_output (OD := memory_odp) {| mo_ret := λ c, match c with CPktio => 12 | _ => 0 end; mo_queue := [];
             mo_live := ∅; mo_freed := [] |} (str "0:1:0.0") = Ok (Return out) ∧
  lodp_start_output (W := memory_wandio) {| level := 12; compress_type := 0; fileflag := 65; file := None |} (str "0:1:0.0")
  = Ok ({| level := 12; compress_type := 0; fileflag := 65; file := None |}, Some TRACE_ERR_UNSUPPORTED_COMPRESS, -1).
Proof.
  eexists. split; [vm_compute; reflexivity|].
  destruct (odp_output_compression (OD := memory_odp) (W := memory_wandio)
    {| mo_ret := λ c, match c with CPktio => 12 | _ => 0 end; mo_queue := []; mo_live := ∅; mo_freed := [] |} (str "0:1:0.0")
    {| mo_ret := λ c, match c with CPktio => 12 | _ => 0 end; mo_queue := []; mo_live := ∅; mo_freed := [] |}
    {| level := 12; compress_type := 0; fileflag := 65; file := None |} None 0)
    as (s1 & s2 & pool & io & _ & _ & _ & _ & H); [vm_compute; reflexivity|].
  specialize (H TRACE_OPTION_OUTPUT_COMPRESS (Some 6) _ _ _ eq_refl). vm_compute. reflexivity.
Defined.
