(* ===== verification/LinuxRing.v ===== *)
(** * Capturing through a ring shared with the Linux kernel: lib/format_linux_ring.c

    The kernel and libtrace share a ring of frames.  The kernel fills the frames in
    order, as long as the status of the next one is 0, and sets its flag
    [TP_STATUS_USER]; libtrace reads them in order and gives a frame back by setting
    its status to 0 when the packet is finished.  The first part is the choice of the
    sizes of the ring; then come the frames, the reader with its waits, and a step
    relation in which the steps of the kernel, of the reader and of the program that
    holds the packets are interleaved.

    The kernel is not part of this repository: of it the model has the step that
    fills a frame, and the results of its calls are arguments. *)

From S2P Require Import Prelude DNodes Packet PktMeta Linktypes Timestamps FormatHelper PcapFile.
Local Open Scope Z_scope.
Local Open Scope outcome_scope.

Abbreviation CONF_RING_FRAMES := 256.
Abbreviation TX_MAX_QUEUE := 10.
Abbreviation MAX_ORDER := 11.
Abbreviation TP_STATUS_USER := 1.
Abbreviation TP_STATUS_SEND_REQUEST := 1.
Abbreviation TP_STATUS_AVAILABLE := 0.

Definition TPACKET_ALIGN (x : Z) : Z := Z.land (x + 16 - 1) (Z.lnot (16 - 1)).
(** The sizes of [struct tpacket2_hdr] and [struct sockaddr_ll]. *)
Abbreviation sizeof_tpacket2_hdr := 28.
Abbreviation sizeof_sockaddr_ll := 20.
Definition TPACKET2_HDRLEN : Z := TPACKET_ALIGN sizeof_tpacket2_hdr + sizeof_sockaddr_ll.

(** ** The sizes of the ring *)
Record tpacket_req := { tp_block_size : Z; tp_block_nr : Z; tp_frame_size : Z; tp_frame_nr : Z }.

(** [while (frame_size < max_frame && frame_size < LIBTRACE_PACKET_BUFSIZE) frame_size <<= 1] *)
Fixpoint frame_loop (fuel : nat) (frame_size max_frame : Z) : outcome Z :=
  match fuel with
  | O => Fault OutOfFuel
  | S fuel' =>
      if (frame_size <? max_frame) && (frame_size <? LIBTRACE_PACKET_BUFSIZE)
      then frame_loop fuel' (u32 (Z.shiftl frame_size 1)) max_frame
      else Ok frame_size
  end.

(** [do block_size >>= 1; while ((CONF_RING_FRAMES * frame_size) <= block_size)] *)
Fixpoint block_loop (fuel : nat) (block_size frame_size : Z) : outcome Z :=
  match fuel with
  | O => Fault OutOfFuel
  | S fuel' =>
      let block_size := Z.shiftr block_size 1 in
      if u32 (CONF_RING_FRAMES * frame_size) <=? block_size then block_loop fuel' block_size frame_size
      else Ok block_size
  end.

(** [mtu]: what the ioctl tells, if it succeeds.  The recursion, on a smaller order,
    is taken if the block size does not fit into 32 bits. *)
Fixpoint calculate_buffers (fuel : nat) (pagesize : Z) (mtu : option Z) (max_order : Z) : outcome tpacket_req :=
  match fuel with
  | O => Fault OutOfFuel
  | S fuel' =>
      let max_frame := match mtu with Some mtu => u32 (mtu + TPACKET_ALIGN TPACKET2_HDRLEN) | None => LIBTRACE_PACKET_BUFSIZE end in
      let max_frame := if LIBTRACE_PACKET_BUFSIZE <? max_frame then LIBTRACE_PACKET_BUFSIZE else max_frame in
      let! frame_size := frame_loop 33 pagesize max_frame in
      let frame_size := if LIBTRACE_PACKET_BUFSIZE <? frame_size then Z.shiftr frame_size 1 else frame_size in
      let block_size := u32 (Z.shiftl pagesize max_order) in
      if block_size =? 0 then calculate_buffers fuel' pagesize mtu (u32 (max_order - 1))
      else
        let! block_size := block_loop 33 block_size frame_size in
        let block_size := u32 (Z.shiftl block_size 1) in
        let total := u32 (CONF_RING_FRAMES * frame_size) in
        let! rest := umod total block_size in
        let block_nr := total / block_size in
        let block_nr := if negb (rest =? 0) then u32 (block_nr + 1) else block_nr in
        let! _ := umod block_size frame_size in
        let frame_nr := u32 (block_nr * (block_size / frame_size)) in
        let! _ := oassert (negb (block_size =? 0)) in
        let! _ := oassert (negb (block_nr =? 0)) in
        let! _ := oassert (negb (frame_size =? 0)) in
        let! _ := oassert (negb (frame_nr =? 0)) in
        let! _ := oassert (block_size `mod` frame_size =? 0) in
        Ok {| tp_block_size := block_size; tp_block_nr := block_nr; tp_frame_size := frame_size; tp_frame_nr := frame_nr |}
  end.

Inductive ring_alloc := RingOk | RingNoMem | RingError.
Inductive mmap_error := NoTpacket2 | NotEnoughMemory | SizeError | MapFailed.

(** [while (1)] of [socket_to_packetmmap]: [alloc] is what the kernel says to a
    request.  The request that was granted, or the error, and the order. *)
Fixpoint ring_loop (fuel : nat) (alloc : tpacket_req → ring_alloc) (pagesize : Z) (mtu : option Z) (max_order : Z)
  : outcome (Z * (tpacket_req + mmap_error)) :=
  match fuel with
  | O => Fault OutOfFuel
  | S fuel' =>
      if max_order <=? 0 then Ok (max_order, inr NotEnoughMemory)
      else
        let! req := calculate_buffers 33 pagesize mtu max_order in
        match alloc req with
        | RingOk => Ok (max_order, inl req)
        | RingNoMem => ring_loop fuel' alloc pagesize mtu (u32 (max_order - 1))
        | RingError => Ok (max_order, inr SizeError)
        end
  end.

(** [version]: the kernel knows the second version of the header; [map]: the memory
    can be mapped. *)
Definition socket_to_packetmmap (version map : bool) (alloc : tpacket_req → ring_alloc) (pagesize : Z) (mtu : option Z)
    (max_order : Z) : outcome (Z * (tpacket_req + mmap_error)) :=
  if negb version then Ok (max_order, inr NoTpacket2)
  else
    let! ' (order, result) := ring_loop (S (Z.to_nat max_order)) alloc pagesize mtu max_order in
    match result with
    | inl req => Ok (order, if map then inl req else inr MapFailed)
    | inr err => Ok (order, inr err)
    end.

(** *** Powers of two *)
Lemma shiftl_pow2 j : 0 ≤ j → Z.shiftl (2 ^ j) 1 = 2 ^ (j + 1).
Proof. intros. rewrite Z.shiftl_mul_pow2, Z.pow_add_r by lia. lia. Qed.

Lemma shiftr_pow2 j : 0 < j → Z.shiftr (2 ^ j) 1 = 2 ^ (j - 1).
Proof.
  intros. rewrite Z.shiftr_div_pow2 by lia. replace j with (j - 1 + 1) at 1 by lia.
  rewrite Z.pow_add_r, Z.div_mul by lia. done.
Qed.

Lemma pow2_small j : 0 ≤ j < 32 → u32 (2 ^ j) = 2 ^ j.
Proof. intros. apply u32_small. split; [lia|]. apply Z.pow_lt_mono_r; lia. Qed.

Lemma pow2_div a b : 0 ≤ b ≤ a → 2 ^ a / 2 ^ b = 2 ^ (a - b) ∧ 2 ^ a `mod` 2 ^ b = 0.
Proof.
  intros. replace a with (a - b + b) at 1 3 by lia. rewrite !Z.pow_add_r by lia.
  rewrite Z.div_mul, Z.mod_mul by lia. done.
Qed.

Lemma pow2_le_iff a b : 0 ≤ a → 0 ≤ b → (2 ^ a <=? 2 ^ b) = (a <=? b).
Proof.
  intros. destruct (Z.leb_spec a b), (Z.leb_spec (2 ^ a) (2 ^ b)); try done.
  - pose proof (Z.pow_le_mono_r 2 a b). lia.
  - pose proof (Z.pow_lt_mono_r 2 b a). lia.
Qed.

Lemma frame_loop_pow2 fuel : ∀ j max_frame,
  0 ≤ j ≤ 16 → max_frame ≤ 2 ^ 16 → 16 - j < Z.of_nat fuel →
  ∃ j', frame_loop fuel (2 ^ j) max_frame = Ok (2 ^ j') ∧ j ≤ j' ≤ 16 ∧ max_frame ≤ 2 ^ j' ∧
    (j < j' → 2 ^ (j' - 1) < max_frame).
Proof.
  induction fuel as [|fuel IH]; intros j mf Hj Hm Hf; [lia|]. cbn [frame_loop].
  change LIBTRACE_PACKET_BUFSIZE with (2 ^ 16).
  assert (2 ^ j ≤ 2 ^ 16) by (apply Z.pow_le_mono_r; lia).
  destruct (Z.ltb_spec (2 ^ j) mf) as [Hlt|Hge]; cbn [andb].
  - rewrite (proj2 (Z.ltb_lt _ _)) by lia. rewrite shiftl_pow2 by lia.
    assert (j < 16) by (apply (Z.pow_lt_mono_r_iff 2); lia).
    rewrite pow2_small by lia. destruct (IH (j + 1) mf) as (j' & -> & H1 & H2 & H3); [lia..|].
    exists j'. split_and!; [done|lia..|]. intros _. destruct (Z.eq_dec (j + 1) j') as [<-|]; [|apply H3; lia].
    by replace (j + 1 - 1) with j by lia.
  - exists j. split_and!; [done|lia..].
Qed.

Lemma block_loop_pow2 fuel : ∀ b j,
  0 < b < 32 → 0 ≤ j ≤ 16 → b ≤ Z.of_nat fuel → block_loop fuel (2 ^ b) (2 ^ j) = Ok (2 ^ (Z.min b (8 + j) - 1)).
Proof.
  induction fuel as [|fuel IH]; intros b j Hb Hj Hf; [lia|]. cbn [block_loop]. rewrite shiftr_pow2 by lia.
  change CONF_RING_FRAMES with (2 ^ 8). rewrite <- Z.pow_add_r, pow2_small, pow2_le_iff by lia.
  destruct (Z.leb_spec (8 + j) (b - 1)).
  - rewrite IH by lia. do 3 f_equal. lia.
  - do 3 f_equal. lia.
Qed.

(** The largest frame that is asked for. *)
Definition wanted_frame (mtu : option Z) : Z :=
  Z.min LIBTRACE_PACKET_BUFSIZE (match mtu with Some mtu => mtu + TPACKET_ALIGN TPACKET2_HDRLEN | None => LIBTRACE_PACKET_BUFSIZE end).

(** For pages of [2 ^ k] bytes: the frame, a power of two, and 256 of them, if a block
    of the given order holds one; otherwise an assertion fails. *)
Lemma calculate_buffers_sizes fuel k mtu order :
  12 ≤ k ≤ 16 → match mtu with Some mtu => 0 ≤ mtu < 2 ^ 31 | None => True end → 0 < order ≤ MAX_ORDER → (0 < fuel)%nat →
  ∃ j, k ≤ j ≤ 16 ∧ wanted_frame mtu ≤ 2 ^ j ∧ (k < j → 2 ^ (j - 1) < wanted_frame mtu) ∧
    let block := Z.min (k + order) (8 + j) in
    calculate_buffers fuel (2 ^ k) mtu order =
      if j <=? k + order then
        Ok {| tp_block_size := 2 ^ block; tp_block_nr := 2 ^ (8 + j - block); tp_frame_size := 2 ^ j; tp_frame_nr := 256 |}
      else Fault AssertFailed.
Proof.
  intros Hk Hm Ho Hf. destruct fuel as [|fuel]; [lia|]. cbn [calculate_buffers].
  set (max_frame := match mtu with Some _ => _ | None => _ end).
  assert ((if LIBTRACE_PACKET_BUFSIZE <? max_frame then LIBTRACE_PACKET_BUFSIZE else max_frame) = wanted_frame mtu) as ->.
  { unfold max_frame, wanted_frame. change (TPACKET_ALIGN TPACKET2_HDRLEN) with 64.
    destruct mtu as [mtu|]; [rewrite u32_small by lia|]; destruct (Z.ltb_spec LIBTRACE_PACKET_BUFSIZE (mtu + 64)) || simpl; lia. }
  destruct (frame_loop_pow2 33 k (wanted_frame mtu)) as (j & -> & Hj & Hge & Hmin);
    [lia|unfold wanted_frame; lia|lia|].
  exists j. split_and!; [lia..|done|]. cbn [obind].
  assert (2 ^ j ≤ 2 ^ 16) by (apply Z.pow_le_mono_r; lia).
  rewrite (proj2 (Z.ltb_ge _ _)) by lia. rewrite Z.shiftl_mul_pow2, <- Z.pow_add_r, pow2_small by lia.
  rewrite (proj2 (Z.eqb_neq _ _)) by lia. rewrite block_loop_pow2 by lia. cbn [obind].
  set (block := Z.min (k + order) (8 + j)). rewrite shiftl_pow2 by lia. replace (block - 1 + 1) with block by lia.
  rewrite pow2_small by lia. change CONF_RING_FRAMES with (2 ^ 8). rewrite <- Z.pow_add_r, pow2_small by lia.
  destruct (pow2_div (8 + j) block) as [Ed Em]; [lia|].
  rewrite umod_ok by lia. rewrite Em, Ed. cbn [obind Z.eqb negb]. rewrite umod_ok by lia. cbn [obind].
  rewrite (proj2 (Z.eqb_neq (2 ^ block) 0)), (proj2 (Z.eqb_neq (2 ^ (8 + j - block)) 0)), (proj2 (Z.eqb_neq (2 ^ j) 0)) by lia.
  cbn [negb oassert obind]. destruct (Z.leb_spec j (k + order)).
  - destruct (pow2_div block j) as [-> ->]; [lia|]. rewrite <- Z.pow_add_r by lia.
    replace (8 + j - block + (block - j)) with 8 by lia. done.
  - rewrite (Z.div_small (2 ^ block)) by (split; [lia|apply Z.pow_lt_mono_r; lia]). by rewrite Z.mul_0_r.
Qed.

(** A ring that was granted: 256 frames, each at least as large as the MTU of the
    interface and the aligned header (or 64 KiB), filling the blocks exactly, at page
    boundaries. *)
Definition good_ring (k : Z) (mtu : option Z) (req : tpacket_req) : Prop :=
  tp_frame_nr req = CONF_RING_FRAMES ∧ wanted_frame mtu ≤ tp_frame_size req ≤ LIBTRACE_PACKET_BUFSIZE ∧
  tp_block_nr req * tp_block_size req = tp_frame_nr req * tp_frame_size req ∧
  tp_frame_size req `mod` 2 ^ k = 0 ∧ tp_block_size req `mod` tp_frame_size req = 0.

Lemma calculate_buffers_good k mtu order :
  12 ≤ k ≤ 16 → match mtu with Some mtu => 0 ≤ mtu < 2 ^ 31 | None => True end → 0 < order ≤ MAX_ORDER →
  match calculate_buffers 33 (2 ^ k) mtu order with
  | Ok req => good_ring k mtu req
  | Fault f => f = AssertFailed ∧ 2 ^ (k + order) < wanted_frame mtu
  end.
Proof.
  intros Hk Hm Ho. destruct (calculate_buffers_sizes 33 k mtu order) as (j & Hj & Hge & Hmin & ->); [done..|lia|].
  destruct (Z.leb_spec j (k + order)).
  - unfold good_ring. cbn. assert (2 ^ j ≤ 2 ^ 16) by (apply Z.pow_le_mono_r; lia).
    split_and!; [done|lia|lia| | |].
    + rewrite <- Z.pow_add_r by lia. change 256 with (2 ^ 8). rewrite <- Z.pow_add_r by lia. f_equal. lia.
    + apply pow2_div. lia.
    + apply pow2_div. lia.
  - split; [done|]. assert (2 ^ (k + order) ≤ 2 ^ (j - 1)) by (apply Z.pow_le_mono_r; lia). lia.
Qed.

(** The kernel had no memory for the rings of all orders above [low] up to [high]. *)
Definition refused (alloc : tpacket_req → ring_alloc) (k : Z) (mtu : option Z) (low high : Z) : Prop :=
  ∀ o, low < o ≤ high → ∃ req, calculate_buffers 33 (2 ^ k) mtu o = Ok req ∧ alloc req = RingNoMem.

Lemma refused_cons alloc k mtu low high req :
  refused alloc k mtu low (high - 1) → calculate_buffers 33 (2 ^ k) mtu high = Ok req → alloc req = RingNoMem →
  refused alloc k mtu low high.
Proof. intros H Hc Ha o Ho. destruct (decide (o = high)) as [->|]; [by exists req|]. apply H. lia. Qed.

Lemma ring_loop_ends alloc k mtu : ∀ fuel order,
  12 ≤ k ≤ 16 → match mtu with Some mtu => 0 ≤ mtu < 2 ^ 31 | None => True end → 0 ≤ order ≤ MAX_ORDER →
  order < Z.of_nat fuel →
  match ring_loop fuel alloc (2 ^ k) mtu order with
  | Ok (order', inl req) =>
      0 < order' ≤ order ∧ refused alloc k mtu order' order ∧ alloc req = RingOk ∧ good_ring k mtu req
  | Ok (order', inr err) =>
      0 ≤ order' ≤ order ∧ refused alloc k mtu order' order ∧
      (err = NotEnoughMemory ∧ order' = 0 ∨
       err = SizeError ∧ ∃ req, calculate_buffers 33 (2 ^ k) mtu order' = Ok req ∧ alloc req = RingError)
  | Fault f => f = AssertFailed ∧ ∃ o, 0 < o ≤ order ∧ refused alloc k mtu o order ∧ 2 ^ (k + o) < wanted_frame mtu
  end.
Proof.
  induction fuel as [|fuel IH]; intros order Hk Hm Ho Hf; [lia|]. cbn [ring_loop].
  destruct (Z.leb_spec order 0); [split_and!; [lia|lia|intros o; lia|left; split; [done|lia]]|].
  pose proof (calculate_buffers_good k mtu order Hk Hm) as Hc.
  destruct (calculate_buffers 33 (2 ^ k) mtu order) as [req|f] eqn:Ec; cbn [obind].
  - assert (good_ring k mtu req) as Hg by (apply Hc; lia). destruct (alloc req) eqn:Ea.
    + split_and!; [lia|lia|intros o; lia|done|done].
    + rewrite u32_small by lia. specialize (IH (order - 1) Hk Hm ltac:(lia) ltac:(lia)).
      destruct (ring_loop fuel alloc (2 ^ k) mtu (order - 1)) as [[order' [req'|err]]|f].
      * destruct IH as (? & ? & ?). split_and!; [lia|lia|by eapply refused_cons|tauto..].
      * destruct IH as (? & ? & ?). split_and!; [lia|lia|by eapply refused_cons|done].
      * destruct IH as (-> & o & ? & ? & ?). split; [done|]. exists o. split_and!; [lia|lia|by eapply refused_cons|done].
    + split_and!; [lia|lia|intros o; lia|]. right. split; [done|]. by exists req.
  - destruct Hc as [-> Hc]; [lia|]. split; [done|]. exists order. split_and!; [lia|lia|intros o; lia|done].
Qed.

(** ** Frames *)
Record sockaddr_ll := { sll_ifindex : Z; sll_hatype : Z; sll_pkttype : Z; sll_halen : Z; sll_addr : list Z }.

(** [struct tpacket2_hdr], the [struct sockaddr_ll] behind it, and the memory of the
    frame behind both, from the offset [TPACKET2_HDRLEN] on. *)
Record tpacket2_frame := {
  tp_status : Z;
  tp_len : Z;
  tp_snaplen : Z;
  tp_mac : Z;
  tp_net : Z;
  tp_sec : Z;
  tp_nsec : Z;
  tp_sll : sockaddr_ll;
  tp_data : list Z;
}.

Definition set_status (f : tpacket2_frame) (status : Z) : tpacket2_frame :=
  {| tp_status := status; tp_len := tp_len f; tp_snaplen := tp_snaplen f; tp_mac := tp_mac f; tp_net := tp_net f;
     tp_sec := tp_sec f; tp_nsec := tp_nsec f; tp_sll := tp_sll f; tp_data := tp_data f |}.
Definition set_snaplen (f : tpacket2_frame) (snaplen : Z) : tpacket2_frame :=
  {| tp_status := tp_status f; tp_len := tp_len f; tp_snaplen := snaplen; tp_mac := tp_mac f; tp_net := tp_net f;
     tp_sec := tp_sec f; tp_nsec := tp_nsec f; tp_sll := tp_sll f; tp_data := tp_data f |}.
Definition set_sll (f : tpacket2_frame) (sll : sockaddr_ll) : tpacket2_frame :=
  {| tp_status := tp_status f; tp_len := tp_len f; tp_snaplen := tp_snaplen f; tp_mac := tp_mac f; tp_net := tp_net f;
     tp_sec := tp_sec f; tp_nsec := tp_nsec f; tp_sll := sll; tp_data := tp_data f |}.

(** *** The functions of lib/format_linux_common.h *)
Abbreviation PACKET_HOST := 0.
Abbreviation PACKET_OTHERHOST := 3.
Abbreviation PACKET_OUTGOING := 4.
Abbreviation PACKET_LOOPBACK := 5.
Abbreviation TRACE_DIR_OTHER := 2.

Definition linuxcommon_get_direction (pkttype : Z) : Z :=
  if (pkttype =? PACKET_OUTGOING) || (pkttype =? PACKET_LOOPBACK) then TRACE_DIR_OUTGOING
  else if pkttype =? PACKET_OTHERHOST then TRACE_DIR_OTHER
  else TRACE_DIR_INCOMING.

Definition sll_set_pkttype (s : sockaddr_ll) (pkttype : Z) : sockaddr_ll :=
  {| sll_ifindex := sll_ifindex s; sll_hatype := sll_hatype s; sll_pkttype := pkttype; sll_halen := sll_halen s;
     sll_addr := sll_addr s |}.

Definition linuxcommon_set_direction (skadr : sockaddr_ll) (direction : Z) : sockaddr_ll * Z :=
  if direction =? TRACE_DIR_OUTGOING then (sll_set_pkttype skadr PACKET_OUTGOING, TRACE_DIR_OUTGOING)
  else if direction =? TRACE_DIR_INCOMING then (sll_set_pkttype skadr PACKET_HOST, TRACE_DIR_INCOMING)
  else if direction =? TRACE_DIR_OTHER then (sll_set_pkttype skadr PACKET_OTHERHOST, TRACE_DIR_OTHER)
  else (skadr, -1).

(** ARPHRD_ETHER and _LOOPBACK; _PPP; _IEEE80211_RADIOTAP; _IEEE80211; _SIT and _NONE. *)
Definition linuxcommon_get_link_type (linktype : Z) : libtrace_linktype_t :=
  if (linktype =? 1) || (linktype =? 772) then TRACE_TYPE_ETH
  else if linktype =? 512 then TRACE_TYPE_NONE
  else if linktype =? 803 then TRACE_TYPE_80211_RADIO
  else if linktype =? 801 then TRACE_TYPE_80211
  else if (linktype =? 776) || (linktype =? 0xFFFE) then TRACE_TYPE_NONE
  else TRACE_TYPE_UNKNOWN.

(** *** The functions of the format on a frame *)
Definition TP_TRACE_START (mac net hdrend : Z) : Z := if (hdrend <? mac) && (mac <? net) then mac else net.

Definition linuxring_get_link_type (f : tpacket2_frame) : libtrace_linktype_t :=
  linuxcommon_get_link_type (sll_hatype (tp_sll f)).
Definition linuxring_get_direction (f : tpacket2_frame) : Z := linuxcommon_get_direction (sll_pkttype (tp_sll f)).
Definition linuxring_set_direction (f : tpacket2_frame) (direction : Z) : tpacket2_frame * Z :=
  let '(sll, ret) := linuxcommon_set_direction (tp_sll f) direction in (set_sll f sll, ret).
Definition linuxring_get_timeval (f : tpacket2_frame) : timeval := {| tv_sec := tp_sec f; tv_usec := tp_nsec f / 1000 |}.
Definition linuxring_get_timespec (f : tpacket2_frame) : timespec := {| ts_sec := tp_sec f; ts_nsec := tp_nsec f |}.
Definition linuxring_get_capture_length (f : tpacket2_frame) : Z := i32 (tp_snaplen f).
Definition linuxring_get_wire_length (f : tpacket2_frame) (linktype : libtrace_linktype_t) : Z :=
  let wirelen := i32 (tp_len f) in if bool_decide (linktype = TRACE_TYPE_ETH) then i32 (wirelen + 4) else wirelen.

(** Where the payload is in the frame: the distance that is also the framing length. *)
Definition linuxring_prepare_packet (f : tpacket2_frame) : Z := TP_TRACE_START (tp_mac f) (tp_net f) TPACKET2_HDRLEN.
Definition linuxring_get_framing_length (payload : Z) : Z := payload.

(** [cap]: what [trace_get_capture_length] returns for the packet. *)
Definition linuxring_set_capture_length (f : tpacket2_frame) (cap size : Z) : tpacket2_frame * Z :=
  if cap <? size then (f, cap)
  else let f := set_snaplen f (u32 size) in (f, u64 (linuxring_get_capture_length f)).

(** ** Reading *)

(** A packet's buffer is a frame of the ring or memory of its own. *)
Inductive ring_buffer := InRing (i : Z) | Own (f : tpacket2_frame).
Record ring_packet := { rp_buffer : option ring_buffer; rp_control : buf_control_t; rp_payload : Z }.

Definition rp_drop (pk : ring_packet) : ring_packet :=
  {| rp_buffer := None; rp_control := rp_control pk; rp_payload := rp_payload pk |}.

(** [MAP_FAILED] is [None]. *)
Record linux_per_stream_t := {
  rx_ring : option (list tpacket2_frame);
  rxring_offset : Z;
  req : tpacket_req;
}.

Definition st_set (st : linux_per_stream_t) (ring : list tpacket2_frame) (offset : Z) : linux_per_stream_t :=
  {| rx_ring := Some ring; rxring_offset := offset; req := req st |}.

(** A frame of a ring that is not mapped any more is a dangling pointer. *)
Definition frames_of (st : linux_per_stream_t) : outcome (list tpacket2_frame) :=
  match rx_ring st with Some ring => Ok ring | None => Fault Dangling end.

Definition ring_release_frame (st : linux_per_stream_t) (pk : ring_packet) : outcome (linux_per_stream_t * ring_packet) :=
  match rp_buffer pk, rp_control pk with
  | None, _ => Ok (st, pk)
  | Some (InRing i), TRACE_CTRL_EXTERNAL =>
      let! ring := frames_of st in
      let! f := aget ring i in
      let! ring := aset ring i (set_status f 0) in
      Ok (st_set st ring (rxring_offset st), rp_drop pk)
  | Some _, _ => Ok (st, rp_drop pk)
  end.

Section reader.
(** The size of a page, the snap length of the trace, and whether a message queue is
    watched, too. *)
Variables (pagesize snaplen : Z) (queue : bool).

(** Up to the loop that waits for a frame. *)
Definition read_begin (st : linux_per_stream_t) (pk : ring_packet) : outcome (linux_per_stream_t * ring_packet) :=
  let! ' (st, pk) := ring_release_frame st pk in
  let pk := {| rp_buffer := rp_buffer pk; rp_control := TRACE_CTRL_EXTERNAL; rp_payload := rp_payload pk |} in
  let! _ := oassert (Z.land (u32 (rxring_offset st * tp_frame_size (req st))) (pagesize - 1) =? 0) in
  Ok (st, pk).

(** The test of the loop. *)
Definition frame_ready (st : linux_per_stream_t) : outcome bool :=
  let! ring := frames_of st in
  let! f := aget ring (rxring_offset st) in
  Ok (negb (Z.land (tp_status f) TP_STATUS_USER =? 0)).

Abbreviation POLLIN := 1.
Abbreviation EINTR := 4.
Abbreviation READ_ERROR := (-1).
Abbreviation READ_MESSAGE := (-2).

Inductive poll_result := PollEvents (revents0 revents1 : Z) | PollError (errno : Z) | PollTimeout.
Inductive loop_next := Again | Return (ret : Z) (err : option Z).

(** The body of the loop.  [sockerr]: the error of the socket. *)
Definition poll_next (halt : bool) (sockerr : Z) (r : poll_result) : outcome loop_next :=
  match r with
  | PollEvents revents0 revents1 =>
      if revents0 =? POLLIN then Ok Again
      else if queue && (revents1 =? POLLIN) then Ok (Return READ_MESSAGE None)
      else if queue && negb (revents1 =? 0) then
        let! err := trace_set_err TRACE_ERR_BAD_STATE in Ok (Return READ_ERROR (Some err))
      else let! err := trace_set_err sockerr in Ok (Return READ_ERROR (Some err))
  | PollError errno =>
      if negb (errno =? EINTR) then let! err := trace_set_err errno in Ok (Return (-1) (Some err)) else Ok Again
  | PollTimeout => Ok (if halt then Return 0 None else Again)
  end.

(** The capture length of the packet in a frame. *)
Definition cut (f : tpacket2_frame) : tpacket2_frame :=
  let snaplen := u32 (Z.min (LIBTRACE_PACKET_BUFSIZE - sizeof_tpacket2_hdr) snaplen) in
  set_snaplen f (Z.min snaplen (tp_len f)).

(** Behind the loop. *)
Definition read_take (st : linux_per_stream_t) (pk : ring_packet) : outcome (linux_per_stream_t * ring_packet * Z) :=
  let! ring := frames_of st in
  let i := rxring_offset st in
  let! f := aget ring i in
  let f := cut f in
  let! ring := aset ring i f in
  let! offset := umod (i + 1) (tp_frame_nr (req st)) in
  let payload := linuxring_prepare_packet f in
  let pk := {| rp_buffer := Some (InRing i); rp_control := TRACE_CTRL_EXTERNAL; rp_payload := payload |} in
  Ok (st_set st ring offset, pk, i32 (linuxring_get_framing_length payload + linuxring_get_capture_length f)).

(** The whole function, for an environment that changes the ring while it is polled. *)
Fixpoint ring_read_loop (polls : list (poll_result * list tpacket2_frame)) (halt : bool) (sockerr : Z)
    (st : linux_per_stream_t) (pk : ring_packet) : outcome (linux_per_stream_t * ring_packet * Z * option Z) :=
  let! ready := frame_ready st in
  if ready then let! ' (st, pk, ret) := read_take st pk in Ok (st, pk, ret, None)
  else
    match polls with
    | [] => Fault Blocked
    | (r, ring) :: polls =>
        let! next := poll_next halt sockerr r in
        match next with
        | Again => ring_read_loop polls halt sockerr (st_set st ring (rxring_offset st)) pk
        | Return ret err => Ok (st_set st ring (rxring_offset st), pk, ret, err)
        end
    end.

Definition linuxring_read_stream (polls : list (poll_result * list tpacket2_frame)) (halt : bool) (sockerr : Z)
    (st : linux_per_stream_t) (pk : ring_packet) : outcome (linux_per_stream_t * ring_packet * Z * option Z) :=
  let! ' (st, pk) := read_begin st pk in
  ring_read_loop polls halt sockerr st pk.

(** [rx_ring] is never null: it is a mapping or [MAP_FAILED]. *)
Definition linuxring_fin_packet (started : bool) (st : linux_per_stream_t) (pk : ring_packet)
  : outcome (linux_per_stream_t * ring_packet) :=
  match rp_buffer pk, rp_control pk with
  | None, _ => Ok (st, pk)
  | Some _, TRACE_CTRL_EXTERNAL =>
      let! _ := oassert (Bool.eqb true started) in
      match rx_ring st with
      | Some _ => ring_release_frame st pk
      | None => Ok (st, rp_drop pk)
      end
  | Some _, TRACE_CTRL_PACKET => Ok (st, pk)
  end.

(** ** The kernel, the reader and the program together *)

(** [x_reading]: the packet that is being read into.  [x_arrived]: the frames the kernel
    has filled; [x_got]: the frames that were read; [x_held]: which of them the packets
    hold. *)
Record rx := {
  x_stream : linux_per_stream_t;
  x_koff : nat;
  x_reading : option loc;
  x_packets : gmap loc ring_packet;
  x_arrived : list tpacket2_frame;
  x_got : list tpacket2_frame;
  x_held : gmap loc nat;
}.

Definition with_stream (x : rx) (st : linux_per_stream_t) (reading : option loc) (packets : gmap loc ring_packet)
    (held : gmap loc nat) : rx :=
  {| x_stream := st; x_koff := x_koff x; x_reading := reading; x_packets := packets; x_arrived := x_arrived x;
     x_got := x_got x; x_held := held |}.

Inductive rx_step (x : rx) : rx → Prop :=
| rx_fill ring g f :
    rx_ring (x_stream x) = Some ring → ring !! x_koff x = Some g → tp_status g = 0 → Z.odd (tp_status f) = true →
    rx_step x
      {| x_stream := st_set (x_stream x) (<[x_koff x := f]> ring) (rxring_offset (x_stream x));
         x_koff := (x_koff x + 1) mod (length ring); x_reading := x_reading x; x_packets := x_packets x;
         x_arrived := x_arrived x ++ [f]; x_got := x_got x; x_held := x_held x |}
| rx_call p pk st pk' :
    x_reading x = None → x_packets x !! p = Some pk → read_begin (x_stream x) pk = Ok (st, pk') →
    rx_step x (with_stream x st (Some p) (<[p := pk']> (x_packets x)) (delete p (x_held x)))
| rx_poll p halt sockerr r next :
    x_reading x = Some p → frame_ready (x_stream x) = Ok false → poll_next halt sockerr r = Ok next →
    rx_step x (with_stream x (x_stream x) (match next with Again => x_reading x | Return _ _ => None end)
                 (x_packets x) (x_held x))
| rx_take p pk st pk' ret ring f :
    x_reading x = Some p → x_packets x !! p = Some pk → frame_ready (x_stream x) = Ok true →
    read_take (x_stream x) pk = Ok (st, pk', ret) →
    rx_ring st = Some ring → ring !! Z.to_nat (rxring_offset (x_stream x)) = Some f →
    rx_step x
      {| x_stream := st; x_koff := x_koff x; x_reading := None; x_packets := <[p := pk']> (x_packets x);
         x_arrived := x_arrived x; x_got := x_got x ++ [f]; x_held := <[p := length (x_got x)]> (x_held x) |}
| rx_fin p pk st pk' :
    x_reading x ≠ Some p → x_packets x !! p = Some pk → linuxring_fin_packet true (x_stream x) pk = Ok (st, pk') →
    rx_step x (with_stream x st (x_reading x) (<[p := pk']> (x_packets x)) (delete p (x_held x))).

(** A new ring of [n] empty frames, and new packets. *)
Definition rx_start (r : tpacket_req) (ring : list tpacket2_frame) (packets : gset loc) : rx :=
  {| x_stream := {| rx_ring := Some ring; rxring_offset := 0; req := r |}; x_koff := 0; x_reading := None;
     x_packets := gset_to_gmap {| rp_buffer := None; rp_control := TRACE_CTRL_PACKET; rp_payload := 0 |} packets;
     x_arrived := []; x_got := []; x_held := ∅ |}.

(** No packet is held while as many others are read as the ring has frames. *)
Definition careful (x : rx) : Prop :=
  ∀ p n, x_held x !! p = Some n → Z.of_nat (length (x_got x)) < Z.of_nat n + tp_frame_nr (req (x_stream x)).

Inductive rx_run (x0 : rx) : rx → Prop :=
| run_start : rx_run x0 x0
| run_step x x' : rx_run x0 x → rx_step x x' → (x_got x' ≠ x_got x → careful x) → rx_run x0 x'.
End reader.

(** ** The invariant *)
Lemma mod_window i j n : (i ≤ j)%nat → (j < i + n)%nat → (i mod n = j mod n)%nat → i = j.
Proof.
  intros Hle Hlt E. pose proof (Nat.div_mod_eq i n). pose proof (Nat.div_mod_eq j n). rewrite <- E in *.
  assert (j / n = i / n)%nat by nia. nia.
Qed.

Section invariant.
Variables (pagesize snaplen : Z) (queue : bool) (n : nat).
Implicit Types (x : rx) (f : tpacket2_frame) (p : loc) (st : linux_per_stream_t) (ring : list tpacket2_frame).
Abbreviation cut := (cut snaplen).

(** The packet [p] holds the frame that arrived as number [i]. *)
Definition holds x ring p i : Prop :=
  (i < length (x_got x))%nat ∧ (length (x_arrived x) ≤ i + n)%nat ∧
  ∃ f pk, x_arrived x !! i = Some f ∧ ring !! (i mod n)%nat = Some (cut f) ∧ x_packets x !! p = Some pk ∧
    rp_buffer pk = Some (InRing (Z.of_nat (i mod n))) ∧ rp_control pk = TRACE_CTRL_EXTERNAL.

Record rx_inv x (ring : list tpacket2_frame) : Prop := {
  ri_ring : rx_ring (x_stream x) = Some ring;
  ri_len : length ring = n;
  ri_pos : (0 < n)%nat;
  ri_nr : tp_frame_nr (req (x_stream x)) = Z.of_nat n;
  ri_off : rxring_offset (x_stream x) = Z.of_nat (length (x_got x) mod n);
  ri_koff : x_koff x = (length (x_arrived x) mod n)%nat;
  ri_le : (length (x_got x) ≤ length (x_arrived x) ≤ length (x_got x) + n)%nat;
  ri_got : x_got x = map cut (take (length (x_got x)) (x_arrived x));
  ri_odd : ∀ i f, x_arrived x !! i = Some f → Z.odd (tp_status f) = true;
  ri_unread : ∀ i f, (length (x_got x) ≤ i)%nat → x_arrived x !! i = Some f → ring !! (i mod n)%nat = Some f;
  ri_held : ∀ p i, x_held x !! p = Some i → holds x ring p i;
  ri_inj : ∀ p q i, x_held x !! p = Some i → x_held x !! q = Some i → p = q;
  ri_packets : ∀ p pk, x_packets x !! p = Some pk → rp_buffer pk = None ∨ is_Some (x_held x !! p);
  ri_free : ∀ j f, ring !! j = Some f → tp_status f = 0 ∨
    (∃ i, (length (x_got x) ≤ i < length (x_arrived x))%nat ∧ (i mod n)%nat = j) ∨
    (∃ p i, x_held x !! p = Some i ∧ (i mod n)%nat = j);
}.

Lemma frame_ready_status x ring b :
  rx_inv x ring → frame_ready (x_stream x) = Ok b →
  ∃ f, ring !! (length (x_got x) mod n)%nat = Some f ∧ b = Z.odd (tp_status f).
Proof.
  intros I. unfold frame_ready, frames_of. rewrite (ri_ring _ _ I), (ri_off _ _ I). cbn [obind]. intros H.
  obind_inv H. apply aget_ok_inv in Hstep as [_ Hl]. rewrite Nat2Z.id in Hl. injection H as <-.
  exists a. split; [done|]. change TP_STATUS_USER with (Z.ones 1). rewrite Z.land_ones by done. change (2 ^ 1) with 2.
  rewrite Zmod_odd. by destruct (Z.odd (tp_status a)).
Qed.

(** *** The kernel fills a frame *)
Lemma fill_inv x ring g f :
  rx_inv x ring → ring !! x_koff x = Some g → tp_status g = 0 → Z.odd (tp_status f) = true →
  rx_inv {| x_stream := st_set (x_stream x) (<[x_koff x := f]> ring) (rxring_offset (x_stream x));
            x_koff := (x_koff x + 1) mod (length ring); x_reading := x_reading x; x_packets := x_packets x;
            x_arrived := x_arrived x ++ [f]; x_got := x_got x; x_held := x_held x |}
         (<[x_koff x := f]> ring).
Proof.
  intros I Hg Hst Hodd. pose proof (ri_pos _ _ I). pose proof (ri_le _ _ I) as Hle. rewrite (ri_koff _ _ I) in *.
  set (r := length (x_got x)) in *. set (a := length (x_arrived x)) in *.
  assert (a < r + n)%nat as Hroom.
  { destruct (decide (a = r + n)%nat) as [E|]; [|lia]. exfalso.
    destruct (lookup_lt_is_Some_2 (x_arrived x) r) as [h Hh]; [unfold a in *; lia|].
    pose proof (ri_unread _ _ I r h ltac:(done) Hh) as Hr.
    replace (r mod n)%nat with (a mod n)%nat in Hr by (rewrite E; replace (r + n)%nat with (r + 1 * n)%nat by lia; by rewrite Nat.Div0.mod_add).
    rewrite Hg in Hr. injection Hr as <-. pose proof (ri_odd _ _ I _ _ Hh) as Ho. by rewrite Hst in Ho. }
  assert (∀ p i, x_held x !! p = Some i → (a < i + n)%nat) as Hkeep.
  { intros p i Hp. destruct (ri_held _ _ I p i Hp) as (Hi & Ha & h & pk & Hh & Hr & _). fold r in Hi. fold a in Ha.
    destruct (decide (a = i + n)%nat) as [E|]; [|lia]. exfalso.
    replace (i mod n)%nat with (a mod n)%nat in Hr by (rewrite E; replace (i + n)%nat with (i + 1 * n)%nat by lia; by rewrite Nat.Div0.mod_add).
    rewrite Hg in Hr. injection Hr as ->. change (tp_status h = 0) in Hst. pose proof (ri_odd _ _ I _ _ Hh) as Ho. by rewrite Hst in Ho. }
  split; cbn [x_stream x_koff x_packets x_arrived x_got x_held st_set rx_ring rxring_offset req].
  - done.
  - rewrite length_insert. apply I.
  - done.
  - apply I.
  - apply I.
  - rewrite length_app, (ri_len _ _ I). cbn. fold a. rewrite Nat.Div0.add_mod_idemp_l. done.
  - rewrite length_app. cbn. fold r a. lia.
  - rewrite take_app_le by (fold r a; lia). apply I.
  - intros i h. rewrite lookup_app_Some. intros [Hi|[_ Hi]]; [by apply (ri_odd _ _ I i)|].
    apply list_lookup_singleton_Some in Hi as [_ <-]. done.
  - intros i h Hi. rewrite lookup_app_Some. intros [Hh|[Hge Hh]].
    + apply lookup_lt_Some in Hh as Hlt. fold a in Hlt. rewrite list_lookup_insert_ne; [by apply (ri_unread _ _ I)|].
      intros E. assert (i = a); [|lia]. apply (mod_window i a n); [lia|lia|done].
    + apply list_lookup_singleton_Some in Hh as [E <-]. fold a in Hge, E. replace i with a by lia.
      rewrite list_lookup_insert_eq; [done|]. by apply lookup_lt_Some in Hg.
  - intros p i Hp. destruct (ri_held _ _ I p i Hp) as (Hi & Ha & h & pk & Hh & Hr & Hpk). specialize (Hkeep p i Hp).
    split; [done|]. split; [cbn; rewrite length_app; cbn; fold a; lia|]. exists h, pk. cbn.
    split_and!; [by apply lookup_app_l_Some| |apply Hpk..].
    rewrite list_lookup_insert_ne; [done|]. intros E. assert (i = a); [|fold r in Hi; lia].
    apply (mod_window i a n); [fold r in Hi; lia|lia|done].
  - apply (ri_inj _ _ I).
  - apply (ri_packets _ _ I).
  - intros j h. rewrite list_lookup_insert_Some. fold r. rewrite length_app. cbn. fold a. intros [(<- & <- & _)|[Hne Hj]].
    + right. left. exists a. split; [lia|done].
    + destruct (ri_free _ _ I j h Hj) as [?|[(i & Hi & ?)|?]]; [by left|right; left; exists i; fold r a in Hi; split; [lia|done]|by right; right].
Qed.

(** *** A packet gives its frame back *)
Lemma release_inv x ring p pk reading c payload :
  rx_inv x ring → x_packets x !! p = Some pk →
  ∃ ring', ring_release_frame (x_stream x) pk = Ok (st_set (x_stream x) ring' (rxring_offset (x_stream x)), rp_drop pk) ∧
    rx_inv (with_stream x (st_set (x_stream x) ring' (rxring_offset (x_stream x))) reading
              (<[p := {| rp_buffer := None; rp_control := c; rp_payload := payload |}]> (x_packets x)) (delete p (x_held x))) ring'.
Proof.
  intros I Hp. pose proof (ri_pos _ _ I).
  assert (∀ q i, delete p (x_held x) !! q = Some i → q ≠ p ∧ x_held x !! q = Some i) as Hdel
    by (intros q i; rewrite lookup_delete_Some; naive_solver).
  destruct (rp_buffer pk) as [b|] eqn:Eb.
  - destruct (ri_packets _ _ I p pk Hp) as [?|[i Hi]]; [congruence|].
    destruct (ri_held _ _ I p i Hi) as (Hlt & Ha & h & pk0 & Hh & Hr & Hpk & Hbuf & Hc). simplify_eq.
    exists (<[(i mod n)%nat := set_status (cut h) 0]> ring). split.
    { unfold ring_release_frame. rewrite Eb, Hc. unfold frames_of. rewrite (ri_ring _ _ I). cbn [obind].
      erewrite aget_ok; [|lia|by rewrite Nat2Z.id]. cbn [obind]. rewrite aset_ok, Nat2Z.id; [done|].
      apply lookup_lt_Some in Hr. unfold Zlen. lia. }
    split; cbn [with_stream x_stream x_koff x_packets x_arrived x_got x_held st_set rx_ring rxring_offset req];
      try apply I; try done.
    + rewrite length_insert. apply I.
    + intros j g Hj Hg. rewrite list_lookup_insert_ne; [by apply (ri_unread _ _ I)|]. intros E.
      apply lookup_lt_Some in Hg as Hlt2. assert (i = j); [|lia]. apply (mod_window i j n); [lia|lia|done].
    + intros q j Hq. apply Hdel in Hq as [Hne Hq].
      destruct (ri_held _ _ I q j Hq) as (Hlt' & Ha' & h' & pk' & Hh' & Hr' & Hpk' & Hrest). split; [done|]. split; [done|].
      exists h', pk'. cbn. split_and!; [done| |by rewrite lookup_insert_ne|apply Hrest..].
      rewrite list_lookup_insert_ne; [done|]. intros E. apply Hne. apply (ri_inj _ _ I q p j Hq).
      replace j with i; [done|]. pose proof (ri_le _ _ I).
      destruct (Nat.le_ge_cases i j); [|symmetry]; apply (mod_window _ _ n); try done; lia.
    + intros q1 q2 j H1 H2. apply Hdel in H1 as [_ H1], H2 as [_ H2]. by apply (ri_inj _ _ I q1 q2 j).
    + intros q qk. rewrite lookup_insert_Some. intros [[<- <-]|[Hne Hq]]; [by left|].
      destruct (ri_packets _ _ I q qk Hq) as [?|?]; [by left|right]. by rewrite lookup_delete_ne.
    + intros j g. rewrite list_lookup_insert_Some. intros [(<- & <- & _)|[Hne Hj]]; [by left|].
      destruct (ri_free _ _ I j g Hj) as [?|[?|(q & m & Hq & ?)]]; [by left|by right; left|].
      right. right. exists q, m. split; [|done]. rewrite lookup_delete_ne; [done|]. intros ->. simplify_eq.
  - exists ring. assert (x_held x !! p = None) as Hnone.
    { destruct (x_held x !! p) as [i|] eqn:E; [|done]. destruct (ri_held _ _ I p i E) as (_ & _ & ? & ? & _ & _ & ? & ? & _). simplify_eq. }
    split.
    { unfold ring_release_frame. rewrite Eb. unfold st_set, rp_drop. rewrite <- Eb, <- (ri_ring _ _ I). by destruct (x_stream x), pk. }
    rewrite delete_id by done.
    split; cbn [with_stream x_stream x_koff x_packets x_arrived x_got x_held st_set rx_ring rxring_offset req];
      try apply I; try done.
    + intros q j Hq. destruct (ri_held _ _ I q j Hq) as (Hlt' & Ha' & h' & pk' & Hh' & Hr' & Hpk' & Hrest). split; [done|]. split; [done|].
      exists h', pk'. cbn. rewrite lookup_insert_ne by (intros ->; congruence). done.
    + intros q qk. rewrite lookup_insert_Some. intros [[<- <-]|[Hne Hq]]; [by left|]. by apply (ri_packets _ _ I q).
Qed.

(** *** A frame is read *)

(** With [careful], the frame at hand is ready exactly if a frame has not been read. *)
Lemma ready_unread x ring b :
  rx_inv x ring → careful x → frame_ready (x_stream x) = Ok b → b = true →
  ∃ f, x_arrived x !! length (x_got x) = Some f ∧ ring !! (length (x_got x) mod n)%nat = Some f.
Proof.
  intros I Hc Hb ->. destruct (frame_ready_status x ring true I Hb) as (f & Hf & Ho). pose proof (ri_le _ _ I).
  destruct (ri_free _ _ I _ _ Hf) as [E|[(i & Hi & E)|(p & i & Hp & E)]].
  - by rewrite E in Ho.
  - assert (length (x_got x) = i) as <- by (apply (mod_window _ _ n); [lia|lia|done]).
    destruct (lookup_lt_is_Some_2 (x_arrived x) (length (x_got x))) as [h Hh]; [lia|]. exists h. split; [done|].
    by apply (ri_unread _ _ I).
  - destruct (ri_held _ _ I p i Hp) as (Hlt & _). specialize (Hc p i Hp). rewrite (ri_nr _ _ I) in Hc.
    assert (i = length (x_got x)); [|lia]. apply (mod_window _ _ n); [lia|lia|done].
Qed.

Lemma take_inv x ring p pk f :
  rx_inv x ring → x_packets x !! p = Some pk → rp_buffer pk = None →
  x_arrived x !! length (x_got x) = Some f → ring !! (length (x_got x) mod n)%nat = Some f →
  let i := (length (x_got x) mod n)%nat in
  let ring' := <[i := cut f]> ring in
  let st := st_set (x_stream x) ring' (Z.of_nat ((length (x_got x) + 1) mod n)) in
  let pk' := {| rp_buffer := Some (InRing (Z.of_nat i)); rp_control := TRACE_CTRL_EXTERNAL;
                rp_payload := linuxring_prepare_packet (cut f) |} in
  (∃ ret, read_take snaplen (x_stream x) pk = Ok (st, pk', ret)) ∧
  rx_inv {| x_stream := st; x_koff := x_koff x; x_reading := None; x_packets := <[p := pk']> (x_packets x);
            x_arrived := x_arrived x; x_got := x_got x ++ [cut f]; x_held := <[p := length (x_got x)]> (x_held x) |} ring'.
Proof.
  intros I Hp Hbuf Ha Hr i ring' st pk'. pose proof (ri_pos _ _ I). pose proof (ri_le _ _ I) as Hle.
  pose proof (lookup_lt_Some _ _ _ Ha) as Hlt. pose proof (lookup_lt_Some _ _ _ Hr) as Hi.
  split.
  { eexists. unfold read_take, frames_of. rewrite (ri_ring _ _ I), (ri_off _ _ I). cbn [obind].
    erewrite aget_ok; [|lia|by rewrite Nat2Z.id]. cbn [obind]. rewrite aset_ok by (unfold Zlen; lia). cbn [obind].
    rewrite (ri_nr _ _ I), umod_ok by lia. cbn [obind]. rewrite Nat2Z.id. unfold st, ring', pk', i. do 4 f_equal.
    change 1 with (Z.of_nat 1). rewrite <- Nat2Z.inj_add, <- Nat2Z.inj_mod. by rewrite Nat.Div0.add_mod_idemp_l. }
  assert (x_held x !! p = None) as Hnone.
  { destruct (x_held x !! p) as [m|] eqn:E; [|done]. destruct (ri_held _ _ I p m E) as (_ & _ & ? & ? & _ & _ & ? & ? & _). simplify_eq. }
  split; cbn [x_stream x_koff x_packets x_arrived x_got x_held st_set rx_ring rxring_offset req st].
  - done.
  - unfold ring'. rewrite length_insert. apply I.
  - done.
  - apply I.
  - by rewrite length_app.
  - apply I.
  - rewrite length_app. cbn. lia.
  - rewrite length_app. cbn. rewrite Nat.add_1_r, (take_S_r _ _ _ Ha), map_app, <- (ri_got _ _ I). done.
  - apply I.
  - intros j h. rewrite length_app. cbn. intros Hj Hh. unfold ring'. rewrite list_lookup_insert_ne; [apply (ri_unread _ _ I); [lia|done]|].
    intros E. apply lookup_lt_Some in Hh as Hlt2. assert (length (x_got x) = j); [|lia]. apply (mod_window _ _ n); [lia|lia|done].
  - intros q j. rewrite lookup_insert_Some. intros [[<- <-]|[Hne Hq]].
    + split; [cbn; rewrite length_app; cbn; lia|]. split; [cbn; lia|]. exists f, pk'. cbn. unfold ring'.
      rewrite list_lookup_insert_eq, lookup_insert_eq by done. done.
    + destruct (ri_held _ _ I q j Hq) as (Hlt' & Ha' & h' & qk & Hh' & Hr' & Hpk' & Hrest).
      split; [cbn; rewrite length_app; cbn; lia|]. split; [done|]. exists h', qk. cbn. unfold ring'.
      rewrite lookup_insert_ne, list_lookup_insert_ne; [done| |done].
      intros E. assert (j = length (x_got x)); [|lia]. apply (mod_window _ _ n); [lia|lia|done].
  - intros q1 q2 j. rewrite !lookup_insert_Some. intros [[<- <-]|[? H1]] [[<- E]|[? H2]]; try done.
    + destruct (ri_held _ _ I _ _ H2) as (? & _). lia.
    + destruct (ri_held _ _ I _ _ H1) as (? & _). lia.
    + by apply (ri_inj _ _ I q1 q2 j).
  - intros q qk. rewrite !lookup_insert_Some. intros [[<- <-]|[Hne Hq]]; [right; rewrite lookup_insert_eq; by eexists|].
    rewrite lookup_insert_ne by done. by apply (ri_packets _ _ I).
  - intros j h. rewrite length_app. cbn. unfold ring'. rewrite list_lookup_insert_Some. intros [(<- & _ & _)|[Hne Hj]].
    + right. right. exists p, (length (x_got x)). by rewrite lookup_insert_eq.
    + destruct (ri_free _ _ I j h Hj) as [?|[(m & Hm & E)|(q & m & Hq & ?)]]; [by left| |].
      * right. left. exists m. split; [|done]. destruct (decide (m = length (x_got x))) as [->|]; [done|lia].
      * right. right. exists q, m. rewrite lookup_insert_ne; [done|]. intros ->. congruence.
Qed.

(** The packet that is being read into holds nothing. *)
Definition reading_empty x : Prop :=
  ∀ p, x_reading x = Some p → ∃ pk, x_packets x !! p = Some pk ∧ rp_buffer pk = None.

Lemma reading_insert x p pk packets st held reading :
  reading_empty x → (reading = x_reading x ∨ reading = None) → x_reading x ≠ Some p → packets = <[p := pk]> (x_packets x) →
  reading_empty (with_stream x st reading packets held).
Proof.
  intros He Hr Hne -> q Hq. cbn in Hq. destruct Hr as [->| ->]; [|done]. destruct (He q Hq) as (qk & Hqk & Hb).
  exists qk. cbn. split; [|done]. rewrite lookup_insert_ne; [done|]. by intros ->.
Qed.

Lemma rx_run_inv x0 ring0 x :
  rx_inv x0 ring0 → reading_empty x0 → rx_run pagesize snaplen queue x0 x → ∃ ring, rx_inv x ring ∧ reading_empty x.
Proof.
  intros I0 E0. induction 1 as [|x x' Hrun [ring [I He]] Hstep Hc]; [by exists ring0|].
  inversion Hstep as [ring1 g f Hring Hg Hst Ho|p pk st pk' Hr Hp Hb|p halt sockerr r next Hr Hf Hn
    |p pk st pk' ret ring1 f Hr Hp Hrdy Ht Hring Hf|p pk st pk' Hr Hp Hb]; subst x'.
  - rewrite (ri_ring _ _ I) in Hring. injection Hring as <-. eexists. split; [by eapply fill_inv|done].
  - unfold read_begin in Hb.
    destruct (release_inv x ring p pk (Some p) TRACE_CTRL_EXTERNAL (rp_payload pk) I Hp) as (ring' & E & I').
    rewrite E in Hb. cbn [obind] in Hb. obind_inv Hb. injection Hb as <- <-. exists ring'. split; [done|].
    intros q [= <-]. eexists. cbn. by rewrite lookup_insert_eq.
  - exists ring. split; [by destruct I|]. intros q Hq. cbn in Hq. destruct next; [|done]. by apply He.
  - assert (careful x) as Hcare.
    { apply Hc. cbn. intros E. apply (f_equal length) in E. rewrite length_app in E. cbn in E. lia. }
    destruct (ready_unread x ring true I Hcare Hrdy eq_refl) as (h & Ha & Hh).
    destruct (He p Hr) as (pk1 & Hp1 & Hb1). simplify_eq.
    destruct (take_inv x ring p pk h I Hp Hb1 Ha Hh) as ((ret' & Et) & I'). rewrite Et in Ht. injection Ht as <- <- _.
    cbn in Hring. injection Hring as <-. rewrite (ri_off _ _ I), Nat2Z.id, list_lookup_insert_eq in Hf by (by apply lookup_lt_Some in Hh).
    injection Hf as <-. eexists. split; [exact I'|]. by intros q.
  - destruct (release_inv x ring p pk (x_reading x) (rp_control pk) (rp_payload pk) I Hp) as (ring' & E & I').
    assert (linuxring_fin_packet true (x_stream x) pk = Ok (st_set (x_stream x) ring' (rxring_offset (x_stream x)), rp_drop pk)
            ∨ rp_control pk = TRACE_CTRL_PACKET ∧ is_Some (rp_buffer pk)) as [E'|[Ec [b Hbuf]]].
    { unfold linuxring_fin_packet. rewrite (ri_ring _ _ I), E. destruct (rp_buffer pk) eqn:Ebuf, (rp_control pk) eqn:Ec; cbn [oassert Bool.eqb obind].
      - right. by split; [|eexists].
      - by left.
      - left. unfold ring_release_frame in E. by rewrite Ebuf in E.
      - left. unfold ring_release_frame in E. by rewrite Ebuf in E. }
    + rewrite E' in Hb. injection Hb as <- <-. exists ring'. split; [done|]. by eapply reading_insert; [|left| |].
    + destruct (ri_packets _ _ I p pk Hp) as [?|[i Hi]]; [congruence|].
      destruct (ri_held _ _ I p i Hi) as (_ & _ & ? & ? & _ & _ & ? & _ & ?). simplify_eq. congruence.
Qed.
End invariant.

(** A new ring: every frame is the kernel's. *)
Definition fresh_ring (r : tpacket_req) (ring : list tpacket2_frame) : Prop :=
  0 < tp_frame_nr r ∧ Zlen ring = tp_frame_nr r ∧ Forall (λ f, tp_status f = 0) ring.

Lemma rx_start_inv snaplen r ring packets :
  fresh_ring r ring → rx_inv snaplen (length ring) (rx_start r ring packets) ring ∧ reading_empty (rx_start r ring packets).
Proof.
  intros (Hpos & Hlen & Hfree). unfold Zlen in Hlen. split; [|done].
  split; cbn; try done; try lia.
  - by rewrite Nat.Div0.mod_0_l.
  - by rewrite Nat.Div0.mod_0_l.
  - intros p pk. rewrite lookup_gset_to_gmap_Some. intros [_ <-]. by left.
  - intros j f Hj. left. by apply (proj1 (Forall_lookup _ _) Hfree j).
Qed.

(** ** Theorems *)

(** C34: However the kernel, the reader and the program that finishes packets are
    interleaved, as long as no packet is held while as many others are read as the ring
    has frames: the packets that were read are those that arrived, in order, none twice
    and none left out, cut to the snap length; every packet that is held still has the
    bytes that were read, because the kernel does not fill its frame; and the reader
    finds a frame ready exactly if one has not been read. *)
Theorem ring_delivers_in_order pagesize snaplen queue r ring0 packets x :
  fresh_ring r ring0 → rx_run pagesize snaplen queue (rx_start r ring0 packets) x →
  ∃ ring, rx_ring (x_stream x) = Some ring ∧
    x_got x = map (cut snaplen) (take (length (x_got x)) (x_arrived x)) ∧
    (length (x_got x) ≤ length (x_arrived x))%nat ∧
    (∀ p i, x_held x !! p = Some i →
       ∃ j f pk, x_packets x !! p = Some pk ∧ rp_buffer pk = Some (InRing (Z.of_nat j)) ∧
         ring !! j = Some f ∧ x_got x !! i = Some f) ∧
    (careful x → ∀ b, frame_ready (x_stream x) = Ok b → b = bool_decide (length (x_got x) < length (x_arrived x))%nat).
Proof.
  intros Hf Hrun. destruct (rx_start_inv snaplen r ring0 packets Hf) as [I0 E0].
  destruct (rx_run_inv _ _ _ _ _ _ x I0 E0 Hrun) as (ring & I & _). exists ring.
  split; [apply I|]. split; [apply I|]. split; [apply I|]. split.
  - intros p i Hp. destruct (ri_held _ _ _ _ I p i Hp) as (Hi & _ & f & pk & Ha & Hr & Hpk & Hb & _).
    exists (i mod length ring0)%nat, (cut snaplen f), pk. split_and!; try done.
    rewrite (ri_got _ _ _ _ I), list_lookup_fmap, lookup_take_lt, Ha by done. done.
  - intros Hc b Hb. case_bool_decide as Hlt.
    + destruct (frame_ready_status _ _ _ _ _ I Hb) as (f & Hr & ->).
      destruct (lookup_lt_is_Some_2 _ _ Hlt) as [h Hh]. pose proof (ri_unread _ _ _ _ I _ _ (le_n _) Hh) as Hr'.
      rewrite Hr in Hr'. injection Hr' as ->. by apply (ri_odd _ _ _ _ I _ _ Hh).
    + destruct b; [|done]. destruct (ready_unread _ _ _ _ true I Hc Hb eq_refl) as (f & Ha & _).
      apply lookup_lt_Some in Ha. lia.
Qed.

(** If everything that arrived has been read, and a packet is still held after as many
    reads as the ring has frames, its frame is taken for a new packet: the next read
    does not wait, and returns the same frame again, which two packets then share. *)
Theorem held_packet_read_again pagesize snaplen queue r ring0 packets x p i pk :
  fresh_ring r ring0 → rx_run pagesize snaplen queue (rx_start r ring0 packets) x →
  x_held x !! p = Some i → length (x_got x) = length (x_arrived x) →
  Z.of_nat (length (x_got x)) = Z.of_nat i + tp_frame_nr r → req (x_stream x) = r →
  frame_ready (x_stream x) = Ok true ∧
  ∃ st qk ret ring j f, read_take snaplen (x_stream x) pk = Ok (st, qk, ret) ∧
    rp_buffer qk = Some (InRing j) ∧ (rp_buffer <$> x_packets x !! p) = Some (Some (InRing j)) ∧
    rx_ring st = Some ring ∧ ring !! Z.to_nat j = Some f ∧ x_got x !! i = Some f.
Proof.
  intros Hf Hrun Hp Heq Hi Hreq. destruct (rx_start_inv snaplen r ring0 packets Hf) as [I0 E0].
  destruct (rx_run_inv _ _ _ _ _ _ x I0 E0 Hrun) as (ring & I & _).
  destruct (ri_held _ _ _ _ I p i Hp) as (Hlt & _ & f & pk0 & Ha & Hr & Hpk & Hb & _).
  pose proof (ri_nr _ _ _ _ I) as Hnr. rewrite Hreq in Hnr. pose proof (ri_pos _ _ _ _ I) as Hpos.
  set (n := length ring0) in *.
  assert (length (x_got x) mod n = i mod n)%nat as Em.
  { replace (length (x_got x)) with (i + 1 * n)%nat by lia. apply Nat.Div0.mod_add. }
  pose proof (ri_off _ _ _ _ I) as Hoff. rewrite Em in Hoff. pose proof (ri_odd _ _ _ _ I _ _ Ha) as Hodd.
  assert (aget ring (rxring_offset (x_stream x)) = Ok (cut snaplen f)) as Hget
    by (apply aget_ok; rewrite Hoff; [lia|by rewrite Nat2Z.id]).
  split.
  - unfold frame_ready, frames_of. rewrite (ri_ring _ _ _ _ I). cbn [obind]. rewrite Hget. cbn [obind cut set_snaplen tp_status].
    change TP_STATUS_USER with (Z.ones 1). rewrite Z.land_ones by done. change (2 ^ 1) with 2. by rewrite Zmod_odd, Hodd.
  - unfold read_take, frames_of. rewrite (ri_ring _ _ _ _ I). cbn [obind]. rewrite Hget. cbn [obind].
    rewrite aset_ok by (rewrite Hoff; apply lookup_lt_Some in Hr; unfold Zlen; lia). cbn [obind].
    rewrite Hreq, Hnr, umod_ok by lia. cbn [obind]. do 6 eexists. split; [done|]. cbn. split; [done|].
    split; [by rewrite Hpk, Hoff; cbn; rewrite Hb|]. split; [done|].
    rewrite Hoff, Nat2Z.id, list_lookup_insert_eq by (by apply lookup_lt_Some in Hr). split; [done|].
    rewrite (ri_got _ _ _ _ I), list_lookup_fmap, lookup_take_lt, Ha by done. done.
Qed.

(** ** Running the system *)
Inductive rx_action := AFill (f : tpacket2_frame) | ACall (p : loc) | ATake | AFin (p : loc).

Definition ok_some {A} (c : outcome A) : option A := match c with Ok a => Some a | Fault _ => None end.

Definition rx_exec (pagesize snaplen : Z) (x : rx) (a : rx_action) : option rx :=
  match a with
  | AFill f =>
      ring ← rx_ring (x_stream x); g ← ring !! x_koff x;
      if (tp_status g =? 0) && Z.odd (tp_status f) then
        Some {| x_stream := st_set (x_stream x) (<[x_koff x := f]> ring) (rxring_offset (x_stream x));
                x_koff := (x_koff x + 1) mod (length ring); x_reading := x_reading x; x_packets := x_packets x;
                x_arrived := x_arrived x ++ [f]; x_got := x_got x; x_held := x_held x |}
      else None
  | ACall p =>
      match x_reading x with
      | Some _ => None
      | None =>
          pk ← x_packets x !! p; '(st, pk') ← ok_some (read_begin pagesize (x_stream x) pk);
          Some (with_stream x st (Some p) (<[p := pk']> (x_packets x)) (delete p (x_held x)))
      end
  | ATake =>
      p ← x_reading x; pk ← x_packets x !! p; ready ← ok_some (frame_ready (x_stream x));
      if ready : bool then
        '(st, pk', ret) ← ok_some (read_take snaplen (x_stream x) pk); ring ← rx_ring st;
        f ← ring !! Z.to_nat (rxring_offset (x_stream x));
        Some {| x_stream := st; x_koff := x_koff x; x_reading := None; x_packets := <[p := pk']> (x_packets x);
                x_arrived := x_arrived x; x_got := x_got x ++ [f]; x_held := <[p := length (x_got x)]> (x_held x) |}
      else None
  | AFin p =>
      pk ← x_packets x !! p; '(st, pk') ← ok_some (linuxring_fin_packet true (x_stream x) pk);
      if bool_decide (x_reading x = Some p) then None
      else Some (with_stream x st (x_reading x) (<[p := pk']> (x_packets x)) (delete p (x_held x)))
  end.

Lemma rx_exec_step pagesize snaplen queue x a x' :
  rx_exec pagesize snaplen x a = Some x' → rx_step pagesize snaplen queue x x'.
Proof.
  destruct a as [f|p| |p]; cbn [rx_exec]; intros H.
  - apply bind_Some in H as (ring & Er & H). apply bind_Some in H as (g & Eg & H).
    destruct (Z.eqb_spec (tp_status g) 0); [|done]. cbn [andb] in H. destruct (Z.odd (tp_status f)) eqn:Eo; [|done].
    injection H as <-. by eapply rx_fill.
  - destruct (x_reading x) eqn:Er; [done|]. apply bind_Some in H as (pk & Ep & H). apply bind_Some in H as ([st pk'] & Eb & H).
    injection H as <-. eapply rx_call; [done..|]. destruct (read_begin _ _ _); [by injection Eb as ->|done].
  - apply bind_Some in H as (p & Er & H). apply bind_Some in H as (pk & Ep & H). apply bind_Some in H as (b & Eb & H).
    destruct b; [|done]. apply bind_Some in H as ([[st pk'] ret] & Et & H). apply bind_Some in H as (ring & Ering & H).
    apply bind_Some in H as (f & Ef & H). injection H as <-. eapply rx_take; try done.
    + destruct (frame_ready _); [by injection Eb as ->|done].
    + destruct (read_take _ _ _); [by injection Et as ->|done].
  - apply bind_Some in H as (pk & Ep & H). apply bind_Some in H as ([st pk'] & Eb & H).
    case_bool_decide; [done|]. injection H as <-. eapply rx_fin; [done..|].
    destruct (linuxring_fin_packet _ _ _); [by injection Eb as ->|done].
Qed.

(** Executes actions, if every read is careful. *)
Definition careful_b (x : rx) : bool :=
  forallb (λ pn, Z.of_nat (length (x_got x)) <? Z.of_nat pn.2 + tp_frame_nr (req (x_stream x))) (map_to_list (x_held x)).

Lemma careful_b_true x : careful_b x = true → careful x.
Proof.
  unfold careful_b. intros H p i Hp. rewrite forallb_forall in H.
  specialize (H (p, i)). apply Z.ltb_lt, H. apply list_elem_of_In, elem_of_map_to_list. done.
Qed.

Fixpoint rx_exec_all (pagesize snaplen : Z) (x : rx) (acts : list rx_action) : option rx :=
  match acts with
  | [] => Some x
  | a :: acts => if careful_b x then x' ← rx_exec pagesize snaplen x a; rx_exec_all pagesize snaplen x' acts else None
  end.

Lemma rx_exec_run pagesize snaplen queue x0 acts : ∀ x x',
  rx_run pagesize snaplen queue x0 x → rx_exec_all pagesize snaplen x acts = Some x' → rx_run pagesize snaplen queue x0 x'.
Proof.
  induction acts as [|a acts IH]; intros x x' Hrun H; cbn [rx_exec_all] in H; [by injection H as <-|].
  destruct (careful_b x) eqn:Ec; [|done]. apply bind_Some in H as (x1 & E & H). apply (IH x1); [|done].
  eapply run_step; [done|by eapply rx_exec_step|]. intros _. by apply careful_b_true.
Qed.

Definition sample_frame (status : Z) (data : list Z) : tpacket2_frame :=
  {| tp_status := status; tp_len := Zlen data; tp_snaplen := Zlen data; tp_mac := 66; tp_net := 80; tp_sec := 0; tp_nsec := 0;
     tp_sll := {| sll_ifindex := 1; sll_hatype := 1; sll_pkttype := 0; sll_halen := 6; sll_addr := [] |}; tp_data := data |}.

Definition sample_req : tpacket_req := {| tp_block_size := 8192; tp_block_nr := 1; tp_frame_size := 4096; tp_frame_nr := 2 |}.
Definition sample_ring : list tpacket2_frame := [sample_frame 0 []; sample_frame 0 []].
Definition sample_start : rx := rx_start sample_req sample_ring {[1; 2]}%positive.

(** Two packets arrive, and both are read and held. *)
Definition sample_actions : list rx_action :=
  [AFill (sample_frame 1 [10; 11]); ACall 1%positive; ATake; AFill (sample_frame 1 [20]); ACall 2%positive; ATake].
Definition sample_state : rx := default sample_start (rx_exec_all 4096 65536 sample_start sample_actions).

Lemma sample_fresh : fresh_ring sample_req sample_ring.
Proof. split_and!; [done|done|by repeat constructor]. Qed.
Lemma sample_ring_run : rx_run 4096 65536 false sample_start sample_state.
Proof. apply (rx_exec_run 4096 65536 false sample_start sample_actions sample_start); [constructor|vm_compute; reflexivity]. Qed.

Lemma ring_delivers_in_order_witness :
  ∃ ring, rx_ring (x_stream sample_state) = Some ring ∧
    x_got sample_state = map (cut 65536) (take 2 [sample_frame 1 [10; 11]; sample_frame 1 [20]]) ∧
    ∃ j f pk, x_packets sample_state !! 1%positive = Some pk ∧ rp_buffer pk = Some (InRing (Z.of_nat j)) ∧
         ring !! j = Some f ∧ x_got sample_state !! 0%nat = Some f.
Proof.
  destruct (ring_delivers_in_order 4096 65536 false sample_req sample_ring {[1; 2]}%positive sample_state sample_fresh sample_ring_run)
    as (ring & H1 & H2 & _ & H3 & _).
  exists ring. split; [exact H1|]. split; [exact H2|]. apply (H3 1%positive 0%nat). vm_compute. reflexivity.
Defined.

Lemma held_packet_read_again_witness :
  frame_ready (x_stream sample_state) = Ok true ∧ x_held sample_state !! 1%positive = Some 0%nat.
Proof.
  split; [|vm_compute; reflexivity].
  apply (held_packet_read_again 4096 65536 false sample_req sample_ring {[1; 2]}%positive sample_state 1%positive 0%nat
    {| rp_buffer := None; rp_control := TRACE_CTRL_PACKET; rp_payload := 0 |} sample_fresh sample_ring_run);
    vm_compute; reflexivity.
Defined.

(** From then on the reader is one frame ahead of the kernel: the packets that arrive
    next, in the first frame and then in the second, are read in the wrong order. *)
Definition late_actions : list rx_action :=
  [ACall 2%positive; ATake; AFin 1%positive; AFin 2%positive; AFill (sample_frame 1 [30]); AFill (sample_frame 1 [40]);
   ACall 1%positive; ATake; ACall 2%positive; ATake].
Example packets_out_of_order :
  (λ x, map tp_data (x_got x)) <$> foldl (λ x a, x ← x; rx_exec 4096 65536 x a) (Some sample_state) late_actions
  = Some [[10; 11]; [20]; [10; 11]; [40]; [30]].
Proof. vm_compute. reflexivity. Qed.

(** C35: Setting up a ring always ends, for every answer of the kernel and every order up
    to 11, with pages of 4 to 64 KiB.  If the kernel grants a ring, it had no memory for
    those of all larger orders, and the ring has 256 frames that fill its blocks
    exactly and begin at page boundaries; a frame has at least the size of the MTU and
    the aligned header of 64 bytes, or 64 KiB if that is less.  An assertion fails
    only if the kernel had no memory until the blocks of the next order are smaller
    than a frame; no memory at all is an error, and so is any other refusal. *)
Theorem ring_sizes k mtu version map alloc order :
  12 ≤ k ≤ 16 → match mtu with Some mtu => 0 ≤ mtu < 2 ^ 31 | None => True end → 0 ≤ order ≤ MAX_ORDER →
  let wanted := match mtu with Some mtu => Z.min LIBTRACE_PACKET_BUFSIZE (mtu + 64) | None => LIBTRACE_PACKET_BUFSIZE end in
  match socket_to_packetmmap version map alloc (2 ^ k) mtu order with
  | Ok (order', inl req) =>
      version = true ∧ map = true ∧ 0 < order' ≤ order ∧ refused alloc k mtu order' order ∧ alloc req = RingOk ∧
      tp_frame_nr req = CONF_RING_FRAMES ∧ wanted ≤ tp_frame_size req ≤ LIBTRACE_PACKET_BUFSIZE ∧
      tp_block_nr req * tp_block_size req = tp_frame_nr req * tp_frame_size req ∧
      tp_frame_size req `mod` 2 ^ k = 0 ∧ tp_block_size req `mod` tp_frame_size req = 0
  | Ok (order', inr NotEnoughMemory) => version = true ∧ order' = 0 ∧ refused alloc k mtu 0 order
  | Ok (order', inr SizeError) =>
      version = true ∧ refused alloc k mtu order' order ∧
      ∃ req, calculate_buffers 33 (2 ^ k) mtu order' = Ok req ∧ alloc req = RingError
  | Ok (order', inr MapFailed) => version = true ∧ map = false
  | Ok (order', inr NoTpacket2) => version = false
  | Fault f => f = AssertFailed ∧ version = true ∧ ∃ o, 0 < o ≤ order ∧ refused alloc k mtu o order ∧ 2 ^ (k + o) < wanted
  end.
Proof.
  intros Hk Hm Ho wanted. assert (wanted = wanted_frame mtu) as -> by (unfold wanted, wanted_frame; by destruct mtu).
  unfold socket_to_packetmmap. destruct version; cbn [negb]; [|done].
  pose proof (ring_loop_ends alloc k mtu (S (Z.to_nat order)) order Hk Hm Ho ltac:(lia)) as H.
  destruct (ring_loop _ _ _ _ _) as [[order' [req|err]]|f]; cbn [obind].
  - destruct map; [|done]. destruct H as (H1 & H2 & H3 & H4). unfold good_ring in H4. tauto.
  - destruct H as (_ & Hr & [[-> ->]|[-> (req & Hc & Ha)]]); [done|]. split_and!; [done|done|]. by exists req.
  - destruct H as [-> H]. done.
Qed.

(** An Ethernet interface, and a kernel that refuses blocks of more than 64 pages. *)
Lemma ring_sizes_witness :
  ∃ req, socket_to_packetmmap true true (λ r, if 2 ^ 18 <? tp_block_size r then RingNoMem else RingOk) (2 ^ 12) (Some 1500) 11
    = Ok (6, inl req) ∧ tp_frame_nr req = 256 ∧ tp_frame_size req `mod` 2 ^ 12 = 0.
Proof.
  pose proof (ring_sizes 12 (Some 1500) true true (λ r, if 2 ^ 18 <? tp_block_size r then RingNoMem else RingOk) 11
    ltac:(lia) ltac:(simpl; lia) ltac:(lia)) as H.
  eexists. split; [vm_compute; reflexivity|].
  set (c := socket_to_packetmmap _ _ _ _ _ _) in H. vm_compute in c. unfold c in H. tauto.
Defined.

(** The MTU does not count the header of the link layer: with an MTU of 4032 a frame has
    4096 bytes, and the header of the frame, an Ethernet header and a full packet need 4110. *)
Example link_header_not_counted :
  (let! req := calculate_buffers 33 4096 (Some 4032) MAX_ORDER in Ok (tp_frame_size req)) = Ok 4096.
Proof. vm_compute. reflexivity. Qed.

(** Frames of 64 KiB (the loopback interface) and a kernel that has no memory: the
    assertion on the number of frames fails. *)
Example no_memory_aborts :
  socket_to_packetmmap true true (λ _, RingNoMem) 4096 (Some 65536) 11 = Fault AssertFailed.
Proof. vm_compute. reflexivity. Qed.

(** The capture length of a packet is computed from its length on the wire alone: one
    that the kernel had to cut is said to have more bytes than the frame has. *)
Lemma cut_ignores_capture snaplen f :
  LIBTRACE_PACKET_BUFSIZE - sizeof_tpacket2_hdr ≤ snaplen → 0 ≤ tp_len f ≤ LIBTRACE_PACKET_BUFSIZE - sizeof_tpacket2_hdr →
  linuxring_get_capture_length (cut snaplen f) = tp_len f.
Proof.
  intros Hs Hl. unfold linuxring_get_capture_length, cut. cbn [set_snaplen tp_snaplen].
  rewrite (Z.min_l _ snaplen), u32_small, Z.min_r, i32_small by lia. done.
Qed.

(** A packet of the ring that is finished after the trace was paused fails an
    assertion, although the code behind it handles that case. *)
Lemma fin_after_pause st pk b :
  rp_buffer pk = Some b → rp_control pk = TRACE_CTRL_EXTERNAL → linuxring_fin_packet false st pk = Fault AssertFailed.
Proof. intros Eb Ec. unfold linuxring_fin_packet. by rewrite Eb, Ec. Qed.

(** ** Setting the direction and getting it back *)
Lemma linuxring_direction_roundtrip f dir :
  dir = TRACE_DIR_OUTGOING ∨ dir = TRACE_DIR_INCOMING ∨ dir = TRACE_DIR_OTHER →
  let '(f', ret) := linuxring_set_direction f dir in ret = dir ∧ linuxring_get_direction f' = dir.
Proof. by intros [->|[->| ->]]. Qed.

(** ** Writing to a ring *)

(** The frame of a ring for sending: its status, the length of its packet and the memory
    behind the header, from the offset [TPACKET2_HDRLEN - sizeof(struct sockaddr_ll)] on. *)
Record tx_frame := { tx_status : Z; tx_len : Z; tx_mem : list Z }.

Record linux_format_data_out_t := {
  tx_ring : list tx_frame;
  txring_offset : Z;
  tx_req : tpacket_req;
  tx_queue : Z;
}.

(** What a wait for a free frame brings: the result of [poll] with the error number, and
    of [sendto] if it timed out; and the ring afterwards. *)
Record tx_wait := { tw_poll : Z; tw_errno : Z; tw_sendto : Z; tw_ring : list tx_frame }.

Definition out_set (d : linux_format_data_out_t) (ring : list tx_frame) (offset queue : Z) : linux_format_data_out_t :=
  {| tx_ring := ring; txring_offset := offset; tx_req := tx_req d; tx_queue := queue |}.

(** [while (header->tp_status != TP_STATUS_AVAILABLE)]: [None] to go on, or the error and
    the return value.  The test of the result is not part of the test for a timeout. *)
Fixpoint tx_loop (waits : list tx_wait) (d : linux_format_data_out_t)
  : outcome (linux_format_data_out_t * option (option Z * Z)) :=
  let! f := aget (tx_ring d) (txring_offset d) in
  if tx_status f =? TP_STATUS_AVAILABLE then Ok (d, None)
  else
    match waits with
    | [] => Fault Blocked
    | w :: waits =>
        let d := out_set d (tw_ring w) (txring_offset d) (tx_queue d) in
        if (tw_poll w <? 0) && negb (tw_errno w =? 4) then Ok (d, Some (None, -1))
        else
          let ret := if tw_poll w =? 0 then tw_sendto w else tw_poll w in
          if ret <? 0 then let! err := trace_set_err_out (tw_errno w) in Ok (d, Some (Some err, -1))
          else tx_loop waits d
    end.

(** [memcpy] to the memory of a frame. *)
Definition store_front (mem bytes : list Z) : outcome (list Z) :=
  if Zlen bytes <=? Zlen mem then Ok (bytes ++ drop (length bytes) mem) else Fault OutOfBounds.

(** [cap]: the capture length of the packet; [payload]: its bytes.  [sendto]: what the
    call returns that tells the kernel of the frames, and its error number. *)
Definition linuxring_write_packet (waits : list tx_wait) (sendto : Z * Z) (d : linux_format_data_out_t)
    (linktype : libtrace_linktype_t) (cap : Z) (payload : list Z) : outcome (linux_format_data_out_t * option Z * Z) :=
  if bool_decide (linktype = TRACE_TYPE_NONDATA) then Ok (d, None, 0)
  else
    let max_size := u32 (tp_frame_size (tx_req d) - TPACKET2_HDRLEN + sizeof_sockaddr_ll) in
    let! ' (d, failed) := tx_loop waits d in
    match failed with
    | Some (err, ret) => Ok (d, err, ret)
    | None =>
        let! f := aget (tx_ring d) (txring_offset d) in
        let len := u32 cap in
        let len := if max_size <? len then max_size else len in
        let! bytes := slice payload 0 len in
        let! mem := store_front (tx_mem f) bytes in
        let! ring := aset (tx_ring d) (txring_offset d) {| tx_status := TP_STATUS_SEND_REQUEST; tx_len := len; tx_mem := mem |} in
        let! offset := umod (txring_offset d + 1) (tp_frame_nr (tx_req d)) in
        let queue := Z.rem (tx_queue d + 1) TX_MAX_QUEUE in
        let d := out_set d ring offset queue in
        if (queue =? 0) && (sendto.1 <? 0) then
          let! err := trace_set_err_out sendto.2 in Ok (d, Some err, -1)
        else Ok (d, None, i32 len)
    end.

(** A wait that a signal ends is an error, although the error number was tested for it. *)
Lemma interrupted_wait_fails d w waits f :
  aget (tx_ring d) (txring_offset d) = Ok f → tx_status f ≠ TP_STATUS_AVAILABLE → tw_poll w = -1 → tw_errno w = 4 →
  tx_loop (w :: waits) d = Ok (out_set d (tw_ring w) (txring_offset d) (tx_queue d), Some (Some 4, -1)).
Proof.
  intros Hf Hs Hp He. cbn [tx_loop]. rewrite Hf. cbn [obind]. rewrite (proj2 (Z.eqb_neq _ _) Hs), Hp, He. done.
Qed.

(** A ring for sending: its frames have the size that was asked for. *)
Definition tx_ok (d : linux_format_data_out_t) : Prop :=
  Zlen (tx_ring d) = tp_frame_nr (tx_req d) ∧ 0 ≤ txring_offset d < tp_frame_nr (tx_req d) ∧
  64 ≤ tp_frame_size (tx_req d) < 2 ^ 31 ∧ 0 ≤ tx_queue d < TX_MAX_QUEUE ∧
  Forall (λ f, Zlen (tx_mem f) = tp_frame_size (tx_req d) - 32) (tx_ring d).

(** A packet goes into the next free frame, cut to its size, without touching any other,
    and the ring moves on; the kernel is told of every tenth. *)
Theorem ring_write_stores sendto d linktype cap payload f :
  tx_ok d → tx_ring d !! Z.to_nat (txring_offset d) = Some f → tx_status f = TP_STATUS_AVAILABLE →
  linktype ≠ TRACE_TYPE_NONDATA → 0 ≤ cap < 2 ^ 31 → cap ≤ Zlen payload → 0 ≤ sendto.1 →
  let len := Z.min cap (tp_frame_size (tx_req d) - 32) in
  ∃ d', linuxring_write_packet [] sendto d linktype cap payload = Ok (d', None, len) ∧ tx_ok d' ∧
    (∀ j, j ≠ Z.to_nat (txring_offset d) → tx_ring d' !! j = tx_ring d !! j) ∧
    (∃ f', tx_ring d' !! Z.to_nat (txring_offset d) = Some f' ∧ tx_status f' = TP_STATUS_SEND_REQUEST ∧ tx_len f' = len ∧
       take (Z.to_nat len) (tx_mem f') = take (Z.to_nat len) payload) ∧
    txring_offset d' = (txring_offset d + 1) `mod` tp_frame_nr (tx_req d) ∧
    tx_queue d' = if tx_queue d =? 9 then 0 else tx_queue d + 1.
Proof.
  intros (Hlen & Hoff & Hsize & Hq & Hmem) Hf Hs Hl Hcap Hpay Hsend len. unfold linuxring_write_packet.
  rewrite bool_decide_eq_false_2 by done.
  assert (tx_loop [] d = Ok (d, None)) as ->.
  { cbn [tx_loop]. rewrite (aget_ok _ _ f) by (done || lia). cbn [obind]. by rewrite Hs. }
  cbn [obind]. rewrite (aget_ok _ _ f) by (done || lia). cbn [obind].
  change (tp_frame_size (tx_req d) - TPACKET2_HDRLEN + sizeof_sockaddr_ll) with (tp_frame_size (tx_req d) - 52 + 20).
  rewrite !u32_small by lia. replace (tp_frame_size (tx_req d) - 52 + 20) with (tp_frame_size (tx_req d) - 32) by lia.
  assert ((if tp_frame_size (tx_req d) - 32 <? cap then tp_frame_size (tx_req d) - 32 else cap) = len) as ->
    by (unfold len; destruct (Z.ltb_spec (tp_frame_size (tx_req d) - 32) cap); lia).
  assert (0 ≤ len ≤ Zlen payload) as Hlen2 by (unfold len; lia).
  unfold slice. rewrite (proj2 (Z.leb_le (0 + len) _)) by lia. cbn [andb Z.leb Z.compare obind Z.to_nat]. rewrite drop_0.
  assert (Zlen (tx_mem f) = tp_frame_size (tx_req d) - 32) as Hm by apply (proj1 (Forall_lookup _ _) Hmem _ _ Hf).
  assert (length (take (Z.to_nat len) payload) = Z.to_nat len) as Ht by (rewrite length_take; unfold Zlen in *; lia).
  unfold store_front. rewrite (proj2 (Z.leb_le (Zlen (take _ _)) _)) by (unfold Zlen in *; lia). cbn [obind].
  rewrite aset_ok by lia. cbn [obind]. rewrite umod_ok by lia. cbn [obind].
  rewrite (proj2 (Z.ltb_ge _ 0)), andb_false_r, i32_small by lia. rewrite Z.rem_mod_nonneg by lia.
  assert ((tx_queue d + 1) `mod` TX_MAX_QUEUE = if tx_queue d =? 9 then 0 else tx_queue d + 1) as ->.
  { destruct (Z.eqb_spec (tx_queue d) 9) as [->|]; [done|]. by rewrite Z.mod_small by lia. }
  eexists. split; [done|]. split_and!; try done.
  - unfold tx_ok. cbn. rewrite Zlen_insert. pose proof (Z.mod_pos_bound (txring_offset d + 1) (tp_frame_nr (tx_req d))).
    split_and!; try done; try lia; [destruct (Z.eqb_spec (tx_queue d) 9); lia..|].
    apply Forall_insert; [done|]. cbn. rewrite Zlen_app. unfold Zlen in *. rewrite length_drop. lia.
  - intros j Hj. cbn. by rewrite list_lookup_insert_ne.
  - cbn. rewrite list_lookup_insert_eq by (by apply lookup_lt_Some in Hf). eexists. split_and!; try done. cbn.
    by rewrite take_app_length'.
Qed.
