(* ===== verification/LinuxNative.v ===== *)
(** * Capturing through Linux packet sockets: lib/format_linux_int.c and
    lib/format_linux_common.c

    A packet socket is a queue of messages that the kernel fills; [recvmsg] takes
    the next one and copies as much of it as fits into the packet's buffer, behind
    a header of libtrace's own.  The reader tries once without waiting and then
    waits with [select] for the socket or for a message to its thread.  The second
    part opens the sockets of a trace, one for each thread, and reads the kernel's
    counters.

    The kernel is not part of this repository: what arrives while the program
    waits, and the results of its calls, are arguments. *)

From S2P Require Import Prelude DNodes Byteswap Packet PktMeta Linktypes Timestamps FormatHelper PcapFile LinuxRing ParConfig Statistics.
Local Open Scope Z_scope.
Local Open Scope outcome_scope.

(** ** Headers *)
Inductive timestamptype_t := TS_NONE | TS_TIMEVAL | TS_TIMESPEC.
#[export] Instance timestamptype_eq_dec : EqDecision timestamptype_t.
Proof. solve_decision. Defined.

(** [struct libtrace_linuxnative_header], of 48 bytes. *)
Record libtrace_linuxnative_header := {
  nh_tv : timeval;
  nh_ts : timespec;
  nh_timestamptype : timestamptype_t;
  nh_wirelen : Z;
  nh_caplen : Z;
  nh_hdr : sockaddr_ll;
}.

Abbreviation sizeof_native_header := 48.

Definition nh_set_lengths (h : libtrace_linuxnative_header) (wirelen caplen : Z) : libtrace_linuxnative_header :=
  {| nh_tv := nh_tv h; nh_ts := nh_ts h; nh_timestamptype := nh_timestamptype h; nh_wirelen := wirelen;
     nh_caplen := caplen; nh_hdr := nh_hdr h |}.

Definition nh_set_hdr (h : libtrace_linuxnative_header) (hdr : sockaddr_ll) : libtrace_linuxnative_header :=
  {| nh_tv := nh_tv h; nh_ts := nh_ts h; nh_timestamptype := nh_timestamptype h; nh_wirelen := nh_wirelen h;
     nh_caplen := nh_caplen h; nh_hdr := hdr |}.

(** The fields of the header are 32 bits wide. *)
Definition nh_stamp_timeval (h : libtrace_linuxnative_header) (tv : timeval) : libtrace_linuxnative_header :=
  {| nh_tv := {| tv_sec := u32 (tv_sec tv); tv_usec := u32 (tv_usec tv) |}; nh_ts := nh_ts h;
     nh_timestamptype := TS_TIMEVAL; nh_wirelen := nh_wirelen h; nh_caplen := nh_caplen h; nh_hdr := nh_hdr h |}.

Definition nh_stamp_timespec (h : libtrace_linuxnative_header) (ts : timespec) : libtrace_linuxnative_header :=
  {| nh_tv := nh_tv h; nh_ts := {| ts_sec := u32 (ts_sec ts); ts_nsec := u32 (ts_nsec ts) |};
     nh_timestamptype := TS_TIMESPEC; nh_wirelen := nh_wirelen h; nh_caplen := nh_caplen h; nh_hdr := nh_hdr h |}.

Definition nh_unstamped (h : libtrace_linuxnative_header) : libtrace_linuxnative_header :=
  {| nh_tv := nh_tv h; nh_ts := nh_ts h; nh_timestamptype := TS_NONE; nh_wirelen := nh_wirelen h;
     nh_caplen := nh_caplen h; nh_hdr := nh_hdr h |}.

Definition linuxnative_get_link_type (h : libtrace_linuxnative_header) : libtrace_linktype_t :=
  linuxcommon_get_link_type (sll_hatype (nh_hdr h)).

Definition linuxnative_get_direction (h : libtrace_linuxnative_header) : Z :=
  linuxcommon_get_direction (sll_pkttype (nh_hdr h)).

Definition linuxnative_set_direction (h : libtrace_linuxnative_header) (direction : Z)
  : libtrace_linuxnative_header * Z :=
  let '(hdr, ret) := linuxcommon_set_direction (nh_hdr h) direction in (nh_set_hdr h hdr, ret).

Definition linuxnative_get_timespec (h : libtrace_linuxnative_header) : timespec :=
  if bool_decide (nh_timestamptype h = TS_TIMEVAL)
  then {| ts_sec := tv_sec (nh_tv h); ts_nsec := u32 (tv_usec (nh_tv h) * 1000) |}
  else {| ts_sec := ts_sec (nh_ts h); ts_nsec := ts_nsec (nh_ts h) |}.

Definition linuxnative_get_timeval (h : libtrace_linuxnative_header) : timeval :=
  if bool_decide (nh_timestamptype h = TS_TIMESPEC)
  then {| tv_sec := ts_sec (nh_ts h); tv_usec := ts_nsec (nh_ts h) / 1000 |}
  else {| tv_sec := tv_sec (nh_tv h); tv_usec := tv_usec (nh_tv h) |}.

Definition linuxnative_get_capture_length (h : libtrace_linuxnative_header) : Z := i32 (nh_caplen h).

(** [linktype]: what [trace_get_link_type] returns for the packet. *)
Definition linuxnative_get_wire_length (h : libtrace_linuxnative_header) (linktype : libtrace_linktype_t) : Z :=
  let wirelen := i32 (nh_wirelen h) in
  if bool_decide (linktype = TRACE_TYPE_ETH) then i32 (wirelen + 4) else wirelen.

Definition linuxnative_get_framing_length (h : libtrace_linuxnative_header) : Z := sizeof_native_header.

(** [cap]: what [trace_get_capture_length] returns for the packet. *)
Definition linuxnative_set_capture_length (h : libtrace_linuxnative_header) (cap size : Z)
  : libtrace_linuxnative_header * Z :=
  if cap <? size then (h, cap)
  else
    let h := nh_set_lengths h (nh_wirelen h) (u32 size) in
    (h, u64 (linuxnative_get_capture_length h)).

(** ** Reading *)

(** A packet's buffer: the header, and the memory behind it. *)
Record native_packet := {
  np_hdr : libtrace_linuxnative_header;
  np_mem : list Z;
  np_buffer : bool;
  np_control : buf_control_t;
}.

(** What the kernel hands out with a packet: its bytes, its address and the control
    messages. *)
Inductive cmsg := CmsgTimeval (tv : timeval) | CmsgTimespec (ts : timespec) | CmsgOther.
Record socket_msg := {
  sm_bytes : list Z;
  sm_addr : sockaddr_ll;
  sm_control : list cmsg;
}.

(** The socket's queue holds packets and pending errors. *)
Abbreviation socket_item := (socket_msg + Z)%type.

(** What a call of [select] ends with: a descriptor that is ready, after packets may
    have arrived, and whether a message has; an error; or nothing, with the value of
    [libtrace_halt] then. *)
Inductive native_wait := WaitReady (arrived : list socket_item) (message : bool) | WaitError (errno : Z)
| WaitNothing (halt : bool).

Abbreviation READ_EOF := 0.
Abbreviation READ_MESSAGE := (-2).
Abbreviation EINVAL := 22.

(** A new buffer, as [malloc] has found it. *)
Section native.
Variable fresh_hdr : libtrace_linuxnative_header.
Variable fresh_mem : list Z.

Definition linuxnative_prepare_packet (pk : native_packet) (own : bool) : native_packet :=
  {| np_hdr := np_hdr pk; np_mem := np_mem pk; np_buffer := true;
     np_control := if own then TRACE_CTRL_PACKET else TRACE_CTRL_EXTERNAL |}.

Definition np_fill (pk : native_packet) (h : libtrace_linuxnative_header) (mem : list Z) : native_packet :=
  {| np_hdr := h; np_mem := mem; np_buffer := np_buffer pk; np_control := np_control pk |}.

(** [recvmsg] with the flag [MSG_TRUNC], of a queue with something in it: the packet's
    whole length, or an error number.  A length of more than [SSIZE_MAX] bytes is
    refused. *)
Definition native_recvmsg (item : socket_item) (iov_len : Z) (pk : native_packet)
  : outcome (native_packet * (Z + Z)) :=
  match item with
  | inr errno => Ok (pk, inr errno)
  | inl m =>
      if 2 ^ 63 <=? iov_len then Ok (pk, inr EINVAL)
      else
        let! mem := store_front (np_mem pk) (take (Z.to_nat iov_len) (sm_bytes m)) in
        Ok (np_fill pk (nh_set_hdr (np_hdr pk) (sm_addr m)) mem, inl (Zlen (sm_bytes m)))
  end.

(** The first control message with a timestamp; failing that, [stamp], the answer of
    [SIOCGSTAMP]. *)
Fixpoint stamp_header (h : libtrace_linuxnative_header) (control : list cmsg) (stamp : option timeval)
  : libtrace_linuxnative_header :=
  match control with
  | CmsgTimeval tv :: _ => nh_stamp_timeval h tv
  | CmsgTimespec ts :: _ => nh_stamp_timespec h ts
  | CmsgOther :: control' => stamp_header h control' stamp
  | [] => match stamp with Some tv => nh_stamp_timeval h tv | None => nh_unstamped h end
  end.

(** [do ... while (ret <= 0)]: [inl] the queue to read from, or [inr] an error and a
    value to return.  [queue]: the caller has a message queue. *)
Fixpoint native_select (waits : list native_wait) (q : list socket_item) (queue : bool)
  : outcome (list native_wait * list socket_item * option (option Z * Z)) :=
  match waits with
  | [] => Fault Blocked
  | WaitReady arrived message :: waits' =>
      let q := q ++ arrived in
      Ok (waits', q, if queue && message then Some (None, READ_MESSAGE) else None)
  | WaitError errno :: waits' => let! err := trace_set_err errno in Ok (waits', q, Some (Some err, -1))
  | WaitNothing halt :: waits' => if halt then Ok (waits', q, Some (None, READ_EOF)) else native_select waits' q queue
  end.

(** The smaller of the room behind the header and the snap length. *)
Definition native_snaplen (snaplen : Z) : Z := Z.min (LIBTRACE_PACKET_BUFSIZE - sizeof_native_header) snaplen.

(** The packet has been received, or an error; a packet is shorter than 4294967295
    bytes, the number that stands for an error. *)
Definition native_receive (snaplen : Z) (stamp : option timeval) (waits : list native_wait) (q : list socket_item)
    (pk : native_packet) : outcome (list native_wait * list socket_item * native_packet * option Z * Z) :=
  match q with
  | [] => Fault Blocked
  | item :: q =>
      let! ' (pk, ret) := native_recvmsg item (u64 (native_snaplen snaplen)) pk in
      match ret with
      | inr errno => let! err := trace_set_err errno in Ok (waits, q, pk, Some err, -1)
      | inl len =>
          let wirelen := u32 len in
          let h := nh_set_lengths (np_hdr pk) wirelen (Z.min (u32 (native_snaplen snaplen)) wirelen) in
          let h := stamp_header h (match item with inl m => sm_control m | inr _ => [] end) stamp in
          Ok (waits, q, linuxnative_prepare_packet (np_fill pk h (np_mem pk)) true, None,
              i32 (wirelen + sizeof_native_header))
      end
  end.

(** The rest of the waits, the queue, the packet, the error that was set and the
    return value.  A first [recvmsg] that finds nothing leads to a wait; an error
    number in the queue is another one than [EAGAIN]. *)
Definition linuxnative_read_stream (snaplen : Z) (stamp : option timeval) (queue : bool) (waits : list native_wait)
    (q : list socket_item) (pk : native_packet)
  : outcome (list native_wait * list socket_item * native_packet * option Z * Z) :=
  let pk :=
    if negb (np_buffer pk) || bool_decide (np_control pk = TRACE_CTRL_EXTERNAL)
    then {| np_hdr := fresh_hdr; np_mem := fresh_mem; np_buffer := true; np_control := np_control pk |} else pk in
  match q with
  | [] =>
      let! ' (waits, q, result) := native_select waits q queue in
      match result with
      | Some (err, ret) => Ok (waits, q, pk, err, ret)
      | None => native_receive snaplen stamp waits q pk
      end
  | _ => native_receive snaplen stamp waits q pk
  end.

Definition linuxnative_read_packet (snaplen : Z) (stamp : option timeval) (waits : list native_wait)
    (q : list socket_item) (pk : native_packet) :=
  linuxnative_read_stream snaplen stamp false waits q pk.

(** One packet at a time; the result is also the packet's error. *)
Definition linuxnative_pread_packets (snaplen : Z) (stamp : option timeval) (waits : list native_wait)
    (q : list socket_item) (pk : native_packet)
  : outcome (list native_wait * list socket_item * native_packet * option Z * Z) :=
  let! ' (waits, q, pk, err, ret) := linuxnative_read_stream snaplen stamp true waits q pk in
  Ok (waits, q, pk, err, if 1 <=? ret then 1 else ret).
End native.

(** ** Sending

    The address handed to [sendto]; [garbage] is what its eight bytes of hardware
    address hold before.  [sll_halen] is one byte wide. *)
Definition native_address (ifindex : Z) (garbage payload : list Z) : outcome sockaddr_ll :=
  let halen := u8 (htons 6) in
  let! bytes := slice payload 0 (ntohs halen) in
  let! addr := store_front garbage bytes in
  Ok {| sll_ifindex := ifindex; sll_hatype := 0; sll_pkttype := 0; sll_halen := halen; sll_addr := addr |}.

(** [sendto]: what the call returns for an address and bytes, and its error number. *)
Definition linuxnative_write_packet (sendto : sockaddr_ll → list Z → Z * Z) (ifindex : Z) (garbage : list Z)
    (linktype : libtrace_linktype_t) (cap : Z) (payload : list Z) : outcome (option Z * Z) :=
  if bool_decide (linktype = TRACE_TYPE_NONDATA) then Ok (None, 0)
  else
    let! hdr := native_address ifindex garbage payload in
    let! bytes := slice payload 0 cap in
    let '(ret, errno) := sendto hdr bytes in
    if ret <? 0 then let! err := trace_set_err_out errno in Ok (Some err, ret) else Ok (None, ret).

(** ** What the reader gives the program *)
Definition timespec_of (tv : timeval) : timespec := {| ts_sec := tv_sec tv; ts_nsec := tv_usec tv * 1000 |}.
Definition cmsg_time (c : cmsg) : option timespec :=
  match c with CmsgTimeval tv => Some (timespec_of tv) | CmsgTimespec ts => Some ts | CmsgOther => None end.

(** The time that the message has: the first among the control messages, or [stamp]. *)
Definition msg_time (control : list cmsg) (stamp : option timeval) : option timespec :=
  head (omap cmsg_time control ++ option_list (timespec_of <$> stamp)).

(** The packet is the message, cut at the snap length, with the message's time if it
    has one. *)
Definition delivers (snaplen : Z) (stamp : option timeval) (m : socket_msg) (pk : native_packet) : Prop :=
  let h := np_hdr pk in
  nh_wirelen h = Zlen (sm_bytes m) ∧ nh_caplen h = Z.min (native_snaplen snaplen) (Zlen (sm_bytes m)) ∧
  take (Z.to_nat (nh_caplen h)) (np_mem pk) = take (Z.to_nat (nh_caplen h)) (sm_bytes m) ∧ nh_hdr h = sm_addr m ∧
  (∀ ts, msg_time (sm_control m) stamp = Some ts → linuxnative_get_timespec h = ts).

Definition timeval_fits (tv : timeval) : Prop := 0 ≤ tv_sec tv < 2 ^ 32 ∧ 0 ≤ tv_usec tv < 1000000.
Definition cmsg_fits (c : cmsg) : Prop :=
  match c with
  | CmsgTimeval tv => timeval_fits tv
  | CmsgTimespec ts => 0 ≤ ts_sec ts < 2 ^ 32 ∧ 0 ≤ ts_nsec ts < 2 ^ 32
  | CmsgOther => True
  end.

Definition item_ok (item : socket_item) : Prop :=
  match item with
  | inl m => Zlen (sm_bytes m) < 2 ^ 31 - sizeof_native_header ∧ Forall cmsg_fits (sm_control m)
  | inr errno => errno ≠ 0
  end.

Definition arrives (w : native_wait) : list socket_item := match w with WaitReady arrived _ => arrived | _ => [] end.
Definition wait_ok (w : native_wait) : Prop :=
  match w with WaitReady arrived _ => Forall item_ok arrived | WaitError errno => errno ≠ 0 | WaitNothing _ => True end.
Definition arrivals (waits : list native_wait) : list socket_item := concat (map arrives waits).

(** A buffer of its own has room for a whole packet. *)
Definition native_room (mem : list Z) : Prop := Zlen mem = LIBTRACE_PACKET_BUFSIZE - sizeof_native_header.

Lemma cut_mem_take (mem bytes : list Z) (n : nat) :
  (length (take n bytes) ≤ length mem)%nat →
  take (n `min` length bytes) (take n bytes ++ drop (length (take n bytes)) mem) = take (n `min` length bytes) bytes.
Proof.
  intros H. rewrite take_app_le by (rewrite length_take; lia). rewrite take_take. f_equal. lia.
Qed.

Lemma stamp_header_fields h control stamp :
  nh_wirelen (stamp_header h control stamp) = nh_wirelen h ∧ nh_caplen (stamp_header h control stamp) = nh_caplen h ∧
  nh_hdr (stamp_header h control stamp) = nh_hdr h.
Proof. induction control as [|[]]; cbn; [by destruct stamp|done|done|done]. Qed.

Lemma stamp_header_time h control stamp ts : Forall cmsg_fits control → (∀ tv, stamp = Some tv → timeval_fits tv) →
  msg_time control stamp = Some ts → linuxnative_get_timespec (stamp_header h control stamp) = ts.
Proof.
  intros Hf Hs. assert (∀ tv, timeval_fits tv → linuxnative_get_timespec (nh_stamp_timeval h tv) = timespec_of tv) as Htv.
  { intros tv [H1 H2]. unfold linuxnative_get_timespec, timespec_of. cbn.
    by rewrite (u32_small (tv_sec tv)), (u32_small (tv_usec tv)), u32_small by lia. }
  induction control as [|c control IH]; cbn [stamp_header].
  - destruct stamp as [tv|]; [|done]. intros [= <-]. by apply Htv, Hs.
  - apply Forall_cons in Hf as [Hc Hf]. destruct c as [tv|t|]; cbn [cmsg_fits] in Hc.
    + intros [= <-]. by apply Htv.
    + intros [= <-]. destruct Hc as [H1 H2], t as [sec nsec]. cbn [ts_sec ts_nsec] in *.
      unfold linuxnative_get_timespec. cbn. rewrite bool_decide_eq_false_2 by done. by rewrite !u32_small by lia.
    + by apply IH.
Qed.

(** What a read leaves the program with: a packet, an error or neither (the end, or a
    message). *)
Inductive read_answer := GotPacket (stamp : option timeval) (pk : native_packet) | GotError (err : Z) | GotNothing.

(** [accounts snaplen items answers]: the answers are the items, one after the other;
    an error may also be one of [select]. *)
Inductive accounts (snaplen : Z) : list socket_item → list read_answer → Prop :=
| accounts_nil : accounts snaplen [] []
| accounts_packet m stamp pk items answers :
    delivers snaplen stamp m pk → accounts snaplen items answers →
    accounts snaplen (inl m :: items) (GotPacket stamp pk :: answers)
| accounts_error e items answers : accounts snaplen items answers → accounts snaplen (inr e :: items) (GotError e :: answers)
| accounts_select e items answers : accounts snaplen items answers → accounts snaplen items (GotError e :: answers)
| accounts_nothing items answers : accounts snaplen items answers → accounts snaplen items (GotNothing :: answers).

Section runs.
Context (fresh_hdr : libtrace_linuxnative_header) (fresh_mem : list Z) (snaplen : Z) (queue : bool)
  (Hfresh : native_room fresh_mem) (Hsnap : 0 ≤ snaplen).

Definition answer_of (stamp : option timeval) (pk : native_packet) (err : option Z) (ret : Z) : read_answer :=
  match err with Some e => GotError e | None => if 0 <? ret then GotPacket stamp pk else GotNothing end.

(** Reading with one packet, once for each element of [stamps], the answers of
    [SIOCGSTAMP]. *)
Fixpoint native_reads (stamps : list (option timeval)) (waits : list native_wait) (q : list socket_item) (pk : native_packet)
  : outcome (list native_wait * list socket_item * list read_answer) :=
  match stamps with
  | [] => Ok (waits, q, [])
  | stamp :: stamps' =>
      let! ' (waits, q, pk, err, ret) := linuxnative_read_stream fresh_hdr fresh_mem snaplen stamp queue waits q pk in
      let! ' (waits, q, answers) := native_reads stamps' waits q pk in
      Ok (waits, q, answer_of stamp pk err ret :: answers)
  end.

Definition packet_room (pk : native_packet) : Prop :=
  np_buffer pk = true ∧ np_control pk = TRACE_CTRL_PACKET → native_room (np_mem pk).

Lemma native_receive_ok stamp waits item q pk : native_room (np_mem pk) → item_ok item →
  (∀ tv, stamp = Some tv → timeval_fits tv) →
  ∃ pk' err ret, native_receive snaplen stamp waits (item :: q) pk = Ok (waits, q, pk', err, ret) ∧
    native_room (np_mem pk') ∧
    match item with
    | inl m => err = None ∧ 0 < ret ∧ delivers snaplen stamp m pk'
    | inr e => err = Some e
    end.
Proof using Hsnap.
  clear Hfresh. intros Hr Hi Hst. unfold native_receive. destruct item as [m|e]; cbn [native_recvmsg item_ok] in *.
  2: { cbn [obind]. unfold trace_set_err. rewrite (proj2 (Z.eqb_neq e 0) Hi). cbn. by do 3 eexists. }
  destruct Hi as [Hl Hc]. pose proof (Zlen_nonneg (sm_bytes m)).
  assert (0 ≤ native_snaplen snaplen ≤ LIBTRACE_PACKET_BUFSIZE - sizeof_native_header) as Hn by (unfold native_snaplen; lia).
  set (n := native_snaplen snaplen) in *. rewrite u64_small, (proj2 (Z.leb_gt (2 ^ 63) n)) by lia.
  unfold store_front. set (bytes := take (Z.to_nat n) (sm_bytes m)).
  assert (Zlen bytes = Z.min n (Zlen (sm_bytes m))) as Hb by (unfold bytes, Zlen; rewrite length_take; lia).
  rewrite (proj2 (Z.leb_le (Zlen bytes) _)) by (unfold native_room in Hr; lia). cbn [obind].
  rewrite (u32_small (Zlen (sm_bytes m))), (u32_small n) by lia. do 3 eexists. split; [done|].
  cbn [np_fill np_mem np_hdr linuxnative_prepare_packet]. split.
  { unfold native_room in *. rewrite Zlen_app. unfold Zlen in *. rewrite length_drop. lia. }
  split; [done|]. split; [rewrite i32_small by lia; lia|]. unfold delivers.
  cbn [np_fill np_mem np_hdr linuxnative_prepare_packet].
  set (h := nh_set_lengths _ _ _). destruct (stamp_header_fields h (sm_control m) stamp) as (-> & -> & ->).
  subst h. cbn [nh_set_lengths nh_set_hdr nh_wirelen nh_caplen nh_hdr]. split; [done|]. split; [done|].
  split; [|split; [done|]].
  - replace (Z.to_nat (Z.min n (Zlen (sm_bytes m)))) with (Z.to_nat n `min` length (sm_bytes m))%nat by (unfold Zlen; lia).
    apply cut_mem_take. change (length (take (Z.to_nat n) (sm_bytes m))) with (length bytes).
    unfold native_room, Zlen in *. lia.
  - intros ts Hts. by apply stamp_header_time.
Qed.

Lemma current_room pk : packet_room pk →
  native_room (np_mem (if negb (np_buffer pk) || bool_decide (np_control pk = TRACE_CTRL_EXTERNAL)
    then {| np_hdr := fresh_hdr; np_mem := fresh_mem; np_buffer := true; np_control := np_control pk |} else pk)).
Proof using Hfresh.
  intros Hp. destruct (np_buffer pk) eqn:Eb; cbn [negb orb]; [|done]. case_bool_decide as Ec; [done|].
  apply Hp. split; [done|]. by destruct (np_control pk).
Qed.

(** A call that returns has taken one item, or none. *)
Lemma native_read_ok stamp waits q pk : packet_room pk → Forall item_ok q → Forall wait_ok waits →
  (∀ tv, stamp = Some tv → timeval_fits tv) →
  linuxnative_read_stream fresh_hdr fresh_mem snaplen stamp queue waits q pk = Fault Blocked ∨
  ∃ waits' q' pk' err ret items, linuxnative_read_stream fresh_hdr fresh_mem snaplen stamp queue waits q pk
      = Ok (waits', q', pk', err, ret) ∧
    packet_room pk' ∧ Forall item_ok q' ∧ Forall wait_ok waits' ∧
    q ++ arrivals waits = items ++ q' ++ arrivals waits' ∧
    ∀ rest answers, accounts snaplen rest answers → accounts snaplen (items ++ rest) (answer_of stamp pk' err ret :: answers).
Proof using Hfresh Hsnap.
  intros Hp Hq Hw Hst. unfold linuxnative_read_stream. pose proof (current_room pk Hp) as Hroom.
  set (pk0 := if negb (np_buffer pk) || _ then _ else pk) in *.
  assert (packet_room pk0) as Hp0 by (intros _; done).
  assert (∀ waits q, Forall item_ok q → Forall wait_ok waits →
    native_receive snaplen stamp waits q pk0 = Fault Blocked ∨
    ∃ waits' q' pk' err ret items, native_receive snaplen stamp waits q pk0 = Ok (waits', q', pk', err, ret) ∧
      packet_room pk' ∧ Forall item_ok q' ∧ Forall wait_ok waits' ∧ q ++ arrivals waits = items ++ q' ++ arrivals waits' ∧
      ∀ rest answers, accounts snaplen rest answers → accounts snaplen (items ++ rest) (answer_of stamp pk' err ret :: answers))
    as Hrecv.
  { clear q Hq waits Hw. intros waits [|item q] Hq Hw; [by left|]. right. apply Forall_cons in Hq as [Hi Hq].
    destruct (native_receive_ok stamp waits item q pk0 Hroom Hi Hst) as (pk' & err & ret & -> & Hr' & Hcase).
    exists waits, q, pk', err, ret, [item]. split; [done|]. split; [by intros _|]. split; [done|]. split; [done|].
    split; [done|]. intros rest answers Ha. cbn [app]. destruct item as [m|e].
    - destruct Hcase as (-> & Hret & Hd). cbn [answer_of]. rewrite (proj2 (Z.ltb_lt 0 ret) Hret). by constructor.
    - subst err. by constructor. }
  destruct q as [|item q]; [|by apply Hrecv].
  clear Hq. induction waits as [|w waits IH]; cbn [native_select]; [by left|].
  apply Forall_cons in Hw as [Hw1 Hw]. destruct w as [arrived message|errno|halt]; cbn [wait_ok app] in *.
  - cbn [obind]. destruct (queue && message).
    + right. exists waits, arrived, pk0, None, READ_MESSAGE, []. do 5 (split; [done|]). intros. by constructor.
    + apply (Hrecv waits arrived Hw1 Hw).
  - unfold trace_set_err. rewrite (proj2 (Z.eqb_neq errno 0) Hw1). cbn [negb oassert obind]. right.
    exists waits, [], pk0, (Some errno), (-1), []. do 5 (split; [done|]). intros. by constructor.
  - destruct halt; [|by apply IH]. right. exists waits, [], pk0, None, READ_EOF, []. do 5 (split; [done|]).
    intros. by constructor.
Qed.
End runs.

(** C37: Reading from a packet socket any number of times, whatever arrives in the meantime
    and however the waits end: what has been read, together with what is still in the
    queue, is what was in the queue and has arrived, in order; each packet read is the
    message with its length, its bytes up to the snap length, its address and its
    time.  A call that does not return is waiting for a packet. *)
Theorem native_reads_in_order fresh_hdr fresh_mem snaplen queue stamps waits q pk :
  native_room fresh_mem → 0 ≤ snaplen → packet_room pk → Forall item_ok q → Forall wait_ok waits →
  Forall (λ stamp, ∀ tv, stamp = Some tv → timeval_fits tv) stamps →
  match native_reads fresh_hdr fresh_mem snaplen queue stamps waits q pk with
  | Fault f => f = Blocked
  | Ok (waits', q', answers) =>
      ∃ items, q ++ arrivals waits = items ++ q' ++ arrivals waits' ∧ accounts snaplen items answers
  end.
Proof.
  intros Hf Hs. revert waits q pk. induction stamps as [|stamp stamps IH]; intros waits q pk Hp Hq Hw Hst.
  - exists []. split; [done|constructor].
  - apply Forall_cons in Hst as [Hst1 Hst]. cbn [native_reads].
    destruct (native_read_ok fresh_hdr fresh_mem snaplen queue Hf Hs stamp waits q pk Hp Hq Hw Hst1)
      as [->|(w1 & q1 & pk1 & err & ret & items1 & -> & Hp1 & Hq1 & Hw1 & E1 & Ha)]; [done|]. cbn [obind].
    specialize (IH w1 q1 pk1 Hp1 Hq1 Hw1 Hst).
    destruct (native_reads _ _ _ _ stamps w1 q1 pk1) as [[[w2 q2] answers]|f]; cbn [obind]; [|done].
    destruct IH as (items2 & E2 & Ha2). exists (items1 ++ items2). split; [by rewrite E1, E2, app_assoc|]. by apply Ha.
Qed.

(** ** Starting: lib/format_linux_common.c

    A stream is its descriptor, -1 if it has none; [fds] are the open descriptors of
    the process. *)
Record linux_dev_stats := {
  dv_rx_packets : Z;
  dv_rx_errors : Z;
  dv_rx_drops : Z;
}.

(** [nd_filter]: whether the filter, if there is one, has been compiled.
    [nd_dev_stats] is [None] if the name in it is empty. *)
Record linux_format_data_t := {
  nd_snaplen : Z;
  nd_promisc : Z;
  nd_timestamptype : timestamptype_t;
  nd_filter : option bool;
  nd_tp_packets : Z;
  nd_tp_drops : Z;
  nd_stats_valid : bool;
  nd_dev_stats : option linux_dev_stats;
  nd_fanout_flags : Z;
  nd_per_stream : list Z;
}.

Definition nd_set_streams (d : linux_format_data_t) (streams : list Z) (dev : option linux_dev_stats) : linux_format_data_t :=
  {| nd_snaplen := nd_snaplen d; nd_promisc := nd_promisc d; nd_timestamptype := nd_timestamptype d;
     nd_filter := nd_filter d; nd_tp_packets := nd_tp_packets d; nd_tp_drops := nd_tp_drops d;
     nd_stats_valid := nd_stats_valid d; nd_dev_stats := dev; nd_fanout_flags := nd_fanout_flags d;
     nd_per_stream := streams |}.

Definition nd_set_stats (d : linux_format_data_t) (packets drops : Z) : linux_format_data_t :=
  {| nd_snaplen := nd_snaplen d; nd_promisc := nd_promisc d; nd_timestamptype := nd_timestamptype d;
     nd_filter := nd_filter d; nd_tp_packets := packets; nd_tp_drops := drops; nd_stats_valid := true;
     nd_dev_stats := nd_dev_stats d; nd_fanout_flags := nd_fanout_flags d; nd_per_stream := nd_per_stream d |}.

Definition nd_set_options (d : linux_format_data_t) (snaplen promisc : Z) (ts : timestamptype_t) (filter : option bool)
    (fanout : Z) : linux_format_data_t :=
  {| nd_snaplen := snaplen; nd_promisc := promisc; nd_timestamptype := ts; nd_filter := filter;
     nd_tp_packets := nd_tp_packets d; nd_tp_drops := nd_tp_drops d; nd_stats_valid := nd_stats_valid d;
     nd_dev_stats := nd_dev_stats d; nd_fanout_flags := fanout; nd_per_stream := nd_per_stream d |}.

Abbreviation PACKET_FANOUT_HASH := 0.
Abbreviation PACKET_FANOUT_LB := 1.

Definition linuxcommon_init_input : linux_format_data_t :=
  {| nd_snaplen := LIBTRACE_PACKET_BUFSIZE; nd_promisc := -1; nd_timestamptype := TS_NONE; nd_filter := None;
     nd_tp_packets := 0; nd_tp_drops := 0; nd_stats_valid := false; nd_dev_stats := None;
     nd_fanout_flags := PACKET_FANOUT_LB; nd_per_stream := [-1] |}.

(** [linuxnative_configure_bpf]: [compiled] says whether the filter is already a
    program; if not, [hwaddr] whether the interface's type can be asked, and
    [compiles] whether libpcap can compile it.  The data, the error and the return
    value. *)
Definition linuxnative_configure_bpf (d : linux_format_data_t) (compiled hwaddr compiles : bool)
  : outcome (linux_format_data_t * option Z * Z) :=
  let set flag := nd_set_options d (nd_snaplen d) (nd_promisc d) (nd_timestamptype d) (Some flag) (nd_fanout_flags d) in
  if compiled then Ok (set true, None, 0)
  else if negb hwaddr then Ok (d, None, -1)
  else if compiles then Ok (set true, None, 0)
  else let! err := trace_set_err TRACE_ERR_INIT_FAILED in Ok (set false, Some err, 0).

Inductive linux_option := LinuxSnaplen (n : Z) | LinuxPromisc (n : Z) | LinuxFilter (compiled hwaddr compiles : bool)
| LinuxHasher (balance : bool) | LinuxCustomHasher | LinuxOther.

Definition linuxcommon_config_input (d : linux_format_data_t) (opt : linux_option)
  : outcome (linux_format_data_t * option Z * Z) :=
  let set snaplen promisc fanout := nd_set_options d snaplen promisc (nd_timestamptype d) (nd_filter d) fanout in
  match opt with
  | LinuxSnaplen n => Ok (set n (nd_promisc d) (nd_fanout_flags d), None, 0)
  | LinuxPromisc n => Ok (set (nd_snaplen d) n (nd_fanout_flags d), None, 0)
  | LinuxFilter compiled hwaddr compiles => linuxnative_configure_bpf d compiled hwaddr compiles
  | LinuxHasher balance =>
      Ok (set (nd_snaplen d) (nd_promisc d) (if balance then PACKET_FANOUT_LB else PACKET_FANOUT_HASH), None, 0)
  | LinuxCustomHasher | LinuxOther => Ok (d, None, -1)
  end.

(** The answers to the calls that start a stream: a socket or an error number, the
    index of the interface, binding, the two forms of timestamps, the number of
    packets already in the queue, the counters of the device and the fanout. *)
Record start_answers := {
  sa_socket : Z + Z;
  sa_ifindex : Z;
  sa_bind : option Z;
  sa_timestampns : bool;
  sa_timestamp : bool;
  sa_waiting : Z;
  sa_dev : option linux_dev_stats;
  sa_fanout : bool;
}.

(** The trace: data, descriptors and error. *)
Record linux_state := {
  ls_data : linux_format_data_t;
  ls_fds : gset Z;
  ls_err : Z;
}.

Definition ls_set_fd (s : linux_state) (i : Z) (fd : Z) (fds : gset Z) : outcome linux_state :=
  let d := ls_data s in
  let! streams := aset (nd_per_stream d) i fd in
  Ok {| ls_data := nd_set_streams d streams (nd_dev_stats d); ls_fds := fds; ls_err := ls_err s |}.

Definition ls_set_data (s : linux_state) (d : linux_format_data_t) : linux_state :=
  {| ls_data := d; ls_fds := ls_fds s; ls_err := ls_err s |}.

Definition ls_fail (s : linux_state) (errcode : Z) : outcome (linux_state * Z) :=
  let! err := trace_set_err errcode in Ok ({| ls_data := ls_data s; ls_fds := ls_fds s; ls_err := err |}, -1).

(** Packet sockets of this format are not mapped. *)
Definition linuxcommon_close_input_stream (s : linux_state) (i : Z) : outcome linux_state :=
  let! fd := aget (nd_per_stream (ls_data s)) i in
  let! s := ls_set_fd s i (-1) (if fd =? -1 then ls_fds s else ls_fds s ∖ {[fd]}) in
  Ok (ls_set_data s (nd_set_streams (ls_data s) (nd_per_stream (ls_data s)) None)).

(** [named]: the trace has the name of an interface.  Timestamps, the filter, the
    packets that are thrown away and the counters. *)
Definition finish_start (s : linux_state) (i : Z) (sa : start_answers) (ifindex : Z) : outcome (linux_state * Z) :=
  let d := ls_data s in
  let promisc := if nd_promisc d =? -1 then (if ifindex =? 0 then 0 else 1) else nd_promisc d in
  let ts := if sa_timestampns sa then TS_TIMESPEC else if sa_timestamp sa then TS_TIMEVAL else TS_NONE in
  let s := ls_set_data s (nd_set_options d (nd_snaplen d) promisc ts (nd_filter d) (nd_fanout_flags d)) in
  match nd_filter d with
  | Some false => let! s := linuxcommon_close_input_stream s i in ls_fail s TRACE_ERR_BAD_FILTER
  | _ =>
      let count := Z.min 4096 (sa_waiting sa) in
      let d := nd_set_stats (ls_data s) (u32 (- count)) 0 in
      Ok (ls_set_data s (nd_set_streams d (nd_per_stream d) (sa_dev sa)), 0)
  end.

Definition linuxcommon_start_input_stream (named : bool) (s : linux_state) (i : Z) (sa : start_answers)
  : outcome (linux_state * Z) :=
  match sa_socket sa with
  | inr errno => let! s := ls_set_fd s i (-1) (ls_fds s) in ls_fail s errno
  | inl fd =>
      let! s := ls_set_fd s i fd (ls_fds s ∪ {[fd]}) in
      let ifindex := if named then sa_ifindex sa else 0 in
      if named && (ifindex =? 0) then
        let! s := linuxcommon_close_input_stream s i in ls_fail s TRACE_ERR_INIT_FAILED
      else
        match sa_bind sa with
        | Some errno => let! s := linuxcommon_close_input_stream s i in ls_fail s errno
        | None => finish_start s i sa ifindex
        end
  end.

(** ** One stream for each thread *)

(** The first loop: [None] if all streams were started, or the number of the one that
    failed. *)
Fixpoint pstart_loop (start_stream : linux_state → Z → start_answers → outcome (linux_state * Z)) (s : linux_state) (i : Z)
    (answers : list start_answers) : outcome (linux_state * option Z) :=
  match answers with
  | [] => Ok (s, None)
  | sa :: answers' =>
      let d := ls_data s in
      let s := if Zlen (nd_per_stream d) <=? i
               then ls_set_data s (nd_set_streams d (nd_per_stream d ++ [-1]) (nd_dev_stats d)) else s in
      let! ' (s, ret) := start_stream s i sa in
      if negb (ret =? 0) then Ok (s, Some i)
      else if negb (sa_fanout sa) then
        let! ' (s, _) := ls_fail s TRACE_ERR_INIT_FAILED in
        let! fd := aget (nd_per_stream (ls_data s)) i in
        let! s := ls_set_fd s i (-1) (ls_fds s ∖ {[fd]}) in
        Ok (s, Some i)
      else pstart_loop start_stream s (i + 1) answers'
  end.

(** [for (i = i - 1; i >= 0; i--)] *)
Fixpoint close_down (s : linux_state) (n : nat) : outcome linux_state :=
  match n with
  | O => Ok s
  | S n' => let! s := linuxcommon_close_input_stream s (Z.of_nat n') in close_down s n'
  end.

Definition linuxcommon_pstart_input (start_stream : linux_state → Z → start_answers → outcome (linux_state * Z))
    (s : linux_state) (answers : list start_answers) : outcome (linux_state * Z) :=
  let! ' (s, failed) := pstart_loop start_stream s 0 answers in
  match failed with
  | None => Ok (s, 0)
  | Some i => let! s := close_down s (Z.to_nat i) in Ok (s, -1)
  end.

Definition linuxnative_start_input (named : bool) (s : linux_state) (sa : start_answers) : outcome (linux_state * Z) :=
  linuxcommon_start_input_stream named s 0 sa.

Definition linuxnative_pstart_input (named : bool) (s : linux_state) (answers : list start_answers)
  : outcome (linux_state * Z) :=
  linuxcommon_pstart_input (linuxcommon_start_input_stream named) s answers.

(** [for (i = 0; i < size; ++i)] *)
Fixpoint pause_streams (s : linux_state) (i : Z) (n : nat) : outcome linux_state :=
  match n with
  | O => Ok s
  | S n' => let! s := linuxcommon_close_input_stream s i in pause_streams s (i + 1) n'
  end.

Definition linuxcommon_pause_input (s : linux_state) : outcome (linux_state * Z) :=
  let! s := pause_streams s 0 (length (nd_per_stream (ls_data s))) in Ok (s, 0).

(** ** Counters *)

(** [answers]: for each stream what [PACKET_STATISTICS] says, [None] for an error. *)
Definition linuxcommon_update_socket_statistics (d : linux_format_data_t) (answers : list (option (Z * Z)))
  : linux_format_data_t :=
  foldl (λ d '(fd, answer),
    match answer with
    | Some (packets, drops) =>
        if fd =? -1 then d
        else if nd_stats_valid d then nd_set_stats d (u32 (nd_tp_packets d + packets)) (u32 (nd_tp_drops d + drops))
        else nd_set_stats d packets drops
    | None => d
    end) d (zip (nd_per_stream d) answers).

Definition valid (v : Z) : counter := {| c_valid := true; c_value := v |}.

(** [dev]: the counters of the device now. *)
Definition linuxcommon_get_statistics (d : linux_format_data_t) (dev : option linux_dev_stats)
    (answers : list (option (Z * Z))) (stat : libtrace_stat_t) : outcome (linux_format_data_t * libtrace_stat_t) :=
  let! first := aget (nd_per_stream d) 0 in
  if first =? -1 then Ok (d, stat)
  else
    let now := match nd_dev_stats d with Some _ => dev | None => None end in
    let d := linuxcommon_update_socket_statistics d answers in
    let diff (f : linux_dev_stats → Z) :=
      match now, nd_dev_stats d with Some a, Some b => u64 (f a - f b) | _, _ => 0 end in
    let has_dev := bool_decide (is_Some now) in
    let filtered := u64 (diff dv_rx_packets - nd_tp_packets d) in
    Ok (d,
      {| st_accepted := st_accepted stat;
         st_filtered :=
           if bool_decide (is_Some (nd_filter d)) && nd_stats_valid d && has_dev && (filtered <? UINT64_MAX - 100000)
           then {| c_valid := c_valid (st_filtered stat); c_value := u64 (c_value (st_filtered stat) + filtered) |}
           else st_filtered stat;
         st_received := if has_dev then valid (u64 (diff dv_rx_packets + diff dv_rx_drops)) else st_received stat;
         st_dropped :=
           if nd_stats_valid d then valid (if has_dev then u64 (nd_tp_drops d + diff dv_rx_drops) else nd_tp_drops d)
           else st_dropped stat;
         st_captured :=
           if has_dev && nd_stats_valid d then valid (u64 (diff dv_rx_packets - nd_tp_drops d)) else st_captured stat;
         st_errors := if has_dev then valid (diff dv_rx_errors) else st_errors stat;
         st_magic := st_magic stat |}).

(** -1 for a trace without data. *)
Definition linuxcommon_get_fd (d : option linux_format_data_t) : outcome Z :=
  match d with None => Ok (-1) | Some d => aget (nd_per_stream d) 0 end.

(** ** All streams or none *)
Definition sa_fd (sa : start_answers) : option Z := match sa_socket sa with inl fd => Some fd | inr _ => None end.

Definition answers_ok (sa : start_answers) : Prop :=
  (∀ e, sa_socket sa = inr e → e ≠ 0) ∧ (∀ e, sa_bind sa = Some e → e ≠ 0).

(** The streams of the trace, and its descriptors. *)
Abbreviation streams_of s := (nd_per_stream (ls_data s)).

Lemma ls_set_fd_ok s i fd fds : 0 ≤ i < Zlen (streams_of s) →
  ls_set_fd s i fd fds = Ok {| ls_data := nd_set_streams (ls_data s) (<[Z.to_nat i := fd]> (streams_of s)) (nd_dev_stats (ls_data s));
                               ls_fds := fds; ls_err := ls_err s |}.
Proof. intros Hi. unfold ls_set_fd. by rewrite (aset_ok _ _ _ Hi). Qed.

Lemma close_stream_ok s i fd : 0 ≤ i → streams_of s !! Z.to_nat i = Some fd →
  ∃ s', linuxcommon_close_input_stream s i = Ok s' ∧ streams_of s' = <[Z.to_nat i := (-1)]> (streams_of s) ∧
    ls_fds s' = (if fd =? -1 then ls_fds s else ls_fds s ∖ {[fd]}).
Proof.
  intros Hi Hfd. unfold linuxcommon_close_input_stream. rewrite (aget_ok _ _ _ Hi Hfd). cbn [obind].
  rewrite ls_set_fd_ok; [|apply lookup_lt_Some in Hfd; unfold Zlen; lia]. cbn [obind]. by eexists.
Qed.

(** A stream that is started has the new socket; one that fails has none. *)
Definition start_effect (s s' : linux_state) (i ret : Z) (sa : start_answers) : Prop :=
  (ret = 0 ∧ ∃ fd, sa_fd sa = Some fd ∧ streams_of s' = <[Z.to_nat i := fd]> (streams_of s) ∧ ls_fds s' = ls_fds s ∪ {[fd]}) ∨
  (ret = -1 ∧ streams_of s' = <[Z.to_nat i := (-1)]> (streams_of s) ∧ ls_fds s' = ls_fds s).

Lemma start_closed_ok s i sa fd code : 0 ≤ i < Zlen (streams_of s) → fd ∉ ls_fds s → fd ≠ -1 → code ≠ 0 →
  ∀ s1, streams_of s1 = <[Z.to_nat i := fd]> (streams_of s) → ls_fds s1 = ls_fds s ∪ {[fd]} →
  ∃ s' ret, (let! s' := linuxcommon_close_input_stream s1 i in ls_fail s' code) = Ok (s', ret) ∧ start_effect s s' i ret sa.
Proof.
  intros Hi Hfd Hne Hc s1 E1 E2. destruct (close_stream_ok s1 i fd) as (s2 & -> & E3 & E4); [lia| |].
  { rewrite E1. apply list_lookup_insert_eq. unfold Zlen in Hi. lia. }
  cbn [obind]. unfold ls_fail, trace_set_err. rewrite (proj2 (Z.eqb_neq code 0) Hc). cbn [negb oassert obind].
  do 2 eexists. split; [done|]. right. split; [done|]. cbn. rewrite E3, E4, E1, E2, (proj2 (Z.eqb_neq fd (-1)) Hne).
  split; [apply list_insert_insert_eq|]. set_solver.
Qed.

Lemma start_stream_ok named s i sa : 0 ≤ i < Zlen (streams_of s) → answers_ok sa →
  (∀ fd, sa_fd sa = Some fd → fd ∉ ls_fds s ∧ fd ≠ -1) →
  ∃ s' ret, linuxcommon_start_input_stream named s i sa = Ok (s', ret) ∧ start_effect s s' i ret sa.
Proof.
  intros Hi [Hso Hbi] Hfd. unfold linuxcommon_start_input_stream. destruct (sa_socket sa) as [fd|e] eqn:Es.
  2: { rewrite ls_set_fd_ok by done. cbn [obind]. unfold ls_fail, trace_set_err.
       rewrite (proj2 (Z.eqb_neq e 0) (Hso e eq_refl)). cbn. do 2 eexists. split; [done|]. by right. }
  assert (sa_fd sa = Some fd) as Esa by (unfold sa_fd; by rewrite Es). destruct (Hfd fd Esa) as [Hn Hne].
  rewrite ls_set_fd_ok by done. cbn [obind]. destruct (named && _).
  - by apply (start_closed_ok s i sa fd TRACE_ERR_INIT_FAILED).
  - destruct (sa_bind sa) as [e|]; [apply (start_closed_ok s i sa fd e); auto|]. unfold finish_start.
    destruct (nd_filter _) as [[]|]; [|by apply (start_closed_ok s i sa fd TRACE_ERR_BAD_FILTER)|];
      (do 2 eexists; split; [done|]; left; split; [done|]; by exists fd).
Qed.

(** [opened] are the sockets of the first streams, [fds] the descriptors before. *)
Definition open_streams (s : linux_state) (fds : gset Z) (opened : list Z) : Prop :=
  ∃ rest, streams_of s = opened ++ rest ∧ Forall (λ fd, fd = -1) rest ∧ ls_fds s = fds ∪ list_to_set opened ∧
    NoDup opened ∧ Forall (λ fd, fd ∉ fds ∧ fd ≠ -1) opened.

Lemma close_down_ok opened : ∀ s fds, open_streams s fds opened →
  ∃ s', close_down s (length opened) = Ok s' ∧ Forall (λ fd, fd = -1) (streams_of s') ∧ ls_fds s' = fds.
Proof.
  induction opened as [|fd opened IH] using rev_ind; intros s fds (rest & Es & Hr & Ef & Hnd & Ho).
  - exists s. split; [done|]. rewrite Es. split; [done|]. rewrite Ef. set_solver.
  - rewrite length_app. cbn [length]. rewrite Nat.add_1_r. cbn [close_down].
    apply Forall_app in Ho as [Ho Hfd]. apply Forall_singleton in Hfd as [Hfd Hne].
    apply NoDup_app in Hnd as (Hnd & Hdis & _).
    destruct (close_stream_ok s (Z.of_nat (length opened)) fd) as (s1 & -> & E1 & E2); [lia| |].
    { rewrite Es, Nat2Z.id, <- app_assoc. by apply list_lookup_middle. }
    cbn [obind]. rewrite (proj2 (Z.eqb_neq fd (-1)) Hne), Ef in E2.
    apply (IH s1 fds). exists ((-1) :: rest). split.
    { rewrite E1, Es, Nat2Z.id, <- app_assoc. rewrite <- (Nat.add_0_r (length opened)). by rewrite insert_app_r. }
    split; [by constructor|]. split; [|done]. rewrite E2, list_to_set_app_L. cbn.
    assert (fd ∉ (list_to_set opened : gset Z)) by (rewrite elem_of_list_to_set; intros H; apply (Hdis fd H); set_solver).
    set_solver.
Qed.

(** Room for another stream. *)
Lemma grow_ok s fds opened : open_streams s fds opened →
  ∃ s0 rest, (if Zlen (streams_of s) <=? Zlen opened
      then ls_set_data s (nd_set_streams (ls_data s) (streams_of s ++ [(-1)]) (nd_dev_stats (ls_data s))) else s) = s0 ∧
    open_streams s0 fds opened ∧ streams_of s0 = opened ++ (-1) :: rest ∧ Forall (λ fd, fd = -1) rest ∧
    0 ≤ Zlen opened < Zlen (streams_of s0).
Proof.
  intros Ho. pose proof Ho as (rest & Es & Hr & Ef & Hno & Hop). destruct rest as [|x rest].
  - rewrite app_nil_r in Es. rewrite Es, (proj2 (Z.leb_le _ _)) by lia. do 2 eexists. split; [done|].
    split; [exists [(-1)]; split; [done|]; split; [by constructor|by split_and!]|]. split; [done|]. split; [by constructor|].
    cbn. rewrite Zlen_app. change (Zlen [(-1)]) with 1. pose proof (Zlen_nonneg opened). lia.
  - apply Forall_cons in Hr as [-> Hr]. assert (Zlen opened < Zlen (streams_of s)) as Hl.
    { rewrite Es, Zlen_app, Zlen_cons. pose proof (Zlen_nonneg rest). lia. }
    rewrite (proj2 (Z.leb_gt _ _)) by done. exists s, rest. split_and!; try done; [apply Zlen_nonneg].
Qed.

Lemma insert_after {A} (l k : list A) x y : <[Z.to_nat (Zlen l) := y]> (l ++ x :: k) = l ++ y :: k.
Proof.
  replace (Z.to_nat (Zlen l)) with (length l + 0)%nat by (unfold Zlen; lia). by rewrite insert_app_r.
Qed.

(** The streams with one more, or with the last one closed again. *)
Lemma open_streams_snoc s fds opened fd rest :
  streams_of s = opened ++ fd :: rest → Forall (λ fd, fd = -1) rest → ls_fds s = (fds ∪ list_to_set opened) ∪ {[fd]} →
  NoDup (opened ++ [fd]) → Forall (λ fd, fd ∉ fds ∧ fd ≠ -1) (opened ++ [fd]) → open_streams s fds (opened ++ [fd]).
Proof.
  intros E1 Hr E2 Hnd Hf. exists rest. rewrite <- app_assoc. split_and!; try done. rewrite E2, list_to_set_app_L. cbn. set_solver.
Qed.

Lemma open_streams_same s fds opened rest : streams_of s = opened ++ (-1) :: rest → Forall (λ fd, fd = -1) rest →
  ls_fds s = fds ∪ list_to_set opened → NoDup opened → Forall (λ fd, fd ∉ fds ∧ fd ≠ -1) opened → open_streams s fds opened.
Proof. intros E1 Hr E2 Hnd Hf. exists ((-1) :: rest). split_and!; try done. by constructor. Qed.

Lemma pstart_loop_ok named answers : ∀ s fds opened, open_streams s fds opened → Forall answers_ok answers →
  NoDup (opened ++ omap sa_fd answers) → Forall (λ fd, fd ∉ fds ∧ fd ≠ -1) (omap sa_fd answers) →
  ∃ s' failed, pstart_loop (linuxcommon_start_input_stream named) s (Zlen opened) answers = Ok (s', failed) ∧
    match failed with
    | None => open_streams s' fds (opened ++ omap sa_fd answers) ∧ length (omap sa_fd answers) = length answers
    | Some i => ∃ opened', i = Zlen opened' ∧ open_streams s' fds opened'
    end.
Proof.
  induction answers as [|sa answers IH]; intros s fds opened Ho Hok Hnd Hfd; cbn [pstart_loop].
  { do 2 eexists. split; [done|]. cbn. by rewrite app_nil_r. }
  apply Forall_cons in Hok as [Hsa Hok].
  destruct (grow_ok s fds opened Ho) as (s0 & rest & -> & (_ & _ & _ & F0 & Hno & Hop) & E0 & Hr & Hi).
  assert (∀ fd, sa_fd sa = Some fd → fd ∉ ls_fds s0 ∧ fd ≠ -1 ∧ fd ∉ fds ∧ fd ∉ opened) as Hnew.
  { intros fd E. cbn in Hnd, Hfd. rewrite E in Hnd, Hfd. apply Forall_cons in Hfd as [[H1 H2] _].
    apply NoDup_app in Hnd as (_ & Hdis & _). assert (fd ∉ opened) by (intros H; apply (Hdis fd H); set_solver).
    rewrite F0. split; [|done]. set_solver. }
  destruct (start_stream_ok named s0 (Zlen opened) sa Hi Hsa) as (s1 & ret & -> & Heff); [naive_solver|].
  cbn [obind]. unfold start_effect in Heff. setoid_rewrite E0 in Heff. setoid_rewrite insert_after in Heff.
  destruct Heff as [(-> & fd & Efd & E1 & F1)|(-> & E1 & F1)].
  2: { do 2 eexists. split; [done|]. exists opened. split; [done|]. apply (open_streams_same s1 fds opened rest); try done.
       by rewrite F1. }
  destruct (Hnew fd Efd) as (Hn1 & Hn2 & Hn3 & Hn4). cbn [Z.eqb negb]. destruct (sa_fanout sa); cbn [negb].
  - cbn [omap list_omap] in *. rewrite Efd in *. change (fd :: omap sa_fd answers) with ([fd] ++ omap sa_fd answers) in *.
    rewrite app_assoc in Hnd |- *. apply Forall_app in Hfd as [Hfd1 Hfd].
    replace (Zlen opened + 1) with (Zlen (opened ++ [fd])) by (rewrite Zlen_app; done).
    destruct (IH s1 fds (opened ++ [fd])) as (s' & failed & -> & Hres); try done.
    { apply (open_streams_snoc s1 fds opened fd rest); try done; [by rewrite F1, F0|by apply NoDup_app in Hnd as [? _]|].
      by apply Forall_app. }
    do 2 eexists. split; [done|]. destruct failed; [done|]. destruct Hres as [H1 H2]. split; [done|]. cbn. by rewrite H2.
  - unfold ls_fail. cbn [trace_set_err Z.eqb negb oassert obind ls_data].
    rewrite (aget_ok _ _ fd) by (try apply Zlen_nonneg; rewrite E1; apply list_lookup_middle; unfold Zlen; lia). cbn [obind].
    rewrite ls_set_fd_ok by (cbn; rewrite E1, Zlen_app, Zlen_cons; pose proof (Zlen_nonneg rest); pose proof (Zlen_nonneg opened); lia).
    cbn [obind]. do 2 eexists. split; [done|]. exists opened. split; [done|].
    apply (open_streams_same _ fds opened rest); try done; cbn; [by rewrite E1, insert_after|]. rewrite F1, F0. set_solver.
Qed.

(** Starting a trace with one socket for each thread ends with all of them or with
    none: if it succeeds, the streams have the sockets in order and no other
    descriptor has been opened; if any call fails, no stream has a socket and every
    descriptor that was opened has been closed. *)
Theorem pstart_all_or_none named s answers :
  Forall (λ fd, fd = -1) (streams_of s) → Forall answers_ok answers → NoDup (omap sa_fd answers) →
  Forall (λ fd, fd ∉ ls_fds s ∧ fd ≠ -1) (omap sa_fd answers) →
  ∃ s' ret, linuxnative_pstart_input named s answers = Ok (s', ret) ∧
    ((ret = 0 ∧ length (omap sa_fd answers) = length answers ∧ omap sa_fd answers `prefix_of` streams_of s' ∧
      ls_fds s' = ls_fds s ∪ list_to_set (omap sa_fd answers)) ∨
     (ret = -1 ∧ Forall (λ fd, fd = -1) (streams_of s') ∧ ls_fds s' = ls_fds s)).
Proof.
  intros Hs Hok Hnd Hfd. unfold linuxnative_pstart_input, linuxcommon_pstart_input.
  destruct (pstart_loop_ok named answers s (ls_fds s) []) as (s1 & failed & Hrun & Hres); try done.
  { exists (streams_of s). split_and!; try done; [set_solver|constructor]. }
  change (Zlen (@nil Z)) with 0 in Hrun. rewrite Hrun. cbn [obind]. destruct failed as [i|].
  - destruct Hres as (opened & -> & Ho). unfold Zlen. rewrite Nat2Z.id.
    destruct (close_down_ok opened s1 (ls_fds s) Ho) as (s2 & -> & H1 & H2). cbn [obind]. do 2 eexists. split; [done|]. by right.
  - destruct Hres as [(rest & E1 & _ & E2 & _) Hl]. do 2 eexists. split; [done|]. left. cbn [app] in *. split_and!; try done.
    by exists rest.
Qed.

(** ** Concrete sockets *)
Definition sample_header : libtrace_linuxnative_header :=
  {| nh_tv := {| tv_sec := 7; tv_usec := 7 |}; nh_ts := {| ts_sec := 7; ts_nsec := 7 |}; nh_timestamptype := TS_NONE;
     nh_wirelen := 0; nh_caplen := 0;
     nh_hdr := {| sll_ifindex := 0; sll_hatype := 0; sll_pkttype := 0; sll_halen := 0; sll_addr := [] |} |}.

Definition sample_room : list Z := replicate (Z.to_nat (LIBTRACE_PACKET_BUFSIZE - sizeof_native_header)) 0.
Definition no_buffer : native_packet :=
  {| np_hdr := sample_header; np_mem := []; np_buffer := false; np_control := TRACE_CTRL_PACKET |}.

Definition sample_msg (bytes : list Z) (control : list cmsg) : socket_item :=
  inl {| sm_bytes := bytes;
         sm_addr := {| sll_ifindex := 2; sll_hatype := 1; sll_pkttype := 0; sll_halen := 6; sll_addr := [1; 2; 3; 4; 5; 6] |};
         sm_control := control |}.

(** A packet is there, another comes while the reader waits, after an interrupt; then
    a message. *)
Definition sample_queue : list socket_item :=
  [sample_msg [1; 2; 3; 4; 5; 6] [CmsgOther; CmsgTimespec {| ts_sec := 1500000000; ts_nsec := 5 |}]].
Definition sample_waits : list native_wait :=
  [WaitNothing false; WaitReady [sample_msg [7; 8] [CmsgTimeval {| tv_sec := 1500000001; tv_usec := 6 |}]] false;
   WaitReady [sample_msg [9] []] true].

Lemma sample_room_ok : native_room sample_room.
Proof. unfold native_room, sample_room. by rewrite Zlen_replicate. Qed.

Definition answer_summary (a : read_answer) : option (Z * Z * timespec) :=
  match a with
  | GotPacket _ pk => Some (nh_wirelen (np_hdr pk), nh_caplen (np_hdr pk), linuxnative_get_timespec (np_hdr pk))
  | _ => None
  end.

Abbreviation sample_reads :=
  (native_reads sample_header sample_room 4 true [None; None; None] sample_waits sample_queue no_buffer).

Lemma sample_reads_summary :
  (let! ' (_, _, answers) := sample_reads in Ok (map answer_summary answers)) =
  Ok [Some (6, 4, {| ts_sec := 1500000000; ts_nsec := 5 |}); Some (2, 2, {| ts_sec := 1500000001; ts_nsec := 6000 |}); None].
Proof. vm_compute. reflexivity. Qed.

Lemma native_reads_in_order_witness :
  ∃ waits q answers items, sample_reads = Ok (waits, q, answers) ∧
    sample_queue ++ arrivals sample_waits = items ++ q ++ arrivals waits ∧ accounts 4 items answers ∧
    map answer_summary answers = [Some (6, 4, {| ts_sec := 1500000000; ts_nsec := 5 |});
                                  Some (2, 2, {| ts_sec := 1500000001; ts_nsec := 6000 |}); None].
Proof.
  assert (Forall item_ok sample_queue) as Hq by (repeat constructor; cbn; lia).
  assert (Forall wait_ok sample_waits) as Hw by (repeat constructor; cbn; lia).
  assert (Forall (λ stamp, ∀ tv, stamp = Some tv → timeval_fits tv) [None; None; None]) as Hs by by repeat constructor.
  pose proof (native_reads_in_order sample_header sample_room 4 true [None; None; None] sample_waits sample_queue no_buffer
    sample_room_ok ltac:(lia) ltac:(by intros []) Hq Hw Hs) as H.
  pose proof sample_reads_summary as E. destruct sample_reads as [[[waits q] answers]|f]; [|discriminate E].
  destruct H as (items & H1 & H2). injection E as E.
  exists waits, q, answers, items. split; [reflexivity|]. split; [exact H1|]. split; [exact H2|exact E].
Defined.

Definition sample_answers (fd : Z) (fanout : bool) : start_answers :=
  {| sa_socket := inl fd; sa_ifindex := 2; sa_bind := None; sa_timestampns := true; sa_timestamp := true; sa_waiting := fd;
     sa_dev := Some {| dv_rx_packets := 1000; dv_rx_errors := 0; dv_rx_drops := 0 |}; sa_fanout := fanout |}.
Definition sample_linux : linux_state := {| ls_data := linuxcommon_init_input; ls_fds := {[0; 1; 2]}; ls_err := 0 |}.

Lemma pstart_all_or_none_witness :
  ∃ s' ret, linuxnative_pstart_input true sample_linux [sample_answers 5 true; sample_answers 6 false] = Ok (s', ret) ∧
    ((ret = 0 ∧ length (omap sa_fd [sample_answers 5 true; sample_answers 6 false]) = 2%nat ∧
      omap sa_fd [sample_answers 5 true; sample_answers 6 false] `prefix_of` streams_of s' ∧
      ls_fds s' = ls_fds sample_linux ∪ list_to_set (omap sa_fd [sample_answers 5 true; sample_answers 6 false])) ∨
     (ret = -1 ∧ Forall (λ fd, fd = -1) (streams_of s') ∧ ls_fds s' = ls_fds sample_linux)).
Proof.
  apply (pstart_all_or_none true sample_linux [sample_answers 5 true; sample_answers 6 false]).
  - by repeat constructor.
  - repeat constructor; intros e H; discriminate H.
  - vm_compute. repeat constructor; set_solver.
  - cbn. repeat constructor; try lia; vm_compute; intros H; discriminate H.
Defined.

(** Of the packets thrown away at the start only those of the last stream are taken off
    the count. *)
Example drained_packets_counted :
  (let! ' (s, _) := linuxnative_pstart_input true sample_linux [sample_answers 5 true; sample_answers 6 true] in
   let d := linuxcommon_update_socket_statistics (ls_data s) [Some (5, 0); Some (6, 0)] in
   Ok (nd_tp_packets d)) = Ok 5.
Proof. vm_compute. reflexivity. Qed.

(** A packet without a timestamp shows the one of the packet before it. *)
Example stale_timestamp :
  (let! ' (_, q, pk, _, _) := linuxnative_read_packet sample_header sample_room 65536 None []
      [sample_msg [1] [CmsgTimeval {| tv_sec := 1500000000; tv_usec := 0 |}]; sample_msg [2] []] no_buffer in
   let! ' (_, _, pk, _, _) := linuxnative_read_packet sample_header sample_room 65536 None [] q pk in
   Ok (take 1 (np_mem pk), linuxnative_get_timeval (np_hdr pk))) = Ok ([2], {| tv_sec := 1500000000; tv_usec := 0 |}).
Proof. vm_compute. reflexivity. Qed.

(** The length of the address is lost in one byte, and no byte of it is copied. *)
Example no_address_sent :
  native_address 2 (replicate 8 99) [1; 2; 3; 4; 5; 6; 7; 8] =
  Ok {| sll_ifindex := 2; sll_hatype := 0; sll_pkttype := 0; sll_halen := 0; sll_addr := replicate 8 99 |}.
Proof. vm_compute. reflexivity. Qed.
