(* ===== verification/Rt.v ===== *)
(** * Reading from an RT server: lib/format_rt.c

    RT carries packets of any format over a TCP connection: a header of twelve
    bytes with the type and the length, and a body.  The client collects what it
    receives in blocks of [RT_BUF_SIZE] bytes; the packets given to the user point
    into these blocks, which belong to a bucket ([Buckets]) and are freed when all
    their packets have been released.  A packet of another format is then handed to
    a dead trace of that format, and from then on belongs to it.

    The network is not part of this repository: the class [RtNet] has the calls, and
    [RtStream] what is relied on.  A block is the list of the bytes received into it
    so far, and reading a byte behind them counts as an access out of bounds.  Which
    packet a trace has read last, and the caches of packets, are in [Trace]. *)

From Stdlib Require Import Ascii String.
From S2P Require Import Prelude DNodes Byteswap Packet Linktypes FormatHelper PcapFile Erf OldFormats LinuxRing ParConfig Uri LinkedList Buckets.
Local Open Scope Z_scope.
Local Open Scope outcome_scope.

Abbreviation COLLECTOR_PORT := 3435.
Abbreviation RT_ACK_FREQUENCY := 10.
Abbreviation LIBTRACE_RT_VERSION := 4.
Abbreviation LIBTRACE_RT_MAGIC := 0x5a.
Abbreviation RT_BUF_SIZE := (LIBTRACE_PACKET_BUFSIZE * 2).
Abbreviation sizeof_rt_header := 12.
Abbreviation TRACE_ERR_RT_FAILURE := (-10).
Abbreviation EINTR := 4.
Abbreviation EAGAIN := 11.

Abbreviation TRACE_RT_HELLO := 1.
Abbreviation TRACE_RT_START := 2.
Abbreviation TRACE_RT_ACK := 3.
Abbreviation TRACE_RT_STATUS := 4.
Abbreviation TRACE_RT_END_DATA := 6.
Abbreviation TRACE_RT_CLOSE := 7.
Abbreviation TRACE_RT_DENY_CONN := 8.
Abbreviation TRACE_RT_PAUSE_ACK := 10.
Abbreviation TRACE_RT_OPTION := 11.
Abbreviation TRACE_RT_KEYCHANGE := 12.
Abbreviation TRACE_RT_DUCK_2_4 := 13.
Abbreviation TRACE_RT_DUCK_2_5 := 14.
Abbreviation TRACE_RT_LOSTCONN := 15.
Abbreviation TRACE_RT_SERVERSTART := 16.
Abbreviation TRACE_RT_CLIENTDROP := 17.
Abbreviation TRACE_RT_METADATA := 18.
Abbreviation TRACE_RT_DUCK_5_0 := 19.
Abbreviation TRACE_RT_DATA_SIMPLE := 1000.
Abbreviation TRACE_RT_DATA_LINUX_NATIVE := 1009.
Abbreviation TRACE_RT_DATA_LINUX_RING := 1015.
Abbreviation TRACE_RT_DATA_BPF := 3000.
Abbreviation TRACE_RT_DATA_BPF_END := 3999.

(** ** The network *)
Class RtNet := {
  net : Type;
  gethostbyname : net → list Z → option Z;
  socket : net → net * Z;
  connect : net → Z → Z → Z → net * Z;
  (** At most [n] bytes, or the error; the flag says whether the call may wait. *)
  recv : net → Z → Z → bool → net * (list Z + Z);
  (** The number of bytes sent, or the error. *)
  send : net → Z → list Z → net * (Z + Z);
  close_fd : net → Z → net;
}.

(** ** Packets and dead traces *)
Inductive rt_dummy := DummyDuck | DummyErf | DummyPcap | DummyLinux | DummyRing | DummyBpf.
#[export] Instance rt_dummy_eq_dec : EqDecision rt_dummy.
Proof. solve_decision. Defined.
#[export] Instance rt_dummy_countable : Countable rt_dummy.
Proof.
  refine (inj_countable' (λ k, match k with DummyDuck => 0 | DummyErf => 1 | DummyPcap => 2 | DummyLinux => 3
    | DummyRing => 4 | DummyBpf => 5 end)%nat
    (λ n, match n with 0 => DummyDuck | 1 => DummyErf | 2 => DummyPcap | 3 => DummyLinux | 4 => DummyRing | _ => DummyBpf end)%nat _).
  by intros [].
Defined.

(** The trace a packet belongs to: the RT trace, or one of its dead traces. *)
Inductive rt_owner := OwnerRt | OwnerDummy (k : rt_dummy).
#[export] Instance rt_owner_eq_dec : EqDecision rt_owner.
Proof. solve_decision. Defined.

(** [dt_format]: a format was found; [dt_drops] is the counter of the ERF format. *)
Record dead_trace := { dt_format : bool; dt_err : Z; dt_drops : Z }.

(** A pointer into a block, or to a buffer of the packet's own. *)
Inductive rt_ptr := InBlock (block off : Z) | OwnBuffer.
#[export] Instance rt_ptr_eq_dec : EqDecision rt_ptr.
Proof. solve_decision. Defined.

(** [rk_own_freed]: the buffer of its own has been freed. *)
Record rt_packet := {
  rk_buffer : option rt_ptr;
  rk_own_freed : bool;
  rk_control : buf_control_t;
  rk_header : option rt_ptr;
  rk_payload : option rt_ptr;
  rk_type : Z;
  rk_trace : option rt_owner;
  rk_srcbucket : bool;
  rk_internalid : Z;
}.

Definition rk_set_trace (p : rt_packet) (t : option rt_owner) : rt_packet :=
  {| rk_buffer := rk_buffer p; rk_own_freed := rk_own_freed p; rk_control := rk_control p; rk_header := rk_header p;
     rk_payload := rk_payload p; rk_type := rk_type p; rk_trace := t; rk_srcbucket := rk_srcbucket p;
     rk_internalid := rk_internalid p |}.

Definition rk_set_buffer (p : rt_packet) (buffer : option rt_ptr) (control : buf_control_t) (header payload : option rt_ptr)
    (type : Z) : rt_packet :=
  {| rk_buffer := buffer; rk_own_freed := rk_own_freed p; rk_control := control; rk_header := header; rk_payload := payload;
     rk_type := type; rk_trace := rk_trace p; rk_srcbucket := rk_srcbucket p; rk_internalid := rk_internalid p |}.

(** [free(packet->buffer)] *)
Definition free_buffer (p : rt_packet) : outcome rt_packet :=
  match rk_buffer p with
  | None => Ok p
  | Some (InBlock _ _) => Fault Dangling
  | Some OwnBuffer =>
      if rk_own_freed p then Fault Dangling
      else Ok {| rk_buffer := rk_buffer p; rk_own_freed := true; rk_control := rk_control p; rk_header := rk_header p;
                 rk_payload := rk_payload p; rk_type := rk_type p; rk_trace := rk_trace p; rk_srcbucket := rk_srcbucket p;
                 rk_internalid := rk_internalid p |}
  end.

(** ** The fields of a header *)
Definition rt_type (b : list Z) (off : Z) : outcome Z := be32 b off.
Definition rt_magic (b : list Z) (off : Z) : outcome Z := read8 b (off + 4).
Definition rt_version (b : list Z) (off : Z) : outcome Z := read8 b (off + 5).
Definition rt_length (b : list Z) (off : Z) : outcome Z := be16 b (off + 6).
(** As it is stored, not converted. *)
Definition rt_sequence (b : list Z) (off : Z) : outcome Z := read32 b (off + 8).

Definition rt_header_bytes (type magic version length sequence : Z) : list Z :=
  bytes32 (byteswap32 type) ++ [magic; version] ++ bytes16 (htons length) ++ bytes32 sequence.

Section rt.
Context {N : RtNet}.
(** Whether the format of a dead trace is part of the library that was built. *)
Variable registered : rt_dummy → bool.
(** Bytes that were never set: the rest of a header, and of the block for
    acknowledgements. *)
Variable garbage : list Z.

(** The format's data, the error of the trace, and what the functions use: the
    network, the blocks, of which [rt_allocated] were allocated so far, and the
    static variable [ack_buffer]. *)
Record rt_format_data_t := {
  rt_hostname : list Z;
  rt_port : Z;
  rt_input_fd : Z;
  rt_reliable : option Z;
  rt_unacked : Z;
  rt_pkt_buffer : option Z;
  rt_buf_read : Z;
  rt_buf_write : Z;
  rt_dummies : gmap rt_dummy dead_trace;
  rt_bucket : libtrace_bucket_t;
  rt_err : Z;
  rt_net : net;
  rt_mem : gmap Z (list Z);
  rt_allocated : Z;
  rt_ack_buffer : option (list Z);
}.

Definition rt_set_conn (d : rt_format_data_t) (n : net) (fd : Z) (reliable : option Z) (unacked err : Z) : rt_format_data_t :=
  {| rt_hostname := rt_hostname d; rt_port := rt_port d; rt_input_fd := fd; rt_reliable := reliable; rt_unacked := unacked;
     rt_pkt_buffer := rt_pkt_buffer d; rt_buf_read := rt_buf_read d; rt_buf_write := rt_buf_write d;
     rt_dummies := rt_dummies d; rt_bucket := rt_bucket d; rt_err := err; rt_net := n; rt_mem := rt_mem d;
     rt_allocated := rt_allocated d; rt_ack_buffer := rt_ack_buffer d |}.
Definition rt_set_net (d : rt_format_data_t) (n : net) : rt_format_data_t :=
  rt_set_conn d n (rt_input_fd d) (rt_reliable d) (rt_unacked d) (rt_err d).
Definition rt_set_err (d : rt_format_data_t) (err : Z) : rt_format_data_t :=
  rt_set_conn d (rt_net d) (rt_input_fd d) (rt_reliable d) (rt_unacked d) err.
Definition rt_set_unacked (d : rt_format_data_t) (unacked : Z) : rt_format_data_t :=
  rt_set_conn d (rt_net d) (rt_input_fd d) (rt_reliable d) unacked (rt_err d).

Definition rt_set_buf (d : rt_format_data_t) (buf : option Z) (rd wr : Z) (b : libtrace_bucket_t) (mem : gmap Z (list Z))
    (allocated : Z) : rt_format_data_t :=
  {| rt_hostname := rt_hostname d; rt_port := rt_port d; rt_input_fd := rt_input_fd d; rt_reliable := rt_reliable d;
     rt_unacked := rt_unacked d; rt_pkt_buffer := buf; rt_buf_read := rd; rt_buf_write := wr; rt_dummies := rt_dummies d;
     rt_bucket := b; rt_err := rt_err d; rt_net := rt_net d; rt_mem := mem; rt_allocated := allocated;
     rt_ack_buffer := rt_ack_buffer d |}.

Definition rt_set_dummies (d : rt_format_data_t) (ds : gmap rt_dummy dead_trace) : rt_format_data_t :=
  {| rt_hostname := rt_hostname d; rt_port := rt_port d; rt_input_fd := rt_input_fd d; rt_reliable := rt_reliable d;
     rt_unacked := rt_unacked d; rt_pkt_buffer := rt_pkt_buffer d; rt_buf_read := rt_buf_read d; rt_buf_write := rt_buf_write d;
     rt_dummies := ds; rt_bucket := rt_bucket d; rt_err := rt_err d; rt_net := rt_net d; rt_mem := rt_mem d;
     rt_allocated := rt_allocated d; rt_ack_buffer := rt_ack_buffer d |}.

Definition rt_set_ack (d : rt_format_data_t) (buffer : option (list Z)) : rt_format_data_t :=
  {| rt_hostname := rt_hostname d; rt_port := rt_port d; rt_input_fd := rt_input_fd d; rt_reliable := rt_reliable d;
     rt_unacked := rt_unacked d; rt_pkt_buffer := rt_pkt_buffer d; rt_buf_read := rt_buf_read d; rt_buf_write := rt_buf_write d;
     rt_dummies := rt_dummies d; rt_bucket := rt_bucket d; rt_err := rt_err d; rt_net := rt_net d; rt_mem := rt_mem d;
     rt_allocated := rt_allocated d; rt_ack_buffer := buffer |}.

Definition rt_fail (d : rt_format_data_t) (errcode : Z) : outcome (rt_format_data_t * Z) :=
  let! err := trace_set_err errcode in Ok (rt_set_err d err, -1).

(** The bytes of a block; the blocks of a bucket are freed with it. *)
Definition block_bytes (d : rt_format_data_t) (block : Z) : outcome (list Z) :=
  if bool_decide (block ∈ b_freed (rt_bucket d)) then Fault Dangling
  else match rt_mem d !! block with Some l => Ok l | None => Fault Dangling end.

(** ** Connecting *)
Definition rt_init_format_data (n : net) : rt_format_data_t :=
  {| rt_hostname := []; rt_port := 0; rt_input_fd := -1; rt_reliable := None; rt_unacked := 0; rt_pkt_buffer := None;
     rt_buf_read := 0; rt_buf_write := 0; rt_dummies := ∅; rt_bucket := libtrace_bucket_init; rt_err := TRACE_ERR_NOERROR;
     rt_net := n; rt_mem := ∅; rt_allocated := 0; rt_ack_buffer := None |}.

(** [atoi(s)] is [(int) strtol(s, NULL, 10)]. *)
Definition rt_init_input (n : net) (uridata : list Z) : rt_format_data_t :=
  let '(hostname, port) :=
    if Zlen uridata =? 0 then (str "localhost"%string, COLLECTOR_PORT)
    else match strchr uridata COLON with
         | None => (uridata, COLLECTOR_PORT)
         | Some scan => (take scan uridata, i32 (strtoll (drop (S scan) uridata)))
         end in
  let d := rt_init_format_data n in
  {| rt_hostname := hostname; rt_port := port; rt_input_fd := rt_input_fd d; rt_reliable := rt_reliable d;
     rt_unacked := rt_unacked d; rt_pkt_buffer := rt_pkt_buffer d; rt_buf_read := rt_buf_read d; rt_buf_write := rt_buf_write d;
     rt_dummies := rt_dummies d; rt_bucket := rt_bucket d; rt_err := rt_err d; rt_net := rt_net d; rt_mem := rt_mem d;
     rt_allocated := rt_allocated d; rt_ack_buffer := rt_ack_buffer d |}.

(** [recv] of exactly [n] bytes into a structure. *)
Definition recv_exactly (d : rt_format_data_t) (n : Z) : rt_format_data_t * option (list Z) :=
  let '(s, r) := recv (rt_net d) (rt_input_fd d) n true in
  (rt_set_net d s, match r with inl bs => if Zlen bs =? n then Some bs else None | inr _ => None end).

(** The reason for which a connection is denied is only printed. *)
Definition rt_connect (d : rt_format_data_t) : outcome (rt_format_data_t * Z) :=
  match gethostbyname (rt_net d) (rt_hostname d) with
  | None => rt_fail d TRACE_ERR_INIT_FAILED
  | Some addr =>
      let '(s, fd) := socket (rt_net d) in
      let d := rt_set_conn d s fd (rt_reliable d) (rt_unacked d) (rt_err d) in
      if fd =? -1 then rt_fail d TRACE_ERR_INIT_FAILED
      else
        let '(s, r) := connect (rt_net d) fd addr (u16 (rt_port d)) in
        let d := rt_set_net d s in
        if r =? -1 then rt_fail d TRACE_ERR_INIT_FAILED
        else
          let '(d, connect_msg) := recv_exactly d sizeof_rt_header in
          match connect_msg with
          | None => rt_fail d TRACE_ERR_INIT_FAILED
          | Some connect_msg =>
              let! magic := rt_magic connect_msg 0 in
              if negb (magic =? LIBTRACE_RT_MAGIC) then rt_fail d TRACE_ERR_INIT_FAILED
              else
                let! version := rt_version connect_msg 0 in
                if negb (version =? LIBTRACE_RT_VERSION) then rt_fail d TRACE_ERR_INIT_FAILED
                else
                  let! type := rt_type connect_msg 0 in
                  if type =? TRACE_RT_DENY_CONN then rt_fail (recv_exactly d 4).1 TRACE_ERR_INIT_FAILED
                  else if type =? TRACE_RT_HELLO then
                    let '(d, hello_opts) := recv_exactly d 1 in
                    match hello_opts with
                    | None => rt_fail d TRACE_ERR_INIT_FAILED
                    | Some hello_opts =>
                        let! reliable := read8 hello_opts 0 in
                        Ok (rt_set_conn d (rt_net d) (rt_input_fd d) (Some reliable) 0 (rt_err d), 0)
                    end
                  else rt_fail d TRACE_ERR_INIT_FAILED
          end
  end.

Definition rt_start_input (d : rt_format_data_t) : outcome (rt_format_data_t * Z) :=
  let start_msg := rt_header_bytes TRACE_RT_START LIBTRACE_RT_MAGIC LIBTRACE_RT_VERSION 0 0 in
  let! ' (d, r) := rt_connect d in
  if r =? -1 then Ok (d, -1)
  else
    let '(s, r) := send (rt_net d) (rt_input_fd d) start_msg in
    Ok (rt_set_net d s, match r with inl n => if n =? sizeof_rt_header then 0 else -1 | inr _ => -1 end).

(** Only the type and the length of the message are set. *)
Definition rt_pause_input (d : rt_format_data_t) : rt_format_data_t * Z :=
  let close_msg := bytes32 (byteswap32 TRACE_RT_CLOSE) ++ take 2 garbage ++ bytes16 0 ++ take 4 (drop 2 garbage) in
  let '(s, _) := send (rt_net d) (rt_input_fd d) close_msg in
  (rt_set_net d (close_fd s (rt_input_fd d)), 0).

(** The dead traces are destroyed, and the blocks that are freed; the host name is
    not freed. *)
Definition rt_fin_input (d : rt_format_data_t) : outcome (gmap rt_dummy dead_trace * list Z) :=
  let! ' (_, freed) := libtrace_bucket_destroy (rt_bucket d) in
  Ok (∅, freed).

(** ** Acknowledgements *)

(** [while (to_write > 0)]; [ptr] is the offset of [buf_ptr]. *)
Fixpoint ack_loop (fuel : nat) (d : rt_format_data_t) (ack_buffer : list Z) (ptr to_write : Z)
  : outcome (rt_format_data_t * Z) :=
  match fuel with
  | O => Fault OutOfFuel
  | S fuel' =>
      if to_write =? 0 then Ok (d, 1)
      else
        let! bs := slice ack_buffer ptr to_write in
        let '(s, r) := send (rt_net d) (rt_input_fd d) bs in
        let d := rt_set_net d s in
        match r with
        | inr errno =>
            if (errno =? EINTR) || (errno =? EAGAIN) then ack_loop fuel' d ack_buffer ptr to_write
            else rt_fail d TRACE_ERR_RT_FAILURE
        | inl numbytes =>
            let to_write := u64 (to_write - numbytes) in
            ack_loop fuel' d ack_buffer (ptr + to_write) to_write
        end
  end.

Definition rt_send_ack (fuel : nat) (d : rt_format_data_t) (seqno : Z) : outcome (rt_format_data_t * Z) :=
  let ack_buffer := default (take 16 garbage) (rt_ack_buffer d) in
  let! ack_buffer := store ack_buffer 0 (bytes32 (byteswap32 TRACE_RT_ACK)) in
  let! ack_buffer := store ack_buffer 6 (bytes16 (htons 4)) in
  let! ack_buffer := store ack_buffer 12 (bytes32 (byteswap32 seqno)) in
  ack_loop fuel (rt_set_ack d (Some ack_buffer)) ack_buffer 0 16.

(** ** Handing packets to other formats *)
Definition create_dead (k : rt_dummy) : outcome dead_trace :=
  if registered k then Ok {| dt_format := true; dt_err := TRACE_ERR_NOERROR; dt_drops := 0 |}
  else let! err := trace_set_err TRACE_ERR_BAD_FORMAT in Ok {| dt_format := false; dt_err := err; dt_drops := 0 |}.

(** A dead trace, made when it is first needed; if [checked], an error of the new
    trace is printed, which clears it, and nothing else is done. *)
Definition use_dummy (d : rt_format_data_t) (k : rt_dummy) (checked : bool)
  : outcome (rt_format_data_t * option rt_owner * Z) :=
  match rt_dummies d !! k with
  | Some _ => Ok (d, Some (OwnerDummy k), 0)
  | None =>
      let! t := create_dead k in
      if checked && negb (dt_err t =? 0) then
        Ok (rt_set_dummies d (<[k := {| dt_format := dt_format t; dt_err := 0; dt_drops := dt_drops t |}]> (rt_dummies d)), None, -1)
      else Ok (rt_set_dummies d (<[k := t]> (rt_dummies d)), Some (OwnerDummy k), 0)
  end.

(** The new owner of the packet, if it changes, and the result. *)
Definition rt_set_format (d : rt_format_data_t) (type : Z) : outcome (rt_format_data_t * option rt_owner * Z) :=
  if (TRACE_RT_DATA_DLT <? type) && (type <? TRACE_RT_DATA_DLT_END) then use_dummy d DummyPcap false
  else if (TRACE_RT_DATA_BPF <? type) && (type <? TRACE_RT_DATA_BPF_END) then use_dummy d DummyBpf true
  else if (type =? TRACE_RT_DUCK_2_4) || (type =? TRACE_RT_DUCK_2_5) || (type =? TRACE_RT_DUCK_5_0)
  then use_dummy d DummyDuck false
  else if type =? TRACE_RT_DATA_ERF then use_dummy d DummyErf false
  else if type =? TRACE_RT_DATA_LINUX_NATIVE then use_dummy d DummyLinux true
  else if type =? TRACE_RT_DATA_LINUX_RING then use_dummy d DummyRing true
  else if (type =? TRACE_RT_STATUS) || (type =? TRACE_RT_METADATA) then Ok (d, Some OwnerRt, 0)
  else let! ' (d, r) := rt_fail d TRACE_ERR_BAD_PACKET in Ok (d, None, r).

(** What the formats' [prepare_packet] makes of the bytes from the start of a
    record on: the bytes, whether there is a header, where the payload starts, and
    the counter of lost packets. *)
Definition duck_prepare_record (rest : list Z) (drops : Z) : outcome (list Z * bool * option Z * Z) :=
  Ok (rest, false, Some 0, drops).

(** A [struct pcap_pkthdr] has 24 bytes, a [struct libtrace_linuxnative_header] 48. *)
Definition pcap_prepare_record (rest : list Z) (drops : Z) : outcome (list Z * bool * option Z * Z) :=
  Ok (rest, true, Some 24, drops).
Definition linuxnative_prepare_record (rest : list Z) (drops : Z) : outcome (list Z * bool * option Z * Z) :=
  Ok (rest, true, Some 48, drops).

Definition linuxring_prepare_record (rest : list Z) (drops : Z) : outcome (list Z * bool * option Z * Z) :=
  let! mac := read16 rest 12 in
  let! net := read16 rest 14 in
  Ok (rest, true, Some (TP_TRACE_START mac net TPACKET2_HDRLEN), drops).

Definition erf_prepare_record (rest : list Z) (drops : Z) : outcome (list Z * bool * option Z * Z) :=
  let! flags := erf_flags rest in
  let! payload := if rxerror flags then Ok None else let! n := erf_framing rest in Ok (Some n) in
  let! rlen := erf_rlen rest in
  let! _ := oassert (negb (rlen =? 0)) in
  let! type := erf_type rest in
  let! lctr := erf_lctr rest in
  Ok (rest, true, payload, if Z.land type 0x7f =? TYPE_DSM_COLOR_ETH then drops else u64 (drops + lctr)).

(** A [struct local_bpf_hdr] of 32 bytes is replaced by a [struct libtrace_bpf_hdr],
    whose times have 32 bits. *)
Definition bpf_prepare_record (rest : list Z) (drops : Z) : outcome (list Z * bool * option Z * Z) :=
  let! orig := slice rest 0 32 in
  let field i n := take n (drop i orig) in
  let! rest := store rest 0 (field 0 4 ++ field 8 4 ++ field 16 4 ++ field 20 4 ++ field 24 2)%nat in
  let! bh_hdrlen := read16 rest 16 in
  Ok (rest, true, Some bh_hdrlen, drops).

Definition prepare_record (k : rt_dummy) : list Z → Z → outcome (list Z * bool * option Z * Z) :=
  match k with
  | DummyDuck => duck_prepare_record
  | DummyErf => erf_prepare_record
  | DummyPcap => pcap_prepare_record
  | DummyLinux => linuxnative_prepare_record
  | DummyRing => linuxring_prepare_record
  | DummyBpf => bpf_prepare_record
  end.

(** [if (packet->buffer != buffer && packet->buf_control == TRACE_CTRL_PACKET) free(packet->buffer);] *)
Definition drop_buffer (p : rt_packet) (buffer : rt_ptr) : outcome rt_packet :=
  if bool_decide (rk_buffer p ≠ Some buffer) && bool_decide (rk_control p = TRACE_CTRL_PACKET) then free_buffer p else Ok p.

Definition rt_prepare_packet (p : rt_packet) (buffer : rt_ptr) (type : Z) (own : bool) : outcome (rt_packet * Z) :=
  let! p := drop_buffer p buffer in
  Ok (rk_set_buffer p (Some buffer) (if own then TRACE_CTRL_PACKET else TRACE_CTRL_EXTERNAL) None (Some buffer) type, 0).

(** [trace_prepare_packet] for a dead trace, whose format may be missing, and the
    format's [prepare_packet]. *)
Definition prepare_dummy (d : rt_format_data_t) (k : rt_dummy) (p : rt_packet) (block off type : Z) (own : bool)
  : outcome (rt_format_data_t * rt_packet * Z) :=
  match rt_dummies d !! k with
  | None => Fault NullDeref
  | Some t =>
      let p := rk_set_trace p (Some (OwnerDummy k)) in
      if negb (dt_format t) then Fault NullDeref
      else
        let! p := drop_buffer p (InBlock block off) in
        let! l := block_bytes d block in
        let! ' (rest, header, payload, drops) := prepare_record k (drop (Z.to_nat off) l) (dt_drops t) in
        let mem := <[block := take (Z.to_nat off) l ++ rest]> (rt_mem d) in
        let d := rt_set_buf d (rt_pkt_buffer d) (rt_buf_read d) (rt_buf_write d) (rt_bucket d) mem (rt_allocated d) in
        let d := rt_set_dummies d (<[k := {| dt_format := true; dt_err := dt_err t; dt_drops := drops |}]> (rt_dummies d)) in
        Ok (d, rk_set_buffer p (Some (InBlock block off)) (if own then TRACE_CTRL_PACKET else TRACE_CTRL_EXTERNAL)
                 (if header then Some (InBlock block off) else None)
                 ((λ n, InBlock block (off + n)) <$> payload) type, 0)
  end.

Definition trace_prepare_rt (d : rt_format_data_t) (p : rt_packet) (type : Z) : outcome (rt_format_data_t * rt_packet * Z) :=
  match rk_trace p, rk_payload p with
  | None, _ => Fault AssertFailed
  | Some _, None => Ok (d, p, -1)
  | Some OwnerRt, Some buffer => let! ' (p, r) := rt_prepare_packet p buffer type false in Ok (d, p, r)
  | Some (OwnerDummy k), Some (InBlock block off) => prepare_dummy d k p block off type false
  | Some (OwnerDummy _), Some OwnBuffer => Fault Dangling
  end.

(** ** Receiving *)
Definition header_bytes (d : rt_format_data_t) (p : rt_packet) : outcome (list Z * Z) :=
  match rk_header p with
  | None => Fault NullDeref
  | Some OwnBuffer => Fault Dangling
  | Some (InBlock block off) => let! l := block_bytes d block in Ok (l, off)
  end.

(** The acknowledgement of every [RT_ACK_FREQUENCY]th packet to a reliable server. *)
Definition rt_acknowledge (fuel : nat) (d : rt_format_data_t) (p : rt_packet) : outcome (rt_format_data_t * Z) :=
  let! reliable := match rt_reliable d with Some r => Ok r | None => Fault Uninitialised end in
  if (0 <? reliable) && (TRACE_RT_DATA_SIMPLE <=? rk_type p) then
    let d := rt_set_unacked d (i32 (rt_unacked d + 1)) in
    if RT_ACK_FREQUENCY <=? rt_unacked d then
      let! ' (l, off) := header_bytes d p in
      let! sequence := rt_sequence l off in
      let! ' (d, r) := rt_send_ack fuel d sequence in
      if r =? -1 then Ok (d, -1) else Ok (rt_set_unacked d 0, 0)
    else Ok (d, 0)
  else Ok (d, 0).

Definition rt_process_data_packet (fuel : nat) (d : rt_format_data_t) (p : rt_packet)
  : outcome (rt_format_data_t * rt_packet * Z) :=
  let! ' (d, r) := rt_acknowledge fuel d p in
  if r =? -1 then Ok (d, p, -1)
  else
    let! ' (d, owner, r) := rt_set_format d (rk_type p) in
    let p := match owner with Some o => rk_set_trace p (Some o) | None => p end in
    if r <? 0 then Ok (d, p, -1)
    else
      let! ' (d, p, r) := trace_prepare_rt d p (rk_type p) in
      Ok (d, p, if r =? 0 then 1 else -1).

(** A new block, which belongs to a new bucket. *)
Definition new_block (d : rt_format_data_t) (bs : list Z) : outcome rt_format_data_t :=
  let block := rt_allocated d in
  let! b := libtrace_create_new_bucket (rt_bucket d) (Some block) in
  Ok (rt_set_buf d (Some block) 0 (Zlen bs) b (<[block := bs]> (rt_mem d)) (block + 1)).

(** The block that is received into, with what was in the last one but has not been
    read. *)
Definition rt_make_room (d : rt_format_data_t) : outcome rt_format_data_t :=
  let! d := match rt_pkt_buffer d with None => new_block d [] | Some _ => Ok d end in
  match rt_pkt_buffer d with
  | None => Fault NullDeref
  | Some block =>
      if RT_BUF_SIZE / 2 <? rt_buf_write d then
        let! l := block_bytes d block in
        let! unread := slice l (rt_buf_read d) (rt_buf_write d - rt_buf_read d) in
        new_block d unread
      else Ok d
  end.

(** Bytes that are received behind those of the block. *)
Definition append_block (d : rt_format_data_t) (block : Z) (bs : list Z) : outcome rt_format_data_t :=
  let! l := block_bytes d block in
  let! front := slice l 0 (rt_buf_write d) in
  if RT_BUF_SIZE <? rt_buf_write d + Zlen bs then Fault OutOfBounds
  else Ok (rt_set_buf d (Some block) (rt_buf_read d) (rt_buf_write d + Zlen bs) (rt_bucket d)
             (<[block := front ++ bs ++ drop (length (front ++ bs)) l]> (rt_mem d)) (rt_allocated d)).

Definition rt_read (d : rt_format_data_t) (block : bool) : outcome (rt_format_data_t * Z) :=
  let! d := rt_make_room d in
  let '(s, r) := recv (rt_net d) (rt_input_fd d) (RT_BUF_SIZE - rt_buf_write d) block in
  let d := rt_set_net d s in
  match r with
  | inl [] => rt_fail d TRACE_ERR_RT_FAILURE
  | inr errno =>
      if errno =? EINTR then Ok (d, 0)
      else if errno =? EAGAIN then rt_fail d EAGAIN
      else rt_fail d TRACE_ERR_RT_FAILURE
  | inl bs =>
      match rt_pkt_buffer d with
      | None => Fault NullDeref
      | Some buf => let! d := append_block d buf bs in Ok (d, rt_buf_write d - rt_buf_read d)
      end
  end.

(** [while (buf_write - buf_read < sizeof(rt_header_t)) if (rt_read(libtrace, block) == -1) return -1;]
    The flag says that the loop ended and did not return. *)
Fixpoint header_loop (fuel : nat) (d : rt_format_data_t) (block : bool) : outcome (rt_format_data_t * bool) :=
  match fuel with
  | O => Fault OutOfFuel
  | S fuel' =>
      if rt_buf_write d - rt_buf_read d <? sizeof_rt_header then
        let! ' (d, r) := rt_read d block in
        if r =? -1 then Ok (d, false) else header_loop fuel' d block
      else Ok (d, true)
  end.

(** The header at [buf_read]. *)
Definition next_header (d : rt_format_data_t) : outcome (Z * list Z) :=
  match rt_pkt_buffer d with
  | None => Fault NullDeref
  | Some block => let! l := block_bytes d block in Ok (block, l)
  end.

Fixpoint body_loop (fuel : nat) (d : rt_format_data_t) (block : bool) : outcome (rt_format_data_t * bool) :=
  match fuel with
  | O => Fault OutOfFuel
  | S fuel' =>
      let! ' (_, l) := next_header d in
      let! len := rt_length l (rt_buf_read d) in
      if rt_buf_write d - (rt_buf_read d + sizeof_rt_header) <? len then
        let! ' (d, r) := rt_read d block in
        if r =? -1 then Ok (d, false) else body_loop fuel' d block
      else Ok (d, true)
  end.

(** What is done with a packet that has been received: the return value, [None] if
    it is the length of the message. *)
Definition rt_dispatch (fuel : nat) (d : rt_format_data_t) (p : rt_packet) : outcome (rt_format_data_t * rt_packet * option Z) :=
  let type := rk_type p in
  if TRACE_RT_DATA_SIMPLE <=? type then
    let! ' (d, p, _) := rt_process_data_packet fuel d p in Ok (d, p, None)
  else if (type =? TRACE_RT_DUCK_2_4) || (type =? TRACE_RT_DUCK_2_5) || (type =? TRACE_RT_STATUS) || (type =? TRACE_RT_METADATA)
  then let! ' (d, p, r) := rt_process_data_packet fuel d p in Ok (d, p, if r <? 0 then Some (-1) else None)
  else if (type =? TRACE_RT_END_DATA) || (type =? TRACE_RT_KEYCHANGE) || (type =? TRACE_RT_LOSTCONN)
       || (type =? TRACE_RT_CLIENTDROP) || (type =? TRACE_RT_SERVERSTART) || (type =? TRACE_RT_PAUSE_ACK)
       || (type =? TRACE_RT_OPTION)
  then Ok (d, p, None)
  else Ok (d, p, Some (-1)).

Definition rt_take_packet (fuel : nat) (d : rt_format_data_t) (p : rt_packet) : outcome (rt_format_data_t * rt_packet * Z) :=
  let! ' (block, l) := next_header d in
  let off := rt_buf_read d in
  let! type := rt_type l off in
  let! ' (b, id) := libtrace_push_into_bucket (rt_bucket d) in
  let! _ := oassert (negb (id =? 0)) in
  let! len := rt_length l off in
  let p := {| rk_buffer := Some (InBlock block off); rk_own_freed := rk_own_freed p; rk_control := TRACE_CTRL_EXTERNAL;
              rk_header := Some (InBlock block off); rk_payload := Some (InBlock block (off + sizeof_rt_header));
              rk_type := type; rk_trace := rk_trace p; rk_srcbucket := true; rk_internalid := id |} in
  let d := rt_set_buf d (rt_pkt_buffer d) (off + (len + sizeof_rt_header)) (rt_buf_write d) b (rt_mem d) (rt_allocated d) in
  let! ' (d, p, ret) := rt_dispatch fuel d p in
  match ret with
  | Some ret => Ok (d, p, ret)
  | None =>
      let! l := block_bytes d block in
      let! len := rt_length l off in
      Ok (d, p, len)
  end.

Definition rt_get_next_packet (fuel : nat) (d : rt_format_data_t) (p : rt_packet) (block : bool)
  : outcome (rt_format_data_t * rt_packet * Z) :=
  let! p := if bool_decide (rk_buffer p ≠ None) && bool_decide (rk_control p = TRACE_CTRL_PACKET) then free_buffer p else Ok p in
  let! ' (d, ready) := header_loop fuel d block in
  if negb ready then Ok (d, p, -1)
  else
    let! ' (d, ready) := body_loop fuel d block in
    if negb ready then Ok (d, p, -1)
    else rt_take_packet fuel d p.

Definition rt_read_packet (fuel : nat) (d : rt_format_data_t) (p : rt_packet) : outcome (rt_format_data_t * rt_packet * Z) :=
  rt_get_next_packet fuel d p true.

(** ** Lengths *)
Definition rt_get_capture_length (d : rt_format_data_t) (p : rt_packet) : outcome Z :=
  let type := rk_type p in
  if type =? TRACE_RT_STATUS then Ok 40
  else if type =? TRACE_RT_HELLO then Ok 1
  else if type =? TRACE_RT_ACK then Ok 4
  else if type =? TRACE_RT_DENY_CONN then Ok 4
  else if type =? TRACE_RT_METADATA then
    match rk_buffer p with
    | None => Fault NullDeref
    | Some OwnBuffer => Fault Dangling
    | Some (InBlock block off) =>
        let! l := block_bytes d block in
        let! label_len := read32 l off in
        let! value_len := read32 l (off + 4) in
        Ok (i32 (u64 (u32 (label_len + value_len) + 8)))
    end
  else Ok 0.

Definition rt_get_wire_length (p : rt_packet) : Z := 0.
Definition rt_get_framing_length (p : rt_packet) : Z := 0.
Definition rt_get_link_type (p : rt_packet) : libtrace_linktype_t := TRACE_TYPE_NONDATA.
Definition rt_get_fd (d : rt_format_data_t) : Z := rt_input_fd d.

(** ** Reading through a trace

    The parts of [trace_fin_packet] and [trace_read_packet] that matter for RT
    packets: the format has no [fin_packet], and there is no filter and no snap
    length. *)
Definition fin_rt_packet (d : rt_format_data_t) (p : rt_packet) : outcome (rt_format_data_t * rt_packet) :=
  let! d :=
    if rk_srcbucket p && negb (rk_internalid p =? 0) then
      let! b := libtrace_release_bucket_id (rt_bucket d) (rk_internalid p) in
      Ok (rt_set_buf d (rt_pkt_buffer d) (rt_buf_read d) (rt_buf_write d) b (rt_mem d) (rt_allocated d))
    else Ok d in
  Ok (d, {| rk_buffer := if bool_decide (rk_control p = TRACE_CTRL_PACKET) then rk_buffer p else None;
            rk_own_freed := rk_own_freed p; rk_control := rk_control p; rk_header := None; rk_payload := None;
            rk_type := rk_type p; rk_trace := None; rk_srcbucket := false; rk_internalid := rk_internalid p |}).

Definition trace_read_rt (fuel : nat) (d : rt_format_data_t) (p : rt_packet) : outcome (rt_format_data_t * rt_packet * Z) :=
  if negb (rt_err d =? 0) then Ok (d, p, -1)
  else
    let! ' (d, p) := if bool_decide (rk_trace p = Some OwnerRt) then fin_rt_packet d p else Ok (d, p) in
    rt_read_packet fuel d (rk_set_trace p (Some OwnerRt)).

(** ** Events *)
Inductive rt_event_type := RT_EVENT_IOWAIT | RT_EVENT_PACKET | RT_EVENT_TERMINATE.

(** The loop of [trace_event_rt]; [filter] is [trace_apply_filter], if there is a
    filter.  The result has the type and size of the event and how many packets were
    accepted and filtered. *)
Fixpoint event_loop (filter : option (rt_format_data_t → rt_packet → bool)) (fuel : nat) (d : rt_format_data_t)
    (p : rt_packet) (accepted filtered : Z)
  : outcome (rt_format_data_t * rt_packet * rt_event_type * Z * Z * Z) :=
  match fuel with
  | O => Fault OutOfFuel
  | S fuel' =>
      let! ' (d, p, size) := rt_get_next_packet fuel' d p false in
      if size =? -1 then
        let err := rt_err d in
        let d := rt_set_err d 0 in
        Ok (d, p, if err =? EAGAIN then RT_EVENT_IOWAIT else RT_EVENT_PACKET, size, accepted, filtered)
      else if (size =? 0) && (rk_type p =? TRACE_RT_END_DATA) then Ok (d, p, RT_EVENT_TERMINATE, size, accepted, filtered)
      else
        let accepted := u64 (accepted + 1) in
        match filter with
        | Some matches =>
            if matches d p then Ok (d, p, RT_EVENT_PACKET, size, accepted, filtered)
            else event_loop filter fuel' d p accepted (u64 (filtered + 1))
        | None => Ok (d, p, RT_EVENT_PACKET, size, accepted, filtered)
        end
  end.
End rt.

(** ** Messages on the wire *)
Record rt_message := { m_type : Z; m_magic : Z; m_version : Z; m_sequence : Z; m_body : list Z }.

Definition message_header (m : rt_message) : list Z :=
  rt_header_bytes (m_type m) (m_magic m) (m_version m) (Zlen (m_body m)) (m_sequence m).
Definition message_bytes (m : rt_message) : list Z := message_header m ++ m_body m.

Definition message_ok (m : rt_message) : Prop :=
  0 ≤ m_type m < 2 ^ 32 ∧ 0 ≤ m_sequence m < 2 ^ 32 ∧ Zlen (m_body m) < 2 ^ 16.

Lemma Zlen_message_header m : Zlen (message_header m) = sizeof_rt_header.
Proof. done. Qed.

Lemma Zlen_message_bytes m : Zlen (message_bytes m) = sizeof_rt_header + Zlen (m_body m).
Proof. unfold message_bytes. rewrite Zlen_app, Zlen_message_header. done. Qed.

Lemma message_fields pre m post : message_ok m →
  rt_type (pre ++ message_header m ++ post) (Zlen pre) = Ok (m_type m) ∧
  rt_length (pre ++ message_header m ++ post) (Zlen pre) = Ok (Zlen (m_body m)) ∧
  rt_sequence (pre ++ message_header m ++ post) (Zlen pre) = Ok (m_sequence m).
Proof.
  intros (Ht & Hs & Hb). unfold message_header, rt_header_bytes. pose proof (Zlen_nonneg (m_body m)). split_and!.
  - unfold rt_type, be32. rewrite <- !app_assoc, read32_bytes32 by (by apply byteswap32_range). cbn [obind].
    by rewrite byteswap32_involutive.
  - unfold rt_length. rewrite <- !app_assoc.
    replace (Zlen pre + 6) with (Zlen (pre ++ bytes32 (byteswap32 (m_type m)) ++ [m_magic m; m_version m])).
    2: { rewrite !Zlen_app. done. }
    rewrite <- (be16_field (pre ++ bytes32 (byteswap32 (m_type m)) ++ [m_magic m; m_version m]) (Zlen (m_body m)) (bytes32 (m_sequence m) ++ post)) by lia.
    by rewrite <- !app_assoc.
  - unfold rt_sequence. rewrite <- !app_assoc.
    replace (Zlen pre + 8) with (Zlen (pre ++ bytes32 (byteswap32 (m_type m)) ++ [m_magic m; m_version m] ++ bytes16 (htons (Zlen (m_body m))))).
    2: { rewrite !Zlen_app. done. }
    rewrite <- (read32_bytes32 (pre ++ bytes32 (byteswap32 (m_type m)) ++ [m_magic m; m_version m] ++ bytes16 (htons (Zlen (m_body m)))) (m_sequence m) post) by done.
    by rewrite <- !app_assoc.
Qed.

(** ** Preparing a record that other bytes follow *)
Lemma aget_app_ok {A} (l x : list A) i a : aget l i = Ok a → aget (l ++ x) i = Ok a.
Proof. intros H. pose proof (aget_ok_inv _ _ _ H) as [Hi _]. by rewrite aget_app_l by lia. Qed.

Lemma read16_app_ok l x off v : read16 l off = Ok v → read16 (l ++ x) off = Ok v.
Proof.
  unfold read16. intros H. obind_inv H. obind_inv H. by rewrite (aget_app_ok _ x _ _ Hstep), (aget_app_ok _ x _ _ Hstep0).
Qed.

Lemma be16_app_ok l x off v : be16 l off = Ok v → be16 (l ++ x) off = Ok v.
Proof. unfold be16. intros H. obind_inv H. by rewrite (read16_app_ok _ x _ _ Hstep). Qed.

Lemma read64_app_ok l x off v : read64 l off = Ok v → read64 (l ++ x) off = Ok v.
Proof.
  unfold read64, read32. intros H. obind_inv H. obind_inv Hstep. obind_inv Hstep. obind_inv H. obind_inv Hstep2. obind_inv Hstep2.
  rewrite (read16_app_ok _ x _ _ Hstep0), (read16_app_ok _ x _ _ Hstep1), (read16_app_ok _ x _ _ Hstep3), (read16_app_ok _ x _ _ Hstep4).
  cbn [obind]. injection Hstep as <-. injection Hstep2 as <-. done.
Qed.

Lemma ext_loop_app fuel : ∀ fuel' l x off extsize rlen v, (fuel ≤ fuel')%nat →
  ext_loop fuel l off extsize rlen = Ok v → ext_loop fuel' (l ++ x) off extsize rlen = Ok v.
Proof.
  induction fuel as [|fuel IH]; intros [|fuel'] l x off extsize rlen v Hle; cbn [ext_loop]; try lia;
    intros H; obind_inv H; rewrite (read64_app_ok _ x _ _ Hstep); cbn [obind]; destruct (a <? 2 ^ 31); try done.
  obind_inv H. rewrite Hstep0. cbn [obind]. apply IH; [lia|done].
Qed.

Lemma erf_framing_app l x v : erf_framing l = Ok v → erf_framing (l ++ x) = Ok v.
Proof.
  unfold erf_framing, erf_padding, erf_type, read8, erf_rlen. intros H. obind_inv H. rewrite (aget_app_ok _ x _ _ Hstep). cbn [obind].
  obind_inv H. rewrite Hstep in H. cbn [obind] in H. destruct (_ =? 0x80); [|by injection Hstep0 as <-].
  obind_inv Hstep0. rewrite (be16_app_ok _ x _ _ Hstep1). cbn [obind].
  rewrite (ext_loop_app (length l) (length (l ++ x)) l x _ _ _ _ ltac:(rewrite length_app; lia) Hstep0). done.
Qed.

Lemma slice_app_ok l x off n bs : slice l off n = Ok bs → 0 ≤ n → slice (l ++ x) off n = Ok bs.
Proof.
  unfold slice. destruct (Z.leb_spec 0 off); [|done]. destruct (Z.leb_spec (off + n) (Zlen l)) as [Hl|]; [|done]. cbn [andb]. intros [= <-] Hn.
  rewrite Zlen_app. pose proof (Zlen_nonneg x). rewrite (proj2 (Z.leb_le _ _)) by lia. f_equal.
  unfold Zlen in Hl. rewrite drop_app_le by lia. rewrite take_app_le; [done|]. rewrite length_drop. lia.
Qed.

Lemma store_app_ok l x off bs l' : store l off bs = Ok l' → store (l ++ x) off bs = Ok (l' ++ x) ∧ Zlen l' = Zlen l.
Proof.
  unfold store. destruct (Z.leb_spec 0 off); [|done]. destruct (Z.leb_spec (off + Zlen bs) (Zlen l)) as [Hl|]; [|done]. cbn [andb]. intros [= <-].
  rewrite !Zlen_app. pose proof (Zlen_nonneg x). rewrite (proj2 (Z.leb_le _ _)) by lia. unfold Zlen in *. split.
  - f_equal. rewrite take_app_le, drop_app_le by lia. by rewrite <- !app_assoc.
  - rewrite length_take, length_drop. lia.
Qed.

Lemma prepare_record_app k l x drops l' header payload drops' :
  prepare_record k l drops = Ok (l', header, payload, drops') →
  prepare_record k (l ++ x) drops = Ok (l' ++ x, header, payload, drops') ∧ Zlen l' = Zlen l.
Proof.
  destruct k; unfold prepare_record, duck_prepare_record, erf_prepare_record, pcap_prepare_record, linuxnative_prepare_record,
    linuxring_prepare_record, bpf_prepare_record; try (by intros [= <- <- <- <-]).
  - intros H. obind_inv H. unfold erf_flags, read8 in Hstep |- *. rewrite (aget_app_ok _ x _ _ Hstep). cbn [obind].
    obind_inv H. obind_inv H. obind_inv H. obind_inv H. obind_inv H. injection H as <- <- <- <-.
    assert ((if rxerror a then Ok None else let! n := erf_framing (l ++ x) in Ok (Some n)) = Ok a0) as ->.
    { destruct (rxerror a); [done|]. obind_inv Hstep0. by rewrite (erf_framing_app _ x _ Hstep5). }
    cbn [obind]. unfold erf_rlen, erf_type, erf_lctr, read8 in *. rewrite (be16_app_ok _ x _ _ Hstep1). cbn [obind]. rewrite Hstep2. cbn [obind].
    rewrite (aget_app_ok _ x _ _ Hstep3). cbn [obind]. by rewrite (be16_app_ok _ x _ _ Hstep4).
  - intros H. obind_inv H. obind_inv H. injection H as <- <- <- <-.
    by rewrite (read16_app_ok _ x _ _ Hstep), (read16_app_ok _ x _ _ Hstep0).
  - intros H. obind_inv H. obind_inv H. obind_inv H. injection H as <- <- <- <-.
    rewrite (slice_app_ok _ x _ _ _ Hstep) by done. cbn [obind].
    destruct (store_app_ok _ x _ _ _ Hstep0) as [-> HZ]. cbn [obind]. by rewrite (read16_app_ok _ x _ _ Hstep1).
Qed.

(** ** What a message is to become

    The format of the messages of a type, if they are packets of another format. *)
Definition rt_kind (type : Z) : option rt_dummy :=
  if (TRACE_RT_DATA_DLT <? type) && (type <? TRACE_RT_DATA_DLT_END) then Some DummyPcap
  else if (TRACE_RT_DATA_BPF <? type) && (type <? TRACE_RT_DATA_BPF_END) then Some DummyBpf
  else if (type =? TRACE_RT_DUCK_2_4) || (type =? TRACE_RT_DUCK_2_5) then Some DummyDuck
  else if type =? TRACE_RT_DATA_ERF then Some DummyErf
  else if type =? TRACE_RT_DATA_LINUX_NATIVE then Some DummyLinux
  else if type =? TRACE_RT_DATA_LINUX_RING then Some DummyRing
  else None.

Definition rt_information (type : Z) : bool := (type =? TRACE_RT_STATUS) || (type =? TRACE_RT_METADATA).
Definition rt_control (type : Z) : bool :=
  (type =? TRACE_RT_END_DATA) || (type =? TRACE_RT_KEYCHANGE) || (type =? TRACE_RT_LOSTCONN) || (type =? TRACE_RT_CLIENTDROP)
  || (type =? TRACE_RT_SERVERSTART) || (type =? TRACE_RT_PAUSE_ACK) || (type =? TRACE_RT_OPTION).

(** The packet for a message: the trace it belongs to, its bytes, and where its
    buffer, header and payload start, from the start of the message. *)
Record rt_view := {
  v_owner : rt_owner;
  v_body : list Z;
  v_buffer : Z;
  v_header : option Z;
  v_payload : option Z;
}.

Definition message_view (m : rt_message) : option rt_view :=
  match rt_kind (m_type m) with
  | Some k =>
      match prepare_record k (m_body m) 0 with
      | Ok (body, header, payload, _) =>
          Some {| v_owner := OwnerDummy k; v_body := body; v_buffer := 12; v_header := if header then Some 12 else None;
                  v_payload := Z.add 12 <$> payload |}
      | Fault _ => None
      end
  | None =>
      if rt_information (m_type m) then
        Some {| v_owner := OwnerRt; v_body := m_body m; v_buffer := 12; v_header := None; v_payload := Some 12 |}
      else if rt_control (m_type m) then
        Some {| v_owner := OwnerRt; v_body := m_body m; v_buffer := 0; v_header := Some 0; v_payload := Some 12 |}
      else None
  end.

(** The packet shows the message that starts at [off] in a block. *)
Definition shows (p : rt_packet) (type : Z) (v : rt_view) (block off : Z) : Prop :=
  let at_ n := InBlock block (off + n) in
  rk_type p = type ∧ rk_trace p = Some (v_owner v) ∧ rk_control p = TRACE_CTRL_EXTERNAL ∧
  rk_buffer p = Some (at_ (v_buffer v)) ∧ rk_header p = at_ <$> v_header v ∧ rk_payload p = at_ <$> v_payload v ∧
  rk_srcbucket p = true.

Lemma prepare_record_drops k l drops drops0 l' header payload drops' :
  prepare_record k l drops = Ok (l', header, payload, drops') →
  ∃ drops1, prepare_record k l drops0 = Ok (l', header, payload, drops1).
Proof.
  destruct k; unfold prepare_record, duck_prepare_record, erf_prepare_record, pcap_prepare_record, linuxnative_prepare_record,
    linuxring_prepare_record, bpf_prepare_record; intros H; repeat obind_inv H; injection H as <- <- <- <-; try by eexists.
  - rewrite Hstep. cbn [obind]. rewrite Hstep0. cbn [obind]. rewrite Hstep1. cbn [obind]. rewrite Hstep2. cbn [obind].
    rewrite Hstep3. cbn [obind]. rewrite Hstep4. cbn [obind]. by eexists.
  - rewrite Hstep. cbn [obind]. rewrite Hstep0. cbn [obind]. by eexists.
  - rewrite Hstep. cbn [obind]. rewrite Hstep0. cbn [obind]. rewrite Hstep1. cbn [obind]. by eexists.
Qed.

(** ** The connection

    What is relied on of a connection that does not break: the bytes arrive in
    order and in pieces of any size, a call that waits is interrupted only finitely
    often, nothing is received only at the end, and of what is sent an initial
    piece is taken, or nothing with an error. *)
Class RtStream (N : RtNet) := {
  incoming : net → Z → list Z;
  interrupts : net → nat;
  sent : net → Z → list Z;
  recv_law : ∀ s fd n block, 0 < n →
    match recv s fd n block with
    | (s', inl bs) => incoming s fd = bs ++ incoming s' fd ∧ Zlen bs ≤ n ∧ (bs = [] → incoming s fd = []) ∧
                      (interrupts s' ≤ interrupts s)%nat
    | (s', inr errno) => incoming s' fd = incoming s fd ∧
        (errno = EINTR ∧ (interrupts s' < interrupts s)%nat ∨
         errno = EAGAIN ∧ block = false ∧ (interrupts s' ≤ interrupts s)%nat)
    end;
  send_law : ∀ s fd bs,
    let '(s', r) := send s fd bs in
    incoming s' fd = incoming s fd ∧ interrupts s' = interrupts s ∧
    match r with
    | inl n => 0 ≤ n ≤ Zlen bs ∧ sent s' fd = sent s fd ++ take (Z.to_nat n) bs
    | inr errno => sent s' fd = sent s fd
    end;
}.

(** Acknowledgements, of sixteen bytes, are never sent in pieces, and no signal
    interrupts their sending. *)
Definition whole_acks {N : RtNet} : Prop := ∀ s fd bs, Zlen bs = 16 → (send s fd bs).2 = inl 16.

Section stream.
Context {N : RtNet} {NS : RtStream N} (registered : rt_dummy → bool) (garbage : list Z).
Implicit Types (d : rt_format_data_t) (p : rt_packet).

Definition unread d : list Z :=
  match rt_pkt_buffer d with
  | None => []
  | Some block => drop (Z.to_nat (rt_buf_read d)) (default [] (rt_mem d !! block))
  end.
(** What is still to come, and how often [recv] can still be called. *)
Definition rt_stream d : list Z := unread d ++ incoming (rt_net d) (rt_input_fd d).
Definition rt_work d : nat := length (incoming (rt_net d) (rt_input_fd d)) + interrupts (rt_net d).

(** ** The invariant

    [held] has, for every packet that has not been released, the block it is in, its
    offset and its bytes. *)
Definition held_blocks (held : gmap Z (Z * Z * list Z)) : gmap Z (option Z) := (λ h, Some h.1.1) <$> held.

Record rt_inv d (held : gmap Z (Z * Z * list Z)) : Prop := {
  ri_bucket : ∃ xs, bucket_inv (rt_bucket d) xs (seqZ 0 (rt_allocated d)) (held_blocks held) ∧ Zlen xs ≤ rt_allocated d;
  ri_alloc : 0 ≤ rt_allocated d;
  ri_mem : ∀ block, is_Some (rt_mem d !! block) → 0 ≤ block < rt_allocated d;
  ri_current : rt_pkt_buffer d = current_buffer (rt_bucket d);
  ri_block : match rt_pkt_buffer d with
             | None => rt_buf_read d = 0 ∧ rt_buf_write d = 0
             | Some block => ∃ l, rt_mem d !! block = Some l ∧ rt_buf_write d = Zlen l ∧ Zlen l ≤ RT_BUF_SIZE ∧
                                  0 ≤ rt_buf_read d ≤ rt_buf_write d
             end;
  ri_filled : filled_to (rt_bucket d) (rt_buf_read d / sizeof_rt_header);
  ri_held : ∀ id block off bs, held !! id = Some (block, off, bs) →
    ∃ l, rt_mem d !! block = Some l ∧ slice l off (Zlen bs) = Ok bs ∧
         (rt_pkt_buffer d = Some block → off + Zlen bs ≤ rt_buf_read d);
}.

Lemma rt_init_inv s uridata : rt_inv (rt_init_input s uridata) ∅.
Proof.
  unfold rt_init_input. destruct (if Zlen uridata =? 0 then _ else _) as [hostname port].
  split; cbn; try done.
  - exists []. split; [apply bucket_init_inv|done].
  - by intros block [l Hl].
Qed.

(** Blocks with packets in use, and the current block, can be read. *)
Lemma current_bytes d held block : rt_inv d held → rt_pkt_buffer d = Some block →
  ∃ l, block_bytes d block = Ok l ∧ rt_mem d !! block = Some l ∧ rt_buf_write d = Zlen l ∧ Zlen l ≤ RT_BUF_SIZE ∧
    0 ≤ rt_buf_read d ≤ Zlen l ∧ unread d = drop (Z.to_nat (rt_buf_read d)) l.
Proof.
  intros I Hb. pose proof (ri_block _ _ I) as H. rewrite Hb in H. destruct H as (l & Hl & Hw & Hs & Hr).
  exists l. destruct (ri_bucket _ _ I) as (xs & B & _). pose proof (ri_current _ _ I) as C. rewrite Hb in C.
  destruct (current_buffer_live _ _ _ _ block B (NoDup_seqZ 0 _) (eq_sym C)) as [_ Hf].
  unfold block_bytes, unread. rewrite bool_decide_eq_false_2, Hb, Hl by done. split_and!; try done; lia.
Qed.

Lemma held_bytes d held id block off bs : rt_inv d held → held !! id = Some (block, off, bs) →
  ∃ l, block_bytes d block = Ok l ∧ slice l off (Zlen bs) = Ok bs.
Proof.
  intros I Hh. destruct (ri_held _ _ I _ _ _ _ Hh) as (l & Hl & Hs & _). exists l. split; [|done].
  destruct (ri_bucket _ _ I) as (xs & B & _).
  destruct (out_buffer_live _ _ _ _ id block B (NoDup_seqZ 0 _)) as [_ Hf].
  { unfold held_blocks. by rewrite lookup_fmap, Hh. }
  unfold block_bytes. by rewrite bool_decide_eq_false_2, Hl by done.
Qed.

Lemma block_bytes_mem d block l : block_bytes d block = Ok l → rt_mem d !! block = Some l.
Proof. unfold block_bytes. destruct (bool_decide _); [done|]. destruct (rt_mem d !! block); [|done]. by intros [= ->]. Qed.

(** Changes to the connection and its counters. *)
Lemma rt_inv_conn d held s fd reliable unacked err : rt_inv d held → rt_inv (rt_set_conn d s fd reliable unacked err) held.
Proof. intros [I1 I2 I3 I4 I5 I6 I7]. by split. Qed.

(** The ids that are taken, and the next one. *)
Definition rt_ids d := (b_packets (rt_bucket d), b_nextid (rt_bucket d)).

Lemma same_ids d d' c : rt_ids d' = rt_ids d → ids_up_to (rt_bucket d) c → ids_up_to (rt_bucket d') c.
Proof. intros [= E1 E2]. unfold ids_up_to. by rewrite E1, E2. Qed.

(** What the functions on blocks leave alone. *)
Definition rt_env d := (rt_net d, rt_input_fd d, rt_reliable d, rt_unacked d, rt_dummies d, rt_ack_buffer d, rt_err d, rt_ids d).

(** ** Receiving *)
Lemma new_block_ok d held bs : rt_inv d held → rt_allocated d + 1 < SIZE_MAX → Zlen bs ≤ RT_BUF_SIZE →
  ∃ d', new_block d bs = Ok d' ∧ rt_inv d' held ∧ unread d' = bs ∧ rt_env d' = rt_env d ∧
    rt_allocated d' = rt_allocated d + 1 ∧ rt_buf_write d' = Zlen bs ∧ is_Some (rt_pkt_buffer d').
Proof.
  intros I Ha Hbs. destruct (ri_bucket _ _ I) as (xs & B & Hxs). pose proof (ri_alloc _ _ I) as A0.
  destruct (create_new_bucket_ok (rt_bucket d) xs _ _ (Some (rt_allocated d)) B) as (b & xs' & Hc & B' & Hxs'); [lia|].
  unfold new_block. rewrite Hc. cbn [obind]. destruct (create_current _ _ _ Hc) as [Hf Hcur]. destruct (create_ids _ _ _ Hc) as [K1 K2].
  eexists. split; [done|]. assert (rt_mem d !! rt_allocated d = None) as Hfresh.
  { destruct (rt_mem d !! rt_allocated d) eqn:E; [|done]. pose proof (ri_mem _ _ I _ (mk_is_Some _ _ E)). lia. }
  split_and!; try done; [|unfold unread; cbn; by rewrite lookup_insert_eq|unfold rt_env, rt_ids; cbn; by rewrite K1, K2].
  split; cbn.
  - exists xs'. split; [|lia]. by rewrite seqZ_app by lia.
  - lia.
  - intros block [l Hl]. apply lookup_insert_Some in Hl as [[<- _]|[_ Hl]]; [lia|]. pose proof (ri_mem _ _ I _ (mk_is_Some _ _ Hl)). lia.
  - done.
  - exists bs. rewrite lookup_insert_eq. pose proof (Zlen_nonneg bs). split_and!; done || lia.
  - done.
  - intros id block off bs' Hh. destruct (ri_held _ _ I _ _ _ _ Hh) as (l & Hl & Hs & _). exists l.
    assert (block ≠ rt_allocated d) by congruence. rewrite lookup_insert_ne by done. split_and!; [done..|]. congruence.
Qed.

Lemma make_room_ok d held : rt_inv d held → rt_allocated d + 1 < SIZE_MAX → Zlen (unread d) < RT_BUF_SIZE →
  ∃ d', rt_make_room d = Ok d' ∧ rt_inv d' held ∧ unread d' = unread d ∧ rt_env d' = rt_env d ∧
    rt_allocated d' ≤ rt_allocated d + 1 ∧ rt_buf_write d' < RT_BUF_SIZE ∧ is_Some (rt_pkt_buffer d').
Proof.
  intros I Ha Hu. unfold rt_make_room. destruct (rt_pkt_buffer d) as [block|] eqn:Hb.
  - cbn [obind]. rewrite Hb. destruct (current_bytes _ _ _ I Hb) as (l & Hl & _ & Hw & Hsz & Hr & Hun).
    destruct (Z.ltb_spec (RT_BUF_SIZE / 2) (rt_buf_write d)) as [Hfull|Hroom].
    + rewrite Hl. cbn [obind]. rewrite slice_ok by lia. cbn [obind].
      assert (take (Z.to_nat (rt_buf_write d - rt_buf_read d)) (drop (Z.to_nat (rt_buf_read d)) l) = unread d) as ->.
      { rewrite Hun. apply take_ge. rewrite length_drop. unfold Zlen in *. lia. }
      destruct (new_block_ok d held (unread d) I Ha) as (d' & -> & I' & H1 & H2 & H4 & H5 & H6); [lia|].
      exists d'. split_and!; try done; lia.
    + exists d. change (RT_BUF_SIZE / 2) with 65536 in Hroom. split_and!; done || lia.
  - destruct (new_block_ok d held [] I Ha) as (d' & -> & I' & H1 & H2 & H4 & H5 & [block H6]); [done|].
    cbn [obind]. rewrite H6, H5. exists d'. unfold unread at 2. rewrite Hb. split_and!; first [done|lia|by rewrite H5|by eexists].
Qed.

Lemma append_block_ok d held block bs : rt_inv d held → rt_pkt_buffer d = Some block → rt_buf_write d + Zlen bs ≤ RT_BUF_SIZE →
  ∃ d', append_block d block bs = Ok d' ∧ rt_inv d' held ∧ unread d' = unread d ++ bs ∧ rt_env d' = rt_env d ∧
    rt_allocated d' = rt_allocated d ∧ rt_buf_write d' - rt_buf_read d' = Zlen (unread d').
Proof.
  intros I Hb Hroom. destruct (current_bytes _ _ _ I Hb) as (l & Hl & Hm & Hw & Hsz & Hr & Hun). pose proof (Zlen_nonneg bs) as Hbs.
  unfold append_block. rewrite Hl. cbn [obind]. rewrite slice_ok by lia. cbn [obind]. change (drop (Z.to_nat 0) l) with l.
  rewrite (proj2 (Z.ltb_ge _ _)) by done. rewrite take_ge by (rewrite Hw; unfold Zlen; lia). rewrite (drop_ge l), app_nil_r by (rewrite length_app; lia).
  assert (unread (rt_set_buf d (Some block) (rt_buf_read d) (rt_buf_write d + Zlen bs) (rt_bucket d) (<[block := l ++ bs]> (rt_mem d)) (rt_allocated d))
    = unread d ++ bs) as Hun'.
  { rewrite Hun. unfold unread. cbn. rewrite lookup_insert_eq. cbn. apply drop_app_le. unfold Zlen in *. lia. }
  eexists. split; [done|]. rewrite Hun'. split_and!; try done.
  2: { cbn. rewrite Zlen_app, Hun. unfold Zlen in *. rewrite length_drop. lia. }
  destruct I as [I1 I2 I3 I4 I5 I6 I7]. split; cbn; try done.
  - intros b [l' Hl']. apply lookup_insert_Some in Hl' as [[<- _]|[_ Hl']]; apply I3; eauto.
  - congruence.
  - exists (l ++ bs). rewrite lookup_insert_eq, Zlen_app. split_and!; done || lia.
  - intros id b off bs' Hh. destruct (I7 _ _ _ _ Hh) as (l' & Hl' & Hs & Hc). destruct (decide (b = block)) as [->|Hne].
    + rewrite lookup_insert_eq. simplify_eq. exists (l ++ bs). split_and!; [done| |by intros _; apply Hc].
      apply slice_app_ok; [done|apply Zlen_nonneg].
    + rewrite lookup_insert_ne by done. exists l'. split_and!; try done. congruence.
Qed.

(** One call of [recv]: the connection was interrupted or bytes arrived, or nothing
    is left. *)
Lemma rt_read_ok d held : rt_inv d held → rt_allocated d + 1 < SIZE_MAX → Zlen (unread d) < RT_BUF_SIZE →
  ∃ d' r, rt_read d true = Ok (d', r) ∧ rt_inv d' held ∧ rt_stream d' = rt_stream d ∧ rt_allocated d' ≤ rt_allocated d + 1 ∧
    rt_reliable d' = rt_reliable d ∧ rt_dummies d' = rt_dummies d ∧ rt_ack_buffer d' = rt_ack_buffer d ∧ rt_ids d' = rt_ids d ∧
    Zlen (unread d) ≤ Zlen (unread d') ∧
    (r = -1 ∧ incoming (rt_net d) (rt_input_fd d) = [] ∧ rt_err d' = TRACE_ERR_RT_FAILURE ∨
     r ≠ -1 ∧ (rt_work d' < rt_work d)%nat ∧ rt_err d' = rt_err d).
Proof.
  intros I Ha Hu. destruct (make_room_ok d held I Ha Hu) as (d1 & Hd1 & I1 & U1 & E1 & A1 & W1 & [block B1]).
  unfold rt_read. rewrite Hd1. cbn [obind]. injection E1 as EN EF ER EU ED EA EE EP EX.
  assert (rt_ids d1 = rt_ids d) as K1 by (unfold rt_ids; congruence).
  pose proof (recv_law (rt_net d1) (rt_input_fd d1) (RT_BUF_SIZE - rt_buf_write d1) true ltac:(lia)) as L.
  destruct (recv _ _ _ _) as [s [[|x bs]|errno]].
  - destruct L as (L1 & L2 & L3 & L4). unfold rt_fail. cbn [trace_set_err oassert negb Z.eqb obind].
    eexists _, _. split; [done|]. split; [by apply rt_inv_conn, rt_inv_conn|]. unfold rt_stream. cbn. unfold unread in *. cbn.
    rewrite <- EN, <- EF. rewrite U1, L1. split_and!; try done. left. split_and!; try done. by rewrite <- L1, L3.
  - destruct L as (L1 & L2 & L3 & L4). cbn [rt_set_net rt_set_conn rt_pkt_buffer]. rewrite B1.
    destruct (append_block_ok (rt_set_net d1 s) held block (x :: bs)) as (d2 & -> & I2 & U2 & E2 & A2 & Z2); [by apply rt_inv_conn|done|cbn; lia|].
    cbn [obind]. injection E2 as EN2 EF2 ER2 EU2 ED2 EA2 EE2 EP2 EX2. cbn in *.
    assert (rt_ids d2 = rt_ids d) as K2 by (unfold rt_ids in *; congruence).
    eexists _, _. split; [done|]. split; [done|]. unfold rt_stream, rt_work. rewrite U2, EN2, EF2, A2.
    change (unread (rt_set_net d1 s)) with (unread d1). rewrite U1, <- EN, <- EF, L1, <- app_assoc. split_and!; try done; [congruence..|rewrite Zlen_app; pose proof (Zlen_nonneg (x :: bs)); lia|].
    right. rewrite Z2. split_and!; [pose proof (Zlen_nonneg (unread d2)); lia| |congruence]. cbn. rewrite length_app. lia.
  - destruct L as (L1 & [[-> L2]|(_ & [=] & _)]). cbn [Z.eqb Pos.eqb]. eexists _, _. split; [done|]. split; [by apply rt_inv_conn|].
    unfold rt_stream, rt_work. cbn. change (unread (rt_set_net d1 s)) with (unread d1). rewrite <- EN, <- EF, U1, L1.
    split_and!; try done. right. split_and!; [done|lia|done].
Qed.

Lemma unread_length d held : rt_inv d held → rt_buf_write d - rt_buf_read d = Zlen (unread d).
Proof.
  intros I. destruct (rt_pkt_buffer d) as [block|] eqn:Hb.
  - destruct (current_bytes _ _ _ I Hb) as (l & _ & _ & Hw & _ & Hr & ->). unfold Zlen in *. rewrite length_drop. lia.
  - pose proof (ri_block _ _ I) as H. rewrite Hb in H. unfold unread. rewrite Hb. destruct H as [-> ->]. done.
Qed.

(** Some bytes have been received. *)
Record later d d' : Prop := {
  la_stream : rt_stream d' = rt_stream d;
  la_reliable : rt_reliable d' = rt_reliable d;
  la_dummies : rt_dummies d' = rt_dummies d;
  la_ack : rt_ack_buffer d' = rt_ack_buffer d;
  la_err : rt_err d' = rt_err d;
  la_ids : rt_ids d' = rt_ids d;
  la_unread : Zlen (unread d) ≤ Zlen (unread d');
  la_work : (rt_work d' ≤ rt_work d)%nat;
  la_alloc : rt_allocated d' + Z.of_nat (rt_work d') ≤ rt_allocated d + Z.of_nat (rt_work d);
}.

#[local] Instance later_preorder : PreOrder later.
Proof.
  split; [by split|]. intros d1 d2 d3 [A1 A2 A3 A4 A5 A6 A7 A8 A9] [B1 B2 B3 B4 B5 B6 B7 B8 B9]. split; try congruence; lia.
Qed.

(** The connection ended before everything had arrived that was waited for. *)
Definition cut_off d d' (need : Z) : Prop := Zlen (rt_stream d) < need ∧ rt_err d' = TRACE_ERR_RT_FAILURE.

(** Enough numbers for the blocks to come. *)
Definition blocks_left d : Prop := rt_allocated d + Z.of_nat (rt_work d) + 1 < SIZE_MAX.

(** One round of either loop. *)
Lemma fill_round d held : rt_inv d held → blocks_left d → Zlen (unread d) < RT_BUF_SIZE →
  ∃ d' r, rt_read d true = Ok (d', r) ∧ rt_inv d' held ∧
    (r = -1 ∧ rt_stream d = unread d ∧ rt_stream d' = rt_stream d ∧ rt_err d' = TRACE_ERR_RT_FAILURE ∨
     r ≠ -1 ∧ later d d' ∧ (rt_work d' < rt_work d)%nat).
Proof.
  intros I Hb Hu. destruct (rt_read_ok d held I) as (d' & r & -> & I' & S' & A' & R' & D' & K' & J' & U' & C); [unfold blocks_left in Hb; lia|done|].
  exists d', r. split_and!; [done..|]. destruct C as [(-> & C1 & C2)|(C0 & C1 & C2)]; [left|right].
  - split_and!; try done. unfold rt_stream. by rewrite C1, app_nil_r.
  - split_and!; try done. split; try done; lia.
Qed.

Lemma later_blocks d d' : later d d' → blocks_left d → blocks_left d'.
Proof. intros [_ _ _ _ _ _ _ _ L]. unfold blocks_left. lia. Qed.

Lemma header_loop_ok fuel : ∀ d held, rt_inv d held → blocks_left d → (rt_work d < fuel)%nat →
  ∃ d' ready, header_loop fuel d true = Ok (d', ready) ∧ rt_inv d' held ∧
    if ready : bool then later d d' ∧ sizeof_rt_header ≤ Zlen (unread d') else cut_off d d' sizeof_rt_header.
Proof.
  induction fuel as [|fuel IH]; intros d held I Hb Hf; [lia|]. cbn [header_loop]. rewrite (unread_length _ _ I).
  destruct (Z.ltb_spec (Zlen (unread d)) sizeof_rt_header) as [Hu|Hu].
  2: { exists d, true. by split_and!. }
  destruct (fill_round d held I Hb) as (d1 & r & -> & I1 & [(-> & S1 & S2 & E1)|(Hr & L1 & W1)]); [lia|..]; cbn [obind].
  - cbn [Z.eqb Pos.eqb]. exists d1, false. split_and!; try done. split; [by rewrite S1|done].
  - rewrite (proj2 (Z.eqb_neq _ _) Hr). destruct (IH d1 held I1) as (d2 & ready & -> & I2 & H2); [by eapply later_blocks|lia|].
    exists d2, ready. split_and!; try done. destruct ready; [by destruct H2 as [L2 ?]; split; [etrans|]|].
    unfold cut_off in *. by rewrite <- (la_stream _ _ L1).
Qed.

(** The header of the next message, once it is there. *)
Lemma next_header_ok d held m rest : rt_inv d held → message_ok m → sizeof_rt_header ≤ Zlen (unread d) →
  rt_stream d = message_bytes m ++ rest →
  ∃ block l x, rt_pkt_buffer d = Some block ∧ rt_mem d !! block = Some l ∧ next_header d = Ok (block, l) ∧
    l = take (Z.to_nat (rt_buf_read d)) l ++ message_header m ++ x ∧ Zlen (take (Z.to_nat (rt_buf_read d)) l) = rt_buf_read d ∧
    rt_type l (rt_buf_read d) = Ok (m_type m) ∧ rt_length l (rt_buf_read d) = Ok (Zlen (m_body m)).
Proof.
  intros I Hm Hu Hs. destruct (rt_pkt_buffer d) as [block|] eqn:Hb.
  2: { exfalso. revert Hu. unfold unread. rewrite Hb. done. }
  destruct (current_bytes _ _ _ I Hb) as (l & Hl & Hmem & Hw & Hsz & Hr & Hun).
  exists block, l, (drop 12 (unread d)). unfold next_header. rewrite Hb, Hl.
  assert (unread d = message_header m ++ drop 12 (unread d)) as Hd.
  { rewrite <- (take_drop 12 (unread d)) at 1. f_equal. unfold rt_stream, message_bytes in Hs. rewrite <- app_assoc in Hs.
    apply (f_equal (take 12)) in Hs. rewrite take_app_le in Hs by (unfold Zlen in Hu; lia). rewrite Hs. by apply take_app_length'. }
  assert (l = take (Z.to_nat (rt_buf_read d)) l ++ message_header m ++ drop 12 (unread d)) as Hsplit.
  { rewrite <- Hd, Hun. by rewrite take_drop. }
  assert (Zlen (take (Z.to_nat (rt_buf_read d)) l) = rt_buf_read d) as Hpre by (unfold Zlen in *; rewrite length_take; lia).
  pose proof (message_fields (take (Z.to_nat (rt_buf_read d)) l) m (drop 12 (unread d)) Hm) as (F1 & F2 & _).
  rewrite <- Hsplit, Hpre in F1, F2. by split_and!.
Qed.

Lemma body_loop_ok m rest fuel : message_ok m → ∀ d held, rt_inv d held → blocks_left d → (rt_work d < fuel)%nat →
  sizeof_rt_header ≤ Zlen (unread d) → rt_stream d = message_bytes m ++ rest →
  ∃ d', body_loop fuel d true = Ok (d', true) ∧ rt_inv d' held ∧ later d d' ∧ Zlen (message_bytes m) ≤ Zlen (unread d').
Proof.
  intros Hm. induction fuel as [|fuel IH]; intros d held I Hb Hf Hu Hs; [lia|]. cbn [body_loop].
  destruct (next_header_ok d held m rest I Hm Hu Hs) as (block & l & x & _ & _ & -> & _ & _ & _ & Hlen'). cbn [obind].
  rewrite Hlen'. cbn [obind].
  replace (rt_buf_write d - (rt_buf_read d + sizeof_rt_header)) with (Zlen (unread d) - 12) by (rewrite <- (unread_length _ _ I); lia).
  pose proof (Zlen_message_bytes m) as Hlen.
  destruct (Z.ltb_spec (Zlen (unread d) - 12) (Zlen (m_body m))) as [Hlt|Hge].
  2: { exists d. split_and!; try done. lia. }
  destruct Hm as (Hm1 & Hm2 & Hm3).
  destruct (fill_round d held I Hb) as (d1 & r & -> & I1 & [(-> & S1 & S2 & E1)|(Hr1 & L1 & W1)]); [change (2 ^ 16) with 65536 in Hm3; lia|..]; cbn [obind].
  - exfalso. rewrite S1 in Hs. rewrite Hs in Hlt. rewrite Zlen_app in Hlt. pose proof (Zlen_nonneg rest). lia.
  - rewrite (proj2 (Z.eqb_neq _ _) Hr1). pose proof (la_unread _ _ L1) as Hu1.
    destruct (IH d1 held I1) as (d2 & -> & I2 & L2 & Z2); [by eapply later_blocks|lia|lia|by rewrite (la_stream _ _ L1)|].
    exists d2. split_and!; try done. by etrans.
Qed.

(** ** From a message to a packet *)

(** The server has said whether it wants acknowledgements, which are sent whole if it
    does, and every format is there. *)
Record ready d : Prop := {
  rd_reliable : ∃ r, rt_reliable d = Some r ∧ (0 < r → whole_acks);
  rd_ack : ∀ b, rt_ack_buffer d = Some b → Zlen b = 16;
  rd_dummies : ∀ k t, rt_dummies d !! k = Some t → dt_format t = true;
}.

(** The blocks and what is to come are as they were. *)
Record same_blocks d d' : Prop := {
  sb_buf : rt_pkt_buffer d' = rt_pkt_buffer d;
  sb_read : rt_buf_read d' = rt_buf_read d;
  sb_write : rt_buf_write d' = rt_buf_write d;
  sb_bucket : rt_bucket d' = rt_bucket d;
  sb_alloc : rt_allocated d' = rt_allocated d;
  sb_err : rt_err d' = rt_err d;
  sb_incoming : incoming (rt_net d') (rt_input_fd d') = incoming (rt_net d) (rt_input_fd d);
  sb_work : rt_work d' = rt_work d;
}.

#[local] Instance same_blocks_preorder : PreOrder same_blocks.
Proof.
  split; [by split|]. intros d1 d2 d3 [A1 A2 A3 A4 A5 A6 A7 A8] [B1 B2 B3 B4 B5 B6 B7 B8]. split; congruence.
Qed.

Lemma send_ack_ok fuel d seqno : 16 ≤ Zlen garbage → ready d → whole_acks → (2 ≤ fuel)%nat →
  ∃ d' ack, rt_send_ack garbage fuel d seqno = Ok (d', 1) ∧ Zlen ack = 16 ∧ d' = rt_set_ack (rt_set_net d (rt_net d')) (Some ack) ∧
    incoming (rt_net d') (rt_input_fd d) = incoming (rt_net d) (rt_input_fd d) ∧ interrupts (rt_net d') = interrupts (rt_net d) ∧
    sent (rt_net d') (rt_input_fd d) = sent (rt_net d) (rt_input_fd d) ++ ack ∧ drop 12 ack = bytes32 (byteswap32 seqno).
Proof.
  intros Hg R Hw Hf. unfold rt_send_ack. set (b0 := default _ (rt_ack_buffer d)).
  assert (Zlen b0 = 16) as Hb0.
  { unfold b0. destruct (rt_ack_buffer d) as [b|] eqn:E; cbn; [by apply (rd_ack _ R)|]. unfold Zlen in *. rewrite length_take. lia. }
  do 16 (destruct b0 as [|? b0]; [done|]). destruct b0; [|exfalso; revert Hb0; rewrite !Zlen_cons; pose proof (Zlen_nonneg b0); lia].
  do 3 (rewrite store_app by done; cbn [obind]). set (ack := take _ _ ++ _).
  assert (Zlen ack = 16 ∧ drop 12 ack = bytes32 (byteswap32 seqno)) as [H1 H2] by done. clearbody ack.
  destruct fuel as [|[|fuel]]; try lia. cbn [ack_loop Z.eqb Pos.eqb]. rewrite slice_ok by lia. cbn [obind].
  change (drop (Z.to_nat 0) ack) with ack. rewrite take_ge by (unfold Zlen in H1; lia).
  cbn [rt_set_ack rt_net rt_input_fd]. pose proof (send_law (rt_net d) (rt_input_fd d) ack) as L. pose proof (Hw (rt_net d) (rt_input_fd d) ack H1) as Hr.
  destruct (send (rt_net d) (rt_input_fd d) ack) as [s r]. cbn in Hr. subst r. destruct L as (L1 & L2 & _ & L3).
  rewrite take_ge in L3 by (unfold Zlen in H1; lia). change (u64 (16 - 16)) with 0. cbn [Z.eqb]. eexists _, ack. by split_and!.
Qed.

Lemma acknowledge_ok fuel d p l off seqno : 16 ≤ Zlen garbage → ready d → (2 ≤ fuel)%nat →
  header_bytes d p = Ok (l, off) → rt_sequence l off = Ok seqno →
  ∃ d', rt_acknowledge garbage fuel d p = Ok (d', 0) ∧ same_blocks d d' ∧ ready d' ∧ rt_mem d' = rt_mem d ∧ rt_dummies d' = rt_dummies d.
Proof.
  intros Hg R Hf Hh Hs. unfold rt_acknowledge. pose proof R as [(r & Er & Hw) R2 R3]. rewrite Er. cbn [obind].
  destruct (Z.ltb_spec 0 r) as [Hr|]; cbn [andb]; [|by exists d]. specialize (Hw Hr).
  destruct (TRACE_RT_DATA_SIMPLE <=? rk_type p); [|by exists d]. set (d1 := rt_set_unacked d _).
  assert (ready d1) as Rd1 by (split; cbn; [by exists r|done..]).
  destruct (RT_ACK_FREQUENCY <=? rt_unacked d1).
  2: { exists d1. by split_and!. }
  change (header_bytes d1 p) with (header_bytes d p). rewrite Hh. cbn [obind]. rewrite Hs. cbn [obind].
  destruct (send_ack_ok fuel d1 seqno Hg Rd1 Hw Hf) as (d2 & ack & -> & Hl & E2 & S1 & S2 & _ & _). cbn [obind Z.eqb].
  eexists. split; [done|]. rewrite E2. split_and!; try done.
  - split; try done. unfold rt_work. cbn in *. by rewrite S1, S2.
  - split; cbn; [by exists r| |done]. by intros b [= <-].
Qed.

(** The type of a message of another format, as [rt_set_format] sees it. *)
Lemma set_format_ok d k type : (∀ k, registered k = true) → ready d → rt_kind type = Some k →
  ∃ d' t, rt_set_format registered d type = Ok (d', Some (OwnerDummy k), 0) ∧ same_blocks d d' ∧ ready d' ∧ rt_mem d' = rt_mem d ∧
    rt_dummies d' !! k = Some t ∧ dt_format t = true.
Proof.
  intros Hreg R Hk.
  assert (∃ checked, rt_set_format registered d type = use_dummy registered d k checked) as [checked ->].
  { revert Hk. unfold rt_kind, rt_set_format. repeat (destruct (_ && _); [intros [= <-]; by eexists|]).
    destruct (type =? TRACE_RT_DUCK_2_4); [intros [= <-]; by eexists|]. destruct (type =? TRACE_RT_DUCK_2_5); [intros [= <-]; by eexists|].
    destruct (Z.eqb_spec type TRACE_RT_DUCK_5_0) as [->|]; [done|]. cbn [orb].
    repeat (destruct (_ =? _); [intros [= <-]; by eexists|]). done. }
  unfold use_dummy. destruct (rt_dummies d !! k) as [t|] eqn:Et.
  - exists d, t. split_and!; try done. by apply (rd_dummies _ R k).
  - unfold create_dead. rewrite Hreg. cbn [obind dt_err Z.eqb negb]. rewrite andb_false_r.
    eexists _, _. split; [done|]. split_and!; try done; [|cbn; by rewrite lookup_insert_eq|done].
    destruct R as [R1 R2 R3]. split; cbn; try done. intros k' t'. rewrite lookup_insert_Some. intros [[<- <-]|[_ Ht]]; [done|by eapply R3].
Qed.

(** What is done with a message that has arrived in full. *)
Section message.
Context (m : rt_message) (pre post : list Z) (block id : Z) (p : rt_packet) (fuel : nat).
Context (Hreg : ∀ k, registered k = true) (Hg : 16 ≤ Zlen garbage) (Hf : (2 ≤ fuel)%nat) (Hm : message_ok m).
Context (Hp : p = {| rk_buffer := Some (InBlock block (Zlen pre)); rk_own_freed := rk_own_freed p; rk_control := TRACE_CTRL_EXTERNAL;
  rk_header := Some (InBlock block (Zlen pre)); rk_payload := Some (InBlock block (Zlen pre + 12));
  rk_type := m_type m; rk_trace := Some OwnerRt; rk_srcbucket := true; rk_internalid := id |}).

Lemma acknowledge_message d : ready d → block_bytes d block = Ok (pre ++ message_bytes m ++ post) →
  ∃ d', rt_acknowledge garbage fuel d p = Ok (d', 0) ∧ same_blocks d d' ∧ ready d' ∧ rt_mem d' = rt_mem d ∧ rt_dummies d' = rt_dummies d.
Proof using Hp Hm Hg Hf.
  intros R Hl. pose proof (message_fields pre m (m_body m ++ post) Hm) as (_ & _ & Fs).
  apply (acknowledge_ok fuel d p _ _ _ Hg R Hf) with (2 := Fs).
  rewrite Hp. unfold header_bytes. cbn. rewrite Hl. cbn [obind]. unfold message_bytes. by rewrite <- !app_assoc.
Qed.

Lemma process_other d k body header payload drops : ready d → block_bytes d block = Ok (pre ++ message_bytes m ++ post) →
  rt_kind (m_type m) = Some k → prepare_record k (m_body m) 0 = Ok (body, header, payload, drops) →
  ∃ d' p', rt_process_data_packet registered garbage fuel d p = Ok (d', p', 1) ∧ same_blocks d d' ∧ ready d' ∧
    rt_mem d' = <[block := pre ++ message_header m ++ body ++ post]> (rt_mem d) ∧ Zlen body = Zlen (m_body m) ∧
    shows p' (m_type m) {| v_owner := OwnerDummy k; v_body := body; v_buffer := 12; v_header := if header then Some 12 else None;
      v_payload := Z.add 12 <$> payload |} block (Zlen pre) ∧ rk_internalid p' = id.
Proof using Hp Hm Hg Hf Hreg.
  intros R Hl Ek Epr. destruct (acknowledge_message d R Hl) as (d1 & Ha & S1 & R1 & M1 & D1).
  destruct (set_format_ok d1 k (m_type m) Hreg R1 Ek) as (d2 & t & Hsf & S2 & R2 & M2 & Ht & Hfmt).
  destruct (prepare_record_drops _ _ _ (dt_drops t) _ _ _ _ Epr) as [drops' Epr'].
  destruct (prepare_record_app k (m_body m) post _ _ _ _ _ Epr') as [Eapp Elen].
  assert (block_bytes d2 block = Ok (pre ++ message_bytes m ++ post)) as Hl2.
  { unfold block_bytes in *. by rewrite (sb_bucket _ _ S2), (sb_bucket _ _ S1), M2, M1. }
  unfold rt_process_data_packet. rewrite Ha. cbn [obind Z.eqb]. rewrite Hp. cbn [rk_type]. rewrite Hsf. cbn [obind Z.ltb Z.compare].
  unfold trace_prepare_rt. cbn [rk_set_trace rk_trace rk_payload]. unfold prepare_dummy. rewrite Ht, Hfmt. cbn [negb].
  unfold drop_buffer. cbn [rk_set_trace rk_control]. rewrite (bool_decide_eq_false_2 (TRACE_CTRL_EXTERNAL = TRACE_CTRL_PACKET)), andb_false_r by done.
  cbn [obind]. rewrite Hl2. cbn [obind].
  assert (drop (Z.to_nat (Zlen pre + 12)) (pre ++ message_bytes m ++ post) = m_body m ++ post) as ->.
  { unfold message_bytes. rewrite <- !app_assoc, app_assoc. apply drop_app_length'. rewrite length_app.
    pose proof (Zlen_message_header m). unfold Zlen in *. lia. }
  assert (take (Z.to_nat (Zlen pre + 12)) (pre ++ message_bytes m ++ post) = pre ++ message_header m) as Htake.
  { unfold message_bytes. rewrite <- !app_assoc, app_assoc. apply take_app_length'. rewrite length_app.
    pose proof (Zlen_message_header m). unfold Zlen in *. lia. }
  rewrite Eapp. cbn [obind]. eexists _, _. split; [done|]. split_and!; try done.
  - etrans; [done|]. etrans; [done|]. by split.
  - destruct R2 as [X1 X2 X3]. split; cbn; try done. intros k' t'. rewrite lookup_insert_Some. intros [[<- <-]|[_ Hk']]; [done|by eapply X3].
  - cbn [rt_mem rt_set_dummies rt_set_buf]. rewrite M2, M1. by rewrite Htake, <- app_assoc.
  - unfold shows. cbn. split_and!; try done; [by destruct header|]. destruct payload; cbn; [|done]. do 2 f_equal. lia.
Qed.

Lemma process_information d : ready d → block_bytes d block = Ok (pre ++ message_bytes m ++ post) →
  rt_information (m_type m) = true →
  ∃ d' p', rt_process_data_packet registered garbage fuel d p = Ok (d', p', 1) ∧ same_blocks d d' ∧ ready d' ∧ rt_mem d' = rt_mem d ∧
    shows p' (m_type m) {| v_owner := OwnerRt; v_body := m_body m; v_buffer := 12; v_header := None; v_payload := Some 12 |} block (Zlen pre) ∧
    rk_internalid p' = id.
Proof using Hp Hm Hg Hf.
  intros R Hl Ei. destruct (acknowledge_message d R Hl) as (d1 & Ha & S1 & R1 & M1 & D1).
  unfold rt_process_data_packet. rewrite Ha. cbn [obind Z.eqb]. rewrite Hp. cbn [rk_type].
  assert (rt_set_format registered d1 (m_type m) = Ok (d1, Some OwnerRt, 0)) as ->.
  { unfold rt_information in Ei. apply orb_true_iff in Ei as [->%Z.eqb_eq| ->%Z.eqb_eq]; done. }
  cbn [obind Z.ltb Z.compare]. unfold trace_prepare_rt. cbn [rk_set_trace rk_trace rk_payload]. unfold rt_prepare_packet, drop_buffer.
  cbn [rk_set_trace rk_control]. rewrite (bool_decide_eq_false_2 (TRACE_CTRL_EXTERNAL = TRACE_CTRL_PACKET)), andb_false_r by done.
  cbn [obind]. eexists _, _. split; [done|]. by split_and!.
Qed.

(** The kinds of messages as [rt_get_next_packet] tells them apart. *)
Lemma dispatch_other d k d' p' : rt_kind (m_type m) = Some k → rt_process_data_packet registered garbage fuel d p = Ok (d', p', 1) →
  rt_dispatch registered garbage fuel d p = Ok (d', p', None).
Proof using Hp.
  clear Hf. intros Ek Hproc. unfold rt_dispatch. rewrite Hproc. rewrite Hp. cbn [rk_type obind Z.ltb Z.compare].
  destruct (Z.leb_spec TRACE_RT_DATA_SIMPLE (m_type m)) as [|Hlt]; [done|]. revert Ek. unfold rt_kind.
  rewrite !(proj2 (Z.ltb_ge _ (m_type m))) by lia. cbn [andb].
  destruct (m_type m =? TRACE_RT_DUCK_2_4); [done|]. destruct (m_type m =? TRACE_RT_DUCK_2_5); [done|]. cbn [orb].
  rewrite !(proj2 (Z.eqb_neq _ _)) by lia. done.
Qed.

Lemma dispatch_ok d v : ready d → block_bytes d block = Ok (pre ++ message_bytes m ++ post) → message_view m = Some v →
  ∃ d' p', rt_dispatch registered garbage fuel d p = Ok (d', p', None) ∧ same_blocks d d' ∧ ready d' ∧
    rt_mem d' = <[block := pre ++ message_header m ++ v_body v ++ post]> (rt_mem d) ∧ Zlen (v_body v) = Zlen (m_body m) ∧
    shows p' (m_type m) v block (Zlen pre) ∧ rk_internalid p' = id.
Proof using Hp Hm Hg Hf Hreg.
  intros R Hl Hv. unfold message_view in Hv. destruct (rt_kind (m_type m)) as [k|] eqn:Ek.
  - destruct (prepare_record k (m_body m) 0) as [[[[body header] payload] drops]|] eqn:Epr; [|done]. injection Hv as <-.
    destruct (process_other d k body header payload drops R Hl Ek Epr) as (d' & p' & Hproc & H).
    exists d', p'. split; [by eapply dispatch_other|done].
  - assert (rt_mem d = <[block := pre ++ message_header m ++ m_body m ++ post]> (rt_mem d)) as Hmem.
    { symmetry. apply insert_id. rewrite (block_bytes_mem _ _ _ Hl). unfold message_bytes. by rewrite <- !app_assoc. }
    destruct (rt_information (m_type m)) eqn:Ei; [|destruct (rt_control (m_type m)) eqn:Ec; [|done]]; injection Hv as <-; cbn [v_body].
    + destruct (process_information d R Hl Ei) as (d' & p' & Hproc & S & R' & M & Hsh & Hid). exists d', p'. rewrite M. split_and!; try done.
      unfold rt_dispatch. rewrite Hproc, Hp. cbn [rk_type].
      unfold rt_information in Ei. apply orb_true_iff in Ei as [->%Z.eqb_eq| ->%Z.eqb_eq]; done.
    + exists d, p. split_and!; try done; [|by rewrite Hp; unfold shows; cbn; rewrite Z.add_0_r|by rewrite Hp].
      assert (rk_type p = m_type m) as Et by by rewrite Hp.
      unfold rt_dispatch. rewrite Et. unfold rt_control in Ec.
      repeat (apply orb_true_iff in Ec as [Ec| ->%Z.eqb_eq]; [|done]). by apply Z.eqb_eq in Ec as ->.
Qed.
End message.

(** A message has been taken from the block: the invariant, for the bytes that the
    packet shows. *)
Lemma take_message_inv d d' held block pre h body post b' id bs : rt_inv d held → rt_pkt_buffer d = Some block →
  rt_mem d !! block = Some (pre ++ (h ++ body) ++ post) → Zlen pre = rt_buf_read d → Zlen h = 12 → Zlen bs = Zlen body →
  libtrace_push_into_bucket (rt_bucket d) = Ok (b', id) → b_node (rt_bucket d) ≠ None →
  rt_pkt_buffer d' = Some block → rt_buf_read d' = rt_buf_read d + (Zlen body + 12) → rt_buf_write d' = rt_buf_write d →
  rt_bucket d' = b' → rt_allocated d' = rt_allocated d → rt_mem d' = <[block := pre ++ h ++ bs ++ post]> (rt_mem d) →
  rt_inv d' (<[id := (block, rt_buf_read d, h ++ bs)]> held) ∧ unread d' = post ∧ valid_id id ∧ held !! id = None.
Proof.
  intros I Hb Hl Hpre Hh Hbs Hpush Hnode Eb Er Ew Ebk Ea Em. destruct (ri_bucket _ _ I) as (xs & B & Hxs).
  pose proof (ri_block _ _ I) as Hblk. rewrite Hb in Hblk. destruct Hblk as (l & Hl' & Hw & Hsz & Hr). rewrite Hl in Hl'. injection Hl' as <-.
  rewrite !Zlen_app in Hw. rewrite !Zlen_app in Hsz. pose proof (Zlen_nonneg body). pose proof (Zlen_nonneg post).
  assert (rt_buf_read d / 12 + 20 < 2 ^ 16) as Hk by (change (2 ^ 16) with 65536; Z.to_euclidean_division_equations; lia).
  assert (0 ≤ rt_buf_read d / 12) as Hk0 by (apply Z.div_pos; lia).
  destruct (push_current _ _ _ _ _ _ _ B (ri_filled _ _ I) Hk0 Hk Hpush) as (F' & C' & Fr').
  pose proof (push_into_bucket_ok _ _ _ _ B (filled_small _ _ (ri_filled _ _ I) Hk)) as P. rewrite Hpush in P.
  destruct P as [(E & _)|(Hv & Hout & n & nd & Hn & Hnd & B')]; [done|].
  assert (bn_buffer nd = Some block) as Ebuf.
  { pose proof (ri_current _ _ I) as C. rewrite Hb in C. unfold current_buffer in C. rewrite Hn in C. cbn in C. by rewrite Hnd in C. }
  assert (held !! id = None) as Hfresh.
  { unfold held_blocks in Hout. rewrite lookup_fmap in Hout. by destruct (held !! id). }
  assert (unread d' = post) as Hun.
  { unfold unread. rewrite Eb, Er, Em, lookup_insert_eq. cbn. rewrite (app_assoc h), app_assoc. apply drop_app_length'.
    rewrite !length_app. unfold Zlen in *. lia. }
  split_and!; try done. split.
  - exists xs. rewrite Ebk, Ea. split; [|done]. unfold held_blocks. rewrite fmap_insert. cbn. by rewrite <- Ebuf.
  - rewrite Ea. apply (ri_alloc _ _ I).
  - intros b. rewrite Em, Ea. intros [l [[<- _]|[_ Hb']]%lookup_insert_Some]; apply (ri_mem _ _ I); eauto.
  - by rewrite Eb, Ebk, C', <- (ri_current _ _ I).
  - rewrite Eb. eexists. rewrite Em, lookup_insert_eq. split; [done|]. rewrite !Zlen_app, Er, Ew, Hw. split_and!; lia.
  - rewrite Ebk, Er. eapply filled_mono; [exact F'|]. Z.to_euclidean_division_equations. lia.
  - intros id' b off bs'. rewrite Eb, Em, Er. intros [[<- E]|[Hne Hh']]%lookup_insert_Some.
    + injection E as <- <- <-. rewrite lookup_insert_eq. eexists. split; [done|]. rewrite Zlen_app. split; [|lia].
      rewrite slice_ok by (rewrite ?Zlen_app; pose proof (Zlen_nonneg pre); lia). f_equal.
      rewrite drop_app_length' by (unfold Zlen in *; lia). rewrite app_assoc. apply take_app_length'. rewrite length_app. unfold Zlen in *. lia.
    + destruct (ri_held _ _ I _ _ _ _ Hh') as (l & Hl' & Hs & Hc). destruct (decide (b = block)) as [->|Hnb].
      * rewrite lookup_insert_eq. rewrite Hl in Hl'. injection Hl' as <-. specialize (Hc Hb). eexists. split; [done|].
        split; [|intros _; lia]. unfold slice in Hs. destruct (Z.leb_spec 0 off); [|done].
        destruct (Z.leb_spec (off + Zlen bs') (Zlen (pre ++ (h ++ body) ++ post))); [|done]. cbn [andb] in Hs. injection Hs as Hs.
        rewrite slice_ok by (rewrite ?Zlen_app; pose proof (Zlen_nonneg bs'); lia). rewrite <- Hs at 2. f_equal.
        unfold Zlen in *. rewrite !drop_app_le by lia. rewrite !take_app_le by (rewrite length_drop; lia). done.
      * rewrite lookup_insert_ne by done. exists l. split_and!; try done. intros [= ?]. congruence.
Qed.

(** The next id is taken: the thread waits until it is released. *)
Definition ids_exhausted d : Prop := is_Some (b_packets (rt_bucket d) !! norm_id (b_nextid (rt_bucket d))).

(** A message was delivered: the packet shows it, and it is added to those that are
    held; [rest] is still to come. *)
Record delivered d d' held p' (m : rt_message) (v : rt_view) (rest : list Z) (block off : Z) : Prop := {
  de_shows : shows p' (m_type m) v block off;
  de_id : valid_id (rk_internalid p');
  de_new : held !! rk_internalid p' = None;
  de_inv : rt_inv d' (<[rk_internalid p' := (block, off, message_header m ++ v_body v)]> held);
  de_stream : rt_stream d' = rest;
  de_ready : ready d';
  de_work : (rt_work d' ≤ rt_work d)%nat;
  de_alloc : rt_allocated d' + Z.of_nat (rt_work d') ≤ rt_allocated d + Z.of_nat (rt_work d);
  de_err : rt_err d' = rt_err d;
  de_ids : ∀ c, ids_up_to (rt_bucket d) c → c < MAX_OUTSTANDING - 1 → ids_up_to (rt_bucket d') (c + 1);
}.

Lemma take_packet_ok fuel d held p m v rest : (∀ k, registered k = true) → 16 ≤ Zlen garbage → (2 ≤ fuel)%nat →
  ready d → rt_inv d held → message_ok m → message_view m = Some v → rk_trace p = Some OwnerRt →
  Zlen (message_bytes m) ≤ Zlen (unread d) → rt_stream d = message_bytes m ++ rest →
  match rt_take_packet registered garbage fuel d p with
  | Ok (d', p', r) => r = Zlen (m_body m) ∧ ∃ block off, delivered d d' held p' m v rest block off
  | Fault f => f = Blocked ∧ ids_exhausted d
  end.
Proof.
  intros Hreg Hg Hf R I Hm Hv Hpt Hu Hs. pose proof (Zlen_message_bytes m) as Hml. pose proof (Zlen_nonneg (m_body m)) as Hbn.
  destruct (next_header_ok d held m rest I Hm) as (block & l & x & Hb & Hmem & Hnh & Hl & Hpre & Ft & Fl); [lia|done|].
  unfold rt_take_packet. rewrite Hnh. cbn [obind]. rewrite Ft. cbn [obind].
  destruct (ri_bucket _ _ I) as (xs & B & _). destruct (current_bytes _ _ _ I Hb) as (l2 & Hbb & Hmem2 & Hw & Hsz & Hr & Hun).
  rewrite Hmem in Hmem2. injection Hmem2 as <-.
  assert (rt_buf_read d / 12 + 20 < 2 ^ 16) as Hk by (change (2 ^ 16) with 65536; Z.to_euclidean_division_equations; lia).
  assert (b_node (rt_bucket d) ≠ None) as Hnode.
  { pose proof (ri_current _ _ I) as C. rewrite Hb in C. unfold current_buffer in C. by destruct (b_node (rt_bucket d)). }
  pose proof (push_into_bucket_ok _ _ _ _ B (filled_small _ _ (ri_filled _ _ I) Hk)) as P.
  destruct (libtrace_push_into_bucket (rt_bucket d)) as [[b id]|f] eqn:Hpush; cbn [obind]; [|done].
  destruct P as [(E & _)|(Hvid & _ & _)]; [done|]. rewrite (proj2 (Z.eqb_neq id 0)) by (destruct Hvid; lia). cbn [negb oassert obind].
  rewrite Fl. cbn [obind]. set (pre := take (Z.to_nat (rt_buf_read d)) l) in *.
  (* the message and what follows it in the block *)
  assert (∃ post, l = pre ++ message_bytes m ++ post ∧ rest = post ++ incoming (rt_net d) (rt_input_fd d)) as (post & Hl' & Hrest).
  { exists (drop (length (message_bytes m)) (unread d)).
    assert (unread d = message_bytes m ++ drop (length (message_bytes m)) (unread d)) as Hd.
    { rewrite <- (take_drop (length (message_bytes m)) (unread d)) at 1. f_equal. unfold rt_stream in Hs.
      apply (f_equal (take (length (message_bytes m)))) in Hs. rewrite take_app_le in Hs by (unfold Zlen in Hu; lia).
      rewrite Hs. by apply take_app_length'. }
    split; [rewrite <- Hd, Hun; unfold pre; by rewrite take_drop|].
    unfold rt_stream in Hs. rewrite Hd, <- app_assoc in Hs. by apply app_inv_head in Hs. }
  set (p1 := {| rk_buffer := _ |}). set (d1 := rt_set_buf d _ _ _ _ _ _).
  assert (block_bytes d1 block = Ok (pre ++ message_bytes m ++ post)) as Hbb1.
  { destruct (push_current _ _ _ _ _ _ _ B (ri_filled _ _ I) ltac:(apply Z.div_pos; lia) Hk Hpush) as (_ & _ & Fr).
    rewrite <- Hl', <- Hbb. unfold block_bytes, d1. cbn [rt_bucket rt_set_buf rt_mem]. by rewrite Fr. }
  destruct (dispatch_ok m pre post block id p1 fuel Hreg Hg Hf Hm) with (d := d1) (v := v)
    as (d' & p' & -> & S & R' & M & Hlen & Hsh & Hid); try done.
  { unfold p1. by rewrite Hpre, Hpt. }
  { by destruct R; split. }
  cbn [obind].
  destruct (take_message_inv d d' held block pre (message_header m) (m_body m) post b id (v_body v)) as (I' & U' & Hv' & Hnew); try done.
  { by rewrite Hmem, Hl'. }
  { by rewrite (sb_buf _ _ S). }
  { by rewrite (sb_read _ _ S). }
  { by rewrite (sb_write _ _ S). }
  { by rewrite (sb_bucket _ _ S). }
  { by rewrite (sb_alloc _ _ S). }
  assert (block_bytes d' block = Ok (pre ++ message_header m ++ v_body v ++ post)) as ->.
  { unfold block_bytes in Hbb1 |- *. rewrite (sb_bucket _ _ S). destruct (bool_decide (block ∈ b_freed (rt_bucket d1))); [done|].
    by rewrite M, lookup_insert_eq. }
  destruct (message_fields pre m (v_body v ++ post) Hm) as (_ & Fl' & _). rewrite Hpre in Fl'. cbn [obind]. rewrite Fl'. cbn [obind].
  split; [done|]. exists block, (rt_buf_read d). rewrite Hpre in Hsh. split; rewrite ?Hid; try done.
  - unfold rt_stream. by rewrite U', (sb_incoming _ _ S), Hrest.
  - by rewrite (sb_work _ _ S).
  - by rewrite (sb_work _ _ S), (sb_alloc _ _ S).
  - by rewrite (sb_err _ _ S).
  - intros c Hc Hlt. rewrite (sb_bucket _ _ S). cbn.
    by eapply push_ids; [..|exact Hpush|exact Hnode]; try done; [apply (bi_lock _ _ _ _ B)|apply (bo_next _ _ _ _ B)].
Qed.

(** ** Reading a packet

    A packet that is passed to a read was released before, or is a new one with or
    without a buffer of its own. *)
Definition readable p : Prop :=
  rk_trace p = Some OwnerRt ∧ (rk_control p = TRACE_CTRL_EXTERNAL ∨ rk_own_freed p = false ∧ rk_buffer p ∈ [None; Some OwnBuffer]).

Lemma readable_freed p : readable p →
  ∃ p', (if bool_decide (rk_buffer p ≠ None) && bool_decide (rk_control p = TRACE_CTRL_PACKET) then free_buffer p else Ok p) = Ok p' ∧
    rk_trace p' = Some OwnerRt.
Proof.
  intros [Ht [->|[Hfr Hbuf]]]; [rewrite (bool_decide_eq_false_2 (TRACE_CTRL_EXTERNAL = _)), andb_false_r by done; by exists p|].
  destruct (_ && _); [|by exists p]. unfold free_buffer. rewrite Hfr.
  apply elem_of_cons in Hbuf as [->|Hbuf]; [by exists p|]. apply list_elem_of_singleton in Hbuf as ->. by eexists.
Qed.

Lemma rt_read_packet_ok fuel d held p m v rest : (∀ k, registered k = true) → 16 ≤ Zlen garbage →
  (rt_work d + 2 ≤ fuel)%nat → blocks_left d → ready d → rt_inv d held → message_ok m → message_view m = Some v →
  readable p → rt_stream d = message_bytes m ++ rest →
  match rt_read_packet registered garbage fuel d p with
  | Ok (d', p', r) => r = Zlen (m_body m) ∧ ∃ block off, delivered d d' held p' m v rest block off
  | Fault f => f = Blocked ∧ ids_exhausted d
  end.
Proof.
  intros Hreg Hg Hf Hb R I Hm Hv Hp Hs. unfold rt_read_packet, rt_get_next_packet.
  destruct (readable_freed p Hp) as (p1 & -> & Hp1).
  cbn [obind]. pose proof (Zlen_message_bytes m). pose proof (Zlen_nonneg (m_body m)). pose proof (Zlen_nonneg rest).
  destruct (header_loop_ok fuel d held I Hb) as (d1 & rdy & -> & I1 & C1); [lia|]. cbn [obind].
  destruct rdy; cbn [negb].
  2: { destruct C1 as [C1 _]. rewrite Hs, Zlen_app in C1. lia. }
  destruct C1 as [L1 U1]. pose proof (la_work _ _ L1).
  destruct (body_loop_ok m rest fuel Hm d1 held I1) as (d2 & -> & I2 & L2 & U2); [by eapply later_blocks|lia|done|by rewrite (la_stream _ _ L1)|].
  cbn [obind negb]. pose proof (later_preorder.(PreOrder_Transitive) _ _ _ L1 L2) as L.
  pose proof (take_packet_ok fuel d2 held p1 m v rest Hreg Hg) as T.
  assert (ready d2) as R2.
  { destruct R as [X1 X2 X3]. by split; rewrite ?(la_reliable _ _ L), ?(la_ack _ _ L), ?(la_dummies _ _ L). }
  destruct (rt_take_packet _ _ _ _ _) as [[[d' p'] r]|f].
  - destruct T as (-> & block & off & D); try done; [lia|by rewrite (la_stream _ _ L)|]. split; [done|]. exists block, off.
    destruct D as [D1 D2 D3 D4 D5 D6 D7 D8 D9 D10]. pose proof (la_work _ _ L). pose proof (la_alloc _ _ L). pose proof (la_err _ _ L).
    split; try done; [lia..|congruence|]. intros c Hc. by apply D10, (same_ids d d2 c (la_ids _ _ L)).
  - destruct T as [-> T]; try done; [lia|by rewrite (la_stream _ _ L)|]. split; [done|].
    unfold ids_exhausted in *. pose proof (la_ids _ _ L) as E. injection E as E1 E2. by rewrite <- E1, <- E2.
Qed.

(** The connection ends. *)
Lemma read_packet_end fuel d held p : (rt_work d + 2 ≤ fuel)%nat → blocks_left d → rt_inv d held → readable p →
  Zlen (rt_stream d) < sizeof_rt_header →
  ∃ d' p', rt_read_packet registered garbage fuel d p = Ok (d', p', -1) ∧ rt_err d' = TRACE_ERR_RT_FAILURE.
Proof.
  intros Hf Hb I Hp Hs. unfold rt_read_packet, rt_get_next_packet. destruct (readable_freed p Hp) as (p1 & -> & _).
  cbn [obind]. destruct (header_loop_ok fuel d held I Hb) as (d1 & [] & -> & I1 & C1); [lia|..]; cbn [obind negb].
  - destruct C1 as [L U]. rewrite <- (la_stream _ _ L) in Hs. unfold rt_stream in Hs. rewrite Zlen_app in Hs.
    pose proof (Zlen_nonneg (incoming (rt_net d1) (rt_input_fd d1))). lia.
  - destruct C1 as [_ C1]. by exists d1, p1.
Qed.

(** A packet is released. *)
Lemma rt_fin_packet_ok d held p h : rt_inv d held → rt_allocated d ≤ SIZE_MAX → rk_srcbucket p = true → valid_id (rk_internalid p) →
  held !! rk_internalid p = Some h →
  ∃ d' p', fin_rt_packet d p = Ok (d', p') ∧ rt_inv d' (delete (rk_internalid p) held) ∧
    rt_stream d' = rt_stream d ∧ rt_work d' = rt_work d ∧ rt_allocated d' = rt_allocated d ∧ (ready d → ready d') ∧
    ∀ c, ids_up_to (rt_bucket d) c → c < MAX_OUTSTANDING → ∃ c', c' ≤ c ∧ ids_up_to (rt_bucket d') c'.
Proof.
  intros I Ha Hsb Hv Hh. unfold fin_rt_packet. rewrite Hsb, (proj2 (Z.eqb_neq _ 0)) by (destruct Hv; lia). cbn [andb negb].
  destruct (ri_bucket _ _ I) as (xs & B & Hxs).
  assert (held_blocks held !! rk_internalid p = Some (Some h.1.1)) as Hout by (unfold held_blocks; by rewrite lookup_fmap, Hh).
  destruct (release_bucket_id_ok _ _ _ _ _ _ B ltac:(lia) Hout) as (b & xs' & Hrel & B' & _ & Hxs'). rewrite Hrel. cbn [obind].
  destruct (release_current _ _ _ _ _ _ _ _ B Hout (ri_filled _ _ I) Hrel) as [F' C'].
  eexists _, _. split; [done|]. split_and!; try done; [|intros []; by split|].
  2: { intros c Hids Hlt. eapply release_ids; [exact Hids|apply (bo_next _ _ _ _ B)|done|exact Hv|done]. }
  destruct I as [I1 I2 I3 I4 I5 I6 I7]. split; cbn; try done.
  - exists xs'. split; [|lia]. unfold held_blocks in *. by rewrite fmap_delete.
  - by rewrite I4, C'.
  - intros id block off bs [_ Hd]%lookup_delete_Some. by eapply I7.
Qed.

(** ** Starting *)
Lemma connect_conn d d' r : rt_connect d = Ok (d', r) →
  ∃ s fd reliable unacked err, d' = rt_set_conn d s fd reliable unacked err ∧ (r ≠ -1 → reliable ≠ None ∧ err = rt_err d).
Proof.
  assert (∀ d1 s fd rel un err, d1 = rt_set_conn d s fd rel un err → ∀ e, rt_fail d1 e = Ok (d', r) →
    ∃ s fd reliable unacked err, d' = rt_set_conn d s fd reliable unacked err ∧ (r ≠ -1 → reliable ≠ None ∧ err = rt_err d)) as Hfail.
  { intros d1 s fd rel un err -> e. unfold rt_fail. intros H. obind_inv H. injection H as <- <-. by eexists _, _, _, _, _. }
  unfold rt_connect. destruct (gethostbyname _ _); [|apply (Hfail d (rt_net d) (rt_input_fd d) (rt_reliable d) (rt_unacked d) (rt_err d)); by destruct d].
  destruct (socket _) as [s fd]. destruct (fd =? -1); [by eapply Hfail|]. destruct (connect _ _ _ _) as [s1 r1]. destruct (r1 =? -1); [by eapply Hfail|].
  unfold recv_exactly at 1. destruct (recv _ _ _ _) as [s2 r2]. destruct (match r2 with inl _ => _ | inr _ => _ end) as [msg|]; [|by eapply Hfail].
  intros H. obind_inv H. destruct (negb _); [by eapply Hfail|]. obind_inv H. destruct (negb _); [by eapply Hfail|]. obind_inv H.
  unfold recv_exactly in H. destruct (_ =? TRACE_RT_DENY_CONN); [destruct (recv _ _ _ _) as [s3 r3]; by eapply Hfail|].
  destruct (_ =? TRACE_RT_HELLO); [|by eapply Hfail]. destruct (recv _ _ _ _) as [s3 r3].
  destruct (match r3 with inl _ => _ | inr _ => _ end) as [msg'|]; [|by eapply Hfail]. obind_inv H. injection H as <- <-.
  by eexists _, _, _, _, _.
Qed.

Lemma start_inv s uridata d : rt_start_input (rt_init_input s uridata) = Ok (d, 0) →
  rt_inv d ∅ ∧ ((∀ r, rt_reliable d = Some r → 0 < r → whole_acks) → ready d) ∧ rt_allocated d = 0 ∧ rt_err d = 0 ∧
  ids_up_to (rt_bucket d) 0.
Proof.
  unfold rt_start_input. intros H. obind_inv H. destruct a as [d1 r]. destruct (Z.eqb_spec r (-1)) as [|Hr]; [done|].
  destruct (send _ _ _) as [s1 r1]. injection H as <- _. apply connect_conn in Hstep as (s2 & fd & rel & un & err & -> & Hrel).
  assert (rt_dummies (rt_init_input s uridata) = ∅ ∧ rt_ack_buffer (rt_init_input s uridata) = None ∧ rt_allocated (rt_init_input s uridata) = 0 ∧
    rt_err (rt_init_input s uridata) = 0 ∧ rt_bucket (rt_init_input s uridata) = libtrace_bucket_init) as (E1 & E2 & E3 & E4 & E5).
  { unfold rt_init_input. by destruct (if Zlen uridata =? 0 then _ else _). }
  destruct (Hrel Hr) as [Hrel' ->].
  split_and!; try done; [apply rt_inv_conn, rt_inv_conn, rt_init_inv| |cbn; rewrite E5; apply init_ids].
  intros Hw. split; cbn; [|by rewrite E2|intros k t; by rewrite E1]. destruct rel as [r'|]; [|done]. exists r'. split; [done|by apply Hw].
Qed.

(** ** Programs that read and release

    [live] has the packets that have not been released, by their ids, and [log] all
    packets with the return values, in the order in which they were read. *)
Inductive rt_run d0 : rt_format_data_t → gmap Z nat → list (rt_packet * Z) → Prop :=
| rt_run_start : rt_run d0 d0 ∅ []
| rt_run_read d live log p fuel d' p' r :
    rt_run d0 d live log → readable p → (rt_work d + 2 ≤ fuel)%nat →
    rt_read_packet registered garbage fuel d p = Ok (d', p', r) → r ≠ -1 →
    rt_run d0 d' (<[rk_internalid p' := length log]> live) (log ++ [(p', r)])
| rt_run_release d live log n p r d' p' :
    rt_run d0 d live log → log !! n = Some (p, r) → live !! rk_internalid p = Some n →
    fin_rt_packet d p = Ok (d', p') →
    rt_run d0 d' (delete (rk_internalid p) live) log.

(** The server sends [ms], all of formats that are converted; if it wants
    acknowledgements, they are sent whole. *)
Definition server_sends d0 (ms : list rt_message) : Prop :=
  rt_stream d0 = concat (message_bytes <$> ms) ∧ Forall (λ m, message_ok m ∧ is_Some (message_view m)) ms ∧
  (∀ r, rt_reliable d0 = Some r → 0 < r → whole_acks) ∧ Z.of_nat (rt_work d0) + 1 < SIZE_MAX.

(** A packet shows the message at the same place in the order; while it is held, its
    bytes are in a block that has not been freed. *)
Definition log_entry (ms : list rt_message) (held : gmap Z (Z * Z * list Z)) (live : gmap Z nat) (n : nat) p (r : Z) : Prop :=
  ∃ m v block off, ms !! n = Some m ∧ message_view m = Some v ∧ r = Zlen (m_body m) ∧ shows p (m_type m) v block off ∧
    valid_id (rk_internalid p) ∧
    (live !! rk_internalid p = Some n → held !! rk_internalid p = Some (block, off, message_header m ++ v_body v)).

Record run_inv ms d (live : gmap Z nat) (log : list (rt_packet * Z)) (held : gmap Z (Z * Z * list Z)) : Prop := {
  ru_inv : rt_inv d held;
  ru_ready : ready d;
  ru_left : blocks_left d;
  ru_stream : rt_stream d = concat (message_bytes <$> drop (length log) ms);
  ru_log : ∀ n p r, log !! n = Some (p, r) → log_entry ms held live n p r;
  ru_live : ∀ id n, live !! id = Some n → (n < length log)%nat;
  ru_dom : ∀ id, held !! id = None ↔ live !! id = None;
  ru_ids : Zlen log < MAX_OUTSTANDING - 1 → ∃ c, c ≤ Zlen log ∧ ids_up_to (rt_bucket d) c;
}.

Section runs.
Context (Hreg : ∀ k, registered k = true) (Hg : 16 ≤ Zlen garbage) (ms : list rt_message).
Context (Hms : Forall (λ m, message_ok m ∧ is_Some (message_view m)) ms).

Lemma run_read d live log held p fuel : run_inv ms d live log held → readable p → (rt_work d + 2 ≤ fuel)%nat →
  match ms !! length log with
  | None => ∃ d' p', rt_read_packet registered garbage fuel d p = Ok (d', p', -1) ∧ rt_err d' = TRACE_ERR_RT_FAILURE
  | Some m =>
      match rt_read_packet registered garbage fuel d p with
      | Ok (d', p', r) => r = Zlen (m_body m) ∧ live !! rk_internalid p' = None ∧ rt_err d' = rt_err d ∧ (rt_work d' ≤ rt_work d)%nat ∧
          ∃ held', run_inv ms d' (<[rk_internalid p' := length log]> live) (log ++ [(p', r)]) held'
      | Fault f => f = Blocked ∧ MAX_OUTSTANDING - 1 ≤ Zlen log
      end
  end.
Proof using Hms Hreg Hg.
  intros [I R L S G V D K] Hp Hf. destruct (ms !! length log) as [m|] eqn:Em.
  2: { rewrite drop_ge in S by (by apply lookup_ge_None). apply (read_packet_end fuel d held p Hf L I Hp). by rewrite S. }
  pose proof (proj1 (Forall_lookup _ _) Hms _ _ Em) as (Hm & [v Hv]). rewrite (drop_S _ _ _ Em) in S. cbn in S.
  pose proof (rt_read_packet_ok fuel d held p m v _ Hreg Hg Hf L R I Hm Hv Hp S) as P.
  destruct (rt_read_packet _ _ _ _ _) as [[[d' p'] r]|f].
  2: { destruct P as [-> [n Hn]]. split; [done|]. destruct (Z.le_gt_cases (MAX_OUTSTANDING - 1) (Zlen log)) as [|Hlt]; [done|].
       destruct (K Hlt) as (c & Hc & Hids). rewrite (ids_not_exhausted _ _ Hids) in Hn by lia. done. }
  destruct P as (-> & block & off & [D1 D2 D3 D4 D5 D6 D7 D8 D9 D10]).
  split_and!; [done|by apply D|done..|]. eexists. split; [exact D4|done|unfold blocks_left in *; lia|by rewrite length_app, Nat.add_1_r|..].
  - intros n p2 r2. rewrite lookup_snoc_Some. intros [[Hlt Hn]|[-> [= <- <-]]].
    + destruct (G _ _ _ Hn) as (m2 & v2 & block2 & off2 & G1 & G2 & G3 & G4 & G5 & G6). exists m2, v2, block2, off2. split_and!; try done.
      rewrite lookup_insert_Some. intros [[_ E]|[Hne Hl]]; [lia|]. rewrite lookup_insert_ne by done. by apply G6.
    + exists m, v, block, off. split_and!; try done. intros _. by rewrite lookup_insert_eq.
  - intros id n. rewrite lookup_insert_Some, length_app. cbn. intros [[_ <-]|[_ Hl]]; [lia|]. specialize (V _ _ Hl). lia.
  - intros id. rewrite !lookup_insert_None. by rewrite (D id).
  - rewrite Zlen_app. change (Zlen [_]) with 1. intros Hlt. destruct K as (c & Hc & Hids); [lia|]. exists (c + 1).
    split; [lia|]. apply D10; [done|lia].
Qed.

Lemma run_fin d live log held n p r : run_inv ms d live log held → log !! n = Some (p, r) → live !! rk_internalid p = Some n →
  ∃ d' p' held', fin_rt_packet d p = Ok (d', p') ∧ run_inv ms d' (delete (rk_internalid p) live) log held'.
Proof using Hms.
  intros [I R L S G V D K] Hn Hl. destruct (G _ _ _ Hn) as (m & v & block & off & G1 & G2 & G3 & (_ & _ & _ & _ & _ & _ & G4) & G5 & G6).
  destruct (rt_fin_packet_ok d held p (block, off, message_header m ++ v_body v) I) as (d' & p' & -> & I' & S' & W' & A' & R' & K'); [unfold blocks_left in L; lia|done|done|by apply G6|].
  eexists _, _, _. split; [done|]. split; [exact I'|by apply R'|unfold blocks_left in *; by rewrite W', A'|by rewrite S'|..].
  - intros n2 p2 r2 Hn2. destruct (G _ _ _ Hn2) as (m2 & v2 & b2 & o2 & K1 & K2 & K3 & K4 & K5 & K6). exists m2, v2, b2, o2. split_and!; try done.
    rewrite !lookup_delete_Some. intros [Hne Hl2]. by split; [|apply K6].
  - intros id n2 [_ Hl2]%lookup_delete_Some. by apply (V id).
  - intros id. rewrite !lookup_delete_None. by rewrite (D id).
  - intros Hlt. destruct (K Hlt) as (c & Hc & Hids). destruct (K' c Hids) as (c' & ? & ?); [lia|]. exists c'. split; [lia|done].
Qed.

Lemma run_invariant d0 d live log : run_inv ms d0 ∅ [] ∅ → rt_run d0 d live log → ∃ held, run_inv ms d live log held.
Proof using Hms Hreg Hg.
  intros I0. induction 1 as [|d live log p fuel d' p' r _ [held I] Hp Hf Hrd Hr|d live log n p r d' p' _ [held I] Hn Hl Hfin].
  - by exists ∅.
  - pose proof (run_read d live log held p fuel I Hp Hf) as P. destruct (ms !! length log) as [m|].
    + rewrite Hrd in P. by destruct P as (_ & _ & _ & _ & P).
    + destruct P as (d2 & p2 & E & _). rewrite Hrd in E. by injection E as _ _ ->.
  - destruct (run_fin d live log held n p r I Hn Hl) as (d2 & p2 & held' & E & I'). rewrite Hfin in E. injection E as <- <-. by exists held'.
Qed.
End runs.

Lemma start_run ms s uridata d0 : rt_start_input (rt_init_input s uridata) = Ok (d0, 0) → server_sends d0 ms →
  run_inv ms d0 ∅ [] ∅ ∧ rt_err d0 = 0.
Proof.
  intros Hst (S & _ & Hw & W). destruct (start_inv _ _ _ Hst) as (I & R & A & E & K). specialize (R Hw). split; [|done].
  split; try done; [unfold blocks_left; rewrite A; lia|]. intros _. by exists 0.
Qed.

(** C32: In a library that has all the formats, every message the server sends becomes a
    packet, if all are messages that the client converts (the server's messages on the session, and data of the ERF,
    DUCK 2.4 and 2.5, BPF, pcap and Linux formats, at least as long as their headers)
    and acknowledgements, if the server wants them, are taken by the connection as a
    whole: in the order of the connection
    and whatever the pieces in which it arrives, the packets read so far show the
    first messages, with their types, the traces of their formats and their lengths
    as return values.  The bytes of every packet that has not been released are still
    in a block that has not been freed, at any time.  The next read gives the next
    message, unless 199,999 packets have been read and the next id is still taken,
    when it waits; when the server has closed the connection it fails.  Releasing a
    packet succeeds. *)
Theorem rt_delivers_messages s uridata d0 ms d live log :
  (∀ k, registered k = true) → 16 ≤ Zlen garbage →
  rt_start_input (rt_init_input s uridata) = Ok (d0, 0) → server_sends d0 ms → rt_run d0 d live log →
  (∀ n p r, log !! n = Some (p, r) →
     ∃ m v block off, ms !! n = Some m ∧ message_view m = Some v ∧ r = Zlen (m_body m) ∧ shows p (m_type m) v block off ∧
       (live !! rk_internalid p = Some n →
          (∃ l, block_bytes d block = Ok l ∧ slice l off (Zlen (message_header m ++ v_body v)) = Ok (message_header m ++ v_body v)) ∧
          is_ok (fin_rt_packet d p) = true)) ∧
  (∀ p fuel, readable p → (rt_work d + 2 ≤ fuel)%nat →
     match ms !! length log with
     | Some m =>
         (∃ d' p', rt_read_packet registered garbage fuel d p = Ok (d', p', Zlen (m_body m))) ∨
         rt_read_packet registered garbage fuel d p = Fault Blocked ∧ MAX_OUTSTANDING - 1 ≤ Zlen log
     | None => ∃ d' p', rt_read_packet registered garbage fuel d p = Ok (d', p', -1) ∧ rt_err d' = TRACE_ERR_RT_FAILURE
     end).
Proof.
  intros Hreg Hg Hst Hs Hrun. pose proof Hs as (_ & Hms & _). destruct (start_run ms _ _ _ Hst Hs) as [I0 _].
  destruct (run_invariant Hreg Hg ms Hms d0 d live log I0 Hrun) as [held I]. split.
  - intros n p r Hn. destruct (ru_log _ _ _ _ _ I _ _ _ Hn) as (m & v & block & off & G1 & G2 & G3 & G4 & G5 & G6).
    exists m, v, block, off. split_and!; try done. intros Hl. split; [by eapply held_bytes; [apply (ru_inv _ _ _ _ _ I)|apply G6]|].
    by destruct (run_fin ms Hms d live log held n p r I Hn Hl) as (d' & p' & held' & -> & _).
  - intros p fuel Hp Hf. pose proof (run_read Hreg Hg ms Hms d live log held p fuel I Hp Hf) as P.
    destruct (ms !! length log) as [m|]; [|done]. destruct (rt_read_packet _ _ _ _ _) as [[[d' p'] r]|f]; [|by destruct P as [-> P]; right].
    destruct P as [-> _]. left. by eexists _, _.
Qed.

(** ** The usual loop

    [while (trace_read_packet(trace, packet) > 0)], [n] times. *)
Fixpoint read_same (n : nat) (fuel : nat) d p : outcome (rt_format_data_t * rt_packet * list Z) :=
  match n with
  | O => Ok (d, p, [])
  | S n' =>
      let! ' (d, p, rs) := read_same n' fuel d p in
      let! ' (d, p, r) := trace_read_rt registered garbage fuel d p in
      Ok (d, p, rs ++ [r])
  end.

(** At most 199,999 ids are in use. *)
Lemma held_size d held : rt_inv d held → Z.of_nat (size held) < MAX_OUTSTANDING.
Proof.
  intros I. destruct (ri_bucket _ _ I) as (xs & B & _).
  assert (dom held ⊆ list_to_set (C := gset Z) (seqZ 1 199999)) as Hsub.
  { intros id Hid. apply elem_of_dom in Hid as [h Hh]. apply elem_of_list_to_set, elem_of_seqZ.
    assert (held_blocks held !! id = Some (Some h.1.1)) as Hout by (unfold held_blocks; by rewrite lookup_fmap, Hh).
    apply (bo_out _ _ _ _ B) in Hout as (n & nd & Hp & _). apply (bo_packets _ _ _ _ B) in Hp as (nd' & _ & r & _ & _ & [Hv1 Hv2] & _). lia. }
  apply subseteq_size in Hsub. rewrite size_dom, size_list_to_set, length_seqZ in Hsub by apply NoDup_seqZ. lia.
Qed.

(** The packets of a program that only reads: none is released. *)
Record loop_state ms d0 d p (n : nat) (live : gmap Z nat) (log : list (rt_packet * Z)) (held : gmap Z (Z * Z * list Z)) : Prop := {
  ls_run : rt_run d0 d live log;
  ls_inv : run_inv ms d live log held;
  ls_len : length log = n;
  ls_size : size live = n;
  ls_err : rt_err d = 0;
  ls_work : (rt_work d ≤ rt_work d0)%nat;
  ls_packet : readable (rk_set_trace p (Some OwnerRt)) ∧ rk_trace p ≠ Some OwnerRt;
}.

Section loop.
Context (Hreg : ∀ k, registered k = true) (Hg : 16 ≤ Zlen garbage) (ms : list rt_message).
Context (Hms : Forall (λ m, message_ok m ∧ is_Some (message_view m)) ms) (Hdata : Forall (λ m, is_Some (rt_kind (m_type m))) ms).

Lemma loop_step d0 d p n live log held fuel m : loop_state ms d0 d p n live log held → (rt_work d0 + 2 ≤ fuel)%nat → ms !! n = Some m →
  (∃ d' p' live' log' held', trace_read_rt registered garbage fuel d p = Ok (d', p', Zlen (m_body m)) ∧
     loop_state ms d0 d' p' (S n) live' log' held') ∨
  trace_read_rt registered garbage fuel d p = Fault Blocked ∧ MAX_OUTSTANDING - 1 ≤ Z.of_nat n.
Proof using Hms Hdata Hreg Hg.
  intros [Hrun I Hlen Hsz He Hw [Hp Ht]] Hf Hm. unfold trace_read_rt. rewrite He. cbn [Z.eqb negb]. rewrite bool_decide_eq_false_2 by done. cbn [obind].
  pose proof (run_read Hreg Hg ms Hms d live log held _ fuel I Hp ltac:(lia)) as P. rewrite Hlen, Hm in P.
  destruct (rt_read_packet registered garbage fuel d (rk_set_trace p (Some OwnerRt))) as [[[d' p'] r]|f] eqn:Hrd.
  2: { destruct P as [-> P]. right. split; [done|]. unfold Zlen in P. lia. }
  destruct P as (-> & Hnew & He' & Hw' & held' & I'). left. eexists d', p', _, _, held'. split; [done|]. rewrite <- Hlen in I'.
  split; [| |..]; try done; try lia; try congruence.
  - eapply (rt_run_read d0 d live log); [done|exact Hp| |exact Hrd|]; [lia|pose proof (Zlen_nonneg (m_body m)); lia].
  - rewrite length_app. cbn. lia.
  - rewrite map_size_insert_None by done. lia.
  - assert ((log ++ [(p', Zlen (m_body m))]) !! length log = Some (p', Zlen (m_body m))) as Hl by apply list_lookup_middle, eq_refl.
    destruct (ru_log _ _ _ _ _ I' _ _ _ Hl) as (m' & v & block & off & E1 & E2 & _ & (S1 & S2 & S3 & _) & _). rewrite Hlen, Hm in E1. injection E1 as <-.
    split; [by split; [|left]|]. rewrite S2. pose proof (proj1 (Forall_lookup _ _) Hdata _ _ Hm) as [k Hk].
    unfold message_view in E2. rewrite Hk in E2. destruct (prepare_record k _ _) as [[[[? ?] ?] ?]|]; [|done]. by injection E2 as <-.
Qed.

Lemma loop_full d0 d p n live log held fuel m : loop_state ms d0 d p n live log held → (rt_work d0 + 2 ≤ fuel)%nat → ms !! n = Some m →
  MAX_OUTSTANDING - 1 ≤ Z.of_nat n → trace_read_rt registered garbage fuel d p = Fault Blocked.
Proof using Hms Hdata Hreg Hg.
  intros L Hf Hm Hn. destruct (loop_step _ _ _ _ _ _ _ _ _ L Hf Hm) as [(d' & p' & live' & log' & held' & _ & L')|[H _]]; [|done]. exfalso.
  pose proof (held_size _ _ (ru_inv _ _ _ _ _ (ls_inv _ _ _ _ _ _ _ _ L'))) as Hs.
  assert (size held' = size live') as E; [|rewrite E, (ls_size _ _ _ _ _ _ _ _ L') in Hs; lia].
  rewrite <- !size_dom. f_equal. apply set_eq. intros id. rewrite !elem_of_dom, <- !not_eq_None_Some.
  pose proof (ru_dom _ _ _ _ _ (ls_inv _ _ _ _ _ _ _ _ L') id). tauto.
Qed.

(** The loop over the messages. *)
Lemma loop_reads d0 p0 fuel n : run_inv ms d0 ∅ [] ∅ → rt_err d0 = 0 → readable (rk_set_trace p0 (Some OwnerRt)) → rk_trace p0 = None →
  (rt_work d0 + 2 ≤ fuel)%nat → (n ≤ length ms)%nat → Z.of_nat n < MAX_OUTSTANDING →
  ∃ d p live log held, read_same n fuel d0 p0 = Ok (d, p, (λ m, Zlen (m_body m)) <$> take n ms) ∧ loop_state ms d0 d p n live log held.
Proof using Hms Hdata Hreg Hg.
  intros I0 E0 Hp0 Ht0 Hf. induction n as [|n IH]; intros Hn Hid.
  - eexists d0, p0, ∅, [], ∅. split; [done|]. split; try done; [constructor|by rewrite Ht0].
  - destruct IH as (d & p & live & log & held & Hrd & L); [lia..|]. destruct (lookup_lt_is_Some_2 ms n) as [m Hm]; [lia|].
    destruct (loop_step _ _ _ _ _ _ _ _ _ L Hf Hm) as [(d' & p' & live' & log' & held' & Hrd' & L')|[_ H]]; [|lia].
    eexists d', p', live', log', held'. split; [|done]. cbn [read_same]. rewrite Hrd. cbn [obind]. rewrite Hrd'. cbn [obind].
    by rewrite (take_S_r _ _ _ Hm), fmap_app.
Qed.
End loop.

(** A program that reads into one packet, as the examples of the library do, never
    releases a packet that belongs to another format: [trace_read_packet] finishes the
    packet only if it belongs to the trace that is read, and the packet has been given
    to a dead trace.  All ids stay in use, and the 200,000th read waits for ever. *)
Theorem read_loop_blocks s uridata d0 p0 ms fuel n :
  (∀ k, registered k = true) → 16 ≤ Zlen garbage →
  rt_start_input (rt_init_input s uridata) = Ok (d0, 0) → server_sends d0 ms →
  Forall (λ m, is_Some (rt_kind (m_type m))) ms → rk_trace p0 = None → rk_buffer p0 = None → rk_own_freed p0 = false →
  (rt_work d0 + 2 ≤ fuel)%nat → (n ≤ length ms)%nat →
  if decide (Z.of_nat n < MAX_OUTSTANDING)
  then ∃ d p live log, read_same n fuel d0 p0 = Ok (d, p, (λ m, Zlen (m_body m)) <$> take n ms) ∧
         rt_run d0 d live log ∧ length log = n ∧ size live = n
  else read_same n fuel d0 p0 = Fault Blocked.
Proof.
  intros Hreg Hg Hst Hs Hdata Ht0 Hb0 Hf0 Hf Hn. pose proof Hs as (_ & Hms & _). destruct (start_run ms _ _ _ Hst Hs) as [I0 E0].
  assert (readable (rk_set_trace p0 (Some OwnerRt))) as Hp0.
  { split; [done|]. right. cbn. rewrite Hb0. split; [done|set_solver]. }
  destruct (decide _) as [Hid|Hid].
  - destruct (loop_reads Hreg Hg ms Hms Hdata d0 p0 fuel n I0 E0 Hp0 Ht0 Hf Hn Hid) as (d & p & live & log & held & Hrd & [L1 L2 L3 L4 _ _ _]).
    exists d, p, live, log. by split_and!.
  - assert (∃ full : nat, Z.of_nat full = MAX_OUTSTANDING - 1) as [full Hfull] by (exists (Z.to_nat (MAX_OUTSTANDING - 1)); lia).
    destruct (loop_reads Hreg Hg ms Hms Hdata d0 p0 fuel full I0 E0 Hp0 Ht0 Hf) as (d & p & live & log & held & Hrd & L); [lia..|].
    destruct (lookup_lt_is_Some_2 ms full) as [m Hm]; [lia|].
    assert (∀ k, read_same (k + S full) fuel d0 p0 = Fault Blocked) as Hall.
    { intros k. induction k as [|k IH]; cbn [read_same Nat.add]; [|by rewrite IH]. rewrite Hrd. cbn [obind].
      by rewrite (loop_full Hreg Hg ms Hms Hdata _ _ _ _ _ _ _ _ _ L Hf Hm) by lia. }
    replace n with ((n - S full) + S full)%nat by lia. apply Hall.
Qed.
End stream.

(** ** What goes wrong *)
Section faults.
Context {N : RtNet} (registered : rt_dummy → bool) (garbage : list Z).
Implicit Types (d : rt_format_data_t) (p : rt_packet).

(** If fewer than eight bytes of an acknowledgement are sent at once, the rest is
    looked for behind the end of the block: the pointer moves by the number of bytes
    that are left and not by the number that were sent. *)
Lemma short_ack_out_of_bounds fuel d ack s n : Zlen ack = 16 → 0 < n < 8 →
  send (rt_net d) (rt_input_fd d) ack = (s, inl n) → (2 ≤ fuel)%nat → ack_loop fuel d ack 0 16 = Fault OutOfBounds.
Proof.
  intros Hl Hn Hs Hf. destruct fuel as [|[|fuel]]; try lia. cbn [ack_loop Z.eqb Pos.eqb]. rewrite slice_ok by lia. cbn [obind].
  change (drop (Z.to_nat 0) ack) with ack. rewrite take_ge by (unfold Zlen in Hl; lia). rewrite Hs.
  rewrite u64_small by lia. rewrite (proj2 (Z.eqb_neq (16 - n) 0)) by lia. unfold slice.
  by rewrite (proj2 (Z.leb_gt (0 + (16 - n) + (16 - n)) (Zlen ack))), andb_false_r by lia.
Qed.

(** Between eight and fifteen, the wrong bytes are sent, without an error. *)
Lemma short_ack_wrong_bytes fuel d ack s n s' : Zlen ack = 16 → 8 ≤ n < 16 →
  send (rt_net d) (rt_input_fd d) ack = (s, inl n) →
  send s (rt_input_fd d) (take (Z.to_nat (16 - n)) (drop (Z.to_nat (16 - n)) ack)) = (s', inl (16 - n)) → (3 ≤ fuel)%nat →
  ack_loop fuel d ack 0 16 = Ok (rt_set_net d s', 1).
Proof.
  intros Hl Hn Hs Hs' Hf. destruct fuel as [|[|[|fuel]]]; try lia. cbn [ack_loop Z.eqb Pos.eqb]. rewrite slice_ok by lia. cbn [obind].
  change (drop (Z.to_nat 0) ack) with ack. rewrite take_ge by (unfold Zlen in Hl; lia). rewrite Hs.
  rewrite u64_small by lia. rewrite (proj2 (Z.eqb_neq (16 - n) 0)) by lia. rewrite Z.add_0_l, slice_ok by lia. cbn [obind].
  cbn [rt_set_net rt_set_conn rt_net rt_input_fd]. rewrite Hs', Z.sub_diag. change (u64 0) with 0. by cbn [Z.eqb].
Qed.

(** A read that fails while it waits leaves a packet whose own buffer has been freed,
    and the next read with this packet frees it again. *)
Lemma failed_read_frees_twice fuel d p block d1 : rk_buffer p = Some OwnBuffer → rk_control p = TRACE_CTRL_PACKET → rk_own_freed p = false →
  header_loop fuel d block = Ok (d1, false) →
  ∃ p1, rt_get_next_packet registered garbage fuel d p block = Ok (d1, p1, -1) ∧
    ∀ fuel' d2 block', rt_get_next_packet registered garbage fuel' d2 p1 block' = Fault Dangling.
Proof.
  intros Hb Hc Hf Hh. unfold rt_get_next_packet at 1. rewrite Hb, Hc, (bool_decide_eq_true_2 (Some OwnBuffer ≠ None)),
    (bool_decide_eq_true_2 (TRACE_CTRL_PACKET = _)) by done. unfold free_buffer at 1. rewrite Hb, Hf. cbn [andb obind]. rewrite Hh. cbn [obind negb].
  eexists. split; [done|]. intros fuel' d2 block'. unfold rt_get_next_packet, free_buffer. cbn. by rewrite Hc, (bool_decide_eq_true_2 (TRACE_CTRL_PACKET = _)).
Qed.

(** Without libpcap the dead trace for pcap packets has no format, which is not
    noticed before it is used. *)
Lemma missing_format_crashes d p block off type : registered DummyPcap = false → rt_dummies d !! DummyPcap = None →
  TRACE_RT_DATA_DLT < type < TRACE_RT_DATA_DLT_END → rk_type p = type → rk_payload p = Some (InBlock block off) →
  rt_reliable d = Some 0 → ∀ fuel, rt_process_data_packet registered garbage fuel d p = Fault NullDeref.
Proof.
  intros Hreg Hd Ht Hty Hp Hr fuel. unfold rt_process_data_packet, rt_acknowledge. rewrite Hr. cbn [obind Z.ltb Z.compare andb Z.eqb]. rewrite Hty.
  unfold rt_set_format. rewrite !(proj2 (Z.ltb_lt _ _)) by lia. cbn [andb]. unfold use_dummy, create_dead. rewrite Hd, Hreg.
  cbn [trace_set_err oassert negb Z.eqb obind andb Z.ltb Z.compare]. unfold trace_prepare_rt, prepare_dummy. cbn [rk_trace rk_set_trace rk_payload].
  rewrite Hp. cbn [rt_dummies rt_set_dummies]. by rewrite lookup_insert_eq.
Qed.

(** A DUCK message of version 5.0 is refused, although its format is known. *)
Lemma duck_5_0_refused fuel d p : rk_type p = TRACE_RT_DUCK_5_0 →
  rt_dispatch registered garbage fuel d p = Ok (d, p, Some (-1)).
Proof. intros Ht. unfold rt_dispatch. by rewrite Ht. Qed.
End faults.

Lemma bytes32_byteswap n : 0 ≤ n < 2 ^ 32 → bytes32 (byteswap32 n) = reverse (bytes32 n).
Proof.
  intros Hn. pose proof (bytes4_of n Hn) as (b0 & b1 & b2 & b3 & H0 & H1 & H2 & H3 & ->). rewrite byteswap32_bytes by done.
  assert (∀ a b c d, 0 ≤ a < 256 → 0 ≤ b < 256 → 0 ≤ c < 256 → 0 ≤ d < 256 →
    bytes32 (a + 256 * b + 65536 * c + 16777216 * d) = [a; b; c; d]) as Hb.
  { intros a b c d Ha Hb Hc Hd. unfold bytes32, bytes16, u8. change (2 ^ 8) with 256. change (2 ^ 16) with 65536. cbn [app].
    repeat f_equal; Z.to_euclidean_division_equations; lia. }
  by rewrite !Hb by done.
Qed.

(** An acknowledgement carries the number of the message in the opposite order of
    bytes. *)
Lemma ack_sequence_reversed {N : RtNet} {NS : RtStream N} garbage fuel d seqno :
  16 ≤ Zlen garbage → ready d → whole_acks → (2 ≤ fuel)%nat → 0 ≤ seqno < 2 ^ 32 →
  ∃ d' ack, rt_send_ack garbage fuel d seqno = Ok (d', 1) ∧
    sent (rt_net d') (rt_input_fd d) = sent (rt_net d) (rt_input_fd d) ++ ack ∧ drop 12 ack = reverse (bytes32 seqno).
Proof.
  intros Hg R Hw Hf Hs. destruct (send_ack_ok garbage fuel d seqno Hg R Hw Hf) as (d' & ack & H1 & _ & _ & _ & _ & H2 & H3).
  exists d', ack. split_and!; try done. rewrite H3. by apply bytes32_byteswap.
Qed.

(** ** A connection in memory

    The bytes to come, the sizes of the pieces in which they arrive (0 for an
    interrupted call; the rest arrives at once), and what has been sent. *)
Record mem_net := { mn_in : list Z; mn_sizes : list Z; mn_out : list Z }.

Definition mem_recv (s : mem_net) (n : Z) : mem_net * (list Z + Z) :=
  let take_in k sizes :=
    ({| mn_in := drop (Z.to_nat k) (mn_in s); mn_sizes := sizes; mn_out := mn_out s |}, inl (take (Z.to_nat k) (mn_in s))) in
  match mn_sizes s with
  | [] => take_in n []
  | k :: sizes =>
      if k <=? 0 then ({| mn_in := mn_in s; mn_sizes := sizes; mn_out := mn_out s |}, inr EINTR)
      else take_in (Z.min k n) sizes
  end.

#[export] Instance memory_net : RtNet := {
  net := mem_net;
  gethostbyname := λ _ _, Some 0x0100007f;
  socket := λ s, (s, 3);
  connect := λ s _ _ _, (s, 0);
  recv := λ s _ n _, mem_recv s n;
  send := λ s _ bs, ({| mn_in := mn_in s; mn_sizes := mn_sizes s; mn_out := mn_out s ++ bs |}, inl (Zlen bs));
  close_fd := λ s _, s;
}.

#[export] Instance memory_stream : RtStream memory_net.
Proof.
  refine {| incoming s _ := mn_in s; interrupts s := length (mn_sizes s); sent s _ := mn_out s |}.
  - intros s fd n block Hn. cbn. unfold mem_recv.
    assert (∀ k, 0 < k ≤ n → mn_in s = take (Z.to_nat k) (mn_in s) ++ drop (Z.to_nat k) (mn_in s) ∧
      Zlen (take (Z.to_nat k) (mn_in s)) ≤ n ∧ (take (Z.to_nat k) (mn_in s) = [] → mn_in s = [])) as H.
    { intros k Hk. rewrite take_drop. unfold Zlen. rewrite length_take. split_and!; [done|lia|]. destruct (mn_in s); [done|].
      destruct (Z.to_nat k) eqn:E; [lia|done]. }
    destruct (mn_sizes s) as [|k sizes]; [split_and!; try apply H; try lia; done|].
    destruct (Z.leb_spec k 0); [split; [done|left; split; [done|cbn; lia]]|]. split_and!; try apply H; try lia. cbn. lia.
  - intros s fd bs. cbn. pose proof (Zlen_nonneg bs). rewrite take_ge by (unfold Zlen; lia). split_and!; try done; lia.
Defined.

(** A server that says hello, does not want acknowledgements, and sends messages. *)
Definition hello : list Z := rt_header_bytes TRACE_RT_HELLO LIBTRACE_RT_MAGIC LIBTRACE_RT_VERSION 1 0 ++ [0].
Definition sample_net (ms : list rt_message) (sizes : list Z) : mem_net :=
  {| mn_in := hello ++ concat (message_bytes <$> ms); mn_sizes := 12 :: 1 :: sizes; mn_out := [] |}.

Definition sample_started (ms : list rt_message) (sizes : list Z) : rt_format_data_t :=
  rt_set_conn (rt_init_input (sample_net ms sizes) [])
    {| mn_in := concat (message_bytes <$> ms); mn_sizes := sizes;
       mn_out := rt_header_bytes TRACE_RT_START LIBTRACE_RT_MAGIC LIBTRACE_RT_VERSION 0 0 |} 3 (Some 0) 0 0.

Lemma sample_start ms sizes :
  rt_start_input (rt_init_input (sample_net ms sizes) []) = Ok (sample_started ms sizes, 0).
Proof. reflexivity. Qed.

Definition all_formats : rt_dummy → bool := λ _, true.
Definition no_bytes : list Z := replicate 16 0.

(** An ERF record of sixteen bytes, one with a body of pcap, meta-data, and the end. *)
Definition sample_erf : rt_message :=
  {| m_type := TRACE_RT_DATA_ERF; m_magic := LIBTRACE_RT_MAGIC; m_version := LIBTRACE_RT_VERSION; m_sequence := 7;
     m_body := [1; 2; 3; 4; 5; 6; 7; 8; 2; 0; 0; 18; 0; 0; 0; 0; 0; 0] |}.
Definition sample_messages : list rt_message :=
  [sample_erf;
   {| m_type := 2001; m_magic := 0; m_version := 0; m_sequence := 8; m_body := replicate 30 9 |};
   {| m_type := TRACE_RT_METADATA; m_magic := 0; m_version := 0; m_sequence := 9; m_body := replicate 8 0 |};
   {| m_type := TRACE_RT_END_DATA; m_magic := 0; m_version := 0; m_sequence := 10; m_body := [] |}].
Definition sample_sizes : list Z := [5; 0; 9; 40; 1; 0; 0; 3].
Definition sample_packet : rt_packet :=
  {| rk_buffer := None; rk_own_freed := false; rk_control := TRACE_CTRL_PACKET; rk_header := None; rk_payload := None; rk_type := 0;
     rk_trace := None; rk_srcbucket := false; rk_internalid := 0 |}.
Definition sample_rt : rt_format_data_t := sample_started sample_messages sample_sizes.
Definition sample_first : outcome (rt_format_data_t * rt_packet * Z) :=
  rt_read_packet all_formats no_bytes 200 sample_rt (rk_set_trace sample_packet (Some OwnerRt)).

Lemma sample_sends : server_sends sample_rt sample_messages.
Proof.
  split_and!; [done| |by intros r [= <-]|vm_compute; reflexivity].
  repeat (constructor; [split; [split_and!; vm_compute; congruence|vm_compute; eauto]|]). constructor.
Qed.

Lemma rt_delivers_messages_witness :
  ∃ d p v block off l, sample_first = Ok (d, p, 18) ∧ message_view sample_erf = Some v ∧ shows p TRACE_RT_DATA_ERF v block off ∧
    block_bytes d block = Ok l ∧ slice l off (Zlen (message_header sample_erf ++ v_body v)) = Ok (message_header sample_erf ++ v_body v).
Proof.
  destruct sample_first as [[[d p] r]|] eqn:E; [|exfalso; revert E; vm_compute; congruence].
  pose proof E as E'. unfold sample_first in E'.
  assert (rt_run all_formats no_bytes sample_rt d (<[rk_internalid p := 0%nat]> ∅) [(p, r)]) as Hrun.
  { refine (rt_run_read _ _ sample_rt sample_rt ∅ [] (rk_set_trace sample_packet (Some OwnerRt)) 200 d p r _ _ _ E' _).
    - apply rt_run_start.
    - split; [done|]. right. split; [done|]. apply elem_of_cons. by left.
    - apply Nat.leb_le. vm_compute. reflexivity.
    - intros ->. revert E. vm_compute. congruence. }
  destruct (rt_delivers_messages (N := memory_net) all_formats no_bytes (sample_net sample_messages sample_sizes) [] sample_rt sample_messages d _ _
    (λ _, eq_refl) ltac:(by vm_compute) (sample_start sample_messages sample_sizes) sample_sends Hrun) as [H _].
  destruct (H 0%nat p r eq_refl) as (m & v & block & off & [= <-] & H2 & -> & H4 & H5).
  destruct (H5 ltac:(apply lookup_insert_eq)) as ((l & H6 & H7) & _).
  exists d, p, v, block, off, l. split_and!; [reflexivity|exact H2|exact H4|exact H6|exact H7].
Defined.

(** Two hundred thousand packets. *)
Definition many (k : nat) : list rt_message := replicate k sample_erf.

Lemma Zlen_many k : Zlen (concat (message_bytes <$> many k)) = 30 * Z.of_nat k.
Proof.
  unfold many. induction k as [|k IH]; [done|]. cbn [replicate fmap list_fmap concat]. rewrite Zlen_app, IH. change (Zlen (message_bytes sample_erf)) with 30. lia.
Qed.

Lemma many_sends k : Z.of_nat k ≤ 2 ^ 32 → server_sends (sample_started (many k) []) (many k).
Proof.
  intros Hk. split_and!; [done| |by intros r [= <-]|].
  - apply Forall_replicate. split; [split_and!; vm_compute; congruence|vm_compute; eauto].
  - pose proof (Zlen_many k) as Hl. unfold rt_work, Zlen in *. cbn in *. lia.
Qed.

Lemma many_kind k : Forall (λ m, is_Some (rt_kind (m_type m))) (many k).
Proof. apply Forall_replicate. by eexists. Qed.

Lemma many_length k : (k ≤ length (many k))%nat.
Proof. unfold many. by rewrite length_replicate. Qed.

Lemma read_loop_blocks_witness :
  read_same all_formats no_bytes (Z.to_nat 200000) (rt_work (sample_started (many (Z.to_nat 200000)) []) + 2)
    (sample_started (many (Z.to_nat 200000)) []) sample_packet = Fault Blocked.
Proof.
  pose proof (read_loop_blocks (N := memory_net) all_formats no_bytes (sample_net (many (Z.to_nat 200000)) []) []
    (sample_started (many (Z.to_nat 200000)) []) sample_packet (many (Z.to_nat 200000))
    (rt_work (sample_started (many (Z.to_nat 200000)) []) + 2) (Z.to_nat 200000)
    (λ _, eq_refl) ltac:(by vm_compute) (sample_start (many (Z.to_nat 200000)) []) (many_sends (Z.to_nat 200000) ltac:(lia))
    (many_kind (Z.to_nat 200000)) eq_refl eq_refl eq_refl (le_n _) (many_length (Z.to_nat 200000))) as H.
  rewrite decide_False in H by lia. exact H.
Defined.

(** The packet of a message that the filter refuses keeps its id. *)
Example filtered_packet_kept :
  match event_loop all_formats no_bytes (Some (λ _ p, negb (rk_type p =? TRACE_RT_DATA_ERF))) 200
          (sample_started sample_messages []) (rk_set_trace sample_packet (Some OwnerRt)) 0 0 with
  | Ok (d, p, _, size, accepted, filtered) =>
      (rk_internalid p, size, accepted, filtered, (map_to_list (b_packets (rt_bucket d))).*1) = (1, 30, 2, 1, [199999; 1])
  | Fault _ => False
  end.
Proof. vm_compute. reflexivity. Qed.
