(* ===== verification/Parallel.v ===== *)
(** * Reading packets in a parallel trace: lib/trace_parallel.c

    A per-packet thread reads a batch of packets, through the format's own
    parallel reader ([trace_pread_packet_wrapper]), or one thread at a time
    through [trace_read_packet] ([trace_pread_packet_first_in_first_served]).
    The packets, traces and filters are the objects of Trace. *)

From S2P Require Import Prelude DNodes Packet Timestamps FormatHelper PcapFile Buckets Filter Trace.
Local Open Scope Z_scope.
Local Open Scope outcome_scope.

Abbreviation READ_EOF := 0.
Abbreviation READ_ERROR := (-1).
Abbreviation READ_MESSAGE := (-2).
Abbreviation READ_TICK := (-3).

Section reading.
Context {F prog : Type}.
Variable pcap_compile : Z → list Z → option prog.
Variable bpf_filter : prog → list Z → Z.
Variable fresh : list Z.

Local Abbreviation W := (world F prog).
Implicit Types (w : world F prog) (t f p : loc).

(** ** Filtering a batch *)

(** [trace_apply_filter(trace->filter, packet)] for objects of the world. *)
Definition apply_filter w t f p : outcome (W * Z) :=
  let! tr := load (w_traces w) t in
  let! fi := load (w_filters w) f in
  let! pk := load (w_packets w) p in
  let! ' (fi, o, filtret, err) :=
    trace_apply_filter pcap_compile bpf_filter fresh fi (fm_table (tr_module tr) (tr_data tr)) (tp_obj pk) in
  Ok (set_packet (set_trace (set_filter w f fi) t (tr_set_data tr (tr_data tr) err)) p (tp_set_obj pk o), filtret).

Fixpoint filter_loop (n : nat) w t f (packets : list loc) (i offset : Z) : outcome (W * list loc * Z) :=
  match n with
  | O => Ok (w, packets, offset)
  | S n' =>
      let! p := aget packets i in
      let! pk := load (w_packets w) p in
      let w := set_packet w p (tp_set_trace pk (Some t)) in
      let! ' (w, ret) := apply_filter w t f p in
      if ret =? 0 then
        let! w := trace_fin_packet w p in
        filter_loop n' w t f packets (i + 1) offset
      else
        let! tmp := aget packets offset in
        let! packets := aset packets offset p in
        let! packets := aset packets i tmp in
        filter_loop n' w t f packets (i + 1) (offset + 1)
  end.

Definition filter_packets w t f (packets : list loc) (nb_packets : Z) : outcome (W * list loc * Z) :=
  filter_loop (Z.to_nat nb_packets) w t f packets 0 0.

(** ** The format's parallel reader *)

(** The counters of a thread. *)
Record thread_counts := { th_accepted_packets : Z; th_filtered_packets : Z }.

Definition count_filtered (th : thread_counts) (n : Z) : thread_counts :=
  {| th_accepted_packets := th_accepted_packets th; th_filtered_packets := u64 (th_filtered_packets th + n) |}.

(** Snap length and order of a packet that was read. *)
Definition finish_read w t p : outcome W :=
  let! tr := load (w_traces w) t in
  let! pk := load (w_packets w) p in
  let table := fm_table (tr_module tr) (tr_data tr) in
  let o := tp_obj pk in
  let o := if 0 <? tr_snaplen tr
           then o_set_pkt o (trace_set_capture_length (tr_format table) (o_pkt o) (tr_snaplen tr)).1
           else o in
  let! order := trace_get_erf_timestamp (tr_time table) (o_pkt o) in
  Ok (set_packet w p (trace_packet_set_order (tp_set_obj pk o) order)).

Fixpoint finish_reads (n : nat) w t (packets : list loc) (i : Z) : outcome W :=
  match n with
  | O => Ok w
  | S n' =>
      let! p := aget packets i in
      let! w := finish_read w t p in
      finish_reads n' w t packets (i + 1)
  end.

(** The format's [pread_packets], if it has one, stores packets in the first slots. *)
Variable pread_packets : option (W → loc → list loc → Z → outcome (W * Z)).

Fixpoint pread_loop (fuel : nat) (pread : W → loc → list loc → Z → outcome (W * Z)) w (th : thread_counts) t
    (packets : list loc) (nb_packets : Z) : outcome (W * thread_counts * list loc * Z) :=
  match fuel with
  | O => Fault OutOfFuel
  | S fuel' =>
      let! ' (w, ret) := pread w t packets nb_packets in
      if ret <=? 0 then Ok (w, th, packets, ret)
      else
        let! tr := load (w_traces w) t in
        let! ' (w, th, packets, ret) :=
          match tr_filter tr with
          | None => Ok (w, th, packets, ret)
          | Some f =>
              let! ' (w, packets, remaining) := filter_packets w t f packets ret in
              Ok (w, count_filtered th (ret - remaining), packets, remaining)
          end in
        let! w := finish_reads (Z.to_nat ret) w t packets 0 in
        if ret =? 0 then pread_loop fuel' pread w th t packets nb_packets
        else Ok (w, th, packets, ret)
  end.

(** Every packet is a block with a valid buffer control, so the loop that looks for
    others finds none. *)
Definition trace_pread_packet_wrapper (fuel : nat) w (th : thread_counts) t (packets : list loc) (nb_packets : Z)
  : outcome (W * thread_counts * list loc * Z) :=
  let! _ := oassert (negb (nb_packets =? 0)) in
  let! tr := load (w_traces w) t in
  if trace_is_err tr then Ok (w, th, packets, -1)
  else if negb (tr_started tr) then
    let! ' (w, ret) := fail_with w t tr TRACE_ERR_BAD_STATE (-1) in Ok (w, th, packets, ret)
  else
    match pread_packets with
    | Some pread => pread_loop fuel pread w th t packets nb_packets
    | None => let! ' (w, ret) := fail_with w t tr TRACE_ERR_UNSUPPORTED (-1) in Ok (w, th, packets, ret)
    end.
End reading.

(** ** What filtering a batch means

    The reference: the packets are looked at one after the other, and one that the
    filter rejects is finished. *)
Section filtering.
Context {F prog : Type} (pcap_compile : Z → list Z → option prog) (bpf_filter : prog → list Z → Z) (fresh : list Z).
Implicit Types (w : world F prog) (t f p : loc).

Definition judge w t f p : outcome (world F prog * bool) :=
  let! pk := load (w_packets w) p in
  let! ' (w, ret) := apply_filter pcap_compile bpf_filter fresh (set_packet w p (tp_set_trace pk (Some t))) t f p in
  if ret =? 0 then let! w := trace_fin_packet w p in Ok (w, false) else Ok (w, true).

Fixpoint judge_all w t f (ps : list loc) : outcome (world F prog * list bool) :=
  match ps with
  | [] => Ok (w, [])
  | p :: ps' =>
      let! ' (w, r) := judge w t f p in
      let! ' (w, rs) := judge_all w t f ps' in
      Ok (w, r :: rs)
  end.

(** The packets for which the result is [b]. *)
Fixpoint picked (b : bool) (ps : list loc) (rs : list bool) : list loc :=
  match ps, rs with
  | p :: ps', r :: rs' => if Bool.eqb r b then p :: picked b ps' rs' else picked b ps' rs'
  | _, _ => []
  end.

Lemma filter_loop_step w t f acc rej p todo tl n :
  filter_loop pcap_compile bpf_filter fresh (S n) w t f (acc ++ rej ++ p :: todo ++ tl) (Zlen acc + Zlen rej) (Zlen acc) =
  let! ' (w, r) := judge w t f p in
  if r : bool then
    let rest := match rej with [] => [] | r0 :: rej' => rej' ++ [r0] end in
    filter_loop pcap_compile bpf_filter fresh n w t f ((acc ++ [p]) ++ rest ++ todo ++ tl)
      (Zlen (acc ++ [p]) + Zlen rest) (Zlen (acc ++ [p]))
  else
    filter_loop pcap_compile bpf_filter fresh n w t f (acc ++ (rej ++ [p]) ++ todo ++ tl)
      (Zlen acc + Zlen (rej ++ [p])) (Zlen acc).
Proof.
  cbn [filter_loop]. unfold judge.
  assert (Z.to_nat (Zlen acc) = length acc) as Na by apply Nat2Z.id.
  assert (Z.to_nat (Zlen acc + Zlen rej) = length (acc ++ rej)) as Nr by (rewrite length_app; unfold Zlen; lia).
  pose proof (Zlen_nonneg acc). pose proof (Zlen_nonneg rej). pose proof (Zlen_nonneg (todo ++ tl)).
  assert (0 ≤ Zlen acc + Zlen rej < Zlen (acc ++ rej ++ p :: todo ++ tl)) by (autorewrite with zlen in *; lia).
  rewrite (aget_ok _ _ p); [|lia|by rewrite Nr, app_assoc; apply list_lookup_middle]. cbn [obind].
  destruct (load (w_packets w) p) as [pk|]; [|done]. cbn [obind].
  destruct (apply_filter _ _ _ _ t f p) as [[w1 ret]|]; [|done]. cbn [obind].
  destruct (ret =? 0).
  - destruct (trace_fin_packet w1 p) as [w2|]; [|done]. cbn [obind].
    rewrite <- (app_assoc rej). cbn [app]. rewrite Zlen_app. change (Zlen [p]) with 1. by rewrite Z.add_assoc.
  - cbn [obind]. destruct rej as [|r0 rej].
    + cbn [app]. rewrite Zlen_nil, Z.add_0_r in *.
      rewrite (aget_ok _ _ p); [|lia|by rewrite Na; apply list_lookup_middle]. cbn [obind].
      rewrite aset_ok by done. cbn [obind]. rewrite Na, list_insert_id by by apply list_lookup_middle.
      rewrite aset_ok by done. cbn [obind]. rewrite Na, list_insert_id by by apply list_lookup_middle.
      rewrite Zlen_app. change (Zlen [p]) with 1. by rewrite Z.add_0_r, <- app_assoc.
    + rewrite (aget_ok _ _ r0); [|lia|by rewrite Na; apply list_lookup_middle]. cbn [obind].
      rewrite aset_ok by lia. cbn [obind]. rewrite Na.
      rewrite <- (Nat.add_0_r (length acc)), insert_app_r. cbn [app insert list_insert].
      rewrite aset_ok by (autorewrite with zlen in *; lia). cbn [obind]. rewrite Nr.
      replace (acc ++ p :: rej ++ p :: todo ++ tl) with ((acc ++ p :: rej) ++ p :: todo ++ tl) by by rewrite <- app_assoc.
      replace (length (acc ++ r0 :: rej)) with (length (acc ++ p :: rej) + 0)%nat by (rewrite !length_app; simpl; lia).
      rewrite insert_app_r. cbn [insert list_insert]. f_equal.
      * rewrite <- !app_assoc. cbn [app]. by rewrite <- ?app_assoc.
      * autorewrite with zlen. lia.
      * autorewrite with zlen. lia.
Qed.

Lemma filter_loop_judge todo : ∀ w t f acc rej tl,
  match judge_all w t f todo with
  | Fault e =>
      filter_loop pcap_compile bpf_filter fresh (length todo) w t f (acc ++ rej ++ todo ++ tl) (Zlen acc + Zlen rej) (Zlen acc)
      = Fault e
  | Ok (w', rs) =>
      ∃ rest, rest ≡ₚ rej ++ picked false todo rs ∧
      filter_loop pcap_compile bpf_filter fresh (length todo) w t f (acc ++ rej ++ todo ++ tl) (Zlen acc + Zlen rej) (Zlen acc)
      = Ok (w', (acc ++ picked true todo rs) ++ rest ++ tl, Zlen (acc ++ picked true todo rs))
  end.
Proof.
  induction todo as [|p todo IH]; intros w t f acc rej tl.
  - cbn. exists rej. by rewrite !app_nil_r.
  - cbn [length judge_all]. rewrite <- app_comm_cons, filter_loop_step.
    destruct (judge w t f p) as [[w1 r]|]; [|done]. cbn [obind]. destruct r.
    + set (rest0 := match rej with [] => [] | r0 :: rej' => rej' ++ [r0] end).
      assert (rest0 ≡ₚ rej) as Hr0 by (destruct rej as [|r0 rej]; [done|]; unfold rest0; by rewrite (comm app)).
      specialize (IH w1 t f (acc ++ [p]) rest0 tl). destruct (judge_all w1 t f todo) as [[w2 rs]|]; cbn [obind]; [|done].
      destruct IH as (rest & Hrest & ->). exists rest. cbn [picked Bool.eqb]. split; [by rewrite Hrest, Hr0|].
      by rewrite <- !(app_assoc acc [p]).
    + specialize (IH w1 t f acc (rej ++ [p]) tl). destruct (judge_all w1 t f todo) as [[w2 rs]|]; cbn [obind]; [|done].
      destruct IH as (rest & Hrest & ->). exists rest. cbn [picked Bool.eqb]. split; [|done].
      by rewrite Hrest, <- (app_assoc rej [p]).
Qed.

Lemma filter_packets_judge w t f packets nb :
  0 ≤ nb ≤ Zlen packets →
  let batch := take (Z.to_nat nb) packets in
  match judge_all w t f batch with
  | Fault e => filter_packets pcap_compile bpf_filter fresh w t f packets nb = Fault e
  | Ok (w', rs) =>
      ∃ rest, rest ≡ₚ picked false batch rs ∧
      filter_packets pcap_compile bpf_filter fresh w t f packets nb =
        Ok (w', picked true batch rs ++ rest ++ drop (Z.to_nat nb) packets, Zlen (picked true batch rs))
  end.
Proof.
  intros Hnb batch. pose proof (filter_loop_judge batch w t f [] [] (drop (Z.to_nat nb) packets)) as H.
  cbn [app] in H. change (Zlen (@nil loc) + Zlen (@nil loc)) with 0 in H. change (Zlen (@nil loc)) with 0 in H.
  assert (batch ++ drop (Z.to_nat nb) packets = packets) as E1 by apply take_drop.
  assert (length batch = Z.to_nat nb) as E2 by (apply length_take_le; unfold Zlen in Hnb; lia).
  rewrite E1, E2 in H. exact H.
Qed.

(** Filtering a batch in place does what looking at its packets one after the other does,
    failures included: the packets that pass come first, in their order, and their
    number is returned; the others, which have been finished, follow in some
    order; and the slots behind the batch are not touched. *)
Theorem filter_packets_partition w t f packets nb :
  0 ≤ nb ≤ Zlen packets →
  let batch := take (Z.to_nat nb) packets in
  match judge_all w t f batch with
  | Fault e => filter_packets pcap_compile bpf_filter fresh w t f packets nb = Fault e
  | Ok (w', rs) =>
      ∃ rest, rest ≡ₚ picked false batch rs ∧
      filter_packets pcap_compile bpf_filter fresh w t f packets nb =
        Ok (w', picked true batch rs ++ rest ++ drop (Z.to_nat nb) packets, Zlen (picked true batch rs))
  end.
Proof. apply filter_packets_judge. Qed.
End filtering.

Lemma picked_split ps rs : length rs = length ps → picked true ps rs ++ picked false ps rs ≡ₚ ps.
Proof.
  revert rs. induction ps as [|p ps IH]; intros [|r rs] Hl; try done. cbn [picked]. destruct r; cbn [Bool.eqb app].
  - by rewrite IH by (simpl in Hl; lia).
  - rewrite <- Permutation_middle. by rewrite IH by (simpl in Hl; lia).
Qed.

(** ** The parallel reader returns *)
Section pread.
Context {F prog : Type} (pcap_compile : Z → list Z → option prog) (bpf_filter : prog → list Z → Z) (fresh : list Z)
  (left : F → nat).
Implicit Types (w : world F prog) (t f p q : loc) (tr : libtrace_t F) (ps : list loc).
Local Abbreviation winv := (winv left).

(** A trace keeps its module, filter, snap length and position in the input. *)
Definition same_reader tr tr' : Prop :=
  tr_module tr' = tr_module tr ∧ tr_filter tr' = tr_filter tr ∧ tr_snaplen tr' = tr_snaplen tr ∧
  left (tr_data tr') = left (tr_data tr).

(** Packets that a thread can read into: alive, distinct, and not the last packet
    of any trace. *)
Definition no_last w p : Prop := ∀ t tr, w_traces w !! t = Some tr → tr_last_packet tr ≠ Some p.
Definition batch_ok w ps : Prop :=
  NoDup ps ∧ Forall (λ p, is_Some (w_packets w !! p) ∧ no_last w p) ps.

(** A filter can be applied to the packet, whatever the format's data. *)
Definition filterable_obj (m : format_module F) (o : packet_obj) : Prop :=
  ∀ data fi, filter_ok fi → ∃ fi' o' ret err,
    trace_apply_filter pcap_compile bpf_filter fresh fi (fm_table m data) o = Ok (fi', o', ret, err) ∧ filter_ok fi'.

(** What the wrapper relies on: the reader returns, gives at most as many packets as
    asked for, in the first slots, and has as many fewer left; they can be
    filtered, and their time does not need a floating-point conversion.
    Finishing a packet does not change what is left. *)
Record pread_ok (m : format_module F) (pread : world F prog → loc → list loc → Z → outcome (world F prog * Z)) : Prop := {
  po_read : ∀ w t tr ps, winv w → batch_ok w ps → w_traces w !! t = Some tr → tr_module tr = m →
    ∃ w' ret tr', pread w t ps (Zlen ps) = Ok (w', ret) ∧ winv w' ∧ batch_ok w' ps ∧ ret ≤ Zlen ps ∧
      w_traces w' !! t = Some tr' ∧ tr_module tr' = m ∧ tr_filter tr' = tr_filter tr ∧
      tr_snaplen tr' = tr_snaplen tr ∧ left (tr_data tr) = (left (tr_data tr') + Z.to_nat ret)%nat ∧
      Forall (λ p, ∀ pk, w_packets w' !! p = Some pk → filterable_obj m (tp_obj pk)) (take (Z.to_nat ret) ps);
  po_fin : ∀ fin data o, fm_fin_packet m = Some fin → left (fin data o).1 = left data;
  po_time : ∀ data pk, is_ok (trace_get_erf_timestamp (tr_time (fm_table m data)) pk) = true;
}.

(** Finishing a packet keeps what is left to read. *)
Lemma fin_packet_left w p w' t tr tr' :
  trace_fin_packet w p = Ok w' → w_traces w !! t = Some tr → w_traces w' !! t = Some tr' →
  (∀ fin data o, fm_fin_packet (tr_module tr) = Some fin → left (fin data o).1 = left data) →
  left (tr_data tr') = left (tr_data tr).
Proof.
  intros H Et Et' Hfin. unfold trace_fin_packet in H. obind_inv H. rename a into pk.
  obind_inv H. rename a into w1, Hstep0 into H1.
  assert (∃ tr1, w_traces w1 !! t = Some tr1 ∧ left (tr_data tr1) = left (tr_data tr)) as (tr1 & Et1 & <-).
  { destruct (tp_trace pk) as [u|]; [|injection H1 as <-; by exists tr].
    unfold format_fin_packet in H1. obind_inv H1. rename a into tru. unfold load in Hstep0.
    destruct (w_traces w !! u) as [tru'|] eqn:Eu; [|done]. injection Hstep0 as ->.
    destruct (fm_fin_packet (tr_module tru)) as [fin|] eqn:Efin; [|injection H1 as <-; by exists tr].
    obind_inv H1. destruct (fin (tr_data tru) _) as [data o] eqn:Ed. injection H1 as <-.
    cbn [set_packet set_trace w_traces]. rewrite lookup_insert. case_decide; [|by exists tr]. subst u.
    eexists. split; [done|]. cbn. rewrite Et in Eu. injection Eu as ->.
    specialize (Hfin fin (tr_data tru) (tp_obj a) Efin). by rewrite Ed in Hfin. }
  obind_inv H. rename a into pk1. obind_inv H. rename a into w2, Hstep1 into H2.
  assert (w_traces w2 = w_traces w1) as E2.
  { unfold release_bucket in H2. destruct (tp_srcbucket pk1); [|by injection H2 as <-].
    destruct (_ =? _); [by injection H2 as <-|]. obind_inv H2. obind_inv H2. by injection H2 as <-. }
  obind_inv H. rename a into w3, Hstep1 into H3. injection H as <-. cbn [set_packet w_traces] in Et'.
  destruct (tp_trace pk1) as [u|]; [|injection H3 as <-; congruence].
  unfold forget_packet in H3. obind_inv H3. rename a into tru. obind_inv H3. obind_inv H3. injection H3 as <-.
  unfold load in Hstep1. destruct (w_traces w2 !! u) as [tru'|] eqn:Eu; [|done]. injection Hstep1 as ->.
  cbn [set_trace w_traces] in Et'. rewrite lookup_insert in Et'. case_decide; [|congruence]. subst u.
  injection Et' as <-. cbn. congruence.
Qed.

(** One packet is judged. *)
Lemma judge_ok m w t f p pk tr :
  winv w → w_traces w !! t = Some tr → tr_module tr = m → tr_filter tr = Some f → w_packets w !! p = Some pk →
  no_last w p → filterable_obj m (tp_obj pk) →
  (∀ fin data o, fm_fin_packet m = Some fin → left (fin data o).1 = left data) →
  ∃ w' r tr' pk', judge pcap_compile bpf_filter fresh w t f p = Ok (w', r) ∧ winv w' ∧ (∀ q, no_last w q → no_last w' q) ∧
    (∀ q, q ≠ p → w_packets w' !! q = w_packets w !! q) ∧
    w_traces w' !! t = Some tr' ∧ same_reader tr tr' ∧
    w_packets w' !! p = Some pk' ∧ tp_trace pk' = if r : bool then Some t else None.
Proof.
  intros W Et Em Ef Ep Hnl Hfi Hfin. unfold judge. rewrite (load_Some _ _ _ Ep). cbn [obind].
  set (pk1 := tp_set_trace pk (Some t)). set (w1 := set_packet w p pk1).
  assert (winv w1) as W1.
  { apply winv_set_packet; [done| | |exact (inv_bucket _ _ W p pk Ep)].
    - intros t' tr' Et' El. by destruct (Hnl t' tr').
    - intros t' [= <-]. by exists tr. }
  assert (w_packets w1 !! p = Some pk1) as Ep1 by apply lookup_insert_eq.
  destruct (filter_step_ok pcap_compile bpf_filter fresh left w1 t p tr pk1
    {| rr_data := tr_data tr; rr_buckets := w_buckets w1; rr_obj := tp_obj pk; rr_bucket := None; rr_err := None; rr_ret := 0 |})
    as (w2 & fr & tr2 & o2 & H2 & W2 & Et2 & Ep2 & Htr2 & _);
    [done|done|done|done|done|done|rewrite Em; intros f' fi _ Efi; apply Hfi; by apply (inv_filters _ _ W1 f')|].
  rewrite Ef in H2. unfold apply_filter. rewrite (load_Some (w_traces w1) _ _ Et). cbn [obind].
  obind_inv H2. rename a into fi, Hstep into Efi. rewrite Efi. cbn [obind]. rewrite (load_Some _ _ _ Ep1). cbn [obind].
  obind_inv H2. destruct a as [[[fi' o'] ret] err]. rewrite Hstep. cbn [obind]. injection H2 as <- <-.
  set (w2 := set_packet _ p (tp_set_obj pk1 o')) in *.
  assert (∀ q, no_last w q → no_last w2 q) as Hnl2.
  { intros q Hq t' tr' Et'. unfold w2 in Et'. cbn [set_packet set_trace set_filter w1 w_traces] in Et'.
    rewrite lookup_insert in Et'. case_decide; [injection Et' as <-; exact (Hq t tr Et)|by apply (Hq t')]. }
  assert (∀ q, q ≠ p → w_packets w2 !! q = w_packets w !! q) as Hq2.
  { intros q Hq. unfold w2, w1. cbn [set_packet set_trace set_filter w_packets]. by rewrite !lookup_insert_ne. }
  assert (same_reader tr tr2) as Hs2 by (rewrite Htr2; by split_and!).
  destruct (ret =? 0).
  - destruct (fin_packet_ok left w2 p _ W2 Ep2) as (w3 & E3 & W3 & R3 & Q3 & (pk3 & P3 & T3) & _).
    rewrite E3. cbn [obind]. destruct (traces_rel_lookup _ _ _ _ _ R3 Et2) as (tr3 & Et3 & A3).
    destruct A3 as ((Hm3 & _ & Hf3) & _ & _ & _ & Hsn & _). destruct Hs2 as (Hm2 & Hf2 & Hsn2 & Hl2).
    assert (left (tr_data tr3) = left (tr_data tr2)) as Hl3.
    { apply (fin_packet_left w2 p w3 t tr2 tr3 E3 Et2 Et3). rewrite Hm2, Em. exact Hfin. }
    exists w3, false, tr3, pk3. split_and!; try done.
    + intros q Hq t' tr' Et' El. destruct (traces_rel_lookup_r _ _ _ _ _ R3 Et') as (tr0 & Et0 & (_ & _ & _ & _ & _ & _ & _ & _ & K)).
      rewrite K in El. case_bool_decide; [done|]. by apply (Hnl2 q Hq _ _ Et0).
    + intros q Hq. rewrite Q3 by done. by apply Hq2.
    + split_and!; congruence.
  - exists w2, true, tr2. eexists. split_and!; done.
Qed.

Lemma judge_all_ok m ps : ∀ w t f tr,
  winv w → w_traces w !! t = Some tr → tr_module tr = m → tr_filter tr = Some f → batch_ok w ps →
  Forall (λ p, ∀ pk, w_packets w !! p = Some pk → filterable_obj m (tp_obj pk)) ps →
  (∀ fin data o, fm_fin_packet m = Some fin → left (fin data o).1 = left data) →
  ∃ w' rs tr', judge_all pcap_compile bpf_filter fresh w t f ps = Ok (w', rs) ∧ winv w' ∧
    (∀ q, no_last w q → no_last w' q) ∧ (∀ q, q ∉ ps → w_packets w' !! q = w_packets w !! q) ∧
    (∀ q, is_Some (w_packets w !! q) → is_Some (w_packets w' !! q)) ∧
    w_traces w' !! t = Some tr' ∧ same_reader tr tr' ∧ length rs = length ps.
Proof.
  induction ps as [|p ps IH]; intros w t f tr W Et Em Ef [Hnd Hb] Hfi Hfin.
  - exists w, [], tr. by split_and!.
  - apply NoDup_cons in Hnd as [Hp Hnd]. apply Forall_cons in Hb as [[[pk Ep] Hnl] Hb].
    apply Forall_cons in Hfi as [Hfp Hfi]. cbn [judge_all].
    destruct (judge_ok m w t f p pk tr) as (w1 & r & tr1 & pk1 & -> & W1 & N1 & Q1 & Et1 & (Sm & Sf & Ss & Sl) & P1 & _); [done..|by apply Hfp|done|].
    cbn [obind].
    assert (∀ q, is_Some (w_packets w !! q) → is_Some (w_packets w1 !! q)) as Hlive.
    { intros q Hq. destruct (decide (q = p)) as [->|Hne]; [by exists pk1|by rewrite Q1]. }
    destruct (IH w1 t f tr1) as (w2 & rs & tr2 & -> & W2 & N2 & Q2 & L2 & Et2 & S2 & Hl); [done|done|congruence|congruence| | |done|].
    + split; [done|]. eapply Forall_impl; [exact Hb|]. intros q [Hq Hn]. split; [by apply Hlive|by apply N1].
    + rewrite Forall_forall in Hfi |- *. intros q Hq pkq. rewrite Q1 by (intros ->; done). by apply Hfi.
    + cbn [obind]. exists w2, (r :: rs), tr2. split_and!; try done.
      * intros q Hq. by apply N2, N1.
      * intros q Hq. rewrite not_elem_of_cons in Hq. rewrite Q2 by apply Hq. apply Q1, Hq.
      * intros q Hq. by apply L2, Hlive.
      * unfold same_reader in *. destruct S2 as (? & ? & ? & ?). split_and!; congruence.
      * cbn [length]. by rewrite Hl.
Qed.

(** The packet has its ERF timestamp as its order. *)
Definition ordered w (m : format_module F) p : Prop :=
  ∃ pk data, w_packets w !! p = Some pk ∧
    trace_get_erf_timestamp (tr_time (fm_table m data)) (o_pkt (tp_obj pk)) = Ok (tp_order pk).

Lemma finish_read_ok m w t p pk tr :
  winv w → w_traces w !! t = Some tr → tr_module tr = m → w_packets w !! p = Some pk → no_last w p →
  (∀ data pk, is_ok (trace_get_erf_timestamp (tr_time (fm_table m data)) pk) = true) →
  ∃ w', finish_read w t p = Ok w' ∧ winv w' ∧ w_traces w' = w_traces w ∧ ordered w' m p ∧
    (∀ q, q ≠ p → w_packets w' !! q = w_packets w !! q).
Proof.
  intros W Et Em Ep Hnl Hts. unfold finish_read. rewrite (load_Some _ _ _ Et). cbn [obind]. rewrite (load_Some _ _ _ Ep). cbn [obind].
  rewrite Em. set (o := if 0 <? tr_snaplen tr then _ else _).
  pose proof (Hts (tr_data tr) (o_pkt o)) as H.
  destruct (trace_get_erf_timestamp _ (o_pkt o)) as [order|] eqn:E; [|done]. cbn [obind].
  eexists. split; [done|]. split_and!.
  - apply winv_set_packet; [done| | |exact (inv_bucket _ _ W p pk Ep)].
    + intros t' tr' Et' El. by destruct (Hnl t' tr').
    + intros t' E'. exact (inv_trace _ _ W p pk t' Ep E').
  - done.
  - eexists _, (tr_data tr). split; [apply lookup_insert_eq|]. exact E.
  - intros q Hq. cbn [set_packet w_packets]. by rewrite lookup_insert_ne.
Qed.

Lemma finish_reads_ok m ps2 : ∀ w t tr ps1 ps3,
  winv w → w_traces w !! t = Some tr → tr_module tr = m → batch_ok w ps2 →
  (∀ data pk, is_ok (trace_get_erf_timestamp (tr_time (fm_table m data)) pk) = true) →
  ∃ w', finish_reads (length ps2) w t (ps1 ++ ps2 ++ ps3) (Zlen ps1) = Ok w' ∧ winv w' ∧ w_traces w' = w_traces w ∧
    Forall (ordered w' m) ps2 ∧ (∀ q, q ∉ ps2 → w_packets w' !! q = w_packets w !! q) ∧
    (∀ q, is_Some (w_packets w !! q) → is_Some (w_packets w' !! q)).
Proof.
  induction ps2 as [|p ps2 IH]; intros w t tr ps1 ps3 W Et Em [Hnd Hb] Hts.
  - exists w. by split_and!.
  - apply NoDup_cons in Hnd as [Hp Hnd]. apply Forall_cons in Hb as [[[pk Ep] Hnl] Hb].
    cbn [length finish_reads app].
    rewrite (aget_ok _ _ p); [|apply Zlen_nonneg|apply list_lookup_middle; unfold Zlen; by rewrite Nat2Z.id]. cbn [obind].
    destruct (finish_read_ok m w t p pk tr) as (w1 & -> & W1 & T1 & O1 & Q1); [done..|]. cbn [obind].
    specialize (IH w1 t tr (ps1 ++ [p]) ps3 W1). rewrite T1, Zlen_app, <- app_assoc in IH. cbn [app] in IH.
    change (Zlen [p]) with 1 in IH.
    assert (∀ q, is_Some (w_packets w !! q) → is_Some (w_packets w1 !! q)) as Hlive.
    { intros q Hq. destruct (decide (q = p)) as [->|Hne]; [|by rewrite Q1]. destruct O1 as (pk1 & _ & -> & _). by eexists. }
    destruct IH as (w2 & -> & W2 & T2 & O2 & Q2 & L2); [done|done| |done|].
    { split; [done|]. eapply Forall_impl; [exact Hb|]. intros q [Hq Hn]. split; [by apply Hlive|].
      unfold no_last. rewrite T1. exact Hn. }
    exists w2. split_and!; try done.
    + constructor; [|done]. destruct O1 as (pk1 & data & E1 & E2). exists pk1, data. by rewrite Q2.
    + intros q Hq. rewrite not_elem_of_cons in Hq. rewrite Q2 by apply Hq. apply Q1, Hq.
    + intros q Hq. by apply L2, Hlive.
Qed.

Lemma batch_ok_sub w ps ps' : batch_ok w ps → ps' ⊆+ ps → batch_ok w ps'.
Proof.
  intros [Hnd Hb] Hs. split.
  { apply submseteq_Permutation in Hs as [k Hk]. rewrite Hk in Hnd. by apply NoDup_app in Hnd as [? _]. }
  rewrite Forall_forall in Hb |- *.
  intros p Hp. apply Hb. by eapply elem_of_submseteq.
Qed.

Lemma batch_ok_perm w ps ps' : batch_ok w ps → ps' ≡ₚ ps → batch_ok w ps'.
Proof. intros Hb Hp. eapply batch_ok_sub; [done|]. by rewrite Hp. Qed.

(** The batch after filtering: [n] packets were rejected, the rest is in front. *)
Lemma filter_batch_ok m w t f tr ps ret :
  winv w → w_traces w !! t = Some tr → tr_module tr = m → tr_filter tr = Some f → batch_ok w ps → 0 ≤ ret ≤ Zlen ps →
  Forall (λ p, ∀ pk, w_packets w !! p = Some pk → filterable_obj m (tp_obj pk)) (take (Z.to_nat ret) ps) →
  (∀ fin data o, fm_fin_packet m = Some fin → left (fin data o).1 = left data) →
  ∃ w' ps' k tr', filter_packets pcap_compile bpf_filter fresh w t f ps ret = Ok (w', ps', k) ∧ winv w' ∧
    ps' ≡ₚ ps ∧ batch_ok w' ps' ∧ 0 ≤ k ≤ ret ∧ w_traces w' !! t = Some tr' ∧ same_reader tr tr'.
Proof.
  intros W Et Em Ef Hb Hret Hfi Hfin.
  assert (batch_ok w (take (Z.to_nat ret) ps)) as Hbt by (eapply batch_ok_sub; [done|apply sublist_submseteq, sublist_take]).
  destruct (judge_all_ok m _ w t f tr W Et Em Ef Hbt Hfi Hfin) as (w' & rs & tr' & Ej & W' & N' & Q' & L' & Et' & S' & Hl).
  pose proof (filter_packets_judge pcap_compile bpf_filter fresh w t f ps ret Hret) as H. cbv zeta in H. rewrite Ej in H.
  destruct H as (rest & Hrest & ->). pose proof (picked_split _ _ Hl) as Hsp.
  assert (picked true (take (Z.to_nat ret) ps) rs ++ rest ++ drop (Z.to_nat ret) ps ≡ₚ ps) as Hperm.
  { rewrite app_assoc, Hrest, Hsp. by rewrite take_drop. }
  eexists w', _, _, tr'. split_and!; try done.
  - apply (batch_ok_perm w' ps); [|done]. destruct Hb as [Hnd Hb]. split; [done|].
    eapply Forall_impl; [exact Hb|]. intros q [Hq Hn]. split; [by apply L'|by apply N'].
  - apply Zlen_nonneg.
  - apply Permutation_length in Hsp. rewrite length_app in Hsp. rewrite length_take in Hsp. unfold Zlen in *. lia.
Qed.

(** The loop takes packets from the format until one passes the filter. *)
Lemma pread_loop_ok m pread : pread_ok m pread → ∀ fuel w th t tr ps,
  winv w → batch_ok w ps → w_traces w !! t = Some tr → tr_module tr = m → (left (tr_data tr) < fuel)%nat →
  ∃ w' th' ps' ret tr', pread_loop pcap_compile bpf_filter fresh fuel pread w th t ps (Zlen ps) = Ok (w', th', ps', ret) ∧
    winv w' ∧ batch_ok w' ps' ∧ ps' ≡ₚ ps ∧ ret ≤ Zlen ps ∧ w_traces w' !! t = Some tr' ∧
    Forall (ordered w' m) (take (Z.to_nat ret) ps') ∧
    th_accepted_packets th' = th_accepted_packets th ∧ (left (tr_data tr') + Z.to_nat ret ≤ left (tr_data tr))%nat ∧
    u64 (th_filtered_packets th') =
      u64 (th_filtered_packets th + Z.of_nat (left (tr_data tr) - left (tr_data tr') - Z.to_nat ret)).
Proof.
  intros PO. induction fuel as [|fuel IH]; intros w th t tr ps W Hb Et Em Hf; [lia|]. cbn [pread_loop].
  destruct (po_read _ _ PO w t tr ps W Hb Et Em) as (w1 & ret & tr1 & -> & W1 & B1 & Hret & Et1 & M1 & F1 & Sn1 & Hleft & Hfi).
  cbn [obind]. destruct (Z.leb_spec ret 0) as [Hle|Hpos].
  { exists w1, th, ps, ret, tr1. replace (Z.to_nat ret) with O in * by lia. cbn [take]. split_and!; try done; [lia|].
    f_equal. lia. }
  rewrite (load_Some _ _ _ Et1). cbn [obind].
  assert (∃ w2 th2 ps2 k tr2,
    match tr_filter tr1 with
    | Some f => let! ' (w, packets, remaining) := filter_packets pcap_compile bpf_filter fresh w1 t f ps ret in
        Ok (w, count_filtered th (ret - remaining), packets, remaining)
    | None => Ok (w1, th, ps, ret)
    end = Ok (w2, th2, ps2, k) ∧ winv w2 ∧ ps2 ≡ₚ ps ∧ batch_ok w2 ps2 ∧ 0 ≤ k ≤ ret ∧ w_traces w2 !! t = Some tr2 ∧
    same_reader tr1 tr2 ∧ th_accepted_packets th2 = th_accepted_packets th ∧
    u64 (th_filtered_packets th2) = u64 (th_filtered_packets th + (ret - k)))
    as (w2 & th2 & ps2 & k & tr2 & -> & W2 & Hp2 & B2 & Hk & Et2 & (Sm & Sf & Ss & Sl) & Ha & Hc).
  { destruct (tr_filter tr1) as [f|] eqn:Ef.
    - destruct (filter_batch_ok m w1 t f tr1 ps ret) as (w2 & ps2 & k & tr2 & -> & W2 & Hp2 & B2 & Hk & Et2 & S2);
        [done..|lia|done|exact (po_fin _ _ PO)|].
      cbn [obind]. eexists w2, _, ps2, k, tr2. split; [done|]. destruct S2 as (? & ? & ? & ?). split_and!; try done; try lia. cbn. unfold u64. by rewrite Zmod_mod.
    - exists w1, th, ps, ret, tr1. split_and!; done || lia || (f_equal; lia). }
  cbn [obind].
  pose proof (Permutation_length Hp2) as Hlen.
  destruct (finish_reads_ok m (take (Z.to_nat k) ps2) w2 t tr2 [] (drop (Z.to_nat k) ps2)) as (w3 & E3 & W3 & T3 & O3 & Q3 & L3);
    [done|done|congruence|eapply batch_ok_sub; [done|apply sublist_submseteq, sublist_take]|exact (po_time _ _ PO)|].
  cbn [app] in E3. rewrite take_drop, length_take_le in E3 by (unfold Zlen in *; lia).
  change (Zlen (@nil loc)) with 0 in E3. rewrite E3. cbn [obind].
  assert (batch_ok w3 ps2) as B3.
  { destruct B2 as [Hnd B2]. split; [done|]. eapply Forall_impl; [exact B2|]. intros q [Hq Hn]. split; [by apply L3|].
    unfold no_last. by rewrite T3. }
  destruct (Z.eqb_spec k 0) as [->|Hk0].
  - replace (Zlen ps) with (Zlen ps2) by (unfold Zlen; lia).
    destruct (IH w3 th2 t tr2 ps2) as (w4 & th4 & ps4 & ret4 & tr4 & -> & W4 & B4 & Hp4 & Hr4 & Et4 & O4 & Ha4 & Hl4 & Hc4);
      [done|done|by rewrite T3|congruence|lia|].
    exists w4, th4, ps4, ret4, tr4. split_and!; try done; [by rewrite Hp4|congruence|lia|].
    rewrite Hc4. unfold u64 in *. rewrite <- Zplus_mod_idemp_l, Hc, Zplus_mod_idemp_l. f_equal. lia.
  - exists w3, th2, ps2, k, tr2. rewrite T3. split_and!; try done; [lia|lia|]. rewrite Hc. f_equal. lia.
Qed.

(** A batch read from a started trace through the format's own reader: the call returns,
    also if the filter rejects any number of batches; the slots hold the same
    packets as before in some order; the packets returned carry their ERF
    timestamps as order; and each packet that the format gave is either returned or
    counted as filtered by the thread. *)
Theorem pread_wrapper_accounts m pread w th t tr ps :
  pread_ok m pread → winv w → batch_ok w ps → ps ≠ [] → w_traces w !! t = Some tr → tr_module tr = m →
  tr_err tr = 0 → tr_started tr = true →
  ∃ w' th' ps' ret tr',
    trace_pread_packet_wrapper pcap_compile bpf_filter fresh (Some pread) (S (left (tr_data tr))) w th t ps (Zlen ps)
      = Ok (w', th', ps', ret) ∧
    winv w' ∧ batch_ok w' ps' ∧ ps' ≡ₚ ps ∧ ret ≤ Zlen ps ∧ w_traces w' !! t = Some tr' ∧
    Forall (ordered w' m) (take (Z.to_nat ret) ps') ∧
    th_accepted_packets th' = th_accepted_packets th ∧
    (left (tr_data tr') + Z.to_nat ret ≤ left (tr_data tr))%nat ∧
    u64 (th_filtered_packets th') =
      u64 (th_filtered_packets th + Z.of_nat (left (tr_data tr) - left (tr_data tr') - Z.to_nat ret)).
Proof.
  intros PO W Hb Hne Et Em He Hs. unfold trace_pread_packet_wrapper.
  rewrite (proj2 (Z.eqb_neq (Zlen ps) 0)) by (destruct ps; [done|]; rewrite Zlen_cons; pose proof (Zlen_nonneg ps); lia).
  cbn [negb oassert obind]. rewrite (load_Some _ _ _ Et). cbn [obind]. unfold trace_is_err. rewrite He, Hs. cbn [Z.eqb negb].
  apply (pread_loop_ok m); [done..|lia].
Qed.
End pread.

(** ** A parallel reader for the counting format of Trace *)
Definition give (t : loc) (w : world nat Z) (p : loc) : world nat Z :=
  match w_packets w !! p with
  | Some pk => set_packet w p (tp_set_obj (tp_set_trace pk (Some t)) (sample_obj [1; 2; 3]))
  | None => w
  end.

Definition counting_pread (w : world nat Z) (t : loc) (ps : list loc) (nb : Z) : outcome (world nat Z * Z) :=
  let! tr := load (w_traces w) t in
  let k := Nat.min (Z.to_nat nb) (tr_data tr) in
  Ok (fold_left (give t) (take k ps) (set_trace w t (tr_set_data tr (tr_data tr - k)%nat None)), Z.of_nat k).

Section counting.
Local Abbreviation cinv := (winv id).

Lemma give_all_ok t ps : ∀ w,
  cinv w → is_Some (w_traces w !! t) → batch_ok w ps →
  let w' := fold_left (give t) ps w in
  cinv w' ∧ w_traces w' = w_traces w ∧ (∀ q, q ∉ ps → w_packets w' !! q = w_packets w !! q) ∧
  Forall (λ p, ∃ pk, w_packets w' !! p = Some pk ∧ tp_obj pk = sample_obj [1; 2; 3]) ps.
Proof.
  induction ps as [|p ps IH]; intros w W Et [Hnd Hb]; [by split_and!|]. cbv zeta.
  apply NoDup_cons in Hnd as [Hp Hnd]. apply Forall_cons in Hb as [[[pk Ep] Hn] Hb]. cbn [fold_left].
  assert (give t w p = set_packet w p (tp_set_obj (tp_set_trace pk (Some t)) (sample_obj [1; 2; 3]))) as Eg
    by (unfold give; by rewrite Ep).
  assert (cinv (give t w p)) as W1.
  { rewrite Eg. apply winv_set_packet; [done| | |exact (inv_bucket _ _ W p pk Ep)].
    - intros t' tr' Et' El. by destruct (Hn t' tr').
    - by intros t' [= <-]. }
  assert (w_traces (give t w p) = w_traces w) as T1 by by rewrite Eg.
  assert (∀ q, q ≠ p → w_packets (give t w p) !! q = w_packets w !! q) as Q1.
  { intros q Hq. rewrite Eg. cbn [set_packet w_packets]. by rewrite lookup_insert_ne. }
  destruct (IH (give t w p)) as (W2 & T2 & Q2 & O2); [done|by rewrite T1| |].
  { split; [done|]. rewrite Forall_forall in Hb |- *. intros q Hq. destruct (Hb q Hq) as [Hl Hl'].
    split; [rewrite Q1; [done|by intros ->]|]. unfold no_last. by rewrite T1. }
  split_and!; [done|congruence| |].
  - intros q Hq. rewrite not_elem_of_cons in Hq. rewrite Q2 by apply Hq. apply Q1, Hq.
  - constructor; [|done]. rewrite Q2 by done. rewrite Eg. eexists. split; [apply lookup_insert_eq|done].
Qed.

Lemma counting_pread_ok : pread_ok sample_compile sample_bpf [] id counting_format counting_pread.
Proof.
  split; [|done|done]. intros w t tr ps W [Hnd Hb] Et Em. unfold counting_pread. rewrite (load_Some _ _ _ Et). cbn [obind].
  unfold Zlen. rewrite Nat2Z.id. set (k := Nat.min (length ps) (tr_data tr)).
  set (tr1 := tr_set_data tr (tr_data tr - k)%nat None). set (w1 := set_trace w t tr1).
  assert (cinv w1) as W1.
  { apply (winv_set_trace _ _ _ tr); [done..|]. intros q. exact (inv_last _ _ W t tr q Et). }
  assert (∀ q, no_last w q → no_last w1 q) as N1.
  { intros q Hq t' tr' Et'. unfold w1 in Et'. cbn [set_trace w_traces] in Et'. rewrite lookup_insert in Et'.
    case_decide; [injection Et' as <-; exact (Hq t tr Et)|by apply (Hq t')]. }
  assert (batch_ok w1 ps) as B1.
  { split; [done|]. eapply Forall_impl; [exact Hb|]. intros q [Hq Hn]. split; [done|by apply N1]. }
  destruct (give_all_ok t (take k ps) w1 W1) as (W2 & T2 & Q2 & O2).
  { unfold w1. cbn [set_trace w_traces]. rewrite lookup_insert_eq. by eexists. }
  { eapply batch_ok_sub; [done|apply sublist_submseteq, sublist_take]. }
  set (w2 := fold_left _ _ _) in *.
  exists w2, (Z.of_nat k), tr1. rewrite Nat2Z.id, T2. rewrite Forall_forall in O2.
  split; [done|]. split_and!; [done|..|apply lookup_insert_eq|done|done|done|cbn; unfold k; lia|].
  - split; [done|]. rewrite Forall_forall in Hb |- *. intros q Hq. destruct (Hb q Hq) as [Hl Hn]. split.
    + destruct (decide (q ∈ take k ps)) as [Hin|Hout]; [|by rewrite Q2].
      destruct (O2 q Hin) as (pk & -> & _). by eexists.
    + intros t' tr'. rewrite T2. by apply N1.
  - unfold k. lia.
  - rewrite Forall_forall. intros q Hq pk Epk. destruct (O2 q Hq) as (pk' & E' & Eo). rewrite Epk in E'.
    injection E' as <-. rewrite Eo. intros data fi. apply counting_filters.
Qed.
End counting.

(** Trace 1 of five packets with a filter that accepts nothing, and two empty packets. *)
Definition filtered_world : world nat Z :=
  let w := two_traces 5 in
  let w := trace_create_packet w 2%positive in
  let w := set_filter w 1%positive (trace_create_filter_from_bytecode 0) in
  set_trace w 1%positive (tr_set_options (started_trace 5) (Some 1%positive) 0).

Lemma filtered_world_inv : winv id filtered_world.
Proof.
  unfold filtered_world. apply winv_set_trace_gen; [|done|apply counting_ok| |done].
  - apply winv_set_filter; [|done]. apply winv_set_packet; [| |done|done].
    + eapply api_reachable_winv, two_traces_reachable.
    + intros t tr Et El. exfalso. cbn [two_traces set_trace trace_create_packet set_packet w_traces empty_world] in Et.
      rewrite !lookup_insert in Et. repeat case_decide; simplify_eq/=.
  - intros f [= <-]. by eexists.
Qed.

Lemma pread_wrapper_accounts_witness :
  ∃ w' th' ps' ret,
    trace_pread_packet_wrapper sample_compile sample_bpf [] (Some counting_pread) 6 filtered_world
      {| th_accepted_packets := 0; th_filtered_packets := 0 |} 1%positive [1%positive; 2%positive] 2 = Ok (w', th', ps', ret) ∧
    ret ≤ 2 ∧ ps' ≡ₚ [1%positive; 2%positive].
Proof.
  destruct (pread_wrapper_accounts sample_compile sample_bpf [] id counting_format counting_pread filtered_world
    {| th_accepted_packets := 0; th_filtered_packets := 0 |} 1%positive
    (tr_set_options (started_trace 5) (Some 1%positive) 0) [1%positive; 2%positive])
    as (w' & th' & ps' & ret & tr' & E & _ & _ & Hp & Hr & _).
  - apply counting_pread_ok.
  - apply filtered_world_inv.
  - split; [repeat constructor; set_solver|].
    assert (∀ p, no_last filtered_world p) as Hn.
    { intros p t tr Et El. cbn [filtered_world two_traces set_trace set_filter trace_create_packet set_packet w_traces empty_world] in Et.
      rewrite !lookup_insert in Et. repeat case_decide; simplify_eq/=. }
    repeat constructor; [by eexists|apply Hn|by eexists|apply Hn].
  - done.
  - done.
  - done.
  - done.
  - done.
  - exists w', th', ps', ret. split_and!; [exact E|exact Hr|exact Hp].
Defined.

(** All five packets are counted, and then the end of the trace is returned. *)
Example filtered_world_counts :
  (let! ' (_, th, _, ret) := trace_pread_packet_wrapper sample_compile sample_bpf [] (Some counting_pread) 6 filtered_world
     {| th_accepted_packets := 0; th_filtered_packets := 0 |} 1%positive [1%positive; 2%positive] 2 in
   Ok (th_filtered_packets th, ret)) = Ok (5, 0).
Proof. vm_compute. reflexivity. Qed.

(** Three packets of which a filter accepts the last two. *)
Definition mixed_world : world nat Z :=
  let w := set_filter filtered_world 1%positive (trace_create_filter_from_bytecode 9) in
  let pk bs := {| tp_obj := sample_obj bs; tp_trace := None; tp_order := 0; tp_hash := 0; tp_srcbucket := None; tp_internalid := 0 |} in
  set_packet (set_packet (set_packet w 1%positive (pk [1; 2; 3])) 2%positive (pk [9; 2; 3])) 3%positive (pk [9; 4; 4]).

Lemma filter_packets_partition_witness :
  ∃ w', filter_packets sample_compile sample_bpf [] mixed_world 1%positive 1%positive
    [1%positive; 2%positive; 3%positive; 4%positive] 3 = Ok (w', [2%positive; 3%positive; 1%positive; 4%positive], 2).
Proof.
  pose proof (filter_packets_partition sample_compile sample_bpf [] mixed_world 1%positive 1%positive
    [1%positive; 2%positive; 3%positive; 4%positive] 3 ltac:(unfold Zlen; cbn; lia)) as H.
  cbv zeta in H. destruct (judge_all _ _ _ _ _ _ _) as [[w' rs]|] eqn:E; [|vm_compute in E; done].
  assert (rs = [false; true; true]) as -> by (vm_compute in E; congruence).
  destruct H as (rest & Hrest & H). exists w'. rewrite H. apply Permutation_singleton_r in Hrest. by rewrite Hrest.
Defined.
