(* ===== verification/FirstServed.v ===== *)
(** * First come, first served, and playing back in trace time: lib/trace_parallel.c

    Without a parallel format and without a hasher the threads take turns: a thread
    locks the trace and reads a batch with [trace_read_packet].  A copy of the
    first packet of each thread is kept with the time at which it was seen; from
    the earliest of them the time is computed at which a packet is to be given to
    the user when a trace is played back in trace time.

    The clock and the results of [select] are arguments. *)

From Stdlib Require Import SpecFloat.
From S2P Require Import Prelude DNodes Packet Timestamps FormatHelper PcapFile Buckets Filter Trace ParConfig Parallel.
Local Open Scope Z_scope.
Local Open Scope outcome_scope.

(** ** The first packets *)
Record first_packets := {
  fp_count : Z;
  fp_first : Z;
  fp_packets : list (option packet_obj * timeval);
}.

(** As [trace_pstart] sets it up for [n] threads. *)
Definition first_packets_init (n : nat) : first_packets :=
  {| fp_count := 0; fp_first := 0; fp_packets := replicate n (None, {| tv_sec := 0; tv_usec := 0 |}) |}.

Section first.
Variable fresh : list Z.
(** The format and time functions of the trace. *)
Variable table : packet_trace.

Definition seconds (o : packet_obj) : double := trace_get_seconds (tr_time table) (o_pkt o).

(** The structure, [recorded_first], the packet (whose capture length is cached by the
    copy) and whether the message [MESSAGE_FIRST_PACKET] is sent to the other threads. *)
Definition store_first_packet (fp : first_packets) (recorded_first : bool) (perpkt_num : Z) (o : packet_obj) (now : timeval)
  : outcome (first_packets * bool * packet_obj * bool) :=
  if recorded_first then Ok (fp, true, o, false)
  else
    let! ' (o, dup) := trace_copy_packet fresh (tr_format table) o in
    let! packets := aset (fp_packets fp) perpkt_num (Some dup, now) in
    let count := u64 (fp_count fp + 1) in
    let! first :=
      if count =? 1 then Ok perpkt_num
      else
        let! ' (entry, _) := aget packets (fp_first fp) in
        match entry with
        | None => Fault NullDeref
        | Some p => Ok (if SFltb (seconds dup) (seconds p) then perpkt_num else fp_first fp)
        end in
    Ok ({| fp_count := count; fp_first := first; fp_packets := packets |}, true, o, true).

(** The thread that is asked about, if any: its type, whether it belongs to the
    trace, and its number.  The packet and the time are [None] if they are not
    written or written as null. *)
Definition trace_get_first_packet (fp : first_packets) (perpkt_thread_count : Z) (t : option (thread_types * bool * Z))
    (curr_tv : timeval) : outcome (Z * option packet_obj * option timeval) :=
  match t with
  | Some (type, same_trace, num) =>
      if negb (bool_decide (type = THREAD_PERPKT)) || negb same_trace then Ok (-1, None, None)
      else
        let! ' (packet, tv) := aget (fp_packets fp) num in
        Ok (0, packet, Some tv)
  | None =>
      if fp_count fp =? 0 then Ok (0, None, None)
      else
        let! ' (packet, tv) := aget (fp_packets fp) (fp_first fp) in
        let ret :=
          if fp_count fp =? perpkt_thread_count then 1
          else if (tv_sec tv <? tv_sec curr_tv) &&
                  ((tv_usec tv <? tv_usec curr_tv) || (1 <? tv_sec curr_tv - tv_sec tv)) then 1
          else 0 in
        Ok (ret, packet, Some tv)
  end.

(** The reset by [trace_prestart], with the threads' [recorded_first]. *)
Fixpoint reset_entries (es : list (option packet_obj * timeval)) (recorded : list bool) (count : Z)
  : outcome (list (option packet_obj * timeval) * list bool * Z) :=
  match es, recorded with
  | (e, tv) :: es', r :: recorded' =>
      let! _ := oassert (Bool.eqb r (bool_decide (e ≠ None))) in
      let '(e', tv', r', count') :=
        match e with
        | Some _ => (None, {| tv_sec := 0; tv_usec := 0 |}, false, u64 (count - 1))
        | None => (None, tv, r, count)
        end in
      let! ' (es', recorded', count') := reset_entries es' recorded' count' in
      Ok ((e', tv') :: es', r' :: recorded', count')
  | _, _ => Ok (es, recorded, count)
  end.

Definition reset_first_packets (fp : first_packets) (recorded : list bool) : outcome (first_packets * list bool) :=
  let! ' (es, recorded, count) := reset_entries (fp_packets fp) recorded (fp_count fp) in
  let! _ := oassert (count =? 0) in
  Ok ({| fp_count := count; fp_first := 0; fp_packets := es |}, recorded).

(** ** Trace time *)
Definition tv_to_usec (tv : timeval) : Z := u64 (u64 (u64 (tv_sec tv) * 1000000) + u64 (tv_usec tv)).
Definition usec_to_tv (usec : Z) : timeval := {| tv_sec := usec / 1000000; tv_usec := usec `mod` 1000000 |}.

(** The difference of the clocks, kept in the thread's [tracetime_offset_usec]
    ([offset]) once it is final: the new offset, and [next_release] so far. *)
Definition tracetime_offset (fp : first_packets) (perpkt_thread_count offset : Z) (stable_tv : timeval) : outcome (Z * Z) :=
  if offset =? 0 then
    let! ' (stable, first_pkt, sys_tv) := trace_get_first_packet fp perpkt_thread_count None stable_tv in
    match first_pkt, sys_tv with
    | Some first_pkt, Some sys_tv =>
        let! pkt_tv := trace_get_timeval (tr_time table) (o_pkt first_pkt) in
        let initial_offset := i64 (i64 (tv_to_usec sys_tv) - i64 (tv_to_usec pkt_tv)) in
        Ok (if stable =? 0 then offset else if initial_offset =? 0 then 1 else initial_offset, u64 initial_offset)
    | _, _ => Fault AssertFailed
    end
  else Ok (offset, u64 offset).

(** [stable_tv] and [curr_tv] are the times that the two calls of [gettimeofday] give,
    [select_ret] what [select] returns.  The result: the offset, the time-out that
    [select] was called with, if it was, and the return value. *)
Definition delay_tracetime (fp : first_packets) (perpkt_thread_count offset : Z) (packet : packet_obj)
    (stable_tv curr_tv : timeval) (select_ret : Z) : outcome (Z * option timeval * Z) :=
  let! ' (offset, next_release) := tracetime_offset fp perpkt_thread_count offset stable_tv in
  let! pkt_tv := trace_get_timeval (tr_time table) (o_pkt packet) in
  let next_release := u64 (next_release + tv_to_usec pkt_tv) in
  let curr_usec := tv_to_usec curr_tv in
  if curr_usec <? next_release then
    let delay_tv := usec_to_tv (next_release - curr_usec) in
    if select_ret =? 0 then Ok (offset, Some delay_tv, 0)
    else if 0 <? select_ret then Ok (offset, Some delay_tv, READ_MESSAGE)
    else Fault AssertFailed
  else Ok (offset, None, 0).
End first.

(** ** Reading in turns *)
Section fifs.
Context {F prog : Type}.
Variable pcap_compile : Z → list Z → option prog.
Variable bpf_filter : prog → list Z → Z.
Variable fresh : list Z.
(** [libtrace_halt], when the packet of the given index is about to be read. *)
Variable libtrace_halt : Z → bool.

Implicit Types (w : world F prog) (t p : loc).

Definition with_lock w t (held : bool) : outcome (world F prog) :=
  let! tr := load (w_traces w) t in
  let! lock := if held then mutex_lock (tr_lock tr) else mutex_unlock (tr_lock tr) in
  Ok (set_trace w t (tr_set tr (tr_data tr) (tr_err tr) (tr_started tr) (tr_last_packet tr) lock)).

(** [error] holds the field of that name of each packet.  The flag says that the
    function returns from within the loop. *)
Fixpoint fifs_loop (n fuel : nat) w t (packets : list loc) (error : gmap loc Z) (i : Z)
  : outcome (world F prog * gmap loc Z * Z * bool) :=
  match n with
  | O => Ok (w, error, i, false)
  | S n' =>
      if libtrace_halt i then Ok (w, error, i, false)
      else
        let! p := aget packets i in
        let! ' (w, ret) := trace_read_packet pcap_compile bpf_filter fresh fuel w t p in
        let error := <[p := ret]> error in
        if ret <=? 0 then Ok (w, error, if i =? 0 then ret else i, i =? 0)
        else fifs_loop n' fuel w t packets error (i + 1)
  end.

(** The part of the state of a thread that is used, the time being given. *)
Definition trace_pread_packet_first_in_first_served (fuel : nat) w t (fp : first_packets) (recorded_first : bool)
    (perpkt_num : Z) (now : timeval) (packets : list loc) (nb_packets : Z) (error : gmap loc Z)
  : outcome (world F prog * gmap loc Z * first_packets * bool * Z) :=
  let! w := with_lock w t true in
  let! ' (w, error, i, early) := fifs_loop (Z.to_nat nb_packets) fuel w t packets error 0 in
  if early : bool then
    let! w := with_lock w t false in
    Ok (w, error, fp, recorded_first, i)
  else
    let! p := aget packets 0 in
    let! tr := load (w_traces w) t in
    let! pk := load (w_packets w) p in
    let! ' (w, fp, recorded_first) :=
      if 0 <? default 0 (error !! p) then
        let! ' (fp, recorded_first, o, _) :=
          store_first_packet fresh (fm_table (tr_module tr) (tr_data tr)) fp recorded_first perpkt_num (tp_obj pk) now in
        Ok (set_packet w p (tp_set_obj pk o), fp, recorded_first)
      else Ok (w, fp, recorded_first) in
    let! w := with_lock w t false in
    Ok (w, error, fp, recorded_first, i).
End fifs.

(** ** The earliest packet *)
Definition compare_finite (s1 s2 : bool) (m1 m2 : positive) (e1 e2 : Z) : comparison :=
  match s1, s2 with
  | true, false => Lt
  | false, true => Gt
  | false, false => match e1 ?= e2 with Eq => Pos.compare m1 m2 | c => c end
  | true, true => match e1 ?= e2 with Lt => Gt | Gt => Lt | Eq => CompOpp (Pos.compare m1 m2) end
  end.

Lemma compare_finite_trans s1 s2 s3 m1 m2 m3 e1 e2 e3 :
  compare_finite s1 s2 m1 m2 e1 e2 = Lt → compare_finite s2 s3 m2 m3 e2 e3 = Lt →
  compare_finite s1 s3 m1 m3 e1 e3 = Lt.
Proof.
  unfold compare_finite.
  destruct s1, s2, s3; try done;
    destruct (Z.compare_spec e1 e2), (Z.compare_spec e2 e3), (Z.compare_spec e1 e3); try (done || lia); subst;
    repeat match goal with |- context [Pos.compare ?a ?b] => destruct (Pos.compare_spec a b) end; done || lia.
Qed.

Definition is_lt (c : comparison) : bool := match c with Lt => true | _ => false end.

Lemma SFltb_finite s1 s2 m1 m2 e1 e2 :
  SFltb (S754_finite s1 m1 e1) (S754_finite s2 m2 e2) = is_lt (compare_finite s1 s2 m1 m2 e1 e2).
Proof. done. Qed.

Lemma SFltb_trans x y z : SFltb x y = true → SFltb y z = true → SFltb x z = true.
Proof.
  destruct x as [sx|sx| |sx mx ex], y as [sy|sy| |sy my ey], z as [sz|sz| |sz mz ez]; try done;
    rewrite ?SFltb_finite; try (repeat match goal with b : bool |- _ => destruct b end; done).
  pose proof (compare_finite_trans sx sy sz mx my mz ex ey ez) as H.
  destruct (compare_finite sx sy mx my ex ey), (compare_finite sy sz my mz ey ez); try done.
  by rewrite H.
Qed.

Lemma SFltb_irrefl x : SFltb x x = false.
Proof.
  destruct x as [s|s| |s m e]; [done|by destruct s|done|]. rewrite SFltb_finite. unfold compare_finite.
  by destruct s; rewrite Z.compare_refl, Pos.compare_refl.
Qed.

Section earliest.
Context (fresh : list Z) (table : packet_trace) (n : nat).
Implicit Types (fp : first_packets) (recorded : list bool).

(** Threads that store their first packets, and restarts of the trace. *)
Inductive first_reach : first_packets → list bool → Prop :=
| FR_init : first_reach (first_packets_init n) (replicate n false)
| FR_store fp recorded i r o now fp' r' o' msg :
    first_reach fp recorded → recorded !! i = Some r →
    store_first_packet fresh table fp r (Z.of_nat i) o now = Ok (fp', r', o', msg) →
    first_reach fp' (<[i := r']> recorded)
| FR_reset fp recorded fp' recorded' :
    first_reach fp recorded → reset_first_packets fp recorded = Ok (fp', recorded') → first_reach fp' recorded'.

Definition count_true recorded : Z := Zlen (filter (λ b, b = true) recorded).

(** [o] is the earliest of the packets that are stored. *)
Definition earliest fp (o : packet_obj) : Prop :=
  ∀ e tv, (Some e, tv) ∈ fp_packets fp → SFltb (seconds table e) (seconds table o) = false.

Record first_inv fp recorded : Prop := {
  fi_entries : Forall2 (λ e r, r = bool_decide (e.1 ≠ None)) (fp_packets fp) recorded;
  fi_length : length recorded = n;
  fi_count : fp_count fp = count_true recorded;
  fi_first : fp_count fp ≠ 0 → ∃ o tv, aget (fp_packets fp) (fp_first fp) = Ok (Some o, tv) ∧ earliest fp o;
}.

Lemma count_true_cons b recorded : count_true (b :: recorded) = (if b then 1 else 0) + count_true recorded.
Proof. unfold count_true. rewrite filter_cons. destruct b; simpl; [by rewrite Zlen_cons|done]. Qed.

Lemma count_true_nonneg recorded : 0 ≤ count_true recorded ≤ Zlen recorded.
Proof.
  induction recorded as [|b recorded IH]; [done|]. rewrite count_true_cons, Zlen_cons. destruct b; lia.
Qed.

Lemma count_true_set recorded i :
  recorded !! i = Some false → count_true (<[i := true]> recorded) = 1 + count_true recorded.
Proof.
  revert i. induction recorded as [|b recorded IH]; intros [|i] Hi; simplify_eq/=.
  - change (<[0%nat := true]> (false :: recorded)) with (true :: recorded). by rewrite !count_true_cons.
  - change (<[S i := true]> (b :: recorded)) with (b :: <[i := true]> recorded). rewrite !count_true_cons, IH by done. lia.
Qed.

Lemma reset_entries_ok es : ∀ recorded count,
  Forall2 (λ e r, r = bool_decide (e.1 ≠ None)) es recorded → count_true recorded ≤ count < 2 ^ 64 →
  ∃ es', reset_entries es recorded count = Ok (es', replicate (length recorded) false, count - count_true recorded) ∧
    Forall (λ e, e.1 = None) es' ∧ length es' = length es.
Proof.
  induction es as [|[e tv] es IH]; intros recorded count H Hc; inversion H as [|? r ? recorded' Hr Hrest]; subst.
  - exists []. split_and!; [|done|done]. cbn. change (count_true []) with 0. by rewrite Z.sub_0_r.
  - cbn [reset_entries fst] in *. rewrite Bool.eqb_reflx. cbn [oassert obind]. rewrite count_true_cons in *.
    pose proof (count_true_nonneg recorded').
    destruct e as [o|].
    + rewrite bool_decide_eq_true_2 in * by done. rewrite u64_small by lia.
      destruct (IH recorded' (count - 1)) as (es' & -> & Hn & Hl); [done|lia|]. cbn [obind].
      eexists. split; [cbn [length replicate]; do 2 f_equal; lia|]. split; [by constructor|cbn; by rewrite Hl].
    + rewrite bool_decide_eq_false_2 in * by naive_solver.
      destruct (IH recorded' count) as (es' & -> & Hn & Hl); [done|lia|]. cbn [obind].
      eexists. split; [cbn [length replicate]; do 2 f_equal; lia|]. split; [by constructor|cbn; by rewrite Hl].
Qed.
End earliest.

Section earliest_proofs.
Context (fresh : list Z) (table : packet_trace) (n : nat).
Hypothesis few : Z.of_nat n < 2 ^ 64 - 1.
Local Abbreviation inv := (first_inv table n).

Lemma first_init_inv : inv (first_packets_init n) (replicate n false).
Proof using Type.
  split; cbn [first_packets_init fp_packets fp_count].
  - apply Forall2_replicate. by rewrite bool_decide_eq_false_2 by naive_solver.
  - apply length_replicate.
  - clear. induction n as [|m IH]; [done|]. cbn [replicate]. by rewrite count_true_cons, <- IH.
  - done.
Qed.

Lemma first_reset_ok fp recorded : inv fp recorded →
  ∃ fp', reset_first_packets fp recorded = Ok (fp', replicate n false) ∧ inv fp' (replicate n false).
Proof using few.
  intros [He Hl Hc Hf]. pose proof (count_true_nonneg recorded) as Hb. unfold Zlen in Hb. rewrite Hl in Hb.
  unfold reset_first_packets.
  destruct (reset_entries_ok (fp_packets fp) recorded (fp_count fp) He) as (es' & -> & Hn & Hle); [rewrite Hc; lia|].
  cbn [obind]. rewrite Hc, Z.sub_diag. cbn [Z.eqb oassert obind]. rewrite Hl. eexists. split; [done|].
  assert (length es' = n) as Hes by (rewrite Hle, (Forall2_length _ _ _ He); done).
  destruct first_init_inv as [_ Hl0 Hc0 _]. split; cbn [fp_packets fp_count]; [|done|by rewrite <- Hc0|done].
  rewrite <- Hes. clear -Hn. induction Hn as [|e es' Hx _ IH]; [constructor|]. cbn [length replicate].
  constructor; [|done]. by rewrite Hx, bool_decide_eq_false_2 by naive_solver.
Qed.

(** Storing a packet changes one entry. *)
Lemma first_store_ok fp recorded i r o o1 dup now :
  inv fp recorded → recorded !! i = Some r → trace_copy_packet fresh (tr_format table) o = Ok (o1, dup) →
  ∃ fp', store_first_packet fresh table fp r (Z.of_nat i) o now = Ok (fp', true, if r then o else o1, negb r) ∧
    inv fp' (<[i := true]> recorded).
Proof using few.
  intros I Hr Hcopy. unfold store_first_packet. destruct r.
  { exists fp. split; [done|]. by rewrite list_insert_id. }
  destruct I as [He Hl Hc Hf]. pose proof (count_true_nonneg recorded) as Hb. unfold Zlen in Hb. rewrite Hl in Hb.
  rewrite Hcopy. cbn [obind].
  assert (length (fp_packets fp) = n) as Hlen by (rewrite (Forall2_length _ _ _ He); done).
  assert (i < n)%nat as Hi by (rewrite <- Hl; by eapply lookup_lt_Some).
  rewrite aset_ok by (unfold Zlen; lia). cbn [obind]. rewrite Nat2Z.id, u64_small by lia.
  set (es := <[i := (Some dup, now)]> (fp_packets fp)).
  assert (Forall2 (λ e r, r = bool_decide (e.1 ≠ None)) es (<[i := true]> recorded)) as He'.
  { apply Forall2_insert; [done|]. by rewrite bool_decide_eq_true_2. }
  assert (aget es (Z.of_nat i) = Ok (Some dup, now)) as Hget.
  { apply aget_ok; [lia|]. rewrite Nat2Z.id. apply list_lookup_insert_eq. lia. }
  assert (∀ e tv, (Some e, tv) ∈ es → e = dup ∨ (Some e, tv) ∈ fp_packets fp) as Hes.
  { intros e tv [j Hj]%list_elem_of_lookup. unfold es in Hj. apply list_lookup_insert_Some in Hj as [(_ & E & _)|[_ Hj]].
    - left. congruence.
    - right. by eapply list_elem_of_lookup_2. }
  rewrite Hc. destruct (Z.eqb_spec (count_true recorded + 1) 1) as [E0|E0].
  - cbn [obind]. eexists. split; [done|]. split; cbn [fp_packets fp_count fp_first].
    + done.
    + by rewrite length_insert.
    + rewrite count_true_set by done. lia.
    + intros _. exists dup, now. split; [done|]. intros e tv [->|Hin]%Hes; [apply SFltb_irrefl|].
      exfalso. assert (count_true recorded = 0) as Hz by lia. clear -He Hin Hz.
      induction He as [|[x tx] rr es recorded Hx _ IH]; [by apply not_elem_of_nil in Hin|].
      pose proof (count_true_nonneg recorded). rewrite count_true_cons in Hz. apply elem_of_cons in Hin as [[= <- <-]|Hin].
      * cbn [fst] in Hx. rewrite bool_decide_eq_true_2 in Hx by done. subst rr. lia.
      * apply IH; [done|]. destruct rr; lia.
  - assert (fp_count fp ≠ 0) as Hne by lia.
    destruct (Hf Hne) as (pf & tvf & Hgetf & Hearly).
    apply aget_ok_inv in Hgetf as [Hrange Hlook].
    assert (Z.to_nat (fp_first fp) ≠ i) as Hdiff.
    { intros <-. assert (false = bool_decide ((Some pf, tvf).1 ≠ None)) as Hx by (by eapply (Forall2_lookup_lr _ _ _ _ _ _ He)).
      by rewrite bool_decide_eq_true_2 in Hx. }
    assert (aget es (fp_first fp) = Ok (Some pf, tvf)) as Hgetf'.
    { apply aget_ok; [lia|]. unfold es. by rewrite list_lookup_insert_ne. }
    rewrite Hgetf'. cbn [obind]. eexists. split; [done|]. split; cbn [fp_packets fp_count fp_first].
    + done.
    + by rewrite length_insert.
    + rewrite count_true_set by done. lia.
    + intros _. destruct (SFltb (seconds table dup) (seconds table pf)) eqn:Elt.
      * exists dup, now. split; [done|]. intros e tv [->|Hin]%Hes; [apply SFltb_irrefl|].
        destruct (SFltb (seconds table e) (seconds table dup)) eqn:E; [|done].
        rewrite <- (Hearly e tv Hin). symmetry. by apply (SFltb_trans _ (seconds table dup)).
      * exists pf, tvf. split; [done|]. intros e tv [->|Hin]%Hes; [done|by apply (Hearly e tv)].
Qed.

Lemma first_reach_inv fp recorded : first_reach fresh table n fp recorded → inv fp recorded.
Proof using few.
  induction 1 as [|fp recorded i r o now fp' r' o' msg _ IH Hr Hs|fp recorded fp' recorded' _ IH Hs].
  - apply first_init_inv.
  - destruct r.
    + cbn in Hs. injection Hs as <- <- <- <-. by rewrite list_insert_id.
    + destruct (trace_copy_packet fresh (tr_format table) o) as [[o1 dup]|] eqn:E.
      * destruct (first_store_ok fp recorded i false o o1 dup now IH Hr E) as (fp2 & E2 & I2). congruence.
      * unfold store_first_packet in Hs. by rewrite E in Hs.
  - destruct (first_reset_ok fp recorded IH) as (fp2 & E2 & I2). congruence.
Qed.
End earliest_proofs.

(** Whatever the order in which the threads of a trace store their first packets, and
    however often the trace is restarted in between: the number of packets stored is
    kept; if there is one, the packet that [trace_get_first_packet] returns is the
    earliest of those stored, and is final as soon as every thread has one; storing a
    packet that can be copied succeeds; and the assertions of the reset hold. *)
Theorem first_packet_earliest fresh table (n : nat) fp recorded now :
  Z.of_nat n < 2 ^ 64 - 1 → first_reach fresh table n fp recorded →
  fp_count fp = count_true recorded ∧
  (count_true recorded ≠ 0 → ∃ ret o tv,
     trace_get_first_packet fp (Z.of_nat n) None now = Ok (ret, Some o, Some tv) ∧ earliest table fp o ∧
     (Some o, tv) ∈ fp_packets fp ∧ (count_true recorded = Z.of_nat n → ret = 1)) ∧
  (∀ i r o, recorded !! i = Some r → is_ok (trace_copy_packet fresh (tr_format table) o) = true →
     is_ok (store_first_packet fresh table fp r (Z.of_nat i) o now) = true) ∧
  is_ok (reset_first_packets fp recorded) = true.
Proof.
  intros Hn Hr. pose proof (first_reach_inv fresh table n Hn fp recorded Hr) as I. split_and!.
  - apply I.
  - intros Hne. pose proof (fi_count _ _ _ _ I) as Hc. destruct (fi_first _ _ _ _ I) as (o & tv & E & He); [by rewrite Hc|].
    unfold trace_get_first_packet. rewrite (proj2 (Z.eqb_neq _ 0)) by by rewrite Hc. rewrite E. cbn [obind].
    do 3 eexists. split; [done|]. split_and!; [done| |].
    + apply aget_ok_inv in E as [_ E]. by eapply list_elem_of_lookup_2.
    + intros Hall. by rewrite Hc, Hall, Z.eqb_refl.
  - intros i r o Hi Hcp. destruct (trace_copy_packet fresh (tr_format table) o) as [[o1 dup]|] eqn:E; [|done].
    by destruct (first_store_ok fresh table n Hn fp recorded i r o o1 dup now I Hi E) as (fp' & -> & _).
  - by destruct (first_reset_ok table n Hn fp recorded I) as (fp' & -> & _).
Qed.

(** ** Playing back in trace time *)

(** A time that [gettimeofday] can give, up to the year 10000 and more. *)
Definition tv_ok (tv : timeval) : Prop := 0 ≤ tv_sec tv < 2 ^ 40 ∧ 0 ≤ tv_usec tv < 1000000.
Definition usec (tv : timeval) : Z := tv_sec tv * 1000000 + tv_usec tv.

Lemma tv_to_usec_ok tv : tv_ok tv → tv_to_usec tv = usec tv ∧ 0 ≤ usec tv < 2 ^ 61.
Proof.
  intros [H1 H2]. unfold tv_to_usec, usec. rewrite (u64_small (tv_sec tv)), (u64_small (tv_usec tv)) by lia.
  rewrite (u64_small (_ * _)) by lia. rewrite u64_small by lia. lia.
Qed.

Lemma usec_to_tv_ok d : 0 ≤ d → usec (usec_to_tv d) = d.
Proof. intros H. unfold usec, usec_to_tv. cbn. pose proof (Z.div_mod d 1000000 ltac:(lia)). lia. Qed.

Lemma i64_small z : - 2 ^ 63 ≤ z < 2 ^ 63 → i64 z = z.
Proof. intros. unfold i64. rewrite Z.mod_small; lia. Qed.

(** The first packet is final: every thread has seen one, or a second has passed since
    the earliest so far was seen. *)
Definition first_final (fp : first_packets) (count : Z) (sys now : timeval) : bool :=
  (fp_count fp =? count) ||
  (tv_sec sys <? tv_sec now) && ((tv_usec sys <? tv_usec now) || (1 <? tv_sec now - tv_sec sys)).

(** The difference [d] of the clocks at the earliest packet is used, and kept if the
    packet is final; one that the thread has kept is used again. *)
Lemma tracetime_offset_ok table fp count offset first_pkt sys first_tv stable_tv :
  fp_count fp ≠ 0 → aget (fp_packets fp) (fp_first fp) = Ok (Some first_pkt, sys) →
  trace_get_timeval (tr_time table) (o_pkt first_pkt) = Ok first_tv → tv_ok sys → tv_ok first_tv →
  let d := usec sys - usec first_tv in
  tracetime_offset table fp count offset stable_tv =
    if offset =? 0 then Ok (if first_final fp count sys stable_tv then if d =? 0 then 1 else d else 0, u64 d)
    else Ok (offset, u64 offset).
Proof.
  intros Hc0 Hget Hf Osys Of d.
  destruct (tv_to_usec_ok sys Osys) as [Es Bs], (tv_to_usec_ok first_tv Of) as [Ef Bf].
  unfold tracetime_offset, trace_get_first_packet. destruct (Z.eqb_spec offset 0) as [->|E0]; [|done].
  rewrite (proj2 (Z.eqb_neq _ 0)) by congruence. rewrite Hget. cbn [obind]. rewrite Hf. cbn [obind].
  rewrite Es, Ef, (i64_small (usec sys)), (i64_small (usec first_tv)), i64_small by lia. fold d.
  unfold first_final. destruct (fp_count fp =? count); cbn [orb Z.eqb]; [done|].
  by destruct ((tv_sec sys <? tv_sec stable_tv) && _).
Qed.

(** C36: Playing back in trace time: a packet is given to the user at the time at which the
    earliest of the threads' first packets (so far) was seen plus the time that has
    passed in the trace since that packet, to the microsecond.  The thread keeps the
    difference between the two clocks, as one microsecond if it is 0, once every
    thread has seen a packet or a second has passed since the earliest was seen, and
    uses the one it has kept for all later packets, even if an earlier packet is
    seen after that.  The thread sleeps for exactly the missing time and not at all
    if it is late; it reports a message if one arrives meanwhile, and an assertion
    fails if [select] does. *)
Theorem tracetime_playback table fp count offset packet first_pkt sys first_tv pkt_tv stable_tv now select_ret :
  fp_count fp ≠ 0 → aget (fp_packets fp) (fp_first fp) = Ok (Some first_pkt, sys) →
  trace_get_timeval (tr_time table) (o_pkt first_pkt) = Ok first_tv →
  trace_get_timeval (tr_time table) (o_pkt packet) = Ok pkt_tv →
  tv_ok sys → tv_ok first_tv → tv_ok pkt_tv → tv_ok now →
  let d := usec sys - usec first_tv in
  let kept := if offset =? 0 then if first_final fp count sys stable_tv then if d =? 0 then 1 else d else 0 else offset in
  let release := (if offset =? 0 then d else offset) + usec pkt_tv in
  0 ≤ release < 2 ^ 64 →
  let call := delay_tracetime table fp count offset packet stable_tv now select_ret in
  if release <=? usec now then call = Ok (kept, None, 0)
  else if select_ret <? 0 then call = Fault AssertFailed
  else ∃ tv, call = Ok (kept, Some tv, if select_ret =? 0 then 0 else READ_MESSAGE) ∧ usec now + usec tv = release.
Proof.
  intros Hc0 Hget Hf Hp Osys Of Op On d kept release Hr call.
  destruct (tv_to_usec_ok pkt_tv Op) as [Ep Bp], (tv_to_usec_ok now On) as [En Bn].
  assert (call = (let! ' (offset, next_release) := Ok (kept, u64 (if offset =? 0 then d else offset)) in
    let! pkt_tv := trace_get_timeval (tr_time table) (o_pkt packet) in
    let next_release := u64 (next_release + tv_to_usec pkt_tv) in
    if tv_to_usec now <? next_release then
      let delay_tv := usec_to_tv (next_release - tv_to_usec now) in
      if select_ret =? 0 then Ok (offset, Some delay_tv, 0)
      else if 0 <? select_ret then Ok (offset, Some delay_tv, READ_MESSAGE)
      else Fault AssertFailed
    else Ok (offset, None, 0))) as ->.
  { unfold call, delay_tracetime. rewrite (tracetime_offset_ok table fp count offset first_pkt sys first_tv) by done.
    unfold kept. fold d. by destruct (offset =? 0). }
  cbn [obind]. rewrite Hp. cbn [obind]. rewrite Ep, En, u64_add_l. fold release. rewrite u64_small by done.
  rewrite Z.ltb_antisym. destruct (Z.leb_spec release (usec now)) as [Hle|Hlt]; cbn [negb]; [done|].
  destruct (Z.ltb_spec select_ret 0) as [Hs|Hs].
  - rewrite (proj2 (Z.eqb_neq select_ret 0)), (proj2 (Z.ltb_ge 0 select_ret)) by lia. done.
  - exists (usec_to_tv (release - usec now)). split; [|rewrite usec_to_tv_ok; lia].
    destruct (Z.eqb_spec select_ret 0); [done|]. by rewrite (proj2 (Z.ltb_lt 0 select_ret)) by lia.
Qed.

(** A format in which the first byte of a packet is its time in seconds. *)
Definition byte_time_trace : packet_trace :=
  {| tr_format := tr_format (sample_trace TRACE_TYPE_ETH {| tv_sec := 0; tv_usec := 0 |} 3 60);
     tr_time := {| tf_get_erf_timestamp := None; tf_get_timespec := None;
                   tf_get_timeval := Some (λ p, {| tv_sec := default 0 (pk_mem p !! Z.to_nat (pk_payload p)); tv_usec := 0 |});
                   tf_get_seconds := None |} |}.

Definition block : list Z := replicate 8 0.

(** Three threads store packets of the times 7, 5 and 6. *)
Definition three_stored : outcome (first_packets * list bool) :=
  let at_ n := {| tv_sec := n; tv_usec := 0 |} in
  let! ' (fp, _, _, _) := store_first_packet block byte_time_trace (first_packets_init 3) false 1 (sample_obj [7; 2; 3]) (at_ 100) in
  let! ' (fp, _, _, _) := store_first_packet block byte_time_trace fp false 0 (sample_obj [5; 2; 3]) (at_ 101) in
  let! ' (fp, _, _, _) := store_first_packet block byte_time_trace fp false 2 (sample_obj [6; 2; 3]) (at_ 102) in
  Ok (fp, [true; true; true]).

Lemma store_first_recorded fresh table fp r i o now fp' r' o' msg :
  store_first_packet fresh table fp r i o now = Ok (fp', r', o', msg) → r' = true.
Proof.
  unfold store_first_packet. destruct r; [congruence|]. intros H. obind_inv H. destruct a as [o1 dup].
  obind_inv H. obind_inv H. congruence.
Qed.

Lemma three_stored_reach fp recorded : three_stored = Ok (fp, recorded) → first_reach block byte_time_trace 3 fp recorded.
Proof.
  unfold three_stored. intros H. obind_inv H. destruct a as [[[fp1 r1] o1] m1].
  obind_inv H. destruct a as [[[fp2 r2] o2] m2]. obind_inv H. destruct a as [[[fp3 r3] o3] m3]. injection H as <- <-.
  pose proof (FR_store block byte_time_trace 3 _ _ 1 false _ _ _ _ _ _ (FR_init _ _ _) eq_refl Hstep) as R1.
  rewrite (store_first_recorded _ _ _ _ _ _ _ _ _ _ _ Hstep) in R1.
  pose proof (FR_store block byte_time_trace 3 _ _ 0 false _ _ _ _ _ _ R1 eq_refl Hstep0) as R2.
  rewrite (store_first_recorded _ _ _ _ _ _ _ _ _ _ _ Hstep0) in R2.
  pose proof (FR_store block byte_time_trace 3 _ _ 2 false _ _ _ _ _ _ R2 eq_refl Hstep1) as R3.
  rewrite (store_first_recorded _ _ _ _ _ _ _ _ _ _ _ Hstep1) in R3.
  exact R3.
Qed.

Lemma first_packet_earliest_witness :
  match three_stored with
  | Ok (fp, recorded) => ∃ o tv, trace_get_first_packet fp 3 None {| tv_sec := 102; tv_usec := 0 |} = Ok (1, Some o, Some tv) ∧
      seconds byte_time_trace o = double_of_int 5 ∧ tv_sec tv = 101
  | Fault _ => False
  end.
Proof.
  destruct three_stored as [[fp recorded]|] eqn:E; [|vm_compute in E; done].
  destruct (first_packet_earliest block byte_time_trace 3 fp recorded {| tv_sec := 102; tv_usec := 0 |})
    as (_ & H & _); [done|by apply three_stored_reach|].
  assert (recorded = [true; true; true]) as -> by (vm_compute in E; congruence).
  destruct H as (ret & o & tv & E1 & _ & Hin & Hret); [done|].
  rewrite Hret in E1 by done. exists o, tv. split; [exact E1|].
  vm_compute in E. injection E as <-. vm_compute in E1. injection E1 as <- <-. done.
Defined.

Definition tt_first : first_packets :=
  {| fp_count := 1; fp_first := 0; fp_packets := [(Some (sample_obj [10; 0; 0]), {| tv_sec := 100; tv_usec := 500000 |})] |}.

(** A packet three seconds after the first one, 1.2 seconds after it was seen: the other
    thread has not seen a packet, but a second has passed. *)
Lemma tracetime_playback_witness :
  delay_tracetime byte_time_trace tt_first 2 0 (sample_obj [13; 0; 0]) {| tv_sec := 101; tv_usec := 700000 |}
    {| tv_sec := 101; tv_usec := 700000 |} 0 = Ok (90500000, Some {| tv_sec := 1; tv_usec := 800000 |}, 0).
Proof.
  destruct (tracetime_playback byte_time_trace tt_first 2 0 (sample_obj [13; 0; 0]) (sample_obj [10; 0; 0])
    {| tv_sec := 100; tv_usec := 500000 |} {| tv_sec := 10; tv_usec := 0 |} {| tv_sec := 13; tv_usec := 0 |}
    {| tv_sec := 101; tv_usec := 700000 |} {| tv_sec := 101; tv_usec := 700000 |} 0) as (tv & E & Hw);
    [done|done|done|done|unfold tv_ok; cbn; lia..|unfold usec; cbn; lia|].
  rewrite E. vm_compute in E |- *. by rewrite E.
Defined.

(** ** Reading in turns *)
Section turns.
Context {F prog : Type} (pcap_compile : Z → list Z → option prog) (bpf_filter : prog → list Z → Z) (fresh : list Z)
  (libtrace_halt : Z → bool).
Implicit Types (w : world F prog) (t p : loc) (tr : libtrace_t F).

Definition set_lock tr (held : bool) : libtrace_t F :=
  tr_set tr (tr_data tr) (tr_err tr) (tr_started tr) (tr_last_packet tr) (if held then MHeld else MFree).

Lemma with_lock_ok w t tr held :
  w_traces w !! t = Some tr → tr_lock tr = (if held : bool then MFree else MHeld) → with_lock w t held = Ok (set_trace w t (set_lock tr held)).
Proof.
  intros Et Hl. unfold with_lock. rewrite (load_Some _ _ _ Et). cbn [obind]. rewrite Hl. by destruct held.
Qed.

(** Finishing a packet of a trace whose lock is held waits for ever. *)
Lemma fin_packet_locked w t p tr pk :
  w_traces w !! t = Some tr → tr_lock tr = MHeld → w_packets w !! p = Some pk → tp_trace pk = Some t → tp_srcbucket pk = None →
  trace_fin_packet w p = Fault Blocked.
Proof.
  intros Et Hl Ep Tp Hb. unfold trace_fin_packet. rewrite (load_Some _ _ _ Ep). cbn [obind]. rewrite Tp.
  unfold format_fin_packet. rewrite (load_Some _ _ _ Et). cbn [obind].
  destruct (fm_fin_packet (tr_module tr)) as [fin|]; cbn [obind].
  - rewrite (load_Some _ _ _ Ep). cbn [obind]. destruct (fin (tr_data tr) (tp_obj pk)) as [data o]. cbn [obind].
    rewrite (load_Some _ _ (tp_set_obj pk o)) by apply lookup_insert_eq. cbn [obind].
    unfold release_bucket. cbn [tp_set_obj tp_srcbucket tp_trace]. rewrite Hb. cbn [obind]. rewrite Tp. unfold forget_packet.
    rewrite (load_Some _ _ (tr_set_data tr data None)) by apply lookup_insert_eq. cbn [obind tr_set_data tr_set tr_lock].
    by rewrite Hl.
  - rewrite (load_Some _ _ _ Ep). cbn [obind]. unfold release_bucket. rewrite Hb. cbn [obind]. rewrite Tp.
    unfold forget_packet. rewrite (load_Some _ _ _ Et). cbn [obind]. by rewrite Hl.
Qed.

(** A thread that reads in turn and whose first packet is rejected by the filter never
    returns: finishing the packet waits for the lock that the thread itself holds. *)
Theorem fifs_reject_blocks w t tr f fi p packets pk read rr fi' o' err fuel fp recorded num now nb error :
  w_traces w !! t = Some tr → tr_lock tr = MFree → tr_err tr = 0 → tr_started tr = true →
  fm_read_packet (tr_module tr) = Some read → tr_filter tr = Some f → w_filters w !! f = Some fi →
  w_packets w !! p = Some pk → tp_trace pk ≠ Some t → tp_srcbucket pk = None →
  read (tr_data tr) (w_buckets w) (tp_obj pk) = Ok rr → 0 < rr_ret rr → rr_bucket rr = None →
  trace_apply_filter pcap_compile bpf_filter fresh fi (fm_table (tr_module tr) (rr_data rr)) (rr_obj rr) = Ok (fi', o', 0, err) →
  0 < nb → libtrace_halt 0 = false →
  trace_pread_packet_first_in_first_served pcap_compile bpf_filter fresh libtrace_halt (S fuel) w t fp recorded num now
    (p :: packets) nb error = Fault Blocked.
Proof.
  intros Et Hl He Hs Hr Hf Hfi Ep Htp Hb Hread Hret Hrb Hap Hnb Hh.
  unfold trace_pread_packet_first_in_first_served. rewrite (with_lock_ok w t tr true) by (done || by rewrite Hl).
  cbn [obind]. destruct (Z.to_nat nb) as [|n] eqn:En; [lia|]. cbn [fifs_loop]. rewrite Hh.
  set (w1 := set_trace w t (set_lock tr true)).
  assert (w_traces w1 !! t = Some (set_lock tr true)) as Et1 by apply lookup_insert_eq.
  assert (aget (p :: packets) 0 = Ok p) as -> by (apply aget_ok; done).
  cbn [obind]. unfold trace_read_packet. rewrite (load_Some _ _ _ Et1). cbn [obind]. unfold trace_is_err.
  cbn [set_lock tr_set tr_err tr_started tr_module]. rewrite He, Hs, Hr. cbn [Z.eqb negb]. rewrite (load_Some (w_packets w1) p pk Ep). cbn [obind].
  rewrite (bool_decide_eq_false_2 _ Htp). cbn [obind read_loop]. unfold read_round.
  rewrite (load_Some (w_packets w1) p pk Ep). cbn [obind]. rewrite (load_Some _ _ _ Et1). cbn [obind set_lock tr_set tr_data tr_module].
  change (w_buckets w1) with (w_buckets w). rewrite Hread. cbn [obind]. rewrite Hrb. cbn [tp_set_bucket].
  rewrite !(proj2 (Z.eqb_neq (rr_ret rr) _)) by lia. cbn [orb tr_set_data tr_set tr_filter tr_module tr_data set_lock].
  rewrite Hf. cbn [set_packet set_trace set_buckets w_filters w1]. rewrite (load_Some _ _ _ Hfi). cbn [obind tp_set_obj tp_obj].
  rewrite Hap. cbn [obind]. unfold load at 1. cbn [set_packet set_trace w_traces]. rewrite lookup_insert_eq. cbn [obind].
  match goal with |- context [trace_fin_packet ?w2 p] => assert (trace_fin_packet w2 p = Fault Blocked) as -> end; [|done].
  eapply fin_packet_locked; [apply lookup_insert_eq|done|apply lookup_insert_eq|done|exact Hb].
Qed.
(** A format that has [left data] packets to give and then reports the end. *)
Definition file_reader (left : F → nat) (read : F → gmap loc libtrace_bucket_t → packet_obj → outcome (read_result F)) : Prop :=
  ∀ data bs o, ∃ rr, read data bs o = Ok rr ∧ rr_bucket rr = None ∧ rr_err rr = None ∧
    if (left data =? 0)%nat then rr_ret rr = 0 ∧ left (rr_data rr) = O else 0 < rr_ret rr ∧ left data = S (left (rr_data rr)).

(** The trace after [k] packets have been read: as before, but for the counters. *)
Definition after_reads (left : F → nat) tr tr' (k : nat) : Prop :=
  tr_module tr' = tr_module tr ∧ tr_lock tr' = tr_lock tr ∧ tr_err tr' = tr_err tr ∧ tr_started tr' = tr_started tr ∧
  tr_filter tr' = tr_filter tr ∧ tr_snaplen tr' = tr_snaplen tr ∧
  u64 (tr_sequence_number tr') = u64 (tr_sequence_number tr + Z.of_nat k) ∧
  u64 (tr_accepted_packets tr') = u64 (tr_accepted_packets tr + Z.of_nat k) ∧
  left (tr_data tr) = (left (tr_data tr') + k)%nat.

Lemma after_reads_trans left tr1 tr2 tr3 j k :
  after_reads left tr1 tr2 j → after_reads left tr2 tr3 k → after_reads left tr1 tr3 (j + k).
Proof.
  intros (? & ? & ? & ? & ? & ? & S1 & A1 & L1) (? & ? & ? & ? & ? & ? & S2 & A2 & L2).
  split_and!; try congruence; [| |rewrite L1, L2; apply eq_sym; rewrite <- Nat.add_assoc; f_equal; apply Nat.add_comm].
  - rewrite S2. unfold u64 in *. rewrite <- Zplus_mod_idemp_l, S1, Zplus_mod_idemp_l. f_equal. rewrite Nat2Z.inj_add. ring.
  - rewrite A2. unfold u64 in *. rewrite <- Zplus_mod_idemp_l, A1, Zplus_mod_idemp_l. f_equal. rewrite Nat2Z.inj_add. ring.
Qed.

(** One packet is read, with the lock held or not. *)
Lemma read_one left read w t p tr pk fuel :
  file_reader left read → w_traces w !! t = Some tr → tr_err tr = 0 → tr_started tr = true →
  fm_read_packet (tr_module tr) = Some read → tr_filter tr = None → w_packets w !! p = Some pk → tp_trace pk ≠ Some t →
  ∃ w' ret tr' pk', trace_read_packet pcap_compile bpf_filter fresh (S fuel) w t p = Ok (w', ret) ∧
    w_traces w' !! t = Some tr' ∧ w_packets w' !! p = Some pk' ∧ (∀ q, q ≠ p → w_packets w' !! q = w_packets w !! q) ∧
    if (left (tr_data tr) =? 0)%nat then ret = 0 ∧ after_reads left tr tr' 0
    else 0 < ret ∧ after_reads left tr tr' 1 ∧ tp_order pk' = tr_sequence_number tr.
Proof.
  intros Hfr Et He Hs Hr Hf Ep Htp. unfold trace_read_packet. rewrite (load_Some _ _ _ Et). cbn [obind].
  unfold trace_is_err. rewrite He, Hs, Hr. cbn [Z.eqb negb]. rewrite (load_Some _ _ _ Ep). cbn [obind].
  rewrite (bool_decide_eq_false_2 _ Htp). cbn [obind read_loop]. unfold read_round.
  rewrite (load_Some _ _ _ Ep). cbn [obind]. rewrite (load_Some _ _ _ Et). cbn [obind].
  destruct (Hfr (tr_data tr) (w_buckets w) (tp_obj pk)) as (rr & -> & Hb & Her & Hcase). cbn [obind]. rewrite Hb, Her.
  cbn [tp_set_bucket tr_set_data tr_set tr_filter]. rewrite Hf.
  destruct (left (tr_data tr) =? 0)%nat eqn:El.
  - apply Nat.eqb_eq in El. destruct Hcase as [Hret Hl]. rewrite Hret. cbn [Z.eqb orb obind]. do 4 eexists. split; [done|].
    split; [apply lookup_insert_eq|]. split; [apply lookup_insert_eq|]. split; [|split; [done|]].
    + intros q Hq. cbn [set_packet set_trace set_buckets w_packets]. by rewrite lookup_insert_ne.
    + split_and!; try done; cbn; [by rewrite Z.add_0_r..|by rewrite El, Hl].
  - destruct Hcase as [Hret Hl]. rewrite !(proj2 (Z.eqb_neq (rr_ret rr) _)) by (intros ?; subst; lia). cbn [orb obind].
    rewrite (load_Some (w_traces (set_packet _ _ _)) t (tr_set_data tr (rr_data rr) None)) by apply lookup_insert_eq. cbn [obind].
    unfold load at 1. cbn [set_packet w_packets]. rewrite lookup_insert_eq. cbn [obind]. do 4 eexists. split; [done|].
    split; [apply lookup_insert_eq|]. split; [apply lookup_insert_eq|]. split; [|split; [done|split]].
    + intros q Hq. cbn [set_packet set_trace set_buckets w_packets]. by rewrite !lookup_insert_ne.
    + split_and!; try done; cbn; [by unfold u64; rewrite Zmod_mod..|]. rewrite Hl. symmetry. apply Nat.add_1_r.
    + done.
Qed.

Definition readable w t (ps : list loc) : Prop :=
  NoDup ps ∧ Forall (λ p, ∃ pk, w_packets w !! p = Some pk ∧ tp_trace pk ≠ Some t) ps.
Lemma fifs_loop_ok left read t fuel ps2 : file_reader left read → (∀ i, libtrace_halt i = false) → ∀ w tr ps1 error,
  readable w t ps2 → w_traces w !! t = Some tr → tr_err tr = 0 → tr_started tr = true →
  fm_read_packet (tr_module tr) = Some read → tr_filter tr = None →
  let k := Nat.min (length ps2) (left (tr_data tr)) in
  ∃ w' error' tr',
    fifs_loop pcap_compile bpf_filter fresh libtrace_halt (length ps2) (S fuel) w t (ps1 ++ ps2) error (Zlen ps1) =
      Ok (w', error', Zlen ps1 + Z.of_nat k, bool_decide (ps1 = [] ∧ k = O ∧ ps2 ≠ [])) ∧
    w_traces w' !! t = Some tr' ∧ after_reads left tr tr' k ∧
    (∀ j p, take k ps2 !! j = Some p → ∃ pk, w_packets w' !! p = Some pk ∧
       u64 (tp_order pk) = u64 (tr_sequence_number tr + Z.of_nat j) ∧ 0 < default 0 (error' !! p)) ∧
    (∀ q, q ∉ ps2 → w_packets w' !! q = w_packets w !! q ∧ error' !! q = error !! q) ∧
    (∀ p, p ∈ ps2 → is_Some (w_packets w' !! p)).
Proof.
  intros Hfr Hh. induction ps2 as [|p ps2 IH]; intros w tr ps1 error [Hnd Hb] Et He Hs Hr Hf k.
  - exists w, error, tr. cbn [fifs_loop length]. subst k. cbn [length Nat.min]. rewrite Z.add_0_r.
    rewrite bool_decide_eq_false_2 by naive_solver.
    split; [done|]. split; [done|]. split; [split_and!; try done; rewrite ?Z.add_0_r; done || apply eq_sym, Nat.add_0_r|].
    split; [|split]; [done|done|]. intros p Hp. by apply not_elem_of_nil in Hp.
  - apply NoDup_cons in Hnd as [Hp Hnd]. apply Forall_cons in Hb as [(pk & Ep & Tp) Hb].
    cbn [fifs_loop length]. rewrite Hh.
    rewrite (aget_ok (ps1 ++ p :: ps2) _ p); [|apply Zlen_nonneg|apply list_lookup_middle; apply Nat2Z.id]. cbn [obind].
    destruct (read_one left read w t p tr pk fuel) as (w1 & ret & tr1 & pk1 & -> & Et1 & Ep1 & Q1 & Hcase); [done..|].
    cbn [obind]. destruct (left (tr_data tr)) as [|l] eqn:El; cbn [Nat.eqb] in Hcase.
    + destruct Hcase as [-> Ha]. subst k. rewrite Nat.min_0_r. rewrite (proj2 (Z.leb_le 0 0)) by done.
      exists w1, (<[p := 0]> error), tr1. rewrite Z.add_0_r. split.
      { destruct ps1 as [|x ps1]; [done|]. rewrite bool_decide_eq_false_2 by naive_solver.
        rewrite (proj2 (Z.eqb_neq _ 0)); [done|]. rewrite Zlen_cons. pose proof (Zlen_nonneg ps1). lia. }
      split; [done|]. split; [done|]. split; [done|]. split.
      * intros q Hq. rewrite not_elem_of_cons in Hq. rewrite Q1, lookup_insert_ne by naive_solver. done.
      * intros q Hq. apply elem_of_cons in Hq as [->|Hq]; [by exists pk1|]. rewrite Q1 by (intros ->; done).
        rewrite Forall_forall in Hb. destruct (Hb q Hq) as (pkq & -> & _). by eexists.
    + destruct Hcase as (Hret & Ha & Ho). rewrite (proj2 (Z.leb_gt ret 0)) by done.
      destruct Ha as (Ha1 & Ha2 & Ha3 & Ha4 & Ha5 & Ha6 & Ha7 & Ha8 & Ha9).
      rewrite El in Ha9. assert (left (tr_data tr1) = l) as El1 by (rewrite Nat.add_1_r in Ha9; congruence).
      specialize (IH w1 tr1 (ps1 ++ [p]) (<[p := ret]> error)).
      rewrite Zlen_app, <- app_assoc in IH. change (Zlen [p]) with 1 in IH. cbn [app] in IH.
      destruct IH as (w2 & error2 & tr2 & -> & Et2 & A2 & O2 & Q2 & L2); [|done|congruence|congruence|congruence|congruence|].
      { split; [done|]. rewrite Forall_forall in Hb |- *. intros q Hq. rewrite Q1 by (intros ->; done). by apply Hb. }
      rewrite El1 in *. subst k. cbn [length Nat.min].
      exists w2, error2, tr2. split.
      { f_equal. f_equal; [f_equal; lia|].
        rewrite !bool_decide_eq_false_2; [done|naive_solver|]. intros (E & _). by destruct ps1. }
      split; [done|]. split; [|split; [|split]].
      * apply (after_reads_trans left tr tr1 tr2 1); [|done]. split_and!; try done. rewrite El, El1. lia.
      * intros [|j] q Hq; cbn [take] in Hq; simplify_eq/=.
        -- destruct (Q2 q Hp) as [E1 E2]. exists pk1. rewrite E1, E2, lookup_insert_eq, Ho. by rewrite Z.add_0_r.
        -- destruct (O2 j q Hq) as (pkq & E1 & E2 & E3). exists pkq. split_and!; [done| |done].
           rewrite E2, <- u64_add_l, Ha7, u64_add_l. f_equal. lia.
      * intros q Hq. rewrite not_elem_of_cons in Hq. destruct (Q2 q) as [-> ->]; [apply Hq|].
        rewrite Q1, lookup_insert_ne by naive_solver. done.
      * intros q Hq. apply elem_of_cons in Hq as [->|Hq]; [|by apply L2]. destruct (Q2 p Hp) as [-> _]. by exists pk1.
Qed.

(** Reading in turn from a file without a filter, by a thread that has stored its first
    packet: the call returns, with the lock free again; as many packets are read as fit
    and are left, 0 meaning the end of the trace; they are marked as read and
    numbered in sequence from where the trace was, whichever thread read before. *)
Theorem fifs_reads_in_sequence left read w t tr ps fp num now error fuel :
  file_reader left read → (∀ i, libtrace_halt i = false) → readable w t ps → ps ≠ [] →
  w_traces w !! t = Some tr → tr_lock tr = MFree → tr_err tr = 0 → tr_started tr = true →
  fm_read_packet (tr_module tr) = Some read → tr_filter tr = None →
  let k := Nat.min (length ps) (left (tr_data tr)) in
  ∃ w' error' tr',
    trace_pread_packet_first_in_first_served pcap_compile bpf_filter fresh libtrace_halt (S fuel) w t fp true num now ps
      (Zlen ps) error = Ok (w', error', fp, true, Z.of_nat k) ∧
    w_traces w' !! t = Some tr' ∧ after_reads left tr tr' k ∧
    (∀ j p, take k ps !! j = Some p → ∃ pk, w_packets w' !! p = Some pk ∧
       u64 (tp_order pk) = u64 (tr_sequence_number tr + Z.of_nat j) ∧ 0 < default 0 (error' !! p)).
Proof.
  intros Hfr Hh Hb Hne Et Hl He Hs Hr Hf k. unfold trace_pread_packet_first_in_first_served.
  rewrite (with_lock_ok w t tr true) by (done || by rewrite Hl). cbn [obind]. unfold Zlen. rewrite Nat2Z.id.
  set (w1 := set_trace w t (set_lock tr true)).
  destruct (fifs_loop_ok left read t fuel ps Hfr Hh w1 (set_lock tr true) [] error) as (w2 & error2 & tr2 & E2 & Et2 & A2 & O2 & _ & L2);
    [done|apply lookup_insert_eq|done..|].
  cbn [app] in E2. change (Zlen (@nil loc)) with 0 in E2. rewrite E2. cbn [obind]. rewrite Z.add_0_l.
  change (left (tr_data (set_lock tr true))) with (left (tr_data tr)) in *. fold k in E2, A2, O2 |- *.
  assert (∀ w3, w_traces w3 !! t = Some tr2 → ∃ tr3, with_lock w3 t false = Ok (set_trace w3 t tr3) ∧ after_reads left tr tr3 k) as Hun.
  { intros w3 E3. exists (set_lock tr2 false). destruct A2 as (A21 & A22 & A2). split; [by apply with_lock_ok|].
    split_and!; try apply A2; try done. }
  case_bool_decide as Hearly.
  - destruct (Hun w2 Et2) as (tr3 & -> & A3). cbn [obind]. exists (set_trace w2 t tr3), error2, tr3. split; [done|].
    split; [apply lookup_insert_eq|]. done.
  - destruct ps as [|p ps]; [done|]. assert (aget (p :: ps) 0 = Ok p) as -> by by apply aget_ok. cbn [obind].
    rewrite (load_Some _ _ _ Et2). cbn [obind]. destruct (L2 p) as [pk Epk]; [by apply elem_of_cons; left|].
    rewrite (load_Some _ _ _ Epk). cbn [obind]. cbn [store_first_packet].
    assert (set_packet w2 p (tp_set_obj pk (tp_obj pk)) = w2) as Eid.
    { destruct w2 as [ts ps2 fs bs par]. unfold set_packet. cbn in *. f_equal. rewrite insert_id; [done|]. by destruct pk. }
    destruct (Hun w2 Et2) as (tr3 & Eun & A3). exists (set_trace w2 t tr3), error2, tr3. split.
    { destruct (0 <? default 0 (error2 !! p)); cbn [obind]; [rewrite Eid|]; by rewrite Eun. }
    split; [apply lookup_insert_eq|]. done.
Qed.
End turns.

Definition alone : world nat Z :=
  set_filter (set_trace (two_traces 5) 1%positive (tr_set_options (started_trace 5) (Some 1%positive) 0))
    1%positive (trace_create_filter_from_bytecode 0).

Lemma fifs_reject_blocks_witness :
  trace_pread_packet_first_in_first_served sample_compile sample_bpf [] (λ _, false) 10 alone 1%positive
    (first_packets_init 2) false 0 {| tv_sec := 0; tv_usec := 0 |} [1%positive] 1 ∅ = Fault Blocked.
Proof.
  set (fi := trace_create_filter_from_bytecode 0).
  destruct (trace_apply_filter sample_compile sample_bpf [] fi (fm_table counting_format 4%nat) (sample_obj [1; 2; 3]))
    as [[[[fi' o'] ret] err]|] eqn:E; [|vm_compute in E; done].
  assert (ret = 0) as -> by (vm_compute in E; congruence).
  apply (fifs_reject_blocks sample_compile sample_bpf [] (λ _, false) alone 1%positive
    (tr_set_options (started_trace 5) (Some 1%positive) 0) 1%positive fi 1%positive []
    (Build_packet new_packet None 0 0 None 0) counting_read
    {| rr_data := 4%nat; rr_buckets := ∅; rr_obj := sample_obj [1; 2; 3]; rr_bucket := None; rr_err := None; rr_ret := 3 |}
    fi' o' err 9 (first_packets_init 2) false 0 {| tv_sec := 0; tv_usec := 0 |} 1 ∅); done || exact E.
Defined.

Lemma counting_file_reader : file_reader id counting_read.
Proof. intros [|n] bs o; eexists; (split; [reflexivity|]); done. Qed.

(** A batch of three from a trace with two packets left. *)
Lemma fifs_reads_in_sequence_witness :
  let w := trace_create_packet (trace_create_packet (two_traces 2) 2%positive) 3%positive in
  ∃ w' error', trace_pread_packet_first_in_first_served sample_compile sample_bpf [] (λ _, false) 1 w 1%positive
    (first_packets_init 2) true 0 {| tv_sec := 0; tv_usec := 0 |} [1%positive; 2%positive; 3%positive] 3 ∅
    = Ok (w', error', first_packets_init 2, true, 2).
Proof.
  intros w. destruct (fifs_reads_in_sequence sample_compile sample_bpf [] (λ _, false) id counting_read w 1%positive
    (started_trace 2) [1%positive; 2%positive; 3%positive] (first_packets_init 2) 0 {| tv_sec := 0; tv_usec := 0 |} ∅ 0)
    as (w' & error' & tr' & E & _).
  - apply counting_file_reader.
  - done.
  - split; [repeat constructor; set_solver|]. repeat constructor; (eexists; split; [reflexivity|done]).
  - done.
  - done.
  - done.
  - done.
  - done.
  - done.
  - done.
  - exists w', error'. exact E.
Defined.
