(* ===== verification/ParThreads.v ===== *)
(** * The threads of a parallel trace: lib/trace_parallel.c

    Messages and callbacks, the states of the trace and of its threads, and the
    rounds of the main loops of the hasher and of the per-packet threads.

    A packet is the part of [libtrace_packet_t] that the threads use.  Reading from
    the trace takes the next packet of the input, as Trace shows for
    [trace_read_packet].  The queues of messages and of packets are lists, which
    is what MessageQueue and RingBuffer refine; the pool of packets is a list of free
    ones that grows when it is empty, as an ObjectCache without limit.  A call of a
    user's function is an entry of a log; the function that gets packets keeps
    some of them and returns the others. *)

From S2P Require Import Prelude DNodes Trace ParConfig Parallel.
Local Open Scope Z_scope.
Local Open Scope outcome_scope.

Inductive thread_states := THREAD_RUNNING | THREAD_FINISHING | THREAD_FINISHED | THREAD_PAUSED.
#[export] Instance thread_states_eq_dec : EqDecision thread_states.
Proof. solve_decision. Defined.

Abbreviation MESSAGE_PACKET := 0.
Abbreviation MESSAGE_RESULT := 1.
Abbreviation MESSAGE_STARTING := 2.
Abbreviation MESSAGE_STOPPING := 3.
Abbreviation MESSAGE_RESUMING := 4.
Abbreviation MESSAGE_PAUSING := 5.
Abbreviation MESSAGE_DO_PAUSE := 6.
Abbreviation MESSAGE_DO_STOP := 7.
Abbreviation MESSAGE_FIRST_PACKET := 8.
Abbreviation MESSAGE_POST_REPORTER := 9.
Abbreviation MESSAGE_TICK_INTERVAL := 10.
Abbreviation MESSAGE_TICK_COUNT := 11.
Abbreviation MESSAGE_USER := 1000.

(** A pointer to a thread, or the thread that is running. *)
Inductive thread_ref := TPerpkt (i : nat) | THasher | TReporter | TKeepalive | TMain.
#[export] Instance thread_ref_eq_dec : EqDecision thread_ref.
Proof. solve_decision. Defined.

Record libtrace_message_t := { m_code : Z; m_data : Z; m_sender : option thread_ref }.

(** ** Callbacks: which of the functions are set *)
Record callback_set := {
  message_starting : bool;
  message_stopping : bool;
  message_resuming : bool;
  message_pausing : bool;
  message_packet : bool;
  message_result : bool;
  message_first_packet : bool;
  message_tick_count : bool;
  message_tick_interval : bool;
  message_user : bool;
}.

Definition trace_create_callback_set : callback_set :=
  {| message_starting := false; message_stopping := false; message_resuming := false; message_pausing := false;
     message_packet := false; message_result := false; message_first_packet := false; message_tick_count := false;
     message_tick_interval := false; message_user := false |}.

(** The function of a callback set that a message goes to.  [None]: there is none for
    this code. *)
Definition callback_for (cbs : callback_set) (type : Z) : option bool :=
  let switchtype := if MESSAGE_USER <=? type then MESSAGE_USER else type in
  if switchtype =? MESSAGE_STARTING then Some (message_starting cbs)
  else if switchtype =? MESSAGE_FIRST_PACKET then Some (message_first_packet cbs)
  else if switchtype =? MESSAGE_TICK_COUNT then Some (message_tick_count cbs)
  else if switchtype =? MESSAGE_TICK_INTERVAL then Some (message_tick_interval cbs)
  else if switchtype =? MESSAGE_STOPPING then Some (message_stopping cbs)
  else if switchtype =? MESSAGE_RESUMING then Some (message_resuming cbs)
  else if switchtype =? MESSAGE_PAUSING then Some (message_pausing cbs)
  else if switchtype =? MESSAGE_USER then Some (message_user cbs)
  else if switchtype =? MESSAGE_RESULT then Some (message_result cbs)
  else None.

Section threads.
(** The contents of a packet; [size] is what [trace_read_packet] returns for it. *)
Context {D : Type}.
Variable size : D → Z.

Record ppacket := { pp_error : Z; pp_order : Z; pp_hash : Z; pp_data : option D }.

Record thread := {
  t_type : thread_types;
  t_state : thread_states;
  t_accepted_packets : Z;
  t_recorded_first : bool;
  t_format_data : option loc;
  t_messages : list libtrace_message_t;
  t_rbuffer : list loc;
}.

(** Calls of user functions: for a message, and for a packet. *)
Inductive event :=
| Called (who : thread_ref) (code data : Z) (sender : option thread_ref)
| Packet (who : nat) (p : loc) (data : option D).

Record ptrace := {
  p_state : trace_state;
  p_started : bool;
  p_err : Z;
  p_lock : bool;
  p_states : list Z;
  p_threads : list thread;
  p_hasher : thread;
  p_reporter : thread;
  p_keepalive : thread;
  p_packets : gmap loc ppacket;
  p_free : list loc;
  p_next : loc;
  p_input : list D;
  p_seq : Z;
  p_delays : list Z;
  p_log : list event;
}.

(** ** Updates *)
Definition p_set_ctl (p : ptrace) (state : trace_state) (started : bool) (err : Z) (lock : bool) (states : list Z) : ptrace :=
  {| p_state := state; p_started := started; p_err := err; p_lock := lock; p_states := states;
     p_threads := p_threads p; p_hasher := p_hasher p; p_reporter := p_reporter p; p_keepalive := p_keepalive p;
     p_packets := p_packets p; p_free := p_free p; p_next := p_next p; p_input := p_input p; p_seq := p_seq p;
     p_delays := p_delays p; p_log := p_log p |}.
Definition p_set_threads (p : ptrace) (ts : list thread) (h r k : thread) : ptrace :=
  {| p_state := p_state p; p_started := p_started p; p_err := p_err p; p_lock := p_lock p; p_states := p_states p;
     p_threads := ts; p_hasher := h; p_reporter := r; p_keepalive := k;
     p_packets := p_packets p; p_free := p_free p; p_next := p_next p; p_input := p_input p; p_seq := p_seq p;
     p_delays := p_delays p; p_log := p_log p |}.
Definition p_set_heap (p : ptrace) (packets : gmap loc ppacket) (free : list loc) (next : loc) : ptrace :=
  {| p_state := p_state p; p_started := p_started p; p_err := p_err p; p_lock := p_lock p; p_states := p_states p;
     p_threads := p_threads p; p_hasher := p_hasher p; p_reporter := p_reporter p; p_keepalive := p_keepalive p;
     p_packets := packets; p_free := free; p_next := next; p_input := p_input p; p_seq := p_seq p;
     p_delays := p_delays p; p_log := p_log p |}.
Definition p_set_io (p : ptrace) (input : list D) (seq : Z) (delays : list Z) (log : list event) : ptrace :=
  {| p_state := p_state p; p_started := p_started p; p_err := p_err p; p_lock := p_lock p; p_states := p_states p;
     p_threads := p_threads p; p_hasher := p_hasher p; p_reporter := p_reporter p; p_keepalive := p_keepalive p;
     p_packets := p_packets p; p_free := p_free p; p_next := p_next p; p_input := input; p_seq := seq;
     p_delays := delays; p_log := log |}.

Definition set_packet_at (p : ptrace) (l : loc) (pk : ppacket) : ptrace :=
  p_set_heap p (<[l := pk]> (p_packets p)) (p_free p) (p_next p).
Definition log_event (p : ptrace) (e : event) : ptrace :=
  p_set_io p (p_input p) (p_seq p) (p_delays p) (p_log p ++ [e]).

Definition get_thread (p : ptrace) (r : thread_ref) : outcome thread :=
  match r with
  | TPerpkt i => match p_threads p !! i with Some t => Ok t | None => Fault OutOfBounds end
  | THasher => Ok (p_hasher p)
  | TReporter => Ok (p_reporter p)
  | TKeepalive => Ok (p_keepalive p)
  | TMain => Fault NullDeref
  end.
Definition set_thread (p : ptrace) (r : thread_ref) (t : thread) : ptrace :=
  match r with
  | TPerpkt i => p_set_threads p (<[i := t]> (p_threads p)) (p_hasher p) (p_reporter p) (p_keepalive p)
  | THasher => p_set_threads p (p_threads p) t (p_reporter p) (p_keepalive p)
  | TReporter => p_set_threads p (p_threads p) (p_hasher p) t (p_keepalive p)
  | TKeepalive => p_set_threads p (p_threads p) (p_hasher p) (p_reporter p) t
  | TMain => p
  end.

Definition t_set (t : thread) (state : thread_states) (accepted : Z) (first : bool) (fd : option loc)
    (messages : list libtrace_message_t) (rbuffer : list loc) : thread :=
  {| t_type := t_type t; t_state := state; t_accepted_packets := accepted; t_recorded_first := first;
     t_format_data := fd; t_messages := messages; t_rbuffer := rbuffer |}.
Definition t_set_state (t : thread) (s : thread_states) :=
  t_set t s (t_accepted_packets t) (t_recorded_first t) (t_format_data t) (t_messages t) (t_rbuffer t).
Definition t_set_messages (t : thread) (ms : list libtrace_message_t) :=
  t_set t (t_state t) (t_accepted_packets t) (t_recorded_first t) (t_format_data t) ms (t_rbuffer t).
Definition t_set_rbuffer (t : thread) (ls : list loc) :=
  t_set t (t_state t) (t_accepted_packets t) (t_recorded_first t) (t_format_data t) (t_messages t) ls.
Definition t_set_format_data (t : thread) (l : option loc) :=
  t_set t (t_state t) (t_accepted_packets t) (t_recorded_first t) l (t_messages t) (t_rbuffer t).
Definition t_set_first (t : thread) :=
  t_set t (t_state t) (t_accepted_packets t) true (t_format_data t) (t_messages t) (t_rbuffer t).
Definition t_count_accepted (t : thread) :=
  t_set t (t_state t) (u64 (t_accepted_packets t + 1)) (t_recorded_first t) (t_format_data t) (t_messages t) (t_rbuffer t).

(** ** States *)
Definition perpkt_thread_count (p : ptrace) : Z := Zlen (p_threads p).

Definition lock (p : ptrace) : outcome ptrace :=
  let! held := pthread_mutex_lock (p_lock p) in
  Ok (p_set_ctl p (p_state p) (p_started p) (p_err p) held (p_states p)).
Definition unlock (p : ptrace) : outcome ptrace :=
  let! held := pthread_mutex_unlock (p_lock p) in
  Ok (p_set_ctl p (p_state p) (p_started p) (p_err p) held (p_states p)).

Definition libtrace_change_state (p : ptrace) (new_state : trace_state) (need_lock : bool) : outcome ptrace :=
  let! p := if need_lock then lock p else Ok p in
  let p := p_set_ctl p new_state (p_started p) (p_err p) (p_lock p) (p_states p) in
  if need_lock then unlock p else Ok p.

Definition state_index (s : thread_states) : Z :=
  match s with THREAD_RUNNING => 0 | THREAD_FINISHING => 1 | THREAD_FINISHED => 2 | THREAD_PAUSED => 3 end.

Definition add_state (states : list Z) (s : thread_states) (d : Z) : outcome (list Z) :=
  let! n := aget states (state_index s) in aset states (state_index s) (n + d).

Definition thread_change_state (p : ptrace) (r : thread_ref) (new_state : thread_states) (need_lock : bool) : outcome ptrace :=
  let! p := if need_lock then lock p else Ok p in
  let! t := get_thread p r in
  let p := set_thread p r (t_set_state t new_state) in
  let! states :=
    if bool_decide (t_type t = THREAD_PERPKT) then
      let! states := add_state (p_states p) (t_state t) (-1) in
      add_state states new_state 1
    else Ok (p_states p) in
  let p := p_set_ctl p (p_state p) (p_started p) (p_err p) (p_lock p) states in
  let! finished := aget states (state_index THREAD_FINISHED) in
  let! p := if finished =? perpkt_thread_count p then libtrace_change_state p STATE_FINISHED false else Ok p in
  if need_lock then unlock p else Ok p.

Definition trace_has_dedicated_hasher (p : ptrace) : bool := bool_decide (t_type (p_hasher p) = THREAD_HASHER).
Definition trace_has_finished (p : ptrace) : bool :=
  bool_decide (p_state p = STATE_FINISHED) || bool_decide (p_state p = STATE_JOINED).

(** ** Messages *)

(** [self] is the running thread. *)
Definition get_thread_table (p : ptrace) (self : thread_ref) : option thread_ref :=
  match self with
  | TPerpkt i => if bool_decide (i < length (p_threads p))%nat then Some self else None
  | _ => None
  end.

Definition get_thread_descriptor (p : ptrace) (self : thread_ref) : option thread_ref :=
  match get_thread_table p self with
  | Some r => Some r
  | None =>
      if bool_decide (t_type (p_hasher p) = THREAD_REPORTER) && bool_decide (self = TReporter) then Some TReporter
      else if bool_decide (t_type (p_hasher p) = THREAD_HASHER) && bool_decide (self = THasher) then Some THasher
      else None
  end.

Definition with_sender (p : ptrace) (self : thread_ref) (m : libtrace_message_t) : libtrace_message_t :=
  match m_sender m with
  | Some _ => m
  | None => {| m_code := m_code m; m_data := m_data m; m_sender := get_thread_descriptor p self |}
  end.

Definition put_message (t : thread) (m : libtrace_message_t) : thread := t_set_messages t (t_messages t ++ [m]).

Definition trace_message_thread (p : ptrace) (self r : thread_ref) (m : libtrace_message_t) : outcome ptrace :=
  let! t := get_thread p r in
  Ok (set_thread p r (put_message t (with_sender p self m))).

(** The callbacks of the reporter are missing if there is no reporter. *)
Context {user : nat → ppacket → bool} {perpkt_cbs : callback_set} {reporter_cbs : option callback_set}
  {cfg : user_configuration} {eof : Z} {hash : D → Z}.

Definition trace_has_reporter (p : ptrace) : outcome bool :=
  let! _ := oassert (negb (bool_decide (p_state p = STATE_NEW))) in
  Ok (bool_decide (t_type (p_reporter p) = THREAD_REPORTER) && bool_decide (is_Some reporter_cbs)).

Definition is_alive (s : thread_states) : bool := bool_decide (s = THREAD_RUNNING) || bool_decide (s = THREAD_PAUSED).

(** The flag: the message was sent. *)
Definition trace_message_reporter (p : ptrace) (self : thread_ref) (m : libtrace_message_t) : outcome (ptrace * bool) :=
  let! has := trace_has_reporter p in
  if has && is_alive (t_state (p_reporter p)) then
    let! p := trace_message_thread p self TReporter m in Ok (p, true)
  else Ok (p, false).

Definition trace_post_reporter (p : ptrace) (self : thread_ref) : outcome (ptrace * bool) :=
  trace_message_reporter p self {| m_code := MESSAGE_POST_REPORTER; m_data := 0; m_sender := None |}.

(** The messages sent, and the number of threads missed, negated. *)
Definition trace_message_perpkts (p : ptrace) (self : thread_ref) (m : libtrace_message_t) : ptrace * Z :=
  let m := with_sender p self m in
  let send t := if is_alive (t_state t) then put_message t m else t in
  (p_set_threads p (map send (p_threads p)) (p_hasher p) (p_reporter p) (p_keepalive p),
   - Zlen (filter (λ t, is_alive (t_state t) = false) (p_threads p))).

(** The message of [store_first_packet]; what is stored is in FirstServed. *)
Definition announce_first_packet (p : ptrace) (i : nat) : outcome ptrace :=
  let! t := get_thread p (TPerpkt i) in
  if t_recorded_first t then Ok p
  else
    let m := {| m_code := MESSAGE_FIRST_PACKET; m_data := 0; m_sender := None |} in
    let! ' (p, _) := trace_message_reporter p (TPerpkt i) m in
    let m := with_sender p (TPerpkt i) m in
    let '(p, _) := trace_message_perpkts p (TPerpkt i) m in
    let! t := get_thread p (TPerpkt i) in
    Ok (set_thread p (TPerpkt i) (t_set_first t)).

Definition send_message (p : ptrace) (r : thread_ref) (type data : Z) (sender : option thread_ref) : ptrace :=
  match (if bool_decide (r = TReporter) then reporter_cbs else Some perpkt_cbs) with
  | None => p
  | Some cbs =>
      match callback_for cbs type with
      | Some true => log_event p (Called r type data sender)
      | _ => p
      end
  end.

(** ** Packets *)
Definition new_ppacket : ppacket := {| pp_error := 0; pp_order := 0; pp_hash := 0; pp_data := None |}.

Definition alloc_packet (p : ptrace) : ptrace * loc :=
  match p_free p with
  | l :: free => (p_set_heap p (p_packets p) free (p_next p), l)
  | [] => (p_set_heap p (<[p_next p := new_ppacket]> (p_packets p)) [] (Pos.succ (p_next p)), p_next p)
  end.
Definition free_packet (p : ptrace) (l : loc) : ptrace := p_set_heap p (p_packets p) (l :: p_free p) (p_next p).

Definition set_error (p : ptrace) (l : loc) (e : Z) : outcome ptrace :=
  let! pk := load (p_packets p) l in
  Ok (set_packet_at p l {| pp_error := e; pp_order := pp_order pk; pp_hash := pp_hash pk; pp_data := pp_data pk |}).

(** [trace_fin_packet] *)
Definition fin_packet (p : ptrace) (l : loc) : outcome ptrace :=
  let! pk := load (p_packets p) l in
  Ok (set_packet_at p l {| pp_error := pp_error pk; pp_order := 0; pp_hash := 0; pp_data := None |}).

(** [packet->error = trace_read_packet(trace, packet)]; [eof] is what is returned when
    the input has ended, 0 or an error. *)
Definition read_packet (p : ptrace) (l : loc) : outcome (ptrace * Z) :=
  let! pk := load (p_packets p) l in
  if negb (p_started p) then
    let! p := set_error p l (-1) in Ok (p, -1)
  else
    match p_input p with
    | [] => let! p := set_error p l eof in Ok (p, eof)
    | d :: input =>
        let pk := {| pp_error := size d; pp_order := p_seq p; pp_hash := pp_hash pk; pp_data := Some d |} in
        Ok (set_packet_at (p_set_io p input (u64 (p_seq p + 1)) (p_delays p) (p_log p)) l pk, size d)
    end.

(** ** Giving packets to the user *)

(** What [delay_tracetime] returns, if packets are delayed; FirstServed has the times. *)
Definition next_delay (p : ptrace) : ptrace * Z :=
  match p_delays p with
  | [] => (p, 0)
  | d :: delays => (p_set_io p (p_input p) (p_seq p) delays (p_log p), d)
  end.

(** [*packet] is [slot]; it is returned as the call leaves it. *)
Definition dispatch_packet (p : ptrace) (i : nat) (slot : option loc) (tracetime : bool) : outcome (ptrace * option loc * Z) :=
  match slot with
  | None => Fault NullDeref
  | Some l =>
      let! pk := load (p_packets p) l in
      if 0 <? pp_error pk then
        let '(p, delay) := if tracetime then next_delay p else (p, 0) in
        if delay =? READ_MESSAGE then Ok (p, slot, READ_MESSAGE)
        else
          let! t := get_thread p (TPerpkt i) in
          let p := set_thread p (TPerpkt i) (t_count_accepted t) in
          let '(p, slot) :=
            if message_packet perpkt_cbs
            then (log_event p (Packet i l (pp_data pk)), if user i pk then slot else None)
            else (p, slot) in
          let! p := match slot with Some l => fin_packet p l | None => Ok p end in
          Ok (p, slot, 0)
      else
        let! _ := oassert (pp_error pk =? READ_TICK) in
        Ok (send_message p (TPerpkt i) MESSAGE_TICK_COUNT (pp_order pk) (Some (TPerpkt i)), slot, 0)
  end.

(** The loop: [n] is the number of packets from [offset] on. *)
Fixpoint dispatch_loop (n : nat) (p : ptrace) (i : nat) (packets : list (option loc)) (empty offset : Z) (tracetime : bool)
  : outcome (ptrace * list (option loc) * Z * Z * Z) :=
  match n with
  | O => Ok (p, packets, empty, offset, 0)
  | S n' =>
      let! slot := aget packets offset in
      let! ' (p, slot, ret) := dispatch_packet p i slot tracetime in
      let! packets := aset packets offset slot in
      if ret =? 0 then
        match slot with
        | Some _ =>
            if empty =? offset then dispatch_loop n' p i packets (empty + 1) (offset + 1) tracetime
            else
              let! packets := aset packets empty slot in
              let! packets := aset packets offset None in
              dispatch_loop n' p i packets (empty + 1) (offset + 1) tracetime
        | None => dispatch_loop n' p i packets empty (offset + 1) tracetime
        end
      else
        let! _ := oassert (ret =? READ_MESSAGE) in
        Ok (p, packets, empty, offset, READ_MESSAGE)
  end.

Definition dispatch_packets (p : ptrace) (i : nat) (packets : list (option loc)) (nb_packets empty offset : Z) (tracetime : bool)
  : outcome (ptrace * list (option loc) * Z * Z * Z) :=
  dispatch_loop (Z.to_nat (nb_packets - offset)) p i packets empty offset tracetime.

(** ** Reading from the queue that the hasher fills *)

(** [if (packets[i]) libtrace_ocache_free(...)] *)
Definition recycle (p : ptrace) (slot : option loc) : ptrace :=
  match slot with Some l => free_packet p l | None => p end.

Definition packet_error (p : ptrace) (slot : option loc) : outcome Z :=
  match slot with
  | Some l => let! pk := load (p_packets p) l in Ok (pp_error pk)
  | None => Fault NullDeref
  end.

(** The loop from index [j] on, of which [n] are left. *)
Fixpoint hasher_read_loop (n : nat) (p : ptrace) (i : nat) (packets : list (option loc)) (j : Z)
  : outcome (ptrace * list (option loc) * Z) :=
  match n with
  | O => Ok (p, packets, j)
  | S n' =>
      let! slot := aget packets j in
      let p := recycle p slot in
      let! t := get_thread p (TPerpkt i) in
      match t_rbuffer t with
      | [] => let! packets := aset packets j None in Ok (p, packets, j)
      | l :: ring =>
          let t := t_set_rbuffer t ring in
          let! packets := aset packets j (Some l) in
          let! error := packet_error p (Some l) in
          let! slot0 := aget packets 0 in
          let! error0 := packet_error p slot0 in
          if (error <=? 0) && negb (error0 =? READ_TICK) then
            let! t :=
              if error =? READ_MESSAGE then Ok t
              else
                let! _ := oassert (bool_decide (t_format_data t = None)) in
                Ok (t_set_format_data t (Some l)) in
            Ok (set_thread p (TPerpkt i) t, packets, j)
          else hasher_read_loop n' (set_thread p (TPerpkt i) t) i packets (j + 1)
      end
  end.

Definition trace_pread_packet_hasher_thread (p : ptrace) (i : nat) (packets : list (option loc)) (nb_packets : Z)
  : outcome (ptrace * list (option loc) * Z) :=
  let! t := get_thread p (TPerpkt i) in
  match t_format_data t with
  | Some l => let! error := packet_error p (Some l) in Ok (p, packets, error)
  | None =>
      let! slot := aget packets 0 in
      let p := recycle p slot in
      let! t := get_thread p (TPerpkt i) in
      match t_rbuffer t with
      | [] => Fault Blocked
      | l :: ring =>
          let p := set_thread p (TPerpkt i) (t_set_rbuffer t ring) in
          let! packets := aset packets 0 (Some l) in
          let! error := packet_error p (Some l) in
          if (error <=? 0) && negb (error =? READ_TICK) then Ok (p, packets, error)
          else hasher_read_loop (Z.to_nat (nb_packets - 1)) p i packets 1
      end
  end.

(** ** The loop of a per-packet thread *)
Record perpkt_locals := {
  l_packets : list (option loc);
  l_nb_packets : Z;
  l_empty : Z;
  l_offset : Z;
}.

(** Where the thread goes on: at its start, with the loop, waiting in [trace_thread_pause] (within
    [trace_perpkt_thread_pause]), at the labels [error] and [eof], or nowhere. *)
Inductive perpkt_pc := PcInit | PcLoop | PcPaused | PcError | PcEof | PcDone.
#[export] Instance perpkt_pc_eq_dec : EqDecision perpkt_pc.
Proof. solve_decision. Defined.

(** How packets are read: by the function for a single thread, or from the queue. *)
Inductive pread_kind := PreadNone | PreadHasher.

Fixpoint alloc_slots (n : nat) (p : ptrace) (packets : list (option loc)) (j : Z) : outcome (ptrace * list (option loc)) :=
  match n with
  | O => Ok (p, packets)
  | S n' =>
      let '(p, l) := alloc_packet p in
      let! packets := aset packets j (Some l) in
      alloc_slots n' p packets (j + 1)
  end.

Definition pread (kind : pread_kind) (p : ptrace) (i : nat) (packets : list (option loc)) : outcome (ptrace * list (option loc) * Z) :=
  match kind with
  | PreadNone =>
      let! slot := aget packets 0 in
      match slot with
      | None => Fault AssertFailed
      | Some l => let! ' (p, ret) := read_packet p l in Ok (p, packets, if 0 <? ret then 1 else ret)
      end
  | PreadHasher => trace_pread_packet_hasher_thread p i packets (Zlen packets)
  end.

(** [if (offset == nb_packets)]: the slots are filled up and packets are read. *)
Definition refill_and_read (kind : pread_kind) (p : ptrace) (i : nat) (s : perpkt_locals) : outcome (ptrace * perpkt_locals) :=
  if l_offset s =? l_nb_packets s then
    let! ' (p, packets) :=
      if l_empty s =? l_nb_packets s then Ok (p, l_packets s)
      else alloc_slots (Z.to_nat (l_nb_packets s - l_empty s)) p (l_packets s) (l_empty s) in
    let! ' (p, packets, nb) := pread kind p i packets in
    Ok (p, {| l_packets := packets; l_nb_packets := nb; l_empty := 0; l_offset := 0 |})
  else Ok (p, s).

(** The part of a round that deals with packets. *)
Definition perpkt_packets (kind : pread_kind) (p : ptrace) (i : nat) (s : perpkt_locals) (tracetime : bool)
  : outcome (ptrace * perpkt_locals * perpkt_pc) :=
  let! ' (p, s) := refill_and_read kind p i s in
  if 0 <? l_nb_packets s then
    let! slot := aget (l_packets s) 0 in
    let! error := packet_error p slot in
    let! p := if 0 <? error then announce_first_packet p i else Ok p in
    let! ' (p, packets, empty, offset, _) :=
      dispatch_packets p i (l_packets s) (l_nb_packets s) (l_empty s) (l_offset s) tracetime in
    Ok (p, {| l_packets := packets; l_nb_packets := l_nb_packets s; l_empty := empty; l_offset := offset |}, PcLoop)
  else if l_nb_packets s =? READ_EOF then Ok (p, s, PcEof)
  else if l_nb_packets s =? READ_MESSAGE then
    Ok (p, {| l_packets := l_packets s; l_nb_packets := 0; l_empty := l_empty s; l_offset := l_offset s |}, PcLoop)
  else Ok (p, s, PcError).

(** ** Pausing a per-packet thread *)

Definition waiting_state (st : trace_state) : bool := bool_decide (st = STATE_PAUSED) || bool_decide (st = STATE_PAUSING).

(** The check that nothing is left in the queue. *)
Fixpoint verify_no_packets (fuel : nat) (p : ptrace) (i : nat) (slot : option loc) : outcome (ptrace * option loc) :=
  match fuel with
  | O => Fault OutOfFuel
  | S fuel' =>
      let! t := get_thread p (TPerpkt i) in
      match t_rbuffer t with
      | [] => Ok (p, slot)
      | _ :: _ =>
          let! ' (p, packets, ret) := trace_pread_packet_hasher_thread p i [slot] 1 in
          let! _ := oassert (ret <=? 0) in
          let! slot := aget packets 0 in
          let! error := packet_error p slot in
          let! _ := oassert (error <=? 0) in
          verify_no_packets fuel' p i slot
      end
  end.

Definition queue_is_empty (t : thread) : bool :=
  match t_rbuffer t, t_format_data t with [], None => true | _, _ => false end.

(** Emptying the queue; the result is 1 for an empty queue and -1 after the end of the
    trace or an error. *)
Fixpoint drain_queue (fuel : nat) (p : ptrace) (i : nat) (slot : option loc) : outcome (ptrace * option loc * Z) :=
  match fuel with
  | O => Fault OutOfFuel
  | S fuel' =>
      let! t := get_thread p (TPerpkt i) in
      if queue_is_empty t then Ok (p, slot, 1)
      else
        let! ' (p, packets, ret) := trace_pread_packet_hasher_thread p i [slot] 1 in
        let! slot := aget packets 0 in
        if ret =? 1 then
          let! error := packet_error p slot in
          let! p := if 0 <? error then announce_first_packet p i else Ok p in
          let! ' (p, slot, ret) := dispatch_packet p i slot false in
          let! _ := oassert (ret =? 0) in
          let '(p, slot) := match slot with Some _ => (p, slot) | None => let '(p, l) := alloc_packet p in (p, Some l) end in
          drain_queue fuel' p i slot
        else if ret =? READ_MESSAGE then drain_queue fuel' p i slot
        else
          let! _ := oassert ((ret =? READ_EOF) || (ret =? READ_ERROR)) in
          let! ' (p, slot) := verify_no_packets fuel' p i slot in
          Ok (p, slot, -1)
  end.

(** [trace_perpkt_thread_pause] up to the wait. *)
Definition perpkt_pause (fuel : nat) (p : ptrace) (i : nat) (s : perpkt_locals) : outcome (ptrace * perpkt_locals * perpkt_pc) :=
  let p := send_message p (TPerpkt i) MESSAGE_PAUSING 0 (Some (TPerpkt i)) in
  let! ' (p, packets, empty, offset, ret) :=
    dispatch_packets p i (l_packets s) (l_nb_packets s) (l_empty s) (l_offset s) false in
  let! _ := oassert (ret =? 0) in
  let s := {| l_packets := packets; l_nb_packets := l_nb_packets s; l_empty := empty; l_offset := offset |} in
  let '(p, l) := alloc_packet p in
  let! ' (p, slot, ret) := if trace_has_dedicated_hasher p then drain_queue fuel p i (Some l) else Ok (p, Some l, 1) in
  let p := recycle p slot in
  if ret =? -1 then Ok (p, s, PcError)
  else
    let! p := lock p in
    let! p := thread_change_state p (TPerpkt i) THREAD_PAUSED false in
    let! p := unlock p in
    Ok (p, s, PcPaused).

(** The rest, when the trace is no longer paused. *)
Definition perpkt_resume (p : ptrace) (i : nat) : outcome ptrace :=
  let! p := lock p in
  let! p := thread_change_state p (TPerpkt i) THREAD_RUNNING false in
  let! p := unlock p in
  Ok (send_message p (TPerpkt i) MESSAGE_RESUMING 0 (Some (TPerpkt i))).

(** One round of the loop of [perpkt_threads_entry]. *)
Definition perpkt_round (kind : pread_kind) (fuel : nat) (p : ptrace) (i : nat) (s : perpkt_locals) (tracetime : bool)
  : outcome (ptrace * perpkt_locals * perpkt_pc) :=
  let! t := get_thread p (TPerpkt i) in
  match t_messages t with
  | m :: ms =>
      let p := set_thread p (TPerpkt i) (t_set_messages t ms) in
      if m_code m =? MESSAGE_DO_PAUSE then perpkt_pause fuel p i s
      else if m_code m =? MESSAGE_DO_STOP then Ok (p, s, PcEof)
      else Ok (send_message p (TPerpkt i) (m_code m) (m_data m) (m_sender m), s, PcLoop)
  | [] => perpkt_packets kind p i s tracetime
  end.

(** Before the loop: the slots are filled.  The format has no function to register
    threads. *)
Definition perpkt_start (p : ptrace) (i : nat) : outcome (ptrace * perpkt_locals * perpkt_pc) :=
  let! p := lock p in
  let! _ := get_thread p (TPerpkt i) in
  if bool_decide (p_state p = STATE_ERROR) then
    let! p := thread_change_state p (TPerpkt i) THREAD_FINISHED false in
    let! p := unlock p in
    Ok (p, {| l_packets := []; l_nb_packets := 0; l_empty := 0; l_offset := 0 |}, PcDone)
  else
    let! p := unlock p in
    let! ' (p, packets) := alloc_slots (Z.to_nat (burst_size cfg)) p (replicate (Z.to_nat (burst_size cfg)) None) 0 in
    let p := send_message p (TPerpkt i) MESSAGE_STARTING 0 (Some (TPerpkt i)) in
    let p := send_message p (TPerpkt i) MESSAGE_RESUMING 0 (Some (TPerpkt i)) in
    Ok (p, {| l_packets := packets; l_nb_packets := 0; l_empty := 0; l_offset := 0 |}, PcLoop).

(** The labels [error] and [eof]. *)
Definition perpkt_finish (p : ptrace) (i : nat) (s : perpkt_locals) (failed : bool) : outcome ptrace :=
  let p :=
    if failed
    then fst (trace_message_perpkts p (TPerpkt i) {| m_code := MESSAGE_DO_STOP; m_data := 0; m_sender := Some (TPerpkt i) |})
    else p in
  let p := send_message p (TPerpkt i) MESSAGE_PAUSING 0 (Some (TPerpkt i)) in
  let p := send_message p (TPerpkt i) MESSAGE_STOPPING 0 (Some (TPerpkt i)) in
  let p := fold_left recycle (l_packets s) p in
  let! p := thread_change_state p (TPerpkt i) THREAD_FINISHED true in
  let! has := trace_has_reporter p in
  if has then let! ' (p, _) := trace_post_reporter p (TPerpkt i) in Ok p else Ok p.

(** ** The hasher *)
Record hasher_locals := { h_packet : option loc; h_skipped : bool }.

(** [libtrace_ringbuffer_write], which waits for room. *)
Definition ring_write (p : ptrace) (i : nat) (l : loc) : outcome ptrace :=
  let! t := get_thread p (TPerpkt i) in
  if Zlen (t_rbuffer t) <? hasher_queue_size cfg then Ok (set_thread p (TPerpkt i) (t_set_rbuffer t (t_rbuffer t ++ [l])))
  else Fault Blocked.

(** Ticks for the threads from [i] on. *)
Fixpoint write_ticks (n : nat) (p : ptrace) (i : nat) (order : Z) : outcome ptrace :=
  match n with
  | O => Ok p
  | S n' =>
      let '(p, l) := alloc_packet p in
      let! pk := load (p_packets p) l in
      let p := set_packet_at p l {| pp_error := READ_TICK; pp_order := order; pp_hash := pp_hash pk; pp_data := pp_data pk |} in
      let! p := ring_write p i l in
      write_ticks n' p (S i) order
  end.

(** The packet that was read goes to the thread that its hash selects. *)
Definition hash_and_queue (p : ptrace) (l : loc) : outcome ptrace :=
  let! pk := load (p_packets p) l in
  let! d := match pp_data pk with Some d => Ok d | None => Fault NullDeref end in
  let p := set_packet_at p l {| pp_error := pp_error pk; pp_order := pp_order pk; pp_hash := u64 (hash d); pp_data := pp_data pk |} in
  let! thread := umod (u64 (hash d)) (perpkt_thread_count p) in
  let! t := get_thread p (TPerpkt (Z.to_nat thread)) in
  let! _ := oassert (negb (bool_decide (t_state t = THREAD_FINISHED))) in
  let! p := ring_write p (Z.to_nat thread) l in
  if (tick_count cfg =? 0) || negb (pp_order pk `mod` tick_count cfg =? 0) then Ok p
  else write_ticks (length (p_threads p)) p 0 (pp_order pk).

(** One round of the loop of [hasher_entry].  The packet is unfinished business of the
    last round if [h_skipped]. *)
Definition hasher_round (p : ptrace) (h : hasher_locals) (halt : bool) : outcome (ptrace * hasher_locals * perpkt_pc) :=
  let '(p, packet) :=
    if h_skipped h then (p, h_packet h) else let '(p, l) := alloc_packet p in (p, Some l) in
  match packet with
  | None => Fault AssertFailed
  | Some l =>
      let again := {| h_packet := Some l; h_skipped := true |} in
      if halt then let! p := set_error p l 0 in Ok (p, again, PcEof)
      else
        match t_messages (p_hasher p) with
        | m :: ms =>
            let p := set_thread p THasher (t_set_messages (p_hasher p) ms) in
            if m_code m =? MESSAGE_DO_PAUSE then
              let! p := lock p in
              let! p := thread_change_state p THasher THREAD_PAUSED false in
              let! p := unlock p in
              Ok (p, again, PcPaused)
            else if m_code m =? MESSAGE_DO_STOP then
              let! _ := oassert (negb (p_started p)) in
              let! _ := oassert (bool_decide (p_state p = STATE_FINISHED)) in
              let! p := set_error p l 0 in
              Ok (p, again, PcLoop)
            else Ok (p, again, PcLoop)
        | [] =>
            let! ' (p, ret) := read_packet p l in
            if ret <? 1 then Ok (p, again, PcEof)
            else
              let! p := hash_and_queue p l in
              Ok (p, {| h_packet := Some l; h_skipped := false |}, PcLoop)
        end
  end.

Definition hasher_resume (p : ptrace) : outcome ptrace :=
  let! p := lock p in
  let! p := thread_change_state p THasher THREAD_RUNNING false in
  unlock p.

(** The result of the last read is sent to the threads from [i] on. *)
Fixpoint hasher_broadcast (n : nat) (p : ptrace) (l : loc) (i : nat) : outcome ptrace :=
  match n with
  | O => Ok p
  | S n' =>
      let! ' (p, bcast) :=
        if bool_decide (n' = O) then Ok (p, l)
        else
          let '(p, b) := alloc_packet p in
          let! pk := load (p_packets p) l in
          let! p := set_error p b (pp_error pk) in
          Ok (p, b) in
      let! p := lock p in
      let! t := get_thread p (TPerpkt i) in
      let! p := if bool_decide (t_state t = THREAD_FINISHED) then Ok p else ring_write p i bcast in
      let! p := unlock p in
      hasher_broadcast n' p l (S i)
  end.

Definition hasher_finish (p : ptrace) (h : hasher_locals) : outcome ptrace :=
  match h_packet h with
  | None => Fault NullDeref
  | Some l =>
      let! p := hasher_broadcast (length (p_threads p)) p l 0 in
      thread_change_state p THasher THREAD_FINISHED true
  end.

(** ** The reporter *)

(** One round of [reporter_entry]; [None] for the pause.  Reading of results, by the
    combiner, is an entry of the log with the code of the message. *)
Definition reporter_round (p : ptrace) : outcome (ptrace * perpkt_pc) :=
  if trace_has_finished p then Ok (p, PcEof)
  else
    let! ' (p, code, data, sender) :=
      match t_messages (p_reporter p) with
      | m :: ms => Ok (set_thread p TReporter (t_set_messages (p_reporter p) ms), m_code m, m_data m, m_sender m)
      | [] => if reporter_polling cfg then Ok (p, MESSAGE_POST_REPORTER, 0, None) else Fault Blocked
      end in
    if code =? MESSAGE_POST_REPORTER then Ok (log_event p (Called TReporter MESSAGE_POST_REPORTER 0 None), PcLoop)
    else if code =? MESSAGE_DO_PAUSE then
      let p := log_event p (Called TReporter MESSAGE_DO_PAUSE 0 None) in
      let p := send_message p TReporter MESSAGE_PAUSING 0 (Some TReporter) in
      let! p := lock p in
      let! p := thread_change_state p TReporter THREAD_PAUSED false in
      let! p := unlock p in
      Ok (p, PcPaused)
    else Ok (send_message p TReporter code data sender, PcLoop).

Definition reporter_start (p : ptrace) : outcome (ptrace * perpkt_pc) :=
  let! p := lock p in
  if bool_decide (p_state p = STATE_ERROR) then
    let! p := thread_change_state p TReporter THREAD_FINISHED false in
    let! p := unlock p in
    Ok (p, PcDone)
  else
    let! p := unlock p in
    let p := send_message p TReporter MESSAGE_STARTING 0 (Some TReporter) in
    Ok (send_message p TReporter MESSAGE_RESUMING 0 (Some TReporter), PcLoop).

Definition reporter_resume (p : ptrace) : outcome ptrace :=
  let! p := lock p in
  let! p := thread_change_state p TReporter THREAD_RUNNING false in
  let! p := unlock p in
  Ok (send_message p TReporter MESSAGE_RESUMING 0 (Some TReporter)).

(** The last reading of results and the farewell. *)
Definition reporter_finish (p : ptrace) : outcome ptrace :=
  let p := log_event p (Called TReporter MESSAGE_RESULT 0 None) in
  let p := send_message p TReporter MESSAGE_PAUSING 0 (Some TReporter) in
  let p := send_message p TReporter MESSAGE_STOPPING 0 (Some TReporter) in
  thread_change_state p TReporter THREAD_FINISHED true.
End threads.
