(* ===== verification/ParStates.v ===== *)
(** * Pausing, restarting, stopping and joining a parallel trace: lib/trace_parallel.c

    The calls of the main thread wait for the other threads, so each is split where it
    waits.  A system is a trace with the positions of its threads; its steps are the
    rounds of the threads and the pieces of the main thread's calls, in any order.
    A round is one step. *)

From S2P Require Import Prelude DNodes FormatHelper Trace ParConfig Parallel ParThreads.
Local Open Scope Z_scope.
Local Open Scope outcome_scope.

Section states.
Context {D : Type} {size : D → Z} {user : nat → @ppacket D → bool} {perpkt_cbs : callback_set}
  {reporter_cbs : option callback_set} {cfg : user_configuration} {eof : Z} {hash : D → Z}.
Local Abbreviation ptrace := (@ptrace D).
Implicit Types (p : ptrace) (i : nat).

Definition plain_message (code : Z) : libtrace_message_t := {| m_code := code; m_data := 0; m_sender := None |}.

(** ** trace_ppause *)

(** The checks; [Some] result if the function returns at once. *)
Definition ppause_begin p : outcome (ptrace * option Z) :=
  let! p := lock p in
  if bool_decide (p_state p = STATE_PAUSED) then
    let! p := unlock p in Ok (p, Some 0)
  else if negb (p_started p) || negb (bool_decide (p_state p = STATE_RUNNING)) then
    let! err := trace_set_err TRACE_ERR_BAD_STATE in
    Ok (p_set_ctl p (p_state p) (p_started p) err (p_lock p) (p_states p), Some (-1))
  else
    let! p := libtrace_change_state p STATE_PAUSING false in
    let! p := unlock p in
    Ok (p, None).

Definition ppause_ask_hasher p (self : thread_ref) : outcome ptrace :=
  if trace_has_dedicated_hasher p then trace_message_thread p self THasher (plain_message MESSAGE_DO_PAUSE) else Ok p.

(** The threads from [i] on, [n] of them, are asked to pause; one that waits for its
    queue is woken by a packet that only says that there is a message. *)
Fixpoint ppause_ask_perpkts (n : nat) p (self : thread_ref) i : outcome ptrace :=
  match n with
  | O => Ok p
  | S n' =>
      let! p :=
        if bool_decide (self = TPerpkt i) then Ok p
        else
          let! p := trace_message_thread p self (TPerpkt i) (plain_message MESSAGE_DO_PAUSE) in
          if trace_has_dedicated_hasher p then
            let '(p, l) := alloc_packet p in
            let! p := set_error p l READ_MESSAGE in
            ring_write (cfg := cfg) p i l
          else Ok p in
      ppause_ask_perpkts n' p self (S i)
  end.

Definition ppause_ask_reporter p (self : thread_ref) : outcome ptrace :=
  let! has := trace_has_reporter (reporter_cbs := reporter_cbs) p in
  if has then trace_message_thread p self TReporter (plain_message MESSAGE_DO_PAUSE) else Ok p.

(** The input is paused, and the trace. *)
Definition ppause_end p : outcome ptrace :=
  let p := p_set_ctl p (p_state p) false (p_err p) (p_lock p) (p_states p) in
  libtrace_change_state p STATE_PAUSED true.

(** ** trace_pstart of a paused trace, trace_pstop and trace_join *)
Definition restart_thread (t : thread) : thread := t_set t (t_state t) 0 false (t_format_data t) (t_messages t) (t_rbuffer t).

(** [err] is what the format's [start_input] returns. *)
Definition trace_prestart p (err : Z) : outcome (ptrace * Z) :=
  if negb (bool_decide (p_state p = STATE_PAUSED)) then
    let! e := trace_set_err TRACE_ERR_BAD_STATE in
    Ok (p_set_ctl p (p_state p) (p_started p) e (p_lock p) (p_states p), -1)
  else
    let! running := aget (p_states p) (state_index THREAD_RUNNING) in
    let! _ := oassert (running =? 0) in
    let p := p_set_threads p (map restart_thread (p_threads p)) (p_hasher p) (p_reporter p) (p_keepalive p) in
    if err =? 0 then
      let p := p_set_ctl p (p_state p) true (p_err p) (p_lock p) (p_states p) in
      let! p := libtrace_change_state p STATE_RUNNING false in
      Ok (p, 0)
    else Ok (p, err).

(** The call for a trace that is not new. *)
Definition trace_pstart_again p (err : Z) : outcome (ptrace * Z) :=
  let! p := lock p in
  if negb (p_err p =? 0) then let! p := unlock p in Ok (p, -1)
  else if bool_decide (p_state p = STATE_PAUSED) then
    let! ' (p, ret) := trace_prestart p err in
    let! p := unlock p in
    Ok (p, ret)
  else
    let! e := trace_set_err TRACE_ERR_BAD_STATE in
    let p := p_set_ctl p (p_state p) (p_started p) e (p_lock p) (p_states p) in
    let! p := unlock p in
    Ok (p, -1).

Fixpoint message_each (n : nat) p (self : thread_ref) i (m : libtrace_message_t) : outcome ptrace :=
  match n with
  | O => Ok p
  | S n' => let! p := trace_message_thread p self (TPerpkt i) m in message_each n' p self (S i) m
  end.

(** [trace_pstop] after its call of [trace_ppause]. *)
Definition pstop_release p (self : thread_ref) : outcome ptrace :=
  let m := plain_message MESSAGE_DO_STOP in
  let m := with_sender p self m in
  let '(p, _) := trace_message_perpkts p self m in
  let! p := if trace_has_dedicated_hasher p then trace_message_thread p self THasher m else Ok p in
  let! p := message_each (length (p_threads p)) p self 0 m in
  libtrace_change_state p STATE_FINISHING true.

(** Packets that are still in a queue are destroyed. *)
Definition empty_ring (t : thread) : thread := t_set_rbuffer t [].

(** [trace_join], when the threads it waits for have ended: the assertions, and the
    queues are emptied. *)
Definition join_threads p : outcome ptrace :=
  let! _ := oassert (forallb (λ t, bool_decide (t_state t = THREAD_FINISHED)) (p_threads p)) in
  let p := p_set_threads p (map empty_ring (p_threads p)) (p_hasher p) (p_reporter p) (p_keepalive p) in
  let! _ :=
    if trace_has_dedicated_hasher p then oassert (bool_decide (t_state (p_hasher p) = THREAD_FINISHED)) else Ok tt in
  Ok p.

Definition join_end p (self : thread_ref) : outcome ptrace :=
  let! has := trace_has_reporter (reporter_cbs := reporter_cbs) p in
  let! _ := if has then oassert (bool_decide (t_state (p_reporter p) = THREAD_FINISHED)) else Ok tt in
  let! p :=
    if bool_decide (t_type (p_keepalive p) = THREAD_KEEPALIVE)
    then trace_message_thread p self TKeepalive (plain_message MESSAGE_DO_STOP) else Ok p in
  libtrace_change_state p STATE_JOINED true.

(** ** trace_pstart of a new trace *)

(** [libtrace_zero_thread], in memory that was zero. *)
Definition libtrace_zero_thread : thread :=
  {| t_type := THREAD_EMPTY; t_state := THREAD_RUNNING; t_accepted_packets := 0; t_recorded_first := false;
     t_format_data := None; t_messages := []; t_rbuffer := [] |}.

(** [create r] is what [pthread_create] returns for the thread [r].  The flag says that
    the thread runs; the queues of a new thread are empty. *)
Definition trace_start_thread p (create : thread_ref → Z) (r : thread_ref) (type : thread_types) : outcome (ptrace * bool) :=
  let! t := get_thread p r in
  let! _ := oassert (bool_decide (t_type t = THREAD_EMPTY)) in
  if create r =? 0 then
    Ok (set_thread p r
          {| t_type := type; t_state := THREAD_RUNNING; t_accepted_packets := t_accepted_packets t;
             t_recorded_first := t_recorded_first t; t_format_data := t_format_data t; t_messages := []; t_rbuffer := [] |}, true)
  else
    let! err := trace_set_err (create r) in
    let p := set_thread p r libtrace_zero_thread in
    Ok (p_set_ctl p (p_state p) (p_started p) err (p_lock p) (p_states p), false).

Fixpoint start_perpkts (n : nat) p (create : thread_ref → Z) i : outcome (ptrace * bool) :=
  match n with
  | O => Ok (p, true)
  | S n' =>
      let! ' (p, ok) := trace_start_thread p create (TPerpkt i) THREAD_PERPKT in
      if ok : bool then start_perpkts n' p create (S i) else Ok (p, false)
  end.

(** The hasher, the per-packet threads, the reporter and the keepalive thread; the
    reporter and the keepalive thread are started if they are wanted. *)
Definition start_threads p (create : thread_ref → Z) : outcome (ptrace * bool) :=
  let! ' (p, ok) := start_perpkts (length (p_threads p)) p create 0 in
  if negb ok then Ok (p, false)
  else
    let! ' (p, ok) :=
      if bool_decide (is_Some reporter_cbs) then trace_start_thread p create TReporter THREAD_REPORTER else Ok (p, true) in
    if negb ok then Ok (p, false)
    else if 0 <? tick_interval cfg then trace_start_thread p create TKeepalive THREAD_KEEPALIVE
    else Ok (p, true).

(** A thread that has been started sees the state ERROR, and is joined. *)
Definition end_thread p (r : thread_ref) : outcome ptrace :=
  let! p := lock p in
  let! p := thread_change_state p r THREAD_FINISHED false in
  let! p := unlock p in
  Ok (set_thread p r libtrace_zero_thread).

(** The per-packet threads up to the first that was not started. *)
Fixpoint end_perpkts (n : nat) p i : outcome ptrace :=
  match n with
  | O => Ok p
  | S n' =>
      let! t := get_thread p (TPerpkt i) in
      if bool_decide (t_type t = THREAD_PERPKT) then
        let! p := end_thread p (TPerpkt i) in end_perpkts n' p (S i)
      else Ok p
  end.

Definition end_if p (r : thread_ref) (type : thread_types) : outcome ptrace :=
  let! t := get_thread p r in
  if bool_decide (t_type t = type) then end_thread p r else Ok p.

(** The label [cleanup_threads]. *)
Definition cleanup_threads p : outcome ptrace :=
  let! p := libtrace_change_state p STATE_ERROR false in
  let! p := unlock p in
  let! p := end_if p THasher THREAD_HASHER in
  let! p := end_perpkts (length (p_threads p)) p 0 in
  let! p := end_if p TReporter THREAD_REPORTER in
  let! p := end_if p TKeepalive THREAD_KEEPALIVE in
  let! p := lock p in
  let! p := libtrace_change_state p STATE_NEW false in
  let! running := aget (p_states p) (state_index THREAD_RUNNING) in
  let! _ := oassert (running =? 0) in
  let! states := aset (p_states p) (state_index THREAD_FINISHED) 0 in
  Ok (p_set_ctl p (p_state p) (p_started p) (p_err p) (p_lock p) states).

(** [trace_pstart] for a new trace whose format has no parallel reader; [count] is the
    number of threads and [dedicated] says whether a hasher thread is needed, as
    [verify_configuration] finds.  [start_ret]: the result of [start_input]. *)
Definition trace_pstart_new p (count : nat) (dedicated : bool) (start_ret : Z) (create : thread_ref → Z)
  : outcome (ptrace * Z) :=
  let! p := lock p in
  let fail p code :=
    let! err := trace_set_err code in
    let! p := unlock p in
    Ok (p_set_ctl p (p_state p) (p_started p) err (p_lock p) (p_states p), -1) in
  if negb (p_err p =? 0) then let! p := unlock p in Ok (p, -1)
  else if negb (bool_decide (p_state p = STATE_NEW)) then fail p TRACE_ERR_BAD_STATE
  else if negb (message_packet perpkt_cbs) then fail p TRACE_ERR_INIT_FAILED
  else
    let p := p_set_ctl p (p_state p) (p_started p) (p_err p) (p_lock p) (replicate 4 0) in
    if negb (start_ret =? 0) then let! p := unlock p in Ok (p, start_ret)
    else
      let p := set_thread p THasher libtrace_zero_thread in
      let! ' (p, ok) := if dedicated then trace_start_thread p create THasher THREAD_HASHER else Ok (p, true) in
      if negb ok then let! p := unlock p in Ok (p, -1)
      else
        let p := p_set_threads p (replicate count libtrace_zero_thread) (p_hasher p) (p_reporter p) (p_keepalive p) in
        let! ' (p, ok) := start_threads p create in
        if ok then
          let! states := aset (p_states p) (state_index THREAD_RUNNING) (Z.of_nat count) in
          let p := p_set_ctl p (p_state p) true (p_err p) (p_lock p) states in
          let! p := libtrace_change_state p STATE_RUNNING false in
          let! p := unlock p in
          Ok (p, 0)
        else
          let! p := cleanup_threads p in
          let! p := unlock p in
          Ok (p, -1).

(** ** Systems *)

(** Where the main thread is: between calls, in one of the waits of [trace_ppause]
    ([stopping] if it was called by [trace_pstop]), or stuck with the lock. *)
Inductive main_pc := MIdle | MWaitHasher (stopping : bool) | MWaitPerpkts (stopping : bool) | MWaitReporter (stopping : bool).

Record system := {
  s_trace : ptrace;
  s_perpkts : list (perpkt_locals * perpkt_pc);
  s_hasher : hasher_locals * perpkt_pc;
  s_reporter : perpkt_pc;
  s_main : main_pc;
}.

Variable kind : pread_kind.
Variable fuel : nat.
Variable tracetime : bool.

Definition set_perpkt (s : system) p i (l : perpkt_locals) (pc : perpkt_pc) : system :=
  {| s_trace := p; s_perpkts := <[i := (l, pc)]> (s_perpkts s); s_hasher := s_hasher s; s_reporter := s_reporter s; s_main := s_main s |}.
Definition set_hasher (s : system) p (h : hasher_locals) (pc : perpkt_pc) : system :=
  {| s_trace := p; s_perpkts := s_perpkts s; s_hasher := (h, pc); s_reporter := s_reporter s; s_main := s_main s |}.
Definition set_reporter (s : system) p (pc : perpkt_pc) : system :=
  {| s_trace := p; s_perpkts := s_perpkts s; s_hasher := s_hasher s; s_reporter := pc; s_main := s_main s |}.
Definition set_main (s : system) p (m : main_pc) : system :=
  {| s_trace := p; s_perpkts := s_perpkts s; s_hasher := s_hasher s; s_reporter := s_reporter s; s_main := m |}.

Local Abbreviation perpkt_round := (perpkt_round size (user := user) (perpkt_cbs := perpkt_cbs) (reporter_cbs := reporter_cbs) (eof := eof)).

Inductive step : system → system → Prop :=
| S_start s i l l' p' pc :
    s_perpkts s !! i = Some (l, PcInit) →
    perpkt_start (perpkt_cbs := perpkt_cbs) (reporter_cbs := reporter_cbs) (cfg := cfg) (s_trace s) i = Ok (p', l', pc) →
    step s (set_perpkt s p' i l' pc)
| S_reporter_start s p' pc :
    s_reporter s = PcInit →
    reporter_start (perpkt_cbs := perpkt_cbs) (reporter_cbs := reporter_cbs) (s_trace s) = Ok (p', pc) →
    step s (set_reporter s p' pc)
| S_round s i l l' p' pc :
    s_perpkts s !! i = Some (l, PcLoop) → perpkt_round kind fuel (s_trace s) i l tracetime = Ok (p', l', pc) →
    step s (set_perpkt s p' i l' pc)
| S_resume s i l p' :
    s_perpkts s !! i = Some (l, PcPaused) → waiting_state (p_state (s_trace s)) = false →
    perpkt_resume (perpkt_cbs := perpkt_cbs) (reporter_cbs := reporter_cbs) (s_trace s) i = Ok p' →
    step s (set_perpkt s p' i l PcLoop)
| S_finish s i l failed p' :
    s_perpkts s !! i = Some (l, if failed : bool then PcError else PcEof) →
    perpkt_finish (perpkt_cbs := perpkt_cbs) (reporter_cbs := reporter_cbs) (s_trace s) i l failed = Ok p' →
    step s (set_perpkt s p' i l PcDone)
| S_hasher_round s h h' halt p' pc :
    s_hasher s = (h, PcLoop) → hasher_round size (cfg := cfg) (eof := eof) (hash := hash) (s_trace s) h halt = Ok (p', h', pc) →
    step s (set_hasher s p' h' pc)
| S_hasher_resume s h p' :
    s_hasher s = (h, PcPaused) → waiting_state (p_state (s_trace s)) = false → hasher_resume (s_trace s) = Ok p' →
    step s (set_hasher s p' h PcLoop)
| S_hasher_finish s h p' :
    s_hasher s = (h, PcEof) → hasher_finish (cfg := cfg) (s_trace s) h = Ok p' → step s (set_hasher s p' h PcDone)
| S_reporter_round s p' pc :
    s_reporter s = PcLoop →
    reporter_round (perpkt_cbs := perpkt_cbs) (reporter_cbs := reporter_cbs) (cfg := cfg) (s_trace s) = Ok (p', pc) →
    step s (set_reporter s p' pc)
| S_reporter_resume s p' :
    s_reporter s = PcPaused → waiting_state (p_state (s_trace s)) = false →
    reporter_resume (perpkt_cbs := perpkt_cbs) (reporter_cbs := reporter_cbs) (s_trace s) = Ok p' →
    step s (set_reporter s p' PcLoop)
| S_reporter_finish s p' :
    s_reporter s = PcEof → reporter_finish (perpkt_cbs := perpkt_cbs) (reporter_cbs := reporter_cbs) (s_trace s) = Ok p' →
    step s (set_reporter s p' PcDone)
| S_pause s stopping p' p'' :
    s_main s = MIdle → ppause_begin (s_trace s) = Ok (p', None) → ppause_ask_hasher p' TMain = Ok p'' →
    step s (set_main s p'' (MWaitHasher stopping))
| S_pause_noop s (stopping : bool) p' p'' :
    s_main s = MIdle → ppause_begin (s_trace s) = Ok (p', Some 0) →
    (if stopping then pstop_release p' TMain else Ok p') = Ok p'' → step s (set_main s p'' MIdle)
| S_pause_hasher s stopping p' :
    s_main s = MWaitHasher stopping →
    (trace_has_dedicated_hasher (s_trace s) = true → t_state (p_hasher (s_trace s)) ≠ THREAD_RUNNING) →
    ppause_ask_perpkts (length (p_threads (s_trace s))) (s_trace s) TMain 0 = Ok p' →
    step s (set_main s p' (MWaitPerpkts stopping))
| S_pause_perpkts s stopping p' :
    s_main s = MWaitPerpkts stopping → aget (p_states (s_trace s)) (state_index THREAD_RUNNING) = Ok 0 →
    ppause_ask_reporter (s_trace s) TMain = Ok p' → step s (set_main s p' (MWaitReporter stopping))
| S_pause_reporter s (stopping : bool) p' p'' :
    s_main s = MWaitReporter stopping →
    (trace_has_reporter (reporter_cbs := reporter_cbs) (s_trace s) = Ok true → t_state (p_reporter (s_trace s)) ≠ THREAD_RUNNING) →
    ppause_end (s_trace s) = Ok p' → (if stopping then pstop_release p' TMain else Ok p') = Ok p'' →
    step s (set_main s p'' MIdle)
| S_restart s err p' ret :
    s_main s = MIdle → trace_pstart_again (s_trace s) err = Ok (p', ret) → step s (set_main s p' MIdle)
| S_join s p' p'' :
    s_main s = MIdle → Forall (λ x, x.2 = PcDone) (s_perpkts s) → join_threads (s_trace s) = Ok p' →
    join_end p' TMain = Ok p'' → step s (set_main s p'' MIdle).
End states.

(** ** What does not change states *)
Section control.
Context {D : Type}.
Local Abbreviation ptrace := (@ptrace D).
Implicit Types (p : ptrace) (i : nat).

(** The part of the trace that pausing and stopping are about. *)
Definition view (t : thread) : thread_types * thread_states := (t_type t, t_state t).
Definition ctl p := (p_state p, p_started p, p_lock p, p_states p, map view (p_threads p), view (p_hasher p), view (p_reporter p)).

Lemma ctl_set_thread p r t t' : get_thread p r = Ok t → view t' = view t → ctl (set_thread p r t') = ctl p.
Proof.
  intros Hg Hv. unfold ctl.
  destruct r as [i| | | |]; cbn [get_thread] in Hg; try (injection Hg as <-; cbn [set_thread p_set_threads p_threads p_hasher
    p_reporter p_state p_started p_lock p_states]; by rewrite ?Hv); [|done].
  cbn [set_thread p_set_threads p_threads p_hasher p_reporter p_state p_started p_lock p_states].
  destruct (p_threads p !! i) as [t0|] eqn:E; [|done]. injection Hg as ->.
  rewrite list_fmap_insert, list_insert_id; [done|]. rewrite Hv. by rewrite list_lookup_fmap, E.
Qed.

Lemma ctl_length p p' : ctl p' = ctl p → length (p_threads p') = length (p_threads p).
Proof. intros H. unfold ctl in H. rewrite <- (length_map view (p_threads p')), <- (length_map view (p_threads p)). congruence. Qed.

Lemma ctl_message p self r m p' : trace_message_thread p self r m = Ok p' → ctl p' = ctl p.
Proof. unfold trace_message_thread. intros H. obind_inv H. injection H as <-. by eapply ctl_set_thread. Qed.

Lemma ctl_message_perpkts p self m : ctl (fst (trace_message_perpkts p self m)) = ctl p.
Proof.
  unfold ctl, trace_message_perpkts. cbn [fst p_set_threads p_state p_started p_lock p_states p_threads p_hasher p_reporter].
  rewrite map_map. do 3 f_equal. apply map_ext. intros t. by destruct (is_alive (t_state t)).
Qed.

Lemma ctl_send_message (cbs : callback_set) (rcbs : option callback_set) p r type data sender :
  ctl (send_message (perpkt_cbs := cbs) (reporter_cbs := rcbs) p r type data sender) = ctl p.
Proof. unfold send_message. repeat case_match; done. Qed.

Lemma ctl_alloc p : ctl (fst (alloc_packet p)) = ctl p.
Proof. unfold alloc_packet. by destruct (p_free p). Qed.

Lemma ctl_recycle p slot : ctl (recycle p slot) = ctl p.
Proof. by destruct slot. Qed.

Lemma ctl_recycle_all slots : ∀ p, ctl (fold_left recycle slots p) = ctl p.
Proof. induction slots as [|s slots IH]; intros p; [done|]. cbn [fold_left]. by rewrite IH, ctl_recycle. Qed.

Lemma ctl_set_error p l e p' : set_error p l e = Ok p' → ctl p' = ctl p.
Proof. unfold set_error. intros H. obind_inv H. by injection H as <-. Qed.

Lemma ctl_fin_packet p l p' : fin_packet p l = Ok p' → ctl p' = ctl p.
Proof. unfold fin_packet. intros H. obind_inv H. by injection H as <-. Qed.

Lemma ctl_alloc_slots n : ∀ p packets j p' packets',
  alloc_slots n p packets j = Ok (p', packets') → ctl p' = ctl p.
Proof.
  induction n as [|n IH]; intros p packets j p' packets' H; cbn in H; [congruence|].
  pose proof (ctl_alloc p) as Ha. destruct (alloc_packet p) as [p1 l]. obind_inv H. apply IH in H. cbn in Ha. congruence.
Qed.
End control.

Local Arguments set_thread {D} p r t : simpl never.
Local Arguments get_thread {D} p r : simpl never.

Section control_rounds.
Context {D : Type} {size : D → Z} {user : nat → @ppacket D → bool} {perpkt_cbs : callback_set}
  {reporter_cbs : option callback_set} {cfg : user_configuration} {eof : Z} {hash : D → Z}.
Local Abbreviation ptrace := (@ptrace D).
Implicit Types (p : ptrace) (i : nat).

(** Rewrite with what is known about the parts of a computation. *)
Ltac ctl_solve :=
  rewrite ?ctl_send_message, ?ctl_recycle, ?ctl_recycle_all in *; cbn [fst] in *; congruence.

Lemma ctl_has_reporter_message p self m p' b :
  trace_message_reporter (reporter_cbs := reporter_cbs) p self m = Ok (p', b) → ctl p' = ctl p.
Proof.
  unfold trace_message_reporter. intros H. obind_inv H. case_match; [|congruence]. obind_inv H.
  apply ctl_message in Hstep0. congruence.
Qed.

Lemma ctl_announce p i p' : announce_first_packet (reporter_cbs := reporter_cbs) p i = Ok p' → ctl p' = ctl p.
Proof.
  unfold announce_first_packet. intros H. obind_inv H. case_match; [congruence|]. obind_inv H. destruct a0 as [p1 b].
  apply ctl_has_reporter_message in Hstep0.
  pose proof (ctl_message_perpkts p1 (TPerpkt i) (with_sender p1 (TPerpkt i) (plain_message MESSAGE_FIRST_PACKET))) as Hm.
  unfold plain_message in Hm. destruct (trace_message_perpkts _ _ _) as [p2 z]. obind_inv H. injection H as <-.
  rewrite (ctl_set_thread p2 (TPerpkt i) a0); [|done|done]. ctl_solve.
Qed.

Lemma ctl_dispatch_packet p i slot tracetime p' slot' ret :
  dispatch_packet (user := user) (perpkt_cbs := perpkt_cbs) (reporter_cbs := reporter_cbs) p i slot tracetime = Ok (p', slot', ret) →
  ctl p' = ctl p.
Proof.
  unfold dispatch_packet. destruct slot as [l|]; [|done]. intros H. obind_inv H.
  destruct (0 <? pp_error a).
  - assert (∃ p1 delay, (if tracetime then next_delay p else (p, 0)) = (p1, delay) ∧ ctl p1 = ctl p) as (p1 & delay & E & H1).
    { destruct tracetime; [|by do 2 eexists]. unfold next_delay. destruct (p_delays p); by do 2 eexists. }
    rewrite E in H. clear E. destruct (delay =? READ_MESSAGE); [congruence|]. obind_inv H.
    assert (ctl (set_thread p1 (TPerpkt i) (t_count_accepted a0)) = ctl p1) as H2 by by eapply ctl_set_thread.
    set (p2 := set_thread p1 _ _) in *. destruct (message_packet perpkt_cbs).
    + assert (∀ e, ctl (log_event p2 e) = ctl p2) as H3 by done.
      destruct (user i a); obind_inv H; injection H as <- <- <-.
      * apply ctl_fin_packet in Hstep1. rewrite H3 in Hstep1. congruence.
      * injection Hstep1 as <-. rewrite H3. congruence.
    + obind_inv H. apply ctl_fin_packet in Hstep1. congruence.
  - obind_inv H. injection H as <- <- <-. by rewrite ctl_send_message.
Qed.

Lemma ctl_dispatch_loop n : ∀ p i packets empty offset tracetime p' packets' empty' offset' ret,
  dispatch_loop (user := user) (perpkt_cbs := perpkt_cbs) (reporter_cbs := reporter_cbs) n p i packets empty offset tracetime
    = Ok (p', packets', empty', offset', ret) → ctl p' = ctl p.
Proof.
  induction n as [|n IH]; intros * H; cbn in H; [congruence|].
  obind_inv H. obind_inv H. destruct a0 as [[p1 slot] r]. apply ctl_dispatch_packet in Hstep0. obind_inv H.
  destruct (r =? 0); [|obind_inv H; congruence].
  destruct slot; [|apply IH in H; congruence]. destruct (empty =? offset); [apply IH in H; congruence|].
  obind_inv H. obind_inv H. apply IH in H. congruence.
Qed.

Lemma ctl_hasher_read_loop n : ∀ p i packets j p' packets' ret,
  hasher_read_loop n p i packets j = Ok (p', packets', ret) → ctl p' = ctl p.
Proof.
  induction n as [|n IH]; intros * H; cbn in H; [congruence|].
  obind_inv H. obind_inv H. rename a0 into t. pose proof (ctl_recycle p a) as Hr. set (p1 := recycle p a) in *.
  destruct (t_rbuffer t) as [|l ring]; [obind_inv H; congruence|]. obind_inv H. obind_inv H. obind_inv H. obind_inv H.
  destruct ((a1 <=? 0) && negb (a3 =? READ_TICK)).
  - obind_inv H. injection H as <- <- <-. rewrite (ctl_set_thread p1 (TPerpkt i) t); [done|done|].
    destruct (a1 =? READ_MESSAGE); [|obind_inv Hstep5]; by injection Hstep5 as <-.
  - apply IH in H. rewrite (ctl_set_thread p1 (TPerpkt i) t) in H; [congruence|done|done].
Qed.

Lemma ctl_hasher_read p i packets nb p' packets' ret :
  trace_pread_packet_hasher_thread p i packets nb = Ok (p', packets', ret) → ctl p' = ctl p.
Proof.
  unfold trace_pread_packet_hasher_thread. intros H. obind_inv H. destruct (t_format_data a); [obind_inv H; congruence|].
  obind_inv H. obind_inv H. pose proof (ctl_recycle p a0) as Hr. set (p1 := recycle p a0) in *.
  destruct (t_rbuffer a1) as [|l ring]; [done|]. obind_inv H. obind_inv H.
  assert (ctl (set_thread p1 (TPerpkt i) (t_set_rbuffer a1 ring)) = ctl p1) as Hs by by eapply ctl_set_thread.
  case_match; [congruence|]. apply ctl_hasher_read_loop in H. congruence.
Qed.

Lemma ctl_read_packet p l p' ret : read_packet size (eof := eof) p l = Ok (p', ret) → ctl p' = ctl p.
Proof.
  unfold read_packet. intros H. obind_inv H. case_match; [obind_inv H; apply ctl_set_error in Hstep0; congruence|].
  destruct (p_input p); [obind_inv H; apply ctl_set_error in Hstep0; congruence|]. by injection H as <- <-.
Qed.

Lemma ctl_pread kind p i packets p' packets' ret :
  pread size (eof := eof) kind p i packets = Ok (p', packets', ret) → ctl p' = ctl p.
Proof.
  unfold pread. intros H. destruct kind; [|by apply ctl_hasher_read in H]. obind_inv H. destruct a; [|done].
  obind_inv H. destruct a as [p1 r]. apply ctl_read_packet in Hstep0. congruence.
Qed.

Lemma ctl_perpkt_packets kind p i s tracetime p' s' pc :
  perpkt_packets size (user := user) (perpkt_cbs := perpkt_cbs) (reporter_cbs := reporter_cbs) (eof := eof) kind p i s tracetime
    = Ok (p', s', pc) → ctl p' = ctl p ∧ (pc = PcLoop ∨ pc = PcEof ∨ pc = PcError).
Proof.
  unfold perpkt_packets. intros H. obind_inv H. destruct a as [p1 s1].
  assert (ctl p1 = ctl p) as H1.
  { clear H. unfold refill_and_read in Hstep. destruct (_ =? _); [|congruence]. obind_inv Hstep. destruct a as [p2 packets].
    assert (ctl p2 = ctl p) as H2 by (destruct (_ =? _); [congruence|by apply ctl_alloc_slots in Hstep0]).
    obind_inv Hstep. destruct a as [[p3 packets3] nb]. apply ctl_pread in Hstep1. congruence. }
  destruct (0 <? l_nb_packets s1).
  2:{ destruct (l_nb_packets s1 =? READ_EOF); [injection H as <- <- <-; auto|].
      destruct (l_nb_packets s1 =? READ_MESSAGE); injection H as <- <- <-; auto. }
  obind_inv H. obind_inv H. obind_inv H. obind_inv H. destruct a2 as [[[[p3 packets] empty] offset] r].
  apply ctl_dispatch_loop in Hstep3. injection H as <- <- <-. split; [|by left].
  assert (ctl a1 = ctl p1) as H3 by (destruct (0 <? a0); [by apply ctl_announce in Hstep2|congruence]). congruence.
Qed.

Lemma ctl_verify_no_packets n : ∀ p i slot p' slot', verify_no_packets n p i slot = Ok (p', slot') → ctl p' = ctl p.
Proof.
  induction n as [|n IH]; intros * H; cbn in H; [done|]. obind_inv H. destruct (t_rbuffer a); [congruence|].
  obind_inv H. destruct a0 as [[p1 packets] ret]. apply ctl_hasher_read in Hstep0.
  repeat obind_inv H. apply IH in H. congruence.
Qed.

Lemma ctl_drain_queue n : ∀ p i slot p' slot' ret,
  drain_queue (user := user) (perpkt_cbs := perpkt_cbs) (reporter_cbs := reporter_cbs) n p i slot = Ok (p', slot', ret) → ctl p' = ctl p.
Proof.
  induction n as [|n IH]; intros * H; cbn in H; [done|]. obind_inv H.
  destruct (queue_is_empty a); [congruence|]. rename H into K.
  obind_inv K. destruct a0 as [[p1 packets] r]. apply ctl_hasher_read in Hstep0. obind_inv K.
  destruct (r =? 1); [|destruct (r =? READ_MESSAGE)].
  - obind_inv K. obind_inv K. obind_inv K. destruct a3 as [[p3 slot3] r3]. apply ctl_dispatch_packet in Hstep4.
    assert (ctl a2 = ctl p1) as H2 by (destruct (0 <? a1); [by apply ctl_announce in Hstep3|congruence]).
    obind_inv K. destruct slot3; [apply IH in K; congruence|].
    pose proof (ctl_alloc p3) as Ha. destruct (alloc_packet p3) as [p4 l]. apply IH in K. cbn in Ha. congruence.
  - apply IH in K. congruence.
  - obind_inv K. obind_inv K. destruct a2 as [p2 slot2]. apply ctl_verify_no_packets in Hstep3. congruence.
Qed.
End control_rounds.
