(* ===== verification/ParQuiesce.v ===== *)
(** * A paused trace is at rest: lib/trace_parallel.c

    In every state that the system of ParStates can reach, the counters of the trace
    agree with the states of its per-packet threads, and when [trace_ppause] has
    counted them down, or the trace is paused, no per-packet thread is doing
    anything. *)

From S2P Require Import Prelude DNodes Trace ParConfig Parallel ParThreads ParStates.
Local Open Scope Z_scope.
Local Open Scope outcome_scope.

Local Arguments set_thread {D} p r t : simpl never.
Local Arguments get_thread {D} p r : simpl never.
Local Arguments thread_change_state {D} p r new_state need_lock : simpl never.

(** ** Counters *)
Definition count_state (s : thread_states) (ts : list thread_states) : Z := Zlen (filter (.= s) ts).
Definition counts (ts : list thread_states) : list Z :=
  map (λ s, count_state s ts) [THREAD_RUNNING; THREAD_FINISHING; THREAD_FINISHED; THREAD_PAUSED].

Lemma count_state_nil s : count_state s [] = 0.
Proof. done. Qed.
Lemma count_state_cons s t ts : count_state s (t :: ts) = (if bool_decide (t = s) then 1 else 0) + count_state s ts.
Proof.
  unfold count_state. rewrite filter_cons. case_bool_decide; [rewrite decide_True by done|by rewrite decide_False by done].
  unfold Zlen. cbn [length]. lia.
Qed.
Lemma count_state_nonneg s ts : 0 ≤ count_state s ts.
Proof. unfold count_state, Zlen. lia. Qed.
Lemma count_state_le s ts : count_state s ts ≤ Zlen ts.
Proof. unfold count_state, Zlen. pose proof (length_filter (.= s) ts). lia. Qed.

Lemma count_state_insert s ts i old new :
  ts !! i = Some old →
  count_state s (<[i := new]> ts) =
    count_state s ts - (if bool_decide (old = s) then 1 else 0) + (if bool_decide (new = s) then 1 else 0).
Proof.
  revert i. induction ts as [|t ts IH]; intros [|i] H; try done; cbn in H.
  - injection H as ->. change (<[0%nat := new]> (old :: ts)) with (new :: ts). rewrite !count_state_cons. lia.
  - change (<[S i := new]> (t :: ts)) with (t :: <[i := new]> ts). rewrite !count_state_cons, (IH i) by done. lia.
Qed.

Lemma count_state_zero s ts : count_state s ts = 0 → Forall (λ t, t ≠ s) ts.
Proof.
  induction ts as [|t ts IH]; intros H; [done|]. rewrite count_state_cons in H. pose proof (count_state_nonneg s ts).
  case_bool_decide; [lia|]. constructor; [done|]. apply IH. lia.
Qed.

Lemma count_state_full s ts : count_state s ts = Zlen ts → Forall (λ t, t = s) ts.
Proof.
  induction ts as [|t ts IH]; intros H; [done|]. rewrite count_state_cons in H. pose proof (count_state_le s ts).
  unfold Zlen in *. cbn [length] in H. case_bool_decide; [|lia]. constructor; [done|]. apply IH. lia.
Qed.

Lemma counts_aget ts s : aget (counts ts) (state_index s) = Ok (count_state s ts).
Proof. by destruct s. Qed.

(** The two updates of [thread_change_state]. *)
Lemma counts_move ts i old new :
  ts !! i = Some old →
  (let! states := add_state (counts ts) old (-1) in add_state states new 1) = Ok (counts (<[i := new]> ts)).
Proof.
  intros H. unfold add_state. rewrite counts_aget. unfold counts. cbn [map].
  rewrite !(count_state_insert _ ts i old new) by done.
  destruct old, new;
  generalize (count_state THREAD_RUNNING ts), (count_state THREAD_FINISHING ts), (count_state THREAD_FINISHED ts),
    (count_state THREAD_PAUSED ts);
    intros a b c d; cbv -[Z.add Z.sub]; f_equal; repeat (apply f_equal2; [lia|]); reflexivity.
Qed.

(** ** The trace *)
Section quiesce.
Context {D : Type}.
Local Abbreviation ptrace := (@ptrace D).
Implicit Types (p : ptrace) (i : nat) (r : thread_ref).

Definition states_of p : list thread_states := map t_state (p_threads p).

(** The lock is free, the counters are right, and the trace is finished only if its
    per-packet threads are. *)
Record ctl_ok p : Prop := {
  co_lock : p_lock p = false;
  co_types : Forall (λ t, t_type t = THREAD_PERPKT) (p_threads p);
  co_states : p_states p = counts (states_of p);
  co_hasher : t_type (p_hasher p) ≠ THREAD_PERPKT;
  co_reporter : t_type (p_reporter p) ≠ THREAD_PERPKT;
  co_finished : p_state p = STATE_FINISHED → Forall (λ t, t = THREAD_FINISHED) (states_of p);
}.

Lemma ctl_states p p' : ctl p' = ctl p → states_of p' = states_of p.
Proof.
  intros H. unfold states_of. assert (map view (p_threads p') = map view (p_threads p)) as Hv by (unfold ctl in H; congruence).
  apply (f_equal (map snd)) in Hv. by rewrite !map_map in Hv.
Qed.

(** What [ctl_ok] depends on, the state of the trace apart. *)
Definition shape p := (p_states p, map view (p_threads p), view (p_hasher p), view (p_reporter p)).

Lemma ctl_ok_shape p p' :
  shape p' = shape p → p_lock p' = false → (p_state p' = STATE_FINISHED → p_state p = STATE_FINISHED) →
  ctl_ok p → ctl_ok p' ∧ states_of p' = states_of p.
Proof.
  intros H Hl Hf [h1 h2 h3 h4 h5 h6]. unfold shape in H. injection H as Hst Hv Hh Hh' Hr Hr'.
  assert (states_of p' = states_of p) as Hs.
  { apply (f_equal (map snd)) in Hv. by rewrite !map_map in Hv. }
  split; [|done]. split; rewrite ?Hs; try congruence; [|auto].
  apply (f_equal (map fst)) in Hv. rewrite !map_map in Hv.
  apply (proj1 (List.Forall_map t_type (λ ty, ty = THREAD_PERPKT) (p_threads p'))).
  change (map t_type (p_threads p') = map t_type (p_threads p)) in Hv. rewrite Hv.
  by apply (proj2 (List.Forall_map t_type (λ ty, ty = THREAD_PERPKT) (p_threads p))).
Qed.

Lemma ctl_shape p p' : ctl p' = ctl p → shape p' = shape p.
Proof. unfold ctl, shape. congruence. Qed.

Lemma ctl_ok_ctl p p' : ctl p' = ctl p → ctl_ok p → ctl_ok p'.
Proof.
  intros H Hok. pose proof (co_lock p Hok). apply (ctl_ok_shape p); [by apply ctl_shape| | |done]; unfold ctl in H; congruence.
Qed.

Lemma lock_change p r st :
  (let! p := lock p in let! p := thread_change_state p r st false in unlock p) = thread_change_state p r st true.
Proof.
  unfold thread_change_state. rewrite ?obind_assoc. destruct (lock p) as [p1|]; [|done]. cbn [obind].
  destruct (get_thread p1 r) as [t|]; [|done]. cbn [obind].
  rewrite !obind_assoc. destruct (if bool_decide _ then _ else _) as [states|]; [|done]. cbn [obind].
  rewrite !obind_assoc. destruct (aget states _); [|done]. cbn [obind]. rewrite !obind_assoc.
  by destruct (if _ =? _ then _ else _).
Qed.

(** What a change of state does to the states of the per-packet threads. *)
Definition moved (r : thread_ref) (st : thread_states) (ts : list thread_states) : list thread_states :=
  match r with TPerpkt i => <[i := st]> ts | _ => ts end.

Definition is_worker (r : thread_ref) : bool := match r with TPerpkt _ | THasher | TReporter => true | _ => false end.

Lemma thread_change_state_ok p r st p' :
  ctl_ok p → is_worker r = true → (∀ i, r = TPerpkt i → p_state p = STATE_FINISHED → st = THREAD_FINISHED) →
  thread_change_state p r st true = Ok p' →
  ctl_ok p' ∧ states_of p' = moved r st (states_of p) ∧ (p_state p' = p_state p ∨ p_state p' = STATE_FINISHED).
Proof.
  intros Hok Hw Hst H. unfold thread_change_state in H. unfold lock in H. rewrite (co_lock p Hok) in H. cbn [obind pthread_mutex_lock] in H.
  set (p1 := p_set_ctl p _ _ _ true _) in H. obind_inv H. rename a into t.
  set (p2 := set_thread p1 r (t_set_state t st)) in H. obind_inv H. rename a into states.
  assert (states_of p2 = moved r st (states_of p) ∧ states = counts (states_of p2) ∧ Zlen (p_threads p2) = Zlen (p_threads p) ∧
          Forall (λ t, t_type t = THREAD_PERPKT) (p_threads p2) ∧ t_type (p_hasher p2) ≠ THREAD_PERPKT ∧
          t_type (p_reporter p2) ≠ THREAD_PERPKT ∧ p_state p2 = p_state p ∧ p_lock p2 = true) as (Hs & -> & Hlen & Hty & Hh & Hr & Hp2 & Hl).
  { destruct Hok as [h1 h2 h3 h4 h5 h6]. change (p_states p2) with (p_states p2) in *.
    destruct r as [i| | | |]; try discriminate Hw; unfold p2, set_thread, p1 in *; unfold get_thread in Hstep; cbn in Hstep.
    - destruct (p_threads p !! i) as [t0|] eqn:E; [|done]. injection Hstep as <-.
      cbn in Hstep0. rewrite (Forall_lookup_1 _ _ _ _ h2 E) in Hstep0. cbn [bool_decide] in Hstep0.
      rewrite bool_decide_true in Hstep0 by done. rewrite h3 in Hstep0.
      assert (states_of p !! i = Some (t_state t0)) as Ei by (unfold states_of; by rewrite list_lookup_fmap, E).
      rewrite (counts_move _ i _ st Ei) in Hstep0. injection Hstep0 as <-.
      assert (states_of (p_set_threads (p_set_ctl p (p_state p) (p_started p) (p_err p) true (p_states p))
        (<[i := t_set_state t0 st]> (p_threads p)) (p_hasher p) (p_reporter p) (p_keepalive p)) = <[i := st]> (states_of p)) as Hs.
      { unfold states_of. cbn [p_set_threads p_threads]. by rewrite list_fmap_insert. }
      cbn [p_set_threads p_set_ctl p_threads p_hasher p_reporter p_state p_lock moved]. split; [exact Hs|]. split; [f_equal; symmetry; exact Hs|].
      split; [unfold Zlen; by rewrite length_insert|]. split; [|done]. apply Forall_insert; [done|].
      cbn. by apply (Forall_lookup_1 _ _ _ _ h2 E).
    - injection Hstep as <-. cbn in Hstep0. rewrite bool_decide_false in Hstep0 by done. injection Hstep0 as <-. done.
    - injection Hstep as <-. cbn in Hstep0. rewrite bool_decide_false in Hstep0 by done. injection Hstep0 as <-. done. }
  rewrite counts_aget in H. cbn [obind] in H.
  assert (p_lock p2 = true → ∀ st0 p3, (let! p := Ok (p_set_ctl p2 st0 (p_started p2) (p_err p2) (p_lock p2) (counts (states_of p2))) in unlock p)
    = Ok p3 → p_state p3 = st0 ∧ p_lock p3 = false ∧ p_threads p3 = p_threads p2 ∧ p_states p3 = counts (states_of p2) ∧
    p_hasher p3 = p_hasher p2 ∧ p_reporter p3 = p_reporter p2) as Hunlock.
  { intros K st0 p3. unfold unlock. cbn. rewrite K. cbn. intros [= <-]. done. }
  assert (∀ st0 p3, p_state p3 = st0 → p_lock p3 = false → p_threads p3 = p_threads p2 → p_states p3 = counts (states_of p2) →
    p_hasher p3 = p_hasher p2 → p_reporter p3 = p_reporter p2 →
    (st0 = STATE_FINISHED → Forall (λ t, t = THREAD_FINISHED) (states_of p2)) → ctl_ok p3 ∧ states_of p3 = moved r st (states_of p)) as Hfin.
  { intros st0 p3 e1 e2 e3 e4 e5 e6 e7.
    assert (states_of p3 = states_of p2) as E by (unfold states_of; by rewrite e3). split; [|congruence].
    split; rewrite ?E; try congruence. intros K. apply e7. congruence. }
  unfold perpkt_thread_count in H. cbn [p_set_ctl p_threads] in H.
  destruct (count_state THREAD_FINISHED (states_of p2) =? Zlen (p_threads p2)) eqn:E.
  - unfold libtrace_change_state in H. cbn [obind p_set_ctl p_started p_err p_lock p_states] in H.
    apply Hunlock in H; [|done]. destruct H as (e1 & e2 & e3 & e4 & e5 & e6).
    destruct (Hfin STATE_FINISHED p') as [? ?]; auto.
    intros _. apply count_state_full. apply Z.eqb_eq in E. rewrite E. unfold states_of, Zlen. by rewrite length_map.
  - apply Hunlock in H; [|done]. destruct H as (e1 & e2 & e3 & e4 & e5 & e6).
    destruct (Hfin (p_state p2) p') as [? ?]; auto.
    + intros K. rewrite Hs. rewrite Hp2 in K. pose proof (co_finished p Hok K) as Hf.
      destruct r as [i| | | |]; try done. cbn [moved]. apply Forall_insert; [done|]. by apply (Hst i).
    + split; [done|]. split; [done|]. left. congruence.
Qed.
End quiesce.

(** ** The rounds of the threads *)
Section rounds.
Context {D : Type} {size : D → Z} {user : nat → @ppacket D → bool} {perpkt_cbs : callback_set}
  {reporter_cbs : option callback_set} {cfg : user_configuration} {eof : Z} {hash : D → Z}.
Local Abbreviation ptrace := (@ptrace D).
Implicit Types (p : ptrace) (i : nat).

(** The only change of states between two traces is that of the thread [r]. *)
Definition moves p (r : thread_ref) (st : thread_states) p' : Prop :=
  ∃ p1 p2, ctl p1 = ctl p ∧ thread_change_state p1 r st true = Ok p2 ∧ ctl p' = ctl p2.

Lemma locked_moves p p1 r st p' :
  ctl p1 = ctl p →
  (let! p := lock p1 in let! p := thread_change_state p r st false in unlock p) = Ok p' → moves p r st p'.
Proof. intros H1 H. rewrite lock_change in H. by exists p1, p'. Qed.

Lemma ctl_ring_write p i l p' : ring_write (cfg := cfg) p i l = Ok p' → ctl p' = ctl p.
Proof.
  unfold ring_write. intros H. obind_inv H. destruct (_ <? _); [|done]. injection H as <-. by eapply ctl_set_thread.
Qed.

Lemma perpkt_pause_effect fuel p i s p' s' pc :
  perpkt_pause (user := user) (perpkt_cbs := perpkt_cbs) (reporter_cbs := reporter_cbs) fuel p i s = Ok (p', s', pc) →
  pc = PcError ∧ ctl p' = ctl p ∨ pc = PcPaused ∧ moves p (TPerpkt i) THREAD_PAUSED p'.
Proof.
  unfold perpkt_pause. intros H. set (p1 := send_message p _ _ _ _) in H.
  assert (ctl p1 = ctl p) as H1 by apply ctl_send_message. obind_inv H. destruct a as [[[[p2 packets] empty] offset] ret].
  apply ctl_dispatch_loop in Hstep. obind_inv H. pose proof (ctl_alloc p2) as H3. destruct (alloc_packet p2) as [p3 l]. cbn in H3.
  obind_inv H. destruct a0 as [[p4 slot] r].
  assert (ctl p4 = ctl p3) as H4 by (destruct (trace_has_dedicated_hasher p3); [by apply ctl_drain_queue in Hstep1|congruence]).
  pose proof (ctl_recycle p4 slot) as H5. set (p5 := recycle p4 slot) in *. clearbody p5 p1.
  destruct (r =? -1); [injection H as <- <- <-; left; split; [done|congruence]|].
  right. obind_inv H. obind_inv H. obind_inv H. injection H as <- <- <-. split; [done|].
  apply (locked_moves p p5); [congruence|]. rewrite Hstep2. cbn [obind]. rewrite Hstep3. done.
Qed.

Lemma perpkt_round_effect kind fuel p i s tracetime p' s' pc :
  perpkt_round size (user := user) (perpkt_cbs := perpkt_cbs) (reporter_cbs := reporter_cbs) (eof := eof) kind fuel p i s tracetime
    = Ok (p', s', pc) →
  (pc = PcLoop ∨ pc = PcEof ∨ pc = PcError) ∧ ctl p' = ctl p ∨ pc = PcPaused ∧ moves p (TPerpkt i) THREAD_PAUSED p'.
Proof.
  unfold perpkt_round. intros H. obind_inv H. destruct (t_messages a) as [|m ms].
  { apply ctl_perpkt_packets in H. tauto. }
  set (p1 := set_thread p _ _) in H. assert (ctl p1 = ctl p) as H1 by by eapply ctl_set_thread. clearbody p1.
  destruct (m_code m =? MESSAGE_DO_PAUSE).
  - apply perpkt_pause_effect in H as [[-> H]|[-> (p2 & p3 & H2 & H3 & H4)]]; [left; split; [auto|congruence]|].
    right. split; [done|]. exists p2, p3. split; [congruence|done].
  - left. destruct (m_code m =? MESSAGE_DO_STOP); injection H as <- <- <-; rewrite ?ctl_send_message; auto.
Qed.

Lemma perpkt_start_effect p i p' s' pc :
  perpkt_start (perpkt_cbs := perpkt_cbs) (reporter_cbs := reporter_cbs) (cfg := cfg) p i = Ok (p', s', pc) →
  p_lock p = false → pc = PcLoop ∧ ctl p' = ctl p ∨ pc = PcDone ∧ moves p (TPerpkt i) THREAD_FINISHED p'.
Proof.
  unfold perpkt_start. intros H Hl. obind_inv H. rename Hstep into Hlock. obind_inv H. destruct (bool_decide _).
  - right. obind_inv H. obind_inv H. injection H as <- <- <-. split; [done|]. apply (locked_moves p p); [done|].
    rewrite Hlock. cbn [obind]. by rewrite Hstep0.
  - left. obind_inv H. obind_inv H. destruct a2 as [p2 packets]. injection H as <- <- <-. split; [done|].
    rewrite !ctl_send_message. apply ctl_alloc_slots in Hstep1. rewrite Hstep1. unfold lock in Hlock. rewrite Hl in Hlock.
    injection Hlock as <-. unfold unlock in Hstep0. injection Hstep0 as <-. unfold ctl. cbn. by rewrite Hl.
Qed.

Lemma perpkt_finish_effect p i s failed p' :
  perpkt_finish (perpkt_cbs := perpkt_cbs) (reporter_cbs := reporter_cbs) p i s failed = Ok p' →
  moves p (TPerpkt i) THREAD_FINISHED p'.
Proof.
  unfold perpkt_finish. intros H. set (p1 := if failed then _ else _) in H.
  assert (ctl p1 = ctl p) as H1 by (unfold p1; destruct failed; [apply ctl_message_perpkts|done]). clearbody p1.
  obind_inv H. obind_inv H. eexists _, a. split; [|split; [exact Hstep|]].
  - by rewrite ctl_recycle_all, !ctl_send_message.
  - destruct a0; [|congruence]. obind_inv H. destruct a0 as [p3 b]. apply ctl_has_reporter_message in Hstep1. congruence.
Qed.

Lemma perpkt_resume_effect p i p' :
  perpkt_resume (perpkt_cbs := perpkt_cbs) (reporter_cbs := reporter_cbs) p i = Ok p' → moves p (TPerpkt i) THREAD_RUNNING p'.
Proof.
  unfold perpkt_resume. intros H. obind_inv H. obind_inv H. obind_inv H. injection H as <-.
  exists p, a1. split; [done|]. rewrite <- lock_change, Hstep. cbn [obind]. rewrite Hstep0. cbn [obind]. rewrite ctl_send_message. done.
Qed.

(** ** The hasher and the reporter *)
Lemma ctl_write_ticks n : ∀ p i order p', write_ticks (cfg := cfg) n p i order = Ok p' → ctl p' = ctl p.
Proof.
  induction n as [|n IH]; intros p i order p' H; cbn in H; [congruence|].
  pose proof (ctl_alloc p) as Ha. destruct (alloc_packet p) as [p1 l]. cbn in Ha. obind_inv H. obind_inv H.
  apply ctl_ring_write in Hstep0. apply IH in H. rewrite H, Hstep0. done.
Qed.

Lemma ctl_hash_and_queue p l p' : hash_and_queue (cfg := cfg) (hash := hash) p l = Ok p' → ctl p' = ctl p.
Proof.
  unfold hash_and_queue. intros H. obind_inv H. obind_inv H. obind_inv H. obind_inv H. obind_inv H. obind_inv H.
  apply ctl_ring_write in Hstep4. destruct (_ || _); [injection H as <-|apply ctl_write_ticks in H; rewrite H]; exact Hstep4.
Qed.

Lemma hasher_round_effect p h halt p' h' pc :
  hasher_round size (cfg := cfg) (eof := eof) (hash := hash) p h halt = Ok (p', h', pc) →
  ctl p' = ctl p ∨ moves p THasher THREAD_PAUSED p'.
Proof.
  unfold hasher_round. intros H.
  destruct (if h_skipped h then (p, h_packet h) else _) as [p1 packet] eqn:E.
  assert (ctl p1 = ctl p) as H1.
  { destruct (h_skipped h); [congruence|]. pose proof (ctl_alloc p) as Ha. destruct (alloc_packet p). cbn in Ha. congruence. }
  clear E. destruct packet as [l|]; [|done]. destruct halt.
  { obind_inv H. apply ctl_set_error in Hstep. left. congruence. }
  destruct (t_messages (p_hasher p1)) as [|m ms].
  { left. obind_inv H. destruct a as [p2 ret]. apply ctl_read_packet in Hstep. destruct (ret <? 1); [congruence|].
    obind_inv H. apply ctl_hash_and_queue in Hstep0. congruence. }
  set (p2 := set_thread p1 _ _) in H. assert (ctl p2 = ctl p1) as H2 by (unfold p2; by eapply ctl_set_thread). clearbody p2.
  destruct (m_code m =? MESSAGE_DO_PAUSE).
  - right. obind_inv H. obind_inv H. obind_inv H. injection H as <- <- <-. apply (locked_moves p p2); [congruence|].
    rewrite Hstep. cbn [obind]. by rewrite Hstep0.
  - left. destruct (m_code m =? MESSAGE_DO_STOP); [|congruence]. obind_inv H. obind_inv H. obind_inv H.
    apply ctl_set_error in Hstep1. congruence.
Qed.

Lemma ctl_hasher_broadcast n : ∀ p l i p', hasher_broadcast (cfg := cfg) n p l i = Ok p' → ctl p' = ctl p.
Proof.
  induction n as [|n IH]; intros p l i p' H; cbn [hasher_broadcast] in H; [congruence|]. obind_inv H. destruct a as [p1 b].
  assert (ctl p1 = ctl p) as H1.
  { clear H. destruct (bool_decide _); [congruence|]. pose proof (ctl_alloc p) as Ha. destruct (alloc_packet p). cbn in Ha.
    obind_inv Hstep. obind_inv Hstep. apply ctl_set_error in Hstep1. congruence. }
  obind_inv H. obind_inv H. obind_inv H. obind_inv H. apply IH in H. rewrite H, <- H1. clear H H1 Hstep.
  unfold lock in Hstep0. destruct (p_lock p1) eqn:Hl; [done|]. injection Hstep0 as <-.
  assert (ctl a1 = ctl (p_set_ctl p1 (p_state p1) (p_started p1) (p_err p1) true (p_states p1))) as H3.
  { destruct (bool_decide _); [congruence|]. by apply ctl_ring_write in Hstep2. }
  unfold unlock in Hstep3. assert (p_lock a1 = true) as Hl1 by (unfold ctl in H3; cbn in H3; congruence).
  rewrite Hl1 in Hstep3. injection Hstep3 as <-. unfold ctl in *. cbn in *. congruence.
Qed.

Lemma hasher_finish_effect p h p' : hasher_finish (cfg := cfg) p h = Ok p' → moves p THasher THREAD_FINISHED p'.
Proof.
  unfold hasher_finish. intros H. destruct (h_packet h); [|done]. obind_inv H. apply ctl_hasher_broadcast in Hstep. by exists a, p'.
Qed.

Lemma reporter_round_effect p p' pc :
  reporter_round (perpkt_cbs := perpkt_cbs) (reporter_cbs := reporter_cbs) (cfg := cfg) p = Ok (p', pc) →
  ctl p' = ctl p ∨ moves p TReporter THREAD_PAUSED p'.
Proof.
  unfold reporter_round. intros H. destruct (trace_has_finished p); [left; congruence|].
  obind_inv H. destruct a as [[[p1 code] data] sender].
  assert (ctl p1 = ctl p) as H1.
  { clear H. destruct (t_messages (p_reporter p)); [destruct (reporter_polling cfg); [congruence|done]|].
    injection Hstep as <- _ _ _. by eapply ctl_set_thread. }
  destruct (code =? MESSAGE_POST_REPORTER); [left; by injection H as <- <-|].
  destruct (code =? MESSAGE_DO_PAUSE).
  - right. set (p2 := send_message _ _ _ _ _) in H. assert (ctl p2 = ctl p1) as H2 by (unfold p2; rewrite ctl_send_message; done).
    clearbody p2. obind_inv H. obind_inv H. obind_inv H. injection H as <- <-. apply (locked_moves p p2); [congruence|].
    rewrite Hstep0. cbn [obind]. by rewrite Hstep1.
  - left. injection H as <- <-. by rewrite ctl_send_message.
Qed.

Lemma reporter_start_effect p p' pc :
  reporter_start (perpkt_cbs := perpkt_cbs) (reporter_cbs := reporter_cbs) p = Ok (p', pc) → p_lock p = false →
  ctl p' = ctl p ∨ moves p TReporter THREAD_FINISHED p'.
Proof.
  unfold reporter_start. intros H Hl. obind_inv H. destruct (bool_decide _).
  - right. obind_inv H. obind_inv H. injection H as <- <-. apply (locked_moves p p); [done|]. rewrite Hstep. cbn [obind].
    by rewrite Hstep0.
  - left. obind_inv H. injection H as <- <-. rewrite !ctl_send_message. unfold lock in Hstep. rewrite Hl in Hstep.
    injection Hstep as <-. injection Hstep0 as <-. unfold ctl. cbn. by rewrite Hl.
Qed.

Lemma reporter_resume_effect p p' :
  reporter_resume (perpkt_cbs := perpkt_cbs) (reporter_cbs := reporter_cbs) p = Ok p' → moves p TReporter THREAD_RUNNING p'.
Proof.
  unfold reporter_resume. intros H. obind_inv H. obind_inv H. obind_inv H. injection H as <-.
  exists p, a1. split; [done|]. rewrite <- lock_change, Hstep. cbn [obind]. rewrite Hstep0. cbn [obind]. rewrite ctl_send_message. done.
Qed.

Lemma reporter_finish_effect p p' :
  reporter_finish (perpkt_cbs := perpkt_cbs) (reporter_cbs := reporter_cbs) p = Ok p' → moves p TReporter THREAD_FINISHED p'.
Proof. unfold reporter_finish. intros H. eexists _, p'. split; [|split; [exact H|done]]. rewrite !ctl_send_message. done. Qed.
End rounds.

(** ** The invariant of the system *)
Section invariant.
Context {D : Type}.
Local Abbreviation ptrace := (@ptrace D).
Local Abbreviation system := (@system D).
Implicit Types (p : ptrace) (i : nat) (s : system).

Definition state_of_pc (pc : perpkt_pc) : thread_states :=
  match pc with PcPaused => THREAD_PAUSED | PcDone => THREAD_FINISHED | _ => THREAD_RUNNING end.

Definition quiet p : Prop := Forall (λ t, t ≠ THREAD_RUNNING) (states_of p).

Definition main_ok p (m : main_pc) : Prop :=
  match m with
  | MIdle => p_state p = STATE_PAUSED → quiet p
  | MWaitHasher _ | MWaitPerpkts _ => p_state p = STATE_PAUSING ∨ p_state p = STATE_FINISHED
  | MWaitReporter _ => (p_state p = STATE_PAUSING ∨ p_state p = STATE_FINISHED) ∧ quiet p
  end.

Record sys_ok s : Prop := {
  so_ctl : ctl_ok (s_trace s);
  so_pcs : states_of (s_trace s) = map (λ x, state_of_pc x.2) (s_perpkts s);
  so_main : main_ok (s_trace s) (s_main s);
}.

Lemma main_ok_states p p' m :
  states_of p' = states_of p → (p_state p' = p_state p ∨ p_state p' = STATE_FINISHED) → main_ok p m → main_ok p' m.
Proof.
  intros Hs Hp Hm. unfold main_ok, quiet in *. rewrite Hs.
  destruct m, Hp as [->| ->]; try done; intuition congruence.
Qed.

(** A thread other than the per-packet threads changes its state. *)
Lemma moves_other p r st p' m :
  ctl_ok p → main_ok p m → r = THasher ∨ r = TReporter → moves p r st p' →
  ctl_ok p' ∧ states_of p' = states_of p ∧ main_ok p' m.
Proof.
  intros Hok Hm Hr (p1 & p2 & H1 & H2 & H3).
  assert (ctl_ok p1) as Hok1 by by apply (ctl_ok_ctl p).
  assert (p_state p1 = p_state p ∧ p_state p' = p_state p2) as [Hp1 Hp2] by (unfold ctl in *; split; congruence).
  destruct (thread_change_state_ok p1 r st p2) as (Hok2 & Hs2 & Hp); [done|by destruct Hr as [->| ->]|by destruct Hr as [->| ->]|done|].
  assert (states_of p' = states_of p) as Hs.
  { rewrite (ctl_states _ _ H3), Hs2, <- (ctl_states _ _ H1). by destruct Hr as [->| ->]. }
  split; [by apply (ctl_ok_ctl p2)|]. split; [done|]. apply (main_ok_states p); [done| |done].
  rewrite Hp2, <- Hp1. done.
Qed.

(** A per-packet thread changes its state, at a time when it may. *)
Lemma moves_perpkt p i st p' m :
  ctl_ok p → main_ok p m → p_state p ≠ STATE_FINISHED → p_state p ≠ STATE_PAUSED →
  (∀ b, m ≠ MWaitReporter b) →
  moves p (TPerpkt i) st p' →
  ctl_ok p' ∧ states_of p' = <[i := st]> (states_of p) ∧ main_ok p' m.
Proof.
  intros Hok Hm Hnf Hnp Hnr (p1 & p2 & H1 & H2 & H3).
  assert (ctl_ok p1) as Hok1 by by apply (ctl_ok_ctl p).
  assert (p_state p1 = p_state p ∧ p_state p' = p_state p2) as [Hp1 Hp2] by (unfold ctl in *; split; congruence).
  destruct (thread_change_state_ok p1 (TPerpkt i) st p2) as (Hok2 & Hs2 & Hp); [done|done|by intros; congruence|done|].
  split; [by apply (ctl_ok_ctl p2)|].
  split; [by rewrite (ctl_states _ _ H3), Hs2, <- (ctl_states _ _ H1)|].
  unfold main_ok in *. destruct m; rewrite Hp2, <- ?Hp1 in *; [destruct Hp; congruence| | |by destruct (Hnr stopping)];
    destruct Hp as [->| ->]; auto.
Qed.

(** A per-packet thread that is running implies that the trace is not at rest. *)
Lemma running_active s i l pc :
  sys_ok s → s_perpkts s !! i = Some (l, pc) → state_of_pc pc = THREAD_RUNNING →
  p_state (s_trace s) ≠ STATE_FINISHED ∧ p_state (s_trace s) ≠ STATE_PAUSED ∧ ∀ b, s_main s ≠ MWaitReporter b.
Proof.
  intros [h1 h2 h3] Hi Hr.
  assert (states_of (s_trace s) !! i = Some THREAD_RUNNING) as Hi'.
  { rewrite h2, list_lookup_fmap, Hi. cbn. by rewrite Hr. }
  assert (¬ quiet (s_trace s)) as Hnq by (intros K; by apply (Forall_lookup_1 _ _ _ _ K Hi')).
  split; [|split].
  - intros K. apply (co_finished _ h1) in K. by pose proof (Forall_lookup_1 _ _ _ _ K Hi').
  - intros K. unfold main_ok in h3. destruct (s_main s); [tauto| | |tauto]; destruct h3; congruence.
  - intros b E. rewrite E in h3. destruct h3. done.
Qed.

(** A thread that stops waiting. *)
Lemma paused_active s i l :
  sys_ok s → s_perpkts s !! i = Some (l, PcPaused) → waiting_state (p_state (s_trace s)) = false →
  p_state (s_trace s) ≠ STATE_FINISHED ∧ p_state (s_trace s) ≠ STATE_PAUSED ∧ ∀ b, s_main s ≠ MWaitReporter b.
Proof.
  intros [h1 h2 h3] Hi Hw. unfold waiting_state in Hw. apply orb_false_elim in Hw as [Hw1 Hw2].
  apply bool_decide_eq_false in Hw1, Hw2.
  assert (p_state (s_trace s) ≠ STATE_FINISHED) as Hnf.
  { intros K. apply (co_finished _ h1) in K. rewrite h2 in K.
    assert (map (λ x, state_of_pc x.2) (s_perpkts s) !! i = Some THREAD_PAUSED) as Hi' by by rewrite list_lookup_fmap, Hi.
    by pose proof (Forall_lookup_1 _ _ _ _ K Hi'). }
  split; [done|]. split; [done|]. intros b E. rewrite E in h3. destruct h3 as [[?|?] _]; done.
Qed.

Lemma sys_ok_perpkt s i l l' pc pc' p' st :
  sys_ok s → s_perpkts s !! i = Some (l, pc) → state_of_pc pc' = st →
  (p_state (s_trace s) ≠ STATE_FINISHED ∧ p_state (s_trace s) ≠ STATE_PAUSED ∧ ∀ b, s_main s ≠ MWaitReporter b) →
  moves (s_trace s) (TPerpkt i) st p' → sys_ok (set_perpkt s p' i l' pc').
Proof.
  intros [h1 h2 h3] Hi Hst (Hnf & Hnp & Hnr) Hm.
  destruct (moves_perpkt _ _ _ _ (s_main s) h1 h3 Hnf Hnp Hnr Hm) as (? & Hs & ?).
  split; cbn [set_perpkt s_trace s_main s_perpkts]; [done| |done].
  rewrite Hs, h2, list_fmap_insert. by cbn; rewrite Hst.
Qed.

Lemma sys_ok_same s i l l' pc pc' p' :
  sys_ok s → s_perpkts s !! i = Some (l, pc) → state_of_pc pc' = state_of_pc pc →
  ctl p' = ctl (s_trace s) → sys_ok (set_perpkt s p' i l' pc').
Proof.
  intros [h1 h2 h3] Hi Hst Hc. split; cbn [set_perpkt s_trace s_main s_perpkts].
  - by apply (ctl_ok_ctl (s_trace s)).
  - rewrite (ctl_states _ _ Hc), h2, list_fmap_insert. cbn. rewrite Hst, list_insert_id; [done|]. by rewrite list_lookup_fmap, Hi.
  - apply (main_ok_states (s_trace s)); [by apply ctl_states|left; unfold ctl in Hc; congruence|done].
Qed.

(** A step of another thread. *)
Lemma sys_ok_other s s' p' r st :
  sys_ok s → s_trace s' = p' → s_perpkts s' = s_perpkts s → s_main s' = s_main s → r = THasher ∨ r = TReporter →
  ctl p' = ctl (s_trace s) ∨ moves (s_trace s) r st p' → sys_ok s'.
Proof.
  intros [h1 h2 h3] <- E2 E3 Hr [Hc|Hm].
  - split; rewrite ?E2, ?E3; [by apply (ctl_ok_ctl (s_trace s))|by rewrite (ctl_states _ _ Hc)|].
    apply (main_ok_states (s_trace s)); [by apply ctl_states|left; unfold ctl in Hc; congruence|done].
  - destruct (moves_other _ _ _ _ (s_main s) h1 h3 Hr Hm) as (? & Hs & ?). split; rewrite ?E2, ?E3, ?Hs; done.
Qed.

(** A step of the main thread. *)
Lemma sys_ok_main s p' m :
  sys_ok s → ctl_ok p' → states_of p' = states_of (s_trace s) → main_ok p' m → sys_ok (set_main s p' m).
Proof. intros [h1 h2 h3] Hok Hs Hm. split; cbn [set_main s_trace s_perpkts s_main]; congruence. Qed.

(** The threads that [trace_pstart] starts. *)
Definition fresh_worker (t : thread) : Prop := t_type t = THREAD_PERPKT ∧ t_state t = THREAD_RUNNING.

Lemma start_perpkts_ok create n : ∀ p i p',
  start_perpkts n p create i = Ok (p', true) → (i + n = length (p_threads p))%nat →
  p_states p' = p_states p ∧ p_state p' = p_state p ∧ p_lock p' = p_lock p ∧ p_hasher p' = p_hasher p ∧ p_reporter p' = p_reporter p ∧
  length (p_threads p') = length (p_threads p) ∧
  ∀ j t, p_threads p' !! j = Some t → if bool_decide (j < i)%nat then p_threads p !! j = Some t else fresh_worker t.
Proof.
  induction n as [|n IH]; intros p i p' H Hlen; cbn [start_perpkts] in H.
  { injection H as <-. repeat (split; [done|]). intros j t Hj. rewrite bool_decide_true; [done|].
    apply lookup_lt_Some in Hj. lia. }
  obind_inv H. destruct a as [p1 ok]. destruct ok; [|done]. unfold trace_start_thread in Hstep. obind_inv Hstep. obind_inv Hstep.
  destruct (create (TPerpkt i) =? 0); [|by obind_inv Hstep]. injection Hstep as <-.
  apply IH in H; [|unfold set_thread; cbn [p_set_threads p_threads]; rewrite length_insert; lia].
  unfold get_thread, set_thread in *. cbn [p_set_threads p_threads p_states p_state p_lock p_hasher p_reporter] in *.
  destruct H as (h1 & h2 & h3 & h4 & h5 & h6 & h7). rewrite length_insert in h6. repeat (split; [done|]).
  intros j t Hj. specialize (h7 j t Hj). destruct (decide (j < i)%nat) as [K|K].
  - rewrite bool_decide_true in h7 |- * by lia. by rewrite list_lookup_insert_ne in h7 by lia.
  - rewrite bool_decide_false by done. destruct (decide (j = i)) as [->|]; [|by rewrite bool_decide_false in h7 by lia].
    rewrite bool_decide_true in h7 by lia. by rewrite list_lookup_insert_eq in h7 by lia; injection h7 as <-.
Qed.

Lemma start_helper_ok create p r type p' :
  r = TReporter ∨ r = TKeepalive → type ≠ THREAD_PERPKT → trace_start_thread p create r type = Ok (p', true) →
  p_states p' = p_states p ∧ p_state p' = p_state p ∧ p_lock p' = p_lock p ∧ p_hasher p' = p_hasher p ∧
  p_threads p' = p_threads p ∧ (t_type (p_reporter p) ≠ THREAD_PERPKT → t_type (p_reporter p') ≠ THREAD_PERPKT).
Proof.
  intros Hr Ht H. unfold trace_start_thread in H. obind_inv H. obind_inv H. destruct (create r =? 0); [|by obind_inv H].
  injection H as <-. by destruct Hr as [->| ->].
Qed.

Lemma count_fresh ts : Forall fresh_worker ts → counts (map t_state ts) = [Zlen ts; 0; 0; 0].
Proof.
  intros H. unfold counts. cbn [map]. induction H as [|t ts [_ Ht] _ IH]; [done|]. cbn [map]. rewrite !count_state_cons, Ht.
  injection IH as -> -> -> ->. rewrite bool_decide_true, !bool_decide_false by done. by rewrite Zlen_cons.
Qed.

End invariant.

(** ** The calls of the main thread *)
Section main_calls.
Context {D : Type} {perpkt_cbs : callback_set} {reporter_cbs : option callback_set} {cfg : user_configuration}.
Local Abbreviation ptrace := (@ptrace D).
Implicit Types (p : ptrace) (i : nat).

Lemma locked_state p st p' :
  ctl_ok p → libtrace_change_state p st true = Ok p' → shape p' = shape p ∧ p_lock p' = false ∧ p_state p' = st.
Proof.
  intros Hok H. unfold libtrace_change_state, lock in H. rewrite (co_lock p Hok) in H. cbn [obind pthread_mutex_lock] in H.
  injection H as <-. done.
Qed.

Lemma change_state_ok p st p' :
  ctl_ok p → st ≠ STATE_FINISHED → libtrace_change_state p st true = Ok p' → ctl_ok p' ∧ states_of p' = states_of p ∧ p_state p' = st.
Proof.
  intros Hok Hst H. apply locked_state in H as (H1 & H2 & H3); [|done].
  destruct (ctl_ok_shape p p') as [? ?]; try done. congruence.
Qed.

Lemma ppause_begin_waits p p' :
  ctl_ok p → ppause_begin p = Ok (p', None) → ctl_ok p' ∧ states_of p' = states_of p ∧ p_state p' = STATE_PAUSING.
Proof.
  intros Hok H. unfold ppause_begin, lock in H. rewrite (co_lock p Hok) in H. cbn [obind pthread_mutex_lock] in H.
  destruct (bool_decide _); [by obind_inv H|]. destruct (_ || _); [by obind_inv H|]. cbn in H. injection H as <-.
  match goal with |- ctl_ok ?q ∧ _ => destruct (ctl_ok_shape p q) as [? ?]; done end.
Qed.

Lemma ppause_begin_paused p p' : ctl_ok p → ppause_begin p = Ok (p', Some 0) → ctl p' = ctl p.
Proof.
  intros Hok H. unfold ppause_begin, lock in H. rewrite (co_lock p Hok) in H. cbn [obind pthread_mutex_lock] in H.
  destruct (bool_decide _); [|destruct (_ || _); [by obind_inv H|done]]. cbn in H. injection H as <-. unfold ctl. cbn.
  by rewrite (co_lock p Hok).
Qed.

Lemma ctl_ask_hasher p self p' : ppause_ask_hasher p self = Ok p' → ctl p' = ctl p.
Proof. unfold ppause_ask_hasher. destruct (trace_has_dedicated_hasher p); [apply ctl_message|congruence]. Qed.

Lemma ctl_ask_reporter p self p' : ppause_ask_reporter (reporter_cbs := reporter_cbs) p self = Ok p' → ctl p' = ctl p.
Proof. unfold ppause_ask_reporter. intros H. obind_inv H. destruct a; [by apply ctl_message in H|congruence]. Qed.

Lemma ctl_ask_perpkts n : ∀ p self i p', ppause_ask_perpkts (cfg := cfg) n p self i = Ok p' → ctl p' = ctl p.
Proof.
  induction n as [|n IH]; intros p self i p' H; cbn [ppause_ask_perpkts] in H; [congruence|]. obind_inv H. apply IH in H. rewrite H.
  clear H IH. destruct (bool_decide _); [congruence|]. obind_inv Hstep. apply ctl_message in Hstep0.
  destruct (trace_has_dedicated_hasher a0); [|congruence]. pose proof (ctl_alloc a0) as Ha. destruct (alloc_packet a0) as [p1 l].
  cbn in Ha. obind_inv Hstep. apply ctl_set_error in Hstep1. apply ctl_ring_write in Hstep. congruence.
Qed.

Lemma ctl_message_each n : ∀ p self i m p', message_each n p self i m = Ok p' → ctl p' = ctl p.
Proof.
  induction n as [|n IH]; intros p self i m p' H; cbn [message_each] in H; [congruence|]. obind_inv H. apply ctl_message in Hstep.
  apply IH in H. congruence.
Qed.

Lemma pstop_release_ok p self p' :
  ctl_ok p → pstop_release p self = Ok p' → ctl_ok p' ∧ states_of p' = states_of p ∧ p_state p' = STATE_FINISHING.
Proof.
  intros Hok H. unfold pstop_release in H.
  pose proof (ctl_message_perpkts p self (with_sender p self (plain_message MESSAGE_DO_STOP))) as H1.
  destruct (trace_message_perpkts _ _ _) as [p1 z]. cbn [fst] in H1. obind_inv H. obind_inv H.
  assert (ctl a = ctl p1) as H2 by (destruct (trace_has_dedicated_hasher p1); [by apply ctl_message in Hstep|congruence]).
  apply ctl_message_each in Hstep0. assert (ctl a0 = ctl p) as H3 by congruence.
  rewrite <- (ctl_states _ _ H3). apply change_state_ok; [by apply (ctl_ok_ctl p)|done|done].
Qed.

Lemma ppause_end_ok p p' : ctl_ok p → ppause_end p = Ok p' → ctl_ok p' ∧ states_of p' = states_of p ∧ p_state p' = STATE_PAUSED.
Proof.
  intros Hok H. unfold ppause_end in H. apply change_state_ok in H; [exact H| |done].
  match goal with |- ctl_ok ?q => destruct (ctl_ok_shape p q) as [? ?]; try done end. by apply (co_lock p Hok).
Qed.

Lemma shape_map p f :
  (∀ t, view (f t) = view t) →
  shape (p_set_threads p (map f (p_threads p)) (p_hasher p) (p_reporter p) (p_keepalive p)) = shape p.
Proof. intros H. unfold shape. cbn. rewrite map_map. do 3 f_equal. by apply map_ext. Qed.

Lemma pstart_again_ok p err p' ret :
  ctl_ok p → trace_pstart_again p err = Ok (p', ret) →
  ctl_ok p' ∧ states_of p' = states_of p ∧ (p_state p' = p_state p ∨ p_state p' = STATE_RUNNING).
Proof.
  intros Hok H. unfold trace_pstart_again, lock in H. rewrite (co_lock p Hok) in H. cbn [obind pthread_mutex_lock] in H.
  assert (∀ q : ptrace, shape q = shape p → p_lock q = false → (p_state q = p_state p ∨ p_state q = STATE_RUNNING) →
    ctl_ok q ∧ states_of q = states_of p ∧ (p_state q = p_state p ∨ p_state q = STATE_RUNNING)) as Hfin.
  { intros q Hq Hl Hs. destruct (ctl_ok_shape p q) as [? ?]; try done. destruct Hs; congruence. }
  destruct (negb _).
  { cbn in H. injection H as <- <-. apply Hfin; auto. }
  destruct (bool_decide _).
  - obind_inv H. destruct a as [p1 r]. unfold trace_prestart in Hstep.
    destruct (negb _); [obind_inv Hstep; injection Hstep as <- <-; cbn in H; injection H as <- <-; apply Hfin; auto|].
    obind_inv Hstep. obind_inv Hstep.
    match type of Hstep with context [p_set_threads ?q (map restart_thread _)] => pose proof (shape_map q restart_thread (λ t, eq_refl)) as Hm end.
    destruct (err =? 0); cbn in Hstep; injection Hstep as <- <-; cbn in H; injection H as <- <-; apply Hfin; auto.
  - obind_inv H. cbn in H. injection H as <- <-. apply Hfin; auto.
Qed.

Lemma join_ok p p1 p' :
  ctl_ok p → join_threads p = Ok p1 → join_end (reporter_cbs := reporter_cbs) p1 TMain = Ok p' →
  ctl_ok p' ∧ states_of p' = states_of p ∧ p_state p' = STATE_JOINED.
Proof.
  intros Hok H1 H2. unfold join_threads in H1. obind_inv H1. obind_inv H1. injection H1 as <-.
  unfold join_end in H2. obind_inv H2. obind_inv H2. obind_inv H2.
  match type of Hstep1 with trace_has_reporter ?q = _ => destruct (ctl_ok_shape p q) as [Hq Hs] end;
    [by apply (shape_map p empty_ring)|by apply (co_lock p Hok)|done|done|].
  rewrite <- Hs. apply change_state_ok in H2; [|case_bool_decide; [|congruence]|done].
  - destruct H2 as (? & -> & ?). split; [done|]. split; [|done]. apply ctl_states.
    case_bool_decide; [by apply ctl_message in Hstep3|congruence].
  - eapply ctl_ok_ctl; [by apply ctl_message in Hstep3|done].
Qed.
(** The system after a call of [trace_pstart] that succeeded. *)
Definition started_system p (l : perpkt_locals) (h : hasher_locals) : @system D :=
  {| s_trace := p; s_perpkts := replicate (length (p_threads p)) (l, PcInit); s_hasher := (h, PcLoop); s_reporter := PcInit; s_main := MIdle |}.

Lemma pstart_system p count dedicated create p' l h :
  trace_pstart_new (perpkt_cbs := perpkt_cbs) (reporter_cbs := reporter_cbs) (cfg := cfg) p count dedicated 0 create = Ok (p', 0) →
  t_type (p_reporter p) ≠ THREAD_PERPKT → length (p_threads p') = count ∧ sys_ok (started_system p' l h).
Proof.
  intros H Hrep. unfold trace_pstart_new, lock in H. destruct (p_lock p) eqn:Hl; [done|]. cbn [obind pthread_mutex_lock] in H.
  destruct (negb _); [by obind_inv H|]. destruct (negb _); [by repeat obind_inv H|]. destruct (negb _); [by repeat obind_inv H|].
  cbn [negb Z.eqb] in H. obind_inv H. destruct a as [p1 ok].
  destruct ok; cbn [negb] in H; [|by obind_inv H].
  assert (p_states p1 = replicate 4 0 ∧ p_lock p1 = true ∧ p_reporter p1 = p_reporter p ∧ t_type (p_hasher p1) ≠ THREAD_PERPKT) as
    (h1 & h2 & h3 & h4).
  { clear H. destruct dedicated; [|by injection Hstep as <-]. unfold trace_start_thread in Hstep. obind_inv Hstep. obind_inv Hstep.
    destruct (create THasher =? 0); [|by obind_inv Hstep]. by injection Hstep as <-. }
  clear Hstep. obind_inv H. destruct a as [p2 ok]. destruct ok; [|by repeat obind_inv H].
  assert (p_states p2 = replicate 4 0 ∧ p_lock p2 = true ∧ t_type (p_hasher p2) ≠ THREAD_PERPKT ∧ t_type (p_reporter p2) ≠ THREAD_PERPKT ∧
    length (p_threads p2) = count ∧ Forall fresh_worker (p_threads p2)) as (g1 & g2 & g3 & g4 & g5 & g6).
  { clear H. unfold start_threads in Hstep. obind_inv Hstep. destruct a as [p3 ok]. destruct ok; [|done].
    apply start_perpkts_ok in Hstep0 as (e1 & e2 & e3 & e4 & e5 & e6 & e7); [|cbn; by rewrite length_replicate].
    cbn [p_set_threads p_states p_lock p_hasher p_reporter p_threads] in *. rewrite length_replicate in e6.
    cbn [negb] in Hstep. obind_inv Hstep. destruct a as [p4 ok]. destruct ok; [|done]. cbn [negb] in Hstep.
    assert (p_states p4 = p_states p3 ∧ p_lock p4 = p_lock p3 ∧ p_hasher p4 = p_hasher p3 ∧ p_threads p4 = p_threads p3 ∧
      t_type (p_reporter p4) ≠ THREAD_PERPKT) as (f1 & f2 & f3 & f4 & f5).
    { clear Hstep. destruct (bool_decide _).
      - apply start_helper_ok in Hstep0 as (? & _ & ? & ? & ? & K); [|auto|done]. split_and!; try done. apply K. congruence.
      - injection Hstep0 as <-. split_and!; congruence. }
    assert (p_states p2 = p_states p4 ∧ p_lock p2 = p_lock p4 ∧ p_hasher p2 = p_hasher p4 ∧ p_threads p2 = p_threads p4 ∧
      t_type (p_reporter p2) ≠ THREAD_PERPKT) as (k1 & k2 & k3 & k4 & k5).
    { destruct (0 <? tick_interval cfg); [|by injection Hstep as <-].
      apply start_helper_ok in Hstep as (? & _ & ? & ? & ? & K); [|auto|done]. split_and!; try done. by apply K. }
    split_and!; try congruence. rewrite k4, f4. apply Forall_lookup_2. intros j t Hj. apply e7 in Hj. done. }
  clear Hstep h1 h2 h3 h4. rewrite g1 in H. cbn in H. rewrite g2 in H. injection H as <-.
  split; [done|]. split; cbn [started_system s_trace s_perpkts s_main].
  - split; cbn [p_lock p_threads p_hasher p_reporter p_states p_state]; try done.
    + eapply Forall_impl; [exact g6|]. by intros ? [].
    + transitivity [Zlen (p_threads p2); 0; 0; 0]; [unfold Zlen; by rewrite g5|symmetry; exact (count_fresh _ g6)].
  - change (map t_state (p_threads p2) = map (λ x : perpkt_locals * perpkt_pc, state_of_pc x.2) (replicate (length (p_threads p2)) (l, PcInit))).
    clear -g6. induction g6 as [|t ts [_ Ht] _ IH]; [done|]. cbn. by rewrite Ht, IH.
  - done.
Qed.

End main_calls.

(** ** Starting, and every step after it *)
Section system_runs.
Context {D : Type} {size : D → Z} {user : nat → @ppacket D → bool} {perpkt_cbs : callback_set}
  {reporter_cbs : option callback_set} {cfg : user_configuration} {eof : Z} {hash : D → Z}.
Local Abbreviation ptrace := (@ptrace D).
Local Abbreviation system := (@system D).
Local Abbreviation step := (step (size := size) (user := user) (perpkt_cbs := perpkt_cbs) (reporter_cbs := reporter_cbs)
  (cfg := cfg) (eof := eof) (hash := hash)).
Implicit Types (p : ptrace) (i : nat) (s : system).

Lemma step_ok kind fuel tracetime s s' : step kind fuel tracetime s s' → sys_ok s → sys_ok s'.
Proof.
  intros H Hok. destruct H as [s i l l' p' pc Hi H|s p' pc Hr H|s i l l' p' pc Hi H|s i l p' Hi Hw H|s i l failed p' Hi H
    |s h h' halt p' pc Hh H|s h p' Hh Hw H|s h p' Hh H|s p' pc Hr H|s p' Hr Hw H|s p' Hr H
    |s stopping p' p'' Hm H H'|s stopping p' p'' Hm H H'|s stopping p' Hm Hh H|s stopping p' Hm Ha H|s stopping p' p'' Hm Hr H H'
    |s err p' ret Hm H|s p' p'' Hm Hd H H'].
  - apply perpkt_start_effect in H as [[-> H]|[-> H]]; [| |by apply co_lock, so_ctl].
    + by apply (sys_ok_same s i l l' PcInit PcLoop).
    + eapply (sys_ok_perpkt s i l l' PcInit PcDone); eauto. by eapply running_active.
  - apply reporter_start_effect in H; [|by apply co_lock, so_ctl]. by eapply (sys_ok_other s _ p' TReporter); eauto.
  - apply perpkt_round_effect in H as [[Hpc H]|[-> H]].
    + apply (sys_ok_same s i l l' PcLoop pc); [done|done| |done]. by destruct Hpc as [->|[->| ->]].
    + eapply (sys_ok_perpkt s i l l' PcLoop PcPaused); eauto. by eapply running_active.
  - apply perpkt_resume_effect in H. eapply (sys_ok_perpkt s i l l PcPaused PcLoop); eauto. by eapply paused_active.
  - apply perpkt_finish_effect in H. eapply (sys_ok_perpkt s i l l _ PcDone); eauto.
    eapply running_active; [done|exact Hi|by destruct failed].
  - apply hasher_round_effect in H. by eapply (sys_ok_other s _ p' THasher); eauto.
  - unfold hasher_resume in H. apply (locked_moves (s_trace s)) in H; [|done]. by eapply (sys_ok_other s _ p' THasher); eauto.
  - apply hasher_finish_effect in H. by eapply (sys_ok_other s _ p' THasher); eauto.
  - apply reporter_round_effect in H. by eapply (sys_ok_other s _ p' TReporter); eauto.
  - apply reporter_resume_effect in H. by eapply (sys_ok_other s _ p' TReporter); eauto.
  - apply reporter_finish_effect in H. by eapply (sys_ok_other s _ p' TReporter); eauto.
  - apply ppause_begin_waits in H as (h1 & h2 & h3); [|by apply so_ctl]. apply ctl_ask_hasher in H'.
    apply sys_ok_main; [done|by apply (ctl_ok_ctl p')|by rewrite (ctl_states _ _ H')|]. left. unfold ctl in H'. congruence.
  - apply ppause_begin_paused in H; [|by apply so_ctl].
    assert (ctl_ok p') as h1 by by eapply ctl_ok_ctl, so_ctl. pose proof (ctl_states _ _ H) as h2. destruct stopping.
    + apply pstop_release_ok in H' as (? & ? & ?); [|done]. apply sys_ok_main; [done|done|congruence|]. cbn. congruence.
    + injection H' as <-. apply sys_ok_main; [done|done|done|]. pose proof (so_main s Hok) as Hmain. rewrite Hm in Hmain.
      apply (main_ok_states (s_trace s)); [done|left; unfold ctl in H; congruence|done].
  - apply ctl_ask_perpkts in H. pose proof (so_main s Hok) as Hmain. rewrite Hm in Hmain.
    apply sys_ok_main; [done|by eapply ctl_ok_ctl, so_ctl|by apply ctl_states|].
    apply (main_ok_states (s_trace s) p' (MWaitPerpkts stopping)); [by apply ctl_states|left; unfold ctl in H; congruence|done].
  - apply ctl_ask_reporter in H. pose proof (so_main s Hok) as Hmain. rewrite Hm in Hmain.
    apply sys_ok_main; [done|by eapply ctl_ok_ctl, so_ctl|by apply ctl_states|].
    apply (main_ok_states (s_trace s) p' (MWaitReporter stopping)); [by apply ctl_states|left; unfold ctl in H; congruence|].
    split; [done|]. rewrite (co_states _ (so_ctl s Hok)), counts_aget in Ha. injection Ha as Ha. by apply count_state_zero.
  - pose proof (so_main s Hok) as Hmain. rewrite Hm in Hmain. destruct Hmain as [_ Hq].
    apply ppause_end_ok in H as (h1 & h2 & h3); [|by apply so_ctl]. destruct stopping.
    + apply pstop_release_ok in H' as (? & ? & ?); [|done]. apply sys_ok_main; [done|done|congruence|]. cbn. congruence.
    + injection H' as <-. apply sys_ok_main; [done|done|done|]. intros _. unfold quiet. by rewrite h2.
  - apply pstart_again_ok in H as (h1 & h2 & h3); [|by apply so_ctl]. pose proof (so_main s Hok) as Hmain. rewrite Hm in Hmain.
    apply sys_ok_main; [done|done|done|]. cbn in Hmain |- *. unfold quiet in *. rewrite h2. destruct h3 as [->| ->]; done.
  - destruct (join_ok _ _ _ (so_ctl s Hok) H H') as (h1 & h2 & h3). apply sys_ok_main; [done|done|done|]. cbn. congruence.
Qed.

Lemma step_length kind fuel tracetime s s' : step kind fuel tracetime s s' → length (s_perpkts s') = length (s_perpkts s).
Proof. intros H. destruct H; cbn; try done; apply length_insert. Qed.

(** C5: From [trace_pstart] on, whatever the threads and the main thread do: once
    [trace_ppause] has seen the counter of running threads reach zero, until the trace
    is started again, no per-packet thread is in its loop; each waits in
    [trace_thread_pause] or has ended.  The counter is right at all times, so the
    assertion of a restart holds. *)
Theorem pause_quiesces kind fuel tracetime p count dedicated create p' l h s :
  t_type (p_reporter p) = THREAD_EMPTY →
  trace_pstart_new (perpkt_cbs := perpkt_cbs) (reporter_cbs := reporter_cbs) (cfg := cfg) p count dedicated 0 create = Ok (p', 0) →
  rtc (step kind fuel tracetime) (started_system p' l h) s →
  p_states (s_trace s) = counts (map t_state (p_threads (s_trace s))) ∧ p_lock (s_trace s) = false ∧
  (p_state (s_trace s) = STATE_PAUSED ∨ (∃ stopping, s_main s = MWaitReporter stopping) →
   length (s_perpkts s) = count ∧ Forall (λ x, x.2 = PcPaused ∨ x.2 = PcDone) (s_perpkts s) ∧
   aget (p_states (s_trace s)) (state_index THREAD_RUNNING) = Ok 0).
Proof.
  intros Hrep Hstart Hrtc. destruct (pstart_system _ _ _ _ _ l h Hstart) as [Hcount Hok]; [by rewrite Hrep|].
  assert (length (s_perpkts (started_system p' l h)) = count) as Hlen by (cbn; by rewrite length_replicate).
  assert (sys_ok s ∧ length (s_perpkts s) = count) as [Hs Hl].
  { clear Hstart. induction Hrtc as [s|s s1 s2 Hs _ IH]; [done|].
    apply IH; [by eapply step_ok|]. by rewrite (step_length _ _ _ _ _ Hs). }
  pose proof (co_states _ (so_ctl s Hs)) as Hst. split; [done|]. split; [by apply co_lock, so_ctl|]. intros Hp.
  assert (quiet (s_trace s)) as Hq.
  { pose proof (so_main s Hs) as Hm. destruct Hp as [Hp|[b Hb]]; [|rewrite Hb in Hm; apply Hm].
    unfold main_ok in Hm. destruct (s_main s); [auto| | |apply Hm]; destruct Hm; congruence. }
  split; [done|]. unfold quiet in Hq. split.
  - rewrite (so_pcs s Hs) in Hq. 
    pose proof (proj1 (List.Forall_map (λ x : perpkt_locals * perpkt_pc, state_of_pc x.2) (λ t, t ≠ THREAD_RUNNING) (s_perpkts s)) Hq) as Hq'.
    eapply Forall_impl; [exact Hq'|]. intros [l1 pc] K. destruct pc; auto; by destruct K.
  - rewrite Hst, counts_aget. f_equal. clear -Hq. induction Hq as [|t ts Ht _ IH]; [done|].
    rewrite count_state_cons, bool_decide_false by done. exact IH.
Qed.
End system_runs.

(** ** Schedules

    A schedule says which thread goes next; [run] follows it. *)
Inductive act :=
| AStart (i : nat) | ARound (i : nat) | AResume (i : nat) | AFinish (i : nat) (failed : bool)
| AHasher (halt : bool) | AHasherResume | AHasherFinish
| APause (stopping : bool) | APauseHasher | APausePerpkts | APauseReporter | ARestart (err : Z) | AJoin.

Section schedules.
Context {D : Type} {size : D → Z} {user : nat → @ppacket D → bool} {perpkt_cbs : callback_set}
  {reporter_cbs : option callback_set} {cfg : user_configuration} {eof : Z} {hash : D → Z}.
Local Abbreviation system := (@system D).
Variable kind : pread_kind.
Variable fuel : nat.
Variable tracetime : bool.

Definition run1 (s : system) (a : act) : option system :=
  let p := s_trace s in
  match a with
  | AStart i =>
      match s_perpkts s !! i, perpkt_start (perpkt_cbs := perpkt_cbs) (reporter_cbs := reporter_cbs) (cfg := cfg) p i with
      | Some (_, PcInit), Ok (p, l, pc) => Some (set_perpkt s p i l pc) | _, _ => None end
  | ARound i =>
      match s_perpkts s !! i with
      | Some (l, PcLoop) =>
          match perpkt_round size (user := user) (perpkt_cbs := perpkt_cbs) (reporter_cbs := reporter_cbs) (eof := eof) kind fuel p i l tracetime with
          | Ok (p, l, pc) => Some (set_perpkt s p i l pc) | _ => None end
      | _ => None end
  | AResume i =>
      match s_perpkts s !! i, waiting_state (p_state p), perpkt_resume (perpkt_cbs := perpkt_cbs) (reporter_cbs := reporter_cbs) p i with
      | Some (l, PcPaused), false, Ok p => Some (set_perpkt s p i l PcLoop) | _, _, _ => None end
  | AFinish i failed =>
      match s_perpkts s !! i with
      | Some (l, pc) =>
          if bool_decide (pc = if failed : bool then PcError else PcEof) then
            match perpkt_finish (perpkt_cbs := perpkt_cbs) (reporter_cbs := reporter_cbs) p i l failed with
            | Ok p => Some (set_perpkt s p i l PcDone) | _ => None end
          else None
      | None => None end
  | AHasher halt =>
      match s_hasher s with
      | (h, PcLoop) =>
          match hasher_round size (cfg := cfg) (eof := eof) (hash := hash) p h halt with
          | Ok (p, h, pc) => Some (set_hasher s p h pc) | _ => None end
      | _ => None end
  | AHasherResume =>
      match s_hasher s, waiting_state (p_state p), hasher_resume p with
      | (h, PcPaused), false, Ok p => Some (set_hasher s p h PcLoop) | _, _, _ => None end
  | AHasherFinish =>
      match s_hasher s with
      | (h, PcEof) => match hasher_finish (cfg := cfg) p h with Ok p => Some (set_hasher s p h PcDone) | _ => None end
      | _ => None end
  | APause stopping =>
      match s_main s, ppause_begin p with
      | MIdle, Ok (p, None) =>
          match ppause_ask_hasher p TMain with Ok p => Some (set_main s p (MWaitHasher stopping)) | _ => None end
      | _, _ => None end
  | APauseHasher =>
      match s_main s with
      | MWaitHasher stopping =>
          if trace_has_dedicated_hasher p && bool_decide (t_state (p_hasher p) = THREAD_RUNNING) then None
          else match ppause_ask_perpkts (cfg := cfg) (length (p_threads p)) p TMain 0 with
               | Ok p => Some (set_main s p (MWaitPerpkts stopping)) | _ => None end
      | _ => None end
  | APausePerpkts =>
      match s_main s, aget (p_states p) (state_index THREAD_RUNNING), ppause_ask_reporter (reporter_cbs := reporter_cbs) p TMain with
      | MWaitPerpkts stopping, Ok 0, Ok p => Some (set_main s p (MWaitReporter stopping)) | _, _, _ => None end
  | APauseReporter =>
      match s_main s, trace_has_reporter (reporter_cbs := reporter_cbs) p, ppause_end p with
      | MWaitReporter stopping, Ok has, Ok p' =>
          if has && bool_decide (t_state (p_reporter p) = THREAD_RUNNING) then None
          else match (if stopping : bool then pstop_release p' TMain else Ok p') with
               | Ok p' => Some (set_main s p' MIdle) | _ => None end
      | _, _, _ => None end
  | ARestart err =>
      match s_main s, trace_pstart_again p err with MIdle, Ok (p, _) => Some (set_main s p MIdle) | _, _ => None end
  | AJoin =>
      match s_main s, forallb (λ x : perpkt_locals * perpkt_pc, bool_decide (x.2 = PcDone)) (s_perpkts s), join_threads p with
      | MIdle, true, Ok p =>
          match join_end (reporter_cbs := reporter_cbs) p TMain with Ok p => Some (set_main s p MIdle) | _ => None end
      | _, _, _ => None end
  end.

Fixpoint run (s : system) (acts : list act) : option system :=
  match acts with
  | [] => Some s
  | a :: acts => match run1 s a with Some s => run s acts | None => None end
  end.

Local Abbreviation step := (step (size := size) (user := user) (perpkt_cbs := perpkt_cbs) (reporter_cbs := reporter_cbs)
  (cfg := cfg) (eof := eof) (hash := hash) kind fuel tracetime).

Lemma run1_step s a s' : run1 s a = Some s' → step s s'.
Proof.
  intros H. destruct a; cbn [run1] in H.
  - destruct (s_perpkts s !! i) as [[l []]|] eqn:E; try done. destruct (perpkt_start _ _) as [[[p l'] pc]|] eqn:E'; [|done].
    injection H as <-. by eapply S_start.
  - destruct (s_perpkts s !! i) as [[l []]|] eqn:E; try done. destruct (perpkt_round _ _ _ _ _ _ _) as [[[p l'] pc]|] eqn:E'; [|done].
    injection H as <-. by eapply S_round.
  - destruct (s_perpkts s !! i) as [[l []]|] eqn:E; try done. destruct (waiting_state _) eqn:Ew; [done|].
    destruct (perpkt_resume _ _) as [p|] eqn:E'; [|done]. injection H as <-. by eapply S_resume.
  - destruct (s_perpkts s !! i) as [[l pc]|] eqn:E; [|done]. case_bool_decide as Hpc; [|done].
    destruct (perpkt_finish _ _ _ _) as [p|] eqn:E'; [|done]. injection H as <-. eapply S_finish; [|done]. by rewrite E, Hpc.
  - destruct (s_hasher s) as [h []] eqn:E; try done. destruct (hasher_round _ _ _ _) as [[[p h'] pc]|] eqn:E'; [|done].
    injection H as <-. by eapply S_hasher_round.
  - destruct (s_hasher s) as [h []] eqn:E; try done. destruct (waiting_state _) eqn:Ew; [done|].
    destruct (hasher_resume _) as [p|] eqn:E'; [|done]. injection H as <-. by eapply S_hasher_resume.
  - destruct (s_hasher s) as [h []] eqn:E; try done. destruct (hasher_finish _ _) as [p|] eqn:E'; [|done].
    injection H as <-. by eapply S_hasher_finish.
  - destruct (s_main s) eqn:E; try done. destruct (ppause_begin _) as [[p [z|]]|] eqn:E1; try done.
    destruct (ppause_ask_hasher _ _) as [p'|] eqn:E2; [|done]. injection H as <-. by eapply S_pause.
  - destruct (s_main s) eqn:E; try done. destruct (_ && _) eqn:Ew; [done|].
    destruct (ppause_ask_perpkts _ _ _ _) as [p'|] eqn:E2; [|done]. injection H as <-. eapply S_pause_hasher; [done| |done].
    intros Hh. rewrite Hh in Ew. cbn in Ew. by apply bool_decide_eq_false in Ew.
  - destruct (s_main s) eqn:E; try done. destruct (aget _ _) as [[]|] eqn:E1; try done.
    destruct (ppause_ask_reporter _ _) as [p'|] eqn:E2; [|done]. injection H as <-. by eapply S_pause_perpkts.
  - destruct (s_main s) eqn:E; try done. destruct (trace_has_reporter _) as [has|] eqn:E1; [|done].
    destruct (ppause_end _) as [p'|] eqn:E2; [|done]. destruct (_ && _) eqn:Ew; [done|].
    destruct (if stopping then _ else _) as [p''|] eqn:E3; [|done]. injection H as <-. eapply S_pause_reporter; [done| |done|done].
    intros Hh. assert (has = true) as -> by congruence. cbn in Ew. by apply bool_decide_eq_false in Ew.
  - destruct (s_main s) eqn:E; try done. destruct (trace_pstart_again _ _) as [[p ret]|] eqn:E1; [|done].
    injection H as <-. by eapply S_restart.
  - destruct (s_main s) eqn:E; try done. destruct (forallb _ _) eqn:E0; [|done]. destruct (join_threads _) as [p|] eqn:E1; [|done].
    destruct (join_end _ _) as [p'|] eqn:E2; [|done]. injection H as <-. eapply S_join; [done| |done|done].
    apply Forall_forall. intros x Hx. apply list_elem_of_In in Hx. rewrite forallb_forall in E0. by apply E0, bool_decide_eq_true in Hx.
Qed.

Lemma run_steps acts : ∀ s s', run s acts = Some s' → rtc step s s'.
Proof.
  induction acts as [|a acts IH]; intros s s' H; cbn in H; [by injection H as <-|].
  destruct (run1 s a) as [s1|] eqn:E; [|done]. eapply rtc_l; [by eapply run1_step|by apply IH].
Qed.
End schedules.

(** ** A run with a hasher, two per-packet threads and three packets *)
Definition empty_thread : thread :=
  {| t_type := THREAD_EMPTY; t_state := THREAD_RUNNING; t_accepted_packets := 0; t_recorded_first := false;
     t_format_data := None; t_messages := []; t_rbuffer := [] |}.

Definition new_ptrace {D} (input : list D) : @ptrace D :=
  {| p_state := STATE_NEW; p_started := false; p_err := 0; p_lock := false; p_states := []; p_threads := [];
     p_hasher := empty_thread; p_reporter := empty_thread; p_keepalive := empty_thread; p_packets := ∅; p_free := []; p_next := 1%positive;
     p_input := input; p_seq := 0; p_delays := []; p_log := [] |}.

Definition packet_callback : callback_set :=
  {| message_starting := true; message_stopping := true; message_resuming := true; message_pausing := true;
     message_packet := true; message_result := false; message_first_packet := false; message_tick_count := false;
     message_tick_interval := false; message_user := false |}.

Definition example_cfg : user_configuration :=
  {| cache_size := 100; thread_cache_size := 10; fixed_count := false; burst_size := 2; tick_interval := 0;
     tick_count := 0; perpkt_threads := 2; hasher_queue_size := 10; hasher_polling := false;
     reporter_polling := false; reporter_thold := 100; debug_state := false |}.

Definition example_locals : perpkt_locals := {| l_packets := []; l_nb_packets := 0; l_empty := 0; l_offset := 0 |}.
Definition example_hasher : hasher_locals := {| h_packet := None; h_skipped := false |}.

(** The packets are numbers, which are their sizes and hashes; the user returns every packet. *)
Definition example_start : outcome (@ptrace Z * Z) :=
  trace_pstart_new (perpkt_cbs := packet_callback) (reporter_cbs := None) (cfg := example_cfg) (new_ptrace [60; 61; 62]) 2 true 0 (λ _, 0).

Local Abbreviation example_run :=
  (run (size := λ d : Z, d) (user := λ _ _, true) (perpkt_cbs := packet_callback) (reporter_cbs := None) (cfg := example_cfg) (eof := 0)
     (hash := λ d, d) PreadHasher 20 false).

Definition packets_seen {D} (p : @ptrace D) : list (nat * option D) :=
  omap (λ e, match e with Packet who _ d => Some (who, d) | _ => None end) (p_log p).

(** Two of three packets are read, and the trace is paused. *)
Definition example_acts : list act :=
  [AStart 0; AStart 1; AHasher false; AHasher false; APause false; AHasher false; APauseHasher; ARound 0; ARound 1;
   APausePerpkts; APauseReporter].

Lemma pause_quiesces_witness : ∃ p s,
  example_start = Ok (p, 0) ∧ example_run (started_system p example_locals example_hasher) example_acts = Some s ∧
  p_state (s_trace s) = STATE_PAUSED ∧ packets_seen (s_trace s) = [(0%nat, Some 60); (1%nat, Some 61)] ∧
  Forall (λ x, x.2 = PcPaused ∨ x.2 = PcDone) (s_perpkts s).
Proof.
  eexists _, _. split; [vm_compute; reflexivity|]. split; [vm_compute; reflexivity|]. split; [vm_compute; reflexivity|].
  split; [vm_compute; reflexivity|].
  refine (proj1 (proj2 (proj2 (proj2 (pause_quiesces (size := λ d : Z, d) (user := λ _ _, true) (perpkt_cbs := packet_callback)
    (reporter_cbs := None) (cfg := example_cfg) (eof := 0) (hash := λ d, d) PreadHasher 20 false (new_ptrace [60; 61; 62]) 2 true (λ _, 0) _
    example_locals example_hasher _ eq_refl _ (run_steps PreadHasher 20 false example_acts _ _ _))) _))).
  - vm_compute; reflexivity.
  - vm_compute; reflexivity.
  - left. vm_compute; reflexivity.
Defined.
