(* ===== verification/ParDelivery.v ===== *)
(** * The packets on their way to the threads: lib/trace_parallel.c

    What the operations of ParThreads and ParStates do to the packets: to the pool, the
    queues, the slots of a thread and what the user was given.

    A location of the pool of packets belongs to one owner: the free list, a queue, a
    slot of a thread, or the hasher.  Ownership counts how often a location occurs; a lemma
    about a thread has the count of all the others as its frame, whose
    locations are left alone. *)

From S2P Require Import Prelude DNodes FormatHelper Trace ParConfig Parallel ParThreads ParStates ParQuiesce.
Local Open Scope Z_scope.
Local Open Scope outcome_scope.

Local Arguments set_thread {D} p r t : simpl never.
Local Arguments get_thread {D} p r : simpl never.
Local Arguments thread_change_state {D} p r new_state need_lock : simpl never.

(** ** How often a location occurs *)
Definition one (x l : loc) : nat := if decide (x = l) then 1 else 0.
Fixpoint cnt (l : loc) (ls : list loc) : nat := match ls with [] => 0 | x :: ls => one x l + cnt l ls end.

(** The locations in slots. *)
Definition held (slots : list (option loc)) : list loc := omap id slots.
Definition cnt_slot (l : loc) (s : option loc) : nat := match s with Some x => one x l | None => 0 end.

Lemma one_self l : one l l = 1%nat.
Proof. unfold one. by rewrite decide_True. Qed.

Lemma cnt_nil l : cnt l [] = 0%nat.
Proof. done. Qed.
Lemma cnt_cons l x ls : cnt l (x :: ls) = (one x l + cnt l ls)%nat.
Proof. done. Qed.
Lemma cnt_app l ls ks : cnt l (ls ++ ks) = (cnt l ls + cnt l ks)%nat.
Proof. induction ls as [|x ls IH]; [done|]. cbn. lia. Qed.
Lemma cnt_elem l ls : (0 < cnt l ls)%nat ↔ l ∈ ls.
Proof.
  induction ls as [|x ls IH]; [cbn; split; [lia|set_solver]|]. cbn. rewrite elem_of_cons, <- IH. unfold one.
  destruct (decide (x = l)); [split; [auto|lia]|]. split; [auto with lia|]. intros [?|?]; [congruence|lia].
Qed.

Lemma cnt_held_cons l s slots : cnt l (held (s :: slots)) = (cnt_slot l s + cnt l (held slots))%nat.
Proof. by destruct s. Qed.

Lemma cnt_held_insert l slots a s s' :
  slots !! a = Some s' → (cnt l (held (<[a := s]> slots)) + cnt_slot l s' = cnt l (held slots) + cnt_slot l s)%nat.
Proof.
  revert a. induction slots as [|x slots IH]; intros [|a] H; try done.
  - injection H as ->. change (<[0%nat := s]> (s' :: slots)) with (s :: slots). rewrite !cnt_held_cons. lia.
  - change (<[S a := s]> (x :: slots)) with (x :: <[a := s]> slots). rewrite !cnt_held_cons. specialize (IH a H). lia.
Qed.

Lemma cnt_held_lookup l slots a : slots !! a = Some (Some l) → (0 < cnt l (held slots))%nat.
Proof.
  intros H. pose proof (cnt_held_insert l slots a None (Some l) H) as K. cbn [cnt_slot] in K. rewrite one_self in K. lia.
Qed.

Lemma cnt_concat_insert l (xs : list (list loc)) i x y :
  xs !! i = Some x → (cnt l (concat (<[i := y]> xs)) + cnt l x = cnt l (concat xs) + cnt l y)%nat.
Proof.
  revert i. induction xs as [|z xs IH]; intros [|i] H; try done.
  - injection H as ->. change (<[0%nat := y]> (x :: xs)) with (y :: xs). cbn [concat]. rewrite !cnt_app. lia.
  - change (<[S i := y]> (z :: xs)) with (z :: <[i := y]> xs). cbn [concat]. rewrite !cnt_app. specialize (IH i H). lia.
Qed.

Lemma cnt_concat_two l (xs : list (list loc)) i j x y :
  xs !! i = Some x → xs !! j = Some y → i ≠ j → (cnt l x + cnt l y ≤ cnt l (concat xs))%nat.
Proof.
  intros Hi Hj Hne. pose proof (cnt_concat_insert l xs i x [] Hi) as K. pose proof (cnt_concat_insert l (<[i := []]> xs) j y []) as K2.
  rewrite list_lookup_insert_ne in K2 by done. specialize (K2 Hj). rewrite !cnt_nil in *. lia.
Qed.

Lemma cnt_concat_lookup l (xs : list (list loc)) i x : xs !! i = Some x → (cnt l x ≤ cnt l (concat xs))%nat.
Proof. intros H. pose proof (cnt_concat_insert l xs i x [] H) as K. rewrite !cnt_nil in *. lia. Qed.

(** ** Views *)
Section views.
Context {D : Type}.
Local Abbreviation ptrace := (@ptrace D).
Implicit Types (p : ptrace) (i j : nat) (l : loc) (ls : list loc).

(** The data of a location that holds a packet of the trace. *)
Definition good p l : option D :=
  match p_packets p !! l with Some pk => if 0 <? pp_error pk then pp_data pk else None | None => None end.
Definition goods p ls : list D := omap (good p) ls.

Definition err p l : Z := match p_packets p !! l with Some pk => pp_error pk | None => 0 end.

(** What thread [i] has been given. *)
Definition seen1 i (e : @event D) : option D :=
  match e with Packet who _ d => if bool_decide (who = i) then d else None | Called _ _ _ _ => None end.
Definition seen i p : list D := omap (seen1 i) (p_log p).

(** The queue of a thread and its last result. *)
Definition ring p i : list loc := match p_threads p !! i with Some t => t_rbuffer t | None => [] end.
Definition fdata p i : option loc := match p_threads p !! i with Some t => t_format_data t | None => None end.

Definition pool p := (p_packets p, p_free p, p_next p).
Definition fixed p := (p_input p, t_type (p_hasher p), length (p_threads p)).

(** What is not about thread [i] stays. *)
Definition others i p p' : Prop :=
  fixed p' = fixed p ∧ ∀ j, j ≠ i → ring p' j = ring p j ∧ fdata p' j = fdata p j ∧ seen j p' = seen j p.

(** Nothing changes but messages, states and counters. *)
Definition same p p' : Prop :=
  pool p' = pool p ∧ fixed p' = fixed p ∧ ∀ j, ring p' j = ring p j ∧ fdata p' j = fdata p j ∧ seen j p' = seen j p.

#[export] Instance same_refl : Reflexive same.
Proof. by intros p. Qed.
#[export] Instance same_trans : Transitive same.
Proof.
  intros p q r (h1 & h2 & h3) (g1 & g2 & g3). split_and!; [congruence|congruence|]. intros j.
  destruct (h3 j) as (? & ? & ?), (g3 j) as (? & ? & ?). split_and!; congruence.
Qed.
#[export] Instance others_refl i : Reflexive (others i).
Proof. by intros p. Qed.
#[export] Instance others_trans i : Transitive (others i).
Proof.
  intros p q r (h1 & h2) (g1 & g2). split; [congruence|]. intros j Hj.
  destruct (h2 j Hj) as (? & ? & ?), (g2 j Hj) as (? & ? & ?). split_and!; congruence.
Qed.
Lemma same_others i p p' : same p p' → others i p p'.
Proof. intros (_ & h2 & h3). split; [done|]. intros j _. apply h3. Qed.

Lemma same_good p p' l : same p p' → good p' l = good p l.
Proof. intros (H & _). unfold good, pool in *. by injection H as -> _ _. Qed.
Lemma same_err p p' l : same p p' → err p' l = err p l.
Proof. intros (H & _). unfold err, pool in *. by injection H as -> _ _. Qed.

Lemma get_perpkt p i t : get_thread p (TPerpkt i) = Ok t → p_threads p !! i = Some t ∧ ring p i = t_rbuffer t ∧ fdata p i = t_format_data t.
Proof. unfold get_thread, ring, fdata. destruct (p_threads p !! i) eqn:E; [|done]. by intros [= ->]. Qed.

Lemma set_perpkt_views p i t t' :
  p_threads p !! i = Some t →
  ring (set_thread p (TPerpkt i) t') i = t_rbuffer t' ∧ fdata (set_thread p (TPerpkt i) t') i = t_format_data t' ∧
  pool (set_thread p (TPerpkt i) t') = pool p ∧ others i p (set_thread p (TPerpkt i) t') ∧
  seen i (set_thread p (TPerpkt i) t') = seen i p.
Proof.
  intros H. unfold set_thread, ring, fdata. cbn [p_set_threads p_threads].
  rewrite list_lookup_insert_eq by by eapply lookup_lt_Some. split_and!; try done. split.
  - unfold fixed. cbn [p_set_threads p_threads p_input p_hasher]. by rewrite length_insert.
  - intros j Hj. unfold ring, fdata. cbn [p_set_threads p_threads]. by rewrite list_lookup_insert_ne by done.
Qed.

Lemma same_set_thread p r t t' :
  get_thread p r = Ok t → t_rbuffer t' = t_rbuffer t → t_format_data t' = t_format_data t → t_type t' = t_type t → same p (set_thread p r t').
Proof.
  intros Hg H1 H2 H3. destruct r as [i| | | |]; try done.
  - apply get_perpkt in Hg as (Hg & Hr & Hf). destruct (set_perpkt_views p i t t' Hg) as (e1 & e2 & e3 & (e4 & e5) & e6).
    split; [done|]. split; [done|]. intros j. destruct (decide (j = i)) as [->|]; [split_and!; congruence|by apply e5].
  - injection Hg as <-. split; [done|]. split; [|done]. unfold fixed, set_thread. cbn. congruence.
Qed.

Lemma same_message p self r m p' : trace_message_thread p self r m = Ok p' → same p p'.
Proof. unfold trace_message_thread. intros H. obind_inv H. injection H as <-. by eapply same_set_thread. Qed.

(** The threads are changed in the same way. *)
Lemma same_map p (f : thread → thread) h r k :
  (∀ t, t_rbuffer (f t) = t_rbuffer t ∧ t_format_data (f t) = t_format_data t) → t_type h = t_type (p_hasher p) →
  same p (p_set_threads p (map f (p_threads p)) h r k).
Proof.
  intros H Hh. split; [done|]. split; [unfold fixed; cbn; by rewrite length_map, Hh|]. intros j. unfold ring, fdata.
  cbn [p_set_threads p_threads]. rewrite list_lookup_fmap. destruct (p_threads p !! j) as [t|]; [|done]. cbn.
  by destruct (H t) as [-> ->].
Qed.

Lemma same_message_perpkts p self m : same p (fst (trace_message_perpkts p self m)).
Proof. apply same_map; [|done]. intros t. by destruct (is_alive (t_state t)). Qed.

Lemma same_log p e : (∀ i, seen1 i e = None) → same p (log_event p e).
Proof.
  intros H. split_and!; try done. intros i. split_and!; try done. unfold seen, log_event. cbn. rewrite omap_app. cbn.
  by rewrite H, app_nil_r.
Qed.

Lemma same_send_message (cbs : callback_set) (rcbs : option callback_set) p r type data sender :
  same p (send_message (perpkt_cbs := cbs) (reporter_cbs := rcbs) p r type data sender).
Proof. unfold send_message. repeat case_match; try done; by apply same_log. Qed.

Lemma same_lock p p' : lock p = Ok p' → same p p'.
Proof. unfold lock. intros H. obind_inv H. by injection H as <-. Qed.
Lemma same_unlock p p' : unlock p = Ok p' → same p p'.
Proof. unfold unlock. intros H. obind_inv H. by injection H as <-. Qed.

Lemma same_change_state p st b p' : libtrace_change_state p st b = Ok p' → same p p'.
Proof.
  unfold libtrace_change_state. intros H. obind_inv H. etrans; [destruct b; [by apply same_lock|by injection Hstep as <-]|].
  destruct b; [|by injection H as <-]. by apply same_unlock in H.
Qed.

Lemma same_thread_change p r st b p' : thread_change_state p r st b = Ok p' → same p p'.
Proof.
  unfold thread_change_state. intros H. obind_inv H. rename a into p0.
  assert (same p p0) as H0 by (destruct b; [by apply same_lock|by injection Hstep as <-]). clear Hstep.
  obind_inv H. assert (same p0 (set_thread p0 r (t_set_state a st))) as H1 by by eapply same_set_thread.
  set (p1 := set_thread p0 r _) in *. clearbody p1. obind_inv H. obind_inv H. obind_inv H.
  assert (same p1 a2) as H2 by (destruct (_ =? _); [by apply same_change_state in Hstep2|by injection Hstep2 as <-]).
  etrans; [exact H0|]. etrans; [exact H1|]. etrans; [exact H2|]. destruct b; [by apply same_unlock|by injection H as <-].
Qed.

Lemma same_message_reporter (rcbs : option callback_set) p self m p' b :
  trace_message_reporter (reporter_cbs := rcbs) p self m = Ok (p', b) → same p p'.
Proof.
  unfold trace_message_reporter. intros H. obind_inv H. destruct (_ && _); [|by injection H as <- _]. obind_inv H.
  injection H as <- _. by apply same_message in Hstep0.
Qed.

Lemma same_announce (rcbs : option callback_set) p i p' : announce_first_packet (reporter_cbs := rcbs) p i = Ok p' → same p p'.
Proof.
  unfold announce_first_packet. intros H. obind_inv H. destruct (t_recorded_first a); [by injection H as <-|].
  obind_inv H. destruct a0 as [p1 b]. apply same_message_reporter in Hstep0. etrans; [exact Hstep0|].
  match type of H with context [trace_message_perpkts ?x ?y ?z] => pose proof (same_message_perpkts x y z) as Hm end.
  destruct (trace_message_perpkts _ _ _) as [p2 z]. cbn [fst] in Hm. etrans; [exact Hm|]. obind_inv H. injection H as <-.
  by eapply same_set_thread.
Qed.
End views.

(** ** Ownership *)
Section ownership.
Context {D : Type}.
Local Abbreviation ptrace := (@ptrace D).
Implicit Types (p : ptrace) (i j : nat) (l k : loc) (F G : loc → nat).

(** Besides the free list, [F] counts the owners; no location has two. *)
Definition own p F : Prop :=
  ∀ l, (cnt l (p_free p) + F l ≤ 1)%nat ∧
       ((0 < cnt l (p_free p) + F l)%nat → is_Some (p_packets p !! l) ∧ (l < p_next p)%positive).

(** The contents of what [F] owns are the same. *)
Definition keep p p' F : Prop := ∀ l, (0 < F l)%nat → p_packets p' !! l = p_packets p !! l.

Lemma own_le p F G : (∀ l, (G l ≤ F l)%nat) → own p F → own p G.
Proof. intros H K l. specialize (H l). destruct (K l) as [k1 k2]. split; [lia|]. intros ?. apply k2. lia. Qed.

Lemma own_pool p p' F : pool p' = pool p → own p F → own p' F.
Proof. intros H. unfold pool in H. injection H as H1 H2 H3. unfold own. by rewrite H1, H2, H3. Qed.

Lemma keep_trans p q r F : keep p q F → keep q r F → keep p r F.
Proof. intros H1 H2 l Hl. by rewrite H2, H1. Qed.
Lemma keep_le p q F G : (∀ l, (0 < G l → 0 < F l)%nat) → keep p q F → keep p q G.
Proof. intros H1 H2 l Hl. apply H2. by apply H1. Qed.
Lemma keep_pool p p' F : pool p' = pool p → keep p p' F.
Proof. intros H l _. unfold pool in H. by injection H as -> _ _. Qed.
Lemma keep_packets p p' F : p_packets p' = p_packets p → keep p p' F.
Proof. intros H l _. by rewrite H. Qed.
Lemma keep_good p p' F l : keep p p' F → (0 < F l)%nat → good p' l = good p l.
Proof. intros H Hl. unfold good. by rewrite H. Qed.

Lemma own_free p l F : own p (λ k, one l k + F k)%nat → own (free_packet p l) F.
Proof.
  intros H k. destruct (H k) as [h1 h2]. cbn [free_packet p_set_heap p_free p_packets p_next]. rewrite cnt_cons.
  split; [lia|]. intros ?. apply h2. lia.
Qed.

Lemma recycle_views p (slot : option loc) :
  p_packets (recycle p slot) = p_packets p ∧ p_threads (recycle p slot) = p_threads p ∧ p_log (recycle p slot) = p_log p ∧
  p_input (recycle p slot) = p_input p ∧ p_hasher (recycle p slot) = p_hasher p.
Proof. by destruct slot. Qed.

Lemma own_recycle p (slot : option loc) F : own p (λ k, cnt_slot k slot + F k)%nat → own (recycle p slot) F.
Proof. destruct slot; [apply own_free|done]. Qed.

(** The views depend on these. *)
Lemma views_threads p p' :
  p_threads p' = p_threads p → p_log p' = p_log p → p_input p' = p_input p → p_hasher p' = p_hasher p →
  fixed p' = fixed p ∧ ∀ j, ring p' j = ring p j ∧ fdata p' j = fdata p j ∧ seen j p' = seen j p.
Proof. intros H1 H2 H3 H4. unfold fixed, ring, fdata, seen. by rewrite H1, H2, H3, H4. Qed.

Lemma own_alloc p p' l F :
  own p F → alloc_packet p = (p', l) →
  own p' (λ k, one l k + F k)%nat ∧ keep p p' F ∧ F l = 0%nat ∧ fixed p' = fixed p ∧
  ∀ j, ring p' j = ring p j ∧ fdata p' j = fdata p j ∧ seen j p' = seen j p.
Proof.
  intros Ho H. unfold alloc_packet in H. destruct (p_free p) as [|l0 free] eqn:E; injection H as <- <-.
  - assert (F (p_next p) = 0%nat) as H0.
    { destruct (Ho (p_next p)) as [_ h2]. destruct (F (p_next p)); [done|]. destruct h2 as [_ ?]; lia. }
    split; [|split; [|split; [done|by apply views_threads]]].
    + intros k. destruct (Ho k) as [h1 h2]. rewrite E in *. cbn [p_set_heap p_free p_packets p_next cnt] in *. unfold one.
      destruct (decide (p_next p = k)) as [<-|Hne].
      * split; [lia|]. rewrite lookup_insert_eq. intros _. split; [by eexists|lia].
      * rewrite lookup_insert_ne by done. split; [lia|]. intros ?. destruct h2 as [? ?]; [lia|]. split; [done|lia].
    + intros k Hk. cbn. rewrite lookup_insert_ne; [done|]. intros <-. lia.
  - split; [|split; [done|split; [|by apply views_threads]]].
    + intros k. destruct (Ho k) as [h1 h2]. rewrite E, cnt_cons in *. cbn [p_set_heap p_free p_packets p_next].
      split; [lia|]. intros ?. apply h2. lia.
    + destruct (Ho l0) as [h1 _]. rewrite E, cnt_cons, one_self in h1. lia.
Qed.

Lemma own_set p l pk F : own p F → (0 < F l)%nat → own (set_packet_at p l pk) F.
Proof.
  intros H Hl k. destruct (H k) as [h1 h2]. cbn [set_packet_at p_set_heap p_packets p_next p_free] in *. split; [done|]. intros Hk.
  destruct (decide (k = l)) as [->|Hne]; [rewrite lookup_insert_eq; split; [by eexists|by apply h2]|].
  rewrite lookup_insert_ne by done. by apply h2.
Qed.

Lemma keep_set p l pk F : F l = 0%nat → keep p (set_packet_at p l pk) F.
Proof. intros H k Hk. cbn. apply lookup_insert_ne. intros ->. lia. Qed.

Lemma own_one p l F : own p (λ k, one l k + F k)%nat → F l = 0%nat.
Proof. intros H. destruct (H l) as [h _]. rewrite one_self in h. lia. Qed.

End ownership.

(** ** Slots *)
Section slots.
Context {D : Type}.
Local Abbreviation ptrace := (@ptrace D).
Implicit Types (p : ptrace) (i j : nat) (l k : loc) (F R : loc → nat) (slots : list (option loc)).

(** What thread [i] does with its own locations. *)
Definition effect i p p' F : Prop := keep p p' F ∧ others i p p' ∧ ring p' i = ring p i ∧ fdata p' i = fdata p i.

Lemma effect_refl i p F : effect i p p F.
Proof. done. Qed.
Lemma effect_trans i p q r F : effect i p q F → effect i q r F → effect i p r F.
Proof.
  intros (h1 & h2 & h3 & h4) (g1 & g2 & g3 & g4). split_and!; [by eapply keep_trans|by etrans|congruence|congruence].
Qed.
Lemma same_effect i p p' F : same p p' → effect i p p' F.
Proof.
  intros H. pose proof (same_others i p p' H). destruct H as (h1 & h2 & h3). split_and!; [by apply keep_pool|done|apply h3|apply h3].
Qed.
Lemma effect_le i p p' F G : (∀ l, (0 < G l → 0 < F l)%nat) → effect i p p' F → effect i p p' G.
Proof. intros H (h1 & h2). split; [by eapply keep_le|done]. Qed.
Lemma effect_views i p p' F :
  keep p p' F → fixed p' = fixed p → (∀ j, ring p' j = ring p j ∧ fdata p' j = fdata p j ∧ seen j p' = seen j p) → effect i p p' F.
Proof. intros h1 h2 h3. split_and!; [done|split; [done|intros j _; apply h3]|apply h3|apply h3]. Qed.

(** The packets of the slots from [a] on. *)
Definition holds p slots (a : nat) (ds : list D) : Prop :=
  ∀ n d, ds !! n = Some d → ∃ l, slots !! (a + n)%nat = Some (Some l) ∧ good p l = Some d.

Lemma holds_nil p slots a : holds p slots a [].
Proof. by intros n d. Qed.
Lemma holds_cons p slots a d ds :
  holds p slots a (d :: ds) ↔ (∃ l, slots !! a = Some (Some l) ∧ good p l = Some d) ∧ holds p slots (S a) ds.
Proof.
  split.
  - intros H. split; [destruct (H 0%nat d) as (l & ? & ?); [done|]; rewrite Nat.add_0_r in *; by exists l|].
    intros n d' Hn. destruct (H (S n) d' Hn) as (l & ? & ?). exists l. by replace (S a + n)%nat with (a + S n)%nat by lia.
  - intros [(l & H1 & H2) H] [|n] d' Hn; [injection Hn as <-; exists l; by rewrite Nat.add_0_r|].
    destruct (H n d' Hn) as (l' & ? & ?). exists l'. by replace (a + S n)%nat with (S a + n)%nat by lia.
Qed.
Lemma holds_snoc p slots a ds l d :
  holds p slots a ds → slots !! (a + length ds)%nat = Some (Some l) → good p l = Some d → holds p slots a (ds ++ [d]).
Proof.
  intros H H1 H2 n d' Hn. apply lookup_app_Some in Hn as [Hn|[Hlen Hn]]; [by apply H|].
  apply list_lookup_singleton_Some in Hn as [Hn <-]. exists l. by replace (a + n)%nat with (a + length ds)%nat by lia.
Qed.
Lemma holds_keep p p' slots slots' a ds F :
  keep p p' F → (∀ n l, (a ≤ n < a + length ds)%nat → slots !! n = Some (Some l) → slots' !! n = Some (Some l) ∧ (0 < F l)%nat) →
  holds p slots a ds → holds p' slots' a ds.
Proof.
  intros Hk Hs H n d Hn. destruct (H n d Hn) as (l & h1 & h2). apply lookup_lt_Some in Hn.
  destruct (Hs (a + n)%nat l) as [? ?]; [lia|done|]. exists l. split; [done|]. by rewrite (keep_good p p' F).
Qed.

Lemma holds_packets p p' slots slots' a ds :
  p_packets p' = p_packets p → (∀ n, (a ≤ n < a + length ds)%nat → slots' !! n = slots !! n) → holds p slots a ds → holds p' slots' a ds.
Proof.
  intros Hp Hs H n d Hn. destruct (H n d Hn) as (l & h1 & h2). apply lookup_lt_Some in Hn. exists l.
  rewrite Hs by lia. split; [done|]. unfold good. by rewrite Hp.
Qed.

(** A slot is emptied. *)
Lemma own_slot p slots a l F :
  slots !! a = Some (Some l) → own p (λ k, cnt k (held slots) + F k)%nat →
  own p (λ k, one l k + (cnt k (held (<[a := None]> slots)) + F k))%nat.
Proof. intros Ha. apply own_le. intros k. pose proof (cnt_held_insert k slots a None (Some l) Ha). cbn [cnt_slot] in *. lia. Qed.

(** A slot is filled; what was in it is forgotten. *)
Lemma own_fill p slots a s F :
  (a < length slots)%nat → own p (λ k, cnt_slot k s + (cnt k (held slots) + F k))%nat → own p (λ k, cnt k (held (<[a := s]> slots)) + F k)%nat.
Proof.
  intros Ha. apply own_le. intros k. destruct (lookup_lt_is_Some_2 slots a Ha) as [s' Hs'].
  pose proof (cnt_held_insert k slots a s s' Hs'). lia.
Qed.

(** The slots behind [a] and what is in them stay. *)
Definition behind (a : nat) p p' slots slots' : Prop :=
  length slots' = length slots ∧ ∀ m, (a ≤ m)%nat → slots' !! m = slots !! m ∧ ∀ l, slots !! m = Some (Some l) → p_packets p' !! l = p_packets p !! l.

Lemma behind_trans a p q r slots1 slots2 slots3 :
  behind a p q slots1 slots2 → behind a q r slots2 slots3 → behind a p r slots1 slots3.
Proof.
  intros [h1 h2] [g1 g2]. split; [congruence|]. intros m Hm. destruct (h2 m Hm) as [h3 h4], (g2 m Hm) as [g3 g4].
  split; [congruence|]. intros l Hl. rewrite g4 by congruence. by apply h4.
Qed.

Lemma behind_slot a n p p' slots slots' F :
  keep p p' (λ k, cnt k (held (<[n := None]> slots)) + F k)%nat → (n < a)%nat → length slots' = length slots →
  (∀ m, (a ≤ m)%nat → slots' !! m = slots !! m) → behind a p p' slots slots'.
Proof.
  intros Hk Hn Hlen Hs. split; [done|]. intros m Hm. split; [by apply Hs|]. intros l Hl. apply Hk.
  pose proof (cnt_held_lookup l (<[n := None]> slots) m) as K. rewrite list_lookup_insert_ne in K by lia. specialize (K Hl). lia.
Qed.

End slots.

(** ** Giving packets to the user *)
Section dispatch.
Context {D : Type} {user : nat → @ppacket D → bool} {perpkt_cbs : callback_set} {reporter_cbs : option callback_set}.
Local Abbreviation ptrace := (@ptrace D).
Implicit Types (p : ptrace) (i j : nat) (l k : loc) (F R : loc → nat) (slots : list (option loc)).
Hypothesis Hpacket : message_packet perpkt_cbs = true.

Lemma dispatch_packet_good p i l d tracetime F p' slot' ret :
  own p (λ k, one l k + F k)%nat → good p l = Some d →
  dispatch_packet (user := user) (perpkt_cbs := perpkt_cbs) (reporter_cbs := reporter_cbs) p i (Some l) tracetime = Ok (p', slot', ret) →
  (ret = READ_MESSAGE ∧ tracetime = true ∧ slot' = Some l ∧ same p p') ∨
  (ret = 0 ∧ (slot' = Some l ∨ slot' = None) ∧ own p' (λ k, cnt_slot k slot' + F k)%nat ∧ effect i p p' F ∧ seen i p' = seen i p ++ [d]).
Proof using Hpacket.
  intros Ho Hg H. unfold dispatch_packet in H. obind_inv H. rename a into pk.
  assert (p_packets p !! l = Some pk) as Hl.
  { unfold load in Hstep. destruct (p_packets p !! l); [by injection Hstep as ->|done]. }
  unfold good in Hg. rewrite Hl in Hg. destruct (0 <? pp_error pk); [|done].
  destruct (if tracetime then next_delay p else (p, 0)) as [p1 delay] eqn:E.
  assert (same p p1 ∧ (delay = READ_MESSAGE → tracetime = true)) as [H1 Hd].
  { destruct tracetime; [|by injection E as <- <-]. unfold next_delay in E. destruct (p_delays p); by injection E as <- <-. }
  clear E. destruct (Z.eqb_spec delay READ_MESSAGE) as [Ed|]; [injection H as <- <- <-; left; by auto|]. right.
  obind_inv H. assert (same p1 (set_thread p1 (TPerpkt i) (t_count_accepted a))) as H2 by by eapply same_set_thread.
  set (p2 := set_thread p1 _ _) in *. clearbody p2. rewrite Hpacket, Hg in H.
  assert (same p p2) as H02 by by etrans. set (p3 := log_event p2 _) in H.
  assert (pool p3 = pool p2 ∧ effect i p2 p3 F ∧ seen i p3 = seen i p2 ++ [d]) as (H3 & H3' & H3s).
  { split_and!; [done|split_and!; try done; split; [done|]|].
    - intros j Hj. split_and!; try done. unfold seen, p3, log_event. cbn. rewrite omap_app. cbn. rewrite bool_decide_false by done.
      by rewrite app_nil_r.
    - unfold seen, p3, log_event. cbn. rewrite omap_app. cbn. by rewrite bool_decide_true by done. }
  assert (own p3 (λ k, one l k + F k)%nat) as Ho3 by (apply (own_pool p); [rewrite H3; apply H02|done]).
  assert (effect i p p3 F ∧ seen i p3 = seen i p ++ [d]) as [He Hs].
  { split; [eapply effect_trans; [by apply same_effect|done]|]. rewrite H3s. f_equal. apply H02. }
  clearbody p3. clear H3 H3' H3s H2 H02 H1 Hstep0. destruct (user i pk).
  - obind_inv H. injection H as <- <- <-. unfold fin_packet in Hstep0. obind_inv Hstep0. injection Hstep0 as <-.
    split; [done|]. split; [by left|]. split; [apply own_set; [done|cbn; rewrite one_self; lia]|].
    split; [|done]. eapply effect_trans; [done|]. apply effect_views; [apply keep_set; by apply own_one in Ho|done|by intros j].
  - injection H as <- <- <-. split; [done|]. split; [by right|]. split; [|done].
    eapply own_le; [|done]. intros k. cbn. lia.
Qed.

Lemma dispatch_loop_good i tracetime n : ∀ p slots empty offset ds F p' slots' empty' offset' ret,
  own p (λ k, cnt k (held slots) + F k)%nat → 0 ≤ empty ≤ offset → length ds = n → holds p slots (Z.to_nat offset) ds →
  dispatch_loop (user := user) (perpkt_cbs := perpkt_cbs) (reporter_cbs := reporter_cbs) n p i slots empty offset tracetime
    = Ok (p', slots', empty', offset', ret) →
  ∃ ds1 ds2, ds = ds1 ++ ds2 ∧ seen i p' = seen i p ++ ds1 ∧ offset' = offset + Zlen ds1 ∧ 0 ≤ empty' ≤ offset' ∧
    holds p' slots' (Z.to_nat offset') ds2 ∧ (ret = 0 → ds2 = []) ∧ own p' (λ k, cnt k (held slots') + F k)%nat ∧
    effect i p p' F ∧ behind (Z.to_nat offset + n) p p' slots slots'.
Proof using Hpacket.
  induction n as [|n IH]; intros * Ho He Hlen Hh H; cbn [dispatch_loop] in H.
  { injection H as <- <- <- <- <-. apply nil_length_inv in Hlen as ->. exists [], []. rewrite app_nil_r, Zlen_nil, Z.add_0_r. split_and!; try done; try lia; by rewrite app_nil_r. }
  destruct ds as [|d ds]; [done|]. injection Hlen as Hlen. apply holds_cons in Hh as [(l & Hl & Hg) Hh].
  rewrite (aget_ok slots offset (Some l)) in H by (try done; lia). cbn [obind] in H.
  assert (Z.to_nat offset < length slots)%nat as Hlt by by eapply lookup_lt_Some.
  obind_inv H. destruct a as [[p1 slot1] r1]. pose proof (own_slot _ _ _ _ _ Hl Ho) as Ho'.
  rewrite aset_ok in H by (unfold Zlen; lia). cbn [obind] in H.
  destruct (dispatch_packet_good p i l d tracetime (λ k, cnt k (held (<[Z.to_nat offset := None]> slots)) + F k)%nat p1 slot1 r1 Ho' Hg Hstep) as [(-> & _ & -> & Hs)|(-> & Hslot & Ho1 & Hef & Hs)].
  { cbn in H. injection H as <- <- <- <- <-. rewrite list_insert_id by done. exists [], (d :: ds).
    rewrite app_nil_r, Zlen_nil, Z.add_0_r. split; [done|]. split; [apply Hs|]. split; [done|]. split; [lia|].
    split; [|split; [done|split; [|split]]].
    - apply (holds_keep p _ slots _ _ _ (λ k, cnt k (held slots) + F k)%nat); [apply keep_pool, Hs| |by apply holds_cons; eauto].
      intros m l' _ Hm. split; [done|]. apply cnt_held_lookup in Hm. lia.
    - apply (own_pool p); [apply Hs|done].
    - by apply same_effect.
    - split; [done|]. intros m _. split; [done|]. intros l' _. by destruct Hs as (Hp & _); unfold pool in Hp; injection Hp as -> _ _. }
  cbn [Z.eqb] in H. clear Hstep.
  (* the slots with which the loop goes on *)
  assert (∀ slots2 empty2, 0 ≤ empty2 ≤ offset + 1 → own p1 (λ k, cnt k (held slots2) + F k)%nat → length slots2 = length slots →
    (∀ m, (Z.to_nat offset < m)%nat → slots2 !! m = slots !! m) →
    dispatch_loop (user := user) (perpkt_cbs := perpkt_cbs) (reporter_cbs := reporter_cbs) n p1 i slots2 empty2 (offset + 1) tracetime
      = Ok (p', slots', empty', offset', ret) → 
    ∃ ds1 ds2, d :: ds = ds1 ++ ds2 ∧ seen i p' = seen i p ++ ds1 ∧ offset' = offset + Zlen ds1 ∧ 0 ≤ empty' ≤ offset' ∧
    holds p' slots' (Z.to_nat offset') ds2 ∧ (ret = 0 → ds2 = []) ∧ own p' (λ k, cnt k (held slots') + F k)%nat ∧
    effect i p p' F ∧ behind (Z.to_nat offset + S n) p p' slots slots') as Kgo.
  { clear H. intros slots2 empty2 He2 Ho2 Hlen2 Hs2 H.
    apply (IH p1 slots2 empty2 (offset + 1) ds F) in H; [|done|done|done|].
    - destruct H as (ds1 & ds2 & -> & e2 & e3 & e4 & e5 & e6 & e7 & e8 & e9). exists (d :: ds1), ds2. split; [done|].
      split; [by rewrite e2, Hs, <- app_assoc|]. split; [rewrite Zlen_cons; lia|]. split_and!; try done; try lia.
      + eapply effect_trans; [|done]. eapply effect_le; [|exact Hef]. intros k. cbn. lia.
      + eapply behind_trans; [|replace (Z.to_nat offset + S n)%nat with (Z.to_nat (offset + 1) + n)%nat by lia; done].
        eapply (behind_slot _ (Z.to_nat offset)); [apply Hef|lia|done|]. intros m Hm. apply Hs2. lia.
    - eapply holds_keep; [apply Hef| |replace (Z.to_nat (offset + 1)) with (S (Z.to_nat offset)) by lia; exact Hh].
      intros m l' Hm Hl'. split; [rewrite Hs2 by lia; done|]. cbn.
      pose proof (cnt_held_lookup l' (<[Z.to_nat offset := None]> slots) m) as K. rewrite list_lookup_insert_ne in K by lia. specialize (K Hl'). lia. }
  assert (own p1 (λ k, cnt k (held (<[Z.to_nat offset := slot1]> slots)) + F k)%nat) as Hfill.
  { rewrite <- (list_insert_insert_eq slots (Z.to_nat offset) slot1 None). apply own_fill; [by rewrite length_insert|done]. }
  destruct Hslot as [->| ->].
  - destruct (Z.eqb_spec empty offset) as [->|Hne].
    + apply Kgo in H; [exact H|lia|exact Hfill|by rewrite length_insert|]. intros m Hm. apply list_lookup_insert_ne. lia.
    + rewrite aset_ok in H by (rewrite Zlen_insert; unfold Zlen; lia). cbn [obind] in H.
      rewrite aset_ok in H by (rewrite !Zlen_insert; unfold Zlen; lia). cbn [obind] in H.
      apply Kgo in H; [exact H|lia| |by rewrite !length_insert|].
      * rewrite list_insert_insert_ne by lia. rewrite list_insert_insert_eq.
        apply own_fill; [rewrite length_insert; lia|]. exact Ho1.
      * intros m Hm. rewrite !list_lookup_insert_ne by lia. done.
  - apply Kgo in H; [exact H|lia|exact Hfill|by rewrite length_insert|]. intros m Hm. apply list_lookup_insert_ne. lia.
Qed.
End dispatch.

(** ** Reading from the queue *)
Section reading.
Context {D : Type}.
Local Abbreviation ptrace := (@ptrace D).
Implicit Types (p : ptrace) (i j : nat) (l k : loc) (F R : loc → nat) (slots : list (option loc)).

(** The result of the last read. *)
Definition is_end p l : Prop := err p l ≤ 0 ∧ err p l ≠ READ_MESSAGE.

(** What a queue holds: packets, wake-ups and results; no ticks. *)
Definition wf p l : Prop := is_Some (good p l) ∨ (err p l ≤ 0 ∧ err p l ≠ READ_TICK).

Lemma good_err p l d : good p l = Some d → 0 < err p l.
Proof. unfold good, err. destruct (p_packets p !! l); [|done]. destruct (0 <? _) eqn:E; [|done]. intros _. lia. Qed.
Lemma bad_good p l : err p l ≤ 0 → good p l = None.
Proof. intros H. destruct (good p l) eqn:E; [|done]. apply good_err in E. lia. Qed.
Lemma packet_error_err p l e : packet_error p (Some l) = Ok e → e = err p l.
Proof. unfold packet_error, load, err. destruct (p_packets p !! l); [by intros [= <-]|done]. Qed.

Lemma err_packets p p' l : p_packets p' = p_packets p → err p' l = err p l.
Proof. unfold err. by intros ->. Qed.
Lemma good_packets p p' l : p_packets p' = p_packets p → good p' l = good p l.
Proof. unfold good. by intros ->. Qed.
Lemma goods_packets p p' ls : p_packets p' = p_packets p → goods p' ls = goods p ls.
Proof. intros H. unfold goods, good. by rewrite H. Qed.
Lemma wf_packets p p' l : p_packets p' = p_packets p → wf p l → wf p' l.
Proof. intros H. unfold wf. by rewrite (good_packets p p'), (err_packets p p'). Qed.
Lemma end_packets p p' l : p_packets p' = p_packets p → is_end p' l ↔ is_end p l.
Proof. intros H. unfold is_end. by rewrite (err_packets p p'). Qed.

(** Thread [i] moves locations from its queue to its slots. *)
Definition reads i p p' slots slots' R : Prop :=
  p_packets p' = p_packets p ∧ others i p p' ∧ seen i p' = seen i p ∧ length slots' = length slots ∧
  own p' (λ k, cnt k (held slots') + cnt k (ring p' i) + R k)%nat.

Lemma reads_trans i p q r slots1 slots2 slots3 R : reads i p q slots1 slots2 R → reads i q r slots2 slots3 R → reads i p r slots1 slots3 R.
Proof. intros (h1 & h2 & h3 & h4 & h5) (g1 & g2 & g3 & g4 & g5). split_and!; [congruence|by etrans|congruence|congruence|done]. Qed.

(** A slot is emptied. *)
Lemma reads_recycle i p slots a slot R :
  slots !! a = Some slot → own p (λ k, cnt k (held slots) + cnt k (ring p i) + R k)%nat →
  reads i p (recycle p slot) slots (<[a := None]> slots) R ∧ ring (recycle p slot) i = ring p i ∧ fdata (recycle p slot) i = fdata p i.
Proof.
  intros Ha Ho. destruct (recycle_views p slot) as (e1 & e2 & e3 & e4 & e5).
  destruct (views_threads p (recycle p slot) e2 e3 e4 e5) as [v1 v2]. destruct (v2 i) as (v3 & v4 & v5).
  split; [|done]. split_and!; [done|split; [done|intros j _; apply v2]|done|by rewrite length_insert|].
  rewrite v3. apply own_recycle. eapply own_le; [|exact Ho]. intros k. cbn beta.
  pose proof (cnt_held_insert k slots a None slot Ha). cbn [cnt_slot] in *. lia.
Qed.

(** The first location of the queue is put in a slot. *)
Lemma reads_pop i p slots a t l rest t' R :
  (a < length slots)%nat → get_thread p (TPerpkt i) = Ok t → t_rbuffer t = l :: rest → t_rbuffer t' = rest →
  own p (λ k, cnt k (held slots) + cnt k (ring p i) + R k)%nat →
  let p' := set_thread p (TPerpkt i) t' in
  reads i p p' slots (<[a := Some l]> slots) R ∧ ring p i = l :: rest ∧ ring p' i = rest ∧ fdata p' i = t_format_data t'.
Proof.
  intros Ha Hg Ht Ht' Ho p'. apply get_perpkt in Hg as (Hg & Hr & Hf).
  destruct (set_perpkt_views p i t t' Hg) as (e1 & e2 & e3 & e4 & e5). fold p' in e1, e2, e3, e4, e5.
  split; [|split_and!; congruence]. split_and!; [done|done|done|by rewrite length_insert|].
  apply (own_pool p); [done|]. eapply own_le; [|exact Ho]. intros k. cbn beta. rewrite e1, Ht', Hr, Ht, cnt_cons.
  destruct (lookup_lt_is_Some_2 slots a Ha) as [s' Hs'].
  pose proof (cnt_held_insert k slots a (Some l) s' Hs'). cbn [cnt_slot] in *. lia.
Qed.

Lemma hasher_read_loop_spec i n : ∀ p slots ds R p' slots' ret,
  own p (λ k, cnt k (held slots) + cnt k (ring p i) + R k)%nat → fdata p i = None → Forall (wf p) (ring p i) → ds ≠ [] →
  holds p slots 0 ds → hasher_read_loop n p i slots (Zlen ds) = Ok (p', slots', ret) →
  reads i p p' slots slots' R ∧
  ∃ ds' popped, ring p i = popped ++ ring p' i ∧ goods p popped = ds' ∧ holds p' slots' 0 (ds ++ ds') ∧ ret = Zlen (ds ++ ds') ∧
    (fdata p' i = None ∨ (0 < n)%nat ∧ ∃ k front, fdata p' i = Some k ∧ slots' !! length (ds ++ ds') = Some (Some k) ∧ is_end p k ∧ popped = front ++ [k]).
Proof.
  induction n as [|n IH]; intros * Ho Hf Hwf Hne Hh H; cbn [hasher_read_loop] in H.
  { injection H as <- <- <-. split; [done|]. exists [], []. rewrite app_nil_r. split_and!; try done. by left. }
  obind_inv H. rename a into slot. apply aget_ok_inv in Hstep as [Hj Ha]. unfold Zlen in Ha. rewrite Nat2Z.id in Ha.
  destruct (reads_recycle i p slots _ slot R Ha Ho) as (Hr1 & Hr & Hrf). set (p1 := recycle p slot) in *. clearbody p1.
  set (slots1 := <[length ds := None]> slots) in *. obind_inv H. rename a into t.
  assert (Hlen : (length ds < length slots)%nat) by (unfold Zlen in Hj; lia).
  assert (holds p1 slots1 0 ds) as Hh1.
  { eapply holds_packets; [apply Hr1| |exact Hh]. intros m Hm. unfold slots1. apply list_lookup_insert_ne. lia. }
  destruct (t_rbuffer t) as [|l rest] eqn:Ht.
  { rewrite aset_ok in H by done. cbn [obind] in H. injection H as <- <- <-. unfold Zlen. rewrite Nat2Z.id. fold slots1.
    split; [done|]. exists [], []. rewrite app_nil_r. split_and!; try done. left. congruence. }
  rewrite aset_ok in H by done. cbn [obind] in H. replace (Z.to_nat (Zlen ds)) with (length ds) in H by (unfold Zlen; lia).
  set (slots2 := <[length ds := Some l]> slots) in H.
  assert (slots2 = <[length ds := Some l]> slots1) as E2 by (unfold slots1, slots2; by rewrite list_insert_insert_eq). clearbody slots2.
  assert (slots2 !! length ds = Some (Some l)) as E2l by (rewrite E2; apply list_lookup_insert_eq; unfold slots1; by rewrite length_insert).
  obind_inv H. apply packet_error_err in Hstep0. obind_inv H. obind_inv H. rename a into error, a0 into slot0, a1 into error0.
  assert (0 < error0) as H0.
  { destruct ds as [|d ds]; [done|]. apply holds_cons in Hh1 as [(l0 & Hl0 & Hg0) _].
    apply aget_ok_inv in Hstep1 as [_ Hs0]. change (Z.to_nat 0) with 0%nat in Hs0. rewrite E2, list_lookup_insert_ne in Hs0 by done. rewrite Hl0 in Hs0. injection Hs0 as <-.
    apply packet_error_err in Hstep2. apply good_err in Hg0. lia. }
  replace (negb (error0 =? READ_TICK)) with true in H by lia. rewrite andb_true_r in H.
  assert (∀ t', t_rbuffer t' = rest → let p' := set_thread p1 (TPerpkt i) t' in
    reads i p p' slots slots2 R ∧ ring p i = l :: rest ∧ ring p' i = rest ∧ fdata p' i = t_format_data t' ∧ holds p' slots2 0 ds) as Kpop.
  { intros t' Ht' p2. destruct (reads_pop i p1 slots1 (length ds) t l rest t' R) as (k1 & k2 & k3 & k4); try done.
    { unfold slots1. by rewrite length_insert. } { apply Hr1. }
    fold p2 in k1, k3, k4. split; [rewrite E2; by eapply reads_trans|]. split_and!; [congruence|done|done|].
    eapply holds_packets; [apply k1| |exact Hh1]. intros m Hm. rewrite E2. apply list_lookup_insert_ne. lia. }
  assert (wf p l) as Hwfl. { destruct (Kpop (t_set_rbuffer t rest) eq_refl) as (_ & K & _). rewrite K in Hwf. by apply Forall_cons in Hwf as [? _]. }
  assert (err p1 l = err p l) as Hel by apply err_packets, Hr1. rewrite Hel in Hstep0.
  apply get_perpkt in Hstep as (_ & _ & Hft).
  destruct (Z.leb_spec error 0) as [Hle|Hgt].
  - obind_inv H. injection H as <- <- <-. rename a into t', Hstep into Hset.
    assert (t_rbuffer t' = rest ∧ (t_format_data t' = None ∨ t_format_data t' = Some l ∧ is_end p l)) as [Ht' Hfd].
    { destruct (Z.eqb_spec error READ_MESSAGE) as [E|E]; [injection Hset as <-; split; [done|left; cbn; congruence]|].
      obind_inv Hset. injection Hset as <-. split; [done|]. right. split; [done|]. unfold is_end. lia. }
    destruct (Kpop t' Ht') as (k1 & k2 & k3 & k4 & k5). split; [exact k1|]. exists [], [l]. rewrite app_nil_r, k3, k4.
    split; [done|]. split; [unfold goods; cbn; by rewrite bad_good by lia|]. split; [done|]. split; [done|].
    destruct Hfd as [Hfd|[Hfd He]]; [by left|]. right. split; [lia|]. exists l, []. split; [done|]. done.
  - destruct (Kpop (t_set_rbuffer t rest) eq_refl) as (k1 & k2 & k3 & k4 & k5). set (p2 := set_thread p1 _ _) in *.
    destruct Hwfl as [[d Hd]|[? _]]; [|lia].
    assert (good p2 l = Some d) as Hd2. { rewrite <- Hd. apply good_packets, k1. }
    replace (Zlen ds + 1) with (Zlen (ds ++ [d])) in H by (rewrite Zlen_app; done).
    apply (IH p2 slots2 (ds ++ [d]) R) in H.
    + destruct H as (g1 & ds' & popped & g2 & g3 & g4 & g5 & g6). split; [by eapply reads_trans|].
      exists (d :: ds'), (l :: popped). rewrite <- app_assoc in g4, g5, g6. split; [rewrite k2, <- k3, g2; done|].
      split; [unfold goods; cbn; rewrite Hd; f_equal; rewrite <- g3; symmetry; apply goods_packets, k1|]. split; [done|]. split; [done|].
      destruct g6 as [g6|(_ & k & front & g6 & g7 & g8 & g9)]; [by left|right]. split; [lia|]. exists k, (l :: front). split; [done|]. split; [done|].
      split; [|cbn; congruence]. by apply (end_packets p p2 k (proj1 k1)).
    + apply k1.
    + rewrite k4. cbn. congruence.
    + rewrite k3. rewrite k2 in Hwf. apply Forall_cons in Hwf as [_ Hwf]. eapply Forall_impl; [exact Hwf|]. intros x. apply wf_packets, k1.
    + by destruct ds.
    + apply (holds_snoc _ _ _ _ l); done.
Qed.

(** What a read takes from the queue: packets, and perhaps the result that follows
    them, or one wake-up or result. *)
Definition taken i p p' slots' ret (ds : list D) (popped : list loc) : Prop :=
  (0 < ret ∧ ret = Zlen ds ∧ holds p' slots' 0 ds ∧ fdata p i = None ∧
   (fdata p' i = None ∨ ∃ k front, fdata p' i = Some k ∧ slots' !! length ds = Some (Some k) ∧ is_end p k ∧ popped = front ++ [k])) ∨
  (ret = READ_MESSAGE ∧ ds = [] ∧ fdata p i = None ∧ fdata p' i = None) ∨
  (ret ≤ 0 ∧ ret ≠ READ_MESSAGE ∧ ds = [] ∧ fdata p' i = fdata p i ∧ (is_Some (fdata p i) ∨ ∃ l, popped = [l] ∧ is_end p l)).

Lemma hasher_read_spec i p slots nb R p' slots' ret :
  own p (λ k, cnt k (held slots) + cnt k (ring p i) + R k)%nat → Forall (wf p) (ring p i) →
  (∀ k, fdata p i = Some k → is_end p k) →
  trace_pread_packet_hasher_thread p i slots nb = Ok (p', slots', ret) →
  reads i p p' slots slots' R ∧ (1 < nb ∨ fdata p' i = fdata p i) ∧
  ∃ popped, ring p i = popped ++ ring p' i ∧ taken i p p' slots' ret (goods p popped) popped.
Proof.
  intros Ho Hwf Hfe H. unfold trace_pread_packet_hasher_thread in H. obind_inv H. rename a into t.
  pose proof (get_perpkt _ _ _ Hstep) as (_ & _ & Hft). destruct (t_format_data t) as [k|].
  { obind_inv H. injection H as <- <- <-. apply packet_error_err in Hstep0. destruct (Hfe k Hft) as [k1 k2].
    split; [done|]. split; [by right|]. exists []. split; [done|]. right. right. rewrite Hft. split_and!; try done; [lia|lia|by left; eexists]. }
  obind_inv H. rename a into slot. apply aget_ok_inv in Hstep0 as [Hj Ha]. change (Z.to_nat 0) with 0%nat in Ha.
  destruct (reads_recycle i p slots _ slot R Ha Ho) as (Hr1 & Hr & Hrf). set (p1 := recycle p slot) in *. clearbody p1.
  set (slots1 := <[0%nat := None]> slots) in *. obind_inv H. rename a into t1. destruct (t_rbuffer t1) as [|l rest] eqn:Ht; [done|].
  rewrite aset_ok in H by done. cbn [obind] in H. change (Z.to_nat 0) with 0%nat in H. set (slots2 := <[0%nat := Some l]> slots) in H.
  assert (slots2 = <[0%nat := Some l]> slots1) as E2 by (unfold slots1, slots2; by rewrite list_insert_insert_eq). clearbody slots2.
  assert (slots2 !! 0%nat = Some (Some l)) as E2l
    by (rewrite E2; apply list_lookup_insert_eq; unfold slots1; rewrite length_insert; unfold Zlen in Hj; lia).
  destruct (reads_pop i p1 slots1 0 t1 l rest (t_set_rbuffer t1 rest) R) as (k1 & k2 & k3 & k4); try done.
  { unfold slots1. rewrite length_insert. unfold Zlen in Hj. lia. } { apply Hr1. }
  pose proof (get_perpkt _ _ _ Hstep0) as (_ & _ & Hft1). set (p2 := set_thread p1 _ _) in *. rewrite <- E2 in k1.
  cbn [t_set_rbuffer t_format_data t_set] in k4. clearbody p2.
  assert (reads i p p2 slots slots2 R) as Hr2 by by eapply reads_trans. assert (fdata p2 i = None) as Hf2 by congruence.
  obind_inv H. rename a into error. apply packet_error_err in Hstep1. rewrite (err_packets p p2) in Hstep1 by apply Hr2.
  rewrite Hr in k2. rewrite k2 in Hwf. apply Forall_cons in Hwf as [Hwl Hwf].
  destruct ((error <=? 0) && negb (error =? READ_TICK)) eqn:E.
  - injection H as <- <- <-. split; [done|]. split; [right; congruence|]. exists [l]. rewrite k3. split; [done|].
    assert (goods p [l] = []) as Hg by (unfold goods; cbn; by rewrite bad_good by lia). rewrite Hg.
    right. destruct (decide (error = READ_MESSAGE)) as [->|Hne]; [left; split_and!; try done; congruence|].
    right. split_and!; try done; [lia|congruence|]. right. exists l. split; [done|]. unfold is_end. lia.
  - destruct Hwl as [[d Hd]|[? ?]]; [|lia]. change 1 with (Zlen [d]) in H.
    apply (hasher_read_loop_spec i _ p2 slots2 [d] R) in H; [|apply Hr2|done| |done|].
    + destruct H as (g1 & ds' & popped & g2 & g3 & g4 & g5 & g6). rewrite <- g3 in *. clear g3 ds'.
      assert (goods p (l :: popped) = [d] ++ goods p2 popped) as Hg.
      { unfold goods. cbn. rewrite Hd. f_equal. symmetry. apply goods_packets, Hr2. }
      split; [by eapply reads_trans|]. split; [destruct g6 as [g6|[g6 _]]; [right; congruence|left; change (Zlen [d]) with 1 in g6; lia]|].
      exists (l :: popped). rewrite Hg. split; [by rewrite k2, <- k3, g2|].
      left. split; [rewrite g5, Zlen_app; pose proof (Zlen_nonneg (goods p2 popped)); change (Zlen [d]) with 1; lia|].
      split; [done|]. split; [done|]. split; [done|]. destruct g6 as [g6|(_ & k & front & g6 & g7 & g8 & g9)]; [by left|right].
      exists k, (l :: front). split; [done|]. split; [done|]. split; [|cbn; congruence]. by apply (end_packets p p2 k (proj1 Hr2)).
    + rewrite k3. eapply Forall_impl; [exact Hwf|]. intros x. apply wf_packets, Hr2.
    + apply holds_cons. split; [|apply holds_nil]. exists l. split; [done|]. rewrite <- Hd. apply good_packets, Hr2.
Qed.
End reading.
