(* ===== verification/ParPipeline.v ===== *)
(** * The rounds of a thread and its packets: lib/trace_parallel.c

    What a per-packet thread has given to the user, what is in its slots and what waits in
    its queue, in this order, are the packets that were sent to it; its rounds
    keep it so.  A round that pauses the thread, or reads the end of the trace, leaves
    none waiting. *)

From S2P Require Import Prelude DNodes FormatHelper Trace ParConfig Parallel ParThreads ParStates ParQuiesce ParDelivery.
Local Open Scope Z_scope.
Local Open Scope outcome_scope.

Local Arguments set_thread {D} p r t : simpl never.
Local Arguments get_thread {D} p r : simpl never.
Local Arguments thread_change_state {D} p r new_state need_lock : simpl never.

(** ** The queue of a thread *)
Section queues.
Context {D : Type}.
Local Abbreviation ptrace := (@ptrace D).
Implicit Types (p : ptrace) (i j : nat) (l k : loc) (ls : list loc) (F R : loc → nat) (slots : list (option loc)) (E : list D).

(** No packet follows the result of the last read. *)
Fixpoint tail_ok p ls : Prop :=
  match ls with [] => True | l :: ls => (is_end p l → goods p ls = []) ∧ tail_ok p ls end.

Definition ring_ok p ls : Prop := Forall (wf p) ls ∧ tail_ok p ls.

Lemma goods_app p ls ks : goods p (ls ++ ks) = goods p ls ++ goods p ks.
Proof. apply omap_app. Qed.

Lemma goods_nil p l : goods p [l] = option_list (good p l).
Proof. unfold goods. cbn. by destruct (good p l). Qed.

Lemma tail_ok_suffix p ls ks : tail_ok p (ls ++ ks) → tail_ok p ks.
Proof. induction ls as [|l ls IH]; [done|]. intros [_ H]. by apply IH. Qed.

Lemma ring_ok_suffix p ls ks : ring_ok p (ls ++ ks) → ring_ok p ks.
Proof. intros [H1 H2]. apply Forall_app in H1 as [_ H1]. split; [done|]. by eapply tail_ok_suffix. Qed.

(** After a result there is nothing to come. *)
Lemma tail_ok_end p ls l ks : tail_ok p (ls ++ [l] ++ ks) → is_end p l → goods p ks = [].
Proof. intros H. apply tail_ok_suffix in H as [H _]. exact H. Qed.

Lemma tail_ok_snoc p ls l : tail_ok p ls → good p l = None ∨ Forall (λ k, ¬ is_end p k) ls → tail_ok p (ls ++ [l]).
Proof.
  induction ls as [|k ls IH]; [done|]. intros [H1 H2] Hl. cbn. split.
  - intros Hk. destruct Hl as [Hl|Hl]; [|by apply Forall_cons in Hl as [? _]].
    rewrite goods_app, H1 by done. by rewrite goods_nil, Hl.
  - apply IH; [done|]. destruct Hl as [Hl|Hl]; [by left|right]. by apply Forall_cons in Hl as [_ ?].
Qed.

Lemma ring_ok_snoc p ls l : ring_ok p ls → wf p l → good p l = None ∨ Forall (λ k, ¬ is_end p k) ls → ring_ok p (ls ++ [l]).
Proof. intros [H1 H2] Hw Hl. split; [apply Forall_app; auto|]. by apply tail_ok_snoc. Qed.

(** Only the contents of the queue matter. *)
Lemma ring_ok_keep p p' ls : (∀ l, l ∈ ls → p_packets p' !! l = p_packets p !! l) → ring_ok p ls → ring_ok p' ls ∧ goods p' ls = goods p ls.
Proof.
  induction ls as [|l ls IH]; [done|]. intros H [Hw [He Ht]]. apply Forall_cons in Hw as [Hl Hw].
  destruct IH as [[h1 h2] h3]; [intros k Hk; apply H; set_solver|done|].
  assert (good p' l = good p l ∧ err p' l = err p l) as [Hg Her] by (unfold good, err; rewrite H by set_solver; done).
  split; [split|].
  - constructor; [|done]. unfold wf. by rewrite Hg, Her.
  - split; [|done]. unfold is_end. by rewrite Her, h3.
  - unfold goods in *. cbn. by rewrite Hg, h3.
Qed.

Lemma ends_keep p p' ls :
  (∀ l, l ∈ ls → p_packets p' !! l = p_packets p !! l) → Forall (λ k, ¬ is_end p k) ls → Forall (λ k, ¬ is_end p' k) ls.
Proof. intros H K. rewrite Forall_forall in *. intros l Hl. unfold is_end, err. rewrite H by done. by apply K. Qed.

(** The queue after a read. *)
Lemma ring_ok_reads i p p' slots slots' R popped :
  reads i p p' slots slots' R → ring p i = popped ++ ring p' i → ring_ok p (ring p i) →
  ring_ok p' (ring p' i) ∧ goods p' (ring p' i) = goods p (ring p' i).
Proof. intros Hr E Hok. rewrite E in Hok. apply ring_ok_suffix in Hok. apply ring_ok_keep; [|done]. intros l _. by rewrite (proj1 Hr). Qed.

(** ** What a thread has got, has, and will get *)
Record active p i (s : perpkt_locals) (E ds : list D) : Prop := {
  ac_bounds : 0 ≤ l_empty s ≤ l_offset s ∧ l_offset s + Zlen ds = l_nb_packets s;
  ac_holds : holds p (l_packets s) (Z.to_nat (l_offset s)) ds;
  ac_exact : seen i p ++ ds ++ goods p (ring p i) = E;
  ac_ring : ring_ok p (ring p i);
  ac_fdata : ∀ k, fdata p i = Some k → l_packets s !! Z.to_nat (l_nb_packets s) = Some (Some k) ∧ is_end p k ∧ goods p (ring p i) = [];
}.

Definition thread_ok p i (x : perpkt_locals * perpkt_pc) (E : list D) : Prop :=
  match x.2 with
  | PcInit => ring_ok p (ring p i) ∧ fdata p i = None ∧ seen i p ++ goods p (ring p i) = E
  | PcLoop | PcPaused => ∃ ds, active p i x.1 E ds
  | _ => seen i p `prefix_of` E
  end.

(** The hasher has not ended. *)
Definition no_end p i (x : perpkt_locals * perpkt_pc) : Prop :=
  match x.2 with
  | PcInit | PcLoop | PcPaused => Forall (λ k, ¬ is_end p k) (ring p i) ∧ fdata p i = None
  | _ => True
  end.

(** The slots that a thread owns. *)
Definition slots_of (x : perpkt_locals * perpkt_pc) : list loc :=
  match x.2 with PcInit | PcDone => [] | _ => held (l_packets x.1) end.

(** A step of thread [i]. *)
Definition turn i p p' slots' R : Prop :=
  own p' (λ k, cnt k (held slots') + cnt k (ring p' i) + R k)%nat ∧ keep p p' R ∧ others i p p' ∧
  (Forall (λ k, ¬ is_end p k) (ring p i) ∧ fdata p i = None → Forall (λ k, ¬ is_end p' k) (ring p' i) ∧ fdata p' i = None).

(** The same without the clause about results. *)
Definition part i p p' slots' R : Prop :=
  own p' (λ k, cnt k (held slots') + cnt k (ring p' i) + R k)%nat ∧ keep p p' R ∧ others i p p'.

Lemma part_trans i p q r slots1 slots2 R : part i p q slots1 R → part i q r slots2 R → part i p r slots2 R.
Proof. intros (h1 & h2 & h3) (g1 & g2 & g3). split_and!; [done|by eapply keep_trans|by etrans]. Qed.
Lemma turn_part i p p' slots' R : turn i p p' slots' R → part i p p' slots' R.
Proof. intros (h1 & h2 & h3 & h4). done. Qed.
Lemma reads_part i p p' slots slots' R : reads i p p' slots slots' R → part i p p' slots' R.
Proof. intros (h1 & h2 & h3 & h4 & h5). split_and!; [done|by apply keep_packets|done]. Qed.
Lemma effect_part i p p' slots' R :
  own p' (λ k, cnt k (held slots') + (cnt k (ring p i) + R k))%nat → effect i p p' (λ k, cnt k (ring p i) + R k)%nat → part i p p' slots' R.
Proof.
  intros Ho (h1 & h2 & h3 & h4). split_and!; [|by eapply keep_le; [|exact h1]; cbn; lia|done].
  eapply own_le; [|exact Ho]. intros k. cbn beta. rewrite h3. lia.
Qed.

Lemma turn_trans i p q r slots1 slots2 R : turn i p q slots1 R → turn i q r slots2 R → turn i p r slots2 R.
Proof. intros (h1 & h2 & h3 & h4) (g1 & g2 & g3 & g4). split_and!; [done|by eapply keep_trans|by etrans|auto]. Qed.

Lemma effect_turn i p p' slots slots' R :
  own p (λ k, cnt k (held slots) + cnt k (ring p i) + R k)%nat → own p' (λ k, cnt k (held slots') + (cnt k (ring p i) + R k))%nat →
  effect i p p' (λ k, cnt k (ring p i) + R k)%nat → turn i p p' slots' R.
Proof.
  intros Ho Ho' (h1 & h2 & h3 & h4). split_and!; [|by eapply keep_le; [|exact h1]; cbn; lia|done|].
  - eapply own_le; [|exact Ho']. intros k. cbn beta. rewrite h3. lia.
  - rewrite h3, h4. intros [Hn Hf]. split; [|done]. eapply ends_keep; [|exact Hn]. intros l Hl. apply h1.
    apply cnt_elem in Hl. lia.
Qed.

Lemma reads_turn i p p' slots slots' R popped :
  reads i p p' slots slots' R → ring p i = popped ++ ring p' i → (fdata p i = None → Forall (λ k, ¬ is_end p k) (ring p i) → fdata p' i = None) →
  turn i p p' slots' R.
Proof.
  intros (h1 & h2 & h3 & h4 & h5) E Hf. split_and!; [done|by apply keep_packets|done|]. intros [Hn Hf']. split; [|by apply Hf].
  rewrite E in Hn. apply Forall_app in Hn as [_ Hn]. eapply ends_keep; [|exact Hn]. intros l _. by rewrite h1.
Qed.

Lemma same_turn i p p' slots R :
  own p (λ k, cnt k (held slots) + cnt k (ring p i) + R k)%nat → same p p' → turn i p p' slots R.
Proof.
  intros Ho H. apply (effect_turn i p p' slots slots); [done| |by apply same_effect]. apply (own_pool p); [apply H|].
  eapply own_le; [|exact Ho]. intros k. cbn. lia.
Qed.

Lemma same_part i p p' slots R :
  own p (λ k, cnt k (held slots) + cnt k (ring p i) + R k)%nat → same p p' → part i p p' slots R.
Proof. intros Ho H. apply turn_part. by apply same_turn. Qed.

Lemma same_active p p' i s E ds : same p p' → active p i s E ds → active p' i s E ds.
Proof.
  intros (h1 & h2 & h3) [e1 e2 e3 e4 e5]. destruct (h3 i) as (g1 & g2 & g3).
  assert (p_packets p' = p_packets p) as Hp by by injection h1.
  assert (goods p' (ring p' i) = goods p (ring p i)) as Hg by (rewrite g1; by apply goods_packets).
  split; rewrite ?Hg, ?g2, ?g3; try done.
  - by eapply holds_packets.
  - rewrite g1. apply (ring_ok_keep p); [|done]. intros l _. by rewrite Hp.
  - intros k Hk. destruct (e5 k Hk) as (? & ? & ?). split_and!; try done; by apply (end_packets p p').
Qed.

Lemma alloc_slots_spec i n : ∀ p slots (j : Z) F p' slots',
  own p (λ k, cnt k (held slots) + F k)%nat → 0 ≤ j → alloc_slots n p slots j = Ok (p', slots') →
  own p' (λ k, cnt k (held slots') + F k)%nat ∧ effect i p p' F ∧ seen i p' = seen i p ∧
  behind (Z.to_nat j + n) p p' slots slots'.
Proof.
  induction n as [|n IH]; intros * Ho Hj H; cbn [alloc_slots] in H.
  { injection H as <- <-. split_and!; try done. }
  destruct (alloc_packet p) as [p1 l] eqn:Ea. destruct (own_alloc _ _ _ _ Ho Ea) as (h1 & h2 & h3 & h4 & h5).
  obind_inv H. rename a into slots1. unfold aset in Hstep. destruct (in_range slots j) eqn:Er; [|done].
  injection Hstep as <-. apply in_range_true in Er.
  apply (IH _ _ _ F) in H; [|apply own_fill; [unfold Zlen in Er; lia|done]|lia].
  destruct H as (g1 & g2 & g3 & g4). split; [done|]. split; [|split; [rewrite g3; apply h5|]].
  - eapply effect_trans; [|exact g2]. apply effect_views; [|done|done]. eapply keep_le; [|exact h2]. intros k. cbn. lia.
  - eapply behind_trans; [|replace (Z.to_nat j + S n)%nat with (Z.to_nat (j + 1) + n)%nat by lia; exact g4].
    split; [by rewrite length_insert|]. intros m Hm. split; [apply list_lookup_insert_ne; lia|].
    intros l' Hl'. apply h2. apply cnt_held_lookup in Hl'. cbn. lia.
Qed.

(** The thread after [refill_and_read]. *)
Definition refilled p i (s : perpkt_locals) E : Prop :=
  (0 < l_nb_packets s ∧ ∃ ds, active p i s E ds) ∨
  (l_nb_packets s = READ_MESSAGE ∧
   active p i {| l_packets := l_packets s; l_nb_packets := 0; l_empty := l_empty s; l_offset := l_offset s |} E []) ∨
  (l_nb_packets s ≤ 0 ∧ l_nb_packets s ≠ READ_MESSAGE ∧ seen i p = E).

Lemma read_refilled p p' i slots slots' R popped ret E :
  reads i p p' slots slots' R → ring_ok p (ring p i) → (∀ k, fdata p i = Some k → goods p (ring p i) = []) →
  seen i p ++ goods p (ring p i) = E → ring p i = popped ++ ring p' i → taken i p p' slots' ret (goods p popped) popped →
  refilled p' i {| l_packets := slots'; l_nb_packets := ret; l_empty := 0; l_offset := 0 |} E.
Proof.
  intros Hr Hok Hf He Hp Ht. destruct (ring_ok_reads _ _ _ _ _ _ _ Hr Hp Hok) as [k1 k2].
  assert (seen i p' = seen i p) as Hs by apply Hr.
  assert (seen i p ++ goods p popped ++ goods p (ring p' i) = E) as He' by by rewrite <- He, Hp, goods_app.
  unfold refilled. cbn [l_nb_packets l_packets l_empty l_offset].
  destruct Ht as [(h1 & h2 & h3 & h4 & h5)|[(-> & h2 & h3 & h4)|(h1 & h2 & h3 & h4 & h5)]].
  - left. split; [done|]. exists (goods p popped). split; cbn [l_nb_packets l_packets l_empty l_offset]; rewrite ?k2, ?Hs; try done; try lia.
    intros k Hk. destruct h5 as [h5|(k0 & front & g1 & g2 & g3 & g4)]; [congruence|]. assert (k0 = k) as -> by congruence.
    split; [rewrite h2; unfold Zlen; by rewrite Nat2Z.id|]. split; [by apply (end_packets p p' k (proj1 Hr))|].
    rewrite g4, <- app_assoc in Hp. rewrite Hp in Hok. by apply (tail_ok_end p front k _ (proj2 Hok)).
  - right. left. split; [done|]. rewrite h2 in He'. split; cbn [l_nb_packets l_packets l_empty l_offset]; rewrite ?k2, ?Hs; try done.
    intros k Hk. congruence.
  - right. right. split; [done|]. split; [done|]. rewrite Hs, <- He', h3. destruct h5 as [[k Hk]|(l & -> & Hl)].
    + specialize (Hf k Hk). rewrite Hp, goods_app in Hf. apply app_eq_nil in Hf as [_ ->]. by rewrite app_nil_r.
    + rewrite Hp in Hok. rewrite (tail_ok_end p [] l _ (proj2 Hok) Hl). by rewrite app_nil_r.
Qed.
End queues.

Section verifying.
Context {D : Type}.
Local Abbreviation ptrace := (@ptrace D).
Implicit Types (p : ptrace) (i j : nat) (l k : loc) (R : loc → nat) (E ds : list D) (slot : option loc).

Lemma single_slot i p p' slot slots' R slot' : reads i p p' [slot] slots' R → aget slots' 0 = Ok slot' → slots' = [slot'].
Proof.
  intros (_ & _ & _ & Hlen & _) H. apply aget_ok_inv in H as [_ H]. destruct slots' as [|x [|y slots']]; try done. change (Some x = Some slot') in H. congruence.
Qed.

Lemma verify_spec i fuel : ∀ p slot R p' slot',
  own p (λ k, cnt k (held [slot]) + cnt k (ring p i) + R k)%nat → Forall (wf p) (ring p i) → (∀ k, fdata p i = Some k → is_end p k) →
  verify_no_packets fuel p i slot = Ok (p', slot') → part i p p' [slot'] R ∧ seen i p' = seen i p.
Proof.
  induction fuel as [|fuel IH]; intros * Ho Hwf Hfe H; cbn [verify_no_packets] in H; [done|]. obind_inv H.
  destruct (t_rbuffer a) as [|]; [by injection H as <- <-|]. clear Hstep. obind_inv H. destruct a0 as [[p1 slots1] ret].
  apply (hasher_read_spec i _ _ _ R) in Hstep as (h1 & h2 & popped & h3 & h4); [|done|done|done].
  obind_inv H. obind_inv H. rename a1 into slot1. obind_inv H. obind_inv H.
  assert (slots1 = [slot1]) as -> by (by eapply single_slot).
  pose proof (reads_part _ _ _ _ _ _ h1) as P1. assert (p_packets p1 = p_packets p) as Hp by apply h1.
  apply (IH _ _ R) in H as [P2 Hs].
  - split; [by eapply part_trans|]. rewrite Hs. apply h1.
  - apply h1.
  - rewrite h3 in Hwf. apply Forall_app in Hwf as [_ Hwf]. eapply Forall_impl; [exact Hwf|]. intros x. by apply wf_packets.
  - intros k Hk. destruct h2 as [h2|h2]; [lia|]. apply (end_packets p); [done|]. apply Hfe. congruence.
Qed.
End verifying.

Section refilling.
Context {D : Type} {size : D → Z} {eof : Z}.
Local Abbreviation ptrace := (@ptrace D).
Implicit Types (p : ptrace) (i j : nat) (l k : loc) (R : loc → nat) (E ds : list D).

Lemma refill_spec p i s E ds R p' s' :
  own p (λ k, cnt k (held (l_packets s)) + cnt k (ring p i) + R k)%nat → active p i s E ds →
  refill_and_read size (eof := eof) PreadHasher p i s = Ok (p', s') →
  turn i p p' (l_packets s') R ∧ refilled p' i s' E.
Proof.
  intros Ho Hac H. unfold refill_and_read in H. destruct (Z.eqb_spec (l_offset s) (l_nb_packets s)) as [Eo|Hne].
  2:{ injection H as <- <-. split; [by apply same_turn|]. left. destruct Hac as [e1 e2 e3 e4 e5]. split; [|by exists ds].
      unfold Zlen in e1. lia. }
  destruct Hac as [e1 e2 e3 e4 e5]. assert (ds = []) as ->.
  { apply nil_length_inv. unfold Zlen in e1. lia. }
  obind_inv H. destruct a as [p1 slots1].
  assert (turn i p p1 slots1 R ∧ ring p1 i = ring p i ∧ fdata p1 i = fdata p i ∧ seen i p1 = seen i p ∧
    effect i p p1 (λ k, cnt k (ring p i) + R k)%nat ∧ behind (Z.to_nat (l_nb_packets s)) p p1 (l_packets s) slots1) as (T1 & r1 & f1 & s1 & ef1 & b1).
  { destruct (l_empty s =? l_nb_packets s); [injection Hstep as <- <-; split; [by apply same_turn|done]|].
    assert (own p (λ k, cnt k (held (l_packets s)) + (cnt k (ring p i) + R k))%nat) as Ho' by (eapply own_le; [|exact Ho]; intros k; cbn; lia).
    apply (alloc_slots_spec i _ _ _ _ _ _ _ Ho') in Hstep as (a1 & a2 & a3 & a4); [|lia].
    split; [by eapply effect_turn|]. split_and!; try done; try apply a2.
    replace (Z.to_nat (l_nb_packets s)) with (Z.to_nat (l_empty s) + Z.to_nat (l_nb_packets s - l_empty s))%nat by lia. done. }
  obind_inv H. destruct a as [[p2 slots2] ret]. injection H as <- <-. cbn [l_packets].
  destruct (ring_ok_keep p p1 (ring p i)) as [k1 k2]; [|done|].
  { intros l Hl. apply ef1. apply cnt_elem in Hl. lia. }
  rewrite <- r1 in k1, k2. unfold pread in Hstep0.
  apply (hasher_read_spec i _ _ _ R) in Hstep0; [|apply T1|apply k1|].
  2:{ intros k Hk. rewrite f1 in Hk. destruct (e5 k Hk) as (j1 & j2 & _). unfold is_end, err.
      rewrite (proj2 ((proj2 b1) (Z.to_nat (l_nb_packets s)) (le_n _)) k j1). done. }
  destruct Hstep0 as (h1 & _ & popped & h3 & h4). split.
  - eapply turn_trans; [exact T1|]. eapply reads_turn; [done|done|]. intros Hf Hn. rewrite h3 in Hn. apply Forall_app in Hn as [Hn _].
    destruct h4 as [(_ & _ & _ & _ & [?|(k & front & _ & _ & q1 & q2)])|[(_ & _ & _ & ?)|(_ & _ & _ & ? & _)]]; [done| |done|congruence].
    rewrite q2 in Hn. apply Forall_app in Hn as [_ Hn]. by apply Forall_cons in Hn as [? _].
  - eapply read_refilled; [exact h1|exact k1| | |exact h3|exact h4].
    + intros k Hk. rewrite f1 in Hk. rewrite k2, r1. by apply (e5 k).
    + by rewrite s1, k2, r1.
Qed.

End refilling.

Section draining.
Context {D : Type} {user : nat → @ppacket D → bool} {perpkt_cbs : callback_set} {reporter_cbs : option callback_set}.
Local Abbreviation ptrace := (@ptrace D).
Implicit Types (p : ptrace) (i j : nat) (l k : loc) (R : loc → nat) (E : list D) (slot : option loc).
Hypothesis Hpacket : message_packet perpkt_cbs = true.

(** Emptying the queue gives the user all the packets. *)
Lemma drain_spec i fuel : ∀ p slot R E p' slot' ret,
  own p (λ k, cnt k (held [slot]) + cnt k (ring p i) + R k)%nat → ring_ok p (ring p i) →
  (∀ k, fdata p i = Some k → is_end p k ∧ goods p (ring p i) = []) → seen i p ++ goods p (ring p i) = E →
  drain_queue (user := user) (perpkt_cbs := perpkt_cbs) (reporter_cbs := reporter_cbs) fuel p i slot = Ok (p', slot', ret) →
  part i p p' [slot'] R ∧ seen i p' = E ∧ (ret = -1 ∨ ret = 1 ∧ ring p' i = [] ∧ fdata p' i = None).
Proof using Hpacket.
  induction fuel as [|fuel IH]; intros * Ho Hok Hfe He H; cbn [drain_queue] in H; [done|]. obind_inv H.
  apply get_perpkt in Hstep as (_ & r0 & f0). unfold queue_is_empty in H. rewrite <- r0, <- f0 in H.
  destruct (match ring p i with [] => _ | _ :: _ => _ end) eqn:Eq.
  { destruct (ring p i) eqn:Er; [|done]. destruct (fdata p i) eqn:Ef; [done|]. injection H as <- <- <-.
    rewrite Er, Ef. split; [by rewrite <- Er in Ho; split_and!|]. split; [|by right]. by rewrite <- He, app_nil_r. }
  clear Eq r0 f0 a. obind_inv H. destruct a as [[p1 slots1] r1]. obind_inv H. rename a into slot1.
  apply (hasher_read_spec i _ _ _ R) in Hstep as (h1 & h2 & popped & h3 & h4); [|done|apply Hok|intros k Hk; by apply Hfe].
  assert (slots1 = [slot1]) as -> by (by eapply single_slot).
  pose proof (reads_part _ _ _ _ _ _ h1) as P1. assert (p_packets p1 = p_packets p) as Hp by apply h1.
  destruct h2 as [h2|h2]; [lia|]. destruct (ring_ok_reads _ _ _ _ _ _ _ h1 h3 Hok) as [k1 k2].
  assert (seen i p1 ++ goods p popped ++ goods p1 (ring p1 i) = E) as He1.
  { rewrite k2, <- goods_app, <- h3. rewrite <- He. f_equal. apply h1. }
  destruct (Z.eqb_spec r1 1) as [->|Hr1]; [|destruct (Z.eqb_spec r1 READ_MESSAGE) as [->|Hr2]].
  - destruct h4 as [(_ & g2 & g3 & g4 & _)|[(? & _)|(? & _)]]; [|lia|lia].
    destruct (goods p popped) as [|d [|]] eqn:Eg; [done| |rewrite !Zlen_cons in g2; pose proof (Zlen_nonneg l); lia].
    apply holds_cons in g3 as [(l & Hl & Hd) _]. injection Hl as ->.
    obind_inv H. obind_inv H. rename a0 into p2.
    assert (same p1 p2) as Hsame by (destruct (0 <? a); [by apply same_announce in Hstep1|by injection Hstep1 as <-]).
    obind_inv H. destruct a0 as [[p3 slot3] r3]. obind_inv H.
    assert (own p2 (λ k, one l k + (cnt k (ring p1 i) + R k))%nat) as Ho2.
    { apply (own_pool p1); [apply Hsame|]. eapply own_le; [|apply h1]. intros k. cbn. lia. }
    apply (dispatch_packet_good Hpacket p2 i l d false (λ k, cnt k (ring p1 i) + R k)%nat) in Hstep2; [|done|by rewrite (same_good p1)].
    destruct Hstep2 as [(_ & ? & _)|(_ & _ & Ho3 & Hef & Hs3)]; [done|].
    assert (effect i p1 p3 (λ k, cnt k (ring p1 i) + R k)%nat) as Hef3 by (eapply effect_trans; [by apply same_effect|exact Hef]).
    assert (seen i p3 = seen i p1 ++ [d]) as Hs by (rewrite Hs3; f_equal; apply Hsame). clear Hef Hs3 Hsame Ho2 Hstep3 a0.
    destruct (ring_ok_keep p1 p3 (ring p1 i)) as [m1 m2]; [|done|].
    { intros x Hx. apply Hef3. apply cnt_elem in Hx. lia. }
    assert (∀ p4 slot4, own p4 (λ k, cnt k (held [slot4]) + (cnt k (ring p1 i) + R k))%nat → effect i p3 p4 (λ k, cnt k (ring p1 i) + R k)%nat →
      seen i p4 = seen i p3 → drain_queue (user := user) (perpkt_cbs := perpkt_cbs) (reporter_cbs := reporter_cbs) fuel p4 i slot4 = Ok (p', slot', ret) →
      part i p p' [slot'] R ∧ seen i p' = E ∧ (ret = -1 ∨ ret = 1 ∧ ring p' i = [] ∧ fdata p' i = None)) as Kgo.
    { intros p4 slot4 Ho4 Hef4 Hs4 H4. pose proof (effect_trans _ _ _ _ _ Hef3 Hef4) as (q1 & q2 & q3 & q4).
      destruct (ring_ok_keep p1 p4 (ring p1 i)) as [n1 n2]; [|done|]. { intros x Hx. apply q1. apply cnt_elem in Hx. lia. }
      assert (part i p1 p4 [slot4] R) as P4 by by apply effect_part. apply (IH _ _ R E) in H4.
      - destruct H4 as (P5 & ?). split; [|done]. eapply part_trans; [exact P1|]. by eapply part_trans.
      - apply P4.
      - by rewrite q3.
      - intros k Hk. exfalso. congruence.
      - rewrite q3, n2, Hs4, Hs, <- app_assoc. done. }
    destruct slot3 as [l3|].
    + eapply Kgo; [|apply effect_refl|done|exact H]. eapply own_le; [|exact Ho3]. intros k. cbn. lia.
    + destruct (alloc_packet p3) as [p4 l4] eqn:Ea. destruct (own_alloc _ _ _ _ Ho3 Ea) as (q1 & q2 & q3 & q4 & q5).
      eapply Kgo; [| |apply q5|exact H].
      * eapply own_le; [|exact q1]. intros k. cbn. lia.
      * by apply effect_views.
  - destruct h4 as [(? & _)|[(_ & g2 & g3 & g4)|(_ & ? & _)]]; [lia| |done].
    apply (IH _ _ R E) in H; [|apply h1|done|intros k Hk; congruence|by rewrite g2 in He1].
    destruct H as (P2 & ?). split; [by eapply part_trans|done].
  - obind_inv H. obind_inv H. destruct a0 as [p2 slot2]. injection H as <- <- <-.
    apply (verify_spec i _ _ _ R) in Hstep1; [|apply h1|apply k1|].
    2:{ intros k Hk. apply (end_packets p); [done|]. apply Hfe. congruence. }
    destruct Hstep1 as [P2 Hs2]. split; [by eapply part_trans|]. split; [|by left].
    unfold oassert in Hstep. destruct (_ || _) eqn:Eor; [|done].
    destruct h4 as [(? & ? & _)|[(? & _)|(_ & _ & g3 & _ & g4)]]; [lia|lia|]. rewrite Hs2, <- He1, g3. symmetry.
    assert (goods p1 (ring p1 i) = []) as ->; [|by rewrite app_nil_r]. rewrite k2. destruct g4 as [[k Hk]|(l & -> & Hl)].
    + destruct (Hfe k Hk) as [_ Hg]. rewrite h3, goods_app in Hg. by apply app_eq_nil in Hg as [_ ?].
    + rewrite h3 in Hok. exact (tail_ok_end p [] l _ (proj2 Hok) Hl).
Qed.
End draining.

(** ** The rounds of a per-packet thread *)
Section perpkt.
Context {D : Type} {size : D → Z} {user : nat → @ppacket D → bool} {perpkt_cbs : callback_set}
  {reporter_cbs : option callback_set} {cfg : user_configuration} {eof : Z}.
Local Abbreviation ptrace := (@ptrace D).
Implicit Types (p : ptrace) (i j : nat) (l k : loc) (F R : loc → nat) (slots : list (option loc)) (E ds : list D).
Hypothesis Hpacket : message_packet perpkt_cbs = true.

Lemma dispatch_active p i s E ds R tracetime p' slots' empty' offset' ret :
  own p (λ k, cnt k (held (l_packets s)) + cnt k (ring p i) + R k)%nat → active p i s E ds →
  dispatch_packets (user := user) (perpkt_cbs := perpkt_cbs) (reporter_cbs := reporter_cbs) p i (l_packets s) (l_nb_packets s) (l_empty s)
    (l_offset s) tracetime = Ok (p', slots', empty', offset', ret) →
  turn i p p' slots' R ∧
  ∃ ds', (ret = 0 → ds' = []) ∧
    active p' i {| l_packets := slots'; l_nb_packets := l_nb_packets s; l_empty := empty'; l_offset := offset' |} E ds'.
Proof using Hpacket.
  intros Ho [e1 e2 e3 e4 e5] H. unfold dispatch_packets in H.
  replace (Z.to_nat (l_nb_packets s - l_offset s)) with (length ds) in H by (unfold Zlen in e1; lia).
  apply (dispatch_loop_good Hpacket i tracetime _ p _ _ _ ds (λ k, cnt k (ring p i) + R k)%nat) in H; try done; [| |lia].
  2:{ eapply own_le; [|exact Ho]. intros k. cbn. lia. }
  destruct H as (ds1 & ds2 & -> & f2 & f3 & f4 & f5 & f6 & f7 & f8 & f9). destruct f8 as (g1 & g2 & g3 & g4).
  split; [by eapply effect_turn|]. exists ds2. split; [done|].
  destruct (ring_ok_keep p p' (ring p i)) as [k1 k2]; [|done|].
  { intros l Hl. apply g1. apply cnt_elem in Hl. lia. }
  rewrite Zlen_app in e1. split; cbn [l_packets l_nb_packets l_empty l_offset]; rewrite ?g3, ?k2; try done; [lia|..].
  - rewrite f2, <- e3. by rewrite !app_assoc.
  - rewrite g4. intros k Hk. destruct (e5 k Hk) as (j1 & j2 & j3). destruct f9 as [f9 f10].
    destruct (f10 (Z.to_nat (l_nb_packets s))) as [m1 m2]; [rewrite length_app; unfold Zlen in e1; lia|].
    split; [by rewrite m1|]. split; [|done]. unfold is_end, err. by rewrite m2.
Qed.


(** A round that deals with packets. *)
Lemma packets_spec p i s E ds R tracetime p' s' pc :
  own p (λ k, cnt k (held (l_packets s)) + cnt k (ring p i) + R k)%nat → active p i s E ds →
  perpkt_packets size (user := user) (perpkt_cbs := perpkt_cbs) (reporter_cbs := reporter_cbs) (eof := eof) PreadHasher p i s tracetime
    = Ok (p', s', pc) →
  turn i p p' (l_packets s') R ∧ thread_ok p' i (s', pc) E ∧ pc ≠ PcPaused ∧ pc ≠ PcInit ∧ pc ≠ PcDone ∧ (pc = PcEof → seen i p' = E).
Proof using Hpacket.
  intros Ho Hac H. unfold perpkt_packets in H. obind_inv H. destruct a as [p1 s1].
  apply (refill_spec p i s E ds R) in Hstep as [T1 Hre]; [|done|done]. destruct Hre as [(Hn & ds1 & Hac1)|[(Hn & Hac1)|(Hn & Hn' & Hs)]].
  - rewrite (proj2 (Z.ltb_lt _ _) Hn) in H. obind_inv H. obind_inv H. obind_inv H. rename a1 into p2.
    assert (same p1 p2) as Hsame by (destruct (0 <? a0); [by apply same_announce in Hstep1|by injection Hstep1 as <-]).
    assert (turn i p p2 (l_packets s1) R) as T2.
    { eapply turn_trans; [exact T1|]. apply same_turn; [apply T1|done]. }
    obind_inv H. destruct a1 as [[[[p3 slots3] empty3] offset3] ret].
    apply (dispatch_active p2 i s1 E ds1 R) in Hstep2; [|apply T2|by eapply same_active]. injection H as <- <- <-.
    destruct Hstep2 as (T3 & ds3 & _ & Hac3). split; [by eapply turn_trans|]. split; [by exists ds3|done].
  - rewrite Hn in H. cbn in H. injection H as <- <- <-. cbn [l_packets]. split; [done|]. split; [by exists []|done].
  - rewrite (proj2 (Z.ltb_ge _ _) Hn) in H. destruct (l_nb_packets s1 =? READ_EOF).
    + injection H as <- <- <-. split; [done|]. split; [cbn; by rewrite Hs|done].
    + rewrite (proj2 (Z.eqb_neq _ _) Hn') in H. injection H as <- <- <-. split; [done|]. split; [cbn; by rewrite Hs|done].
Qed.


(** A thread that pauses has given all its packets to the user. *)
Lemma pause_spec fuel p i s E ds R p' s' pc :
  own p (λ k, cnt k (held (l_packets s)) + cnt k (ring p i) + R k)%nat → active p i s E ds → trace_has_dedicated_hasher p = true →
  perpkt_pause (user := user) (perpkt_cbs := perpkt_cbs) (reporter_cbs := reporter_cbs) fuel p i s = Ok (p', s', pc) →
  part i p p' (l_packets s') R ∧ seen i p' = E ∧
  (pc = PcError ∨ pc = PcPaused ∧ active p' i s' E [] ∧ ring p' i = [] ∧ fdata p' i = None).
Proof using Hpacket.
  intros Ho Hac Hded H. unfold perpkt_pause in H. set (p1 := send_message p _ _ _ _) in H.
  assert (same p p1) as S1 by apply same_send_message. clearbody p1. obind_inv H. destruct a as [[[[p2 slots2] empty2] offset2] r2].
  pose proof (same_part i p p1 _ R Ho S1) as P1. apply (dispatch_active p1 i s E ds R) in Hstep; [|apply P1|by eapply same_active].
  destruct Hstep as (T2 & ds' & Hds & Hac2). obind_inv H. unfold oassert in Hstep. destruct (Z.eqb_spec r2 0) as [->|]; [|done].
  rewrite (Hds eq_refl) in Hac2. clear Hds ds' Hstep a. apply turn_part in T2.
  destruct (alloc_packet p2) as [p3 l] eqn:Ea. destruct (own_alloc _ _ _ _ (proj1 T2) Ea) as (q1 & q2 & q3 & q4 & q5).
  destruct Hac2 as [e1 e2 e3 e4 e5]. cbn [l_packets l_nb_packets l_empty l_offset app] in e1, e3, e5.
  assert (trace_has_dedicated_hasher p3 = true) as Hded3.
  { unfold trace_has_dedicated_hasher in *. destruct P1 as (_ & _ & F1 & _), T2 as (_ & _ & F2 & _). unfold fixed in *.
    assert (t_type (p_hasher p3) = t_type (p_hasher p)) as -> by congruence. done. }
  rewrite Hded3 in H. obind_inv H. destruct a as [[p4 slot4] r4]. destruct (q5 i) as (r3 & f3 & s3).
  destruct (ring_ok_keep p2 p3 (ring p2 i)) as [m1 m2]; [|done|]. { intros x Hx. apply q2. apply cnt_elem in Hx. lia. }
  apply (drain_spec Hpacket i fuel p3 (Some l) (λ k, cnt k (held slots2) + R k)%nat E) in Hstep.
  2:{ eapply own_le; [|exact q1]. intros k. cbn. rewrite r3. lia. }
  2:{ by rewrite r3. }
  2:{ rewrite f3, r3, m2. intros k Hk. destruct (e5 k Hk) as (j1 & j2 & j3). split; [|done]. unfold is_end, err.
      rewrite q2; [done|]. apply cnt_held_lookup in j1. lia. }
  2:{ by rewrite s3, r3, m2. }
  destruct Hstep as (P4 & Hs4 & Hr4). set (p5 := recycle p4 slot4) in H.
  destruct (recycle_views p4 slot4) as (v1 & v2 & v3 & v4 & v5). destruct (views_threads p4 p5 v2 v3 v4 v5) as [v6 v7].
  destruct (v7 i) as (r5 & f5 & s5).
  assert (part i p p5 slots2 R) as P5.
  { eapply part_trans; [exact P1|]. eapply part_trans; [exact T2|]. destruct P4 as (o4 & k4 & t4). split; [|split].
    - rewrite r5. apply own_recycle. eapply own_le; [|exact o4]. intros k. cbn beta. rewrite cnt_held_cons. cbn. lia.
    - eapply keep_trans; [eapply keep_le; [|exact q2]; cbn; lia|].
      eapply keep_trans; [eapply keep_le; [|exact k4]; cbn; lia|by apply keep_packets].
    - etrans; [split; [exact q4|intros j _; apply q5]|]. etrans; [exact t4|]. split; [exact v6|]. intros j _. apply v7. }
  clearbody p5. destruct Hr4 as [->|(-> & r6 & f6)]; cbn [Z.eqb] in H.
  { injection H as <- <- <-. split; [exact P5|]. split; [congruence|by left]. }
  assert (∀ q, same p5 q → q = p' → part i p p' slots2 R ∧ seen i p' = E ∧ ring p' i = [] ∧ fdata p' i = None) as Kend.
  { intros q Sq <-. split; [eapply part_trans; [exact P5|apply same_part; [apply P5|done]]|]. destruct (proj2 (proj2 Sq) i) as (? & ? & ?).
    split_and!; congruence. }
  obind_inv H. obind_inv H. obind_inv H. injection H as <- <- <-. cbn [l_packets].
  apply same_lock in Hstep. apply same_thread_change in Hstep0. apply same_unlock in Hstep1.
  destruct (Kend a1) as (P6 & Hs6 & r7 & f7); [by etrans; [|etrans]|done|].
  split; [done|]. split; [done|]. right. split; [done|]. split; [|done].
  split; cbn [l_packets l_nb_packets l_empty l_offset]; [done|apply holds_nil| |by rewrite r7|by intros k; rewrite f7].
  rewrite r7, Hs6. by rewrite !app_nil_r.
Qed.

Lemma round_spec fuel p i s E ds R tracetime p' s' pc :
  own p (λ k, cnt k (held (l_packets s)) + cnt k (ring p i) + R k)%nat → active p i s E ds → trace_has_dedicated_hasher p = true →
  perpkt_round size (user := user) (perpkt_cbs := perpkt_cbs) (reporter_cbs := reporter_cbs) (eof := eof) PreadHasher fuel p i s tracetime
    = Ok (p', s', pc) →
  part i p p' (l_packets s') R ∧ thread_ok p' i (s', pc) E ∧ (no_end p i (s, PcLoop) → no_end p' i (s', pc)) ∧
  pc ≠ PcInit ∧ pc ≠ PcDone ∧
  (pc = PcPaused ∨ pc = PcEof ∧ (∀ t, get_thread p (TPerpkt i) = Ok t → t_messages t = []) → seen i p' = E).
Proof using Hpacket.
  intros Ho Hac Hded H. unfold perpkt_round in H. obind_inv H. rename a into t. destruct (t_messages t) as [|m ms] eqn:Em.
  { apply (packets_spec p i s E ds R) in H as (T & Ht & n1 & n2 & n3 & He); [|done|done]. split; [by apply turn_part|]. split; [done|].
    split; [|split_and!; try done; intros [?|[? _]]; [done|auto]]. intros Hn. destruct T as (_ & _ & _ & Hn'). unfold no_end in *.
    cbn in *. destruct pc; auto. }
  set (p1 := set_thread p _ _) in H. assert (same p p1) as S1 by (by eapply same_set_thread). clearbody p1.
  pose proof (same_part i p p1 _ R Ho S1) as P1. pose proof (same_active p p1 i s E ds S1 Hac) as Hac1.
  destruct (m_code m =? MESSAGE_DO_PAUSE).
  { apply (pause_spec fuel p1 i s E ds R) in H; [|apply P1|done|].
    2:{ unfold trace_has_dedicated_hasher in *. destruct P1 as (_ & _ & F1 & _). unfold fixed in F1.
        assert (t_type (p_hasher p1) = t_type (p_hasher p)) as -> by congruence. done. }
    destruct H as (P2 & Hs & [->|(-> & Hac2 & r2 & f2)]); (split; [by eapply part_trans|]).
    - split; [cbn; by rewrite Hs|]. split; [done|]. split; [done|]. split; [done|]. by intros [?|[? _]].
    - split; [by exists []|]. split; [intros _; unfold no_end; cbn; by rewrite r2, f2|]. done. }
  assert (∀ q, same p1 q → part i p q (l_packets s) R ∧ active q i s E ds ∧ (no_end p i (s, PcLoop) → no_end q i (s, PcLoop))) as Ksame.
  { intros q Sq. assert (same p q) as S2 by by etrans. pose proof (same_turn i p q _ R Ho S2) as Tq. split; [by apply turn_part|].
    split; [by eapply same_active|]. intros Hn. by apply Tq. }
  destruct (m_code m =? MESSAGE_DO_STOP); injection H as <- <- <-.
  - destruct (Ksame p1) as (P2 & [e1 e2 e3 e4 e5] & _); [done|]. split; [done|]. split; [cbn; rewrite <- e3; by apply prefix_app_r|].
    split; [done|]. split; [done|]. split; [done|]. intros [?|[_ K]]; [done|]. specialize (K t Hstep). congruence.
  - destruct (Ksame _ (same_send_message perpkt_cbs reporter_cbs p1 (TPerpkt i) (m_code m) (m_data m) (m_sender m))) as (P2 & Hac2 & Hn).
    split; [done|]. split; [by exists ds|]. split; [done|]. split; [done|]. split; [done|]. by intros [?|[? _]].
Qed.
End perpkt.

(** ** The first step of a thread, and its last *)
Section ends.
Context {D : Type} {perpkt_cbs : callback_set} {reporter_cbs : option callback_set} {cfg : user_configuration}.
Local Abbreviation ptrace := (@ptrace D).
Implicit Types (p : ptrace) (i j : nat) (l k : loc) (F R : loc → nat) (slots : list (option loc)) (E ds : list D).

Lemma start_spec p i E R p' s' pc :
  own p (λ k, cnt k (ring p i) + R k)%nat → ring_ok p (ring p i) → fdata p i = None → seen i p ++ goods p (ring p i) = E →
  perpkt_start (perpkt_cbs := perpkt_cbs) (reporter_cbs := reporter_cbs) (cfg := cfg) p i = Ok (p', s', pc) →
  (pc = PcDone ∧ same p p') ∨ (pc = PcLoop ∧ turn i p p' (l_packets s') R ∧ active p' i s' E []).
Proof.
  intros Ho Hok Hf He H. unfold perpkt_start in H. obind_inv H. apply same_lock in Hstep. obind_inv H.
  destruct (bool_decide _).
  { left. obind_inv H. obind_inv H. injection H as <- <- <-. split; [done|]. apply same_thread_change in Hstep1. apply same_unlock in Hstep2.
    by etrans; [|etrans]. }
  right. obind_inv H. apply same_unlock in Hstep1. assert (same p a1) as S1 by by etrans. clear Hstep Hstep0 Hstep1 a a0.
  obind_inv H. destruct a as [p2 slots2]. set (n := Z.to_nat (burst_size cfg)) in Hstep.
  assert (∀ m k, cnt k (held (replicate m None)) = 0%nat) as Hz by (induction m; [done|cbn; auto]).
  assert (own p (λ k, cnt k (held (replicate n None)) + cnt k (ring p i) + R k)%nat) as Ho1.
  { eapply own_le; [|exact Ho]. intros k. cbn beta. rewrite Hz. lia. }
  pose proof (same_turn i p a1 _ R Ho1 S1) as T1.
  apply (alloc_slots_spec i n a1 _ 0 (λ k, cnt k (ring a1 i) + R k)%nat) in Hstep as (g1 & g2 & g3 & _); [| |done].
  2:{ eapply own_le; [|apply T1]. intros k. cbn. lia. }
  assert (turn i a1 p2 slots2 R) as T2 by (eapply effect_turn; [apply T1|exact g1|exact g2]).
  set (p3 := send_message p2 _ _ _ _) in H. assert (same p2 p3) as S3 by apply same_send_message. clearbody p3.
  injection H as <- <- <-. cbn [l_packets]. set (p4 := send_message p3 _ _ _ _). assert (same p3 p4) as S4 by apply same_send_message.
  clearbody p4. assert (same p2 p4) as S24 by by etrans. split; [done|]. split.
  { eapply turn_trans; [exact T1|]. eapply turn_trans; [exact T2|]. apply same_turn; [apply T2|done]. }
  apply (same_active p2); [done|]. destruct g2 as (m1 & m2 & m3 & m4).
  destruct (ring_ok_keep a1 p2 (ring a1 i)) as [k1 k2].
  { intros l Hl. apply m1. apply cnt_elem in Hl. lia. }
  { destruct (proj2 (proj2 S1) i) as (-> & _). apply (ring_ok_keep p); [|done]. intros l _. destruct S1 as (Hp & _).
    unfold pool in Hp. congruence. }
  destruct (proj2 (proj2 S1) i) as (r1 & f1 & s1).
  split; cbn [l_packets l_nb_packets l_empty l_offset]; [done|apply holds_nil| |by rewrite m3|intros k Hk; congruence].
  rewrite g3, m3, k2, s1, r1, <- He. cbn. f_equal. apply goods_packets. destruct S1 as (Hp & _). unfold pool in Hp. congruence.
Qed.

Lemma recycle_all_spec slots : ∀ p F, own p (λ k, cnt k (held slots) + F k)%nat →
  let p' := fold_left recycle slots p in
  own p' F ∧ p_packets p' = p_packets p ∧ fixed p' = fixed p ∧ ∀ j, ring p' j = ring p j ∧ fdata p' j = fdata p j ∧ seen j p' = seen j p.
Proof.
  induction slots as [|slot slots IH]; intros p F Ho; cbn [fold_left]; [done|].
  destruct (recycle_views p slot) as (v1 & v2 & v3 & v4 & v5). destruct (views_threads p (recycle p slot) v2 v3 v4 v5) as [v6 v7].
  destruct (IH (recycle p slot) F) as (h1 & h2 & h3 & h4).
  { apply own_recycle. eapply own_le; [|exact Ho]. intros k. cbn beta. rewrite cnt_held_cons. lia. }
  split_and!; [done|congruence|congruence|]. intros j. destruct (h4 j) as (-> & -> & ->). apply v7.
Qed.

Lemma finish_spec p i s failed R p' :
  own p (λ k, cnt k (held (l_packets s)) + cnt k (ring p i) + R k)%nat →
  perpkt_finish (perpkt_cbs := perpkt_cbs) (reporter_cbs := reporter_cbs) p i s failed = Ok p' →
  part i p p' [] R ∧ seen i p' = seen i p.
Proof.
  intros Ho H. unfold perpkt_finish in H. set (p1 := if failed then _ else _) in H.
  assert (same p p1) as S1 by (unfold p1; destruct failed; [apply same_message_perpkts|done]). clearbody p1.
  set (p2 := send_message p1 _ _ _ _) in H. assert (same p1 p2) as S2 by apply same_send_message. clearbody p2.
  set (p3 := send_message p2 _ _ _ _) in H. assert (same p2 p3) as S3 by apply same_send_message. clearbody p3.
  assert (same p p3) as S by (by etrans; [|etrans]). clear S1 S2 S3.
  destruct (recycle_all_spec (l_packets s) p3 (λ k, cnt k (ring p i) + R k)%nat) as (h1 & h2 & h3 & h4).
  { apply (own_pool p); [apply S|]. eapply own_le; [|exact Ho]. intros k. cbn. lia. }
  set (p4 := fold_left _ _ _) in *. clearbody p4. obind_inv H. apply same_thread_change in Hstep. obind_inv H.
  assert (same p4 p') as S4.
  { etrans; [exact Hstep|]. destruct a0; [|by injection H as <-]. obind_inv H. destruct a0 as [p5 b]. injection H as <-.
    by apply same_message_reporter in Hstep1. }
  clear H Hstep Hstep0. destruct (proj2 (proj2 S) i) as (r1 & f1 & s1), (proj2 (proj2 S4) i) as (r4 & f4 & s4), (h4 i) as (r3 & f3 & s3).
  split; [|congruence]. split; [|split].
  - apply (own_pool p4); [apply S4|]. eapply own_le; [|exact h1]. intros k. cbn. rewrite r4, r3, r1. lia.
  - intros k Hk. destruct S as (Hp & _), S4 as (Hp4 & _). unfold pool in *. congruence.
  - etrans; [apply same_others; exact S|]. etrans; [|apply same_others; exact S4]. split; [done|]. intros j _. apply h4.
Qed.
End ends.
