(* ===== verification/ParRouting.v ===== *)
(** * Every packet goes to its thread, once and in order: lib/trace_parallel.c

    With a dedicated hasher, the packets that a per-packet thread gives to the user are
    at all times the first of the packets that have been read from the trace and whose
    hash selects the thread, in their order; a thread that pauses, or that reads
    the end of the trace, has given all of them. *)

From S2P Require Import Prelude DNodes FormatHelper Trace ParConfig Parallel ParThreads ParStates ParQuiesce ParDelivery ParPipeline.
Local Open Scope Z_scope.
Local Open Scope outcome_scope.

Local Arguments set_thread {D} p r t : simpl never.
Local Arguments get_thread {D} p r : simpl never.
Local Arguments thread_change_state {D} p r new_state need_lock : simpl never.

(** ** The threads and their packets *)
Section routing.
Context {D : Type} {hash : D → Z}.
Local Abbreviation ptrace := (@ptrace D).
Local Abbreviation worker := (perpkt_locals * perpkt_pc)%type.
Implicit Types (p : ptrace) (n i j : nat) (l k : loc) (xs : list worker) (x : worker) (H : list loc) (E ds : list D).

(** The thread for a packet, of [n], and the packets for a thread. *)
Definition route n (d : D) : nat := Z.to_nat (u64 (hash d) `mod` Z.of_nat n).
Definition expected n i ds : list D := filter (λ d, route n d = i) ds.

Lemma expected_app n i ds ds' : expected n i (ds ++ ds') = expected n i ds ++ expected n i ds'.
Proof. apply filter_app. Qed.

Lemma expected_self n i d : route n d = i → expected n i [d] = [d].
Proof. intros Hd. unfold expected. by rewrite filter_cons_True. Qed.
Lemma expected_other n i d : route n d ≠ i → expected n i [d] = [].
Proof. intros Hd. unfold expected. by rewrite filter_cons_False. Qed.

Definition rings p : list (list loc) := map t_rbuffer (p_threads p).

Lemma rings_lookup p i t : p_threads p !! i = Some t → rings p !! i = Some (ring p i).
Proof. intros Hi. unfold rings, ring. by rewrite list_lookup_fmap, Hi. Qed.
Lemma rings_lookup_lt p i : (i < length (p_threads p))%nat → rings p !! i = Some (ring p i).
Proof. intros Hi. destruct (lookup_lt_is_Some_2 _ _ Hi) as [t Ht]. by eapply rings_lookup. Qed.

Lemma rings_eq p p' : length (p_threads p') = length (p_threads p) → (∀ j, ring p' j = ring p j) → rings p' = rings p.
Proof.
  intros Hlen Hr. apply list_eq. intros j. destruct (decide (j < length (p_threads p))%nat) as [Hj|Hj].
  - rewrite !rings_lookup_lt by lia. by rewrite Hr.
  - unfold rings. rewrite !lookup_ge_None_2; [done|rewrite length_map; lia..].
Qed.
Lemma rings_insert p p' i :
  length (p_threads p') = length (p_threads p) → (∀ j, j ≠ i → ring p' j = ring p j) → (i < length (p_threads p))%nat →
  rings p' = <[i := ring p' i]> (rings p).
Proof.
  intros Hlen Hr Hi. apply list_eq. intros j. destruct (decide (j = i)) as [->|Hne].
  - rewrite list_lookup_insert_eq by (unfold rings; by rewrite length_map). apply rings_lookup_lt. lia.
  - rewrite list_lookup_insert_ne by done. destruct (decide (j < length (p_threads p))%nat) as [Hj|Hj].
    + rewrite !rings_lookup_lt by lia. by rewrite Hr.
    + unfold rings. rewrite !lookup_ge_None_2; [done|rewrite length_map; lia..].
Qed.

(** The owners of locations: the threads, their queues, and the hasher with [H]. *)
Definition owned p xs H : loc → nat :=
  λ k, (cnt k (concat (map slots_of xs)) + cnt k (concat (rings p)) + cnt k H)%nat.

Record inv n p xs H ds : Prop := {
  iv_workers : length xs = n;
  iv_threads : length (p_threads p) = n;
  iv_hasher : trace_has_dedicated_hasher p = true;
  iv_own : own p (owned p xs H);
  iv_ok : ∀ i x, xs !! i = Some x → thread_ok p i x (expected n i ds);
}.

Definition noend p xs : Prop := ∀ i x, xs !! i = Some x → no_end p i x.

(** A thread is not changed by what happens to others. *)
Lemma thread_frame p p' i x E :
  (∀ k, k ∈ slots_of x ++ ring p i → p_packets p' !! k = p_packets p !! k) →
  ring p' i = ring p i → fdata p' i = fdata p i → seen i p' = seen i p →
  (thread_ok p i x E → thread_ok p' i x E) ∧ (no_end p i x → no_end p' i x).
Proof.
  intros Hk Hr Hf Hs. destruct x as [s pc].
  assert (∀ k, k ∈ ring p i → p_packets p' !! k = p_packets p !! k) as Hkr by (intros k ?; apply Hk; set_solver).
  assert (Forall (λ k, ¬ is_end p k) (ring p i) ∧ fdata p i = None → Forall (λ k, ¬ is_end p' k) (ring p' i) ∧ fdata p' i = None) as Hn.
  { rewrite Hr, Hf. intros [? ?]. split; [by eapply ends_keep|done]. }
  assert ((∃ ds, active p i s E ds) → (slots_of (s, pc) = held (l_packets s)) → ∃ ds, active p' i s E ds) as Ha.
  { intros [ds [e1 e2 e3 e4 e5]] Esl. exists ds. destruct (ring_ok_keep p p' (ring p i) Hkr e4) as [h1 h2].
    assert (∀ m k, l_packets s !! m = Some (Some k) → p_packets p' !! k = p_packets p !! k) as Hsl.
    { intros m k Hm. apply Hk. rewrite Esl. apply elem_of_app. left. apply cnt_elem. by eapply cnt_held_lookup. }
    split; rewrite ?Hr, ?Hs, ?h2, ?Hf; try done.
    - intros m d Hm. destruct (e2 m d Hm) as (l & ? & ?). exists l. split; [done|]. unfold good. by erewrite Hsl.
    - intros k Hfd. destruct (e5 k Hfd) as (j1 & j2 & j3). split; [done|]. split; [|done]. unfold is_end, err. by erewrite Hsl. }
  split.
  - unfold thread_ok. cbn [fst snd]. destruct pc; try (by rewrite Hs); try (intros; by apply Ha).
    intros (h1 & h2 & h3). rewrite Hr, Hf, Hs. destruct (ring_ok_keep p p' (ring p i) Hkr h1) as [? ->]. done.
  - unfold no_end. cbn [snd]. destruct pc; done.
Qed.

(** What a thread owns, beside what another owns and the hasher. *)
Lemma owned_thread p xs H i x k :
  xs !! i = Some x → length xs = length (p_threads p) → (cnt k (slots_of x) + cnt k (ring p i) + cnt k H ≤ owned p xs H k)%nat.
Proof.
  intros Hi Hlen. unfold owned. assert (i < length (p_threads p))%nat as Hlt by (rewrite <- Hlen; by eapply lookup_lt_Some).
  pose proof (cnt_concat_lookup k (map slots_of xs) i (slots_of x)) as K1. rewrite list_lookup_fmap, Hi in K1. specialize (K1 eq_refl).
  pose proof (cnt_concat_lookup k (rings p) i (ring p i) (rings_lookup_lt p i Hlt)) as K2. lia.
Qed.

Lemma owned_two p xs H i j x y k :
  xs !! i = Some x → xs !! j = Some y → i ≠ j → length xs = length (p_threads p) →
  (cnt k (slots_of x) + cnt k (ring p i) + (cnt k (slots_of y) + cnt k (ring p j)) + cnt k H ≤ owned p xs H k)%nat.
Proof.
  intros Hi Hj Hne Hlen. unfold owned. assert (i < length (p_threads p))%nat by (rewrite <- Hlen; by eapply lookup_lt_Some).
  assert (j < length (p_threads p))%nat by (rewrite <- Hlen; by eapply lookup_lt_Some).
  pose proof (cnt_concat_two k (map slots_of xs) i j (slots_of x) (slots_of y)) as K1. rewrite !list_lookup_fmap, Hi, Hj in K1.
  specialize (K1 eq_refl eq_refl Hne). pose proof (cnt_concat_two k (rings p) i j _ _ (rings_lookup_lt p i ltac:(done)) (rings_lookup_lt p j ltac:(done)) Hne). lia.
Qed.

(** The frame of thread [i]. *)
Definition rest p xs H i x : loc → nat := λ k, (owned p xs H k - (cnt k (slots_of x) + cnt k (ring p i)))%nat.

Lemma own_rest n p xs H ds i x :
  inv n p xs H ds → xs !! i = Some x → own p (λ k, cnt k (slots_of x) + cnt k (ring p i) + rest p xs H i x k)%nat.
Proof.
  intros [h1 h2 h3 h4 h5] Hi. eapply own_le; [|exact h4]. intros k. cbn beta. unfold rest.
  pose proof (owned_thread p xs H i x k Hi). lia.
Qed.

(** A step of thread [i]. *)
Lemma inv_worker n p xs H ds i x x' p' :
  inv n p xs H ds → xs !! i = Some x →
  own p' (λ k, cnt k (slots_of x') + cnt k (ring p' i) + rest p xs H i x k)%nat → keep p p' (rest p xs H i x) → others i p p' →
  thread_ok p' i x' (expected n i ds) →
  inv n p' (<[i := x']> xs) H ds ∧ (noend p xs → no_end p' i x' → noend p' (<[i := x']> xs)) ∧ (∀ k, k ∈ H → p_packets p' !! k = p_packets p !! k).
Proof.
  intros [h1 h2 h3 h4 h5] Hi Ho Hk [Hfix Hoth] Hok. assert (i < length xs)%nat as Hlt by by eapply lookup_lt_Some.
  assert (length (p_threads p') = length (p_threads p) ∧ t_type (p_hasher p') = t_type (p_hasher p)) as [Hlen Hty].
  { unfold fixed in Hfix. split; congruence. }
  assert (∀ j y, j ≠ i → xs !! j = Some y → ∀ E, (thread_ok p j y E → thread_ok p' j y E) ∧ (no_end p j y → no_end p' j y)) as Hfr.
  { intros j y Hne Hj E. destruct (Hoth j Hne) as (r1 & f1 & s1). apply thread_frame; try done. intros k Hin. apply Hk. unfold rest.
    apply cnt_elem in Hin. rewrite cnt_app in Hin. pose proof (owned_two p xs H i j x y k Hi Hj ltac:(done) ltac:(lia)). lia. }
  split; [|split].
  - split; [by rewrite length_insert|congruence|unfold trace_has_dedicated_hasher in *; by rewrite Hty| |].
    + eapply own_le; [|exact Ho]. intros k. unfold owned at 1, rest.
      change (map slots_of (<[i := x']> xs)) with (slots_of <$> (<[i := x']> xs)). rewrite list_fmap_insert. change (slots_of <$> xs) with (map slots_of xs).
      assert (rings p' = <[i := ring p' i]> (rings p)) as -> by (apply rings_insert; [done|intros j Hj; by apply Hoth|lia]).
      pose proof (cnt_concat_insert k (map slots_of xs) i (slots_of x) (slots_of x')) as K1. rewrite list_lookup_fmap, Hi in K1.
      specialize (K1 eq_refl). pose proof (cnt_concat_insert k (rings p) i (ring p i) (ring p' i) (rings_lookup_lt p i ltac:(lia))) as K2.
      pose proof (owned_thread p xs H i x k Hi ltac:(lia)) as K3. unfold owned in *. lia.
    + intros j y Hj. destruct (decide (j = i)) as [->|Hne]; [rewrite list_lookup_insert_eq in Hj by done; by injection Hj as <-|].
      rewrite list_lookup_insert_ne in Hj by done. by apply (Hfr j y), h5.
  - intros Hn Hni j y Hj. destruct (decide (j = i)) as [->|Hne]; [rewrite list_lookup_insert_eq in Hj by done; by injection Hj as <-|].
    rewrite list_lookup_insert_ne in Hj by done. by apply (Hfr j y Hne Hj []), Hn.
  - intros k Hin. apply Hk. unfold rest. apply cnt_elem in Hin. pose proof (owned_thread p xs H i x k Hi ltac:(lia)). lia.
Qed.

(** The threads keep what they have. *)
Lemma inv_frame n p p' xs H H' ds :
  inv n p xs H ds → fixed p' = fixed p → (∀ j, ring p' j = ring p j ∧ fdata p' j = fdata p j ∧ seen j p' = seen j p) →
  own p' (owned p xs H') → keep p p' (λ k, cnt k (concat (map slots_of xs)) + cnt k (concat (rings p)))%nat →
  inv n p' xs H' ds ∧ (noend p xs → noend p' xs).
Proof.
  intros [h1 h2 h3 h4 h5] Hfix Hv Ho Hk. assert (length (p_threads p') = length (p_threads p) ∧ t_type (p_hasher p') = t_type (p_hasher p)) as [Hlen Hty].
  { unfold fixed in Hfix. split; congruence. }
  assert (∀ j y, xs !! j = Some y → ∀ E, (thread_ok p j y E → thread_ok p' j y E) ∧ (no_end p j y → no_end p' j y)) as Hfr.
  { intros j y Hj E. destruct (Hv j) as (r1 & f1 & s1). apply thread_frame; try done. intros k Hin. apply Hk.
    apply cnt_elem in Hin. rewrite cnt_app in Hin. pose proof (owned_thread p xs [] j y k Hj ltac:(lia)) as K. unfold owned in K. rewrite cnt_nil in K. lia. }
  split; [|intros Hn j y Hj; by apply (Hfr j y Hj []), Hn].
  split; [done|congruence|unfold trace_has_dedicated_hasher in *; by rewrite Hty| |intros j y Hj; by apply (Hfr j y), h5].
  eapply own_le; [|exact Ho]. intros k. unfold owned. rewrite (rings_eq p p'); [done|done|]. intros j. apply Hv.
Qed.

Lemma inv_same n p p' xs H ds : inv n p xs H ds → same p p' → inv n p' xs H ds ∧ (noend p xs → noend p' xs).
Proof.
  intros Hi (s1 & s2 & s3). apply (inv_frame n p p' xs H H ds); try done; [|by apply keep_pool].
  apply (own_pool p); [done|]. apply Hi.
Qed.

Lemma inv_alloc n p p' l xs H ds :
  inv n p xs H ds → alloc_packet p = (p', l) →
  inv n p' xs (l :: H) ds ∧ (noend p xs → noend p' xs) ∧ (l ∉ H) ∧ ∀ k, k ∈ H → p_packets p' !! k = p_packets p !! k.
Proof.
  intros Hi Ha. destruct (own_alloc _ _ _ _ (iv_own _ _ _ _ _ Hi) Ha) as (q1 & q2 & q3 & q4 & q5).
  destruct (inv_frame n p p' xs H (l :: H) ds) as [g1 g2]; try done.
  { eapply own_le; [|exact q1]. intros k. unfold owned. rewrite cnt_cons. lia. }
  { eapply keep_le; [|exact q2]. intros k. unfold owned. lia. }
  split; [done|]. split; [done|]. split.
  - intros Hin. apply cnt_elem in Hin. unfold owned in q3. lia.
  - intros k Hin. apply q2. apply cnt_elem in Hin. unfold owned. lia.
Qed.

(** The hasher's packet is changed. *)
Lemma inv_set n p l pk xs H ds :
  inv n p xs (l :: H) ds →
  inv n (set_packet_at p l pk) xs (l :: H) ds ∧ (noend p xs → noend (set_packet_at p l pk) xs).
Proof.
  intros Hi. pose proof (iv_own _ _ _ _ _ Hi) as Ho. apply (inv_frame n p _ xs (l :: H)); try done.
  - apply own_set; [done|]. unfold owned. rewrite cnt_cons, one_self. lia.
  - apply keep_set. destruct (Ho l) as [K _]. unfold owned in K. rewrite cnt_cons, one_self in K. lia.
Qed.

Lemma inv_drop n p xs H H' ds : (∀ k, (cnt k H' ≤ cnt k H)%nat) → inv n p xs H ds → inv n p xs H' ds.
Proof.
  intros Hle [h1 h2 h3 h4 h5]. split; try done. eapply own_le; [|exact h4]. intros k. unfold owned. specialize (Hle k). lia.
Qed.

(** A location is added to the queue of a thread. *)
Lemma thread_push p p' i x E l :
  p_packets p' = p_packets p → ring p' i = ring p i ++ [l] → fdata p' i = fdata p i → seen i p' = seen i p →
  wf p l → good p l = None ∨ no_end p i x →
  (thread_ok p i x E → thread_ok p' i x (E ++ option_list (good p l))) ∧ (no_end p i x → ¬ is_end p l → no_end p' i x).
Proof.
  intros Hp Hr Hf Hs Hw Hl. destruct x as [s pc].
  assert (goods p' (ring p' i) = goods p (ring p i) ++ option_list (good p l)) as Hg.
  { rewrite (goods_packets p p') by done. by rewrite Hr, goods_app, goods_nil. }
  assert (good p l = None ∨ Forall (λ k, ¬ is_end p k) (ring p i) ∧ fdata p i = None → ring_ok p (ring p i) → ring_ok p' (ring p' i)) as Hok.
  { intros Hl' Hok. rewrite Hr. apply (ring_ok_keep p); [by intros; rewrite Hp|]. apply ring_ok_snoc; [done|done|]. tauto. }
  split.
  - assert (good p l = None ∨ Forall (λ k, ¬ is_end p k) (ring p i) ∧ fdata p i = None → (∃ ds, active p i s E ds) →
      ∃ ds, active p' i s (E ++ option_list (good p l)) ds) as Ha.
    { intros Hl' [ds [e1 e2 e3 e4 e5]]. exists ds. split; [done|by eapply holds_packets| |by apply Hok|].
      - rewrite Hs, Hg, <- e3. by rewrite !app_assoc.
      - rewrite Hf. intros k Hk. destruct (e5 k Hk) as (j1 & j2 & j3). split; [done|]. split; [by apply (end_packets p)|].
        rewrite Hg, j3. destruct Hl' as [->|[_ ?]]; [done|congruence]. }
    unfold thread_ok. cbn [fst snd]. destruct pc; cbn in Hl; try (by apply Ha); try (intros K; rewrite Hs; by apply prefix_app_r).
    intros (h1 & h2 & h3). split; [by apply Hok|]. split; [congruence|]. rewrite Hs, Hg, <- h3. by rewrite app_assoc.
  - intros Hn He. unfold no_end in *. cbn [snd] in *.
    assert (Forall (λ k, ¬ is_end p k) (ring p i) ∧ fdata p i = None → Forall (λ k, ¬ is_end p' k) (ring p' i) ∧ fdata p' i = None) as K.
    { intros [k1 k2]. rewrite Hr, Hf. split; [|done]. apply (ends_keep p); [by intros; rewrite Hp|]. apply Forall_app; auto. }
    destruct pc; auto.
Qed.

Lemma inv_push (cfg : user_configuration) n p xs l H ds i p' :
  inv n p xs (l :: H) ds → ring_write (cfg := cfg) p i l = Ok p' → wf p l →
  (good p l = None ∨ noend p xs ∧ ∃ d, good p l = Some d ∧ route n d = i) →
  inv n p' xs H (ds ++ option_list (good p l)) ∧ (noend p xs → ¬ is_end p l → noend p' xs) ∧ pool p' = pool p ∧ fixed p' = fixed p.
Proof.
  intros [h1 h2 h3 h4 h5] Hw Hwf Hg. unfold ring_write in Hw. obind_inv Hw. rename a into t. destruct (_ <? _); [|done].
  injection Hw as <-. apply get_perpkt in Hstep as (Ht & r0 & f0). set (t' := t_set_rbuffer t (t_rbuffer t ++ [l])).
  destruct (set_perpkt_views p i t t' Ht) as (e1 & e2 & e3 & [e4 e5] & e6). set (p' := set_thread p _ t') in *. clearbody p'.
  cbn in e1, e2. rewrite <- r0 in e1. rewrite <- f0 in e2. clear t' r0 f0.
  assert (p_packets p' = p_packets p) as Hp by (unfold pool in e3; congruence).
  assert (length (p_threads p') = length (p_threads p) ∧ t_type (p_hasher p') = t_type (p_hasher p)) as [Hlen Hty] by (unfold fixed in e4; split; congruence).
  apply lookup_lt_Some in Ht as Hlt.
  assert (∀ j y, xs !! j = Some y → thread_ok p' j y (expected n j (ds ++ option_list (good p l))) ∧ (noend p xs → ¬ is_end p l → no_end p' j y)) as Hth.
  { intros j y Hj. rewrite expected_app. destruct (decide (j = i)) as [->|Hne].
    - destruct (thread_push p p' i y (expected n i ds) l) as [k1 k2]; try done.
      { destruct Hg as [?|[Hn _]]; [by left|right; by apply Hn]. }
      split; [|intros Hn He; by apply k2, He; apply Hn].
      assert (expected n i (option_list (good p l)) = option_list (good p l)) as ->; [|by apply k1, h5].
      destruct Hg as [->|[_ (d & -> & Hd)]]; [done|]. by apply expected_self.
    - destruct (e5 j Hne) as (r1 & f1 & s1). destruct (thread_frame p p' j y (expected n j ds)) as [k1 k2]; try done; [by intros; rewrite Hp|].
      split; [|intros Hn _; by apply k2, Hn]. assert (expected n j (option_list (good p l)) = []) as ->; [|rewrite app_nil_r; by apply k1, h5].
      destruct Hg as [->|[_ (d & -> & Hd)]]; [done|]. apply expected_other. congruence. }
  split; [|split; [intros Hn He j y Hj; by apply Hth|done]].
  split; [done|congruence|unfold trace_has_dedicated_hasher in *; by rewrite Hty| |intros j y Hj; by apply Hth].
  apply (own_pool p); [done|]. eapply own_le; [|exact h4]. intros k. unfold owned. 
  assert (rings p' = <[i := ring p' i]> (rings p)) as -> by (apply rings_insert; [done|intros j Hj; by apply e5|done]).
  pose proof (cnt_concat_insert k (rings p) i (ring p i) (ring p' i) (rings_lookup_lt p i Hlt)) as K. rewrite e1 in K |- *.
  rewrite cnt_app, cnt_cons, cnt_nil in K. rewrite cnt_cons. lia.
Qed.
End routing.

(** ** The hasher *)
Section hasher.
Context {D : Type} {cfg : user_configuration} {hash : D → Z}.
Local Abbreviation ptrace := (@ptrace D).
Local Abbreviation worker := (perpkt_locals * perpkt_pc)%type.
Local Abbreviation inv := (inv (hash := hash)).
Implicit Types (p : ptrace) (n i j : nat) (l k : loc) (xs : list worker) (x : worker) (H : list loc) (E ds : list D).

Definition hasher_slots (h : hasher_locals * perpkt_pc) : list loc :=
  match h.2 with PcDone => [] | _ => if h_skipped h.1 then option_list (h_packet h.1) else [] end.

(** The result of the last read, before it is sent to the threads. *)
Definition hasher_ok p (h : hasher_locals * perpkt_pc) : Prop :=
  h.2 = PcEof → ∃ l, h_packet h.1 = Some l ∧ h_skipped h.1 = true ∧ (err p l = 0 ∨ err p l = -1).

Lemma inv_error n p xs l H ds e p' :
  inv n p xs (l :: H) ds → set_error p l e = Ok p' →
  inv n p' xs (l :: H) ds ∧ (noend p xs → noend p' xs) ∧ err p' l = e ∧ fixed p' = fixed p ∧ ∀ k, k ≠ l → err p' k = err p k.
Proof.
  intros Hi Hs. unfold set_error in Hs. obind_inv Hs. injection Hs as <-. set (pk := {| pp_error := e |}). destruct (inv_set n p l pk xs H ds Hi) as [h1 h2].
  split; [exact h1|]. split; [exact h2|]. split; [unfold err; cbn; by rewrite lookup_insert_eq|]. split; [done|].
  intros k Hk. unfold err. cbn. by rewrite lookup_insert_ne.
Qed.

Lemma inv_input n p xs H ds input seq delays :
  inv n p xs H ds → inv n (p_set_io p input seq delays (p_log p)) xs H ds ∧ (noend p xs → noend (p_set_io p input seq delays (p_log p)) xs).
Proof.
  intros [h1 h2 h3 h4 h5]. split; [split; [exact h1|exact h2|exact h3|exact h4|]|exact (λ Hn, Hn)].
  intros i x Hx. apply (thread_frame p); try done. by apply h5.
Qed.

(** A packet is read and sent to its thread. *)
Lemma hash_and_queue_spec n p xs l ds d p' :
  tick_count cfg = 0 → inv n p xs [l] ds → noend p xs → good p l = Some d → hash_and_queue (cfg := cfg) (hash := hash) p l = Ok p' →
  inv n p' xs [] (ds ++ [d]) ∧ noend p' xs ∧ p_input p' = p_input p.
Proof.
  intros Ht Hi Hn Hg Hq. unfold hash_and_queue in Hq. obind_inv Hq. rename a into pk.
  assert (p_packets p !! l = Some pk) as Hl by (unfold load in Hstep; destruct (p_packets p !! l); [by injection Hstep as ->|done]).
  assert (0 < pp_error pk ∧ pp_data pk = Some d) as [He Hd].
  { unfold good in Hg. rewrite Hl in Hg. destruct (Z.ltb_spec 0 (pp_error pk)); done. }
  rewrite Hd in Hq. cbn [obind] in Hq. set (pk' := {| pp_error := _ |}) in Hq. destruct (inv_set n p l pk' xs [] ds Hi) as [h1 h2].
  specialize (h2 Hn). set (p1 := set_packet_at p l pk') in *.
  assert (good p1 l = Some d) as Hg1.
  { unfold good, p1. cbn. rewrite lookup_insert_eq. cbn. by rewrite (proj2 (Z.ltb_lt 0 (pp_error pk)) He). }
  assert (p_input p1 = p_input p) as Hin by done. clearbody p1. obind_inv Hq. unfold umod in Hstep0.
  destruct (Z.eqb_spec (perpkt_thread_count p1) 0); [done|]. injection Hstep0 as <-. obind_inv Hq. obind_inv Hq. obind_inv Hq.
  rewrite Ht in Hq. cbn in Hq. injection Hq as <-.
  apply (inv_push (hash := hash) cfg n p1 xs l [] ds) in Hstep2; [|done|by left; eexists|].
  - rewrite Hg1 in Hstep2. destruct Hstep2 as (k1 & k2 & k3 & k4). split; [done|]. split; [|unfold fixed in k4; congruence].
    apply k2; [done|]. intros [K _]. apply good_err in Hg1. lia.
  - right. split; [done|]. exists d. split; [done|]. unfold route, perpkt_thread_count, Zlen. by rewrite (iv_threads _ _ _ _ _ h1).
Qed.

Lemma hasher_round_spec (size : D → Z) (eof : Z) n p xs h ds halt p' h' pc :
  (∀ d, 0 < size d) → tick_count cfg = 0 → eof = 0 ∨ eof = -1 →
  inv n p xs (hasher_slots (h, PcLoop)) ds → noend p xs →
  hasher_round size (cfg := cfg) (eof := eof) (hash := hash) p h halt = Ok (p', h', pc) →
  ∃ ds', p_input p = ds' ++ p_input p' ∧ inv n p' xs (hasher_slots (h', pc)) (ds ++ ds') ∧ noend p' xs ∧ hasher_ok p' (h', pc) ∧ pc ≠ PcDone.
Proof.
  intros Hsize Htick Heof Hi Hn Hr. unfold hasher_round in Hr.
  destruct (if h_skipped h then (p, h_packet h) else _) as [p1 packet] eqn:E.
  destruct packet as [l|]; [|done].
  assert (inv n p1 xs [l] ds ∧ noend p1 xs ∧ p_input p1 = p_input p) as (h1 & h2 & h3).
  { unfold hasher_slots in Hi. cbn in Hi. destruct (h_skipped h).
    - injection E as <- E. by rewrite E in Hi.
    - destruct (alloc_packet p) as [p0 l0] eqn:Ea. injection E as <- <-. destruct (inv_alloc n p p0 l0 xs [] ds Hi Ea) as (k1 & k2 & _).
      split; [done|]. split; [by apply k2|]. destruct (own_alloc _ _ _ _ (iv_own _ _ _ _ _ Hi) Ea) as (_ & _ & _ & q4 & _).
      unfold fixed in q4. congruence. }
  clear E Hi Hn. rewrite <- h3. clear h3 p.
  set (again := {| h_packet := Some l; h_skipped := true |}) in Hr.
  (* the rounds in which nothing is read *)
  assert (∀ q pc, inv n q xs [l] ds → noend q xs → fixed q = fixed p1 → pc = PcLoop ∨ pc = PcPaused ∨ pc = PcEof ∧ (err q l = 0 ∨ err q l = -1) →
    ∃ ds', p_input p1 = ds' ++ p_input q ∧ inv n q xs (hasher_slots (again, pc)) (ds ++ ds') ∧ noend q xs ∧ hasher_ok q (again, pc) ∧ pc ≠ PcDone) as K.
  { intros q pc0 Hq Hnq Hf Hpc. exists []. rewrite app_nil_r. split; [unfold fixed in Hf; cbn; congruence|].
    split; [by destruct Hpc as [->|[->|[-> _]]]|]. split; [done|].
    split; [|by destruct Hpc as [->|[->|[-> _]]]]. intros Eof. cbn in Eof. exists l. split; [done|]. split; [done|].
    destruct Hpc as [->|[->|[-> ?]]]; done. }
  assert (∀ q, same p1 q → inv n q xs [l] ds ∧ noend q xs ∧ fixed q = fixed p1) as Ks.
  { intros q Sq. destruct (inv_same n p1 q xs [l] ds h1 Sq) as [? ?]. split; [done|]. split; [auto|apply Sq]. }
  destruct halt.
  { obind_inv Hr. injection Hr as <- <- <-. destruct (inv_error n p1 xs l [] ds 0 a h1 Hstep) as (k1 & k2 & k3 & k4 & _).
    apply K; auto. }
  destruct (t_messages (p_hasher p1)) as [|m ms].
  - obind_inv Hr. destruct a as [p2 ret]. unfold read_packet in Hstep. obind_inv Hstep. destruct (p_started p1); cbn [negb] in Hstep.
    2:{ obind_inv Hstep. injection Hstep as <- <-. cbn in Hr. injection Hr as <- <- <-.
        destruct (inv_error n p1 xs l [] ds _ a0 h1 Hstep1) as (k1 & k2 & k3 & k4 & _). apply K; auto. }
    destruct (p_input p1) as [|d input] eqn:Ein.
    { obind_inv Hstep. injection Hstep as <- <-. destruct (inv_error n p1 xs l [] ds _ a0 h1 Hstep1) as (k1 & k2 & k3 & k4 & _).
      rewrite (proj2 (Z.ltb_lt eof 1)) in Hr by lia. injection Hr as <- <- <-. apply K; auto. right. right. split; [done|]. by rewrite k3. }
    injection Hstep as <- <-. rewrite (proj2 (Z.ltb_ge (size d) 1)) in Hr by (specialize (Hsize d); lia). obind_inv Hr. injection Hr as <- <- <-.
    set (p0 := p_set_io p1 _ _ _ _) in Hstep. destruct (inv_input n p1 xs [l] ds input (u64 (p_seq p1 + 1)) (p_delays p1) h1) as [g1 g2].
    specialize (g2 h2). fold p0 in g1, g2. set (pk := {| pp_error := size d |}) in Hstep. destruct (inv_set n p0 l pk xs [] ds g1) as [k1 k2].
    apply (hash_and_queue_spec n _ xs l ds d) in Hstep; [|done|done|auto|].
    + destruct Hstep as (m1 & m2 & m3). exists [d]. split; [rewrite m3; done|]. split; [done|]. split; [done|]. split; [by intros Eof|done].
    + unfold good. cbn. rewrite lookup_insert_eq. cbn. by rewrite (proj2 (Z.ltb_lt 0 (size d)) (Hsize d)).
  - set (p2 := set_thread p1 _ _) in Hr. assert (same p1 p2) as S2 by (by eapply same_set_thread). clearbody p2.
    destruct (Ks p2 S2) as (g1 & g2 & g3). destruct (m_code m =? MESSAGE_DO_PAUSE).
    { obind_inv Hr. obind_inv Hr. obind_inv Hr. injection Hr as <- <- <-. apply same_lock in Hstep. apply same_thread_change in Hstep0.
      apply same_unlock in Hstep1. destruct (Ks a1) as (? & ? & ?); [by do 3 (etrans; [eassumption|])|]. apply K; auto. }
    destruct (m_code m =? MESSAGE_DO_STOP); [|injection Hr as <- <- <-; apply K; auto].
    obind_inv Hr. obind_inv Hr. obind_inv Hr. injection Hr as <- <- <-.
    destruct (inv_error n p2 xs l [] ds 0 a1 g1 Hstep1) as (k1 & k2 & k3 & k4 & _). apply K; auto. congruence.
Qed.

(** The result of the last read is sent to a thread. *)
Lemma push_bad n p xs l H ds i p' :
  inv n p xs (l :: H) ds → ring_write (cfg := cfg) p i l = Ok p' → err p l ≤ 0 → err p l ≠ READ_TICK →
  inv n p' xs H ds ∧ (noend p xs → err p l = READ_MESSAGE → noend p' xs) ∧ pool p' = pool p ∧ fixed p' = fixed p.
Proof.
  intros Hi Hw He Ht. pose proof (bad_good p l He) as Hg.
  apply (inv_push (hash := hash) cfg n p xs l H ds) in Hw; [|done|by right|by left]. rewrite Hg, app_nil_r in Hw.
  destruct Hw as (h1 & h2 & h3 & h4). split; [done|]. split; [|done]. intros Hn Hm. apply h2; [done|]. by intros [_ ?].
Qed.

Lemma broadcast_spec n l xs ds m : ∀ p i p',
  inv n p xs [l] ds → err p l = 0 ∨ err p l = -1 → hasher_broadcast (cfg := cfg) m p l i = Ok p' → inv n p' xs [] ds ∧ p_input p' = p_input p.
Proof.
  induction m as [|m IH]; intros p i p' Hi He Hb; cbn [hasher_broadcast] in Hb.
  { injection Hb as <-. split; [|done]. eapply inv_drop; [|exact Hi]. intros k. cbn. lia. }
  obind_inv Hb. destruct a as [p1 b]. case_bool_decide as Em.
  - subst m. injection Hstep as <- <-. obind_inv Hb. obind_inv Hb. obind_inv Hb. obind_inv Hb. cbn in Hb. injection Hb as <-.
    apply same_lock in Hstep. apply same_unlock in Hstep2. destruct (inv_same n p a xs [l] ds Hi Hstep) as [h1 _].
    assert (inv n a1 xs [] ds ∧ fixed a1 = fixed p) as [h2 h3].
    { case_bool_decide; [injection Hstep1 as <-; split; [eapply inv_drop; [|exact h1]; intros k; cbn; lia|apply Hstep]|].
      rewrite <- (same_err p a) in He by done. apply (push_bad n a xs l [] ds) in Hstep1 as (k1 & _ & _ & k2); [|done|lia|lia].
      split; [done|]. rewrite k2. apply Hstep. }
    destruct (inv_same n a1 a2 xs [] ds h2 Hstep2) as [h4 _]. split; [done|]. destruct Hstep2 as (_ & k & _). unfold fixed in *. congruence.
  - destruct (alloc_packet p) as [p0 b0] eqn:Ea. destruct (inv_alloc n p p0 b0 xs [l] ds Hi Ea) as (h1 & _ & h2 & h3).
    assert (fixed p0 = fixed p) as Hf0 by (destruct (own_alloc _ _ _ _ (iv_own _ _ _ _ _ Hi) Ea) as (_ & _ & _ & q4 & _); done).
    assert (err p0 l = err p l) as E0 by (unfold err; by rewrite h3 by set_solver).
    obind_inv Hstep. obind_inv Hstep. injection Hstep as <- <-.
    destruct (inv_error n p0 xs b0 [l] ds _ a0 h1 Hstep1) as (k1 & _ & k2 & k3 & k4).
    assert (pp_error a = err p l) as Ea0.
    { rewrite <- E0. unfold load in Hstep0. unfold err. destruct (p_packets p0 !! l); [by injection Hstep0 as ->|done]. }
    rewrite Ea0 in k2. assert (err a0 l = err p l) as El by (rewrite k4; [done|]; intros ->; set_solver). clear Hstep0 Hstep1 Ea0 a.
    obind_inv Hb. obind_inv Hb. obind_inv Hb. obind_inv Hb. apply same_lock in Hstep. apply same_unlock in Hstep2.
    destruct (inv_same n a0 a xs [b0; l] ds k1 Hstep) as [m1 _].
    assert (inv n a2 xs [l] ds ∧ fixed a2 = fixed p ∧ err a2 l = err p l) as (m2 & m3 & m4).
    { assert (fixed a = fixed p) as Hfa by (destruct Hstep as (_ & -> & _); congruence).
      assert (err a l = err p l) as Hel by (by rewrite (same_err a0 a)).
      case_bool_decide; [injection Hstep1 as <-; split; [eapply inv_drop; [|exact m1]; intros k; cbn; lia|done]|].
      assert (err a b0 = err p l) as Heb by (by rewrite (same_err a0 a)).
      apply (push_bad n a xs b0 [l] ds) in Hstep1 as (q1 & _ & q2 & q3); [|done|lia|lia].
      split; [done|]. split; [congruence|]. rewrite <- Hel. apply err_packets. unfold pool in q2. congruence. }
    destruct (inv_same n a2 a3 xs [l] ds m2 Hstep2) as [m5 _].
    apply IH in Hb; [|done|rewrite (same_err a2 a3) by done; by rewrite m4]. destruct Hb as [? Hin]. split; [done|].
    destruct Hstep2 as (_ & k & _). unfold fixed in *. congruence.
Qed.

Lemma hasher_finish_spec n p xs h ds p' :
  inv n p xs (hasher_slots (h, PcEof)) ds → hasher_ok p (h, PcEof) → hasher_finish (cfg := cfg) p h = Ok p' →
  inv n p' xs (hasher_slots (h, PcDone)) ds ∧ p_input p' = p_input p.
Proof.
  intros Hi Hok Hf. destruct (Hok eq_refl) as (l & Hp & Hsk & He). cbn in Hp, Hsk. unfold hasher_slots in Hi. cbn in Hi. rewrite Hp, Hsk in Hi.
  unfold hasher_finish in Hf. rewrite Hp in Hf. obind_inv Hf. apply (broadcast_spec n l xs ds) in Hstep as [h1 h2]; [|done|done].
  apply same_thread_change in Hf. split; [by apply (inv_same n a)|]. destruct Hf as (_ & k & _). unfold fixed in k. congruence.
Qed.

(** ** The main thread *)
Lemma ask_perpkts_spec n xs H ds m : ∀ p self i p',
  inv n p xs H ds → ppause_ask_perpkts (cfg := cfg) m p self i = Ok p' →
  inv n p' xs H ds ∧ (noend p xs → noend p' xs) ∧ p_input p' = p_input p ∧ ∀ k, k ∈ H → err p' k = err p k.
Proof.
  induction m as [|m IH]; intros p self i p' Hi Ha; cbn [ppause_ask_perpkts] in Ha; [by injection Ha as <-|].
  obind_inv Ha. rename a into p4.
  assert (inv n p4 xs H ds ∧ (noend p xs → noend p4 xs) ∧ p_input p4 = p_input p ∧ ∀ k, k ∈ H → err p4 k = err p k) as (h1 & h2 & h3 & h4).
  { clear IH Ha. case_bool_decide; [by injection Hstep as <-|]. obind_inv Hstep. apply same_message in Hstep0.
    destruct (inv_same n p a xs H ds Hi Hstep0) as [g1 g2]. assert (p_input a = p_input p) as Hin.
    { destruct Hstep0 as (_ & k & _). unfold fixed in k. congruence. }
    assert (∀ k, err a k = err p k) as Her by (intros k; by apply same_err).
    destruct (trace_has_dedicated_hasher a); [|by injection Hstep as <-].
    destruct (alloc_packet a) as [p0 b] eqn:Ea. destruct (inv_alloc n a p0 b xs H ds g1 Ea) as (k1 & k2 & k3 & k4).
    assert (fixed p0 = fixed a) as Hf0 by (destruct (own_alloc _ _ _ _ (iv_own _ _ _ _ _ g1) Ea) as (_ & _ & _ & q4 & _); done).
    obind_inv Hstep. destruct (inv_error n p0 xs b H ds _ a0 k1 Hstep1) as (m1 & m2 & m3 & m4 & m5).
    apply (push_bad n a0 xs b H ds) in Hstep as (q1 & q2 & q3 & q4); [|done|lia|lia]. split; [done|]. split; [auto|].
    split; [unfold fixed in *; congruence|]. intros k Hk.
    rewrite (err_packets a0 p4) by (unfold pool in q3; congruence). rewrite m5 by (intros ->; done). rewrite <- Her. unfold err. by rewrite k4. }
  apply IH in Ha as (q1 & q2 & q3 & q4); [|done]. split_and!; [done|auto|congruence|]. intros k Hk. rewrite q4, h4; done.
Qed.

Lemma message_each_same m : ∀ p self i msg p', message_each m p self i msg = Ok p' → same p p'.
Proof.
  induction m as [|m IH]; intros p self i msg p' Hm; cbn [message_each] in Hm; [by injection Hm as <-|]. obind_inv Hm.
  apply same_message in Hstep. apply IH in Hm. by etrans.
Qed.

Lemma pstop_release_same p self p' : pstop_release p self = Ok p' → same p p'.
Proof.
  intros Hp. unfold pstop_release in Hp.
  match type of Hp with context [trace_message_perpkts ?x ?y ?z] => pose proof (same_message_perpkts x y z) as S1 end.
  destruct (trace_message_perpkts _ _ _) as [p1 z]. cbn [fst] in S1. obind_inv Hp. obind_inv Hp.
  assert (same p1 a) as S2 by (destruct (trace_has_dedicated_hasher p1); [by apply same_message in Hstep|by injection Hstep as <-]).
  apply message_each_same in Hstep0. apply same_change_state in Hp. etrans; [exact S1|]. etrans; [exact S2|]. by etrans.
Qed.

Lemma pstart_again_same p err p' ret : trace_pstart_again p err = Ok (p', ret) → same p p'.
Proof.
  intros Hp. unfold trace_pstart_again in Hp. obind_inv Hp. apply same_lock in Hstep. etrans; [exact Hstep|]. clear Hstep p. rename a into p.
  destruct (negb _); [obind_inv Hp; injection Hp as <- _; by apply same_unlock|]. destruct (bool_decide _).
  - obind_inv Hp. destruct a as [p1 r]. obind_inv Hp. injection Hp as <- _. apply same_unlock in Hstep0. etrans; [|exact Hstep0]. clear Hstep0.
    unfold trace_prestart in Hstep. destruct (negb _); [obind_inv Hstep; by injection Hstep as <- _|]. obind_inv Hstep. obind_inv Hstep.
    set (p2 := p_set_threads p _ _ _ _) in Hstep. assert (same p p2) as S2 by (by apply same_map). etrans; [exact S2|]. clearbody p2.
    destruct (err =? 0); [|by injection Hstep as <- _]. obind_inv Hstep. injection Hstep as <- _. apply same_change_state in Hstep2.
    etrans; [|exact Hstep2]. done.
  - obind_inv Hp. obind_inv Hp. injection Hp as <- _. apply same_unlock in Hstep0. etrans; [|exact Hstep0]. done.
Qed.

Lemma cnt_concat_empty {A} k (ts : list A) : cnt k (concat (map (λ _, []) ts)) = 0%nat.
Proof. by induction ts. Qed.

Lemma join_spec (reporter_cbs : option callback_set) n p xs H ds p' p'' :
  inv n p xs H ds → Forall (λ x, x.2 = PcDone) xs → join_threads p = Ok p' → join_end (reporter_cbs := reporter_cbs) p' TMain = Ok p'' →
  inv n p'' xs H ds ∧ noend p'' xs ∧ p_input p'' = p_input p ∧ ∀ k, err p'' k = err p k.
Proof.
  intros [h1 h2 h3 h4 h5] Hx Hj He. unfold join_threads in Hj. obind_inv Hj. obind_inv Hj. injection Hj as <-.
  set (p1 := p_set_threads p _ _ _ _) in *.
  assert (inv n p1 xs H ds) as Hi.
  { split; [done|by cbn; rewrite length_map|done| |].
    - eapply own_le; [|apply (own_pool p); [|exact h4]]; [|done]. intros k. unfold owned.
      assert (cnt k (concat (rings p1)) = 0%nat) as ->; [|lia]. unfold rings, p1. cbn [p_set_threads p_threads]. rewrite map_map. apply cnt_concat_empty.
    - intros i x Hi. specialize (h5 i x Hi). pose proof (Forall_lookup_1 _ _ _ _ Hx Hi) as Hpc. unfold thread_ok in *. rewrite Hpc in *. exact h5. }
  assert (same p1 p'') as S1.
  { unfold join_end in He. obind_inv He. obind_inv He. obind_inv He. apply same_change_state in He. etrans; [|exact He].
    destruct (bool_decide (t_type _ = THREAD_KEEPALIVE)); [by apply same_message in Hstep3|by injection Hstep3 as <-]. }
  split; [by apply (inv_same n p1)|]. split; [|split].
  - intros i x Hi'. pose proof (Forall_lookup_1 _ _ _ _ Hx Hi') as Hpc. unfold no_end. by rewrite Hpc.
  - destruct S1 as (_ & k & _). unfold fixed in k. change (p_input p) with (p_input p1). congruence.
  - intros k. by rewrite (same_err p1 p'').
Qed.
End hasher.

(** ** Starting *)
Section starting.
Context {D : Type} {perpkt_cbs : callback_set} {reporter_cbs : option callback_set} {cfg : user_configuration}.
Local Abbreviation ptrace := (@ptrace D).
Implicit Types (p : ptrace) (i : nat) (r : thread_ref).

Definition blank_thread (t : thread) : Prop := t_rbuffer t = [] ∧ t_format_data t = None.
Definition blank p : Prop := Forall blank_thread (p_threads p).

(** What starting threads leaves alone. *)
Definition store p := (pool p, p_input p, p_log p, length (p_threads p)).

Lemma start_thread_blank p (create : thread_ref → Z) r type p' :
  blank p → trace_start_thread p create r type = Ok (p', true) →
  blank p' ∧ store p' = store p ∧ t_type (p_hasher p') = if bool_decide (r = THasher) then type else t_type (p_hasher p).
Proof.
  intros Hb H. unfold trace_start_thread in H. obind_inv H. obind_inv H. destruct (create r =? 0); [|by obind_inv H].
  injection H as <-. destruct r as [i| | | |]; unfold set_thread; cbn [p_set_threads]; try done.
  apply get_perpkt in Hstep as (Ht & _). unfold blank, store. cbn. rewrite length_insert. split; [|done].
  apply Forall_insert; [done|]. split; [done|]. cbn. by apply (Forall_lookup_1 _ _ _ _ Hb Ht).
Qed.

Lemma start_perpkts_blank create m : ∀ p i p',
  blank p → start_perpkts m p create i = Ok (p', true) → blank p' ∧ store p' = store p ∧ t_type (p_hasher p') = t_type (p_hasher p).
Proof.
  induction m as [|m IH]; intros p i p' Hb H; cbn [start_perpkts] in H; [by injection H as <-|]. obind_inv H. destruct a as [p1 ok].
  destruct ok; [|done]. apply start_thread_blank in Hstep as (h1 & h2 & h3); [|done]. apply IH in H as (g1 & g2 & g3); [|done].
  rewrite bool_decide_false in h3 by done. split_and!; [done|congruence|congruence].
Qed.

Lemma start_threads_blank create p p' :
  blank p → start_threads (reporter_cbs := reporter_cbs) (cfg := cfg) p create = Ok (p', true) →
  blank p' ∧ store p' = store p ∧ t_type (p_hasher p') = t_type (p_hasher p).
Proof.
  intros Hb H. unfold start_threads in H. obind_inv H. destruct a as [p1 ok]. destruct ok; cbn [negb] in H; [|done].
  apply start_perpkts_blank in Hstep as (h1 & h2 & h3); [|done]. obind_inv H. destruct a as [p2 ok]. destruct ok; cbn [negb] in H; [|done].
  assert (blank p2 ∧ store p2 = store p1 ∧ t_type (p_hasher p2) = t_type (p_hasher p1)) as (g1 & g2 & g3).
  { destruct (bool_decide _); [|by injection Hstep as <-]. apply start_thread_blank in Hstep as (? & ? & K); [|done].
    by rewrite bool_decide_false in K by done. }
  destruct (0 <? tick_interval cfg); [|injection H as <-; split_and!; [done|congruence|congruence]].
  apply start_thread_blank in H as (k1 & k2 & k3); [|done]. rewrite bool_decide_false in k3 by done. split_and!; [done|congruence|congruence].
Qed.

Lemma pstart_blank p count create p' :
  trace_pstart_new (perpkt_cbs := perpkt_cbs) (reporter_cbs := reporter_cbs) (cfg := cfg) p count true 0 create = Ok (p', 0) →
  message_packet perpkt_cbs = true ∧ blank p' ∧ store p' = (pool p, p_input p, p_log p, count) ∧ trace_has_dedicated_hasher p' = true.
Proof.
  intros H. unfold trace_pstart_new, lock in H. destruct (p_lock p) eqn:Hl; [done|]. cbn [obind pthread_mutex_lock] in H.
  destruct (negb _); [by obind_inv H|]. destruct (negb _); [by repeat obind_inv H|].
  destruct (message_packet perpkt_cbs); cbn [negb] in H; [|by repeat obind_inv H]. split; [done|].
  cbn [negb Z.eqb] in H. obind_inv H. destruct a as [p1 ok]. destruct ok; cbn [negb] in H; [|by obind_inv H].
  assert (pool p1 = pool p ∧ p_input p1 = p_input p ∧ p_log p1 = p_log p ∧ t_type (p_hasher p1) = THREAD_HASHER) as (h1 & h2 & h3 & h4).
  { clear H. unfold trace_start_thread in Hstep. obind_inv Hstep. obind_inv Hstep. destruct (create THasher =? 0); [|by obind_inv Hstep].
    by injection Hstep as <-. }
  clear Hstep. obind_inv H. destruct a as [p2 ok]. set (p1' := p_set_threads p1 _ _ _ _) in Hstep.
  assert (blank p1') as Hb by (apply Forall_replicate; done).
  assert (store p1' = (pool p, p_input p, p_log p, count)) as Hs by (unfold store, p1'; cbn; rewrite length_replicate, h2, h3; by rewrite <- h1).
  assert (t_type (p_hasher p1') = THREAD_HASHER) as Hh by done. clearbody p1'.
  destruct ok; [|by repeat obind_inv H]. apply start_threads_blank in Hstep as (g1 & g2 & g3); [|done].
  obind_inv H. obind_inv H. obind_inv H. injection H as <-. unfold libtrace_change_state in Hstep0.
  injection Hstep0 as <-. unfold unlock in Hstep1. obind_inv Hstep1. injection Hstep1 as <-.
  split; [exact g1|]. split; [transitivity (store p2); [done|congruence]|].
  unfold trace_has_dedicated_hasher. cbn. by rewrite g3, Hh.
Qed.
End starting.

(** ** Steps that leave the packets alone *)
Section same_steps.
Context {D : Type} {perpkt_cbs : callback_set} {reporter_cbs : option callback_set} {cfg : user_configuration}.
Local Abbreviation ptrace := (@ptrace D).
Implicit Types (p : ptrace) (i : nat).

Lemma same_locked_change p r st p' :
  (let! p := lock p in let! p := thread_change_state p r st false in unlock p) = Ok p' → same p p'.
Proof.
  intros H. obind_inv H. obind_inv H. apply same_lock in Hstep. apply same_thread_change in Hstep0. apply same_unlock in H.
  etrans; [exact Hstep|]. by etrans.
Qed.

Lemma same_perpkt_resume p i p' : perpkt_resume (perpkt_cbs := perpkt_cbs) (reporter_cbs := reporter_cbs) p i = Ok p' → same p p'.
Proof.
  unfold perpkt_resume. intros H. obind_inv H. obind_inv H. obind_inv H. injection H as <-. apply same_lock in Hstep.
  apply same_thread_change in Hstep0. apply same_unlock in Hstep1. do 3 (etrans; [eassumption|]). apply same_send_message.
Qed.

Lemma same_hasher_resume p p' : hasher_resume p = Ok p' → same p p'.
Proof. apply same_locked_change. Qed.

Lemma same_reporter_start p p' pc : reporter_start (perpkt_cbs := perpkt_cbs) (reporter_cbs := reporter_cbs) p = Ok (p', pc) → same p p'.
Proof.
  unfold reporter_start. intros H. obind_inv H. apply same_lock in Hstep. etrans; [exact Hstep|]. destruct (bool_decide _).
  - obind_inv H. obind_inv H. injection H as <- _. apply same_thread_change in Hstep0. apply same_unlock in Hstep1. by etrans.
  - obind_inv H. injection H as <- _. apply same_unlock in Hstep0. etrans; [exact Hstep0|]. etrans; [|apply same_send_message]. apply same_send_message.
Qed.

Lemma same_reporter_resume p p' : reporter_resume (perpkt_cbs := perpkt_cbs) (reporter_cbs := reporter_cbs) p = Ok p' → same p p'.
Proof.
  unfold reporter_resume. intros H. obind_inv H. obind_inv H. obind_inv H. injection H as <-. apply same_lock in Hstep.
  apply same_thread_change in Hstep0. apply same_unlock in Hstep1. do 3 (etrans; [eassumption|]). apply same_send_message.
Qed.

Lemma same_reporter_finish p p' : reporter_finish (perpkt_cbs := perpkt_cbs) (reporter_cbs := reporter_cbs) p = Ok p' → same p p'.
Proof.
  unfold reporter_finish. intros H. apply same_thread_change in H. etrans; [|exact H].
  etrans; [by apply (same_log p (Called TReporter MESSAGE_RESULT 0 None))|]. etrans; [apply same_send_message|]. apply same_send_message.
Qed.

Lemma same_reporter_round p p' pc :
  reporter_round (perpkt_cbs := perpkt_cbs) (reporter_cbs := reporter_cbs) (cfg := cfg) p = Ok (p', pc) → same p p'.
Proof.
  unfold reporter_round. intros H. destruct (trace_has_finished p); [by injection H as <- _|]. obind_inv H. destruct a as [[[p1 code] data] sender].
  assert (same p p1) as S1.
  { destruct (t_messages (p_reporter p)); [destruct (reporter_polling cfg); [by injection Hstep as <- _ _ _|done]|].
    injection Hstep as <- _ _ _. by eapply same_set_thread. }
  etrans; [exact S1|]. destruct (code =? MESSAGE_POST_REPORTER); [injection H as <- _; by apply same_log|].
  destruct (code =? MESSAGE_DO_PAUSE); [|injection H as <- _; apply same_send_message].
  obind_inv H. obind_inv H. obind_inv H. injection H as <- _. apply same_lock in Hstep0. apply same_thread_change in Hstep1.
  apply same_unlock in Hstep2. etrans; [by apply (same_log p1 (Called TReporter MESSAGE_DO_PAUSE 0 None))|]. etrans; [apply same_send_message|]. etrans; [exact Hstep0|]. by etrans.
Qed.

Lemma same_ppause_begin p p' r : ppause_begin p = Ok (p', r) → same p p'.
Proof.
  unfold ppause_begin. intros H. obind_inv H. apply same_lock in Hstep. etrans; [exact Hstep|].
  destruct (bool_decide _); [obind_inv H; injection H as <- _; by apply same_unlock|].
  destruct (_ || _); [obind_inv H; by injection H as <- _|]. obind_inv H. obind_inv H. injection H as <- _.
  apply same_change_state in Hstep0. apply same_unlock in Hstep1. by etrans.
Qed.

Lemma same_ask_hasher p self p' : ppause_ask_hasher p self = Ok p' → same p p'.
Proof. unfold ppause_ask_hasher. destruct (trace_has_dedicated_hasher p); [apply same_message|by intros [= <-]]. Qed.

Lemma same_ask_reporter p self p' : ppause_ask_reporter (reporter_cbs := reporter_cbs) p self = Ok p' → same p p'.
Proof. unfold ppause_ask_reporter. intros H. obind_inv H. destruct a; [by apply same_message in H|by injection H as <-]. Qed.

Lemma same_ppause_end p p' : ppause_end p = Ok p' → same p p'.
Proof. unfold ppause_end. intros H. apply same_change_state in H. etrans; [|exact H]. done. Qed.

Lemma same_stop p (stopping : bool) p' : (if stopping then pstop_release p TMain else Ok p) = Ok p' → same p p'.
Proof. destruct stopping; [apply pstop_release_same|by intros [= <-]]. Qed.
End same_steps.

(** ** The system *)
Section system_delivers.
Context {D : Type} {size : D → Z} {user : nat → @ppacket D → bool} {perpkt_cbs : callback_set}
  {reporter_cbs : option callback_set} {cfg : user_configuration} {eof : Z} {hash : D → Z}.
Local Abbreviation ptrace := (@ptrace D).
Local Abbreviation system := (@system D).
Local Abbreviation inv := (inv (hash := hash)).
Local Abbreviation expected := (expected (hash := hash)).
Local Abbreviation step := (step (size := size) (user := user) (perpkt_cbs := perpkt_cbs) (reporter_cbs := reporter_cbs)
  (cfg := cfg) (eof := eof) (hash := hash) PreadHasher).
Implicit Types (p : ptrace) (i n : nat) (s : system) (input ds : list D).
Local Abbreviation frame s i x := (rest (s_trace s) (s_perpkts s) (hasher_slots (s_hasher s)) i x).
Hypothesis Hpacket : message_packet perpkt_cbs = true.
Hypothesis Hsize : ∀ d, 0 < size d.
Hypothesis Htick : tick_count cfg = 0.
Hypothesis Heof : eof = 0 ∨ eof = -1.

(** [ds] have been read from the trace. *)
Record pipeline n s ds : Prop := {
  pl_inv : inv n (s_trace s) (s_perpkts s) (hasher_slots (s_hasher s)) ds;
  pl_hasher : hasher_ok (s_trace s) (s_hasher s);
  pl_ends : (s_hasher s).2 ≠ PcDone → noend (s_trace s) (s_perpkts s);
}.

Lemma hasher_ok_keep p p' h :
  (∀ k, k ∈ hasher_slots h → err p' k = err p k) → hasher_ok p h → hasher_ok p' h.
Proof using.
  clear. intros Hk Hok He. destruct (Hok He) as (l & h1 & h2 & h3). exists l. split; [done|]. split; [done|]. rewrite Hk; [done|].
  unfold hasher_slots. rewrite He, h1, h2. set_solver.
Qed.

(** A step of a per-packet thread. *)
Lemma pipeline_worker n s ds i x x' p' :
  pipeline n s ds → s_perpkts s !! i = Some x →
  own p' (λ k, cnt k (slots_of x') + cnt k (ring p' i) + frame s i x k)%nat →
  keep (s_trace s) p' (frame s i x) → others i (s_trace s) p' →
  thread_ok p' i x' (expected n i ds) → (no_end (s_trace s) i x → no_end p' i x') →
  pipeline n (set_perpkt s p' i x'.1 x'.2) ds ∧ p_input p' = p_input (s_trace s).
Proof using.
  clear. intros [h1 h2 h3] Hi Ho Hk Hoth Hok Hn.
  destruct (inv_worker n _ _ _ ds i x x' p' h1 Hi Ho Hk Hoth Hok) as (g1 & g2 & g3). split.
  - split; cbn [set_perpkt s_trace s_perpkts s_hasher]; rewrite <- ?surjective_pairing.
    + done.
    + eapply hasher_ok_keep; [|exact h2]. intros k Hin. unfold err. by rewrite g3.
    + intros Hd. apply g2; [auto|]. apply Hn. by apply (h3 Hd).
  - destruct Hoth as [Hf _]. unfold fixed in Hf. congruence.
Qed.

(** A step that changes no packets. *)
Lemma pipeline_same n s s' ds :
  pipeline n s ds → same (s_trace s) (s_trace s') → s_perpkts s' = s_perpkts s → s_hasher s' = s_hasher s ∨ 
    (s_hasher s').1 = (s_hasher s).1 ∧ (s_hasher s).2 ≠ PcDone ∧ (s_hasher s').2 = PcLoop →
  pipeline n s' ds ∧ p_input (s_trace s') = p_input (s_trace s).
Proof using.
  clear. intros [h1 h2 h3] Hs Hx Hh. destruct (inv_same n _ _ _ _ _ h1 Hs) as [g1 g2]. 
  assert (hasher_slots (s_hasher s') = hasher_slots (s_hasher s) ∧ hasher_ok (s_trace s') (s_hasher s') ∧
          ((s_hasher s').2 ≠ PcDone → (s_hasher s).2 ≠ PcDone)) as (k1 & k2 & k3).
  { destruct Hh as [->|(e1 & e2 & e3)].
    - split; [done|]. split; [|done]. eapply hasher_ok_keep; [|exact h2]. intros k _. by apply same_err.
    - split; [|split; [intros K; congruence|done]]. unfold hasher_slots. rewrite e1, e3. by destruct (s_hasher s).2. }
  split.
  - split; rewrite ?Hx, ?k1; auto.
  - destruct Hs as (_ & k & _). unfold fixed in k. congruence.
Qed.

Lemma step_pipeline n fuel tracetime s s' ds :
  step fuel tracetime s s' → pipeline n s ds → ∃ ds', p_input (s_trace s) = ds' ++ p_input (s_trace s') ∧ pipeline n s' (ds ++ ds').
Proof using Hpacket Hsize Htick Heof.
  intros Hst Hpl.
  assert (∀ s', pipeline n s' ds ∧ p_input (s_trace s') = p_input (s_trace s) →
    ∃ ds', p_input (s_trace s) = ds' ++ p_input (s_trace s') ∧ pipeline n s' (ds ++ ds')) as K.
  { intros q [? Hq]. exists []. by rewrite app_nil_r, Hq. }
  destruct Hst as [s i l l' p' pc Hi H|s p' pc _ H|s i l l' p' pc Hi H|s i l p' Hi _ H|s i l failed p' Hi H|s h h' halt p' pc Hh H|s h p' Hh _ H
    |s h p' Hh H|s p' pc _ H|s p' _ _ H|s p' _ H|s stopping p' p'' _ H H'|s stopping p' p'' _ H H'|s stopping p' _ _ H|s stopping p' _ _ H
    |s stopping p' p'' _ _ H H'|s err p' ret _ H|s p' p'' _ Hx H H'].
  - pose proof (own_rest _ _ _ _ _ _ _ (pl_inv _ _ _ Hpl) Hi) as Ho. destruct (iv_ok _ _ _ _ _ (pl_inv _ _ _ Hpl) i _ Hi) as (t1 & t2 & t3).
    apply (start_spec (s_trace s) i (expected n i ds) (frame s i (l, PcInit))) in H; [|exact Ho|done|done|done]. apply K.
    destruct H as [[-> S]|(-> & T & Ha)].
    + apply (pipeline_worker n s ds i (l, PcInit) (l', PcDone) p'); [done|exact Hi| |by apply keep_pool, S|by apply same_others| |done].
      * apply (own_pool (s_trace s)); [apply S|]. destruct (proj2 (proj2 S) i) as (r1 & _). eapply own_le; [|exact Ho]. intros k. cbn beta. by rewrite r1.
      * cbn. destruct (proj2 (proj2 S) i) as (_ & _ & ->). rewrite <- t3. by apply prefix_app_r.
    + destruct T as (o1 & o2 & o3 & o4). apply (pipeline_worker n s ds i (l, PcInit) (l', PcLoop) p'); [done|exact Hi|exact o1|exact o2|exact o3|by exists []|exact o4].
  - apply K, (pipeline_same n s); [done|by apply same_reporter_start in H|done|by left].
  - pose proof (own_rest _ _ _ _ _ _ _ (pl_inv _ _ _ Hpl) Hi) as Ho. destruct (iv_ok _ _ _ _ _ (pl_inv _ _ _ Hpl) i _ Hi) as [ds0 Ha].
    apply (round_spec Hpacket fuel _ i l (expected n i ds) ds0 (frame s i (l, PcLoop))) in H; [|exact Ho|done|apply (pl_inv _ _ _ Hpl)].
    destruct H as (P & Hok & Hn & n1 & n2 & _). apply K.
    destruct P as (o1 & o2 & o3). apply (pipeline_worker n s ds i (l, PcLoop) (l', pc) p'); [done|exact Hi| |exact o2|exact o3|done|done].
    eapply own_le; [|exact o1]. intros k. cbn. destruct pc; cbn; lia.
  - pose proof (own_rest _ _ _ _ _ _ _ (pl_inv _ _ _ Hpl) Hi) as Ho. pose proof (iv_ok _ _ _ _ _ (pl_inv _ _ _ Hpl) i _ Hi) as [ds0 Ha].
    apply same_perpkt_resume in H. apply K.
    pose proof (same_turn i _ p' (l_packets l) (frame s i (l, PcPaused)) Ho H) as (o1 & o2 & o3 & o4).
    apply (pipeline_worker n s ds i (l, PcPaused) (l, PcLoop) p'); [done|exact Hi|exact o1|exact o2|exact o3|exists ds0; by eapply same_active|exact o4].
  - pose proof (own_rest _ _ _ _ _ _ _ (pl_inv _ _ _ Hpl) Hi) as Ho. pose proof (iv_ok _ _ _ _ _ (pl_inv _ _ _ Hpl) i _ Hi) as Hok.
    apply (finish_spec _ i l failed (frame s i (l, if failed then PcError else PcEof))) in H.
    2:{ by destruct failed. }
    destruct H as [(o1 & o2 & o3) Hs]. apply K.
    apply (pipeline_worker n s ds i (l, if failed then PcError else PcEof) (l, PcDone) p'); [done|exact Hi|exact o1|exact o2|exact o3| |done]. cbn. rewrite Hs. by destruct failed.
  - destruct Hpl as [h1 h2 h3]. rewrite Hh in h1, h2, h3.
    apply (hasher_round_spec size eof n _ (s_perpkts s) h ds) in H; [|done|done|done|done|by apply h3].
    destruct H as (ds' & e1 & e2 & e3 & e4 & e5). exists ds'. split; [done|]. by split.
  - apply K, (pipeline_same n s); [done|by apply same_hasher_resume in H|done|]. right. by rewrite Hh.
  - destruct Hpl as [h1 h2 h3]. rewrite Hh in h1, h2. destruct (hasher_finish_spec n _ _ h ds p' h1 h2 H) as [e1 e2].
    apply K. split; [|done]. split; [done|by intros ?|by intros []].
  - apply K, (pipeline_same n s); [done|by apply same_reporter_round in H|done|by left].
  - apply K, (pipeline_same n s); [done|by apply same_reporter_resume in H|done|by left].
  - apply K, (pipeline_same n s); [done|by apply same_reporter_finish in H|done|by left].
  - apply K, (pipeline_same n s); [done| |done|by left]. apply same_ppause_begin in H. apply same_ask_hasher in H'. by etrans.
  - apply K, (pipeline_same n s); [done| |done|by left]. apply same_ppause_begin in H. apply same_stop in H'. by etrans.
  - destruct Hpl as [h1 h2 h3]. destruct (ask_perpkts_spec n _ _ ds _ _ _ _ _ h1 H) as (e1 & e2 & e3 & e4).
    apply K. split; [|done]. split; [done|by eapply hasher_ok_keep|auto].
  - apply K, (pipeline_same n s); [done|by apply same_ask_reporter in H|done|by left].
  - apply K, (pipeline_same n s); [done| |done|by left]. apply same_ppause_end in H. apply same_stop in H'. by etrans.
  - apply K, (pipeline_same n s); [done|by apply pstart_again_same in H|done|by left].
  - destruct Hpl as [h1 h2 h3]. destruct (join_spec reporter_cbs n _ _ _ ds p' p'' h1 Hx H H') as (e1 & e2 & e3 & e4).
    apply K. split; [|done]. split; [done| |done]. eapply hasher_ok_keep; [|exact h2]. intros k _. apply e4.
Qed.
End system_delivers.

(** ** What the user sees *)
Section delivery.
Context {D : Type} {size : D → Z} {user : nat → @ppacket D → bool} {perpkt_cbs : callback_set}
  {reporter_cbs : option callback_set} {cfg : user_configuration} {eof : Z} {hash : D → Z}.
Local Abbreviation ptrace := (@ptrace D).
Local Abbreviation system := (@system D).
Local Abbreviation expected := (expected (hash := hash)).
Local Abbreviation step := (step (size := size) (user := user) (perpkt_cbs := perpkt_cbs) (reporter_cbs := reporter_cbs)
  (cfg := cfg) (eof := eof) (hash := hash) PreadHasher).
Implicit Types (p : ptrace) (i : nat) (s : system).

(** The packets in the slots that have not been given to the user. *)
Definition in_slots p (x : perpkt_locals) : list D :=
  goods p (held (take (Z.to_nat (l_nb_packets x - l_offset x)) (drop (Z.to_nat (l_offset x)) (l_packets x)))).

Lemma holds_goods p ds : ∀ slots a, holds p slots a ds → goods p (held (take (length ds) (drop a slots))) = ds.
Proof using.
  clear. induction ds as [|d ds IH]; intros slots a H; [done|]. apply holds_cons in H as [(l & Hl & Hd) H].
  rewrite (drop_S slots (Some l) a Hl). cbn [length take]. unfold goods, held. cbn. rewrite Hd. f_equal. by apply IH.
Qed.

Lemma started_pipeline input count create p' l h :
  h_skipped h = false →
  trace_pstart_new (perpkt_cbs := perpkt_cbs) (reporter_cbs := reporter_cbs) (cfg := cfg) (new_ptrace input) count true 0 create = Ok (p', 0) →
  message_packet perpkt_cbs = true ∧ pipeline (hash := hash) count (started_system p' l h) [] ∧ p_input p' = input.
Proof using.
  clear. intros Hh H. apply pstart_blank in H as (h1 & h2 & h3 & h4). split; [done|]. unfold store, pool in h3. injection h3 as e1 e2 e3 e4 e5 e6.
  assert (∀ i, ring p' i = [] ∧ fdata p' i = None) as Hb.
  { intros i. unfold ring, fdata. destruct (p_threads p' !! i) as [t|] eqn:Et; [|done]. exact (Forall_lookup_1 _ _ _ _ h2 Et). }
  split; [|done]. split; cbn [started_system s_trace s_perpkts s_hasher]; [|by intros ?|].
  - split; [by rewrite length_replicate|done|done| |].
    + intros k. unfold owned. rewrite e2. cbn [cnt new_ptrace p_free].
      assert (cnt k (concat (map slots_of (replicate (length (p_threads p')) (l, PcInit)))) = 0%nat) as ->
        by (clear; by induction (length (p_threads p'))).
      assert (cnt k (concat (rings p')) = 0%nat) as ->.
      { unfold rings. clear -h2. induction h2 as [|t ts [Ht _] _ IH]; [done|]. cbn. by rewrite Ht. }
      unfold hasher_slots. cbn. rewrite Hh. cbn. split; lia.
    + intros i x Hi. apply lookup_replicate in Hi as [-> _]. destruct (Hb i) as [r1 f1]. cbn. rewrite r1, f1. split; [done|]. split; [done|].
      unfold seen. by rewrite e5.
  - intros _ i x Hi. apply lookup_replicate in Hi as [-> _]. destruct (Hb i) as [r1 f1]. cbn. by rewrite r1, f1.
Qed.

Lemma steps_pipeline n fuel tracetime s s' ds :
  message_packet perpkt_cbs = true → (∀ d, 0 < size d) → tick_count cfg = 0 → eof = 0 ∨ eof = -1 →
  rtc (step fuel tracetime) s s' → pipeline (hash := hash) n s ds →
  ∃ ds', p_input (s_trace s) = ds' ++ p_input (s_trace s') ∧ pipeline (hash := hash) n s' (ds ++ ds').
Proof.
  intros H1 H2 H3 H4 Hr. revert ds. induction Hr as [s|s s1 s2 Hs _ IH]; intros ds Hp; [exists []; by rewrite app_nil_r|].
  destruct (step_pipeline H1 H2 H3 H4 _ _ _ _ _ _ Hs Hp) as (d1 & e1 & Hp1). destruct (IH _ Hp1) as (d2 & e2 & Hp2).
  exists (d1 ++ d2). rewrite e1, e2, app_assoc. split; [done|]. by rewrite app_assoc.
Qed.

(** C6: From [trace_pstart] on, with a dedicated hasher and no ticks (a tick behind a packet
    in a burst ends the thread), a trace whose reading ends with 0 or -1 and a reading
    function that gives every packet a size, whatever the threads and the main thread do: the packets that were read from the trace are the first of its
    packets; what a per-packet thread has given to the user is the beginning of those
    of them whose hash selects the thread, in their order; and while the thread
    runs or is paused, the packets in its slots and in its queue are the rest, so
    that none is lost, doubled, reordered or sent to another thread. *)
Theorem packets_delivered fuel tracetime input count create p' l h s :
  (∀ d, 0 < size d) → tick_count cfg = 0 → eof = 0 ∨ eof = -1 → h_skipped h = false →
  trace_pstart_new (perpkt_cbs := perpkt_cbs) (reporter_cbs := reporter_cbs) (cfg := cfg) (new_ptrace input) count true 0 create = Ok (p', 0) →
  rtc (step fuel tracetime) (started_system p' l h) s →
  ∃ taken, input = taken ++ p_input (s_trace s) ∧ length (s_perpkts s) = count ∧
    ∀ i x pc, s_perpkts s !! i = Some (x, pc) →
      seen i (s_trace s) `prefix_of` expected count i taken ∧
      (pc = PcLoop ∨ pc = PcPaused →
       seen i (s_trace s) ++ in_slots (s_trace s) x ++ goods (s_trace s) (ring (s_trace s) i) = expected count i taken).
Proof.
  intros Hsize Htick Heof Hh Hstart Hr. destruct (started_pipeline _ _ _ _ l h Hh Hstart) as (Hpk & Hp0 & Hin).
  destruct (steps_pipeline _ _ _ _ _ _ Hpk Hsize Htick Heof Hr Hp0) as (taken & e1 & [Hi _ _]). exists taken. cbn in e1. rewrite Hin in e1.
  split; [done|]. split; [apply Hi|]. intros i x pc Hx. pose proof (iv_ok _ _ _ _ _ Hi i _ Hx) as Hok. cbn [app] in Hok.
  assert (∀ ds, active (s_trace s) i x (expected count i taken) ds →
    seen i (s_trace s) ++ in_slots (s_trace s) x ++ goods (s_trace s) (ring (s_trace s) i) = expected count i taken) as Ha.
  { intros ds [b1 b2 b3 b4 b5]. rewrite <- b3. do 2 f_equal. unfold in_slots.
    replace (Z.to_nat (l_nb_packets x - l_offset x)) with (length ds) by (unfold Zlen in b1; lia). by apply holds_goods. }
  unfold thread_ok in Hok. cbn [fst snd] in Hok. destruct pc; (split; [|intros [K|K]; try discriminate K]); try exact Hok;
    try (destruct Hok as [ds Hac]; first [exact (Ha ds Hac)|rewrite <- (Ha ds Hac); by apply prefix_app_r]).
  destruct Hok as (_ & _ & <-). by apply prefix_app_r.
Qed.

(** C7: With a dedicated hasher and no ticks, and a trace whose reading ends with 0 or -1, in
    every reachable state: a per-packet thread whose round ends with the pause, or with the
    end of the trace and no message waiting, has given the user all the packets that were
    read for it. *)
Theorem pause_and_eof_deliver_all fuel tracetime input count create p' l h s i x q x' pc :
  (∀ d, 0 < size d) → tick_count cfg = 0 → eof = 0 ∨ eof = -1 → h_skipped h = false →
  trace_pstart_new (perpkt_cbs := perpkt_cbs) (reporter_cbs := reporter_cbs) (cfg := cfg) (new_ptrace input) count true 0 create = Ok (p', 0) →
  rtc (step fuel tracetime) (started_system p' l h) s → s_perpkts s !! i = Some (x, PcLoop) →
  perpkt_round size (user := user) (perpkt_cbs := perpkt_cbs) (reporter_cbs := reporter_cbs) (eof := eof) PreadHasher fuel (s_trace s) i x tracetime
    = Ok (q, x', pc) →
  pc = PcPaused ∨ pc = PcEof ∧ t_messages <$> p_threads (s_trace s) !! i = Some [] →
  ∃ taken, input = taken ++ p_input q ∧ seen i q = expected count i taken.
Proof.
  intros Hsize Htick Heof Hh Hstart Hr Hx Hround Hpc. destruct (started_pipeline _ _ _ _ l h Hh Hstart) as (Hpk & Hp0 & Hin).
  destruct (steps_pipeline _ _ _ _ _ _ Hpk Hsize Htick Heof Hr Hp0) as (taken & e1 & [Hi _ _]). exists taken. cbn in e1. rewrite Hin in e1.
  pose proof (iv_ok _ _ _ _ _ Hi i _ Hx) as [ds Hac]. cbn [app fst] in Hac. pose proof (own_rest _ _ _ _ _ _ _ Hi Hx) as Ho.
  apply (round_spec Hpk fuel _ i x (expected count i taken) ds _ tracetime q x' pc Ho) in Hround; [|done|apply Hi].
  destruct Hround as ((_ & _ & [Hf _]) & _ & _ & _ & _ & Hs). split; [unfold fixed in Hf; congruence|].
  apply Hs. destruct Hpc as [->|[-> Hm]]; [by left|right]. split; [done|]. intros t Ht. apply get_perpkt in Ht as (Ht & _).
  rewrite Ht in Hm. cbn in Hm. congruence.
Qed.
End delivery.

(** ** A run: two threads, three packets *)
Local Abbreviation routing_run :=
  (run (size := λ _ : Z, 60) (user := λ _ _, true) (perpkt_cbs := packet_callback) (reporter_cbs := None) (cfg := example_cfg) (eof := 0)
     (hash := λ d, d) PreadHasher 20 false).

Lemma size_60 : ∀ _ : Z, 0 < 60.
Proof. done. Qed.

(** Two packets are read; the first is given to the user. *)
Definition routing_acts : list act := [AStart 0; AStart 1; AHasher false; ARound 0; AHasher false; AHasher false].

Lemma packets_delivered_witness : ∃ p s taken,
  example_start = Ok (p, 0) ∧ routing_run (started_system p example_locals example_hasher) routing_acts = Some s ∧
  seen 0 (s_trace s) = [60] ∧ seen 1 (s_trace s) = [] ∧ [60; 61; 62] = taken ++ p_input (s_trace s) ∧ length (s_perpkts s) = 2%nat ∧
  ∀ i x pc, s_perpkts s !! i = Some (x, pc) →
    seen i (s_trace s) `prefix_of` expected (hash := λ d, d) 2 i taken ∧
    (pc = PcLoop ∨ pc = PcPaused →
     seen i (s_trace s) ++ in_slots (s_trace s) x ++ goods (s_trace s) (ring (s_trace s) i) = expected (hash := λ d, d) 2 i taken).
Proof.
  eexists _, _. assert (∀ A (P Q R S : Prop) (T : A → Prop), P → Q → R → S → (∃ a, T a) → ∃ a, P ∧ Q ∧ R ∧ S ∧ T a) as K.
  { intros A P Q R S T h1 h2 h3 h4 [a h5]. by exists a. }
  apply K; [vm_compute; reflexivity|vm_compute; reflexivity|vm_compute; reflexivity|vm_compute; reflexivity|].
  eapply (packets_delivered (size := λ _ : Z, 60) (user := λ _ _, true) (perpkt_cbs := packet_callback) (reporter_cbs := None)
    (cfg := example_cfg) (eof := 0) (hash := λ d, d) 20 false [60; 61; 62] 2 (λ _, 0) _ example_locals example_hasher);
    [exact size_60|reflexivity|by left|reflexivity|vm_compute; reflexivity|]. apply (run_steps PreadHasher 20 false routing_acts). vm_compute; reflexivity.
Defined.

(** Then the trace is paused; the next round of thread 0 gives the user the other packet. *)
Definition pausing_acts : list act := routing_acts ++ [APause false; AHasher false; APauseHasher; ARound 0].

Lemma pause_and_eof_deliver_all_witness : ∃ p s x q x',
  example_start = Ok (p, 0) ∧ routing_run (started_system p example_locals example_hasher) pausing_acts = Some s ∧
  s_perpkts s !! 0%nat = Some (x, PcLoop) ∧
  perpkt_round (λ _ : Z, 60) (user := λ _ _, true) (perpkt_cbs := packet_callback) (reporter_cbs := None) (eof := 0) PreadHasher 20
    (s_trace s) 0 x false = Ok (q, x', PcPaused) ∧
  seen 0 q = [60; 62] ∧ ∃ taken, [60; 61; 62] = taken ++ p_input q ∧ seen 0 q = expected (hash := λ d, d) 2 0 taken.
Proof.
  eexists _, _, _, _, _. split; [vm_compute; reflexivity|]. split; [vm_compute; reflexivity|]. split; [vm_compute; reflexivity|].
  split; [vm_compute; reflexivity|]. split; [vm_compute; reflexivity|].
  eapply (pause_and_eof_deliver_all (size := λ _ : Z, 60) (user := λ _ _, true) (perpkt_cbs := packet_callback) (reporter_cbs := None)
    (cfg := example_cfg) (eof := 0) (hash := λ d, d) 20 false [60; 61; 62] 2 (λ _, 0) _ example_locals example_hasher);
    [exact size_60|reflexivity|by left|reflexivity|vm_compute; reflexivity| | | |by left].
  - apply (run_steps PreadHasher 20 false pausing_acts). vm_compute; reflexivity.
  - vm_compute; reflexivity.
  - vm_compute; reflexivity.
Defined.
