(* ===== verification/ParErrors.v ===== *)
(** * Error paths of the parallel framework: lib/trace_parallel.c

    Pausing a trace that does not run, a start that fails half way, a tick behind a
    packet in a queue, and pausing a thread that has read the end of the trace. *)

From S2P Require Import Prelude DNodes FormatHelper Trace ParConfig Parallel ParThreads ParStates ParQuiesce.
Local Open Scope Z_scope.
Local Open Scope outcome_scope.

Section errors.
Context {D : Type} {perpkt_cbs : callback_set} {reporter_cbs : option callback_set} {cfg : user_configuration}.
Local Abbreviation ptrace := (@ptrace D).
Implicit Types (p : ptrace) (i : nat) (create : thread_ref → Z).

(** [trace_ppause] of a trace that is neither paused nor running fails, and keeps the
    lock: after it every call that takes the lock waits for ever, another
    [trace_ppause], a [trace_pstart], and the threads' own changes of state. *)
Theorem ppause_bad_state_keeps_lock p :
  p_lock p = false → p_state p ≠ STATE_PAUSED → p_started p = false ∨ p_state p ≠ STATE_RUNNING →
  ∃ p', ppause_begin p = Ok (p', Some (-1)) ∧ p_err p' = TRACE_ERR_BAD_STATE ∧ p_state p' = p_state p ∧ p_lock p' = true ∧
    ppause_begin p' = Fault Blocked ∧
    (∀ err, trace_pstart_again p' err = Fault Blocked) ∧
    (∀ r st, thread_change_state p' r st true = Fault Blocked) ∧
    (∀ st, libtrace_change_state p' st true = Fault Blocked).
Proof.
  intros Hl Hp Hr. unfold ppause_begin at 1, lock. rewrite Hl. cbn [obind pthread_mutex_lock p_set_ctl p_state p_started].
  rewrite bool_decide_false by done.
  assert (negb (p_started p) || negb (bool_decide (p_state p = STATE_RUNNING)) = true) as ->.
  { destruct Hr as [->|Hr]; [done|]. rewrite (bool_decide_false _ Hr). apply orb_true_r. }
  eexists. split; [reflexivity|]. split_and!; done.
Qed.

(** ** A start that fails *)
Definition started_worker : thread :=
  {| t_type := THREAD_PERPKT; t_state := THREAD_RUNNING; t_accepted_packets := 0; t_recorded_first := false;
     t_format_data := None; t_messages := []; t_rbuffer := [] |}.

Lemma replicate_insert {A} i (a b : A) l : <[i := a]> (replicate i a ++ b :: l) = replicate (S i) a ++ l.
Proof.
  induction i as [|i IH]; [done|]. cbn [replicate app] in *. by rewrite <- IH.
Qed.

Lemma replicate_lookup {A} i (a b : A) l : (replicate i a ++ b :: l) !! i = Some b.
Proof. induction i as [|i IH]; [done|]. exact IH. Qed.

Lemma start_perpkts_fails create m k : ∀ p i,
  p_threads p = replicate i started_worker ++ replicate (k + S m) libtrace_zero_thread →
  (∀ a, (i ≤ a < i + k)%nat → create (TPerpkt a) = 0) → create (TPerpkt (i + k)) ≠ 0 →
  ∃ p', start_perpkts (k + S m) p create i = Ok (p', false) ∧
    p_threads p' = replicate (i + k) started_worker ++ replicate (S m) libtrace_zero_thread ∧ p_states p' = p_states p ∧
    p_lock p' = p_lock p ∧ p_hasher p' = p_hasher p ∧ p_reporter p' = p_reporter p ∧ p_keepalive p' = p_keepalive p.
Proof.
  induction k as [|k IH]; intros p i Ht Hok Hfail.
  - rewrite Nat.add_0_r in *. cbn [Nat.add] in *. cbn [start_perpkts]. unfold trace_start_thread. cbn [get_thread].
    rewrite Ht. cbn [replicate]. rewrite replicate_lookup. cbn [obind].
    rewrite bool_decide_true by done. cbn [oassert obind].
    assert ((create (TPerpkt i) =? 0) = false) as E by lia. rewrite E. unfold trace_set_err. rewrite E. cbn [negb oassert obind].
    eexists. split; [reflexivity|]. cbn. split; [|done]. rewrite Ht. cbn [replicate].
    by rewrite list_insert_id by apply replicate_lookup.
  - cbn [Nat.add start_perpkts]. unfold trace_start_thread. cbn [get_thread]. rewrite Ht. cbn [Nat.add replicate].
    rewrite replicate_lookup. cbn [obind]. rewrite bool_decide_true by done. cbn [oassert obind].
    rewrite Hok by lia. cbn [Z.eqb obind].
    match goal with |- context [start_perpkts _ ?q _ _] => destruct (IH q (S i)) as (p' & H1 & H2 & H3 & H4 & H5 & H6 & H7) end.
    + cbn [set_thread p_set_threads p_threads]. rewrite Ht. cbn [Nat.add replicate]. exact (replicate_insert i started_worker _ _).
    + intros a Ha. apply Hok. lia.
    + by replace (S i + k)%nat with (i + S k)%nat by lia.
    + exists p'. replace (i + S k)%nat with (S i + k)%nat by lia. done.
Qed.

(** The threads that were started end one by one; each takes one from a counter that is zero. *)
Lemma end_perpkts_counts m k : ∀ p i,
  p_threads p = replicate i libtrace_zero_thread ++ replicate k started_worker ++ replicate (S m) libtrace_zero_thread →
  p_states p = [- Z.of_nat i; 0; Z.of_nat i; 0] → p_lock p = false →
  ∃ p', end_perpkts (k + S m) p i = Ok p' ∧ p_states p' = [- Z.of_nat (i + k); 0; Z.of_nat (i + k); 0] ∧ p_lock p' = false ∧
    p_reporter p' = p_reporter p ∧ p_keepalive p' = p_keepalive p.
Proof.
  induction k as [|k IH]; intros p i Ht Hs Hl.
  - rewrite Nat.add_0_r. cbn [Nat.add end_perpkts get_thread]. rewrite Ht. cbn [replicate app].
    rewrite replicate_lookup. cbn [obind]. rewrite bool_decide_false by done. by exists p.
  - cbn [Nat.add end_perpkts get_thread]. rewrite Ht. cbn [replicate app]. rewrite replicate_lookup. cbn [obind].
    rewrite bool_decide_true by done. unfold end_thread, lock. rewrite Hl. cbn [obind pthread_mutex_lock].
    unfold thread_change_state. cbn [obind get_thread p_set_ctl p_threads]. rewrite Ht. cbn [replicate app].
    rewrite replicate_lookup. cbn [obind]. rewrite bool_decide_true by done.
    cbn [p_states set_thread p_set_threads p_set_ctl]. rewrite Hs. cbn [started_worker t_state].
    change (let! states := add_state [- Z.of_nat i; 0; Z.of_nat i; 0] THREAD_RUNNING (-1) in add_state states THREAD_FINISHED 1)
      with (Ok [- Z.of_nat i + -1; 0; Z.of_nat i + 1; 0]). cbn [obind].
    change (aget [- Z.of_nat i + -1; 0; Z.of_nat i + 1; 0] (state_index THREAD_FINISHED)) with (Ok (Z.of_nat i + 1)). cbn [obind].
    unfold perpkt_thread_count. cbn [p_threads p_set_ctl p_set_threads].
    rewrite Zlen_insert, Ht. autorewrite with zlen. rewrite (proj2 (Z.eqb_neq _ _)) by lia. cbn [obind].
    unfold unlock. cbn [p_lock p_set_ctl p_set_threads pthread_mutex_unlock obind].
    match goal with |- context [end_perpkts _ ?q _] => destruct (IH q (S i)) as (p' & H1 & H2 & H3 & H4 & H5) end.
    + cbn [set_thread p_set_threads p_set_ctl p_threads]. rewrite ?Ht, list_insert_insert_eq. cbn [replicate app].
      exact (replicate_insert i libtrace_zero_thread _ _).
    + cbn [set_thread p_set_threads p_set_ctl p_states]. repeat f_equal; lia.
    + done.
    + exists p'. replace (i + S k)%nat with (S i + k)%nat by lia. done.
Qed.

Lemma end_if_hasher p :
  p_lock p = false → p_states p = [0; 0; 0; 0] → p_threads p ≠ [] →
  t_type (p_hasher p) = THREAD_HASHER ∨ t_type (p_hasher p) = THREAD_EMPTY →
  ∃ p', end_if p THasher THREAD_HASHER = Ok p' ∧ p_threads p' = p_threads p ∧ p_states p' = [0; 0; 0; 0] ∧ p_lock p' = false ∧
    p_reporter p' = p_reporter p ∧ p_keepalive p' = p_keepalive p.
Proof.
  intros Hl Hs Ht Hh. unfold end_if. cbn [get_thread obind]. destruct Hh as [Hh|Hh]; rewrite Hh; [|by exists p].
  rewrite bool_decide_true by done. unfold end_thread, lock. rewrite Hl. cbn [obind pthread_mutex_lock].
  unfold thread_change_state. cbn [obind get_thread p_set_ctl p_hasher]. rewrite Hh.
  rewrite bool_decide_false by done. cbn [obind set_thread p_set_threads p_set_ctl p_states]. rewrite Hs.
  change (aget [0; 0; 0; 0] (state_index THREAD_FINISHED)) with (Ok 0). cbn [obind].
  change (perpkt_thread_count _) with (Zlen (p_threads p)).
  rewrite (proj2 (Z.eqb_neq 0 (Zlen (p_threads p)))).
  - eexists. split; [reflexivity|]. done.
  - destruct (p_threads p); [done|]. rewrite Zlen_cons. pose proof (Zlen_nonneg l). lia.
Qed.

(** If a per-packet thread cannot be created after others have been, [trace_pstart]
    does not return an error: the threads that were started end, and each takes one
    from the number of running threads, which is set only when all have been started;
    the assertion of the clean-up fails. *)
Theorem failed_start_asserts p count dedicated create j :
  p_lock p = false → p_err p = 0 → p_state p = STATE_NEW → message_packet perpkt_cbs = true →
  t_type (p_reporter p) = THREAD_EMPTY → t_type (p_keepalive p) = THREAD_EMPTY → create THasher = 0 →
  (0 < j < count)%nat → (∀ i, (i < j)%nat → create (TPerpkt i) = 0) → create (TPerpkt j) ≠ 0 →
  trace_pstart_new (perpkt_cbs := perpkt_cbs) (reporter_cbs := reporter_cbs) (cfg := cfg) p count dedicated 0 create = Fault AssertFailed.
Proof.
  intros Hl He Hst Hcb Hr Hk Hh Hj Hok Hfail. unfold trace_pstart_new, lock. rewrite Hl. cbn [obind pthread_mutex_lock].
  cbn [p_set_ctl p_err p_state]. rewrite He, Hst, Hcb. rewrite (bool_decide_true (STATE_NEW = STATE_NEW)) by done. cbn [negb Z.eqb obind].
  match goal with |- context [if dedicated then ?x else ?y] => assert (∃ p1, (if dedicated then x else y) = Ok (p1, true) ∧
    p_states p1 = [0; 0; 0; 0] ∧ p_lock p1 = true ∧ p_reporter p1 = p_reporter p ∧ p_keepalive p1 = p_keepalive p ∧
    (t_type (p_hasher p1) = THREAD_HASHER ∨ t_type (p_hasher p1) = THREAD_EMPTY)) as (p1 & -> & h1 & h2 & h3 & h4 & h5) end.
  { destruct dedicated; [|eexists; split; [reflexivity|]; cbn; split_and!; auto]. unfold trace_start_thread.
    cbn [get_thread set_thread p_set_threads p_hasher obind]. rewrite (bool_decide_true (THREAD_EMPTY = THREAD_EMPTY)) by done. cbn [oassert obind]. rewrite Hh. cbn [Z.eqb].
    eexists; split; [reflexivity|]. cbn. split_and!; auto. }
  cbn [obind negb]. unfold start_threads. cbn [p_set_threads p_threads]. rewrite length_replicate.
  match goal with |- context [start_perpkts _ ?q _ _] =>
    destruct (start_perpkts_fails create (count - j - 1) j q 0) as (p2 & H & g1 & g2 & g3 & g4 & g5 & g6) end.
  { cbn [p_set_threads p_threads replicate app]. f_equal. lia. }
  { intros a Ha. apply Hok. lia. }
  { done. }
  replace (j + S (count - j - 1))%nat with count in H by lia. rewrite H. cbn [obind negb].
  cbn [p_set_threads p_states p_lock p_hasher p_reporter p_keepalive Nat.add] in *.
  assert (cleanup_threads p2 = Fault AssertFailed) as ->; [|done].
  unfold cleanup_threads, libtrace_change_state at 1, unlock. cbn [obind p_set_ctl p_lock]. rewrite g3, h2. cbn [obind pthread_mutex_unlock].
  match goal with |- context [end_if ?q THasher THREAD_HASHER] => destruct (end_if_hasher q) as (p3 & -> & k1 & k2 & k3 & k4 & k5) end.
  { done. } { cbn. congruence. } { cbn. rewrite g1. destruct j; [lia|done]. } { cbn. by rewrite g4. }
  cbn [obind p_set_ctl p_threads p_reporter p_keepalive] in *.
  destruct (end_perpkts_counts (count - j - 1) j p3 0) as (p4 & H4 & e1 & e2 & e3 & e4); [by rewrite k1|done|done|].
  rewrite k1, g1 at 1. rewrite length_app, !length_replicate. rewrite H4. cbn [obind Nat.add] in *.
  unfold end_if. cbn [get_thread obind]. rewrite e3, k4, g5, h3, Hr. rewrite bool_decide_false by done. cbn [obind].
  rewrite e4, k5, g6, h4, Hk. rewrite bool_decide_false by done. cbn [obind].
  unfold lock. rewrite e2. cbn [obind pthread_mutex_lock libtrace_change_state p_set_ctl p_states]. rewrite e1.
  change (aget [- Z.of_nat j; 0; Z.of_nat j; 0] (state_index THREAD_RUNNING)) with (Ok (- Z.of_nat j)). cbn [obind].
  assert ((- Z.of_nat j =? 0) = false) as -> by lia. done.
Qed.
End errors.

(** ** Ticks *)
Section ticks.
Context {D : Type} (size : D → Z) {user : nat → @ppacket D → bool} {perpkt_cbs : callback_set}
  {reporter_cbs : option callback_set} {eof : Z}.
Local Abbreviation ptrace := (@ptrace D).
Implicit Types (p : ptrace) (i : nat).
Local Abbreviation perpkt_packets := (perpkt_packets size (user := user) (perpkt_cbs := perpkt_cbs) (reporter_cbs := reporter_cbs) (eof := eof)).

Lemma get_recycle p slot r : get_thread (recycle p slot) r = get_thread p r.
Proof. by destruct slot, r. Qed.
Lemma packets_recycle p slot : p_packets (recycle p slot) = p_packets p.
Proof. by destruct slot. Qed.
Lemma get_set_thread p r t t0 : get_thread p r = Ok t0 → get_thread (set_thread p r t) r = Ok t.
Proof.
  destruct r as [i| | | |]; try done. cbn. intros H. destruct (p_threads p !! i) eqn:E; [|done].
  rewrite list_lookup_insert_eq; [done|]. by eapply lookup_lt_Some.
Qed.
Lemma packets_set_thread p r t : p_packets (set_thread p r t) = p_packets p.
Proof. by destruct r. Qed.
Lemma packet_error_at p l pk : p_packets p !! l = Some pk → packet_error p (Some l) = Ok (pp_error pk).
Proof. intros H. unfold packet_error, load. by rewrite H. Qed.

(** A thread whose saved result is a tick ends with an error. *)
Lemma saved_tick_stops p i t k pk s tracetime :
  get_thread p (TPerpkt i) = Ok t → t_format_data t = Some k → p_packets p !! k = Some pk → pp_error pk = READ_TICK →
  l_offset s = l_nb_packets s → l_empty s = l_nb_packets s →
  ∃ s', perpkt_packets PreadHasher p i s tracetime = Ok (p, s', PcError).
Proof.
  intros Ht Hf Hk He Ho Hn. unfold ParThreads.perpkt_packets, refill_and_read. rewrite Ho, Hn, Z.eqb_refl. cbn [obind].
  unfold pread, trace_pread_packet_hasher_thread. rewrite Ht. cbn [obind]. rewrite Hf, (packet_error_at _ _ _ Hk), He. cbn. by eexists.
Qed.

(** A tick that is in the queue right behind a packet is taken for the end of the
    trace, since the test for ticks looks at the first packet of the burst: it is kept
    as the last result, and when the packet has been dealt with the thread goes to
    the label [error], where it tells all threads to stop. *)
Theorem tick_behind_packet_stops p i t l k ring x0 x1 rest pl pk :
  get_thread p (TPerpkt i) = Ok t → t_format_data t = None → t_rbuffer t = l :: k :: ring →
  p_packets p !! l = Some pl → 0 < pp_error pl → p_packets p !! k = Some pk → pp_error pk = READ_TICK →
  ∃ p1 t1, pread size (eof := eof) PreadHasher p i (x0 :: x1 :: rest) = Ok (p1, Some l :: Some k :: rest, 1) ∧
    get_thread p1 (TPerpkt i) = Ok t1 ∧ t_format_data t1 = Some k ∧ t_rbuffer t1 = ring ∧
    (∀ p2 t2 s tracetime, get_thread p2 (TPerpkt i) = Ok t2 → t_format_data t2 = t_format_data t1 → p_packets p2 !! k = Some pk →
       l_offset s = l_nb_packets s → l_empty s = l_nb_packets s →
       ∃ s', perpkt_packets PreadHasher p2 i s tracetime = Ok (p2, s', PcError)).
Proof.
  intros Ht Hf Hr Hl Hel Hk Hek. unfold pread, trace_pread_packet_hasher_thread. rewrite Ht. cbn [obind]. rewrite Hf.
  rewrite aget_ok with (a := x0) by done. cbn [obind]. rewrite get_recycle, Ht. cbn [obind]. rewrite Hr.
  set (p1 := set_thread (recycle p x0) (TPerpkt i) (t_set_rbuffer t (k :: ring))).
  assert (get_thread p1 (TPerpkt i) = Ok (t_set_rbuffer t (k :: ring))) as Ht1
    by (unfold p1; eapply get_set_thread; by rewrite get_recycle).
  assert (p_packets p1 = p_packets p) as Hp1 by (unfold p1; by rewrite packets_set_thread, packets_recycle). clearbody p1.
  autorewrite with zlen. pose proof (Zlen_nonneg rest).
  rewrite aset_ok by (autorewrite with zlen; lia). cbn [obind Z.to_nat].
  rewrite (packet_error_at p1 l pl) by congruence. cbn [obind]. rewrite (proj2 (Z.leb_gt _ _)) by lia. cbn [andb].
  replace (Z.to_nat (1 + (1 + Zlen rest) - 1)) with (S (Z.to_nat (Zlen rest))) by lia.
  cbn [hasher_read_loop]. change (<[0%nat := Some l]> (x0 :: x1 :: rest)) with (Some l :: x1 :: rest).
  rewrite aget_ok with (a := x1) by done. cbn [obind]. rewrite get_recycle, Ht1. cbn [obind t_set_rbuffer t_set t_rbuffer].
  rewrite aset_ok by (autorewrite with zlen; lia). cbn [obind].
  change (<[Z.to_nat 1 := Some k]> (Some l :: x1 :: rest)) with (Some l :: Some k :: rest).
  rewrite (packet_error_at _ k pk) by (rewrite packets_recycle; congruence). cbn [obind].
  rewrite aget_ok with (a := Some l) by done. cbn [obind].
  rewrite (packet_error_at _ l pl) by (rewrite packets_recycle; congruence). cbn [obind].
  rewrite Hek. assert ((pp_error pl =? READ_TICK) = false) as -> by lia. cbn [negb andb Z.leb Z.compare Z.eqb Pos.eqb].
  cbn [t_format_data t_set]. rewrite ?Hf, bool_decide_true by done. cbn [oassert obind].
  eexists _, _. split; [reflexivity|]. split; [eapply get_set_thread; by rewrite get_recycle|]. split; [done|]. split; [done|].
  intros p2 t2 s tracetime Ht2 Hf2 Hk2 Ho Hn. eapply (saved_tick_stops p2 i t2 k pk); try done.
Qed.
End ticks.

(** ** Pausing after the end *)
Section saved_end.
Context {D : Type} {size : D → Z} {user : nat → @ppacket D → bool} {perpkt_cbs : callback_set}
  {reporter_cbs : option callback_set} {eof : Z}.
Local Abbreviation ptrace := (@ptrace D).
Implicit Types (p : ptrace) (i : nat).

(** Thread [i] has kept the end of the trace or an error as the result of the last
    read, and something is in its queue. *)
Definition ended p i : Prop :=
  ∃ t k pk, get_thread p (TPerpkt i) = Ok t ∧ t_format_data t = Some k ∧ t_rbuffer t ≠ [] ∧ p_packets p !! k = Some pk ∧
    (pp_error pk = READ_EOF ∨ pp_error pk = READ_ERROR).

(** The field [error] of the packet that the free list gives next: that of a new packet,
    or what was left there when the packet was given back. *)
Definition spare_error p : outcome Z :=
  match p_free p with l :: _ => packet_error p (Some l) | [] => Ok (pp_error (@new_ppacket D)) end.

(** A read gives the result again and takes nothing from the queue. *)
Lemma ended_read p i slots nb :
  ended p i → ∃ e, (e = READ_EOF ∨ e = READ_ERROR) ∧ trace_pread_packet_hasher_thread p i slots nb = Ok (p, slots, e).
Proof using.
  clear. intros (t & k & pk & h1 & h2 & h3 & h4 & h5). exists (pp_error pk). split; [done|]. unfold trace_pread_packet_hasher_thread.
  rewrite h1. cbn [obind]. rewrite h2. unfold packet_error, load. by rewrite h4.
Qed.

(** The check that the queue is empty goes round for ever, in the same state, or its
    assertion on the packet fails at once. *)
Lemma ended_verify fuel p i slot e2 :
  ended p i → packet_error p slot = Ok e2 →
  verify_no_packets fuel p i slot = Fault (if (e2 <=? 0) || (fuel =? 0)%nat then OutOfFuel else AssertFailed).
Proof using.
  clear. intros He H2. induction fuel as [|fuel IH]; [by rewrite orb_true_r|]. cbn [verify_no_packets].
  destruct (ended_read p i [slot] 1 He) as (e & Hle & Hr). destruct He as (t & k & pk & h1 & _ & h3 & _). rewrite h1. cbn [obind].
  destruct (t_rbuffer t); [done|]. rewrite Hr. cbn [obind]. rewrite (proj2 (Z.leb_le e 0)) by lia.
  change (aget [slot] 0) with (Ok slot). cbn [oassert obind]. rewrite H2. cbn [obind]. rewrite IH. by destruct (e2 <=? 0).
Qed.

Lemma ended_drain fuel p i slot e2 :
  ended p i → packet_error p slot = Ok e2 →
  drain_queue (user := user) (perpkt_cbs := perpkt_cbs) (reporter_cbs := reporter_cbs) (S (S fuel)) p i slot
    = Fault (if e2 <=? 0 then OutOfFuel else AssertFailed).
Proof using.
  clear. intros He H2. remember (S fuel) as n eqn:En. cbn [drain_queue].
  destruct (ended_read p i [slot] 1 He) as (e & Hle & Hr). pose proof He as (t & k & pk & h1 & h2 & h3 & _). rewrite h1. cbn [obind].
  unfold queue_is_empty. rewrite h2. destruct (t_rbuffer t); [done|]. rewrite Hr. cbn [obind].
  change (aget [slot] 0) with (Ok slot). cbn [obind]. rewrite (proj2 (Z.eqb_neq e 1)), (proj2 (Z.eqb_neq e READ_MESSAGE)) by lia.
  rewrite (ended_verify n p i slot e2 He H2), En. destruct Hle as [-> | ->]; by destruct (e2 <=? 0).
Qed.

Lemma ended_alloc p i e2 :
  ended p i → p_packets p !! p_next p = None → spare_error p = Ok e2 →
  ended (fst (alloc_packet p)) i ∧ packet_error (fst (alloc_packet p)) (Some (snd (alloc_packet p))) = Ok e2.
Proof using.
  clear. intros (t & k & pk & h1 & h2 & h3 & h4 & h5) Hn H2. unfold alloc_packet, spare_error in *.
  destruct (p_free p) as [|l free]; cbn [fst snd].
  - split.
    + exists t, k, pk. split_and!; try done. cbn. rewrite lookup_insert_ne; [done|]. intros Ek. by rewrite Ek, h4 in Hn.
    + unfold packet_error, load. cbn. by rewrite lookup_insert_eq.
  - split; [by exists t, k, pk|exact H2].
Qed.

Lemma send_message_heap p r type data sender :
  let p' := send_message (perpkt_cbs := perpkt_cbs) (reporter_cbs := reporter_cbs) p r type data sender in
  (∀ i, ended p i → ended p' i) ∧ p_packets p' = p_packets p ∧ p_free p' = p_free p ∧ p_next p' = p_next p ∧
  trace_has_dedicated_hasher p' = trace_has_dedicated_hasher p.
Proof using. clear. unfold send_message. split; [intros i H|split_and!]; repeat case_match; try done. Qed.

(** C40: A thread that has kept the end of the trace, or an error, as its last result and that
    is then paused does not come back from the check that its queue is empty: reading gives
    the same result again without taking anything from the queue, in which
    [trace_ppause] has put a packet to wake the thread.  If the packet that the thread
    took from the free list is new, or was given back with an end or an error, the
    loop goes on for ever: whatever the bound on the rounds, it is reached.  If the
    packet had held data, its field [error] still has the size, and the assertion of the
    loop fails in the first round.  So neither the thread nor [trace_ppause], which
    waits for it, ever goes on. *)
Theorem pause_after_end_never_returns p i t m ms k pk s tracetime e2 :
  get_thread p (TPerpkt i) = Ok t → t_messages t = m :: ms → m_code m = MESSAGE_DO_PAUSE → t_format_data t = Some k →
  t_rbuffer t ≠ [] → p_packets p !! k = Some pk → pp_error pk = READ_EOF ∨ pp_error pk = READ_ERROR →
  trace_has_dedicated_hasher p = true → l_offset s = l_nb_packets s →
  p_packets p !! p_next p = None → spare_error p = Ok e2 →
  ∀ fuel, perpkt_round size (user := user) (perpkt_cbs := perpkt_cbs) (reporter_cbs := reporter_cbs) (eof := eof) PreadHasher
    (S (S fuel)) p i s tracetime = Fault (if e2 <=? 0 then OutOfFuel else AssertFailed).
Proof.
  intros h1 h2 h3 h4 h5 h6 h7 h8 h9 h10 h11 fuel. unfold perpkt_round. rewrite h1. cbn [obind]. rewrite h2, h3.
  cbn [Z.eqb Pos.eqb]. set (p1 := set_thread p _ _).
  assert (ended p1 i) as He1.
  { exists (t_set_messages t ms), k, pk. split_and!; try done. by eapply get_set_thread. }
  assert (p_packets p1 !! p_next p1 = None) as Hn1 by done. assert (spare_error p1 = Ok e2) as Hs1 by done.
  assert (trace_has_dedicated_hasher p1 = true) as Hd1 by done. clearbody p1. unfold perpkt_pause.
  destruct (send_message_heap p1 (TPerpkt i) MESSAGE_PAUSING 0 (Some (TPerpkt i))) as (He & Ep & Ef & En & Ed).
  set (p2 := send_message p1 _ _ _ _) in *. specialize (He i He1). rewrite Hd1 in Ed.
  assert (p_packets p2 !! p_next p2 = None) as Hn2 by (by rewrite Ep, En).
  assert (spare_error p2 = Ok e2) as Hs2 by (unfold spare_error, packet_error in *; by rewrite Ef, Ep). clearbody p2.
  unfold dispatch_packets. rewrite h9, Z.sub_diag. change (Z.to_nat 0) with 0%nat. cbn [dispatch_loop obind oassert Z.eqb].
  destruct (ended_alloc p2 i e2 He Hn2 Hs2) as [He3 Hl3].
  assert (trace_has_dedicated_hasher (fst (alloc_packet p2)) = true) as Hd3 by (unfold alloc_packet; by destruct (p_free p2)).
  destruct (alloc_packet p2) as [p3 l]. cbn [fst snd] in *. rewrite Hd3.
  rewrite (ended_drain fuel p3 i (Some l) e2 He3 Hl3). by destruct (e2 <=? 0).
Qed.
End saved_end.

(** ** Examples *)
Lemma ppause_bad_state_keeps_lock_witness :
  ∃ p', ppause_begin (new_ptrace [60; 61]) = Ok (p', Some (-1)) ∧ ppause_begin p' = Fault Blocked.
Proof.
  destruct (ppause_bad_state_keeps_lock (new_ptrace [60; 61])) as (p' & H & _ & _ & _ & H' & _); [done|done|by left|]. by exists p'.
Defined.

(** The second of three threads cannot be created. *)
Definition failing_create (r : thread_ref) : Z := if bool_decide (r = TPerpkt 1) then 11 else 0.

Lemma failed_start_asserts_witness :
  trace_pstart_new (perpkt_cbs := packet_callback) (reporter_cbs := None) (cfg := example_cfg) (new_ptrace [60; 61]) 3 true 0 failing_create
    = Fault AssertFailed.
Proof.
  apply (failed_start_asserts (new_ptrace [60; 61]) 3 true failing_create 1); try done; try lia.
  intros i Hi. assert (i = 0%nat) as -> by lia. done.
Defined.

(** A queue with a packet of 60 bytes and a tick. *)
Definition tick_worker : thread :=
  {| t_type := THREAD_PERPKT; t_state := THREAD_RUNNING; t_accepted_packets := 0; t_recorded_first := false;
     t_format_data := None; t_messages := []; t_rbuffer := [1; 2]%positive |}.
Definition tick_trace : @ptrace Z :=
  let p := new_ptrace [] in
  p_set_heap (p_set_threads p [tick_worker] (p_hasher p) (p_reporter p) (p_keepalive p))
    {[1%positive := {| pp_error := 60; pp_order := 1; pp_hash := 0; pp_data := Some 60 |};
      2%positive := {| pp_error := READ_TICK; pp_order := 1; pp_hash := 0; pp_data := None |}]} [] 3%positive.

Lemma tick_behind_packet_stops_witness :
  ∃ p1 t1, pread (λ d : Z, d) (eof := 0) PreadHasher tick_trace 0 [None; None] = Ok (p1, [Some 1%positive; Some 2%positive], 1) ∧
    get_thread p1 (TPerpkt 0) = Ok t1 ∧ t_format_data t1 = Some 2%positive.
Proof.
  destruct (tick_behind_packet_stops (λ d : Z, d) (user := λ _ _, true) (perpkt_cbs := packet_callback) (reporter_cbs := None) (eof := 0)
    tick_trace 0 tick_worker 1%positive 2%positive [] None None []
    {| pp_error := 60; pp_order := 1; pp_hash := 0; pp_data := Some 60 |}
    {| pp_error := READ_TICK; pp_order := 1; pp_hash := 0; pp_data := None |}) as (p1 & t1 & H1 & H2 & H3 & _);
    try reflexivity. by exists p1, t1.
Defined.

(** The thread 0 reads a packet with the end of the trace behind it, and the trace is
    paused. *)
Local Abbreviation hang_run :=
  (run (size := λ d : Z, d) (user := λ _ _, true) (perpkt_cbs := packet_callback) (reporter_cbs := None) (cfg := example_cfg) (eof := 0)
     (hash := λ d, d) PreadHasher 20 false).
Definition hang_acts : list act :=
  [AStart 0; AStart 1; AHasher false; ARound 0; AHasher false; AHasher false; AHasher false; AHasherFinish; ARound 0; ARound 0;
   APause false; APauseHasher].

(** The free list is empty, so that the thread takes a new packet and goes round for
    ever; with the packet that was given back by then in the list (it had held 62
    bytes) the assertion fails. *)
Lemma pause_after_end_never_returns_witness :
  ∃ p s x, example_start = Ok (p, 0) ∧ hang_run (started_system p example_locals example_hasher) hang_acts = Some s ∧
    s_perpkts s !! 0%nat = Some (x, PcLoop) ∧
    let round fuel p := perpkt_round (λ d : Z, d) (user := λ _ _, true) (perpkt_cbs := packet_callback) (reporter_cbs := None) (eof := 0)
      PreadHasher (S (S fuel)) p 0 x false in
    (∀ fuel, round fuel (s_trace s) = Fault OutOfFuel) ∧
    ∀ fuel, round fuel (p_set_heap (s_trace s) (p_packets (s_trace s)) [1%positive] (p_next (s_trace s))) = Fault AssertFailed.
Proof.
  eexists _, _, _. split; [vm_compute; reflexivity|]. split; [vm_compute; reflexivity|]. split; [vm_compute; reflexivity|].
  split; intros fuel.
  - change OutOfFuel with (if 0 <=? 0 then OutOfFuel else AssertFailed).
    eapply pause_after_end_never_returns; try (vm_compute; reflexivity); [vm_compute; done|vm_compute; by left].
  - change AssertFailed with (if 62 <=? 0 then OutOfFuel else AssertFailed).
    eapply pause_after_end_never_returns; try (vm_compute; reflexivity); [vm_compute; done|vm_compute; by left].
Defined.
