(* ===== verification/ParMessages.v ===== *)
(** * Callbacks, the users' message functions and the keepalive thread: lib/trace_parallel.c

    A callback is represented by whether it is set.  The clock, and whether
    [select] finds a message before its time is over, are arguments of a round of
    the keepalive thread. *)

From S2P Require Import Prelude Timestamps Trace ParConfig Parallel FirstServed ParThreads ParQuiesce.
Local Open Scope Z_scope.
Local Open Scope outcome_scope.

(** ** Setting callbacks *)
Section setters.
Implicit Types (cbset : callback_set) (handler : bool).

Definition trace_set_starting_cb cbset handler : callback_set * Z :=
  let '(Build_callback_set _ b c d e f g h i j) := cbset in (Build_callback_set handler b c d e f g h i j, 0).
Definition trace_set_stopping_cb cbset handler : callback_set * Z :=
  let '(Build_callback_set a _ c d e f g h i j) := cbset in (Build_callback_set a handler c d e f g h i j, 0).
Definition trace_set_resuming_cb cbset handler : callback_set * Z :=
  let '(Build_callback_set a b _ d e f g h i j) := cbset in (Build_callback_set a b handler d e f g h i j, 0).
Definition trace_set_pausing_cb cbset handler : callback_set * Z :=
  let '(Build_callback_set a b c _ e f g h i j) := cbset in (Build_callback_set a b c handler e f g h i j, 0).
Definition trace_set_packet_cb cbset handler : callback_set * Z :=
  let '(Build_callback_set a b c d _ f g h i j) := cbset in (Build_callback_set a b c d handler f g h i j, 0).
Definition trace_set_result_cb cbset handler : callback_set * Z :=
  let '(Build_callback_set a b c d e _ g h i j) := cbset in (Build_callback_set a b c d e handler g h i j, 0).
Definition trace_set_first_packet_cb cbset handler : callback_set * Z :=
  let '(Build_callback_set a b c d e f _ h i j) := cbset in (Build_callback_set a b c d e f handler h i j, 0).
Definition trace_set_tick_count_cb cbset handler : callback_set * Z :=
  let '(Build_callback_set a b c d e f g _ i j) := cbset in (Build_callback_set a b c d e f g handler i j, 0).
Definition trace_set_tick_interval_cb cbset handler : callback_set * Z :=
  let '(Build_callback_set a b c d e f g h _ j) := cbset in (Build_callback_set a b c d e f g h handler j, 0).
Definition trace_set_user_message_cb cbset handler : callback_set * Z :=
  let '(Build_callback_set a b c d e f g h i _) := cbset in (Build_callback_set a b c d e f g h i handler, 0).
End setters.

(** ** Messages for the user, and ticks *)
Section messages.
Context {D : Type} {cfg : user_configuration}.
Local Abbreviation ptrace := (@ptrace D).
Implicit Types (p : ptrace) (i : nat).

(** [t] is [None] for a null pointer: the thread that calls is meant. *)
Definition message_target p (self : thread_ref) (t : option thread_ref) : option thread_ref :=
  match t with Some r => Some r | None => get_thread_descriptor p self end.

Definition libtrace_thread_get_message_count p (self : thread_ref) (t : option thread_ref) : outcome Z :=
  match message_target p self t with
  | None => Ok (-1)
  | Some r => let! th := get_thread p r in Ok (Zlen (t_messages th))
  end.

(** The result of a message that is there is the number of messages before the call. *)
Definition libtrace_thread_get_message p (self : thread_ref) (t : option thread_ref) : outcome (ptrace * option libtrace_message_t * Z) :=
  match message_target p self t with
  | None => Ok (p, None, -1)
  | Some r =>
      let! th := get_thread p r in
      match t_messages th with
      | [] => Fault Blocked
      | m :: ms => Ok (set_thread p r (t_set_messages th ms), Some m, Zlen (t_messages th))
      end
  end.

Definition libtrace_thread_try_get_message p (self : thread_ref) (t : option thread_ref) : outcome (ptrace * option libtrace_message_t * Z) :=
  match message_target p self t with
  | None => Ok (p, None, -1)
  | Some r =>
      let! th := get_thread p r in
      match t_messages th with
      | [] => Ok (p, None, -1)
      | m :: ms => Ok (set_thread p r (t_set_messages th ms), Some m, 0)
      end
  end.

(** The 32.32 fixed point time of a tick. *)
Definition tick_time (prev : timeval) : Z :=
  u64 (u64 (Z.shiftl (u64 (tv_sec prev)) 32) + u64 (Z.shiftl (u64 (tv_usec prev)) 32) / 1000000).

(** A round of the loop of [keepalive_entry]; [None]: the thread was told to stop. *)
Definition keepalive_round p (prev now : timeval) (message : bool) : outcome (ptrace * option timeval) :=
  let next_release := u64 (tv_to_usec prev + u64 (tick_interval cfg * 1000)) in
  if (tv_to_usec now <? next_release) && message then
    match t_messages (p_keepalive p) with
    | [] => Fault Blocked
    | m :: ms =>
        let p := set_thread p TKeepalive (t_set_messages (p_keepalive p) ms) in
        let! _ := oassert (m_code m =? MESSAGE_DO_STOP) in
        Ok (p, None)
    end
  else
    let prev := usec_to_tv next_release in
    let m := {| m_code := MESSAGE_TICK_INTERVAL; m_data := tick_time prev; m_sender := None |} in
    let p := if bool_decide (p_state p = STATE_RUNNING) then fst (trace_message_perpkts p TKeepalive m) else p in
    Ok (p, Some prev).

(** The loop, with the time at which each round looks at the clock and what [select] finds. *)
Fixpoint keepalive_loop p (prev : timeval) (rounds : list (timeval * bool)) : outcome (ptrace * option timeval) :=
  if bool_decide (p_state p = STATE_FINISHED) then Ok (p, Some prev)
  else
    match rounds with
    | [] => Ok (p, Some prev)
    | (now, message) :: rounds =>
        let! ' (p, prev) := keepalive_round p prev now message in
        match prev with
        | None => Ok (p, None)
        | Some prev => keepalive_loop p prev rounds
        end
    end.

Definition keepalive_end p : outcome ptrace := thread_change_state p TKeepalive THREAD_FINISHED true.

(** ** The ticks do not drift *)
Definition tick_message (u : Z) : libtrace_message_t :=
  {| m_code := MESSAGE_TICK_INTERVAL; m_data := u * 2 ^ 32 / 1000000; m_sender := None |}.

(** The first [n] ticks after the time [u], in microseconds. *)
Fixpoint ticks (n : nat) (u : Z) : list libtrace_message_t :=
  match n with
  | O => []
  | S n' => let u := u + tick_interval cfg * 1000 in tick_message u :: ticks n' u
  end.

Definition with_messages (ms : list libtrace_message_t) (t : thread) : thread :=
  if is_alive (t_state t) then t_set_messages t (t_messages t ++ ms) else t.

Lemma tick_time_ok u : 0 ≤ u < 2 ^ 32 * 1000000 → tick_time (usec_to_tv u) = u * 2 ^ 32 / 1000000.
Proof.
  intros Hu. unfold tick_time, usec_to_tv. cbn [tv_sec tv_usec]. rewrite !Z.shiftl_mul_pow2 by lia.
  pose proof (Z.div_mod u 1000000 ltac:(lia)) as Hd. pose proof (Z.mod_pos_bound u 1000000 ltac:(lia)) as Hm.
  assert (0 ≤ u / 1000000 < 2 ^ 32) by (split; [apply Z.div_pos; lia|apply Z.div_lt_upper_bound; lia]).
  set (s := u / 1000000) in *. set (m := u `mod` 1000000) in *.
  assert (0 ≤ m * 2 ^ 32 / 1000000 < 2 ^ 32) by (split; [apply Z.div_pos; lia|apply Z.div_lt_upper_bound; lia]).
  unfold u64. rewrite !(Z.mod_small s), !(Z.mod_small m) by lia.
  rewrite (Z.mod_small (s * 2 ^ 32)), (Z.mod_small (m * 2 ^ 32)) by lia. rewrite Z.mod_small by lia.
  replace (u * 2 ^ 32) with (s * 2 ^ 32 * 1000000 + m * 2 ^ 32) by lia. rewrite Z.div_add_l by lia. done.
Qed.

Lemma with_messages_nil t : with_messages [] t = t.
Proof. unfold with_messages. destruct (is_alive _); [|done]. rewrite app_nil_r. by destruct t. Qed.

Lemma with_messages_app ms ms' t : with_messages ms' (with_messages ms t) = with_messages (ms ++ ms') t.
Proof. unfold with_messages. destruct (is_alive (t_state t)) eqn:E; cbn; rewrite E; [|done]. unfold t_set_messages. cbn. by rewrite app_assoc. Qed.

Lemma keepalive_sender p m : with_sender p TKeepalive m = m.
Proof.
  unfold with_sender, get_thread_descriptor. cbn [get_thread_table].
  rewrite !(bool_decide_false (TKeepalive = _)), !andb_false_r by done. by destruct m as [? ? []].
Qed.

(** While a trace runs, every per-packet thread that has not ended gets the [k]-th tick with
    the time of the start plus [k] intervals, in order, however late the keepalive
    thread wakes up each time. *)
Theorem keepalive_ticks_exact p prev rounds :
  p_state p = STATE_RUNNING → tv_ok prev → 0 < tick_interval cfg → Forall (λ r, r.2 = false) rounds →
  usec prev + Zlen rounds * (tick_interval cfg * 1000) < 2 ^ 32 * 1000000 →
  ∃ p' prev', keepalive_loop p prev rounds = Ok (p', Some prev') ∧
    usec prev' = usec prev + Zlen rounds * (tick_interval cfg * 1000) ∧
    p_threads p' = map (with_messages (ticks (length rounds) (usec prev))) (p_threads p) ∧ p_state p' = STATE_RUNNING.
Proof.
  intros Hp Hprev Hi Hr Hb. revert p prev Hp Hprev Hb.
  induction rounds as [|[now msg] rounds IH]; intros p prev Hp Hprev Hb; cbn [keepalive_loop]; rewrite bool_decide_false by congruence.
  { exists p, prev. split; [done|]. split; [change (Zlen []) with 0; lia|]. split; [|done].
    rewrite <- (map_id (p_threads p)) at 1. apply map_ext. intros t. by rewrite with_messages_nil. }
  rewrite Zlen_cons in Hb |- *. pose proof (Zlen_nonneg rounds). apply Forall_cons in Hr as [Hm Hr]. cbn in Hm. subst msg.
  destruct (tv_to_usec_ok prev Hprev) as [Hu Hu'].
  assert (u64 (tv_to_usec prev + u64 (tick_interval cfg * 1000)) = usec prev + tick_interval cfg * 1000) as Hn.
  { rewrite Hu. unfold u64. rewrite (Z.mod_small (tick_interval cfg * 1000)) by nia. rewrite Z.mod_small by nia. done. }
  unfold keepalive_round. rewrite Hn, andb_false_r. set (u := usec prev + tick_interval cfg * 1000) in *.
  rewrite (bool_decide_true (p_state p = STATE_RUNNING)) by done. cbn [obind].
  destruct (IH Hr (fst (trace_message_perpkts p TKeepalive
    {| m_code := MESSAGE_TICK_INTERVAL; m_data := tick_time (usec_to_tv u); m_sender := None |})) (usec_to_tv u))
    as (p' & prev' & H1 & H2 & H3 & H4); [done| | |].
  { unfold tv_ok, usec_to_tv. cbn. split; [|apply Z.mod_pos_bound; lia].
    split; [apply Z.div_pos; lia|apply Z.div_lt_upper_bound; nia]. }
  { rewrite usec_to_tv_ok by lia. nia. }
  exists p', prev'. split; [done|]. rewrite usec_to_tv_ok in H2, H3 by lia. split; [lia|]. split; [|done].
  rewrite H3. unfold trace_message_perpkts. cbn [fst p_set_threads p_threads length ticks].
  rewrite map_map. apply map_ext. intros t. fold u. change (tick_message u :: ticks (length rounds) u) with ([tick_message u] ++ ticks (length rounds) u).
  rewrite <- with_messages_app. f_equal. rewrite tick_time_ok by nia. by rewrite keepalive_sender.
Qed.
End messages.

Definition tick_cfg : user_configuration := assign (TickInterval 250) example_cfg.
Definition running_trace : @ptrace Z :=
  let p := new_ptrace [] in
  p_set_ctl (p_set_threads p [empty_thread; t_set_state empty_thread THREAD_FINISHED] (p_hasher p) (p_reporter p) (p_keepalive p))
    STATE_RUNNING true 0 false [1; 0; 1; 0].

(** Two ticks, 250 ms apart, from half a second on; the clock is late. *)
Lemma keepalive_ticks_exact_witness :
  ∃ p' prev', keepalive_loop (cfg := tick_cfg) running_trace {| tv_sec := 10; tv_usec := 500000 |}
    [({| tv_sec := 10; tv_usec := 500003 |}, false); ({| tv_sec := 11; tv_usec := 900000 |}, false)] = Ok (p', Some prev') ∧
    map t_messages (p_threads p') = [[tick_message 10750000; tick_message 11000000]; []].
Proof.
  destruct (keepalive_ticks_exact (cfg := tick_cfg) running_trace {| tv_sec := 10; tv_usec := 500000 |}
    [({| tv_sec := 10; tv_usec := 500003 |}, false); ({| tv_sec := 11; tv_usec := 900000 |}, false)]) as (p' & prev' & H1 & _ & H3 & _).
  - done.
  - unfold tv_ok. cbn. lia.
  - cbn. lia.
  - by repeat constructor.
  - vm_compute. done.
  - exists p', prev'. split; [done|]. rewrite H3. reflexivity.
Defined.
